(* ===== verification/_CoqProject ===== *)
-Q . S2P
Prelude.v
Memory.v
Kstring.v
Spinlock.v
Mmu.v
Kalloc.v
Procdef.v
Vm.v
Vminv.v
Vmspec.v
Vmalloc.v
Cow.v
Vmexample.v
Fault.v
Vmprops.v
Stack.v
Sched.v
Schedinv.v
Schedprops.v
Monitor.v
Pipe.v
Sleeplock.v
Buf.v
Bio.v
Log.v
Crash.v
Journal.v
Logsys.v
Fs.v
Fsblock.v
Fsinode.v
Fsfile.v
Fsrw.v
Fstrunc.v
Fsdir.v
Fsexample.v
Fsprops.v
Umalloc.v
Sh.v
Shparse.v
Shgrammar.v
Syscall.v
File.v
Fileinv.v
Fileprops.v
Console.v
Kbd.v
Printf.v
Sync.v
Sysproc.v
Grep.v
Inoderef.v
Namei.v
Sysfile.v
Sysprops.v
Ide.v
Mkfs.v
Exec.v
Execmem.v
Execvdso.v
Execload.v
Execprops.v
Execfs.v
