(* ===== verification/Prelude.v ===== *)
(** * A verification of the xv6 kernel of this repository

    The program is xv6, a small Unix for x86 multiprocessors, with copy-on-write fork,
    user stacks that grow on page faults above a guard page, pages shared between
    processes, futexes, and a page of code and data that the kernel maps into every
    process (VDSO).  Its parts: the physical page allocator and the page tables; the
    process table with its scheduler, and spin and sleep locks; the disk buffer cache,
    the log and the file system on top of each other; pipes, open files and the
    console; the system call layer; in user space the memory allocator, printf, the
    mutexes and condition variables, the shell and grep; and mkfs, which builds the disk
    on the host.

    ** Conventions

    A 32-bit word is a [Z] kept in range with [u32] or [s32]; wrap-around is written
    out where the C code can reach it.  Memory is a finite map from addresses to bytes
    (Memory.v).  Kernel code is written in the monad [K] of this file: a routine maps a
    state to an [outcome], which is a result, a panic, a fault (the code would touch
    what it may not), a sleep on a channel, or divergence (fuel ran out).  [wp] says
    that a routine returns and what holds then; [wsafe] that it returns or spins on a
    lock, without a panic, a fault or a sleep; [wlp] what holds when it returns, for
    steps whose outcome is given and for the balance of locks and references in the
    system calls, some of which do panic or sleep.  Concurrency is a step relation over the
    points where code can be interrupted: single accesses for spin locks and user
    code, whole critical sections for code that runs with a spin lock held (Monitor.v).

    ** Files, sources and theorems

    - Prelude, Memory: the monad and its rules, words, arithmetic, bytes.
    - Kstring (string.c): memmove, memset and the string routines do what their
      contracts say, overlap and termination included.
    - Spinlock (spinlock.c): acquire, release, pushcli and popcli on several CPUs;
      mutual exclusion, and interrupts are off while a lock is held.
    - Mmu (mmu.h, memlayout.h), Kalloc (kalloc.c): the free list with a reference count
      per page refines an abstract pool; initialisation frees every page once.
    - Procdef (proc.h), Vm (vm.c, sysvdso.c), Vminv, Vmspec, Vmalloc, Cow, Fault,
      Stack, Vmprops, Vmexample: page tables in memory, their invariant with the
      reference counts, and what processes see: a store to a readable page, for each kind
      of page and also when memory runs out, with what every other address space reads
      then; the entries that copy-on-write fork leaves on both sides; allocuvm, freevm,
      setupkvm; and the growth of the stack in the page fault handler, before and after
      a fork.
    - Sysproc (proc.c, sysproc.c): sbrk and shmbrk on this virtual memory, with what
      they do when memory runs out and when the size would become 0 or negative.
    - Exec (exec.c, elf.h, vm.c), Execmem, Execvdso, Execload, Execprops, Execfs: exec
      over the class [Files] of the file operations it calls; Execfs has the file system
      on the log as its instance.  Execmem has what building an address
      space beside the others does to memory, Execvdso the pages it shares with them,
      Execload the segments against the image the file describes; Execprops the stack and
      the change of the process: it runs exactly that program, or is as it was.
    - Sched (proc.c), Schedinv, Schedprops: the process table on any number of CPUs (class
      [machine]: the CPUs that mp.c finds, and their ids), context switches, sleep, wakeup,
      fork, exit, wait, kill and futexes; the invariant in every reachable state; that no
      panic is reached but that of init in exit, given sound memory for fork and for the
      reaping in wait; and the dispatching of runnable processes.
    - Monitor: objects under a spin lock whose operations sleep; used by Pipe (pipe.c),
      Sleeplock (sleeplock.c), Log and Console.  A pipe refines a bounded queue and
      loses no wakeup unless a process is killed; sleep locks exclude.
    - Buf (buf.h, memide.c), Bio (bio.c): the class [DiskDriver] is what the cache needs
      of a disk, the memory disk an instance; the LRU cache is transparent.
    - Ide (ide.c): the queue of requests, the programming of the controller and its
      interrupt handler, over the ports of the machine (class [Hardware]) and what an ATA
      disk promises (class [Ata], with a simulated disk as an instance): requests are
      served in order, none is lost, and iderw returns when the disk has done the work.
    - Log (log.c), Crash, Journal, Logsys: commit and recovery; an operation is atomic
      wherever the machine stops, also during recovery; the reservation of log space
      under concurrency, and how a log of LOGSIZE blocks overflows.  [Blocks] and
      [BlocksSpec] are the interface the file system is written and proved against.
    - Fs (fs.c), Fsblock, Fsinode, Fsfile, Fsrw, Fstrunc, Fsdir, Fsexample, Fsprops:
      block allocation, inodes and their cache, file contents, directories, paths; a
      write as a crash-atomic transaction, with the file, its inode and the free map on
      the disk after it, for writes whose blocks fit into the log.
    - Namei (fs.c): namei and nameiparent find what a walk through the directories on the
      disk finds, whatever is in the inode cache, and give back locks and references.
    - Umalloc (umalloc.c): after any sequence of calls the blocks are disjoint, in the
      heap, and keep their contents; free and malloc end.
    - Sh, Shparse, Shgrammar (sh.c): the parser accepts exactly the sentences of a
      grammar, and builds their tree.
    - Syscall (syscall.c): exactly which buffers and strings are accepted, which strings
      make the kernel fault, and the gaps in the tests.
    - File, Fileinv, Fileprops (file.c, sysfile.c, pipe.c, proc.c): reference counts of
      open files under all interleavings of open, dup, close, pipe, fork and exit.
    - Inoderef, Sysfile, Sysprops (sysfile.c, file.c): the system calls on paths and on
      open files; on every path they give back the locks, references and log operations
      they take, and the one call that waits for itself.
    - Mkfs (mkfs.c): the image is a file system that meets what the theorems on fs.c ask
      of a disk, with the files of the host in its root directory.
    - Console (console.c), Kbd (kbd.c, kbd.h): the line discipline on a ring buffer
      refines a terminal with an editable line; scan codes to characters.
    - Printf (printf.c, console.c, ulib.c): printf and cprintf put out what the format
      says; atoi reads back the numbers that are not negative, and 0 for the others.
    - Sync (ulib.c, sysproc.c, proc.c): mutexes and condition variables on futexes.
    - Grep (grep.c): the matcher accepts what a regular expression describes; the lines
      that grep writes, and those it loses.

    ** Fuel and bounds

    Loops that are not structural take fuel, and a theorem about such a routine says
    that it returns with the fuel it is given: the number of buffers for the scans of
    the cache, of blocks for the free map, of the bytes of a line or path for parsers,
    INPUT_BUF for the line that Ctrl-U kills, 16 digits for printint, the length of
    format and output for printf, the bytes to write for filewrite and mkfs, the number
    of buffers for the queue of the disk, and for its status the number of polls within
    which the disk promises to be ready, the bytes to copy for copyout.  Table sizes are
    those of param.h.

    ** Not modelled

    Assembly and hardware start-up (bootasm.S, entry.S, swtch.S beyond its effect on
    contexts, trapasm.S, main.c, bootmain.c), devices (uart.c, lapic.c, ioapic.c,
    picirq.c, mp.c), sys_exec, which fetches the arguments of exec, trap.c beyond the page
    fault handler and system calls, runcmd of the shell, and the small user programs and
    tests.  The TLB is not modelled: the kernel flushes it where it changes mappings of the
    running process.  Memory is sequentially consistent. *)

From Stdlib Require Import ZArith Lia.
From stdpp Require Import base tactics numbers gmap strings list.

#[local] Open Scope Z_scope.

(** * Channels, outcomes and the kernel monad *)

(** Sleep channels.  The code uses the address of the object a process waits
    for; distinct objects have distinct addresses, so a constructor per kind
    of object carries the same information. *)
Inductive chan : Type :=
| ChTicks
| ChLog
| ChInput
| ChBuf (b : nat)
| ChProc (p : nat)
| ChSleeplock (l : nat)
| ChPipeRead (p : Z)
| ChPipeWrite (p : Z)
| ChUser (a : Z).

#[export] Instance chan_eq_dec : EqDecision chan.
Proof. solve_decision. Defined.

(** What a run of a kernel routine ends in. *)
Inductive outcome (S A : Type) : Type :=
| Ret (a : A) (s : S)            (* returned [a] *)
| Panic (msg : string)           (* called panic(msg) *)
| Fault (msg : string)           (* a C access with no meaning: NULL, out of range *)
| Sleep (c : chan) (s : S)       (* gave up the CPU in sleep(c, lk) *)
| Diverge.                       (* ran out of loop fuel *)
Arguments Ret {S A} a s.
Arguments Panic {S A} msg.
Arguments Fault {S A} msg.
Arguments Sleep {S A} c s.
Arguments Diverge {S A}.

Definition K (S A : Type) : Type := S → outcome S A.

#[export] Instance K_ret S : MRet (K S) := λ A a s, Ret a s.
#[export] Instance K_bind S : MBind (K S) := λ A B k m s,
  match m s with
  | Ret a s' => k a s'
  | Panic msg => Panic msg
  | Fault msg => Fault msg
  | Sleep c s' => Sleep c s'
  | Diverge => Diverge
  end.

Section monad_ops.
Context {S : Type}.

Definition get : K S S := λ s, Ret s s.
Definition gets {A} (f : S → A) : K S A := λ s, Ret (f s) s.
Definition put (s : S) : K S unit := λ _, Ret tt s.
Definition modify (f : S → S) : K S unit := λ s, Ret tt (f s).
Definition panic {A} (msg : string) : K S A := λ _, Panic msg.
Definition fault {A} (msg : string) : K S A := λ _, Fault msg.
Definition sleep_on {A} (c : chan) : K S A := λ s, Sleep c s.
Definition diverge {A} : K S A := λ _, Diverge.

(** [if(c) m;] *)
Definition when (c : bool) (m : K S unit) : K S unit := if c then m else mret tt.

(** [for(x in l) body;] without early exit. *)
Fixpoint for_each {A} (l : list A) (body : A → K S unit) : K S unit :=
  match l with
  | [] => mret tt
  | x :: l' => body x ≫= λ _, for_each l' body
  end.

(** [for(x in l) body;] where the body may leave the loop with a value. *)
Fixpoint for_find {A B} (l : list A) (body : A → K S (option B)) : K S (option B) :=
  match l with
  | [] => mret None
  | x :: l' => body x ≫= λ o,
      match o with Some b => mret (Some b) | None => for_find l' body end
  end.

(** [for(; a < lim; a += step) body;] on unsigned values, where the body may
    leave the loop with a value.  [upto_fuel] iterations are enough. *)
Fixpoint upto {B} (fuel : nat) (a lim step : Z) (body : Z → K S (option B)) : K S (option B) :=
  if a <? lim then
    match fuel with
    | O => diverge
    | Datatypes.S n => body a ≫= λ o,
        match o with
        | Some b => mret (Some b)
        | None => upto n ((a + step) mod 4294967296) lim step body
        end
    end
  else mret None.
End monad_ops.

Definition upto_fuel (a lim step : Z) : nat := Z.to_nat ((lim - a) / step + 1).

(** Running a routine of a part of the state inside the whole. *)
Definition zoom {S T A} (g : S → T) (upd : T → S → S) (m : K T A) : K S A := λ s,
  match m (g s) with
  | Ret a t => Ret a (upd t s)
  | Panic msg => Panic msg
  | Fault msg => Fault msg
  | Sleep c t => Sleep c (upd t s)
  | Diverge => Diverge
  end.

(** ** Weakest preconditions *)

(** [wp m s Q]: from [s], [m] returns and the result satisfies [Q]. *)
Definition wp {S A} (m : K S A) (s : S) (Q : A → S → Prop) : Prop :=
  match m s with Ret a s' => Q a s' | _ => False end.

(** [wlp m s Q]: if [m] returns from [s] then the result satisfies [Q]. *)
Definition wlp {S A} (m : K S A) (s : S) (Q : A → S → Prop) : Prop :=
  match m s with Ret a s' => Q a s' | _ => True end.

(** [wsafe m s Q]: from [s], [m] neither panics nor faults nor sleeps, and if
    it returns the result satisfies [Q]; it may spin on a lock. *)
Definition wsafe {S A} (m : K S A) (s : S) (Q : A → S → Prop) : Prop :=
  match m s with Ret a s' => Q a s' | Diverge => True | _ => False end.

Section wp_lemmas.
Context {S : Type}.

Lemma wp_bind {A B} (m : K S A) (k : A → K S B) s Q :
  wp (m ≫= k) s Q ↔ wp m s (λ a s', wp (k a) s' Q).
Proof. unfold wp, mbind, K_bind. by destruct (m s). Qed.

Lemma wp_assoc {A B C} (m : K S A) (k : A → K S B) (l : B → K S C) s Q :
  wp (m ≫= λ a, k a ≫= l) s Q ↔ wp (m ≫= k) s (λ b s', wp (l b) s' Q).
Proof.
  unfold wp, mbind, K_bind. destruct (m s) as [a s'| | | |]; [|done..]. by destruct (k a s').
Qed.

(** A result that is only passed on. *)
Lemma wp_pass {A} (m : K S (option A)) s Q :
  wp (m ≫= λ o, match o with Some _ => mret o | None => mret None end) s Q ↔ wp m s Q.
Proof. unfold wp, mbind, K_bind. destruct (m s) as [[a|] s'| | | |]; done. Qed.

Lemma wlp_bind {A B} (m : K S A) (k : A → K S B) s Q :
  wlp (m ≫= k) s Q ↔ wlp m s (λ a s', wlp (k a) s' Q).
Proof. unfold wlp, mbind, K_bind. by destruct (m s). Qed.

Lemma wsafe_bind {A B} (m : K S A) (k : A → K S B) s Q :
  wsafe (m ≫= k) s Q ↔ wsafe m s (λ a s', wsafe (k a) s' Q).
Proof. unfold wsafe, mbind, K_bind. by destruct (m s). Qed.

Lemma wp_ret {A} (a : A) s (Q : A → S → Prop) : wp (mret a) s Q ↔ Q a s.
Proof. done. Qed.

Lemma wlp_ret {A} (a : A) s (Q : A → S → Prop) : wlp (mret a) s Q ↔ Q a s.
Proof. done. Qed.

Lemma wp_mono {A} (m : K S A) s (Q R : A → S → Prop) :
  (∀ a s', Q a s' → R a s') → wp m s Q → wp m s R.
Proof. unfold wp. destruct (m s); naive_solver. Qed.

Lemma wp_and {A} (m : K S A) s (Q R : A → S → Prop) :
  wp m s Q → wp m s R → wp m s (λ a s', Q a s' ∧ R a s').
Proof. unfold wp. by destruct (m s). Qed.

Lemma wlp_mono {A} (m : K S A) s (Q R : A → S → Prop) :
  (∀ a s', Q a s' → R a s') → wlp m s Q → wlp m s R.
Proof. unfold wlp. destruct (m s); naive_solver. Qed.

Lemma wsafe_mono {A} (m : K S A) s (Q R : A → S → Prop) :
  (∀ a s', Q a s' → R a s') → wsafe m s Q → wsafe m s R.
Proof. unfold wsafe. destruct (m s); naive_solver. Qed.

Lemma wsafe_wlp {A} (m : K S A) s Q : wsafe m s Q → wlp m s Q.
Proof. unfold wsafe, wlp. by destruct (m s). Qed.

Lemma wp_wlp {A} (m : K S A) s Q : wp m s Q → wlp m s Q.
Proof. unfold wp, wlp. by destruct (m s). Qed.

Lemma wp_Ret {A} (m : K S A) s (Q : A → S → Prop) :
  wp m s Q ↔ ∃ a s', m s = Ret a s' ∧ Q a s'.
Proof.
  unfold wp. destruct (m s); split; try done; [by eauto|..];
    intros (?&?&?&?); by simplify_eq.
Qed.

Lemma wlp_Ret {A} (m : K S A) s (Q : A → S → Prop) :
  wlp m s Q ↔ ∀ a s', m s = Ret a s' → Q a s'.
Proof.
  unfold wlp. destruct (m s); split; try done; intros H; intros; simplify_eq; auto.
Qed.

Lemma wp_for_each {A} (body : A → K S unit) (I : list A → S → Prop) l pre s :
  I pre s →
  (∀ p x q s, pre ++ l = p ++ x :: q → I p s →
              wp (body x) s (λ _ s', I (p ++ [x]) s')) →
  wp (for_each l body) s (λ _ s', I (pre ++ l) s').
Proof.
  revert pre s. induction l as [|x l IH]; intros pre s Hs Hbody; simpl.
  - unfold wp; simpl. by rewrite app_nil_r.
  - apply wp_bind. eapply wp_mono; [|by apply (Hbody pre x l)].
    intros [] s' Hs'. rewrite cons_middle, (assoc_L (++)). apply IH; [done|].
    intros p y q t Heq. apply (Hbody p y q t).
    by rewrite <- Heq, cons_middle, (assoc_L (++)).
Qed.

Lemma wlp_for_each {A} (body : A → K S unit) (I : S → Prop) l s :
  I s → (∀ x s, x ∈ l → I s → wlp (body x) s (λ _ s', I s')) →
  wlp (for_each l body) s (λ _ s', I s').
Proof.
  revert s. induction l as [|x l IH]; intros s Hs Hbody; simpl; [done|].
  apply wlp_bind. eapply wlp_mono; [|apply Hbody; [left|done]].
  intros [] s' Hs'. apply IH; [done|]. intros y t Hy. apply Hbody. by right.
Qed.

Lemma wsafe_for_each {A} (body : A → K S unit) (I : list A → S → Prop) l s :
  I l s → (∀ x rest s, I (x :: rest) s → wsafe (body x) s (λ _ s', I rest s')) →
  wsafe (for_each l body) s (λ _ s', I [] s').
Proof.
  intros Hs Hbody. revert s Hs. induction l as [|x l IH]; intros s Hs; simpl; [done|].
  apply wsafe_bind. eapply wsafe_mono; [|by apply Hbody]. intros [] s' Hs'. by apply IH.
Qed.

(** A search loop either stops at the first element its body accepts or goes
    through the whole list. *)
Lemma wp_for_find {A B} (body : A → K S (option B)) (I : list A → S → Prop)
    (Q : option B → S → Prop) l pre s :
  I pre s →
  (∀ p x q s, pre ++ l = p ++ x :: q → I p s →
     wp (body x) s (λ o s', match o with Some b => Q (Some b) s'
                                       | None => I (p ++ [x]) s' end)) →
  (∀ s, I (pre ++ l) s → Q None s) →
  wp (for_find l body) s Q.
Proof.
  revert pre s. induction l as [|x l IH]; intros pre s Hs Hbody Hend; simpl.
  - unfold wp; simpl. apply Hend. by rewrite app_nil_r.
  - apply wp_bind. eapply wp_mono; [|by apply (Hbody pre x l)].
    intros [b|] s' Hs'; [done|].
    apply (IH (pre ++ [x]) s' Hs'); rewrite <- (assoc_L (++)); auto.
Qed.

Lemma wp_for_find_cons {A B} (body : A → K S (option B)) x l s (Q : option B → S → Prop) :
  wp (body x) s (λ o s', match o with Some b => Q (Some b) s'
                                    | None => wp (for_find l body) s' Q end) →
  wp (for_find (x :: l) body) s Q.
Proof. intros H. simpl. apply wp_bind. eapply wp_mono; [|exact H]. by intros [b|] s'. Qed.

Lemma wlp_for_find {A B} (body : A → K S (option B)) (I : S → Prop)
    (Q : option B → S → Prop) l s :
  I s →
  (∀ x s, x ∈ l → I s →
     wlp (body x) s (λ o s', match o with Some b => Q (Some b) s' | None => I s' end)) →
  (∀ s, I s → Q None s) →
  wlp (for_find l body) s Q.
Proof.
  revert s. induction l as [|x l IH]; intros s Hs Hbody Hend; simpl.
  - by apply Hend.
  - apply wlp_bind. eapply wlp_mono; [|apply Hbody; [left|done]].
    intros [b|] s' Hs'; [done|]. apply IH; auto. intros y t Hy.
    apply Hbody. by right.
Qed.
End wp_lemmas.

(** * Machine integers *)

(** A C [uint] is a [Z] in [0, 2^32); arithmetic wraps. *)
Definition u32 (x : Z) : Z := x mod 4294967296.
Definition u16 (x : Z) : Z := x mod 65536.
Definition u8 (x : Z) : Z := x mod 256.

(** The value of a C [int] (two's complement) with the given bits. *)
Definition s32 (x : Z) : Z :=
  let y := u32 x in if y <? 2147483648 then y else y - 4294967296.

(** The value of a C [short] with the given bits. *)
Definition s16 (x : Z) : Z :=
  let y := u16 x in if y <? 32768 then y else y - 65536.

(** The value of a C [char] (signed on this target) with the given bits. *)
Definition s8 (x : Z) : Z :=
  let y := u8 x in if y <? 128 then y else y - 256.

Definition is_u32 (x : Z) : Prop := 0 ≤ x < 4294967296.
Definition is_u8 (x : Z) : Prop := 0 ≤ x < 256.

(** C truth values. *)
Definition truth (x : Z) : bool := negb (x =? 0).

(** [lia] with the equations of [/] and [mod] by constants. *)
Ltac zlia := Z.div_mod_to_equations; lia.

Lemma u32_small x : is_u32 x → u32 x = x.
Proof. unfold is_u32, u32. intros. by rewrite Z.mod_small. Qed.
Lemma u32_range x : is_u32 (u32 x).
Proof. unfold is_u32, u32. apply Z.mod_pos_bound. lia. Qed.
Lemma u8_small x : is_u8 x → u8 x = x.
Proof. unfold is_u8, u8. intros. by rewrite Z.mod_small. Qed.
Lemma u8_range x : is_u8 (u8 x).
Proof. unfold is_u8, u8. apply Z.mod_pos_bound. lia. Qed.
Lemma u32_idemp x : u32 (u32 x) = u32 x.
Proof. apply u32_small, u32_range. Qed.
Lemma s32_small x : -2147483648 ≤ x < 2147483648 → s32 x = x.
Proof. unfold s32, u32. intros. case (Z.ltb_spec (x mod 4294967296) 2147483648); zlia. Qed.
Lemma s32_range x : -2147483648 ≤ s32 x < 2147483648.
Proof. unfold s32, u32. case (Z.ltb_spec (x mod 4294967296) 2147483648); zlia. Qed.

Create HintDb xv6.
#[export] Hint Resolve u32_range u8_range : xv6.

(** Case analysis on the boolean integer tests of the goal and hypotheses. *)
Ltac zcases :=
  repeat match goal with
  | |- context [Z.ltb ?a ?b] => destruct (Z.ltb_spec a b)
  | |- context [Z.leb ?a ?b] => destruct (Z.leb_spec a b)
  | |- context [Z.eqb ?a ?b] => destruct (Z.eqb_spec a b)
  | |- context [Nat.ltb ?a ?b] => destruct (Nat.ltb_spec a b)
  | |- context [Nat.leb ?a ?b] => destruct (Nat.leb_spec a b)
  | |- context [Nat.eqb ?a ?b] => destruct (Nat.eqb_spec a b)
  end; simpl.

(** Bounded loops that count upwards without wrapping. *)
Lemma upto_fuel_enough a lim step :
  0 < step → lim - a ≤ Z.of_nat (upto_fuel a lim step) * step.
Proof.
  intros Hs. unfold upto_fuel.
  pose proof (Z.div_mod (lim - a) step ltac:(lia)). pose proof (Z.mod_pos_bound (lim - a) step Hs).
  destruct (Z.le_gt_cases 0 ((lim - a) / step + 1)).
  - rewrite Z2Nat.id by done. nia.
  - replace (Z.to_nat ((lim - a) / step + 1)) with 0%nat by lia. nia.
Qed.

Lemma wp_upto {S B} (body : Z → K S (option B)) (I : Z → S → Prop) (Q : option B → S → Prop)
    lim step :
  0 < step → lim + step ≤ 4294967296 →
  (∀ a s, 0 ≤ a < lim → I a s →
     wp (body a) s (λ o s', match o with Some b => Q (Some b) s' | None => I (a + step) s' end)) →
  (∀ a s, lim ≤ a → I a s → Q None s) →
  ∀ fuel a s, 0 ≤ a → lim - a ≤ Z.of_nat fuel * step → I a s → wp (upto fuel a lim step body) s Q.
Proof.
  intros Hs Hl Hbody Hend. induction fuel as [|n IH]; intros a s Ha Hf HI; simpl.
  - rewrite (proj2 (Z.ltb_ge a lim)) by lia. apply wp_ret, (Hend a); [lia|done].
  - destruct (Z.ltb_spec a lim); [|apply wp_ret; by apply (Hend a)].
    apply wp_bind. eapply wp_mono; [|by apply Hbody].
    intros [b|] s' HQ; [done|]. rewrite Z.mod_small by lia. apply IH; [lia|nia|done].
Qed.

(** [for(i = 0; i < n; i++) body(i);] *)
Lemma wp_for_seq {S} (body : Z → K S unit) (I : nat → S → Prop) n s :
  I 0%nat s →
  (∀ k s, Z.of_nat k < n → I k s → wp (body (Z.of_nat k)) s (λ _ s', I (Datatypes.S k) s')) →
  wp (for_each (seqZ 0 n) body) s (λ _ s', I (Z.to_nat n) s').
Proof.
  intros H0 Hb. eapply wp_mono; [|apply (wp_for_each body (λ p s', I (length p) s') _ [] s H0)].
  - intros u s'. rewrite length_app, length_seqZ. done.
  - intros p x q s' Heq HI. simpl app in Heq.
    assert (Hx : seqZ 0 n !! length p = Some x) by (rewrite Heq; apply list_lookup_middle; done).
    apply lookup_seqZ in Hx as [-> Hlt]. rewrite length_app. simpl. rewrite Nat.add_1_r. by apply Hb.
Qed.

(** One symbolic execution step of a monadic goal [wp (m ≫= k) s Q]. *)
Ltac wpb := apply wp_bind; unfold wp at 1.
Ltac wlpb := apply wlp_bind; unfold wlp at 1.
