(* ===== verification/Memory.v ===== *)
(** Byte-addressed memory.

    The kernel reaches physical memory through its virtual addresses
    (P2V(pa) = pa + KERNBASE); a memory is a finite map from such addresses to
    bytes, and an address that was never written reads 0, as the BSS does.
    32-bit words are stored little-endian, which is how the page tables, the
    on-disk structures and the system call arguments are laid out. *)

From Stdlib Require Import ZArith Lia.
From stdpp Require Import base tactics numbers gmap list.
From S2P Require Import Prelude.

#[local] Open Scope Z_scope.

Abbreviation mem := (gmap Z Z).

Definition rd8 (m : mem) (a : Z) : Z := default 0 (m !! a).
Definition wr8 (m : mem) (a v : Z) : mem := <[a := u8 v]> m.

Definition rd32 (m : mem) (a : Z) : Z :=
  rd8 m a + 256 * rd8 m (a + 1) + 65536 * rd8 m (a + 2) + 16777216 * rd8 m (a + 3).

Definition wr32 (m : mem) (a v : Z) : mem :=
  wr8 (wr8 (wr8 (wr8 m a v) (a + 1) (v / 256)) (a + 2) (v / 65536)) (a + 3) (v / 16777216).

(** Every stored value is a byte. *)
Definition mem_wf (m : mem) : Prop := ∀ a v, m !! a = Some v → is_u8 v.

(** ** Reads and writes *)

Lemma rd8_wr8 m a v b : rd8 (wr8 m a v) b = if decide (a = b) then u8 v else rd8 m b.
Proof. unfold rd8, wr8. rewrite lookup_insert. by case_decide. Qed.
Lemma rd8_wr8_eq m a v : rd8 (wr8 m a v) a = u8 v.
Proof. rewrite rd8_wr8. by case_decide. Qed.
Lemma rd8_wr8_ne m a v b : a ≠ b → rd8 (wr8 m a v) b = rd8 m b.
Proof. intros. rewrite rd8_wr8. by case_decide. Qed.

Lemma mem_wf_empty : mem_wf ∅.
Proof. intros a v. by rewrite lookup_empty. Qed.
Lemma mem_wf_wr8 m a v : mem_wf m → mem_wf (wr8 m a v).
Proof.
  intros Hm b w. unfold wr8. rewrite lookup_insert. case_decide; [|by apply Hm].
  intros. simplify_eq. apply u8_range.
Qed.
Lemma mem_wf_wr32 m a v : mem_wf m → mem_wf (wr32 m a v).
Proof. intros. unfold wr32. by repeat apply mem_wf_wr8. Qed.
Lemma rd8_range m a : mem_wf m → is_u8 (rd8 m a).
Proof.
  intros Hm. unfold rd8. destruct (m !! a) eqn:E; simpl; [by eapply Hm|].
  unfold is_u8; lia.
Qed.
Lemma rd32_range m a : mem_wf m → is_u32 (rd32 m a).
Proof.
  intros Hm. unfold rd32, is_u32.
  pose proof (rd8_range m a Hm). pose proof (rd8_range m (a + 1) Hm).
  pose proof (rd8_range m (a + 2) Hm). pose proof (rd8_range m (a + 3) Hm).
  unfold is_u8 in *. lia.
Qed.

Lemma rd8_wr32_ne m a v b : ¬ (a ≤ b < a + 4) → rd8 (wr32 m a v) b = rd8 m b.
Proof. intros. unfold wr32. rewrite !rd8_wr8_ne by lia. done. Qed.

Lemma rd32_wr32_eq m a v : is_u32 v → rd32 (wr32 m a v) a = v.
Proof.
  intros Hv. unfold rd32, wr32.
  rewrite !rd8_wr8. repeat case_decide; try lia.
  unfold is_u32, u8 in *. zlia.
Qed.

Lemma rd32_wr32_ne m a v b :
  a + 4 ≤ b ∨ b + 4 ≤ a → rd32 (wr32 m a v) b = rd32 m b.
Proof. intros. unfold rd32. rewrite !rd8_wr32_ne by lia. done. Qed.

(** Two memories that agree on four bytes agree on the word. *)
Lemma rd32_ext m m' a :
  (∀ b, a ≤ b < a + 4 → rd8 m' b = rd8 m b) → rd32 m' a = rd32 m a.
Proof. intros H. unfold rd32. rewrite !H by lia. done. Qed.

#[export] Hint Resolve mem_wf_empty mem_wf_wr8 mem_wf_wr32 rd8_range rd32_range : xv6.

(** [n] bytes from [a] on. *)
Definition rd_bytes (m : mem) (a : Z) (n : nat) : list Z := rd8 m <$> seqZ a (Z.of_nat n).

(** Store the bytes [l] from [a] on. *)
Fixpoint wr_bytes (m : mem) (a : Z) (l : list Z) : mem :=
  match l with
  | [] => m
  | b :: l' => wr_bytes (wr8 m a b) (a + 1) l'
  end.

Lemma rd_bytes_length m a n : length (rd_bytes m a n) = n.
Proof. unfold rd_bytes. rewrite length_fmap, length_seqZ. lia. Qed.

Lemma rd_bytes_ext m m' a n :
  (∀ b, a ≤ b < a + Z.of_nat n → rd8 m' b = rd8 m b) →
  rd_bytes m' a n = rd_bytes m a n.
Proof.
  intros H. apply list_fmap_ext. intros i b [Hb ?]%lookup_seqZ.
  apply H. lia.
Qed.

Lemma rd8_wr_bytes m a l b :
  rd8 (wr_bytes m a l) b =
    if decide (a ≤ b < a + Z.of_nat (length l)) then u8 (nth (Z.to_nat (b - a)) l 0)
    else rd8 m b.
Proof.
  revert m a. induction l as [|x l IH]; intros m a; simpl.
  - case_decide; [lia|done].
  - rewrite IH, rd8_wr8.
    destruct (decide (a = b)) as [->|].
    { rewrite decide_False, decide_True by lia. by rewrite Z.sub_diag. }
    destruct (decide (a + 1 ≤ b < a + 1 + Z.of_nat (length l))).
    + rewrite decide_True by lia.
      by replace (Z.to_nat (b - a)) with (S (Z.to_nat (b - (a + 1)))) by lia.
    + by rewrite decide_False by lia.
Qed.
