(* ===== verification/Kstring.v ===== *)
(** The kernel's memory and string routines (src/string.c) and the two string
    instructions of src/x86.h they use.

    A pointer is an address; the routines take the memory and return the new
    one.  The C loops count down [n]; their models recurse on the count. *)

From Stdlib Require Import ZArith Lia.
From stdpp Require Import base tactics numbers gmap list.
From S2P Require Import Prelude Memory.

#[local] Open Scope Z_scope.

(** rep stosb: [cnt] copies of the low byte of [data]. *)
Fixpoint stosb (m : mem) (addr data : Z) (cnt : nat) : mem :=
  match cnt with
  | O => m
  | S cnt' => stosb (wr8 m addr data) (addr + 1) data cnt'
  end.

(** rep stosl: [cnt] copies of the word [data]. *)
Fixpoint stosl (m : mem) (addr data : Z) (cnt : nat) : mem :=
  match cnt with
  | O => m
  | S cnt' => stosl (wr32 m addr data) (addr + 4) data cnt'
  end.

Definition memset (m : mem) (dst c n : Z) : mem :=
  if (dst mod 4 =? 0) && (n mod 4 =? 0) then
    let c := Z.land c 255 in
    stosl m dst
      (Z.lor (Z.lor (Z.lor (Z.shiftl c 24) (Z.shiftl c 16)) (Z.shiftl c 8)) c)
      (Z.to_nat (n / 4))
  else stosb m dst c (Z.to_nat n).

Fixpoint memcmp (m : mem) (s1 s2 : Z) (n : nat) : Z :=
  match n with
  | O => 0
  | S n' =>
      if rd8 m s1 =? rd8 m s2 then memcmp m (s1 + 1) (s2 + 1) n'
      else rd8 m s1 - rd8 m s2
  end.

(** while(n-- > 0) *d++ = *s++; *)
Fixpoint copy_up (m : mem) (d s : Z) (n : nat) : mem :=
  match n with
  | O => m
  | S n' => copy_up (wr8 m d (rd8 m s)) (d + 1) (s + 1) n'
  end.

(** while(n-- > 0) *--d = *--s; *)
Fixpoint copy_down (m : mem) (d s : Z) (n : nat) : mem :=
  match n with
  | O => m
  | S n' => copy_down (wr8 m (d - 1) (rd8 m (s - 1))) (d - 1) (s - 1) n'
  end.

Definition memmove (m : mem) (dst src n : Z) : mem :=
  if (src <? dst) && (dst <? src + n) then
    copy_down m (dst + n) (src + n) (Z.to_nat n)
  else copy_up m dst src (Z.to_nat n).

Definition memcpy (m : mem) (dst src n : Z) : mem := memmove m dst src n.

Fixpoint strncmp (m : mem) (p q : Z) (n : nat) : Z :=
  match n with
  | O => 0
  | S n' =>
      if truth (rd8 m p) && (rd8 m p =? rd8 m q)
      then strncmp m (p + 1) (q + 1) n'
      else rd8 m p - rd8 m q
  end.

(** The second loop of strncpy: while(n-- > 0) *s++ = 0; *)
Definition strncpy_pad (m : mem) (s : Z) (n : nat) : mem := stosb m s 0 n.

(** The first loop copies up to and including a NUL; what is left of [n] is
    then padded. *)
Fixpoint strncpy (m : mem) (s t : Z) (n : nat) : mem :=
  match n with
  | O => m
  | S n' =>
      let c := rd8 m t in
      let m := wr8 m s c in
      if c =? 0 then strncpy_pad m (s + 1) n' else strncpy m (s + 1) (t + 1) n'
  end.

(** while(--n > 0 && ( *s++ = *t++) != 0); *s = 0;  with [n] the value after
    the pre-decrement of the first test. *)
Fixpoint safestrcpy_loop (m : mem) (s t : Z) (n : nat) : mem :=
  match n with
  | O => wr8 m s 0
  | S n' =>
      let c := rd8 m t in
      let m := wr8 m s c in
      if c =? 0 then wr8 m (s + 1) 0 else safestrcpy_loop m (s + 1) (t + 1) n'
  end.

Definition safestrcpy (m : mem) (s t n : Z) : mem :=
  if n <=? 0 then m else safestrcpy_loop m s t (Z.to_nat (n - 1)).

(** for(n = 0; s[n]; n++); with at most [fuel] iterations. *)
Fixpoint strlen_loop (m : mem) (s n : Z) (fuel : nat) : option Z :=
  match fuel with
  | O => None
  | S fuel' => if rd8 m (s + n) =? 0 then Some n else strlen_loop m s (n + 1) fuel'
  end.

Definition strlen (m : mem) (s : Z) (fuel : nat) : option Z := strlen_loop m s 0 fuel.

(** * What the routines compute *)

Lemma rd8_stosb m a c n b :
  rd8 (stosb m a c n) b =
    if decide (a ≤ b < a + Z.of_nat n) then u8 c else rd8 m b.
Proof.
  revert m a. induction n as [|n IH]; intros m a; simpl.
  - by rewrite decide_False by lia.
  - rewrite IH, rd8_wr8.
    destruct (decide (a = b)) as [->|].
    { rewrite decide_False, decide_True by lia. done. }
    destruct (decide (a + 1 ≤ b < a + 1 + Z.of_nat n)).
    + by rewrite decide_True by lia.
    + by rewrite decide_False by lia.
Qed.

Lemma rd8_stosl m a w c n b :
  u8 w = c → u8 (w / 256) = c → u8 (w / 65536) = c → u8 (w / 16777216) = c →
  rd8 (stosl m a w n) b =
    if decide (a ≤ b < a + 4 * Z.of_nat n) then c else rd8 m b.
Proof.
  intros H0 H1 H2 H3. revert m a. induction n as [|n IH]; intros m a; simpl.
  - by rewrite decide_False by lia.
  - rewrite IH. destruct (decide (a ≤ b < a + 4)).
    + rewrite decide_False, decide_True by lia.
      unfold wr32. rewrite !rd8_wr8. repeat case_decide; try lia; congruence.
    + rewrite rd8_wr32_ne by lia.
      destruct (decide (a + 4 ≤ b < a + 4 + 4 * Z.of_nat n)).
      * by rewrite decide_True by lia.
      * by rewrite decide_False by lia.
Qed.

(** The word memset builds has the byte [c] four times. *)
Lemma memset_word c :
  let d := Z.land c 255 in
  Z.lor (Z.lor (Z.lor (Z.shiftl d 24) (Z.shiftl d 16)) (Z.shiftl d 8)) d
    = u8 c * 16843009.
Proof.
  simpl. change 255 with (Z.ones 8). rewrite Z.land_ones by lia.
  change (c mod 2 ^ 8) with (u8 c). pose proof (u8_range c) as Hc.
  assert (Hall : forallb (λ d, Z.lor (Z.lor (Z.lor (Z.shiftl d 24) (Z.shiftl d 16))
            (Z.shiftl d 8)) d =? d * 16843009) (seqZ 0 256) = true) by reflexivity.
  rewrite forallb_forall in Hall. apply Z.eqb_eq, Hall.
  apply list_elem_of_In, elem_of_seqZ. unfold is_u8 in Hc. lia.
Qed.

(** memset stores the low byte of [c] at the [n] bytes from [dst] on and
    nothing else, on both of its paths. *)
Lemma rd8_memset m dst c n b :
  0 ≤ n →
  rd8 (memset m dst c n) b =
    if decide (dst ≤ b < dst + n) then u8 c else rd8 m b.
Proof.
  intros Hn. unfold memset. pose proof (memset_word c) as Hw. simpl in Hw.
  pose proof (u8_range c) as Hc. unfold is_u8 in Hc.
  destruct ((dst mod 4 =? 0) && (n mod 4 =? 0)) eqn:E; simpl.
  - apply andb_prop in E as [_ E%Z.eqb_eq]. rewrite Hw.
    rewrite (rd8_stosl _ _ _ (u8 c)); try (unfold u8 at 1; set (u8 c) in *; zlia).
    replace (4 * Z.of_nat (Z.to_nat (n / 4))) with n by zlia. done.
  - rewrite rd8_stosb. by rewrite Z2Nat.id by lia.
Qed.

(** Copying upward is right when the destination does not lie inside the rest
    of the source. *)
Lemma rd8_copy_up m d s n b :
  mem_wf m → d ≤ s ∨ s + Z.of_nat n ≤ d →
  rd8 (copy_up m d s n) b =
    if decide (d ≤ b < d + Z.of_nat n) then rd8 m (s + (b - d)) else rd8 m b.
Proof.
  revert m d s. induction n as [|n IH]; intros m d s Hm Hds; simpl.
  - by rewrite decide_False by lia.
  - rewrite IH by (auto with xv6 || lia). rewrite !rd8_wr8.
    destruct (decide (d = b)) as [->|].
    { rewrite decide_False, decide_True by lia.
      replace (s + (b - b)) with s by lia. apply u8_small; auto with xv6. }
    destruct (decide (d + 1 ≤ b < d + 1 + Z.of_nat n)).
    + rewrite decide_False by lia. rewrite decide_True by lia. f_equal; lia.
    + by rewrite decide_False by lia.
Qed.

Lemma rd8_copy_down m d s n b :
  mem_wf m → s ≤ d ∨ d ≤ s - Z.of_nat n →
  rd8 (copy_down m d s n) b =
    if decide (d - Z.of_nat n ≤ b < d) then rd8 m (s - (d - b)) else rd8 m b.
Proof.
  revert m d s. induction n as [|n IH]; intros m d s Hm Hds; simpl.
  - by rewrite decide_False by lia.
  - rewrite IH by (auto with xv6 || lia). rewrite !rd8_wr8.
    destruct (decide (d - 1 = b)) as [<-|].
    { rewrite decide_False, decide_True by lia.
      replace (s - (d - (d - 1))) with (s - 1) by lia. apply u8_small; auto with xv6. }
    destruct (decide (d - 1 - Z.of_nat n ≤ b < d - 1)).
    + rewrite decide_False by lia. rewrite decide_True by lia. f_equal; lia.
    + by rewrite decide_False by lia.
Qed.

Lemma mem_wf_copy_up m d s n : mem_wf m → mem_wf (copy_up m d s n).
Proof. revert m d s. induction n; simpl; auto with xv6. Qed.
Lemma mem_wf_copy_down m d s n : mem_wf m → mem_wf (copy_down m d s n).
Proof. revert m d s. induction n; simpl; auto with xv6. Qed.
Lemma mem_wf_stosb m a c n : mem_wf m → mem_wf (stosb m a c n).
Proof. revert m a. induction n; simpl; auto with xv6. Qed.
Lemma mem_wf_stosl m a c n : mem_wf m → mem_wf (stosl m a c n).
Proof. revert m a. induction n; simpl; auto with xv6. Qed.
Lemma mem_wf_memset m d c n : mem_wf m → mem_wf (memset m d c n).
Proof. unfold memset. case_match; auto using mem_wf_stosb, mem_wf_stosl. Qed.
Lemma mem_wf_memmove m d s n : mem_wf m → mem_wf (memmove m d s n).
Proof. unfold memmove. case_match; auto using mem_wf_copy_up, mem_wf_copy_down. Qed.

#[export] Hint Resolve mem_wf_memset mem_wf_memmove : xv6.

(** memmove copies the [n] bytes the source held before the call, wherever the
    two ranges lie. *)
Lemma rd8_memmove m dst src n b :
  mem_wf m → 0 ≤ n →
  rd8 (memmove m dst src n) b =
    if decide (dst ≤ b < dst + n) then rd8 m (src + (b - dst)) else rd8 m b.
Proof.
  intros Hm Hn. unfold memmove.
  destruct (Z.ltb_spec src dst), (Z.ltb_spec dst (src + n)); simpl;
    try (rewrite rd8_copy_up by (done || lia); by rewrite Z2Nat.id by lia).
  rewrite rd8_copy_down by (done || lia). rewrite Z2Nat.id by lia.
  replace (dst + n - n) with dst by lia.
  case_decide; [f_equal; lia|done].
Qed.

(** ** NUL-terminated strings *)

(** The bytes at [p] before the first NUL, at most [n] of them. *)
Fixpoint cstr (m : mem) (p : Z) (n : nat) : list Z :=
  match n with
  | O => []
  | S n' => if rd8 m p =? 0 then [] else rd8 m p :: cstr m (p + 1) n'
  end.

Lemma cstr_length m p n : (length (cstr m p n) ≤ n)%nat.
Proof. revert p. induction n as [|n IH]; intros p; simpl; [done|]. case_match; simpl; [lia|]. specialize (IH (p + 1)). lia. Qed.

Lemma cstr_ext m m' p n :
  (∀ b, p ≤ b < p + Z.of_nat n → rd8 m' b = rd8 m b) → cstr m' p n = cstr m p n.
Proof.
  revert p. induction n as [|n IH]; intros p H; simpl; [done|].
  rewrite (H p) by lia. case_match; [done|]. f_equal. apply IH. intros. apply H. lia.
Qed.

Lemma strncmp_eq m p q n : strncmp m p q n = 0 ↔ cstr m p n = cstr m q n.
Proof.
  revert p q. induction n as [|n IH]; intros p q; simpl; [done|].
  unfold truth.
  destruct (Z.eqb_spec (rd8 m p) 0) as [E|E]; simpl.
  { rewrite E. destruct (Z.eqb_spec (rd8 m q) 0) as [->|]; [done|].
    split; [lia|done]. }
  destruct (Z.eqb_spec (rd8 m p) (rd8 m q)) as [E'|E'].
  - rewrite IH, <- E'. destruct (Z.eqb_spec (rd8 m p) 0); [done|].
    split; [by intros ->|intros; by simplify_eq].
  - split; [lia|]. destruct (Z.eqb_spec (rd8 m q) 0); [done|]. intros; by simplify_eq.
Qed.

Lemma memcmp_eq m p q n : memcmp m p q n = 0 ↔ rd_bytes m p n = rd_bytes m q n.
Proof.
  revert p q. induction n as [|n IH]; intros p q; [done|].
  unfold rd_bytes in *. rewrite !(seqZ_cons _ (Z.of_nat (S n))) by lia. simpl memcmp.
  rewrite !fmap_cons. replace (Z.pred (Z.of_nat (S n))) with (Z.of_nat n) by lia.
  replace (Z.succ p) with (p + 1) by lia. replace (Z.succ q) with (q + 1) by lia.
  destruct (Z.eqb_spec (rd8 m p) (rd8 m q)) as [E|E].
  - rewrite IH, E. split; [by intros ->|intros; by simplify_eq].
  - split; [lia|]. intros; by simplify_eq.
Qed.

(** strncpy writes the source string and pads with NULs up to [n], and writes
    nothing else. *)
Lemma rd8_strncpy m s t n b :
  mem_wf m → (s + Z.of_nat n ≤ t ∨ t + Z.of_nat n ≤ s) →
  rd8 (strncpy m s t n) b =
    if decide (s ≤ b < s + Z.of_nat n)
    then nth (Z.to_nat (b - s)) (cstr m t n) 0 else rd8 m b.
Proof.
  revert m s t. induction n as [|n IH]; intros m s t Hm Hd; simpl.
  { by rewrite decide_False by lia. }
  destruct (Z.eqb_spec (rd8 m t) 0) as [E|E].
  - unfold strncpy_pad. rewrite rd8_stosb, E, rd8_wr8.
    destruct (decide (s = b)) as [->|].
    { rewrite decide_False, decide_True by lia. by rewrite Z.sub_diag. }
    destruct (decide (s + 1 ≤ b < s + 1 + Z.of_nat n)).
    + rewrite decide_True by lia. by destruct (Z.to_nat (b - s)).
    + by rewrite decide_False by lia.
  - rewrite IH, rd8_wr8 by (auto with xv6 || lia).
    destruct (decide (s = b)) as [->|].
    { rewrite decide_False, decide_True by lia. rewrite Z.sub_diag. simpl.
      apply u8_small; auto with xv6. }
    destruct (decide (s + 1 ≤ b < s + 1 + Z.of_nat n)).
    + rewrite decide_True by lia.
      replace (Z.to_nat (b - s)) with (S (Z.to_nat (b - (s + 1)))) by lia. simpl.
      rewrite (cstr_ext m); [done|]. intros c Hc. by rewrite rd8_wr8_ne by lia.
    + by rewrite decide_False by lia.
Qed.

Lemma rd8_safestrcpy_loop_frame m s t n b :
  ¬ (s ≤ b < s + Z.of_nat n + 1) → rd8 (safestrcpy_loop m s t n) b = rd8 m b.
Proof.
  revert m s t. induction n as [|n IH]; intros m s t Hb; simpl.
  - by rewrite rd8_wr8_ne by lia.
  - case_match.
    + by rewrite !rd8_wr8_ne by lia.
    + rewrite IH by lia. by rewrite rd8_wr8_ne by lia.
Qed.

(** safestrcpy leaves in the [n]-byte buffer the longest prefix of the source
    string that fits with its NUL. *)
Lemma cstr_safestrcpy m s t n :
  mem_wf m → (s + Z.of_nat n + 1 ≤ t ∨ t + Z.of_nat n ≤ s) →
  cstr (safestrcpy_loop m s t n) s (S n) = cstr m t n.
Proof.
  revert m s t. induction n as [|n IH]; intros m s t Hm Hd.
  { simpl. by rewrite rd8_wr8_eq. }
  cbn [safestrcpy_loop]. change (cstr m t (S n)) with
    (if rd8 m t =? 0 then [] else rd8 m t :: cstr m (t + 1) n).
  change (cstr ?m' s (S (S n))) with
    (if rd8 m' s =? 0 then [] else rd8 m' s :: cstr m' (s + 1) (S n)).
  destruct (Z.eqb_spec (rd8 m t) 0) as [E|E].
  - rewrite rd8_wr8_ne, rd8_wr8_eq, E by lia. done.
  - rewrite rd8_safestrcpy_loop_frame, rd8_wr8_eq, u8_small by (auto with xv6 || lia).
    destruct (Z.eqb_spec (rd8 m t) 0); [done|]. f_equal.
    rewrite IH by (auto with xv6 || lia).
    apply cstr_ext. intros b Hb. by rewrite rd8_wr8_ne by lia.
Qed.

Lemma strlen_loop_spec m s n k fuel :
  (∀ i, n ≤ i < k → rd8 m (s + i) ≠ 0) → rd8 m (s + k) = 0 →
  n ≤ k → (Z.to_nat (k - n) < fuel)%nat → strlen_loop m s n fuel = Some k.
Proof.
  revert n. induction fuel as [|fuel IH]; intros n Hnz Hz Hle Hf; [lia|]. simpl.
  destruct (Z.eqb_spec (rd8 m (s + n)) 0) as [E|E].
  - f_equal. destruct (decide (n = k)); [done|]. destruct (Hnz n); [lia|done].
  - apply IH; try done; [|destruct (decide (n = k)) as [->|]; [done|lia]..].
    intros i Hi. apply Hnz. lia.
Qed.

(** * Properties *)

(** Memmove leaves in the destination the bytes the source held before the
    call, for any two ranges, overlapping ones included, and changes no other
    byte; memset stores the low byte of [c] in its range, on the word path and
    on the byte path, and changes no other byte. *)
Lemma memmove_memset_spec m dst src c n :
  mem_wf m → 0 ≤ n →
  (∀ b, rd8 (memmove m dst src n) b =
     if decide (dst ≤ b < dst + n) then rd8 m (src + (b - dst)) else rd8 m b) ∧
  (∀ b, rd8 (memset m dst c n) b =
     if decide (dst ≤ b < dst + n) then u8 c else rd8 m b).
Proof. intros. split; intros; [by apply rd8_memmove|by apply rd8_memset]. Qed.

Definition mem_ex : mem := wr_bytes ∅ 100 [104; 101; 108; 108; 111; 0; 120].

Lemma mem_ex_wf : mem_wf mem_ex.
Proof. unfold mem_ex, wr_bytes. auto 10 with xv6. Qed.

(** The string routines on buffers that do not overlap: strncmp is 0 exactly
    when the strings agree up to a NUL or [n] bytes; strncpy fills exactly [n]
    bytes with the string and NULs; safestrcpy leaves in an [n]-byte buffer the
    longest prefix that fits with its NUL; strlen, given enough iterations,
    returns the distance to the first NUL. *)
Lemma string_routines_spec m s t (n : nat) k fuel :
  mem_wf m → (s + Z.of_nat n + 1 ≤ t ∨ t + Z.of_nat n + 1 ≤ s) →
  0 ≤ k < Z.of_nat fuel → rd8 m (t + k) = 0 → (∀ i, 0 ≤ i < k → rd8 m (t + i) ≠ 0) →
  (strncmp m s t n = 0 ↔ cstr m s n = cstr m t n) ∧
  (∀ b, rd8 (strncpy m s t n) b =
     if decide (s ≤ b < s + Z.of_nat n)
     then nth (Z.to_nat (b - s)) (cstr m t n) 0 else rd8 m b) ∧
  cstr (safestrcpy m s t (Z.of_nat n + 1)) s (S n) = cstr m t n ∧
  strlen m t fuel = Some k.
Proof.
  intros Hm Hd Hk Hz Hnz. split_and!.
  - apply strncmp_eq.
  - intros b. apply rd8_strncpy; [done|lia].
  - unfold safestrcpy. destruct (Z.leb_spec (Z.of_nat n + 1) 0); [lia|].
    replace (Z.to_nat (Z.of_nat n + 1 - 1)) with n by lia.
    apply cstr_safestrcpy; [done|lia].
  - apply strlen_loop_spec; try done; lia.
Qed.

(** C18: memmove leaves in the destination the bytes the source held before the call, for
    any two ranges, overlapping ones included, and memset stores the low byte of [c] in its
    range, on the word path and on the byte path; neither changes another byte.  On buffers
    that do not overlap, strncmp is 0 exactly when the strings agree up to a NUL or [n]
    bytes, strncpy fills exactly [n] bytes with the string and NULs, safestrcpy leaves the
    longest prefix that fits with its NUL, and strlen, given enough iterations, returns the
    distance to the first NUL. *)
Theorem memory_and_string_routines :
  (∀ m dst src c n,
    mem_wf m → 0 ≤ n →
    (∀ b, rd8 (memmove m dst src n) b =
       if decide (dst ≤ b < dst + n) then rd8 m (src + (b - dst)) else rd8 m b) ∧
    (∀ b, rd8 (memset m dst c n) b =
       if decide (dst ≤ b < dst + n) then u8 c else rd8 m b)) ∧
  (∀ m s t (n : nat) k fuel,
    mem_wf m → (s + Z.of_nat n + 1 ≤ t ∨ t + Z.of_nat n + 1 ≤ s) →
    0 ≤ k < Z.of_nat fuel → rd8 m (t + k) = 0 → (∀ i, 0 ≤ i < k → rd8 m (t + i) ≠ 0) →
    (strncmp m s t n = 0 ↔ cstr m s n = cstr m t n) ∧
    (∀ b, rd8 (strncpy m s t n) b =
       if decide (s ≤ b < s + Z.of_nat n)
       then nth (Z.to_nat (b - s)) (cstr m t n) 0 else rd8 m b) ∧
    cstr (safestrcpy m s t (Z.of_nat n + 1)) s (S n) = cstr m t n ∧
    strlen m t fuel = Some k).
Proof. split; [exact memmove_memset_spec|exact string_routines_spec]. Qed.

Lemma memory_and_string_routines_witness :
  (rd_bytes (memmove mem_ex 102 100 5) 102 5 = [104; 101; 108; 108; 111] ∧
  rd8 (memmove mem_ex 102 100 5) 106 = 111) ∧
  (strlen mem_ex 100 10 = Some 5 ∧
  cstr (safestrcpy mem_ex 200 100 4) 200 4 = [104; 101; 108]).
Proof.
  split.
  { split; [reflexivity|].
    exact (proj1 ((proj1 memory_and_string_routines) mem_ex 102 100 0 5 mem_ex_wf ltac:(lia)) 106). }
  { destruct ((proj2 memory_and_string_routines) mem_ex 200 100 3%nat 5 10%nat mem_ex_wf) as (_&_&H3&H4);
      [right; by vm_compute|by vm_compute|reflexivity| |].
    - intros i Hi. assert (i = 0 ∨ i = 1 ∨ i = 2 ∨ i = 3 ∨ i = 4) as Hc by lia.
      destruct Hc as [->|[->|[->|[->| ->]]]]; by vm_compute.
    - split; [exact H4|]. exact H3. }
Defined.
