(* ===== verification/Spinlock.v ===== *)
(** Spin locks and interrupt nesting (src/spinlock.c, src/spinlock.h).

    [Module Spin] models the routines of the file on a machine of several CPUs
    that share locks; a CPU's run through acquire or release is broken at the
    points where another CPU can interleave (the xchg of the spin loop, the
    store of lk->cpu, the store of lk->locked), and the step relation lets the
    CPUs interleave there.  The debugging fields lk->name and lk->pcs, which no
    code reads back, are not kept.

    [lockview] is what one CPU sees of a lock, and its [acquire]/[release] are
    what the sequential models of the other components use: [view_acquire] and
    [view_release] connect them with the routines of [Spin]. *)

From Stdlib Require Import ZArith Lia.
From stdpp Require Import base tactics numbers gmap strings functions list.
From S2P Require Import Prelude.

#[local] Open Scope Z_scope.

Module Spin.

Record spinlock := { locked : bool; lcpu : option nat }.

(** Where a CPU is: outside the lock code, spinning on the xchg, between the
    xchg and the store of lk->cpu, or in release between the store of lk->cpu
    and that of lk->locked. *)
Inductive where_ := Running | Spinning (l : nat) | Took (l : nat) | Dropped (l : nat).

(** struct cpu's interrupt fields, the IF bit of its eflags, and the locks the
    CPU has finished acquiring (newest first; used by the proofs only). *)
Record cpu := {
  ncli : Z;
  intena : bool;
  flag_if : bool;
  pc : where_;
  held : list nat
}.

Record machine := { cpus : nat → cpu; locks : nat → spinlock }.

Definition set_cpu (i : nat) (c : cpu) (m : machine) : machine :=
  {| cpus := <[i := c]> (cpus m); locks := locks m |}.
Definition set_lock (l : nat) (lk : spinlock) (m : machine) : machine :=
  {| cpus := cpus m; locks := <[l := lk]> (locks m) |}.

Definition with_if (b : bool) (c : cpu) : cpu :=
  {| ncli := ncli c; intena := intena c; flag_if := b; pc := pc c; held := held c |}.
Definition with_ncli (n : Z) (c : cpu) : cpu :=
  {| ncli := n; intena := intena c; flag_if := flag_if c; pc := pc c; held := held c |}.
Definition with_intena (b : bool) (c : cpu) : cpu :=
  {| ncli := ncli c; intena := b; flag_if := flag_if c; pc := pc c; held := held c |}.
Definition with_pc (p : where_) (h : list nat) (c : cpu) : cpu :=
  {| ncli := ncli c; intena := intena c; flag_if := flag_if c; pc := p; held := h |}.

Definition initlock : spinlock := {| locked := false; lcpu := None |}.

Definition pushcli (c : cpu) : cpu :=
  let eflags := flag_if c in
  let c := with_if false c in                              (* cli() *)
  let c := if ncli c =? 0 then with_intena eflags c else c in
  with_ncli (ncli c + 1) c.

Definition popcli (c : cpu) : outcome cpu unit :=
  if flag_if c then Panic "popcli - interruptible"
  else
    let c := with_ncli (ncli c - 1) c in
    if ncli c <? 0 then Panic "popcli"
    else if (ncli c =? 0) && intena c then Ret tt (with_if true c)   (* sti() *)
    else Ret tt c.

Definition holding (i : nat) (lk : spinlock) : bool :=
  locked lk && bool_decide (lcpu lk = Some i).

(** acquire up to the spin loop. *)
Definition acquire_begin (i l : nat) : K machine unit := λ m,
  let c := pushcli (cpus m i) in
  if holding i (locks m l) then Panic "acquire"
  else Ret tt (set_cpu i (with_pc (Spinning l) (held (cpus m i)) c) m).

(** One xchg(&lk->locked, 1): the loop goes on unless the old value was 0. *)
Definition acquire_xchg (i l : nat) : K machine unit := λ m,
  let lk := locks m l in
  if locked lk then Ret tt m
  else
    let c := cpus m i in
    Ret tt (set_cpu i (with_pc (Took l) (held c) c)
             (set_lock l {| locked := true; lcpu := lcpu lk |} m)).

(** lk->cpu = mycpu(). *)
Definition acquire_end (i l : nat) : K machine unit := λ m,
  let c := cpus m i in
  Ret tt (set_cpu i (with_pc Running (l :: held c) c)
           (set_lock l {| locked := locked (locks m l); lcpu := Some i |} m)).

(** release up to the barrier. *)
Definition release_begin (i l : nat) : K machine unit := λ m,
  if negb (holding i (locks m l)) then Panic "release"
  else
    let c := cpus m i in
    Ret tt (set_cpu i (with_pc (Dropped l) (list_difference (held c) [l]) c)
             (set_lock l {| locked := locked (locks m l); lcpu := None |} m)).

(** movl $0, lk->locked; popcli(). *)
Definition release_end (i l : nat) : K machine unit := λ m,
  let m := set_lock l {| locked := false; lcpu := lcpu (locks m l) |} m in
  let c := cpus m i in
  match popcli c with
  | Ret _ c => Ret tt (set_cpu i (with_pc Running (held c) c) m)
  | Panic msg => Panic msg
  | _ => Diverge
  end.

(** acquire by a CPU that runs alone, with at most [fuel] xchgs. *)
Fixpoint spin (i l : nat) (fuel : nat) : K machine unit :=
  match fuel with
  | O => diverge
  | S fuel' => acquire_xchg i l ≫= λ _, gets (λ m, pc (cpus m i)) ≫= λ p,
      match p with Took _ => mret tt | _ => spin i l fuel' end
  end.
Definition acquire (i l : nat) (fuel : nat) : K machine unit :=
  acquire_begin i l ≫= λ _, spin i l fuel ≫= λ _, acquire_end i l.
Definition release (i l : nat) : K machine unit :=
  release_begin i l ≫= λ _, release_end i l.

(** Any CPU can take the next step of its run. *)
Inductive step : machine → machine → Prop :=
| step_acquire_begin i l m m' :
    pc (cpus m i) = Running → acquire_begin i l m = Ret tt m' → step m m'
| step_acquire_xchg i l m m' :
    pc (cpus m i) = Spinning l → acquire_xchg i l m = Ret tt m' → step m m'
| step_acquire_end i l m m' :
    pc (cpus m i) = Took l → acquire_end i l m = Ret tt m' → step m m'
| step_release_begin i l m m' :
    pc (cpus m i) = Running → release_begin i l m = Ret tt m' → step m m'
| step_release_end i l m m' :
    pc (cpus m i) = Dropped l → release_end i l m = Ret tt m' → step m m'.

(** All CPUs with interrupts on or off and no locks. *)
Definition initial (m : machine) : Prop :=
  (∀ i, ncli (cpus m i) = 0 ∧ pc (cpus m i) = Running ∧ held (cpus m i) = []) ∧
  (∀ l, locks m l = initlock).

(** CPU [i] owns [l] from the winning xchg to the store of 0. *)
Definition cpu_owns (c : cpu) (l : nat) : Prop :=
  l ∈ held c ∨ pc c = Took l ∨ pc c = Dropped l.
Definition owns (m : machine) (i l : nat) : Prop := cpu_owns (cpus m i) l.

Definition busy (c : cpu) : Z := match pc c with Running => 0 | _ => 1 end.

Record inv (m : machine) : Prop := {
  inv_excl : ∀ l i j, owns m i l → owns m j l → i = j;
  inv_locked : ∀ l, locked (locks m l) = true ↔ ∃ i, owns m i l;
  inv_cpu : ∀ l i, lcpu (locks m l) = Some i ↔ l ∈ held (cpus m i);
  inv_nodup : ∀ i, NoDup (held (cpus m i));
  inv_mid : ∀ i l, pc (cpus m i) = Took l ∨ pc (cpus m i) = Dropped l →
                   l ∉ held (cpus m i);
  inv_ncli : ∀ i, ncli (cpus m i) = Z.of_nat (length (held (cpus m i))) + busy (cpus m i);
  inv_if : ∀ i, 0 < ncli (cpus m i) → flag_if (cpus m i) = false
}.

Lemma cpus_set_cpu i c m j :
  cpus (set_cpu i c m) j = if decide (i = j) then c else cpus m j.
Proof. unfold set_cpu; simpl. by unfold insert, fn_insert. Qed.
Lemma locks_update i c l lk m k :
  locks (set_cpu i c (set_lock l lk m)) k = if decide (l = k) then lk else locks m k.
Proof. unfold set_cpu, set_lock; simpl. by unfold insert, fn_insert. Qed.

(** The fields of one CPU that the invariant constrains by themselves. *)
Definition cpu_ok (c : cpu) : Prop :=
  NoDup (held c) ∧ (∀ l, pc c = Took l ∨ pc c = Dropped l → l ∉ held c) ∧
  ncli c = Z.of_nat (length (held c)) + busy c ∧ (0 < ncli c → flag_if c = false).

Lemma inv_cpu_ok m i : inv m → cpu_ok (cpus m i).
Proof. intros [? ? ? Hn Hm Hc Hf]. repeat split; eauto. Qed.

(** A step changes one CPU and one lock: what has to be shown of them. *)
Lemma inv_update m i l c' lk' :
  inv m → cpu_ok c' →
  (∀ k, k ≠ l → (cpu_owns c' k ↔ owns m i k) ∧ (k ∈ held c' ↔ k ∈ held (cpus m i))) →
  (cpu_owns c' l → ∀ j, j ≠ i → ¬ owns m j l) →
  (locked lk' = true ↔ cpu_owns c' l ∨ ∃ j, j ≠ i ∧ owns m j l) →
  (∀ j, lcpu lk' = Some j ↔ if decide (j = i) then l ∈ held c' else l ∈ held (cpus m j)) →
  inv (set_cpu i c' (set_lock l lk' m)).
Proof.
  intros Hinv Hok Hother Hexcl Hlk Hcpu.
  assert (Hown : ∀ j k, owns (set_cpu i c' (set_lock l lk' m)) j k ↔
            if decide (i = j) then cpu_owns c' k else owns m j k).
  { intros j k. unfold owns. rewrite cpus_set_cpu. by case_decide. }
  assert (Hall : ∀ j, cpu_ok (cpus (set_cpu i c' (set_lock l lk' m)) j)).
  { intros j. rewrite cpus_set_cpu. case_decide; [done|]. by apply (inv_cpu_ok m). }
  split; try (intros; by apply Hall).
  - intros k j1 j2. rewrite !Hown.
    destruct (decide (k = l)) as [->|Hk].
    + repeat case_decide; subst; try done; intros H1 H2.
      * by destruct (Hexcl H1 j2).
      * by destruct (Hexcl H2 j1).
      * by eapply inv_excl.
    + destruct (Hother k Hk) as [Ho _].
      repeat case_decide; subst; try done; rewrite ?Ho; apply inv_excl, Hinv.
  - intros k. setoid_rewrite Hown. rewrite locks_update. case_decide; subst.
    + rewrite Hlk. split.
      * intros [H|(j&?&?)]; [exists i|exists j]; case_decide; congruence || done.
      * intros [j Hj]. case_decide; subst; [by left|]. right. by exists j.
    + rewrite (inv_locked m Hinv). destruct (Hother k) as [Ho _]; [done|].
      split; intros [j Hj]; exists j; revert Hj; case_decide; subst; rewrite ?Ho; done.
  - intros k j. rewrite locks_update, cpus_set_cpu.
    case_decide; subst.
    + rewrite Hcpu. repeat case_decide; subst; by done.
    + rewrite (inv_cpu m Hinv). case_decide; subst; [|done].
      by destruct (Hother k) as [_ ->].
Qed.

(** Machines are compared field by field; the invariant respects that. *)
#[export] Instance machine_equiv : Equiv machine := λ m m',
  (∀ i, cpus m i = cpus m' i) ∧ (∀ l, locks m l = locks m' l).
#[export] Instance machine_equivalence : Equivalence (≡@{machine}).
Proof.
  split.
  - by intros m.
  - intros m m' [H1 H2]. split; intros; by rewrite ?H1, ?H2.
  - intros m1 m2 m3 [H1 H2] [H3 H4]. split; intros; by rewrite ?H1, ?H2.
Qed.
#[export] Instance owns_proper : Proper ((≡) ==> (=) ==> (=) ==> iff) owns.
Proof. intros m m' [H1 H2] i ? <- l ? <-. unfold owns. by rewrite H1. Qed.
#[export] Instance inv_proper : Proper ((≡) ==> iff) inv.
Proof.
  assert (Hdir : ∀ m m', m ≡ m' → inv m → inv m').
  { intros m m' Hm Hinv. pose proof Hm as [H1 H2].
    split; intros *; rewrite <- ?H1, <- ?H2, <- ?Hm; try by apply Hinv.
    setoid_rewrite <- Hm. apply Hinv. }
  intros m m' Hm. split; apply Hdir; [done|by symmetry].
Qed.

Lemma set_lock_same l m : m ≡ set_lock l (locks m l) m.
Proof.
  split; [done|]. intros k. unfold set_lock; simpl. unfold insert, fn_insert.
  by case_decide; subst.
Qed.
Lemma set_cpu_equiv i c m m' : m ≡ m' → set_cpu i c m ≡ set_cpu i c m'.
Proof.
  intros [H1 H2]. split; intros j; [rewrite !cpus_set_cpu|simpl]; [|by apply H2].
  by rewrite H1.
Qed.

Lemma cpu_ok_pushcli c l :
  cpu_ok c → pc c = Running → cpu_ok (with_pc (Spinning l) (held c) (pushcli c)).
Proof.
  intros (Hn&Hm&Hc&Hf) Hpc. unfold pushcli, cpu_ok, busy in *. rewrite Hpc in Hc.
  destruct (ncli (with_if false c) =? 0); simpl in *;
    (repeat split; [done| |lia]); intros k [?|?]; done.
Qed.

Lemma holding_owns m i l :
  inv m → holding i (locks m l) = true ↔ l ∈ held (cpus m i).
Proof.
  intros Hinv. unfold holding.
  rewrite andb_true_iff, bool_decide_eq_true, (inv_cpu m Hinv).
  split; [by intros [_ ?]|]. intros H. split; [|done].
  apply (inv_locked m Hinv). exists i. by left.
Qed.

(** Only the owner changes a lock. *)
Lemma owner_unique m i l : inv m → owns m i l → ∀ j, j ≠ i → ¬ owns m j l.
Proof. intros Hinv Hi j Hne Hj. by destruct Hne, (inv_excl m Hinv l i j). Qed.

Lemma inv_acquire_begin i l m m' :
  inv m → pc (cpus m i) = Running → acquire_begin i l m = Ret tt m' → inv m'.
Proof.
  intros Hinv Hpc. unfold acquire_begin. destruct (holding i (locks m l)); [done|].
  intros [= <-]. set (c' := with_pc _ _ _).
  rewrite (set_cpu_equiv i c' _ _ (set_lock_same l m)).
  assert (Hheld : held c' = held (cpus m i)) by done.
  assert (Hown : ∀ k, cpu_owns c' k ↔ owns m i k).
  { intros k. unfold owns, cpu_owns. rewrite Hheld, Hpc. simpl. intuition congruence. }
  apply inv_update; [done|..].
  - apply cpu_ok_pushcli; [by apply inv_cpu_ok|done].
  - intros k Hk. by rewrite Hown.
  - rewrite Hown. apply owner_unique, Hinv.
  - rewrite (inv_locked m Hinv), Hown. split.
    + intros [j Hj]. destruct (decide (j = i)) as [->|]; [by left|right; eauto].
    + intros [?|(j&_&?)]; eauto.
  - intros j. rewrite (inv_cpu m Hinv), Hheld. by case_decide; subst.
Qed.

Lemma inv_acquire_xchg i l m m' :
  inv m → pc (cpus m i) = Spinning l → acquire_xchg i l m = Ret tt m' → inv m'.
Proof.
  intros Hinv Hpc. unfold acquire_xchg. destruct (locked (locks m l)) eqn:El.
  { by intros [= <-]. }
  intros [= <-]. assert (Hno : ∀ j, ¬ owns m j l).
  { intros j Hj. cut (locked (locks m l) = true); [by rewrite El|].
    apply inv_locked; eauto. }
  assert (Hni : l ∉ held (cpus m i)) by (intros H; apply (Hno i); by left).
  destruct (inv_cpu_ok m i Hinv) as (Hn&Hm&Hc&Hf).
  apply inv_update; [done|..].
  - unfold cpu_ok, busy in *. simpl. rewrite Hpc in Hc. repeat split; try done.
    intros k [[= <-]|?]; done.
  - intros k Hk. simpl. split; [|done]. unfold owns, cpu_owns; simpl. rewrite Hpc.
    intuition congruence.
  - intros _ j _. apply Hno.
  - simpl. split; [|done]. intros _. left. right. by left.
  - intros j. simpl. rewrite (inv_cpu m Hinv). by case_decide; subst.
Qed.

Lemma inv_acquire_end i l m m' :
  inv m → pc (cpus m i) = Took l → acquire_end i l m = Ret tt m' → inv m'.
Proof.
  intros Hinv Hpc [= <-].
  assert (Ho : owns m i l) by (right; by left).
  destruct (inv_cpu_ok m i Hinv) as (Hn&Hm&Hc&Hf).
  assert (Hni : l ∉ held (cpus m i)) by (apply Hm; by left).
  apply inv_update; [done|..].
  - unfold cpu_ok, busy in *. simpl. rewrite Hpc in Hc.
    repeat split; [by constructor|by intros k [?|?]|lia|done].
  - intros k Hk. unfold owns, cpu_owns; simpl. rewrite elem_of_cons, Hpc. intuition congruence.
  - intros _. by apply owner_unique.
  - simpl. rewrite (inv_locked m Hinv). split; [|by eauto].
    intros _. left. left. simpl. by left.
  - intros j. simpl. case_decide; subst; [split; [by left|done]|].
    split; [by intros [= ->]|]. intros Hj. exfalso.
    apply (owner_unique m i l Hinv Ho j); [done|by left].
Qed.

Lemma list_difference_single (h : list nat) l k :
  k ∈ list_difference h [l] ↔ k ∈ h ∧ k ≠ l.
Proof. rewrite list_elem_of_difference, list_elem_of_singleton. done. Qed.

Lemma length_list_difference_single (h : list nat) l :
  NoDup h → l ∈ h → S (length (list_difference h [l])) = length h.
Proof.
  intros Hn Hl. apply elem_of_Permutation in Hl as [h' Hp].
  assert (Hn' : NoDup (l :: h')) by (by rewrite <- Hp).
  apply NoDup_cons in Hn' as [Hl' Hn'].
  assert (Hd : list_difference h [l] ≡ₚ h').
  { apply NoDup_Permutation; [by apply NoDup_list_difference|done|].
    intros k. rewrite list_difference_single, Hp, elem_of_cons.
    split; [intuition congruence|]. intros Hk. split; [by right|]. by intros ->. }
  by rewrite Hd, Hp.
Qed.

Lemma inv_release_begin i l m m' :
  inv m → pc (cpus m i) = Running → release_begin i l m = Ret tt m' → inv m'.
Proof.
  intros Hinv Hpc. unfold release_begin.
  destruct (holding i (locks m l)) eqn:Eh; [|done]. intros [= <-].
  apply (holding_owns m i l Hinv) in Eh as Hl.
  assert (Ho : owns m i l) by by left.
  destruct (inv_cpu_ok m i Hinv) as (Hn&Hm&Hc&Hf).
  pose proof (length_list_difference_single _ _ Hn Hl) as Hlen.
  apply inv_update; [done|..].
  - unfold cpu_ok, busy in *. simpl. rewrite Hpc in Hc. repeat split; [| |lia|done].
    + by apply NoDup_list_difference.
    + intros k [?|[= <-]]; [done|]. rewrite list_difference_single. by intros [_ ?].
  - intros k Hk. unfold owns, cpu_owns; simpl.
    rewrite list_difference_single, Hpc. intuition congruence.
  - intros _. by apply owner_unique.
  - simpl. rewrite (inv_locked m Hinv). split; [|by eauto].
    intros _. left. right. by right.
  - intros j. simpl. split; [done|]. case_decide; subst.
    + rewrite list_difference_single. by intros [_ ?].
    + intros Hj. exfalso. apply (owner_unique m i l Hinv Ho j); [done|by left].
Qed.

Lemma popcli_ok c c' : popcli c = Ret tt c' →
  held c' = held c ∧ pc c' = pc c ∧ ncli c' = ncli c - 1 ∧
  (0 < ncli c' → flag_if c' = flag_if c).
Proof.
  unfold popcli. destruct (flag_if c) eqn:Ef; [done|]. simpl.
  destruct (Z.ltb_spec (ncli c - 1) 0); [done|].
  destruct (Z.eqb_spec (ncli c - 1) 0); simpl; [destruct (intena c)|];
    intros [= <-]; simpl; repeat split; auto; lia.
Qed.

Lemma inv_release_end i l m m' :
  inv m → pc (cpus m i) = Dropped l → release_end i l m = Ret tt m' → inv m'.
Proof.
  intros Hinv Hpc. unfold release_end. simpl.
  destruct (popcli (cpus m i)) as [[] c| | | |] eqn:Ep; try done. intros [= <-].
  apply popcli_ok in Ep as (Hh&Hp&Hnc&Hfl).
  assert (Ho : owns m i l) by (right; by right).
  destruct (inv_cpu_ok m i Hinv) as (Hn&Hm&Hc&Hf).
  assert (Hni : l ∉ held (cpus m i)) by (apply Hm; by right).
  apply inv_update; [done|..].
  - unfold cpu_ok, busy in *. simpl. rewrite Hpc in Hc. rewrite Hh.
    repeat split; [done|by intros k [?|?]|lia|].
    intros. rewrite Hfl by lia. apply Hf. lia.
  - intros k Hk. unfold owns, cpu_owns; simpl. rewrite Hh, Hpc. intuition congruence.
  - intros _. by apply owner_unique.
  - simpl. split; [done|]. unfold cpu_owns; simpl. rewrite Hh.
    intros [[?|[?|?]]|(j&Hj&Hoj)]; try done.
    exfalso. by apply (owner_unique m i l Hinv Ho j).
  - intros j. simpl. rewrite (inv_cpu m Hinv), Hh. by case_decide; subst.
Qed.

Lemma inv_initial m : initial m → inv m.
Proof.
  intros [Hc Hl].
  assert (Hno : ∀ i l, ¬ owns m i l).
  { intros i l. unfold owns, cpu_owns. destruct (Hc i) as (_&->&->).
    intros [H|[?|?]]; try done. by apply elem_of_nil in H. }
  split; intros *; try (destruct (Hc i) as (Hn0&Hp&Hh)).
  - intros H. by destruct (Hno i l).
  - rewrite Hl. simpl. split; [done|]. intros [i Hi]. by destruct (Hno i l).
  - rewrite Hl, Hh. simpl. split; [done|]. intros H. by apply elem_of_nil in H.
  - rewrite Hh. constructor.
  - rewrite Hp. by intros [?|?].
  - unfold busy. by rewrite Hn0, Hh, Hp.
  - lia.
Qed.

Lemma inv_step m m' : step m m' → inv m → inv m'.
Proof.
  destruct 1; intros; eauto using inv_acquire_begin, inv_acquire_xchg,
    inv_acquire_end, inv_release_begin, inv_release_end.
Qed.

Lemma inv_reachable m0 m : initial m0 → rtc step m0 m → inv m.
Proof.
  intros H0 Hr. apply inv_initial in H0. induction Hr; eauto using inv_step.
Qed.

Lemma flag_if_pushcli c : flag_if (pushcli c) = false.
Proof. unfold pushcli. by destruct (ncli (with_if false c) =? 0). Qed.

Lemma acquire_end_cpus i l m m' : acquire_end i l m = Ret tt m' →
  cpus m' i = with_pc Running (l :: held (cpus m i)) (cpus m i) ∧
  ∀ j, j ≠ i → cpus m' j = cpus m j.
Proof.
  intros [= <-]. split; intros; rewrite cpus_set_cpu; by case_decide.
Qed.
Lemma acquire_begin_cpus i l m m' : acquire_begin i l m = Ret tt m' →
  cpus m' i = with_pc (Spinning l) (held (cpus m i)) (pushcli (cpus m i)) ∧
  locks m' = locks m ∧ ∀ j, j ≠ i → cpus m' j = cpus m j.
Proof.
  unfold acquire_begin. destruct (holding _ _); [done|]. intros [= <-].
  repeat split; intros; rewrite cpus_set_cpu; by case_decide.
Qed.
Lemma acquire_xchg_free i l m : locked (locks m l) = false →
  ∃ m', acquire_xchg i l m = Ret tt m' ∧
    cpus m' i = with_pc (Took l) (held (cpus m i)) (cpus m i) ∧
    ∀ j, j ≠ i → cpus m' j = cpus m j.
Proof.
  intros Hl. unfold acquire_xchg. rewrite Hl. eexists. split; [done|].
  split; intros; rewrite cpus_set_cpu; by case_decide.
Qed.

(** A lock that is free can be taken: the sequential acquire returns, the lock
    is held by the caller, interrupts are off; a release then frees it and
    restores the nesting depth. *)
Lemma acquire_spec m i l fuel :
  inv m → pc (cpus m i) = Running → locked (locks m l) = false → (0 < fuel)%nat →
  wp (acquire i l fuel) m (λ _ m',
    inv m' ∧ pc (cpus m' i) = Running ∧ held (cpus m' i) = l :: held (cpus m i) ∧
    flag_if (cpus m' i) = false ∧ ∀ j, j ≠ i → cpus m' j = cpus m j).
Proof.
  intros Hinv Hpc Hl Hfuel. destruct fuel as [|fuel]; [lia|].
  unfold acquire. apply wp_bind. unfold wp at 1.
  destruct (acquire_begin i l m) as [[] m1| | | |] eqn:E1;
    try (exfalso; revert E1; unfold acquire_begin, holding; by rewrite Hl).
  pose proof (inv_acquire_begin _ _ _ _ Hinv Hpc E1) as Hinv1.
  apply acquire_begin_cpus in E1 as (Hc1&Hl1&Ho1). rewrite <- Hl1 in Hl.
  destruct (acquire_xchg_free i l m1 Hl) as (m2&E2&Hc2&Ho2).
  pose proof (inv_acquire_xchg _ _ _ _ Hinv1 ltac:(by rewrite Hc1) E2) as Hinv2.
  assert (Hpc2 : pc (cpus m2 i) = Took l) by (by rewrite Hc2).
  apply wp_bind. cbn [spin]. apply wp_bind. unfold wp at 1. rewrite E2.
  apply wp_bind. unfold wp at 1, gets. rewrite Hpc2. apply wp_ret.
  unfold wp. destruct (acquire_end i l m2) as [[] m3| | | |] eqn:E3; try done.
  pose proof (inv_acquire_end _ _ _ _ Hinv2 Hpc2 E3) as Hinv3.
  apply acquire_end_cpus in E3 as [Hc3 Ho3].
  rewrite Hc3, Hc2, Hc1. split_and!; [done..|apply flag_if_pushcli|].
  intros j Hj. by rewrite Ho3, Ho2, Ho1.
Qed.

Lemma release_begin_cpus i l m m' : release_begin i l m = Ret tt m' →
  cpus m' i = with_pc (Dropped l) (list_difference (held (cpus m i)) [l]) (cpus m i).
Proof.
  unfold release_begin. destruct (holding _ _); [|done]. intros [= <-].
  rewrite cpus_set_cpu. by case_decide.
Qed.

Lemma release_spec m i l :
  inv m → pc (cpus m i) = Running → l ∈ held (cpus m i) →
  wp (release i l) m (λ _ m',
    inv m' ∧ pc (cpus m' i) = Running ∧
    held (cpus m' i) = list_difference (held (cpus m i)) [l] ∧
    locked (locks m' l) = false ∧
    ncli (cpus m' i) = ncli (cpus m i) - 1 ∧
    flag_if (cpus m' i) = ((ncli (cpus m i) =? 1) && intena (cpus m i))).
Proof.
  intros Hinv Hpc Hl. unfold release. apply wp_bind. unfold wp at 1.
  destruct (release_begin i l m) as [[] m1| | | |] eqn:E1;
    try (exfalso; revert E1; unfold release_begin;
         by rewrite (proj2 (holding_owns m i l Hinv) Hl)).
  pose proof (inv_release_begin _ _ _ _ Hinv Hpc E1) as Hinv1.
  apply release_begin_cpus in E1 as Hc1.
  assert (Hlen : 0 < ncli (cpus m i)).
  { rewrite (inv_ncli m Hinv). unfold busy. rewrite Hpc.
    destruct (held (cpus m i)); [by apply elem_of_nil in Hl|]. simpl. lia. }
  pose proof (inv_if m Hinv i Hlen) as Hif.
  assert (Hpop : popcli (cpus m1 i) =
     Ret tt (with_if ((ncli (cpus m i) =? 1) && intena (cpus m i))
               (with_ncli (ncli (cpus m i) - 1) (cpus m1 i)))).
  { unfold popcli. rewrite Hc1. simpl. rewrite Hif.
    destruct (Z.ltb_spec (ncli (cpus m i) - 1) 0); [lia|].
    replace (ncli (cpus m i) - 1 =? 0) with (ncli (cpus m i) =? 1)
      by (destruct (Z.eqb_spec (ncli (cpus m i)) 1),
            (Z.eqb_spec (ncli (cpus m i) - 1) 0); lia).
    destruct (_ && _); [done|]. unfold with_if, with_ncli. simpl. by rewrite Hif. }
  unfold wp. destruct (release_end i l m1) as [[] m2| | | |] eqn:E2;
    try (exfalso; revert E2; unfold release_end; simpl; by rewrite Hpop).
  split; [by eapply inv_release_end; [..|exact E2]; [|by rewrite Hc1]|].
  revert E2. unfold release_end. simpl. rewrite Hpop. intros [= <-].
  rewrite cpus_set_cpu, locks_update, !decide_True, Hc1 by done. done.
Qed.

(** C15: in every state the CPUs can reach by interleaving their runs through
    acquire and release, at most one CPU owns a lock (from its winning xchg to
    its store of 0), lk->locked says whether some CPU does, holding() tells each
    CPU truthfully whether it holds the lock, the nesting depth ncli counts the
    locks the CPU holds or is acquiring or releasing, and interrupts are off
    while it is positive. *)
Theorem mutual_exclusion m0 m :
  initial m0 → rtc step m0 m →
  (∀ l i j, owns m i l → owns m j l → i = j) ∧
  (∀ l, locked (locks m l) = true ↔ ∃ i, owns m i l) ∧
  (∀ l i, holding i (locks m l) = true ↔ l ∈ held (cpus m i)) ∧
  (∀ i, ncli (cpus m i) = Z.of_nat (length (held (cpus m i))) + busy (cpus m i)) ∧
  (∀ i, 0 < ncli (cpus m i) → flag_if (cpus m i) = false).
Proof.
  intros H0 Hr. pose proof (inv_reachable _ _ H0 Hr) as Hinv.
  split_and!; try apply Hinv. intros. by apply holding_owns.
Qed.

(** Two CPUs with interrupts on; CPU 0 takes lock 7 and CPU 1 starts spinning. *)
Definition quiet : machine :=
  {| cpus := λ _, {| ncli := 0; intena := false; flag_if := true; pc := Running; held := [] |};
     locks := λ _, initlock |}.

Definition run (ms : list (K machine unit)) (m : machine) : outcome machine unit :=
  for_each ms id m.

Lemma mutual_exclusion_witness : ∃ m,
  rtc step quiet m ∧ pc (cpus m 1%nat) = Spinning 7 ∧ owns m 0 7 ∧
  ∀ i, owns m i 7 → i = 0%nat.
Proof.
  destruct (run [acquire_begin 0 7; acquire_xchg 0 7; acquire_end 0 7; acquire_begin 1 7;
                 acquire_xchg 1 7] quiet) as [[] m| | | |] eqn:E; try discriminate E.
  assert (Hr : rtc step quiet m).
  { injection E as <-. eapply rtc_l; [by apply (step_acquire_begin 0 7)|].
    eapply rtc_l; [by apply (step_acquire_xchg 0 7)|].
    eapply rtc_l; [by apply (step_acquire_end 0 7)|].
    eapply rtc_l; [by apply (step_acquire_begin 1 7)|].
    eapply rtc_l; [by apply (step_acquire_xchg 1 7)|]. apply rtc_refl. }
  assert (H0 : initial quiet) by done.
  assert (Hown : owns m 0 7) by (injection E as <-; left; vm_compute; constructor).
  exists m. split; [exact Hr|]. split; [by injection E as <-|].
  split; [exact Hown|]. intros i Hi.
  exact (proj1 (mutual_exclusion quiet m H0 Hr) 7%nat i 0%nat Hi Hown).
Defined.

End Spin.

(** * One CPU's view of a lock *)

Inductive lockview := LFree | LMine | LOther.

#[export] Instance lockview_eq_dec : EqDecision lockview.
Proof. solve_decision. Defined.

Definition view (i : nat) (lk : Spin.spinlock) : lockview :=
  if Spin.locked lk then if Spin.holding i lk then LMine else LOther else LFree.

Section view_ops.
Context {S : Type} (g : S → lockview) (upd : lockview → S → S).

(** acquire(&lk): a lock of another CPU is spun on. *)
Definition acquire : K S unit := λ s,
  match g s with
  | LFree => Ret tt (upd LMine s)
  | LMine => Panic "acquire"
  | LOther => Diverge
  end.

Definition release : K S unit := λ s,
  match g s with
  | LMine => Ret tt (upd LFree s)
  | _ => Panic "release"
  end.
End view_ops.

(** The views agree with the routines of [Spin] run by a CPU alone. *)
Lemma view_acquire m i l fuel :
  Spin.inv m → Spin.pc (Spin.cpus m i) = Spin.Running → (0 < fuel)%nat →
  match view i (Spin.locks m l) with
  | LFree => wp (Spin.acquire i l fuel) m (λ _ m', view i (Spin.locks m' l) = LMine)
  | LMine => Spin.acquire i l fuel m = Panic "acquire"
  | LOther => Spin.acquire i l fuel m = Diverge
  end.
Proof.
  intros Hinv Hpc Hf. unfold view at 1.
  destruct (Spin.locked (Spin.locks m l)) eqn:El.
  - destruct (Spin.holding i (Spin.locks m l)) eqn:Eh.
    + unfold Spin.acquire, mbind, K_bind, Spin.acquire_begin. by rewrite Eh.
    + unfold Spin.acquire, mbind, K_bind, Spin.acquire_begin. rewrite Eh.
      set (m1 := Spin.set_cpu _ _ _).
      assert (Hp1 : Spin.pc (Spin.cpus m1 i) = Spin.Spinning l).
      { subst m1. rewrite Spin.cpus_set_cpu. by case_decide. }
      assert (Hs : Spin.spin i l fuel m1 = Diverge).
      { clear Hf. induction fuel as [|fuel IH]; [done|]. cbn [Spin.spin].
        unfold mbind, K_bind, gets at 1. unfold Spin.acquire_xchg at 1.
        change (Spin.locks m1) with (Spin.locks m). rewrite El, Hp1. apply IH. }
      by rewrite Hs.
  - pose proof (Spin.acquire_spec m i l fuel Hinv Hpc El Hf) as H.
    eapply wp_mono; [|exact H]. intros [] m' (Hinv'&_&Hh&_).
    assert (Hl : l ∈ Spin.held (Spin.cpus m' i)) by (rewrite Hh; by left).
    unfold view. rewrite (proj2 (Spin.holding_owns _ _ _ Hinv') Hl).
    rewrite (proj2 (Spin.inv_locked _ Hinv' l)); [done|]. exists i. by left.
Qed.

Lemma view_release m i l :
  Spin.inv m → Spin.pc (Spin.cpus m i) = Spin.Running →
  match view i (Spin.locks m l) with
  | LMine => wp (Spin.release i l) m (λ _ m', view i (Spin.locks m' l) = LFree)
  | _ => Spin.release i l m = Panic "release"
  end.
Proof.
  intros Hinv Hpc. unfold view at 1.
  destruct (Spin.holding i (Spin.locks m l)) eqn:Eh.
  - pose proof Eh as Hl. rewrite Spin.holding_owns in Hl by done.
    assert (Spin.locked (Spin.locks m l) = true) as ->.
    { apply Spin.inv_locked; [done|]. exists i. by left. }
    eapply wp_mono; [|by apply Spin.release_spec].
    intros [] m' (_&_&_&El&_). unfold view. by rewrite El.
  - unfold Spin.release, mbind, K_bind, Spin.release_begin. rewrite Eh.
    by destruct (Spin.locked _).
Qed.
