(* ===== verification/Mmu.v ===== *)
(** Address arithmetic of the x86 MMU (src/mmu.h) and the memory layout of the
    kernel (src/memlayout.h): the macros, on 32-bit values, and the arithmetic
    they stand for. *)

From Stdlib Require Import ZArith Lia.
From stdpp Require Import base tactics numbers.
From S2P Require Import Prelude.

#[local] Open Scope Z_scope.

(** memlayout.h *)
Definition EXTMEM : Z := 1048576.          (* 0x100000 *)
Definition PHYSTOP : Z := 234881024.       (* 0xE000000 *)
Definition DEVSPACE : Z := 4261412864.     (* 0xFE000000 *)
Definition MAX_STACK : Z := 1048576.       (* 0x100000 *)
Definition MAX_SHM : Z := 16777216.        (* 0x1000000 *)
Definition VDSOTEXT : Z := 2147471360.     (* 0x7FFFD000 *)
Definition KERNBASE : Z := 2147483648.     (* 0x80000000 *)
Definition KERNLINK : Z := KERNBASE + EXTMEM.
Definition V2P (a : Z) : Z := u32 (a - KERNBASE).
Definition P2V (a : Z) : Z := u32 (a + KERNBASE).

(** mmu.h *)
Definition PGSIZE : Z := 4096.
Definition NPDENTRIES : Z := 1024.
Definition PDX (va : Z) : Z := Z.land (Z.shiftr va 22) 1023.
Definition PTX (va : Z) : Z := Z.land (Z.shiftr va 12) 1023.
Definition PGADDR (d t o : Z) : Z :=
  u32 (Z.lor (Z.lor (Z.shiftl d 22) (Z.shiftl t 12)) o).
Definition PGROUNDUP (sz : Z) : Z := Z.land (u32 (sz + PGSIZE - 1)) (Z.lnot (PGSIZE - 1)).
Definition PGROUNDDOWN (a : Z) : Z := Z.land a (Z.lnot (PGSIZE - 1)).

Definition PTE_P : Z := 1.
Definition PTE_W : Z := 2.
Definition PTE_U : Z := 4.
Definition PTE_COW : Z := 2048.            (* 0x800 *)
Definition FEC_PR : Z := 1.
Definition FEC_WR : Z := 2.
Definition FEC_U : Z := 4.

Definition PTE_ADDR (pte : Z) : Z := Z.land pte (Z.lnot 4095).
Definition PTE_FLAGS (pte : Z) : Z := Z.land pte 4095.

(** A test of a flag: [*pte & f]. *)
Definition has (pte f : Z) : bool := truth (Z.land pte f).

(** ** Arithmetic *)

Lemma land_lnot_4095 a : Z.land a (Z.lnot 4095) = a / 4096 * 4096.
Proof.
  change 4095 with (Z.ones 12). rewrite <- Z.ldiff_land, Z.ldiff_ones_r by lia.
  rewrite Z.shiftl_mul_pow2, Z.shiftr_div_pow2 by lia. done.
Qed.

Lemma PGROUNDDOWN_eq a : PGROUNDDOWN a = a / 4096 * 4096.
Proof. apply land_lnot_4095. Qed.
Lemma PGROUNDUP_eq sz : PGROUNDUP sz = u32 (sz + 4095) / 4096 * 4096.
Proof.
  unfold PGROUNDUP. rewrite land_lnot_4095. unfold PGSIZE. do 3 f_equal. lia.
Qed.
Lemma PGROUNDUP_small sz : 0 ≤ sz → sz + 4095 < 4294967296 →
  PGROUNDUP sz = (sz + 4095) / 4096 * 4096.
Proof. intros. rewrite PGROUNDUP_eq, u32_small by (unfold is_u32; lia). done. Qed.
Lemma PTE_ADDR_eq pte : PTE_ADDR pte = pte / 4096 * 4096.
Proof. apply land_lnot_4095. Qed.
Lemma PTE_FLAGS_eq pte : PTE_FLAGS pte = pte mod 4096.
Proof. unfold PTE_FLAGS. change 4095 with (Z.ones 12). by rewrite Z.land_ones by lia. Qed.
Lemma PDX_eq va : is_u32 va → PDX va = va / 4194304.
Proof.
  intros Hva. unfold PDX, is_u32 in *. change 1023 with (Z.ones 10).
  rewrite Z.land_ones, Z.shiftr_div_pow2 by lia.
  change (2 ^ 22) with 4194304. change (2 ^ 10) with 1024. zlia.
Qed.
Lemma PTX_eq va : PTX va = va / 4096 mod 1024.
Proof.
  unfold PTX. change 1023 with (Z.ones 10).
  rewrite Z.land_ones, Z.shiftr_div_pow2 by lia. done.
Qed.
Lemma PDX_range va : is_u32 va → 0 ≤ PDX va < 1024.
Proof. intros. rewrite PDX_eq by done. unfold is_u32 in *. zlia. Qed.
Lemma PTX_range va : 0 ≤ PTX va < 1024.
Proof. rewrite PTX_eq. zlia. Qed.

(** An address is its page directory index, page table index and offset. *)
Lemma va_split va : is_u32 va → va = PDX va * 4194304 + PTX va * 4096 + va mod 4096.
Proof. intros. rewrite PDX_eq, PTX_eq by done. unfold is_u32 in *. zlia. Qed.

Lemma land_high_low x y k : 0 ≤ k → 0 ≤ y < 2 ^ k → Z.land (x * 2 ^ k) y = 0.
Proof.
  intros Hk Hy. apply Z.bits_inj'. intros i Hi. rewrite Z.land_spec, Z.bits_0.
  destruct (Z.lt_ge_cases i k); [by rewrite Z.mul_pow2_bits_low|].
  destruct (Z.eq_dec y 0) as [->|]; [by rewrite Z.bits_0, andb_false_r|].
  rewrite (Z.bits_above_log2 y), andb_false_r; [done|lia|].
  apply Z.log2_lt_pow2; [lia|]. pose proof (Z.pow_le_mono_r 2 k i). lia.
Qed.
Lemma lor_add_low x y k : 0 ≤ k → 0 ≤ y < 2 ^ k → Z.lor (x * 2 ^ k) y = x * 2 ^ k + y.
Proof.
  intros Hk Hy. pose proof (land_high_low x y k Hk Hy) as H0.
  by rewrite Z.add_nocarry_lxor, Z.lxor_lor.
Qed.

Lemma PGADDR_eq d t o : 0 ≤ d < 1024 → 0 ≤ t < 1024 → 0 ≤ o < 4096 →
  PGADDR d t o = d * 4194304 + t * 4096 + o.
Proof.
  intros. unfold PGADDR. rewrite !Z.shiftl_mul_pow2 by lia.
  replace (d * 2 ^ 22) with (d * 1024 * 2 ^ 12) by lia.
  replace (d * 1024 * 2 ^ 12) with (d * 2 ^ 22) at 1 by lia.
  rewrite (lor_add_low d (t * 2 ^ 12) 22) by lia.
  replace (d * 2 ^ 22 + t * 2 ^ 12) with ((d * 1024 + t) * 2 ^ 12) by lia.
  rewrite lor_add_low by lia. rewrite u32_small by (unfold is_u32; lia). lia.
Qed.

Lemma PGADDR_split va : is_u32 va → PGADDR (PDX va) (PTX va) (va mod 4096) = va.
Proof.
  intros. rewrite PGADDR_eq by (auto using PDX_range, PTX_range; zlia).
  symmetry. by apply va_split.
Qed.

Lemma V2P_P2V pa : is_u32 pa → V2P (P2V pa) = pa.
Proof. unfold V2P, P2V, u32, is_u32, KERNBASE. intros. zlia. Qed.
Lemma P2V_V2P v : is_u32 v → P2V (V2P v) = v.
Proof. unfold V2P, P2V, u32, is_u32, KERNBASE. intros. zlia. Qed.
Lemma P2V_small pa : 0 ≤ pa < PHYSTOP → P2V pa = pa + KERNBASE.
Proof. unfold P2V, PHYSTOP, KERNBASE. intros. apply u32_small. unfold is_u32. lia. Qed.

(** ** Page table entries: a page address and flags below 4096 *)

Lemma lor_pte pa f : pa mod 4096 = 0 → 0 ≤ f < 4096 → Z.lor pa f = pa + f.
Proof.
  intros Hpa Hf. replace pa with (pa / 4096 * 2 ^ 12) by (change (2 ^ 12) with 4096; zlia).
  apply lor_add_low; [lia|]. change (2 ^ 12) with 4096. lia.
Qed.

Lemma has_testbit pte k : 0 ≤ k → has pte (2 ^ k) = Z.testbit pte k.
Proof.
  intros Hk. unfold has, truth. destruct (Z.testbit pte k) eqn:E.
  - destruct (Z.eqb_spec (Z.land pte (2 ^ k)) 0) as [H|]; [|done].
    apply (f_equal (λ z, Z.testbit z k)) in H.
    rewrite Z.land_spec, E, Z.pow2_bits_true, Z.bits_0 in H by lia. done.
  - replace (Z.land pte (2 ^ k)) with 0; [done|]. symmetry. apply Z.bits_inj'.
    intros i Hi. rewrite Z.land_spec, Z.bits_0.
    destruct (Z.eq_dec k i) as [<-|]; [by rewrite E|].
    rewrite Z.pow2_bits_false by done. apply andb_false_r.
Qed.
Lemma has_P pte : has pte PTE_P = Z.testbit pte 0.
Proof. apply (has_testbit pte 0). lia. Qed.
Lemma has_W pte : has pte PTE_W = Z.testbit pte 1.
Proof. apply (has_testbit pte 1). lia. Qed.
Lemma has_U pte : has pte PTE_U = Z.testbit pte 2.
Proof. apply (has_testbit pte 2). lia. Qed.
Lemma has_COW pte : has pte PTE_COW = Z.testbit pte 11.
Proof. apply (has_testbit pte 11). lia. Qed.

(** ** Setting and clearing flags *)

Lemma div_4096_shiftr x : x / 4096 = Z.shiftr x 12.
Proof. by rewrite Z.shiftr_div_pow2 by lia. Qed.
Lemma shiftr_low f : 0 ≤ f < 4096 → Z.shiftr f 12 = 0.
Proof. intros. rewrite <- div_4096_shiftr. zlia. Qed.

(** Flag changes keep the frame of an entry. *)
Lemma frame_set pte f : 0 ≤ f < 4096 → Z.lor pte f / 4096 = pte / 4096.
Proof.
  intros Hf. rewrite !div_4096_shiftr, Z.shiftr_lor, (shiftr_low f), Z.lor_0_r by done. done.
Qed.
Lemma frame_clear pte f : 0 ≤ f < 4096 → Z.land pte (Z.lnot f) / 4096 = pte / 4096.
Proof.
  intros Hf. rewrite <- Z.ldiff_land, !div_4096_shiftr, Z.shiftr_ldiff, (shiftr_low f) by done.
  apply Z.ldiff_0_r.
Qed.
Lemma frame_make fr f : 0 ≤ f < 4096 → Z.lor (fr * 4096) f / 4096 = fr.
Proof. intros. rewrite frame_set by done. by rewrite Z.div_mul by lia. Qed.

Lemma is_u32_frame x : is_u32 x ↔ 0 ≤ x / 4096 < 1048576.
Proof. unfold is_u32. split; intros; zlia. Qed.
Lemma set_u32 pte f : 0 ≤ f < 4096 → is_u32 pte → is_u32 (Z.lor pte f).
Proof. rewrite !is_u32_frame. intros. by rewrite frame_set. Qed.
Lemma clear_u32 pte f : 0 ≤ f < 4096 → is_u32 pte → is_u32 (Z.land pte (Z.lnot f)).
Proof. rewrite !is_u32_frame. intros. by rewrite frame_clear. Qed.

(** Compute flag tests on entries built with Z.lor, Z.land and Z.lnot. *)
Ltac flags :=
  rewrite ?has_P, ?has_W, ?has_U, ?has_COW in *;
  unfold PTE_P, PTE_W, PTE_U, PTE_COW in *;
  repeat first [rewrite Z.lor_spec in * | rewrite Z.land_spec in *
               | rewrite Z.lnot_spec in * by lia];
  repeat match goal with
  | |- context [Z.testbit (Zpos ?p) ?k] =>
      let b := eval vm_compute in (Z.testbit (Zpos p) k) in
      change (Z.testbit (Zpos p) k) with b
  | H : context [Z.testbit (Zpos ?p) ?k] |- _ =>
      let b := eval vm_compute in (Z.testbit (Zpos p) k) in
      change (Z.testbit (Zpos p) k) with b in H
  end;
  rewrite ?orb_false_r, ?orb_true_r, ?andb_false_r, ?andb_true_r in *; simpl negb in *;
  rewrite ?orb_false_r, ?orb_true_r, ?andb_false_r, ?andb_true_r in *.

(** An entry is its frame and its flags. *)
Lemma pte_split e : PTE_ADDR e + PTE_FLAGS e = e.
Proof. rewrite PTE_ADDR_eq, PTE_FLAGS_eq. zlia. Qed.
Lemma pte_join e : Z.lor (PTE_ADDR e) (PTE_FLAGS e) = e.
Proof.
  rewrite lor_pte; [apply pte_split|rewrite PTE_ADDR_eq; zlia|rewrite PTE_FLAGS_eq; zlia].
Qed.
