(* ===== verification/Kalloc.v ===== *)
(** The physical page allocator (src/kalloc.c).

    The state is the struct kmem of the source: its lock, use_lock, the head of
    the free list and the array runs[MAXPAGES] of reference counts and links
    (a [struct run *] is an index into runs, NULL is [None]), together with the
    memory that kfree fills with junk.  [kend] is the linker symbol end[], the
    first address after the kernel, which kernel.ld defines.

    [Module Pool] is the abstract allocator: a list of free page numbers and a
    count per page.  [R] relates the two, and the [*_refines] lemmas show that
    every operation of the source implements the abstract one. *)

From Stdlib Require Import ZArith Lia.
From stdpp Require Import base tactics numbers gmap strings list.
From S2P Require Import Prelude Memory Kstring Spinlock Mmu.

#[local] Open Scope Z_scope.

Definition MAXPAGES : Z := PHYSTOP / PGSIZE.

Record run := { ref_count : Z; next : option Z }.

Record kmem := {
  lock : lockview;
  use_lock : bool;
  freelist : option Z;
  runs : gmap Z run;
  pmem : mem
}.

Definition set_lock (l : lockview) (k : kmem) : kmem :=
  {| lock := l; use_lock := use_lock k; freelist := freelist k; runs := runs k; pmem := pmem k |}.
Definition set_use_lock (b : bool) (k : kmem) : kmem :=
  {| lock := lock k; use_lock := b; freelist := freelist k; runs := runs k; pmem := pmem k |}.
Definition set_freelist (f : option Z) (k : kmem) : kmem :=
  {| lock := lock k; use_lock := use_lock k; freelist := f; runs := runs k; pmem := pmem k |}.
Definition set_run (i : Z) (r : run) (k : kmem) : kmem :=
  {| lock := lock k; use_lock := use_lock k; freelist := freelist k;
     runs := <[i := r]> (runs k); pmem := pmem k |}.
Definition set_pmem (m : mem) (k : kmem) : kmem :=
  {| lock := lock k; use_lock := use_lock k; freelist := freelist k; runs := runs k; pmem := m |}.

(** kmem.runs[i]; the array starts as zeroes. *)
Definition run_at (k : kmem) (i : Z) : run :=
  default {| ref_count := 0; next := None |} (runs k !! i).
Definition refs (k : kmem) (i : Z) : Z := ref_count (run_at k i).

(** V2P(v) / PGSIZE *)
Definition page_of (v : Z) : Z := V2P v / PGSIZE.

(** &kmem.runs[(V2P(v) / PGSIZE)]: an index outside the array has no run. *)
Definition run_of (v : Z) : K kmem Z := λ k,
  if page_of v <? MAXPAGES then Ret (page_of v) k else Fault "kmem.runs[]".

Definition lock_kmem : K kmem unit := λ k, when (use_lock k) (acquire lock set_lock) k.
Definition unlock_kmem : K kmem unit := λ k, when (use_lock k) (release lock set_lock) k.

(** __sync_fetch_and_and(&runp->ref_count, 0) and its siblings *)
Definition zeroRefCountRun (i : Z) : K kmem unit :=
  modify (λ k, set_run i {| ref_count := Z.land (refs k i) 0; next := next (run_at k i) |} k).
Definition inclRefCountRun (i : Z) : K kmem unit :=
  modify (λ k, set_run i {| ref_count := u32 (refs k i + 1); next := next (run_at k i) |} k).
Definition declRefCountRun (i : Z) : K kmem unit :=
  modify (λ k, set_run i {| ref_count := u32 (refs k i - 1); next := next (run_at k i) |} k).

(** r->next = kmem.freelist; kmem.freelist = r; *)
Definition push_run (i : Z) : K kmem unit :=
  modify (λ k, set_freelist (Some i)
    (set_run i {| ref_count := refs k i; next := freelist k |} k)).

(** memset(v, 1, PGSIZE) *)
Definition junk (v : Z) : K kmem unit := modify (λ k, set_pmem (memset (pmem k) v 1 PGSIZE) k).

Section kalloc.
Context (kend : Z).

Definition bad_page (v : Z) : bool :=
  truth (v mod PGSIZE) || (v <? kend) || (PHYSTOP <=? V2P v).

Definition kfree2 (v : Z) : K kmem unit :=
  if bad_page v then panic "kfree2" else
  junk v ≫= λ _,
  lock_kmem ≫= λ _,
  run_of v ≫= λ r,
  push_run r ≫= λ _,
  zeroRefCountRun r ≫= λ _,
  unlock_kmem.

Definition kfree (v : Z) : K kmem unit :=
  if bad_page v then panic "kfree1" else
  junk v ≫= λ _,
  lock_kmem ≫= λ _,
  run_of v ≫= λ r,
  gets (λ k, refs k r) ≫= λ c,
  (if c =? 1 then mret tt else panic "kfree2 ref_count!=1") ≫= λ _,
  push_run r ≫= λ _,
  zeroRefCountRun r ≫= λ _,
  unlock_kmem.

(** Returns 0 when there is no page. *)
Definition kalloc : K kmem Z :=
  lock_kmem ≫= λ _,
  gets freelist ≫= λ r,
  match r with
  | Some i =>
      modify (λ k, set_freelist (next (run_at k i)) k) ≫= λ _,
      zeroRefCountRun i ≫= λ _,
      inclRefCountRun i
  | None => mret tt
  end ≫= λ _,
  unlock_kmem ≫= λ _,
  mret (match r with Some i => P2V (i * PGSIZE) | None => 0 end).

Definition inclRefCount (v : Z) : K kmem unit :=
  lock_kmem ≫= λ _, run_of v ≫= λ r, inclRefCountRun r ≫= λ _, unlock_kmem.
Definition declRefCount (v : Z) : K kmem unit :=
  lock_kmem ≫= λ _, run_of v ≫= λ r, declRefCountRun r ≫= λ _, unlock_kmem.
Definition getRefCount (v : Z) : K kmem Z :=
  lock_kmem ≫= λ _, run_of v ≫= λ r, unlock_kmem ≫= λ _, gets (λ k, refs k r).

(** The pages of [vstart, vend), in the order of the loop. *)
Definition range_pages (vstart vend : Z) : list Z :=
  let p := PGROUNDUP vstart in
  (λ i, p + i * PGSIZE) <$> seqZ 0 ((vend - p) / PGSIZE).
Definition freerange (vstart vend : Z) : K kmem unit :=
  for_each (range_pages vstart vend) kfree2.

Definition kinit1 (vstart vend : Z) : K kmem unit :=
  modify (set_lock LFree) ≫= λ _,
  modify (set_use_lock false) ≫= λ _,
  freerange vstart vend.
Definition kinit2 (vstart vend : Z) : K kmem unit :=
  freerange vstart vend ≫= λ _, modify (set_use_lock true).
End kalloc.

(** * The abstract allocator *)

Module Pool.
Record pool := { free : list Z; count : Z → Z }.

Definition upd (f : Z → Z) (i c : Z) : Z → Z := λ j, if decide (i = j) then c else f j.

Definition alloc (p : pool) : option Z * pool :=
  match free p with
  | [] => (None, p)
  | i :: l => (Some i, {| free := l; count := upd (count p) i 1 |})
  end.
Definition give (i : Z) (p : pool) : pool :=
  {| free := i :: free p; count := upd (count p) i 0 |}.
Definition incl (i : Z) (p : pool) : pool :=
  {| free := free p; count := upd (count p) i (u32 (count p i + 1)) |}.
Definition decl (i : Z) (p : pool) : pool :=
  {| free := free p; count := upd (count p) i (u32 (count p i - 1)) |}.
End Pool.

(** [l] is the list that starts at [o] and follows [nxt]. *)
Fixpoint chain (nxt : Z → option Z) (o : option Z) (l : list Z) : Prop :=
  match l with
  | [] => o = None
  | i :: l' => o = Some i ∧ chain nxt (nxt i) l'
  end.

Lemma chain_ext f g o l : (∀ i, i ∈ l → f i = g i) → chain f o l → chain g o l.
Proof.
  revert o. induction l as [|i l IH]; intros o Hfg; simpl; [done|].
  intros [-> Hc]. split; [done|]. rewrite <- Hfg by (by left).
  apply IH; [|done]. intros j Hj. apply Hfg. by right.
Qed.

Definition links (k : kmem) (i : Z) : option Z := next (run_at k i).

(** Pages above the kernel and below PHYSTOP. *)
Definition good_page (kend i : Z) : Prop := 0 ≤ i < MAXPAGES ∧ kend ≤ i * PGSIZE + KERNBASE.

Record R (kend : Z) (k : kmem) (p : Pool.pool) : Prop := {
  R_chain : chain (links k) (freelist k) (Pool.free p);
  R_nodup : NoDup (Pool.free p);
  R_good : ∀ i, i ∈ Pool.free p → good_page kend i;
  R_free : ∀ i, i ∈ Pool.free p → Pool.count p i = 0;
  R_count : ∀ i, refs k i = Pool.count p i;
  R_u32 : ∀ i, is_u32 (Pool.count p i);
  R_lock : lock k = LFree;
  R_mem : mem_wf (pmem k)
}.

Lemma run_at_set_run i r k j :
  run_at (set_run i r k) j = if decide (i = j) then r else run_at k j.
Proof. unfold run_at; simpl. rewrite lookup_insert. by case_decide. Qed.
Lemma refs_set_run i r k j :
  refs (set_run i r k) j = if decide (i = j) then ref_count r else refs k j.
Proof. unfold refs. rewrite run_at_set_run. by case_decide. Qed.
Lemma links_set_run i r k j :
  links (set_run i r k) j = if decide (i = j) then next r else links k j.
Proof. unfold links. rewrite run_at_set_run. by case_decide. Qed.

(** The locking prologue and epilogue, when the lock is free before. *)
Lemma lock_unlock {A} (m : K kmem A) (k : kmem) Q :
  lock k = LFree →
  wp m (if use_lock k then set_lock LMine k else k)
    (λ a k', use_lock k' = use_lock k ∧
             lock k' = (if use_lock k then LMine else LFree) ∧
             Q a (set_lock LFree k')) →
  wp (lock_kmem ≫= λ _, m ≫= λ a, unlock_kmem ≫= λ _, mret a) k Q.
Proof.
  intros Hl H.
  assert (Hlk : lock_kmem k = Ret tt (if use_lock k then set_lock LMine k else k)).
  { unfold lock_kmem, when, acquire. destruct (use_lock k); [by rewrite Hl|done]. }
  apply wp_bind. unfold wp at 1. rewrite Hlk.
  apply wp_bind. eapply wp_mono; [|exact H]. intros a k' (Hu&Hk&HQ).
  apply wp_bind. unfold wp at 1, unlock_kmem, when, release. rewrite Hu.
  destruct (use_lock k).
  - rewrite Hk. exact HQ.
  - destruct k'; simpl in *. subst. exact HQ.
Qed.

Lemma page_of_P2V i : 0 ≤ i < MAXPAGES → page_of (P2V (i * PGSIZE)) = i.
Proof.
  unfold MAXPAGES, PHYSTOP, PGSIZE. intros. unfold page_of, PGSIZE.
  rewrite V2P_P2V by (unfold is_u32; zlia). zlia.
Qed.

Lemma good_page_ok kend v : is_u32 v → bad_page kend v = false →
  good_page kend (page_of v) ∧ v = P2V (page_of v * PGSIZE).
Proof.
  unfold bad_page, truth, good_page, page_of, MAXPAGES, PHYSTOP, P2V, V2P, u32, is_u32,
    KERNBASE, PGSIZE. intros Hv H.
  apply orb_false_elim in H as [[H1 H2]%orb_false_elim H3].
  apply negb_false_iff, Z.eqb_eq in H1. apply Z.ltb_ge in H2. apply Z.leb_gt in H3. zlia.
Qed.

(** Writing the run of one page that is not on the free list. *)
Lemma R_set_run kend k p i c nx :
  R kend k p → i ∉ Pool.free p → is_u32 c →
  R kend (set_run i {| ref_count := c; next := nx |} k)
    {| Pool.free := Pool.free p; Pool.count := Pool.upd (Pool.count p) i c |}.
Proof.
  intros [Hc Hn Hg Hf Hr Hu Hl Hm] Hi Hcu. split; simpl; try done.
  - eapply chain_ext; [|exact Hc]. intros j Hj. rewrite links_set_run.
    case_decide; by subst.
  - intros j Hj. unfold Pool.upd. case_decide; [by subst|]. by apply Hf.
  - intros j. rewrite refs_set_run. unfold Pool.upd. by case_decide.
  - intros j. unfold Pool.upd. by case_decide.
Qed.

Lemma R_set_lock kend k p : R kend k p → R kend (set_lock LFree k) p.
Proof. intros []. by split. Qed.

Lemma R_set_pmem kend k p m : mem_wf m → R kend k p → R kend (set_pmem m k) p.
Proof. intros ? []. by split. Qed.

(** Running a body between lock_kmem and unlock_kmem, whose result is the
    routine's. *)
Ltac run_locked k Hlk :=
  destruct k as [? ul ? ? ?]; simpl in Hlk; subst;
  unfold wp, lock_kmem, unlock_kmem, run_of, zeroRefCountRun, inclRefCountRun,
    declRefCountRun, push_run, junk, modify, gets, mbind, K_bind, mret, K_ret,
    when, acquire, release;
  destruct ul; cbn.

Lemma R_alloc kend k i l c :
  R kend k {| Pool.free := i :: l; Pool.count := c |} →
  R kend (set_freelist (links k i) (set_run i {| ref_count := 1; next := links k i |} k))
    {| Pool.free := l; Pool.count := Pool.upd c i 1 |}.
Proof.
  intros [[Hi Hc] [Hni Hn]%NoDup_cons Hg Hf Hr Hu Hl Hm]. split; simpl in *; try done.
  - eapply chain_ext; [|exact Hc]. intros j Hj. change (links k j = links
      (set_run i {| ref_count := 1; next := links k i |} k) j).
    rewrite links_set_run. case_decide; by subst.
  - intros j Hj. apply Hg. by right.
  - intros j Hj. unfold Pool.upd. case_decide; [by subst|]. apply Hf. by right.
  - intros j. change (refs (set_run i {| ref_count := 1; next := links k i |} k) j =
      Pool.upd c i 1 j). rewrite refs_set_run. unfold Pool.upd. by case_decide.
  - intros j. unfold Pool.upd. case_decide; [by unfold is_u32|done].
Qed.

Lemma R_give kend k p i :
  R kend k p → i ∉ Pool.free p → good_page kend i →
  R kend (set_freelist (Some i) (set_run i {| ref_count := 0; next := freelist k |} k))
    (Pool.give i p).
Proof.
  intros [Hc Hn Hg Hf Hr Hu Hl Hm] Hi Hgi.
  assert (Hlk : ∀ j, links (set_freelist (Some i)
    (set_run i {| ref_count := 0; next := freelist k |} k)) j =
    if decide (i = j) then freelist k else links k j)
    by (intros j; apply (links_set_run i {| ref_count := 0; next := freelist k |} k j)).
  split; simpl; try done.
  - split; [done|]. rewrite Hlk, decide_True by done.
    eapply chain_ext; [|exact Hc]. intros j Hj. rewrite Hlk. case_decide; by subst.
  - by apply NoDup_cons.
  - intros j [->|Hj]%elem_of_cons; auto.
  - intros j Hj. unfold Pool.upd. case_decide; [done|].
    apply elem_of_cons in Hj as [->|Hj]; [done|auto].
  - intros j. change (refs (set_run i {| ref_count := 0; next := freelist k |} k) j =
      Pool.upd (Pool.count p) i 0 j). rewrite refs_set_run. unfold Pool.upd. by case_decide.
  - intros j. unfold Pool.upd. case_decide; [by unfold is_u32|done].
Qed.

Lemma set_run_twice i r r' k : set_run i r (set_run i r' k) = set_run i r k.
Proof. unfold set_run; simpl. by rewrite insert_insert_eq. Qed.

Lemma kalloc_refines kend k p :
  R kend k p →
  wp kalloc k (λ v k', let '(o, p') := Pool.alloc p in
    v = match o with Some i => P2V (i * PGSIZE) | None => 0 end ∧
    R kend k' p' ∧ pmem k' = pmem k ∧ use_lock k' = use_lock k).
Proof.
  intros HR. pose proof (R_lock _ _ _ HR) as Hlk. destruct p as [[|i l] c].
  - pose proof (R_chain _ _ _ HR) as Hc. simpl in Hc.
    unfold kalloc. run_locked k Hlk; simpl in Hc; subst; cbn; done.
  - pose proof (R_alloc _ _ _ _ _ HR) as HR'.
    destruct (R_chain _ _ _ HR) as [Hc _].
    unfold kalloc. run_locked k Hlk; simpl in Hc; subst; cbn.
    all: unfold set_freelist, set_run, refs, links, run_at in *; simpl in *.
    all: rewrite !lookup_insert_eq, !insert_insert_eq; simpl.
    all: rewrite Z.land_0_r; split_and!; done.
Qed.

(** What kfree and kfree2 do once the page number and the count are accepted. *)
Lemma kfree2_refines kend k p v :
  R kend k p → is_u32 v → bad_page kend v = false → page_of v ∉ Pool.free p →
  wp (kfree2 kend v) k (λ _ k', R kend k' (Pool.give (page_of v) p) ∧
    pmem k' = memset (pmem k) v 1 PGSIZE ∧ use_lock k' = use_lock k).
Proof.
  intros HR Hv Hb Hfree. destruct (good_page_ok kend v Hv Hb) as [Hg _].
  assert (Hrange : (page_of v <? MAXPAGES) = true) by (apply Z.ltb_lt, Hg).
  pose proof (R_lock _ _ _ HR) as Hlk.
  assert (HRm : R kend (set_pmem (memset (pmem k) v 1 PGSIZE) k) p).
  { apply R_set_pmem; [|done]. apply mem_wf_memset, HR. }
  pose proof (R_give _ _ _ _ HRm Hfree Hg) as HR'.
  unfold kfree2. rewrite Hb. run_locked k Hlk; rewrite Hrange; cbn.
  all: unfold set_freelist, set_run, refs, links, run_at in *; simpl in *.
  all: rewrite !lookup_insert_eq, !insert_insert_eq; simpl.
  all: rewrite Z.land_0_r; split_and!; done.
Qed.

Lemma kfree_refines kend k p v :
  R kend k p → is_u32 v → bad_page kend v = false → Pool.count p (page_of v) = 1 →
  wp (kfree kend v) k (λ _ k', R kend k' (Pool.give (page_of v) p) ∧
    pmem k' = memset (pmem k) v 1 PGSIZE ∧ use_lock k' = use_lock k).
Proof.
  intros HR Hv Hb Hone. destruct (good_page_ok kend v Hv Hb) as [Hg _].
  assert (Hrange : (page_of v <? MAXPAGES) = true) by (apply Z.ltb_lt, Hg).
  assert (Hfree : page_of v ∉ Pool.free p).
  { intros Hin. pose proof (R_free _ _ _ HR _ Hin). lia. }
  pose proof (R_lock _ _ _ HR) as Hlk.
  assert (HRm : R kend (set_pmem (memset (pmem k) v 1 PGSIZE) k) p).
  { apply R_set_pmem; [|done]. apply mem_wf_memset, HR. }
  pose proof (R_count _ _ _ HR (page_of v)) as Hcnt. rewrite Hone in Hcnt.
  pose proof (R_give _ _ _ _ HRm Hfree Hg) as HR'.
  unfold kfree. rewrite Hb. run_locked k Hlk; rewrite Hrange; cbn.
  all: unfold set_freelist, set_run, refs, links, run_at in *; simpl in *.
  all: rewrite Hcnt; cbn; rewrite !lookup_insert_eq, !insert_insert_eq; simpl.
  all: rewrite ?Hcnt, Z.land_0_r; split_and!; done.
Qed.

(** kfree refuses every page whose count is not one: pages on the free list
    (a second free) and pages that are still shared. *)
Lemma kfree_panics kend k p v :
  R kend k p → is_u32 v → bad_page kend v = false → Pool.count p (page_of v) ≠ 1 →
  kfree kend v k = Panic "kfree2 ref_count!=1".
Proof.
  intros HR Hv Hb Hone. destruct (good_page_ok kend v Hv Hb) as [Hg _].
  assert (Hrange : (page_of v <? MAXPAGES) = true) by (apply Z.ltb_lt, Hg).
  pose proof (R_lock _ _ _ HR) as Hlk.
  pose proof (R_count _ _ _ HR (page_of v)) as Hcnt.
  assert (Hne : (refs k (page_of v) =? 1) = false) by (apply Z.eqb_neq; lia).
  unfold kfree. rewrite Hb. run_locked k Hlk; rewrite Hrange; cbn.
  all: unfold refs, run_at in *; simpl in *; by rewrite Hne.
Qed.

Lemma inclRefCount_refines kend k p v :
  R kend k p → page_of v < MAXPAGES → page_of v ∉ Pool.free p →
  wp (inclRefCount v) k (λ _ k', R kend k' (Pool.incl (page_of v) p) ∧
    pmem k' = pmem k ∧ use_lock k' = use_lock k).
Proof.
  intros HR Hr%Z.ltb_lt Hfree. pose proof (R_lock _ _ _ HR) as Hlk.
  pose proof (R_count _ _ _ HR (page_of v)) as Hcnt.
  pose proof (R_set_run _ _ _ _ (u32 (Pool.count p (page_of v) + 1))
    (links k (page_of v)) HR Hfree (u32_range _)) as HR'.
  unfold inclRefCount. run_locked k Hlk; rewrite Hr; cbn.
  all: unfold set_run, refs, links, run_at in *; simpl in *.
  all: rewrite Hcnt; split_and!; done.
Qed.

Lemma declRefCount_refines kend k p v :
  R kend k p → page_of v < MAXPAGES → page_of v ∉ Pool.free p →
  wp (declRefCount v) k (λ _ k', R kend k' (Pool.decl (page_of v) p) ∧
    pmem k' = pmem k ∧ use_lock k' = use_lock k).
Proof.
  intros HR Hr%Z.ltb_lt Hfree. pose proof (R_lock _ _ _ HR) as Hlk.
  pose proof (R_count _ _ _ HR (page_of v)) as Hcnt.
  pose proof (R_set_run _ _ _ _ (u32 (Pool.count p (page_of v) - 1))
    (links k (page_of v)) HR Hfree (u32_range _)) as HR'.
  unfold declRefCount. run_locked k Hlk; rewrite Hr; cbn.
  all: unfold set_run, refs, links, run_at in *; simpl in *.
  all: rewrite Hcnt; split_and!; done.
Qed.

Lemma getRefCount_refines kend k p v :
  R kend k p → page_of v < MAXPAGES →
  getRefCount v k = Ret (Pool.count p (page_of v)) k.
Proof.
  intros HR Hr%Z.ltb_lt. pose proof (R_lock _ _ _ HR) as Hlk.
  pose proof (R_count _ _ _ HR (page_of v)) as Hcnt.
  unfold getRefCount. run_locked k Hlk; rewrite Hr; cbn; by rewrite <- Hcnt.
Qed.

(** ** Building the free list *)

Lemma R_count_ext kend k p c :
  R kend k p → (∀ i, c i = Pool.count p i) →
  R kend k {| Pool.free := Pool.free p; Pool.count := c |}.
Proof.
  intros [? ? ? Hf Hr Hu ? ?] Hc. split; simpl; try done; intros; rewrite Hc; auto.
Qed.

Definition give_all (ps : list Z) (p : Pool.pool) : Pool.pool :=
  foldl (λ p i, Pool.give i p) p ps.

Lemma free_give_all ps p : Pool.free (give_all ps p) = reverse ps ++ Pool.free p.
Proof.
  revert p. induction ps as [|i ps IH]; intros p; [done|].
  change (give_all (i :: ps) p) with (give_all ps (Pool.give i p)).
  rewrite IH, reverse_cons. by rewrite <- (assoc_L (++)).
Qed.
Lemma count_give_all ps p i :
  Pool.count (give_all ps p) i = if decide (i ∈ ps) then 0 else Pool.count p i.
Proof.
  revert p. induction ps as [|j ps IH]; intros p; [done|].
  change (give_all (j :: ps) p) with (give_all ps (Pool.give j p)).
  rewrite IH. simpl Pool.count. unfold Pool.upd.
  repeat case_decide; try done; exfalso; subst;
    rewrite elem_of_cons in *; naive_solver.
Qed.

Lemma kfree2_all kend k p vs :
  R kend k p → Forall (λ v, is_u32 v ∧ bad_page kend v = false) vs →
  NoDup (page_of <$> vs) → (∀ v, v ∈ vs → page_of v ∉ Pool.free p) →
  wp (for_each vs (kfree2 kend)) k (λ _ k', R kend k' (give_all (page_of <$> vs) p) ∧
    use_lock k' = use_lock k).
Proof.
  revert k p. induction vs as [|v vs IH]; intros k p HR Hok Hn Hd; simpl; [done|].
  apply Forall_cons in Hok as [[Hv Hb] Hok]. apply NoDup_cons in Hn as [Hnv Hn].
  apply wp_bind. eapply wp_mono; [|apply kfree2_refines; [done..|apply Hd; by left]].
  intros [] k' (HR'&_&Hu). rewrite <- Hu. apply IH; try done.
  intros w Hw. simpl. intros [Heq|Hin]%elem_of_cons.
  - apply Hnv. rewrite <- Heq. by apply list_elem_of_fmap_2.
  - apply (Hd w); [by right|done].
Qed.

(** The addresses freerange goes through, for a range inside the usable
    physical memory. *)
Lemma range_pages_elem kend vstart vend v :
  KERNBASE ≤ kend ≤ vstart → vend ≤ KERNBASE + PHYSTOP → vstart ≤ vend →
  v ∈ range_pages vstart vend ↔
  v mod PGSIZE = 0 ∧ PGROUNDUP vstart ≤ v ∧ v + PGSIZE ≤ vend.
Proof.
  unfold KERNBASE, PHYSTOP, PGSIZE. intros Hs He Hle. unfold range_pages, PGSIZE.
  assert (Hp : PGROUNDUP vstart mod 4096 = 0 ∧ 0 ≤ PGROUNDUP vstart).
  { rewrite PGROUNDUP_small by lia. zlia. }
  set (q := PGROUNDUP vstart) in *. rewrite list_elem_of_fmap. split.
  - intros (i&->&Hi). rewrite elem_of_seqZ in Hi. zlia.
  - intros (Hm&Hq&Hv). exists ((v - q) / 4096). rewrite elem_of_seqZ. zlia.
Qed.

Lemma range_pages_ok kend vstart vend v :
  KERNBASE ≤ kend ≤ vstart → vend ≤ KERNBASE + PHYSTOP → vstart ≤ vend →
  v ∈ range_pages vstart vend →
  is_u32 v ∧ bad_page kend v = false ∧ page_of v = (v - KERNBASE) / PGSIZE.
Proof.
  intros Hs He Hle Hv. rewrite (range_pages_elem kend) in Hv by done.
  destruct Hv as (Hm&Hq&Hv).
  assert (Hup : vstart ≤ PGROUNDUP vstart).
  { unfold KERNBASE, PHYSTOP in *. rewrite PGROUNDUP_small by lia. zlia. }
  unfold KERNBASE, PHYSTOP, PGSIZE in *.
  assert (Hvp : V2P v = v - 2147483648)
    by (unfold V2P, KERNBASE; apply u32_small; unfold is_u32; lia).
  unfold page_of, PGSIZE. rewrite Hvp.
  split_and!; [unfold is_u32; lia| |done].
  unfold bad_page, truth, PGSIZE, PHYSTOP. rewrite Hm, Hvp. simpl.
  destruct (Z.ltb_spec v kend); [lia|]. simpl.
  apply Z.leb_gt. lia.
Qed.

Lemma range_pages_nodup vstart vend : NoDup (range_pages vstart vend).
Proof.
  unfold range_pages. apply NoDup_fmap_2_strong; [|apply NoDup_seqZ].
  unfold PGSIZE. intros; lia.
Qed.

Lemma freerange_refines kend k p vstart vend :
  KERNBASE ≤ kend ≤ vstart → vend ≤ KERNBASE + PHYSTOP → vstart ≤ vend →
  R kend k p →
  (∀ v, v ∈ range_pages vstart vend → page_of v ∉ Pool.free p) →
  wp (freerange kend vstart vend) k (λ _ k',
    R kend k' (give_all (page_of <$> range_pages vstart vend) p) ∧
    use_lock k' = use_lock k).
Proof.
  intros Hs He Hle HR Hd. apply kfree2_all; try done.
  - apply Forall_forall. intros v Hv.
    destruct (range_pages_ok kend vstart vend v) as (?&?&_); done.
  - apply NoDup_fmap_2_strong; [|apply range_pages_nodup].
    intros v w Hv Hw Heq.
    destruct (range_pages_ok kend vstart vend v) as (_&_&Ev); try done.
    destruct (range_pages_ok kend vstart vend w) as (_&_&Ew); try done.
    rewrite (range_pages_elem kend) in Hv, Hw by done.
    unfold KERNBASE, PGSIZE in *. rewrite Ev, Ew in Heq. zlia.
Qed.

(** * Properties *)

(** C14: the linked free list with its reference counts implements the abstract
    allocator.  kalloc takes the first free page and gives it the count 1, or
    returns 0 and changes nothing; kfree panics on an address that is not a page
    of the allocator, panics on a page whose count is not 1 (so a second free
    and the free of a shared page are caught), and otherwise fills the page with
    junk and puts it back with count 0; the counting routines change the count
    of a page in use by one. *)
Theorem kalloc_refinement kend k p :
  R kend k p →
  wp kalloc k (λ v k', let '(o, p') := Pool.alloc p in
    v = match o with Some i => P2V (i * PGSIZE) | None => 0 end ∧
    R kend k' p' ∧ pmem k' = pmem k) ∧
  (∀ v, is_u32 v →
    if bad_page kend v then kfree kend v k = Panic "kfree1"
    else if Pool.count p (page_of v) =? 1 then
      wp (kfree kend v) k (λ _ k', R kend k' (Pool.give (page_of v) p) ∧
        pmem k' = memset (pmem k) v 1 PGSIZE)
    else kfree kend v k = Panic "kfree2 ref_count!=1") ∧
  (∀ v, page_of v < MAXPAGES → 0 < Pool.count p (page_of v) →
    wp (inclRefCount v) k (λ _ k', R kend k' (Pool.incl (page_of v) p)) ∧
    wp (declRefCount v) k (λ _ k', R kend k' (Pool.decl (page_of v) p)) ∧
    getRefCount v k = Ret (Pool.count p (page_of v)) k).
Proof.
  intros HR. split_and!.
  - eapply wp_mono; [|by apply kalloc_refines]. intros v k'.
    destruct (Pool.alloc p). by intros (?&?&?&?).
  - intros v Hv. destruct (bad_page kend v) eqn:Hb.
    { unfold kfree. by rewrite Hb. }
    destruct (Z.eqb_spec (Pool.count p (page_of v)) 1).
    + eapply wp_mono; [|by apply kfree_refines]. by intros ?? (?&?&?).
    + by eapply kfree_panics.
  - intros v Hr Hpos.
    assert (Hfree : page_of v ∉ Pool.free p).
    { intros Hin. pose proof (R_free _ _ _ HR _ Hin). lia. }
    split_and!.
    + eapply wp_mono; [|by apply inclRefCount_refines]. by intros ?? (?&?&?).
    + eapply wp_mono; [|by apply declRefCount_refines]. by intros ?? (?&?&?).
    + by eapply getRefCount_refines.
Qed.

(** An allocator with the free page 5 and the page 6 in use. *)
Definition kmem_ex : kmem :=
  {| lock := LFree; use_lock := true; freelist := Some 5;
     runs := <[6 := {| ref_count := 1; next := None |}]>
               (<[5 := {| ref_count := 0; next := None |}]> ∅); pmem := ∅ |}.
Definition pool_ex : Pool.pool :=
  {| Pool.free := [5]; Pool.count := λ i, if decide (i = 6) then 1 else 0 |}.

Lemma kmem_ex_R : R KERNBASE kmem_ex pool_ex.
Proof.
  split; simpl; try done.
  - by apply NoDup_singleton.
  - intros i ->%list_elem_of_singleton. by vm_compute.
  - by intros i ->%list_elem_of_singleton.
  - intros i. unfold refs, run_at; simpl. rewrite !lookup_insert.
    repeat case_decide; subst; try done; lia.
  - intros i. unfold is_u32. case_decide; lia.
Qed.

Lemma kalloc_refinement_witness :
  (∃ k, kalloc kmem_ex = Ret (P2V (5 * PGSIZE)) k) ∧
  kfree KERNBASE (P2V (5 * PGSIZE)) kmem_ex = Panic "kfree2 ref_count!=1" ∧
  (∃ k, kfree KERNBASE (P2V (6 * PGSIZE)) kmem_ex = Ret tt k ∧ freelist k = Some 6).
Proof.
  destruct (kalloc_refinement KERNBASE kmem_ex pool_ex kmem_ex_R) as (H1&H2&_).
  split; [|split].
  - apply wp_Ret in H1 as (v&k&E&->&_). exists k. exact E.
  - apply (H2 (P2V (5 * PGSIZE))). by vm_compute.
  - specialize (H2 (P2V (6 * PGSIZE)) ltac:(by vm_compute)). simpl in H2.
    apply wp_Ret in H2 as ([]&k&E&HR&_). exists k. split; [exact E|].
    apply (R_chain _ _ _ HR).
Defined.

(** kmem as the BSS has it. *)
Definition kmem_zero (m : mem) : kmem :=
  {| lock := LFree; use_lock := false; freelist := None; runs := ∅; pmem := m |}.

Lemma kmem_zero_R kend m : mem_wf m →
  R kend (kmem_zero m) {| Pool.free := []; Pool.count := λ _, 0 |}.
Proof.
  intros. split; simpl; try done; try (intros i Hi; by apply elem_of_nil in Hi).
  constructor.
Qed.

(** The page numbers of a range. *)
Lemma page_of_range kend vstart vend i :
  KERNBASE ≤ kend ≤ vstart → vend ≤ KERNBASE + PHYSTOP → vstart ≤ vend →
  i ∈ page_of <$> range_pages vstart vend ↔
  PGROUNDUP vstart ≤ i * PGSIZE + KERNBASE ∧ (i + 1) * PGSIZE + KERNBASE ≤ vend.
Proof.
  intros Hs He Hle. rewrite list_elem_of_fmap.
  assert (Hup : PGROUNDUP vstart mod 4096 = 0).
  { unfold KERNBASE, PHYSTOP in *. rewrite PGROUNDUP_small by lia. zlia. }
  split.
  - intros (v&->&Hv). destruct (range_pages_ok kend vstart vend v) as (_&_&->); try done.
    rewrite (range_pages_elem kend) in Hv by done. unfold KERNBASE, PGSIZE in *. zlia.
  - intros Hi. exists (i * PGSIZE + KERNBASE).
    assert (Hv : i * PGSIZE + KERNBASE ∈ range_pages vstart vend).
    { rewrite (range_pages_elem kend) by done. unfold KERNBASE, PGSIZE in *. zlia. }
    split; [|done].
    destruct (range_pages_ok kend vstart vend _ Hs He Hle Hv) as (_&_&->).
    unfold KERNBASE, PGSIZE. zlia.
Qed.

(** C17: the two phases of the initialization, as main() runs them, leave on the
    free list each page between the end of the kernel and PHYSTOP exactly once,
    all with count 0, and turn locking on. *)
Theorem kinit_frees_all kend m :
  KERNLINK ≤ kend ≤ P2V 4194304 → mem_wf m →
  wp (kinit1 kend kend (P2V 4194304) ≫= λ _, kinit2 kend (P2V 4194304) (P2V PHYSTOP))
    (kmem_zero m)
    (λ _ k', ∃ p, R kend k' p ∧ use_lock k' = true ∧ NoDup (Pool.free p) ∧
      (∀ i, i ∈ Pool.free p ↔ PGROUNDUP kend ≤ i * PGSIZE + KERNBASE ∧ i < MAXPAGES) ∧
      (∀ i, Pool.count p i = 0)).
Proof.
  intros Hk Hm. set (mid := P2V 4194304) in *. set (top := P2V PHYSTOP).
  assert (Hmid : mid = 2151677952) by done. assert (Htop : top = 2382364672) by done.
  assert (Hb : KERNBASE = 2147483648 ∧ PHYSTOP = 234881024 ∧ KERNLINK = 2148532224 ∧
               PGSIZE = 4096 ∧ MAXPAGES = 57344) by done.
  assert (Hup : PGROUNDUP mid = mid ∧ PGROUNDUP kend mod 4096 = 0 ∧ PGROUNDUP kend ≤ mid)
    by (split; [done|]; rewrite PGROUNDUP_small by lia; zlia).
  pose proof (λ i, page_of_range kend kend mid i ltac:(lia) ltac:(lia) ltac:(lia)) as E1.
  pose proof (λ i, page_of_range kend mid top i ltac:(lia) ltac:(lia) ltac:(lia)) as E2.
  clearbody mid top. apply wp_bind. unfold kinit1. do 2 (apply wp_bind; unfold wp at 1, modify).
  eapply wp_mono; [|apply (freerange_refines kend (kmem_zero m)
    {| Pool.free := []; Pool.count := λ _, 0 |}); try lia; [by apply kmem_zero_R|];
    intros; apply not_elem_of_nil].
  intros [] k1 [HR1 _]. unfold kinit2. apply wp_bind.
  eapply wp_mono; [|apply (freerange_refines kend k1 _ mid top ltac:(lia) ltac:(lia) ltac:(lia) HR1)].
  - intros [] k2 [HR2 _]. unfold wp, modify. eexists. split; [by destruct HR2; split|].
    split; [done|]. split; [apply HR2|]. split; intros i.
    + rewrite !free_give_all, app_nil_r, elem_of_app, !elem_of_reverse, E1, E2. lia.
    + rewrite !count_give_all. by repeat case_decide.
  - intros v Hv. rewrite free_give_all, app_nil_r, elem_of_reverse, E1.
    pose proof (proj1 (E2 (page_of v)) ltac:(by apply list_elem_of_fmap_2)). lia.
Qed.

Lemma kinit_frees_all_witness :
  KERNLINK ≤ 2148544512 ≤ P2V 4194304 ∧
  ∃ k p, R 2148544512 k p ∧ 1000 ∈ Pool.free p.
Proof.
  split; [by vm_compute|].
  pose proof (kinit_frees_all 2148544512 ∅ ltac:(by vm_compute) mem_wf_empty) as H.
  destruct (proj1 (wp_Ret _ _ _) H) as ([]&k&_&p&HR&_&_&Hin&_). clear H.
  exists k, p. split; [exact HR|]. apply (proj2 (Hin 1000)). by vm_compute.
Defined.
