(* ===== verification/Procdef.v ===== *)
(** The process structures of src/proc.h and the trap frame of src/x86.h.

    Pointers to a process are slots of ptable.proc[], pointers to a file or an
    inode are slots of ftable.file[] and icache.inode[], and a NULL pointer is
    [None].  The trap frame and the saved context live on the kernel stack page
    of the process; they are kept here as the values p->tf and p->context point
    to. *)

From Stdlib Require Import ZArith Lia.
From stdpp Require Import base tactics numbers strings list.
From S2P Require Import Prelude.

#[local] Open Scope Z_scope.

Definition NPROC : nat := 64.
Definition NOFILE : nat := 16.
Definition NFILE : nat := 100.
Definition NINODE : nat := 50.
Definition KSTACKSIZE : Z := 4096.
Definition ROOTDEV : Z := 1.
Definition MAXARG : nat := 32.

Inductive procstate := UNUSED | EMBRYO | SLEEPING | RUNNABLE | RUNNING | ZOMBIE.

#[export] Instance procstate_eq_dec : EqDecision procstate.
Proof. solve_decision. Defined.

Record trapframe := mk_tf {
  tf_edi : Z; tf_esi : Z; tf_ebp : Z; tf_oesp : Z;
  tf_ebx : Z; tf_edx : Z; tf_ecx : Z; tf_eax : Z;
  tf_gs : Z; tf_fs : Z; tf_es : Z; tf_ds : Z;
  tf_trapno : Z; tf_err : Z; tf_eip : Z; tf_cs : Z;
  tf_eflags : Z; tf_esp : Z; tf_ss : Z
}.

Definition tf_zero : trapframe := mk_tf 0 0 0 0 0 0 0 0 0 0 0 0 0 0 0 0 0 0 0.

Definition set_tf_eax (v : Z) (t : trapframe) : trapframe :=
  mk_tf (tf_edi t) (tf_esi t) (tf_ebp t) (tf_oesp t) (tf_ebx t) (tf_edx t) (tf_ecx t) v
        (tf_gs t) (tf_fs t) (tf_es t) (tf_ds t) (tf_trapno t) (tf_err t) (tf_eip t) (tf_cs t)
        (tf_eflags t) (tf_esp t) (tf_ss t).
Definition set_tf_eip_esp (ip sp : Z) (t : trapframe) : trapframe :=
  mk_tf (tf_edi t) (tf_esi t) (tf_ebp t) (tf_oesp t) (tf_ebx t) (tf_edx t) (tf_ecx t) (tf_eax t)
        (tf_gs t) (tf_fs t) (tf_es t) (tf_ds t) (tf_trapno t) (tf_err t) ip (tf_cs t)
        (tf_eflags t) sp (tf_ss t).

Definition set_tf_err (v : Z) (t : trapframe) : trapframe :=
  mk_tf (tf_edi t) (tf_esi t) (tf_ebp t) (tf_oesp t) (tf_ebx t) (tf_edx t) (tf_ecx t) (tf_eax t)
        (tf_gs t) (tf_fs t) (tf_es t) (tf_ds t) (tf_trapno t) v (tf_eip t) (tf_cs t)
        (tf_eflags t) (tf_esp t) (tf_ss t).

Record context := mk_context {
  ctx_edi : Z; ctx_esi : Z; ctx_ebx : Z; ctx_ebp : Z; ctx_eip : Z
}.

Record proc := mk_proc {
  p_sz : Z;
  p_pgdir : Z;
  p_kstack : Z;
  p_state : procstate;
  p_pid : Z;
  p_parent : option nat;
  p_tf : trapframe;
  p_context : context;
  p_chan : option chan;
  p_killed : Z;
  p_ofile : list (option nat);
  p_cwd : option nat;
  p_name : list Z;
  p_stacklastpg : Z;
  p_stacktop : Z;
  p_guardpg : Z;
  p_shmbreak : Z;
  p_shmtop : Z;
  p_shmnextpg : Z
}.

(** A zeroed entry of ptable. *)
Definition proc_zero : proc := {|
  p_sz := 0; p_pgdir := 0; p_kstack := 0; p_state := UNUSED; p_pid := 0;
  p_parent := None; p_tf := tf_zero; p_context := mk_context 0 0 0 0 0;
  p_chan := None; p_killed := 0; p_ofile := replicate NOFILE None; p_cwd := None;
  p_name := replicate 16 0; p_stacklastpg := 0; p_stacktop := 0; p_guardpg := 0;
  p_shmbreak := 0; p_shmtop := 0; p_shmnextpg := 0 |}.

(** Assignments p->field = v. *)
Definition set_sz (v : Z) (p : proc) : proc :=
  mk_proc v (p_pgdir p) (p_kstack p) (p_state p) (p_pid p) (p_parent p) (p_tf p)
    (p_context p) (p_chan p) (p_killed p) (p_ofile p) (p_cwd p) (p_name p)
    (p_stacklastpg p) (p_stacktop p) (p_guardpg p) (p_shmbreak p) (p_shmtop p)
    (p_shmnextpg p).
Definition set_pgdir (v : Z) (p : proc) : proc :=
  mk_proc (p_sz p) v (p_kstack p) (p_state p) (p_pid p) (p_parent p) (p_tf p)
    (p_context p) (p_chan p) (p_killed p) (p_ofile p) (p_cwd p) (p_name p)
    (p_stacklastpg p) (p_stacktop p) (p_guardpg p) (p_shmbreak p) (p_shmtop p)
    (p_shmnextpg p).
Definition set_kstack (v : Z) (p : proc) : proc :=
  mk_proc (p_sz p) (p_pgdir p) v (p_state p) (p_pid p) (p_parent p) (p_tf p)
    (p_context p) (p_chan p) (p_killed p) (p_ofile p) (p_cwd p) (p_name p)
    (p_stacklastpg p) (p_stacktop p) (p_guardpg p) (p_shmbreak p) (p_shmtop p)
    (p_shmnextpg p).
Definition set_state (v : procstate) (p : proc) : proc :=
  mk_proc (p_sz p) (p_pgdir p) (p_kstack p) v (p_pid p) (p_parent p) (p_tf p)
    (p_context p) (p_chan p) (p_killed p) (p_ofile p) (p_cwd p) (p_name p)
    (p_stacklastpg p) (p_stacktop p) (p_guardpg p) (p_shmbreak p) (p_shmtop p)
    (p_shmnextpg p).
Definition set_pid (v : Z) (p : proc) : proc :=
  mk_proc (p_sz p) (p_pgdir p) (p_kstack p) (p_state p) v (p_parent p) (p_tf p)
    (p_context p) (p_chan p) (p_killed p) (p_ofile p) (p_cwd p) (p_name p)
    (p_stacklastpg p) (p_stacktop p) (p_guardpg p) (p_shmbreak p) (p_shmtop p)
    (p_shmnextpg p).
Definition set_parent (v : option nat) (p : proc) : proc :=
  mk_proc (p_sz p) (p_pgdir p) (p_kstack p) (p_state p) (p_pid p) v (p_tf p)
    (p_context p) (p_chan p) (p_killed p) (p_ofile p) (p_cwd p) (p_name p)
    (p_stacklastpg p) (p_stacktop p) (p_guardpg p) (p_shmbreak p) (p_shmtop p)
    (p_shmnextpg p).
Definition set_tf (v : trapframe) (p : proc) : proc :=
  mk_proc (p_sz p) (p_pgdir p) (p_kstack p) (p_state p) (p_pid p) (p_parent p) v
    (p_context p) (p_chan p) (p_killed p) (p_ofile p) (p_cwd p) (p_name p)
    (p_stacklastpg p) (p_stacktop p) (p_guardpg p) (p_shmbreak p) (p_shmtop p)
    (p_shmnextpg p).
Definition set_context (v : context) (p : proc) : proc :=
  mk_proc (p_sz p) (p_pgdir p) (p_kstack p) (p_state p) (p_pid p) (p_parent p) (p_tf p)
    v (p_chan p) (p_killed p) (p_ofile p) (p_cwd p) (p_name p) (p_stacklastpg p)
    (p_stacktop p) (p_guardpg p) (p_shmbreak p) (p_shmtop p) (p_shmnextpg p).
Definition set_chan (v : option chan) (p : proc) : proc :=
  mk_proc (p_sz p) (p_pgdir p) (p_kstack p) (p_state p) (p_pid p) (p_parent p) (p_tf p)
    (p_context p) v (p_killed p) (p_ofile p) (p_cwd p) (p_name p) (p_stacklastpg p)
    (p_stacktop p) (p_guardpg p) (p_shmbreak p) (p_shmtop p) (p_shmnextpg p).
Definition set_killed (v : Z) (p : proc) : proc :=
  mk_proc (p_sz p) (p_pgdir p) (p_kstack p) (p_state p) (p_pid p) (p_parent p) (p_tf p)
    (p_context p) (p_chan p) v (p_ofile p) (p_cwd p) (p_name p) (p_stacklastpg p)
    (p_stacktop p) (p_guardpg p) (p_shmbreak p) (p_shmtop p) (p_shmnextpg p).
Definition set_ofile (v : list (option nat)) (p : proc) : proc :=
  mk_proc (p_sz p) (p_pgdir p) (p_kstack p) (p_state p) (p_pid p) (p_parent p) (p_tf p)
    (p_context p) (p_chan p) (p_killed p) v (p_cwd p) (p_name p) (p_stacklastpg p)
    (p_stacktop p) (p_guardpg p) (p_shmbreak p) (p_shmtop p) (p_shmnextpg p).
Definition set_cwd (v : option nat) (p : proc) : proc :=
  mk_proc (p_sz p) (p_pgdir p) (p_kstack p) (p_state p) (p_pid p) (p_parent p) (p_tf p)
    (p_context p) (p_chan p) (p_killed p) (p_ofile p) v (p_name p) (p_stacklastpg p)
    (p_stacktop p) (p_guardpg p) (p_shmbreak p) (p_shmtop p) (p_shmnextpg p).
Definition set_name (v : list Z) (p : proc) : proc :=
  mk_proc (p_sz p) (p_pgdir p) (p_kstack p) (p_state p) (p_pid p) (p_parent p) (p_tf p)
    (p_context p) (p_chan p) (p_killed p) (p_ofile p) (p_cwd p) v (p_stacklastpg p)
    (p_stacktop p) (p_guardpg p) (p_shmbreak p) (p_shmtop p) (p_shmnextpg p).
Definition set_stacklastpg (v : Z) (p : proc) : proc :=
  mk_proc (p_sz p) (p_pgdir p) (p_kstack p) (p_state p) (p_pid p) (p_parent p) (p_tf p)
    (p_context p) (p_chan p) (p_killed p) (p_ofile p) (p_cwd p) (p_name p) v
    (p_stacktop p) (p_guardpg p) (p_shmbreak p) (p_shmtop p) (p_shmnextpg p).
Definition set_stacktop (v : Z) (p : proc) : proc :=
  mk_proc (p_sz p) (p_pgdir p) (p_kstack p) (p_state p) (p_pid p) (p_parent p) (p_tf p)
    (p_context p) (p_chan p) (p_killed p) (p_ofile p) (p_cwd p) (p_name p)
    (p_stacklastpg p) v (p_guardpg p) (p_shmbreak p) (p_shmtop p) (p_shmnextpg p).
Definition set_guardpg (v : Z) (p : proc) : proc :=
  mk_proc (p_sz p) (p_pgdir p) (p_kstack p) (p_state p) (p_pid p) (p_parent p) (p_tf p)
    (p_context p) (p_chan p) (p_killed p) (p_ofile p) (p_cwd p) (p_name p)
    (p_stacklastpg p) (p_stacktop p) v (p_shmbreak p) (p_shmtop p) (p_shmnextpg p).
Definition set_shmbreak (v : Z) (p : proc) : proc :=
  mk_proc (p_sz p) (p_pgdir p) (p_kstack p) (p_state p) (p_pid p) (p_parent p) (p_tf p)
    (p_context p) (p_chan p) (p_killed p) (p_ofile p) (p_cwd p) (p_name p)
    (p_stacklastpg p) (p_stacktop p) (p_guardpg p) v (p_shmtop p) (p_shmnextpg p).
Definition set_shmtop (v : Z) (p : proc) : proc :=
  mk_proc (p_sz p) (p_pgdir p) (p_kstack p) (p_state p) (p_pid p) (p_parent p) (p_tf p)
    (p_context p) (p_chan p) (p_killed p) (p_ofile p) (p_cwd p) (p_name p)
    (p_stacklastpg p) (p_stacktop p) (p_guardpg p) (p_shmbreak p) v (p_shmnextpg p).
Definition set_shmnextpg (v : Z) (p : proc) : proc :=
  mk_proc (p_sz p) (p_pgdir p) (p_kstack p) (p_state p) (p_pid p) (p_parent p) (p_tf p)
    (p_context p) (p_chan p) (p_killed p) (p_ofile p) (p_cwd p) (p_name p)
    (p_stacklastpg p) (p_stacktop p) (p_guardpg p) (p_shmbreak p) (p_shmtop p) v.
