(* ===== verification/Vm.v ===== *)
(** Virtual memory (src/vm.c): page tables, user memory, copy-on-write fork,
    the VDSO pages and the page fault handler.

    Page directories and page tables are words of the byte memory of [kmem],
    at the kernel addresses the code computes with P2V.  A routine that can
    return NULL returns 0, and a read or write through NULL is a [Fault].
    Console output (cprintf, DEBUG) and the TLB (invlpg) are not part of the
    state.  [kend] and [kdata] are the linker symbols end[] and data[]. *)

From Stdlib Require Import ZArith Lia.
From stdpp Require Import base tactics numbers gmap strings list.
From S2P Require Import Prelude Memory Kstring Spinlock Mmu Kalloc Procdef.

#[local] Open Scope Z_scope.

(** ** Accesses through kernel pointers *)

Definition load32 (a : Z) : K kmem Z :=
  if a =? 0 then fault "NULL" else gets (λ k, rd32 (pmem k) a).
Definition store32 (a v : Z) : K kmem unit :=
  if a =? 0 then fault "NULL" else modify (λ k, set_pmem (wr32 (pmem k) a v) k).
Definition memset_at (a c n : Z) : K kmem unit :=
  if a =? 0 then fault "NULL" else modify (λ k, set_pmem (memset (pmem k) a c n) k).
Definition memmove_at (dst src n : Z) : K kmem unit :=
  if dst =? 0 then fault "NULL" else modify (λ k, set_pmem (memmove (pmem k) dst src n) k).

(** ** Page tables *)

Definition walkpgdir (pgdir va : Z) (alloc : bool) : K kmem Z :=
  let pde := pgdir + 4 * PDX va in
  load32 pde ≫= λ e,
  if has e PTE_P then mret (P2V (PTE_ADDR e) + 4 * PTX va) else
  if negb alloc then mret 0 else
  kalloc ≫= λ pgtab,
  if pgtab =? 0 then mret 0 else
  memset_at pgtab 0 PGSIZE ≫= λ _,
  store32 pde (Z.lor (Z.lor (Z.lor (V2P pgtab) PTE_P) PTE_W) PTE_U) ≫= λ _,
  mret (pgtab + 4 * PTX va).

Fixpoint mappages_loop (fuel : nat) (pgdir a last pa perm : Z) : K kmem Z :=
  match fuel with
  | O => diverge
  | S n =>
      walkpgdir pgdir a true ≫= λ pte,
      if pte =? 0 then mret (-1) else
      load32 pte ≫= λ e,
      if has e PTE_P then panic "remap" else
      store32 pte (Z.lor (Z.lor pa perm) PTE_P) ≫= λ _,
      if a =? last then mret 0 else
      mappages_loop n pgdir (u32 (a + PGSIZE)) last (u32 (pa + PGSIZE)) perm
  end.

Definition mappages (pgdir va size pa perm : Z) : K kmem Z :=
  let a := PGROUNDDOWN va in
  let last := PGROUNDDOWN (u32 (va + size - 1)) in
  mappages_loop (Z.to_nat (u32 (last - a) / PGSIZE + 1)) pgdir a last pa perm.

(** Replace the PTE of a mapped address. *)
Definition update_pte (msg : string) (pgdir uva : Z) (f : Z → Z) : K kmem unit :=
  walkpgdir pgdir uva false ≫= λ pte,
  if pte =? 0 then panic msg else
  load32 pte ≫= λ e, store32 pte (f e).

Definition clearpteu (pgdir uva : Z) : K kmem unit :=
  update_pte "clearpteu" pgdir uva (λ e, Z.land e (Z.lnot PTE_U)).
Definition clearptep (pgdir uva : Z) : K kmem unit :=
  update_pte "clearptep" pgdir uva (λ e, Z.land e (Z.lnot PTE_P)).
Definition markpteup (pgdir uva : Z) : K kmem unit :=
  update_pte "markpteup" pgdir uva (λ e, Z.lor (Z.lor e PTE_P) PTE_U).

(** A row of kmap[]: virt, phys_start, phys_end, perm. *)
Record kmap_row := { virt : Z; phys_start : Z; phys_end : Z; perm : Z }.

Section vm.
Context (kend kdata : Z).

(** if(getRefCount(v) == 1) kfree(v); else declRefCount(v); *)
Definition drop_ref (v : Z) : K kmem unit :=
  getRefCount v ≫= λ c,
  if c =? 1 then kfree kend v else declRefCount v.

(** ** User memory *)

Definition is_guard (currproc : option proc) (a : Z) : bool :=
  match currproc with Some p => a =? p_guardpg p | None => false end.

(** One iteration; returns the value of [a] before the increment. *)
Definition dealloc_page (pgdir a : Z) (currproc : option proc) : K kmem Z :=
  walkpgdir pgdir a false ≫= λ pte,
  when (is_guard currproc a)
    (load32 pte ≫= λ e, store32 pte (Z.lor e PTE_P)) ≫= λ _,
  if pte =? 0 then mret (u32 (PGADDR (PDX a + 1) 0 0 - PGSIZE)) else
  load32 pte ≫= λ e,
  if has e PTE_P then
    let pa := PTE_ADDR e in
    if pa =? 0 then
      match currproc with Some _ => panic "kfree" | None => fault "currproc" end
    else
      drop_ref (P2V pa) ≫= λ _,
      store32 pte 0 ≫= λ _, mret a
  else mret a.

Fixpoint dealloc_loop (fuel : nat) (pgdir a oldsz : Z) (currproc : option proc) :
    K kmem unit :=
  if a <? oldsz then
    match fuel with
    | O => diverge
    | S n => dealloc_page pgdir a currproc ≫= λ a',
        dealloc_loop n pgdir (u32 (a' + PGSIZE)) oldsz currproc
    end
  else mret tt.

Definition deallocuvm (pgdir oldsz newsz : Z) (currproc : option proc) : K kmem Z :=
  if oldsz <=? newsz then mret oldsz else
  let a := PGROUNDUP newsz in
  dealloc_loop (upto_fuel a oldsz PGSIZE) pgdir a oldsz currproc ≫= λ _,
  mret newsz.

(** One iteration of allocuvm; [Some 0] is an early return. *)
Definition alloc_page (pgdir oldsz newsz : Z) (currproc : option proc) (a : Z) :
    K kmem (option Z) :=
  kalloc ≫= λ mem,
  if mem =? 0 then
    deallocuvm pgdir newsz oldsz currproc ≫= λ _, mret (Some 0)
  else
    memset_at mem 0 PGSIZE ≫= λ _,
    mappages pgdir a PGSIZE (V2P mem) (Z.lor PTE_W PTE_U) ≫= λ r,
    if r <? 0 then
      deallocuvm pgdir newsz oldsz currproc ≫= λ _,
      kfree kend mem ≫= λ _, mret (Some 0)
    else mret None.

Definition allocuvm (pgdir oldsz newsz : Z) (currproc : option proc) : K kmem Z :=
  if KERNBASE <=? newsz then mret 0 else
  if newsz <? oldsz then mret oldsz else
  let a := PGROUNDUP oldsz in
  upto (upto_fuel a newsz PGSIZE) a newsz PGSIZE
    (alloc_page pgdir oldsz newsz currproc) ≫= λ o,
  mret (default newsz o).

Definition freevm (pgdir : Z) (currproc : option proc) : K kmem unit :=
  if pgdir =? 0 then panic "freevm: no pgdir" else
  deallocuvm pgdir KERNBASE 0 currproc ≫= λ _,
  for_each (seqZ 0 NPDENTRIES) (λ i,
    load32 (pgdir + 4 * i) ≫= λ e,
    when (has e PTE_P) (drop_ref (P2V (PTE_ADDR e)))) ≫= λ _,
  kfree kend pgdir.

(** ** Kernel mappings *)

Definition kmap : list kmap_row :=
  [ {| virt := KERNBASE; phys_start := 0; phys_end := EXTMEM; perm := PTE_W |};
    {| virt := KERNLINK; phys_start := V2P KERNLINK; phys_end := V2P kdata; perm := 0 |};
    {| virt := kdata; phys_start := V2P kdata; phys_end := PHYSTOP; perm := PTE_W |};
    {| virt := DEVSPACE; phys_start := DEVSPACE; phys_end := 0; perm := PTE_W |} ].

(** Returns 0 when memory runs out. *)
Definition setupkvm : K kmem Z :=
  kalloc ≫= λ pgdir,
  if pgdir =? 0 then mret 0 else
  memset_at pgdir 0 PGSIZE ≫= λ _,
  if DEVSPACE <? P2V PHYSTOP then panic "PHYSTOP too high" else
  for_find kmap (λ r,
    mappages pgdir (virt r) (u32 (phys_end r - phys_start r)) (phys_start r) (perm r) ≫= λ x,
    if x <? 0 then freevm pgdir None ≫= λ _, mret (Some 0) else mret None) ≫= λ o,
  mret (default pgdir o).

(** The initial code is at address [init]. *)
Definition inituvm (pgdir init sz : Z) : K kmem unit :=
  if PGSIZE <=? sz then panic "inituvm: more than a page" else
  kalloc ≫= λ mem,
  memset_at mem 0 PGSIZE ≫= λ _,
  mappages pgdir 0 PGSIZE (V2P mem) (Z.lor PTE_W PTE_U) ≫= λ _,
  memmove_at mem init sz.

(** ** Copying address spaces *)

(** One iteration of copyuvm; [Some tt] is [goto bad]. *)
Definition copy_page (pgdir d i : Z) : K kmem (option unit) :=
  walkpgdir pgdir i false ≫= λ pte,
  if pte =? 0 then panic "copyuvm: pte should exist" else
  load32 pte ≫= λ e,
  if negb (has e PTE_P) then panic "copyuvm: page not present" else
  let pa := PTE_ADDR e in
  let flags := PTE_FLAGS e in
  kalloc ≫= λ mem,
  if mem =? 0 then mret (Some tt) else
  memmove_at mem (P2V pa) PGSIZE ≫= λ _,
  mappages d i PGSIZE (V2P mem) flags ≫= λ r,
  mret (if r <? 0 then Some tt else None).

Definition copyuvm (pgdir sz : Z) : K kmem Z :=
  setupkvm ≫= λ d,
  if d =? 0 then mret 0 else
  upto (upto_fuel 0 sz PGSIZE) 0 sz PGSIZE (copy_page pgdir d) ≫= λ o,
  match o with
  | Some _ => freevm d None ≫= λ _, mret 0
  | None => mret d
  end.

(** Map the page of [pte] at the same address in [d] and count the reference. *)
Definition share_page (d i pte : Z) : K kmem (option unit) :=
  load32 pte ≫= λ e,
  let pa := PTE_ADDR e in
  let flags := PTE_FLAGS e in
  mappages d i PGSIZE pa flags ≫= λ r,
  if r <? 0 then mret (Some tt) else
  inclRefCount (P2V pa) ≫= λ _, mret None.

(** Set PTE_COW, then clear PTE_W. *)
Definition mark_cow (pte : Z) : K kmem unit :=
  load32 pte ≫= λ e, store32 pte (Z.lor e PTE_COW) ≫= λ _,
  load32 pte ≫= λ e, store32 pte (Z.land e (Z.lnot PTE_W)).

Definition cow_shm (pgdir d i : Z) : K kmem (option unit) :=
  walkpgdir pgdir i false ≫= λ pte,
  if pte =? 0 then panic "cowuvm: pte should exist" else
  share_page d i pte.

Definition cow_stack (pgdir d i guardpg : Z) : K kmem (option unit) :=
  walkpgdir pgdir i false ≫= λ pte,
  if pte =? 0 then panic "cowuvm: pte should exist" else
  mark_cow pte ≫= λ _,
  share_page d i pte ≫= λ o,
  match o with
  | Some _ => mret o
  | None =>
      when (i =? guardpg) (clearpteu d guardpg ≫= λ _, clearptep d guardpg) ≫= λ _,
      mret None
  end.

Definition cow_plain (pgdir d i : Z) : K kmem (option unit) :=
  walkpgdir pgdir i false ≫= λ pte,
  if pte =? 0 then panic "cowuvm: pte should exist" else
  load32 pte ≫= λ e,
  if negb (has e PTE_P) then panic "cowuvm: page not present" else
  when (has e PTE_W) (mark_cow pte) ≫= λ _,
  share_page d i pte.

(** One iteration of cowuvm; [Some tt] is [goto bad]. *)
Definition cow_page (pgdir d : Z) (curproc : proc) (i : Z) : K kmem (option unit) :=
  if (p_stacktop curproc <=? i) && (i <? p_shmtop curproc) then
    if p_shmnextpg curproc <=? i then mret None else cow_shm pgdir d i
  else if (p_stacklastpg curproc <=? i) && (i <? p_stacktop curproc) then
    if i <? p_guardpg curproc then mret None else cow_stack pgdir d i (p_guardpg curproc)
  else cow_plain pgdir d i.

Definition cowuvm (pgdir sz : Z) (curproc : proc) : K kmem Z :=
  setupkvm ≫= λ d,
  if d =? 0 then mret 0 else
  upto (upto_fuel PGSIZE sz PGSIZE) PGSIZE sz PGSIZE (cow_page pgdir d curproc) ≫= λ o,
  match o with
  | Some _ => freevm d (Some curproc) ≫= λ _, mret 0
  | None => mret d
  end.

(** ** User pointers *)

Definition uva2ka (pgdir uva : Z) : K kmem Z :=
  walkpgdir pgdir uva false ≫= λ pte,
  load32 pte ≫= λ e,
  if negb (has e PTE_P) then mret 0 else
  if negb (has e PTE_U) then mret 0 else
  mret (P2V (PTE_ADDR e)).

Fixpoint copyout_loop (fuel : nat) (pgdir va buf len : Z) : K kmem Z :=
  if 0 <? len then
    match fuel with
    | O => diverge
    | S f =>
        let va0 := PGROUNDDOWN va in
        uva2ka pgdir va0 ≫= λ pa0,
        if pa0 =? 0 then mret (-1) else
        let n := Z.min (PGSIZE - (va - va0)) len in
        memmove_at (pa0 + (va - va0)) buf n ≫= λ _,
        copyout_loop f pgdir (u32 (va0 + PGSIZE)) (buf + n) (len - n)
    end
  else mret 0.

(** Every iteration but the first and the last copies a whole page. *)
Definition copyout (pgdir va p len : Z) : K kmem Z :=
  copyout_loop (Z.to_nat (len / PGSIZE + 2)) pgdir va p len.

(** ** Page faults *)

(** The handler works on the memory and on myproc(). *)
Definition on_mem {A} (m : K kmem A) : K (kmem * proc) A := zoom fst (λ k s, (k, s.2)) m.
Definition myproc : K (kmem * proc) proc := gets snd.
Definition set_myproc (f : proc → proc) : K (kmem * proc) unit := modify (λ s, (s.1, f s.2)).
Definition kill_myproc : K (kmem * proc) unit := set_myproc (set_killed 1).

(** The block after a copy-on-write PTE was rewritten: if the page is not
    present it has to be the guard page, which is hidden again. *)
Definition hide_guard (cr2 : Z) : K (kmem * proc) unit :=
  myproc ≫= λ p,
  if negb (PGROUNDDOWN cr2 =? p_guardpg p) then panic "not guard pg" else
  on_mem (clearpteu (p_pgdir p) (PGROUNDDOWN cr2)) ≫= λ _,
  on_mem (clearptep (p_pgdir p) (PGROUNDDOWN cr2)).

Definition cow_fault (cr2 pte : Z) : K (kmem * proc) unit :=
  on_mem (load32 pte) ≫= λ e,
  let v := P2V (PTE_ADDR e) in
  on_mem (getRefCount v) ≫= λ ref_count,
  if 1 <? ref_count then
    on_mem kalloc ≫= λ newpg,
    on_mem (memmove_at newpg v PGSIZE) ≫= λ _,
    let phyaddr := V2P newpg in
    on_mem (store32 pte (Z.lor (Z.lor (Z.lor (Z.lor phyaddr (PTE_FLAGS e)) PTE_P) PTE_W) PTE_U)) ≫= λ _,
    on_mem (load32 pte) ≫= λ e,
    on_mem (store32 pte (Z.land e (Z.lnot PTE_COW))) ≫= λ _,
    on_mem (declRefCount v) ≫= λ _,
    on_mem (load32 pte) ≫= λ e,
    when (negb (has e PTE_P)) (hide_guard cr2)
  else if ref_count =? 1 then
    on_mem (store32 pte (Z.lor e PTE_W)) ≫= λ _,
    on_mem (load32 pte) ≫= λ e,
    on_mem (store32 pte (Z.land e (Z.lnot PTE_COW))) ≫= λ _,
    on_mem (load32 pte) ≫= λ e,
    when (negb (has e PTE_P) && has e PTE_COW) (hide_guard cr2)
  else panic "something went really wrong".

(** Make every page from the one below the fault up to the old guard page
    usable, and the page below that the new guard page. *)
Definition grow_stack (cr2 : Z) : K (kmem * proc) unit :=
  myproc ≫= λ p,
  let newguardpg := u32 (PGROUNDDOWN cr2 - PGSIZE) in
  if newguardpg <? p_stacklastpg p then kill_myproc else
  on_mem (allocuvm (p_pgdir p) newguardpg (u32 (newguardpg + PGSIZE)) (Some p)) ≫= λ addguard,
  if addguard =? 0 then panic "addguard failed" else
  on_mem (clearpteu (p_pgdir p) newguardpg) ≫= λ _,
  on_mem (clearptep (p_pgdir p) newguardpg) ≫= λ _,
  let oldguardpg := p_guardpg p in
  on_mem (markpteup (p_pgdir p) oldguardpg) ≫= λ _,
  upto (upto_fuel addguard oldguardpg PGSIZE) addguard oldguardpg PGSIZE (λ i,
    on_mem (allocuvm (p_pgdir p) i (u32 (i + PGSIZE)) (Some p)) ≫= λ addpage,
    if addpage =? 0 then panic "addpage failed" else
    on_mem (markpteup (p_pgdir p) i) ≫= λ _, mret (@None unit)) ≫= λ _,
  set_myproc (set_guardpg newguardpg).

Definition pagefault (cr2 : Z) : K (kmem * proc) unit :=
  myproc ≫= λ p,
  if cr2 =? 0 then kill_myproc else
  let a := PGROUNDDOWN cr2 in
  on_mem (walkpgdir (p_pgdir p) a false) ≫= λ pte,
  if pte =? 0 then
    (* the message of this branch prints the bits of the missing PTE *)
    on_mem (load32 pte) ≫= λ _, kill_myproc
  else if negb (has (tf_err (p_tf p)) FEC_WR) then kill_myproc else
  on_mem (load32 pte) ≫= λ e,
  if has e PTE_COW then cow_fault cr2 pte else
  if negb (has e PTE_P) && negb (has e PTE_COW) then
    if (p_stacklastpg p <=? cr2) && (cr2 <? p_stacktop p) then grow_stack cr2
    else kill_myproc
  else if negb (has e PTE_COW) then kill_myproc
  else panic "Page fault corner case".

End vm.

(** ** The VDSO pages and the kernel's page table *)

Definition VDSO_GETTICKS : Z := 1.
Definition VDSO_GETPID : Z := 2.

Record vmstate := {
  km : kmem;
  vdso_text_page : Z;
  vdso_ticks_page : Z;
  kpgdir : Z;
  cr3 : Z
}.

Definition on_km {A} (m : K kmem A) : K vmstate A :=
  zoom km (λ k s, {| km := k; vdso_text_page := vdso_text_page s;
    vdso_ticks_page := vdso_ticks_page s; kpgdir := kpgdir s; cr3 := cr3 s |}) m.
Definition set_text_page (v : Z) : K vmstate unit := modify (λ s,
  {| km := km s; vdso_text_page := v; vdso_ticks_page := vdso_ticks_page s;
     kpgdir := kpgdir s; cr3 := cr3 s |}).
Definition set_ticks_page (v : Z) : K vmstate unit := modify (λ s,
  {| km := km s; vdso_text_page := vdso_text_page s; vdso_ticks_page := v;
     kpgdir := kpgdir s; cr3 := cr3 s |}).
Definition set_kpgdir (v : Z) : K vmstate unit := modify (λ s,
  {| km := km s; vdso_text_page := vdso_text_page s; vdso_ticks_page := vdso_ticks_page s;
     kpgdir := v; cr3 := cr3 s |}).
Definition lcr3 (v : Z) : K vmstate unit := modify (λ s,
  {| km := km s; vdso_text_page := vdso_text_page s; vdso_ticks_page := vdso_ticks_page s;
     kpgdir := kpgdir s; cr3 := v |}).

Definition switchkvm : K vmstate unit := gets kpgdir ≫= λ d, lcr3 (V2P d).
Definition kvmalloc (kend kdata : Z) : K vmstate unit :=
  on_km (setupkvm kend kdata) ≫= λ d, set_kpgdir d ≫= λ _, switchkvm.

(** The panics and the change of address space of switchuvm; the task state
    segment it also loads is not part of the state. *)
Definition switchuvm (p : proc) : K vmstate unit :=
  if p_kstack p =? 0 then panic "switchuvm: no kstack" else
  if p_pgdir p =? 0 then panic "switchuvm: no pgdir" else
  lcr3 (V2P (p_pgdir p)).

Section vdso.
(** The symbols of the linked VDSO binary: its address and its size. *)
Context (vdso_impl_start vdso_impl_size : Z).

(** if(0 == page) { page = kalloc(); if(!page) goto fail; init; } *)
Definition shared_page (get : vmstate → Z) (set : Z → K vmstate unit)
    (init : Z → K kmem unit) : K vmstate bool :=
  gets get ≫= λ v,
  if v =? 0 then
    on_km kalloc ≫= λ pg, set pg ≫= λ _,
    if pg =? 0 then mret false else on_km (init pg) ≫= λ _, mret true
  else mret true.

Definition allocvdso (pgdir : Z) (p : proc) : K vmstate Z :=
  shared_page vdso_text_page set_text_page
    (λ pg, memmove_at pg vdso_impl_start vdso_impl_size) ≫= λ ok,
  if negb ok then mret (-1) else
  if PGSIZE <? vdso_impl_size then panic "vdso text larger than a page" else
  gets vdso_text_page ≫= λ text,
  on_km (mappages pgdir VDSOTEXT PGSIZE (V2P text) PTE_U) ≫= λ r,
  if r <? 0 then mret (-1) else
  on_km (inclRefCount text) ≫= λ _,
  on_km kalloc ≫= λ pidpg,
  if pidpg =? 0 then mret (-1) else
  on_km (memset_at pidpg 0 PGSIZE) ≫= λ _,
  on_km (store32 pidpg (u32 (p_pid p))) ≫= λ _,
  on_km (mappages pgdir (VDSOTEXT + VDSO_GETPID * PGSIZE) PGSIZE (V2P pidpg) PTE_U) ≫= λ r,
  if r <? 0 then mret (-1) else
  shared_page vdso_ticks_page set_ticks_page (λ pg, memset_at pg 0 PGSIZE) ≫= λ ok,
  if negb ok then mret (-1) else
  gets vdso_ticks_page ≫= λ ticks,
  on_km (mappages pgdir (VDSOTEXT + VDSO_GETTICKS * PGSIZE) PGSIZE (V2P ticks) PTE_U) ≫= λ r,
  if r <? 0 then mret (-1) else
  on_km (inclRefCount ticks) ≫= λ _, mret 0.
End vdso.

(** if(vdso_ticks_page != 0) vdso_ticks_page->ticks += 1, atomically *)
Definition inc_vdso_ticks : K vmstate unit :=
  gets vdso_ticks_page ≫= λ v,
  when (truth v) (on_km (load32 v) ≫= λ t, on_km (store32 v (u32 (t + 1)))).
