(* ===== verification/Vminv.v ===== *)
(** The invariant of the virtual memory subsystem.

    [ghost] describes what the page table pages of memory hold: which frames
    are page directories and page tables, and the non-zero entries by page
    directory and virtual page number.  [enc] says that the bytes of memory
    are this description; [Inv] adds the accounting that copy-on-write relies
    on: the reference count of a frame is at least the number of user
    entries that name it, and a frame that some entry may write is
    referenced once, or belongs to the shared memory area. *)

From Stdlib Require Import ZArith Lia.
From stdpp Require Import base tactics numbers gmap strings fin_maps list.
From S2P Require Import Prelude Memory Kstring Spinlock Mmu Kalloc Procdef Vm.

#[local] Open Scope Z_scope.

(** The kernel address of a frame, and the frame of a kernel address. *)
Definition kva (f : Z) : Z := P2V (f * PGSIZE).
Definition frame_at (a : Z) : Z := (a - KERNBASE) / PGSIZE.

(** Virtual pages below KERNBASE. *)
Definition UPAGES : Z := KERNBASE / PGSIZE.

Inductive role := RDir | RTab (d i : Z).

#[export] Instance role_eq_dec : EqDecision role.
Proof. solve_decision. Defined.

Record ghost := { roles : gmap Z role; ptes : gmap (Z * Z) Z; shm : gset Z }.

Definition is_dir (G : ghost) (d : Z) : Prop := ∃ f, d = kva f ∧ roles G !! f = Some RDir.
Definition pte_at (G : ghost) (d vp : Z) : Z := default 0 (ptes G !! (d, vp)).

Lemma kva_eq f : 0 ≤ f < MAXPAGES → kva f = f * 4096 + 2147483648.
Proof.
  intros. unfold kva. rewrite P2V_small; [done|].
  unfold MAXPAGES, PHYSTOP, PGSIZE in *. zlia.
Qed.
Lemma kva_good kend f : good_page kend f → kva f = f * 4096 + 2147483648.
Proof. intros [? _]. by apply kva_eq. Qed.
Lemma good_bounds kend f : good_page kend f → 0 ≤ f < 57344.
Proof. by intros [? _]. Qed.
Lemma frame_at_kva kend f o : good_page kend f → 0 ≤ o < 4096 → frame_at (kva f + o) = f.
Proof.
  intros Hg Ho. rewrite (kva_good kend) by done. unfold frame_at, KERNBASE, PGSIZE. zlia.
Qed.
Lemma kva_inj kend f g : good_page kend f → good_page kend g → kva f = kva g → f = g.
Proof. intros Hf Hg. rewrite (kva_good kend f), (kva_good kend g) by done. lia. Qed.
Lemma page_of_kva kend f : good_page kend f → page_of (kva f) = f.
Proof. intros [? _]. by apply page_of_P2V. Qed.
Lemma V2P_kva kend f : good_page kend f → V2P (kva f) = f * 4096.
Proof.
  intros Hg. pose proof (good_bounds _ _ Hg). unfold kva, PGSIZE.
  rewrite V2P_P2V; [done|]. unfold is_u32. lia.
Qed.
Lemma kva_nonzero kend f : good_page kend f → (kva f =? 0) = false.
Proof.
  intros Hg. rewrite (kva_good kend) by done. apply Z.eqb_neq.
  pose proof (good_bounds _ _ Hg). lia.
Qed.
Lemma kva_u32 kend f : good_page kend f → is_u32 (kva f).
Proof.
  intros Hg. rewrite (kva_good kend) by done.
  pose proof (good_bounds _ _ Hg). unfold is_u32. lia.
Qed.
Lemma kva_ok kend f : good_page kend f → bad_page kend (kva f) = false.
Proof.
  intros Hg. unfold bad_page. rewrite (V2P_kva kend) by done.
  rewrite (kva_good kend) by done. destruct Hg as [Hr Hk].
  unfold truth, PHYSTOP, PGSIZE, KERNBASE, MAXPAGES in *.
  replace ((f * 4096 + 2147483648) mod 4096) with 0 by zlia. simpl.
  apply orb_false_intro; [apply Z.ltb_ge|apply Z.leb_gt]; unfold PHYSTOP, PGSIZE in *; zlia.
Qed.

(** ** The encoding of page tables in memory *)

Record enc (kend : Z) (m : mem) (G : ghost) : Prop := {
  enc_good f r : roles G !! f = Some r → good_page kend f;
  enc_tab f d i : roles G !! f = Some (RTab d i) →
    is_dir G d ∧ 0 ≤ i < 1024 ∧ rd32 m (d + 4 * i) = f * 4096 + 7;
  enc_pde d i : is_dir G d → 0 ≤ i < 1024 →
    (∀ f, roles G !! f ≠ Some (RTab d i)) → rd32 m (d + 4 * i) = 0;
  enc_pte f d i j : roles G !! f = Some (RTab d i) → 0 ≤ j < 1024 →
    rd32 m (kva f + 4 * j) = pte_at G d (i * 1024 + j);
  enc_dom d vp e : ptes G !! (d, vp) = Some e →
    is_u32 e ∧ e ≠ 0 ∧ 0 ≤ vp < 1048576 ∧ ∃ f, roles G !! f = Some (RTab d (vp / 1024))
}.

Lemma enc_tab_inj kend m G f g d i :
  enc kend m G → roles G !! f = Some (RTab d i) → roles G !! g = Some (RTab d i) → f = g.
Proof.
  intros He Hf Hg. apply (enc_tab _ _ _ He) in Hf as (_&_&Hf).
  apply (enc_tab _ _ _ He) in Hg as (_&_&Hg). lia.
Qed.

(** The page table for slot [i] of a directory, if there is one. *)
Lemma enc_slot kend m G d i :
  enc kend m G → is_dir G d → 0 ≤ i < 1024 →
  (∃ f, roles G !! f = Some (RTab d i) ∧ rd32 m (d + 4 * i) = f * 4096 + 7) ∨
  (∀ f, roles G !! f ≠ Some (RTab d i)) ∧ rd32 m (d + 4 * i) = 0.
Proof.
  intros He Hd Hi.
  destruct (decide (map_Exists (λ _ r, r = RTab d i) (roles G))) as [(f&?&Hf&->)|Hn].
  - left. exists f. split; [done|]. by apply (enc_tab _ _ _ He).
  - right. assert (∀ f, roles G !! f ≠ Some (RTab d i)) as Hnone.
    { intros f Hf. apply Hn. by exists f, (RTab d i). }
    split; [done|]. by apply (enc_pde _ _ _ He).
Qed.

(** ** Changes of the description *)

Definition set_pte (G : ghost) (d vp v : Z) : ghost :=
  {| roles := roles G; shm := shm G;
     ptes := if v =? 0 then delete (d, vp) (ptes G) else <[(d, vp) := v]> (ptes G) |}.
Definition add_tab (G : ghost) (f d i : Z) : ghost :=
  {| roles := <[f := RTab d i]> (roles G); ptes := ptes G; shm := shm G |}.
Definition add_dir (G : ghost) (f : Z) : ghost :=
  {| roles := <[f := RDir]> (roles G); ptes := ptes G; shm := shm G |}.

(** The frames of a directory and its page tables. *)
Definition of_dir (d f : Z) (r : role) : Prop :=
  match r with RDir => kva f = d | RTab d' _ => d' = d end.
#[export] Instance of_dir_dec d f r : Decision (of_dir d f r).
Proof. destruct r; simpl; apply _. Defined.

Definition drop_dir (G : ghost) (d : Z) : ghost :=
  {| roles := filter (λ x, ¬ of_dir d x.1 x.2) (roles G);
     ptes := filter (λ x, x.1.1 ≠ d) (ptes G); shm := shm G |}.

Lemma pte_at_set G d vp v d' vp' :
  pte_at (set_pte G d vp v) d' vp' =
    if decide (d = d' ∧ vp = vp') then v else pte_at G d' vp'.
Proof.
  unfold pte_at, set_pte; simpl. destruct (Z.eqb_spec v 0) as [->|Hv].
  - rewrite lookup_delete. repeat case_decide; naive_solver.
  - rewrite lookup_insert. repeat case_decide; naive_solver.
Qed.

Lemma ptes_set_pte G d vp v d' vp' e :
  ptes (set_pte G d vp v) !! (d', vp') = Some e →
  (d' = d ∧ vp' = vp ∧ e = v ∧ v ≠ 0) ∨ ((d', vp') ≠ (d, vp) ∧ ptes G !! (d', vp') = Some e).
Proof.
  unfold set_pte; simpl. destruct (Z.eqb_spec v 0) as [->|Hv].
  - intros [Hne He]%lookup_delete_Some. right. split; congruence.
  - intros [[Heq ->]|[Hne He]]%lookup_insert_Some; [left|right]; split_and?; congruence.
Qed.

Lemma add_tab_role G f d i g r : roles (add_tab G f d i) !! g = Some r ↔
  f = g ∧ RTab d i = r ∨ f ≠ g ∧ roles G !! g = Some r.
Proof. apply lookup_insert_Some. Qed.
Lemma add_dir_role G f g r : roles (add_dir G f) !! g = Some r ↔
  f = g ∧ RDir = r ∨ f ≠ g ∧ roles G !! g = Some r.
Proof. apply lookup_insert_Some. Qed.

Lemma is_dir_same G G' d : roles G = roles G' → is_dir G d → is_dir G' d.
Proof. unfold is_dir. by intros ->. Qed.

(** ** Memory changes that keep an encoding *)

(** The page at [a] holds the same bytes in both memories. *)
Definition same_page (m m' : mem) (a : Z) : Prop :=
  ∀ o, 0 ≤ o < 4096 → rd8 m' (a + o) = rd8 m (a + o).

Lemma same_page_word m m' a j :
  same_page m m' a → 0 ≤ j < 1024 → rd32 m' (a + 4 * j) = rd32 m (a + 4 * j).
Proof.
  intros H Hj. apply rd32_ext. intros b Hb.
  replace b with (a + (b - a)) by lia. apply H. lia.
Qed.
Lemma same_page_trans m m' m'' a : same_page m m' a → same_page m' m'' a → same_page m m'' a.
Proof. intros H H' o Ho. by rewrite H', H. Qed.
Lemma same_page_wr32 kend m f g j v :
  good_page kend f → good_page kend g → f ≠ g → 0 ≤ j < 1024 →
  same_page m (wr32 m (kva g + 4 * j) v) (kva f).
Proof.
  intros Hf Hg Hne Hj o Ho. apply rd8_wr32_ne.
  rewrite (kva_good kend f), (kva_good kend g) by done. lia.
Qed.
Lemma same_page_memset kend m f g c :
  good_page kend f → good_page kend g → f ≠ g → same_page m (memset m (kva g) c PGSIZE) (kva f).
Proof.
  intros Hf Hg Hne o Ho. unfold PGSIZE. rewrite rd8_memset by lia.
  rewrite decide_False; [done|]. rewrite (kva_good kend f), (kva_good kend g) by done. lia.
Qed.
Lemma same_page_memmove kend m f g src n :
  mem_wf m → good_page kend f → good_page kend g → f ≠ g → 0 ≤ n ≤ 4096 →
  same_page m (memmove m (kva g) src n) (kva f).
Proof.
  intros Hm Hf Hg Hne Hn o Ho. rewrite rd8_memmove by (done || lia).
  rewrite decide_False; [done|]. rewrite (kva_good kend f), (kva_good kend g) by done. lia.
Qed.

Section enc.
Context (kend : Z).
Implicit Types (m : mem) (G : ghost).

Lemma enc_data m m' G :
  (∀ f r, roles G !! f = Some r → same_page m m' (kva f)) → enc kend m G → enc kend m' G.
Proof.
  intros Hs He. split.
  - apply (enc_good _ _ _ He).
  - intros f d i Hf. destruct (enc_tab _ _ _ He f d i Hf) as (Hd&Hi&Hw).
    refine (conj Hd (conj Hi _)). destruct Hd as (g&->&Hg).
    by rewrite (same_page_word m m') by eauto.
  - intros d i Hd Hi Hn. pose proof (enc_pde _ _ _ He d i Hd Hi Hn) as Hw.
    destruct Hd as (g&->&Hg). by rewrite (same_page_word m m') by eauto.
  - intros f d i j Hf Hj. rewrite (same_page_word m m') by eauto.
    by apply (enc_pte _ _ _ He).
  - apply (enc_dom _ _ _ He).
Qed.

Lemma enc_set_pte m G f d i j v :
  enc kend m G → roles G !! f = Some (RTab d i) → 0 ≤ j < 1024 → is_u32 v →
  enc kend (wr32 m (kva f + 4 * j) v) (set_pte G d (i * 1024 + j) v).
Proof.
  intros He Hf Hj Hv. pose proof (enc_good _ _ _ He) as Hgood.
  destruct (enc_tab _ _ _ He f d i Hf) as (Hd&Hi&_).
  assert (Hother : ∀ g, is_dir G (kva g) → good_page kend g → g ≠ f).
  { intros g (h&Heq&Hh) Hg ->. apply (kva_inj kend) in Heq; eauto. congruence. }
  split.
  - apply Hgood.
  - intros g d' i' Hg. destruct (enc_tab _ _ _ He g d' i' Hg) as (Hd'&Hi'&Hw).
    refine (conj Hd' (conj Hi' _)). destruct Hd' as (h&->&Hh). rewrite <- Hw.
    apply same_page_word; [|done]. eapply same_page_wr32; eauto. congruence.
  - intros d' i' Hd' Hi' Hn. rewrite <- (enc_pde _ _ _ He d' i' Hd' Hi' Hn).
    destruct Hd' as (h&->&Hh). simpl in *.
    apply same_page_word; [|done]. eapply same_page_wr32; eauto. congruence.
  - intros g d' i' j' Hg Hj'. simpl in Hg. rewrite pte_at_set.
    destruct (decide (g = f)) as [->|Hne].
    + assert (d' = d ∧ i' = i) as [-> ->] by (split; congruence).
      case_decide as Hc.
      * replace j' with j by lia. by apply rd32_wr32_eq.
      * rewrite rd32_wr32_ne by lia. by apply (enc_pte _ _ _ He).
    + rewrite decide_False.
      * rewrite <- (enc_pte _ _ _ He g d' i' j') by done.
        apply same_page_word; [|done]. eapply same_page_wr32; eauto.
      * intros [<- Hvp]. destruct (enc_tab _ _ _ He g d i' Hg) as (_&Hi'&_).
        assert (i' = i) as -> by lia. apply Hne. by eapply enc_tab_inj.
  - intros d' vp e He'. apply ptes_set_pte in He' as [(->&->&->&Hnz)|[_ He']].
    + refine (conj Hv (conj Hnz (conj _ _))); [lia|]. exists f. simpl.
      replace ((i * 1024 + j) / 1024) with i by zlia. done.
    + by apply (enc_dom _ _ _ He) in He'.
Qed.

(** A zeroed frame that is not a page table yet does not disturb the others. *)
Lemma enc_memset m G f c :
  enc kend m G → good_page kend f → roles G !! f = None →
  enc kend (memset m (kva f) c PGSIZE) G.
Proof.
  intros He Hg Hf. eapply enc_data; [|done]. intros g r Hr.
  eapply same_page_memset; [by eapply enc_good|done|congruence].
Qed.

Lemma zeroed_word m f j :
  0 ≤ j < 1024 → rd32 (memset m (kva f) 0 PGSIZE) (kva f + 4 * j) = 0.
Proof.
  intros Hj. unfold rd32, PGSIZE. rewrite !rd8_memset by lia.
  rewrite !decide_True by lia. done.
Qed.

Lemma no_entries m G d vp :
  enc kend m G → (∀ f, roles G !! f ≠ Some (RTab d (vp / 1024))) → pte_at G d vp = 0.
Proof.
  intros He Hn. unfold pte_at. destruct (ptes G !! (d, vp)) as [e|] eqn:E; [|done].
  apply (enc_dom _ _ _ He) in E as (_&_&_&f&Hf). by apply Hn in Hf.
Qed.

Lemma enc_add_tab m G f d i :
  enc kend m G → is_dir G d → 0 ≤ i < 1024 → (∀ g, roles G !! g ≠ Some (RTab d i)) →
  good_page kend f → roles G !! f = None →
  enc kend (wr32 (memset m (kva f) 0 PGSIZE) (d + 4 * i) (f * 4096 + 7)) (add_tab G f d i).
Proof.
  intros He Hd Hi Hn Hf Hr. pose proof (good_bounds _ _ Hf) as Hfb.
  pose proof (enc_memset m G f 0 He Hf Hr) as He0.
  assert (Hz : ∀ j, 0 ≤ j < 1024 → rd32 (memset m (kva f) 0 PGSIZE) (kva f + 4 * j) = 0)
    by (intros; by apply zeroed_word).
  set (m0 := memset m (kva f) 0 PGSIZE) in *. clearbody m0.
  destruct Hd as (fd&->&Hfd). assert (Hgd := enc_good _ _ _ He _ _ Hfd).
  assert (Hdir : ∀ d', is_dir (add_tab G f (kva fd) i) d' → is_dir G d').
  { intros d' (g&->&Hg). exists g. split; [done|].
    apply add_tab_role in Hg as [[? ?]|[? ?]]; congruence. }
  assert (Hdir' : ∀ d', is_dir G d' → is_dir (add_tab G f (kva fd) i) d').
  { intros d' (g&->&Hg). exists g. split; [done|]. apply add_tab_role.
    right. split; congruence. }
  assert (Hw : ∀ d' i', is_dir G d' → 0 ≤ i' < 1024 → (d', i') ≠ (kva fd, i) →
    rd32 (wr32 m0 (kva fd + 4 * i) (f * 4096 + 7)) (d' + 4 * i') = rd32 m0 (d' + 4 * i')).
  { intros d' i' (g&->&Hg) Hi' Hne. destruct (decide (g = fd)) as [->|].
    - apply rd32_wr32_ne. assert (i ≠ i') by congruence. lia.
    - apply same_page_word; [|done].
      eapply same_page_wr32; [by eapply enc_good|done..]. }
  split.
  - intros g r [[<- _]|[_ Hg]]%add_tab_role; [done|]. by eapply enc_good.
  - intros g d' i' [[<- [= <- <-]]|[Hne Hg]]%add_tab_role.
    + refine (conj _ (conj Hi _)); [apply Hdir'; by exists fd|].
      apply rd32_wr32_eq. unfold is_u32. lia.
    + destruct (enc_tab _ _ _ He0 g d' i' Hg) as (Hd'&Hi'&Hw').
      refine (conj (Hdir' _ Hd') (conj Hi' _)). rewrite Hw; [done..|].
      intros [= -> ->]. by eapply Hn.
  - intros d' i' Hd' Hi' Hn'. apply Hdir in Hd'. rewrite Hw; [|done..|].
    + apply (enc_pde _ _ _ He0); [done..|]. intros g Hg. apply (Hn' g).
      apply add_tab_role. right. split; congruence.
    + intros [= -> ->]. apply (Hn' f). apply add_tab_role. by left.
  - intros g d' i' j [[<- [= <- <-]]|[Hne Hg]]%add_tab_role Hj.
    + rewrite (same_page_word m0); [|eapply same_page_wr32; [done..| |done]; congruence|done].
      rewrite Hz by done. symmetry. apply (no_entries _ _ _ _ He0).
      by replace ((i * 1024 + j) / 1024) with i by zlia.
    + rewrite (same_page_word m0); [by apply (enc_pte _ _ _ He0)| |done].
      eapply same_page_wr32; [by eapply enc_good|done| |done]. congruence.
  - intros d' vp e (H1&H2&H3&g&Hg)%(enc_dom _ _ _ He). refine (conj H1 (conj H2 (conj H3 _))).
    exists g. apply add_tab_role. right. split; congruence.
Qed.

Lemma enc_no_dir m G f : enc kend m G → good_page kend f → roles G !! f = None →
  ¬ is_dir G (kva f).
Proof.
  intros He Hf Hr (g&Heq&Hg). apply (kva_inj kend) in Heq; [congruence|done|].
  by eapply enc_good.
Qed.

Lemma enc_add_dir m G f :
  enc kend m G → good_page kend f → roles G !! f = None →
  (∀ o, 0 ≤ o < 4096 → rd8 m (kva f + o) = 0) → enc kend m (add_dir G f).
Proof.
  intros He0 Hf Hr Hz. pose proof (enc_no_dir _ _ _ He0 Hf Hr) as Hnd.
  assert (Hdir : ∀ d, is_dir G d → is_dir (add_dir G f) d).
  { intros d' (g&->&Hg). exists g. split; [done|]. apply add_dir_role.
    right. split; congruence. }
  split.
  - intros g r [[<- _]|[_ Hg]]%add_dir_role; [done|]. by eapply enc_good.
  - intros g d i [[_ [=]]|[_ Hg]]%add_dir_role.
    destruct (enc_tab _ _ _ He0 g d i Hg) as (Hd&Hi&Hw). auto.
  - intros d i (g&->&Hg) Hi Hn. apply add_dir_role in Hg as [[<- _]|[Hne Hg]].
    + unfold rd32. rewrite <- !Z.add_assoc, !Hz by lia. done.
    + apply (enc_pde _ _ _ He0); [by exists g|done|]. intros h Hh. apply (Hn h).
      apply add_dir_role. right. split; congruence.
  - intros g d i j [[_ [=]]|[_ Hg]]%add_dir_role Hj. by apply (enc_pte _ _ _ He0).
  - intros d vp e (H1&H2&H3&g&Hg)%(enc_dom _ _ _ He0). refine (conj H1 (conj H2 (conj H3 _))).
    exists g. apply add_dir_role. right. split; congruence.
Qed.

Lemma drop_role G d f r : roles (drop_dir G d) !! f = Some r ↔
  roles G !! f = Some r ∧ ¬ of_dir d f r.
Proof. simpl. by rewrite map_lookup_filter_Some. Qed.
Lemma drop_pte G d d' vp : d' ≠ d → ptes (drop_dir G d) !! (d', vp) = ptes G !! (d', vp).
Proof.
  intros Hne. simpl. rewrite map_lookup_filter. destruct (ptes G !! (d', vp)); [|done].
  simpl. by case_guard.
Qed.

Lemma enc_drop_dir m G d : enc kend m G → is_dir G d → enc kend m (drop_dir G d).
Proof.
  intros He Hd.
  assert (Hdir : ∀ d', is_dir (drop_dir G d) d' ↔ is_dir G d' ∧ d' ≠ d).
  { intros d'. split.
    - intros (g&->&[Hg Hn]%drop_role). simpl in Hn. split; [by exists g|done].
    - intros [(g&->&Hg) Hne]. exists g. split; [done|]. by apply drop_role. }
  split.
  - intros f r [Hf _]%drop_role. by eapply enc_good.
  - intros f d' i [Hf Hn]%drop_role. simpl in Hn.
    destruct (enc_tab _ _ _ He f d' i Hf) as (Hd'&Hi&Hw). rewrite Hdir. auto.
  - intros d' i [Hd' Hne]%Hdir Hi Hn. apply (enc_pde _ _ _ He); [done..|].
    intros f Hf. apply (Hn f). by apply drop_role.
  - intros f d' i j [Hf Hn]%drop_role Hj. unfold pte_at. rewrite drop_pte by done.
    by apply (enc_pte _ _ _ He).
  - intros d' vp e [H Hne]%map_lookup_filter_Some. simpl in Hne.
    apply (enc_dom _ _ _ He) in H as (H1&H2&H3&f&Hf).
    refine (conj H1 (conj H2 (conj H3 _))). exists f. by apply drop_role.
Qed.
End enc.

(** ** Counting references *)

(** The number of user entries that name frame [f]. *)
Definition counted (f : Z) (x : (Z * Z) * Z) : Prop := x.1.2 < UPAGES ∧ x.2 / 4096 = f.
#[export] Instance counted_dec f x : Decision (counted f x).
Proof. unfold counted. apply _. Defined.
Definition maps (G : ghost) (f : Z) : Z := Z.of_nat (size (filter (counted f) (ptes G))).

(** What the entry [e] of virtual page [vp] contributes to [maps G f]. *)
Definition contrib (vp e f : Z) : Z :=
  if decide (vp < UPAGES ∧ e ≠ 0 ∧ e / 4096 = f) then 1 else 0.

Definition tabs (G : ghost) (f : Z) : Z :=
  match roles G !! f with Some _ => 1 | None => 0 end.

(** The references to [f] that are neither user entries nor its use as a page
    table: kernel stacks, pipes, the shared VDSO pages, pages in transit. *)
Definition extra (p : Pool.pool) (G : ghost) (f : Z) : Z :=
  Pool.count p f - maps G f - tabs G f.

Lemma maps_nonneg G f : 0 ≤ maps G f.
Proof. unfold maps. lia. Qed.

Lemma contrib_0 vp f : contrib vp 0 f = 0.
Proof. unfold contrib. case_decide; [naive_solver|done]. Qed.

Lemma maps_set_pte G d vp v f :
  ptes G !! (d, vp) ≠ Some 0 →
  maps (set_pte G d vp v) f = maps G f - contrib vp (pte_at G d vp) f + contrib vp v f.
Proof.
  intros H0. unfold maps, set_pte; simpl.
  assert (Hdel : Z.of_nat (size (filter (counted f) (delete (d, vp) (ptes G)))) =
    Z.of_nat (size (filter (counted f) (ptes G))) - contrib vp (pte_at G d vp) f).
  { rewrite map_filter_delete. unfold contrib, pte_at.
    destruct (ptes G !! (d, vp)) as [e|] eqn:E; simpl.
    - destruct (decide (counted f ((d, vp), e))) as [[? ?]|Hc]; simpl in *.
      + assert (Hin : filter (counted f) (ptes G) !! (d, vp) = Some e)
          by (by apply map_lookup_filter_Some).
        rewrite decide_True by (split_and?; [done|congruence|done]).
        pose proof (map_size_delete_Some (M := gmap (Z * Z)) _ _ (mk_is_Some _ _ Hin)) as Hs.
        assert (size (filter (counted f) (ptes G)) ≠ 0%nat).
        { intros Hz. apply map_size_empty_iff in Hz. by rewrite Hz in Hin. }
        rewrite Hs. lia.
      + rewrite decide_False by (intros (?&_&?); by apply Hc).
        rewrite delete_id; [lia|]. apply map_lookup_filter_None. right. naive_solver.
    - rewrite decide_False by (intros (_&Hz&_); done).
      rewrite delete_id; [lia|]. apply map_lookup_filter_None. by left. }
  destruct (Z.eqb_spec v 0) as [->|Hv].
  - rewrite Hdel, contrib_0. lia.
  - rewrite <- insert_delete_eq. unfold contrib at 2.
    destruct (decide (counted f ((d, vp), v))) as [[? ?]|Hc]; simpl in *.
    + rewrite map_filter_insert_True by done. rewrite decide_True by done.
      rewrite map_size_insert_None; [lia|]. apply map_lookup_filter_None. left.
      apply lookup_delete_eq.
    + rewrite map_filter_insert_False by done. rewrite decide_False by (intros (?&_&?); by apply Hc).
      rewrite delete_delete_eq. lia.
Qed.

Lemma maps_pos G d vp e :
  ptes G !! (d, vp) = Some e → vp < UPAGES → 1 ≤ maps G (e / 4096).
Proof.
  intros He Hvp. unfold maps.
  assert (filter (counted (e / 4096)) (ptes G) !! (d, vp) = Some e) as Hin
    by (by apply map_lookup_filter_Some).
  destruct (size _) eqn:Hs; [|lia]. apply map_size_empty_iff in Hs. by rewrite Hs in Hin.
Qed.

Lemma maps_two G d vp e d' vp' e' :
  ptes G !! (d, vp) = Some e → ptes G !! (d', vp') = Some e' → (d, vp) ≠ (d', vp') →
  vp < UPAGES → vp' < UPAGES → e / 4096 = e' / 4096 → 2 ≤ maps G (e / 4096).
Proof.
  intros He He' Hne Hvp Hvp' Hf. unfold maps.
  assert (filter (counted (e / 4096)) (ptes G) !! (d, vp) = Some e) as Hin
    by (by apply map_lookup_filter_Some).
  assert (filter (counted (e / 4096)) (ptes G) !! (d', vp') = Some e') as Hin'
    by (by apply map_lookup_filter_Some).
  rewrite <- (insert_delete_id _ _ _ Hin), map_size_insert_None by apply lookup_delete_eq.
  destruct (size (delete _ _)) eqn:Hs; [|lia]. apply map_size_empty_iff in Hs.
  rewrite <- (lookup_delete_ne _ (d, vp) (d', vp')), Hs in Hin' by done. done.
Qed.
