(* ===== verification/Vmspec.v ===== *)
(** Specifications of the page table routines of Vm against the invariant of
    Vminv: what walkpgdir, mappages, allocuvm, deallocuvm, freevm and setupkvm
    do to the page tables, to the reference counts and to the data of frames
    that they do not own. *)

From Stdlib Require Import ZArith Lia.
From stdpp Require Import base tactics numbers gmap strings fin_maps list.
From S2P Require Import Prelude Memory Kstring Spinlock Mmu Kalloc Procdef Vm Vminv.

#[local] Open Scope Z_scope.

(** A user entry names an allocatable frame that is not a page table, and may
    be writable only if it is the only reference or the frame is shared
    memory. *)
Definition pte_ok (kend : Z) (p : Pool.pool) (G : ghost) (vp e : Z) : Prop :=
  e ≠ 0 → vp < UPAGES →
  good_page kend (e / 4096) ∧ roles G !! (e / 4096) = None ∧
  (has e PTE_W = true → Pool.count p (e / 4096) = 1 ∨ e / 4096 ∈ shm G).

Record Inv0 (kend : Z) (k : kmem) (p : Pool.pool) (G : ghost) : Prop := {
  i_R : R kend k p;
  i_enc : enc kend (pmem k) G;
  i_pte d vp e : ptes G !! (d, vp) = Some e → pte_ok kend p G vp e;
  i_tab f r : roles G !! f = Some r → Pool.count p f = 1
}.

Definition Bal (p : Pool.pool) (G : ghost) : Prop := ∀ f, 0 ≤ extra p G f.

(** Bytes that page table routines leave alone: those of frames that are
    neither free nor page tables. *)
Definition stable (p : Pool.pool) (G : ghost) (a : Z) : Prop :=
  frame_at a ∉ Pool.free p ∧ roles G !! frame_at a = None.

(** A transition that only takes frames from the free list. *)
Record grow (k : kmem) (p : Pool.pool) (G : ghost)
            (k' : kmem) (p' : Pool.pool) (G' : ghost) : Prop := {
  g_data a : stable p G a → stable p' G' a ∧ rd8 (pmem k') a = rd8 (pmem k) a;
  g_roles f r : roles G !! f = Some r → roles G' !! f = Some r;
  g_count f : Pool.count p f ≠ 0 → Pool.count p' f = Pool.count p f;
  g_shm : shm G' = shm G
}.

Lemma grow_refl k p G : grow k p G k p G.
Proof. by split. Qed.
Lemma grow_trans k p G k1 p1 G1 k2 p2 G2 :
  grow k p G k1 p1 G1 → grow k1 p1 G1 k2 p2 G2 → grow k p G k2 p2 G2.
Proof.
  intros [D1 R1 C1 S1] [D2 R2 C2 S2]. split.
  - intros a Ha. destruct (D1 a Ha) as [Ha1 E1]. destruct (D2 a Ha1) as [Ha2 E2].
    split; [done|]. by rewrite E2.
  - auto.
  - intros f Hf. rewrite C2; rewrite C1; auto.
  - congruence.
Qed.
Lemma grow_is_dir k p G k' p' G' d : grow k p G k' p' G' → is_dir G d → is_dir G' d.
Proof. intros Hg (f&->&Hf). exists f. split; [done|]. by apply (g_roles _ _ _ _ _ _ Hg). Qed.

(** A transition that only gives frames back. *)
Record shrink (k : kmem) (p : Pool.pool) (G : ghost)
              (k' : kmem) (p' : Pool.pool) (G' : ghost) : Prop := {
  s_data a : stable p G a → frame_at a ∉ Pool.free p' →
    stable p' G' a ∧ rd8 (pmem k') a = rd8 (pmem k) a;
  s_free f : f ∈ Pool.free p → f ∈ Pool.free p';
  s_roles : roles G' = roles G;
  s_count f : Pool.count p' f ≤ Pool.count p f;
  s_shm : shm G' ⊆ shm G;
  s_shm' f : f ∈ shm G → Pool.count p' f ≠ 0 → f ∈ shm G'
}.

Lemma shrink_refl k p G : shrink k p G k p G.
Proof. by split. Qed.
Lemma shrink_trans kend k p G k1 p1 G1 k2 p2 G2 :
  R kend k2 p2 → (∀ f, 0 ≤ Pool.count p2 f) →
  shrink k p G k1 p1 G1 → shrink k1 p1 G1 k2 p2 G2 → shrink k p G k2 p2 G2.
Proof.
  intros HR2 Hpos [D1 F1 R1 C1 S1 T1] [D2 F2 R2 C2 S2 T2]. split.
  - intros a Ha Hf. destruct (D1 a Ha) as [Ha1 E1]; [auto|].
    destruct (D2 a Ha1 Hf) as [Ha2 E2]. split; [done|]. by rewrite E2.
  - auto.
  - congruence.
  - intros f. specialize (C1 f). specialize (C2 f). lia.
  - set_solver.
  - intros f Hf Hc. apply T2; [|done]. apply T1; [done|].
    specialize (C2 f). specialize (Hpos f). lia.
Qed.
Lemma shrink_is_dir k p G k' p' G' d : shrink k p G k' p' G' → is_dir G d ↔ is_dir G' d.
Proof. intros Hs. unfold is_dir. by rewrite (s_roles _ _ _ _ _ _ Hs). Qed.

Lemma va_vp va : is_u32 va → PDX va * 1024 + PTX va = va / 4096.
Proof. intros. rewrite PDX_eq, PTX_eq by done. unfold is_u32 in *. zlia. Qed.
Lemma grow_pte_ok kend k p G k' p' G' vp e :
  R kend k p → grow k p G k' p' G' → pte_ok kend p G vp e →
  (vp < UPAGES → Pool.count p (e / 4096) ≠ 0) → pte_ok kend p' G' vp e.
Proof.
  intros HR Hg Hok Hc Hnz Hvp. destruct (Hok Hnz Hvp) as (Hgood&Hr&HW). specialize (Hc Hvp).
  pose proof (frame_at_kva kend (e / 4096) 0 Hgood ltac:(lia)) as Hfa.
  split_and!; [done| |].
  - destruct (g_data _ _ _ _ _ _ Hg (kva (e / 4096) + 0)) as [[_ H] _].
    + split; rewrite Hfa; [|done]. intros Hin. by apply (R_free _ _ _ HR) in Hin.
    + by rewrite Hfa in H.
  - rewrite (g_count _ _ _ _ _ _ Hg), (g_shm _ _ _ _ _ _ Hg) by done. done.
Qed.
Lemma grow_set_pte k p G k1 k' p' G' d vp e :
  grow k p G k1 p' G' →
  (∀ a, roles G' !! frame_at a = None → rd8 (pmem k') a = rd8 (pmem k1) a) →
  grow k p G k' p' (set_pte G' d vp e).
Proof.
  intros [D1 R1 C1 S1] Hd. split; try done. intros a Ha.
  destruct (D1 a Ha) as [[Hf Hr] E]. split; [done|]. by rewrite Hd.
Qed.

Lemma PDX_vp va : is_u32 va → PDX va = va / 4096 / 1024.
Proof. intros. rewrite PDX_eq by done. zlia. Qed.

Section spec.
Context (kend : Z).
Implicit Types (k : kmem) (p : Pool.pool) (G : ghost).

Lemma extra_set_pte p m G d vp v f :
  enc kend m G →
  extra p (set_pte G d vp v) f = extra p G f + contrib vp (pte_at G d vp) f - contrib vp v f.
Proof.
  intros He. unfold extra. rewrite maps_set_pte.
  - unfold tabs; simpl. lia.
  - intros H0. by apply (enc_dom _ _ _ He) in H0 as (_&?&_).
Qed.

(** A frame whose count is 0 is not in use. *)
Lemma unused_frame p G f :
  Bal p G → Pool.count p f = 0 → roles G !! f = None ∧ maps G f = 0.
Proof.
  intros HB Hc. specialize (HB f). unfold extra, tabs in HB.
  pose proof (maps_nonneg G f). destruct (roles G !! f); [lia|]. split; [done|lia].
Qed.

Lemma free_unused k p f : R kend k p → f ∈ Pool.free p → Pool.count p f = 0.
Proof. intros HR. apply (R_free _ _ _ HR). Qed.

(** Changing the reference count of a frame that is not free. *)
Lemma Inv0_count k k' p p' G f :
  Inv0 kend k p G → R kend k' p' → enc kend (pmem k') G →
  roles G !! f = None →
  (∀ g, g ≠ f → Pool.count p' g = Pool.count p g) →
  (∀ d vp e, ptes G !! (d, vp) = Some e → vp < UPAGES → e / 4096 = f →
     has e PTE_W = true → Pool.count p' f = 1 ∨ f ∈ shm G) →
  Inv0 kend k' p' G.
Proof.
  intros [HR He Hp Ht] HR' He' Hf Hc HW. split; [done|done| |].
  - intros d vp e Hl Hnz Hvp. destruct (Hp d vp e Hl Hnz Hvp) as (?&?&HW').
    split_and!; [done..|]. intros Hw. destruct (decide (e / 4096 = f)) as [<-|Hne]; [eauto|].
    rewrite Hc by done. auto.
  - intros g r Hg. rewrite Hc by congruence. eauto.
Qed.

(** kalloc: a frame that nothing refers to. *)
Lemma kalloc_vm k p G :
  Inv0 kend k p G → Bal p G →
  wp kalloc k (λ v k',
    pmem k' = pmem k ∧
    (v = 0 ∧ Pool.free p = [] ∧ Inv0 kend k' p G ∨
     ∃ f l, v = kva f ∧ Pool.free p = f :: l ∧ good_page kend f ∧
       Pool.count p f = 0 ∧ roles G !! f = None ∧ maps G f = 0 ∧ f ∉ l ∧
       Inv0 kend k' {| Pool.free := l; Pool.count := Pool.upd (Pool.count p) f 1 |} G)).
Proof.
  intros HI HB. pose proof (i_R _ _ _ _ HI) as HR.
  eapply wp_mono; [|by apply (kalloc_refines kend k p)].
  intros v k'. destruct p as [[|f l] c]; simpl; intros (->&HR'&Hm&_); (split; [done|]).
  - left. split_and!; [done..|]. destruct HI as [_ He Hp Ht].
    split; [done|by rewrite Hm|done|done].
  - right. exists f, l.
    assert (Hin : f ∈ f :: l) by left.
    assert (Hc : c f = 0) by apply (free_unused _ _ _ HR Hin).
    destruct (unused_frame _ _ _ HB Hc) as [Hr Hmp].
    split_and!; try done.
    + apply (R_good _ _ _ HR _ Hin).
    + by destruct (proj1 (NoDup_cons _ _) (R_nodup _ _ _ HR)).
    + eapply (Inv0_count k); [done|done|rewrite Hm; apply HI|exact Hr| |].
      * intros g Hg. simpl. unfold Pool.upd. by rewrite decide_False.
      * intros d vp e Hl Hvp Hf _. exfalso. subst f.
        pose proof (maps_pos _ _ _ _ Hl Hvp). lia.
Qed.

(** ** Bytes outside a frame *)

Lemma outside_frame f a :
  good_page kend f → frame_at a ≠ f → ¬ (kva f ≤ a < kva f + 4096).
Proof.
  intros Hg Ha. rewrite (kva_good kend) by done. unfold frame_at, KERNBASE, PGSIZE in Ha.
  intros ?. apply Ha. zlia.
Qed.
Lemma rd8_wr32_frame m f j v a :
  good_page kend f → 0 ≤ j < 1024 → frame_at a ≠ f →
  rd8 (wr32 m (kva f + 4 * j) v) a = rd8 m a.
Proof. intros Hg Hj Ha%(outside_frame f); [|done]. apply rd8_wr32_ne. lia. Qed.
Lemma rd8_memset_frame m f c a :
  good_page kend f → frame_at a ≠ f → rd8 (memset m (kva f) c PGSIZE) a = rd8 m a.
Proof.
  intros Hg Ha%(outside_frame f); [|done]. unfold PGSIZE.
  rewrite rd8_memset by lia. by rewrite decide_False by lia.
Qed.
Lemma rd8_memmove_frame m f o src n a :
  mem_wf m → good_page kend f → 0 ≤ o → 0 ≤ n → o + n ≤ 4096 → frame_at a ≠ f →
  rd8 (memmove m (kva f + o) src n) a = rd8 m a.
Proof.
  intros Hm Hg Ho Hn Hon Ha%(outside_frame f); [|done].
  rewrite rd8_memmove by done. by rewrite decide_False by lia.
Qed.
Lemma role_not_stable p G f a r : roles G !! f = Some r → stable p G a → frame_at a ≠ f.
Proof. intros Hf [_ Ha] Heq. rewrite Heq in Ha. congruence. Qed.

(** ** Walking a page table *)

Definition slot G (d va f : Z) : Prop := roles G !! f = Some (RTab d (PDX va)).

Lemma load32_ok k a : a ≠ 0 → load32 a k = Ret (rd32 (pmem k) a) k.
Proof. intros Ha. unfold load32. by rewrite (proj2 (Z.eqb_neq a 0) Ha). Qed.
Lemma store32_ok k a v : a ≠ 0 → store32 a v k = Ret tt (set_pmem (wr32 (pmem k) a v) k).
Proof. intros Ha. unfold store32. by rewrite (proj2 (Z.eqb_neq a 0) Ha). Qed.

Lemma kva_off_nonzero f j : good_page kend f → 0 ≤ j → kva f + j ≠ 0.
Proof. intros Hg Hj. rewrite (kva_good kend) by done. pose proof (good_bounds _ _ Hg). lia. Qed.

Lemma pde_value f : 0 ≤ f < 57344 →
  has (f * 4096 + 7) PTE_P = true ∧ PTE_ADDR (f * 4096 + 7) = f * 4096.
Proof.
  intros Hf. rewrite PTE_ADDR_eq. split; [|zlia].
  rewrite <- lor_pte by zlia. by flags.
Qed.

Lemma dir_pde k p G d va :
  Inv0 kend k p G → is_dir G d → is_u32 va →
  load32 (d + 4 * PDX va) k = Ret (rd32 (pmem k) (d + 4 * PDX va)) k.
Proof.
  intros HI (f&->&Hf) Hva. apply load32_ok. pose proof (PDX_range va Hva).
  apply kva_off_nonzero; [|lia]. by eapply enc_good; [apply HI|].
Qed.

Lemma walk_slot k p G d va f b :
  Inv0 kend k p G → is_u32 va → slot G d va f →
  walkpgdir d va b k = Ret (kva f + 4 * PTX va) k.
Proof.
  intros HI Hva Hs. destruct (enc_tab _ _ _ (i_enc _ _ _ _ HI) _ _ _ Hs) as (Hd&Hi&Hw).
  assert (Hg := enc_good _ _ _ (i_enc _ _ _ _ HI) _ _ Hs).
  unfold walkpgdir, mbind, K_bind. erewrite dir_pde by done. rewrite Hw.
  destruct (pde_value f (good_bounds _ _ Hg)) as [-> ->]. done.
Qed.

Lemma walk_none k p G d va :
  Inv0 kend k p G → is_dir G d → is_u32 va → (∀ f, ¬ slot G d va f) →
  walkpgdir d va false k = Ret 0 k.
Proof.
  intros HI Hd Hva Hn.
  pose proof (enc_pde _ _ _ (i_enc _ _ _ _ HI) d (PDX va) Hd (PDX_range _ Hva) Hn) as Hw.
  unfold walkpgdir, mbind, K_bind. erewrite dir_pde by done. by rewrite Hw.
Qed.

Lemma slot_dec m G d va : enc kend m G → is_dir G d → is_u32 va →
  (∃ f, slot G d va f) ∨ (∀ f, ¬ slot G d va f).
Proof.
  intros He Hd Hva. destruct (enc_slot _ _ _ _ _ He Hd (PDX_range _ Hva)) as [(f&?&_)|[? _]];
    [by left; exists f|by right].
Qed.

(** The word of a slot is the entry of the address. *)
Lemma load_slot k p G d va f :
  Inv0 kend k p G → is_u32 va → slot G d va f →
  load32 (kva f + 4 * PTX va) k = Ret (pte_at G d (va / 4096)) k.
Proof.
  intros HI Hva Hs. assert (Hg := enc_good _ _ _ (i_enc _ _ _ _ HI) _ _ Hs).
  pose proof (PTX_range va). rewrite load32_ok by (apply kva_off_nonzero; [done|lia]).
  rewrite (enc_pte _ _ _ (i_enc _ _ _ _ HI) _ _ _ _ Hs) by done. by rewrite va_vp.
Qed.

Lemma slot_pte_nonzero f va : good_page kend f → (kva f + 4 * PTX va =? 0) = false.
Proof.
  intros Hg. pose proof (PTX_range va). apply Z.eqb_neq, kva_off_nonzero; [done|lia].
Qed.

(** ** Writing an entry *)

Lemma store_slot k p G d va f v :
  Inv0 kend k p G → is_u32 va → slot G d va f → is_u32 v → pte_ok kend p G (va / 4096) v →
  wp (store32 (kva f + 4 * PTX va) v) k (λ _ k',
    Inv0 kend k' p (set_pte G d (va / 4096) v) ∧
    ∀ a, roles G !! frame_at a = None → rd8 (pmem k') a = rd8 (pmem k) a).
Proof.
  intros HI Hva Hs Hv Hok. destruct HI as [HR He Hp Ht].
  assert (Hg := enc_good _ _ _ He _ _ Hs). pose proof (PTX_range va) as Hj.
  unfold wp. rewrite store32_ok by (apply kva_off_nonzero; [done|lia]). split.
  - split; simpl.
    + apply R_set_pmem; [|done]. apply mem_wf_wr32, HR.
    + rewrite <- va_vp by done. by apply enc_set_pte.
    + intros d' vp e [(->&->&->&_)|[_ Hl]]%ptes_set_pte; [done|]. by apply (Hp d').
    + done.
  - intros a Ha. simpl. apply rd8_wr32_frame; [done..|]. congruence.
Qed.

(** ** Adding a page table *)

Lemma extra_add_tab p G f d i g :
  roles G !! f = None →
  extra p (add_tab G f d i) g = extra p G g - (if decide (f = g) then 1 else 0).
Proof.
  intros Hf. unfold extra, tabs, maps; simpl. rewrite lookup_insert.
  case_decide; [subst; rewrite Hf; lia|lia].
Qed.
Lemma extra_alloc p l G f g :
  Pool.count p f = 0 →
  extra {| Pool.free := l; Pool.count := Pool.upd (Pool.count p) f 1 |} G g =
    extra p G g + (if decide (f = g) then 1 else 0).
Proof.
  intros Hf. unfold extra, Pool.upd; simpl. case_decide; [subst; lia|lia].
Qed.

(** Using the frame [f] that was just allocated as a page table. *)
Lemma Inv0_add_tab k p G f d va l :
  Inv0 kend k {| Pool.free := l; Pool.count := Pool.upd (Pool.count p) f 1 |} G →
  Pool.free p = f :: l →
  good_page kend f → roles G !! f = None → maps G f = 0 →
  is_dir G d → is_u32 va → (∀ g, ¬ slot G d va g) →
  wp (memset_at (kva f) 0 PGSIZE ≫= λ _,
      store32 (d + 4 * PDX va) (Z.lor (Z.lor (Z.lor (V2P (kva f)) PTE_P) PTE_W) PTE_U)) k
    (λ _ k', let p' := {| Pool.free := l; Pool.count := Pool.upd (Pool.count p) f 1 |} in
       Inv0 kend k' p' (add_tab G f d (PDX va)) ∧
       ∀ a, frame_at a ≠ f → roles G !! frame_at a = None → rd8 (pmem k') a = rd8 (pmem k) a).
Proof.
  intros HI Hfree Hg Hr Hm Hd Hva Hn. destruct HI as [HR He Hp Ht].
  pose proof (PDX_range va Hva) as Hi.
  assert (HV : Z.lor (Z.lor (Z.lor (V2P (kva f)) PTE_P) PTE_W) PTE_U = f * 4096 + 7).
  { rewrite (V2P_kva kend), <- !Z.lor_assoc by done. apply lor_pte; [zlia|]. done. }
  rewrite HV. apply wp_bind. unfold wp at 1, memset_at. rewrite (kva_nonzero kend) by done.
  simpl. unfold wp. pose proof (enc_add_tab kend (pmem k) G f d (PDX va) He Hd Hi Hn Hg Hr) as He'.
  destruct Hd as (fd&->&Hfd). assert (Hgd := enc_good _ _ _ He _ _ Hfd).
  rewrite store32_ok by (apply kva_off_nonzero; [done|lia]). split.
  - split; simpl.
    + apply R_set_pmem; [apply mem_wf_wr32, mem_wf_memset, HR|].
      apply R_set_pmem; [apply mem_wf_memset, HR|done].
    + done.
    + intros d' vp e Hl Hnz Hvp. destruct (Hp d' vp e Hl Hnz Hvp) as (?&?&?).
      split_and!; [done| |done]. simpl. rewrite lookup_insert_ne; [done|].
      intros ->. pose proof (maps_pos _ _ _ _ Hl Hvp). lia.
    + intros g r [[<- _]|[Hne Hl]]%add_tab_role; [|by eapply Ht].
      unfold Pool.upd. by rewrite decide_True.
  - intros a Hne Ha. simpl. rewrite rd8_wr32_frame by (done || congruence).
    by apply rd8_memset_frame.
Qed.

(** At most one frame is taken, and none when the page table exists. *)
Definition table_cost G (d va : Z) p p' : Prop :=
  (length (Pool.free p) ≤ S (length (Pool.free p')))%nat ∧
  ((∃ f, slot G d va f) → Pool.free p' = Pool.free p).

(** walkpgdir(.., 1): the slot exists afterwards, or memory has run out. *)
Lemma walk_alloc k p G d va :
  Inv0 kend k p G → Bal p G → is_dir G d → is_u32 va →
  wp (walkpgdir d va true) k (λ r k', ∃ p' G',
    Inv0 kend k' p' G' ∧ Bal p' G' ∧ grow k p G k' p' G' ∧ ptes G' = ptes G ∧
    (∀ f, extra p' G' f = extra p G f) ∧ table_cost G d va p p' ∧
    (r = 0 ∧ Pool.free p = [] ∧ Pool.free p' = [] ∨
     ∃ f, slot G' d va f ∧ r = kva f + 4 * PTX va ∧ good_page kend f)).
Proof.
  intros HI HB Hd Hva. pose proof (i_enc _ _ _ _ HI) as He.
  destruct (slot_dec _ _ _ _ He Hd Hva) as [[f Hs]|Hn].
  { unfold wp. erewrite walk_slot by done. exists p, G.
    split_and!; try done; [by split; [lia|]|]. right. exists f. split_and!; [done..|].
    by eapply enc_good. }
  pose proof (enc_pde _ _ _ He d (PDX va) Hd (PDX_range _ Hva) Hn) as Hw.
  unfold walkpgdir. apply wp_bind. unfold wp at 1. erewrite dir_pde by done.
  rewrite Hw. change (has 0 PTE_P) with false. cbv iota. simpl negb. cbv iota.
  apply wp_bind. eapply wp_mono; [|by apply (kalloc_vm k p G)].
  intros v k1 (Hm1&[(->&Hfree&HI1)|(f&l&->&Hfree&Hg&Hc&Hr&Hmp&Hl&HI1)]).
  - simpl. exists p, G. split_and!; try done; [|by split; [lia|]|by left].
    split; try done. intros a Ha. by rewrite Hm1.
  - rewrite (kva_nonzero kend) by done. apply wp_assoc.
    eapply wp_mono; [|by eapply Inv0_add_tab]. intros [] k2 [HI2 Hdata].
    apply wp_ret. eexists _, _. refine (conj HI2 _).
    assert (Hx : ∀ g, extra {| Pool.free := l; Pool.count := Pool.upd (Pool.count p) f 1 |}
       (add_tab G f d (PDX va)) g = extra p G g).
    { intros g. rewrite extra_add_tab, extra_alloc by done. case_decide; lia. }
    split; [intros g; rewrite Hx; apply HB|].
    split; [split|split; [done|split; [done|split]]].
    + intros a [Hna Hra]. rewrite Hfree in Hna. apply not_elem_of_cons in Hna as [Hne Hna].
      split; [split; [done|]|rewrite Hdata by done; by rewrite Hm1].
      simpl. by rewrite lookup_insert_ne by done.
    + intros g r Hgr. apply add_tab_role. right. split; [congruence|done].
    + intros g Hgc. simpl. unfold Pool.upd. rewrite decide_False by congruence. done.
    + done.
    + split; simpl; [rewrite Hfree; simpl; lia|]. intros [g Hs]. by destruct (Hn g).
    + right. exists f. split_and!; [apply add_tab_role; by left|done..].
Qed.

(** ** Mapping pages *)

(** One iteration of the loop of mappages, up to the test for the last page. *)
Definition map_body {A} (d va e : Z) (no_mem : A) (m : K kmem A) : K kmem A :=
  walkpgdir d va true ≫= λ pte,
  if pte =? 0 then mret no_mem else
  load32 pte ≫= λ x,
  if has x PTE_P then panic "remap" else
  store32 pte e ≫= λ _, m.

Lemma map_step {A} k p G d va e (no_mem : A) (m : K kmem A) (Q : A → kmem → Prop) :
  Inv0 kend k p G → Bal p G → is_dir G d → is_u32 va →
  has (pte_at G d (va / 4096)) PTE_P = false →
  is_u32 e → pte_ok kend p G (va / 4096) e →
  (va / 4096 < UPAGES → Pool.count p (e / 4096) ≠ 0) →
  (∀ k' p' G', Inv0 kend k' p' G' → Bal p' G' → grow k p G k' p' G' → ptes G' = ptes G →
     (∀ f, extra p' G' f = extra p G f) → table_cost G d va p p' →
     Pool.free p = [] → Pool.free p' = [] → Q no_mem k') →
  (∀ k' p' G', Inv0 kend k' p' G' → grow k p G k' p' G' → table_cost G d va p p' →
     (∃ f, slot G' d va f) →
     ptes G' = ptes (set_pte G d (va / 4096) e) →
     (∀ f, extra p' G' f = extra p G f + contrib (va / 4096) (pte_at G d (va / 4096)) f
                                       - contrib (va / 4096) e f) →
     wp m k' Q) →
  wp (map_body d va e no_mem m) k Q.
Proof.
  intros HI HB Hd Hva Hnp He Hok Hc Hfail Hsucc. apply wp_bind.
  eapply wp_mono; [|by apply (walk_alloc k p G d va)].
  intros r k1 (p1&G1&HI1&HB1&Hg&Hpt&Hx&Hcost&[(->&Hfree&Hfree')|(f&Hs&->&Hgf)]).
  - simpl. by eapply Hfail.
  - rewrite slot_pte_nonzero by done. apply wp_bind. unfold wp at 1.
    erewrite load_slot by done. unfold pte_at. rewrite Hpt.
    change (default 0 (ptes G !! (d, va / 4096))) with (pte_at G d (va / 4096)).
    rewrite Hnp. apply wp_bind. eapply wp_mono; [|eapply store_slot; [done..|]].
    2:{ eapply grow_pte_ok; [apply HI|done..]. }
    intros [] k2 [HI2 Hdata]. eapply Hsucc; [done| |done|by exists f| |].
    + by eapply grow_set_pte.
    + unfold set_pte; simpl. by rewrite Hpt.
    + intros g. erewrite extra_set_pte by apply HI1. rewrite Hx.
      unfold pte_at. by rewrite Hpt.
Qed.

Lemma mappages_one d va pa perm :
  is_u32 va → va mod 4096 = 0 →
  mappages d va PGSIZE pa perm = map_body d va (Z.lor (Z.lor pa perm) PTE_P) (-1) (mret 0).
Proof.
  intros Hva Hal. unfold mappages, is_u32 in *.
  assert (H1 : PGROUNDDOWN va = va) by (rewrite PGROUNDDOWN_eq; zlia).
  assert (H2 : PGROUNDDOWN (u32 (va + PGSIZE - 1)) = va).
  { rewrite u32_small by (unfold is_u32, PGSIZE; zlia).
    rewrite PGROUNDDOWN_eq. unfold PGSIZE. zlia. }
  rewrite H1, H2, Z.sub_diag. change (Z.to_nat (u32 0 / PGSIZE + 1)) with 1%nat.
  unfold mappages_loop, map_body. by rewrite Z.eqb_refl.
Qed.

Lemma contrib_kernel vp e f : UPAGES ≤ vp → contrib vp e f = 0.
Proof. intros. unfold contrib. rewrite decide_False by lia. done. Qed.

Lemma set_pte_lookup G d vp e d' vp' :
  e ≠ 0 → ptes (set_pte G d vp e) !! (d', vp') =
    if decide (d' = d ∧ vp' = vp) then Some e else ptes G !! (d', vp').
Proof.
  intros He. simpl. rewrite (proj2 (Z.eqb_neq e 0) He), lookup_insert.
  repeat case_decide; naive_solver.
Qed.

Lemma lor_P_nonzero x : Z.lor x PTE_P ≠ 0.
Proof. intros H%Z.lor_eq_0_iff. by destruct H. Qed.

Lemma mappages_loop_S n d a last pa perm :
  mappages_loop (S n) d a last pa perm =
  map_body d a (Z.lor (Z.lor pa perm) PTE_P) (-1)
    (if a =? last then mret 0 else
     mappages_loop n d (u32 (a + PGSIZE)) last (u32 (pa + PGSIZE)) perm).
Proof. done. Qed.

(** A range costs at most a frame for each page table it touches. *)
Definition range_cost G (d vp : Z) (n : nat) p p' : Prop :=
  Z.of_nat (length (Pool.free p)) ≤ Z.of_nat (length (Pool.free p')) +
    ((vp + Z.of_nat n) / 1024 - vp / 1024) + 1 ∧
  ((∃ f, slot G d (vp * 4096) f) →
   Z.of_nat (length (Pool.free p)) ≤ Z.of_nat (length (Pool.free p')) +
    ((vp + Z.of_nat n) / 1024 - vp / 1024)).

Lemma range_cost_one G d vp n p p' :
  table_cost G d (vp * 4096) p p' → range_cost G d vp n p p'.
Proof.
  intros [H1 H2]. split; [zlia|]. intros H%H2. rewrite H. zlia.
Qed.
Lemma range_cost_step G G1 d vp n p p1 p2 :
  is_u32 (vp * 4096) → is_u32 ((vp + 1) * 4096) → (∃ f, slot G1 d (vp * 4096) f) →
  table_cost G d (vp * 4096) p p1 → range_cost G1 d (vp + 1) n p1 p2 →
  range_cost G d vp (S n) p p2.
Proof.
  intros Hu Hu' [f Hs] [H1 H2] [H3 H4].
  assert (Hsame : vp / 1024 = (vp + 1) / 1024 → ∃ f, slot G1 d ((vp + 1) * 4096) f).
  { intros Heq. exists f. unfold slot in *. rewrite PDX_vp, Z.div_mul in * by (done || lia).
    by rewrite <- Heq. }
  unfold range_cost. replace (vp + Z.of_nat (S n)) with (vp + 1 + Z.of_nat n) by lia.
  destruct (Z.eq_dec (vp / 1024) ((vp + 1) / 1024)) as [Heq|Hne].
  - specialize (H4 (Hsame Heq)). rewrite Heq. split; [lia|]. intros H%H2. rewrite <- H. lia.
  - assert ((vp + 1) / 1024 = vp / 1024 + 1) by zlia. split; [lia|].
    intros Hf%H2. rewrite <- Hf. lia.
Qed.

(** The loop of mappages on [n] pages of the kernel half. *)
Lemma mappages_loop_kernel fuel k p G d vp n pa perm :
  Inv0 kend k p G → Bal p G → is_dir G d →
  (fuel = S n)%nat → UPAGES ≤ vp → vp + Z.of_nat fuel ≤ 1048576 →
  0 ≤ pa → pa + Z.of_nat fuel * 4096 ≤ 4294967296 → 0 ≤ perm < 4096 →
  (∀ v, vp ≤ v < vp + Z.of_nat fuel → has (pte_at G d v) PTE_P = false) →
  wp (mappages_loop fuel d (vp * 4096) ((vp + Z.of_nat n) * 4096) pa perm) k (λ r k',
    ∃ p' G', Inv0 kend k' p' G' ∧ Bal p' G' ∧ grow k p G k' p' G' ∧
      (∀ f, extra p' G' f = extra p G f) ∧
      (∀ d' v, d' ≠ d ∨ ¬ (vp ≤ v < vp + Z.of_nat fuel) →
         ptes G' !! (d', v) = ptes G !! (d', v)) ∧
      range_cost G d vp n p p' ∧
      (r = -1 ∧ Pool.free p' = [] ∨
       r = 0 ∧ ∀ v, vp ≤ v < vp + Z.of_nat fuel →
         ptes G' !! (d, v) = Some (Z.lor (Z.lor (pa + (v - vp) * 4096) perm) PTE_P))).
Proof.
  revert fuel k p G vp pa. induction n as [|n IH];
    intros fuel k p G vp pa HI HB Hd -> Hvp Hend Hpa Hpae Hperm Hnp.
  all: assert (Hu : UPAGES = 524288) by done.
  all: assert (Hdiv : vp * 4096 / 4096 = vp) by (by rewrite Z.div_mul).
  all: assert (Hva : is_u32 (vp * 4096)) by (unfold is_u32; lia).
  all: assert (He : is_u32 (Z.lor (Z.lor pa perm) PTE_P))
         by (apply set_u32; [done|]; apply set_u32; [done|]; unfold is_u32; lia).
  all: rewrite mappages_loop_S; eapply (map_step k p G d (vp * 4096)
         (Z.lor (Z.lor pa perm) PTE_P) (-1));
       rewrite ?Hdiv; try done; try lia; [by apply Hnp; lia|intros ??; lia| |].
  all: try (intros k' p' G' HI' HB' Hg Hpt Hx Hcost _ Hfree; exists p', G'; split_and!; try done;
       [intros; by rewrite Hpt|by apply range_cost_one|by left]).
  - intros k' p' G' HI' Hg Hcost Hslot Hpt Hx.
    rewrite Z.add_0_r, Z.eqb_refl. apply wp_ret. exists p', G'.
    assert (Hx' : ∀ f, extra p' G' f = extra p G f)
      by (intros f; rewrite Hx, !contrib_kernel by lia; lia).
    split_and!; try done.
    + intros f. rewrite Hx'. apply HB.
    + intros d' v Hdv. rewrite Hpt, set_pte_lookup by apply lor_P_nonzero.
      rewrite decide_False by lia. done.
    + by apply range_cost_one.
    + right. split; [done|]. intros v Hv.
      rewrite Hpt, set_pte_lookup, decide_True by (apply lor_P_nonzero || lia).
      by replace (pa + (v - vp) * 4096) with pa by lia.
  - intros k' p' G' HI' Hg Hcost Hslot Hpt Hx.
    assert (Hx' : ∀ f, extra p' G' f = extra p G f)
      by (intros f; rewrite Hx, !contrib_kernel by lia; lia).
    rewrite (proj2 (Z.eqb_neq _ _)) by lia.
    replace (u32 (vp * 4096 + PGSIZE)) with ((vp + 1) * 4096)
      by (rewrite u32_small; unfold is_u32, PGSIZE; lia).
    rewrite (u32_small (pa + PGSIZE)) by (unfold is_u32, PGSIZE; lia).
    replace ((vp + Z.of_nat (S n)) * 4096) with ((vp + 1 + Z.of_nat n) * 4096) by lia.
    eapply wp_mono; [|apply (IH _ k' p' G')]; try done; try (unfold PGSIZE; lia).
    + intros r k2 (p2&G2&HI2&HB2&Hg2&Hx2&Hother&Hrc&Hr). exists p2, G2.
      split_and!; try done.
      * by eapply grow_trans.
      * intros f. by rewrite Hx2, Hx'.
      * intros d' v Hdv. rewrite Hother by lia.
        rewrite Hpt, set_pte_lookup by apply lor_P_nonzero. by rewrite decide_False by lia.
      * eapply range_cost_step; [done| |exact Hslot|done|done]. unfold is_u32. lia.
      * destruct Hr as [?|[-> Hr]]; [by left|right]. split; [done|]. intros v Hv.
        destruct (decide (v = vp)) as [->|Hne].
        -- rewrite Hother by lia.
           rewrite Hpt, set_pte_lookup, decide_True by (apply lor_P_nonzero || done).
           by rewrite Z.sub_diag, Z.mul_0_l, Z.add_0_r.
        -- rewrite Hr by lia. unfold PGSIZE. do 3 f_equal. lia.
    + intros f. rewrite Hx'. apply HB.
    + by eapply grow_is_dir.
    + intros v Hv. unfold pte_at. rewrite Hpt, set_pte_lookup by apply lor_P_nonzero.
      rewrite decide_False by lia. apply Hnp. lia.
Qed.

(** ** Dropping references *)

Context (Hkend : KERNBASE < kend).

Lemma good_nonzero f : good_page kend f → 1 ≤ f.
Proof. unfold good_page, PGSIZE. intros [? ?]. unfold KERNBASE in *. lia. Qed.

Lemma count_nonneg k p f : R kend k p → 0 ≤ Pool.count p f < 4294967296.
Proof. intros HR. apply (R_u32 _ _ _ HR). Qed.

Lemma frame_P2V e : is_u32 e → P2V (PTE_ADDR e) = kva (e / 4096).
Proof. intros. by rewrite PTE_ADDR_eq. Qed.

Definition drop_count (p : Pool.pool) (f : Z) : Z → Z :=
  Pool.upd (Pool.count p) f (Pool.count p f - 1).

Lemma drop_ref_spec k p G f :
  R kend k p → enc kend (pmem k) G → good_page kend f → roles G !! f = None →
  1 ≤ Pool.count p f →
  wp (drop_ref kend (kva f)) k (λ _ k', ∃ p',
    R kend k' p' ∧ enc kend (pmem k') G ∧ (∀ g, Pool.count p' g = drop_count p f g) ∧
    (∀ g, g ∈ Pool.free p' ↔ g ∈ Pool.free p ∨ g = f ∧ Pool.count p f = 1) ∧
    (∀ a, frame_at a ∉ Pool.free p' → rd8 (pmem k') a = rd8 (pmem k) a)).
Proof.
  intros HR He Hg Hr Hc. pose proof (count_nonneg k p f HR) as Hu.
  assert (Hpo := page_of_kva kend f Hg). pose proof (good_bounds _ _ Hg) as Hb.
  unfold drop_ref. apply wp_bind. unfold wp at 1.
  erewrite getRefCount_refines by (done || (rewrite Hpo; apply Hg)). rewrite Hpo.
  destruct (Z.eqb_spec (Pool.count p f) 1) as [H1|H1].
  - eapply wp_mono; [|apply (kfree_refines kend k p (kva f)); rewrite ?Hpo; try done].
    + intros [] k' (HR'&Hm&_). rewrite Hpo in HR'. eexists. split_and!; [done|..].
      * rewrite Hm. by apply enc_memset.
      * intros g. simpl. unfold drop_count, Pool.upd. case_decide; lia.
      * intros g. simpl. rewrite elem_of_cons. naive_solver.
      * intros a Ha. simpl in Ha. apply not_elem_of_cons in Ha as [Ha _].
        rewrite Hm. by apply rd8_memset_frame.
    + by eapply kva_u32.
    + by apply kva_ok.
  - assert (Hnf : f ∉ Pool.free p) by (intros Hin; apply (R_free _ _ _ HR) in Hin; lia).
    eapply wp_mono; [|apply (declRefCount_refines kend k p (kva f)); rewrite ?Hpo; try done; apply Hg].
    intros [] k' (HR'&Hm&_). rewrite Hpo in HR'. eexists. split_and!; [done|..].
    + by rewrite Hm.
    + intros g. simpl. unfold drop_count, Pool.upd.
      rewrite (u32_small (Pool.count p f - 1)) by (unfold is_u32; lia). done.
    + intros g. simpl. naive_solver.
    + intros a _. by rewrite Hm.
Qed.

Lemma pte_at_Some G d vp e : pte_at G d vp = e → e ≠ 0 → ptes G !! (d, vp) = Some e.
Proof. unfold pte_at. destruct (ptes G !! (d, vp)); simpl; congruence. Qed.

(** The frame of a user entry. *)
Lemma entry_frame k p G d vp e :
  Inv0 kend k p G → Bal p G → ptes G !! (d, vp) = Some e → vp < UPAGES →
  is_u32 e ∧ e ≠ 0 ∧ good_page kend (e / 4096) ∧ roles G !! (e / 4096) = None ∧
  1 ≤ Pool.count p (e / 4096).
Proof.
  intros HI HB Hl Hvp. destruct (enc_dom _ _ _ (i_enc _ _ _ _ HI) _ _ _ Hl) as (Hu&Hnz&_).
  destruct (i_pte _ _ _ _ HI _ _ _ Hl Hnz Hvp) as (Hg&Hr&_). split_and!; try done; try apply Hu.
  specialize (HB (e / 4096)). unfold extra, tabs in HB. rewrite Hr in HB.
  pose proof (maps_pos _ _ _ _ Hl Hvp). lia.
Qed.

(** The description after the entry of [vp] was dropped: a freed frame is no
    longer shared memory. *)
Definition drop_pte_ghost (p : Pool.pool) (G : ghost) (d vp : Z) : ghost :=
  {| roles := roles G; ptes := delete (d, vp) (ptes G);
     shm := if decide (Pool.count p (pte_at G d vp / 4096) = 1)
            then shm G ∖ {[pte_at G d vp / 4096]} else shm G |}.

Lemma drop_pte_ok k p p' G d vp e d' vp' e' :
  Inv0 kend k p G → Bal p G → ptes G !! (d, vp) = Some e → vp < UPAGES →
  (∀ g, Pool.count p' g = drop_count p (e / 4096) g) →
  ptes G !! (d', vp') = Some e' → (d', vp') ≠ (d, vp) →
  pte_ok kend p' (drop_pte_ghost p G d vp) vp' e'.
Proof.
  intros HI HB Hl Hvp Hc Hl' Hne Hnz Hvp'.
  destruct (i_pte _ _ _ _ HI _ _ _ Hl' Hnz Hvp') as (Hg&Hr&HW).
  split_and!; [done..|]. intros [Hw|Hw]%HW; simpl; unfold pte_at; rewrite Hl; simpl;
    rewrite Hc; unfold drop_count, Pool.upd.
  all: destruct (decide (e / 4096 = e' / 4096)) as [Heq|Hfne].
  all: try (assert (2 ≤ maps G (e / 4096)) by (by eapply maps_two); specialize (HB (e / 4096));
            unfold extra, tabs in HB; rewrite Heq, ?Hr in *; case_decide; [lia|]).
  all: try case_decide; try lia; try (by left); right; set_solver.
Qed.

Lemma Inv0_drop_pte k k' p p' G d va f e :
  Inv0 kend k p G → Bal p G → is_u32 va → va / 4096 < UPAGES → slot G d va f →
  ptes G !! (d, va / 4096) = Some e →
  R kend k' p' → enc kend (pmem k') G → (∀ g, Pool.count p' g = drop_count p (e / 4096) g) →
  Inv0 kend (set_pmem (wr32 (pmem k') (kva f + 4 * PTX va) 0) k') p'
    (drop_pte_ghost p G d (va / 4096)).
Proof.
  intros HI HB Hva Hvp Hs Hl HR' He' Hc. split; simpl.
  - apply R_set_pmem; [apply mem_wf_wr32, HR'|done].
  - pose proof (PTX_range va) as Hj.
    pose proof (enc_set_pte kend (pmem k') G f d (PDX va) (PTX va) 0 He' Hs Hj ltac:(done)) as [].
    rewrite va_vp in * by done. by split.
  - intros d' vp' e' [Hne Hl']%lookup_delete_Some. eapply (drop_pte_ok k p p' G); try done.
  - intros g r Hg. rewrite Hc. unfold drop_count, Pool.upd.
    destruct (entry_frame _ _ _ _ _ _ HI HB Hl Hvp) as (_&_&_&Hr&_).
    rewrite decide_False by congruence. by eapply i_tab.
Qed.

Lemma extra_drop_pte k p p' G d vp e g :
  Inv0 kend k p G → ptes G !! (d, vp) = Some e → vp < UPAGES →
  (∀ g, Pool.count p' g = drop_count p (e / 4096) g) →
  extra p' (drop_pte_ghost p G d vp) g = extra p G g.
Proof.
  intros HI Hl Hvp Hc. destruct (enc_dom _ _ _ (i_enc _ _ _ _ HI) _ _ _ Hl) as (_&Hnz&_).
  pose proof (extra_set_pte p _ G d vp 0 g (i_enc _ _ _ _ HI)) as Hx.
  assert (H0 : pte_at G d vp = e) by (unfold pte_at; by rewrite Hl).
  rewrite H0, contrib_0 in Hx. unfold contrib in Hx.
  unfold extra, maps, tabs, set_pte, drop_pte_ghost in *; simpl in *.
  rewrite Hc. unfold drop_count, Pool.upd. repeat case_decide; subst; try lia; tauto.
Qed.

Lemma drop_entry {A} k p G d va f e (m : K kmem A) (Q : A → kmem → Prop) :
  Inv0 kend k p G → Bal p G → is_u32 va → va / 4096 < UPAGES → slot G d va f →
  ptes G !! (d, va / 4096) = Some e →
  (∀ k' p' G', Inv0 kend k' p' G' → Bal p' G' → shrink k p G k' p' G' →
     (∀ g, extra p' G' g = extra p G g) → ptes G' = delete (d, va / 4096) (ptes G) →
     wp m k' Q) →
  wp (drop_ref kend (P2V (PTE_ADDR e)) ≫= λ _,
      store32 (kva f + 4 * PTX va) 0 ≫= λ _, m) k Q.
Proof.
  intros HI HB Hva Hvp Hs Hl HQ.
  destruct (entry_frame _ _ _ _ _ _ HI HB Hl Hvp) as (Hu&Hnz&Hg&Hr&Hc).
  assert (Hgf := enc_good _ _ _ (i_enc _ _ _ _ HI) _ _ Hs). pose proof (PTX_range va) as Hj.
  rewrite frame_P2V by done. apply wp_bind.
  eapply wp_mono; [|apply (drop_ref_spec k p G); [apply HI..|done|done|done]].
  intros [] k1 (p1&HR1&He1&Hc1&Hf1&Hd1).
  apply wp_bind. unfold wp at 1. rewrite store32_ok by (apply kva_off_nonzero; [done|lia]).
  pose proof (Inv0_drop_pte _ _ _ _ _ _ _ _ _ HI HB Hva Hvp Hs Hl HR1 He1 Hc1) as HI'.
  assert (Hx : ∀ g, extra p1 (drop_pte_ghost p G d (va / 4096)) g = extra p G g)
    by (intros g; by eapply extra_drop_pte).
  eapply HQ; [done|intros g; rewrite Hx; apply HB| |done|done].
  assert (Hpe : pte_at G d (va / 4096) = e) by (unfold pte_at; by rewrite Hl).
  split.
  - intros a [Ha Hra] Hnf. split; [done|]. simpl.
    rewrite rd8_wr32_frame by (done || (unfold slot in Hs; congruence)). by apply Hd1.
  - intros g Hg'. apply Hf1. by left.
  - done.
  - intros g. rewrite Hc1. unfold drop_count, Pool.upd. case_decide; subst; lia.
  - simpl. case_decide; set_solver.
  - intros g Hgs Hg0. simpl. rewrite Hpe. case_decide as H1; [|done].
    rewrite Hc1 in Hg0. unfold drop_count, Pool.upd in Hg0. case_decide; [lia|set_solver].
Qed.

(** ** Changing the flags of an entry *)

Lemma same_frame_extra m p G d vp e e' g :
  enc kend m G → ptes G !! (d, vp) = Some e → e' / 4096 = e / 4096 → e' ≠ 0 →
  extra p (set_pte G d vp e') g = extra p G g.
Proof.
  intros He Hl Hf Hnz. erewrite extra_set_pte by done.
  destruct (enc_dom _ _ _ He _ _ _ Hl) as (_&Hnz'&_).
  unfold pte_at. rewrite Hl. simpl. unfold contrib. rewrite Hf.
  repeat case_decide; try lia; tauto.
Qed.

Lemma store_flags k p G d va f e e' :
  Inv0 kend k p G → is_u32 va → slot G d va f → ptes G !! (d, va / 4096) = Some e →
  is_u32 e' → e' ≠ 0 → e' / 4096 = e / 4096 →
  (has e' PTE_W = true → va / 4096 < UPAGES →
     has e PTE_W = true ∨ Pool.count p (e / 4096) = 1) →
  wp (store32 (kva f + 4 * PTX va) e') k (λ _ k',
    Inv0 kend k' p (set_pte G d (va / 4096) e') ∧
    (∀ g, extra p (set_pte G d (va / 4096) e') g = extra p G g) ∧
    grow k p G k' p (set_pte G d (va / 4096) e') ∧
    shrink k p G k' p (set_pte G d (va / 4096) e')).
Proof.
  intros HI Hva Hs Hl Hu Hnz Hf HW.
  eapply wp_mono; [|apply (store_slot k p G d va f e')]; try done.
  - intros [] k' [HI' Hdata]. split; [done|]. split; [|split; split; try done].
    + intros g. eapply same_frame_extra; try done. apply HI.
    + intros a [Ha Hr]. split; [done|]. by apply Hdata.
    + intros a [Ha Hr] _. split; [done|]. by apply Hdata.
  - intros _ Hvp. destruct (enc_dom _ _ _ (i_enc _ _ _ _ HI) _ _ _ Hl) as (_&Hnz'&_).
    destruct (i_pte _ _ _ _ HI _ _ _ Hl Hnz' Hvp) as (Hg&Hr&HW').
    rewrite Hf. split_and!; [done..|]. intros Hw. destruct (HW Hw Hvp) as [?|?]; auto.
Qed.

(** ** deallocuvm *)

(** What is left of the entry of virtual page [v] when a range that contains it
    is deallocated: only a page that is not present and not the guard page. *)
Definition swept (cp : option proc) (v : Z) (o : option Z) : option Z :=
  match o with
  | Some e => if has e PTE_P || is_guard cp (v * 4096) then None else Some e
  | None => None
  end.

Definition sweeps (G G' : ghost) (d lo hi : Z) (cp : option proc) : Prop :=
  ∀ d' u, ptes G' !! (d', u) =
    if decide (d' = d ∧ lo ≤ u < hi) then swept cp u (ptes G !! (d', u)) else ptes G !! (d', u).

Lemma lor_nonzero e f : e ≠ 0 → Z.lor e f ≠ 0.
Proof. by intros ? [? _]%Z.lor_eq_0_iff. Qed.

Lemma drop_present k p G d va f e (cp : option proc) :
  Inv0 kend k p G → Bal p G → is_u32 va → va / 4096 < UPAGES → slot G d va f →
  ptes G !! (d, va / 4096) = Some e → has e PTE_P = true →
  wp (load32 (kva f + 4 * PTX va) ≫= λ e,
      if has e PTE_P then
        let pa := PTE_ADDR e in
        if pa =? 0 then
          match cp with Some _ => panic "kfree" | None => fault "currproc" end
        else drop_ref kend (P2V pa) ≫= λ _, store32 (kva f + 4 * PTX va) 0 ≫= λ _, mret va
      else mret va) k
    (λ r k', r = va ∧ ∃ p' G', Inv0 kend k' p' G' ∧ Bal p' G' ∧ shrink k p G k' p' G' ∧
       (∀ g, extra p' G' g = extra p G g) ∧ ptes G' = delete (d, va / 4096) (ptes G)).
Proof.
  intros HI HB Hva Hvp Hs Hl HP. apply wp_bind. unfold wp at 1. erewrite load_slot by done.
  unfold pte_at. rewrite Hl. simpl default. rewrite HP.
  destruct (entry_frame _ _ _ _ _ _ HI HB Hl Hvp) as (Hu&Hnz&Hg&Hr&Hc).
  rewrite (proj2 (Z.eqb_neq (PTE_ADDR e) 0)).
  2:{ rewrite PTE_ADDR_eq. pose proof (good_nonzero _ Hg). lia. }
  eapply drop_entry; [done..|]. intros k' p' G' HI' HB' Hsh Hx Hpt. apply wp_ret.
  split; [done|]. by exists p', G'.
Qed.

Lemma is_guard_lookup cp G d v :
  (is_guard cp (v * 4096) = true → pte_at G d v ≠ 0) →
  is_guard cp (v * 4096) = true → ∃ e, ptes G !! (d, v) = Some e.
Proof.
  intros Hg H. exists (pte_at G d v). by apply pte_at_Some; [|apply Hg].
Qed.

(** The state after [deallocuvm] swept the pages from [v] to [v']. *)
Definition dealloc_post k p G d v v' cp (k' : kmem) : Prop :=
  ∃ p' G', Inv0 kend k' p' G' ∧ Bal p' G' ∧ shrink k p G k' p' G' ∧
    (∀ g, extra p' G' g = extra p G g) ∧ sweeps G G' d v v' cp.

Lemma dealloc_post_same k p G d v v' cp :
  Inv0 kend k p G → Bal p G →
  (∀ u, v ≤ u < v' → swept cp u (ptes G !! (d, u)) = ptes G !! (d, u)) →
  dealloc_post k p G d v v' cp k.
Proof.
  intros HI HB Hn. exists p, G. split_and!; try done. intros d' u.
  case_decide as Hc; [|done]. destruct Hc as [-> Hu]. by rewrite Hn.
Qed.

Lemma dealloc_post_one k p G k' p' G' d v cp e :
  Inv0 kend k' p' G' → Bal p' G' → shrink k p G k' p' G' →
  (∀ g, extra p' G' g = extra p G g) →
  ptes G !! (d, v) = Some e → has e PTE_P || is_guard cp (v * 4096) = true →
  ptes G' = delete (d, v) (ptes G) → dealloc_post k p G d v (v + 1) cp k'.
Proof.
  intros HI HB Hs Hx Hl Hsw Hpt. exists p', G'. split_and!; try done. intros d' u.
  rewrite Hpt. destruct (decide (d' = d ∧ v ≤ u < v + 1)) as [[-> Hu]|Hc].
  - replace u with v by lia. rewrite lookup_delete_eq, Hl. simpl. by rewrite Hsw.
  - apply lookup_delete_ne. intros [= -> ->]. lia.
Qed.

Lemma dealloc_post_trans k p G k1 p1 G1 d v v1 v2 cp k2 :
  v ≤ v1 ≤ v2 → shrink k p G k1 p1 G1 → (∀ g, extra p1 G1 g = extra p G g) →
  sweeps G G1 d v v1 cp → dealloc_post k1 p1 G1 d v1 v2 cp k2 →
  dealloc_post k p G d v v2 cp k2.
Proof.
  intros Hv Hs1 Hx1 Hsw1 (p2&G2&HI2&HB2&Hs2&Hx2&Hsw2).
  exists p2, G2. split_and!; try done.
  - eapply shrink_trans; try done; [apply HI2|]. intros g. by apply (count_nonneg k2), HI2.
  - intros g. by rewrite Hx2, Hx1.
  - intros d' u. rewrite Hsw2, Hsw1. repeat case_decide; try done; try lia; tauto.
Qed.

(** A range may start earlier when there are no entries in between. *)
Lemma dealloc_post_widen k p G d v v1 v2 cp k' :
  v ≤ v1 → (∀ u, v ≤ u < v1 → ptes G !! (d, u) = None) →
  dealloc_post k p G d v1 v2 cp k' → dealloc_post k p G d v v2 cp k'.
Proof.
  intros Hv Hn (p'&G'&HI&HB&Hs&Hx&Hsw). exists p', G'. split_and!; try done.
  intros d' u. rewrite Hsw. repeat case_decide; try done; try lia.
  destruct_and!. subst. by rewrite Hn by lia.
Qed.

Lemma dealloc_guard k p G d v f cp :
  Inv0 kend k p G → Bal p G → 0 ≤ v < UPAGES → slot G d (v * 4096) f →
  is_guard cp (v * 4096) = true → pte_at G d v ≠ 0 →
  wp (dealloc_page kend d (v * 4096) cp) k (λ a' k',
    a' = v * 4096 ∧ dealloc_post k p G d v (v + 1) cp k').
Proof.
  intros HI HB Hv Hs Eg Hg. assert (HU : UPAGES = 524288) by done.
  assert (Hva : is_u32 (v * 4096)) by (unfold is_u32; lia).
  assert (Hdiv : v * 4096 / 4096 = v) by (by rewrite Z.div_mul).
  pose proof (i_enc _ _ _ _ HI) as He. assert (Hgf := enc_good _ _ _ He _ _ Hs).
  destruct (is_guard_lookup cp G d v (λ _, Hg) Eg) as [e Hl].
  destruct (enc_dom _ _ _ He _ _ _ Hl) as (Hu&Hnz&_).
  unfold dealloc_page. apply wp_bind. unfold wp at 1. erewrite walk_slot by done.
  rewrite slot_pte_nonzero, Eg by done. simpl when.
  apply wp_bind, wp_bind. unfold wp at 1. erewrite load_slot by done. unfold pte_at.
  rewrite Hdiv, Hl. simpl default.
  eapply wp_mono; [|eapply (store_flags k p G d (v * 4096) f e); rewrite ?Hdiv; try done].
  2:{ by apply set_u32. } 2:{ by apply lor_nonzero. } 2:{ by apply frame_set. }
  2:{ intros HW _. left. by flags. }
  intros [] k1 (HI1&Hx1&_&Hs1). rewrite Hdiv in *.
  eapply wp_mono; [|eapply (drop_present k1 p (set_pte G d v (Z.lor e PTE_P))
                              d (v * 4096) f (Z.lor e PTE_P) cp); try done].
  - intros r k2 (->&p2&G2&HI2&HB2&Hs2&Hx2&Hpt). split; [done|].
    eapply (dealloc_post_one _ _ _ k2 p2 G2); try done.
    + eapply shrink_trans; try done; [apply HI2|]. intros g. by apply (count_nonneg k2), HI2.
    + intros g. by rewrite Hx2, Hx1.
    + by rewrite Eg, orb_true_r.
    + rewrite Hpt, Hdiv. simpl. rewrite (proj2 (Z.eqb_neq _ 0)) by (by apply lor_nonzero).
      by rewrite delete_insert_eq.
  - intros g. rewrite Hx1. apply HB.
  - lia.
  - rewrite Hdiv, set_pte_lookup, decide_True by (done || by apply lor_nonzero). done.
  - by flags.
Qed.

Lemma dealloc_plain k p G d v f cp :
  Inv0 kend k p G → Bal p G → 0 ≤ v < UPAGES → slot G d (v * 4096) f →
  is_guard cp (v * 4096) = false →
  wp (dealloc_page kend d (v * 4096) cp) k (λ a' k',
    a' = v * 4096 ∧ dealloc_post k p G d v (v + 1) cp k').
Proof.
  intros HI HB Hv Hs Eg. assert (HU : UPAGES = 524288) by done.
  assert (Hva : is_u32 (v * 4096)) by (unfold is_u32; lia).
  assert (Hdiv : v * 4096 / 4096 = v) by (by rewrite Z.div_mul).
  pose proof (i_enc _ _ _ _ HI) as He. assert (Hgf := enc_good _ _ _ He _ _ Hs).
  unfold dealloc_page. apply wp_bind. unfold wp at 1. erewrite walk_slot by done.
  rewrite slot_pte_nonzero, Eg by done. apply wp_bind, wp_ret.
  destruct (has (pte_at G d v) PTE_P) eqn:HP.
  - assert (Hnz : pte_at G d v ≠ 0) by (by intros H0; rewrite H0 in HP).
    pose proof (pte_at_Some _ _ _ _ eq_refl Hnz) as Hl.
    eapply wp_mono; [|eapply (drop_present k p G d (v * 4096) f _ cp);
             rewrite ?Hdiv; try done; lia].
    intros r k2 (->&p2&G2&HI2&HB2&Hs2&Hx2&Hpt). rewrite Hdiv in Hpt. split; [done|].
    eapply (dealloc_post_one _ _ _ k2 p2 G2); try done. by rewrite HP.
  - apply wp_bind. unfold wp at 1. erewrite load_slot by done. rewrite Hdiv, HP.
    apply wp_ret. split; [done|]. apply dealloc_post_same; [done..|].
    intros u Hu. replace u with v by lia. unfold pte_at in HP.
    destruct (ptes G !! (d, v)); [|done]. simpl in *. by rewrite HP, Eg.
Qed.

Lemma next_table a v : a = v * 4096 → 0 ≤ v < UPAGES →
  u32 (PGADDR (PDX a + 1) 0 0 - PGSIZE) = ((v / 1024 + 1) * 1024 - 1) * 4096.
Proof.
  intros -> Hv. assert (HU : UPAGES = 524288) by done.
  rewrite PDX_eq by (unfold is_u32; lia).
  replace (v * 4096 / 4194304) with (v / 1024) by zlia.
  rewrite PGADDR_eq by zlia. rewrite u32_small; unfold is_u32, PGSIZE; zlia.
Qed.

Lemma dealloc_page_spec k p G d v cp :
  Inv0 kend k p G → Bal p G → is_dir G d → 0 ≤ v < UPAGES →
  (is_guard cp (v * 4096) = true → pte_at G d v ≠ 0) →
  wp (dealloc_page kend d (v * 4096) cp) k (λ a' k', ∃ v',
    a' = v' * 4096 ∧ v ≤ v' < UPAGES ∧ dealloc_post k p G d v (v + 1) cp k' ∧
    ∀ u, v < u ≤ v' → ptes G !! (d, u) = None).
Proof.
  intros HI HB Hd Hv Hguard. pose proof (i_enc _ _ _ _ HI) as He.
  assert (HU : UPAGES = 524288) by done.
  assert (Hva : is_u32 (v * 4096)) by (unfold is_u32; lia).
  assert (Hdiv : v * 4096 / 4096 = v) by (by rewrite Z.div_mul).
  destruct (slot_dec _ _ _ _ He Hd Hva) as [[f Hs]|Hn].
  - destruct (is_guard cp (v * 4096)) eqn:Eg.
    + eapply wp_mono; [|by apply (dealloc_guard k p G d v f); auto].
      intros a' k' [-> H]. exists v. split_and!; try done; lia.
    + eapply wp_mono; [|by apply (dealloc_plain k p G d v f)].
      intros a' k' [-> H]. exists v. split_and!; try done; lia.
  - assert (Hnone : ∀ u, v / 1024 = u / 1024 → ptes G !! (d, u) = None).
    { intros u Hu. destruct (ptes G !! (d, u)) as [e|] eqn:E; [|done].
      destruct (enc_dom _ _ _ He _ _ _ E) as (_&_&_&f&Hf).
      destruct (Hn f). unfold slot. by rewrite PDX_vp, Hdiv, Hu. }
    unfold dealloc_page. apply wp_bind. unfold wp at 1. erewrite walk_none by done.
    destruct (is_guard cp (v * 4096)) eqn:Eg.
    { destruct Hguard; [done|]. unfold pte_at. by rewrite Hnone. }
    simpl when. apply wp_bind, wp_ret. simpl. rewrite (next_table _ v) by done.
    exists ((v / 1024 + 1) * 1024 - 1). split_and!; [done|zlia|zlia| |].
    + apply dealloc_post_same; [done..|]. intros u Hu. rewrite Hnone by zlia. done.
    + intros u Hu. apply Hnone. zlia.
Qed.

Lemma dealloc_loop_spec fuel k p G d v oldsz cp :
  Inv0 kend k p G → Bal p G → is_dir G d → 0 ≤ v → oldsz ≤ KERNBASE →
  (oldsz + 4095) / 4096 - v ≤ Z.of_nat fuel →
  (∀ u, v ≤ u < (oldsz + 4095) / 4096 → is_guard cp (u * 4096) = true → pte_at G d u ≠ 0) →
  wp (dealloc_loop kend fuel d (v * 4096) oldsz cp) k (λ _ k',
    dealloc_post k p G d v ((oldsz + 4095) / 4096) cp k').
Proof.
  unfold KERNBASE. assert (HU : UPAGES = 524288) by done.
  set (hi := (oldsz + 4095) / 4096). assert (Hhi : hi * 4096 < oldsz + 4096 ∧ oldsz ≤ hi * 4096)
    by (unfold hi; zlia). clearbody hi.
  revert k p G v. induction fuel as [|n IH]; intros k p G v HI HB Hd Hv Hold Hf Hg.
  - simpl. rewrite (proj2 (Z.ltb_ge _ _)) by lia. apply wp_ret.
    apply dealloc_post_same; [done..|]. intros u Hu. lia.
  - simpl. destruct (Z.ltb_spec (v * 4096) oldsz) as [Hlt|Hge].
    2:{ apply wp_ret. apply dealloc_post_same; [done..|]. intros u Hu. lia. }
    apply wp_bind. eapply wp_mono; [|apply (dealloc_page_spec k p G d v cp); try done; try lia].
    2:{ apply Hg. lia. }
    intros a' k1 (v'&->&Hv'&Hpost&Hnone).
    replace (u32 (v' * 4096 + PGSIZE)) with ((v' + 1) * 4096)
      by (rewrite u32_small; unfold is_u32, PGSIZE; lia).
    pose proof Hpost as (p1&G1&HI1&HB1&Hs1&Hx1&Hsw1).
    eapply wp_mono; [|apply (IH k1 p1 G1); try done; try lia].
    + intros [] k2 Hpost2.
      eapply (dealloc_post_trans _ _ _ k1 p1 G1 _ v (v + 1) hi); [lia|done..|].
      apply (dealloc_post_widen _ _ _ _ _ (v' + 1)); [lia| |done].
      intros u Hu. rewrite Hsw1, decide_False by lia. apply Hnone. lia.
    + by apply (shrink_is_dir _ _ _ _ _ _ _ Hs1).
    + intros u Hu HG. unfold pte_at. rewrite Hsw1, decide_False by lia.
      apply Hg; [lia|done].
Qed.

Lemma deallocuvm_spec k p G d oldsz newsz cp :
  Inv0 kend k p G → Bal p G → is_dir G d → 0 ≤ newsz < oldsz → oldsz ≤ KERNBASE →
  (∀ u, (newsz + 4095) / 4096 ≤ u < (oldsz + 4095) / 4096 →
     is_guard cp (u * 4096) = true → pte_at G d u ≠ 0) →
  wp (deallocuvm kend d oldsz newsz cp) k (λ r k', r = newsz ∧
    dealloc_post k p G d ((newsz + 4095) / 4096) ((oldsz + 4095) / 4096) cp k').
Proof.
  intros HI HB Hd Hsz Hold Hg. unfold deallocuvm. unfold KERNBASE in Hold.
  rewrite (proj2 (Z.leb_gt _ _)) by lia. rewrite PGROUNDUP_small by lia.
  apply wp_bind. eapply wp_mono; [|apply dealloc_loop_spec; try done].
  - intros [] k' H. by apply wp_ret.
  - zlia.
  - unfold upto_fuel, PGSIZE. rewrite Z2Nat.id by zlia. zlia.
Qed.

(** ** freevm *)

Lemma maps_drop_dir G d f : maps (drop_dir G d) f ≤ maps G f.
Proof.
  unfold maps. simpl. apply inj_le.
  rewrite map_filter_comm. apply map_subseteq_size, map_filter_subseteq.
Qed.

Lemma Inv0_drop_dir k p G d :
  Inv0 kend k p G → is_dir G d → Inv0 kend k p (drop_dir G d).
Proof.
  intros [HR He Hp Ht] Hd. split; [done|by apply enc_drop_dir| |].
  - intros d' vp e [Hl Hne]%map_lookup_filter_Some Hnz Hvp.
    destruct (Hp d' vp e Hl Hnz Hvp) as (?&Hr&?). split_and!; [done| |done].
    destruct (roles (drop_dir G d) !! (e / 4096)) eqn:E; [|done].
    apply drop_role in E as [E _]. congruence.
  - intros f r [Hf _]%drop_role. by eapply Ht.
Qed.

Lemma Bal_drop_dir p G d : Bal p G → Bal p (drop_dir G d).
Proof.
  intros HB f. specialize (HB f). pose proof (maps_drop_dir G d f).
  unfold extra, tabs in *. destruct (roles (drop_dir G d) !! f) eqn:E.
  - apply drop_role in E as [E _]. rewrite E in HB. lia.
  - destruct (roles G !! f); lia.
Qed.

(** The page tables of [d] in slots below [n]. *)
Definition tab_below G (d n f : Z) : bool :=
  match roles G !! f with
  | Some (RTab d' j) => bool_decide (d' = d ∧ j < n)
  | _ => false
  end.

Lemma tab_below_slot m G d n f :
  enc kend m G → roles G !! f = Some (RTab d n) →
  ∀ g, tab_below G d (n + 1) g = tab_below G d n g || bool_decide (g = f).
Proof.
  intros He Hr g. unfold tab_below. case_bool_decide as Hgf.
  - subst g. rewrite Hr, bool_decide_eq_true_2 by lia. by rewrite orb_true_r.
  - rewrite orb_false_r. destruct (roles G !! g) as [[|d' j]|] eqn:E; try done.
    apply bool_decide_ext. split; [|lia]. intros [-> Hj]. split; [done|].
    assert (j ≠ n); [|lia]. intros ->. apply Hgf. by eapply enc_tab_inj.
Qed.
Lemma tab_below_none G d n :
  (∀ f, roles G !! f ≠ Some (RTab d n)) →
  ∀ g, tab_below G d (n + 1) g = tab_below G d n g.
Proof.
  intros Hn g. unfold tab_below. destruct (roles G !! g) as [[|d' j]|] eqn:E; try done.
  apply bool_decide_ext. split; [|lia]. intros [-> Hj]. split; [done|].
  assert (j ≠ n); [|lia]. intros ->. by apply Hn in E.
Qed.

Definition free_tabs_inv k1 p1 G (d n : Z) (k : kmem) : Prop :=
  ∃ p, Inv0 kend k p (drop_dir G d) ∧
    (∀ f, Pool.count p f = if tab_below G d n f then 0 else Pool.count p1 f) ∧
    (∀ f, f ∈ Pool.free p ↔ f ∈ Pool.free p1 ∨ tab_below G d n f = true) ∧
    (∀ a, frame_at a ∉ Pool.free p → rd8 (pmem k) a = rd8 (pmem k1) a).

Lemma free_tab_step k1 p1 G d n k :
  Inv0 kend k1 p1 G → Bal p1 G → is_dir G d → 0 ≤ n < 1024 →
  free_tabs_inv k1 p1 G d n k →
  wp (load32 (d + 4 * n) ≫= λ e, when (has e PTE_P) (drop_ref kend (P2V (PTE_ADDR e)))) k
    (λ _ k', free_tabs_inv k1 p1 G d (n + 1) k').
Proof.
  intros HI1 HB1 Hd Hn (p&HI&Hc&Hf&Hdata). pose proof (i_enc _ _ _ _ HI1) as He1.
  pose proof Hd as (fd&Hfd&Hrd). assert (Hgd := enc_good _ _ _ He1 _ _ Hrd).
  assert (Hw : rd32 (pmem k) (d + 4 * n) = rd32 (pmem k1) (d + 4 * n)).
  { subst d. apply same_page_word; [|done]. intros o Ho. apply Hdata.
    rewrite (frame_at_kva kend) by done. rewrite Hf. unfold tab_below. rewrite Hrd.
    intros [Hin|]; [|done]. apply (R_free _ _ _ (i_R _ _ _ _ HI1)) in Hin.
    rewrite (i_tab _ _ _ _ HI1 _ _ Hrd) in Hin. lia. }
  apply wp_bind. unfold wp at 1.
  rewrite load32_ok by (subst d; apply kva_off_nonzero; [done|lia]). rewrite Hw.
  destruct (enc_slot _ _ _ _ _ He1 Hd Hn) as [(f&Hr&->)|[Hnone ->]].
  - assert (Hg := enc_good _ _ _ He1 _ _ Hr).
    destruct (pde_value f (good_bounds _ _ Hg)) as [-> ->]. simpl when.
    assert (Hr' : roles (drop_dir G d) !! f = None).
    { destruct (roles (drop_dir G d) !! f) eqn:E; [|done]. apply drop_role in E as [E Hno].
      assert (r = RTab d n) as -> by congruence. by destruct Hno. }
    assert (Hbelow : tab_below G d n f = false).
    { unfold tab_below. rewrite Hr. apply bool_decide_eq_false_2. lia. }
    assert (Hcf : Pool.count p f = 1) by (rewrite Hc, Hbelow; by eapply i_tab).
    pose proof (tab_below_slot _ _ _ _ _ He1 Hr) as Hnew.
    eapply wp_mono; [|apply (drop_ref_spec k p (drop_dir G d) f); [apply HI..|done|done|lia]].
    intros [] k' (p'&HR'&He'&Hc'&Hf'&Hd'). exists p'. split_and!.
    + eapply (Inv0_count k k' p p'); [done..| |].
      * intros g Hgf. rewrite Hc'. unfold drop_count, Pool.upd. by rewrite decide_False.
      * intros d' vp e Hl Hvp Heq _. exfalso. subst f. pose proof (maps_pos _ _ _ _ Hl Hvp).
        pose proof (maps_drop_dir G d (e / 4096)). specialize (HB1 (e / 4096)).
        rewrite Hc, Hbelow in Hcf. unfold extra, tabs in HB1. rewrite Hr in HB1. lia.
    + intros g. rewrite Hc', Hnew. unfold drop_count, Pool.upd.
      destruct (decide (f = g)) as [<-|].
      * rewrite bool_decide_eq_true_2, orb_true_r by done. lia.
      * rewrite bool_decide_eq_false_2, orb_false_r by done. apply Hc.
    + intros g. rewrite Hf', Hf, Hnew, orb_true_iff, bool_decide_eq_true. naive_solver.
    + intros a Ha. rewrite Hd' by done. apply Hdata. rewrite Hf' in Ha. tauto.
  - change (has 0 PTE_P) with false. apply wp_ret. exists p.
    pose proof (tab_below_none _ _ _ Hnone) as Hnew.
    split_and!; [done|..]; intros g; rewrite ?Hnew; auto.
Qed.

(** The user entries of directory [d] that name [f]. *)
Definition left_of G (d f : Z) : Z :=
  Z.of_nat (size (filter (λ x, x.1.1 = d ∧ counted f x) (ptes G))).

Lemma maps_split G d f : maps G f = maps (drop_dir G d) f + left_of G d f.
Proof.
  unfold maps, left_of. simpl. rewrite map_filter_filter, <- Nat2Z.inj_add. f_equal.
  set (P := λ x : (Z * Z) * Z, x.1.1 = d). set (m := filter (counted f) (ptes G)).
  transitivity (size (filter P m ∪ filter (λ x, ¬ P x) m)).
  { by rewrite map_filter_union_complement. }
  rewrite map_size_disj_union by apply map_disjoint_filter_complement.
  rewrite Nat.add_comm. unfold m. rewrite !map_filter_filter. f_equal; f_equal;
    apply map_filter_ext; naive_solver.
Qed.

Definition freevm_post k p G d cp (k' : kmem) : Prop :=
  ∃ p' G1 G', Inv0 kend k' p' G' ∧ Bal p' G' ∧ sweeps G G1 d 0 UPAGES cp ∧
    roles G' = filter (λ x, ¬ of_dir d x.1 x.2) (roles G) ∧
    (∀ d' u, d' ≠ d → ptes G' !! (d', u) = ptes G !! (d', u)) ∧
    (∀ u, ptes G' !! (d, u) = None) ∧
    (∀ f, extra p' G' f = extra p G f + left_of G1 d f) ∧
    (∀ a, stable p G a → frame_at a ∉ Pool.free p' →
       stable p' G' a ∧ rd8 (pmem k') a = rd8 (pmem k) a) ∧
    shm G' ⊆ shm G ∧ (∀ f, f ∈ shm G → Pool.count p' f ≠ 0 → f ∈ shm G').

Lemma free_tabs_all k p G d :
  Inv0 kend k p G → Bal p G → is_dir G d →
  wp (for_each (seqZ 0 NPDENTRIES) (λ i,
        load32 (d + 4 * i) ≫= λ e,
        when (has e PTE_P) (drop_ref kend (P2V (PTE_ADDR e))))) k
    (λ _ k', free_tabs_inv k p G d 1024 k').
Proof.
  intros HI HB Hd.
  eapply wp_mono; [|apply (wp_for_each _
    (λ pr k', free_tabs_inv k p G d (Z.of_nat (length pr)) k') (seqZ 0 NPDENTRIES) [])].
  - intros [] k'. cbv beta. by rewrite app_nil_l, length_seqZ.
  - exists p. assert (Hno : ∀ f, tab_below G d 0 f = false).
    { intros f. unfold tab_below. destruct (roles G !! f) as [[|d' j]|] eqn:E; try done.
      apply bool_decide_eq_false_2. intros [-> Hj].
      destruct (enc_tab _ _ _ (i_enc _ _ _ _ HI) _ _ _ E) as (_&?&_). lia. }
    split_and!; [by apply Inv0_drop_dir|..]; intros f; rewrite ?Hno; naive_solver.
  - intros pr x q s Heq Hinv. rewrite app_nil_l in Heq.
    assert (Hx : seqZ 0 NPDENTRIES !! length pr = Some x)
      by (rewrite Heq; by rewrite lookup_app_r, Nat.sub_diag by done).
    apply lookup_seqZ in Hx as [-> Hx]. rewrite Z.add_0_l. unfold NPDENTRIES in Hx.
    rewrite length_app, Nat2Z.inj_add. simpl. apply (free_tab_step k p G d); [done..|lia|done].
Qed.

(** The last step: the directory itself. *)
Lemma free_dir k1 p1 G d k :
  Inv0 kend k1 p1 G → Bal p1 G → is_dir G d → free_tabs_inv k1 p1 G d 1024 k →
  wp (kfree kend d) k (λ _ k', ∃ p', Inv0 kend k' p' (drop_dir G d) ∧
    (∀ f, Pool.count p' f = match roles G !! f with
                            | Some r => if decide (of_dir d f r) then 0 else 1
                            | None => Pool.count p1 f end) ∧
    (∀ f, f ∈ Pool.free p1 → f ∈ Pool.free p') ∧
    (∀ a, frame_at a ∉ Pool.free p' → rd8 (pmem k') a = rd8 (pmem k1) a)).
Proof.
  intros HI1 HB1 Hd (p&HI&Hc&Hf&Hdata). pose proof Hd as (fd&->&Hrd).
  assert (Hgd := enc_good _ _ _ (i_enc _ _ _ _ HI1) _ _ Hrd).
  assert (Hpo := page_of_kva kend fd Hgd).
  assert (Hr0 : roles (drop_dir G (kva fd)) !! fd = None).
  { destruct (roles (drop_dir G (kva fd)) !! fd) eqn:E; [|done].
    apply drop_role in E as [E Hno]. assert (r = RDir) as -> by congruence. by destruct Hno. }
  assert (Hone : Pool.count p fd = 1).
  { rewrite Hc. unfold tab_below. rewrite Hrd. by eapply i_tab. }
  eapply wp_mono; [|apply (kfree_refines kend k p (kva fd)); rewrite ?Hpo; try done].
  2:{ apply HI. } 2:{ by eapply kva_u32. } 2:{ by apply kva_ok. }
  intros [] k' (HR'&Hm&_). rewrite Hpo in HR'. eexists. split_and!.
  - eapply (Inv0_count k k' p); [done|done| |exact Hr0| |].
    + rewrite Hm. apply enc_memset; [apply HI|done..].
    + intros g Hg. simpl. unfold Pool.upd. by rewrite decide_False.
    + intros d' vp e Hl Hvp Heq _. exfalso. subst fd. pose proof (maps_pos _ _ _ _ Hl Hvp).
      pose proof (maps_drop_dir G (kva (e / 4096)) (e / 4096)). specialize (HB1 (e / 4096)).
      unfold extra, tabs in HB1. rewrite Hrd, (i_tab _ _ _ _ HI1 _ _ Hrd) in HB1. lia.
  - intros f. simpl. unfold Pool.upd. destruct (decide (fd = f)) as [<-|Hne].
    + rewrite Hrd. simpl. by rewrite decide_True.
    + rewrite Hc. unfold tab_below. destruct (roles G !! f) as [[|d' j]|] eqn:E; [| |done].
      * rewrite (i_tab _ _ _ _ HI1 _ _ E). simpl. rewrite decide_False; [done|].
        intros Heq. apply Hne. eapply (kva_inj kend); [done| |done]. by eapply enc_good; [apply HI1|].
      * simpl. destruct (enc_tab _ _ _ (i_enc _ _ _ _ HI1) _ _ _ E) as (_&Hj&_).
        rewrite (i_tab _ _ _ _ HI1 _ _ E). destruct (decide (d' = kva fd)) as [->|].
        -- by rewrite bool_decide_eq_true_2 by lia.
        -- by rewrite bool_decide_eq_false_2 by naive_solver.
  - intros f Hin. simpl. right. apply Hf. by left.
  - intros a Ha. simpl in Ha. apply not_elem_of_cons in Ha as [Hne Ha].
    rewrite Hm, rd8_memset_frame by done. by apply Hdata.
Qed.

Lemma freevm_spec k p G d cp :
  Inv0 kend k p G → Bal p G → is_dir G d →
  (∀ u, 0 ≤ u < UPAGES → is_guard cp (u * 4096) = true → pte_at G d u ≠ 0) →
  wp (freevm kend d cp) k (λ _ k', freevm_post k p G d cp k').
Proof.
  intros HI HB Hd Hg. unfold freevm.
  assert (d ≠ 0) as Hd0%Z.eqb_neq.
  { destruct Hd as (fd&->&Hrd). apply Z.eqb_neq, (kva_nonzero kend).
    by eapply enc_good; [apply HI|]. }
  rewrite Hd0. apply wp_bind.
  eapply wp_mono; [|apply (deallocuvm_spec k p G d KERNBASE 0 cp); try done].
  intros r k1 (->&p1&G1&HI1&HB1&Hs1&Hx1&Hsw1).
  assert (Hd1 : is_dir G1 d) by (by apply (shrink_is_dir _ _ _ _ _ _ _ Hs1)).
  apply wp_bind. eapply wp_mono; [|by apply (free_tabs_all k1 p1 G1 d)].
  intros [] k2 Hinv. eapply wp_mono; [|by apply (free_dir k1 p1 G1 d k2)].
  intros [] k3 (p3&HI3&Hc3&Hf3&Hd3). exists p3, G1, (drop_dir G1 d).
  assert (Hx : ∀ f, extra p3 (drop_dir G1 d) f = extra p G f + left_of G1 d f).
  { intros f. rewrite <- Hx1. unfold extra. rewrite (maps_split G1 d f), Hc3.
    unfold tabs. destruct (roles G1 !! f) as [r|] eqn:E.
    - rewrite (i_tab _ _ _ _ HI1 _ _ E).
      destruct (roles (drop_dir G1 d) !! f) as [r'|] eqn:E'.
      + apply drop_role in E' as [E' Hno]. assert (r' = r) as -> by congruence.
        rewrite decide_False by done. lia.
      + destruct (decide (of_dir d f r)) as [|Hno]; [lia|]. exfalso.
        by rewrite (proj2 (drop_role G1 d f r)) in E'.
    - destruct (roles (drop_dir G1 d) !! f) as [r'|] eqn:E'; [|lia].
      apply drop_role in E' as [E' _]. congruence. }
  split_and!; try done.
  - intros f. rewrite Hx. specialize (HB f). unfold left_of. lia.
  - simpl. by rewrite (s_roles _ _ _ _ _ _ Hs1).
  - intros d' u Hne. rewrite drop_pte by done. rewrite Hsw1. by rewrite decide_False by naive_solver.
  - intros u. apply map_lookup_filter_None. right. intros e _ Hne. done.
  - intros a Ha Hnf. destruct (s_data _ _ _ _ _ _ Hs1 a Ha) as [[Ha1 Hr1] E1].
    { intros Hin. by apply Hnf, Hf3. }
    split; [split; [done|]|by rewrite Hd3].
    destruct (roles (drop_dir G1 d) !! frame_at a) eqn:E; [|done].
    apply drop_role in E as [E _]. congruence.
  - apply (s_shm _ _ _ _ _ _ Hs1).
  - intros f Hfs Hc. apply (s_shm' _ _ _ _ _ _ Hs1 f Hfs). rewrite Hc3 in Hc.
    destruct (roles G1 !! f) as [r|] eqn:E; [|done]. by rewrite (i_tab _ _ _ _ HI1 _ _ E).
Qed.
End spec.
