(* ===== verification/Vmalloc.v ===== *)
(** Specifications of allocuvm, of the flag changing routines and of setupkvm:
    growing an address space maps zeroed frames that nothing else refers to,
    a failed attempt leaves every page table entry and every reference as it
    was, and every page directory starts with exactly the kernel mappings. *)

From Stdlib Require Import ZArith Lia.
From stdpp Require Import base tactics numbers gmap strings fin_maps list.
From S2P Require Import Prelude Memory Kstring Spinlock Mmu Kalloc Procdef Vm Vminv Vmspec.

#[local] Open Scope Z_scope.

(** A transition that takes frames and may give some back. *)
Record mixed (k : kmem) (p : Pool.pool) (G : ghost)
             (k' : kmem) (p' : Pool.pool) (G' : ghost) : Prop := {
  m_data a : stable p G a → frame_at a ∉ Pool.free p' →
    stable p' G' a ∧ rd8 (pmem k') a = rd8 (pmem k) a;
  m_roles f r : roles G !! f = Some r → roles G' !! f = Some r;
  m_shm : shm G' ⊆ shm G;
  m_shm' f : f ∈ shm G → Pool.count p' f ≠ 0 → f ∈ shm G'
}.

Lemma grow_mixed k p G k' p' G' : grow k p G k' p' G' → mixed k p G k' p' G'.
Proof.
  intros [D R C S]. split; [|done|by rewrite S|by rewrite S].
  intros a Ha _. by apply D.
Qed.
Lemma grow_shrink_mixed k p G k1 p1 G1 k2 p2 G2 :
  grow k p G k1 p1 G1 → shrink k1 p1 G1 k2 p2 G2 → mixed k p G k2 p2 G2.
Proof.
  intros [D1 R1 C1 S1] [D2 F2 R2 C2 S2 T2]. split.
  - intros a Ha Hf. destruct (D1 a Ha) as [Ha1 E1]. destruct (D2 a Ha1 Hf) as [Ha2 E2].
    split; [done|]. by rewrite E2.
  - intros f r Hf. rewrite R2. auto.
  - by rewrite <- S1.
  - intros f Hf. apply T2. by rewrite S1.
Qed.

Section alloc.
Context (kend : Z) (Hkend : KERNBASE < kend).
Implicit Types (k : kmem) (p : Pool.pool) (G : ghost).

(** ** A new zeroed page *)

(** mem = kalloc(); memset(mem, 0, PGSIZE): the frame is in transit, which
    shows as one more reference that is not an entry. *)
Lemma kalloc_zeroed {A} k p G (none : K kmem A) (some : Z → K kmem A) (Q : A → kmem → Prop) :
  Inv0 kend k p G → Bal p G →
  (∀ k', Inv0 kend k' p G → pmem k' = pmem k → Pool.free p = [] → wp none k' Q) →
  (∀ k' f l, let p' := {| Pool.free := l; Pool.count := Pool.upd (Pool.count p) f 1 |} in
     Inv0 kend k' p' G → Bal p' G → grow k p G k' p' G →
     Pool.free p = f :: l → good_page kend f → Pool.count p f = 0 → roles G !! f = None →
     maps G f = 0 → f ∉ l →
     (∀ g, extra p' G g = extra p G g + if decide (f = g) then 1 else 0) →
     (∀ o, 0 ≤ o < 4096 → rd8 (pmem k') (kva f + o) = 0) →
     wp (some (kva f)) k' Q) →
  wp (kalloc ≫= λ mem, if mem =? 0 then none else
      memset_at mem 0 PGSIZE ≫= λ _, some mem) k Q.
Proof.
  intros HI HB Hnone Hsome. apply wp_bind. eapply wp_mono; [|by apply (kalloc_vm kend k p G)].
  intros v k1 (Hm&[(->&Hfree&HI1)|(f&l&->&Hfree&Hg&Hc&Hr&Hmp&Hl&HI1)]); [by apply Hnone|].
  rewrite (kva_nonzero kend) by done. apply wp_bind.
  unfold wp at 1, memset_at. rewrite (kva_nonzero kend) by done. simpl.
  assert (Hx : ∀ g, extra {| Pool.free := l; Pool.count := Pool.upd (Pool.count p) f 1 |} G g =
    extra p G g + if decide (f = g) then 1 else 0) by (intros g; by apply extra_alloc).
  eapply (Hsome _ f l); try done.
  - destruct HI1 as [HR1 He1 Hp1 Ht1]. split; [|by apply enc_memset|done|done].
    apply R_set_pmem; [apply mem_wf_memset, HR1|done].
  - intros g. rewrite Hx. specialize (HB g). case_decide; lia.
  - split; [|done| |done].
    + intros a [Ha Hra]. rewrite Hfree in Ha. apply not_elem_of_cons in Ha as [Hne Ha].
      split; [done|]. simpl. rewrite (rd8_memset_frame kend) by done. by rewrite Hm.
    + intros g Hgc. simpl. unfold Pool.upd. rewrite decide_False by congruence. done.
  - intros o Ho. simpl. unfold PGSIZE. rewrite rd8_memset by lia.
    by rewrite decide_True by lia.
Qed.

Lemma user_entry f : 0 ≤ f →
  Z.lor (Z.lor (f * 4096) (Z.lor PTE_W PTE_U)) PTE_P = f * 4096 + 7.
Proof. intros. rewrite <- Z.lor_assoc. apply lor_pte; [zlia|done]. Qed.

Lemma entry7_frame f : 0 ≤ f → (f * 4096 + 7) / 4096 = f.
Proof. intros. zlia. Qed.

(** ** allocuvm *)

(** From [(k, p, G)] to [(k', p', G')], the pages from [lo] to [hi] of [d] were
    mapped to new zeroed frames. *)
Record alloc_at k p G d lo hi k' p' G' : Prop := {
  a_inv : Inv0 kend k' p' G';
  a_bal : Bal p' G';
  a_grow : grow k p G k' p' G';
  a_extra f : extra p' G' f = extra p G f;
  a_old d' u : d' ≠ d ∨ ¬ (lo ≤ u < hi) → ptes G' !! (d', u) = ptes G !! (d', u);
  a_new u : lo ≤ u < hi → ∃ f, ptes G' !! (d, u) = Some (f * 4096 + 7) ∧
    f ∈ Pool.free p ∧ Pool.count p' f = 1 ∧
    ∀ o, 0 ≤ o < 4096 → rd8 (pmem k') (kva f + o) = 0;
  a_cost : Z.of_nat (length (Pool.free p)) ≤ Z.of_nat (length (Pool.free p')) + 2 * (hi - lo)
}.
Definition alloc_post k p G d lo hi (k' : kmem) : Prop :=
  ∃ p' G', alloc_at k p G d lo hi k' p' G'.

(** Everything is as before, apart from page tables that were added. *)
Definition alloc_fail k p G (k' : kmem) : Prop :=
  ∃ p' G', Inv0 kend k' p' G' ∧ Bal p' G' ∧ mixed k p G k' p' G' ∧
    (∀ f, extra p' G' f = extra p G f) ∧ ptes G' = ptes G.

Lemma alloc_at_refl k p G d lo : Inv0 kend k p G → Bal p G → alloc_at k p G d lo lo k p G.
Proof. intros HI HB. split; try done; lia. Qed.

(** A frame of the free list stays a stable data frame once it is mapped. *)
Lemma grow_zeroed k p G k' p' G' d u e :
  Inv0 kend k p G → Bal p G → grow k p G k' p' G' →
  ptes G !! (d, u) = Some e → u < UPAGES →
  (∀ o, 0 ≤ o < 4096 → rd8 (pmem k) (kva (e / 4096) + o) = 0) →
  ∀ o, 0 ≤ o < 4096 → rd8 (pmem k') (kva (e / 4096) + o) = 0.
Proof.
  intros HI HB Hgr Hl Hu Hz o Ho.
  destruct (entry_frame kend _ _ _ _ _ _ HI HB Hl Hu) as (_&_&Hg&Hr&Hc).
  destruct (g_data _ _ _ _ _ _ Hgr (kva (e / 4096) + o)) as [_ ->]; [|auto].
  split; rewrite (frame_at_kva kend) by done; [|done].
  intros Hin. apply (R_free _ _ _ (i_R _ _ _ _ HI)) in Hin. lia.
Qed.

(** The frames that were free at the start of a transition that only takes. *)
Lemma grow_free k p G k' p' G' f :
  R kend k' p' → grow k p G k' p' G' → f ∈ Pool.free p' → good_page kend f →
  roles G !! f = None → f ∈ Pool.free p.
Proof.
  intros HR Hgr Hin Hg Hr. destruct (decide (f ∈ Pool.free p)) as [|Hn]; [done|].
  destruct (g_data _ _ _ _ _ _ Hgr (kva f + 0)) as [[H _] _].
  - split; by rewrite (frame_at_kva kend) by (done || lia).
  - by rewrite (frame_at_kva kend) in H by (done || lia).
Qed.

(** One more page: a frame was taken and zeroed, and then mapped. *)
Lemma alloc_step k0 p0 G0 d lo v k p G k1 f l k2 p2 G2 :
  Bal p0 G0 → lo ≤ v < UPAGES → alloc_at k0 p0 G0 d lo v k p G → ptes G !! (d, v) = None →
  let p1 := {| Pool.free := l; Pool.count := Pool.upd (Pool.count p) f 1 |} in
  grow k p G k1 p1 G → Pool.free p = f :: l → good_page kend f → roles G !! f = None →
  (∀ g, extra p1 G g = extra p G g + if decide (f = g) then 1 else 0) →
  (∀ o, 0 ≤ o < 4096 → rd8 (pmem k1) (kva f + o) = 0) →
  Inv0 kend k2 p2 G2 → grow k1 p1 G k2 p2 G2 → (length l ≤ S (length (Pool.free p2)))%nat →
  ptes G2 = ptes (set_pte G d v (f * 4096 + 7)) →
  (∀ g, extra p2 G2 g = extra p1 G g + contrib v (pte_at G d v) g - contrib v (f * 4096 + 7) g) →
  alloc_at k0 p0 G0 d lo (v + 1) k2 p2 G2.
Proof.
  intros HB0 Hv [HI HB Hg0 Hx0 Hsame Hnew Hlen] Hl p1 Hg1 Hfree Hgf Hrf Hx1 Hz HI2 Hg2
    Hcost Hpt Hx2.
  pose proof (good_bounds _ _ Hgf) as Hfb.
  assert (Hx : ∀ g, extra p2 G2 g = extra p0 G0 g).
  { intros g. rewrite Hx2, Hx1, Hx0. unfold pte_at. rewrite Hl. simpl. rewrite contrib_0.
    unfold contrib. rewrite entry7_frame by lia.
    repeat case_decide; try lia; exfalso; intuition lia. }
  assert (HB2 : Bal p2 G2) by (intros g; rewrite Hx; apply HB0).
  assert (Hlk : ∀ d' u, ptes G2 !! (d', u) =
    if decide (d' = d ∧ u = v) then Some (f * 4096 + 7) else ptes G !! (d', u)).
  { intros d' u. rewrite Hpt. apply set_pte_lookup. lia. }
  assert (HgA : grow k p G k2 p2 G2) by (by eapply grow_trans).
  split; try done.
  - by eapply grow_trans.
  - intros d' u Hdu. rewrite Hlk, decide_False by lia. apply Hsame. lia.
  - intros u Hu. destruct (decide (u = v)) as [->|Hne].
    + exists f. rewrite Hlk, decide_True by done.
      assert (Pool.count p1 f = 1) as H1
        by (unfold p1; simpl; unfold Pool.upd; by rewrite decide_True).
      split_and!; [done| | |].
      * eapply (grow_free k0 p0 G0 k p G); [apply HI|done| |done|].
        -- rewrite Hfree. by left.
        -- destruct (roles G0 !! f) eqn:E; [|done].
           apply (g_roles _ _ _ _ _ _ Hg0) in E. congruence.
      * rewrite (g_count _ _ _ _ _ _ Hg2); lia.
      * intros o Ho. rewrite <- (Hz o Ho).
        apply (g_data _ _ _ _ _ _ Hg2). split; rewrite (frame_at_kva kend) by done; [|done].
        simpl. intros Hin. pose proof (R_nodup _ _ _ (i_R _ _ _ _ HI)) as Hnd.
        rewrite Hfree in Hnd. by apply NoDup_cons in Hnd as [? _].
    + destruct (Hnew u) as (g&Hg&Hgf'&Hgc&Hgz); [lia|]. exists g.
      rewrite Hlk, decide_False by lia. split_and!; [done|done| |].
      { rewrite (g_count _ _ _ _ _ _ HgA); lia. }
      destruct (enc_dom _ _ _ (i_enc _ _ _ _ HI) _ _ _ Hg) as (Hgu&_). unfold is_u32 in Hgu.
      assert (Hge : (g * 4096 + 7) / 4096 = g) by zlia.
      pose proof (grow_zeroed k p G k2 p2 G2 d u _ HI HB HgA Hg ltac:(lia)) as Hz'.
      rewrite Hge in Hz'. auto.
  - rewrite Hfree in Hlen. simpl in Hlen. lia.
Qed.

(** Sweeping the range takes every entry of the attempt away again. *)
Lemma alloc_undo k0 p0 G0 d lo v hi k p G G3 G4 cp :
  alloc_at k0 p0 G0 d lo v k p G → v ≤ hi → (∀ u, lo ≤ u < hi → ptes G0 !! (d, u) = None) →
  ptes G3 = ptes G → sweeps G3 G4 d lo hi cp → ptes G4 = ptes G0.
Proof.
  intros HA Hv Hnone Hpt Hsw. apply map_eq. intros [d' u]. rewrite Hsw, Hpt.
  case_decide as Hc.
  - destruct Hc as [-> Hu]. rewrite Hnone by done. destruct (decide (u < v)) as [Huv|Huv].
    + destruct (a_new _ _ _ _ _ _ _ _ _ HA u) as (f&->&_); [lia|]. simpl.
      assert (has (f * 4096 + 7) PTE_P = true) as ->; [|done].
      rewrite <- lor_pte by zlia. by flags.
    + rewrite (a_old _ _ _ _ _ _ _ _ _ HA) by lia. by rewrite Hnone.
  - apply (a_old _ _ _ _ _ _ _ _ _ HA). lia.
Qed.

(** Giving back the frame in transit. *)
Lemma kfree_transit k p G f :
  Inv0 kend k p G → Bal p G → good_page kend f → roles G !! f = None →
  Pool.count p f = 1 → maps G f = 0 →
  wp (kfree kend (kva f)) k (λ _ k', ∃ p', Inv0 kend k' p' G ∧
    (∀ g, extra p' G g = extra p G g - if decide (f = g) then 1 else 0) ∧
    (∀ g, Pool.count p' g = if decide (f = g) then 0 else Pool.count p g) ∧
    (∀ g, g ∈ Pool.free p' ↔ g = f ∨ g ∈ Pool.free p) ∧
    (∀ a, frame_at a ≠ f → rd8 (pmem k') a = rd8 (pmem k) a)).
Proof.
  intros HI HB Hg Hr Hc Hm. assert (Hpo := page_of_kva kend f Hg).
  eapply wp_mono; [|apply (kfree_refines kend k p (kva f)); rewrite ?Hpo; try done].
  2:{ apply HI. } 2:{ by eapply kva_u32. } 2:{ by apply kva_ok. }
  intros [] k' (HR'&Hmem&_). rewrite Hpo in HR'. eexists. split_and!.
  - eapply (Inv0_count kend k k' p); [done|done| |exact Hr| |].
    + rewrite Hmem. apply enc_memset; [apply HI|done..].
    + intros g Hne. simpl. unfold Pool.upd. by rewrite decide_False.
    + intros d vp e Hl Hvp Heq _. exfalso. subst f. pose proof (maps_pos _ _ _ _ Hl Hvp). lia.
  - intros g. unfold extra. simpl. unfold Pool.upd. case_decide; subst; lia.
  - done.
  - intros g. simpl. apply elem_of_cons.
  - intros a Ha. rewrite Hmem. by apply (rd8_memset_frame kend).
Qed.

(** The range of an allocuvm call: nothing is mapped there, and the guard page
    is not in it. *)
Definition alloc_range G (d oldsz newsz : Z) (cp : option proc) : Prop :=
  ∀ u, (oldsz + 4095) / 4096 ≤ u < (newsz + 4095) / 4096 →
    ptes G !! (d, u) = None ∧ is_guard cp (u * 4096) = false.

(** mappages failed: the range is swept and the frame in transit is freed. *)
Lemma alloc_fail_transit k0 p0 G0 d oldsz newsz cp k p G v k1 f l k3 p3 G3 :
  let lo := (oldsz + 4095) / 4096 in let hi := (newsz + 4095) / 4096 in
  0 ≤ oldsz < newsz → newsz < KERNBASE → alloc_range G0 d oldsz newsz cp →
  Bal p0 G0 → is_dir G0 d → lo ≤ v < hi → alloc_at k0 p0 G0 d lo v k p G →
  let p1 := {| Pool.free := l; Pool.count := Pool.upd (Pool.count p) f 1 |} in
  grow k p G k1 p1 G → Pool.free p = f :: l → good_page kend f → Pool.count p f = 0 →
  roles G !! f = None → maps G f = 0 → f ∉ l →
  (∀ g, extra p1 G g = extra p G g + if decide (f = g) then 1 else 0) →
  Inv0 kend k3 p3 G3 → Bal p3 G3 → grow k1 p1 G k3 p3 G3 → ptes G3 = ptes G →
  (∀ g, extra p3 G3 g = extra p1 G g) →
  wp (deallocuvm kend d newsz oldsz cp ≫= λ _, kfree kend (kva f) ≫= λ _, mret (Some 0)) k3
    (λ o k', o = Some 0 ∧ alloc_fail k0 p0 G0 k').
Proof.
  intros lo hi Hsz Hns Hrange HB0 Hd0 Hv HA p1 Hg1 Hfree Hgf Hcf Hrf Hmf Hfl Hx1 HI3 HB3 Hg3
    Hpt3 Hx3. destruct (HA) as [HI HB Hg0 Hx0 _ _ _]. unfold KERNBASE in Hns.
  assert (Hgt : grow k0 p0 G0 k3 p3 G3) by (eapply grow_trans; [done|by eapply grow_trans]).
  assert (Hd3 : is_dir G3 d) by (by eapply grow_is_dir).
  apply wp_bind. eapply wp_mono; [|apply (deallocuvm_spec kend Hkend k3 p3 G3 d newsz oldsz cp);
    try done; try lia; [unfold KERNBASE; lia|intros u Hu Hg; destruct (Hrange u Hu); congruence]].
  intros r k4 (->&p4&G4&HI4&HB4&Hs4&Hx4&Hsw4).
  assert (Hpt4 : ptes G4 = ptes G0).
  { eapply (alloc_undo _ _ _ _ lo v hi _ _ _ G3); try done; [lia|].
    intros u Hu. by apply Hrange. }
  assert (Hst : stable p3 G3 (kva f + 0)).
  { apply (g_data _ _ _ _ _ _ Hg3). split; by rewrite (frame_at_kva kend) by (done || lia). }
  destruct Hst as [_ Hr3]. rewrite (frame_at_kva kend) in Hr3 by (done || lia).
  assert (Hr4 : roles G4 !! f = None) by (by rewrite (s_roles _ _ _ _ _ _ Hs4)).
  assert (Hxf : extra p4 G4 f = extra p0 G0 f + 1).
  { rewrite Hx4, Hx3, Hx1, Hx0. by rewrite decide_True. }
  assert (Hc4 : Pool.count p4 f ≤ 1).
  { pose proof (s_count _ _ _ _ _ _ Hs4 f). rewrite (g_count _ _ _ _ _ _ Hg3) in H;
      unfold p1 in *; simpl in *; unfold Pool.upd in *; rewrite decide_True in * by done; lia. }
  specialize (HB0 f) as HB0f. pose proof (maps_nonneg G4 f).
  unfold extra, tabs in Hxf. rewrite Hr4 in Hxf. unfold extra in HB0f.
  apply wp_bind. eapply wp_mono; [|apply (kfree_transit k4 p4 G4 f); try done].
  2:{ unfold tabs in *. destruct (roles G0 !! f); lia. }
  2:{ unfold tabs in *. destruct (roles G0 !! f); lia. }
  intros [] k5 (p5&HI5&Hx5&Hc5&Hf5&Hd5). apply wp_ret. split; [done|].
  assert (Hx : ∀ g, extra p5 G4 g = extra p0 G0 g).
  { intros g. rewrite Hx5, Hx4, Hx3, Hx1, Hx0. lia. }
  exists p5, G4. split_and!; try done; [intros g; rewrite Hx; apply HB0|].
  destruct (grow_shrink_mixed _ _ _ _ _ _ _ _ _ Hgt Hs4) as [D R' S S']. split; [|done..|].
  - intros a Ha Hnf. rewrite Hf5 in Hnf.
    assert (frame_at a ≠ f ∧ frame_at a ∉ Pool.free p4) as [Hne Hnf'] by tauto.
    destruct (D a Ha Hnf') as [[_ Hra] E]. rewrite Hd5 by done. split; [|done].
    split; [|done]. rewrite Hf5. tauto.
  - intros g Hgs Hcg. apply S'; [done|]. rewrite Hc5 in Hcg. by case_decide.
Qed.

Lemma alloc_page_spec k0 p0 G0 d oldsz newsz cp k p G v :
  let lo := (oldsz + 4095) / 4096 in let hi := (newsz + 4095) / 4096 in
  0 ≤ oldsz < newsz → newsz < KERNBASE → alloc_range G0 d oldsz newsz cp →
  Bal p0 G0 → is_dir G0 d → lo ≤ v < hi → alloc_at k0 p0 G0 d lo v k p G →
  wp (alloc_page kend d oldsz newsz cp (v * 4096)) k (λ o k', match o with
    | Some r => r = 0 ∧ alloc_fail k0 p0 G0 k' ∧
        Z.of_nat (length (Pool.free p0)) < 2 * (hi - lo)
    | None => alloc_post k0 p0 G0 d lo (v + 1) k'
    end).
Proof.
  intros lo hi Hsz Hns Hrange HB0 Hd0 Hv HA. destruct (HA) as [HI HB Hg0 Hx0 Hold _ Hcost].
  assert (HU : UPAGES = 524288) by done. unfold KERNBASE in Hns.
  assert (Hb : 0 ≤ lo ∧ hi ≤ 524288) by (unfold lo, hi; zlia).
  assert (Hu : is_u32 (v * 4096)) by (unfold is_u32; lia).
  assert (Hdiv : v * 4096 / 4096 = v) by (by rewrite Z.div_mul).
  assert (Hl : ptes G !! (d, v) = None) by (rewrite Hold by lia; apply Hrange; lia).
  assert (Hd : is_dir G d) by (by eapply grow_is_dir).
  unfold alloc_page. eapply (kalloc_zeroed k p G); [done..| |].
  - intros k1 HI1 Hm1 Hfree. apply wp_bind.
    eapply wp_mono; [|apply (deallocuvm_spec kend Hkend k1 p G d newsz oldsz cp); try done; try lia;
      [unfold KERNBASE; lia|intros u Hu' Hg; destruct (Hrange u Hu'); congruence]].
    intros r k2 (->&p2&G2&HI2&HB2&Hs2&Hx2&Hsw2). apply wp_ret. split; [done|]. split.
    + exists p2, G2. split_and!; try done.
      * eapply grow_shrink_mixed; [|done]. destruct Hg0 as [D R' C S]. split; [|done..].
        intros a Ha. rewrite Hm1. by apply D.
      * intros f. by rewrite Hx2.
      * eapply (alloc_undo _ _ _ _ _ v hi _ _ _ G); try done; [lia|].
        intros u Hu'. by apply Hrange.
    + rewrite Hfree in Hcost. simpl in Hcost. lia.
  - intros k1 f l p1 HI1 HB1 Hg1 Hfree Hgf Hcf Hrf Hmf Hfl Hx1 Hz.
    pose proof (good_bounds _ _ Hgf) as Hfb.
    assert (H1 : Pool.count p1 f = 1) by (unfold p1; simpl; unfold Pool.upd; by rewrite decide_True).
    apply wp_bind.
    rewrite (mappages_one d (v * 4096)), (V2P_kva kend), user_entry by (done || lia || zlia).
    eapply (map_step kend k1 p1 G d (v * 4096)); rewrite ?Hdiv; try done.
    + unfold pte_at. by rewrite Hl.
    + unfold is_u32. lia.
    + intros _ _. rewrite entry7_frame by lia. split_and!; [apply Hgf..|done|]. by left.
    + intros _. rewrite entry7_frame by lia. lia.
    + intros k3 p3 G3 HI3 HB3 Hg3 Hpt3 Hx3 _ Hfree3 _. simpl.
      eapply wp_mono; [|by eapply (alloc_fail_transit k0 p0 G0 d oldsz newsz cp k p G v k1 f l k3 p3 G3)].
      intros o k' [-> H]. split_and!; [done..|].
      unfold p1 in Hfree3. simpl in Hfree3. rewrite Hfree, Hfree3 in Hcost. simpl in Hcost. lia.
    + intros k2 p2 G2 HI2 Hg2 Hcost2 _ Hpt Hx2. apply wp_ret. simpl. apply wp_ret.
      exists p2, G2. eapply (alloc_step _ _ _ _ _ v k p G k1 f l); try done; try lia.
      apply Hcost2.
Qed.

Lemma allocuvm_spec k p G d oldsz newsz cp :
  let lo := (oldsz + 4095) / 4096 in let hi := (newsz + 4095) / 4096 in
  Inv0 kend k p G → Bal p G → is_dir G d → 0 ≤ oldsz ≤ newsz → newsz < KERNBASE →
  alloc_range G d oldsz newsz cp →
  wp (allocuvm kend d oldsz newsz cp) k (λ r k',
    r = newsz ∧ alloc_post k p G d lo hi k' ∨
    r = 0 ∧ alloc_fail k p G k' ∧ Z.of_nat (length (Pool.free p)) < 2 * (hi - lo)).
Proof.
  intros lo hi HI HB Hd Hsz Hns Hrange. unfold allocuvm. unfold KERNBASE in Hns.
  rewrite (proj2 (Z.leb_gt _ _)) by (unfold KERNBASE; lia).
  rewrite (proj2 (Z.ltb_ge _ _)) by lia. rewrite PGROUNDUP_small by lia. fold lo.
  apply wp_bind. eapply (wp_upto _ (λ a k', ∃ v, a = v * 4096 ∧ lo ≤ v ∧ (v ≤ hi) ∧
    alloc_post k p G d lo v k')); [done|unfold PGSIZE; lia|..].
  - intros a k1 Ha (v&->&Hv&Hvhi&p1&G1&HA).
    eapply wp_mono; [|eapply (alloc_page_spec k p G d oldsz newsz cp k1 p1 G1 v); try done].
    + intros [r|] k2; [intros (->&Hf&Hlen); apply wp_ret; by right|].
      intros H. exists (v + 1). split_and!; try done; [unfold PGSIZE; lia|lia|].
      unfold hi. zlia.
    + fold lo in Hv. unfold lo in Hv. split; [lia|]. zlia.
    + fold lo hi. unfold hi. split; [done|]. zlia.
  - intros a k1 Ha (v&->&Hv&Hvhi&Hp). apply wp_ret. left. split; [done|].
    replace hi with v; [done|]. unfold hi in *. zlia.
  - unfold lo. zlia.
  - apply upto_fuel_enough. done.
  - exists lo. split_and!; [done..| |]. { unfold lo, hi. zlia. }
    exists p, G. by apply alloc_at_refl.
Qed.

(** ** Changing flags *)

(** update_pte on an address that has an entry. *)
Lemma update_pte_spec k p G d va e msg fn :
  Inv0 kend k p G → is_dir G d → is_u32 va → ptes G !! (d, va / 4096) = Some e →
  is_u32 (fn e) → fn e ≠ 0 → fn e / 4096 = e / 4096 →
  (has (fn e) PTE_W = true → va / 4096 < UPAGES →
     has e PTE_W = true ∨ Pool.count p (e / 4096) = 1) →
  wp (update_pte msg d va fn) k (λ _ k',
    Inv0 kend k' p (set_pte G d (va / 4096) (fn e)) ∧
    (∀ g, extra p (set_pte G d (va / 4096) (fn e)) g = extra p G g) ∧
    grow k p G k' p (set_pte G d (va / 4096) (fn e))).
Proof.
  intros HI Hd Hva Hl Hu Hnz Hf HW.
  destruct (enc_dom _ _ _ (i_enc _ _ _ _ HI) _ _ _ Hl) as (_&_&_&f&Hs).
  rewrite <- PDX_vp in Hs by done. change (slot G d va f) in Hs.
  assert (Hg := enc_good _ _ _ (i_enc _ _ _ _ HI) _ _ Hs).
  unfold update_pte. apply wp_bind. unfold wp at 1. erewrite (walk_slot kend) by done.
  rewrite (slot_pte_nonzero kend) by done. apply wp_bind. unfold wp at 1.
  erewrite (load_slot kend) by done. unfold pte_at. rewrite Hl. simpl default.
  eapply wp_mono; [|by eapply (store_flags kend k p G d va f e)].
  intros [] k' (?&?&?&_). done.
Qed.

(** An entry with a frame stays one when flags are cleared. *)
Lemma clear_nonzero e f : 0 ≤ f < 4096 → 4096 ≤ e → Z.land e (Z.lnot f) ≠ 0.
Proof. intros Hf He H0. pose proof (frame_clear e f Hf) as H. rewrite H0 in H. zlia. Qed.

Lemma entry_big k p G d vp e :
  Inv0 kend k p G → Bal p G → ptes G !! (d, vp) = Some e → vp < UPAGES → 4096 ≤ e.
Proof.
  intros HI HB Hl Hvp. destruct (entry_frame kend _ _ _ _ _ _ HI HB Hl Hvp) as (_&_&Hg&_).
  pose proof (good_nonzero kend Hkend _ Hg). zlia.
Qed.

(** ** setupkvm *)

(** [kvm_at .. m ..]: since [(k, p, G)] the directory [d] was created and its
    entries are those of [m]. *)
Record kvm_at k p G d (m : Z → option Z) (cost : Z) k' p' G' : Prop := {
  v_inv : Inv0 kend k' p' G';
  v_bal : Bal p' G';
  v_grow : grow k p G k' p' G';
  v_extra f : extra p' G' f = extra p G f;
  v_new : is_dir G' d ∧ ¬ is_dir G d;
  v_old d' u : d' ≠ d → ptes G' !! (d', u) = ptes G !! (d', u);
  v_map u : ptes G' !! (d, u) = m u;
  v_cost : Z.of_nat (length (Pool.free p)) ≤ Z.of_nat (length (Pool.free p')) + cost
}.

Lemma extra_add_dir p G f g :
  roles G !! f = None →
  extra p (add_dir G f) g = extra p G g - (if decide (f = g) then 1 else 0).
Proof.
  intros Hf. unfold extra, tabs, maps; simpl. rewrite lookup_insert.
  case_decide; [subst; rewrite Hf; lia|lia].
Qed.

(** A zeroed frame becomes an empty directory. *)
Lemma kvm_start k p G k1 f l :
  let p1 := {| Pool.free := l; Pool.count := Pool.upd (Pool.count p) f 1 |} in
  Bal p G → Inv0 kend k1 p1 G → grow k p G k1 p1 G → Pool.free p = f :: l →
  good_page kend f → roles G !! f = None → maps G f = 0 →
  (∀ g, extra p1 G g = extra p G g + if decide (f = g) then 1 else 0) →
  (∀ o, 0 ≤ o < 4096 → rd8 (pmem k1) (kva f + o) = 0) →
  kvm_at k p G (kva f) (λ _, None) 1 k1 p1 (add_dir G f).
Proof.
  intros p1 HB HI1 Hg1 Hfree Hgf Hrf Hmf Hx1 Hz.
  assert (Hx : ∀ g, extra p1 (add_dir G f) g = extra p G g)
    by (intros g; rewrite extra_add_dir, Hx1 by done; lia).
  pose proof (enc_no_dir kend _ _ _ (i_enc _ _ _ _ HI1) Hgf Hrf) as Hnd.
  split; try done.
  - destruct HI1 as [HR1 He1 Hp1 Ht1]. split; [done|by apply enc_add_dir| |].
    + intros d' vp e Hl Hnz Hvp. destruct (Hp1 d' vp e Hl Hnz Hvp) as (?&?&?).
      split_and!; [done| |done]. simpl. rewrite lookup_insert_ne; [done|].
      intros ->. pose proof (maps_pos G _ _ _ Hl Hvp). lia.
    + intros g r [[<- _]|[_ Hl]]%add_dir_role; [|by eapply Ht1].
      unfold p1; simpl. unfold Pool.upd. by rewrite decide_True.
  - intros g. rewrite Hx. apply HB.
  - destruct Hg1 as [D R' C S]. split; [|..|done|done].
    + intros a Ha. destruct (D a Ha) as [[Hn Hr] E]. split; [|done]. split; [done|].
      simpl. rewrite lookup_insert_ne; [done|]. intros ->. destruct Ha as [Ha _].
      apply Ha. rewrite Hfree. by left.
    + intros g r Hg. apply add_dir_role. right. split; [congruence|done].
  - split; [|done]. exists f. split; [done|]. apply add_dir_role. by left.
  - intros u. simpl. destruct (ptes G !! (kva f, u)) as [e|] eqn:E; [|done].
    apply (enc_dom _ _ _ (i_enc _ _ _ _ HI1)) in E as (_&_&_&g&Hg).
    by apply (enc_tab _ _ _ (i_enc _ _ _ _ HI1)) in Hg as (Hd&_).
  - rewrite Hfree. unfold p1. simpl. lia.
Qed.

Lemma mappages_range d vp n pa perm :
  0 ≤ vp → vp + Z.of_nat (S n) ≤ 1048576 →
  mappages d (vp * 4096) (Z.of_nat (S n) * 4096) pa perm =
  mappages_loop (S n) d (vp * 4096) ((vp + Z.of_nat n) * 4096) pa perm.
Proof.
  intros Hvp Hn. unfold mappages.
  assert (H1 : PGROUNDDOWN (vp * 4096) = vp * 4096) by (rewrite PGROUNDDOWN_eq; zlia).
  assert (H2 : PGROUNDDOWN (u32 (vp * 4096 + Z.of_nat (S n) * 4096 - 1)) =
    (vp + Z.of_nat n) * 4096).
  { rewrite u32_small by (unfold is_u32; lia). rewrite PGROUNDDOWN_eq. zlia. }
  rewrite H1, H2. f_equal. rewrite u32_small by (unfold is_u32; lia). unfold PGSIZE.
  replace (((vp + Z.of_nat n) * 4096 - vp * 4096) / 4096 + 1) with (Z.of_nat (S n)) by zlia.
  apply Nat2Z.id.
Qed.

Lemma left_of_none G d f :
  (∀ u e, u < UPAGES → ptes G !! (d, u) ≠ Some e) → left_of G d f = 0.
Proof.
  intros Hn. unfold left_of.
  replace (filter (λ x, x.1.1 = d ∧ counted f x) (ptes G)) with (∅ : gmap (Z * Z) Z).
  { done. }
  symmetry. apply map_empty. intros [d' u]. apply map_lookup_filter_None. right.
  intros e He [Hd [Hu _]]. simpl in *. subst. by eapply Hn.
Qed.

(** Undoing a directory that has no user entries. *)
Lemma kvm_undo k0 p0 G0 d k1 p1 G1 k2 :
  Inv0 kend k0 p0 G0 → Bal p0 G0 → Bal p1 G1 →
  grow k0 p0 G0 k1 p1 G1 → (∀ f, extra p1 G1 f = extra p0 G0 f) → ¬ is_dir G0 d →
  (∀ d' u, d' ≠ d → ptes G1 !! (d', u) = ptes G0 !! (d', u)) →
  (∀ u, u < UPAGES → ptes G1 !! (d, u) = None) →
  freevm_post kend k1 p1 G1 d None k2 → alloc_fail k0 p0 G0 k2.
Proof.
  intros HI0 HB0 HB1 Hg Hx Hnd Hother Huser (p2&G2&G3&HI3&HB3&Hsw&Hr3&Ho3&Hd3&Hx3&Hdata&Hs&Hs').
  exists p2, G3. split_and!; try done.
  - destruct Hg as [D R' C S]. split.
    + intros a Ha Hnf. destruct (D a Ha) as [Ha1 E1]. destruct (Hdata a Ha1 Hnf) as [Ha3 E3].
      split; [done|]. by rewrite E3.
    + intros f r Hf. rewrite Hr3. apply map_lookup_filter_Some. split; [by apply R'|].
      destruct r as [|d' i]; simpl.
      * intros <-. apply Hnd. by exists f.
      * intros ->. by apply (enc_tab _ _ _ (i_enc _ _ _ _ HI0)) in Hf as (?&_).
    + by rewrite <- S.
    + intros f Hf. apply Hs'. by rewrite S.
  - intros f. rewrite Hx3, Hx, left_of_none; [lia|]. intros u e Hu He.
    rewrite Hsw in He. case_decide; rewrite Huser in He; done.
  - apply map_eq. intros [d' u]. destruct (decide (d' = d)) as [->|Hne].
    + rewrite Hd3. destruct (ptes G0 !! (d, u)) as [e|] eqn:E; [|done].
      apply (enc_dom _ _ _ (i_enc _ _ _ _ HI0)) in E as (_&_&_&g&Hg').
      by apply (enc_tab _ _ _ (i_enc _ _ _ _ HI0)) in Hg' as (?&_).
    + by rewrite Ho3, Hother.
Qed.

Definition add_row (m : Z → option Z) (vp : Z) (n : nat) (pa perm : Z) (u : Z) : option Z :=
  if decide (vp ≤ u < vp + Z.of_nat n) then
    Some (Z.lor (Z.lor (pa + (u - vp) * 4096) perm) PTE_P)
  else m u.

Lemma kvm_row k0 p0 G0 d m c k p G vp n pa perm :
  Inv0 kend k0 p0 G0 → Bal p0 G0 → kvm_at k0 p0 G0 d m c k p G →
  UPAGES ≤ vp → vp + Z.of_nat (S n) ≤ 1048576 → 0 ≤ pa →
  pa + Z.of_nat (S n) * 4096 ≤ 4294967296 → 0 ≤ perm < 4096 →
  (∀ u, u < UPAGES → m u = None) → (∀ u, vp ≤ u < vp + Z.of_nat (S n) → m u = None) →
  wp (mappages d (vp * 4096) (Z.of_nat (S n) * 4096) pa perm ≫= λ x,
      if x <? 0 then freevm kend d None ≫= λ _, mret (Some 0) else mret None) k
    (λ o k', match o with
     | Some r => r = 0 ∧ alloc_fail k0 p0 G0 k' ∧ Z.of_nat (length (Pool.free p0)) ≤
          c + ((vp + Z.of_nat n) / 1024 - vp / 1024 + 1)
     | None => ∃ p' G', kvm_at k0 p0 G0 d (add_row m vp (S n) pa perm)
          (c + ((vp + Z.of_nat n) / 1024 - vp / 1024 + 1)) k' p' G'
     end).
Proof.
  intros HI0 HB0 [HI HB Hg Hx [Hd Hnd] Hother Hmap Hcost] Hvp Hn Hpa Hpae Hperm Huser Hrange.
  assert (HU : UPAGES = 524288) by done.
  apply wp_bind. rewrite mappages_range by lia.
  eapply wp_mono; [|eapply (mappages_loop_kernel kend (S n) k p G d vp n pa perm); try done].
  2:{ intros v Hv. unfold pte_at. by rewrite Hmap, Hrange. }
  intros r k1 (p1&G1&HI1&HB1&Hg1&Hx1&Ho1&[Hc1 _]&[(->&Hfree)|(->&Hnew)]).
  - simpl. apply wp_bind.
    eapply wp_mono; [|apply (freevm_spec kend Hkend k1 p1 G1 d None); try done; by eapply grow_is_dir].
    intros [] k2 Hpost. apply wp_ret. split_and!; [done| |].
    + eapply (kvm_undo k0 p0 G0 d k1 p1 G1); try done.
      * by eapply grow_trans.
      * intros f. by rewrite Hx1.
      * intros d' u Hne. rewrite Ho1 by (by left). by apply Hother.
      * intros u Hu. rewrite Ho1 by lia. rewrite Hmap. by apply Huser.
    + rewrite Hfree in Hc1. simpl in Hc1. lia.
  - apply wp_ret. exists p1, G1. split; try done.
    + by eapply grow_trans.
    + intros f. by rewrite Hx1.
    + split; [by eapply grow_is_dir|done].
    + intros d' u Hne. rewrite Ho1 by (by left). by apply Hother.
    + intros u. unfold add_row. case_decide as Hu; [by apply Hnew|].
      rewrite Ho1 by lia. apply Hmap.
    + lia.
Qed.

Context (kdata : Z).
Hypothesis Hkdata : kdata mod 4096 = 0 ∧ KERNLINK < kdata < KERNBASE + PHYSTOP.

(** The kernel's entries: all of physical memory from KERNBASE on, read-only
    for the kernel's text, and the devices. *)
Definition kernel_pte (u : Z) : option Z :=
  if decide (524288 ≤ u < 581632) then
    Some (Z.lor (Z.lor ((u - 524288) * 4096)
      (if decide (524544 ≤ u < kdata / 4096) then 0 else PTE_W)) PTE_P)
  else if decide (1040384 ≤ u < 1048576) then Some (Z.lor (Z.lor (u * 4096) PTE_W) PTE_P)
  else None.

Lemma kmap_rows n2 n3 n4 :
  Z.of_nat n2 = kdata / 4096 - 524544 → Z.of_nat n3 = 581632 - kdata / 4096 →
  Z.of_nat n4 = 8192 → ∀ u,
  add_row (add_row (add_row (add_row (λ _, None) 524288 256 0 PTE_W)
    524544 n2 1048576 0) (kdata / 4096) n3 (kdata - 2147483648) PTE_W)
    1040384 n4 4261412864 PTE_W u = kernel_pte u.
Proof.
  intros H2 H3 H4 u. unfold add_row, kernel_pte.
  assert (Hk : kdata = kdata / 4096 * 4096) by zlia.
  unfold KERNLINK, KERNBASE, EXTMEM, PHYSTOP in Hkdata.
  repeat case_decide; try lia; try done; do 4 f_equal; lia.
Qed.

(** The outcome of setupkvm. *)
Definition kvm_post k p G (o : option Z) (d : Z) (k' : kmem) : Prop :=
  match o with
  | Some r => r = 0 ∧ alloc_fail k p G k' ∧ (length (Pool.free p) ≤ 122)%nat
  | None => ∃ p' G', kvm_at k p G d kernel_pte 122 k' p' G'
  end.

(** A row of kmap[] as a range of pages. *)
Lemma kmap_ranges : ∃ n2 n3,
  Z.of_nat (S n2) = kdata / 4096 - 524544 ∧ Z.of_nat (S n3) = 581632 - kdata / 4096 ∧
  kmap kdata =
  [ {| virt := 524288 * 4096; phys_start := 0; phys_end := Z.of_nat 256 * 4096; perm := PTE_W |};
    {| virt := 524544 * 4096; phys_start := 1048576;
       phys_end := 1048576 + Z.of_nat (S n2) * 4096; perm := 0 |};
    {| virt := kdata / 4096 * 4096; phys_start := kdata - 2147483648;
       phys_end := kdata - 2147483648 + Z.of_nat (S n3) * 4096; perm := PTE_W |};
    {| virt := 1040384 * 4096; phys_start := 4261412864; phys_end := 0; perm := PTE_W |} ].
Proof.
  unfold KERNLINK, KERNBASE, EXTMEM, PHYSTOP in Hkdata.
  exists (Z.to_nat (kdata / 4096 - 524545)), (Z.to_nat (581631 - kdata / 4096)).
  assert (H2 : Z.of_nat (S (Z.to_nat (kdata / 4096 - 524545))) = kdata / 4096 - 524544) by zlia.
  assert (H3 : Z.of_nat (S (Z.to_nat (581631 - kdata / 4096))) = 581632 - kdata / 4096) by zlia.
  split_and!; [done..|]. rewrite H2, H3. unfold kmap.
  assert (HV : V2P kdata = kdata - 2147483648)
    by (unfold V2P; rewrite u32_small; [done|unfold is_u32, KERNBASE; lia]).
  rewrite HV. repeat f_equal; unfold PHYSTOP; zlia.
Qed.

Lemma setupkvm_rows k p G d k1 p1 G1 :
  Inv0 kend k p G → Bal p G → kvm_at k p G d (λ _, None) 1 k1 p1 G1 →
  wp (for_find (kmap kdata) (λ r,
        mappages d (virt r) (u32 (phys_end r - phys_start r)) (phys_start r) (perm r) ≫= λ x,
        if x <? 0 then freevm kend d None ≫= λ _, mret (Some 0) else mret None)) k1
    (λ o k', kvm_post k p G o d k').
Proof.
  intros HI HB H0. destruct kmap_ranges as (n2&n3&Hn2&Hn3&Hmap).
  unfold KERNLINK, KERNBASE, EXTMEM, PHYSTOP in Hkdata.
  assert (HU : UPAGES = 524288) by done. rewrite Hmap.
  assert (∃ n4, Z.of_nat n4 = 8191) as [n4 Hn4] by (by exists (Z.to_nat 8191)).
  apply wp_for_find_cons. cbn [virt phys_start phys_end perm].
  replace (u32 (Z.of_nat 256 * 4096 - 0)) with (Z.of_nat 256 * 4096) by done.
  eapply wp_mono; [|eapply (kvm_row k p G d _ 1 k1 p1 G1 524288 255); try done; lia].
  intros [r|] k2; [intros (->&Hf&Hc); split_and!; [done..|]; zlia|].
  intros (p2&G2&H2). apply wp_for_find_cons. cbn [virt phys_start phys_end perm].
  replace (u32 (1048576 + Z.of_nat (S n2) * 4096 - 1048576)) with (Z.of_nat (S n2) * 4096)
    by (rewrite u32_small; unfold is_u32; lia).
  eapply wp_mono; [|eapply (kvm_row k p G d _ _ k2 p2 G2 524544 n2); try done; try zlia].
  2,3: intros u Hu; unfold add_row; rewrite decide_False by lia; done.
  intros [r|] k3; [intros (->&Hf&Hc); split_and!; [done..|]; zlia|].
  intros (p3&G3&H3). apply wp_for_find_cons. cbn [virt phys_start phys_end perm].
  replace (u32 (kdata - 2147483648 + Z.of_nat (S n3) * 4096 - (kdata - 2147483648)))
    with (Z.of_nat (S n3) * 4096) by (rewrite u32_small; unfold is_u32; lia).
  eapply wp_mono; [|eapply (kvm_row k p G d _ _ k3 p3 G3 (kdata / 4096) n3); try done; try zlia].
  2,3: intros u Hu; unfold add_row; rewrite !decide_False by lia; done.
  intros [r|] k4; [intros (->&Hf&Hc); split_and!; [done..|]; zlia|].
  intros (p4&G4&H4). apply wp_for_find_cons. cbn [virt phys_start phys_end perm].
  replace (u32 (0 - 4261412864)) with (Z.of_nat (S n4) * 4096)
    by (change (u32 (0 - 4261412864)) with 33554432; lia).
  eapply wp_mono; [|eapply (kvm_row k p G d _ _ k4 p4 G4 1040384 n4); try done; try zlia].
  2,3: intros u Hu; unfold add_row; rewrite !decide_False by lia; done.
  intros [r|] k5; [intros (->&Hf&Hc); split_and!; [done..|]; zlia|].
  intros (p5&G5&[]). apply wp_ret. exists p5, G5. split; try done; [|zlia].
  intros u. rewrite v_map0. apply kmap_rows; lia.
Qed.

Lemma setupkvm_spec k p G :
  Inv0 kend k p G → Bal p G →
  wp (setupkvm kend kdata) k (λ r k',
    r = 0 ∧ alloc_fail k p G k' ∧ (length (Pool.free p) ≤ 122)%nat ∨
    r ≠ 0 ∧ ∃ p' G', kvm_at k p G r kernel_pte 122 k' p' G').
Proof.
  intros HI HB. unfold setupkvm. eapply (kalloc_zeroed k p G); [done..| |].
  - intros k1 HI1 Hm1 Hfree. apply wp_ret. left. split; [done|]. rewrite Hfree.
    split; [|simpl; lia]. exists p, G. split_and!; try done.
    split; try done. intros a Ha _. by rewrite Hm1.
  - intros k1 f l p1 HI1 HB1 Hg1 Hfree Hgf Hcf Hrf Hmf Hfl Hx1 Hz.
    change (DEVSPACE <? P2V PHYSTOP) with false. cbv iota. apply wp_bind.
    eapply wp_mono; [|eapply (setupkvm_rows k p G (kva f) k1); try done; by eapply kvm_start].
    intros [r|] k2; simpl; [intros (->&?&?); by left|]. intros H. right. split; [|done].
    apply Z.eqb_neq. by apply (kva_nonzero kend).
Qed.
End alloc.
