(* ===== verification/Cow.v ===== *)
(** Copy-on-write fork (cowuvm in src/vm.c) and the page fault handler.

    cowuvm gives the child the parent's frames: private pages lose their write
    permission on both sides and are marked PTE_COW, pages of the shared
    memory area stay writable on both sides.  The reference counts follow, so
    that the handler can tell the last reference from a shared one. *)

From Stdlib Require Import ZArith Lia.
From stdpp Require Import base tactics numbers gmap strings fin_maps list.
From S2P Require Import Prelude Memory Kstring Spinlock Mmu Kalloc Procdef Vm Vminv Vmspec Vmalloc.

#[local] Open Scope Z_scope.

(** Frames that were neither free nor page tables keep their bytes. *)
Record keep (k : kmem) (p : Pool.pool) (G : ghost)
            (k' : kmem) (p' : Pool.pool) (G' : ghost) : Prop := {
  k_data a : stable p G a → stable p' G' a ∧ rd8 (pmem k') a = rd8 (pmem k) a;
  k_roles f r : roles G !! f = Some r → roles G' !! f = Some r
}.

Lemma grow_keep k p G k' p' G' : grow k p G k' p' G' → keep k p G k' p' G'.
Proof. intros [D R C S]. by split. Qed.
Lemma keep_refl k p G : keep k p G k p G.
Proof. by split. Qed.
Lemma keep_trans k p G k1 p1 G1 k2 p2 G2 :
  keep k p G k1 p1 G1 → keep k1 p1 G1 k2 p2 G2 → keep k p G k2 p2 G2.
Proof.
  intros [D1 R1] [D2 R2]. split; [|auto]. intros a Ha.
  destruct (D1 a Ha) as [Ha1 E1]. destruct (D2 a Ha1) as [Ha2 E2]. split; [done|]. by rewrite E2.
Qed.
Lemma keep_is_dir k p G k' p' G' d : keep k p G k' p' G' → is_dir G d → is_dir G' d.
Proof. intros Hg (f&->&Hf). exists f. split; [done|]. by apply (k_roles _ _ _ _ _ _ Hg). Qed.

Definition add_shm (G : ghost) (f : Z) : ghost :=
  {| roles := roles G; ptes := ptes G; shm := {[f]} ∪ shm G |}.

(** ** What happens to each page *)

Definition cowed (e : Z) : Z := Z.land (Z.lor e PTE_COW) (Z.lnot PTE_W).

Inductive kind := KSkip | KShm | KStack | KPlain.

(** The case distinction of cowuvm. *)
Definition page_kind (pr : proc) (i : Z) : kind :=
  if (p_stacktop pr <=? i) && (i <? p_shmtop pr) then
    if p_shmnextpg pr <=? i then KSkip else KShm
  else if (p_stacklastpg pr <=? i) && (i <? p_stacktop pr) then
    if i <? p_guardpg pr then KSkip else KStack
  else KPlain.

(** The parent's entry afterwards. *)
Definition parent_entry (kd : kind) (e : Z) : Z :=
  match kd with
  | KSkip | KShm => e
  | KStack => cowed e
  | KPlain => if has e PTE_W then cowed e else e
  end.

(** The child's entry; the guard page is hidden. *)
Definition child_entry (pr : proc) (i e : Z) : option Z :=
  let c := Z.lor (parent_entry (page_kind pr i) e) PTE_P in
  match page_kind pr i with
  | KSkip => None
  | KStack => Some (if i =? p_guardpg pr
                    then Z.land (Z.land c (Z.lnot PTE_U)) (Z.lnot PTE_P) else c)
  | _ => Some c
  end.

Lemma cowed_facts e :
  is_u32 e → 4096 ≤ e →
  is_u32 (cowed e) ∧ cowed e ≠ 0 ∧ cowed e / 4096 = e / 4096 ∧ has (cowed e) PTE_W = false.
Proof.
  intros Hu He. unfold cowed.
  assert (Hf : Z.land (Z.lor e PTE_COW) (Z.lnot PTE_W) / 4096 = e / 4096)
    by (rewrite frame_clear, frame_set; done).
  split_and!.
  - apply clear_u32; [done|]. by apply set_u32.
  - intros H0. rewrite H0 in Hf. zlia.
  - done.
  - by flags.
Qed.

Lemma parent_entry_facts kd e :
  is_u32 e → 4096 ≤ e →
  is_u32 (parent_entry kd e) ∧ parent_entry kd e ≠ 0 ∧ parent_entry kd e / 4096 = e / 4096 ∧
  (has (parent_entry kd e) PTE_W = true → kd = KShm ∨ kd = KSkip).
Proof.
  intros Hu He. destruct (cowed_facts e Hu He) as (H1&H2&H3&H4).
  assert (Hnz : e ≠ 0) by lia.
  destruct kd; simpl; [by auto 6..|split_and!; [done..|congruence]|].
  destruct (has e PTE_W) eqn:E; (split_and!; [done..|congruence]).
Qed.

Section cow.
Context (kend : Z) (Hkend : KERNBASE < kend).
Implicit Types (k : kmem) (p : Pool.pool) (G : ghost).

Lemma enc_same m G G' : roles G' = roles G → ptes G' = ptes G → enc kend m G → enc kend m G'.
Proof.
  intros Hr Hp [H1 H2 H3 H4 H5]. destruct G as [r q s], G' as [r' q' s']. simpl in *. subst.
  split; done.
Qed.

Lemma Inv0_add_shm k p G f : Inv0 kend k p G → Inv0 kend k p (add_shm G f).
Proof.
  intros [HR He Hp Ht]. split; [done|by apply (enc_same _ G)| |done].
  intros d vp e Hl Hnz Hvp. destruct (Hp d vp e Hl Hnz Hvp) as (?&?&HW).
  split_and!; [done..|]. intros [?|?]%HW; [by left|right]. simpl. set_solver.
Qed.

(** Two entries that name the same frame: neither may write it, unless it is
    shared memory. *)
Lemma two_entries_shm k p G d vp e d' vp' e' :
  Inv0 kend k p G → Bal p G → ptes G !! (d, vp) = Some e → ptes G !! (d', vp') = Some e' →
  (d, vp) ≠ (d', vp') → vp < UPAGES → vp' < UPAGES → e / 4096 = e' / 4096 →
  has e' PTE_W = true → e' / 4096 ∈ shm G.
Proof.
  intros HI HB Hl Hl' Hne Hvp Hvp' Hf HW.
  destruct (entry_frame kend _ _ _ _ _ _ HI HB Hl' Hvp') as (_&Hnz&_&Hr&_).
  destruct (i_pte _ _ _ _ HI _ _ _ Hl' Hnz Hvp') as (_&_&H).
  destruct (H HW) as [Hc|]; [|done]. exfalso.
  pose proof (maps_two _ _ _ _ _ _ _ Hl Hl' Hne Hvp Hvp' Hf).
  specialize (HB (e' / 4096)). unfold extra, tabs in HB. rewrite Hr, Hc, <- Hf in HB. lia.
Qed.

Lemma child_value e : Z.lor (Z.lor (PTE_ADDR e) (PTE_FLAGS e)) PTE_P = Z.lor e PTE_P.
Proof. by rewrite pte_join. Qed.

(** inclRefCount on the frame of an entry. *)
Lemma incl_spec k p G f :
  Inv0 kend k p G → good_page kend f → roles G !! f = None →
  1 ≤ Pool.count p f → Pool.count p f + 1 < 4294967296 →
  (∀ d vp e, ptes G !! (d, vp) = Some e → vp < UPAGES → e / 4096 = f →
     has e PTE_W = true → f ∈ shm G) →
  wp (inclRefCount (kva f)) k (λ _ k', ∃ p', Inv0 kend k' p' G ∧ pmem k' = pmem k ∧
    Pool.free p' = Pool.free p ∧
    (∀ g, Pool.count p' g = Pool.count p g + if decide (f = g) then 1 else 0)).
Proof.
  intros HI Hg Hr Hc Hmax HW. assert (Hpo := page_of_kva kend f Hg).
  eapply wp_mono; [|apply (inclRefCount_refines kend k p (kva f)); rewrite ?Hpo].
  - intros [] k' (HR'&Hm&_). rewrite Hpo in HR'. exists (Pool.incl f p). split_and!; [|done|done|].
    + eapply (Inv0_count kend k k' p); [done|done|rewrite Hm; apply HI|exact Hr| |].
      * intros g Hne. simpl. unfold Pool.upd. by rewrite decide_False.
      * intros d vp e Hl Hvp Hf HWe. right. by eapply HW.
    + intros g. simpl. unfold Pool.upd. case_decide; [subst|lia].
      apply u32_small. unfold is_u32. lia.
  - apply HI.
  - apply Hg.
  - intros Hin. apply (R_free _ _ _ (i_R _ _ _ _ HI)) in Hin. lia.
Qed.

(** ** Sharing one page *)

Lemma share_spec k p G d c va f e :
  Inv0 kend k p G → Bal p G → is_dir G c → d ≠ c → is_u32 va → va mod 4096 = 0 →
  va / 4096 < UPAGES → slot G d va f → ptes G !! (d, va / 4096) = Some e →
  ptes G !! (c, va / 4096) = None → (has e PTE_W = true → e / 4096 ∈ shm G) →
  Pool.count p (e / 4096) + 1 < 4294967296 →
  wp (share_page c va (kva f + 4 * PTX va)) k (λ o k',
    o = Some tt ∧ Pool.free p = [] ∨
    o = None ∧ ∃ p' G', Inv0 kend k' p' G' ∧ keep k p G k' p' G' ∧
      (∀ g, extra p' G' g = extra p G g) ∧
      ptes G' = ptes (set_pte G c (va / 4096) (Z.lor e PTE_P)) ∧ shm G' = shm G ∧
      (∀ g, Pool.count p g ≠ 0 →
         Pool.count p' g = Pool.count p g + if decide (e / 4096 = g) then 1 else 0) ∧
      (length (Pool.free p) ≤ S (length (Pool.free p')))%nat).
Proof.
  intros HI HB Hc Hdc Hva Hal Hvp Hs Hl Hcl HW Hmax.
  destruct (entry_frame kend _ _ _ _ _ _ HI HB Hl Hvp) as (Hu&Hnz&Hg&Hr&Hcnt).
  assert (Hfr : Z.lor e PTE_P / 4096 = e / 4096) by (by apply frame_set).
  assert (HWP : has (Z.lor e PTE_P) PTE_W = has e PTE_W) by (by flags).
  unfold share_page. apply wp_bind. unfold wp at 1. erewrite (load_slot kend) by done.
  unfold pte_at. rewrite Hl. simpl default. apply wp_bind.
  rewrite (mappages_one c va), child_value by done.
  eapply (map_step kend k p G c va); try done.
  - unfold pte_at. by rewrite Hcl.
  - by apply set_u32.
  - intros _ _. rewrite Hfr, HWP. split_and!; [apply Hg..|done|]. intros H%HW. by right.
  - intros _. rewrite Hfr. lia.
  - intros k1 p1 G1 HI1 HB1 Hg1 Hpt1 Hx1 Hcost Hfree _. apply wp_ret. by left.
  - intros k1 p1 G1 HI1 Hg1 [Hcost _] _ Hpt1 Hx1. apply wp_ret. simpl.
    rewrite frame_P2V by done. apply wp_bind.
    assert (Hc1 : Pool.count p1 (e / 4096) = Pool.count p (e / 4096))
      by (apply (g_count _ _ _ _ _ _ Hg1); lia).
    assert (Hr1 : roles G1 !! (e / 4096) = None).
    { destruct (g_data _ _ _ _ _ _ Hg1 (kva (e / 4096) + 0)) as [[_ H] _].
      - split; rewrite (frame_at_kva kend) by (done || lia); [|done].
        intros Hin. apply (R_free _ _ _ (i_R _ _ _ _ HI)) in Hin. lia.
      - by rewrite (frame_at_kva kend) in H by (done || lia). }
    eapply wp_mono; [|apply (incl_spec k1 p1 G1 (e / 4096)); try done; try lia].
    + intros [] k2 (p2&HI2&Hm2&Hf2&Hc2). apply wp_ret. right. split; [done|].
      exists p2, G1. split_and!; try done.
      * eapply keep_trans; [by apply grow_keep|]. split; [|done].
        intros a [Ha Hra]. split; [|by rewrite Hm2]. split; [|done]. by rewrite Hf2.
      * intros g. unfold extra. rewrite Hc2. specialize (Hx1 g). unfold extra in Hx1.
        unfold pte_at in Hx1. rewrite Hcl in Hx1. simpl in Hx1. rewrite contrib_0 in Hx1.
        unfold contrib in Hx1. rewrite Hfr in Hx1.
        assert (Z.lor e PTE_P ≠ 0) by apply lor_P_nonzero.
        repeat case_decide; try lia; exfalso; intuition.
      * apply (g_shm _ _ _ _ _ _ Hg1).
      * intros g Hg0. rewrite Hc2, (g_count _ _ _ _ _ _ Hg1) by done. done.
      * by rewrite Hf2.
    + intros d' vp' e' Hl' Hvp' Hf' HW'. rewrite (g_shm _ _ _ _ _ _ Hg1).
      rewrite Hpt1, set_pte_lookup in Hl' by apply lor_P_nonzero. case_decide as Hd'.
      * simplify_eq. rewrite HWP in HW'. auto.
      * destruct (decide ((d, va / 4096) = (d', vp'))) as [[= <- <-]|Hne].
        { simplify_eq. auto. }
        rewrite <- Hf'. by eapply (two_entries_shm k p G d (va / 4096) e d' vp' e').
Qed.

(** ** Marking the parent's page *)

Lemma set_pte_twice G d vp e e' :
  e ≠ 0 → e' ≠ 0 → set_pte (set_pte G d vp e) d vp e' = set_pte G d vp e'.
Proof.
  intros He He'. unfold set_pte. simpl. rewrite !(proj2 (Z.eqb_neq _ 0)) by done.
  by rewrite insert_insert_eq.
Qed.

Lemma mark_cow_spec k p G d va f e :
  Inv0 kend k p G → is_u32 va → slot G d va f → ptes G !! (d, va / 4096) = Some e →
  is_u32 e → 4096 ≤ e →
  wp (mark_cow (kva f + 4 * PTX va)) k (λ _ k',
    Inv0 kend k' p (set_pte G d (va / 4096) (cowed e)) ∧
    (∀ g, extra p (set_pte G d (va / 4096) (cowed e)) g = extra p G g) ∧
    grow k p G k' p (set_pte G d (va / 4096) (cowed e))).
Proof.
  intros HI Hva Hs Hl Hu He. destruct (cowed_facts e Hu He) as (H1&H2&H3&H4).
  assert (Hnz : Z.lor e PTE_COW ≠ 0) by (apply lor_nonzero; lia).
  unfold mark_cow. apply wp_bind. unfold wp at 1. erewrite (load_slot kend) by done.
  unfold pte_at at 1. rewrite Hl. simpl default. apply wp_bind.
  eapply wp_mono; [|eapply (store_flags kend k p G d va f e (Z.lor e PTE_COW)); try done].
  2:{ by apply set_u32. } 2:{ by apply frame_set. } 2:{ intros HW _. left. by flags. }
  intros [] k1 (HI1&Hx1&Hg1&_). set (G1 := set_pte G d (va / 4096) (Z.lor e PTE_COW)) in *.
  assert (Hl1 : ptes G1 !! (d, va / 4096) = Some (Z.lor e PTE_COW)).
  { unfold G1. by rewrite set_pte_lookup, decide_True. }
  apply wp_bind. unfold wp at 1. erewrite (load_slot kend _ _ G1) by done.
  unfold pte_at at 1. rewrite Hl1. simpl default.
  eapply wp_mono; [|eapply (store_flags kend k1 p G1 d va f (Z.lor e PTE_COW) (cowed e)); try done].
  2:{ rewrite H3. symmetry. by apply frame_set. } 2:{ intros HW. congruence. }
  intros [] k2 (HI2&Hx2&Hg2&_). unfold G1 in *. rewrite set_pte_twice in * by done.
  split_and!; [done| |by eapply grow_trans]. intros g. by rewrite Hx2, Hx1.
Qed.

(** ** One iteration of cowuvm *)

Definition kind_shm (kd : kind) (o : option Z) (s : gset Z) : gset Z :=
  match kd, o with KShm, Some e => {[e / 4096]} ∪ s | _, _ => s end.

Lemma kind_shm_elem kd o s f :
  f ∈ kind_shm kd o s ↔ f ∈ s ∨ (kd = KShm ∧ ∃ e, o = Some e ∧ e / 4096 = f).
Proof.
  unfold kind_shm. destruct kd, o as [e|]; rewrite ?elem_of_union, ?elem_of_singleton;
    naive_solver.
Qed.

Record cow_page_at k p G d c pr v k' p' G' : Prop := {
  cp_inv : Inv0 kend k' p' G';
  cp_keep : keep k p G k' p' G';
  cp_extra g : extra p' G' g = extra p G g;
  cp_ptes d' u : ptes G' !! (d', u) =
    if decide (d' = d ∧ u = v) then parent_entry (page_kind pr (v * 4096)) <$> ptes G !! (d, v)
    else if decide (d' = c ∧ u = v) then ptes G !! (d, v) ≫= child_entry pr (v * 4096)
    else ptes G !! (d', u);
  cp_shm : shm G' = kind_shm (page_kind pr (v * 4096)) (ptes G !! (d, v)) (shm G);
  cp_count g : Pool.count p g ≠ 0 → Pool.count p g ≤ Pool.count p' g ≤ Pool.count p g + 1;
  cp_cost : (length (Pool.free p) ≤ S (length (Pool.free p')))%nat
}.

(** The pages cowuvm relies on: every page it does not skip has an entry, and
    an ordinary page is present. *)
Definition cow_ok G (d : Z) (pr : proc) (v : Z) : Prop :=
  match page_kind pr (v * 4096) with
  | KSkip => True
  | KPlain => ∃ e, ptes G !! (d, v) = Some e ∧ has e PTE_P = true
  | _ => ∃ e, ptes G !! (d, v) = Some e
  end.

(** The shared part: the child gets the parent's (new) entry. *)
Lemma cow_page_share k p G d c pr v f e e1 k1 G1 (rest : K kmem (option unit)) :
  let kd := page_kind pr (v * 4096) in
  Bal p G → is_dir G c → d ≠ c → 1 ≤ v < UPAGES →
  slot G d (v * 4096) f → ptes G !! (d, v) = Some e → ptes G !! (c, v) = None →
  e1 = parent_entry kd e → kd ≠ KSkip →
  Pool.count p (e / 4096) + 1 < 4294967296 →
  Inv0 kend k1 p G1 → (∀ g, extra p G1 g = extra p G g) → keep k p G k1 p G1 →
  (∀ d' u, ptes G1 !! (d', u) =
     if decide (d' = d ∧ u = v) then Some e1 else ptes G !! (d', u)) →
  roles G1 = roles G → shm G1 = kind_shm kd (Some e) (shm G) → is_u32 e → 4096 ≤ e →
  (∀ k2 p2 G2, Inv0 kend k2 p2 G2 → keep k p G k2 p2 G2 → (∀ g, extra p2 G2 g = extra p G g) →
     (∀ d' u, ptes G2 !! (d', u) =
        if decide (d' = c ∧ u = v) then Some (Z.lor e1 PTE_P)
        else if decide (d' = d ∧ u = v) then Some e1 else ptes G !! (d', u)) →
     shm G2 = kind_shm kd (Some e) (shm G) →
     (∀ g, Pool.count p g ≠ 0 → Pool.count p g ≤ Pool.count p2 g ≤ Pool.count p g + 1) →
     (length (Pool.free p) ≤ S (length (Pool.free p2)))%nat →
     wp rest k2 (λ o k', o = None ∧ ∃ p' G', cow_page_at k p G d c pr v k' p' G')) →
  wp (share_page c (v * 4096) (kva f + 4 * PTX (v * 4096)) ≫= λ o,
      match o with Some _ => mret o | None => rest end) k1
    (λ o k', o = Some tt ∧ Pool.free p = [] ∨
             o = None ∧ ∃ p' G', cow_page_at k p G d c pr v k' p' G').
Proof.
  intros kd HB Hc Hdc Hv Hs Hl Hcl He1 Hkd Hmax HI1 Hx1 Hk1 Hpt1 Hr1 Hshm1 Hu He Hrest.
  assert (HU : UPAGES = 524288) by done.
  assert (Hva : is_u32 (v * 4096)) by (unfold is_u32; lia).
  assert (Hdiv : v * 4096 / 4096 = v) by (by rewrite Z.div_mul).
  destruct (parent_entry_facts kd e Hu He) as (Hu1&Hnz1&Hf1&HW1). rewrite <- He1 in *.
  assert (Hl1 : ptes G1 !! (d, v) = Some e1) by (by rewrite Hpt1, decide_True).
  apply wp_bind. eapply wp_mono; [|eapply (share_spec k1 p G1 d c (v * 4096) f e1);
    rewrite ?Hdiv; try done].
  - intros o k2 [[-> Hfree]|(->&p2&G2&HI2&Hk2&Hx2&Hpt2&Hshm2&Hc2&Hcost)].
    { apply wp_ret. by left. }
    eapply wp_mono; [|apply (Hrest k2 p2 G2)]; try done.
    + intros o k' [-> H]. by right.
    + by eapply keep_trans.
    + intros g. by rewrite Hx2, Hx1.
    + intros d' u. rewrite Hpt2, Hdiv, set_pte_lookup by apply lor_P_nonzero.
      case_decide; [done|]. apply Hpt1.
    + by rewrite Hshm2.
    + intros g Hg. rewrite Hc2 by done. case_decide; lia.
  - intros g. rewrite Hx1. apply HB.
  - by eapply is_dir_same.
  - zlia.
  - lia.
  - unfold slot. by rewrite Hr1.
  - rewrite Hpt1, decide_False by naive_solver. done.
  - intros [Hk|Hk]%HW1; [|done]. rewrite Hf1, Hshm1, Hk. simpl. set_solver.
  - by rewrite Hf1.
Qed.

Lemma cow_page_finish k p G d c pr v e ce k2 p2 G2 :
  d ≠ c → ptes G !! (d, v) = Some e → child_entry pr (v * 4096) e = Some ce →
  Inv0 kend k2 p2 G2 → keep k p G k2 p2 G2 → (∀ g, extra p2 G2 g = extra p G g) →
  (∀ d' u, ptes G2 !! (d', u) =
     if decide (d' = c ∧ u = v) then Some ce
     else if decide (d' = d ∧ u = v) then Some (parent_entry (page_kind pr (v * 4096)) e)
     else ptes G !! (d', u)) →
  shm G2 = kind_shm (page_kind pr (v * 4096)) (Some e) (shm G) →
  (∀ g, Pool.count p g ≠ 0 → Pool.count p g ≤ Pool.count p2 g ≤ Pool.count p g + 1) →
  (length (Pool.free p) ≤ S (length (Pool.free p2)))%nat →
  cow_page_at k p G d c pr v k2 p2 G2.
Proof.
  intros Hdc Hl Hce HI2 Hk2 Hx2 Hpt2 Hshm2 Hc2 Hcost. split; try done.
  - intros d' u. rewrite Hpt2, Hl. simpl. rewrite Hce. repeat case_decide; try done.
    naive_solver.
  - by rewrite Hl.
Qed.

(** Hiding the guard page of the child. *)
Lemma hide_child k p G c va e :
  Inv0 kend k p G → Bal p G → is_dir G c → is_u32 va → va / 4096 < UPAGES →
  ptes G !! (c, va / 4096) = Some e →
  let e' := Z.land (Z.land e (Z.lnot PTE_U)) (Z.lnot PTE_P) in
  wp (clearpteu c va ≫= λ _, clearptep c va) k (λ _ k',
    Inv0 kend k' p (set_pte G c (va / 4096) e') ∧ e' ≠ 0 ∧
    (∀ g, extra p (set_pte G c (va / 4096) e') g = extra p G g) ∧
    grow k p G k' p (set_pte G c (va / 4096) e')).
Proof.
  intros HI HB Hc Hva Hvp Hl e'.
  destruct (entry_frame kend _ _ _ _ _ _ HI HB Hl Hvp) as (Hu&Hnz&Hg&Hr&Hcnt).
  pose proof (entry_big kend Hkend _ _ _ _ _ _ HI HB Hl Hvp) as He.
  assert (He1 : 4096 ≤ Z.land e (Z.lnot PTE_U)).
  { pose proof (frame_clear e PTE_U ltac:(done)) as Hf. zlia. }
  assert (Hnz1 : Z.land e (Z.lnot PTE_U) ≠ 0) by lia.
  assert (Hnz' : e' ≠ 0) by (by apply clear_nonzero).
  apply wp_bind. unfold clearpteu.
  eapply wp_mono; [|eapply (update_pte_spec kend k p G c va e "clearpteu"
    (λ e, Z.land e (Z.lnot PTE_U))); try done].
  2:{ by apply clear_u32. } 2:{ by apply frame_clear. } 2:{ intros HW _. left. by flags. }
  intros [] k1 (HI1&Hx1&Hg1). unfold clearptep.
  eapply wp_mono; [|eapply (update_pte_spec kend k1 p _ c va (Z.land e (Z.lnot PTE_U)) "clearptep"
    (λ e, Z.land e (Z.lnot PTE_P))); try done].
  2:{ by rewrite set_pte_lookup, decide_True. }
  2:{ apply clear_u32; [done|]. by apply clear_u32. } 2:{ by apply frame_clear. }
  2:{ intros HW _. left. by flags. }
  intros [] k2 (HI2&Hx2&Hg2). rewrite set_pte_twice in * by done.
  split_and!; [done..| |by eapply grow_trans]. intros g. by rewrite Hx2, Hx1.
Qed.

Lemma cow_page_cases d c pr i :
  cow_page d c pr i =
  match page_kind pr i with
  | KSkip => mret None
  | KShm => cow_shm d c i
  | KStack => cow_stack d c i (p_guardpg pr)
  | KPlain => cow_plain d c i
  end.
Proof. unfold cow_page, page_kind. by repeat case_match. Qed.

Section iteration.
Context k p G (d c : Z) (pr : proc) (v : Z).
Hypothesis (HI : Inv0 kend k p G) (HB : Bal p G).
Hypothesis (Hc : is_dir G c) (Hdc : d ≠ c) (Hv : 1 ≤ v < UPAGES).
Hypothesis (Hcl : ptes G !! (c, v) = None).
Hypothesis (Hmax : ∀ e, ptes G !! (d, v) = Some e → Pool.count p (e / 4096) + 1 < 4294967296).

Local Abbreviation post := (λ (o : option unit) k',
  o = Some tt ∧ Pool.free p = [] ∨ o = None ∧ ∃ p' G', cow_page_at k p G d c pr v k' p' G').

Lemma page_va : is_u32 (v * 4096) ∧ v * 4096 / 4096 = v.
Proof.
  assert (HU : UPAGES = 524288) by done. rewrite Z.div_mul by done. unfold is_u32. lia.
Qed.

Lemma entry_slot e : ptes G !! (d, v) = Some e →
  ∃ f, slot G d (v * 4096) f ∧ good_page kend f ∧ is_u32 e ∧ 4096 ≤ e.
Proof.
  destruct page_va as [Hva Hdiv].
  intros Hl. destruct (enc_dom _ _ _ (i_enc _ _ _ _ HI) _ _ _ Hl) as (?&_&_&f&Hf).
  exists f. unfold slot. rewrite PDX_vp, Hdiv by done. split_and!; [done| |done|].
  - by eapply enc_good; [apply HI|].
  - eapply (entry_big kend Hkend k p G d v); try done; lia.
Qed.

Lemma cow_skip_page : page_kind pr (v * 4096) = KSkip → cow_page_at k p G d c pr v k p G.
Proof.
  intros Hk. split; try done; [|by rewrite Hk|lia|lia].
  intros d' u. rewrite Hk. destruct (decide (d' = d ∧ u = v)) as [[-> ->]|_].
  - by destruct (ptes G !! (d, v)).
  - destruct (decide (d' = c ∧ u = v)) as [[-> ->]|_]; [|done].
    rewrite Hcl. destruct (ptes G !! (d, v)); [|done]. simpl.
    unfold child_entry. by rewrite Hk.
Qed.

Lemma cow_shm_page e :
  page_kind pr (v * 4096) = KShm → ptes G !! (d, v) = Some e → wp (cow_shm d c (v * 4096)) k post.
Proof.
  intros Hk Hl. destruct page_va as [Hva Hdiv]. destruct (entry_slot e Hl) as (f&Hs&Hg&Hu&He).
  pose proof (Hmax e Hl) as Hmax1.
  unfold cow_shm. apply wp_bind. unfold wp at 1. erewrite (walk_slot kend) by done.
  rewrite (slot_pte_nonzero kend) by done. apply wp_pass.
  eapply (cow_page_share k p G d c pr v f e e k (add_shm G (e / 4096))); rewrite ?Hk; try done.
  - by apply Inv0_add_shm.
  - intros d' u. simpl. by destruct (decide (d' = d ∧ u = v)) as [[-> ->]|_].
  - intros k2 p2 G2 HI2 Hk2 Hx2 Hpt2 Hshm2 Hc2 Hcost. apply wp_ret. split; [done|].
    exists p2, G2. eapply cow_page_finish; rewrite ?Hk; try done.
    unfold child_entry. by rewrite Hk.
Qed.

Lemma cow_stack_page e :
  page_kind pr (v * 4096) = KStack → ptes G !! (d, v) = Some e →
  wp (cow_stack d c (v * 4096) (p_guardpg pr)) k post.
Proof.
  intros Hk Hl. destruct page_va as [Hva Hdiv]. destruct (entry_slot e Hl) as (f&Hs&Hg&Hu&He).
  pose proof (Hmax e Hl) as Hmax1.
  unfold cow_stack. apply wp_bind. unfold wp at 1. erewrite (walk_slot kend) by done.
  rewrite (slot_pte_nonzero kend) by done. apply wp_bind.
  destruct (cowed_facts e Hu He) as (_&Hnz1&_).
  eapply wp_mono; [|eapply (mark_cow_spec k p G d (v * 4096) f e); rewrite ?Hdiv; done].
  intros [] k1 (HI1&Hx1&Hg1). rewrite Hdiv in *.
  eapply (cow_page_share k p G d c pr v f e (cowed e) k1); rewrite ?Hk; try done.
  - by apply grow_keep.
  - intros d' u. by apply set_pte_lookup.
  - intros k2 p2 G2 HI2 Hk2 Hx2 Hpt2 Hshm2 Hc2 Hcost.
    destruct (Z.eqb_spec (v * 4096) (p_guardpg pr)) as [Heq|Hne].
    + simpl when. rewrite <- Heq. apply wp_bind.
      eapply wp_mono; [|eapply (hide_child k2 p2 G2 c (v * 4096) (Z.lor (cowed e) PTE_P));
        rewrite ?Hdiv; try done].
      * intros [] k3 (HI3&Hnz3&Hx3&Hg3). rewrite Hdiv in *. apply wp_ret. split; [done|].
        eexists p2, _. eapply (cow_page_finish k p G d c pr v e); rewrite ?Hk; try done.
        -- unfold child_entry. rewrite Hk. simpl. by rewrite Heq, Z.eqb_refl.
        -- eapply keep_trans; [done|]. by apply grow_keep.
        -- intros g. by rewrite Hx3, Hx2.
        -- intros d' u. rewrite set_pte_lookup by done. case_decide as Hcu; [done|].
           rewrite Hpt2. by rewrite decide_False.
      * intros g. rewrite Hx2. apply HB.
      * by eapply keep_is_dir.
      * apply Hv.
      * by rewrite Hpt2, decide_True.
    + apply wp_bind, wp_ret, wp_ret. split; [done|]. exists p2, G2.
      eapply cow_page_finish; rewrite ?Hk; try done. unfold child_entry. rewrite Hk.
      by rewrite (proj2 (Z.eqb_neq _ _)).
Qed.

Lemma cow_plain_page e :
  page_kind pr (v * 4096) = KPlain → ptes G !! (d, v) = Some e → has e PTE_P = true →
  wp (cow_plain d c (v * 4096)) k post.
Proof.
  intros Hk Hl HP. destruct page_va as [Hva Hdiv]. destruct (entry_slot e Hl) as (f&Hs&Hg&Hu&He).
  pose proof (Hmax e Hl) as Hmax1.
  unfold cow_plain. apply wp_bind. unfold wp at 1. erewrite (walk_slot kend) by done.
  rewrite (slot_pte_nonzero kend) by done. apply wp_bind. unfold wp at 1.
  erewrite (load_slot kend) by done. unfold pte_at. rewrite Hdiv, Hl. simpl default.
  rewrite HP. simpl negb. cbv iota. apply wp_bind.
  destruct (cowed_facts e Hu He) as (_&Hnz1&_).
  assert (Hfin : ∀ k2 p2 G2 e1, e1 = parent_entry (page_kind pr (v * 4096)) e →
    Inv0 kend k2 p2 G2 → keep k p G k2 p2 G2 → (∀ g, extra p2 G2 g = extra p G g) →
    (∀ d' u, ptes G2 !! (d', u) =
      if decide (d' = c ∧ u = v) then Some (Z.lor e1 PTE_P)
      else if decide (d' = d ∧ u = v) then Some e1 else ptes G !! (d', u)) →
    shm G2 = kind_shm KPlain (Some e) (shm G) →
    (∀ g, Pool.count p g ≠ 0 → Pool.count p g ≤ Pool.count p2 g ≤ Pool.count p g + 1) →
    (length (Pool.free p) ≤ S (length (Pool.free p2)))%nat →
    wp (mret None) k2 (λ o k', o = @None unit ∧ ∃ p' G', cow_page_at k p G d c pr v k' p' G')).
  { intros k2 p2 G2 e1 -> HI2 Hk2 Hx2 Hpt2 Hshm2 Hc2 Hcost. apply wp_ret. split; [done|].
    exists p2, G2. eapply cow_page_finish; rewrite ?Hk in *; try done.
    unfold child_entry. by rewrite Hk. }
  destruct (has e PTE_W) eqn:HW; simpl when.
  - eapply wp_mono; [|eapply (mark_cow_spec k p G d (v * 4096) f e); rewrite ?Hdiv; done].
    intros [] k1 (HI1&Hx1&Hg1). rewrite Hdiv in *. apply wp_pass.
    eapply (cow_page_share k p G d c pr v f e (cowed e) k1); rewrite ?Hk; try done.
    + simpl. by rewrite HW.
    + by apply grow_keep.
    + intros d' u. by apply set_pte_lookup.
    + intros k2 p2 G2. intros. eapply Hfin; try done. rewrite Hk. simpl. by rewrite HW.
  - apply wp_ret, wp_pass.
    eapply (cow_page_share k p G d c pr v f e e k G); rewrite ?Hk; try done.
    + simpl. by rewrite HW.
    + intros d' u. by destruct (decide (d' = d ∧ u = v)) as [[-> ->]|_].
    + intros k2 p2 G2. intros. eapply Hfin; try done. rewrite Hk. simpl. by rewrite HW.
Qed.

Lemma cow_page_spec : cow_ok G d pr v → wp (cow_page d c pr (v * 4096)) k post.
Proof.
  unfold cow_ok. rewrite cow_page_cases. destruct (page_kind pr (v * 4096)) eqn:Hk.
  - intros _. apply wp_ret. right. split; [done|]. exists p, G. by apply cow_skip_page.
  - intros [e Hl]. by eapply cow_shm_page.
  - intros [e Hl]. by eapply cow_stack_page.
  - intros (e&Hl&HP). by eapply cow_plain_page.
Qed.
End iteration.

(** ** cowuvm *)

Context (kdata : Z).
Hypothesis Hkdata : kdata mod 4096 = 0 ∧ KERNLINK < kdata < KERNBASE + PHYSTOP.

(** The state when the pages below [u] have been shared with the child [c]. *)
Record cow_at k0 p0 G0 d c pr u k p G : Prop := {
  ca_inv : Inv0 kend k p G;
  ca_bal : Bal p G;
  ca_keep : keep k0 p0 G0 k p G;
  ca_extra f : extra p G f = extra p0 G0 f;
  ca_dir : is_dir G c ∧ ¬ is_dir G0 c;
  ca_other d' v : d' ≠ d → d' ≠ c → ptes G !! (d', v) = ptes G0 !! (d', v);
  ca_parent v : ptes G !! (d, v) =
    if decide (1 ≤ v < u) then parent_entry (page_kind pr (v * 4096)) <$> ptes G0 !! (d, v)
    else ptes G0 !! (d, v);
  ca_child v : ptes G !! (c, v) =
    if decide (1 ≤ v < u) then ptes G0 !! (d, v) ≫= child_entry pr (v * 4096)
    else kernel_pte kdata v;
  ca_shm f : f ∈ shm G ↔ f ∈ shm G0 ∨ ∃ v e, 1 ≤ v < u ∧
    page_kind pr (v * 4096) = KShm ∧ ptes G0 !! (d, v) = Some e ∧ e / 4096 = f;
  ca_count f : Pool.count p0 f ≠ 0 →
    Pool.count p0 f ≤ Pool.count p f ≤ Pool.count p0 f + (u - 1);
  ca_cost : Z.of_nat (length (Pool.free p0)) ≤ Z.of_nat (length (Pool.free p)) + 122 + (u - 1)
}.

Lemma kernel_pte_user v : v < UPAGES → kernel_pte kdata v = None.
Proof.
  assert (HU : UPAGES = 524288) by done. intros Hv. unfold kernel_pte.
  by rewrite !decide_False by lia.
Qed.

Lemma cow_start k p G d c k' p' G' pr :
  Inv0 kend k p G → is_dir G d → kvm_at kend k p G c (kernel_pte kdata) 122 k' p' G' →
  cow_at k p G d c pr 1 k' p' G'.
Proof.
  intros HI Hd [HIv HBv Hgv Hxv [Hc Hnc] Hov Hmv Hcv].
  assert (Hdc : d ≠ c) by (by intros ->).
  split; try done.
  - by apply grow_keep.
  - intros d' v _ Hne. by apply Hov.
  - intros v. rewrite Hov by done. by rewrite decide_False by lia.
  - intros v. rewrite Hmv. by rewrite decide_False by lia.
  - intros f. rewrite (g_shm _ _ _ _ _ _ Hgv). split; [by left|].
    intros [?|(v&e&Hv&_)]; [done|lia].
  - intros f Hf. rewrite (g_count _ _ _ _ _ _ Hgv) by done. lia.
  - lia.
Qed.

Lemma cow_at_step k0 p0 G0 d c pr v k p G k' p' G' :
  Bal p0 G0 → d ≠ c → 1 ≤ v → cow_at k0 p0 G0 d c pr v k p G →
  cow_page_at k p G d c pr v k' p' G' → cow_at k0 p0 G0 d c pr (v + 1) k' p' G'.
Proof.
  intros HB0 Hdc Hv [HI HB Hk Hx [Hc Hnc] Ho Hp Hch Hs Hcnt Hcost]
    [HI' Hk' Hx' Hpt' Hs' Hcnt' Hcost'].
  assert (Hpv : ptes G !! (d, v) = ptes G0 !! (d, v))
    by (rewrite Hp; by rewrite decide_False by lia).
  assert (Hxx : ∀ f, extra p' G' f = extra p0 G0 f) by (intros f; by rewrite Hx', Hx).
  split; try done.
  - intros f. rewrite Hxx. apply HB0.
  - by eapply keep_trans.
  - split; [|done]. by eapply keep_is_dir.
  - intros d' u Hd' Hc'. rewrite Hpt', !decide_False by naive_solver. by apply Ho.
  - intros u. rewrite Hpt'. destruct (decide (d = d ∧ u = v)) as [[_ ->]|Hne].
    + by rewrite decide_True, Hpv by lia.
    + rewrite decide_False by naive_solver. rewrite Hp.
      repeat case_decide; try done; lia.
  - intros u. rewrite Hpt', (decide_False (P := c = d ∧ u = v)) by naive_solver.
    destruct (decide (c = c ∧ u = v)) as [[_ ->]|Hne].
    + by rewrite decide_True, Hpv by lia.
    + rewrite Hch. repeat case_decide; try done; lia.
  - intros f. rewrite Hs', Hpv, kind_shm_elem, Hs. split.
    + intros [[?|(u&e&Hu&?)]|(Hk1&e&He&Hf)]; [by left|right; exists u, e|right; exists v, e].
      * split; [lia|done].
      * split; [lia|done].
    + intros [?|(u&e&Hu&Hku&Hle&Hfe)]; [by left; left|].
      destruct (decide (u = v)) as [->|Hne]; [right; eauto|].
      left. right. exists u, e. split; [lia|done].
  - intros f Hf. specialize (Hcnt f Hf). specialize (Hcnt' f). specialize (HB0 f).
    unfold extra, tabs in HB0. pose proof (maps_nonneg G0 f). destruct (roles G0 !! f); lia.
  - lia.
Qed.

Lemma cowuvm_spec k p G d pr sz :
  let hi := (sz + 4095) / 4096 in
  Inv0 kend k p G → Bal p G → is_dir G d → 4096 ≤ sz ≤ KERNBASE →
  (∀ v, 1 ≤ v < hi → cow_ok G d pr v) →
  (∀ f, Pool.count p f + hi < 4294967296) →
  122 + hi < Z.of_nat (length (Pool.free p)) →
  wp (cowuvm kend kdata d sz pr) k (λ c k', c ≠ 0 ∧ d ≠ c ∧
    ∃ p' G', cow_at k p G d c pr hi k' p' G').
Proof.
  intros hi HI HB Hd Hsz Hok Hmax Hlen. assert (HU : UPAGES = 524288) by done.
  unfold KERNBASE in Hsz. assert (Hhi : 1 ≤ hi ≤ UPAGES) by (unfold hi; zlia).
  unfold cowuvm. apply wp_bind.
  eapply wp_mono; [|by apply (setupkvm_spec kend Hkend kdata Hkdata k p G)].
  intros c k1 [(->&_&Hl)|(Hc0&p1&G1&Hk1)]; [lia|].
  pose proof (cow_start _ _ _ _ _ _ _ _ pr HI Hd Hk1) as H1.
  assert (Hdc : d ≠ c).
  { intros ->. by destruct (v_new _ _ _ _ _ _ _ _ _ _ Hk1). }
  rewrite (proj2 (Z.eqb_neq c 0)) by done. apply wp_bind.
  eapply (wp_upto _ (λ a k', ∃ v, a = v * 4096 ∧ 1 ≤ v ≤ hi ∧
    ∃ p' G', cow_at k p G d c pr v k' p' G')); [done|unfold PGSIZE; lia|..].
  - intros a k2 Ha (v&->&Hv&p2&G2&Hat). pose proof Hat as [].
    assert (Hvh : v < hi) by (unfold hi in *; zlia).
    assert (Hpv : ptes G2 !! (d, v) = ptes G !! (d, v))
      by (rewrite ca_parent0; by rewrite decide_False by lia).
    eapply wp_mono; [|apply (cow_page_spec k2 p2 G2 d c pr v); try done; try lia].
    + intros o k3 [[-> Hf]|(->&p3&G3&Hp3)].
      * rewrite Hf in ca_cost0. simpl in ca_cost0. lia.
      * exists (v + 1). split_and!; [unfold PGSIZE; lia|lia|lia|].
        exists p3, G3. eapply cow_at_step; try done. lia.
    + apply ca_dir0.
    + rewrite ca_child0, decide_False by lia. apply kernel_pte_user. lia.
    + intros e He. rewrite Hpv in He.
      destruct (entry_frame kend _ _ _ _ _ _ HI HB He ltac:(lia)) as (_&_&_&_&Hc).
      specialize (ca_count0 (e / 4096)). specialize (Hmax (e / 4096)). lia.
    + unfold cow_ok. rewrite Hpv. apply Hok. lia.
  - intros a k2 Ha (v&->&Hv&p2&G2&Hat). apply wp_ret. split_and!; try done.
    exists p2, G2. replace hi with v; [done|]. unfold hi in *. zlia.
  - done.
  - apply upto_fuel_enough. done.
  - exists 1. split_and!; [done|lia|unfold hi; zlia|]. by exists p1, G1.
Qed.
End cow.
