(* ===== verification/Vmexample.v ===== *)
(** A concrete state for the witnesses of the virtual memory theorems: two
    address spaces that share a copy-on-write page, and 300 free frames. *)

From Stdlib Require Import ZArith Lia.
From stdpp Require Import base tactics numbers gmap strings fin_maps list.
From S2P Require Import Prelude Memory Kstring Spinlock Mmu Kalloc Procdef Vm Vminv Vmspec.

#[local] Open Scope Z_scope.

(** ** An allocator state from a free list and the counts of other frames *)

Fixpoint link_runs (l : list Z) (m : gmap Z run) : gmap Z run :=
  match l with
  | [] => m
  | i :: l' => <[i := {| ref_count := 0; next := head l' |}]> (link_runs l' m)
  end.

Definition mk_kmem (l : list Z) (u : gmap Z Z) (m : mem) : kmem := {|
  Kalloc.lock := LFree; use_lock := true; freelist := head l;
  runs := link_runs l ((λ c, {| ref_count := c; next := None |}) <$> u);
  pmem := m |}.
Definition mk_pool (l : list Z) (u : gmap Z Z) : Pool.pool :=
  {| Pool.free := l; Pool.count := λ i, default 0 (u !! i) |}.

Lemma link_runs_out l m i : i ∉ l → link_runs l m !! i = m !! i.
Proof.
  induction l as [|j l IH]; simpl; [done|]. intros [Hne Hi]%not_elem_of_cons.
  rewrite lookup_insert_ne by done. auto.
Qed.
Lemma link_runs_in l m i : i ∈ l → ∃ nx, link_runs l m !! i = Some {| ref_count := 0; next := nx |}.
Proof.
  induction l as [|j l IH]; [by intros ?%elem_of_nil|]. intros Hi. simpl.
  destruct (decide (j = i)) as [->|Hne]; [rewrite lookup_insert_eq; eauto|].
  rewrite lookup_insert_ne by done. apply IH. apply elem_of_cons in Hi as [->|?]; done.
Qed.

Lemma chain_link_runs l m (k : kmem) :
  NoDup l → (∀ i, i ∈ l → runs k !! i = link_runs l m !! i) → chain (links k) (head l) l.
Proof.
  induction l as [|i l IH]; intros Hnd Hk; [done|]. apply NoDup_cons in Hnd as [Hni Hnd].
  simpl. split; [done|].
  assert (links k i = head l) as ->.
  { unfold links, run_at. rewrite Hk by left. simpl. by rewrite lookup_insert_eq. }
  apply IH; [done|]. intros j Hj. rewrite Hk by (by right). simpl.
  rewrite lookup_insert_ne; [done|]. by intros ->.
Qed.

Lemma mk_kmem_R kend l u m :
  NoDup l → (∀ i, i ∈ l → good_page kend i ∧ u !! i = None) →
  (∀ i c, u !! i = Some c → is_u32 c) → mem_wf m → R kend (mk_kmem l u m) (mk_pool l u).
Proof.
  intros Hnd Hl Hu Hm. split; simpl; try done.
  - by eapply chain_link_runs.
  - intros i Hi. by apply Hl.
  - intros i Hi. by rewrite (proj2 (Hl i Hi)).
  - intros i. unfold refs, run_at. simpl. destruct (decide (i ∈ l)) as [Hi|Hi].
    + destruct (link_runs_in l ((λ c, {| ref_count := c; next := None |}) <$> u) i Hi) as [nx ->].
      by rewrite (proj2 (Hl i Hi)).
    + rewrite link_runs_out, lookup_fmap by done. by destruct (u !! i).
  - intros i. destruct (u !! i) eqn:E; simpl; [by eapply Hu|]. unfold is_u32. lia.
Qed.

(** ** Two address spaces *)

(** The first frame after the kernel is 1024; the directories are the frames
    2000 and 2002, with their page tables 2001 and 2003, and both map virtual
    page 1 to frame 2004, read-only and copy-on-write. *)
Definition ex_kend : Z := 2151677952.
Definition ex_free : list Z := seqZ 3000 300.
Definition ex_count : gmap Z Z :=
  {[ 2000 := 1; 2001 := 1; 2002 := 1; 2003 := 1; 2004 := 2 ]}.
Definition ex_entry : Z := 2004 * 4096 + 2053.
Definition ex_mem : mem :=
  wr32 (wr32
    (wr32 (memset (wr32 (memset ∅ (kva 2001) 0 PGSIZE) (kva 2000 + 4 * 0) (2001 * 4096 + 7))
      (kva 2003) 0 PGSIZE) (kva 2002 + 4 * 0) (2003 * 4096 + 7))
    (kva 2001 + 4 * 1) ex_entry) (kva 2003 + 4 * 1) ex_entry.
Definition ex_k : kmem := mk_kmem ex_free ex_count ex_mem.
Definition ex_p : Pool.pool := mk_pool ex_free ex_count.
Definition ex_G : ghost := {|
  roles := {[ 2000 := RDir; 2001 := RTab (kva 2000) 0; 2002 := RDir; 2003 := RTab (kva 2002) 0 ]};
  ptes := {[ (kva 2000, 1) := ex_entry; (kva 2002, 1) := ex_entry ]}; shm := ∅ |}.

Lemma ex_good i : 1024 ≤ i < 57344 → good_page ex_kend i.
Proof. intros. unfold good_page, MAXPAGES, ex_kend, PHYSTOP, PGSIZE, KERNBASE. split; [zlia|lia]. Qed.

Lemma ex_mem_wf : mem_wf ex_mem.
Proof.
  unfold ex_mem. apply mem_wf_wr32, mem_wf_wr32, mem_wf_wr32, mem_wf_memset, mem_wf_wr32,
    mem_wf_memset, mem_wf_empty.
Qed.

Lemma ex_R : R ex_kend ex_k ex_p.
Proof.
  apply mk_kmem_R.
  - apply NoDup_seqZ.
  - intros i Hi%elem_of_seqZ. split; [apply ex_good; lia|].
    unfold ex_count. rewrite !lookup_insert_ne by lia. apply lookup_singleton_ne. lia.
  - intros i c. unfold ex_count. rewrite !lookup_insert_Some, lookup_singleton_Some.
    unfold is_u32. lia.
  - apply ex_mem_wf.
Qed.

Lemma enc_empty kend : enc kend ∅ {| roles := ∅; ptes := ∅; shm := ∅ |}.
Proof.
  split; simpl; intros *; rewrite ?lookup_empty; done.
Qed.

Lemma ex_enc : enc ex_kend ex_mem ex_G.
Proof.
  set (G0 := {| roles := ∅; ptes := ∅; shm := ∅ |}).
  set (G2 := add_tab (add_dir G0 2000) 2001 (kva 2000) 0).
  set (G4 := add_tab (add_dir G2 2002) 2003 (kva 2002) 0).
  assert (HG : ex_G = set_pte (set_pte G4 (kva 2000) (0 * 1024 + 1) ex_entry)
    (kva 2002) (0 * 1024 + 1) ex_entry) by reflexivity.
  rewrite HG. unfold ex_mem. set (m1 := wr32 (memset ∅ _ _ _) _ _).
  assert (H2 : enc ex_kend m1 G2).
  { apply enc_add_tab; [|by exists 2000|done| |by apply ex_good|done].
    - apply enc_add_dir; [apply enc_empty|by apply ex_good|done|].
      intros o Ho. done.
    - intros g. simpl. rewrite lookup_insert. by case_decide. }
  assert (Hz : ∀ o, 0 ≤ o < 4096 → rd8 m1 (kva 2002 + o) = 0).
  { intros o Ho. unfold m1. pose proof (ex_good 2002 ltac:(lia)) as Hg.
    rewrite (rd8_wr32_frame ex_kend); [|by apply ex_good|done|rewrite (frame_at_kva ex_kend); done].
    rewrite (rd8_memset_frame ex_kend);
      [|by apply ex_good|by rewrite (frame_at_kva ex_kend)].
    unfold rd8. by rewrite lookup_empty. }
  clearbody m1. set (m2 := wr32 (memset m1 _ _ _) _ _).
  assert (H4 : enc ex_kend m2 G4).
  { apply enc_add_tab; [|by exists 2002|done| |by apply ex_good|done].
    - by apply enc_add_dir; [|apply ex_good| |].
    - intros g. simpl. rewrite !lookup_insert_Some. intros [[_ [=]]|[_ [[_ [=]]|[_ [[_ [=]]|[_ ?]]]]]].
      done. }
  clearbody m2. apply enc_set_pte; [|done|done|done]. by apply enc_set_pte.
Qed.

Lemma ex_inv : Inv0 ex_kend ex_k ex_p ex_G ∧ Bal ex_p ex_G.
Proof.
  split; [split; [apply ex_R|apply ex_enc| |]|].
  - intros d vp e Hl _ _.
    assert (e = ex_entry) as ->.
    { simpl in Hl. rewrite lookup_insert_Some, lookup_singleton_Some in Hl. naive_solver. }
    split; [by apply ex_good|]. split; [done|]. intros HW. done.
  - intros f r. unfold ex_p, mk_pool, ex_G, ex_count; simpl.
    rewrite !lookup_insert_Some, lookup_singleton_Some. naive_solver.
  - intros f. unfold extra, tabs, ex_p, mk_pool. simpl Pool.count.
    assert (Hm : maps ex_G f = if decide (f = 2004) then 2 else 0).
    { case_decide as Hf; [by subst|]. unfold maps. replace (filter _ _) with (∅ : gmap (Z * Z) Z); [done|].
      symmetry. apply map_empty. intros [d u]. apply map_lookup_filter_None. right.
      intros e He [_ Hc]. simpl in *.
      rewrite lookup_insert_Some, lookup_singleton_Some in He.
      assert (e = ex_entry) as -> by naive_solver. by apply Hf. }
    rewrite Hm. clear Hm.
    destruct (decide (2000 ≤ f ≤ 2004)) as [Hf|Hf].
    + assert (f = 2000 ∨ f = 2001 ∨ f = 2002 ∨ f = 2003 ∨ f = 2004) as Hcases by lia.
      destruct Hcases as [->|[->|[->|[->| ->]]]]; by vm_compute.
    + rewrite decide_False by lia. unfold ex_count, ex_G; simpl roles.
      rewrite !lookup_insert_ne by lia. rewrite !lookup_singleton_ne by lia. done.
Qed.
