(* ===== verification/Fault.v ===== *)
(** User accesses through the page tables and the page fault handler.

    [mmu] is the address translation of the processor for accesses in user
    mode.  The lemmas show what each directory of a state that satisfies the
    invariant lets its process see, that sharing pages in cowuvm does not
    change what anyone sees, and that a store, with the page faults it takes,
    is seen by the process alone unless the page is shared memory. *)

From Stdlib Require Import ZArith Lia.
From stdpp Require Import base tactics numbers gmap strings fin_maps list.
From S2P Require Import Prelude Memory Kstring Spinlock Mmu Kalloc Procdef Vm Vminv Vmspec Vmalloc Cow Vmexample.

#[local] Open Scope Z_scope.

(** An entry lets user mode read, or write. *)
Definition user_ok (e : Z) (write : bool) : bool :=
  has e PTE_P && has e PTE_U && (negb write || has e PTE_W).

Definition mmu (m : mem) (d va : Z) (write : bool) : option Z :=
  let pde := rd32 m (d + 4 * PDX va) in
  if user_ok pde write then
    let pte := rd32 m (P2V (PTE_ADDR pde) + 4 * PTX va) in
    if user_ok pte write then Some (P2V (PTE_ADDR pte) + va mod 4096) else None
  else None.

Definition user_read (k : kmem) (d va : Z) : option Z := rd8 (pmem k) <$> mmu (pmem k) d va false.

(** A store instruction of the running process: the processor translates the
    address; if it may not write there it raises a page fault, with the error
    code for a write in user mode, and the instruction is tried again when the
    handler returns, unless the process was killed.  The result says whether
    the byte was stored. *)
Definition store_byte (a b : Z) : K (kmem * proc) bool :=
  modify (λ s, (set_pmem (wr8 (pmem s.1) a b) s.1, s.2)) ≫= λ _, mret true.

Definition try_store (va b : Z) (fault : K (kmem * proc) bool) : K (kmem * proc) bool := λ s,
  match mmu (pmem s.1) (p_pgdir s.2) va true with
  | Some a => store_byte a b s
  | None => fault s
  end.

Definition fault_code (s : kmem * proc) (va : Z) : Z :=
  Z.lor (Z.lor FEC_WR FEC_U)
    (if mmu (pmem s.1) (p_pgdir s.2) va false then FEC_PR else 0).

Definition user_store (kend va b : Z) : K (kmem * proc) bool :=
  try_store va b (
    gets (λ s, fault_code s va) ≫= λ err,
    set_myproc (λ p, set_tf (set_tf_err err (p_tf p)) p) ≫= λ _,
    pagefault kend va ≫= λ _,
    myproc ≫= λ p,
    if truth (p_killed p) then mret false else try_store va b (mret false)).

Section view.
Context (kend : Z) (Hkend : KERNBASE < kend).
Implicit Types (k : kmem) (p : Pool.pool) (G : ghost).

Lemma mmu_spec k p G d va w :
  Inv0 kend k p G → is_dir G d → is_u32 va →
  mmu (pmem k) d va w =
    if user_ok (pte_at G d (va / 4096)) w
    then Some (kva (pte_at G d (va / 4096) / 4096) + va mod 4096) else None.
Proof.
  intros HI Hd Hva. unfold mmu. pose proof (i_enc _ _ _ _ HI) as He.
  destruct (enc_slot _ _ _ _ _ He Hd (PDX_range _ Hva)) as [(f&Hr&->)|[Hn ->]].
  - assert (Hg := enc_good _ _ _ He _ _ Hr). pose proof (good_bounds _ _ Hg) as Hb.
    destruct (pde_value f Hb) as [HP ->].
    assert (user_ok (f * 4096 + 7) w = true) as ->.
    { unfold user_ok. rewrite HP, <- lor_pte by zlia. by flags. }
    change (P2V (f * 4096)) with (kva f).
    rewrite (enc_pte _ _ _ He _ _ _ _ Hr) by apply PTX_range. rewrite va_vp by done.
    case_match; [|done]. rewrite PTE_ADDR_eq. done.
  - change (user_ok 0 w) with false. rewrite (no_entries kend _ _ _ _ He); [done|].
    intros f. rewrite <- PDX_vp by done. apply Hn.
Qed.

(** The frame behind a user page. *)
Lemma entry_stable k p G d vp e o :
  Inv0 kend k p G → Bal p G → ptes G !! (d, vp) = Some e → vp < UPAGES → 0 ≤ o < 4096 →
  stable p G (kva (e / 4096) + o) ∧ frame_at (kva (e / 4096) + o) = e / 4096.
Proof.
  intros HI HB Hl Hvp Ho. destruct (entry_frame kend _ _ _ _ _ _ HI HB Hl Hvp) as (_&_&Hg&Hr&Hc).
  split; [|by apply (frame_at_kva kend)]. split; rewrite (frame_at_kva kend) by done; [|done].
  intros Hin. apply (R_free _ _ _ (i_R _ _ _ _ HI)) in Hin. lia.
Qed.

(** What a process sees depends on its entry and the bytes of the frame. *)
Lemma user_read_same k p G k' p' G' d d' va :
  Inv0 kend k p G → Bal p G → Inv0 kend k' p' G' → is_dir G d → is_dir G' d' →
  is_u32 va → va / 4096 < UPAGES →
  (user_ok (pte_at G d (va / 4096)) false = user_ok (pte_at G' d' (va / 4096)) false) →
  (∀ e, ptes G !! (d, va / 4096) = Some e →
     pte_at G' d' (va / 4096) / 4096 = e / 4096 ∧
     rd8 (pmem k') (kva (e / 4096) + va mod 4096) = rd8 (pmem k) (kva (e / 4096) + va mod 4096)) →
  user_read k' d' va = user_read k d va.
Proof.
  intros HI HB HI' Hd Hd' Hva Hvp Hok Hsame. unfold user_read.
  rewrite (mmu_spec k p G), (mmu_spec k' p' G') by done. rewrite <- Hok.
  case_match eqn:E; [|done]. simpl. f_equal.
  destruct (ptes G !! (d, va / 4096)) as [e|] eqn:El.
  - destruct (Hsame e eq_refl) as [Hf Hb]. rewrite Hf. unfold pte_at. rewrite El. done.
  - unfold pte_at in E. by rewrite El in E.
Qed.

(** ** Views after cowuvm *)

Lemma parent_entry_read kd e :
  user_ok (parent_entry kd e) false = user_ok e false.
Proof. unfold user_ok, parent_entry, cowed. destruct kd; try done; [|case_match; [|done]]; by flags. Qed.

Lemma parent_entry_pte_at kd G d v :
  default 0 (parent_entry kd <$> ptes G !! (d, v)) =
  match ptes G !! (d, v) with Some e => parent_entry kd e | None => 0 end.
Proof. by destruct (ptes G !! (d, v)). Qed.

Context (kdata : Z).

(** Forking changes nobody's view, in particular not the parent's. *)
Lemma cow_at_view k0 p0 G0 d c pr hi k p G d' va :
  Inv0 kend k0 p0 G0 → Bal p0 G0 → hi ≤ UPAGES → is_dir G0 d' →
  cow_at kend kdata k0 p0 G0 d c pr hi k p G →
  is_u32 va → va / 4096 < UPAGES → user_read k d' va = user_read k0 d' va.
Proof.
  intros HI0 HB0 Hhi Hd' [HI HB Hk Hx [Hc Hnc] Ho Hp Hch Hs Hcnt Hcost] Hva Hvp.
  assert (Hd'c : d' ≠ c) by (by intros ->).
  assert (Hentry : pte_at G d' (va / 4096) =
    match ptes G0 !! (d', va / 4096) with
    | Some e => if decide (d' = d ∧ 1 ≤ va / 4096 < hi)
                then parent_entry (page_kind pr (va / 4096 * 4096)) e else e
    | None => 0 end).
  { unfold pte_at. destruct (decide (d' = d)) as [->|Hne].
    - rewrite Hp. destruct (ptes G0 !! (d, va / 4096)); repeat case_decide; try tauto; done.
    - rewrite Ho by done. destruct (ptes G0 !! (d', va / 4096)); [|done].
      by rewrite decide_False by tauto. }
  eapply (user_read_same k0 p0 G0 k p G d' d' va); try done.
  - by eapply keep_is_dir.
  - rewrite Hentry. unfold pte_at. destruct (ptes G0 !! (d', va / 4096)) as [e|]; [|done].
    simpl. case_decide; [|done]. by rewrite parent_entry_read.
  - intros e He. rewrite Hentry, He.
    destruct (entry_frame kend _ _ _ _ _ _ HI0 HB0 He Hvp) as (Hu&_).
    pose proof (entry_big kend Hkend _ _ _ _ _ _ HI0 HB0 He Hvp) as Hbig.
    split.
    + case_decide; [|done]. by destruct (parent_entry_facts (page_kind pr (va / 4096 * 4096)) e Hu Hbig) as (_&_&->&_).
    + destruct (entry_stable k0 p0 G0 d' _ e (va mod 4096) HI0 HB0 He Hvp) as [Hst _]; [zlia|].
      by destruct (k_data _ _ _ _ _ _ Hk _ Hst).
Qed.

Lemma child_entry_read pr i e ce :
  child_entry pr i e = Some ce → i ≠ p_guardpg pr → has e PTE_P = true →
  user_ok ce false = user_ok e false ∧ (is_u32 e → 4096 ≤ e → ce / 4096 = e / 4096).
Proof.
  unfold child_entry. intros Hce Hi HP.
  assert (ce = Z.lor (parent_entry (page_kind pr i) e) PTE_P) as ->.
  { destruct (page_kind pr i); [done| |rewrite (proj2 (Z.eqb_neq _ _)) in Hce by done|]; congruence. }
  split.
  - rewrite <- (parent_entry_read (page_kind pr i) e). unfold user_ok.
    assert (HP' : has (parent_entry (page_kind pr i) e) PTE_P = true).
    { unfold parent_entry, cowed. destruct (page_kind pr i); try done; [|case_match; [|done]]; by flags. }
    rewrite HP'. by flags.
  - intros Hu He. rewrite frame_set by done. by apply parent_entry_facts.
Qed.

(** The child sees what the parent saw. *)
Lemma cow_at_child k0 p0 G0 d c pr hi k p G va e :
  Inv0 kend k0 p0 G0 → Bal p0 G0 → is_dir G0 d → hi ≤ UPAGES →
  cow_at kend kdata k0 p0 G0 d c pr hi k p G →
  is_u32 va → 1 ≤ va / 4096 < hi → page_kind pr (va / 4096 * 4096) ≠ KSkip →
  va / 4096 * 4096 ≠ p_guardpg pr →
  ptes G0 !! (d, va / 4096) = Some e → has e PTE_P = true →
  user_read k c va = user_read k0 d va.
Proof.
  intros HI0 HB0 Hd Hhi [HI HB Hk Hx [Hc Hnc] Ho Hp Hch Hs Hcnt Hcost] Hva Hv Hkd Hgd He HP.
  destruct (entry_frame kend _ _ _ _ _ _ HI0 HB0 He ltac:(lia)) as (Hu&_).
  pose proof (entry_big kend Hkend _ _ _ _ _ _ HI0 HB0 He ltac:(lia)) as Hbig.
  assert (∃ ce, child_entry pr (va / 4096 * 4096) e = Some ce) as [ce Hce].
  { unfold child_entry. destruct (page_kind pr (va / 4096 * 4096)); [done|eauto..]. }
  destruct (child_entry_read _ _ _ _ Hce Hgd HP) as [Hok Hfr].
  assert (Hpc : pte_at G c (va / 4096) = ce).
  { unfold pte_at. rewrite Hch, decide_True, He by lia. simpl. by rewrite Hce. }
  eapply (user_read_same k0 p0 G0 k p G d c va); try done; try lia.
  - rewrite Hpc. unfold pte_at. rewrite He. simpl. done.
  - intros e' He'. assert (e' = e) as -> by congruence. rewrite Hpc. split; [by apply Hfr|].
    destruct (entry_stable k0 p0 G0 d _ e (va mod 4096) HI0 HB0 He) as [Hst _]; [lia|zlia|].
    by destruct (k_data _ _ _ _ _ _ Hk _ Hst).
Qed.
End view.

(** ** Copy-on-write faults *)

Lemma wp_on_mem {A} (m : K kmem A) k pr (Q : A → kmem * proc → Prop) :
  wp (on_mem m) (k, pr) Q ↔ wp m k (λ a k', Q a (k', pr)).
Proof. unfold wp, on_mem, zoom. simpl. by destruct (m k). Qed.

Lemma wp_run {S A} (m m' : K S A) s Q : m s = m' s → wp m' s Q → wp m s Q.
Proof. unfold wp. by intros ->. Qed.

Lemma bind_on_mem {A B} (m : K kmem A) (f : A → K (kmem * proc) B) k pr a k' :
  m k = Ret a k' → (on_mem m ≫= f) (k, pr) = f a (k', pr).
Proof. intros H. unfold mbind, K_bind, on_mem, zoom. simpl. by rewrite H. Qed.

Section fault.
Context (kend : Z) (Hkend : KERNBASE < kend).
Implicit Types (k : kmem) (p : Pool.pool) (G : ghost).

(** From [(k, p, G)] the entry of a page became [e'], with the same contents,
    and nothing else changed for anybody. *)
Record fault_at k p G d vp e e' k' p' G' : Prop := {
  f_inv : Inv0 kend k' p' G';
  f_bal : Bal p' G';
  f_keep : keep k p G k' p' G';
  f_extra g : extra p' G' g = extra p G g;
  f_ptes : ptes G' = ptes (set_pte G d vp e');
  f_shm : shm G' = shm G;
  f_bytes o : 0 ≤ o < 4096 →
    rd8 (pmem k') (kva (e' / 4096) + o) = rd8 (pmem k) (kva (e / 4096) + o);
  f_flags : has e' PTE_W = true ∧ has e' PTE_COW = false;
  f_single : Pool.count p' (e' / 4096) = 1;
  f_nonzero : e' ≠ 0
}.

Lemma getRefCount_frame k p G f :
  Inv0 kend k p G → good_page kend f → getRefCount (kva f) k = Ret (Pool.count p f) k.
Proof.
  intros HI Hg. rewrite (getRefCount_refines kend k p); rewrite ?(page_of_kva kend) by done;
    [done|apply HI|apply Hg].
Qed.

(** The last reference: the page becomes writable in place. *)
Lemma cow_fault_last k p G pr cr2 va e f :
  let d := p_pgdir pr in
  Inv0 kend k p G → Bal p G → is_u32 va → va / 4096 < UPAGES →
  slot G d va f → ptes G !! (d, va / 4096) = Some e → Pool.count p (e / 4096) = 1 →
  wp (cow_fault cr2 (kva f + 4 * PTX va)) (k, pr) (λ _ s', s'.2 = pr ∧
    ∃ e' G', fault_at k p G d (va / 4096) e e' s'.1 p G' ∧ user_ok e' false = user_ok e false ∧
      has e' PTE_P = has e PTE_P).
Proof.
  intros d HI HB Hva Hvp Hs Hl Hone.
  destruct (entry_frame kend _ _ _ _ _ _ HI HB Hl Hvp) as (Hu&Hnz&Hg&Hr&Hc).
  pose proof (entry_big kend Hkend _ _ _ _ _ _ HI HB Hl Hvp) as Hbig.
  set (e1 := Z.lor e PTE_W). set (e2 := Z.land e1 (Z.lnot PTE_COW)).
  assert (Hf1 : e1 / 4096 = e / 4096) by (by apply frame_set).
  assert (Hf2 : e2 / 4096 = e / 4096) by (unfold e2; by rewrite frame_clear).
  assert (Hnz1 : e1 ≠ 0) by (by apply lor_nonzero).
  assert (Hnz2 : e2 ≠ 0) by (apply clear_nonzero; [done|]; zlia).
  assert (Hu1 : is_u32 e1) by (by apply set_u32).
  assert (Hu2 : is_u32 e2) by (by apply clear_u32).
  unfold cow_fault. apply wp_bind, wp_on_mem. unfold wp at 1. erewrite (load_slot kend) by done.
  unfold pte_at. rewrite Hl. simpl default.
  rewrite frame_P2V by done. apply wp_bind, wp_on_mem. unfold wp at 1.
  rewrite (getRefCount_frame k p G) by done. rewrite Hone. simpl Z.ltb. simpl Z.eqb. cbv iota.
  apply wp_bind, wp_on_mem.
  eapply wp_mono; [|eapply (store_flags kend k p G d va f e e1); try done; intros _ _; by right].
  intros [] k1 (HI1&Hx1&Hg1&_). set (G1 := set_pte G d (va / 4096) e1) in *.
  assert (Hl1 : ptes G1 !! (d, va / 4096) = Some e1)
    by (unfold G1; by rewrite set_pte_lookup, decide_True).
  apply wp_bind, wp_on_mem. unfold wp at 1. erewrite (load_slot kend _ _ G1) by done.
  unfold pte_at. rewrite Hl1. simpl default. fold e2. apply wp_bind, wp_on_mem.
  eapply wp_mono; [|eapply (store_flags kend k1 p G1 d va f e1 e2); try done].
  2:{ by rewrite Hf2. } 2:{ intros HW _. left. unfold e2 in HW. by flags. }
  intros [] k2 (HI2&Hx2&Hg2&_). unfold G1 in HI2, Hx2, Hg2.
  rewrite set_pte_twice in HI2, Hx2, Hg2 by done.
  set (G2 := set_pte G d (va / 4096) e2) in *.
  assert (Hl2 : ptes G2 !! (d, va / 4096) = Some e2)
    by (unfold G2; by rewrite set_pte_lookup, decide_True).
  apply wp_bind, wp_on_mem. unfold wp at 1. erewrite (load_slot kend _ _ G2) by done.
  unfold pte_at. rewrite Hl2. simpl default.
  assert (Hcow : has e2 PTE_COW = false) by (unfold e2; by flags).
  rewrite Hcow, andb_false_r. apply wp_ret. split; [done|]. exists e2, G2.
  assert (Hx : ∀ g, extra p G2 g = extra p G g) by (intros g; by rewrite Hx2, Hx1).
  split; [split; try done|].
  - intros g. rewrite Hx. apply HB.
  - apply grow_keep. by eapply grow_trans.
  - intros o Ho. rewrite Hf2. simpl.
    destruct (entry_stable kend _ _ _ _ _ _ o HI HB Hl Hvp Ho) as [Hst _].
    by destruct (g_data _ _ _ _ _ _ (grow_trans _ _ _ _ _ _ _ _ _ Hg1 Hg2) _ Hst).
  - split; [|done]. unfold e2, e1. by flags.
  - by rewrite Hf2.
  - unfold user_ok, e2, e1. split; by flags.
Qed.

(** newpg = kalloc(); memmove(newpg, v, PGSIZE): a private copy in transit. *)
Lemma copy_frame {A} k p G fr (pr : proc) (rest : Z → K (kmem * proc) A) Q :
  Inv0 kend k p G → Bal p G → Pool.free p ≠ [] → good_page kend fr →
  (1 ≤ Pool.count p fr) → roles G !! fr = None →
  (∀ k2 g l, let p1 := {| Pool.free := l; Pool.count := Pool.upd (Pool.count p) g 1 |} in
     Inv0 kend k2 p1 G → grow k p G k2 p1 G → good_page kend g → g ≠ fr → g ∉ l →
     roles G !! g = None → Pool.free p = g :: l →
     (∀ x, extra p1 G x = extra p G x + if decide (g = x) then 1 else 0) →
     (∀ o, 0 ≤ o < 4096 → rd8 (pmem k2) (kva g + o) = rd8 (pmem k) (kva fr + o)) →
     wp (rest (kva g)) (k2, pr) Q) →
  wp (on_mem kalloc ≫= λ newpg, on_mem (memmove_at newpg (kva fr) PGSIZE) ≫= λ _, rest newpg)
    (k, pr) Q.
Proof.
  intros HI HB Hne Hg Hc Hr Hrest. apply wp_bind, wp_on_mem.
  eapply wp_mono; [|by apply (kalloc_vm kend k p G)].
  intros v k1 (Hm&[(->&Hfree&_)|(g&l&->&Hfree&Hgg&Hcg&Hrg&Hmg&Hl&HI1)]); [done|].
  assert (Hgf : g ≠ fr) by (intros ->; lia). pose proof (i_R _ _ _ _ HI1) as HR1.
  apply wp_bind, wp_on_mem. unfold wp at 1, memmove_at. rewrite (kva_nonzero kend) by done.
  simpl. assert (Hwf : mem_wf (pmem k1)) by apply HR1.
  assert (Hdata : ∀ a, frame_at a ≠ g → rd8 (memmove (pmem k1) (kva g) (kva fr) PGSIZE) a =
    rd8 (pmem k) a).
  { intros a Ha. rewrite <- Hm. replace (kva g) with (kva g + 0) by lia.
    apply (rd8_memmove_frame kend); try done. }
  eapply (Hrest _ g l); try done.
  - destruct HI1 as [_ He1 Hp1 Ht1]. split; [|simpl|done|done].
    + apply R_set_pmem; [by apply mem_wf_memmove|done].
    + eapply enc_data; [|done]. intros h r Hh. eapply (same_page_memmove kend); try done.
      * by eapply enc_good.
      * congruence.
  - split; [|done| |done].
    + intros a [Ha Hra]. rewrite Hfree in Ha. apply not_elem_of_cons in Ha as [Hag Ha].
      split; [done|]. simpl. by apply Hdata.
    + intros x Hx. simpl. unfold Pool.upd. rewrite decide_False by congruence. done.
  - intros x. by apply extra_alloc.
  - intros o Ho. simpl. unfold PGSIZE. rewrite rd8_memmove by (done || lia).
    rewrite decide_True by lia. rewrite Hm. f_equal. lia.
Qed.

Definition private_entry (g e : Z) : Z :=
  Z.land (Z.lor (Z.lor (Z.lor (Z.lor (g * 4096) (PTE_FLAGS e)) PTE_P) PTE_W) PTE_U)
    (Z.lnot PTE_COW).

Lemma private_entry_facts g e :
  1 ≤ g < 57344 →
  let e1 := Z.lor (Z.lor (Z.lor (Z.lor (g * 4096) (PTE_FLAGS e)) PTE_P) PTE_W) PTE_U in
  let e2 := private_entry g e in
  is_u32 e1 ∧ e1 ≠ 0 ∧ e1 / 4096 = g ∧ is_u32 e2 ∧ e2 ≠ 0 ∧ e2 / 4096 = g ∧
  has e2 PTE_P = true ∧ has e2 PTE_W = true ∧ has e2 PTE_U = true ∧ has e2 PTE_COW = false.
Proof.
  intros Hg e1 e2. assert (Hfl : 0 ≤ PTE_FLAGS e < 4096) by (rewrite PTE_FLAGS_eq; zlia).
  assert (Hf1 : e1 / 4096 = g).
  { unfold e1. rewrite !frame_set by done. by rewrite Z.div_mul. }
  assert (Hf2 : e2 / 4096 = g) by (unfold e2, private_entry; by rewrite frame_clear).
  split_and!; try done.
  - apply is_u32_frame. lia.
  - intros H0. rewrite H0 in Hf1. zlia.
  - apply is_u32_frame. lia.
  - intros H0. rewrite H0 in Hf2. zlia.
  - unfold e2, private_entry. by flags.
  - unfold e2, private_entry. by flags.
  - unfold e2, private_entry. by flags.
  - unfold e2, private_entry. by flags.
Qed.

(** declRefCount on a frame with other references. *)
Lemma decl_spec k p G f :
  Inv0 kend k p G → good_page kend f → roles G !! f = None → 2 ≤ Pool.count p f →
  (∀ d vp e, ptes G !! (d, vp) = Some e → vp < UPAGES → e / 4096 = f →
     has e PTE_W = true → f ∈ shm G) →
  wp (declRefCount (kva f)) k (λ _ k', ∃ p', Inv0 kend k' p' G ∧ pmem k' = pmem k ∧
    Pool.free p' = Pool.free p ∧ (∀ x, x ≠ f → Pool.count p' x = Pool.count p x) ∧
    (∀ x, extra p' G x = extra p G x - if decide (f = x) then 1 else 0)).
Proof.
  intros HI Hg Hr Hc HW. assert (Hpo := page_of_kva kend f Hg).
  pose proof (count_nonneg kend k p f (i_R _ _ _ _ HI)) as Hu.
  eapply wp_mono; [|apply (declRefCount_refines kend k p (kva f)); rewrite ?Hpo].
  - intros [] k' (HR'&Hm&_). rewrite Hpo in HR'. exists (Pool.decl f p).
    split_and!; [|done|done| |].
    + eapply (Inv0_count kend k k' p); [done|done|rewrite Hm; apply HI|exact Hr| |].
      * intros g Hne. simpl. unfold Pool.upd. by rewrite decide_False.
      * intros d vp e Hl Hvp Hf HWe. right. by eapply HW.
    + intros x Hne. simpl. unfold Pool.upd. by rewrite decide_False.
    + intros x. unfold extra. simpl. unfold Pool.upd. case_decide; [subst|lia].
      rewrite u32_small by (unfold is_u32; lia). lia.
  - apply HI.
  - apply Hg.
  - intros Hin. apply (R_free _ _ _ (i_R _ _ _ _ HI)) in Hin. lia.
Qed.

(** Replacing the shared frame of an entry by the private copy. *)
Lemma swap_frame k2 p1 G d va f e g (fr := e / 4096) p :
  Inv0 kend k2 p1 G → is_u32 va → va / 4096 < UPAGES → slot G d va f →
  ptes G !! (d, va / 4096) = Some e → e ≠ 0 → good_page kend g → g ≠ fr →
  roles G !! g = None → Pool.count p1 g = 1 →
  (∀ x, extra p1 G x = extra p G x + if decide (g = x) then 1 else 0) →
  let e1 := Z.lor (Z.lor (Z.lor (Z.lor (g * 4096) (PTE_FLAGS e)) PTE_P) PTE_W) PTE_U in
  let e2 := private_entry g e in let pte := kva f + 4 * PTX va in
  wp (store32 pte e1 ≫= λ _, load32 pte ≫= λ x, store32 pte (Z.land x (Z.lnot PTE_COW))) k2
    (λ _ k4, let G' := set_pte G d (va / 4096) e2 in
       Inv0 kend k4 p1 G' ∧ grow k2 p1 G k4 p1 G' ∧
       (∀ x, extra p1 G' x = extra p G x + if decide (fr = x) then 1 else 0)).
Proof.
  intros HI Hva Hvp Hs Hl Hnz Hg Hgf Hrg Hone Hx1 e1 e2 pte. subst pte.
  pose proof (good_bounds _ _ Hg). pose proof (good_nonzero kend Hkend _ Hg).
  destruct (private_entry_facts g e) as (Hu1&Hnz1&Hf1&Hu2&Hnz2&Hf2&HP&HW&HU&HC); [lia|].
  fold e1 in Hu1, Hnz1, Hf1. fold e2 in Hu2, Hnz2, Hf2, HP, HW, HU, HC.
  apply wp_bind. eapply wp_mono; [|eapply (store_slot kend k2 p1 G d va f e1); try done].
  2:{ intros _ _. rewrite Hf1. split_and!; [apply Hg..|done|]. by left. }
  intros [] k3 [HI3 Hd3]. set (G3 := set_pte G d (va / 4096) e1) in *.
  assert (Hl3 : ptes G3 !! (d, va / 4096) = Some e1)
    by (unfold G3; by rewrite set_pte_lookup, decide_True).
  assert (Hg3 : grow k2 p1 G k3 p1 G3) by (eapply grow_set_pte; [apply grow_refl|done]).
  apply wp_bind. unfold wp at 1. erewrite (load_slot kend _ _ G3) by done.
  unfold pte_at. rewrite Hl3. simpl default. change (Z.land e1 (Z.lnot PTE_COW)) with e2.
  eapply wp_mono; [|eapply (store_flags kend k3 p1 G3 d va f e1 e2); try done].
  2:{ by rewrite Hf2. } 2:{ intros _ _. right. by rewrite Hf1. }
  intros [] k4 (HI4&Hx4&Hg4&_). unfold G3 in HI4, Hx4, Hg4.
  rewrite set_pte_twice in HI4, Hx4, Hg4 by done.
  split_and!; [done|by eapply grow_trans|]. intros x. rewrite Hx4.
  erewrite (extra_set_pte kend) by apply HI. rewrite Hx1. unfold pte_at. rewrite Hl. simpl.
  unfold contrib. rewrite Hf1. fold fr. repeat case_decide; try lia; exfalso; intuition.
Qed.

Lemma cow_fault_shared k p G pr cr2 va e f :
  let d := p_pgdir pr in
  Inv0 kend k p G → Bal p G → is_u32 va → va / 4096 < UPAGES →
  slot G d va f → ptes G !! (d, va / 4096) = Some e → has e PTE_W = false →
  1 < Pool.count p (e / 4096) → Pool.free p ≠ [] →
  wp (cow_fault cr2 (kva f + 4 * PTX va)) (k, pr) (λ _ s', s'.2 = pr ∧
    ∃ e' p' G', fault_at k p G d (va / 4096) e e' s'.1 p' G' ∧ user_ok e' true = true).
Proof.
  intros d HI HB Hva Hvp Hs Hl HWe Hmany Hmem.
  destruct (entry_frame kend _ _ _ _ _ _ HI HB Hl Hvp) as (Hu&Hnz&Hg&Hr&Hc).
  unfold cow_fault. apply wp_bind, wp_on_mem. unfold wp at 1. erewrite (load_slot kend) by done.
  unfold pte_at. rewrite Hl. simpl default.
  rewrite !frame_P2V by done. apply wp_bind, wp_on_mem. unfold wp at 1.
  rewrite (getRefCount_frame k p G) by done. rewrite (proj2 (Z.ltb_lt _ _)) by done.
  apply (copy_frame k p G (e / 4096)); try done.
  intros k2 g l p1 HI2 Hg2 Hgg Hgf Hgl Hrg Hfree Hx2 Hbytes.
  pose proof (good_bounds _ _ Hgg). pose proof (good_nonzero kend Hkend _ Hgg).
  destruct (private_entry_facts g e) as (_&_&_&_&Hnz2&Hf2&HP&HW&HU&HC); [lia|].
  assert (Hone : Pool.count p1 g = 1) by (unfold p1; simpl; unfold Pool.upd; by rewrite decide_True).
  rewrite (V2P_kva kend) by done.
  apply wp_bind, wp_on_mem. pose proof (swap_frame k2 p1 G d va f e g p HI2 Hva Hvp Hs Hl Hnz Hgg
    Hgf Hrg Hone Hx2) as Hswap. cbv zeta in Hswap. apply wp_bind in Hswap.
  eapply wp_mono; [|exact Hswap]. clear Hswap. intros [] k3 Hswap.
  apply wp_bind in Hswap. apply wp_bind, wp_on_mem. eapply wp_mono; [|exact Hswap].
  clear Hswap. intros x k3' Hswap. apply wp_bind, wp_on_mem. eapply wp_mono; [|exact Hswap].
  clear Hswap k3 k3'. intros [] k4 (HI4&Hg4&Hx4). set (G4 := set_pte G d (va / 4096) _) in *.
  assert (Hl4 : ptes G4 !! (d, va / 4096) = Some (private_entry g e))
    by (unfold G4; by rewrite set_pte_lookup, decide_True).
  assert (Hc1 : Pool.count p1 (e / 4096) = Pool.count p (e / 4096))
    by (unfold p1; simpl; unfold Pool.upd; by rewrite decide_False).
  apply wp_bind, wp_on_mem. eapply wp_mono; [|apply (decl_spec k4 p1 G4 (e / 4096)); try done; try lia].
  - intros [] k5 (p5&HI5&Hm5&Hf5&Hc5&Hx5). apply wp_bind, wp_on_mem. unfold wp at 1.
    erewrite (load_slot kend _ _ G4) by done. unfold pte_at. rewrite Hl4. simpl default.
    rewrite HP. apply wp_ret. split; [done|]. exists (private_entry g e), p5, G4. simpl.
    assert (Hx : ∀ y, extra p5 G4 y = extra p G y).
    { intros y. rewrite Hx5, Hx4. case_decide; lia. }
    assert (Hgt : grow k p G k4 p1 G4) by (by eapply grow_trans).
    split; [split; try done|unfold user_ok; by rewrite HP, HU, HW].
    + intros y. rewrite Hx. apply HB.
    + eapply keep_trans; [by apply grow_keep|]. split; [|done]. intros a [Ha Hra].
      rewrite Hm5. split; [|done]. split; [by rewrite Hf5|done].
    + intros o Ho. rewrite Hf2, Hm5, <- Hbytes by done.
      apply (g_data _ _ _ _ _ _ Hg4). split; rewrite (frame_at_kva kend) by done; done.
    + by rewrite Hf2, Hc5.
  - intros d' vp' e' Hl' Hvp' Hf' HW'.
    unfold G4 in Hl'. rewrite set_pte_lookup in Hl' by done. case_decide as Hd'.
    { simplify_eq. lia. }
    destruct (i_pte _ _ _ _ HI _ _ _ Hl') as (_&_&H'); [|done|].
    { by destruct (enc_dom _ _ _ (i_enc _ _ _ _ HI) _ _ _ Hl') as (_&?&_). }
    destruct (H' HW') as [H1|H1]; rewrite Hf' in H1; [lia|done].
Qed.

(** ** Stores *)

Lemma Inv0_wr8 k p G a b :
  Inv0 kend k p G → roles G !! frame_at a = None →
  Inv0 kend (set_pmem (wr8 (pmem k) a b) k) p G.
Proof.
  intros [HR He Hp Ht] Hr. split; [|simpl|done|done].
  - apply R_set_pmem; [|done]. apply mem_wf_wr8, HR.
  - eapply enc_data; [|done]. intros f r Hf o Ho. apply rd8_wr8_ne. intros ->.
    rewrite (frame_at_kva kend) in Hr by (done || by eapply enc_good). congruence.
Qed.

(** What everybody sees after a byte of the frame of [(d, va)] was stored. *)
Lemma store_view k p G d va e b d' va' :
  Inv0 kend k p G → Bal p G → ptes G !! (d, va / 4096) = Some e → is_u32 va →
  va / 4096 < UPAGES → is_dir G d' → is_u32 va' → va' / 4096 < UPAGES →
  let k' := set_pmem (wr8 (pmem k) (kva (e / 4096) + va mod 4096) b) k in
  user_read k' d' va' =
    if decide (pte_at G d' (va' / 4096) / 4096 = e / 4096 ∧ va' mod 4096 = va mod 4096)
    then (λ _, u8 b) <$> user_read k d' va' else user_read k d' va'.
Proof.
  intros HI HB Hl Hva Hvp Hd' Hva' Hvp' k'.
  destruct (entry_stable kend _ _ _ _ _ _ (va mod 4096) HI HB Hl Hvp) as [[_ Hr] _]; [zlia|].
  assert (HI' : Inv0 kend k' p G) by (by apply Inv0_wr8). unfold user_read.
  rewrite (mmu_spec kend k p G), (mmu_spec kend k' p G) by done.
  destruct (user_ok (pte_at G d' (va' / 4096)) false) eqn:Eok; simpl;
    [|by case_decide].
  assert (Hl' : ptes G !! (d', va' / 4096) = Some (pte_at G d' (va' / 4096))).
  { apply pte_at_Some; [done|]. intros H0. by rewrite H0 in Eok. }
  destruct (entry_frame kend _ _ _ _ _ _ HI HB Hl Hvp) as (_&_&Hg&_).
  destruct (entry_frame kend _ _ _ _ _ _ HI HB Hl' Hvp') as (_&_&Hg'&_).
  rewrite rd8_wr8, (kva_good kend _ Hg), (kva_good kend _ Hg').
  repeat case_decide; try done; exfalso; zlia.
Qed.

(** A frame with a single reference is seen by nobody else. *)
Lemma single_view k p G d va e b d' va' :
  Inv0 kend k p G → Bal p G → ptes G !! (d, va / 4096) = Some e → is_u32 va →
  va / 4096 < UPAGES → Pool.count p (e / 4096) = 1 →
  is_dir G d' → is_u32 va' → va' / 4096 < UPAGES → (d', va') ≠ (d, va) →
  user_read (set_pmem (wr8 (pmem k) (kva (e / 4096) + va mod 4096) b) k) d' va' =
  user_read k d' va'.
Proof.
  intros HI HB Hl Hva Hvp Hone Hd' Hva' Hvp' Hne. erewrite (store_view k p G d va e); try done.
  case_decide as Hc; [|done]. destruct Hc as [Hf Ho]. unfold user_read.
  rewrite (mmu_spec kend k p G) by done.
  destruct (user_ok (pte_at G d' (va' / 4096)) false) eqn:Eok; simpl; [|done]. exfalso.
  assert (Hl' : ptes G !! (d', va' / 4096) = Some (pte_at G d' (va' / 4096))).
  { apply pte_at_Some; [done|]. intros H0. by rewrite H0 in Eok. }
  assert (2 ≤ maps G (e / 4096)).
  { eapply (maps_two G d (va / 4096) e d' (va' / 4096)); try done. intros [= -> Hv].
    apply Hne. f_equal. zlia. }
  destruct (entry_frame kend _ _ _ _ _ _ HI HB Hl Hvp) as (_&_&_&Hr&_).
  specialize (HB (e / 4096)). unfold extra, tabs in HB. rewrite Hr in HB. lia.
Qed.

(** ** The handler on a copy-on-write page *)

Lemma page_base cr2 : is_u32 cr2 →
  is_u32 (PGROUNDDOWN cr2) ∧ PGROUNDDOWN cr2 / 4096 = cr2 / 4096.
Proof. intros H. rewrite PGROUNDDOWN_eq. unfold is_u32 in *. split; zlia. Qed.

(** What the handler does for a write, by the entry of the page. *)
Lemma pagefault_write k p G pr cr2 f :
  let d := p_pgdir pr in let e := pte_at G d (cr2 / 4096) in
  Inv0 kend k p G → 0 < cr2 < KERNBASE → slot G d (PGROUNDDOWN cr2) f →
  has (tf_err (p_tf pr)) FEC_WR = true →
  pagefault kend cr2 (k, pr) =
    (if has e PTE_COW then cow_fault cr2 (kva f + 4 * PTX (PGROUNDDOWN cr2)) else
     if negb (has e PTE_P) && (p_stacklastpg pr <=? cr2) && (cr2 <? p_stacktop pr) then grow_stack kend cr2
     else kill_myproc) (k, pr).
Proof.
  intros d e HI Hcr Hs Herr. unfold KERNBASE in Hcr.
  destruct (page_base cr2) as [Hua Hdiv]; [unfold is_u32; lia|].
  assert (Hgf := enc_good _ _ _ (i_enc _ _ _ _ HI) _ _ Hs).
  unfold pagefault. change ((myproc ≫= ?f) (k, pr)) with (f pr (k, pr)). cbv beta zeta.
  rewrite (proj2 (Z.eqb_neq cr2 0)) by lia.
  erewrite bind_on_mem by (by eapply (walk_slot kend)). rewrite (slot_pte_nonzero kend), Herr by done. cbn [negb].
  erewrite bind_on_mem by (by eapply (load_slot kend)). rewrite Hdiv. fold d e.
  by destruct (has e PTE_COW), (has e PTE_P).
Qed.

Lemma pagefault_cow k p G pr cr2 e :
  let d := p_pgdir pr in
  Inv0 kend k p G → Bal p G → 0 < cr2 < KERNBASE →
  ptes G !! (d, cr2 / 4096) = Some e → has e PTE_P = true → has e PTE_U = true →
  has e PTE_W = false → has e PTE_COW = true → Pool.count p (e / 4096) = 1 ∨ Pool.free p ≠ [] →
  has (tf_err (p_tf pr)) FEC_WR = true →
  wp (pagefault kend cr2) (k, pr) (λ _ s', s'.2 = pr ∧
    ∃ e' p' G', fault_at k p G d (cr2 / 4096) e e' s'.1 p' G' ∧ user_ok e' true = true).
Proof.
  intros d HI HB Hcr Hl HP HU HW HC Hmem Herr. unfold KERNBASE in Hcr.
  assert (HUP : UPAGES = 524288) by done.
  assert (Hu : is_u32 cr2) by (unfold is_u32; lia).
  destruct (page_base cr2 Hu) as [Hua Hdiv].
  assert (Hvp : cr2 / 4096 < UPAGES) by zlia.
  destruct (enc_dom _ _ _ (i_enc _ _ _ _ HI) _ _ _ Hl) as (_&_&_&f&Hf).
  assert (Hs : slot G d (PGROUNDDOWN cr2) f) by (unfold slot; by rewrite PDX_vp, Hdiv).
  destruct (entry_frame kend _ _ _ _ _ _ HI HB Hl Hvp) as (_&_&_&_&Hc).
  eapply wp_run; [apply (pagefault_write k p G pr cr2 f); done || unfold KERNBASE; lia|].
  unfold pte_at. fold d. rewrite Hl. change (default 0 (Some e)) with e. rewrite HC.
  destruct (decide (Pool.count p (e / 4096) = 1)) as [H1|H1].
  - eapply wp_mono; [|eapply (cow_fault_last k p G pr cr2 (PGROUNDDOWN cr2) e f);
      rewrite ?Hdiv; try done].
    intros [] s' (Hpr&e'&G'&Hat&Hok&_). split; [done|]. exists e', p, G'.
    rewrite Hdiv in Hat. split; [done|]. destruct (f_flags _ _ _ _ _ _ _ _ _ _ Hat) as [HW' _].
    unfold user_ok in *. rewrite HP, HU in Hok. simpl in Hok.
    apply andb_true_iff in Hok as [Hok _]. by rewrite Hok, HW'.
  - destruct Hmem as [|Hmem]; [done|].
    eapply wp_mono; [|eapply (cow_fault_shared k p G pr cr2 (PGROUNDDOWN cr2) e f);
      rewrite ?Hdiv; try done; lia].
    intros [] s' (Hpr&e'&p'&G'&Hat&Hok). split; [done|]. exists e', p', G'.
    by rewrite Hdiv in Hat.
Qed.

(** With no frame left, the copy of a shared page goes to address 0. *)
Lemma pagefault_cow_full k p G pr cr2 e :
  let d := p_pgdir pr in
  Inv0 kend k p G → Bal p G → 0 < cr2 < KERNBASE →
  ptes G !! (d, cr2 / 4096) = Some e → has e PTE_COW = true →
  1 < Pool.count p (e / 4096) → Pool.free p = [] → has (tf_err (p_tf pr)) FEC_WR = true →
  pagefault kend cr2 (k, pr) = Fault "NULL".
Proof.
  intros d HI HB Hcr Hl HC Hmany Hfree Herr. unfold KERNBASE in Hcr. assert (HUP : UPAGES = 524288) by done.
  assert (Hu : is_u32 cr2) by (unfold is_u32; lia).
  destruct (page_base cr2 Hu) as [Hua Hdiv]. assert (Hvp : cr2 / 4096 < UPAGES) by zlia.
  destruct (enc_dom _ _ _ (i_enc _ _ _ _ HI) _ _ _ Hl) as (_&_&_&f&Hf).
  assert (Hs : slot G d (PGROUNDDOWN cr2) f) by (unfold slot; by rewrite PDX_vp, Hdiv).
  destruct (entry_frame kend _ _ _ _ _ _ HI HB Hl Hvp) as (Hue&_&Hg&_&_).
  rewrite (pagefault_write k p G pr cr2 f) by (done || unfold KERNBASE; lia).
  unfold pte_at. fold d. rewrite Hl. change (default 0 (Some e)) with e. rewrite HC.
  unfold cow_fault. erewrite bind_on_mem by (by eapply (load_slot kend)).
  unfold pte_at. rewrite Hdiv. fold d. rewrite Hl. change (default 0 (Some e)) with e. cbv zeta.
  rewrite frame_P2V by done. erewrite bind_on_mem by (by apply (getRefCount_frame k p G)).
  rewrite (proj2 (Z.ltb_lt _ _)) by done.
  pose proof (kalloc_vm kend k p G HI HB) as Hka. unfold wp in Hka.
  destruct (kalloc k) as [v k1| | | |] eqn:Ek; try done. rewrite (bind_on_mem _ _ _ _ _ _ Ek).
  destruct Hka as (_&[(->&_)|(g&l&_&Hfl&_)]); [done|congruence].
Qed.

(** Nobody's view of another page changes when the handler changes an entry. *)
Lemma fault_view_other k p G d vp e e' k' p' G' d' va :
  Inv0 kend k p G → Bal p G → fault_at k p G d vp e e' k' p' G' →
  is_dir G d' → is_u32 va → va / 4096 < UPAGES → (d', va / 4096) ≠ (d, vp) →
  user_read k' d' va = user_read k d' va.
Proof.
  intros HI HB [HI' HB' Hk Hx Hpt Hsh Hby _ _ Hnz] Hd' Hva Hvpa Hne.
  assert (Hpe : ptes G' !! (d', va / 4096) = ptes G !! (d', va / 4096)).
  { rewrite Hpt, set_pte_lookup by done. rewrite decide_False; [done|].
    intros [-> Heq]. by rewrite Heq in Hne. }
  eapply (user_read_same kend k p G k' p' G'); try done.
  - by eapply keep_is_dir.
  - unfold pte_at. by rewrite Hpe.
  - intros x Hx'. unfold pte_at. rewrite Hpe, Hx'. split; [done|].
    destruct (entry_stable kend k p G d' _ x (va mod 4096) HI HB Hx') as [Hst _]; [done|zlia|].
    by destruct (k_data _ _ _ _ _ _ Hk _ Hst).
Qed.

(** The process itself sees the old contents through the new entry. *)
Lemma fault_view_self k p G d vp e e' k' p' G' va :
  fault_at k p G d vp e e' k' p' G' → is_dir G d → is_u32 va → va / 4096 = vp →
  user_read k' d va =
    if user_ok e' false then Some (rd8 (pmem k) (kva (e / 4096) + va mod 4096)) else None.
Proof.
  intros [HI' HB' Hk Hx Hpt Hsh Hby _ _ Hnz] Hd Hva Hvp.
  assert (Hp' : pte_at G' d (va / 4096) = e')
    by (unfold pte_at; by rewrite Hpt, Hvp, set_pte_lookup, decide_True).
  unfold user_read. rewrite (mmu_spec kend k' p' G') by (done || by eapply keep_is_dir).
  rewrite Hp'. destruct (user_ok e' false); [|done]. simpl. f_equal. apply Hby. zlia.
Qed.

(** Nobody's view changes when the page stays as accessible as it was. *)
Lemma fault_view k p G d vp e e' k' p' G' d' va :
  Inv0 kend k p G → Bal p G → ptes G !! (d, vp) = Some e →
  user_ok e' false = user_ok e false → fault_at k p G d vp e e' k' p' G' →
  is_dir G d' → is_u32 va → va / 4096 < UPAGES → user_read k' d' va = user_read k d' va.
Proof.
  intros HI HB Hl Hok Hat Hd' Hva Hvpa.
  destruct (decide ((d', va / 4096) = (d, vp))) as [[= -> Heq]|Hne]; [|by eapply fault_view_other].
  rewrite (fault_view_self k p G d vp e e' k' p' G') by done. rewrite Hok. unfold user_read.
  rewrite (mmu_spec kend k p G) by done. unfold pte_at. rewrite Heq, Hl. simpl. by case_match.
Qed.

Lemma wp_try_store va b fault k pr Q :
  wp (try_store va b fault) (k, pr) Q ↔
  match mmu (pmem k) (p_pgdir pr) va true with
  | Some a => Q true (set_pmem (wr8 (pmem k) a b) k, pr)
  | None => wp fault (k, pr) Q
  end.
Proof. unfold wp, try_store. simpl. by destruct (mmu (pmem k) (p_pgdir pr) va true). Qed.

(** The view after a byte of the page with entry [e] was stored at [va]: the store
    is seen through the entries that map a shared memory frame, and only there. *)
Definition seen k G (d va b e : Z) k' : Prop :=
  user_read k' d va = Some (u8 b) ∧
  ∀ d' va', is_dir G d' → is_u32 va' → va' / 4096 < UPAGES → (d', va') ≠ (d, va) →
    user_read k' d' va' =
      if decide (has e PTE_W = true ∧ e / 4096 ∈ shm G ∧
                 pte_at G d' (va' / 4096) / 4096 = e / 4096 ∧ va' mod 4096 = va mod 4096)
      then (λ _, u8 b) <$> user_read k d' va' else user_read k d' va'.

(** A store that the page table allows. *)
Lemma store_allowed k p G pr va b e fault :
  let d := p_pgdir pr in
  Inv0 kend k p G → Bal p G → is_dir G d → is_u32 va → va / 4096 < UPAGES →
  ptes G !! (d, va / 4096) = Some e → user_ok e true = true →
  wp (try_store va b fault) (k, pr) (λ r s', r = true ∧ s'.2 = pr ∧ Inv0 kend s'.1 p G ∧
    seen k G d va b e s'.1).
Proof.
  intros d HI HB Hd Hva Hvp Hl Hok. apply wp_try_store. fold d.
  assert (Hpe : pte_at G d (va / 4096) = e) by (unfold pte_at; by rewrite Hl).
  destruct (andb_prop _ _ Hok) as [Hok0 HW]. simpl in HW.
  assert (Hoke : user_ok e false = true) by (unfold user_ok in *; by rewrite Hok0).
  rewrite (mmu_spec kend k p G) by done. rewrite Hpe, Hok. cbn [fst snd].
  destruct (entry_stable kend _ _ _ _ _ _ (va mod 4096) HI HB Hl Hvp) as [[_ Hr] _]; [zlia|].
  split_and!; [done..|by apply Inv0_wr8|].
  split.
  - erewrite (store_view k p G d va e) by done. rewrite decide_True by (by rewrite Hpe).
    unfold user_read. rewrite (mmu_spec kend k p G) by done. by rewrite Hpe, Hoke.
  - intros d' va' Hd' Hva' Hvp' Hne.
    destruct (enc_dom _ _ _ (i_enc _ _ _ _ HI) _ _ _ Hl) as (_&Hnz&_).
    destruct (decide (e / 4096 ∈ shm G)) as [Hsh|Hsh].
    + erewrite (store_view k p G d va e) by done. repeat case_decide; tauto.
    + rewrite decide_False by tauto. eapply (single_view k p G d va e b d' va'); try done.
      destruct (i_pte _ _ _ _ HI _ _ _ Hl Hnz Hvp) as (_&_&Hw). by destruct (Hw HW).
Qed.

(** A store that it does not allow: the handler, and the instruction again. *)
Definition retry (va b : Z) : K (kmem * proc) bool :=
  myproc ≫= λ c, if truth (p_killed c) then mret false else try_store va b (mret false).
Lemma user_store_denied k p G pr va b :
  let d := p_pgdir pr in
  Inv0 kend k p G → is_dir G d → is_u32 va → user_ok (pte_at G d (va / 4096)) true = false →
  ∃ err, has err FEC_WR = true ∧
    user_store kend va b (k, pr) =
      (pagefault kend va ≫= λ _, retry va b) (k, set_tf (set_tf_err err (p_tf pr)) pr).
Proof.
  intros d HI Hd Hva Hok. exists (fault_code (k, pr) va). split; [unfold fault_code; by case_match|].
  unfold user_store, try_store at 1. cbn [fst snd]. fold d. by rewrite (mmu_spec kend k p G), Hok.
Qed.
End fault.

(** ** Properties *)

(** The invariant of page tables, reference counts and free list together. *)
Definition vm_inv (kend : Z) (k : kmem) (p : Pool.pool) (G : ghost) : Prop :=
  Inv0 kend k p G ∧ Bal p G.

(** Addresses of user memory. *)
Definition user_va (va : Z) : Prop := 0 ≤ va < KERNBASE.

Lemma user_va_facts va : user_va va → is_u32 va ∧ va / 4096 < UPAGES.
Proof.
  assert (HU : UPAGES = 524288) by done. unfold user_va, is_u32, KERNBASE. intros. split; zlia.
Qed.

(** A store to a copy-on-write page: the handler gives the process a frame of its
    own and the store goes there. *)
Lemma store_cow (kend : Z) (k : kmem) (p : Pool.pool) (G : ghost) (pr : proc) (va b e : Z) :
  KERNBASE < kend → vm_inv kend k p G → is_dir G (p_pgdir pr) → p_killed pr = 0 →
  0 < va < KERNBASE → ptes G !! (p_pgdir pr, va / 4096) = Some e →
  user_ok e false = true → has e PTE_W = false → has e PTE_COW = true →
  Pool.count p (e / 4096) = 1 ∨ Pool.free p ≠ [] →
  wp (user_store kend va b) (k, pr) (λ r s', r = true ∧ p_pgdir s'.2 = p_pgdir pr ∧
    ∃ p' G', vm_inv kend s'.1 p' G' ∧ seen k G (p_pgdir pr) va b e s'.1).
Proof.
  intros Hkend [HI HB] Hd Hk0 Hva Hl Hok HW HC Hmem.
  destruct (user_va_facts va) as [Hu Hvp]; [unfold user_va; lia|].
  destruct (andb_prop _ _ Hok) as [[HP HU]%andb_prop _].
  destruct (user_store_denied kend k p G pr va b HI Hd Hu) as (err&Herr&Hrun).
  { unfold pte_at. rewrite Hl. unfold user_ok. simpl. by rewrite HP, HU, HW. }
  unfold wp at 1. rewrite Hrun. set (pr1 := set_tf (set_tf_err err (p_tf pr)) pr).
  change (wp (pagefault kend va ≫= λ _, retry va b) (k, pr1) (λ r s', r = true ∧ p_pgdir s'.2 = p_pgdir pr ∧
    ∃ p' G', vm_inv kend s'.1 p' G' ∧ seen k G (p_pgdir pr) va b e s'.1)).
  apply wp_bind. eapply wp_mono; [|eapply (pagefault_cow kend Hkend k p G pr1 va e); try done].
  intros [] [k1 pr2] (Hpr2&e'&p1&G1&Hat&Hok'). simpl in Hpr2. subst pr2. simpl fst in Hat.
  unfold retry. apply wp_bind. change (wp myproc (k1, pr1) ?Q) with (Q pr1 (k1, pr1)). cbv beta.
  change (p_killed pr1) with (p_killed pr). rewrite Hk0. simpl truth. cbv iota.
  assert (Hview : ∀ d' va', is_dir G d' → is_u32 va' → va' / 4096 < UPAGES → user_read k1 d' va' = user_read k d' va').
  { intros d' va' Hd' Hu' Hvp'. eapply (fault_view kend k p G (p_pgdir pr) (va / 4096) e e'); try done.
    rewrite Hok. destruct (andb_prop _ _ Hok') as [Hok1 _]. unfold user_ok. by rewrite Hok1. }
  destruct Hat as [HI1 HB1 Hk1 Hx1 Hpt1 Hsh1 Hby1 Hfl1 Hone1 Hnz1].
  assert (Hl1 : ptes G1 !! (p_pgdir pr, va / 4096) = Some e') by (by rewrite Hpt1, set_pte_lookup, decide_True).
  assert (Hd1 : ∀ d', is_dir G d' → is_dir G1 d') by (intros d'; by eapply keep_is_dir).
  destruct (entry_stable kend _ _ _ _ _ _ (va mod 4096) HI1 HB1 Hl1 Hvp) as [[_ Hr] _]; [zlia|].
  apply wp_try_store. change (p_pgdir pr1) with (p_pgdir pr). rewrite (mmu_spec kend k1 p1 G1) by auto.
  assert (Hpe : pte_at G1 (p_pgdir pr) (va / 4096) = e') by (unfold pte_at; by rewrite Hl1).
  rewrite Hpe, Hok'. cbn [fst snd]. split_and!; [done..|].
  exists p1, G1. split; [split; [by apply Inv0_wr8|done]|]. split.
  - erewrite (store_view kend k1 p1 G1 (p_pgdir pr) va e') by auto. rewrite decide_True by (by rewrite Hpe).
    unfold user_read. rewrite (mmu_spec kend k1 p1 G1), Hpe by auto.
    destruct (andb_prop _ _ Hok') as [Hok1 _]. unfold user_ok. by rewrite Hok1.
  - intros d' va' Hd' Hu' Hvp' Hne. rewrite decide_False by (intros [? _]; congruence).
    rewrite <- Hview by done. eapply (single_view kend k1 p1 G1); try done. by apply Hd1.
Qed.

(** What a store does to a page of the process that it can read. *)
Inductive store_kind (p : Pool.pool) (e : Z) : Prop :=
  | WritablePage : has e PTE_W = true → store_kind p e
  | PrivateCopy : has e PTE_W = false → has e PTE_COW = true →
      Pool.count p (e / 4096) = 1 ∨ Pool.free p ≠ [] → store_kind p e.

(** C1: what a store of a process does to a page that it can read, for every such page
    and every address but the null pointer.  If the page is writable, or copy-on-write and either the last reference to its frame
    or one of several while a frame is free, then the store, with the page fault it takes,
    completes, the process sees the byte at that address and the invariant is kept.
    Unless the frame is shared memory nobody sees anything else change, neither the process
    at another address nor any other process; if it is, exactly the readers of that byte of
    the frame see it.  If the page is copy-on-write, its frame has other references and no
    frame is free, the handler copies the page to address 0.  If the page is read-only, the
    process is killed and the memory stays as it is. *)
Theorem store_isolation (kend : Z) (k : kmem) (p : Pool.pool) (G : ghost) (pr : proc)
    (va b e : Z) :
  KERNBASE < kend → vm_inv kend k p G → is_dir G (p_pgdir pr) → p_killed pr = 0 →
  0 < va < KERNBASE → ptes G !! (p_pgdir pr, va / 4096) = Some e →
  user_ok e false = true →
  (store_kind p e →
   wp (user_store kend va b) (k, pr) (λ r s', r = true ∧ p_pgdir s'.2 = p_pgdir pr ∧
     ∃ p' G', vm_inv kend s'.1 p' G' ∧
     user_read s'.1 (p_pgdir pr) va = Some (u8 b) ∧
     ∀ d' va', is_dir G d' → user_va va' → (d', va') ≠ (p_pgdir pr, va) →
       user_read s'.1 d' va' =
         if decide (has e PTE_W = true ∧ e / 4096 ∈ shm G ∧
                    pte_at G d' (va' / 4096) / 4096 = e / 4096 ∧ va' mod 4096 = va mod 4096)
         then (λ _, u8 b) <$> user_read k d' va' else user_read k d' va')) ∧
  (has e PTE_W = false → has e PTE_COW = true → 1 < Pool.count p (e / 4096) → Pool.free p = [] →
   user_store kend va b (k, pr) = Fault "NULL") ∧
  (has e PTE_W = false → has e PTE_COW = false →
   wp (user_store kend va b) (k, pr) (λ r s', r = false ∧ s'.1 = k ∧ p_killed s'.2 = 1)).
Proof.
  intros Hkend [HI HB] Hd Hk0 Hva Hl Hok.
  destruct (user_va_facts va) as [Hu Hvp]; [unfold user_va; lia|].
  destruct (andb_prop _ _ Hok) as [[HP HU]%andb_prop _].
  assert (Hrun : has e PTE_W = false → ∃ err, has err FEC_WR = true ∧ user_store kend va b (k, pr) =
      (pagefault kend va ≫= λ _, retry va b) (k, set_tf (set_tf_err err (p_tf pr)) pr)).
  { intros HW. apply (user_store_denied kend k p G pr va b); try done. unfold pte_at. rewrite Hl.
    unfold user_ok. simpl. by rewrite HP, HU, HW. }
  split; [|split].
  - intros Hkind. eapply (wp_mono _ _ (λ r s', r = true ∧ p_pgdir s'.2 = p_pgdir pr ∧
      ∃ p' G', vm_inv kend s'.1 p' G' ∧ seen k G (p_pgdir pr) va b e s'.1)).
    { intros r s' (->&Hpr&p'&G'&HV&Hv&Ho). split_and!; [done..|]. exists p', G'. split_and!; [done..|].
      intros d' va' Hd' [Hu' Hvp']%user_va_facts. by apply Ho. }
    destruct Hkind as [HW|HW HC Hmem]; [|by apply (store_cow kend k p G)].
    eapply wp_mono; [|eapply (store_allowed kend k p G pr va b e); try done].
    + intros r s' (->&Hpr&HI'&Hs). rewrite Hpr. split_and!; [done..|]. by exists p, G.
    + unfold user_ok. by rewrite HP, HU, HW.
  - intros HW HC Hmany Hfree. destruct (Hrun HW) as (err&Herr&->). unfold mbind, K_bind.
    by rewrite (pagefault_cow_full kend k p G _ va e) by (done || lia).
  - intros HW HC. destruct (Hrun HW) as (err&Herr&Hr). unfold wp. rewrite Hr. clear Hr. unfold mbind, K_bind.
    destruct (enc_dom _ _ _ (i_enc _ _ _ _ HI) _ _ _ Hl) as (_&_&_&f&Hf). destruct (page_base va Hu) as [Hua Hdiv].
    rewrite (pagefault_write kend k p G _ va f); [|done|lia|unfold slot; by rewrite PDX_vp, Hdiv|done].
    assert (pte_at G (p_pgdir (set_tf (set_tf_err err (p_tf pr)) pr)) (va / 4096) = e) as ->
      by (unfold pte_at; simpl; by rewrite Hl). by rewrite HC, HP.
Qed.

Definition ex_proc : proc := set_pgdir (kva 2000) proc_zero.

Lemma store_isolation_witness :
  wp (user_store ex_kend 4101 65) (ex_k, ex_proc) (λ r s', r = true ∧
    p_pgdir s'.2 = kva 2000 ∧
    ∃ p' G', vm_inv ex_kend s'.1 p' G' ∧ user_read s'.1 (kva 2000) 4101 = Some (u8 65) ∧
    ∀ d' va', is_dir ex_G d' → user_va va' → (d', va') ≠ (kva 2000, 4101) →
      user_read s'.1 d' va' = user_read ex_k d' va').
Proof.
  destruct (store_isolation ex_kend ex_k ex_p ex_G ex_proc 4101 65 ex_entry) as [H _].
  - done.
  - apply ex_inv.
  - by exists 2000.
  - done.
  - done.
  - done.
  - done.
  - eapply wp_mono; [|apply H].
    + intros r s' (H1&H2&p'&G'&H3&H4&H5). split_and!; [done..|]. exists p', G'. split_and!; [done..|].
      intros d' va' Hd' Hva' Hne. rewrite H5 by done. apply decide_False. intros [HW _]. discriminate HW.
    + apply PrivateCopy; [done|done|]. right. intros Hf. discriminate Hf.
Defined.

(** The entries of a private page after cowuvm, in the parent and in the child. *)
Definition marked (kd : kind) (e0 e : Z) : Prop :=
  e / 4096 = e0 / 4096 ∧ has e PTE_W = false ∧
  has e PTE_COW = match kd with KStack => true | _ => has e0 PTE_COW || has e0 PTE_W end.

Lemma private_marks kd e0 : is_u32 e0 → 4096 ≤ e0 → kd = KStack ∨ kd = KPlain → marked kd e0 (parent_entry kd e0).
Proof.
  intros Hu Hb Hk. destruct (parent_entry_facts kd e0 Hu Hb) as (_&_&Hf&HW). split; [done|]. split.
  - apply not_true_iff_false. intros [H|H]%HW; destruct Hk; congruence.
  - unfold parent_entry, cowed. destruct Hk as [-> | ->]; [by flags|]. destruct (has e0 PTE_W) eqn:E; [|by rewrite orb_false_r].
    rewrite orb_true_r. by flags.
Qed.
Lemma child_marks pr i e0 :
  is_u32 e0 → 4096 ≤ e0 → page_kind pr i = KStack ∨ page_kind pr i = KPlain →
  ∃ e, child_entry pr i e0 = Some e ∧ marked (page_kind pr i) e0 e.
Proof.
  intros Hu Hb Hk. destruct (private_marks _ e0 Hu Hb Hk) as (Hf&HW&HC).
  set (c := parent_entry (page_kind pr i) e0) in *. unfold child_entry. fold c.
  assert (marked (page_kind pr i) e0 (Z.lor c PTE_P)) as Hm.
  { split; [by rewrite frame_set|]. split; [by flags|]. rewrite <- HC. by flags. }
  destruct Hk as [Hk|Hk]; rewrite Hk in *; [|by eexists]. eexists. split; [done|]. case_match; [|done].
  destruct Hm as (Hm1&Hm2&Hm3). split; [by rewrite !frame_clear|]. split; by flags.
Qed.

(** C19: cowuvm gives the child an address space in which it sees exactly what
    the parent sees (shared memory pages included, guard page and reserved
    pages excepted) and changes no process's view, the parent's included.  Every
    private page has the same frame on both sides and is writable on neither.
    Every page of the stack, from the guard page up, is marked copy-on-write on
    both sides; of the other private pages those are that were writable or marked
    before, and a page that was read-only is not.  So the next store to a page
    that was writable is a copy-on-write fault.  No reference is lost or
    invented. *)
Theorem cowuvm_view (kend kdata : Z) (k : kmem) (p : Pool.pool) (G : ghost) (pr : proc)
    (d sz : Z) :
  KERNBASE < kend → (kdata mod 4096 = 0 ∧ KERNLINK < kdata < KERNBASE + PHYSTOP) →
  vm_inv kend k p G → is_dir G d → 4096 ≤ sz ≤ KERNBASE →
  (∀ v, 1 ≤ v < (sz + 4095) / 4096 → cow_ok G d pr v) →
  (∀ f, Pool.count p f + (sz + 4095) / 4096 < 4294967296) →
  122 + (sz + 4095) / 4096 < Z.of_nat (length (Pool.free p)) →
  wp (cowuvm kend kdata d sz pr) k (λ c k', ∃ p' G',
    vm_inv kend k' p' G' ∧ is_dir G' c ∧ ¬ is_dir G c ∧
    (∀ f, extra p' G' f = extra p G f) ∧
    (∀ d' va, is_dir G d' → user_va va → user_read k' d' va = user_read k d' va) ∧
    (∀ va e, user_va va → 1 ≤ va / 4096 < (sz + 4095) / 4096 →
       page_kind pr (va / 4096 * 4096) ≠ KSkip → va / 4096 * 4096 ≠ p_guardpg pr →
       ptes G !! (d, va / 4096) = Some e → has e PTE_P = true →
       user_read k' c va = user_read k d va) ∧
    (∀ v x, 1 ≤ v < (sz + 4095) / 4096 →
       page_kind pr (v * 4096) = KStack ∨ page_kind pr (v * 4096) = KPlain → x = d ∨ x = c →
       ∃ e0 e, ptes G !! (d, v) = Some e0 ∧ ptes G' !! (x, v) = Some e ∧ e / 4096 = e0 / 4096 ∧
         has e PTE_W = false ∧
         has e PTE_COW = match page_kind pr (v * 4096) with
                         | KStack => true | _ => has e0 PTE_COW || has e0 PTE_W end)).
Proof.
  intros Hkend Hkd [HI HB] Hd Hsz Hok Hmax Hlen. assert (HU : UPAGES = 524288) by done.
  assert (Hhi : (sz + 4095) / 4096 ≤ UPAGES) by (unfold KERNBASE in Hsz; zlia).
  eapply wp_mono; [|by apply (cowuvm_spec kend Hkend kdata Hkd k p G d pr sz)].
  intros c k' (Hc0&Hdc&p'&G'&Hat). exists p', G'. pose proof Hat as [].
  destruct ca_dir as [Hc Hnc]. split_and!; try done.
  - intros d' va Hd' [Hu Hvp]%user_va_facts. by eapply (cow_at_view kend Hkend kdata k p G d c pr).
  - intros va e [Hu Hvp]%user_va_facts Hv Hkind Hg Hl HP.
    by eapply (cow_at_child kend Hkend kdata k p G d c pr).
  - intros v x Hv Hkind Hx.
    assert (∃ e0, ptes G !! (d, v) = Some e0) as [e0 He0].
    { specialize (Hok v Hv). unfold cow_ok in Hok. destruct Hkind as [Hk|Hk]; rewrite Hk in Hok;
        naive_solver. }
    destruct (entry_frame kend _ _ _ _ _ _ HI HB He0 ltac:(lia)) as (Hu0&_).
    pose proof (entry_big kend Hkend _ _ _ _ _ _ HI HB He0 ltac:(lia)) as Hb0.
    destruct Hx as [->| ->].
    + exists e0, (parent_entry (page_kind pr (v * 4096)) e0).
      rewrite ca_parent, decide_True, He0 by done. split; [done|]. split; [done|]. by apply private_marks.
    + destruct (child_marks pr (v * 4096) e0 Hu0 Hb0 Hkind) as (e&Hce&Hm). exists e0, e.
      rewrite ca_child, decide_True, He0 by done. simpl. by rewrite Hce.
Qed.

Lemma cowuvm_view_witness :
  wp (cowuvm ex_kend 2149580800 (kva 2000) 8192 ex_proc) ex_k (λ c k', ∃ p' G',
    vm_inv ex_kend k' p' G' ∧ is_dir G' c ∧ user_read k' c 4101 = user_read ex_k (kva 2000) 4101).
Proof.
  eapply wp_mono; [|eapply (cowuvm_view ex_kend 2149580800 ex_k ex_p ex_G ex_proc (kva 2000) 8192)].
  - intros c k' (p'&G'&Hinv&Hc&_&_&_&Hview&_). exists p', G'. split_and!; [done..|].
    by apply (Hview 4101 ex_entry).
  - done.
  - done.
  - apply ex_inv.
  - by exists 2000.
  - done.
  - intros v Hv. change ((8192 + 4095) / 4096) with 2 in Hv. replace v with 1 by lia.
    by exists ex_entry.
  - intros f. change ((8192 + 4095) / 4096) with 2. simpl.
    unfold ex_count. rewrite !lookup_insert, lookup_singleton.
    repeat case_decide; simpl; lia.
  - by vm_compute.
Defined.
