(* ===== verification/Vmprops.v ===== *)
(** Properties of allocuvm, deallocuvm, freevm, setupkvm and copyout, stated
    as what processes see and what happens to the references to frames. *)

From Stdlib Require Import ZArith Lia.
From stdpp Require Import base tactics numbers gmap strings fin_maps list.
From S2P Require Import Prelude Memory Kstring Spinlock Mmu Kalloc Procdef Vm Vminv Vmspec Vmalloc Cow Vmexample Fault.

#[local] Open Scope Z_scope.

Section views.
Context (kend : Z) (Hkend : KERNBASE < kend).
Implicit Types (k : kmem) (p : Pool.pool) (G : ghost).

(** A frame that is mapped is not free. *)
Lemma mapped_not_free k p G d vp e o :
  vm_inv kend k p G → ptes G !! (d, vp) = Some e → vp < UPAGES → 0 ≤ o < 4096 →
  frame_at (kva (e / 4096) + o) ∉ Pool.free p.
Proof.
  intros [HI HB] Hl Hvp Ho. destruct (entry_stable kend _ _ _ _ _ _ o HI HB Hl Hvp Ho) as [[? _] _].
  done.
Qed.

(** The view of an address whose entry is the same, after frames were taken
    and given back. *)
Lemma view_mixed k p G k' p' G' d va :
  vm_inv kend k p G → vm_inv kend k' p' G' → is_dir G d → is_dir G' d → user_va va →
  (∀ a, stable p G a → frame_at a ∉ Pool.free p' → rd8 (pmem k') a = rd8 (pmem k) a) →
  ptes G' !! (d, va / 4096) = ptes G !! (d, va / 4096) →
  user_read k' d va = user_read k d va.
Proof.
  intros HV HV' Hd Hd' [Hu Hvp]%user_va_facts Hdata Hpe. pose proof HV as [HI HB].
  eapply (user_read_same kend k p G k' p' G'); try done.
  - apply HV'.
  - unfold pte_at. by rewrite Hpe.
  - intros e He. unfold pte_at. rewrite Hpe, He. split; [done|].
    destruct (entry_stable kend k p G d _ e (va mod 4096) HI HB He Hvp) as [Hst _]; [zlia|].
    apply Hdata; [done|]. eapply (mapped_not_free k' p' G' d (va / 4096)); try done; [congruence|zlia].
Qed.

Lemma entry7_ok f w : 0 ≤ f → user_ok (f * 4096 + 7) w = true.
Proof. intros. unfold user_ok. rewrite <- lor_pte by zlia. flags. by destruct w. Qed.

(** What processes see after pages were added to a directory. *)
Lemma alloc_at_view k p G d lo hi k' p' G' : vm_inv kend k p G → is_dir G d → alloc_at kend k p G d lo hi k' p' G' →
  vm_inv kend k' p' G' ∧ (∀ d', is_dir G d' → is_dir G' d') ∧
  (∀ d' va, is_dir G d' → user_va va → d' ≠ d ∨ ¬ (lo * 4096 ≤ va < hi * 4096) → user_read k' d' va = user_read k d' va) ∧
  (∀ va, user_va va → lo * 4096 ≤ va < hi * 4096 → user_read k' d va = Some 0 ∧
     ∃ e, ptes G' !! (d, va / 4096) = Some e ∧ user_ok e true = true ∧ Pool.count p' (e / 4096) = 1).
Proof.
  intros HV Hd [HI' HB' Hg Hx Hold Hnew Hcost].
  assert (Hdirs : ∀ d', is_dir G d' → is_dir G' d') by (intros d'; by apply (grow_is_dir k p G k' p' G')).
  split; [done|]. split; [done|]. split.
  - intros d' va Hd' Hva Hout. eapply (view_mixed k p G k' p' G'); try done; [by auto|..].
    + intros a Ha _. by apply (g_data _ _ _ _ _ _ Hg).
    + apply Hold. destruct Hout as [?|Hout]; [by left|right]. zlia.
  - intros va Hva' Hva. destruct (user_va_facts va Hva') as [Hu Hvp].
    destruct (Hnew (va / 4096)) as (f&Hl&Hfr&Hone&Hz); [zlia|].
    destruct (enc_dom _ _ _ (i_enc _ _ _ _ HI') _ _ _ Hl) as (Hfu&_).
    assert (Hf : 0 ≤ f) by (unfold is_u32 in Hfu; lia).
    assert (Hpe : pte_at G' d (va / 4096) = f * 4096 + 7) by (unfold pte_at; by rewrite Hl). split.
    + unfold user_read. rewrite (mmu_spec kend k' p' G') by auto.
      rewrite Hpe, entry7_ok, entry7_frame by done. simpl. f_equal. apply Hz. zlia.
    + exists (f * 4096 + 7). split; [done|]. split; [by apply entry7_ok|]. by rewrite entry7_frame by done.
Qed.

(** ... and after the pages of a range were taken away: nothing is left there that was
    present. *)
Lemma dealloc_view k p G d lo hi cp k' p' G' : vm_inv kend k p G → Inv0 kend k' p' G' → Bal p' G' → shrink k p G k' p' G' →
  sweeps G G' d lo hi cp →
  ∀ d' va, is_dir G d' → user_va va →
    (d' ≠ d ∨ ¬ (lo * 4096 ≤ va < hi * 4096) → user_read k' d' va = user_read k d' va) ∧
    (d' = d → lo * 4096 ≤ va < hi * 4096 → user_read k' d va = None).
Proof.
  intros HV HI HB Hs Hsw d' va Hd' Hva. assert (Hd1 : is_dir G' d') by (by apply (shrink_is_dir _ _ _ _ _ _ _ Hs)). split.
  - intros Hout. eapply (view_mixed k p G k' p' G'); try done.
    + intros a Ha Hf. by apply (s_data _ _ _ _ _ _ Hs).
    + rewrite Hsw, decide_False; [done|]. intros [-> Hu]. destruct Hout as [?|Hout]; [done|]. apply Hout. zlia.
  - intros -> Hr. destruct (user_va_facts va Hva) as [Hu Hvp]. unfold user_read. rewrite (mmu_spec kend k' p' G') by done.
    unfold pte_at. rewrite Hsw, decide_True by (split; [done|zlia]). unfold swept. destruct (ptes G !! (d, va / 4096)) as [e|]; [|done].
    destruct (has e PTE_P) eqn:E; [done|]. cbn [orb]. destruct (is_guard cp _); [done|]. change (default 0 (Some e)) with e. unfold user_ok. by rewrite E.
Qed.
End views.

(** allocuvm either maps every page from PGROUNDUP(oldsz) up to newsz to a
    new zeroed frame, which the process can write and which nothing else
    refers to, or (only when fewer than two frames per page are free) returns
    0 and leaves every view and every reference as it was.  No other address
    space notices either way. *)
Lemma allocuvm_view (kend : Z) (k : kmem) (p : Pool.pool) (G : ghost) (d oldsz newsz : Z)
    (cp : option proc) :
  KERNBASE < kend → vm_inv kend k p G → is_dir G d → 0 ≤ oldsz ≤ newsz → newsz < KERNBASE →
  alloc_range G d oldsz newsz cp →
  wp (allocuvm kend d oldsz newsz cp) k (λ r k', ∃ p' G', vm_inv kend k' p' G' ∧
    (∀ d', is_dir G d' → is_dir G' d') ∧
    (∀ f, extra p' G' f = extra p G f) ∧
    (∀ d' va, is_dir G d' → user_va va →
       d' ≠ d ∨ ¬ (PGROUNDUP oldsz ≤ va < PGROUNDUP newsz) → user_read k' d' va = user_read k d' va) ∧
    (r = newsz ∧ (∀ va, PGROUNDUP oldsz ≤ va < PGROUNDUP newsz →
        user_read k' d va = Some 0 ∧
        ∃ e, ptes G' !! (d, va / 4096) = Some e ∧ user_ok e true = true ∧
             Pool.count p' (e / 4096) = 1) ∨
     r = 0 ∧ ptes G' = ptes G ∧
       (∀ d' va, is_dir G d' → user_va va → user_read k' d' va = user_read k d' va) ∧
       Z.of_nat (length (Pool.free p)) < 2 * ((newsz + 4095) / 4096 - (oldsz + 4095) / 4096))).
Proof.
  intros Hkend HV Hd Hsz Hns Hr. pose proof HV as [HI HB]. assert (HU : UPAGES = 524288) by done.
  unfold KERNBASE in Hns. rewrite !PGROUNDUP_small by lia.
  eapply wp_mono; [|by apply (allocuvm_spec kend Hkend k p G d oldsz newsz cp)].
  intros r k' [(->&p'&G'&Hat)|(->&(p'&G'&HI'&HB'&Hm&Hx&Hpt)&Hlen)].
  - destruct (alloc_at_view kend k p G d _ _ k' p' G' HV Hd Hat) as (HV'&Hdirs&Hold&Hnew). exists p', G'.
    split_and!; [done|done|apply Hat|done|]. left. split; [done|]. intros va Hva. apply Hnew; [|done]. unfold user_va, KERNBASE. zlia.
  - exists p', G'.
    assert (Hdirs : ∀ d', is_dir G d' → is_dir G' d').
    { intros d' (f&->&Hf). exists f. split; [done|]. by apply (m_roles _ _ _ _ _ _ Hm). }
    assert (Hview : ∀ d' va, is_dir G d' → user_va va → user_read k' d' va = user_read k d' va);
      [|split_and!; try done; [by auto|by right]].
    intros d' va Hd' Hva. eapply (view_mixed kend k p G k' p' G'); try done; [by auto|..].
    + intros a Ha Hf. by apply (m_data _ _ _ _ _ _ Hm).
    + by rewrite Hpt.
Qed.


(** freevm removes the address space and no other process notices.  Every
    reference its user pages and page tables held is returned, except for the
    pages that are not present and not the guard page: exactly those frames
    keep a reference that nothing can drop any more. *)
Lemma freevm_view (kend : Z) (k : kmem) (p : Pool.pool) (G : ghost) (d : Z) (cp : option proc) :
  KERNBASE < kend → vm_inv kend k p G → is_dir G d →
  (∀ u, 0 ≤ u < UPAGES → is_guard cp (u * 4096) = true → pte_at G d u ≠ 0) →
  wp (freevm kend d cp) k (λ _ k', ∃ p' G', vm_inv kend k' p' G' ∧ ¬ is_dir G' d ∧
    (∀ d' va, is_dir G d' → d' ≠ d → user_va va →
       is_dir G' d' ∧ user_read k' d' va = user_read k d' va) ∧
    (∀ f, extra p' G' f = extra p G f + Z.of_nat (size (filter (λ x,
       x.1.1 = d ∧ counted f x ∧ has x.2 PTE_P = false ∧ is_guard cp (x.1.2 * 4096) = false)
       (ptes G))))).
Proof.
  intros Hkend HV Hd Hg. pose proof HV as [HI HB].
  eapply wp_mono; [|by apply (freevm_spec kend Hkend k p G d cp)].
  intros [] k' (p'&G1&G'&HI'&HB'&Hsw&Hr&Ho&Hn&Hx&Hdata&_).
  assert (Hdir : ∀ d', is_dir G' d' ↔ is_dir G d' ∧ d' ≠ d).
  { intros d'. split.
    - intros (f&->&Hf). rewrite Hr in Hf. apply map_lookup_filter_Some in Hf as [Hf Hnf].
      split; [by exists f|]. done.
    - intros [(f&->&Hf) Hne]. exists f. split; [done|]. rewrite Hr.
      by apply map_lookup_filter_Some. }
  exists p', G'. split_and!; try done.
  - intros [_ ?]%Hdir. done.
  - intros d' va Hd' Hne Hva. assert (is_dir G' d') by (by apply Hdir). split; [done|].
    eapply (view_mixed kend k p G k' p' G'); try done; [|by apply Ho].
    intros a Ha Hf. by apply Hdata.
  - intros f. rewrite Hx. unfold left_of. do 3 f_equal. apply map_eq. intros [d' u].
    apply option_eq. intros e. rewrite !map_lookup_filter_Some, Hsw. simpl.
    split.
    + intros [Hl [-> [Hu Hf]]]. case_decide as Hc; simpl in *.
      * destruct (ptes G !! (d, u)) as [e'|] eqn:El; [|done]. simpl in Hl.
        destruct (has e' PTE_P) eqn:EP; [done|]. destruct (is_guard cp (u * 4096)) eqn:Eg; [done|].
        simpl in Hl. simplify_eq. split_and!; done || by split.
      * destruct (enc_dom _ _ _ (i_enc _ _ _ _ HI) _ _ _ Hl) as (_&_&?&_). lia.
    + intros (Hl&->&[Hu Hf]&HP&Hgd). simpl in *.
      destruct (enc_dom _ _ _ (i_enc _ _ _ _ HI) _ _ _ Hl) as (_&_&?&_).
      rewrite decide_True, Hl by lia. simpl. by rewrite HP, Hgd.
Qed.


(** setupkvm returns a new page directory whose entries are exactly the
    kernel's mappings (all physical memory at KERNBASE, the kernel text
    read-only, the devices), none of them for user mode, or 0 when memory runs
    out; nobody's view and no reference changes. *)
Lemma setupkvm_map (kend kdata : Z) (k : kmem) (p : Pool.pool) (G : ghost) :
  KERNBASE < kend → (kdata mod 4096 = 0 ∧ KERNLINK < kdata < KERNBASE + PHYSTOP) →
  vm_inv kend k p G →
  wp (setupkvm kend kdata) k (λ d k', ∃ p' G', vm_inv kend k' p' G' ∧
    (∀ f, extra p' G' f = extra p G f) ∧
    (∀ d' va, is_dir G d' → user_va va → user_read k' d' va = user_read k d' va) ∧
    (d = 0 ∧ (length (Pool.free p) ≤ 122)%nat ∧ ptes G' = ptes G ∨
     is_dir G' d ∧ ¬ is_dir G d ∧
     (∀ u, ptes G' !! (d, u) = kernel_pte kdata u) ∧
     (∀ va w, is_u32 va → mmu (pmem k') d va w = None))).
Proof.
  intros Hkend Hkd HV. pose proof HV as [HI HB].
  eapply wp_mono; [|by apply (setupkvm_spec kend Hkend kdata Hkd k p G)].
  intros d k' [(->&(p'&G'&HI'&HB'&Hm&Hx&Hpt)&Hlen)|(Hd0&p'&G'&[HI' HB' Hg Hx [Hd Hnd] Ho Hmap _])];
    exists p', G'.
  - split_and!; try done; [|by left].
    intros d' va Hd' Hva. eapply (view_mixed kend k p G k' p' G'); try done.
    + destruct Hd' as (f&->&Hf). exists f. split; [done|]. by apply (m_roles _ _ _ _ _ _ Hm).
    + intros a Ha Hf. by apply (m_data _ _ _ _ _ _ Hm).
    + by rewrite Hpt.
  - split_and!; try done.
    + intros d' va Hd' Hva. eapply (view_mixed kend k p G k' p' G'); try done.
      * by eapply grow_is_dir.
      * intros a Ha _. by apply (g_data _ _ _ _ _ _ Hg).
      * apply Ho. by intros ->.
    + right. split_and!; try done. intros va w Hva. rewrite (mmu_spec kend k' p' G') by done.
      assert (user_ok (pte_at G' d (va / 4096)) w = false) as ->; [|done].
      unfold pte_at. rewrite Hmap. unfold kernel_pte, user_ok.
      assert (Hmul : ∀ x, Z.testbit (x * 4096) 2 = false).
      { intros x. change 4096 with (2 ^ 12). by apply Z.mul_pow2_bits_low. }
      repeat case_decide; simpl default; flags; rewrite ?Hmul, ?andb_false_r; done.
Qed.

(** C21: allocuvm either maps every page from PGROUNDUP(oldsz) up to newsz to a new zeroed
    frame, which the process can write and which nothing else refers to, or, only when
    fewer than two frames per page are free, returns 0 and leaves every view and every
    reference as it was.  freevm gives back every reference of an address space but those
    of pages that are not present and not the guard page: these frames are lost.
    setupkvm returns a directory with exactly the kernel's mappings, none of them for user
    mode, or 0 when memory runs out.  No other address space notices any of these. *)
Theorem address_spaces :
  (∀ (kend : Z) (k : kmem) (p : Pool.pool) (G : ghost) (d oldsz newsz : Z) (cp : option proc),
    KERNBASE < kend → vm_inv kend k p G → is_dir G d → 0 ≤ oldsz ≤ newsz → newsz < KERNBASE →
    alloc_range G d oldsz newsz cp →
    wp (allocuvm kend d oldsz newsz cp) k (λ r k', ∃ p' G', vm_inv kend k' p' G' ∧
    (∀ d', is_dir G d' → is_dir G' d') ∧
    (∀ f, extra p' G' f = extra p G f) ∧
    (∀ d' va, is_dir G d' → user_va va →
    d' ≠ d ∨ ¬ (PGROUNDUP oldsz ≤ va < PGROUNDUP newsz) → user_read k' d' va = user_read k d' va) ∧
    (r = newsz ∧ (∀ va, PGROUNDUP oldsz ≤ va < PGROUNDUP newsz →
    user_read k' d va = Some 0 ∧
    ∃ e, ptes G' !! (d, va / 4096) = Some e ∧ user_ok e true = true ∧
    Pool.count p' (e / 4096) = 1) ∨
    r = 0 ∧ ptes G' = ptes G ∧
    (∀ d' va, is_dir G d' → user_va va → user_read k' d' va = user_read k d' va) ∧
    Z.of_nat (length (Pool.free p)) < 2 * ((newsz + 4095) / 4096 - (oldsz + 4095) / 4096)))) ∧
  (∀ (kend : Z) (k : kmem) (p : Pool.pool) (G : ghost) (d : Z) (cp : option proc),
    KERNBASE < kend → vm_inv kend k p G → is_dir G d →
    (∀ u, 0 ≤ u < UPAGES → is_guard cp (u * 4096) = true → pte_at G d u ≠ 0) →
    wp (freevm kend d cp) k (λ _ k', ∃ p' G', vm_inv kend k' p' G' ∧ ¬ is_dir G' d ∧
    (∀ d' va, is_dir G d' → d' ≠ d → user_va va →
    is_dir G' d' ∧ user_read k' d' va = user_read k d' va) ∧
    (∀ f, extra p' G' f = extra p G f + Z.of_nat (size (filter (λ x,
    x.1.1 = d ∧ counted f x ∧ has x.2 PTE_P = false ∧ is_guard cp (x.1.2 * 4096) = false)
    (ptes G)))))) ∧
  (∀ (kend kdata : Z) (k : kmem) (p : Pool.pool) (G : ghost),
    KERNBASE < kend → (kdata mod 4096 = 0 ∧ KERNLINK < kdata < KERNBASE + PHYSTOP) →
    vm_inv kend k p G →
    wp (setupkvm kend kdata) k (λ d k', ∃ p' G', vm_inv kend k' p' G' ∧
    (∀ f, extra p' G' f = extra p G f) ∧
    (∀ d' va, is_dir G d' → user_va va → user_read k' d' va = user_read k d' va) ∧
    (d = 0 ∧ (length (Pool.free p) ≤ 122)%nat ∧ ptes G' = ptes G ∨
    is_dir G' d ∧ ¬ is_dir G d ∧
    (∀ u, ptes G' !! (d, u) = kernel_pte kdata u) ∧
    (∀ va w, is_u32 va → mmu (pmem k') d va w = None)))).
Proof. split; [exact allocuvm_view|]. split; [exact freevm_view|exact setupkvm_map]. Qed.

Lemma address_spaces_witness :
  (wp (allocuvm ex_kend (kva 2000) 8192 12288 None) ex_k (λ r k', r = 12288 ∧
    user_read k' (kva 2000) 8200 = Some 0 ∧
    user_read k' (kva 2002) 4101 = user_read ex_k (kva 2002) 4101)) ∧
  (wp (freevm ex_kend (kva 2000) None) ex_k (λ _ k', ∃ p' G', vm_inv ex_kend k' p' G' ∧
    ¬ is_dir G' (kva 2000) ∧ user_read k' (kva 2002) 4101 = user_read ex_k (kva 2002) 4101)) ∧
  (wp (setupkvm ex_kend 2149580800) ex_k (λ d k', ∃ p' G', vm_inv ex_kend k' p' G' ∧
    is_dir G' d ∧ pte_at G' d 524288 = 3 ∧
    user_read k' (kva 2002) 4101 = user_read ex_k (kva 2002) 4101)).
Proof.
  split; [|split].
  { eapply wp_mono; [|eapply ((proj1 address_spaces) ex_kend ex_k ex_p ex_G (kva 2000) 8192 12288 None)].
    - intros r k' (p'&G'&_&_&_&Hold&[[-> Hnew]|(_&_&_&Hlen)]).
      + split; [done|]. split; [by apply (Hnew 8200)|]. apply Hold; [by exists 2002|done|].
        left. intros H. by vm_compute in H.
      + by vm_compute in Hlen.
    - done.
    - apply ex_inv.
    - by exists 2000.
    - done.
    - done.
    - intros u Hu. change ((8192 + 4095) / 4096) with 2 in Hu.
      change ((12288 + 4095) / 4096) with 3 in Hu. replace u with 2 by lia. done. }
  { eapply wp_mono; [|eapply ((proj1 (proj2 address_spaces)) ex_kend ex_k ex_p ex_G (kva 2000) None)].
    - intros [] k' (p'&G'&Hinv&Hnd&Hview&_). exists p', G'. split_and!; [done..|].
      apply Hview; [by exists 2002| |done]. intros H. by vm_compute in H.
    - done.
    - apply ex_inv.
    - by exists 2000.
    - done. }
  { eapply wp_mono; [|eapply ((proj2 (proj2 address_spaces)) ex_kend 2149580800 ex_k ex_p ex_G)].
    - intros d k' (p'&G'&Hinv&_&Hview&[(_&Hlen&_)|(Hd&_&Hmap&_)]).
      + assert (length (Pool.free ex_p) = 300%nat) as Hl by (by vm_compute). lia.
      + exists p', G'. split_and!; [done..| |].
        * unfold pte_at. by rewrite Hmap.
        * apply Hview; [by exists 2002|done].
    - done.
    - done.
    - apply ex_inv. }
Defined.
