(* ===== verification/Stack.v ===== *)
(** Growing the user stack on a page fault (grow_stack, from pagefault in
    src/vm.c): the guard page moves below the faulting page, the pages in
    between and the old guard page become ordinary stack pages. *)

From Stdlib Require Import ZArith Lia.
From stdpp Require Import base tactics numbers gmap strings fin_maps list.
From S2P Require Import Prelude Memory Kstring Spinlock Mmu Kalloc Procdef Vm Vminv Vmspec Vmalloc Cow Vmexample Fault Vmprops.

#[local] Open Scope Z_scope.

Section stack.
Context (kend : Z) (Hkend : KERNBASE < kend).
Implicit Types (k : kmem) (p : Pool.pool) (G : ghost).

(** A frame mapped at a hidden, at a usable and at a former guard page. *)
Definition hidden (f : Z) : Z := Z.land (Z.land (f * 4096 + 7) (Z.lnot PTE_U)) (Z.lnot PTE_P).
Definition usable (e : Z) : Z := Z.lor (Z.lor e PTE_P) PTE_U.

Lemma usable_facts e : is_u32 e → e ≠ 0 →
  is_u32 (usable e) ∧ usable e ≠ 0 ∧ usable e / 4096 = e / 4096 ∧
  has (usable e) PTE_W = has e PTE_W ∧ user_ok (usable e) false = true.
Proof.
  intros Hu Hnz. unfold usable. split_and!.
  - by apply set_u32, set_u32.
  - by apply lor_nonzero, lor_nonzero.
  - by rewrite !frame_set.
  - by flags.
  - unfold user_ok. by flags.
Qed.

Lemma usable_7 f : 0 ≤ f → usable (f * 4096 + 7) = f * 4096 + 7.
Proof.
  intros Hf. unfold usable. rewrite <- (lor_pte (f * 4096) 7) by zlia.
  by rewrite <- !Z.lor_assoc.
Qed.

(** A zeroed frame [f] with one reference, unused in [p0]. *)
Definition fresh_zero p0 k p (f : Z) : Prop :=
  Pool.count p0 f = 0 ∧ Pool.count p f = 1 ∧ ∀ o, 0 ≤ o < 4096 → rd8 (pmem k) (kva f + o) = 0.

(** The state when the pages from [v] up to [u] have been mapped. *)
Record grow_at k0 p0 G0 d v u gp k p G : Prop := {
  ga_inv : Inv0 kend k p G;
  ga_bal : Bal p G;
  ga_grow : grow k0 p0 G0 k p G;
  ga_extra f : extra p G f = extra p0 G0 f;
  ga_other d' w : d' ≠ d ∨ ¬ (v - 1 ≤ w < u) ∧ w ≠ gp → ptes G !! (d', w) = ptes G0 !! (d', w);
  ga_old : ptes G !! (d, gp) = usable <$> ptes G0 !! (d, gp);
  ga_guard : ∃ f, ptes G !! (d, v - 1) = Some (hidden f) ∧ 0 ≤ f;
  ga_new w : v ≤ w < u → ∃ f, ptes G !! (d, w) = Some (f * 4096 + 7) ∧ fresh_zero p0 k p f;
  ga_cost : Z.of_nat (length (Pool.free p0)) ≤ Z.of_nat (length (Pool.free p)) + 2 * (u - v + 1)
}.

(** One page through allocuvm, when memory suffices. *)
Lemma alloc_one k p G d u cp :
  Inv0 kend k p G → Bal p G → is_dir G d → 1 ≤ u → u + 1 < UPAGES →
  ptes G !! (d, u) = None → is_guard cp (u * 4096) = false →
  2 ≤ Z.of_nat (length (Pool.free p)) →
  wp (allocuvm kend d (u * 4096) (u32 (u * 4096 + PGSIZE)) cp) k (λ r k',
    r = (u + 1) * 4096 ∧ ∃ p' G', alloc_at kend k p G d u (u + 1) k' p' G').
Proof.
  intros HI HB Hd Hu1 Hu Hl Hg Hlen. assert (HU : UPAGES = 524288) by done.
  rewrite u32_small by (unfold is_u32, PGSIZE; lia). unfold PGSIZE.
  assert (H1 : (u * 4096 + 4095) / 4096 = u) by zlia.
  assert (H2 : (u * 4096 + 4096 + 4095) / 4096 = u + 1) by zlia.
  pose proof (allocuvm_spec kend Hkend k p G d (u * 4096) (u * 4096 + 4096) cp) as H.
  cbv zeta in H. rewrite H1, H2 in H. eapply wp_mono; [|apply H; try done; try lia].
  - intros r k' [[-> Hp]|(_&_&Hf)]; [|lia]. split; [lia|done].
  - unfold KERNBASE. lia.
  - intros w. rewrite H1, H2. intros Hw. replace w with u by lia. done.
Qed.

Lemma fresh_grow p0 k p G k' p' G' d w f :
  Inv0 kend k p G → Bal p G → grow k p G k' p' G' → w < UPAGES →
  ptes G !! (d, w) = Some (f * 4096 + 7) → fresh_zero p0 k p f → fresh_zero p0 k' p' f.
Proof.
  intros HI HB Hg Hw Hl (Hin&Hc&Hz).
  destruct (enc_dom _ _ _ (i_enc _ _ _ _ HI) _ _ _ Hl) as (Hu&_).
  assert (Hf : (f * 4096 + 7) / 4096 = f) by zlia. split_and!; [done| |].
  - rewrite (g_count _ _ _ _ _ _ Hg); lia.
  - pose proof (grow_zeroed kend k p G k' p' G' d w _ HI HB Hg Hl Hw) as H. rewrite Hf in H. auto.
Qed.

(** markpteup of a page that has an entry. *)
Lemma markpteup_spec k p G d u e :
  Inv0 kend k p G → is_dir G d → 0 ≤ u < UPAGES → ptes G !! (d, u) = Some e →
  wp (markpteup d (u * 4096)) k (λ _ k',
    Inv0 kend k' p (set_pte G d u (usable e)) ∧
    (∀ g, extra p (set_pte G d u (usable e)) g = extra p G g) ∧
    grow k p G k' p (set_pte G d u (usable e))).
Proof.
  intros HI Hd Hu Hl. assert (HU : UPAGES = 524288) by done.
  assert (Hdiv : u * 4096 / 4096 = u) by (by rewrite Z.div_mul).
  destruct (enc_dom _ _ _ (i_enc _ _ _ _ HI) _ _ _ Hl) as (Hue&Hnz&_).
  destruct (usable_facts e Hue Hnz) as (H1&H2&H3&H4&_).
  eapply wp_mono; [|eapply (update_pte_spec kend k p G d (u * 4096) e "markpteup" usable);
    rewrite ?Hdiv; try done].
  - intros [] k'. by rewrite Hdiv.
  - unfold is_u32. lia.
  - intros HW _. left. congruence.
Qed.

Section growth.
Context k0 p0 G0 (pr : proc) (v gp eg : Z).
Abbreviation d := (p_pgdir pr).
Hypothesis (HI0 : Inv0 kend k0 p0 G0) (HB0 : Bal p0 G0) (Hd : is_dir G0 d).
Hypothesis (Hv : 2 ≤ v ≤ gp) (Hgp : gp < UPAGES - 1) (Hguard : p_guardpg pr = gp * 4096).
Hypothesis (Hold : ptes G0 !! (d, gp) = Some eg).
Hypothesis (Hfree : ∀ w, v - 1 ≤ w < gp → ptes G0 !! (d, w) = None).
Hypothesis (Hmem : 2 * (gp - v + 1) ≤ Z.of_nat (length (Pool.free p0))).

Lemma not_guard u : u < gp → is_guard (Some pr) (u * 4096) = false.
Proof. intros Hu. simpl. rewrite Hguard. apply Z.eqb_neq. lia. Qed.

(** The new guard page and the end of the old one. *)
Lemma grow_begin (next : Z → K (kmem * proc) unit) Q :
  (∀ k p G, grow_at k0 p0 G0 d v v gp k p G → wp (next (v * 4096)) (k, pr) Q) →
  wp (on_mem (allocuvm kend d ((v - 1) * 4096) (u32 ((v - 1) * 4096 + PGSIZE)) (Some pr)) ≫=
      λ addguard, if addguard =? 0 then panic "addguard failed" else
      on_mem (clearpteu d ((v - 1) * 4096)) ≫= λ _, on_mem (clearptep d ((v - 1) * 4096)) ≫= λ _,
      on_mem (markpteup d (p_guardpg pr)) ≫= λ _, next addguard) (k0, pr) Q.
Proof.
  intros HQ. assert (HU : UPAGES = 524288) by done. apply wp_bind, wp_on_mem.
  eapply wp_mono; [|apply (alloc_one k0 p0 G0); try done; try lia;
    [apply Hfree; lia|apply not_guard; lia]].
  intros r k1 (->&p1&G1&[HI1 HB1 Hg1 Hx1 Ho1 Hn1 Hc1]).
  rewrite (proj2 (Z.eqb_neq _ 0)) by lia. replace (v - 1 + 1) with v in * by lia.
  destruct (Hn1 (v - 1)) as (f&Hl1&_); [lia|].
  assert (Hd1 : is_dir G1 d) by (by apply (grow_is_dir k0 p0 G0 k1 p1 G1)).
  assert (Hdiv : (v - 1) * 4096 / 4096 = v - 1) by (by rewrite Z.div_mul).
  pose proof (hide_child kend Hkend k1 p1 G1 d ((v - 1) * 4096) (f * 4096 + 7) HI1 HB1 Hd1) as Hh.
  cbv zeta in Hh. rewrite Hdiv in Hh. ospecialize (Hh _ _ _); [unfold is_u32; lia|lia|done|].
  apply wp_bind in Hh. apply wp_bind, wp_on_mem. eapply wp_mono; [|exact Hh]. clear Hh.
  intros [] k2' Hh. apply wp_bind, wp_on_mem. eapply wp_mono; [|exact Hh]. clear Hh k2'.
  intros [] k2 (HI2&Hnz2&Hx2&Hg2). change (Z.land (Z.land _ _) _) with (hidden f) in *.
  set (G2 := set_pte G1 d (v - 1) (hidden f)) in *. rewrite Hguard.
  assert (Hd2 : is_dir G2 d) by (by apply (grow_is_dir k1 p1 G1 k2 p1 G2)).
  assert (Hl2 : ptes G2 !! (d, gp) = Some eg).
  { unfold G2. rewrite set_pte_lookup, decide_False, Ho1 by (done || (intros [??]; lia) || (right; lia)).
    done. }
  destruct (enc_dom _ _ _ (i_enc _ _ _ _ HI0) _ _ _ Hold) as (Hue&Hnz&_).
  destruct (enc_dom _ _ _ (i_enc _ _ _ _ HI1) _ _ _ Hl1) as (Hfu&_).
  destruct (usable_facts eg Hue Hnz) as (_&Hnz3&_).
  apply wp_bind, wp_on_mem.
  eapply wp_mono; [|apply (markpteup_spec k2 p1 G2 d gp eg); try done; lia].
  intros [] k3 (HI3&Hx3&Hg3). apply (HQ k3 p1 (set_pte G2 d gp (usable eg))).
  assert (Hx : ∀ g, extra p1 (set_pte G2 d gp (usable eg)) g = extra p0 G0 g)
    by (intros g; by rewrite Hx3, Hx2, Hx1).
  split; try done.
  - intros g. rewrite Hx. apply HB0.
  - eapply grow_trans; [done|]. by eapply grow_trans.
  - intros d' w Hw. rewrite set_pte_lookup, decide_False by (done || (intros [-> ->]; lia)).
    unfold G2. rewrite set_pte_lookup, decide_False by (done || (intros [-> ->]; lia)).
    apply Ho1. destruct Hw; [by left|right; lia].
  - by rewrite set_pte_lookup, decide_True, Hold.
  - exists f. rewrite set_pte_lookup, decide_False by (done || (intros [??]; lia)).
    unfold G2. rewrite set_pte_lookup, decide_True by done. split; [done|]. unfold is_u32 in Hfu. lia.
  - lia.
  - lia.
Qed.

Lemma fresh_unused k p G f :
  Inv0 kend k p G → grow k0 p0 G0 k p G → f ∈ Pool.free p → Pool.count p0 f = 0.
Proof.
  intros HI Hg Hf. destruct (decide (Pool.count p0 f = 0)) as [|Hne]; [done|].
  rewrite <- (g_count _ _ _ _ _ _ Hg f Hne). eapply free_unused; [apply HI|done].
Qed.

(** One more page between the guards. *)
Lemma grow_next k p G u (Q : option unit → kmem * proc → Prop) :
  grow_at k0 p0 G0 d v u gp k p G → v ≤ u < gp →
  (∀ k' p' G', grow_at k0 p0 G0 d v (u + 1) gp k' p' G' → Q None (k', pr)) →
  wp (on_mem (allocuvm kend d (u * 4096) (u32 (u * 4096 + PGSIZE)) (Some pr)) ≫= λ addpage,
      if addpage =? 0 then panic "addpage failed" else
      on_mem (markpteup d (u * 4096)) ≫= λ _, mret None) (k, pr) Q.
Proof.
  intros [HI HB Hg Hx Ho Hog (fg&Hng&Hfg) Hn Hc] Hu HQ. assert (HU : UPAGES = 524288) by done.
  assert (Hd1 : is_dir G d) by (by apply (grow_is_dir k0 p0 G0 k p G)). apply wp_bind, wp_on_mem.
  eapply wp_mono; [|apply (alloc_one k p G); try done; try lia;
    [rewrite Ho by (right; lia); apply Hfree; lia|apply not_guard; lia]].
  intros r k1 (->&p1&G1&[HI1 HB1 Hg1 Hx1 Ho1 Hn1 Hc1]).
  rewrite (proj2 (Z.eqb_neq _ 0)) by lia.
  destruct (Hn1 u) as (f&Hl1&Hff&Hone&Hz); [lia|].
  assert (Hd2 : is_dir G1 d) by (by apply (grow_is_dir k p G k1 p1 G1)).
  destruct (enc_dom _ _ _ (i_enc _ _ _ _ HI1) _ _ _ Hl1) as (Hfu&Hfn&_).
  assert (Hf0 : 0 ≤ f) by (unfold is_u32 in Hfu; lia).
  apply wp_bind, wp_on_mem.
  eapply wp_mono; [|apply (markpteup_spec k1 p1 G1 d u (f * 4096 + 7)); try done; lia].
  rewrite usable_7 by done.
  intros [] k2 (HI2&Hx2&Hg2). set (G2 := set_pte G1 d u (f * 4096 + 7)) in *.
  assert (Hsame : ∀ d' w, ptes G2 !! (d', w) = ptes G1 !! (d', w)).
  { intros d' w. unfold G2. rewrite set_pte_lookup by done. case_decide as Hc'; [|done].
    by destruct Hc' as [-> ->]. }
  assert (Hx' : ∀ g, extra p1 G2 g = extra p0 G0 g) by (intros g; by rewrite Hx2, Hx1, Hx).
  assert (HB2 : Bal p1 G2) by (intros g; rewrite Hx'; apply HB0).
  apply wp_ret, (HQ k2 p1 G2). split; try done.
  - eapply grow_trans; [done|]. by eapply grow_trans.
  - intros d' w Hw. rewrite Hsame, Ho1, Ho by (destruct Hw; [by left|right; lia]). done.
  - by rewrite Hsame, Ho1 by (right; lia).
  - exists fg. by rewrite Hsame, Ho1 by (right; lia).
  - intros w Hw. rewrite Hsame. destruct (decide (w = u)) as [->|Hne].
    + exists f. split; [done|]. eapply (fresh_grow p0 k1 p1 G1 k2 p1 G2 d u); try done; [lia|].
      split; [|done]. by apply (fresh_unused k p G).
    + destruct (Hn w) as (f'&Hl'&Hfz); [lia|]. exists f'. rewrite Ho1 by (right; lia). split; [done|].
      eapply (fresh_grow p0 k1 p1 G1 k2 p1 G2 d w); try done; [lia|by rewrite Ho1 by (right; lia)|].
      eapply (fresh_grow p0 k p G k1 p1 G1 d w); try done. lia.
  - lia.
Qed.
End growth.
End stack.

(** The layout of the stack when the page of [cr2] is touched: the guard page
    has a frame but is hidden, writable or, since a fork, copy-on-write; nothing is
    mapped between it and the page below the one of [cr2], whose page table exists. *)
Record stack_layout (G : ghost) (pr : proc) (cr2 eg : Z) : Prop := {
  sl_aligned : p_guardpg pr mod 4096 = 0;
  sl_top : p_guardpg pr + 4096 < KERNBASE;
  sl_limit : 4096 ≤ p_stacklastpg pr ≤ cr2;
  sl_inside : cr2 < p_stacktop pr;
  sl_below : PGROUNDDOWN cr2 ≤ p_guardpg pr;
  sl_entry : ptes G !! (p_pgdir pr, p_guardpg pr / 4096) = Some eg;
  sl_hidden : has eg PTE_P = false ∧ has eg PTE_W = negb (has eg PTE_COW);
  sl_gap w : cr2 / 4096 - 1 ≤ w < p_guardpg pr / 4096 → ptes G !! (p_pgdir pr, w) = None;
  sl_table : ∃ f, slot G (p_pgdir pr) (PGROUNDDOWN cr2) f
}.

Section growth.
Context (kend : Z) (Hkend : KERNBASE < kend).

Lemma layout_range G pr cr2 eg : stack_layout G pr cr2 eg → 4096 ≤ cr2 < KERNBASE ∧ is_u32 cr2.
Proof.
  intros [Hal Htop Hlim Hin Hbel _ _ _ _]. rewrite PGROUNDDOWN_eq in Hbel. unfold KERNBASE, is_u32 in *. zlia.
Qed.

(** A write fault below the stack ends up in [grow_stack], unless it is on a guard
    page that is copy-on-write. *)
Lemma pagefault_grow k p G pr cr2 eg :
  Inv0 kend k p G → stack_layout G pr cr2 eg → has (tf_err (p_tf pr)) FEC_WR = true →
  has eg PTE_COW = false ∨ PGROUNDDOWN cr2 ≠ p_guardpg pr →
  pagefault kend cr2 (k, pr) = grow_stack kend cr2 (k, pr).
Proof.
  intros HI HL Herr Hcase. destruct (layout_range _ _ _ _ HL) as [Hr Hu].
  destruct HL as [Hal Htop Hlim Hin Hbel He (HP&_) Hgap (f&Hs)].
  rewrite PGROUNDDOWN_eq in Hbel, Hcase. rewrite (pagefault_write kend k p G pr cr2 f) by (done || lia).
  assert (has (pte_at G (p_pgdir pr) (cr2 / 4096)) PTE_P = false ∧
                has (pte_at G (p_pgdir pr) (cr2 / 4096)) PTE_COW = false) as [-> ->].
  { unfold pte_at. destruct (decide (cr2 / 4096 = p_guardpg pr / 4096)) as [Heq|Hne].
    - rewrite Heq, He. destruct Hcase as [|Hc]; [done|]. destruct Hc. zlia.
    - rewrite Hgap by zlia. done. }
  by rewrite (proj2 (Z.leb_le _ _)), (proj2 (Z.ltb_lt _ _)) by lia.
Qed.

(** The entry of a guard page that is touched. *)
Lemma guard_touched G pr cr2 eg :
  stack_layout G pr cr2 eg → PGROUNDDOWN cr2 = p_guardpg pr →
  ptes G !! (p_pgdir pr, cr2 / 4096) = Some eg ∧ cr2 / 4096 = p_guardpg pr / 4096.
Proof.
  intros [Hal Htop Hlim Hin Hbel He _ _ _] Hpage. rewrite PGROUNDDOWN_eq in Hpage.
  assert (cr2 / 4096 = p_guardpg pr / 4096) as -> by zlia. done.
Qed.

(** A write to a copy-on-write guard page that is the last reference to its frame
    takes the mark away: the guard page is as [stack_layout] wants it. *)
Lemma guard_unmarked k p G pr cr2 eg :
  Inv0 kend k p G → Bal p G → is_dir G (p_pgdir pr) → stack_layout G pr cr2 eg → has (tf_err (p_tf pr)) FEC_WR = true →
  has eg PTE_COW = true → PGROUNDDOWN cr2 = p_guardpg pr → Pool.count p (eg / 4096) = 1 →
  wp (pagefault kend cr2) (k, pr) (λ _ s', s'.2 = pr ∧ ∃ G' eg', Inv0 kend s'.1 p G' ∧ Bal p G' ∧
    (∀ f, extra p G' f = extra p G f) ∧
    stack_layout G' pr cr2 eg' ∧ has eg' PTE_COW = false ∧
    ∀ d' va, is_dir G d' → user_va va → user_read s'.1 d' va = user_read k d' va).
Proof.
  intros HI HB Hd HL Herr HC Hpage Hone. destruct (layout_range _ _ _ _ HL) as [Hr Hu].
  destruct (guard_touched _ _ _ _ HL Hpage) as [Hl Heq]. destruct (page_base cr2 Hu) as [Hua Hdiv].
  pose proof HL as [Hal Htop Hlim Hin Hbel He (HP&_) Hgap (f&Hs)].
  assert (HUP : UPAGES = 524288) by done. assert (Hvp : cr2 / 4096 < UPAGES) by (unfold KERNBASE in *; zlia).
  eapply wp_run; [apply (pagefault_write kend k p G pr cr2 f); done || lia|].
  unfold pte_at. rewrite Hl. change (default 0 (Some eg)) with eg. rewrite HC.
  eapply wp_mono; [|eapply (cow_fault_last kend Hkend k p G pr cr2 (PGROUNDDOWN cr2) eg f); rewrite ?Hdiv; try done].
  intros [] s' (Hpr&e'&G'&Hat&Hok&HP'). rewrite Hdiv in Hat. split; [done|]. exists G', e'. pose proof Hat as [].
  destruct f_flags as [HW' HC']. split; [done|]. split; [done|]. split; [done|]. split; [|split; [done|]].
  - split; try done.
    + by rewrite f_ptes, set_pte_lookup, decide_True by done.
    + rewrite HP', HP, HC', HW'. done.
    + intros w Hw. rewrite f_ptes, set_pte_lookup, decide_False by (done || (intros [_ ->]; lia)). by apply Hgap.
    + exists f. unfold slot in *. by apply (k_roles _ _ _ _ _ _ f_keep).
  - intros d' va Hd' [Hu' Hvp']%user_va_facts. by eapply (fault_view kend k p G (p_pgdir pr) (cr2 / 4096) eg e').
Qed.

(** With other references to the frame, the guard page becomes a private copy of it
    that the process may use, and no other page becomes the guard page. *)
Lemma guard_opened k p G pr cr2 eg :
  Inv0 kend k p G → Bal p G → is_dir G (p_pgdir pr) → stack_layout G pr cr2 eg → has (tf_err (p_tf pr)) FEC_WR = true →
  has eg PTE_COW = true → PGROUNDDOWN cr2 = p_guardpg pr → 1 < Pool.count p (eg / 4096) → Pool.free p ≠ [] →
  wp (pagefault kend cr2) (k, pr) (λ _ s', s'.2 = pr ∧ ∃ p' G' e', Inv0 kend s'.1 p' G' ∧ Bal p' G' ∧
    (∀ f, extra p' G' f = extra p G f) ∧
    ptes G' !! (p_pgdir pr, cr2 / 4096) = Some e' ∧ user_ok e' true = true ∧
    (∀ va, p_guardpg pr ≤ va < p_guardpg pr + PGSIZE →
       user_read s'.1 (p_pgdir pr) va = Some (rd8 (pmem k) (kva (eg / 4096) + va mod 4096))) ∧
    ∀ d' va, is_dir G d' → user_va va → d' ≠ p_pgdir pr ∨ ¬ (p_guardpg pr ≤ va < p_guardpg pr + PGSIZE) →
      user_read s'.1 d' va = user_read k d' va).
Proof.
  intros HI HB Hd HL Herr HC Hpage Hmany Hmem. destruct (layout_range _ _ _ _ HL) as [Hr Hu].
  destruct (guard_touched _ _ _ _ HL Hpage) as [Hl Heq]. destruct (page_base cr2 Hu) as [Hua Hdiv].
  pose proof HL as [Hal Htop Hlim Hin Hbel He (HP&HW) Hgap (f&Hs)]. rewrite HC in HW.
  assert (HUP : UPAGES = 524288) by done. unfold PGSIZE, KERNBASE in *. assert (Hvp : cr2 / 4096 < UPAGES) by zlia.
  eapply wp_run; [apply (pagefault_write kend k p G pr cr2 f); done || unfold KERNBASE; lia|].
  unfold pte_at. rewrite Hl. change (default 0 (Some eg)) with eg. rewrite HC.
  eapply wp_mono; [|eapply (cow_fault_shared kend Hkend k p G pr cr2 (PGROUNDDOWN cr2) eg f); rewrite ?Hdiv; try done].
  intros [] s' (Hpr&e'&p'&G'&Hat&Hok). rewrite Hdiv in Hat. split; [done|]. exists p', G', e'. pose proof Hat as [].
  split_and!; try done.
  - by rewrite f_ptes, set_pte_lookup, decide_True by done.
  - intros va Hva. assert (Hv : is_u32 va ∧ va / 4096 = cr2 / 4096) by (rewrite PGROUNDDOWN_eq in Hpage; unfold is_u32; zlia).
    rewrite (fault_view_self kend k p G (p_pgdir pr) (cr2 / 4096) eg e' s'.1 p' G') by (done || apply Hv).
    destruct (andb_prop _ _ Hok) as [Hok1 _]. unfold user_ok. by rewrite Hok1.
  - intros d' va Hd' [Hu' Hvp']%user_va_facts Hout. eapply (fault_view_other kend k p G (p_pgdir pr) (cr2 / 4096) eg e'); try done.
    intros [= -> Hv]. destruct Hout as [?|Hout]; [done|]. destruct Hout. zlia.
Qed.

Lemma grow_stack_spec k p G pr cr2 eg :
  let v := cr2 / 4096 in let gp := p_guardpg pr / 4096 in
  Inv0 kend k p G → Bal p G → is_dir G (p_pgdir pr) → stack_layout G pr cr2 eg →
  p_stacklastpg pr ≤ (v - 1) * 4096 →
  2 * (gp - v + 1) ≤ Z.of_nat (length (Pool.free p)) →
  wp (grow_stack kend cr2) (k, pr) (λ _ s', s'.2 = set_guardpg ((v - 1) * 4096) pr ∧
    ∃ p' G', grow_at kend k p G (p_pgdir pr) v gp gp s'.1 p' G').
Proof.
  intros v gp HI HB Hd [Hal Htop Hlim Hin Hbel He _ Hgap _] Hroom Hmem.
  unfold KERNBASE in *. rewrite PGROUNDDOWN_eq in Hbel. fold v in Hbel. fold gp in He, Hgap.
  assert (HU : UPAGES = 524288) by done.
  assert (Hg : p_guardpg pr = gp * 4096) by (unfold gp; zlia).
  assert (Hv : 2 ≤ v ≤ gp ∧ gp < UPAGES - 1) by (unfold v, gp in *; zlia).
  clearbody gp. fold v in Hgap.
  unfold grow_stack. apply wp_bind. change (wp myproc (k, pr) ?Q) with (Q pr (k, pr)). cbv beta.
  assert (Hnew : u32 (PGROUNDDOWN cr2 - PGSIZE) = (v - 1) * 4096).
  { rewrite PGROUNDDOWN_eq, u32_small; unfold is_u32, PGSIZE; fold v; lia. }
  cbv zeta. rewrite Hnew. clearbody v. clear Hnew.
  rewrite (proj2 (Z.ltb_ge _ _)) by lia.
  destruct Hv as [Hv Hgp].
  eapply (grow_begin kend Hkend k p G pr v gp eg); try done.
  intros k1 p1 G1 Hat. rewrite Hg. apply wp_bind.
  set (I := λ a (s : kmem * proc), s.2 = pr ∧ ∃ u p' G', a = u * 4096 ∧ v ≤ u ≤ gp ∧
    grow_at kend k p G (p_pgdir pr) v u gp s.1 p' G').
  apply (wp_upto _ I); unfold PGSIZE; try lia.
  - intros a [k2 pr2] Ha (Hpr&u&p2&G2&->&Hu&Hat2). simpl in Hpr, Hat2. subst pr2.
    eapply (grow_next kend Hkend k p G pr v gp); try done; [lia|].
    intros k3 p3 G3 Hat3. split; [done|]. exists (u + 1), p3, G3. split; [lia|]. by split; [lia|].
  - intros a [k2 pr2] Ha (Hpr&u&p2&G2&->&Hu&Hat2). simpl in Hpr, Hat2. subst pr2.
    replace u with gp in Hat2 by lia. split; [done|]. by exists p2, G2.
  - apply upto_fuel_enough. lia.
  - split; [done|]. exists v, p1, G1. split; [lia|]. by split; [lia|].
Qed.

Lemma hidden_unreadable f w : 0 ≤ f → user_ok (hidden f) w = false.
Proof. intros. unfold user_ok, hidden. flags. by rewrite ?andb_false_r. Qed.

(** Reading through a usable entry. *)
Lemma read_entry k p G d va e :
  Inv0 kend k p G → is_dir G d → is_u32 va → ptes G !! (d, va / 4096) = Some e →
  user_read k d va =
    if user_ok e false then Some (rd8 (pmem k) (kva (e / 4096) + va mod 4096)) else None.
Proof.
  intros HI Hd Hva Hl. unfold user_read. rewrite (mmu_spec kend k p G) by done.
  unfold pte_at. rewrite Hl. simpl default. by destruct (user_ok e false).
Qed.
End growth.

(** With no frame left there is no new guard page. *)
Lemma grow_stack_full (kend : Z) (k : kmem) (p : Pool.pool) (G : ghost) (pr : proc) (cr2 eg : Z) :
  KERNBASE < kend → vm_inv kend k p G → is_dir G (p_pgdir pr) → stack_layout G pr cr2 eg →
  Pool.free p = [] → p_stacklastpg pr ≤ PGROUNDDOWN cr2 - PGSIZE →
  grow_stack kend cr2 (k, pr) = Panic "addguard failed".
Proof.
  intros Hkend [HI HB] Hd HL Hfree Hroom. destruct (layout_range _ _ _ _ HL) as [Hr Hu].
  destruct HL as [Hal Htop Hlim Hin Hbel He _ Hgap _]. assert (HU : UPAGES = 524288) by done.
  rewrite PGROUNDDOWN_eq in Hbel, Hroom. unfold grow_stack. change ((myproc ≫= ?f) (k, pr)) with (f pr (k, pr)). cbv beta zeta.
  rewrite PGROUNDDOWN_eq. unfold PGSIZE, KERNBASE in *. set (u := cr2 / 4096 - 1).
  replace (cr2 / 4096 * 4096 - 4096) with (u * 4096) in * by (unfold u; lia).
  rewrite (u32_small (u * 4096)), (u32_small (u * 4096 + 4096)) by (unfold is_u32, u in *; zlia).
  rewrite (proj2 (Z.ltb_ge _ _)) by lia.
  assert (H1 : (u * 4096 + 4095) / 4096 = u) by zlia.
  assert (H2 : (u * 4096 + 4096 + 4095) / 4096 = u + 1) by zlia.
  pose proof (allocuvm_spec kend Hkend k p G (p_pgdir pr) (u * 4096) (u * 4096 + 4096) (Some pr)) as H.
  cbv zeta in H. rewrite H1, H2 in H. ospecialize (H HI HB Hd _ _ _); [unfold u in *; zlia|unfold u, KERNBASE in *; zlia|..].
  { intros w. rewrite H1, H2. intros Hw. replace w with u by lia. split; [apply Hgap; unfold u in *; zlia|].
    simpl. apply Z.eqb_neq. unfold u in *. zlia. }
  unfold wp in H. destruct (allocuvm _ _ _ _ _ k) as [r k'| | | |] eqn:Er in H; try done.
  rewrite (bind_on_mem _ _ _ _ _ _ Er). destruct H as [(_&p'&G'&[_ _ _ _ _ Hn _])|(->&_)]; [|done].
  destruct (Hn u) as (f&_&Hf&_); [lia|]. rewrite Hfree in Hf. by apply elem_of_nil in Hf.
Qed.

(** The growth itself, by [grow_stack]. *)
Lemma grow_stack_view (kend : Z) (k : kmem) (p : Pool.pool) (G : ghost) (pr : proc) (cr2 eg : Z) :
  let d := p_pgdir pr in let page := PGROUNDDOWN cr2 in let guard := p_guardpg pr in
  KERNBASE < kend → vm_inv kend k p G → is_dir G d → stack_layout G pr cr2 eg →
  2 * ((guard - page) / 4096 + 1) ≤ Z.of_nat (length (Pool.free p)) → p_stacklastpg pr ≤ page - PGSIZE →
  wp (grow_stack kend cr2) (k, pr) (λ _ s',
    s'.2 = set_guardpg (page - PGSIZE) pr ∧
    ∃ p' G', vm_inv kend s'.1 p' G' ∧ (∀ f, extra p' G' f = extra p G f) ∧
      (∀ va, page ≤ va < guard + PGSIZE →
         user_read s'.1 d va = Some (if va <? guard then 0
                                     else rd8 (pmem k) (kva (eg / 4096) + va mod 4096)) ∧
         ∃ e, ptes G' !! (d, va / 4096) = Some e ∧ user_ok e false = true ∧
           has e PTE_W = (va <? guard) || negb (has eg PTE_COW) ∧
           (guard ≤ va → has e PTE_COW = has eg PTE_COW)) ∧
      (∀ va, page - PGSIZE ≤ va < page → user_read s'.1 d va = None) ∧
      (∀ d' va, is_dir G d' → user_va va →
         d' ≠ d ∨ ¬ (page - PGSIZE ≤ va < guard + PGSIZE) →
         user_read s'.1 d' va = user_read k d' va)).
Proof.
  intros d page guard Hkend HV Hd HL Hmem Hroom. pose proof HV as [HI HB].
  pose proof (PGROUNDDOWN_eq cr2 : page = cr2 / 4096 * 4096) as Hpage.
  pose proof HL as [Hal Htop Hlim Hin Hbel He (HP&HW) Hgap _]. fold guard in Hal, Htop, Hbel, He, Hgap.
  fold page in Hbel. fold d in He, Hgap. unfold KERNBASE in *. assert (HU : UPAGES = 524288) by done.
  unfold PGSIZE in *.
  eapply wp_mono; [|apply (grow_stack_spec kend Hkend k p G pr cr2 eg); try done;
    [lia|fold d guard; zlia]].
  fold d guard. intros [] [k' pr'] (Hpr&p'&G'&[HI' HB' Hg Hx Ho Hog (fg&Hng&Hfg) Hn _]).
  simpl in *. subst pr'. split; [f_equal; lia|]. exists p', G'. split; [done|]. split; [done|].
  assert (Hd' : ∀ d', is_dir G d' → is_dir G' d') by (intros d'; by apply (grow_is_dir k p G k' p' G')).
  destruct (enc_dom _ _ _ (i_enc _ _ _ _ HI) _ _ _ He) as (Hue&Hnz&_).
  destruct (usable_facts eg Hue Hnz) as (_&_&Hfr&HW'&Hok).
  split_and!.
  - intros va Hva. assert (Hu : is_u32 va) by (unfold is_u32; zlia).
    destruct (Z.ltb_spec va guard) as [Hlt|Hge].
    + destruct (Hn (va / 4096)) as (f&Hl&_&_&Hz); [zlia|].
      destruct (enc_dom _ _ _ (i_enc _ _ _ _ HI') _ _ _ Hl) as (Hfu&_).
      assert (Hf : 0 ≤ f) by (unfold is_u32 in Hfu; lia).
      pose proof (entry7_ok f true Hf) as H7. destruct (andb_prop _ _ H7) as [_ HW7]. simpl in HW7.
      split; [|exists (f * 4096 + 7); split; [done|]; split; [by apply entry7_ok|]; split; [done|lia]].
      rewrite (read_entry kend k' p' G' d va _ HI' (Hd' d Hd) Hu Hl), entry7_ok, entry7_frame by done.
      f_equal. apply Hz. zlia.
    + assert (Hvg : va / 4096 = guard / 4096) by zlia. rewrite He in Hog. simpl in Hog.
      rewrite <- Hvg in Hog.
      split; [|exists (usable eg); split; [done|]; split; [done|]; split; [by rewrite HW', HW|intros _; unfold usable; by flags]].
      rewrite (read_entry kend k' p' G' d va _ HI' (Hd' d Hd) Hu Hog), Hok, Hfr. f_equal.
      apply (g_data _ _ _ _ _ _ Hg), (entry_stable kend k p G d (guard / 4096) eg); try done; zlia.
  - intros va Hva. assert (Hu : is_u32 va) by (unfold is_u32; zlia).
    replace (cr2 / 4096 - 1) with (va / 4096) in Hng by zlia.
    by rewrite (read_entry kend k' p' G' d va _ HI' (Hd' d Hd) Hu Hng), hidden_unreadable by done.
  - intros d' va Hd1 Hva Hout. eapply (view_mixed kend k p G k' p' G'); try done; [by auto|..].
    + intros a Ha _. by apply (g_data _ _ _ _ _ _ Hg).
    + apply Ho. destruct Hout as [?|Hout]; [by left|right]. zlia.
Qed.


(** ** A process with a guard page *)

(** The first address space of the example, with a guard page at virtual page
    20, whose frame is 2005. *)
#[local] Opaque ex_mem.

(** Writable, and copy-on-write after a fork whose child is gone. *)
Definition ex_guard (cow : bool) : Z := 2005 * 4096 + (if cow then PTE_COW else PTE_W).
Definition ex_count_g : gmap Z Z := <[2005 := 1]> ex_count.
Definition ex_k_g (cow : bool) : kmem := mk_kmem ex_free ex_count_g (wr32 ex_mem (kva 2001 + 4 * 20) (ex_guard cow)).
Definition ex_p_g : Pool.pool := mk_pool ex_free ex_count_g.
Definition ex_G_g (cow : bool) : ghost := set_pte ex_G (kva 2000) (0 * 1024 + 20) (ex_guard cow).
Definition ex_proc_g : proc :=
  set_tf (set_tf_err (FEC_WR + 4) tf_zero)
    (set_stacklastpg (10 * 4096) (set_stacktop (22 * 4096) (set_guardpg (20 * 4096)
      (set_pgdir (kva 2000) proc_zero)))).

Lemma ex_inv_g cow : vm_inv ex_kend (ex_k_g cow) ex_p_g (ex_G_g cow).
Proof.
  destruct ex_inv as [[HR He Hp Ht] HB]. split; [split|].
  - apply mk_kmem_R; [apply NoDup_seqZ| | |apply mem_wf_wr32, ex_mem_wf].
    + intros i Hi%elem_of_seqZ. split; [apply ex_good; lia|].
      unfold ex_count_g, ex_count. rewrite !lookup_insert_ne by lia. apply lookup_singleton_ne. lia.
    + intros i c. unfold ex_count_g, ex_count. rewrite !lookup_insert_Some, lookup_singleton_Some.
      unfold is_u32. lia.
  - apply enc_set_pte; [apply ex_enc|by destruct cow..].
  - intros d vp e. unfold ex_G_g. rewrite set_pte_lookup by (by destruct cow). case_decide as Hc.
    + intros [= <-] _ _. split; [destruct cow; by apply ex_good|]. split; [by destruct cow|]. intros _. left. by destruct cow.
    + intros Hl H1 H2. destruct (Hp d vp e Hl H1 H2) as (?&?&_). split; [done|].
      assert (e = ex_entry) as ->.
      { simpl in Hl. rewrite lookup_insert_Some, lookup_singleton_Some in Hl. naive_solver. }
      split; [done|]. intros HW. done.
  - intros f r Hf. pose proof (Ht f r Hf) as Hc. simpl in Hf.
    rewrite !lookup_insert_Some, lookup_singleton_Some in Hf.
    assert (f = 2000 ∨ f = 2001 ∨ f = 2002 ∨ f = 2003) as Hcases by naive_solver.
    destruct Hcases as [->|[->|[->| ->]]]; done.
  - intros f. specialize (HB f). unfold ex_G_g. rewrite (extra_set_pte ex_kend _ ex_mem) by apply ex_enc.
    change (pte_at ex_G (kva 2000) (0 * 1024 + 20)) with 0. rewrite contrib_0.
    assert (Hc : Pool.count ex_p_g f = Pool.count ex_p f + if decide (f = 2005) then 1 else 0).
    { unfold ex_p_g, ex_p, mk_pool, ex_count_g; simpl. rewrite lookup_insert.
      case_decide; [subst; by rewrite decide_True|]. rewrite decide_False by done. lia. }
    unfold extra, contrib in *. rewrite Hc.
    assert (Hg : ex_guard cow / 4096 = 2005) by (by destruct cow). rewrite Hg. repeat case_decide; lia.
Qed.

Lemma ex_layout_g cow v o : 12 ≤ v ≤ 20 → 0 ≤ o < 4096 → stack_layout (ex_G_g cow) ex_proc_g (v * 4096 + o) (ex_guard cow).
Proof.
  intros Hv Ho. assert (Hp : PGROUNDDOWN (v * 4096 + o) = v * 4096) by (rewrite PGROUNDDOWN_eq; zlia).
  assert (Hdiv : (v * 4096 + o) / 4096 = v) by zlia.
  split; rewrite ?Hp, ?Hdiv; try done.
  - change (p_stacklastpg ex_proc_g) with 40960. lia.
  - change (p_stacktop ex_proc_g) with 90112. lia.
  - change (p_guardpg ex_proc_g) with 81920. lia.
  - by destruct cow.
  - by destruct cow.
  - change (p_guardpg ex_proc_g / 4096) with 20. intros w Hw. unfold ex_G_g. rewrite set_pte_lookup by (by destruct cow).
    rewrite decide_False by lia. simpl. rewrite lookup_insert_ne by (intros [=]; lia).
    apply lookup_singleton_ne. intros [=]; lia.
  - exists 2001. unfold slot. rewrite PDX_vp by (unfold is_u32; zlia). rewrite Z.div_mul by done.
    replace (v / 1024) with 0 by zlia. done.
Qed.

