(* ===== verification/Sched.v ===== *)
(** Processes on several CPUs: the process table, the scheduler, sleep and
    wakeup, exit and wait (src/proc.c, src/proc.h).

    The state is ptable with the saved kernel context of every process, the
    CPUs, and the memory.  A CPU is at one of a few places ([at_]); each
    routine below is the code between two of them, and the step relation at
    the end lets the CPUs interleave there.  Between these places a CPU either
    holds ptable.lock, so that no other CPU is inside the routines, or runs a
    process outside the lock. *)

From Stdlib Require Import ZArith Lia.
From stdpp Require Import base tactics numbers gmap strings functions relations list.
From S2P Require Import Prelude Memory Kstring Spinlock Mmu Kalloc Procdef Vm.

#[local] Open Scope Z_scope.

(** What a process does when the scheduler switches to it: the saved eip is
    forkret or the instruction after the swtch of a sched() that was called by
    yield, by sleep with a lock other than ptable.lock, by sleep in wait or in
    sys_futex_wait, or by exit; the local variable intena of sched() is saved too. *)
Inductive resume := RForkret | RYield | RSleep | RWait | RFutex | RExit.

Record kctx := { k_resume : resume; k_intena : bool }.

Inductive at_ :=
| AtScheduler                  (* top of the for(;;) of scheduler() *)
| AtScan (i : nat)             (* its inner loop, p == &ptable.proc[i] *)
| AtProc (p : nat)             (* running p, outside ptable.lock *)
| AtFork (p np : nat)          (* p is in fork(), after allocproc() *)
| AtWait (p : nat).            (* p is at the top of the for(;;) of wait() *)

Record cpu := { c_proc : option nat; c_irq : Spin.cpu; c_at : at_ }.

Record sys := {
  procs : nat → proc;
  kctxs : nat → kctx;
  nextpid : Z;
  initproc : nat;
  owner : option nat;          (* the CPU that holds ptable.lock *)
  cpus : nat → cpu;
  vm : vmstate
}.

Definition set_procs (f : (nat → proc) → nat → proc) (s : sys) : sys :=
  {| procs := f (procs s); kctxs := kctxs s; nextpid := nextpid s; initproc := initproc s;
     owner := owner s; cpus := cpus s; vm := vm s |}.
Definition set_kctx (p : nat) (k : kctx) (s : sys) : sys :=
  {| procs := procs s; kctxs := <[p := k]> (kctxs s); nextpid := nextpid s;
     initproc := initproc s; owner := owner s; cpus := cpus s; vm := vm s |}.
Definition set_nextpid (v : Z) (s : sys) : sys :=
  {| procs := procs s; kctxs := kctxs s; nextpid := v; initproc := initproc s;
     owner := owner s; cpus := cpus s; vm := vm s |}.
Definition set_owner (o : option nat) (s : sys) : sys :=
  {| procs := procs s; kctxs := kctxs s; nextpid := nextpid s; initproc := initproc s;
     owner := o; cpus := cpus s; vm := vm s |}.
Definition set_cpu (c : nat) (f : cpu → cpu) (s : sys) : sys :=
  {| procs := procs s; kctxs := kctxs s; nextpid := nextpid s; initproc := initproc s;
     owner := owner s; cpus := <[c := f (cpus s c)]> (cpus s); vm := vm s |}.
Definition on_vm {A} (m : K vmstate A) : K sys A :=
  zoom vm (λ v s, {| procs := procs s; kctxs := kctxs s; nextpid := nextpid s;
    initproc := initproc s; owner := owner s; cpus := cpus s; vm := v |}) m.

(** p->field = v for the process in slot [i]. *)
Definition upd (i : nat) (f : proc → proc) : K sys unit :=
  modify (set_procs (λ ps, <[i := f (ps i)]> ps)).

Definition put_irq (q : Spin.cpu) (x : cpu) : cpu :=
  {| c_proc := c_proc x; c_irq := q; c_at := c_at x |}.
Definition put_at (a : at_) (x : cpu) : cpu :=
  {| c_proc := c_proc x; c_irq := c_irq x; c_at := a |}.
Definition put_proc (p : option nat) (x : cpu) : cpu :=
  {| c_proc := p; c_irq := c_irq x; c_at := c_at x |}.
Definition goto (c : nat) (a : at_) : K sys unit := modify (set_cpu c (put_at a)).

(** The CPUs that mpinit() has found: their number, the field apicid of the entries of
    cpus[], and what the local APIC of a CPU says its id is.  The table of the BIOS
    lists every CPU once, with its id. *)
Class machine := {
  ncpu : nat;
  apicid : nat → Z;
  lapicid : nat → Z;
  lapicid_ok i : (i < ncpu)%nat → lapicid i = apicid i;
  apicid_inj i j : (i < ncpu)%nat → (j < ncpu)%nat → apicid i = apicid j → i = j
}.

Section cpu.
(** The CPU that runs the code. *)
Context `{M : machine} (c : nat).

Definition interrupts_on : K sys bool := gets (λ s, Spin.flag_if (c_irq (cpus s c))).

(** The index of the CPU in cpus[]. *)
Definition mycpu : K sys nat :=
  interrupts_on ≫= λ f : bool,
  if f then panic "mycpu called with interrupts enabled" else
  match list_find (λ i, apicid i = lapicid c) (seq 0 ncpu) with
  | Some (_, i) => mret i
  | None => panic "unknown apicid"
  end.

(** if(mycpu()->ncli == 0) mycpu()->intena = eflags & FL_IF; mycpu()->ncli += 1; *)
Definition push_irq (eflags : bool) (q : Spin.cpu) : Spin.cpu :=
  let q := if Spin.ncli q =? 0 then Spin.with_intena eflags q else q in
  Spin.with_ncli (Spin.ncli q + 1) q.
Definition pushcli : K sys unit :=
  interrupts_on ≫= λ eflags,
  modify (set_cpu c (λ x, put_irq (Spin.with_if false (c_irq x)) x)) ≫= λ _,   (* cli() *)
  mycpu ≫= λ i,
  modify (set_cpu i (λ x, put_irq (push_irq eflags (c_irq x)) x)).
Definition popcli : K sys unit :=
  interrupts_on ≫= λ f : bool,
  if f then panic "popcli - interruptible" else
  mycpu ≫= λ i,
  gets (λ s, c_irq (cpus s i)) ≫= λ q,
  match Spin.popcli q with
  | Ret _ q' => modify (set_cpu i (put_irq q'))
  | Panic msg => panic msg
  | _ => diverge
  end.

(** acquire(&ptable.lock) and release(&ptable.lock) *)
Definition acquire_pt : K sys unit :=
  pushcli ≫= λ _,
  gets owner ≫= λ o,
  match o with
  | None => modify (set_owner (Some c))
  | Some c' => if decide (c' = c) then panic "acquire" else diverge
  end.
Definition release_pt : K sys unit :=
  gets owner ≫= λ o,
  if decide (o = Some c) then modify (set_owner None) ≫= λ _, popcli
  else panic "release".

(** myproc(), a pointer that may be null, and its use as a process. *)
Definition myproc_ptr : K sys (option nat) :=
  pushcli ≫= λ _,
  mycpu ≫= λ i,
  gets (λ s, c_proc (cpus s i)) ≫= λ p,
  popcli ≫= λ _, mret p.
Definition myproc : K sys nat :=
  myproc_ptr ≫= λ o, match o with Some p => mret p | None => fault "myproc() == 0" end.

(** for(p = ptable.proc; p < &ptable.proc[NPROC]; p++)
      if(p->state == SLEEPING && p->chan == chan) p->state = RUNNABLE; *)
Definition sleeps_on (ch : option chan) (p : proc) : bool :=
  bool_decide (p_state p = SLEEPING) && bool_decide (p_chan p = ch).
Definition wake (ch : option chan) (p : proc) : proc :=
  if sleeps_on ch p then set_state RUNNABLE p else p.
Definition wakeup1 (ch : option chan) : K sys unit :=
  modify (set_procs (λ ps i, if decide (i < NPROC)%nat then wake ch (ps i) else ps i)).
Definition wakeupfutex1 (ch : option chan) : K sys Z :=
  gets (λ s, Z.of_nat (length (filter (λ i, sleeps_on ch (procs s i) = true) (seq 0 NPROC)))) ≫= λ n,
  wakeup1 ch ≫= λ _, mret n.

Definition wakeup (ch : chan) : K sys unit :=
  acquire_pt ≫= λ _, wakeup1 (Some ch) ≫= λ _, release_pt.
Definition wakeupfutex (ch : chan) : K sys Z :=
  acquire_pt ≫= λ _, wakeupfutex1 (Some ch) ≫= λ i, release_pt ≫= λ _, mret i.

(** The first slot a loop over the table stops at. *)
Definition find_proc (f : nat → proc → bool) : K sys (option nat) :=
  gets (λ s, list_find (λ i, f i (procs s i) = true) (seq 0 NPROC)) ≫= λ o,
  mret (snd <$> o).

Definition kill (pid : Z) : K sys Z :=
  acquire_pt ≫= λ _,
  find_proc (λ _ p, p_pid p =? pid) ≫= λ o,
  match o with
  | Some i =>
      upd i (set_killed 1) ≫= λ _,
      gets (λ s, procs s i) ≫= λ p,
      when (bool_decide (p_state p = SLEEPING)) (upd i (set_state RUNNABLE)) ≫= λ _,
      release_pt ≫= λ _, mret 0
  | None => release_pt ≫= λ _, mret (-1)
  end.

(** The rest of an iteration of the scheduler's inner loop after the swtch. *)
Definition scheduler_back (p : nat) : K sys unit :=
  on_vm switchkvm ≫= λ _,
  modify (set_cpu c (put_proc None)) ≫= λ _,
  goto c (AtScan (S p)).

(** sched(), called from a place that goes on with [r]: the swtch ends in the
    scheduler of this CPU. *)
Definition sched (r : resume) : K sys unit :=
  myproc ≫= λ p,
  gets owner ≫= λ o,
  if negb (bool_decide (o = Some c)) then panic "sched ptable.lock" else
  mycpu ≫= λ i,
  gets (λ s, c_irq (cpus s i)) ≫= λ q,
  if negb (Spin.ncli q =? 1) then panic "sched locks" else
  gets (λ s, procs s p) ≫= λ pr,
  if bool_decide (p_state pr = RUNNING) then panic "sched running" else
  interrupts_on ≫= λ f : bool,
  if f then panic "sched interruptible" else
  mycpu ≫= λ i,
  gets (λ s, c_irq (cpus s i)) ≫= λ q,
  modify (set_kctx p {| k_resume := r; k_intena := Spin.intena q |}) ≫= λ _,
  scheduler_back p.

Definition yield : K sys unit :=
  acquire_pt ≫= λ _, myproc ≫= λ p, upd p (set_state RUNNABLE) ≫= λ _, sched RYield.

(** sleep(chan, lk), up to the sched(), where [r] is its place after that: lk is a null
    pointer, ptable.lock or the lock of some component. *)
Inductive slock := PtableLock | OtherLock.
Definition sleep (ch : chan) (lk : option slock) (r : resume) : K sys unit :=
  myproc_ptr ≫= λ o,
  match o with
  | None => panic "sleep"
  | Some p =>
      match lk with
      | None => panic "sleep without lk"
      | Some PtableLock => mret tt
      | Some OtherLock => acquire_pt ≫= λ _, popcli          (* of release(lk) *)
      end ≫= λ _,
      upd p (set_chan (Some ch)) ≫= λ _,
      upd p (set_state SLEEPING) ≫= λ _,
      sched r
  end.

(** The process the CPU switched to: the end of sched() and of its caller, up
    to the release of ptable.lock. *)
Definition restore_intena (b : bool) : K sys unit :=
  mycpu ≫= λ i, modify (set_cpu i (λ x, put_irq (Spin.with_intena b (c_irq x)) x)).
Definition run_resumed (p : nat) : K sys unit :=
  gets (λ s, kctxs s p) ≫= λ k,
  match k_resume k with
  | RForkret => release_pt ≫= λ _, goto c (AtProc p)
  | RYield => restore_intena (k_intena k) ≫= λ _, release_pt ≫= λ _, goto c (AtProc p)
  | RSleep | RFutex => restore_intena (k_intena k) ≫= λ _, upd p (set_chan None) ≫= λ _,
      release_pt ≫= λ _, goto c (AtProc p)
  | RWait => restore_intena (k_intena k) ≫= λ _, upd p (set_chan None) ≫= λ _,
      goto c (AtWait p)
  | RExit => panic "zombie exit"
  end.

(** scheduler(): the top of the outer loop, and one turn of the inner one. *)
Definition scheduler_begin : K sys unit :=
  modify (set_cpu c (λ x, put_irq (Spin.with_if true (c_irq x)) x)) ≫= λ _,   (* sti() *)
  acquire_pt ≫= λ _, goto c (AtScan 0).
Definition scheduler_turn (i : nat) : K sys unit :=
  if decide (i < NPROC)%nat then
    gets (λ s, procs s i) ≫= λ p,
    if negb (bool_decide (p_state p = RUNNABLE)) then goto c (AtScan (S i)) else
    modify (set_cpu c (put_proc (Some i))) ≫= λ _,
    on_vm (switchuvm p) ≫= λ _,
    upd i (set_state RUNNING) ≫= λ _,
    run_resumed i
  else release_pt ≫= λ _, goto c AtScheduler.

(** sys_futex_wait after its arguments were read: [same] is *loc == val. *)
Definition futex_wait (loc : Z) (same : bool) : K sys Z :=
  acquire_pt ≫= λ _,
  if same then sleep (ChUser loc) (Some PtableLock) RFutex ≫= λ _, mret 0
  else release_pt ≫= λ _, mret (-1).

(** exit(): its check, and the part from the acquire on. *)
Definition exit_begin : K sys unit :=
  myproc ≫= λ cur,
  gets initproc ≫= λ ip,
  if decide (cur = ip) then panic "init exiting" else mret tt.
Definition abandon (cur ip i : nat) : K sys unit :=
  gets (λ s, procs s i) ≫= λ p,
  when (bool_decide (p_parent p = Some cur))
    (upd i (set_parent (Some ip)) ≫= λ _,
     when (bool_decide (p_state p = ZOMBIE)) (wakeup1 (Some (ChProc ip)))).
Definition exit_end : K sys unit :=
  myproc ≫= λ cur,
  acquire_pt ≫= λ _,
  gets (λ s, procs s cur) ≫= λ p,
  wakeup1 (ChProc <$> p_parent p) ≫= λ _,
  gets initproc ≫= λ ip,
  for_each (seq 0 NPROC) (abandon cur ip) ≫= λ _,
  upd cur (set_state ZOMBIE) ≫= λ _,
  sched RExit.

Section memory.
(** The end of the kernel and the addresses of forkret and trapret, which the
    linker and assembler provide. *)
Context (kend forkret trapret : Z).

(** The memory part of the reaping of a child in wait(). *)
Definition free_kstack (v : Z) : K kmem unit :=
  getRefCount v ≫= λ n, if n =? 1 then kfree kend v else declRefCount v.
Definition reap (i : nat) : K sys unit :=
  gets (λ s, procs s i) ≫= λ p,
  on_vm (on_km (free_kstack (p_kstack p))) ≫= λ _,
  upd i (set_kstack 0) ≫= λ _,
  gets (λ s, procs s i) ≫= λ p,
  on_vm (on_km (freevm kend (p_pgdir p) (Some p))) ≫= λ _,
  upd i (set_pid 0) ≫= λ _,
  upd i (set_parent None) ≫= λ _,
  upd i (λ p, set_name (<[O := 0]> (p_name p)) p) ≫= λ _,
  upd i (set_killed 0) ≫= λ _,
  upd i (set_state UNUSED).

(** wait(): up to its loop, and one turn of the loop, whose result is the value
    wait() returns or [None] when it goes to sleep. *)
Definition wait_begin : K sys unit :=
  myproc ≫= λ cur, acquire_pt ≫= λ _, goto c (AtWait cur).
Definition wait_return (r : Z) : K sys (option Z) :=
  myproc ≫= λ cur, release_pt ≫= λ _, goto c (AtProc cur) ≫= λ _, mret (Some r).
Definition wait_turn : K sys (option Z) :=
  myproc ≫= λ cur,
  find_proc (λ _ p, bool_decide (p_parent p = Some cur) && bool_decide (p_state p = ZOMBIE)) ≫= λ z,
  match z with
  | Some i =>
      gets (λ s, p_pid (procs s i)) ≫= λ pid, reap i ≫= λ _, wait_return pid
  | None =>
      find_proc (λ _ p, bool_decide (p_parent p = Some cur)) ≫= λ havekids,
      gets (λ s, p_killed (procs s cur)) ≫= λ killed,
      if bool_decide (havekids = None) || truth killed then wait_return (-1)
      else sleep (ChProc cur) (Some PtableLock) RWait ≫= λ _, mret None
  end.

(** allocproc(): the trap frame and the context are at the top of the new
    stack page, above them the return address trapret. *)
Definition sizeof_tf : Z := 76.
Definition allocproc : K sys (option nat) :=
  acquire_pt ≫= λ _,
  find_proc (λ _ p, bool_decide (p_state p = UNUSED)) ≫= λ o,
  match o with
  | None => release_pt ≫= λ _, mret None
  | Some np =>
      upd np (set_state EMBRYO) ≫= λ _,
      gets nextpid ≫= λ pid,
      upd np (set_pid pid) ≫= λ _,
      modify (set_nextpid (s32 (pid + 1))) ≫= λ _,
      release_pt ≫= λ _,
      on_vm (on_km kalloc) ≫= λ v,
      upd np (set_kstack v) ≫= λ _,
      if v =? 0 then upd np (set_state UNUSED) ≫= λ _, mret None else
      on_vm (on_km (store32 (v + KSTACKSIZE - sizeof_tf - 4) trapret)) ≫= λ _,
      upd np (set_context (mk_context 0 0 0 0 forkret)) ≫= λ _,
      modify (set_kctx np {| k_resume := RForkret; k_intena := false |}) ≫= λ _,
      mret (Some np)
  end.

(** fork(): up to the page table of the child, the exit when there is none,
    and the end, where [child] stands for the assignments to the child's
    fields that only the child reads. *)
Definition fork_begin : K sys (option Z) :=
  myproc ≫= λ cur,
  allocproc ≫= λ o,
  match o with
  | None => mret (Some (-1))
  | Some np => goto c (AtFork cur np) ≫= λ _, mret None
  end.
Definition fork_fail (cur np : nat) : K sys Z :=
  upd np (set_kstack 0) ≫= λ _,
  upd np (set_state UNUSED) ≫= λ _,
  goto c (AtProc cur) ≫= λ _, mret (-1).
Definition fork_end (cur np : nat) (child : proc → proc) : K sys Z :=
  upd np child ≫= λ _,
  upd np (set_parent (Some cur)) ≫= λ _,
  gets (λ s, p_pid (procs s np)) ≫= λ pid,
  acquire_pt ≫= λ _,
  upd np (set_state RUNNABLE) ≫= λ _,
  release_pt ≫= λ _,
  goto c (AtProc cur) ≫= λ _, mret pid.
End memory.
End cpu.

(** ** Interleaving *)

Definition holds (a : at_) : bool :=
  match a with AtScan _ | AtWait _ => true | _ => false end.
Definition at_proc (a : at_) : option nat :=
  match a with AtProc p | AtFork p _ | AtWait p => Some p | _ => None end.
Definition fork_of (a : at_) : option nat :=
  match a with AtFork _ np => Some np | _ => None end.

(** An assignment to fields of a process that only the process itself reads. *)
Definition private (f : proc → proc) : Prop := ∀ p,
  p_state (f p) = p_state p ∧ p_pid (f p) = p_pid p ∧ p_parent (f p) = p_parent p ∧
  p_chan (f p) = p_chan p ∧ p_kstack (f p) = p_kstack p ∧ (p_pgdir p ≠ 0 → p_pgdir (f p) ≠ 0).

Definition is_ChProc (ch : chan) : bool := match ch with ChProc _ => true | _ => false end.

Definition ncli (s : sys) (c : nat) : Z := Spin.ncli (c_irq (cpus s c)).

Section step.
Context `{M : machine} (kend forkret trapret : Z).

(** A step of CPU [c] of the machine; the routines are called where the code calls them: the
    ones that end in sched() with no other lock held, sleep with one, and
    wakeup also by interrupt handlers. *)
Inductive step (s s' : sys) : Prop :=
| st_scheduler c :
    (c < ncpu)%nat → c_at (cpus s c) = AtScheduler → scheduler_begin c s = Ret tt s' → step s s'
| st_turn c i :
    (c < ncpu)%nat → c_at (cpus s c) = AtScan i → scheduler_turn c i s = Ret tt s' → step s s'
| st_yield c p :
    (c < ncpu)%nat → c_at (cpus s c) = AtProc p → ncli s c = 0 → yield c s = Ret tt s' → step s s'
| st_sleep c p ch :
    (c < ncpu)%nat → c_at (cpus s c) = AtProc p → ncli s c = 1 → is_ChProc ch = false →
    sleep c ch (Some OtherLock) RSleep s = Ret tt s' → step s s'
| st_futex_wait c p loc same r :
    (c < ncpu)%nat → c_at (cpus s c) = AtProc p → ncli s c = 0 → futex_wait c loc same s = Ret r s' → step s s'
| st_wakeup c ch :
    (c < ncpu)%nat → holds (c_at (cpus s c)) = false → wakeup c ch s = Ret tt s' → step s s'
| st_wakeupfutex c ch r :
    (c < ncpu)%nat → holds (c_at (cpus s c)) = false → wakeupfutex c ch s = Ret r s' → step s s'
| st_kill c pid r :
    (c < ncpu)%nat → holds (c_at (cpus s c)) = false → kill c pid s = Ret r s' → step s s'
| st_exit_begin c p :
    (c < ncpu)%nat → c_at (cpus s c) = AtProc p → ncli s c = 0 → exit_begin c s = Ret tt s' → step s s'
| st_exit c p :
    (c < ncpu)%nat → c_at (cpus s c) = AtProc p → ncli s c = 0 → p ≠ initproc s → exit_end c s = Ret tt s' →
    step s s'
| st_wait_begin c p :
    (c < ncpu)%nat → c_at (cpus s c) = AtProc p → ncli s c = 0 → wait_begin c s = Ret tt s' → step s s'
| st_wait_turn c p r :
    (c < ncpu)%nat → c_at (cpus s c) = AtWait p → wait_turn c kend s = Ret r s' → step s s'
| st_fork_begin c p r :
    (c < ncpu)%nat → c_at (cpus s c) = AtProc p → ncli s c = 0 → nextpid s < 2147483647 →
    fork_begin c forkret trapret s = Ret r s' → step s s'
| st_fork_fail c p np r :
    (c < ncpu)%nat → c_at (cpus s c) = AtFork p np → fork_fail c p np s = Ret r s' → step s s'
| st_fork_end c p np child r :
    (c < ncpu)%nat → c_at (cpus s c) = AtFork p np → private child →
    p_pgdir (child (procs s np)) ≠ 0 →
    fork_end c p np child s = Ret r s' → step s s'
| st_lock c p :
    (c < ncpu)%nat → c_at (cpus s c) = AtProc p → pushcli c s = Ret tt s' → step s s'
| st_unlock c p :
    (c < ncpu)%nat → c_at (cpus s c) = AtProc p → 0 < ncli s c → popcli c s = Ret tt s' → step s s'
| st_private c p f :
    (c < ncpu)%nat → c_at (cpus s c) = AtProc p → private f → upd p f s = Ret tt s' → step s s'
| st_memory {A} (m : K vmstate A) a :
    on_vm m s = Ret a s' → step s s'.
End step.

(** ** The invariant *)

(** In the table and past its creation. *)
Definition active (st : procstate) : bool :=
  match st with SLEEPING | RUNNABLE | RUNNING => true | _ => false end.
Definition born (st : procstate) : bool :=
  match st with SLEEPING | RUNNABLE | RUNNING | ZOMBIE => true | _ => false end.
Definition live (st : procstate) : bool := match st with UNUSED => false | _ => true end.

(** The processes, given which CPU runs ([on]) and which is creating ([fk])
    which process. *)
Record pinv (on fk : nat → option nat) (ps : nat → proc) (kc : nat → kctx)
    (npid : Z) (ini : nat) : Prop := {
  P_on c i : on c = Some i → p_state (ps i) = RUNNING;
  P_run i : p_state (ps i) = RUNNING → ∃ c, on c = Some i;
  P_excl c c' i : on c = Some i → on c' = Some i → c = c';
  P_fork c i : fk c = Some i → p_state (ps i) = EMBRYO ∧ p_kstack (ps i) ≠ 0 ∧ on c ≠ None;
  P_embryo i : p_state (ps i) = EMBRYO → ∃ c, fk c = Some i;
  P_forkx c c' i : fk c = Some i → fk c' = Some i → c = c';
  P_pid i : live (p_state (ps i)) = true → 0 < p_pid (ps i) < npid;
  P_pidx i j : live (p_state (ps i)) = true → live (p_state (ps j)) = true →
    p_pid (ps i) = p_pid (ps j) → i = j;
  P_high i : (NPROC ≤ i)%nat → p_state (ps i) = UNUSED;
  P_mem i : born (p_state (ps i)) = true → p_pgdir (ps i) ≠ 0 ∧ p_kstack (ps i) ≠ 0;
  P_exit i : k_resume (kc i) = RExit → p_state (ps i) = ZOMBIE ∨ p_state (ps i) = UNUSED;
  P_init : active (p_state (ps ini)) = true;
  P_parent i j : p_parent (ps i) = Some j →
    active (p_state (ps j)) = true ∧ born (p_state (ps i)) = true;
  P_orphan i : born (p_state (ps i)) = true → i ≠ ini → p_parent (ps i) ≠ None;
  P_wait i z : p_state (ps i) = SLEEPING → p_chan (ps i) = Some (ChProc i) →
    p_parent (ps z) = Some i → p_state (ps z) ≠ ZOMBIE;
  P_root : p_parent (ps ini) = None;
  P_self i : p_parent (ps i) ≠ Some i
}.

(** Interrupts are off and only ptable.lock is held where it is held. *)
Definition irq_ok (a : at_) (q : Spin.cpu) : Prop :=
  0 ≤ Spin.ncli q ∧ (0 < Spin.ncli q → Spin.flag_if q = false) ∧
  match a with
  | AtProc _ | AtFork _ _ => True
  | AtScheduler => Spin.ncli q = 0
  | AtScan _ | AtWait _ => Spin.ncli q = 1
  end.
Definition cpu_inv (x : cpu) : Prop := c_proc x = at_proc (c_at x) ∧ irq_ok (c_at x) (c_irq x).

Definition on (s : sys) (c : nat) : option nat := at_proc (c_at (cpus s c)).
Definition fk (s : sys) (c : nat) : option nat := fork_of (c_at (cpus s c)).

Record inv (s : sys) : Prop := {
  I_owner c : owner s = Some c ↔ holds (c_at (cpus s c)) = true;
  I_cpu c : cpu_inv (cpus s c);
  I_pids : 0 < nextpid s < 2147483648;
  I_procs : pinv (on s) (fk s) (procs s) (kctxs s) (nextpid s) (initproc s)
}.
