(* ===== verification/Schedinv.v ===== *)
(** The invariant of the process table and the CPUs is kept by every step of
    Sched.v, and none of the routines panics where the code calls them. *)

From Stdlib Require Import ZArith Lia.
From stdpp Require Import base tactics numbers gmap strings functions relations list.
From S2P Require Import Prelude Memory Kstring Spinlock Mmu Kalloc Procdef Vm Sched.

#[local] Open Scope Z_scope.

Lemma pinv_ext on fk ps kc npid ini on' fk' ps' kc' :
  pinv on fk ps kc npid ini → (∀ c, on' c = on c) → (∀ c, fk' c = fk c) → (∀ i, ps' i = ps i) →
  (∀ i, kc' i = kc i) → pinv on' fk' ps' kc' npid ini.
Proof.
  intros [Hon Hrun Hexcl Hfork Hemb Hforkx Hpid Hpidx Hhigh Hmem Hexit Hini Hpar Horph Hwait Hroot Hself]
    Eon Efk Eps Ekc. split; intros *; rewrite ?Eon, ?Efk, ?Eps, ?Ekc; eauto.
  - intros H. destruct (Hrun _ H) as [c Hc]. exists c. by rewrite Eon.
  - intros H. destruct (Hemb _ H) as [c Hc]. exists c. by rewrite Efk.
Qed.

(** A process changes in fields that matter to nobody else. *)
Lemma pinv_same on fk ps ps' kc npid ini :
  pinv on fk ps kc npid ini →
  (∀ i, p_state (ps' i) = p_state (ps i) ∧ p_pid (ps' i) = p_pid (ps i) ∧
    p_parent (ps' i) = p_parent (ps i) ∧ (p_state (ps' i) = SLEEPING → p_chan (ps' i) = p_chan (ps i)) ∧
    p_kstack (ps' i) = p_kstack (ps i) ∧ (p_pgdir (ps i) ≠ 0 → p_pgdir (ps' i) ≠ 0)) →
  pinv on fk ps' kc npid ini.
Proof.
  intros [Hon Hrun Hexcl Hfork Hemb Hforkx Hpid Hpidx Hhigh Hmem Hexit Hini Hpar Horph Hwait Hroot Hself] Hs. split; intros *.
  all: try (destruct (Hs i) as (Hs1&Hs2&Hs3&Hs4&Hs5&Hs6); rewrite ?Hs1, ?Hs2, ?Hs3, ?Hs5; eauto).
  - destruct (Hs j) as (Hj1&Hj2&_). rewrite Hj1, Hj2. eauto.
  - intros H. destruct (Hmem _ H). eauto.
  - destruct (Hs ini) as (->&_). done.
  - destruct (Hs j) as (->&_). eauto.
  - intros H. rewrite Hs4 by congruence. destruct (Hs z) as (->&_&->&_). eauto.
  - destruct (Hs ini) as (_&_&->&_). done.
Qed.

(** Wakeups. *)
Lemma pinv_wake on fk ps ps' kc npid ini (w : nat → bool) :
  pinv on fk ps kc npid ini →
  (∀ i, w i = true → p_state (ps i) = SLEEPING) →
  (∀ i, ps' i = if w i then set_state RUNNABLE (ps i) else ps i) →
  pinv on fk ps' kc npid ini.
Proof.
  intros [Hon Hrun Hexcl Hfork Hemb Hforkx Hpid Hpidx Hhigh Hmem Hexit Hini Hpar Horph Hwait Hroot Hself] Hw Hs.
  assert (HA : ∀ i, active (p_state (ps' i)) = active (p_state (ps i)) ∧
    born (p_state (ps' i)) = born (p_state (ps i)) ∧ live (p_state (ps' i)) = live (p_state (ps i))).
  { intros i. rewrite Hs. destruct (w i) eqn:E; [|done]. by rewrite (Hw i E). }
  assert (HF : ∀ i, p_pid (ps' i) = p_pid (ps i) ∧ p_parent (ps' i) = p_parent (ps i) ∧
    p_chan (ps' i) = p_chan (ps i) ∧ p_kstack (ps' i) = p_kstack (ps i) ∧ p_pgdir (ps' i) = p_pgdir (ps i)).
  { intros i. rewrite Hs. by destruct (w i). }
  assert (HS : ∀ i st, p_state (ps' i) = st → st ≠ RUNNABLE → p_state (ps i) = st).
  { intros i st. rewrite Hs. destruct (w i); [|done]. simpl. congruence. }
  assert (HT : ∀ i st, p_state (ps i) = st → st ≠ SLEEPING → p_state (ps' i) = st).
  { intros i st. rewrite Hs. destruct (w i) eqn:E; [|done]. rewrite Hw by done. congruence. }
  split; intros *; rewrite ?(proj1 (HA _)), ?(proj1 (proj2 (HA _))), ?(proj2 (proj2 (HA _)));
    repeat match goal with
    | |- context [p_pid (ps' ?i)] => rewrite (proj1 (HF i))
    | |- context [p_parent (ps' ?i)] => rewrite (proj1 (proj2 (HF i)))
    | |- context [p_chan (ps' ?i)] => rewrite (proj1 (proj2 (proj2 (HF i))))
    | |- context [p_kstack (ps' ?i)] => rewrite (proj1 (proj2 (proj2 (proj2 (HF i)))))
    | |- context [p_pgdir (ps' ?i)] => rewrite (proj2 (proj2 (proj2 (proj2 (HF i))))) end; eauto.
  - intros Hc. destruct (Hfork _ _ Hc) as (?&?&?). eauto.
  - intros Hc. destruct (Hexit _ Hc); eauto.
  - intros Hz. destruct (decide (p_state (ps' z) = ZOMBIE)) as [H|]; [|done]. apply HS in H; [|done].
    intros. exfalso. eapply (Hwait i z); eauto.
Qed.


(** One process changes, and with it the CPUs that run or create it. *)
Record pchange (on fk : nat → option nat) (ps : nat → proc) (npid : Z) (ini : nat)
    (on' fk' : nat → option nat) (i : nat) (p' : proc) (k' : kctx) (npid' : Z) : Prop := {
  C_on c j : j ≠ i → on' c = Some j ↔ on c = Some j;
  C_fk c j : j ≠ i → fk' c = Some j ↔ fk c = Some j;
  C_run : p_state p' = RUNNING ↔ ∃ c, on' c = Some i;
  C_runx c c' : on' c = Some i → on' c' = Some i → c = c';
  C_fork : p_state p' = EMBRYO ↔ ∃ c, fk' c = Some i;
  C_forkx c c' : fk' c = Some i → fk' c' = Some i → c = c';
  C_fork_on c j : fk' c = Some j → on' c ≠ None;
  C_npid : npid ≤ npid';
  C_pid : live (p_state p') = true → 0 < p_pid p' < npid' ∧
    ∀ j, j ≠ i → live (p_state (ps j)) = true → p_pid (ps j) ≠ p_pid p';
  C_high : (i < NPROC)%nat;
  C_kstack : p_state p' = EMBRYO ∨ born (p_state p') = true → p_kstack p' ≠ 0;
  C_pgdir : born (p_state p') = true → p_pgdir p' ≠ 0;
  C_exit : k_resume k' = RExit → p_state p' = ZOMBIE ∨ p_state p' = UNUSED;
  C_active : active (p_state p') = true ∨
    i ≠ ini ∧ (∀ j, j ≠ i → p_parent (ps j) ≠ Some i) ∧ p_parent p' ≠ Some i;
  C_parent j : p_parent p' = Some j →
    born (p_state p') = true ∧ (j ≠ i → active (p_state (ps j)) = true);
  C_orphan : born (p_state p') = true → i ≠ ini → p_parent p' ≠ None;
  C_sleep z : p_state p' = SLEEPING → p_chan p' = Some (ChProc i) →
    p_parent (ps z) = Some i → p_state (ps z) ≠ ZOMBIE;
  C_zombie j : p_state p' = ZOMBIE → p_parent p' = Some j →
    p_state (ps j) = SLEEPING → p_chan (ps j) ≠ Some (ChProc j);
  C_root : i = ini → p_parent p' = None;
  C_self : p_parent p' ≠ Some i
}.

Lemma pinv_update on fk ps kc npid ini on' fk' i p' k' npid' :
  pinv on fk ps kc npid ini → pchange on fk ps npid ini on' fk' i p' k' npid' →
  pinv on' fk' (<[i := p']> ps) (<[i := k']> kc) npid' ini.
Proof.
  intros [Hon Hrun Hexcl Hfork Hemb Hforkx Hpid Hpidx Hhigh Hmem Hexit Hini Hpar Horph Hwait Hroot Hself]
    [Con Cfk Crun Crunx Cfork Cforkx Cfon Cnpid Cpid Chigh Ckst Cpgd Cexit Cact Cpar Corph Cslp Czom Croot Cself]. split; intros *; unfold insert, fn_insert.
  - destruct (decide (i = i0)) as [<-|Hne]; intros H.
    + apply Crun. eauto.
    + rewrite Con in H by done. eauto.
  - destruct (decide (i = i0)) as [<-|Hne]; intros H.
    + by apply Crun.
    + destruct (Hrun _ H) as [c Hc]. exists c. by apply Con.
  - destruct (decide (i = i0)) as [<-|Hne]; [eauto|]. rewrite !Con by done. eauto.
  - intros H. pose proof (Cfon _ _ H) as Ho. destruct (decide (i = i0)) as [<-|Hne].
    + assert (p_state p' = EMBRYO) by (apply Cfork; eauto). eauto.
    + rewrite Cfk in H by done. destruct (Hfork _ _ H) as (?&?&_). eauto.
  - destruct (decide (i = i0)) as [<-|Hne]; intros H.
    + by apply Cfork.
    + destruct (Hemb _ H) as [c Hc]. exists c. by apply Cfk.
  - destruct (decide (i = i0)) as [<-|Hne]; [eauto|]. rewrite !Cfk by done. eauto.
  - destruct (decide (i = i0)) as [<-|Hne]; intros H; [by apply Cpid|].
    specialize (Hpid _ H). lia.
  - destruct (decide (i = i0)) as [<-|Hne], (decide (i = j)) as [<-|Hne']; intros H1 H2 H3; try done.
    + destruct (Cpid H1) as [_ Hx]. destruct (Hx j); congruence.
    + destruct (Cpid H2) as [_ Hx]. destruct (Hx i0); congruence.
    + eauto.
  - intros H. rewrite decide_False by lia. eauto.
  - destruct (decide (i = i0)) as [<-|Hne]; eauto.
  - destruct (decide (i = i0)) as [<-|Hne]; eauto.
  - destruct (decide (i = ini)) as [<-|Hne]; [|done]. destruct Cact as [?|[? _]]; done.
  - destruct (decide (i = i0)) as [<-|Hne]; intros H.
    + destruct (Cpar _ H) as [Hb Ha]. split; [|done]. destruct (decide (i = j)) as [<-|Hne'].
      * destruct Cact as [?|(_&_&?)]; done.
      * by apply Ha.
    + destruct (Hpar _ _ H) as [Ha Hb]. split; [|done].
      destruct (decide (i = j)) as [<-|Hne']; [|done]. destruct Cact as [?|(_&Hx&_)]; [done|].
      by destruct (Hx i0).
  - destruct (decide (i = i0)) as [<-|Hne]; eauto.
  - destruct (decide (i = i0)) as [<-|Hne], (decide (i = z)) as [<-|Hne']; intros H1 H2 H3.
    + congruence.
    + eauto.
    + intros Hz. by apply (Czom i0 Hz H3 H1).
    + eauto.
  - destruct (decide (i = ini)) as [<-|Hne]; auto.
  - destruct (decide (i = i0)) as [<-|Hne]; auto.
Qed.

Lemma pinv_update_proc on fk ps kc npid ini on' fk' i p' npid' :
  pinv on fk ps kc npid ini → pchange on fk ps npid ini on' fk' i p' (kc i) npid' →
  pinv on' fk' (<[i := p']> ps) kc npid' ini.
Proof.
  intros HP HC. eapply pinv_ext; [by eapply pinv_update|done..|].
  intros j. unfold insert, fn_insert. by case_decide; subst.
Qed.

(** A process past its creation changes its state. *)
Lemma pinv_state on fk ps kc npid ini on' i p' :
  pinv on fk ps kc npid ini →
  born (p_state (ps i)) = true → born (p_state p') = true →
  p_pid p' = p_pid (ps i) → p_parent p' = p_parent (ps i) → p_kstack p' = p_kstack (ps i) →
  p_pgdir p' = p_pgdir (ps i) →
  (∀ c j, j ≠ i → on' c = Some j ↔ on c = Some j) →
  (p_state p' = RUNNING ↔ ∃ c, on' c = Some i) →
  (∀ c c', on' c = Some i → on' c' = Some i → c = c') →
  (∀ c j, fk c = Some j → on' c ≠ None) →
  (p_state (ps i) ≠ ZOMBIE) →
  active (p_state p') = true ∨ i ≠ ini ∧ (∀ j, p_parent (ps j) ≠ Some i) →
  (p_state p' = SLEEPING → p_chan p' = Some (ChProc i) →
    ∀ z, p_parent (ps z) = Some i → p_state (ps z) ≠ ZOMBIE) →
  (∀ j, p_state p' = ZOMBIE → p_parent p' = Some j →
    p_state (ps j) = SLEEPING → p_chan (ps j) ≠ Some (ChProc j)) →
  pinv on' fk (<[i := p']> ps) kc npid ini.
Proof.
  intros HP Hb Hb' Epid Epar Eks Epg Con Crun Crunx Cfon Hnz Cact Cslp Czom.
  pose proof HP as [Hon Hrun Hexcl Hfork Hemb Hforkx Hpid Hpidx Hhigh Hmem Hexit Hini Hpar Horph Hwait Hroot Hself].
  assert (Hlive : live (p_state (ps i)) = true) by (by destruct (p_state (ps i))).
  assert (Hnofk : ∀ c, fk c ≠ Some i).
  { intros c H. apply Hfork in H as (H&_). by rewrite H in Hb. }
  eapply pinv_update_proc; [exact HP|]. split; rewrite ?Epid, ?Epar, ?Eks, ?Epg; try done.
  - split; [|intros [c Hc]; by apply Hnofk in Hc]. intros H. by rewrite H in Hb'.
  - intros c1 c2 H1. by apply Hnofk in H1.
  - intros _. split; [by apply Hpid|]. intros j Hj Hl Heq. by apply Hj, Hpidx.
  - destruct (decide (i < NPROC)%nat); [done|]. rewrite Hhigh in Hb by lia. done.
  - intros _. by apply Hmem.
  - intros _. by apply Hmem.
  - intros H. destruct (Hexit _ H) as [H'|H']; [done|]. by rewrite H' in Hb.
  - destruct Cact as [?|[? Hnc]]; [by left|right]. auto.
  - intros j Hj. split; [done|]. intros _. by apply Hpar in Hj as [? _].
  - intros _ Hii. by apply Horph.
  - auto.
  - by rewrite <- Epar.
  - by intros ->.
Qed.

(** CPU [c] stops running process [i]. *)
Lemma pinv_leave on fk ps kc npid ini c i st :
  pinv (<[c := Some i]> on) fk ps kc npid ini → fk c = None → born st = true → st ≠ RUNNING →
  active st = true ∨ i ≠ ini ∧ (∀ j, p_parent (ps j) ≠ Some i) →
  (st = SLEEPING → p_chan (ps i) = Some (ChProc i) →
    ∀ z, p_parent (ps z) = Some i → p_state (ps z) ≠ ZOMBIE) →
  (st = ZOMBIE → ∀ j, p_parent (ps i) = Some j → p_state (ps j) = SLEEPING →
    p_chan (ps j) ≠ Some (ChProc j)) →
  pinv (<[c := None]> on) fk (<[i := set_state st (ps i)]> ps) kc npid ini.
Proof.
  intros HP Hfk Hb Hnr Hact Hslp Hzom.
  assert (Hi : p_state (ps i) = RUNNING) by (apply (P_on _ _ _ _ _ _ HP c); by rewrite fn_lookup_insert).
  assert (Hother : ∀ c', c' ≠ c → on c' ≠ Some i).
  { intros c' Hc' Ho. apply Hc', (P_excl _ _ _ _ _ _ HP c' c i);
      by rewrite ?fn_lookup_insert, ?fn_lookup_insert_ne. }
  eapply pinv_state; [exact HP|..]; simpl; try done.
  - by rewrite Hi.
  - intros c' j Hj. unfold insert, fn_insert. case_decide; [split; congruence|done].
  - split; [done|]. intros [c' Hc']. unfold insert, fn_insert in Hc'. case_decide; [done|].
    by apply Hother in Hc'.
  - intros c1 c2. unfold insert, fn_insert. repeat case_decide; try done. intros H1. by apply Hother in H1.
  - intros c' j Hc'. unfold insert, fn_insert. case_decide as Hcc; [congruence|].
    apply (P_fork _ _ _ _ _ _ HP) in Hc'. rewrite fn_lookup_insert_ne in Hc' by done.
    by destruct Hc' as (_&_&?).
  - by rewrite Hi.
  - intros j Hz. by apply Hzom.
Qed.

(** CPU [c] starts running process [i]. *)
Lemma pinv_enter on fk ps kc npid ini c i :
  pinv (<[c := None]> on) fk ps kc npid ini → p_state (ps i) = RUNNABLE →
  pinv (<[c := Some i]> on) fk (<[i := set_state RUNNING (ps i)]> ps) kc npid ini.
Proof.
  intros HP Hi.
  assert (Hother : ∀ c', (<[c := None]> on : nat → option nat) c' ≠ Some i).
  { intros c' Ho%(P_on _ _ _ _ _ _ HP). congruence. }
  assert (Hout : ∀ c', c' ≠ c → on c' ≠ Some i).
  { intros c' Hne Ho. apply (Hother c'). by rewrite fn_lookup_insert_ne. }
  eapply pinv_state; [exact HP|..]; simpl; try done.
  - by rewrite Hi.
  - intros c' j Hj. unfold insert, fn_insert. case_decide; [split; congruence|done].
  - split; [|done]. intros _. exists c. by rewrite fn_lookup_insert.
  - intros c1 c2. unfold insert, fn_insert. repeat case_decide; subst; try done.
    all: intros H1 H2; exfalso; eapply Hout; [|eassumption]; congruence.
  - intros c' j Hc'. unfold insert, fn_insert. case_decide as Hcc; [done|].
    apply (P_fork _ _ _ _ _ _ HP) in Hc'. rewrite fn_lookup_insert_ne in Hc' by done.
    by destruct Hc' as (_&_&?).
  - by rewrite Hi.
  - by left.
Qed.

(** ** Symbolic execution *)

Lemma wp_wsafe {S A} (m : K S A) s Q : wp m s Q → wsafe m s Q.
Proof. unfold wp, wsafe. by destruct (m s). Qed.

(** Reading the state, and going on after a routine. *)
Ltac wget := apply wsafe_bind; change (wsafe (gets ?f) ?s ?Q) with (Q (f s) s); cbv beta.
Ltac wmod := apply wsafe_bind; change (wsafe (modify ?f) ?s ?Q) with (Q tt (f s)); cbv beta.
Ltac wstep H := apply wsafe_bind; eapply wsafe_mono; [|eapply H].

Section sched.
Context `{M : machine}.

(** The invariant while CPU [c] is inside a routine: whether it holds
    ptable.lock, its ncli, its c->proc, and the process it counts as running
    and as creating. *)
Record cinv (c : nat) (h : bool) (n : Z) (cp : option nat) (s : sys) : Prop := {
  G_exists : (c < ncpu)%nat;
  G_owner : owner s = Some c ↔ h = true;
  G_others c' : c' ≠ c → owner s = Some c' ↔ holds (c_at (cpus s c')) = true;
  G_cpus c' : c' ≠ c → cpu_inv (cpus s c');
  G_ncli : Spin.ncli (c_irq (cpus s c)) = n;
  G_irq : 0 ≤ n ∧ (0 < n → Spin.flag_if (c_irq (cpus s c)) = false);
  G_proc : c_proc (cpus s c) = cp
}.
Record ginv (c : nat) (h : bool) (n : Z) (cp onp fkp : option nat) (s : sys) : Prop := {
  G_cpu : cinv c h n cp s;
  G_pids : 0 < nextpid s < 2147483648;
  G_procs : pinv (<[c := onp]> (on s)) (<[c := fkp]> (fk s)) (procs s) (kctxs s)
    (nextpid s) (initproc s)
}.

Lemma inv_ginv s c : inv s → (c < ncpu)%nat →
  ginv c (holds (c_at (cpus s c))) (Spin.ncli (c_irq (cpus s c))) (on s c) (on s c) (fk s c) s.
Proof.
  intros [Ho Hc Hp Hs] Hcpu. destruct (Hc c) as [Hcp (Hn&Hi&_)]. split; [by split|done|].
  eapply pinv_ext; [exact Hs|..]; intros; unfold insert, fn_insert; try case_decide; by subst.
Qed.

Lemma ginv_inv s c h n cp onp fkp :
  ginv c h n cp onp fkp s →
  h = holds (c_at (cpus s c)) → cp = on s c → onp = on s c → fkp = fk s c →
  match c_at (cpus s c) with
  | AtProc _ | AtFork _ _ => True
  | AtScheduler => n = 0
  | AtScan _ | AtWait _ => n = 1
  end → inv s.
Proof.
  intros [[Hex Ho Hoth Hc Hn Hi Hcp] Hp Hs] -> -> -> -> Hat. split.
  - intros c'. destruct (decide (c' = c)) as [->|]; [done|by apply Hoth].
  - intros c'. destruct (decide (c' = c)) as [->|]; [|by apply Hc]. split; [done|].
    rewrite <- Hn in Hi. destruct Hi. split_and!; [done..|]. rewrite Hn. by destruct (c_at (cpus s c)).
  - done.
  - eapply pinv_ext; [exact Hs|..]; intros; unfold insert, fn_insert; try case_decide; by subst.
Qed.

(** Changes of the CPU's own record. *)
Lemma cinv_cpu c h n cp s x n' cp' :
  cinv c h n cp s →
  Spin.ncli (c_irq x) = n' → 0 ≤ n' → (0 < n' → Spin.flag_if (c_irq x) = false) → c_proc x = cp' →
  cinv c h n' cp' (set_cpu c (λ _, x) s).
Proof.
  intros [Hex Ho Hoth Hc Hn Hi Hcp] Hn' Hn0 Hf Hcp'. split; simpl; try done.
  - intros c' Hne. rewrite fn_lookup_insert_ne by done. by apply Hoth.
  - intros c' Hne. rewrite fn_lookup_insert_ne by done. by apply Hc.
  - by rewrite fn_lookup_insert.
  - by rewrite fn_lookup_insert.
  - by rewrite fn_lookup_insert.
Qed.

(** What the locking code leaves alone. *)
Definition tab (c : nat) (s : sys) : (nat → proc) * (nat → kctx) * Z * nat * at_ * vmstate :=
  (procs s, kctxs s, nextpid s, initproc s, c_at (cpus s c), vm s).
Definition keeps (c : nat) (s s' : sys) : Prop :=
  tab c s' = tab c s ∧ ∀ c', c' ≠ c → cpus s' c' = cpus s c'.

Lemma keeps_trans c s s1 s2 : keeps c s s1 → keeps c s1 s2 → keeps c s s2.
Proof. intros [H1 H2] [H3 H4]. split; [congruence|]. intros c' Hc'. by rewrite H4, H2. Qed.
Lemma keeps_set_cpu c x s : c_at x = c_at (cpus s c) → keeps c s (set_cpu c (λ _, x) s).
Proof.
  intros H. unfold keeps, tab. simpl. rewrite fn_lookup_insert, H. split; [done|].
  intros c' Hc'. by rewrite fn_lookup_insert_ne.
Qed.
Lemma keeps_eq c s s' : keeps c s s' →
  procs s' = procs s ∧ kctxs s' = kctxs s ∧ nextpid s' = nextpid s ∧ initproc s' = initproc s ∧
  c_at (cpus s' c) = c_at (cpus s c).
Proof. unfold keeps, tab. intros [H _]. by simplify_eq. Qed.
Lemma keeps_pinv c s s' onp fkp : keeps c s s' →
  pinv (<[c := onp]> (on s)) (<[c := fkp]> (fk s)) (procs s) (kctxs s) (nextpid s) (initproc s) →
  pinv (<[c := onp]> (on s')) (<[c := fkp]> (fk s')) (procs s') (kctxs s') (nextpid s') (initproc s').
Proof.
  intros Hk HP. destruct (keeps_eq _ _ _ Hk) as (->&->&->&->&_). destruct Hk as [_ Hk].
  eapply pinv_ext; [exact HP|..]; [intros c'..|done|done]; unfold on, fk, insert, fn_insert;
    case_decide; [done| |done|]; by rewrite Hk.
Qed.
Lemma keeps_ginv c h n cp onp fkp h' n' cp' s s' :
  ginv c h n cp onp fkp s → keeps c s s' → cinv c h' n' cp' s' → ginv c h' n' cp' onp fkp s'.
Proof.
  intros [_ Hp Hs] Hk HC. split; [done| |by eapply keeps_pinv].
  by destruct (keeps_eq _ _ _ Hk) as (_&_&->&_).
Qed.

Lemma ginv_cpu c h n cp onp fkp s x n' cp' :
  ginv c h n cp onp fkp s →
  Spin.ncli (c_irq x) = n' → 0 ≤ n' → (0 < n' → Spin.flag_if (c_irq x) = false) → c_proc x = cp' →
  ginv c h n' cp' onp fkp (set_cpu c (λ _, x) s).
Proof.
  intros [HC Hp Hs] Hn' Hn0 Hf Hcp'. split; [by eapply cinv_cpu|done|].
  eapply pinv_ext; [exact Hs|..]; intros c'; unfold on, fk; simpl;
    unfold insert, fn_insert; by repeat case_decide.
Qed.

(** A CPU of the machine finds itself. *)
Lemma mycpu_found c : (c < ncpu)%nat → list_find (λ i, apicid i = lapicid c) (seq 0 ncpu) = Some (c, c).
Proof.
  intros Hc. apply list_find_Some. split; [apply lookup_seq; lia|]. split; [symmetry; by apply lapicid_ok|].
  intros k y [-> Hk]%lookup_seq Hlt. rewrite lapicid_ok by done. intros Ha%apicid_inj; lia.
Qed.
Lemma mycpu_ret c s : (c < ncpu)%nat → Spin.flag_if (c_irq (cpus s c)) = false → mycpu c s = Ret c s.
Proof. intros Hc Hf. unfold mycpu, interrupts_on, mbind, K_bind, gets. by rewrite Hf, mycpu_found. Qed.

Lemma pushcli_cinv c s h n cp :
  cinv c h n cp s → wp (pushcli c) s (λ _ s', cinv c h (n + 1) cp s' ∧ keeps c s s' ∧ owner s' = owner s).
Proof.
  intros HC. pose proof HC as [Hex Ho Hoth Hc Hn [Hi1 Hi2] Hcp]. unfold wp, pushcli, mbind, K_bind, interrupts_on, gets, modify.
  set (x1 := put_irq (Spin.with_if false (c_irq (cpus s c))) (cpus s c)). set (s1 := set_cpu c _ s).
  assert (HC1 : cinv c h n cp s1) by (by apply (cinv_cpu c h n cp s x1 n cp HC)).
  assert (E1 : cpus s1 c = x1) by (unfold s1; simpl; by rewrite fn_lookup_insert).
  rewrite mycpu_ret by (by rewrite ?E1).
  set (e := Spin.flag_if _). set (x2 := put_irq (push_irq e (c_irq (cpus s1 c))) (cpus s1 c)).
  change (set_cpu c (λ x, put_irq (push_irq e (c_irq x)) x) s1) with (set_cpu c (λ _, x2) s1).
  assert (Hx2 : Spin.ncli (c_irq x2) = n + 1 ∧ Spin.flag_if (c_irq x2) = false ∧ c_proc x2 = cp ∧ c_at x2 = c_at (cpus s1 c)).
  { unfold x2, push_irq. rewrite E1. simpl. rewrite Hn. destruct (n =? 0); simpl; by rewrite ?Hn. }
  destruct Hx2 as (Hx3&Hx4&Hx5&Hx6).
  split; [by apply (cinv_cpu c h n cp s1 x2 (n + 1) cp HC1); [|lia|..]|]. split; [|done].
  eapply (keeps_trans c s s1); [by apply (keeps_set_cpu c x1)|by apply keeps_set_cpu].
Qed.

Lemma acquire_pt_cinv c s n cp :
  cinv c false n cp s → wsafe (acquire_pt c) s (λ _ s', cinv c true (n + 1) cp s' ∧ keeps c s s').
Proof.
  intros HC. unfold acquire_pt. apply wsafe_bind. eapply wsafe_mono; [|apply wp_wsafe, (pushcli_cinv c s _ _ _ HC)].
  intros [] s1 ([Hex Ho Hoth Hc Hn Hi Hcp]&Ht&_). apply wsafe_bind.
  change (wsafe (gets ?f) s1 ?Q) with (Q (f s1) s1). cbv beta.
  destruct (owner s1) as [c'|] eqn:E.
  { case_decide as Hd; [|done]. subst. discriminate (proj1 Ho eq_refl). }
  change (wsafe (modify ?f) s1 ?Q) with (Q tt (f s1)). cbv beta.
  split; [|exact Ht]. split; simpl; try done.
  intros c' Hne. rewrite <- (Hoth c' Hne). split; [congruence|done].
Qed.

(** It does not spin when nobody holds the lock. *)
Lemma acquire_pt_free c s n cp : cinv c false n cp s → owner s = None → acquire_pt c s ≠ Diverge.
Proof.
  intros HC Ho. unfold acquire_pt, mbind, K_bind. pose proof (pushcli_cinv c s _ _ _ HC) as H'. unfold wp in H'.
  destruct (pushcli c s) as [[] s1| | | |]; try done. destruct H' as (_&_&E). unfold gets, modify. by rewrite E, Ho.
Qed.

Lemma popcli_wp c s h n cp :
  cinv c h n cp s → 0 < n → wp (popcli c) s (λ _ s', cinv c h (n - 1) cp s' ∧ keeps c s s').
Proof.
  intros HC Hpos. pose proof HC as [Hex Ho Hoth Hc Hn [_ Hi] Hcp]. unfold wp, popcli, interrupts_on, mbind, K_bind, gets.
  rewrite (Hi Hpos), (mycpu_ret c s Hex (Hi Hpos)). unfold Spin.popcli. rewrite (Hi Hpos). simpl. rewrite Hn.
  destruct (Z.ltb_spec (n - 1) 0); [lia|].
  destruct ((n - 1 =? 0) && Spin.intena (c_irq (cpus s c))) eqn:E;
    unfold modify;
    (split; [|by apply keeps_set_cpu]);
    (eapply (cinv_cpu c h n cp s); [exact HC|done|lia|..]); simpl; try done.
  - apply andb_true_iff in E as [E%Z.eqb_eq _]. lia.
  - intros _. by apply Hi.
Qed.
Lemma popcli_cinv c s h n cp :
  cinv c h n cp s → 0 < n → wsafe (popcli c) s (λ _ s', cinv c h (n - 1) cp s' ∧ keeps c s s').
Proof. intros HC Hn. by apply wp_wsafe, popcli_wp. Qed.

Lemma release_pt_wp c s n cp :
  cinv c true n cp s → 0 < n →
  wp (release_pt c) s (λ _ s', cinv c false (n - 1) cp s' ∧ keeps c s s').
Proof.
  intros HC Hpos. pose proof HC as [Hex Ho Hoth Hc Hn Hi Hcp]. unfold release_pt. apply wp_bind.
  change (wp (gets ?f) s ?Q) with (Q (f s) s). cbv beta.
  assert (Hs1 : owner s = Some c) by (by apply Ho).
  rewrite decide_True by done. apply wp_bind.
  change (wp (modify ?f) s ?Q) with (Q tt (f s)). cbv beta.
  eapply wp_mono; [|apply (popcli_wp c (set_owner None s) false n cp); [|done]].
  { intros [] s' H. exact H. }
  split; simpl; try done. intros c' Hne. rewrite <- (Hoth c' Hne), Hs1. split; [done|congruence].
Qed.
Lemma release_pt_cinv c s n cp :
  cinv c true n cp s → 0 < n →
  wsafe (release_pt c) s (λ _ s', cinv c false (n - 1) cp s' ∧ keeps c s s').
Proof. intros HC Hn. by apply wp_wsafe, release_pt_wp. Qed.

Lemma acquire_pt_ginv c s n cp onp fkp :
  ginv c false n cp onp fkp s →
  wsafe (acquire_pt c) s (λ _ s', ginv c true (n + 1) cp onp fkp s' ∧ keeps c s s').
Proof.
  intros HG. eapply wsafe_mono; [|apply (acquire_pt_cinv c s n cp), HG].
  intros [] s' [HC Hk]. split; [by eapply keeps_ginv|done].
Qed.
Lemma popcli_ginv c s h n cp onp fkp :
  ginv c h n cp onp fkp s → 0 < n →
  wsafe (popcli c) s (λ _ s', ginv c h (n - 1) cp onp fkp s' ∧ keeps c s s').
Proof.
  intros HG Hn. eapply wsafe_mono; [|by apply (popcli_cinv c s h n cp); [apply HG|]].
  intros [] s' [HC Hk]. split; [by eapply keeps_ginv|done].
Qed.
Lemma release_pt_ginv c s n cp onp fkp :
  ginv c true n cp onp fkp s → 0 < n →
  wsafe (release_pt c) s (λ _ s', ginv c false (n - 1) cp onp fkp s' ∧ keeps c s s').
Proof.
  intros HG Hn. eapply wsafe_mono; [|by apply (release_pt_cinv c s n cp); [apply HG|]].
  intros [] s' [HC Hk]. split; [by eapply keeps_ginv|done].
Qed.

(** The processes change as [pchange] allows. *)
Lemma ginv_procs c h n cp onp fkp s onp' fkp' ps' kc' npid' s' :
  ginv c h n cp onp fkp s → owner s' = owner s → cpus s' = cpus s → initproc s' = initproc s →
  procs s' = ps' → kctxs s' = kc' → nextpid s' = npid' → 0 < npid' < 2147483648 →
  pinv (<[c := onp']> (on s)) (<[c := fkp']> (fk s)) ps' kc' npid' (initproc s) →
  ginv c h n cp onp' fkp' s'.
Proof.
  intros [[Hex Ho Hoth Hc Hn Hi Hcp] Hp Hs] Eo Ec Ei Ep Ek En Hnp HP.
  split; [split; by rewrite ?Eo, ?Ec|by rewrite En|].
  rewrite Ep, Ek, En, Ei. unfold on, fk in *. by rewrite Ec.
Qed.

Lemma upd_ginv c h n cp onp fkp s i f onp' fkp' :
  ginv c h n cp onp fkp s →
  pinv (<[c := onp']> (on s)) (<[c := fkp']> (fk s)) (<[i := f (procs s i)]> (procs s)) (kctxs s)
    (nextpid s) (initproc s) →
  wsafe (upd i f) s (λ _ s', ginv c h n cp onp' fkp' s' ∧
    s' = set_procs (λ ps, <[i := f (ps i)]> ps) s).
Proof.
  intros HG HP. unfold wsafe, upd, modify. split; [|done].
  eapply ginv_procs; [exact HG|try done..]. apply (G_pids _ _ _ _ _ _ _ HG).
Qed.

Lemma myproc_ptr_wp c h n cp s :
  cinv c h n cp s → wp (myproc_ptr c) s (λ q s', q = cp ∧ cinv c h n cp s' ∧ keeps c s s').
Proof.
  intros HC. pose proof (G_irq _ _ _ _ _ HC) as [Hn _]. unfold myproc_ptr. apply wp_bind.
  eapply wp_mono; [|apply (pushcli_cinv c s h n cp HC)]. intros [] s1 (HC1&Hk1&_).
  pose proof HC1 as [Hex _ _ _ _ [_ Hi] Hcp]. apply wp_bind. unfold wp at 1. rewrite mycpu_ret by (done || apply Hi; lia).
  apply wp_bind. change (wp (gets ?f) s1 ?Q) with (Q (f s1) s1). cbv beta. apply wp_bind.
  eapply wp_mono; [|apply (popcli_wp c s1 h (n + 1) cp HC1); lia]. intros [] s2 [HC2 Hk2]. apply wp_ret.
  replace (n + 1 - 1) with n in HC2 by lia. split; [done|]. split; [done|by eapply keeps_trans].
Qed.
Lemma myproc_ptr_ginv c h n cp onp fkp s :
  ginv c h n cp onp fkp s →
  wsafe (myproc_ptr c) s (λ q s', q = cp ∧ ginv c h n cp onp fkp s' ∧ keeps c s s').
Proof.
  intros HG. eapply wsafe_mono; [|apply wp_wsafe, (myproc_ptr_wp c h n cp s), HG].
  intros q s' (->&HC&Hk). split; [done|]. split; [by eapply keeps_ginv|done].
Qed.
Lemma myproc_ginv c h n p onp fkp s :
  ginv c h n (Some p) onp fkp s →
  wsafe (myproc c) s (λ q s', q = p ∧ ginv c h n (Some p) onp fkp s' ∧ keeps c s s').
Proof.
  intros HG. unfold myproc. apply wsafe_bind. eapply wsafe_mono; [|by apply (myproc_ptr_ginv _ _ _ _ _ _ _ HG)].
  by intros q s' (->&HG'&Hk).
Qed.

(** The CPU's own place. *)
Lemma goto_ginv c h n cp onp fkp s a :
  ginv c h n cp onp fkp s →
  h = holds a → cp = at_proc a → onp = at_proc a → fkp = fork_of a →
  match a with
  | AtProc _ | AtFork _ _ => True
  | AtScheduler => n = 0
  | AtScan _ | AtWait _ => n = 1
  end → wsafe (goto c a) s (λ _ s', inv s').
Proof.
  intros HG Hh Hcp Hon Hfk Ha. unfold wsafe, goto, modify.
  set (x := put_at a (cpus s c)).
  assert (HG' : ginv c h n cp onp fkp (set_cpu c (λ _, x) s)).
  { pose proof HG as [[Hex Ho Hoth Hc Hn [Hi1 Hi2] Hcp'] Hp Hs].
    by eapply (ginv_cpu c h n cp onp fkp s x n cp HG). }
  eapply ginv_inv; [exact HG'|unfold on, fk; simpl; by rewrite fn_lookup_insert..].
Qed.

Lemma vm_ginv {A} c h n cp onp fkp s (m : K vmstate A) :
  ginv c h n cp onp fkp s →
  wlp (on_vm m) s (λ _ s', ginv c h n cp onp fkp s' ∧ procs s' = procs s ∧ kctxs s' = kctxs s).
Proof.
  intros [[Hex Ho Hoth Hc Hn Hi Hcp] Hp Hs]. unfold wlp, on_vm, zoom.
  by destruct (m (vm s)).
Qed.
Lemma vm_ginv_total {A} c h n cp onp fkp s (m : K vmstate A) :
  ginv c h n cp onp fkp s → wp m (vm s) (λ _ _, True) →
  wsafe (on_vm m) s (λ _ s', ginv c h n cp onp fkp s' ∧ procs s' = procs s ∧ kctxs s' = kctxs s).
Proof.
  intros HG Hm. pose proof (vm_ginv c h n cp onp fkp s m HG) as H.
  unfold wsafe, wlp, wp, on_vm, zoom in *. by destruct (m (vm s)).
Qed.

Lemma pinv_kctx on fk ps kc npid ini i k :
  pinv on fk ps kc npid ini →
  (k_resume k = RExit → p_state (ps i) = ZOMBIE ∨ p_state (ps i) = UNUSED) →
  pinv on fk ps (<[i := k]> kc) npid ini.
Proof.
  intros [Hon Hrun Hexcl Hfork Hemb Hforkx Hpid Hpidx Hhigh Hmem Hexit Hini Hpar Horph Hwait Hroot Hself] Hk.
  split; try done. intros j. unfold insert, fn_insert. case_decide; subst; auto.
Qed.

Lemma sched_ginv c r s p :
  ginv c true 1 (Some p) None None s → p_state (procs s p) ≠ RUNNING →
  (r = RExit → p_state (procs s p) = ZOMBIE) → wsafe (sched c r) s (λ _ s', inv s').
Proof.
  intros HG Hst Hr. unfold sched. wstep (myproc_ginv c true 1 p None None s HG). intros q s' (->&HG'&Hk).
  destruct (keeps_eq _ _ _ Hk) as (Eps&_). rewrite <- Eps in Hst, Hr. clear Hk Eps HG s. rename s' into s, HG' into HG.
  pose proof HG as [[Hex Ho Hoth Hc Hn [_ Hi] Hcp] Hp Hs]. assert (Hif := Hi ltac:(lia)).
  assert (Hmy : mycpu c s = Ret c s) by (by apply mycpu_ret). wget.
  rewrite bool_decide_eq_true_2 by (by apply Ho). simpl negb. cbv iota.
  apply wsafe_bind. unfold wsafe at 1. rewrite Hmy. wget.
  rewrite Hn. simpl negb. cbv iota. wget. rewrite bool_decide_eq_false_2 by done. unfold interrupts_on. wget. rewrite Hif.
  apply wsafe_bind. unfold wsafe at 1. rewrite Hmy. wget.
  wmod. set (s1 := set_kctx p _ s).
  assert (HG1 : ginv c true 1 (Some p) None None s1).
  { eapply (ginv_procs c true 1 (Some p) None None s None None); [exact HG|try done..].
    eapply pinv_kctx; [exact Hs|]. intros H. simpl in H. auto. }
  clearbody s1. clear Hex Ho Hoth Hc Hn Hi Hif Hmy Hcp Hp Hs. unfold scheduler_back.
  wstep (vm_ginv_total c true 1 (Some p) None None s1 switchkvm HG1); [|done].
  intros [] s2 (HG2&_&_). wmod.
  pose proof HG2 as [[Hex Ho Hoth Hc Hn [Hi1 Hi2] Hcp] Hp Hs].
  eapply (goto_ginv c true 1 None None None); [|done..].
  by eapply (ginv_cpu c true 1 (Some p) None None s2 (put_proc None (cpus s2 c))).
Qed.

(** ** The routines of a running process *)

Lemma inv_at_proc s c p :
  inv s → (c < ncpu)%nat → c_at (cpus s c) = AtProc p →
  ginv c false (ncli s c) (Some p) (Some p) None s.
Proof.
  intros HI Hcpu Hat. pose proof (inv_ginv s c HI Hcpu) as HG. unfold on, fk in HG. by rewrite Hat in HG.
Qed.

(** The assignments of p->state before a sched(). *)
Lemma leave_ginv c n p s st :
  ginv c true n (Some p) (Some p) None s → born st = true → st ≠ RUNNING →
  active st = true ∨ p ≠ initproc s ∧ (∀ j, p_parent (procs s j) ≠ Some p) →
  (st = SLEEPING → p_chan (procs s p) = Some (ChProc p) →
    ∀ z, p_parent (procs s z) = Some p → p_state (procs s z) ≠ ZOMBIE) →
  (st = ZOMBIE → ∀ j, p_parent (procs s p) = Some j → p_state (procs s j) = SLEEPING →
    p_chan (procs s j) ≠ Some (ChProc j)) →
  wsafe (upd p (set_state st)) s (λ _ s', ginv c true n (Some p) None None s' ∧
    p_state (procs s' p) = st).
Proof.
  intros HG Hb Hnr Hact Hslp Hzom.
  eapply wsafe_mono; [|eapply (upd_ginv c true n (Some p) (Some p) None s p (set_state st) None None HG)].
  - intros [] s' [HG' ->]. split; [done|]. simpl. by rewrite fn_lookup_insert.
  - eapply pinv_leave; try done; [apply HG|by rewrite fn_lookup_insert].
Qed.

Lemma yield_inv s c p :
  inv s → (c < ncpu)%nat → c_at (cpus s c) = AtProc p → ncli s c = 0 → wsafe (yield c) s (λ _ s', inv s').
Proof.
  intros HI Hcpu Hat Hn. pose proof (inv_at_proc s c p HI Hcpu Hat) as HG. rewrite Hn in HG. unfold yield.
  wstep (acquire_pt_ginv c s 0 (Some p) (Some p) None HG). intros [] s1 [HG1 _].
  wstep (myproc_ginv c true _ p (Some p) None s1 HG1). intros q s' (->&HG'&_).
  wstep (leave_ginv c _ p s' RUNNABLE HG'); try done; [|by left].
  intros [] s2 [HG2 Hst]. by apply (sched_ginv c RYield s2 p HG2); rewrite ?Hst.
Qed.

(** p->chan = chan *)
Lemma chan_ginv c h n cp onp fkp p s ch :
  ginv c h n cp onp fkp s → p_state (procs s p) = RUNNING →
  wsafe (upd p (set_chan ch)) s (λ _ s', ginv c h n cp onp fkp s' ∧
    s' = set_procs (λ ps, <[p := set_chan ch (ps p)]> ps) s).
Proof.
  intros HG Hp. apply (upd_ginv c h n cp onp fkp s p _ onp fkp); [done|].
  eapply pinv_same; [apply HG|]. intros i. unfold insert, fn_insert. case_decide; [|done].
  subst. simpl. split_and!; try done. congruence.
Qed.

(** sleep(chan, lk) with ptable.lock held; only wait uses its own channel. *)
Lemma sleep_tail_ginv c p s ch r :
  ginv c true 1 (Some p) (Some p) None s → r ≠ RExit →
  (ch = ChProc p → ∀ z, p_parent (procs s z) = Some p → p_state (procs s z) ≠ ZOMBIE) →
  wsafe (upd p (set_chan (Some ch)) ≫= λ _, upd p (set_state SLEEPING) ≫= λ _, sched c r) s
    (λ _ s', inv s').
Proof.
  intros HG Hr Hch.
  assert (Hrun : p_state (procs s p) = RUNNING).
  { apply (P_on _ _ _ _ _ _ (G_procs _ _ _ _ _ _ _ HG) c). by rewrite fn_lookup_insert. }
  wstep (chan_ginv c true 1 (Some p) (Some p) None p s (Some ch) HG Hrun).
  intros [] s1 [HG1 ->].
  wstep (leave_ginv c 1 p _ SLEEPING HG1); try done.
  - intros [] s2 [HG2 Hst]. by apply (sched_ginv c r s2 p HG2); rewrite ?Hst.
  - by left.
  - intros _. simpl. rewrite fn_lookup_insert. simpl. intros [= Hc] z. unfold insert, fn_insert.
    case_decide as Hz; simpl; [subst z; by rewrite Hrun|]. auto.
Qed.

Lemma sleep_inv s c p ch :
  inv s → (c < ncpu)%nat → c_at (cpus s c) = AtProc p → ncli s c = 1 → is_ChProc ch = false →
  wsafe (sleep c ch (Some OtherLock) RSleep) s (λ _ s', inv s').
Proof.
  intros HI Hcpu Hat Hn Hch. pose proof (inv_at_proc s c p HI Hcpu Hat) as HG. rewrite Hn in HG. unfold sleep.
  wstep (myproc_ptr_ginv c false 1 (Some p) (Some p) None s HG). intros q s' (->&HG'&_). apply wsafe_bind.
  wstep (acquire_pt_ginv c s' 1 (Some p) (Some p) None HG'). intros [] s1 [HG1 _].
  eapply wsafe_mono; [|apply (popcli_ginv c s1 true _ (Some p) (Some p) None HG1); done]. intros [] s2 [HG2 _].
  apply (sleep_tail_ginv c p s2 ch RSleep HG2); [done|]. by intros ->.
Qed.

Lemma sleep_pt_inv s c p ch r :
  ginv c true 1 (Some p) (Some p) None s → r ≠ RExit →
  (ch = ChProc p → ∀ z, p_parent (procs s z) = Some p → p_state (procs s z) ≠ ZOMBIE) →
  wsafe (sleep c ch (Some PtableLock) r) s (λ _ s', inv s').
Proof.
  intros HG Hr Hch. unfold sleep.
  wstep (myproc_ptr_ginv c true 1 (Some p) (Some p) None s HG). intros q s' (->&HG'&Hk).
  destruct (keeps_eq _ _ _ Hk) as (Eps&_). rewrite <- Eps in Hch. apply wsafe_bind. by apply sleep_tail_ginv.
Qed.

(** Back outside the lock at the place the CPU was at. *)
Lemma release_inv s c n a :
  ginv c true n (at_proc a) (at_proc a) (fork_of a) s → 0 < n → c_at (cpus s c) = a → holds a = false →
  (a = AtScheduler → n = 1) → wsafe (release_pt c) s (λ _ s', inv s' ∧ keeps c s s').
Proof.
  intros HG Hn Hat Hh Hs. eapply wsafe_mono; [|by apply (release_pt_ginv c s n _ _ _ HG)].
  intros [] s' [HG' Ht]. split; [|done]. apply keeps_eq in Ht as (_&_&_&_&Hat').
  rewrite Hat in Hat'. eapply ginv_inv; [exact HG'|unfold on, fk; by rewrite Hat'..|].
  rewrite Hat'. destruct a; try done. by rewrite Hs.
Qed.

Lemma futex_wait_inv s c p loc same :
  inv s → (c < ncpu)%nat → c_at (cpus s c) = AtProc p → ncli s c = 0 → wsafe (futex_wait c loc same) s (λ _ s', inv s').
Proof.
  intros HI Hcpu Hat Hn. pose proof (inv_at_proc s c p HI Hcpu Hat) as HG. rewrite Hn in HG. unfold futex_wait.
  wstep (acquire_pt_ginv c s 0 (Some p) (Some p) None HG). intros [] s1 [HG1 Ht].
  apply keeps_eq in Ht as (_&_&_&_&Hat1). destruct same.
  - wstep (sleep_pt_inv s1 c p (ChUser loc) RFutex HG1); done.
  - apply wsafe_bind. eapply wsafe_mono; [|apply (release_inv s1 c 1 (AtProc p) HG1); try done; congruence].
    by intros [] s' [? _].
Qed.

(** ** Wakeups *)

Lemma sleeps_on_true ch p : sleeps_on ch p = true ↔ p_state p = SLEEPING ∧ p_chan p = ch.
Proof. unfold sleeps_on. by rewrite andb_true_iff, !bool_decide_eq_true. Qed.

Definition woken (ch : option chan) (ps : nat → proc) (i : nat) : proc :=
  if decide (i < NPROC)%nat then wake ch (ps i) else ps i.

Lemma pinv_woken on fk ps kc npid ini ch :
  pinv on fk ps kc npid ini → pinv on fk (woken ch ps) kc npid ini.
Proof.
  intros HP. eapply (pinv_wake _ _ ps _ _ _ _ (λ i, bool_decide (i < NPROC)%nat && sleeps_on ch (ps i)) HP).
  - intros i [_ [? _]%sleeps_on_true]%andb_true_iff. done.
  - intros i. unfold woken, wake. case_decide; [rewrite bool_decide_eq_true_2 by done|
      rewrite bool_decide_eq_false_2 by done]; simpl; done.
Qed.

Lemma wakeup1_ginv c h n cp onp fkp s ch :
  ginv c h n cp onp fkp s →
  wsafe (wakeup1 ch) s (λ _ s', ginv c h n cp onp fkp s' ∧ s' = set_procs (woken ch) s).
Proof.
  intros HG. unfold wsafe, wakeup1, modify. split; [|done].
  eapply (ginv_procs c h n cp onp fkp s onp fkp); [exact HG|try done..]; [apply HG|].
  apply pinv_woken, HG.
Qed.

(** The interrupt-safe routines, called from any place outside the lock. *)
Lemma outside_ginv s c a :
  inv s → (c < ncpu)%nat → c_at (cpus s c) = a → holds a = false →
  ginv c false (ncli s c) (at_proc a) (at_proc a) (fork_of a) s ∧ (a = AtScheduler → ncli s c = 0).
Proof.
  intros HI Hcpu Hat Hh. pose proof (inv_ginv s c HI Hcpu) as HG. unfold on, fk in HG. rewrite Hat, Hh in HG.
  split; [done|]. intros ->. destruct (I_cpu _ HI c) as [_ (_&_&H)]. by rewrite Hat in H.
Qed.

Lemma locked_inv {A} s c (body : K sys A) :
  inv s → (c < ncpu)%nat → holds (c_at (cpus s c)) = false →
  (∀ s1 cp onp fkp, ginv c true (ncli s c + 1) cp onp fkp s1 → procs s1 = procs s →
     wsafe body s1 (λ _ s2, ginv c true (ncli s c + 1) cp onp fkp s2 ∧
                            c_at (cpus s2 c) = c_at (cpus s1 c))) →
  wsafe (acquire_pt c ≫= λ _, body ≫= λ r, release_pt c ≫= λ _, mret r) s (λ _ s', inv s').
Proof.
  intros HI Hcpu Hh Hbody. destruct (outside_ginv s c _ HI Hcpu eq_refl Hh) as [HG Hsch].
  assert (Hn : 0 ≤ ncli s c) by apply (G_irq _ _ _ _ _ (G_cpu _ _ _ _ _ _ _ HG)).
  wstep (acquire_pt_ginv c s _ _ _ _ HG). intros [] s1 [HG1 Ht].
  apply keeps_eq in Ht as (Hps&_&_&_&Hat1).
  apply wsafe_bind. eapply wsafe_mono; [|by apply (Hbody s1 _ _ _ HG1)].
  intros r s2 [HG2 Hat2]. apply wsafe_bind.
  eapply wsafe_mono; [|apply (release_inv s2 c _ _ HG2)]; [by intros [] s' [? _]|lia|congruence|done|].
  intros Ha. rewrite Hsch by done. done.
Qed.

Lemma wakeup_inv s c ch :
  inv s → (c < ncpu)%nat → holds (c_at (cpus s c)) = false → wsafe (wakeup c ch) s (λ _ s', inv s').
Proof.
  intros HI Hcpu Hh.
  assert (Heq : wsafe (acquire_pt c ≫= λ _, wakeup1 (Some ch) ≫= λ r, release_pt c ≫= λ _, mret r) s
    (λ _ s', inv s')).
  { apply locked_inv; [done..|]. intros s1 cp onp fkp HG _.
    eapply wsafe_mono; [|by apply (wakeup1_ginv _ _ _ _ _ _ _ _ HG)]. by intros [] s2 [? ->]. }
  unfold wakeup. unfold wsafe, mbind, K_bind in *.
  destruct (acquire_pt c s); try done. destruct (wakeup1 (Some ch) _); try done.
  by destruct (release_pt c _).
Qed.

Lemma wakeupfutex_inv s c ch :
  inv s → (c < ncpu)%nat → holds (c_at (cpus s c)) = false → wsafe (wakeupfutex c ch) s (λ _ s', inv s').
Proof.
  intros HI Hcpu Hh. apply locked_inv; [done..|]. intros s1 cp onp fkp HG _. unfold wakeupfutex1. wget.
  wstep (wakeup1_ginv _ _ _ _ _ _ _ (Some ch) HG). by intros [] s2 [? ->].
Qed.

Lemma killed_ginv c h n cp onp fkp s i v :
  ginv c h n cp onp fkp s →
  wsafe (upd i (set_killed v)) s (λ _ s', ginv c h n cp onp fkp s' ∧
    s' = set_procs (λ ps, <[i := set_killed v (ps i)]> ps) s).
Proof.
  intros HG. apply (upd_ginv c h n cp onp fkp s i _ onp fkp); [done|].
  eapply pinv_same; [apply HG|]. intros j. unfold insert, fn_insert. case_decide; by subst.
Qed.

Lemma rouse_ginv c h n cp onp fkp s i :
  ginv c h n cp onp fkp s → p_state (procs s i) = SLEEPING →
  wsafe (upd i (set_state RUNNABLE)) s (λ _ s', ginv c h n cp onp fkp s' ∧ cpus s' = cpus s).
Proof.
  intros HG Hi.
  eapply wsafe_mono; [|apply (upd_ginv c h n cp onp fkp s i _ onp fkp HG)]; [by intros [] s' [? ->]|].
  apply (pinv_wake _ _ (procs s) _ _ _ _ (λ j, bool_decide (j = i)) (G_procs _ _ _ _ _ _ _ HG)).
  - by intros j ->%bool_decide_eq_true.
  - intros j. unfold insert, fn_insert. repeat case_decide || case_bool_decide; naive_solver.
Qed.

Lemma find_proc_spec f s :
  wsafe (find_proc f) s (λ o s', s' = s ∧
    match o with
    | Some i => (i < NPROC)%nat ∧ f i (procs s i) = true ∧
        ∀ j, (j < i)%nat → f j (procs s j) = false
    | None => ∀ i, (i < NPROC)%nat → f i (procs s i) = false
    end).
Proof.
  unfold find_proc. wget. unfold wsafe, mret, K_ret. split; [done|].
  destruct (list_find _ _) as [[k i]|] eqn:E; simpl.
  - apply list_find_Some in E as (Hl&Hf&Hx). apply lookup_seq in Hl as [-> Hk]. split_and!; [lia|done|].
    intros j Hj. apply not_true_is_false, (Hx j j); [|lia]. apply lookup_seq. lia.
  - intros i Hi. apply list_find_None in E. rewrite Forall_forall in E.
    apply not_true_is_false, E, elem_of_seq. lia.
Qed.

Lemma kill_inv s c pid :
  inv s → (c < ncpu)%nat → holds (c_at (cpus s c)) = false → wsafe (kill c pid) s (λ _ s', inv s').
Proof.
  intros HI Hcpu Hh.
  set (body := find_proc (λ _ p, p_pid p =? pid) ≫= λ o,
    match o with
    | Some i => upd i (set_killed 1) ≫= λ _, gets (λ s, procs s i) ≫= λ p,
        when (bool_decide (p_state p = SLEEPING)) (upd i (set_state RUNNABLE)) ≫= λ _, mret 0
    | None => mret (-1)
    end).
  assert (Heq : wsafe (acquire_pt c ≫= λ _, body ≫= λ r, release_pt c ≫= λ _, mret r) s (λ _ s', inv s')).
  { apply locked_inv; [done..|]. intros s1 cp onp fkp HG _. unfold body.
    wstep find_proc_spec. intros o s' [-> Ho]. destruct o as [i|]; [|done].
    wstep (killed_ginv _ _ _ _ _ _ _ i 1 HG). intros [] s2 [HG2 ->]. wget.
    destruct (bool_decide _) eqn:Es; [|done]. apply bool_decide_eq_true in Es.
    wstep (rouse_ginv _ _ _ _ _ _ _ i HG2 Es). intros [] s3 [HG3 Hc].
    unfold wsafe, mret, K_ret. by rewrite Hc. }
  unfold kill. apply wsafe_bind in Heq. apply wsafe_bind. eapply wsafe_mono; [|exact Heq]. clear Heq.
  intros [] s1 Heq. unfold body in Heq. unfold wsafe, mbind, K_bind in *.
  destruct (find_proc _ s1) as [[i|] s2| | | |]; try done.
  destruct (upd i _ s2) as [u s3| | | |]; try done. destruct (gets _ s3) as [x s4| | | |]; try done.
  by destruct (when _ _ s4).
Qed.

(** ** The scheduler *)

Lemma inv_locked s c a :
  inv s → (c < ncpu)%nat → c_at (cpus s c) = a → holds a = true →
  ginv c true 1 (at_proc a) (at_proc a) (fork_of a) s.
Proof.
  intros HI Hcpu Hat Hh. pose proof (inv_ginv s c HI Hcpu) as HG. unfold on, fk in HG. rewrite Hat, Hh in HG.
  destruct (I_cpu _ HI c) as [_ (_&_&H)]. rewrite Hat in H. destruct a; try done; by rewrite H in HG.
Qed.

Lemma scheduler_begin_inv s c :
  inv s → (c < ncpu)%nat → c_at (cpus s c) = AtScheduler → wsafe (scheduler_begin c) s (λ _ s', inv s').
Proof.
  intros HI Hcpu Hat. destruct (outside_ginv s c _ HI Hcpu Hat) as [HG Hn]; [done|].
  rewrite Hn in HG by done. unfold scheduler_begin. wmod. set (s1 := set_cpu c _ s).
  assert (HG1 : ginv c false 0 None None None s1).
  { pose proof HG as [[Hex Ho Hoth Hc Hn' [Hi1 Hi2] Hcp] Hp Hs].
    by apply (ginv_cpu c false 0 None None None s _ 0 None HG). }
  clearbody s1. wstep (acquire_pt_ginv c s1 _ _ _ _ HG1). intros [] s2 [HG2 _].
  by eapply goto_ginv.
Qed.

Lemma restore_intena_wp c h n cp onp fkp s b :
  ginv c h n cp onp fkp s → 0 < n →
  wp (restore_intena c b) s (λ _ s', ginv c h n cp onp fkp s' ∧ procs s' = procs s).
Proof.
  intros HG Hn0. pose proof HG as [[Hex Ho Hoth Hc Hn [Hi1 Hi2] Hcp] Hp Hs].
  unfold wp, restore_intena, mbind, K_bind. rewrite (mycpu_ret c s Hex (Hi2 Hn0)). split; [|done].
  by apply (ginv_cpu c h n cp onp fkp s _ n cp HG).
Qed.

(** The process is outside the lock again. *)
Lemma release_goto c p s :
  ginv c true 1 (Some p) (Some p) None s →
  wsafe (release_pt c ≫= λ _, goto c (AtProc p)) s (λ _ s', inv s').
Proof.
  intros HG. wstep (release_pt_ginv c s 1 _ _ _ HG); [|done]. intros [] s' [HG' _].
  by eapply goto_ginv.
Qed.

Lemma run_resumed_inv c p s :
  ginv c true 1 (Some p) (Some p) None s → wsafe (run_resumed c p) s (λ _ s', inv s').
Proof.
  intros HG. unfold run_resumed. wget.
  assert (Hrun : p_state (procs s p) = RUNNING).
  { apply (P_on _ _ _ _ _ _ (G_procs _ _ _ _ _ _ _ HG) c). by rewrite fn_lookup_insert. }
  destruct (k_resume (kctxs s p)) eqn:Ek; [by apply release_goto|..].
  all: try (apply wsafe_bind; eapply wsafe_mono;
    [|by apply wp_wsafe, (restore_intena_wp c true 1 (Some p) (Some p) None s (k_intena (kctxs s p)) HG)]; intros [] s1 [HG1 Hps]; rewrite <- Hps in Hrun).
  - by apply release_goto.
  - wstep (chan_ginv c true 1 _ _ _ p s1 None HG1 Hrun). intros [] s2 [HG2 _]. by apply release_goto.
  - wstep (chan_ginv c true 1 _ _ _ p s1 None HG1 Hrun). intros [] s2 [HG2 _]. by eapply goto_ginv.
  - wstep (chan_ginv c true 1 _ _ _ p s1 None HG1 Hrun). intros [] s2 [HG2 _]. by apply release_goto.
  - destruct (P_exit _ _ _ _ _ _ (G_procs _ _ _ _ _ _ _ HG) p Ek); congruence.
Qed.

Lemma scheduler_turn_inv s c i :
  inv s → (c < ncpu)%nat → c_at (cpus s c) = AtScan i → wsafe (scheduler_turn c i) s (λ _ s', inv s').
Proof.
  intros HI Hcpu Hat. pose proof (inv_locked s c _ HI Hcpu Hat eq_refl) as HG. unfold scheduler_turn. case_decide.
  - wget. destruct (bool_decide _) eqn:Es; simpl negb; cbv iota; [|by eapply goto_ginv].
    apply bool_decide_eq_true in Es. wmod. set (s1 := set_cpu c _ s).
    assert (HG1 : ginv c true 1 (Some i) None None s1).
    { pose proof HG as [[Hex Ho Hoth Hc Hn [Hi1 Hi2] Hcp] Hp Hs].
      by apply (ginv_cpu c true 1 None None None s _ 1 (Some i) HG). }
    assert (Hps1 : procs s1 = procs s) by done. clearbody s1.
    destruct (P_mem _ _ _ _ _ _ (G_procs _ _ _ _ _ _ _ HG) i) as [Hpg Hks]; [by rewrite Es|].
    wstep (vm_ginv_total c true 1 (Some i) None None s1 (switchuvm (procs s i)) HG1).
    2:{ unfold switchuvm. by rewrite !(proj2 (Z.eqb_neq _ _)). }
    intros [] s2 (HG2&Hps2&_).
    wstep (upd_ginv c true 1 (Some i) None None s2 i (set_state RUNNING) (Some i) None HG2).
    + intros [] s3 [HG3 _]. by apply run_resumed_inv.
    + apply pinv_enter; [apply HG2|]. by rewrite Hps2, Hps1.
  - wstep (release_pt_ginv c s 1 _ _ _ HG); [|done]. intros [] s' [HG' _]. by eapply goto_ginv.
Qed.

(** ** exit and wait *)

Lemma wait_begin_inv s c p :
  inv s → (c < ncpu)%nat → c_at (cpus s c) = AtProc p → ncli s c = 0 → wsafe (wait_begin c) s (λ _ s', inv s').
Proof.
  intros HI Hcpu Hat Hn. pose proof (inv_at_proc s c p HI Hcpu Hat) as HG. rewrite Hn in HG. unfold wait_begin.
  wstep (myproc_ginv c false 0 p (Some p) None s HG). intros q s' (->&HG'&_).
  wstep (acquire_pt_ginv c s' _ _ _ _ HG'). intros [] s1 [HG1 _]. by eapply goto_ginv.
Qed.

(** Reparenting a child of an exiting process, when init does not wait or the
    child still runs. *)
Lemma pinv_adopt on fk ps kc npid ini cur i :
  pinv on fk ps kc npid ini → p_parent (ps i) = Some cur →
  (p_state (ps i) = ZOMBIE → p_state (ps ini) = SLEEPING → p_chan (ps ini) ≠ Some (ChProc ini)) →
  pinv on fk (<[i := set_parent (Some ini) (ps i)]> ps) kc npid ini.
Proof.
  intros HP Hpar Hz.
  pose proof HP as [Hon Hrun Hexcl Hfork Hemb Hforkx Hpid Hpidx Hhigh Hmem Hexit Hini Hparent Horph Hwait Hroot Hself].
  destruct (Hparent _ _ Hpar) as [Hca Hb].
  assert (Hl : live (p_state (ps i)) = true) by (by destruct (p_state (ps i))).
  eapply pinv_update_proc; [exact HP|]. split; simpl; try done.
  - split; [apply Hrun|]. intros [c Hc]. by apply (Hon c).
  - intros c c'. apply Hexcl.
  - split; [apply Hemb|]. intros [c Hc]. by apply Hfork in Hc as (?&_).
  - intros c c'. apply Hforkx.
  - intros c j Hc. by apply Hfork in Hc as (_&_&?).
  - intros _. split; [by apply Hpid|]. intros j Hj Hlj Heq. by apply Hj, Hpidx.
  - destruct (decide (i < NPROC)%nat); [done|]. rewrite Hhigh in Hb by lia. done.
  - intros _. by apply Hmem.
  - intros _. by apply Hmem.
  - apply Hexit.
  - destruct (decide (active (p_state (ps i)) = true)) as [|Hna]; [by left|right]. split_and!.
    + intros ->. congruence.
    + intros j _ Hj. apply Hparent in Hj as [? _]. congruence.
    + intros [= ->]. congruence.
  - intros j [= <-]. split; [done|]. intros _. done.
  - intros z. apply Hwait.
  - intros j Hzi [= <-]. by apply Hz.
  - intros ->. congruence.
  - intros [= <-]. congruence.
Qed.

(** What exit's loop over the children has still to do. *)
Record exiting (c cur ini : nat) (rest : list nat) (s : sys) : Prop := {
  E_ginv : ginv c true 1 (Some cur) (Some cur) None s;
  E_init : initproc s = ini;
  E_rest j : p_parent (procs s j) = Some cur → j ∈ rest;
  E_parent j : p_parent (procs s cur) = Some j → p_state (procs s j) = SLEEPING →
    p_chan (procs s j) ≠ Some (ChProc j)
}.

Lemma woken_parent ch ps i : p_parent (woken ch ps i) = p_parent (ps i).
Proof. unfold woken, wake. by repeat case_match. Qed.
Lemma woken_zombie ch ps i : p_state (woken ch ps i) = ZOMBIE ↔ p_state (ps i) = ZOMBIE.
Proof.
  unfold woken, wake. repeat case_match; try done. simpl. split; [done|].
  intros Hz. apply sleeps_on_true in H0 as [H0 _]. congruence.
Qed.
Lemma woken_sleeping ch ps i : p_state (woken ch ps i) = SLEEPING →
  p_state (ps i) = SLEEPING ∧ p_chan (woken ch ps i) = p_chan (ps i) ∧
  ((i < NPROC)%nat → p_chan (ps i) ≠ ch).
Proof.
  unfold woken, wake. case_decide; [|done]. destruct (sleeps_on ch (ps i)) eqn:E; simpl; [done|].
  intros Hs. split_and!; try done. intros _ Hc.
  by rewrite (proj2 (sleeps_on_true ch (ps i))) in E.
Qed.

Lemma abandon_inv c cur ini i rest s :
  exiting c cur ini (i :: rest) s → cur ≠ ini →
  wsafe (abandon cur ini i) s (λ _ s', exiting c cur ini rest s').
Proof.
  intros [HG Hi Hrest Hpar] Hne. unfold abandon. wget.
  pose proof (G_procs _ _ _ _ _ _ _ HG) as HP. rewrite Hi in HP.
  destruct (bool_decide _) eqn:Ec; simpl when.
  2:{ apply bool_decide_eq_false in Ec. split; try done. intros j Hj.
      destruct (elem_of_cons rest j i) as [H _]. destruct (H (Hrest j Hj)) as [->|]; done. }
  apply bool_decide_eq_true in Ec.
  assert (Hself : i ≠ cur).
  { intros ->. by apply (P_self _ _ _ _ _ _ HP cur). }
  set (z := bool_decide (p_state (procs s i) = ZOMBIE)).
  set (ps0 := if z then woken (Some (ChProc ini)) (procs s) else procs s).
  set (ps := <[i := set_parent (Some ini) (ps0 i)]> ps0).
  assert (HPar0 : ∀ j, p_parent (ps0 j) = p_parent (procs s j)).
  { intros j. unfold ps0. destruct z; [apply woken_parent|done]. }
  assert (HP0 : pinv (<[c := Some cur]> (on s)) (<[c := None]> (fk s)) ps0 (kctxs s) (nextpid s) ini).
  { unfold ps0. destruct z; [by apply pinv_woken|done]. }
  assert (HP1 : pinv (<[c := Some cur]> (on s)) (<[c := None]> (fk s)) ps (kctxs s) (nextpid s) ini).
  { eapply pinv_adopt; [exact HP0|by rewrite HPar0|]. unfold ps0, z. case_bool_decide as Hz; [|done].
    intros _ Hs. destruct (woken_sleeping _ _ _ Hs) as (_&Hch&Hx). rewrite Hch. apply Hx.
    destruct (decide (ini < NPROC)%nat); [done|]. exfalso.
    pose proof (P_init _ _ _ _ _ _ HP) as Ha. by rewrite (P_high _ _ _ _ _ _ HP) in Ha by lia. }
  assert (Hrun : (upd i (set_parent (Some ini)) ≫= λ _, when z (wakeup1 (Some (ChProc ini)))) s =
    Ret tt (set_procs (λ _, if z then woken (Some (ChProc ini)) (<[i := set_parent (Some ini) (procs s i)]> (procs s))
       else <[i := set_parent (Some ini) (procs s i)]> (procs s)) s)) by (by destruct z).
  unfold wsafe. rewrite Hrun.
  assert (Hps : ∀ j, (if z then woken (Some (ChProc ini)) (<[i := set_parent (Some ini) (procs s i)]> (procs s))
       else <[i := set_parent (Some ini) (procs s i)]> (procs s)) j = ps j).
  { intros j. unfold ps, ps0. destruct z; [|done]. unfold woken, insert, fn_insert, wake, sleeps_on.
    destruct (decide (i = j)) as [->|]; [|done]. case_decide; [|done]. simpl.
    by destruct (bool_decide _ && bool_decide _). }
  split; simpl; try done.
  - eapply (ginv_procs c true 1 (Some cur) (Some cur) None s (Some cur) None); [exact HG|try done..]; [apply HG|].
    rewrite Hi. eapply pinv_ext; [exact HP1|done..].
  - intros j. rewrite Hps. unfold ps, insert, fn_insert. case_decide as Hji; simpl; [congruence|].
    rewrite HPar0. intros Hj. apply Hrest, elem_of_cons in Hj as [->|]; done.
  - intros j. rewrite !Hps. unfold ps at 1. rewrite fn_lookup_insert_ne, HPar0 by done. intros Hj.
    assert (Hsc : p_state (ps j) = p_state (ps0 j) ∧ p_chan (ps j) = p_chan (ps0 j)).
    { unfold ps, insert, fn_insert. case_decide; by subst. }
    destruct Hsc as [-> ->]. unfold ps0. destruct z; [|by apply Hpar].
    intros (Hs&->&_)%woken_sleeping. by apply Hpar.
Qed.

Lemma exit_end_inv s c p :
  inv s → (c < ncpu)%nat → c_at (cpus s c) = AtProc p → ncli s c = 0 → p ≠ initproc s →
  wsafe (exit_end c) s (λ _ s', inv s').
Proof.
  intros HI Hcpu Hat Hn Hne. pose proof (inv_at_proc s c p HI Hcpu Hat) as HG. rewrite Hn in HG. unfold exit_end.
  wstep (myproc_ginv c false 0 p (Some p) None s HG). intros q s' (->&HG'&Hk). apply keeps_eq in Hk as (_&_&_&Hini'&_).
  wstep (acquire_pt_ginv c s' _ _ _ _ HG'). intros [] s1 [HG1 Ht]. apply keeps_eq in Ht as (_&_&_&Hini&_). rewrite Hini' in Hini.
  wget. wstep (wakeup1_ginv c true 1 _ _ _ s1 (ChProc <$> p_parent (procs s1 p)) HG1).
  intros [] s2 [HG2 ->]. wget. apply wsafe_bind. simpl initproc. rewrite Hini.
  assert (Hlt : ∀ j, live (p_state (procs s1 j)) = true → (j < NPROC)%nat).
  { intros j Hj. destruct (decide (j < NPROC)%nat); [done|].
    by rewrite (P_high _ _ _ _ _ _ (G_procs _ _ _ _ _ _ _ HG1)) in Hj by lia. }
  eapply wsafe_mono; [|apply (wsafe_for_each _ (exiting c p (initproc s)))].
  - intros [] s3 [HG3 Hini3 Hnone Hpar].
    wstep (leave_ginv c 1 p s3 ZOMBIE HG3); try done.
    { intros [] s4 [HG4 Hst]. by apply (sched_ginv c RExit s4 p HG4); rewrite ?Hst. }
    right. split; [congruence|]. intros j Hj. apply Hnone in Hj. by apply elem_of_nil in Hj.
  - split; [done|exact Hini| |].
    + intros j. cbn [procs set_procs]. rewrite woken_parent. intros Hj.
      apply (P_parent _ _ _ _ _ _ (G_procs _ _ _ _ _ _ _ HG1)) in Hj as [_ Hb].
      apply elem_of_seq. split; [lia|]. apply Hlt. by destruct (p_state (procs s1 j)).
    + intros j. simpl. rewrite woken_parent. intros Hj (Hs&->&Hx)%woken_sleeping.
      rewrite Hj in Hx. apply Hx, Hlt. by rewrite Hs.
  - intros x rest s3 HE. by apply abandon_inv.
Qed.

(** ** Reaping and creating processes *)

(** The CPUs are untouched. *)
Definition vmkeeps (s s' : sys) : Prop :=
  owner s' = owner s ∧ cpus s' = cpus s ∧ initproc s' = initproc s.

Lemma on_vm_keeps {A} (m : K vmstate A) s :
  wlp (on_vm m) s (λ _ s', vmkeeps s s' ∧ procs s' = procs s ∧ kctxs s' = kctxs s ∧
    nextpid s' = nextpid s).
Proof. unfold wlp, on_vm, zoom. by destruct (m (vm s)). Qed.

Lemma cinv_keeps c h n cp s s' : cinv c h n cp s → owner s' = owner s → cpus s' = cpus s → cinv c h n cp s'.
Proof. intros [] Eo Ec. split; by rewrite ?Eo, ?Ec. Qed.

(** A slot becomes UNUSED. *)
Lemma pinv_unused on fk fk' ps kc npid npid' ini i p' :
  pinv on fk ps kc npid ini → p_state p' = UNUSED → p_parent p' = None → (i < NPROC)%nat →
  active (p_state (ps i)) = false → npid ≤ npid' →
  (∀ c j, fk' c = Some j ↔ fk c = Some j ∧ j ≠ i) →
  pinv on fk' (<[i := p']> ps) kc npid' ini.
Proof.
  intros HP Hst Hpar Hi Hna Hnp Hfk'.
  pose proof HP as [Hon Hrun Hexcl Hfork Hemb Hforkx Hpid Hpidx Hhigh Hmem Hexit Hini Hparent Horph Hwait Hroot Hself].
  assert (Hno : ∀ c, on c ≠ Some i).
  { intros c H. apply Hon in H. by rewrite H in Hna. }
  assert (Hii : i ≠ ini) by (intros ->; congruence).
  eapply pinv_update_proc; [exact HP|]. split; rewrite ?Hst, ?Hpar; try done.
  - intros c j Hj. rewrite Hfk'. naive_solver.
  - split; [done|]. intros [c Hc]. by apply Hno in Hc.
  - intros c c' Hc. by apply Hno in Hc.
  - split; [done|]. intros [c Hc]. by apply Hfk' in Hc as [_ ?].
  - intros c c' Hc. by apply Hfk' in Hc as [_ ?].
  - intros c j Hc. apply Hfk' in Hc as [Hc _]. by apply Hfork in Hc as (_&_&?).
  - by intros [?|?].
  - by right.
  - right. split_and!; try done. intros j _ Hj. apply Hparent in Hj as [? _]. congruence.
Qed.

(** Slot [i] of [s'] is [p'] with the saved context [k'], the others are as in
    [s]. *)
Definition slot_is (s : sys) (i : nat) (p' : proc) (k' : kctx) (npid : Z) (s' : sys) : Prop :=
  vmkeeps s s' ∧ (∀ j, procs s' j = (<[i := p']> (procs s) : nat → proc) j) ∧
  (∀ j, kctxs s' j = (<[i := k']> (kctxs s) : nat → kctx) j) ∧ nextpid s' = npid.

Lemma slot_refl s i : slot_is s i (procs s i) (kctxs s i) (nextpid s) s.
Proof. split_and!; try done; intros j; unfold insert, fn_insert; by case_decide; subst. Qed.
Lemma slot_at s i p k n s' : slot_is s i p k n s' → procs s' i = p.
Proof. intros (_&H&_). by rewrite H, fn_lookup_insert. Qed.
Lemma upd_slot s i p k n s1 f :
  slot_is s i p k n s1 → wsafe (upd i f) s1 (λ _ s', slot_is s i (f p) k n s').
Proof.
  intros H. pose proof (slot_at _ _ _ _ _ _ H) as Hp. destruct H as (Hk&Hj&Hkc&Hn). split_and!; try done.
  intros j. simpl. rewrite Hp. unfold insert, fn_insert. case_decide as Hij; [done|].
  rewrite Hj. by rewrite fn_lookup_insert_ne.
Qed.
Lemma vm_slot {A} s i p k n s1 (m : K vmstate A) :
  slot_is s i p k n s1 → wlp (on_vm m) s1 (λ _ s', slot_is s i p k n s').
Proof.
  intros ((H1&H2&H3)&Hj&Hkc&Hn). eapply wlp_mono; [|apply on_vm_keeps].
  intros _ s' ((H4&H5&H6)&Hps&Hk&Hn').
  split_and!; try congruence; [split_and!; congruence|intros j; by rewrite Hps|intros j; by rewrite Hk].
Qed.

Ltac wl H := apply wlp_bind; eapply wlp_mono; [|eapply H].
Ltac wlget := apply wlp_bind; change (wlp (gets ?f) ?s ?Q) with (Q (f s) s); cbv beta.
Ltac wlmod := apply wlp_bind; change (wlp (modify ?f) ?s ?Q) with (Q tt (f s)); cbv beta.
Ltac wlupd H := wl (λ f, wsafe_wlp _ _ _ (upd_slot _ _ _ _ _ _ f H)); clear H; intros [] ? H.

Lemma reap_effect kend i s :
  wlp (reap kend i) s (λ _ s', ∃ p', p_state p' = UNUSED ∧ p_parent p' = None ∧
    slot_is s i p' (kctxs s i) (nextpid s) s').
Proof.
  unfold reap. wlget. wl @vm_slot; [|apply slot_refl]. intros [] s1 H1. wlupd H1. wlget.
  wl @vm_slot; [|exact H1]. clear H1. intros [] s2 H1. do 4 wlupd H1.
  eapply wlp_mono; [|apply wsafe_wlp, (upd_slot _ _ _ _ _ _ _ H1)]. clear H1. intros [] ? H1.
  eexists. by split_and!; [..|exact H1].
Qed.

Lemma wait_return_inv c p r s :
  ginv c true 1 (Some p) (Some p) None s → wsafe (wait_return c r) s (λ _ s', inv s').
Proof.
  intros HG. unfold wait_return.
  wstep (myproc_ginv c true 1 p (Some p) None s HG). intros q s' (->&HG'&_).
  wstep (release_pt_ginv c s' 1 _ _ _ HG'); [|done]. intros [] s1 [HG1 _].
  apply wsafe_bind. eapply wsafe_mono; [|by eapply goto_ginv]. by intros [].
Qed.

(** The slot of a zombie child becomes free. *)
Lemma reap_ginv kend c p i s :
  ginv c true 1 (Some p) (Some p) None s → (i < NPROC)%nat → p_state (procs s i) = ZOMBIE →
  wlp (reap kend i) s (λ _ s', ginv c true 1 (Some p) (Some p) None s').
Proof.
  intros HG Hi Hz. eapply wlp_mono; [|apply (reap_effect kend i s)].
  intros [] s1 (p'&Hst&Hpar'&(Ho1&Hc1&Hi1)&Hps1&Hk1&Hn1). pose proof HG as [HC Hp Hs].
  split; [by eapply cinv_keeps|by rewrite Hn1|]. rewrite Hn1, Hi1. unfold on, fk. rewrite Hc1.
  eapply pinv_ext; [eapply (pinv_unused _ _ (<[c := None]> (fk s)) _ _ _ (nextpid s) _ i p' Hs)|..]; try done.
  - by rewrite Hz.
  - intros c' j. split; [|by intros [? _]]. intros Hfk. split; [done|]. intros ->.
    apply (P_fork _ _ _ _ _ _ Hs) in Hfk as (?&_). congruence.
  - intros j. rewrite Hk1. unfold insert, fn_insert. by case_decide; subst.
Qed.

(** A turn of the loop of wait, given what the reaping of a zombie child does. *)
Lemma wait_turn_run {kend} s c p (W : ∀ A, K sys A → sys → (A → sys → Prop) → Prop) :
  (∀ A B (m : K sys A) (k : A → K sys B) s Q, W A m s (λ a s', W B (k a) s' Q) → W B (m ≫= k) s Q) →
  (∀ A (m : K sys A) s Q, wsafe m s Q → W A m s Q) →
  (∀ A (m : K sys A) s (Q Q' : A → sys → Prop), (∀ a s', Q a s' → Q' a s') → W A m s Q → W A m s Q') →
  inv s → (c < ncpu)%nat → c_at (cpus s c) = AtWait p →
  (∀ s1 i, ginv c true 1 (Some p) (Some p) None s1 → procs s1 = procs s → vm s1 = vm s → (i < NPROC)%nat →
     p_parent (procs s i) = Some p → p_state (procs s i) = ZOMBIE →
     W _ (reap kend i) s1 (λ _ s2, ginv c true 1 (Some p) (Some p) None s2)) →
  W _ (wait_turn c kend) s (λ _ s', inv s').
Proof.
  intros Wbind Wsafe Wmono HI Hcpu Hat Hreap. pose proof (inv_locked s c _ HI Hcpu Hat eq_refl) as HG. simpl in HG. unfold wait_turn.
  apply Wbind. eapply Wmono; [|apply Wsafe, (myproc_ginv c true 1 p (Some p) None s HG)].
  intros q s0 (->&HG0&Hk). assert (Evm : vm s0 = vm s) by (destruct Hk as [Hk _]; unfold tab in Hk; by simplify_eq).
  apply keeps_eq in Hk as (Eps&_). rewrite <- Eps in Hreap. clear HG. rename HG0 into HG.
  apply Wbind. eapply Wmono; [|apply Wsafe, find_proc_spec]. intros o s' [-> Ho]. destruct o as [i|].
  - destruct Ho as (Hi&Hc&_). apply andb_true_iff in Hc as [Hpar Hz]. apply bool_decide_eq_true in Hpar, Hz.
    apply Wbind, Wsafe. change (wsafe (gets ?f) s0 ?Q) with (Q (f s0) s0). cbv beta. apply Wbind.
    eapply Wmono; [|by apply (Hreap s0 i HG)]. intros [] s1 HG1. by apply Wsafe, (wait_return_inv c p).
  - apply Wbind. eapply Wmono; [|apply Wsafe, find_proc_spec]. intros o s' [-> _]. apply Wsafe. wget.
    destruct (_ || _); [by apply (wait_return_inv c p)|].
    assert (Hno : ∀ z, p_parent (procs s0 z) = Some p → p_state (procs s0 z) ≠ ZOMBIE).
    { intros z Hz Hzz. assert (Hlt : (z < NPROC)%nat).
      { destruct (decide (z < NPROC)%nat); [done|].
        by rewrite (P_high _ _ _ _ _ _ (G_procs _ _ _ _ _ _ _ HG)) in Hzz by lia. }
      specialize (Ho z Hlt). by rewrite !bool_decide_eq_true_2 in Ho. }
    wstep (sleep_pt_inv s0 c p (ChProc p) RWait HG ltac:(done) (λ _, Hno)). by intros [] s' HI'.
Qed.

Lemma wait_turn_inv kend s c p :
  inv s → (c < ncpu)%nat → c_at (cpus s c) = AtWait p → wlp (wait_turn c kend) s (λ _ s', inv s').
Proof.
  intros HI Hcpu Hat. apply (wait_turn_run s c p (λ A m s Q, wlp m s Q)); try done.
  - intros A B m k s1 Q. apply wlp_bind.
  - intros A m s1 Q. apply wsafe_wlp.
  - intros A m s1 Q Q'. apply wlp_mono.
  - intros s1 i HG Eps _ Hi _ Hz. apply reap_ginv; [done|done|by rewrite Eps].
Qed.

(** ... so that it does not panic when the memory of the zombie can be freed. *)
Lemma wait_turn_safe kend s c p :
  inv s → (c < ncpu)%nat → c_at (cpus s c) = AtWait p →
  (∀ s1 i, procs s1 = procs s → vm s1 = vm s → p_parent (procs s i) = Some p → p_state (procs s i) = ZOMBIE →
     wsafe (reap kend i) s1 (λ _ _, True)) →
  wsafe (wait_turn c kend) s (λ _ s', inv s').
Proof.
  intros HI Hcpu Hat Hreap. apply (wait_turn_run s c p (λ A m s Q, wsafe m s Q)); try done.
  - intros A B m k s1 Q. apply wsafe_bind.
  - intros A m s1 Q Q'. apply wsafe_mono.
  - intros s1 i HG Eps Evm Hi Hpar Hz. pose proof (Hreap s1 i Eps Evm Hpar Hz) as H1.
    pose proof (reap_ginv kend c p i s1 HG Hi ltac:(by rewrite Eps)) as H2. unfold wsafe, wlp in *. by destruct (reap kend i s1).
Qed.

(** A slot becomes the EMBRYO that CPU [c] creates. *)
Lemma pinv_embryo on fk ps kc npid ini c i p' k' :
  pinv on (<[c := None]> fk) ps kc npid ini → on c ≠ None → 0 < npid →
  p_state (ps i) = UNUSED → (i < NPROC)%nat →
  p_state p' = EMBRYO → p_parent p' = p_parent (ps i) → p_pid p' = npid → p_kstack p' ≠ 0 →
  k_resume k' ≠ RExit →
  pinv on (<[c := Some i]> fk) (<[i := p']> ps) (<[i := k']> kc) (npid + 1) ini.
Proof.
  intros HP Honc Hnp Hst Hi Hst' Hpar' Hpid' Hks Hk.
  pose proof HP as [Hon Hrun Hexcl Hfork Hemb Hforkx Hpid Hpidx Hhigh Hmem Hexit Hini Hparent Horph Hwait Hroot Hself].
  assert (Hnp0 : p_parent (ps i) = None).
  { destruct (p_parent (ps i)) eqn:E; [|done]. apply Hparent in E as [_ E]. by rewrite Hst in E. }
  assert (Hno : ∀ c', on c' ≠ Some i).
  { intros c' H. apply Hon in H. congruence. }
  assert (Hnf : ∀ c', c' ≠ c → fk c' ≠ Some i).
  { intros c' Hne H. destruct (Hfork c' i) as (?&_); [by rewrite fn_lookup_insert_ne|congruence]. }
  eapply pinv_update; [exact HP|]. split; rewrite ?Hst', ?Hpar', ?Hnp0; try done.
  - intros c' j Hj. unfold insert, fn_insert. case_decide; [split; congruence|done].
  - split; [done|]. intros [c' Hc]. by apply Hno in Hc.
  - intros c1 c2 Hc. by apply Hno in Hc.
  - split; [|done]. intros _. exists c. by rewrite fn_lookup_insert.
  - intros c1 c2. unfold insert, fn_insert. repeat case_decide; subst; try done.
    all: intros H1 H2; exfalso; eapply Hnf; [|eassumption]; congruence.
  - intros c' j. unfold insert, fn_insert. case_decide; [by subst|]. intros Hf.
    destruct (Hfork c' j) as (_&_&?); [by rewrite fn_lookup_insert_ne|done].
  - lia.
  - intros _. rewrite Hpid'. split; [lia|]. intros j _ Hl. specialize (Hpid j Hl). lia.
  - right. split_and!; try done.
    + intros ->. by rewrite Hst in Hini.
    + intros j _ Hj. apply Hparent in Hj as [Hj _]. by rewrite Hst in Hj.
Qed.

(** What allocproc() does to the table. *)
Lemma allocproc_effect forkret trapret s c n cp :
  cinv c false n cp s →
  wlp (allocproc c forkret trapret) s (λ o s', cinv c false n cp s' ∧
    c_at (cpus s' c) = c_at (cpus s c) ∧ initproc s' = initproc s ∧
    (∀ c', c' ≠ c → cpus s' c' = cpus s c') ∧
    ((o = None ∧ procs s' = procs s ∧ kctxs s' = kctxs s ∧ nextpid s' = nextpid s) ∨
     ∃ np p' k', (np < NPROC)%nat ∧ p_state (procs s np) = UNUSED ∧
       (∀ j, (j < np)%nat → p_state (procs s j) ≠ UNUSED) ∧
       (∀ j, procs s' j = (<[np := p']> (procs s) : nat → proc) j) ∧
       (∀ j, kctxs s' j = (<[np := k']> (kctxs s) : nat → kctx) j) ∧
       nextpid s' = s32 (nextpid s + 1) ∧
       p_parent p' = p_parent (procs s np) ∧ p_killed p' = p_killed (procs s np) ∧
       p_pid p' = nextpid s ∧
       (o = None ∧ p_state p' = UNUSED ∧ k' = kctxs s np ∨
        o = Some np ∧ p_state p' = EMBRYO ∧ p_kstack p' ≠ 0 ∧ k_resume k' = RForkret))).
Proof.
  intros HC. unfold allocproc. pose proof (G_irq _ _ _ _ _ HC) as [Hn0 _].
  wl (wsafe_wlp _ _ _ (acquire_pt_cinv c s n cp HC)). intros [] s1 [HC1 Hk1].
  destruct (keeps_eq _ _ _ Hk1) as (Hps1&Hkc1&Hnp1&Hin1&Hat1).
  wl (λ f, wsafe_wlp _ _ _ (find_proc_spec f s1)). intros o s' [-> Ho]. destruct o as [np|].
  2:{ wl (wsafe_wlp _ _ _ (release_pt_cinv c s1 _ cp HC1 ltac:(lia))). intros [] s2 [HC2 Hk2].
      destruct (keeps_eq _ _ _ (keeps_trans _ _ _ _ Hk1 Hk2)) as (Hps2&Hkc2&Hnp2&Hin2&Hat2).
      apply wlp_ret. replace (n + 1 - 1) with n in HC2 by lia. split_and!; try done.
      - apply (keeps_trans _ _ _ _ Hk1 Hk2).
      - by left. }
  destruct Ho as (Hnp&Hst%bool_decide_eq_true&Hfirst). rewrite Hps1 in Hst, Hfirst.
  assert (Hbusy : ∀ j, (j < np)%nat → p_state (procs s j) ≠ UNUSED)
    by (intros j Hj; specialize (Hfirst j Hj); by apply bool_decide_eq_false in Hfirst).
  pose proof (slot_refl s1 np) as H. wlupd H. wlget. rewrite (proj2 (proj2 (proj2 H))).
  wl (λ f, wsafe_wlp _ _ _ (upd_slot _ _ _ _ _ _ f H)). clear H. intros [] s2 H.
  wlmod. destruct H as ((Ho3&Hc3&Hi3)&Hp3&Hkc3&_). set (s3 := set_nextpid _ _).
  assert (HC3 : cinv c true (n + 1) cp s3) by (by eapply cinv_keeps).
  wl (wsafe_wlp _ _ _ (release_pt_cinv c s3 _ cp HC3 ltac:(lia))). intros [] s4 [HC4 Hk4].
  replace (n + 1 - 1) with n in HC4 by lia.
  destruct (keeps_eq _ _ _ Hk4) as (Hps4&Hkc4&Hnp4&Hin4&Hat4).
  assert (Hown : ∀ c', c' ≠ c → cpus s4 c' = cpus s c').
  { intros c' Hc'. rewrite (proj2 Hk4) by done. change (cpus s3) with (cpus s2). rewrite Hc3. by apply Hk1. }
  pose proof (slot_refl s4 np) as H.
  assert (Hp4 : procs s4 np = set_pid (nextpid s) (set_state EMBRYO (procs s np))).
  { rewrite Hps4. change (procs s3) with (procs s2). by rewrite Hp3, fn_lookup_insert, Hps1, Hnp1. }
  assert (Hkc4' : kctxs s4 np = kctxs s np).
  { rewrite Hkc4. change (kctxs s3) with (kctxs s2). by rewrite Hkc3, fn_lookup_insert, Hkc1. }
  rewrite Hp4, Hkc4' in H. change (nextpid s3) with (s32 (nextpid s1 + 1)) in Hnp4. rewrite Hnp1 in Hnp4.
  assert (Hfin : ∀ p k s5, slot_is s4 np p k (nextpid s4) s5 →
    cinv c false n cp s5 ∧ c_at (cpus s5 c) = c_at (cpus s c) ∧ initproc s5 = initproc s ∧
    (∀ c', c' ≠ c → cpus s5 c' = cpus s c') ∧
    (∀ j, procs s5 j = (<[np := p]> (procs s) : nat → proc) j) ∧
    (∀ j, kctxs s5 j = (<[np := k]> (kctxs s) : nat → kctx) j) ∧ nextpid s5 = s32 (nextpid s + 1)).
  { intros p k s5 ((Ho5&Hc5&Hi5)&Hp5&Hk5&Hn5). split_and!.
    - by eapply cinv_keeps.
    - rewrite Hc5, Hat4. change (cpus s3) with (cpus s2). by rewrite Hc3.
    - rewrite Hi5, Hin4. change (initproc s3) with (initproc s2). by rewrite Hi3.
    - intros c' Hc'. rewrite Hc5. auto.
    - intros j. rewrite Hp5, Hps4. change (procs s3) with (procs s2). unfold insert, fn_insert in *.
      rewrite Hp3. case_decide; [done|]. by rewrite Hps1.
    - intros j. rewrite Hk5, Hkc4. change (kctxs s3) with (kctxs s2). unfold insert, fn_insert in *.
      rewrite Hkc3. case_decide; [done|]. by rewrite Hkc1.
    - by rewrite Hn5. }
  wl @vm_slot; [|exact H]. clear H. intros v s5 H. wlupd H. destruct (Z.eqb_spec v 0) as [Hv|Hv].
  - wlupd H. apply wlp_ret. destruct (Hfin _ _ _ H) as (?&?&?&?&?&?&?). split_and!; try done. right.
    eexists np, _, _. split_and!; [done..|]. by left.
  - wl @vm_slot; [|exact H]. clear H. intros [] s7 H. wlupd H. wlmod. apply wlp_ret.
    set (s9 := set_kctx _ _ _).
    match type of H with slot_is _ _ ?p _ _ _ =>
      assert (H9 : slot_is s4 np p {| k_resume := RForkret; k_intena := false |} (nextpid s4) s9) end.
    { destruct H as (Hv8&Hp8&Hk8&Hn8). split_and!; [exact Hv8|exact Hp8| |exact Hn8].
      intros j. unfold s9. simpl. unfold insert, fn_insert in *. case_decide; [done|]. rewrite Hk8.
      by rewrite decide_False. }
    destruct (Hfin _ _ _ H9) as (?&?&?&?&?&?&?). split_and!; try done. right.
    eexists np, _, _. split_and!; [done..|]. by right.
Qed.

Lemma fork_begin_inv forkret trapret s c p :
  inv s → (c < ncpu)%nat → c_at (cpus s c) = AtProc p → ncli s c = 0 → nextpid s < 2147483647 →
  wlp (fork_begin c forkret trapret) s (λ _ s', inv s').
Proof.
  intros HI Hcpu Hat Hn Hmax. pose proof (inv_at_proc s c p HI Hcpu Hat) as HG. rewrite Hn in HG. unfold fork_begin.
  wl (wsafe_wlp _ _ _ (myproc_ginv c false 0 p (Some p) None s HG)). intros q s' (->&HG'&Hk).
  destruct (keeps_eq _ _ _ Hk) as (_&_&Enp&_&Eat). rewrite <- Eat in Hat. rewrite <- Enp in Hmax.
  clear HI Hn HG Hk Enp Eat s. rename s' into s, HG' into HG. pose proof HG as [HC Hp Hs].
  wl (allocproc_effect forkret trapret s c 0 (Some p) HC).
  intros o s1 (HC1&Hat1&Hi1&Hown&Hcase). rewrite Hat in Hat1.
  assert (Hon : ∀ x, (∀ c', (<[c := x]> (on s1) : nat → option nat) c' = (<[c := x]> (on s) : nat → option nat) c') ∧
    (∀ c', (<[c := x]> (fk s1) : nat → option nat) c' = (<[c := x]> (fk s) : nat → option nat) c')).
  { intros x. unfold on, fk, insert, fn_insert. split; intros c'; case_decide; try done; by rewrite Hown. }
  destruct Hcase as [(->&Hps&Hkc&Hnp)|(np&p'&k'&Hlt&Hst&_&Hps&Hkc&Hnp&Hpar&_&Hpid&Hcase)].
  { apply wlp_ret. eapply (ginv_inv s1 c false 0 (Some p) (Some p) None); unfold on, fk; rewrite ?Hat1; try done.
    split; [done|by rewrite Hnp|]. rewrite Hps, Hkc, Hnp, Hi1. eapply pinv_ext; [exact Hs|apply Hon|apply Hon|done..]. }
  rewrite s32_small in Hnp by lia.
  destruct Hcase as [(->&Hst'&->)|(->&Hst'&Hks&Hk)].
  - apply wlp_ret. eapply (ginv_inv s1 c false 0 (Some p) (Some p) None); unfold on, fk; rewrite ?Hat1; try done.
    split; [done|rewrite Hnp; lia|]. rewrite Hnp, Hi1.
    eapply pinv_ext; [eapply (pinv_unused _ _ (<[c := None]> (fk s)) _ _ _ (nextpid s + 1) _ np p' Hs)|..]; try done.
    + rewrite Hpar. destruct (p_parent (procs s np)) eqn:E; [|done].
      apply (P_parent _ _ _ _ _ _ Hs) in E as [_ E]. by rewrite Hst in E.
    + by rewrite Hst.
    + lia.
    + intros c' j. split; [|by intros [? _]]. intros Hfk. split; [done|]. intros ->.
      apply (P_fork _ _ _ _ _ _ Hs) in Hfk as (?&_). congruence.
    + apply Hon.
    + apply Hon.
    + intros j. rewrite Hkc. unfold insert, fn_insert. by case_decide; subst.
  - apply wlp_bind, wsafe_wlp. eapply wsafe_mono;
      [|eapply (goto_ginv c false 0 (Some p) (Some p) (Some np) s1 (AtFork p np)); try done].
    { by intros [] s' HI'. }
    split; [done|rewrite Hnp; lia|]. rewrite Hnp, Hi1.
    eapply pinv_ext; [eapply (pinv_embryo _ _ _ _ _ _ c np p' k' Hs)|..]; try done; try apply Hon.
    + by rewrite fn_lookup_insert.
    + lia.
    + congruence.
Qed.

(** fork does not panic up to there when the allocator is sound. *)
Lemma allocproc_safe kend p forkret trapret s c n cp :
  cinv c false n cp s → R kend (km (vm s)) p → wsafe (allocproc c forkret trapret) s (λ _ _, True).
Proof.
  intros HC HR. unfold allocproc. pose proof (G_irq _ _ _ _ _ HC) as [Hn0 _].
  wstep (acquire_pt_cinv c s n cp HC). intros [] s1 [HC1 Hk1].
  assert (Evm : vm s1 = vm s) by (destruct Hk1 as [Hk1 _]; unfold tab in Hk1; by simplify_eq).
  wstep find_proc_spec. intros o s' [-> _]. destruct o as [np|].
  2:{ wstep (release_pt_cinv c s1 _ cp HC1); [|lia]. by intros [] s2 _. }
  wmod. wget. wmod. wmod. set (s2 := set_nextpid _ _).
  assert (HC2 : cinv c true (n + 1) cp s2) by (by eapply cinv_keeps).
  wstep (release_pt_cinv c s2 _ cp HC2); [|lia]. intros [] s3 [_ Hk3].
  assert (Evm3 : vm s3 = vm s) by (destruct Hk3 as [Hk3 _]; unfold tab in Hk3; rewrite <- Evm; by simplify_eq).
  apply wsafe_bind. unfold wsafe at 1, on_vm, on_km, zoom. rewrite Evm3.
  pose proof (kalloc_refines kend (km (vm s)) p HR) as Hka. unfold wp in Hka. destruct (kalloc (km (vm s))) as [v k'| | | |]; try done.
  assert (Hv : 0 ≤ v).
  { destruct (Pool.alloc p) as [[i|] p'], Hka as [-> _]; [|done]. unfold P2V, u32. zlia. }
  wmod. destruct (Z.eqb_spec v 0); [by wmod|].
  apply wsafe_bind. unfold wsafe at 1, on_vm, on_km, zoom, store32. unfold KSTACKSIZE, sizeof_tf.
  rewrite (proj2 (Z.eqb_neq _ 0)) by lia. cbn. done.
Qed.
Lemma fork_begin_safe kend pool forkret trapret s c p :
  inv s → (c < ncpu)%nat → c_at (cpus s c) = AtProc p → R kend (km (vm s)) pool →
  wsafe (fork_begin c forkret trapret) s (λ _ _, True).
Proof.
  intros HI Hcpu Hat HR. pose proof (inv_at_proc s c p HI Hcpu Hat) as HG. unfold fork_begin.
  wstep (myproc_ginv c _ _ p (Some p) None s HG). intros q s' (->&HG'&[Hk _]).
  assert (Evm : vm s' = vm s) by (unfold tab in Hk; by simplify_eq). rewrite <- Evm in HR.
  wstep (allocproc_safe kend pool forkret trapret s' c _ _ (G_cpu _ _ _ _ _ _ _ HG') HR). intros o s1 _. by destruct o.
Qed.

Lemma inv_at_fork s c p np :
  inv s → (c < ncpu)%nat → c_at (cpus s c) = AtFork p np →
  ginv c false (ncli s c) (Some p) (Some p) (Some np) s.
Proof.
  intros HI Hcpu Hat. pose proof (inv_ginv s c HI Hcpu) as HG. unfold on, fk in HG. by rewrite Hat in HG.
Qed.

Lemma fork_fail_inv s c p np :
  inv s → (c < ncpu)%nat → c_at (cpus s c) = AtFork p np → wsafe (fork_fail c p np) s (λ _ s', inv s').
Proof.
  intros HI Hcpu Hat. pose proof (inv_at_fork s c p np HI Hcpu Hat) as HG. pose proof HG as [HC Hp Hs].
  destruct (P_fork _ _ _ _ _ _ Hs c np) as (Hst&_); [by rewrite fn_lookup_insert|].
  unfold fork_fail. pose proof (slot_refl s np) as H.
  wstep (upd_slot _ _ _ _ _ _ (set_kstack 0) H). clear H. intros [] s1 H.
  wstep (upd_slot _ _ _ _ _ _ (set_state UNUSED) H). clear H. intros [] s2 ((Ho&Hc&Hi)&Hps&Hkc&Hnp).
  apply wsafe_bind. eapply wsafe_mono; [|eapply (goto_ginv c false (ncli s c) (Some p) (Some p) None); try done].
  { by intros [] s' HI'. }
  split; [by eapply cinv_keeps|by rewrite Hnp|]. rewrite Hnp, Hi. unfold on, fk. rewrite Hc.
  eapply pinv_ext; [eapply (pinv_unused _ _ (<[c := None]> (fk s)) _ _ _ (nextpid s) _ np
    (set_state UNUSED (set_kstack 0 (procs s np))) Hs)|..]; try done.
  - simpl. destruct (p_parent (procs s np)) eqn:E; [|done].
    apply (P_parent _ _ _ _ _ _ Hs) in E as [_ E]. by rewrite Hst in E.
  - destruct (decide (np < NPROC)%nat); [done|]. by rewrite (P_high _ _ _ _ _ _ Hs) in Hst by lia.
  - by rewrite Hst.
  - intros c' j. unfold insert, fn_insert. case_decide as Hcc.
    + split; [done|]. by intros [[= ->] ?].
    + split; [|by intros [? _]]. intros Hfk. split; [done|]. intros ->. apply Hcc.
      apply (P_forkx _ _ _ _ _ _ Hs c c' np); by rewrite ?fn_lookup_insert, ?fn_lookup_insert_ne.
  - intros j. rewrite Hkc. unfold insert, fn_insert. by case_decide; subst.
Qed.

(** The EMBRYO of CPU [c] becomes a RUNNABLE child. *)
Lemma pinv_born on fk ps kc npid ini c i cur p' :
  pinv on (<[c := Some i]> fk) ps kc npid ini → on c = Some cur →
  p_state p' = RUNNABLE → p_parent p' = Some cur → p_pid p' = p_pid (ps i) →
  p_kstack p' = p_kstack (ps i) → p_pgdir p' ≠ 0 →
  pinv on (<[c := None]> fk) (<[i := p']> ps) kc npid ini.
Proof.
  intros HP Honc Hst' Hpar' Hpid' Hks' Hpg'.
  pose proof HP as [Hon Hrun Hexcl Hfork Hemb Hforkx Hpid Hpidx Hhigh Hmem Hexit Hini Hparent Horph Hwait Hroot Hself].
  destruct (Hfork c i) as (Hst&Hks&_); [by rewrite fn_lookup_insert|].
  assert (Hlive : live (p_state (ps i)) = true) by (by rewrite Hst).
  assert (Hcur : cur ≠ i) by (intros ->; apply Hon in Honc; congruence).
  assert (Hnf : ∀ c', c' ≠ c → fk c' ≠ Some i).
  { intros c' Hne H. apply Hne, (Hforkx c' c i); by rewrite ?fn_lookup_insert, ?fn_lookup_insert_ne. }
  assert (Hno : ∀ c', on c' ≠ Some i) by (intros c' H; apply Hon in H; congruence).
  eapply pinv_update_proc; [exact HP|].
  split; rewrite ?Hst', ?Hpar', ?Hpid', ?Hks'; try done.
  - intros c' j Hj. unfold insert, fn_insert. case_decide; [split; congruence|done].
  - split; [done|]. intros [c' Hc]. by apply Hno in Hc.
  - intros c1 c2 Hc. by apply Hno in Hc.
  - split; [done|]. intros [c' Hc]. unfold insert, fn_insert in Hc. case_decide; [done|].
    by apply Hnf in Hc.
  - intros c1 c2. unfold insert, fn_insert. case_decide; [done|]. intros Hc. by apply Hnf in Hc.
  - intros c' j. unfold insert, fn_insert. case_decide; [done|]. intros Hf.
    destruct (Hfork c' j) as (_&_&?); [by rewrite fn_lookup_insert_ne|done].
  - intros _. split; [by apply Hpid|]. intros j Hj Hl Heq. by apply Hj, Hpidx.
  - destruct (decide (i < NPROC)%nat); [done|]. rewrite Hhigh in Hst by lia. done.
  - intros H. destruct (Hexit _ H); congruence.
  - by left.
  - intros j [= <-]. split; [done|]. intros _. apply Hon in Honc. by rewrite Honc.
  - intros ->. by rewrite Hst in Hini.
  - congruence.
Qed.

Lemma fork_end_inv s c p np child :
  inv s → (c < ncpu)%nat → c_at (cpus s c) = AtFork p np → private child → p_pgdir (child (procs s np)) ≠ 0 →
  wsafe (fork_end c p np child) s (λ _ s', inv s').
Proof.
  intros HI Hcpu Hat Hpriv Hpg. pose proof (inv_at_fork s c p np HI Hcpu Hat) as HG. pose proof HG as [HC Hp Hs].
  destruct (P_fork _ _ _ _ _ _ Hs c np) as (Hst&Hks&_); [by rewrite fn_lookup_insert|].
  pose proof (G_irq _ _ _ _ _ HC) as [Hn0 _].
  destruct (Hpriv (procs s np)) as (_&Epid&_&_&Eks&_).
  unfold fork_end. pose proof (slot_refl s np) as H.
  wstep (upd_slot _ _ _ _ _ _ child H). clear H. intros [] s1 H.
  wstep (upd_slot _ _ _ _ _ _ (set_parent (Some p)) H). clear H. intros [] s2 ((Ho&Hc&Hi)&Hps&Hkc&Hnp).
  wget. assert (HC2 : cinv c false (ncli s c) (Some p) s2) by (by eapply cinv_keeps).
  wstep (acquire_pt_cinv c s2 _ _ HC2). intros [] s3 [HC3 Hk3].
  destruct (keeps_eq _ _ _ Hk3) as (Hps3&Hkc3&Hnp3&Hin3&Hat3).
  pose proof (slot_refl s3 np) as H. wstep (upd_slot _ _ _ _ _ _ (set_state RUNNABLE) H). clear H.
  intros [] s4 ((Ho4&Hc4&Hi4)&Hps4&Hkc4&Hnp4).
  assert (HC4 : cinv c true (ncli s c + 1) (Some p) s4) by (by eapply cinv_keeps).
  wstep (release_pt_cinv c s4 _ _ HC4); [|lia]. intros [] s5 [HC5 Hk5].
  destruct (keeps_eq _ _ _ Hk5) as (Hps5&Hkc5&Hnp5&Hin5&Hat5).
  replace (ncli s c + 1 - 1) with (ncli s c) in HC5 by lia.
  assert (Hown : ∀ c', c' ≠ c → cpus s5 c' = cpus s c').
  { intros c' Hc'. rewrite (proj2 Hk5), Hc4, (proj2 Hk3), Hc; done. }
  apply wsafe_bind. eapply wsafe_mono; [|eapply (goto_ginv c false (ncli s c) (Some p) (Some p) None); try done].
  { by intros [] s' HI'. }
  split; [done|by rewrite Hnp5, Hnp4, Hnp3, Hnp|].
  rewrite Hnp5, Hnp4, Hnp3, Hnp, Hin5, Hi4, Hin3, Hi.
  set (p' := set_state RUNNABLE (set_parent (Some p) (child (procs s np)))).
  eapply pinv_ext; [eapply (pinv_born _ _ _ _ _ _ c np p p' Hs)|..]; try done.
  - by rewrite fn_lookup_insert.
  - intros c'. unfold on, insert, fn_insert. case_decide; [done|]. by rewrite Hown.
  - intros c'. unfold fk, insert, fn_insert. case_decide; [done|]. by rewrite Hown.
  - intros j. rewrite Hps5, Hps4, Hps3. unfold insert, fn_insert in *. rewrite !Hps.
    case_decide; [by rewrite decide_True|done].
  - intros j. rewrite Hkc5, Hkc4, Hkc3. unfold insert, fn_insert in *. rewrite !Hkc.
    repeat case_decide; by subst.
Qed.

(** ** The invariant of every reachable state *)

Section reachable.
Context (kend forkret trapret : Z).

Lemma ret_inv {A} (m : K sys A) s r s' : m s = Ret r s' → wlp m s (λ _ s', inv s') → inv s'.
Proof. unfold wlp. by intros ->. Qed.

(** Back at the place where the CPU was. *)
Lemma back_inv s s' c p n :
  c_at (cpus s c) = AtProc p → ginv c false n (Some p) (Some p) None s' → keeps c s s' → inv s'.
Proof.
  intros Hat HG' Hk. apply keeps_eq in Hk as (_&_&_&_&Hat'). rewrite Hat in Hat'.
  eapply ginv_inv; [exact HG'|unfold on, fk; by rewrite Hat'..].
Qed.

Lemma lock_inv s c p :
  inv s → (c < ncpu)%nat → c_at (cpus s c) = AtProc p → wsafe (pushcli c) s (λ _ s', inv s').
Proof.
  intros HI Hcpu Hat. pose proof (inv_at_proc s c p HI Hcpu Hat) as HG.
  eapply wsafe_mono; [|apply wp_wsafe, (pushcli_cinv c s _ _ _ (G_cpu _ _ _ _ _ _ _ HG))].
  intros [] s' (HC&Hk&_). eapply back_inv; [done|by eapply keeps_ginv|done].
Qed.

Lemma unlock_inv s c p :
  inv s → (c < ncpu)%nat → c_at (cpus s c) = AtProc p → 0 < ncli s c → wsafe (popcli c) s (λ _ s', inv s').
Proof.
  intros HI Hcpu Hat Hn. pose proof (inv_at_proc s c p HI Hcpu Hat) as HG.
  eapply wsafe_mono; [|by apply (popcli_ginv _ _ _ _ _ _ _ HG)].
  intros [] s' [HG' Hk]. by eapply back_inv.
Qed.

(** exit's check: only init fails it. *)
Lemma exit_begin_inv s c p :
  inv s → (c < ncpu)%nat → c_at (cpus s c) = AtProc p →
  if decide (p = initproc s) then exit_begin c s = Panic "init exiting" else wsafe (exit_begin c) s (λ _ s', inv s').
Proof.
  intros HI Hcpu Hat. pose proof (inv_at_proc s c p HI Hcpu Hat) as HG.
  pose proof (myproc_ptr_wp c _ _ _ s (G_cpu _ _ _ _ _ _ _ HG)) as Hw. unfold wp in Hw.
  unfold wsafe, exit_begin, myproc, mbind, K_bind, gets. destruct (myproc_ptr c s) as [o s1| | | |]; try done.
  destruct Hw as (->&HC&Hk). simpl. destruct (keeps_eq _ _ _ Hk) as (_&_&_&Ei&_). rewrite Ei.
  case_decide; [done|]. simpl. eapply back_inv; [done|by eapply keeps_ginv|done].
Qed.

Lemma inv_vmkeeps s s' :
  inv s → owner s' = owner s → cpus s' = cpus s → initproc s' = initproc s →
  kctxs s' = kctxs s → nextpid s' = nextpid s →
  (pinv (on s) (fk s) (procs s) (kctxs s) (nextpid s) (initproc s) →
   pinv (on s) (fk s) (procs s') (kctxs s) (nextpid s) (initproc s)) → inv s'.
Proof.
  intros [Ho Hc Hp Hs] Eo Ec Ei Ek En HP. split; rewrite ?Eo, ?Ec, ?En; try done.
  unfold on, fk. rewrite Ec, Ei, Ek. by apply HP.
Qed.

Lemma sched_step s s' : step kend forkret trapret s s' → inv s → inv s'.
Proof.
  intros Hstep HI. destruct Hstep;
    match goal with H : _ = Ret _ _ |- _ => apply (ret_inv _ _ _ _ H); clear H end.
  - by apply wsafe_wlp, scheduler_begin_inv.
  - by apply wsafe_wlp, scheduler_turn_inv.
  - by eapply wsafe_wlp, yield_inv.
  - by eapply wsafe_wlp, sleep_inv.
  - by eapply wsafe_wlp, futex_wait_inv.
  - by apply wsafe_wlp, wakeup_inv.
  - by apply wsafe_wlp, wakeupfutex_inv.
  - by apply wsafe_wlp, kill_inv.
  - pose proof (exit_begin_inv s c p HI ltac:(done) ltac:(done)) as He. case_decide; [unfold wlp; by rewrite He|by apply wsafe_wlp].
  - by eapply wsafe_wlp, exit_end_inv.
  - by eapply wsafe_wlp, wait_begin_inv.
  - by eapply wait_turn_inv.
  - by eapply fork_begin_inv.
  - by eapply wsafe_wlp, fork_fail_inv.
  - by eapply wsafe_wlp, fork_end_inv.
  - by eapply wsafe_wlp, lock_inv.
  - by eapply wsafe_wlp, unlock_inv.
  - unfold wlp, upd, modify. eapply inv_vmkeeps; try done. intros HP. eapply pinv_same; [exact HP|].
    intros i. simpl. unfold insert, fn_insert. case_decide; [subst|done].
    match goal with Hp : private _ |- _ => destruct (Hp (procs s i)) as (?&?&?&?&?&?) end. split_and!; auto.
  - unfold wlp, on_vm, zoom. destruct (m (vm s)); try done. by eapply inv_vmkeeps.
Qed.

(** Before the first process runs. *)
Record initial (s : sys) : Prop := {
  B_owner : owner s = None;
  B_cpus c : c_at (cpus s c) = AtScheduler ∧ c_proc (cpus s c) = None ∧ ncli s c = 0;
  B_pid : 0 < p_pid (procs s (initproc s)) < nextpid s ∧ nextpid s < 2147483648;
  B_init : p_state (procs s (initproc s)) = RUNNABLE ∧ (initproc s < NPROC)%nat ∧
    p_pgdir (procs s (initproc s)) ≠ 0 ∧ p_kstack (procs s (initproc s)) ≠ 0 ∧
    k_resume (kctxs s (initproc s)) = RForkret;
  B_unused i : i ≠ initproc s → p_state (procs s i) = UNUSED;
  B_parents i : p_parent (procs s i) = None
}.

Lemma sched_initial s : initial s → inv s.
Proof.
  intros [Ho Hc [Hpid Hmax] (Hst&Hlt&Hpg&Hks&Hk) Hun Hpar].
  assert (Hon : ∀ c, on s c = None) by (intros c; unfold on; by destruct (Hc c) as (->&_)).
  assert (Hfk : ∀ c, fk s c = None) by (intros c; unfold fk; by destruct (Hc c) as (->&_)).
  assert (Hone : ∀ i, p_state (procs s i) ≠ UNUSED → i = initproc s).
  { intros i Hi. destruct (decide (i = initproc s)); [done|]. by rewrite Hun in Hi. }
  assert (Hcases : ∀ i, p_state (procs s i) = UNUSED ∨ i = initproc s).
  { intros i. destruct (decide (i = initproc s)); [by right|left; auto]. }
  split.
  - intros c. rewrite Ho. by destruct (Hc c) as (->&_).
  - intros c. destruct (Hc c) as (Hat&Hcp&Hn). unfold cpu_inv, irq_ok. unfold ncli in Hn.
    rewrite Hat, Hcp, Hn. split; [done|]. split; [lia|]. split; [lia|done].
  - lia.
  - split; intros *; rewrite ?Hon, ?Hfk, ?Hpar; try done.
    + intros H. destruct (Hcases i) as [? | ->]; congruence.
    + intros H. destruct (Hcases i) as [? | ->]; congruence.
    + destruct (Hcases i) as [-> | ->]; [done|lia].
    + intros H1 H2 _. rewrite (Hone i), (Hone j); [done|by intros E; rewrite E in *..].
    + intros Hi. apply Hun. lia.
    + destruct (Hcases i) as [-> | ->]; done.
    + destruct (Hcases i) as [? | ->]; [by right|congruence].
    + by rewrite Hst.
    + intros Hb Hne. by rewrite Hun in Hb.
Qed.

Lemma sched_reachable s0 s : initial s0 → rtc (step kend forkret trapret) s0 s → inv s.
Proof.
  intros H0 Hr. apply sched_initial in H0. induction Hr as [|s1 s2 s3 Hs _ IH]; [done|].
  by apply IH, (sched_step _ _ Hs).
Qed.
End reachable.
End sched.
