(* ===== verification/Schedprops.v ===== *)
(** What the invariant of the process table says, and what single routines of
    src/proc.c do to it. *)

From Stdlib Require Import ZArith Lia.
From stdpp Require Import base tactics numbers gmap strings functions relations list.
From S2P Require Import Prelude Memory Kstring Spinlock Mmu Kalloc Procdef Vm Vminv Vmspec Vmalloc Vmexample Fault Vmprops Sched Schedinv.

#[local] Open Scope Z_scope.

(** ** A machine with two CPUs and one process *)

#[local] Instance ex_machine : machine := {| ncpu := 2; apicid := Z.of_nat; lapicid := Z.of_nat;
  lapicid_ok := λ i _, eq_refl; apicid_inj := λ i j _ _ E, Nat2Z.inj i j E |}.

Definition ex_proc0 : proc :=
  set_state RUNNABLE (set_pid 1 (set_pgdir 2147491840 (set_kstack 2147487744 proc_zero))).
Definition ex_cpu : cpu := {| c_proc := None; c_at := AtScheduler;
  c_irq := {| Spin.ncli := 0; Spin.intena := false; Spin.flag_if := false; Spin.pc := Spin.Running;
              Spin.held := [] |} |}.
Definition ex_vm : vmstate := {|
  km := {| lock := LFree; use_lock := true; freelist := Some 5000;
    runs := {[ 5000 := {| ref_count := 0; next := None |} ]}; pmem := ∅ |};
  vdso_text_page := 0; vdso_ticks_page := 0; kpgdir := 0; cr3 := 0 |}.
Definition ex_sys : sys := {|
  procs := <[O := ex_proc0]> (λ _, proc_zero);
  kctxs := λ _, {| k_resume := RForkret; k_intena := false |};
  nextpid := 2; initproc := O; owner := None; cpus := λ _, ex_cpu; vm := ex_vm |}.

Lemma ex_initial : initial ex_sys.
Proof.
  split; try done.
  - split_and!; try done. unfold NPROC. simpl. lia.
  - intros i Hi. simpl. by rewrite fn_lookup_insert_ne.
  - intros i. simpl. unfold insert, fn_insert. by case_decide.
Qed.

(** The CPU 0 of the machine takes ptable.lock and runs the process. *)
Definition after {A} (m : K sys A) (s : sys) : sys := match m s with Ret _ s' => s' | _ => s end.
Definition returned {A} (o : outcome sys A) : bool := match o with Ret _ _ => true | _ => false end.
Lemma after_ret (m : K sys unit) s : returned (m s) = true → m s = Ret tt (after m s).
Proof. unfold after. by destruct (m s) as [[] s'| | | |]. Qed.
Lemma after_val {A} (m : K sys A) s : returned (m s) = true → ∃ a, m s = Ret a (after m s).
Proof. unfold after. destruct (m s) as [a s'| | | |]; try done. eauto. Qed.

Ltac run_step :=
  match goal with
  | |- (_ < ncpu)%nat => simpl; lia
  | |- _ = Ret tt _ => apply after_ret; by vm_compute
  | |- _ => by vm_compute
  end.

Definition ex_scan : sys := after (scheduler_begin 0) ex_sys.
Definition ex_run : sys := after (scheduler_turn 0 0) ex_scan.

Lemma ex_reach kend forkret trapret : rtc (step kend forkret trapret) ex_sys ex_run.
Proof.
  eapply (rtc_l _ _ ex_scan); [eapply (st_scheduler _ _ _ _ _ 0); run_step|].
  eapply rtc_once, (st_turn _ _ _ _ _ 0 0); run_step.
Qed.

(** ** The reaping of a zombie *)

(** The memory of a zombie is what wait() takes it for: its kernel stack is a page that
    nothing else uses, its page directory is one of the live ones, and its guard page,
    if it has one, is mapped. *)
Record reapable (kend : Z) (k : kmem) (pool : Pool.pool) (G : ghost) (p : proc) : Prop := {
  rp_inv : vm_inv kend k pool G;
  rp_stack : ∃ f, p_kstack p = kva f ∧ good_page kend f ∧ roles G !! f = None ∧
    Pool.count pool f = 1 ∧ maps G f = 0;
  rp_dir : is_dir G (p_pgdir p);
  rp_guard u : 0 ≤ u < UPAGES → is_guard (Some p) (u * 4096) = true → pte_at G (p_pgdir p) u ≠ 0
}.

Lemma wsafe_km {A} (m : K kmem A) s Q :
  wp m (km (vm s)) (λ a k', ∀ s', procs s' = procs s → km (vm s') = k' → Q a s') → wsafe (on_vm (on_km m)) s Q.
Proof. unfold wp, wsafe, on_vm, on_km, zoom. destruct (m (km (vm s))); try done. intros H. by apply H. Qed.

Lemma reap_safe kend pool G s i :
  KERNBASE < kend → reapable kend (km (vm s)) pool G (procs s i) → wsafe (reap kend i) s (λ _ _, True).
Proof.
  intros Hkend [[HI HB] (f&Hks&Hg&Hr&Hone&Hm) Hd Hgd]. unfold reap. wget. apply wsafe_bind, wsafe_km.
  unfold free_kstack. apply wp_bind. unfold wp at 1. rewrite Hks.
  assert (Hpo := page_of_kva kend f Hg).
  rewrite (getRefCount_refines kend _ pool _ (i_R _ _ _ _ HI)) by (rewrite Hpo; apply Hg). rewrite Hpo, Hone. simpl.
  eapply wp_mono; [|by apply (kfree_transit kend (km (vm s)) pool G f)].
  intros [] k1 (p1&HI1&Hx&_) s1 Hps <-. wmod. wget. apply wsafe_bind, wsafe_km. simpl. rewrite fn_lookup_insert, Hps.
  eapply wp_mono; [|apply (freevm_view kend (km (vm s1)) p1 G); [done|split; [done|]|exact Hd|exact Hgd]].
  - intros [] k2 _ s2 _ _. exact I.
  - intros g. rewrite Hx. case_decide; [subst g; unfold extra, tabs; rewrite Hr, Hm; lia|specialize (HB g); lia].
Qed.

Section claims.
Context `{M : machine} (kend forkret trapret : Z).

(** C3: in every state the CPUs can reach, by any interleaving of the
    scheduler, yield, sleep, wakeup, kill, fork, exit, wait and the futex calls:
    at most one CPU is inside the code that ptable.lock protects; a process is
    RUNNING exactly when one CPU runs it, and no two CPUs run the same one; the
    pids of the processes in the table are distinct; every process past its
    creation has a parent in the table that has not exited, init excepted; and
    no process sleeps in wait() while one of its children is a ZOMBIE, so that
    no exit goes unnoticed. *)
Theorem process_table_invariant (s0 s : sys) :
  initial s0 → rtc (step kend forkret trapret) s0 s →
  (∀ c c', holds (c_at (cpus s c)) = true → holds (c_at (cpus s c')) = true → c = c') ∧
  (∀ i, p_state (procs s i) = RUNNING ↔ ∃ c, c_proc (cpus s c) = Some i) ∧
  (∀ c c' i, c_proc (cpus s c) = Some i → c_proc (cpus s c') = Some i → c = c') ∧
  (∀ i j, p_state (procs s i) ≠ UNUSED → p_state (procs s j) ≠ UNUSED →
     p_pid (procs s i) = p_pid (procs s j) → i = j) ∧
  (∀ i, born (p_state (procs s i)) = true → i ≠ initproc s →
     ∃ j, p_parent (procs s i) = Some j ∧ active (p_state (procs s j)) = true) ∧
  (∀ i z, p_state (procs s i) = SLEEPING → p_chan (procs s i) = Some (ChProc i) →
     p_parent (procs s z) = Some i → p_state (procs s z) ≠ ZOMBIE).
Proof.
  intros H0 Hr. pose proof (sched_reachable kend forkret trapret s0 s H0 Hr) as [Ho Hc _ Hs].
  assert (Hon : ∀ c, c_proc (cpus s c) = on s c) by (intros c; by destruct (Hc c)).
  assert (Hlive : ∀ i, p_state (procs s i) ≠ UNUSED → live (p_state (procs s i)) = true)
    by (intros i; by destruct (p_state (procs s i))).
  split_and!.
  - intros c c' H1%Ho H2%Ho. congruence.
  - intros i. setoid_rewrite Hon. split; [apply Hs|]. intros [c Hi]. by apply (P_on _ _ _ _ _ _ Hs c).
  - intros c c' i. rewrite !Hon. apply Hs.
  - intros i j Hi Hj. apply Hs; auto.
  - intros i Hb Hne. destruct (p_parent (procs s i)) as [j|] eqn:E.
    + exists j. split; [done|]. by apply (P_parent _ _ _ _ _ _ Hs) in E as [? _].
    + by apply (P_orphan _ _ _ _ _ _ Hs) in E.
  - intros i z. apply Hs.
Qed.

(** C22: in any state the CPUs can reach, the routines return or spin on ptable.lock
    where the code calls them, and reach none of their panics: mycpu() runs with
    interrupts off and finds its CPU, sched() finds ptable.lock held, exactly one lock
    held, interrupts off and the state changed, sleep() has a process and a lock, a zombie
    is never resumed, acquire, release and popcli are balanced, and the scheduler never
    switches to a process without a stack or a page table.  This covers scheduler(),
    yield(), sleep(), wakeup() in its two forms, kill(), futex_wait(), all of exit(), all
    of wait(), and fork() around the copy of the memory; fork() needs the state of the
    page allocator to be sound and wait() that the zombie it reaps, if there is one, has
    the memory of a process.  The one panic that is left is that of exit() in init, which
    is certain. *)
Theorem scheduler_no_panic (s0 s : sys) (c : nat) :
  initial s0 → rtc (step kend forkret trapret) s0 s → (c < ncpu)%nat → KERNBASE < kend →
  (holds (c_at (cpus s c)) = false →
     (∀ ch, wsafe (wakeup c ch) s (λ _ _, True)) ∧ (∀ ch, wsafe (wakeupfutex c ch) s (λ _ _, True)) ∧
     (∀ pid, wsafe (kill c pid) s (λ _ _, True))) ∧
  match c_at (cpus s c) with
  | AtScheduler => wsafe (scheduler_begin c) s (λ _ _, True)
  | AtScan i => wsafe (scheduler_turn c i) s (λ _ _, True)
  | AtProc p =>
      (ncli s c = 0 →
         wsafe (yield c) s (λ _ _, True) ∧ wsafe (wait_begin c) s (λ _ _, True) ∧
         (∀ loc same, wsafe (futex_wait c loc same) s (λ _ _, True)) ∧
         (p = initproc s → exit_begin c s = Panic "init exiting") ∧
         (p ≠ initproc s → wsafe (exit_begin c) s (λ _ _, True) ∧ wsafe (exit_end c) s (λ _ _, True)) ∧
         (∀ pool, R kend (km (vm s)) pool → wsafe (fork_begin c forkret trapret) s (λ _ _, True))) ∧
      (ncli s c = 1 → ∀ ch, is_ChProc ch = false → wsafe (sleep c ch (Some OtherLock) RSleep) s (λ _ _, True))
  | AtFork p np => wsafe (fork_fail c p np) s (λ _ _, True) ∧
      ∀ child, private child → p_pgdir (child (procs s np)) ≠ 0 →
        wsafe (fork_end c p np child) s (λ _ _, True)
  | AtWait p =>
      (∀ i, p_parent (procs s i) = Some p → p_state (procs s i) = ZOMBIE →
         ∃ pool G, reapable kend (km (vm s)) pool G (procs s i)) →
      wsafe (wait_turn c kend) s (λ _ _, True)
  end.
Proof.
  intros H0 Hr Hcpu Hkend. pose proof (sched_reachable kend forkret trapret s0 s H0 Hr) as HI.
  assert (HT : ∀ A (m : K sys A), wsafe m s (λ _ s', inv s') → wsafe m s (λ _ _, True)).
  { intros A m. by apply wsafe_mono. }
  split. { intros Hh. split_and!; intros; apply HT; eauto using wakeup_inv, wakeupfutex_inv, kill_inv. }
  destruct (c_at (cpus s c)) as [|i|p|p np|p] eqn:Hat.
  - by apply HT, scheduler_begin_inv.
  - by apply HT, scheduler_turn_inv.
  - pose proof (exit_begin_inv s c p HI Hcpu Hat) as He. split.
    + intros Hn. split_and!; intros; eauto using yield_inv, wait_begin_inv, futex_wait_inv, fork_begin_safe.
      * by rewrite decide_True in He.
      * rewrite decide_False in He by done. split; [by apply HT|]. by eapply HT, exit_end_inv.
    + intros Hn ch Hch. eapply HT, sleep_inv; done.
  - split; [by eapply HT, fork_fail_inv|]. intros child Hp Hpg. by eapply HT, fork_end_inv.
  - intros Hz. eapply HT, wait_turn_safe; [done..|]. intros s1 i Eps Evm Hpar Hst.
    destruct (Hz i Hpar Hst) as (pool&G&Hre). apply (reap_safe kend pool G); [done|by rewrite Evm, Eps].
Qed.
End claims.

Lemma process_table_invariant_witness :
  p_state (procs ex_run 0) = RUNNING ∧ c_proc (cpus ex_run 0) = Some O ∧
  ∀ c, c_proc (cpus ex_run c) = Some O → c = O.
Proof.
  destruct (process_table_invariant 2151677952 0 0 ex_sys ex_run ex_initial (ex_reach _ _ _))
    as (_&Hrun&Hone&_).
  assert (H0 : c_proc (cpus ex_run 0) = Some O) by (by vm_compute).
  split_and!; [apply Hrun; by exists O|done|]. intros c Hc. by apply (Hone c O O).
Defined.

(** ** A run that ends in wait() *)

(** Init is in the third slot and forks twice on CPU 0; CPU 1 runs the first child, which
    exits, and then the second; init calls wait().  The run does not depend on the contents
    [m] of the memory. *)
Definition ex_fam (m : mem) : sys := {|
  procs := <[2%nat := set_pgdir (kva 2000) ex_proc0]> (λ _, proc_zero);
  kctxs := λ _, {| k_resume := RForkret; k_intena := false |};
  nextpid := 2; initproc := 2; owner := None; cpus := λ _, ex_cpu;
  vm := {| km := mk_kmem ex_free ex_count m; vdso_text_page := 0; vdso_ticks_page := 0; kpgdir := kva 2000; cr3 := 0 |} |}.
Definition ex_child (d : Z) (p : proc) : proc := set_guardpg 4096 (set_pgdir (kva d) p).

Definition ex_f1 (m : mem) : sys := after (scheduler_turn 0 2) (after (scheduler_turn 0 1)
  (after (scheduler_turn 0 0) (after (scheduler_begin 0) (ex_fam m)))).
Definition ex_f2 (m : mem) : sys := after (fork_end 0 2 0 (ex_child 2002)) (after (fork_begin 0 0 0) (ex_f1 m)).
Definition ex_f3 (m : mem) : sys := after (fork_end 0 2 1 (ex_child 2000)) (after (fork_begin 0 0 0) (ex_f2 m)).
Definition ex_f4 (m : mem) : sys := after (scheduler_turn 1 0) (after (scheduler_begin 1) (ex_f3 m)).
Definition ex_f5 (m : mem) : sys := after (scheduler_turn 1 1) (after (exit_end 1) (ex_f4 m)).
Definition ex_wait (m : mem) : sys := after (wait_begin 0) (ex_f5 m).

Lemma ex_child_private d : kva d ≠ 0 → private (ex_child d).
Proof. by intros Hd p. Qed.
Lemma ex_fork s np d :
  c_at (cpus s 0) = AtProc 2 → ncli s 0 = 0 → nextpid s < 2147483647 → kva d ≠ 0 →
  returned (fork_begin 0 0 0 s) = true → c_at (cpus (after (fork_begin 0 0 0) s) 0) = AtFork 2 np →
  returned (fork_end 0 2 np (ex_child d) (after (fork_begin 0 0 0) s)) = true →
  rtc (step ex_kend 0 0) s (after (fork_end 0 2 np (ex_child d)) (after (fork_begin 0 0 0) s)).
Proof.
  intros Hat Hn Hp Hd [r1 H1]%after_val Hat' [r2 H2]%after_val.
  eapply rtc_l; [eapply (st_fork_begin _ _ _ _ _ 0 2); [simpl; lia|done..]|].
  eapply rtc_once, (st_fork_end _ _ _ _ _ 0 2 np (ex_child d)); [simpl; lia|done|by apply ex_child_private|done|done].
Qed.

Lemma ex_wait_reach m : rtc (step ex_kend 0 0) (ex_fam m) (ex_wait m).
Proof.
  assert (H1 : rtc (step ex_kend 0 0) (ex_fam m) (ex_f1 m)).
  { eapply rtc_l; [eapply (st_scheduler _ _ _ _ _ 0); run_step|].
    eapply rtc_l; [eapply (st_turn _ _ _ _ _ 0 0); run_step|].
    eapply rtc_l; [eapply (st_turn _ _ _ _ _ 0 1); run_step|].
    eapply rtc_once, (st_turn _ _ _ _ _ 0 2); run_step. }
  assert (H2 : rtc (step ex_kend 0 0) (ex_f1 m) (ex_f2 m)) by (apply (ex_fork (ex_f1 m) 0 2002); by vm_compute).
  assert (H3 : rtc (step ex_kend 0 0) (ex_f2 m) (ex_f3 m)) by (apply (ex_fork (ex_f2 m) 1 2000); by vm_compute).
  eapply rtc_trans; [exact H1|]. eapply rtc_trans; [exact H2|]. eapply rtc_trans; [exact H3|].
  eapply rtc_l; [eapply (st_scheduler _ _ _ _ _ 1); run_step|].
  eapply rtc_l; [eapply (st_turn _ _ _ _ _ 1 0); run_step|].
  eapply rtc_l; [eapply (st_exit _ _ _ _ _ 1 0); run_step|].
  eapply rtc_l; [eapply (st_turn _ _ _ _ _ 1 1); run_step|].
  eapply rtc_once, (st_wait_begin _ _ _ _ _ 0 2); run_step.
Qed.

(** The two kernel stacks that fork() has taken from the memory of the example. *)
Definition new_stack : K kmem unit := kalloc ≫= λ v, store32 (v + KSTACKSIZE - sizeof_tf - 4) 0.

Lemma new_stack_inv kend k p G f l :
  vm_inv kend k p G → Pool.free p = f :: l →
  wp new_stack k (λ _ k', vm_inv kend k' {| Pool.free := l; Pool.count := Pool.upd (Pool.count p) f 1 |} G ∧
    good_page kend f ∧ roles G !! f = None ∧ maps G f = 0).
Proof.
  intros [HI HB] Hfree. unfold new_stack. apply wp_bind. eapply wp_mono; [|by apply (kalloc_vm kend k p G)].
  intros v k1 (_&[(_&?&_)|(g&l'&->&Hf&Hg&Hc&Hr&Hm&_&HI1)]); [congruence|].
  rewrite Hfree in Hf. injection Hf as <- <-.
  unfold wp, store32, KSTACKSIZE, sizeof_tf. pose proof (kva_u32 kend f Hg) as Hu. unfold is_u32 in Hu.
  rewrite (proj2 (Z.eqb_neq _ 0)) by lia. unfold modify. split_and!; [|done..].
  assert (Hfr : ∀ o, 0 ≤ o < 4096 → roles G !! frame_at (kva f + o) = None).
  { intros o Ho. by rewrite (frame_at_kva kend) by done. }
  split.
  - replace (kva f + 4096 - 76 - 4) with (kva f + 4016) by lia. unfold wr32.
    do 3 (change (set_pmem (wr8 ?m ?a ?b) k1) with (set_pmem (wr8 (pmem (set_pmem m k1)) a b) (set_pmem m k1));
      apply Inv0_wr8; [|rewrite <- ?Z.add_assoc; apply Hfr; lia]).
    apply Inv0_wr8; [done|apply Hfr; lia].
  - intros h. specialize (HB h). unfold extra in *. simpl. unfold Pool.upd. case_decide; subst; lia.
Qed.

Lemma new_stacks_inv kend k k' p G f g l :
  vm_inv kend k p G → Pool.free p = f :: g :: l → (new_stack ≫= λ _, new_stack) k = Ret tt k' →
  vm_inv kend k' {| Pool.free := l; Pool.count := Pool.upd (Pool.upd (Pool.count p) f 1) g 1 |} G ∧
  good_page kend f ∧ roles G !! f = None ∧ maps G f = 0.
Proof.
  intros HV Hf Hrun.
  assert (H : wp (new_stack ≫= λ _, new_stack) k (λ _ k', vm_inv kend k'
    {| Pool.free := l; Pool.count := Pool.upd (Pool.upd (Pool.count p) f 1) g 1 |} G ∧
    good_page kend f ∧ roles G !! f = None ∧ maps G f = 0)).
  { apply wp_bind. eapply wp_mono; [|by apply (new_stack_inv kend k p G f (g :: l))].
    intros [] k1 (HV1&Hx). eapply wp_mono; [|by apply (new_stack_inv kend k1 _ G g l HV1)].
    by intros [] k2 [HV2 _]. }
  unfold wp in H. by rewrite Hrun in H.
Qed.

Definition ex_pool : Pool.pool := {| Pool.free := seqZ 3002 298;
  Pool.count := Pool.upd (Pool.upd (Pool.count ex_p) 3000 1) 3001 1 |}.
Lemma ex_p_free : Pool.free ex_p = 3000 :: 3001 :: seqZ 3002 298.
Proof. by vm_compute. Qed.

Lemma ex_wait_km m :
  (new_stack ≫= λ _, new_stack) (mk_kmem ex_free ex_count m) = Ret tt (km (vm (ex_wait m))).
Proof. by vm_compute. Qed.
Lemma ex_wait_proc m : let p := procs (ex_wait m) 0 in
  p_kstack p = kva 3000 ∧ p_pgdir p = kva 2002 ∧ p_guardpg p = 4096 ∧ p_state p = ZOMBIE.
Proof. by vm_compute. Qed.
Lemma ex_wait_at m : c_at (cpus (ex_wait m) 0) = AtWait 2.
Proof. by vm_compute. Qed.
Lemma ex_wait_reapable : reapable ex_kend (km (vm (ex_wait ex_mem))) ex_pool ex_G (procs (ex_wait ex_mem) 0).
Proof.
  destruct (new_stacks_inv _ _ _ _ _ _ _ _ ex_inv ex_p_free (ex_wait_km ex_mem)) as (HV&Hg&Hr&Hm).
  destruct (ex_wait_proc ex_mem) as (Hks&Hpg&Hgd&_). split; rewrite ?Hks, ?Hpg.
  - exact HV.
  - exists 3000. split_and!; [reflexivity|exact Hg|exact Hr|by vm_compute|exact Hm].
  - exists 2002. split; [reflexivity|by vm_compute].
  - intros u _ Hu. unfold is_guard in Hu. rewrite Hgd in Hu. apply Z.eqb_eq in Hu.
    assert (u = 1) as -> by lia. by vm_compute.
Qed.

Lemma ex_fam_initial m : initial (ex_fam m).
Proof.
  split; try done.
  - split_and!; try done. unfold NPROC. simpl. lia.
  - intros i Hi. simpl. by rewrite fn_lookup_insert_ne.
  - intros i. simpl. unfold insert, fn_insert. by case_decide.
Qed.

Lemma ex_wait_zombies m i : p_state (procs (ex_wait m) i) = ZOMBIE → i = O.
Proof.
  intros Hz. pose proof (sched_reachable _ _ _ _ _ (ex_fam_initial m) (ex_wait_reach m)) as HI.
  destruct (decide (i < NPROC)%nat) as [Hi|Hi].
  2:{ rewrite (P_high _ _ _ _ _ _ (I_procs _ HI) i) in Hz by lia. done. }
  assert (H : forallb (λ i, (i =? 0)%nat || negb (bool_decide (p_state (procs (ex_wait m) i) = ZOMBIE)))
    (seq 0 NPROC) = true) by (by vm_compute).
  rewrite forallb_forall in H. specialize (H i). rewrite in_seq in H. specialize (H ltac:(lia)).
  rewrite bool_decide_eq_true_2 in H by done. apply orb_true_iff in H as [H|H]; [by apply Nat.eqb_eq|done].
Qed.

(** Init of the first example may yield, and panics in exit(); init of the second one may
    go on in wait(), which reaps the zombie. *)
Lemma scheduler_no_panic_witness :
  (c_at (cpus ex_run 0) = AtProc 0 ∧ wsafe (yield 0) ex_run (λ _ _, True) ∧
   exit_begin 0 ex_run = Panic "init exiting") ∧
  (c_at (cpus (ex_wait ex_mem) 0) = AtWait 2 ∧ p_state (procs (ex_wait ex_mem) 0) = ZOMBIE ∧
   wsafe (wait_turn 0 ex_kend) (ex_wait ex_mem) (λ _ _, True)).
Proof.
  split.
  - destruct (scheduler_no_panic 2151677952 0 0 ex_sys ex_run 0 ex_initial (ex_reach _ _ _)) as [_ H];
      [simpl; lia|done|].
    assert (Hat : c_at (cpus ex_run 0) = AtProc 0) by (by vm_compute).
    assert (Hn : ncli ex_run 0 = 0) by (by vm_compute).
    rewrite Hat in H. destruct H as [H _]. destruct (H Hn) as (Hy&_&_&He&_). split_and!; [done|done|].
    apply He. by vm_compute.
  - destruct (scheduler_no_panic ex_kend 0 0 (ex_fam ex_mem) (ex_wait ex_mem) 0 (ex_fam_initial _) (ex_wait_reach _)) as [_ H];
      [simpl; lia|done|].
    pose proof (ex_wait_at ex_mem) as Hat.
    rewrite Hat in H. split_and!; [exact Hat|apply ex_wait_proc|]. apply H. intros i _ Hz.
    rewrite (ex_wait_zombies _ i Hz). exists ex_pool, ex_G. exact ex_wait_reapable.
Defined.

(** ** The scan of the scheduler *)

Section scan.
Context `{M : machine}.

(** [n] turns of the inner loop of scheduler() from &ptable.proc[i] on. *)
Fixpoint scan (c i n : nat) : K sys unit :=
  match n with
  | O => mret tt
  | S n' => scheduler_turn c i ≫= λ _, scan c (S i) n'
  end.

Lemma release_pt_returns c s n cp :
  cinv c true n cp s → 0 < n →
  wp (release_pt c) s (λ _ s', procs s' = procs s ∧ c_proc (cpus s' c) = cp).
Proof.
  intros HC Hn. eapply wp_mono; [|by apply (release_pt_wp c s n cp)].
  intros [] s' [HC' Hk]. apply keeps_eq in Hk as (->&_). split; [done|]. by destruct HC'.
Qed.

Lemma wp_after {A} (m : K sys unit) (k : unit → K sys A) s Q :
  m s = Ret tt (after m s) → wp (k tt) (after m s) Q → wp (m ≫= k) s Q.
Proof. unfold wp, mbind, K_bind. by intros ->. Qed.

Lemma run_resumed_returns c p s :
  ginv c true 1 (Some p) (Some p) None s →
  wp (run_resumed c p) s (λ _ s', c_proc (cpus s' c) = Some p ∧
    ∀ j, procs s' j = procs s j ∨ j = p ∧ procs s' j = set_chan None (procs s j)).
Proof.
  intros HG. pose proof HG as [HC _ _]. assert (Hcp := G_proc _ _ _ _ _ HC).
  assert (Hgo : ∀ a s1, wp (goto c a) s1 (λ _ s', c_proc (cpus s' c) = c_proc (cpus s1 c) ∧ procs s' = procs s1)).
  { intros a s1. unfold wp, goto, modify; simpl. by rewrite fn_lookup_insert. }
  assert (Hend : ∀ s1, cinv c true 1 (Some p) s1 →
    wp (release_pt c ≫= λ _, goto c (AtProc p)) s1 (λ _ s', c_proc (cpus s' c) = Some p ∧ procs s' = procs s1)).
  { intros s1 HC1. apply wp_bind. eapply wp_mono; [|by apply (release_pt_returns c s1 1 _ HC1)].
    intros [] s2 [Hps Hc]. eapply wp_mono; [|apply Hgo]. intros [] s3 [-> ->]. by rewrite Hps. }
  assert (Hint : ∀ b (k : K sys unit) Q,
    (∀ s1, ginv c true 1 (Some p) (Some p) None s1 → procs s1 = procs s → wp k s1 Q) →
    wp (restore_intena c b ≫= λ _, k) s Q).
  { intros b k Q Hk. apply wp_bind. eapply wp_mono; [|by apply (restore_intena_wp c _ _ _ _ _ s b HG)].
    intros [] s1 [HG1 Hps]. by apply Hk. }
  assert (Hch : ∀ s1, procs s1 = procs s → ∀ j,
    procs (after (upd p (set_chan None)) s1) j = procs s j ∨
    j = p ∧ procs (after (upd p (set_chan None)) s1) j = set_chan None (procs s j)).
  { intros s1 <- j. simpl. unfold insert, fn_insert. case_decide; [subst; by right|by left]. }
  unfold run_resumed. apply wp_bind. change (wp (gets ?f) s ?Q) with (Q (f s) s). cbv beta.
  destruct (k_resume (kctxs s p)) eqn:Ek; try apply Hint.
  - eapply wp_mono; [|by apply Hend]. intros [] s' [? ->]. eauto.
  - intros s1 [HC1 _ _] Hps. eapply wp_mono; [|by apply Hend]. intros [] s' [? ->]. rewrite Hps. eauto.
  - intros s1 [HC1 _ _] Hps. apply wp_after; [done|]. eapply wp_mono; [|apply Hend; by eapply cinv_keeps].
    intros [] s' [? ->]. split; [done|by apply Hch].
  - intros s1 [HC1 _ _] Hps. apply wp_after; [done|]. eapply wp_mono; [|apply Hgo].
    intros [] s' [-> ->]. split; [apply HC1|by apply Hch].
  - intros s1 [HC1 _ _] Hps. apply wp_after; [done|]. eapply wp_mono; [|apply Hend; by eapply cinv_keeps].
    intros [] s' [? ->]. split; [done|by apply Hch].
  - destruct (P_exit _ _ _ _ _ _ (G_procs _ _ _ _ _ _ _ HG) p Ek) as [H|H];
      rewrite (P_on _ _ _ _ _ _ (G_procs _ _ _ _ _ _ _ HG) c) in H; try done; by rewrite fn_lookup_insert.
Qed.

Lemma turn_skips s c i :
  inv s → (c < ncpu)%nat → c_at (cpus s c) = AtScan i → (i < NPROC)%nat → p_state (procs s i) ≠ RUNNABLE →
  wp (scheduler_turn c i) s (λ _ s', inv s' ∧ c_at (cpus s' c) = AtScan (S i) ∧ procs s' = procs s).
Proof.
  intros HI Hcpu Hat Hi Hst. pose proof (scheduler_turn_inv s c i HI Hcpu Hat) as H.
  unfold scheduler_turn in *. rewrite decide_True in * by done.
  unfold wsafe, wp, mbind, K_bind, gets in *. rewrite bool_decide_eq_false_2 in * by done.
  simpl negb in *. cbv iota in *. split; [done|]. simpl. by rewrite fn_lookup_insert.
Qed.

Lemma turn_runs s c i :
  inv s → (c < ncpu)%nat → c_at (cpus s c) = AtScan i → (i < NPROC)%nat → p_state (procs s i) = RUNNABLE →
  wp (scheduler_turn c i) s (λ _ s', c_proc (cpus s' c) = Some i ∧
    p_state (procs s' i) = RUNNING ∧ ∀ j, j ≠ i → procs s' j = procs s j).
Proof.
  intros HI Hcpu Hat Hi Hst. pose proof (inv_locked s c _ HI Hcpu Hat eq_refl) as HG. pose proof HG as [HC Hp Hs].
  destruct (P_mem _ _ _ _ _ _ Hs i) as [Hpg Hks]; [by rewrite Hst|].
  unfold scheduler_turn. rewrite decide_True by done.
  apply wp_bind. change (wp (gets ?f) s ?Q) with (Q (f s) s). cbv beta.
  rewrite bool_decide_eq_true_2 by done. simpl negb. cbv iota. apply wp_after; [done|].
  apply wp_after. { unfold on_vm, zoom, switchuvm. by rewrite !(proj2 (Z.eqb_neq _ _)). }
  apply wp_after; [done|]. set (s1 := after (modify _) s). set (s2 := after (on_vm _) s1).
  assert (HG1 : ginv c true 1 (Some i) None None s1).
  { pose proof HC as [_ _ _ _ Hn [Hi1 Hi2] _]. by apply (ginv_cpu c true 1 None None None s). }
  assert (Hs2 : s2 = {| procs := procs s1; kctxs := kctxs s1; nextpid := nextpid s1; initproc := initproc s1;
    owner := owner s1; cpus := cpus s1; vm := vm s2 |}).
  { unfold s2, after, on_vm, zoom, switchuvm. by rewrite !(proj2 (Z.eqb_neq _ _)). }
  assert (HG2 : ginv c true 1 (Some i) None None s2).
  { pose proof HG1 as [HC1 Hp1 HS1]. rewrite Hs2. by split; [eapply cinv_keeps|..]. }
  assert (Hps2 : procs s2 = procs s) by (by rewrite Hs2).
  clearbody s1 s2. set (s3 := after (upd i (set_state RUNNING)) s2).
  assert (HG3 : ginv c true 1 (Some i) (Some i) None s3).
  { destruct (upd_ginv c true 1 (Some i) None None s2 i (set_state RUNNING) (Some i) None HG2) as [H _]; [|exact H].
    apply pinv_enter; [apply HG2|by rewrite Hps2]. }
  assert (Hps3 : ∀ j, procs s3 j = (<[i := set_state RUNNING (procs s i)]> (procs s) : nat → proc) j).
  { intros j. unfold s3. simpl. by rewrite Hps2. }
  clearbody s3. eapply wp_mono; [|by apply run_resumed_returns]. intros [] s4 [Hcp Hj]. split; [done|]. split.
  - destruct (Hj i) as [-> |[_ ->]]; by rewrite Hps3, fn_lookup_insert.
  - intros j Hne. destruct (Hj j) as [-> |[? _]]; [|done]. by rewrite Hps3, fn_lookup_insert_ne.
Qed.

(** C23: a scan of the process table that has reached slot [i] and finds the
    next RUNNABLE process in slot [k] runs it after k - i + 1 turns of the
    loop, without spinning or skipping it, and leaves every other process as
    it is. *)
Theorem scheduler_dispatches (kend forkret trapret : Z) (s0 s : sys) (c i k : nat) :
  initial s0 → rtc (step kend forkret trapret) s0 s → (c < ncpu)%nat → c_at (cpus s c) = AtScan i →
  (i ≤ k < NPROC)%nat → (∀ j, (i ≤ j < k)%nat → p_state (procs s j) ≠ RUNNABLE) →
  p_state (procs s k) = RUNNABLE →
  wp (scan c i (k - i + 1)) s (λ _ s', c_proc (cpus s' c) = Some k ∧
    p_state (procs s' k) = RUNNING ∧ ∀ j, j ≠ k → procs s' j = procs s j).
Proof.
  intros H0 Hr. pose proof (sched_reachable kend forkret trapret s0 s H0 Hr) as HI. clear H0 Hr. intros Hcpu.
  remember (k - i)%nat as n eqn:En. revert i s HI En.
  induction n as [|n IH]; intros i s HI En Hat Hk Hskip Hrun; cbn [Nat.add scan]; apply wp_bind.
  - replace i with k in * by lia. eapply wp_mono; [|apply turn_runs; [done|done|done|lia|done]]. by intros [] s'.
  - eapply wp_mono; [|apply turn_skips; [done|done|done|lia|apply Hskip; lia]].
    intros [] s1 (HI1&Hat1&Hps). rewrite <- Hps. rewrite <- Hps in Hskip, Hrun.
    apply IH; [done|lia|done|lia| |done]. intros j Hj. apply Hskip. lia.
Qed.

End scan.

Lemma scheduler_dispatches_witness :
  wp (scan 0 0 1) ex_scan (λ _ s', c_proc (cpus s' 0) = Some O ∧ p_state (procs s' O) = RUNNING).
Proof.
  eapply wp_mono; [|apply (scheduler_dispatches 2151677952 0 0 ex_sys ex_scan 0 0 0)].
  - by intros [] s' (?&?&_).
  - apply ex_initial.
  - eapply rtc_once. eapply (st_scheduler _ _ _ _ _ 0); [simpl; lia|done..].
  - simpl. lia.
  - by vm_compute.
  - unfold NPROC. lia.
  - intros j Hj. lia.
  - by vm_compute.
Defined.

(** ** kill *)

(** C24: kill(0) finds the first UNUSED slot, whose pid is 0, returns 0 and
    leaves killed set in it; allocproc() does not clear the flag, so the next
    process that is created in the slot is born killed. *)
Theorem kill_zero_marks_unused `{M : machine} (kend forkret trapret : Z) (s0 s : sys) (c i : nat) :
  initial s0 → rtc (step kend forkret trapret) s0 s → (c < ncpu)%nat →
  owner s = None → holds (c_at (cpus s c)) = false → (i < NPROC)%nat →
  p_state (procs s i) = UNUSED → p_pid (procs s i) = 0 →
  (∀ j, (j < i)%nat → p_state (procs s j) ≠ UNUSED) →
  wp (kill c 0) s (λ r s1, r = 0 ∧ p_killed (procs s1 i) = 1 ∧
    ∀ np s2, allocproc c forkret trapret s1 = Ret (Some np) s2 →
      np = i ∧ p_killed (procs s2 i) = 1).
Proof.
  intros H0 Hr Hcpu Ho Hh Hi Hst Hpid Hbusy.
  pose proof (sched_reachable kend forkret trapret s0 s H0 Hr) as HI. clear H0 Hr.
  pose proof (I_procs _ HI) as HP.
  assert (Hfind : ∀ s1, procs s1 = procs s →
    find_proc (λ _ p, p_pid p =? 0) s1 = Ret (Some i) s1).
  { intros s1 Hps. pose proof (find_proc_spec (λ _ p, p_pid p =? 0) s1) as H.
    unfold wsafe in H. destruct (find_proc _ s1) as [o s2| | | |] eqn:E; try done.
    destruct H as [-> H]. clear E.
    rewrite Hps in H. destruct o as [k|].
    - destruct H as (Hk&Hp%Z.eqb_eq&Hx). f_equal. f_equal.
      destruct (decide (k < i)%nat) as [Hlt|]; [exfalso|].
      + assert (Hl : live (p_state (procs s k)) = true).
        { specialize (Hbusy k Hlt). by destruct (p_state (procs s k)). }
        apply (P_pid _ _ _ _ _ _ HP) in Hl. lia.
      + destruct (decide (i < k)%nat) as [Hlt|]; [|lia]. specialize (Hx i Hlt). simpl in Hx. lia.
    - specialize (H i Hi). simpl in H. lia. }
  destruct (outside_ginv s c _ HI Hcpu eq_refl Hh) as [HG _]. pose proof HG as [HC _ _].
  pose proof (G_irq _ _ _ _ _ HC) as [Hn0 _].
  unfold kill. apply wp_bind. pose proof (acquire_pt_cinv c s _ _ HC) as Hacq.
  pose proof (acquire_pt_free c s _ _ HC Ho) as Hret.
  unfold wsafe in Hacq. unfold wp at 1. destruct (acquire_pt c s) as [[] s1| | | |]; try done.
  destruct Hacq as [HC1 Hk1]. destruct (keeps_eq _ _ _ Hk1) as (Hps1&Hkc1&Hnp1&Hi1&Hat1).
  apply wp_bind. unfold wp at 1. rewrite Hfind by done. apply wp_after; [done|].
  apply wp_bind. change (wp (gets ?f) ?s ?Q) with (Q (f s) s). cbv beta.
  set (s2 := after (upd i (set_killed 1)) s1).
  assert (Hp2 : procs s2 i = set_killed 1 (procs s i)).
  { unfold s2. simpl. by rewrite fn_lookup_insert, Hps1. }
  assert (Hs2 : ∀ j, j ≠ i → procs s2 j = procs s j).
  { intros j Hj. unfold s2. simpl. by rewrite fn_lookup_insert_ne, Hps1. }
  assert (HC2 : cinv c true (ncli s c + 1) (at_proc (c_at (cpus s c))) s2) by (by eapply cinv_keeps).
  clearbody s2. rewrite Hp2. simpl p_state. rewrite Hst, bool_decide_eq_false_2 by done.
  apply wp_after; [done|]. change (after _ s2) with s2. apply wp_bind.
  pose proof (release_pt_cinv c s2 _ _ HC2 ltac:(lia)) as Hrel.
  pose proof (release_pt_returns c s2 _ _ HC2 ltac:(lia)) as Hret2. unfold wp, wsafe in *.
  destruct (release_pt c s2) as [[] s3| | | |]; try done. destruct Hrel as [HC3 Hk3].
  destruct (keeps_eq _ _ _ Hk3) as (Hps3&_).
  unfold mret, K_ret. rewrite Hps3, Hp2. split_and!; try done.
  intros np s4 Hal. pose proof (allocproc_effect forkret trapret s3 c _ _ HC3) as Heff.
  unfold wlp in Heff. rewrite Hal in Heff. destruct Heff as (_&_&_&_&[(?&_)|Heff]); [done|].
  destruct Heff as (np'&p'&k'&Hlt&Hst'&Hb'&Hps4&_&_&_&Hkl&_&[(?&_)|([= ->]&_)]); [done|].
  assert (np' = i) as ->.
  { rewrite Hps3 in Hst', Hb'. destruct (decide (np' < i)%nat) as [Hl|].
    - destruct (Hbusy _ Hl). by rewrite <- Hs2 by lia.
    - destruct (decide (i < np')%nat) as [Hl|]; [|lia]. destruct (Hb' i Hl). by rewrite Hp2. }
  split; [done|]. by rewrite Hps4, fn_lookup_insert, Hkl, Hps3, Hp2.
Qed.

Lemma wp_result {A} (m : K sys A) s Q : wp m s Q → ∃ r, Q r (after m s).
Proof. unfold wp, after. destruct (m s); try done. eauto. Qed.

Definition created (o : outcome sys (option nat)) : bool :=
  match o with Ret (Some _) _ => true | _ => false end.

Lemma kill_zero_marks_unused_witness :
  created (allocproc 0 0 0 (after (kill 0 0) ex_run)) = true ∧
  ∀ np s2, allocproc 0 0 0 (after (kill 0 0) ex_run) = Ret (Some np) s2 →
    np = 1%nat ∧ p_killed (procs s2 1) = 1.
Proof.
  split; [by vm_compute|].
  assert (H : wp (kill 0 0) ex_run (λ r s1, r = 0 ∧ p_killed (procs s1 1) = 1 ∧
    ∀ np s2, allocproc 0 0 0 s1 = Ret (Some np) s2 → np = 1%nat ∧ p_killed (procs s2 1) = 1)).
  { apply (kill_zero_marks_unused 2151677952 0 0 ex_sys ex_run 0 1 ex_initial (ex_reach _ _ _)).
    - simpl. lia.
    - by vm_compute.
    - by vm_compute.
    - unfold NPROC. lia.
    - by vm_compute.
    - by vm_compute.
    - intros j Hj. replace j with O by lia. by vm_compute. }
  destruct (wp_result _ _ _ H) as (r&_&_&Hal). exact Hal.
Defined.
