(* ===== verification/Monitor.v ===== *)
(** Objects protected by a spin lock whose operations wait with sleep() and
    wakeup() (the pattern of src/pipe.c, src/sleeplock.c, src/log.c, src/ide.c
    and the console).

    An operation runs from acquire(&lk) to release(&lk) or to sleep(chan, &lk),
    which releases lk and marks the process SLEEPING in one step (see Sched.v);
    as no other operation on the object runs in between, such a run is one step
    here.  A run works on the object and on the local variables of its call;
    the outcome [Sleep chan] leaves in the local variables what the loop around
    the sleep() goes on with when it has reacquired lk.  The wakeups of a run
    are collected and make the processes sleeping on those channels ready.

    [asleep_waits] is the property that makes such code right: if every run
    either keeps the condition of a channel or wakes the channel up, and goes
    to sleep only where the condition holds, then nobody ever sleeps on a
    channel whose condition does not hold. *)

From Stdlib Require Import ZArith Lia.
From stdpp Require Import base tactics numbers strings functions relations list.
From S2P Require Import Prelude.

(** What a run sees: the object, its local variables, the wakeups so far. *)
Record mst (O L : Type) := Mst { obj : O; loc : L; woke : list chan }.
Arguments Mst {O L} obj loc woke.
Arguments obj {O L} m.
Arguments loc {O L} m.
Arguments woke {O L} m.

Section ops.
Context {O L : Type}.

Definition wakeup (ch : chan) : K (mst O L) unit :=
  modify (λ m, Mst (obj m) (loc m) (ch :: woke m)).
Definition set_obj (f : O → O) : K (mst O L) unit :=
  modify (λ m, Mst (f (obj m)) (loc m) (woke m)).
Definition set_loc (f : L → L) : K (mst O L) unit :=
  modify (λ m, Mst (obj m) (f (loc m)) (woke m)).

(** [wrun m s Q R]: the run returns with [Q] or goes to sleep with [R]. *)
Definition wrun {A} (m : K (mst O L) A) (s : mst O L) (Q : A → mst O L → Prop)
    (R : chan → mst O L → Prop) : Prop :=
  match m s with Ret a s' => Q a s' | Sleep ch s' => R ch s' | _ => False end.

Lemma wrun_bind {A B} (m : K (mst O L) A) (k : A → K (mst O L) B) s Q R :
  wrun (m ≫= k) s Q R ↔ wrun m s (λ a s', wrun (k a) s' Q R) R.
Proof. unfold wrun, mbind, K_bind. by destruct (m s). Qed.
Lemma wrun_mono {A} (m : K (mst O L) A) s (Q Q' : A → mst O L → Prop) (R R' : chan → mst O L → Prop) :
  wrun m s Q R → (∀ a s', Q a s' → Q' a s') → (∀ ch s', R ch s' → R' ch s') → wrun m s Q' R'.
Proof. unfold wrun. destruct (m s); naive_solver. Qed.
End ops.

(** A process with respect to one object. *)
Inductive thread (L : Type) := TIdle | TReady (l : L) | TAsleep (ch : chan) (l : L).
Arguments TIdle {L}.
Arguments TReady {L} l.
Arguments TAsleep {L} ch l.

Definition roused {L} (chs : list chan) (t : thread L) : thread L :=
  match t with
  | TAsleep ch l => if decide (ch ∈ chs) then TReady l else t
  | _ => t
  end.

Section system.
Context {O L A : Type}.

(** The operations, as one body that looks at its local variables; it is given
    the process that runs it and whether that process has been killed. *)
Context (body : nat → bool → K (mst O L) A).
(** Calls that can be made in a state of the object. *)
Context (callable : O → nat → L → Prop).

Record msys := { m_obj : O; m_thr : nat → thread L; m_killed : nat → bool;
                 m_log : list (nat * L * A) }.

Inductive mstep (s s' : msys) : Prop :=
| ms_call p l :
    m_thr s p = TIdle → callable (m_obj s) p l →
    s' = {| m_obj := m_obj s; m_thr := <[p := TReady l]> (m_thr s); m_killed := m_killed s;
            m_log := m_log s |} → mstep s s'
| ms_return p l a st :
    m_thr s p = TReady l → body p (m_killed s p) (Mst (m_obj s) l []) = Ret a st →
    s' = {| m_obj := obj st; m_thr := <[p := TIdle]> (λ q, roused (woke st) (m_thr s q));
            m_killed := m_killed s; m_log := m_log s ++ [(p, loc st, a)] |} → mstep s s'
| ms_sleep p l ch st :
    m_thr s p = TReady l → body p (m_killed s p) (Mst (m_obj s) l []) = Sleep ch st →
    s' = {| m_obj := obj st;
            m_thr := <[p := TAsleep ch (loc st)]> (λ q, roused (woke st) (m_thr s q));
            m_killed := m_killed s; m_log := m_log s |} → mstep s s'
| ms_kill p :
    s' = {| m_obj := m_obj s;
            m_thr := <[p := match m_thr s p with TAsleep _ l => TReady l | t => t end]> (m_thr s);
            m_killed := <[p := true]> (m_killed s); m_log := m_log s |} → mstep s s'.

(** Nobody is inside an operation. *)
Definition quiet (s : msys) : Prop := (∀ p, m_thr s p = TIdle) ∧ m_log s = [].

(** ** Invariants *)

(** [I]: the object and the log of finished calls; [T]: the local variables of
    the calls in progress. *)
Definition run_keeps (I : O → list (nat * L * A) → Prop) (T : O → nat → L → Prop) : Prop :=
  ∀ p k o l log, I o log → T o p l →
    wrun (body p k) (Mst o l []) (λ a st, I (obj st) (log ++ [(p, loc st, a)]) ∧
        ∀ q l', T o q l' → q ≠ p → T (obj st) q l')
      (λ _ st, I (obj st) log ∧ T (obj st) p (loc st) ∧ ∀ q l', T o q l' → q ≠ p → T (obj st) q l').

Record minv (I : O → list (nat * L * A) → Prop) (T : O → nat → L → Prop) (s : msys) : Prop := {
  mi_obj : I (m_obj s) (m_log s);
  mi_thr p l : m_thr s p = TReady l ∨ (∃ ch, m_thr s p = TAsleep ch l) → T (m_obj s) p l
}.

Lemma roused_inv chs (t : thread L) l :
  (roused chs t = TReady l ∨ ∃ ch, roused chs t = TAsleep ch l) →
  (t = TReady l ∨ ∃ ch, t = TAsleep ch l).
Proof. destruct t; simpl; try case_decide; naive_solver. Qed.

Lemma minv_step I T s s' :
  run_keeps I T → (∀ o p l, callable o p l → T o p l) →
  mstep s s' → minv I T s → minv I T s'.
Proof.
  intros Hrun Hcall Hs [Ho Ht]. destruct Hs as [p l Hp Hc ->|p l a st Hp Hb ->|p l ch st Hp Hb ->|p ->].
  - split; simpl; [done|]. intros q l'. unfold insert, fn_insert. case_decide; [|by apply Ht].
    subst. intros [[= <-]|[ch Hch]]; [by apply Hcall|done].
  - pose proof (Hrun p (m_killed s p) _ l _ Ho (Ht p l (or_introl Hp))) as H.
    unfold wrun in H. rewrite Hb in H. destruct H as [H1 H2]. split; simpl; [done|].
    intros q l'. unfold insert, fn_insert. case_decide; [subst; intros [|[]]; done|].
    intros Hq%roused_inv. apply H2; [by apply Ht|done].
  - pose proof (Hrun p (m_killed s p) _ l _ Ho (Ht p l (or_introl Hp))) as H.
    unfold wrun in H. rewrite Hb in H. destruct H as (H1&H3&H2). split; simpl; [done|].
    intros q l'. unfold insert, fn_insert. case_decide.
    + subst. intros [|[ch' [= -> <-]]]; done.
    + intros Hq%roused_inv. apply H2; [by apply Ht|done].
  - split; simpl; [done|]. intros q l'. unfold insert, fn_insert. case_decide; [|by apply Ht].
    subst. intros Hq. apply Ht. destruct (m_thr s q); naive_solver.
Qed.

Lemma minv_reachable I T s0 s :
  run_keeps I T → (∀ o p l, callable o p l → T o p l) → quiet s0 → I (m_obj s0) [] →
  rtc mstep s0 s → minv I T s.
Proof.
  intros Hrun Hcall [Hq Hl] H0 Hr.
  assert (Hi : minv I T s0).
  { split; [by rewrite Hl|]. intros p l. rewrite Hq. by intros [|[]]. }
  clear Hq Hl H0. induction Hr as [|s1 s2 s3 Hs _ IH]; [done|]. eapply IH, minv_step; eauto.
Qed.

(** ** No wakeup is lost *)

(** [W ch o]: what a process sleeping on [ch] waits for has not happened. *)
Definition run_wakes (I : O → list (nat * L * A) → Prop) (T : O → nat → L → Prop)
    (W : chan → O → Prop) (k : bool) : Prop :=
  ∀ p o l log, I o log → T o p l →
    let wakes st := ∀ ch, W ch o → W ch (obj st) ∨ ch ∈ woke st in
    wrun (body p k) (Mst o l []) (λ _ st, wakes st) (λ ch st, wakes st ∧ W ch (obj st)).

Definition waiting (W : chan → O → Prop) (s : msys) : Prop :=
  ∀ p ch l, m_thr s p = TAsleep ch l → W ch (m_obj s).

Lemma roused_asleep chs (t : thread L) ch l :
  roused chs t = TAsleep ch l → t = TAsleep ch l ∧ ch ∉ chs.
Proof. destruct t; simpl; try case_decide; naive_solver. Qed.

(** Steps before which every process has a killed flag that [allowed] allows. *)
Definition mstep_if (allowed : bool → Prop) (s s' : msys) : Prop :=
  mstep s s' ∧ ∀ p, allowed (m_killed s p).

Lemma asleep_waits I T W (allowed : bool → Prop) s0 s :
  run_keeps I T → (∀ o p l, callable o p l → T o p l) →
  (∀ k, allowed k → run_wakes I T W k) →
  quiet s0 → I (m_obj s0) [] → rtc (mstep_if allowed) s0 s → waiting W s.
Proof.
  intros Hrun Hcall Hwk Hq0 H0 Hr.
  cut (minv I T s ∧ waiting W s); [by intros []|].
  assert (Hi : minv I T s0 ∧ waiting W s0).
  { split; [by eapply minv_reachable|]. intros p ch l. by rewrite (proj1 Hq0 p). }
  clear Hq0 H0. induction Hr as [|s1 s2 s3 [Hs Hal] _ IH]; [done|]. apply IH. clear IH.
  destruct Hi as [Hi Hw]. split; [by eapply minv_step|]. destruct Hi as [Ho Ht].
  destruct Hs as [p l Hp Hc ->|p l a st Hp Hb ->|p l ch st Hp Hb ->|p ->]; intros q ch' l'; simpl;
    unfold insert, fn_insert; case_decide as Hpq.
  - done.
  - apply Hw.
  - done.
  - intros [Hq Hn]%roused_asleep.
    pose proof (Hwk (m_killed s1 p) (Hal p) p _ l _ Ho (Ht p l (or_introl Hp))) as H.
    unfold wrun in H. rewrite Hb in H. destruct (H ch'); [by eapply Hw|done|done].
  - intros [= -> _]. pose proof (Hwk (m_killed s1 p) (Hal p) p _ l _ Ho (Ht p l (or_introl Hp))) as H.
    unfold wrun in H. rewrite Hb in H. apply H.
  - intros [Hq Hn]%roused_asleep.
    pose proof (Hwk (m_killed s1 p) (Hal p) p _ l _ Ho (Ht p l (or_introl Hp))) as H.
    unfold wrun in H. rewrite Hb in H. destruct H as [H _]. destruct (H ch'); [by eapply Hw|done|done].
  - subst. by destruct (m_thr s1 q).
  - apply Hw.
Qed.
End system.
