(* ===== verification/Pipe.v ===== *)
(** Pipes (src/pipe.c): the ring buffer, reads and writes with their waiting,
    and the closing of an end.  The operations are the bodies of a monitor
    (Monitor.v) whose lock is p->lock; a read returns the bytes it stores at
    addr. *)

From Stdlib Require Import ZArith Lia.
From stdpp Require Import base tactics numbers strings functions relations list.
From S2P Require Import Prelude Monitor.

#[local] Open Scope Z_scope.

Module Pipe.

Definition PIPESIZE : Z := 512.

Record pipe := {
  data : Z → Z;
  nread : Z;
  nwrite : Z;
  readopen : bool;
  writeopen : bool
}.

(** The part of pipealloc that sets up the new page. *)
Definition pipe_new (junk : Z → Z) : pipe :=
  {| data := junk; nread := 0; nwrite := 0; readopen := true; writeopen := true |}.

Definition put_byte (b : Z) (p : pipe) : pipe :=
  {| data := <[nwrite p mod PIPESIZE := b]> (data p); nread := nread p;
     nwrite := u32 (nwrite p + 1); readopen := readopen p; writeopen := writeopen p |}.
Definition take_byte (p : pipe) : pipe :=
  {| data := data p; nread := u32 (nread p + 1); nwrite := nwrite p;
     readopen := readopen p; writeopen := writeopen p |}.
Definition close_end (writable : bool) (p : pipe) : pipe :=
  {| data := data p; nread := nread p; nwrite := nwrite p;
     readopen := if writable then readopen p else false;
     writeopen := if writable then false else writeopen p |}.

(** A call in progress: a write of n bytes of which some are left, a read of at
    most n bytes, the closing of an end. *)
Inductive call := CWrite (n : Z) (todo : list Z) | CRead (n : Z) | CClose (writable : bool).

(** What a call returns: the value of pipewrite, that of piperead with the
    bytes read, and for pipeclose whether the page was freed. *)
Inductive ret := RWrite (r : Z) | RRead (r : Z) (bytes : list Z) | RClose (freed : bool).

Section ops.
(** The address of the pipe and the killed flag of the caller. *)
Context (a : Z) (killed : bool).
Abbreviation M := (K (mst pipe call)).

Fixpoint pipewrite (n : Z) (todo : list Z) : M ret :=
  match todo with
  | [] => wakeup (ChPipeRead a) ≫= λ _, mret (RWrite n)
  | b :: todo' =>
      gets obj ≫= λ p,
      if nwrite p =? u32 (nread p + PIPESIZE) then
        if negb (readopen p) || killed then mret (RWrite (-1)) else
        wakeup (ChPipeRead a) ≫= λ _,
        set_loc (λ _, CWrite n todo) ≫= λ _,
        sleep_on (ChPipeWrite a)
      else
        set_obj (put_byte b) ≫= λ _,
        set_loc (λ _, CWrite n todo') ≫= λ _,
        pipewrite n todo'
  end.

(** The copying loop of piperead, for [k] more bytes. *)
Fixpoint read_loop (k : nat) : M (list Z) :=
  match k with
  | O => mret []
  | S k' =>
      gets obj ≫= λ p,
      if nread p =? nwrite p then mret [] else
      set_obj take_byte ≫= λ _,
      read_loop k' ≫= λ bs, mret (data p (nread p mod PIPESIZE) :: bs)
  end.
Definition piperead (n : Z) : M ret :=
  gets obj ≫= λ p,
  if (nread p =? nwrite p) && writeopen p then
    if killed then mret (RRead (-1) []) else sleep_on (ChPipeRead a)
  else
    read_loop (Z.to_nat n) ≫= λ bs,
    wakeup (ChPipeWrite a) ≫= λ _,
    mret (RRead (Z.of_nat (length bs)) bs).

Definition pipeclose (writable : bool) : M ret :=
  set_obj (close_end writable) ≫= λ _,
  wakeup (if writable then ChPipeRead a else ChPipeWrite a) ≫= λ _,
  gets obj ≫= λ p,
  mret (RClose (negb (readopen p) && negb (writeopen p))).

Definition pipe_op : M ret :=
  gets loc ≫= λ c,
  match c with
  | CWrite n todo => pipewrite n todo
  | CRead n => piperead n
  | CClose w => pipeclose w
  end.
End ops.

(** ** The queue a pipe stands for *)

(** [q] is what the ring buffer holds. *)
Record holds (p : pipe) (q : list Z) : Prop := {
  h_nread : 0 ≤ nread p < 4294967296;
  h_nwrite : nwrite p = u32 (nread p + Z.of_nat (length q));
  h_size : Z.of_nat (length q) ≤ PIPESIZE;
  h_data i b : q !! i = Some b → data p (u32 (nread p + Z.of_nat i) mod PIPESIZE) = b
}.

Lemma slot_mod x : u32 x mod PIPESIZE = x mod PIPESIZE.
Proof. unfold u32, PIPESIZE. zlia. Qed.

Lemma holds_full p q : holds p q →
  (nwrite p =? u32 (nread p + PIPESIZE)) = bool_decide (Z.of_nat (length q) = PIPESIZE).
Proof.
  intros [Hr Hw Hs _]. rewrite Hw. unfold u32, PIPESIZE in *. apply eq_bool_prop_intro.
  rewrite bool_decide_spec, Is_true_true, Z.eqb_eq. zlia.
Qed.
Lemma holds_empty p q : holds p q → (nread p =? nwrite p) = bool_decide (q = []).
Proof.
  intros [Hr Hw Hs _]. rewrite Hw. unfold u32, PIPESIZE in *. apply eq_bool_prop_intro.
  rewrite bool_decide_spec, Is_true_true, Z.eqb_eq. destruct q as [|b q]; simpl in *.
  - rewrite Z.add_0_r, Z.mod_small by lia. done.
  - split; [zlia|done].
Qed.

Lemma holds_put p q b : holds p q → Z.of_nat (length q) < PIPESIZE → holds (put_byte b p) (q ++ [b]).
Proof.
  intros [Hr Hw Hs Hd] Hlt. unfold PIPESIZE in *. split; simpl; [done|..].
  - rewrite Hw, length_app. simpl. unfold u32. zlia.
  - rewrite length_app. unfold PIPESIZE. simpl. lia.
  - intros i c. rewrite slot_mod, Hw, slot_mod. unfold insert, fn_insert, PIPESIZE.
    intros [Hi|[Hge Hi]]%lookup_app_Some.
    + pose proof (lookup_lt_Some _ _ _ Hi). rewrite decide_False by zlia.
      apply Hd in Hi. by rewrite slot_mod in Hi.
    + destruct (i - length q)%nat eqn:E; simplify_eq/=. replace i with (length q) by lia.
      by rewrite decide_True.
Qed.

Lemma holds_take p b q : holds p (b :: q) →
  data p (nread p mod PIPESIZE) = b ∧ holds (take_byte p) q.
Proof.
  intros [Hr Hw Hs Hd]. simpl length in *. split.
  - specialize (Hd O b eq_refl). rewrite slot_mod in Hd. by rewrite Z.add_0_r in Hd.
  - split; simpl.
    + unfold u32. zlia.
    + rewrite Hw. unfold u32. zlia.
    + unfold PIPESIZE in *. lia.
    + intros i c Hi. rewrite slot_mod. specialize (Hd (S i) c Hi). rewrite slot_mod in Hd.
      rewrite <- Hd. f_equal. unfold u32, PIPESIZE. zlia.
Qed.

(** ** The operations on the queue *)

Section spec.
Context (a : Z) (killed : bool).

(** A write appends bytes until it is done, or until the queue is full; it then
    fails if nobody can read or it was killed, and sleeps otherwise.  Readers
    are woken unless the write fails. *)
Lemma pipewrite_spec n todo p q w :
  holds p q →
  wrun (pipewrite a killed n todo) (Mst p (CWrite n todo) w)
    (λ r st, ∃ k, holds (obj st) (q ++ take k todo) ∧ loc st = CWrite n (drop k todo) ∧
       readopen (obj st) = readopen p ∧ writeopen (obj st) = writeopen p ∧
       (r = RWrite n ∧ drop k todo = [] ∧ woke st = ChPipeRead a :: w ∨
        r = RWrite (-1) ∧ drop k todo ≠ [] ∧ (readopen p = false ∨ killed = true) ∧
        Z.of_nat (length (q ++ take k todo)) = PIPESIZE ∧ woke st = w))
    (λ ch st, ∃ k, holds (obj st) (q ++ take k todo) ∧ loc st = CWrite n (drop k todo) ∧
       readopen (obj st) = readopen p ∧ writeopen (obj st) = writeopen p ∧
       ch = ChPipeWrite a ∧ woke st = ChPipeRead a :: w ∧ drop k todo ≠ [] ∧
       readopen p = true ∧ killed = false ∧ Z.of_nat (length (q ++ take k todo)) = PIPESIZE).
Proof.
  revert p q. induction todo as [|b todo IH]; intros p q Hh; simpl pipewrite.
  { exists O. rewrite app_nil_r. simpl. split_and!; try done. by left. }
  apply wrun_bind. unfold wrun at 1, gets. simpl obj. rewrite (holds_full p q Hh).
  case_bool_decide as Hfull.
  - assert (Hq : q ++ take 0 (b :: todo) = q) by apply app_nil_r.
    destruct (negb (readopen p) || killed) eqn:E.
    + exists O. rewrite Hq. split_and!; try done. right. split_and!; try done.
      apply orb_true_iff in E as [E|E]; [left; by destruct (readopen p)|by right].
    + apply orb_false_iff in E as [E1 E2]. unfold wrun. simpl. exists O. rewrite Hq.
      split_and!; try done. by destruct (readopen p).
  - assert (Hlt : Z.of_nat (length q) < PIPESIZE) by (pose proof (h_size _ _ Hh); lia).
    pose proof (IH _ _ (holds_put p q b Hh Hlt)) as H. apply wrun_bind. unfold wrun at 1. simpl.
    eapply wrun_mono; [exact H|..].
    + intros r st (k&Hk). exists (S k). simpl. by rewrite cons_middle, (assoc_L (++)).
    + intros ch st (k&Hk). exists (S k). simpl. by rewrite cons_middle, (assoc_L (++)).
Qed.

Lemma read_loop_spec k p q l w :
  holds p q →
  wrun (read_loop k) (Mst p l w)
    (λ bs st, bs = take k q ∧ holds (obj st) (drop k q) ∧ loc st = l ∧ woke st = w ∧
       readopen (obj st) = readopen p ∧ writeopen (obj st) = writeopen p) (λ _ _, False).
Proof.
  revert p q. induction k as [|k IH]; intros p q Hh; simpl read_loop; [done|].
  apply wrun_bind. unfold wrun at 1, gets. simpl obj. rewrite (holds_empty p q Hh).
  case_bool_decide as Hq; [by subst|]. destruct q as [|b q]; [done|].
  destruct (holds_take p b q Hh) as [Hb Ht]. apply wrun_bind. unfold wrun at 1. simpl.
  apply wrun_bind. eapply wrun_mono; [apply (IH _ _ Ht)| |done].
  intros bs st (->&?&?&?&?&?). unfold wrun. simpl. by rewrite Hb.
Qed.

(** A read takes the first bytes of the queue, at most [n] of them, and wakes
    the writers; with an empty queue it sleeps while somebody can write. *)
Lemma piperead_spec n p q w :
  holds p q →
  wrun (piperead a killed n) (Mst p (CRead n) w)
    (λ r st, loc st = CRead n ∧ readopen (obj st) = readopen p ∧ writeopen (obj st) = writeopen p ∧
       (r = RRead (-1) [] ∧ q = [] ∧ writeopen p = true ∧ killed = true ∧ obj st = p ∧ woke st = w ∨
        (q ≠ [] ∨ writeopen p = false) ∧ woke st = ChPipeWrite a :: w ∧
        holds (obj st) (drop (Z.to_nat n) q) ∧
        r = RRead (Z.of_nat (length (take (Z.to_nat n) q))) (take (Z.to_nat n) q)))
    (λ ch st, ch = ChPipeRead a ∧ q = [] ∧ writeopen p = true ∧ killed = false ∧
       st = Mst p (CRead n) w).
Proof.
  intros Hh. unfold piperead. apply wrun_bind. unfold wrun at 1, gets. simpl obj.
  rewrite (holds_empty p q Hh).
  destruct (bool_decide (q = []) && writeopen p) eqn:E.
  - apply andb_true_iff in E as [Hq%bool_decide_eq_true Hw]. destruct killed; [|done].
    unfold wrun. simpl. split_and!; try done. by left.
  - apply wrun_bind. eapply wrun_mono; [by apply read_loop_spec| |done].
    intros bs st (->&?&?&Hw&?&?). unfold wrun. simpl. split_and!; try done. right.
    split_and!; try done; [|by rewrite Hw].
    apply andb_false_iff in E as [Hq%bool_decide_eq_false|]; auto.
Qed.
End spec.

(** ** The abstract pipe *)

(** A bounded queue of bytes with two ends; [spec_op] says at once what a run
    of a call does: the new queue, the channels it wakes, and its result or the
    channel it sleeps on with the call it goes on with. *)
Record queue := { content : list Z; ropen : bool; wopen : bool }.

Definition room (s : queue) : nat := Z.to_nat PIPESIZE - length (content s).
Definition with_content (q : list Z) (s : queue) : queue :=
  {| content := q; ropen := ropen s; wopen := wopen s |}.

Definition spec_op (a : Z) (killed : bool) (c : call) (s : queue) :
    queue * list chan * (ret + chan * call) :=
  match c with
  | CWrite n todo =>
      let s' := with_content (content s ++ take (room s) todo) s in
      if decide (length todo ≤ room s)%nat then (s', [ChPipeRead a], inl (RWrite n))
      else if negb (ropen s) || killed then (s', [], inl (RWrite (-1)))
      else (s', [ChPipeRead a], inr (ChPipeWrite a, CWrite n (drop (room s) todo)))
  | CRead n =>
      if bool_decide (content s = []) && wopen s then
        if killed then (s, [], inl (RRead (-1) [])) else (s, [], inr (ChPipeRead a, CRead n))
      else
        let bs := take (Z.to_nat n) (content s) in
        (with_content (drop (Z.to_nat n) (content s)) s, [ChPipeWrite a],
         inl (RRead (Z.of_nat (length bs)) bs))
  | CClose w =>
      let s' := {| content := content s; ropen := if w then ropen s else false;
                   wopen := if w then false else wopen s |} in
      (s', [if w then ChPipeRead a else ChPipeWrite a],
       inl (RClose (negb (ropen s') && negb (wopen s'))))
  end.

Definition models (p : pipe) (s : queue) : Prop :=
  holds p (content s) ∧ readopen p = ropen s ∧ writeopen p = wopen s.

(** A run has the outcome [out]: queue, wakeups, result or channel and call. *)
Definition run_as (m : K (mst pipe call) ret) (st : mst pipe call)
    (out : queue * list chan * (ret + chan * call)) : Prop :=
  wrun m st (λ r st', models (obj st') out.1.1 ∧ woke st' = out.1.2 ∧ out.2 = inl r)
    (λ ch st', models (obj st') out.1.1 ∧ woke st' = out.1.2 ∧ out.2 = inr (ch, loc st')).

Lemma write_fills a killed n todo p s :
  models p s →
  run_as (pipewrite a killed n todo) (Mst p (CWrite n todo) []) (spec_op a killed (CWrite n todo) s).
Proof.
  intros (Hh&Hro&Hwo). pose proof (h_size _ _ Hh) as Hsz.
  assert (Hfit : ∀ k, drop k todo = [] → take k todo = todo).
  { intros k Hk. rewrite <- (take_drop k todo) at 2. by rewrite Hk, app_nil_r. }
  assert (Hfull : ∀ k, drop k todo ≠ [] → Z.of_nat (length (content s ++ take k todo)) = PIPESIZE →
    k = room s ∧ ¬ (length todo ≤ room s)%nat).
  { intros k Hd Hl. assert (k < length todo)%nat.
    { destruct (decide (k < length todo)%nat); [done|]. by rewrite drop_ge in Hd by lia. }
    rewrite length_app, length_take_le in Hl by lia. unfold room, PIPESIZE in *. lia. }
  unfold run_as. eapply wrun_mono; [apply (pipewrite_spec a killed n todo p (content s) [] Hh)|..].
  - intros r st (k&Hk&Hl&E1&E2&[(->&Hd&Hw)|(->&Hd&Hc&Hsize&Hw)]); simpl.
    + rewrite (Hfit k Hd) in Hk.
      assert (Hle : (length todo ≤ room s)%nat).
      { pose proof (h_size _ _ Hk) as H. rewrite length_app in H. unfold room, PIPESIZE in *. lia. }
      rewrite decide_True by done. simpl. rewrite take_ge by done.
      split_and!; try (simpl; congruence). split_and!; (exact Hk || (simpl; congruence)).
    + destruct (Hfull k Hd Hsize) as [-> Hnle]. rewrite decide_False by done.
      replace (negb (ropen s) || killed) with true
        by (rewrite <- Hro; destruct Hc as [-> | ->]; [done|by rewrite orb_true_r]).
      split_and!; try (simpl; congruence). split_and!; (exact Hk || (simpl; congruence)).
  - intros ch st (k&Hk&Hl&E1&E2&->&Hw&Hd&Hr&Hkill&Hsize). simpl.
    destruct (Hfull k Hd Hsize) as [-> Hnle]. rewrite decide_False by done.
    rewrite <- Hro, Hr, Hkill. simpl. split_and!; try (simpl; congruence). split_and!; (exact Hk || (simpl; congruence)).
Qed.

Lemma read_takes a killed n p s :
  models p s →
  run_as (piperead a killed n) (Mst p (CRead n) []) (spec_op a killed (CRead n) s).
Proof.
  intros (Hh&Hro&Hwo). unfold run_as. simpl spec_op. rewrite <- Hwo.
  eapply wrun_mono; [apply (piperead_spec a killed n p (content s) [] Hh)|..].
  - intros r st (_&E1&E2&[(->&->&->&->&->&->)|(Hc&Hw&Hh'&->)]); simpl; [by split_and!; try done; split|].
    assert (bool_decide (content s = []) && writeopen p = false) as ->.
    { destruct Hc as [Hc|Hc]; [by rewrite bool_decide_eq_false_2|rewrite Hc; apply andb_false_r]. }
    split_and!; try done. split_and!; simpl; congruence.
  - intros ch st (->&->&->&->&->). simpl. by split_and!; try done; split.
Qed.

Lemma pipe_op_fills a killed c p s :
  models p s → run_as (pipe_op a killed) (Mst p c []) (spec_op a killed c s).
Proof.
  intros Hm. destruct c as [n todo|n|w]; [by apply write_fills|by apply read_takes|].
  destruct Hm as (Hh&Hro&Hwo). unfold run_as, wrun. simpl. split_and!; try done.
  - split_and!; simpl; [by destruct Hh|by destruct w|by destruct w].
  - by rewrite Hro, Hwo.
Qed.

(** C4: every run of pipewrite, piperead and pipeclose on the ring buffer, from
    taking p->lock to releasing it or sleeping, does exactly what [spec_op] says
    of a queue of at most 512 bytes: a write appends what fits, in order, and
    sleeps, fails or returns accordingly; a read takes from the front; the
    counters may wrap around at 2^32. *)
Theorem pipe_refines_queue (a : Z) (killed : bool) (c : call) (p : pipe) (s : queue) :
  models p s →
  match pipe_op a killed (Mst p c []), spec_op a killed c s with
  | Ret r st, (s', ws, inl r') => models (obj st) s' ∧ woke st = ws ∧ r = r'
  | Sleep ch st, (s', ws, inr (ch', c')) =>
      models (obj st) s' ∧ woke st = ws ∧ ch = ch' ∧ loc st = c'
  | _, _ => False
  end.
Proof.
  intros Hm%(pipe_op_fills a killed c). unfold run_as, wrun in Hm.
  destruct (pipe_op a killed _) as [r st| | |ch st|]; try done;
    destruct (spec_op _ _ _ _) as [[s' ws] out]; simpl in Hm; destruct Hm as (?&?&->); by split_and!.
Qed.

Definition queue_ex (q : list Z) : queue := {| content := q; ropen := true; wopen := true |}.
Definition pipe_ex : pipe :=
  {| data := <[0 := 65]> (<[511 := 66]> (λ _, 0)); nread := 4294967295; nwrite := 1;
     readopen := true; writeopen := true |}.

Lemma pipe_ex_models : models pipe_ex (queue_ex [66; 65]).
Proof.
  split; [|done]. split; try done. intros i b. destruct i as [|[|i]]; simpl; by intros [= <-].
Qed.

Lemma pipe_refines_queue_witness :
  match pipe_op 4096 false (Mst pipe_ex (CRead 5) []) with
  | Ret r st => models (obj st) (queue_ex []) ∧ r = RRead 2 [66; 65]
  | _ => False
  end.
Proof.
  pose proof (pipe_refines_queue 4096 false (CRead 5) pipe_ex (queue_ex [66; 65]) pipe_ex_models) as H.
  change (spec_op 4096 false (CRead 5) (queue_ex [66; 65])) with
    (queue_ex [], [ChPipeWrite 4096], @inl ret (chan * call) (RRead 2 [66; 65])) in H.
  destruct (pipe_op 4096 false _) as [r st| | | |]; try done. destruct H as (?&_&->). done.
Defined.

(** ** Waiting *)

(** What a sleeping process waits for has not happened: a reader, as long as
    its end is open, finds the pipe empty with writers left; a writer finds it
    full with readers left. *)
Definition blocked (a : Z) (ch : chan) (p : pipe) : Prop :=
  ch = ChPipeRead a ∧ (readopen p = true → nread p = nwrite p ∧ writeopen p = true) ∨
  ch = ChPipeWrite a ∧ (writeopen p = true → nwrite p = u32 (nread p + PIPESIZE) ∧ readopen p = true).

Definition blocked_queue (a : Z) (ch : chan) (s : queue) : Prop :=
  ch = ChPipeRead a ∧ (ropen s = true → content s = [] ∧ wopen s = true) ∨
  ch = ChPipeWrite a ∧ (wopen s = true → room s = 0%nat ∧ ropen s = true).

Lemma blocked_models a ch p s : models p s → blocked a ch p ↔ blocked_queue a ch s.
Proof.
  intros (Hh&Hro&Hwo). unfold blocked, blocked_queue. rewrite Hro, Hwo.
  pose proof (holds_empty _ _ Hh) as He. pose proof (holds_full _ _ Hh) as Hf.
  assert (nread p = nwrite p ↔ content s = []) as ->.
  { by rewrite <- Z.eqb_eq, He, bool_decide_eq_true. }
  assert (nwrite p = u32 (nread p + PIPESIZE) ↔ room s = 0%nat) as ->; [|done].
  rewrite <- Z.eqb_eq, Hf, bool_decide_eq_true. pose proof (h_size _ _ Hh). unfold room, PIPESIZE in *. lia.
Qed.

(** Abstractly, a call of a process that was not killed either leaves a sleeper
    blocked or wakes it, and sleeps only when it is blocked. *)
Lemma spec_op_wakes a c s :
  (length (content s) ≤ Z.to_nat PIPESIZE)%nat →
  let '(s', ws, out) := spec_op a false c s in
  (∀ ch, blocked_queue a ch s → blocked_queue a ch s' ∨ ch ∈ ws) ∧
  match out with inr (ch, _) => blocked_queue a ch s' | _ => True end.
Proof.
  intros Hs. destruct s as [q ro wo]; simpl in Hs. destruct c as [n todo|n|w]; simpl.
  - unfold room; simpl. case_decide as Hd; [|destruct ro; simpl].
    + split; [|done]. intros ch [[-> _]|[-> H]]; [right; set_solver|].
      left. right. split; [done|]. simpl. intros [Hr Hro]%H. unfold room in *; simpl in *.
      destruct todo; simpl in Hd; [|lia]. by rewrite take_nil, app_nil_r.
    + assert (Hfull : (Z.to_nat PIPESIZE - length (q ++ take (Z.to_nat PIPESIZE - length q) todo) = 0)%nat).
      { rewrite length_app, length_take_le by lia. lia. }
      split; [|right; split; [done|]; simpl; unfold room; by simpl].
      intros ch [[-> _]|[-> H]]; [right; set_solver|]. left; right. split; [done|].
      by simpl; unfold room; simpl.
    + split; [|done]. intros ch [[-> H]|[-> H]]; left; [left|right]; (split; [done|]); simpl; [done|].
      by intros [_ ?]%H.
  - case_bool_decide as Hq; simpl; [destruct wo; simpl|].
    + split; [by left|]. left. by split.
    + split; [|done]. intros ch [[-> H]|[-> H]]; [|right; set_solver].
      left; left. split; [done|]. simpl. by intros [_ ?]%H.
    + split; [|done]. intros ch [[-> H]|[-> H]]; [|right; set_solver].
      left; left. split; [done|]. simpl. by intros [? _]%H.
  - split; [|done]. intros ch [[-> H]|[-> H]]; destruct w; try (right; set_solver); left; [left|right];
      (split; [done|]); simpl; done.
Qed.

Definition pipe_sys := @msys pipe call ret.
Definition pipe_step (a : Z) : relation pipe_sys :=
  mstep (λ _ killed, pipe_op a killed) (λ _ _ _, True).

Definition pipe_ok (p : pipe) (_ : list (nat * call * ret)) : Prop := ∃ q, holds p q.

Lemma pipe_ok_models p log : pipe_ok p log → ∃ s, models p s ∧ (length (content s) ≤ Z.to_nat PIPESIZE)%nat.
Proof.
  intros [q Hq]. exists {| content := q; ropen := readopen p; wopen := writeopen p |}.
  split; [done|]. pose proof (h_size _ _ Hq). simpl. lia.
Qed.

Lemma pipe_run_keeps a : run_keeps (λ _ killed, pipe_op a killed) pipe_ok (λ _ _ _, True).
Proof.
  intros p k o l log (s&Hm&_)%pipe_ok_models _.
  eapply wrun_mono; [apply (pipe_op_fills a k l o s Hm)|..]; intros r st ((Hh&_)&_); repeat split; by eexists.
Qed.

Lemma pipe_run_wakes a : run_wakes (λ _ killed, pipe_op a killed) pipe_ok (λ _ _ _, True) (blocked a) false.
Proof.
  intros p o l log (s&Hm&Hs)%pipe_ok_models _ wakes.
  pose proof (spec_op_wakes a l s Hs) as Hk. pose proof (pipe_op_fills a false l o s Hm) as Hf.
  unfold run_as in Hf. destruct (spec_op a false l s) as [[s' ws] out]. destruct Hk as [Hk1 Hk2].
  assert (Hw : ∀ st, models (obj st) s' → woke st = ws → wakes st).
  { intros st Hst <- ch. rewrite (blocked_models _ _ _ _ Hm), (blocked_models _ _ _ _ Hst). apply Hk1. }
  eapply wrun_mono; [exact Hf|..]; simpl.
  - intros r st (Hst&Hw'&_). by apply Hw.
  - intros ch st (Hst&Hw'&->). split; [by apply Hw|]. by rewrite (blocked_models _ _ _ _ Hst).
Qed.

(** However the calls of any number of processes interleave, as long as none
    of them is killed, a process that sleeps in pipewrite or piperead has
    something to wait for: a reader whose end is open sleeps only while the
    pipe is empty and has writers, a writer only while it is full and has
    readers. *)
Lemma pipe_no_lost_wakeup (a : Z) (s0 s : pipe_sys) :
  quiet s0 → pipe_ok (m_obj s0) [] →
  rtc (λ s1 s2, pipe_step a s1 s2 ∧ ∀ i, m_killed s1 i = false) s0 s →
  ∀ i ch c, m_thr s i = TAsleep ch c → blocked a ch (m_obj s).
Proof.
  intros Hq H0 Hr.
  apply (asleep_waits (λ _ killed, pipe_op a killed) (λ _ _ _, True) pipe_ok (λ _ _ _, True)
    (blocked a) (λ k, k = false) s0 s (pipe_run_keeps a)); try done.
  intros k ->. apply pipe_run_wakes.
Qed.

Definition fresh (junk : Z → Z) : pipe_sys :=
  {| m_obj := pipe_new junk; m_thr := λ _, TIdle; m_killed := λ _, false; m_log := [] |}.

Lemma new_models junk : models (pipe_new junk) (queue_ex []).
Proof. split; [|done]. by split. Qed.

(** The run of a write that does not fit, of a killed process. *)
Lemma killed_write_run a n todo junk :
  (512 < length todo)%nat →
  ∃ st, pipe_op a true (Mst (pipe_new junk) (CWrite n todo) []) = Ret (RWrite (-1)) st ∧
    models (obj st) (queue_ex (take 512 todo)) ∧ woke st = [].
Proof.
  intros Hl. pose proof (pipe_op_fills a true (CWrite n todo) _ _ (new_models junk)) as H.
  unfold run_as, wrun in H. simpl spec_op in H. rewrite decide_False in H by (unfold room; simpl; lia).
  destruct (pipe_op a true _) as [r st| | |ch st|]; try done; destruct H as (Hm&Hw&Hr); simplify_eq/=.
  by exists st.
Qed.

(** With a killed writer a wakeup can be lost: a reader sleeps on the empty
    pipe, another process is killed while it writes more than 512 bytes, and
    its pipewrite fills the pipe and returns -1 without a wakeup; the reader
    sleeps on while 512 bytes are there for it. *)
Lemma killed_writer_strands_reader (a n m : Z) (todo : list Z) (junk : Z → Z) :
  (512 < length todo)%nat →
  ∃ s, rtc (pipe_step a) (fresh junk) s ∧ models (m_obj s) (queue_ex (take 512 todo)) ∧
    m_thr s 0%nat = TAsleep (ChPipeRead a) (CRead n) ∧ ∀ i, i ≠ 0%nat → m_thr s i = TIdle.
Proof.
  intros Hl. destruct (killed_write_run a m todo junk Hl) as (st&Hst&Hm&Hw).
  eexists. split; [|split; [|split]].
  - eapply rtc_l; [eapply ms_call with (p := 0%nat) (l := CRead n); done|].
    eapply rtc_l; [eapply ms_sleep with (p := 0%nat); done|].
    eapply rtc_l; [eapply ms_call with (p := 1%nat) (l := CWrite m todo); done|].
    eapply rtc_l; [eapply ms_kill with (p := 1%nat); done|].
    eapply rtc_l; [eapply ms_return with (p := 1%nat); [done|exact Hst|done]|done].
  - exact Hm.
  - simpl. by rewrite Hw.
  - intros [|[|i]] Hi; [done|done|]. simpl. by rewrite Hw.
Qed.

Lemma asleep_ex_reachable :
  rtc (λ s1 s2, pipe_step 4096 s1 s2 ∧ ∀ i, m_killed s1 i = false) (fresh (λ _, 0))
    {| m_obj := pipe_new (λ _, 0);
       m_thr := <[0%nat := TAsleep (ChPipeRead 4096) (CRead 10)]>
         (λ q, roused [] ((<[0%nat := TReady (CRead 10)]> (λ _, TIdle) : nat → thread call) q));
       m_killed := λ _, false; m_log := [] |}.
Proof.
  eapply rtc_l; [split; [eapply ms_call with (p := 0%nat) (l := CRead 10); done|done]|].
  eapply rtc_l; [split; [eapply ms_sleep with (p := 0%nat); done|done]|done].
Qed.

(** C25: however the calls of any number of processes interleave, as long as none of them is
    killed, a process that sleeps in pipewrite or piperead has something to wait for: a reader
    whose end is open sleeps only while the pipe is empty and has writers, a writer only while
    it is full and has readers.  With a killed writer a wakeup can be lost: a reader sleeps on
    the empty pipe, another process is killed while it writes more than 512 bytes, and its
    pipewrite fills the pipe and returns -1 without a wakeup; the reader sleeps on while 512
    bytes are there for it. *)
Theorem pipe_wakeups :
  (∀ (a : Z) (s0 s : pipe_sys),
    quiet s0 → pipe_ok (m_obj s0) [] →
    rtc (λ s1 s2, pipe_step a s1 s2 ∧ ∀ i, m_killed s1 i = false) s0 s →
    ∀ i ch c, m_thr s i = TAsleep ch c → blocked a ch (m_obj s)) ∧
  (∀ (a n m : Z) (todo : list Z) (junk : Z → Z),
    (512 < length todo)%nat →
    ∃ s, rtc (pipe_step a) (fresh junk) s ∧ models (m_obj s) (queue_ex (take 512 todo)) ∧
      m_thr s 0%nat = TAsleep (ChPipeRead a) (CRead n) ∧ ∀ i, i ≠ 0%nat → m_thr s i = TIdle).
Proof. split; [exact pipe_no_lost_wakeup|exact killed_writer_strands_reader]. Qed.

Lemma pipe_wakeups_witness :
  (blocked 4096 (ChPipeRead 4096) (pipe_new (λ _, 0))) ∧
  (∃ s, rtc (pipe_step 4096) (fresh (λ _, 0)) s ∧
    models (m_obj s) (queue_ex (take 512 (replicate 600 7))) ∧
    m_thr s 0%nat = TAsleep (ChPipeRead 4096) (CRead 10) ∧ ∀ i, i ≠ 0%nat → m_thr s i = TIdle).
Proof.
  split.
  { apply ((proj1 pipe_wakeups) 4096 (fresh (λ _, 0)) _ ltac:(by split)
             (ex_intro _ [] (proj1 (new_models _))) asleep_ex_reachable 0%nat (ChPipeRead 4096) (CRead 10)).
    reflexivity. }
  { apply ((proj2 pipe_wakeups) 4096 10 600 (replicate 600 7) (λ _, 0)).
    rewrite length_replicate. lia. }
Defined.
End Pipe.
