(* ===== verification/Sleeplock.v ===== *)
(** Sleep locks (src/sleeplock.c), as a monitor (Monitor.v) whose lock is the
    spin lock lk->lk of the sleep lock. *)

From Stdlib Require Import ZArith Lia.
From stdpp Require Import base tactics numbers strings functions relations list.
From S2P Require Import Prelude Monitor.

#[local] Open Scope Z_scope.

Module Sleeplock.

Record sleeplock := { locked : bool; pid : Z }.

Definition initsleeplock : sleeplock := {| locked := false; pid := 0 |}.

Section ops.
Context {L : Type}.
Abbreviation M := (K (mst sleeplock L)).

(** One run of acquiresleep of the lock with channel [ch] by the process with
    the given pid. *)
Definition acquiresleep (ch : chan) (mypid : Z) : M unit :=
  gets (locked ∘ obj) ≫= λ l,
  if l : bool then sleep_on ch else set_obj (λ _, {| locked := true; pid := mypid |}).

Definition releasesleep (ch : chan) : M unit :=
  set_obj (λ _, {| locked := false; pid := 0 |}) ≫= λ _, wakeup ch.

Definition holdingsleep : M bool := gets (locked ∘ obj).
End ops.

(** ** Processes that share a sleep lock *)

Inductive call := Acquire | Release.

Section system.
(** The channel of the lock and the pids of the processes, which differ
    (see the pids of the process table in Sched.v). *)
Context (ch : chan) (pid_of : nat → Z) (pid_inj : ∀ p q, pid_of p = pid_of q → p = q).

Definition lock_op (p : nat) (_ : bool) : K (mst sleeplock call) unit :=
  gets loc ≫= λ c,
  match c with
  | Acquire => acquiresleep ch (pid_of p)
  | Release => releasesleep ch
  end.

(** A process releases only a lock that it holds. *)
Definition lock_callable (o : sleeplock) (p : nat) (c : call) : Prop :=
  c = Release → locked o = true ∧ pid o = pid_of p.

Abbreviation sys := (@msys sleeplock call unit).
Definition lock_step : relation sys := mstep lock_op lock_callable.

(** Who holds the lock after the finished calls [log]; [None] when the calls
    do not alternate properly: somebody acquires a lock that is held, or
    releases one that it does not hold. *)
Fixpoint holder (own : option nat) (log : list (nat * call * unit)) : option (option nat) :=
  match log with
  | [] => Some own
  | (p, c, _) :: log' =>
      match c, own with
      | Acquire, None => holder (Some p) log'
      | Release, Some q => if decide (p = q) then holder None log' else None
      | _, _ => None
      end
  end.

Definition lock_ok (o : sleeplock) (log : list (nat * call * unit)) : Prop :=
  ∃ own, holder None log = Some own ∧
    match own with
    | Some p => o = {| locked := true; pid := pid_of p |}
    | None => locked o = false
    end.

Lemma holder_app own log own' log' :
  holder own log = Some own' → holder own (log ++ log') = holder own' log'.
Proof.
  revert own. induction log as [|[[p c] []] log IH]; intros own; simpl; [by intros [= ->]|].
  destruct c, own; try done; [apply IH|]. case_decide; [apply IH|done].
Qed.

Lemma lock_run_keeps : run_keeps lock_op lock_ok lock_callable.
Proof.
  intros p k o c log (own&Hown&Ho) Hc. unfold wrun, lock_op, mbind, K_bind, gets; simpl.
  destruct c; simpl.
  - unfold acquiresleep, mbind, K_bind, gets; simpl. destruct (locked o) eqn:E; simpl.
    + split_and!; [exists own; by destruct own|done|done].
    + destruct own as [q|]; [by subst o|]. split.
      * exists (Some p). by rewrite (holder_app _ _ _ _ Hown).
      * intros q l Hq Hne ->. specialize (Hq eq_refl) as [H _]. congruence.
  - destruct (Hc eq_refl) as [Hl Hp]. destruct own as [q|]; [|congruence]. subst o; simpl in *.
    apply pid_inj in Hp as ->. split.
    + exists None. rewrite (holder_app _ _ _ _ Hown). simpl. by rewrite decide_True.
    + intros q l Hq Hne ->. specialize (Hq eq_refl) as [_ Hq]. simpl in Hq.
      apply pid_inj in Hq. by subst.
Qed.

Definition lock_waits (c : chan) (o : sleeplock) : Prop := c = ch ∧ locked o = true.

Lemma lock_run_wakes k : run_wakes lock_op lock_ok lock_callable lock_waits k.
Proof.
  intros p o c log _ _ wakes. unfold wrun, lock_op, mbind, K_bind, gets; simpl. destruct c; simpl.
  - unfold acquiresleep, mbind, K_bind, gets; simpl. destruct (locked o) eqn:E; simpl.
    + split; [by left|done].
    + intros c [-> H]. congruence.
  - intros c [-> _]. right. set_solver.
Qed.

(** C16: whatever the interleaving, if processes release only locks they hold,
    the finished acquiresleep and releasesleep calls alternate: the lock has at
    most one holder, which is the process that releases it next; and a process
    sleeps in acquiresleep only while the lock is held, so no wakeup is lost. *)
Theorem sleeplock_exclusion (s0 s : sys) :
  quiet s0 → m_obj s0 = initsleeplock → rtc lock_step s0 s →
  (∃ own, holder None (m_log s) = Some own ∧ (own ≠ None ↔ locked (m_obj s) = true)) ∧
  ∀ p c l, m_thr s p = TAsleep c l → c = ch ∧ locked (m_obj s) = true.
Proof.
  intros Hq H0 Hr. assert (Hok : lock_ok (m_obj s0) []) by (rewrite H0; by exists None).
  split.
  - pose proof (minv_reachable _ _ _ _ _ _ lock_run_keeps (λ _ _ _ H, H) Hq Hok Hr) as [(own&Ho&Hm) _].
    exists own. split; [done|]. destruct own; [rewrite Hm|rewrite Hm]; by split.
  - apply (asleep_waits lock_op lock_callable lock_ok lock_callable lock_waits (λ _, True) s0 s
      lock_run_keeps (λ _ _ _ H, H) (λ k _, lock_run_wakes k) Hq Hok).
    clear -Hr. induction Hr as [|x y z Hs _ IH]; [done|]. by eapply rtc_l.
Qed.
End system.

(** Two processes; the second one waits while the first one holds the lock. *)
Definition sys_new : @msys sleeplock call unit :=
  {| m_obj := initsleeplock; m_thr := λ _, TIdle; m_killed := λ _, false; m_log := [] |}.

Lemma sys_new_run : ∃ s, rtc (lock_step (ChSleeplock 0) Z.of_nat) sys_new s ∧
  m_thr s 1%nat = TAsleep (ChSleeplock 0) Acquire.
Proof.
  eexists. split.
  - eapply rtc_l; [eapply ms_call with (p := 0%nat) (l := Acquire); done|].
    eapply rtc_l; [eapply ms_return with (p := 0%nat); done|].
    eapply rtc_l; [eapply ms_call with (p := 1%nat) (l := Acquire); done|].
    eapply rtc_l; [eapply ms_sleep with (p := 1%nat); done|done].
  - done.
Qed.

Lemma sleeplock_exclusion_witness : ∃ s, rtc (lock_step (ChSleeplock 0) Z.of_nat) sys_new s ∧
  locked (m_obj s) = true.
Proof.
  destruct sys_new_run as (s&Hr&Hs). exists s. split; [exact Hr|].
  apply (proj2 (sleeplock_exclusion (ChSleeplock 0) Z.of_nat Nat2Z.inj sys_new s
    ltac:(by split) eq_refl Hr) 1%nat _ _ Hs).
Defined.
End Sleeplock.
