(* ===== verification/Buf.v ===== *)
(** Disk buffers (src/buf.h) and the disk driver under the buffer cache: the
    in-memory disk of src/memide.c, and the contract [DiskDriver] that the
    buffer cache (Bio.v) relies on.

    Routines here and in Bio.v run for one process at a time; a spin lock is
    taken and released within a routine and is left out, a sleep lock that is
    held makes the routine end in [Sleep].  Of memmove() between two data
    arrays of BSIZE bytes the effect is that the whole array is assigned. *)

From Stdlib Require Import ZArith Lia.
From stdpp Require Import base tactics numbers gmap strings functions list.
From S2P Require Import Prelude Memory Monitor Sleeplock.
Export Sleeplock.

#[local] Open Scope Z_scope.

Definition BSIZE : Z := 512.
Definition NBUF : nat := 30.
Definition ROOTDEV : Z := 1.
Definition B_VALID : Z := 2.
Definition B_DIRTY : Z := 4.

Record buf := {
  flags : Z;
  dev : Z;
  blockno : Z;
  lock : sleeplock;
  refcnt : Z;
  prev : nat;
  next : nat;
  data : mem
}.

Definition set_flags f b := {| flags := f; dev := dev b; blockno := blockno b; lock := lock b;
  refcnt := refcnt b; prev := prev b; next := next b; data := data b |}.
Definition set_lock l b := {| flags := flags b; dev := dev b; blockno := blockno b; lock := l;
  refcnt := refcnt b; prev := prev b; next := next b; data := data b |}.
Definition set_refcnt r b := {| flags := flags b; dev := dev b; blockno := blockno b; lock := lock b;
  refcnt := r; prev := prev b; next := next b; data := data b |}.
Definition set_prev p b := {| flags := flags b; dev := dev b; blockno := blockno b; lock := lock b;
  refcnt := refcnt b; prev := p; next := next b; data := data b |}.
Definition set_next n b := {| flags := flags b; dev := dev b; blockno := blockno b; lock := lock b;
  refcnt := refcnt b; prev := prev b; next := n; data := data b |}.
Definition set_data d b := {| flags := flags b; dev := dev b; blockno := blockno b; lock := lock b;
  refcnt := refcnt b; prev := prev b; next := next b; data := d |}.

(** Buffer [NBUF] is bcache.head.  [past] lists what was on the disk before
    each of the writes so far, the latest first. *)
Definition head : nat := NBUF.
Record bst := {
  bufs : nat → buf;
  disk : Z → mem;
  past : list (Z → mem);
  disksize : Z;
  mypid : Z
}.

Definition set_bufs f s := {| bufs := f (bufs s); disk := disk s; past := past s;
  disksize := disksize s; mypid := mypid s |}.
Definition upd_buf (i : nat) (f : buf → buf) : bst → bst := set_bufs (λ bs, <[i := f (bs i)]> bs).
Definition disk_write (b : Z) (d : mem) (s : bst) : bst :=
  {| bufs := bufs s; disk := <[b := d]> (disk s); past := disk s :: past s;
     disksize := disksize s; mypid := mypid s |}.

Definition valid (b : buf) : bool := truth (Z.land (flags b) B_VALID).
Definition dirty (b : buf) : bool := truth (Z.land (flags b) B_DIRTY).

(** The sleep lock of buffer [i]. *)
Definition on_lock {A} (i : nat) (m : K (mst sleeplock unit) A) : K bst A :=
  zoom (λ s, Mst (lock (bufs s i)) tt []) (λ m, upd_buf i (set_lock (obj m))) m.

(** ** src/memide.c *)

Module Memide.
Definition iderw (i : nat) : K bst unit :=
  on_lock i holdingsleep ≫= λ h,
  if negb h then panic "iderw: buf not locked" else
  gets (λ s, bufs s i) ≫= λ b,
  if Z.land (flags b) (Z.lor B_VALID B_DIRTY) =? B_VALID then panic "iderw: nothing to do" else
  if negb (dev b =? 1) then panic "iderw: request not for disk 1" else
  gets disksize ≫= λ sz,
  if sz <=? blockno b then panic "iderw: block out of range" else
  (if truth (Z.land (flags b) B_DIRTY) then
     modify (upd_buf i (set_flags (Z.ldiff (flags b) B_DIRTY))) ≫= λ _,
     modify (disk_write (blockno b) (data b))
   else
     gets disk ≫= λ d, modify (upd_buf i (set_data (d (blockno b))))) ≫= λ _,
  modify (upd_buf i (λ b, set_flags (Z.lor (flags b) B_VALID) b)).
End Memide.

(** ** The flags *)

Lemma truth_land_pow f k : 0 ≤ k → truth (Z.land f (2 ^ k)) = Z.testbit f k.
Proof.
  intros Hk. unfold truth. destruct (Z.testbit f k) eqn:E.
  - destruct (Z.eqb_spec (Z.land f (2 ^ k)) 0) as [H|]; [|done].
    apply (f_equal (λ x, Z.testbit x k)) in H. revert H.
    by rewrite Z.land_spec, E, Z.pow2_bits_true, Z.testbit_0_l.
  - replace (Z.land f (2 ^ k)) with 0; [done|]. symmetry. apply Z.bits_inj_0. intros n.
    rewrite Z.land_spec. destruct (decide (n = k)) as [->|]; [by rewrite E|].
    by rewrite Z.pow2_bits_false, andb_false_r.
Qed.
Lemma valid_bit b : valid b = Z.testbit (flags b) 1.
Proof. apply (truth_land_pow _ 1). done. Qed.
Lemma dirty_bit b : dirty b = Z.testbit (flags b) 2.
Proof. apply (truth_land_pow _ 2). done. Qed.

Lemma flags_nothing_to_do b :
  (Z.land (flags b) (Z.lor B_VALID B_DIRTY) =? B_VALID) = valid b && negb (dirty b).
Proof.
  rewrite valid_bit, dirty_bit. apply eq_bool_prop_intro.
  rewrite !Is_true_true, Z.eqb_eq, andb_true_iff, negb_true_iff. split.
  - intros H. split; [apply (f_equal (λ x, Z.testbit x 1)) in H|apply (f_equal (λ x, Z.testbit x 2)) in H];
      rewrite Z.land_spec in H; cbn in H; by rewrite andb_true_r in H.
  - intros [H1 H2]. apply Z.bits_inj'. intros n Hn. rewrite Z.land_spec.
    destruct (decide (n = 1)) as [->|]; [by rewrite H1|].
    destruct (decide (n = 2)) as [->|]; [by rewrite H2|].
    assert (Z.testbit B_VALID n = false) as -> by (apply (Z.pow2_bits_false 1); lia).
    change (Z.lor B_VALID B_DIRTY) with (Z.lor (2 ^ 1) (2 ^ 2)).
    by rewrite Z.lor_spec, !Z.pow2_bits_false, andb_false_r by lia.
Qed.

Lemma valid_set_valid f b : valid (set_flags (Z.lor f B_VALID) b) = true.
Proof. rewrite valid_bit. cbn [flags set_flags]. by rewrite Z.lor_spec, orb_true_r. Qed.
Lemma dirty_set_valid f b : dirty (set_flags (Z.lor f B_VALID) b) = Z.testbit f 2.
Proof. rewrite dirty_bit. cbn [flags set_flags]. by rewrite Z.lor_spec, orb_false_r. Qed.
Lemma dirty_set_dirty f b : dirty (set_flags (Z.lor f B_DIRTY) b) = true.
Proof. rewrite dirty_bit. cbn [flags set_flags]. by rewrite Z.lor_spec, orb_true_r. Qed.
Lemma valid_set_dirty f b : valid (set_flags (Z.lor f B_DIRTY) b) = Z.testbit f 1.
Proof. rewrite valid_bit. cbn [flags set_flags]. by rewrite Z.lor_spec, orb_false_r. Qed.
Lemma testbit_clear_dirty f k : 0 ≤ k → Z.testbit (Z.ldiff f B_DIRTY) k = Z.testbit f k && negb (k =? 2).
Proof.
  intros Hk. rewrite Z.ldiff_spec. f_equal. f_equal. change B_DIRTY with (2 ^ 2).
  rewrite Z.pow2_bits_eqb by done. apply Z.eqb_sym.
Qed.

(** ** The contract of a disk driver *)

(** [s'] is [s] with buffer [i] replaced by [b]. *)
Definition buf_is (i : nat) (b : buf) (s s' : bst) : Prop :=
  bufs s' i = b ∧ (∀ j, j ≠ i → bufs s' j = bufs s j) ∧
  disksize s' = disksize s ∧ mypid s' = mypid s.
Definition same_disk (s s' : bst) : Prop := disk s' = disk s ∧ past s' = past s.

(** What iderw does to a locked buffer of a block of the disk: it reads a
    buffer that is not valid and writes one that is dirty; both leave it valid
    and clean. *)
Class DiskDriver (iderw : nat → K bst unit) : Prop := {
  iderw_read s i :
    locked (lock (bufs s i)) = true → valid (bufs s i) = false → dirty (bufs s i) = false →
    dev (bufs s i) = ROOTDEV → 0 ≤ blockno (bufs s i) < disksize s →
    wp (iderw i) s (λ _ s', ∃ f, Z.testbit f 1 = true ∧ Z.testbit f 2 = false ∧
      buf_is i (set_flags f (set_data (disk s (blockno (bufs s i))) (bufs s i))) s s' ∧
      same_disk s s');
  iderw_write s i :
    locked (lock (bufs s i)) = true → dirty (bufs s i) = true →
    dev (bufs s i) = ROOTDEV → 0 ≤ blockno (bufs s i) < disksize s →
    wp (iderw i) s (λ _ s', ∃ f, Z.testbit f 1 = true ∧ Z.testbit f 2 = false ∧
      buf_is i (set_flags f (bufs s i)) s s' ∧
      disk s' = <[blockno (bufs s i) := data (bufs s i)]> (disk s) ∧ past s' = disk s :: past s)
}.

Lemma upd_buf_same i f s : bufs (upd_buf i f s) i = f (bufs s i).
Proof. apply fn_lookup_insert. Qed.
Lemma upd_buf_other i f s j : j ≠ i → bufs (upd_buf i f s) j = bufs s j.
Proof. intros. by apply fn_lookup_insert_ne. Qed.

Lemma buf_is_upd i f s : buf_is i (f (bufs s i)) s (upd_buf i f s).
Proof. split_and!; try done; [apply upd_buf_same|]. intros. by apply upd_buf_other. Qed.
Lemma buf_is_trans i b b' s s' s'' : buf_is i b s s' → buf_is i b' s' s'' → buf_is i b' s s''.
Proof.
  intros (H1&H2&H3&H4) (H1'&H2'&H3'&H4'). split_and!; try congruence.
  intros j Hj. by rewrite H2', H2.
Qed.
Lemma buf_is_write i b x d s s' : buf_is i b s s' → buf_is i b s (disk_write x d s').
Proof. done. Qed.
Lemma buf_is_eq i b b' s s' : b = b' → buf_is i b s s' → buf_is i b' s s'.
Proof. by intros ->. Qed.

Lemma set_lock_id b : set_lock (lock b) b = b.
Proof. by destruct b. Qed.

(** Reading a lock leaves the buffers as they are. *)
Lemma on_lock_holding i s :
  ∃ s', on_lock i holdingsleep s = Ret (locked (lock (bufs s i))) s' ∧
    buf_is i (bufs s i) s s' ∧ same_disk s s'.
Proof.
  eexists. split; [done|]. split; [|done].
  eapply buf_is_eq; [apply set_lock_id|apply (buf_is_upd i (set_lock (lock (bufs s i))))].
Qed.

(** The in-memory disk is a disk driver. *)
#[export] Instance memide_driver : DiskDriver Memide.iderw.
Proof.
  split.
  - intros s i Hl Hv Hd Hdev Hb. unfold Memide.iderw. wpb.
    destruct (on_lock_holding i s) as (s1&->&Hs1&Hdk1). rewrite Hl. simpl negb. cbv iota.
    wpb. cbn [gets]. destruct Hs1 as (E1&E2&E3&E4). rewrite E1.
    rewrite flags_nothing_to_do, Hv, Hdev. simpl andb. cbv iota. wpb. cbn [gets].
    rewrite E3. destruct (Z.leb_spec (disksize s) (blockno (bufs s i))); [lia|].
    fold (dirty (bufs s i)). rewrite Hd. unfold wp. cbn -[Z.lor Z.testbit Z.ldiff].
    exists (Z.lor (flags (bufs s i)) B_VALID). split_and!.
    + by rewrite Z.lor_spec, orb_true_r.
    + rewrite Z.lor_spec, orb_false_r. by rewrite <- dirty_bit.
    + eapply buf_is_eq; [|eapply buf_is_trans; [exact (conj E1 (conj E2 (conj E3 E4)))|];
        eapply buf_is_trans; [apply buf_is_upd|apply buf_is_upd]].
      rewrite upd_buf_same, E1. destruct Hdk1 as [-> _]. done.
    + done.
  - intros s i Hl Hd Hdev Hb. unfold Memide.iderw. wpb.
    destruct (on_lock_holding i s) as (s1&->&Hs1&Hdk1). rewrite Hl. simpl negb. cbv iota.
    wpb. cbn [gets]. destruct Hs1 as (E1&E2&E3&E4). rewrite E1.
    rewrite flags_nothing_to_do, Hd, andb_false_r, Hdev. simpl negb. cbv iota. wpb. cbn [gets].
    rewrite E3. destruct (Z.leb_spec (disksize s) (blockno (bufs s i))); [lia|].
    fold (dirty (bufs s i)). rewrite Hd. unfold wp. cbn -[Z.lor Z.testbit Z.ldiff].
    exists (Z.lor (Z.ldiff (flags (bufs s i)) B_DIRTY) B_VALID). split_and!.
    + by rewrite Z.lor_spec, orb_true_r.
    + rewrite Z.lor_spec, orb_false_r, testbit_clear_dirty by done. apply andb_false_r.
    + eapply buf_is_eq; [|eapply buf_is_trans; [exact (conj E1 (conj E2 (conj E3 E4)))|];
        eapply buf_is_trans; [apply buf_is_write, buf_is_upd|]; apply buf_is_upd].
      cbn [bufs disk_write]. rewrite upd_buf_same, E1. done.
    + destruct Hdk1 as [Hdk _]. cbn. by rewrite Hdk.
    + destruct Hdk1 as [Hdk Hpast]. cbn. by rewrite Hdk, Hpast.
Qed.
