(* ===== verification/Bio.v ===== *)
(** The buffer cache (src/bio.c).

    The cache is the ring of struct buf of the source, linked through prev and
    next in LRU order, and is run against any disk driver (Buf.v).  [rep] relates
    it to a [view], which is what the layers above see: the current content of
    every block, what is on the disk, which blocks are held by somebody and
    which are pinned in the cache because they are dirty.  The lemmas
    [bread_spec], [bwrite_spec], [brelse_spec] say what the operations do to the
    view; the cache itself, its recycling of buffers and the order of the ring
    no longer show. *)

From Stdlib Require Import ZArith Lia.
From stdpp Require Import base tactics numbers gmap strings functions list.
From S2P Require Import Prelude Memory Monitor Sleeplock Buf.

#[local] Open Scope Z_scope.

(** ** The operations *)

Definition recycle (d b : Z) (x : buf) : buf :=
  {| flags := 0; dev := d; blockno := b; lock := lock x; refcnt := 1;
     prev := prev x; next := next x; data := data x |}.

(** Linking buffer [b] in behind the head of the ring. *)
Definition link_front (b : nat) : K bst unit :=
  gets (λ s, next (bufs s head)) ≫= λ n,
  modify (upd_buf b (set_next n)) ≫= λ _,
  modify (upd_buf b (set_prev head)) ≫= λ _,
  gets (λ s, next (bufs s head)) ≫= λ n,
  modify (upd_buf n (set_prev b)) ≫= λ _,
  modify (upd_buf head (set_next b)).

Definition binit_buf (b : nat) : K bst unit :=
  gets (λ s, next (bufs s head)) ≫= λ n,
  modify (upd_buf b (set_next n)) ≫= λ _,
  modify (upd_buf b (set_prev head)) ≫= λ _,
  modify (upd_buf b (set_lock initsleeplock)) ≫= λ _,
  gets (λ s, next (bufs s head)) ≫= λ n,
  modify (upd_buf n (set_prev b)) ≫= λ _,
  modify (upd_buf head (set_next b)).

Definition binit : K bst unit :=
  modify (upd_buf head (set_prev head)) ≫= λ _,
  modify (upd_buf head (set_next head)) ≫= λ _,
  for_each (seq 0 NBUF) binit_buf.

(** [for(b = b0; b != &bcache.head; b = step(b)) if(test(b)) ...] *)
Fixpoint find_buf (fuel : nat) (step : buf → nat) (test : buf → bool) (b : nat) : K bst (option nat) :=
  if (b =? head)%nat then mret None else
  match fuel with
  | O => diverge
  | S fuel' =>
      gets (λ s, bufs s b) ≫= λ x,
      if test x then mret (Some b) else find_buf fuel' step test (step x)
  end.

Definition acquire_buf (b : nat) : K bst unit :=
  gets mypid ≫= λ p, on_lock b (acquiresleep (ChSleeplock b) p).

Definition bget (d bno : Z) : K bst nat :=
  gets (λ s, next (bufs s head)) ≫= λ b0,
  find_buf NBUF next (λ x, (dev x =? d) && (blockno x =? bno)) b0 ≫= λ o,
  match o with
  | Some b =>
      modify (upd_buf b (λ x, set_refcnt (u32 (refcnt x + 1)) x)) ≫= λ _,
      acquire_buf b ≫= λ _, mret b
  | None =>
      gets (λ s, prev (bufs s head)) ≫= λ b0,
      find_buf NBUF prev (λ x, (refcnt x =? 0) && (Z.land (flags x) B_DIRTY =? 0)) b0 ≫= λ o,
      match o with
      | Some b => modify (upd_buf b (recycle d bno)) ≫= λ _, acquire_buf b ≫= λ _, mret b
      | None => panic "bget: no buffers"
      end
  end.

Section driver.
Context (iderw : nat → K bst unit).

Definition bread (d bno : Z) : K bst nat :=
  bget d bno ≫= λ b,
  gets (λ s, bufs s b) ≫= λ x,
  when (Z.land (flags x) B_VALID =? 0) (iderw b) ≫= λ _, mret b.

Definition bwrite (b : nat) : K bst unit :=
  on_lock b holdingsleep ≫= λ h,
  if negb h then panic "bwrite" else
  modify (upd_buf b (λ x, set_flags (Z.lor (flags x) B_DIRTY) x)) ≫= λ _, iderw b.
End driver.

(** Taking buffer [b] out of the ring. *)
Definition unlink (b : nat) : K bst unit :=
  gets (λ s, bufs s b) ≫= λ x,
  modify (upd_buf (next x) (set_prev (prev x))) ≫= λ _,
  gets (λ s, bufs s b) ≫= λ x,
  modify (upd_buf (prev x) (set_next (next x))).

Definition brelse (b : nat) : K bst unit :=
  on_lock b holdingsleep ≫= λ h,
  if negb h then panic "brelse" else
  on_lock b (releasesleep (ChSleeplock b)) ≫= λ _,
  modify (upd_buf b (λ x, set_refcnt (u32 (refcnt x - 1)) x)) ≫= λ _,
  gets (λ s, refcnt (bufs s b)) ≫= λ r,
  when (r =? 0) (unlink b ≫= λ _, link_front b).

(** ** The ring *)

(** [a] comes right before [b] in [c]. *)
Fixpoint adj (c : list nat) (a b : nat) : Prop :=
  match c with [] => False | x :: c' => a = x ∧ c' !! 0%nat = Some b ∨ adj c' a b end.

(** The head and the buffers [l] are linked in a ring, forwards through [nx]
    and backwards through [pv]. *)
Record ring (nx pv : nat → nat) (l : list nat) : Prop := {
  ring_links a b : adj (head :: l ++ [head]) a b → nx a = b ∧ pv b = a;
  ring_perm : l ≡ₚ seq 0 NBUF
}.

Lemma adj_app xs p ys a b : adj (xs ++ p :: ys) a b ↔ adj (xs ++ [p]) a b ∨ adj (p :: ys) a b.
Proof.
  induction xs as [|x xs IH]; simpl app; [simpl; naive_solver|].
  simpl adj in *. rewrite IH. destruct xs; simpl; tauto.
Qed.
Lemma adj_rev c a b : adj (rev c) a b → adj c b a.
Proof.
  induction c as [|x c IH]; [done|]. simpl rev. destruct c as [|y c]; [by intros [[_ ?]|]|].
  simpl rev in *. rewrite <- (assoc_L (++)). simpl app. rewrite adj_app.
  intros [H|H]; [right; by apply IH|]. simpl in H. left. naive_solver.
Qed.
Lemma adj_in c a b : adj c a b → a ∈ c ∧ b ∈ tail c.
Proof.
  induction c as [|x c IH]; [done|]. intros [[-> H]|H]; simpl.
  - split; [left|]. by eapply list_elem_of_lookup_2.
  - apply IH in H as [? H]. split; [by right|]. destruct c; [done|by right].
Qed.

Lemma ring_ext nx pv nx' pv' l :
  (∀ i, nx' i = nx i) → (∀ i, pv' i = pv i) → ring nx pv l → ring nx' pv' l.
Proof. intros Hn Hp [Hl Hm]. split; [|done]. intros a b. rewrite Hn, Hp. apply Hl. Qed.

Lemma ring_elem nx pv l i : ring nx pv l → i ∈ l ↔ (i < NBUF)%nat.
Proof. intros [_ Hp]. rewrite Hp, elem_of_seq. lia. Qed.
Lemma ring_nodup nx pv l : ring nx pv l → NoDup l.
Proof. intros [_ Hp]. rewrite Hp. apply NoDup_seq. Qed.

(** Taking [i] out leaves the others linked. *)
Lemma ring_unlink nx pv l1 i l2 :
  ring nx pv (l1 ++ i :: l2) →
  ∀ a b, adj (head :: l1 ++ l2 ++ [head]) a b →
    (<[pv i := nx i]> nx : nat → nat) a = b ∧ (<[nx i := pv i]> pv : nat → nat) b = a.
Proof.
  intros Hr. pose proof (ring_nodup _ _ _ Hr) as Hnd. pose proof (ring_elem _ _ _ i Hr) as Hi.
  destruct Hr as [Hl _]. assert (i < NBUF)%nat by (apply Hi; set_solver).
  destruct (last (head :: l1)) as [p|] eqn:Hp; [|by apply last_None in Hp].
  apply last_Some in Hp as [xs Hxs].
  assert (∃ n ys, l2 ++ [head] = n :: ys) as (n&ys&Hys) by (destruct l2; simpl; eauto).
  rewrite <- (assoc_L (++)) in Hl. simpl app in Hl. rewrite Hys in *. 
  change (head :: l1 ++ i :: n :: ys) with ((head :: l1) ++ i :: n :: ys) in Hl.
  change (head :: l1 ++ n :: ys) with ((head :: l1) ++ n :: ys).
  rewrite Hxs in *. rewrite <- (assoc_L (++)) in *. simpl app in *.
  assert (Hin : ∀ a b, adj (xs ++ [p]) a b ∨ adj (n :: ys) a b ∨ (a = p ∧ b = i) ∨ (a = i ∧ b = n) →
    nx a = b ∧ pv b = a).
  { intros a b H'. apply Hl. rewrite adj_app. simpl. simpl in H'. naive_solver. }
  destruct (Hin p i ltac:(tauto)) as [_ Hpi]. destruct (Hin i n ltac:(tauto)) as [Hin' _].
  rewrite Hpi, Hin'. intros a b Hab.
  assert (Hni : ∀ x, x ∈ xs ++ p :: n :: ys → x ≠ i).
  { intros x Hx ->. change (xs ++ p :: n :: ys) with (xs ++ [p] ++ n :: ys) in Hx.
    rewrite (assoc_L (++)), <- Hxs, <- Hys in Hx.
    apply NoDup_app in Hnd as (_&Hd1&[Hd2 _]%NoDup_cons). specialize (Hd1 i).
    assert (i ≠ head) by (unfold head; lia). set_solver. }
  assert (Hnot : a ≠ i ∧ b ≠ i).
  { apply adj_in in Hab as [Ha Hb]. split; apply Hni; [done|].
    destruct xs; simpl in *; set_solver. }
  assert (Hold : nx a = b ∧ pv b = a → a ≠ p ∧ b ≠ n).
  { destruct (Hin p i ltac:(tauto)) as [Hpi' _]. destruct (Hin i n ltac:(tauto)) as [_ Hni'].
    intros [H1 H2]. split; intros ->; destruct Hnot; congruence. }
  apply adj_app in Hab as [Hab|[[-> [= ->]]|Hab]]; [..|by rewrite !fn_lookup_insert|].
  all: destruct (Hin a b ltac:(tauto)) as [H1 H2]; destruct (Hold (conj H1 H2)).
  all: by rewrite !fn_lookup_insert_ne.
Qed.

(** Linking [i] in behind the head. *)
Lemma ring_link nx pv l i :
  (∀ a b, adj (head :: l ++ [head]) a b → nx a = b ∧ pv b = a) → NoDup (l ++ [head]) → i ∉ l → i ≠ head →
  let n := nx head in
  ∀ a b, adj (head :: i :: l ++ [head]) a b →
    (<[head := i]> (<[i := n]> nx) : nat → nat) a = b ∧ (<[n := i]> (<[i := head]> pv) : nat → nat) b = a.
Proof.
  intros Hl Hnd Hi Hh n. assert (∃ ys, l ++ [head] = n :: ys) as (ys&Hys).
  { destruct (l ++ [head]) as [|n' ys] eqn:E; [by destruct l|].
    destruct (Hl head n') as [Hn _]; [by left|]. subst n. rewrite Hn. eauto. }
  rewrite Hys in *. assert (Hni : i ∉ n :: ys) by (rewrite <- Hys; set_solver).
  assert (n ≠ i) by set_solver.
  intros a b [[-> [= <-]]|[[-> [= <-]]|Hab]].
  - rewrite fn_lookup_insert. by rewrite fn_lookup_insert_ne, fn_lookup_insert.
  - rewrite fn_lookup_insert_ne, !fn_lookup_insert by done. done.
  - destruct (Hl a b) as [H1 H2]; [by right|]. pose proof (adj_in _ _ _ Hab) as [Ha Hb]. simpl in Hb.
    assert (a ≠ i) by set_solver. assert (b ≠ i) by set_solver.
    assert (b ≠ n) by (apply NoDup_cons in Hnd as [Hnd _]; set_solver).
    assert (a ≠ head) by (intros ->; subst n; congruence).
    by rewrite !fn_lookup_insert_ne.
Qed.

(** Walking along the ring. *)
Fixpoint walk (f : nat → nat) (x : nat) (l : list nat) : Prop :=
  match l with [] => x = head | y :: l' => x = y ∧ y ≠ head ∧ walk f (f y) l' end.

Lemma walk_adj f x l :
  (∀ a b, adj (x :: l ++ [head]) a b → f a = b) → head ∉ l → walk f (f x) l.
Proof.
  revert x. induction l as [|y l IH]; intros x Hl Hh; simpl; [apply Hl; by left|].
  split; [apply Hl; by left|]. split; [set_solver|]. apply IH; [|set_solver].
  intros a b H. apply Hl. by right.
Qed.

Lemma ring_walk nx pv l : ring nx pv l → walk nx (nx head) l ∧ walk pv (pv head) (rev l).
Proof.
  intros Hr. assert (Hh : head ∉ l) by (rewrite (ring_elem _ _ _ _ Hr); unfold head; lia).
  destruct Hr as [Hl _]. split; apply walk_adj.
  - intros a b H. by apply Hl.
  - done.
  - intros a b H. apply Hl, adj_rev. simpl rev. by rewrite rev_app_distr.
  - by rewrite list_elem_of_In, <- in_rev, <- list_elem_of_In.
Qed.

Lemma wp_find_buf step test l x s :
  walk (λ i, step (bufs s i)) x l →
  ∀ fuel, (length l ≤ fuel)%nat →
  wp (find_buf fuel step test x) s (λ o s', s' = s ∧
    match o with
    | Some b => b ∈ l ∧ test (bufs s b) = true
    | None => ∀ b, b ∈ l → test (bufs s b) = false
    end).
Proof.
  revert x. induction l as [|y l IH]; intros x Hw fuel Hf.
  - simpl in Hw. subst x. destruct fuel; (split; [done|]; set_solver).
  - destruct Hw as (->&Hy&Hw). simpl in Hf. destruct fuel as [|fuel]; [lia|]. simpl find_buf.
    rewrite (proj2 (Nat.eqb_neq y head)) by done. wpb. cbn [gets].
    destruct (test (bufs s y)) eqn:E; [split; [done|]; split; [left|done]|].
    eapply wp_mono; [|apply IH; [exact Hw|lia]]. intros [b|] s' [-> Hb]; (split; [done|]).
    + split; [right|]; apply Hb.
    + intros b [->|?]%elem_of_cons; [done|]. by apply Hb.
Qed.

(** ** The view of the cache *)

Record view := {
  v_cont : Z → mem;
  v_disk : Z → mem;
  v_past : list (Z → mem);
  v_size : Z;
  v_held : gset Z;
  v_pin : gset Z
}.

Definition hold b v := {| v_cont := v_cont v; v_disk := v_disk v; v_past := v_past v;
  v_size := v_size v; v_held := {[b]} ∪ v_held v; v_pin := v_pin v |}.
Definition unhold b v := {| v_cont := v_cont v; v_disk := v_disk v; v_past := v_past v;
  v_size := v_size v; v_held := v_held v ∖ {[b]}; v_pin := v_pin v |}.
Definition pin b v := {| v_cont := v_cont v; v_disk := v_disk v; v_past := v_past v;
  v_size := v_size v; v_held := v_held v; v_pin := {[b]} ∪ v_pin v |}.
Definition store b d v := {| v_cont := <[b := d]> (v_cont v); v_disk := v_disk v; v_past := v_past v;
  v_size := v_size v; v_held := v_held v; v_pin := v_pin v |}.
Definition flush b v := {| v_cont := v_cont v; v_disk := <[b := v_cont v b]> (v_disk v);
  v_past := v_disk v :: v_past v; v_size := v_size v; v_held := v_held v; v_pin := v_pin v ∖ {[b]} |}.

(** A buffer that was never used, or that caches a block. *)
Record caches (v : view) (x : buf) : Prop := {
  c_dev : dev x = ROOTDEV;
  c_block : 0 ≤ blockno x < v_size v;
  c_ref : refcnt x = if locked (lock x) then 1 else 0;
  c_held : locked (lock x) = true ↔ blockno x ∈ v_held v;
  c_pin : dirty x = true ↔ blockno x ∈ v_pin v;
  c_valid : locked (lock x) = true ∨ dirty x = true → valid x = true;
  c_data : valid x = true → data x = v_cont v (blockno x)
}.
Definition unused (x : buf) : Prop :=
  dev x = 0 ∧ flags x = 0 ∧ refcnt x = 0 ∧ locked (lock x) = false.

Abbreviation nexts s := (λ i, next (bufs s i)).
Abbreviation prevs s := (λ i, prev (bufs s i)).

Record rep (s : bst) (v : view) : Prop := {
  r_ring : ∃ l, ring (nexts s) (prevs s) l;
  r_buf i : (i < NBUF)%nat → unused (bufs s i) ∨ caches v (bufs s i);
  r_uniq i j : (i < NBUF)%nat → (j < NBUF)%nat → dev (bufs s i) = ROOTDEV → dev (bufs s j) = ROOTDEV →
    blockno (bufs s i) = blockno (bufs s j) → i = j;
  r_cover b : b ∈ v_held v ∪ v_pin v →
    ∃ i, (i < NBUF)%nat ∧ dev (bufs s i) = ROOTDEV ∧ blockno (bufs s i) = b;
  r_clean b : b ∉ v_held v ∪ v_pin v → v_cont v b = v_disk v b;
  r_disk : disk s = v_disk v;
  r_past : past s = v_past v;
  r_size : disksize s = v_size v
}.

(** Buffer [i] is locked and holds block [b]. *)
Definition holds (s : bst) (i : nat) (b : Z) : Prop :=
  (i < NBUF)%nat ∧ dev (bufs s i) = ROOTDEV ∧ blockno (bufs s i) = b ∧ locked (lock (bufs s i)) = true.

Lemma rep_holds s v i b : rep s v → holds s i b →
  caches v (bufs s i) ∧ b ∈ v_held v ∧ 0 ≤ b < v_size v ∧ valid (bufs s i) = true ∧
  data (bufs s i) = v_cont v b.
Proof.
  intros Hr (Hi&Hd&<-&Hl). destruct (r_buf _ _ Hr i Hi) as [(Hu&_)|Hc]; [by rewrite Hu in Hd|].
  pose proof Hc as [? ? ? Hh ? Hv Hdt]. split_and!; try done; [by apply Hh|lia|lia|by auto|by auto].
Qed.

(** The update of one buffer. *)
Lemma rep_update s v s' v' i x :
  rep s v → (i < NBUF)%nat → buf_is i x s s' →
  next x = next (bufs s i) → prev x = prev (bufs s i) → caches v' x →
  (∀ j, (j < NBUF)%nat → j ≠ i → dev (bufs s j) = ROOTDEV → blockno (bufs s j) ≠ blockno x) →
  (∀ j, (j < NBUF)%nat → j ≠ i → caches v (bufs s j) → caches v' (bufs s j)) →
  (∀ b, b ∈ v_held v' ∪ v_pin v' → b = blockno x ∨
     b ∈ v_held v ∪ v_pin v ∧ (dev (bufs s i) = ROOTDEV → blockno (bufs s i) ≠ b)) →
  (∀ b, b ∉ v_held v' ∪ v_pin v' → v_cont v' b = v_disk v' b) →
  disk s' = v_disk v' → past s' = v_past v' → v_size v' = v_size v →
  rep s' v'.
Proof.
  intros [(l&Hl) Hb Hu Hc Hcl Hd Hp Hz] Hi (E1&E2&E3&E4) Hn Hpv Hx Hne Hfr Hcov Hcl' Hd' Hp' Hz'.
  assert (Hs' : ∀ j, bufs s' j = if decide (j = i) then x else bufs s j).
  { intros j. case_decide; [by subst|by apply E2]. }
  split; try done.
  - exists l. eapply ring_ext; [..|exact Hl]; intros j; simpl; rewrite Hs'; case_decide; by subst.
  - intros j Hj. rewrite Hs'. case_decide; [by right|]. destruct (Hb j Hj); [by left|right; by apply Hfr].
  - intros j k Hj Hk. rewrite !Hs'. case_decide; case_decide; subst; try done; [..|by apply Hu].
    + intros _ Hdk Heq. by destruct (Hne k Hk ltac:(done) Hdk).
    + intros Hdj _ Heq. by destruct (Hne j Hj ltac:(done) Hdj).
  - intros b Hbin. destruct (Hcov b Hbin) as [->|[Hold Hnot]].
    + exists i. rewrite Hs', decide_True by done. split_and!; [done|apply Hx|done].
    + destruct (Hc b Hold) as (j&Hj&Hdj&Hbj). exists j. rewrite Hs'. rewrite decide_False; [done|].
      intros ->. by apply Hnot.
  - congruence.
Qed.

(** [v] and [v'] say the same of all blocks but [b]. *)
Definition agree_off (b : Z) (v v' : view) : Prop :=
  v_size v' = v_size v ∧ ∀ b', b' ≠ b →
    (b' ∈ v_held v' ↔ b' ∈ v_held v) ∧ (b' ∈ v_pin v' ↔ b' ∈ v_pin v) ∧
    v_cont v' b' = v_cont v b' ∧ v_disk v' b' = v_disk v b'.

Lemma caches_agree b v v' x : agree_off b v v' → blockno x ≠ b → caches v x → caches v' x.
Proof.
  intros [Hz Ha] Hne [? ? ? Hh Hp Hv Hd]. destruct (Ha _ Hne) as (E1&E2&E3&E4).
  split; try done; [by rewrite Hz|by rewrite E1|by rewrite E2|by rewrite E3].
Qed.

(** A change of what is known of one block, through the buffer that has it or
    that is given to it. *)
Lemma rep_block s v s' v' i x b :
  rep s v → (i < NBUF)%nat → buf_is i x s s' →
  next x = next (bufs s i) → prev x = prev (bufs s i) → blockno x = b →
  caches v' x → agree_off b v v' →
  (∀ j, (j < NBUF)%nat → j ≠ i → dev (bufs s j) = ROOTDEV → blockno (bufs s j) ≠ b) →
  (dev (bufs s i) = ROOTDEV → blockno (bufs s i) = b ∨ blockno (bufs s i) ∉ v_held v ∪ v_pin v) →
  (b ∉ v_held v' ∪ v_pin v' → v_cont v' b = v_disk v' b) →
  disk s' = v_disk v' → past s' = v_past v' → rep s' v'.
Proof.
  intros Hr Hi Hb Hn Hp <- Hx Ha Hoth Hold Hcl Hd Hpa.
  eapply (rep_update s v s' v' i x); try done.
  - intros j Hj Hji Hc. eapply caches_agree; [done| |done]. apply Hoth; try done. apply Hc.
  - intros b' Hb'. destruct (decide (b' = blockno x)) as [->|Hne]; [by left|right].
    destruct Ha as [_ Ha]. destruct (Ha b' Hne) as (E1&E2&_).
    assert (b' ∈ v_held v ∪ v_pin v) as Hb'' by (rewrite elem_of_union, <- E1, <- E2; by apply elem_of_union).
    split; [done|]. intros Hdev <-. destruct (Hold Hdev); [by apply Hne|done].
  - intros b' Hb'. destruct (decide (b' = blockno x)) as [->|Hne]; [by apply Hcl|].
    destruct Ha as [_ Ha]. destruct (Ha b' Hne) as (E1&E2&E3&E4). rewrite E3, E4.
    apply (r_clean _ _ Hr). rewrite elem_of_union, <- E1, <- E2. by rewrite <- elem_of_union.
  - apply Ha.
Qed.

(** The same for a buffer that keeps its block. *)
Lemma rep_buf s v s' v' i x b :
  rep s v → holds s i b → buf_is i x s s' →
  next x = next (bufs s i) → prev x = prev (bufs s i) → blockno x = b →
  caches v' x → agree_off b v v' →
  (b ∉ v_held v' ∪ v_pin v' → v_cont v' b = v_disk v' b) →
  disk s' = v_disk v' → past s' = v_past v' → rep s' v'.
Proof.
  intros Hr (Hi&Hd&Hb&Hl) Hbuf Hn Hp Hbx Hx Ha Hcl Hd' Hp'.
  eapply (rep_block s v s' v' i x b); try done.
  - intros j Hj Hji Hdj Hbj. apply Hji, (r_uniq _ _ Hr); congruence.
  - intros _. by left.
Qed.

Lemma agree_hold b v : agree_off b v (hold b v).
Proof. split; [done|]. intros b' Hb'. split_and!; try done; simpl. set_solver. Qed.
Lemma agree_unhold b v : agree_off b v (unhold b v).
Proof. split; [done|]. intros b' Hb'. split_and!; try done; simpl. set_solver. Qed.
Lemma agree_pin b v : agree_off b v (pin b v).
Proof. split; [done|]. intros b' Hb'. split_and!; try done; simpl. set_solver. Qed.
Lemma agree_store b d v : agree_off b v (store b d v).
Proof. split; [done|]. intros b' Hb'. split_and!; try done; simpl. by rewrite fn_lookup_insert_ne. Qed.
Lemma agree_flush b v : agree_off b v (flush b v).
Proof.
  split; [done|]. intros b' Hb'. split_and!; try done; simpl; [set_solver|]. by rewrite fn_lookup_insert_ne.
Qed.
#[local] Hint Resolve agree_hold agree_unhold agree_pin agree_store agree_flush : core.

(** When fewer blocks than buffers are in use, a buffer can be recycled. *)
Lemma rep_free s v : rep s v → (size (v_held v ∪ v_pin v) < NBUF)%nat →
  ∃ i, (i < NBUF)%nat ∧ refcnt (bufs s i) = 0 ∧ dirty (bufs s i) = false.
Proof.
  intros Hr Hsz.
  destruct (decide (Exists (λ i, refcnt (bufs s i) = 0 ∧ dirty (bufs s i) = false) (seq 0 NBUF))) as [He|Hn].
  { apply Exists_exists in He as (i&Hi%elem_of_seq&H). exists i. split; [lia|done]. }
  exfalso. rewrite <- Forall_Exists_neg, Forall_forall in Hn.
  assert (Hin : ∀ i, i ∈ seq 0 NBUF → dev (bufs s i) = ROOTDEV ∧ blockno (bufs s i) ∈ v_held v ∪ v_pin v).
  { intros i Hi. pose proof (Hn i Hi) as Hni. apply elem_of_seq in Hi.
    destruct (r_buf _ _ Hr i ltac:(lia)) as [(_&Hf&Hrf&_)|Hc].
    - destruct Hni. split; [done|]. unfold dirty. by rewrite Hf.
    - split; [apply Hc|]. rewrite elem_of_union, <- (c_held _ _ Hc), <- (c_pin _ _ Hc).
      pose proof (c_ref _ _ Hc) as Hrf. destruct (locked _); [by left|right].
      destruct (dirty (bufs s i)); [done|]. by destruct Hni. }
  assert (Hnd : NoDup ((λ i, blockno (bufs s i)) <$> seq 0 NBUF)).
  { apply NoDup_fmap_2_strong; [|apply NoDup_seq]. intros i j Hi Hj Heq.
    apply (r_uniq _ _ Hr); [..|done]; try (by apply Hin); apply elem_of_seq in Hi, Hj; lia. }
  assert (Hsub : list_to_set ((λ i, blockno (bufs s i)) <$> seq 0 NBUF) ⊆ v_held v ∪ v_pin v).
  { intros b Hb%elem_of_list_to_set. apply list_elem_of_fmap in Hb as (i&->&Hi). by apply Hin. }
  apply subseteq_size in Hsub. rewrite size_list_to_set in Hsub by done.
  rewrite length_fmap, length_seq in Hsub. lia.
Qed.

(** ** bread *)

Lemma acquire_buf_free i s : locked (lock (bufs s i)) = false →
  wp (acquire_buf i) s (λ _ s',
    buf_is i (set_lock {| locked := true; pid := mypid s |} (bufs s i)) s s' ∧ same_disk s s').
Proof.
  intros Hl. unfold acquire_buf, wp, mbind, K_bind, gets, on_lock, zoom, acquiresleep, compose; simpl.
  unfold mbind, K_bind, gets; simpl. rewrite Hl. simpl. split; [|done]. apply (buf_is_upd i (set_lock _)).
Qed.

(** What bget returns: the buffer of the block, or a recycled one. *)
Definition got (s : bst) (v : view) (b : Z) (i : nat) (x : buf) : Prop :=
  next x = next (bufs s i) ∧ prev x = prev (bufs s i) ∧ dev x = ROOTDEV ∧ blockno x = b ∧
  refcnt x = 1 ∧ locked (lock x) = true ∧
  (flags x = flags (bufs s i) ∧ data x = data (bufs s i) ∧
     dev (bufs s i) = ROOTDEV ∧ blockno (bufs s i) = b ∨
   flags x = 0 ∧ (∀ j, (j < NBUF)%nat → dev (bufs s j) = ROOTDEV → blockno (bufs s j) ≠ b) ∧
     (dev (bufs s i) = ROOTDEV → blockno (bufs s i) ∉ v_held v ∪ v_pin v)).

Lemma buf_wf s v i : rep s v → (i < NBUF)%nat →
  (refcnt (bufs s i) = if locked (lock (bufs s i)) then 1 else 0) ∧
  (dev (bufs s i) = ROOTDEV → caches v (bufs s i)) ∧
  (dev (bufs s i) = ROOTDEV → refcnt (bufs s i) = 0 → dirty (bufs s i) = false →
     blockno (bufs s i) ∉ v_held v ∪ v_pin v).
Proof.
  intros Hr Hi. destruct (r_buf _ _ Hr i Hi) as [(Hd&_&Hrf&Hl)|Hc].
  - rewrite Hd, Hl, Hrf. done.
  - split; [apply Hc|]. split; [done|]. intros _ Hrf Hdt.
    rewrite elem_of_union, <- (c_held _ _ Hc), <- (c_pin _ _ Hc), Hdt.
    rewrite (c_ref _ _ Hc) in Hrf. destruct (locked _); [done|]. naive_solver.
Qed.

Lemma bget_spec s v b :
  rep s v → 0 ≤ b < v_size v → b ∉ v_held v → (size ({[b]} ∪ v_held v ∪ v_pin v) ≤ NBUF)%nat →
  wp (bget ROOTDEV b) s (λ i s', (i < NBUF)%nat ∧ ∃ x, got s v b i x ∧ buf_is i x s s' ∧ same_disk s s').
Proof.
  intros Hr Hb Hh Hsz. destruct (r_ring _ _ Hr) as [l Hl]. pose proof (ring_walk _ _ _ Hl) as [Hw1 Hw2].
  assert (Hlen : length l = NBUF) by (rewrite (ring_perm _ _ _ Hl); apply length_seq).
  unfold bget. wpb. cbn [gets]. apply wp_bind.
  eapply wp_mono; [|apply (wp_find_buf next _ _ _ s Hw1); lia].
  intros [i|] s' [-> Hf]; cbv beta iota.
  - destruct Hf as [Hi [Ed%Z.eqb_eq Eb%Z.eqb_eq]%andb_true_iff].
    rewrite (ring_elem _ _ _ _ Hl) in Hi. destruct (buf_wf _ _ i Hr Hi) as (Hrf&Hc&_).
    specialize (Hc Ed). pose proof (c_held _ _ Hc) as Hhi. rewrite Eb in Hhi.
    destruct (locked (lock (bufs s i))) eqn:El; [by destruct Hh; apply Hhi|].
    wpb. cbn [modify]. apply wp_bind. eapply wp_mono; [|apply acquire_buf_free; by rewrite upd_buf_same].
    intros _ s' [Hb1 Hd1]. apply wp_ret. split; [done|]. eexists.
    split; [|split; [eapply buf_is_trans; [apply buf_is_upd|exact Hb1]|exact Hd1]].
    rewrite upd_buf_same. unfold got; simpl. rewrite Hrf. split_and!; try done. by left.
  - assert (Hno : ∀ j, (j < NBUF)%nat → dev (bufs s j) = ROOTDEV → blockno (bufs s j) ≠ b).
    { intros j Hj Hd Hbj. pose proof (Hf j ltac:(by apply (ring_elem _ _ _ _ Hl))) as H.
      rewrite Hd, Hbj, !Z.eqb_refl in H. done. }
    wpb. cbn [gets]. apply wp_bind.
    eapply wp_mono; [|apply (wp_find_buf prev _ _ _ s Hw2); rewrite length_rev; lia].
    intros [i|] s' [-> Hg]; cbv beta iota.
    + destruct Hg as [Hi [Er%Z.eqb_eq Ed%Z.eqb_eq]%andb_true_iff].
      rewrite list_elem_of_In, <- in_rev, <- list_elem_of_In, (ring_elem _ _ _ _ Hl) in Hi.
      destruct (buf_wf _ _ i Hr Hi) as (Hrf&_&Hfree).
      assert (El : locked (lock (bufs s i)) = false) by (destruct (locked _); [lia|done]).
      wpb. cbn [modify]. apply wp_bind. eapply wp_mono; [|apply acquire_buf_free; by rewrite upd_buf_same].
      intros _ s' [Hb1 Hd1]. apply wp_ret. split; [done|]. eexists.
      split; [|split; [eapply buf_is_trans; [apply buf_is_upd|exact Hb1]|exact Hd1]].
      rewrite upd_buf_same. unfold got; simpl. split_and!; try done. right. split_and!; try done.
      intros Hd. apply Hfree; [done|done|]. unfold dirty. by rewrite Ed.
    + exfalso. destruct (rep_free s v Hr) as (i&Hi&Er&Ed).
      { destruct (decide (b ∈ v_pin v)) as [Hbp|Hbp].
        - destruct (r_cover _ _ Hr b) as (i&Hi&Hd&Hbi); [set_solver|]. by destruct (Hno i Hi Hd).
        - rewrite <- (assoc_L (∪)), size_union, size_singleton in Hsz by set_solver. lia. }
      specialize (Hg i). rewrite list_elem_of_In, <- in_rev, <- list_elem_of_In, (ring_elem _ _ _ _ Hl) in Hg.
      specialize (Hg Hi). rewrite Er in Hg. unfold dirty, truth in Ed.
      destruct (Z.land (flags (bufs s i)) B_DIRTY =? 0); done.
Qed.

Lemma holds_frame s s' i x : buf_is i x s s' → ∀ j b, j ≠ i → holds s j b ↔ holds s' j b.
Proof. intros (_&E&_) j b Hj. unfold holds. by rewrite E. Qed.

(** Lemmas on the buffer [i] that bget has turned into [x]. *)
Section got.
Context (s : bst) (v : view) (b : Z) (i : nat) (x : buf).
Context (Hr : rep s v) (Hi : (i < NBUF)%nat) (Hgot : got s v b i x).

(** The locked buffers stay locked, and [i] is none of them. *)
Lemma got_frame x' s' :
  buf_is i x' s s' → b ∉ v_held v → dev x' = ROOTDEV → blockno x' = b → locked (lock x') = true →
  holds s' i b ∧ ∀ j c, holds s j c → j ≠ i ∧ holds s' j c.
Proof.
  destruct Hgot as (_&_&_&_&_&_&Hcase). intros Hs' Hh Hd Hb Hl. split.
  - destruct Hs' as (H1&_). unfold holds. by rewrite H1.
  - intros j c Hj. assert (Hji : j ≠ i); [|split; [done|by rewrite <- (holds_frame _ _ _ _ Hs')]].
    intros ->. destruct (rep_holds _ _ _ _ Hr Hj) as (Hc&Hcheld&_). destruct Hj as (_&Hjd&Hjb&Hjl).
    destruct Hcase as [(_&_&_&Hb')|(_&_&Hfree)]; [congruence|]. apply Hfree; [done|]. set_solver.
Qed.

Lemma got_dirty : dirty x = true ↔ b ∈ v_pin v.
Proof.
  destruct Hgot as (_&_&_&_&_&_&[(Hf&_&Hd'&Hb')|(Hf&Hno&_)]); unfold dirty; rewrite Hf.
  - destruct (buf_wf _ _ i Hr Hi) as (_&Hc&_). rewrite <- Hb'. apply (c_pin _ _ (Hc Hd')).
  - split; [done|]. intros Hbp.
    destruct (r_cover _ _ Hr b) as (j&Hj&Hdj&Hbj); [set_solver|]. by destruct (Hno j Hj Hdj).
Qed.

(** A buffer that is not valid is of a clean block; a valid one has the
    content of the block. *)
Lemma got_invalid : b ∉ v_held v → valid x = false → dirty x = false ∧ v_cont v b = v_disk v b.
Proof.
  intros Hh Hv. assert (Hdt : dirty x = false).
  { destruct Hgot as (_&_&_&_&_&_&[(Hf&_&Hd'&Hb')|(Hf&Hno&_)]); unfold dirty; rewrite Hf; [|done].
    destruct (buf_wf _ _ i Hr Hi) as (_&Hc&_). pose proof (c_valid _ _ (Hc Hd')) as Hval.
    unfold valid, dirty in *. rewrite Hf in Hv. rewrite Hv in Hval.
    destruct (truth (Z.land (flags (bufs s i)) B_DIRTY)); [naive_solver|reflexivity]. }
  split; [done|]. apply (r_clean _ _ Hr). pose proof got_dirty as Hp. rewrite Hdt in Hp. set_solver.
Qed.
Lemma got_valid : valid x = true → data x = v_cont v b.
Proof.
  destruct Hgot as (_&_&_&_&_&_&[(Hf&->&Hd'&Hb')|(Hf&_)]); unfold valid; rewrite Hf; [|done].
  destruct (buf_wf _ _ i Hr Hi) as (_&Hc&_). rewrite <- Hb'. apply (c_data _ _ (Hc Hd')).
Qed.

Lemma got_rep x' s' :
  buf_is i x' s s' → same_disk s s' → 0 ≤ b < v_size v → next x' = next x → prev x' = prev x →
  dev x' = ROOTDEV → blockno x' = b → refcnt x' = 1 → locked (lock x') = true → valid x' = true →
  dirty x' = dirty x → data x' = v_cont v b → rep s' (hold b v).
Proof.
  pose proof got_dirty as Hdirty. destruct Hgot as (Hn&Hp&_&_&_&_&Hcase).
  intros Hs' [D1 D2] Hb Hn' Hp' Hd' Hb' Hr' Hl' Hv' Hdt' Hdat.
  eapply (rep_block s v s' (hold b v) i x' b); try done; try congruence.
  - split; simpl; rewrite ?Hb', ?Hl'; try done; [set_solver|by rewrite Hdt'].
  - intros j Hj Hji Hdj Hbj. destruct Hcase as [(_&_&Hd&Hb0)|(_&Hno&_)]; [|by destruct (Hno j Hj Hdj)].
    apply Hji, (r_uniq _ _ Hr); congruence.
  - destruct Hcase as [(_&_&_&Hb0)|(_&_&Hfree)]; [by left|]. intros Hd. right. by apply Hfree.
  - simpl. set_solver.
  - rewrite D1. apply Hr.
  - rewrite D2. apply Hr.
Qed.
End got.

Section specs.
Context (iderw : nat → K bst unit) `{!DiskDriver iderw}.

Lemma bread_spec s v b :
  rep s v → 0 ≤ b < v_size v → b ∉ v_held v → (size ({[b]} ∪ v_held v ∪ v_pin v) ≤ NBUF)%nat →
  wp (bread iderw ROOTDEV b) s (λ i s', rep s' (hold b v) ∧ holds s' i b ∧
    ∀ j c, holds s j c → j ≠ i ∧ holds s' j c).
Proof.
  intros Hr Hb Hh Hsz. unfold bread. apply wp_bind. eapply wp_mono; [|by apply bget_spec].
  intros i s1 (Hi&x&Hgot&Hs1&Hd1). wpb. cbn [gets]. rewrite (proj1 Hs1).
  pose proof Hgot as (_&_&Hdev&Hbx&Hrf&Hlk&_).
  destruct (Z.eqb_spec (Z.land (flags x) B_VALID) 0) as [Hv|Hv]; simpl when.
  - destruct (got_invalid s v b i x Hr Hi Hgot Hh) as [Hdt Hcd]; [unfold valid; by rewrite Hv|].
    apply wp_bind. eapply wp_mono; [|apply iderw_read; rewrite ?(proj1 Hs1), ?Hbx; try done].
    2: unfold valid; by rewrite Hv.
    2: destruct Hs1 as (_&_&->&_); rewrite (r_size _ _ Hr); lia.
    intros _ s2 (f&F1&F2&Hs2&Hd2). apply wp_ret. rewrite (proj1 Hs1), Hbx in Hs2.
    pose proof (buf_is_trans _ _ _ _ _ _ Hs1 Hs2) as Hs12.
    assert (Hd12 : same_disk s s2) by (destruct Hd1, Hd2; split; congruence).
    split; [|by eapply got_frame]. eapply (got_rep s v b i x Hr Hi Hgot _ _ Hs12 Hd12); try done.
    + by rewrite valid_bit.
    + by rewrite Hdt, dirty_bit.
    + simpl. destruct Hd1 as [-> _]. rewrite (r_disk _ _ Hr). done.
  - assert (Hval : valid x = true).
    { unfold valid, truth. by destruct (Z.eqb_spec (Z.land (flags x) B_VALID) 0). }
    apply wp_ret. split; [|by eapply got_frame]. apply (got_rep s v b i x Hr Hi Hgot x s1); try done.
    by apply (got_valid s v b i x).
Qed.

(** ** bwrite, and what log.c does to a buffer *)

Lemma holds_buf_is s s' i b x :
  buf_is i x s s' → holds s i b → dev x = ROOTDEV → blockno x = b → locked (lock x) = true →
  ∀ j c, holds s j c → holds s' j c.
Proof.
  intros Hs (Hi&Hd&Hb&Hl) Hdx Hbx Hlx j c Hj. destruct (decide (j = i)) as [->|Hne].
  - destruct Hj as (_&_&<-&_). destruct Hs as (E&_). unfold holds. rewrite E. split_and!; congruence.
  - by rewrite <- (holds_frame _ _ _ _ Hs).
Qed.

Lemma bwrite_spec s v i b :
  rep s v → holds s i b →
  wp (bwrite iderw i) s (λ _ s', rep s' (flush b v) ∧ ∀ j c, holds s j c → holds s' j c).
Proof.
  intros Hr Hh. destruct (rep_holds _ _ _ _ Hr Hh) as (Hc&Hheld&Hb&Hv&Hdat).
  pose proof Hh as (Hi&Hd&Hbi&Hl). unfold bwrite. wpb.
  destruct (on_lock_holding i s) as (s1&->&Hs1&Hd1). rewrite Hl. simpl negb. cbv iota.
  wpb. cbn [modify].
  pose proof (buf_is_trans _ _ _ _ _ _ Hs1 (buf_is_upd i (λ x, set_flags (Z.lor (flags x) B_DIRTY) x) s1)) as Hs2.
  cbv beta in Hs2. rewrite (proj1 Hs1) in Hs2. set (s2 := upd_buf _ _ _) in *.
  eapply wp_mono; [|apply iderw_write; rewrite (proj1 Hs2)]; try done.
  2: apply dirty_set_dirty.
  2: { destruct Hs2 as (_&_&->&_). simpl. rewrite Hbi, (r_size _ _ Hr). lia. }
  intros _ s3 (f&F1&F2&Hs3&Hdk&Hpa). rewrite (proj1 Hs2) in Hs3. simpl in Hs3.
  pose proof (buf_is_trans _ _ _ _ _ _ Hs2 Hs3) as Hs23. split; [|by eapply holds_buf_is].
  assert (disk s2 = v_disk v ∧ past s2 = v_past v) as [Hdk2 Hpa2].
  { destruct Hd1 as [D1 D2]. rewrite <- (r_disk _ _ Hr), <- (r_past _ _ Hr). by split. }
  eapply (rep_buf s v s3 (flush b v) i _ b Hr Hh Hs23); try done.
  - pose proof Hc as [? ? ? Hheld' Hpin' ? ?]. split; simpl; rewrite ?Hbi in *; try done.
    + rewrite dirty_bit. simpl flags. rewrite F2. set_solver.
    + rewrite valid_bit. simpl flags. done.
  - simpl. set_solver.
  - rewrite Hdk, Hdk2, (proj1 Hs2). simpl. rewrite Hbi, Hdat. done.
  - rewrite Hpa, Hdk2, Hpa2. done.
Qed.

End specs.

Lemma store_spec s v i b d :
  rep s v → holds s i b →
  rep (upd_buf i (set_data d) s) (store b d v) ∧
  ∀ j c, holds s j c → holds (upd_buf i (set_data d) s) j c.
Proof.
  intros Hr Hh. destruct (rep_holds _ _ _ _ Hr Hh) as (Hc&Hheld&Hb&Hv&Hdat).
  pose proof Hh as (Hi&Hd&Hbi&Hl). pose proof (buf_is_upd i (set_data d) s) as Hs.
  split; [|by eapply holds_buf_is]. eapply (rep_buf s v _ (store b d v) i _ b Hr Hh Hs); try done.
  - pose proof Hc as [? ? ? ? ? ? ?]. split; simpl; try done. intros _. by rewrite Hbi, fn_lookup_insert.
  - simpl. set_solver.
  - apply Hr.
  - apply Hr.
Qed.

Lemma pin_spec s v i b :
  rep s v → holds s i b →
  let s' := upd_buf i (λ x, set_flags (Z.lor (flags x) B_DIRTY) x) s in
  rep s' (pin b v) ∧ ∀ j c, holds s j c → holds s' j c.
Proof.
  intros Hr Hh s'. destruct (rep_holds _ _ _ _ Hr Hh) as (Hc&Hheld&Hb&Hv&Hdat).
  pose proof Hh as (Hi&Hd&Hbi&Hl).
  pose proof (buf_is_upd i (λ x, set_flags (Z.lor (flags x) B_DIRTY) x) s) as Hs. fold s' in Hs.
  split; [|by eapply holds_buf_is]. eapply (rep_buf s v _ (pin b v) i _ b Hr Hh Hs); try done.
  - pose proof Hc as [? ? ? ? ? ? ?]. split; simpl; try done.
    + rewrite dirty_set_dirty. set_solver.
    + rewrite valid_set_dirty, <- valid_bit. done.
    + intros _. congruence.
  - simpl. set_solver.
  - apply Hr.
  - apply Hr.
Qed.

(** ** brelse and binit *)

(** [x'] is [x] up to its place in the ring. *)
Definition same_links_off (x x' : buf) : Prop :=
  flags x' = flags x ∧ dev x' = dev x ∧ blockno x' = blockno x ∧ lock x' = lock x ∧
  refcnt x' = refcnt x ∧ data x' = data x.

#[local] Instance same_links_off_preorder : PreOrder same_links_off.
Proof.
  split; [intros ?; by repeat split|]. intros x y z (?&?&?&?&?&?) (?&?&?&?&?&?). split_and!; congruence.
Qed.

(** A state in which only the ring changed. *)
Definition relinked (s s' : bst) : Prop :=
  (∀ j, same_links_off (bufs s j) (bufs s' j)) ∧ same_disk s s' ∧ disksize s' = disksize s.

#[local] Instance relinked_preorder : PreOrder relinked.
Proof.
  split; [intros ?; by repeat split|]. intros s1 s2 s3 (H1&[D1 P1]&Z1) (H2&[D2 P2]&Z2).
  split; [intros j; etrans; [apply H1|apply H2]|]. split; [split|]; congruence.
Qed.

Lemma relinked_upd s i f : (∀ x, same_links_off x (f x)) → relinked s (upd_buf i f s).
Proof.
  intros Hf. split; [|done]. intros j. destruct (decide (j = i)) as [->|Hj].
  - by rewrite upd_buf_same.
  - by rewrite upd_buf_other.
Qed.
Lemma relinked_next s i n : relinked s (upd_buf i (set_next n) s).
Proof. by apply relinked_upd. Qed.
Lemma relinked_prev s i n : relinked s (upd_buf i (set_prev n) s).
Proof. by apply relinked_upd. Qed.

Lemma rep_relinked s s' v l : rep s v → relinked s s' → ring (nexts s') (prevs s') l → rep s' v.
Proof.
  intros [_ Hb Hu Hc Hcl Hd Hp Hz] (Hj&[D P]&Z) Hl.
  assert (E : ∀ j, dev (bufs s' j) = dev (bufs s j) ∧ blockno (bufs s' j) = blockno (bufs s j)).
  { intros j. by destruct (Hj j) as (_&?&?&_). }
  split; try congruence; [by exists l|..].
  - intros i Hi. destruct (Hj i) as (F1&F2&F3&F4&F5&F6). destruct (Hb i Hi) as [Hun|Hca].
    + left. unfold unused. by rewrite F1, F2, F4, F5.
    + right. destruct Hca. split; unfold valid, dirty in *; rewrite ?F1, ?F2, ?F3, ?F4, ?F5, ?F6; done.
  - intros i j Hi Hj'. destruct (E i) as [-> ->], (E j) as [-> ->]. by apply Hu.
  - intros b Hin. destruct (Hc b Hin) as (i&Hi&?&?). exists i. by destruct (E i) as [-> ->].
  - done.
Qed.

Lemma next_upd i n s j : next (bufs (upd_buf i (set_next n) s) j) = (<[i := n]> (nexts s) : nat → nat) j.
Proof.
  destruct (decide (j = i)) as [->|Hj]; [by rewrite upd_buf_same, fn_lookup_insert|].
  by rewrite upd_buf_other, fn_lookup_insert_ne.
Qed.
Lemma prev_upd i n s j : prev (bufs (upd_buf i (set_prev n) s) j) = (<[i := n]> (prevs s) : nat → nat) j.
Proof.
  destruct (decide (j = i)) as [->|Hj]; [by rewrite upd_buf_same, fn_lookup_insert|].
  by rewrite upd_buf_other, fn_lookup_insert_ne.
Qed.
Lemma next_upd_prev i n s j : next (bufs (upd_buf i (set_prev n) s) j) = next (bufs s j).
Proof. destruct (decide (j = i)) as [->|Hj]; [by rewrite upd_buf_same|by rewrite upd_buf_other]. Qed.
Lemma prev_upd_next i n s j : prev (bufs (upd_buf i (set_next n) s) j) = prev (bufs s j).
Proof. destruct (decide (j = i)) as [->|Hj]; [by rewrite upd_buf_same|by rewrite upd_buf_other]. Qed.

(** The links after link_front and unlink. *)
Lemma link_front_spec b s :
  b ≠ head →
  wp (link_front b) s (λ _ s', relinked s s' ∧
    (∀ j, next (bufs s' j) = (<[head := b]> (<[b := next (bufs s head)]> (nexts s)) : nat → nat) j) ∧
    (∀ j, prev (bufs s' j) = (<[next (bufs s head) := b]> (<[b := head]> (prevs s)) : nat → nat) j)).
Proof.
  intros Hb. unfold link_front, wp, mbind, K_bind, gets, modify. cbv beta iota.
  set (n := next (bufs s head)). set (s1 := upd_buf b (set_next n) s). set (s2 := upd_buf b (set_prev head) s1).
  assert (next (bufs s2 head) = n) as ->.
  { unfold s2, s1. rewrite next_upd_prev, next_upd. by rewrite fn_lookup_insert_ne. }
  split; [|split].
  - etrans; [|apply relinked_next]. etrans; [|apply relinked_prev].
    etrans; [|apply relinked_prev]. apply relinked_next.
  - intros j. rewrite next_upd. unfold insert, fn_insert. case_decide; [done|].
    rewrite next_upd_prev. unfold s2, s1. by rewrite next_upd_prev, next_upd.
  - intros j. rewrite prev_upd_next, prev_upd. unfold insert, fn_insert. case_decide; [done|].
    unfold s2, s1. rewrite prev_upd. unfold insert, fn_insert. case_decide; [done|]. by rewrite prev_upd_next.
Qed.

Lemma unlink_spec b s :
  next (bufs s b) ≠ b →
  wp (unlink b) s (λ _ s', relinked s s' ∧
    (∀ j, next (bufs s' j) = (<[prev (bufs s b) := next (bufs s b)]> (nexts s) : nat → nat) j) ∧
    (∀ j, prev (bufs s' j) = (<[next (bufs s b) := prev (bufs s b)]> (prevs s) : nat → nat) j)).
Proof.
  intros Hn. unfold unlink, wp, mbind, K_bind, gets, modify. cbv beta iota.
  rewrite upd_buf_other by done. split; [|split].
  - etrans; [apply relinked_prev|apply relinked_next].
  - intros j. rewrite next_upd. unfold insert, fn_insert. case_decide; [done|]. by rewrite next_upd_prev.
  - intros j. by rewrite prev_upd_next, prev_upd.
Qed.

Lemma ring_next_ne nx pv l i : ring nx pv l → i ∈ l → nx i ≠ i.
Proof.
  intros Hr Hi. pose proof (ring_nodup _ _ _ Hr) as Hnd. pose proof (ring_elem _ _ _ i Hr) as Hlt.
  destruct Hr as [Hl _]. apply list_elem_of_split in Hi as (l1&l2&->).
  assert (∃ n ys, l2 ++ [head] = n :: ys) as (n&ys&Hys) by (destruct l2; simpl; eauto).
  destruct (Hl i n) as [-> _].
  { rewrite <- (assoc_L (++)). simpl app. rewrite Hys.
    change (head :: l1 ++ i :: n :: ys) with ((head :: l1) ++ i :: n :: ys).
    apply adj_app. right. by left. }
  intros ->. apply NoDup_app in Hnd as (_&_&[Hd _]%NoDup_cons).
  assert (i ∈ l2 ++ [head]) as [?|Hh%list_elem_of_singleton]%elem_of_app by (rewrite Hys; left); [done|].
  assert (i < NBUF)%nat by (apply Hlt; set_solver). unfold head in *. lia.
Qed.

(** Moving a buffer to the front of the ring. *)
Lemma move_front_spec i s l :
  ring (nexts s) (prevs s) l → (i < NBUF)%nat →
  wp (unlink i ≫= λ _, link_front i) s (λ _ s', relinked s s' ∧ ∃ l', ring (nexts s') (prevs s') l').
Proof.
  intros Hl Hi. assert (Hin : i ∈ l) by by apply (ring_elem _ _ _ _ Hl).
  apply wp_bind. eapply wp_mono; [|apply unlink_spec, (ring_next_ne _ _ _ _ Hl Hin)].
  intros _ s1 (Hr1&Hn1&Hp1). pose proof (ring_nodup _ _ _ Hl) as Hnd.
  apply list_elem_of_split in Hin as (l1&l2&->). pose proof (ring_unlink _ _ _ _ _ Hl) as Hun.
  assert (Hih : i ≠ head) by (unfold head; lia).
  eapply wp_mono; [|by apply link_front_spec]. intros _ s2 (Hr2&Hn2&Hp2). split; [by etrans|].
  exists (i :: l1 ++ l2). split; [|rewrite <- (ring_perm _ _ _ Hl); apply Permutation_middle].
  assert (Hlk : ∀ a b, adj (head :: (l1 ++ l2) ++ [head]) a b → nexts s1 a = b ∧ prevs s1 b = a).
  { intros a b Hab. rewrite Hn1, Hp1. apply Hun. by rewrite (assoc_L (++)). }
  intros a b Hab. rewrite Hn2, Hp2. revert a b Hab. apply (ring_link _ _ _ _ Hlk); [| |done].
  - apply NoDup_app. split; [|split; [|apply NoDup_singleton]].
    + eapply sublist_NoDup; [exact Hnd|]. apply sublist_app; [done|by apply sublist_cons].
    + intros x Hx ->%list_elem_of_singleton.
      assert (head ∈ l1 ++ i :: l2) as Hx' by set_solver.
      apply (ring_elem _ _ _ _ Hl) in Hx'. unfold head in Hx'. lia.
  - apply NoDup_app in Hnd as (_&Hd1&[Hd2 _]%NoDup_cons). specialize (Hd1 i). set_solver.
Qed.

Lemma relinked_holds s s' j c : relinked s s' → holds s j c → holds s' j c.
Proof.
  intros (Hj&_) (H1&H2&H3&H4). destruct (Hj j) as (_&E1&E2&E3&_). unfold holds. rewrite E1, E2, E3. done.
Qed.

Lemma brelse_spec s v i b :
  rep s v → holds s i b → b ∈ v_pin v ∨ v_cont v b = v_disk v b →
  wp (brelse i) s (λ _ s', rep s' (unhold b v) ∧ ∀ j c, j ≠ i → holds s j c → holds s' j c).
Proof.
  intros Hr Hh Hcl. destruct (rep_holds _ _ _ _ Hr Hh) as (Hc&Hheld&Hb&Hv&Hdat).
  pose proof Hh as (Hi&Hd&Hbi&Hl). unfold brelse. wpb.
  destruct (on_lock_holding i s) as (s1&->&Hs1&Hd1). rewrite Hl. simpl negb. cbv iota.
  do 3 wpb. cbn -[u32 upd_buf unlink link_front head].
  set (s2 := upd_buf i (set_lock _) s1). set (s3 := upd_buf i _ s2).
  assert (Hs3 : buf_is i (set_refcnt 0 (set_lock initsleeplock (bufs s i))) s s3).
  { eapply buf_is_eq; [|eapply buf_is_trans; [exact Hs1|eapply buf_is_trans; apply buf_is_upd]].
    cbv beta. unfold s2. rewrite upd_buf_same, (proj1 Hs1). simpl. by rewrite (c_ref _ _ Hc), Hl. }
  assert (Hrep : rep s3 (unhold b v)).
  { eapply (rep_buf s v s3 (unhold b v) i _ b Hr Hh Hs3); try done.
    - destruct Hc as [? ? ? ? Hpin Hval ?]. split; simpl; try done; rewrite Hbi in *. set_solver.
    - simpl. intros Hn. destruct Hcl; [set_solver|done].
    - transitivity (disk s1); [done|]. destruct Hd1 as [-> _]. apply Hr.
    - transitivity (past s1); [done|]. destruct Hd1 as [_ ->]. apply Hr. }
  rewrite (proj1 Hs3). cbn [refcnt set_refcnt Z.eqb when].
  destruct (r_ring _ _ Hrep) as [l Hlr].
  eapply wp_mono; [|apply (move_front_spec i s3 l Hlr Hi)]. intros _ s4 (Hre&l'&Hl').
  split; [by eapply rep_relinked|]. intros j c Hj Hjc. eapply relinked_holds; [exact Hre|].
  by rewrite <- (holds_frame _ _ _ _ Hs3).
Qed.

Lemma next_upd_lock i l s j : next (bufs (upd_buf i (set_lock l) s) j) = next (bufs s j).
Proof. destruct (decide (j = i)) as [->|Hj]; [by rewrite upd_buf_same|by rewrite upd_buf_other]. Qed.
Lemma prev_upd_lock i l s j : prev (bufs (upd_buf i (set_lock l) s) j) = prev (bufs s j).
Proof. destruct (decide (j = i)) as [->|Hj]; [by rewrite upd_buf_same|by rewrite upd_buf_other]. Qed.

Definition blank (s0 s : bst) : Prop :=
  (∀ j, unused (bufs s j)) ∧ same_disk s0 s ∧ disksize s = disksize s0.

Lemma blank_relinked s0 s s' : blank s0 s → relinked s s' → blank s0 s'.
Proof.
  intros (Hb&[D P]&Z) (Hj&[D' P']&Z'). split; [|split; [split|]; congruence].
  intros j. destruct (Hj j) as (E1&E2&E3&E4&E5&E6). unfold unused. rewrite E1, E2, E4, E5. apply Hb.
Qed.
Lemma blank_lock s0 s i : blank s0 s → blank s0 (upd_buf i (set_lock initsleeplock) s).
Proof.
  intros (Hb&[D P]&Z). split; [|by split; [split|]]. intros j. destruct (decide (j = i)) as [->|Hj].
  - rewrite upd_buf_same. destruct (Hb i) as (?&?&?&?). done.
  - by rewrite upd_buf_other.
Qed.

Lemma binit_buf_spec s0 b s :
  b ≠ head → blank s0 s →
  wp (binit_buf b) s (λ _ s', blank s0 s' ∧
    (∀ j, next (bufs s' j) = (<[head := b]> (<[b := next (bufs s head)]> (nexts s)) : nat → nat) j) ∧
    (∀ j, prev (bufs s' j) = (<[next (bufs s head) := b]> (<[b := head]> (prevs s)) : nat → nat) j)).
Proof.
  intros Hb Hbl. unfold binit_buf, wp, mbind, K_bind, gets, modify. cbv beta iota.
  set (n := next (bufs s head)). set (s1 := upd_buf b (set_next n) s).
  set (s2 := upd_buf b (set_prev head) s1). set (s3 := upd_buf b (set_lock _) s2).
  assert (next (bufs s3 head) = n) as ->.
  { unfold s3, s2, s1. rewrite next_upd_lock, next_upd_prev, next_upd. by rewrite fn_lookup_insert_ne. }
  split; [|split].
  - eapply blank_relinked; [|apply relinked_next]. eapply blank_relinked; [|apply relinked_prev].
    apply blank_lock. eapply blank_relinked; [|apply relinked_prev].
    eapply blank_relinked; [|apply relinked_next]. done.
  - intros j. rewrite next_upd. unfold insert, fn_insert. case_decide; [done|].
    rewrite next_upd_prev. unfold s3, s2, s1. by rewrite next_upd_lock, next_upd_prev, next_upd.
  - intros j. rewrite prev_upd_next, prev_upd. unfold insert, fn_insert. case_decide; [done|].
    unfold s3, s2, s1. rewrite prev_upd_lock, prev_upd. unfold insert, fn_insert.
    case_decide; [done|]. by rewrite prev_upd_next.
Qed.

(** The view of an empty cache. *)
Definition view_of (s : bst) : view :=
  {| v_cont := disk s; v_disk := disk s; v_past := past s; v_size := disksize s;
     v_held := ∅; v_pin := ∅ |}.

Lemma binit_spec s : (∀ j, unused (bufs s j)) → wp binit s (λ _ s', rep s' (view_of s)).
Proof.
  intros Hun. unfold binit. rewrite !wp_bind. unfold wp at 1, modify at 1. cbv beta iota.
  rewrite wp_bind. unfold wp at 1, modify at 1. cbv beta iota.
  set (s1 := upd_buf head (set_next head) (upd_buf head (set_prev head) s)).
  eapply wp_mono; [|apply (wp_for_each binit_buf (λ p s', blank s s' ∧
    ∀ a b, adj (head :: rev p ++ [head]) a b → nexts s' a = b ∧ prevs s' b = a) _ [])].
  - intros _ s' [(Hb&[D P]&Z) Hl]. simpl app in Hl. split; try done.
    + exists (rev (seq 0 NBUF)). split; [done|]. symmetry. apply Permutation_rev.
    + intros i _. by left.
    + intros i j _ _ Hd. destruct (Hb i) as (Hd'&_). by rewrite Hd' in Hd.
  - split.
    + eapply blank_relinked; [|apply relinked_next]. eapply blank_relinked; [|apply relinked_prev]. done.
    + intros a b [[-> [= <-]]|[[_ ?]|[]]]; [|done]. unfold s1.
      by rewrite next_upd, prev_upd_next, prev_upd, !fn_lookup_insert.
  - intros p b q s2 Heq [Hbl Hl]. change (seq 0 NBUF = p ++ b :: q) in Heq.
    assert (Hbp : b ∉ p ∧ NoDup p ∧ head ∉ p ∧ b ≠ head).
    { pose proof (NoDup_seq 0 NBUF) as Hnd. rewrite Heq in Hnd.
      apply NoDup_app in Hnd as (Hp&Hpb&_). split; [intros ?; eapply Hpb; [done|left]|].
      split; [done|]. assert (∀ x, x ∈ p ++ b :: q → (x < NBUF)%nat) as Hlt.
      { intros x. rewrite <- Heq, elem_of_seq. lia. }
      split; [intros H|intros ->].
      - specialize (Hlt head ltac:(set_solver)). unfold head in Hlt. lia.
      - specialize (Hlt head ltac:(set_solver)). unfold head in Hlt. lia. }
    destruct Hbp as (Hbp&Hnd&Hhp&Hbh).
    eapply wp_mono; [|by apply (binit_buf_spec s)]. intros _ s3 (Hbl3&Hn3&Hp3). split; [done|].
    rewrite rev_app_distr. simpl rev. simpl app. intros a c Hac. rewrite Hn3, Hp3.
    revert a c Hac. apply (ring_link _ _ _ _ Hl); [| |done].
    + apply NoDup_app. split; [by apply NoDup_ListNoDup, NoDup_rev, NoDup_ListNoDup|].
      split; [|apply NoDup_singleton]. intros x Hx ->%list_elem_of_singleton.
      by rewrite list_elem_of_In, <- in_rev, <- list_elem_of_In in Hx.
    + by rewrite list_elem_of_In, <- in_rev, <- list_elem_of_In.
Qed.

(** ** The cache as a whole *)

(** What a client does with a block: read it, write it through to the disk, or
    change it and leave it dirty in the cache, as log_write() does. *)
Inductive cop := Peek (b : Z) | Poke (b : Z) (f : mem → mem) | Pend (b : Z) (f : mem → mem).

Definition cop_block (op : cop) : Z := match op with Peek b | Poke b _ | Pend b _ => b end.

Section client.
Context (iderw : nat → K bst unit) `{!DiskDriver iderw}.

Definition run_cop (op : cop) : K bst mem :=
  bread iderw ROOTDEV (cop_block op) ≫= λ i,
  gets (λ s, data (bufs s i)) ≫= λ d,
  match op with
  | Peek _ => mret tt
  | Poke _ f => modify (upd_buf i (set_data (f d))) ≫= λ _, bwrite iderw i
  | Pend _ f => modify (upd_buf i (set_data (f d))) ≫= λ _,
      modify (upd_buf i (λ x, set_flags (Z.lor (flags x) B_DIRTY) x))
  end ≫= λ _,
  brelse i ≫= λ _, mret d.

Fixpoint run_cops (ops : list cop) : K bst (list mem) :=
  match ops with
  | [] => mret []
  | op :: ops' => run_cop op ≫= λ d, run_cops ops' ≫= λ ds, mret (d :: ds)
  end.

(** The same on a plain array of blocks. *)
Definition plain_cop (op : cop) (m : Z → mem) : Z → mem :=
  match op with Peek _ => m | Poke b f | Pend b f => <[b := f (m b)]> m end.
Fixpoint plain_cops (ops : list cop) (m : Z → mem) : list mem :=
  match ops with [] => [] | op :: ops' => m (cop_block op) :: plain_cops ops' (plain_cop op m) end.

Definition pending (ops : list cop) : gset Z :=
  list_to_set (omap (λ op, match op with Pend b _ => Some b | _ => None end) ops).

Lemma run_cop_spec op s v :
  rep s v → v_held v = ∅ → 0 ≤ cop_block op < v_size v →
  (size ({[cop_block op]} ∪ v_pin v) ≤ NBUF)%nat →
  wp (run_cop op) s (λ d s', d = v_cont v (cop_block op) ∧ ∃ v', rep s' v' ∧ v_held v' = ∅ ∧
    v_size v' = v_size v ∧ v_cont v' = plain_cop op (v_cont v) ∧ v_pin v' ⊆ pending [op] ∪ v_pin v).
Proof.
  intros Hr Hh Hb Hsz. unfold run_cop. apply wp_bind.
  eapply wp_mono; [|apply (bread_spec iderw s v _ Hr Hb)]; [|by rewrite Hh|by rewrite Hh, union_empty_r_L].
  intros i s1 (Hr1&Hh1&_). wpb. cbn [gets].
  destruct (rep_holds _ _ _ _ Hr1 Hh1) as (_&_&_&_&Hdat). simpl in Hdat.
  assert (Hend : ∀ s' v', rep s' v' → holds s' i (cop_block op) → v_held v' = {[cop_block op]} →
    cop_block op ∈ v_pin v' ∨ v_cont v' (cop_block op) = v_disk v' (cop_block op) →
    v_size v' = v_size v → v_cont v' = plain_cop op (v_cont v) → v_pin v' ⊆ pending [op] ∪ v_pin v →
    wp (brelse i ≫= λ _, mret (data (bufs s1 i))) s' (λ d s', d = v_cont v (cop_block op) ∧
      ∃ v', rep s' v' ∧ v_held v' = ∅ ∧ v_size v' = v_size v ∧
        v_cont v' = plain_cop op (v_cont v) ∧ v_pin v' ⊆ pending [op] ∪ v_pin v)).
  { intros s' v' Hr' Hh' Hheld Hcl Hsz' Hcont Hpin. apply wp_bind. eapply wp_mono; [|by apply brelse_spec].
    intros _ s2 [Hr2 _]. apply wp_ret. split; [done|]. eexists. split; [exact Hr2|]. simpl.
    split_and!; try done. rewrite Hheld. set_solver. }
  apply wp_bind. destruct op as [b|b f|b f]; simpl in *.
  - apply wp_ret. apply (Hend s1 (hold b v)); try done; simpl; [rewrite Hh; set_solver| |set_solver].
    destruct (decide (b ∈ v_pin v)); [by left|right]. apply (r_clean _ _ Hr). rewrite Hh. set_solver.
  - wpb. cbn [modify]. destruct (store_spec s1 _ i b (f (data (bufs s1 i))) Hr1 Hh1) as [Hr2 Hh2].
    eapply wp_mono; [|apply (bwrite_spec iderw _ _ i b Hr2 (Hh2 _ _ Hh1))]. intros _ s3 [Hr3 Hh3].
    apply (Hend s3 _ Hr3); simpl; try done; [by apply Hh3, Hh2|rewrite Hh; set_solver| | |set_solver].
    + right. by rewrite !fn_lookup_insert.
    + by rewrite Hdat.
  - wpb. cbn [modify]. destruct (store_spec s1 _ i b (f (data (bufs s1 i))) Hr1 Hh1) as [Hr2 Hh2].
    destruct (pin_spec _ _ i b Hr2 (Hh2 _ _ Hh1)) as [Hr3 Hh3]. unfold wp at 1. cbn [modify].
    apply (Hend _ _ Hr3); simpl; try done; [by apply Hh3, Hh2|rewrite Hh; set_solver|left; set_solver| |set_solver].
    by rewrite Hdat.
Qed.

Lemma run_cops_spec ops s v :
  rep s v → v_held v = ∅ → Forall (λ op, 0 ≤ cop_block op < v_size v) ops →
  (size (pending ops ∪ v_pin v) < NBUF)%nat →
  wp (run_cops ops) s (λ ds _, ds = plain_cops ops (v_cont v)).
Proof.
  revert s v. induction ops as [|op ops IH]; intros s v Hr Hh Hb Hsz; simpl; [done|].
  apply Forall_cons in Hb as [Hb1 Hb].
  assert (Hpend : pending (op :: ops) = pending [op] ∪ pending ops).
  { unfold pending. destruct op; simpl; set_solver. }
  rewrite Hpend in Hsz. apply wp_bind. eapply wp_mono; [|apply run_cop_spec; try done].
  - intros d s' (->&v'&Hr'&Hh'&Hsz'&Hc'&Hp'). apply wp_bind. eapply wp_mono; [|apply (IH s' v'); try done].
    + intros ds s'' ->. apply wp_ret. by rewrite Hc'.
    + by rewrite Hsz'.
    + eapply Nat.le_lt_trans; [|exact Hsz]. apply subseteq_size. set_solver.
  - rewrite size_union_alt. etrans; [|exact Hsz]. rewrite size_singleton.
    apply le_n_S, subseteq_size. set_solver.
Qed.

(** C26: started by binit on a disk, the buffer cache is transparent: whatever
    blocks are read, written or left dirty in it, and however buffers are
    recycled, every bread returns what an array of blocks would hold, as long
    as fewer than NBUF blocks are dirty; bget never runs out of buffers. *)
Theorem cache_transparent (ops : list cop) (s : bst) :
  (∀ j, unused (bufs s j)) → Forall (λ op, 0 ≤ cop_block op < disksize s) ops →
  (size (pending ops) < NBUF)%nat →
  wp (binit ≫= λ _, run_cops ops) s (λ ds _, ds = plain_cops ops (disk s)).
Proof.
  intros Hun Hb Hsz. apply wp_bind. eapply wp_mono; [|by apply binit_spec].
  intros u s' Hr. apply (run_cops_spec ops s' _ Hr); [done|done|]. simpl. by rewrite union_empty_r_L.
Qed.
End client.

Definition buf_zero : buf :=
  {| flags := 0; dev := 0; blockno := 0; lock := initsleeplock; refcnt := 0; prev := 0; next := 0; data := ∅ |}.
Definition bst_zero (d : Z → mem) : bst :=
  {| bufs := λ _, buf_zero; disk := d; past := []; disksize := 1000; mypid := 1 |}.

Lemma cache_transparent_witness :
  wp (binit ≫= λ _, run_cops Memide.iderw
        [Pend 7 (λ m, wr8 m 3 65); Peek 8; Poke 8 (λ m, wr8 m 0 1); Peek 7])
     (bst_zero (λ _, ∅)) (λ ds _, ds = [∅; ∅; ∅; wr8 ∅ 3 65]).
Proof.
  apply (cache_transparent Memide.iderw [Pend 7 (λ m, wr8 m 3 65); Peek 8; Poke 8 (λ m, wr8 m 0 1); Peek 7]
    (bst_zero (λ _, ∅))).
  - intros j. done.
  - repeat constructor; simpl; lia.
  - vm_compute. lia.
Defined.
