(* ===== verification/Log.v ===== *)
(** The write-ahead log (src/log.c).

    The log runs on the buffer cache of Bio.v.  begin_op() and the two critical
    sections of end_op() are runs of a monitor (Monitor.v) on the log structure;
    commit() runs between the latter with log.committing set. *)

From Stdlib Require Import ZArith Lia.
From stdpp Require Import base tactics numbers gmap strings functions relations list.
From S2P Require Import Prelude Memory Monitor Sleeplock Buf Bio.

#[local] Open Scope Z_scope.

Definition MAXOPBLOCKS : Z := 10.
Definition LOGSIZE : Z := MAXOPBLOCKS * 3.

(** struct log with its struct logheader; [lh_block] is lh.block[]. *)
Record log := {
  start : Z;
  size : Z;
  outstanding : Z;
  committing : bool;
  ldev : Z;
  lh_n : Z;
  lh_block : Z → Z
}.

Definition set_outstanding x l := {| start := start l; size := size l; outstanding := x;
  committing := committing l; ldev := ldev l; lh_n := lh_n l; lh_block := lh_block l |}.
Definition set_committing c l := {| start := start l; size := size l; outstanding := outstanding l;
  committing := c; ldev := ldev l; lh_n := lh_n l; lh_block := lh_block l |}.
Definition set_lh_n n l := {| start := start l; size := size l; outstanding := outstanding l;
  committing := committing l; ldev := ldev l; lh_n := n; lh_block := lh_block l |}.
Definition set_lh_block i b l := {| start := start l; size := size l; outstanding := outstanding l;
  committing := committing l; ldev := ldev l; lh_n := lh_n l; lh_block := <[i := b]> (lh_block l) |}.
Definition set_geometry st sz d l := {| start := st; size := sz; outstanding := outstanding l;
  committing := committing l; ldev := d; lh_n := lh_n l; lh_block := lh_block l |}.

(** ** begin_op, end_op and log_write on the log structure *)

(** The slot of block [b] among the first [k] from [i] on, or the one after. *)
Fixpoint log_slot (blocks : Z → Z) (b i : Z) (k : nat) : Z :=
  match k with
  | O => i
  | S k' => if blocks i =? b then i else log_slot blocks b (i + 1) k'
  end.

Section ops.
Context {L : Type}.

Definition begin_op_run : K (mst log L) unit :=
  gets obj ≫= λ l,
  if committing l then sleep_on ChLog else
  if LOGSIZE <? lh_n l + (outstanding l + 1) * MAXOPBLOCKS then sleep_on ChLog else
  set_obj (λ l, set_outstanding (outstanding l + 1) l).

(** The first critical section of end_op; it returns do_commit. *)
Definition end_op_begin : K (mst log L) bool :=
  set_obj (λ l, set_outstanding (outstanding l - 1) l) ≫= λ _,
  gets obj ≫= λ l,
  if committing l then panic "log.committing" else
  if outstanding l =? 0 then set_obj (set_committing true) ≫= λ _, mret true
  else wakeup ChLog ≫= λ _, mret false.

(** The second one, after the commit. *)
Definition end_op_finish : K (mst log L) unit :=
  set_obj (set_committing false) ≫= λ _, wakeup ChLog.

(** The tests of log_write, which it makes before it takes log.lock. *)
Definition log_write_check : K (mst log L) unit :=
  gets obj ≫= λ l,
  if (LOGSIZE <=? lh_n l) || (size l - 1 <=? lh_n l) then panic "too big a transaction" else
  if outstanding l <? 1 then panic "log_write outside of trans" else mret tt.

(** What it does to the log under log.lock, for a buffer of block [b]. *)
Definition log_write_add (b : Z) : K (mst log L) unit :=
  gets obj ≫= λ l,
  let k := log_slot (lh_block l) (s32 b) 0 (Z.to_nat (lh_n l)) in
  (if k <? LOGSIZE then set_obj (set_lh_block k (s32 b)) else fault "log.lh.block") ≫= λ _,
  when (k =? lh_n l) (set_obj (set_lh_n (lh_n l + 1))).
End ops.

(** ** The log on the buffer cache *)

Record lst := { cache : bst; jrnl : log }.

Definition bio {A} (m : K bst A) : K lst A :=
  zoom cache (λ c s, {| cache := c; jrnl := jrnl s |}) m.
Definition upd_log (f : log → log) (s : lst) : lst := {| cache := cache s; jrnl := f (jrnl s) |}.
Definition on_log {A} (m : K (mst log unit) A) : K lst A :=
  zoom (λ s, Mst (jrnl s) tt []) (λ m s, {| cache := cache s; jrnl := obj m |}) m.

Definition bdata (i : nat) : K lst mem := bio (gets (λ s, data (bufs s i))).
Definition bset (i : nat) (d : mem) : K lst unit := bio (modify (upd_buf i (set_data d))).

(** log.lh.block[i], which has LOGSIZE elements. *)
Definition block_at (i : Z) : K lst Z :=
  if (0 <=? i) && (i <? LOGSIZE) then gets (λ s, lh_block (jrnl s) i) else fault "log.lh.block".
Definition block_set (i b : Z) : K lst unit :=
  if (0 <=? i) && (i <? LOGSIZE) then modify (upd_log (set_lh_block i b)) else fault "log.lh.block".

Definition begin_op : K lst unit := on_log begin_op_run.

Section driver.
Context (iderw : nat → K bst unit).
Abbreviation bread d b := (bio (bread iderw d b)).
Abbreviation bwrite i := (bio (bwrite iderw i)).
Abbreviation brelse i := (bio (brelse i)).
Abbreviation log_of f := (gets (λ s, f (jrnl s))).

Definition install_trans : K lst unit :=
  log_of lh_n ≫= λ n,
  for_each (seqZ 0 n) (λ tail,
    log_of ldev ≫= λ d, log_of start ≫= λ st,
    bread d (u32 (st + tail + 1)) ≫= λ lbuf,
    block_at tail ≫= λ b,
    bread d (u32 b) ≫= λ dbuf,
    bdata lbuf ≫= λ x, bset dbuf x ≫= λ _,
    bwrite dbuf ≫= λ _,
    brelse lbuf ≫= λ _,
    brelse dbuf).

(** The header block: n, then the block numbers. *)
Definition hb_n (d : mem) : Z := s32 (rd32 d 0).
Definition hb_block (d : mem) (i : Z) : Z := s32 (rd32 d (4 + 4 * i)).

Definition read_head : K lst unit :=
  log_of ldev ≫= λ d, log_of start ≫= λ st,
  bread d st ≫= λ b,
  bdata b ≫= λ x,
  modify (upd_log (set_lh_n (hb_n x))) ≫= λ _,
  for_each (seqZ 0 (hb_n x)) (λ i, block_set i (hb_block x i)) ≫= λ _,
  brelse b.

Definition write_head : K lst unit :=
  log_of ldev ≫= λ d, log_of start ≫= λ st,
  bread d st ≫= λ b,
  log_of lh_n ≫= λ n,
  bdata b ≫= λ x, bset b (wr32 x 0 n) ≫= λ _,
  for_each (seqZ 0 n) (λ i,
    block_at i ≫= λ bn, bdata b ≫= λ x, bset b (wr32 x (4 + 4 * i) bn)) ≫= λ _,
  bwrite b ≫= λ _,
  brelse b.

Definition recover_from_log : K lst unit :=
  read_head ≫= λ _,
  install_trans ≫= λ _,
  modify (upd_log (set_lh_n 0)) ≫= λ _,
  write_head.

Definition write_log : K lst unit :=
  log_of lh_n ≫= λ n,
  for_each (seqZ 0 n) (λ tail,
    log_of ldev ≫= λ d, log_of start ≫= λ st,
    bread d (u32 (st + tail + 1)) ≫= λ to,
    block_at tail ≫= λ b,
    bread d (u32 b) ≫= λ from,
    bdata from ≫= λ x, bset to x ≫= λ _,
    bwrite to ≫= λ _,
    brelse from ≫= λ _,
    brelse to).

Definition commit : K lst unit :=
  log_of lh_n ≫= λ n,
  when (0 <? n)
    (write_log ≫= λ _,
     write_head ≫= λ _,
     install_trans ≫= λ _,
     modify (upd_log (set_lh_n 0)) ≫= λ _,
     write_head).

Definition end_op : K lst unit :=
  on_log end_op_begin ≫= λ do_commit,
  when do_commit (commit ≫= λ _, on_log end_op_finish).

(** struct superblock, as far as the log reads it: sb.logstart and sb.nlog. *)
Definition sb_nlog (d : mem) : Z := rd32 d 12.
Definition sb_logstart (d : mem) : Z := rd32 d 16.

Definition initlog (d : Z) : K lst unit :=
  bread d 1 ≫= λ b,
  bdata b ≫= λ x,
  brelse b ≫= λ _,
  modify (upd_log (set_geometry (s32 (sb_logstart x)) (s32 (sb_nlog x)) d)) ≫= λ _,
  recover_from_log.
End driver.

Definition log_write (i : nat) : K lst unit :=
  on_log log_write_check ≫= λ _,
  bio (gets (λ s, blockno (bufs s i))) ≫= λ b,
  on_log (log_write_add b) ≫= λ _,
  bio (modify (upd_buf i (λ x, set_flags (Z.lor (flags x) B_DIRTY) x))).

(** ** The buffer cache seen from here *)

Lemma wp_bio {A} (m : K bst A) s Q :
  wp (bio m) s Q ↔ wp m (cache s) (λ a c, Q a {| cache := c; jrnl := jrnl s |}).
Proof. unfold wp, bio, zoom. by destruct (m (cache s)). Qed.

(** The state has the view [v] and the log [l]. *)
Definition lrep (s : lst) (v : view) (l : log) : Prop := rep (cache s) v ∧ jrnl s = l.

Definition lholds (s : lst) (i : nat) (b : Z) : Prop := holds (cache s) i b.

Lemma lrep_bdata s v l i b (Q : mem → lst → Prop) :
  lrep s v l → lholds s i b → Q (v_cont v b) s → wp (bdata i) s Q.
Proof.
  intros [Hr _] Hh HQ. apply wp_bio. unfold wp, gets. destruct (rep_holds _ _ _ _ Hr Hh) as (_&_&_&_&->).
  by destruct s.
Qed.
Lemma lrep_bset s v l i b d :
  lrep s v l → lholds s i b →
  wp (bset i d) s (λ _ s', lrep s' (store b d v) l ∧ ∀ j c, lholds s j c → lholds s' j c).
Proof.
  intros [Hr Hl] Hh. apply wp_bio. unfold wp, modify, lrep; simpl.
  destruct (store_spec _ _ i b d Hr Hh) as [H1 H2]. done.
Qed.
Lemma lrep_brelse s v l i b :
  lrep s v l → lholds s i b → b ∈ v_pin v ∨ v_cont v b = v_disk v b →
  wp (bio (brelse i)) s (λ _ s', lrep s' (unhold b v) l ∧ ∀ j c, j ≠ i → lholds s j c → lholds s' j c).
Proof.
  intros [Hr Hl] Hh Hc. apply wp_bio. eapply wp_mono; [|by apply brelse_spec]. intros u c [H1 H2]. done.
Qed.
Lemma wp_get_log {A} (f : log → A) s v l (Q : A → lst → Prop) :
  lrep s v l → Q (f l) s → wp (gets (λ s, f (jrnl s))) s Q.
Proof. intros [_ Hl] HQ. unfold wp, gets. by rewrite Hl. Qed.
Lemma lrep_upd_log f s v l (Q : unit → lst → Prop) :
  lrep s v l → (∀ s', lrep s' v (f l) → cache s' = cache s → Q tt s') → wp (modify (upd_log f)) s Q.
Proof. intros [Hr Hl] HQ. unfold wp, modify. apply HQ; [|done]. split; [done|]. simpl. by rewrite Hl. Qed.

Lemma wp_block_at s v l i (Q : Z → lst → Prop) :
  lrep s v l → 0 ≤ i < LOGSIZE → Q (lh_block l i) s → wp (block_at i) s Q.
Proof.
  intros Hl Hi HQ. unfold block_at. rewrite (proj2 (Z.leb_le 0 i)), (proj2 (Z.ltb_lt i LOGSIZE)) by lia.
  simpl. by eapply wp_get_log with (f := λ l, lh_block l i).
Qed.

Section cache.
Context (iderw : nat → K bst unit) `{!DiskDriver iderw}.

Lemma lrep_bread s v l b :
  lrep s v l → 0 ≤ b < v_size v → b ∉ v_held v → (base.size ({[b]} ∪ v_held v ∪ v_pin v) ≤ NBUF)%nat →
  wp (bio (bread iderw ROOTDEV b)) s (λ i s', lrep s' (hold b v) l ∧ lholds s' i b ∧
    ∀ j c, lholds s j c → j ≠ i ∧ lholds s' j c).
Proof.
  intros [Hr Hl] Hb Hh Hs. apply wp_bio. eapply wp_mono; [|by apply bread_spec].
  intros i c (H1&H2&H3). done.
Qed.
Lemma lrep_bwrite s v l i b :
  lrep s v l → lholds s i b →
  wp (bio (bwrite iderw i)) s (λ _ s', lrep s' (flush b v) l ∧ ∀ j c, lholds s j c → lholds s' j c).
Proof.
  intros [Hr Hl] Hh. apply wp_bio. eapply wp_mono; [|by apply bwrite_spec]. intros u c [H1 H2]. done.
Qed.
End cache.

(** ** Copying blocks *)

(** Block [i] of the sequence [blk] is set to [src i], for all [i < k]. *)
Fixpoint replay (blk : Z → Z) (src : Z → mem) (k : nat) (D : Z → mem) : Z → mem :=
  match k with
  | O => D
  | S k' => <[blk (Z.of_nat k') := src (Z.of_nat k')]> (replay blk src k' D)
  end.

Lemma replay_off blk src k D b :
  (∀ i, 0 ≤ i < Z.of_nat k → blk i ≠ b) → replay blk src k D b = D b.
Proof.
  induction k as [|k IH]; simpl; intros Hb; [done|]. rewrite fn_lookup_insert_ne by (apply Hb; lia).
  apply IH. intros i Hi. apply Hb. lia.
Qed.
Lemma replay_on blk src k D i :
  (∀ i j, 0 ≤ i < Z.of_nat k → 0 ≤ j < Z.of_nat k → blk i = blk j → i = j) →
  0 ≤ i < Z.of_nat k → replay blk src k D (blk i) = src i.
Proof.
  induction k as [|k IH]; simpl; intros Hinj Hi; [lia|]. unfold insert, fn_insert. case_decide as E.
  - f_equal. apply Hinj; [lia|lia|done].
  - apply IH; [|destruct (decide (i = Z.of_nat k)); [by subst|lia]]. intros. apply Hinj; [lia|lia|done].
Qed.
(** Copying what is there already changes nothing. *)
Lemma replay_same blk src k D :
  (∀ i, 0 ≤ i < Z.of_nat k → src i = D (blk i)) → ∀ b, replay blk src k D b = D b.
Proof.
  induction k as [|k IH]; simpl; intros Hs b; [done|]. unfold insert, fn_insert. case_decide as E.
  - subst b. apply Hs. lia.
  - apply IH. intros. apply Hs. lia.
Qed.

(** What was on the disk before each of the [k] writes, the latest first. *)
Definition replays (blk : Z → Z) (src : Z → mem) (k : nat) (D : Z → mem) : list (Z → mem) :=
  (λ j, replay blk src j D) <$> rev (seq 0 k).

Lemma replays_S blk src k D : replays blk src (S k) D = replay blk src k D :: replays blk src k D.
Proof. unfold replays. rewrite seq_S, rev_app_distr. done. Qed.

(** The view after block [a] was copied to block [c] on the disk. *)
Definition copied (a c : Z) (v : view) : view :=
  {| v_cont := <[c := v_cont v a]> (v_cont v); v_disk := <[c := v_cont v a]> (v_disk v);
     v_past := v_disk v :: v_past v; v_size := v_size v; v_held := ∅; v_pin := v_pin v ∖ {[c]} |}.

Lemma view_eq v v' :
  v_cont v = v_cont v' → v_disk v = v_disk v' → v_past v = v_past v' → v_size v = v_size v' →
  v_held v = v_held v' → v_pin v = v_pin v' → v = v'.
Proof. destruct v, v'; simpl; congruence. Qed.

Lemma lrep_eq s v v' l : v = v' → lrep s v l → lrep s v' l.
Proof. by intros ->. Qed.

Lemma size_bound (x : Z) (X : gset Z) (n : nat) : (base.size X ≤ n)%nat → (base.size ({[x]} ∪ X) ≤ S n)%nat.
Proof.
  intros H. rewrite size_union_alt, size_singleton. apply le_n_S. etrans; [|exact H].
  apply subseteq_size. set_solver.
Qed.

Section copy.
Context (iderw : nat → K bst unit) `{!DiskDriver iderw}.

Lemma copy_tail s v l a c src dst :
  lrep s v l → a ≠ c → v_held v = {[a; c]} → lholds s src a → lholds s dst c → src ≠ dst →
  a ∈ v_pin v ∨ v_cont v a = v_disk v a →
  wp (bdata src ≫= λ x, bset dst x ≫= λ _, bio (bwrite iderw dst) ≫= λ _,
      bio (brelse src) ≫= λ _, bio (brelse dst)) s (λ _ s', lrep s' (copied a c v) l).
Proof.
  intros Hr Hac Hheld Hs Hd Hne Hcl. apply wp_bind. eapply lrep_bdata; [done|exact Hs|].
  apply wp_bind. eapply wp_mono; [|apply (lrep_bset _ _ _ _ c _ Hr Hd)]. intros u s1 [Hr1 Hf1].
  apply wp_bind. eapply wp_mono; [|apply (lrep_bwrite iderw _ _ _ _ c Hr1); by apply Hf1]. intros u' s2 [Hr2 Hf2].
  apply wp_bind. eapply wp_mono; [|apply (lrep_brelse _ _ _ src a Hr2); [by apply Hf2, Hf1|]].
  2: { simpl. rewrite !fn_lookup_insert_ne by done. destruct Hcl; [left; set_solver|by right]. }
  intros u'' s3 [Hr3 Hf3]. eapply wp_mono; [|apply (lrep_brelse _ _ _ dst c Hr3)].
  - intros u3 s4 [Hr4 _]. eapply lrep_eq; [|exact Hr4]. apply view_eq; try done; simpl.
    + by rewrite fn_lookup_insert.
    + rewrite Hheld. set_solver.
  - by apply Hf3, Hf2, Hf1.
  - right. simpl. by rewrite !fn_lookup_insert.
Qed.

(** One turn of install_trans: the log block [a] goes to block [c]. *)
Lemma install_one s v l a c t :
  lrep s v l → 0 ≤ t < LOGSIZE → lh_block l t = c → v_size v ≤ 2147483648 → v_held v = ∅ → a ≠ c → 0 ≤ a < v_size v → 0 ≤ c < v_size v →
  a ∉ v_pin v → (base.size (v_pin v) < NBUF)%nat → (base.size ({[c]} ∪ v_pin v) < NBUF)%nat →
  wp (bio (bread iderw ROOTDEV a) ≫= λ i, block_at t ≫= λ b, bio (bread iderw ROOTDEV (u32 b)) ≫= λ j,
      bdata i ≫= λ x, bset j x ≫= λ _, bio (bwrite iderw j) ≫= λ _,
      bio (brelse i) ≫= λ _, bio (brelse j)) s (λ _ s', lrep s' (copied a c v) l).
Proof.
  intros Hr Ht Hbt Hz Hh Hac Ha Hc Hpin Hsz Hsz'. apply wp_bind.
  eapply wp_mono; [|apply (lrep_bread iderw s v l a Hr Ha)]; [|set_solver|].
  2: { rewrite Hh, union_empty_r_L. apply (size_bound _ _ 29). unfold NBUF in *. lia. }
  intros i s1 (Hr1&Hi&_). apply wp_bind. eapply wp_block_at; [done..|]. rewrite Hbt.
  rewrite u32_small by (unfold is_u32; lia). apply wp_bind.
  eapply wp_mono; [|apply (lrep_bread iderw s1 _ l c Hr1 Hc)]; simpl; [|rewrite Hh; set_solver|].
  2: { rewrite Hh, union_empty_r_L, (comm_L (∪) {[c]}), <- (assoc_L (∪)). apply (size_bound _ _ 29). unfold NBUF in *. lia. }
  intros j s2 (Hr2&Hj&Hf2). destruct (Hf2 _ _ Hi) as [Hij Hi2].
  assert (Hcl : v_cont v a = v_disk v a).
  { destruct Hr as [Hr _]. apply (r_clean _ _ Hr). rewrite Hh. set_solver. }
  apply (copy_tail s2 _ l a c i j Hr2 Hac); [simpl; rewrite Hh; set_solver|done..|by right].
Qed.

(** One turn of write_log: block [a] of the transaction goes to log block [c]. *)
Lemma write_one s v l a c t :
  lrep s v l → 0 ≤ t < LOGSIZE → lh_block l t = a → v_size v ≤ 2147483648 → v_held v = ∅ → a ≠ c → 0 ≤ a < v_size v → 0 ≤ c < v_size v →
  a ∈ v_pin v → (base.size (v_pin v) < NBUF)%nat →
  wp (bio (bread iderw ROOTDEV c) ≫= λ i, block_at t ≫= λ b, bio (bread iderw ROOTDEV (u32 b)) ≫= λ j,
      bdata j ≫= λ x, bset i x ≫= λ _, bio (bwrite iderw i) ≫= λ _,
      bio (brelse j) ≫= λ _, bio (brelse i)) s (λ _ s', lrep s' (copied a c v) l).
Proof.
  intros Hr Ht Hbt Hz Hh Hac Ha Hc Hpin Hsz. apply wp_bind.
  eapply wp_mono; [|apply (lrep_bread iderw s v l c Hr Hc)]; [|set_solver|].
  2: { rewrite Hh, union_empty_r_L. apply (size_bound _ _ 29). unfold NBUF in *. lia. }
  intros i s1 (Hr1&Hi&_). apply wp_bind. eapply wp_block_at; [done..|]. rewrite Hbt.
  rewrite u32_small by (unfold is_u32; lia). apply wp_bind.
  eapply wp_mono; [|apply (lrep_bread iderw s1 _ l a Hr1 Ha)]; simpl; [|rewrite Hh; set_solver|].
  2: { rewrite Hh, union_empty_r_L. etrans; [|apply (size_bound c (v_pin v) 29)]; [|unfold NBUF in Hsz; lia].
       apply subseteq_size. set_solver. }
  intros j s2 (Hr2&Hj&Hf2). destruct (Hf2 _ _ Hi) as [Hij Hi2].
  apply (copy_tail s2 _ l a c j i Hr2 Hac); [simpl; rewrite Hh; set_solver|done..|by left].
Qed.
End copy.

(** ** The log and its header *)

(** The first [k] blocks of the transaction. *)
Definition firsts (blk : Z → Z) (k : nat) : gset Z := list_to_set ((λ i, blk (Z.of_nat i)) <$> seq 0 k).

Lemma elem_of_firsts blk k b : b ∈ firsts blk k ↔ ∃ i, 0 ≤ i < Z.of_nat k ∧ b = blk i.
Proof.
  unfold firsts. rewrite elem_of_list_to_set, list_elem_of_fmap. split.
  - intros (i&->&Hi%elem_of_seq). exists (Z.of_nat i). split; [lia|done].
  - intros (i&Hi&->). exists (Z.to_nat i). rewrite elem_of_seq, Z2Nat.id by lia. split; [done|lia].
Qed.
Lemma firsts_S blk k : firsts blk (S k) = {[blk (Z.of_nat k)]} ∪ firsts blk k.
Proof.
  apply set_eq. intros b. rewrite elem_of_union, elem_of_singleton, !elem_of_firsts. split.
  - intros (i&Hi&->). destruct (decide (i = Z.of_nat k)) as [->|]; [by left|right]. exists i. split; [lia|done].
  - intros [->|(i&Hi&->)]; eexists; (split; [|done]); lia.
Qed.
Lemma size_firsts blk k : (base.size (firsts blk k) ≤ k)%nat.
Proof. induction k as [|k IH]; [done|]. rewrite firsts_S. by apply size_bound. Qed.

Definition in_log (l : log) (b : Z) : Prop := start l ≤ b < start l + size l.

(** The log lies on the disk, and the transaction fits in it and is about
    blocks outside it. *)
Record log_ok (l : log) (z : Z) : Prop := {
  lo_dev : ldev l = ROOTDEV;
  lo_start : 0 ≤ start l;
  lo_end : start l + size l ≤ z;
  lo_small : z ≤ 2147483648;
  lo_n : 0 ≤ lh_n l < size l;
  lo_room : lh_n l < LOGSIZE;
  lo_block i : 0 ≤ i < lh_n l → 0 ≤ lh_block l i < z ∧ ¬ in_log l (lh_block l i)
}.

Definition lh_len (l : log) : nat := Z.to_nat (lh_n l).
Definition lh_set (l : log) : gset Z := firsts (lh_block l) (lh_len l).
Definition log_block (l : log) (i : Z) : Z := start l + i + 1.

Lemma log_block_in l z i : log_ok l z → 0 ≤ i < lh_n l → in_log l (log_block l i) ∧ 0 ≤ log_block l i < z.
Proof. intros [] Hi. unfold in_log, log_block. lia. Qed.

(** The view after the first [k] blocks were copied. *)
Definition copying (blk : Z → Z) (src : Z → mem) (k : nat) (v : view) : view :=
  {| v_cont := replay blk src k (v_cont v); v_disk := replay blk src k (v_disk v);
     v_past := replays blk src k (v_disk v) ++ v_past v; v_size := v_size v;
     v_held := ∅; v_pin := v_pin v ∖ firsts blk k |}.

Lemma copying_0 blk src v : v_held v = ∅ → copying blk src 0 v = v.
Proof. intros Hh. apply view_eq; try done; simpl. set_solver. Qed.
Lemma copying_S blk src k v a :
  v_cont (copying blk src k v) a = src (Z.of_nat k) →
  copied a (blk (Z.of_nat k)) (copying blk src k v) = copying blk src (S k) v.
Proof.
  intros Ha. apply view_eq; try done; simpl in *; rewrite ?Ha; [done|done|..].
  - by rewrite replays_S.
  - rewrite firsts_S. set_solver.
Qed.

Section parts.
Context (iderw : nat → K bst unit) `{!DiskDriver iderw}.

Lemma install_trans_spec s v l :
  lrep s v l → log_ok l (v_size v) → v_held v = ∅ → v_pin v ⊆ lh_set l →
  wp (install_trans iderw) s (λ _ s',
    lrep s' (copying (lh_block l) (λ i, v_cont v (log_block l i)) (lh_len l) v) l).
Proof.
  intros Hr Hok Hh Hpin. unfold install_trans. apply wp_bind. eapply wp_get_log; [done|].
  apply (wp_for_seq _ (λ k s', lrep s' (copying (lh_block l) (λ i, v_cont v (log_block l i)) k v) l)).
  { by rewrite copying_0. }
  intros k s1 Hk Hr1. apply wp_bind. eapply wp_get_log; [done|]. apply wp_bind. eapply wp_get_log; [done|].
  destruct (log_block_in l _ (Z.of_nat k) Hok) as [Hin Hrange]; [lia|].
  destruct (lo_block _ _ Hok (Z.of_nat k)) as [Hb Hnin]; [lia|]. pose proof (lo_small _ _ Hok).
  pose proof (lo_room _ _ Hok). rewrite (lo_dev _ _ Hok).
  rewrite (u32_small (start l + Z.of_nat k + 1)) by (unfold is_u32, log_block in *; lia).
  fold (log_block l (Z.of_nat k)).
  assert (Hni : ∀ i, 0 ≤ i < lh_n l → lh_block l i ≠ log_block l (Z.of_nat k)).
  { intros i Hi Heq. destruct (lo_block _ _ Hok i Hi) as [_ H']. rewrite Heq in H'. done. }
  assert (Hsz : (base.size (lh_set l) < NBUF)%nat).
  { pose proof (size_firsts (lh_block l) (lh_len l)). unfold lh_set, NBUF, lh_len, LOGSIZE, MAXOPBLOCKS in *. lia. }
  assert (Hbk : lh_block l (Z.of_nat k) ∈ lh_set l).
  { apply elem_of_firsts. exists (Z.of_nat k). unfold lh_len. split; [lia|done]. }
  eapply wp_mono; [|apply (install_one iderw s1 _ l (log_block l (Z.of_nat k))
    (lh_block l (Z.of_nat k)) (Z.of_nat k) Hr1)]; try done.
  - intros u s' Hs'. eapply lrep_eq; [|exact Hs']. apply copying_S.
    simpl. apply replay_off. intros i Hi. apply Hni. lia.
  - lia.
  - intros Heq. apply (Hni (Z.of_nat k)); [lia|done].
  - simpl. intros [Ha _]%elem_of_difference. apply Hpin, elem_of_firsts in Ha as (i&Hi&Heq).
    apply (Hni i); [unfold lh_len in *; lia|done].
  - eapply Nat.le_lt_trans; [|exact Hsz]. apply subseteq_size. simpl. set_solver.
  - eapply Nat.le_lt_trans; [|exact Hsz]. apply subseteq_size. simpl. set_solver.
Qed.

Lemma write_log_spec s v l :
  lrep s v l → log_ok l (v_size v) → v_held v = ∅ → v_pin v = lh_set l →
  wp (write_log iderw) s (λ _ s',
    lrep s' (copying (log_block l) (λ i, v_cont v (lh_block l i)) (lh_len l) v) l).
Proof.
  intros Hr Hok Hh Hpin. unfold write_log. apply wp_bind. eapply wp_get_log; [done|].
  apply (wp_for_seq _ (λ k s', lrep s' (copying (log_block l) (λ i, v_cont v (lh_block l i)) k v) l)).
  { by rewrite copying_0. }
  intros k s1 Hk Hr1. apply wp_bind. eapply wp_get_log; [done|]. apply wp_bind. eapply wp_get_log; [done|].
  destruct (log_block_in l _ (Z.of_nat k) Hok) as [Hin Hrange]; [lia|].
  destruct (lo_block _ _ Hok (Z.of_nat k)) as [Hb Hnin]; [lia|]. pose proof (lo_small _ _ Hok).
  pose proof (lo_room _ _ Hok). rewrite (lo_dev _ _ Hok).
  rewrite (u32_small (start l + Z.of_nat k + 1)) by (unfold is_u32, log_block in *; lia).
  fold (log_block l (Z.of_nat k)).
  assert (Hsz : (base.size (lh_set l) < NBUF)%nat).
  { pose proof (size_firsts (lh_block l) (lh_len l)). unfold lh_set, NBUF, lh_len, LOGSIZE, MAXOPBLOCKS in *. lia. }
  assert (Hni : ∀ i, 0 ≤ i < lh_n l → log_block l i ≠ lh_block l (Z.of_nat k)).
  { intros i Hi Heq. destruct (log_block_in l _ i Hok Hi) as [Hi' _]. by rewrite Heq in Hi'. }
  eapply wp_mono; [|apply (write_one iderw s1 _ l (lh_block l (Z.of_nat k))
    (log_block l (Z.of_nat k)) (Z.of_nat k) Hr1)]; try done.
  - intros u s' Hs'. eapply lrep_eq; [|exact Hs']. apply copying_S.
    simpl. apply replay_off. intros i Hi. apply Hni. lia.
  - lia.
  - intros Heq. apply (Hni (Z.of_nat k)); [lia|done].
  - simpl. apply elem_of_difference. split.
    + rewrite Hpin. apply elem_of_firsts. exists (Z.of_nat k). unfold lh_len. split; [lia|done].
    + intros (i&Hi&Heq)%elem_of_firsts. apply (Hni i); [lia|done].
  - eapply Nat.le_lt_trans; [|exact Hsz]. apply subseteq_size. simpl. set_solver.
Qed.
End parts.

(** *** The header block *)

(** The header [d] after n and the first [k] block numbers were stored. *)
Fixpoint head_mem (d : mem) (n : Z) (blk : Z → Z) (k : nat) : mem :=
  match k with
  | O => wr32 d 0 n
  | S k' => wr32 (head_mem d n blk k') (4 + 4 * Z.of_nat k') (blk (Z.of_nat k'))
  end.

Lemma head_mem_n d n blk k : 0 ≤ n < 2147483648 → hb_n (head_mem d n blk k) = n.
Proof.
  intros Hn. unfold hb_n. induction k as [|k IH]; simpl.
  - rewrite rd32_wr32_eq by (unfold is_u32; lia). apply s32_small. lia.
  - rewrite rd32_wr32_ne by lia. done.
Qed.
Lemma head_mem_block d n blk k i :
  0 ≤ i < Z.of_nat k → 0 ≤ blk i < 2147483648 → hb_block (head_mem d n blk k) i = blk i.
Proof.
  intros Hi Hb. unfold hb_block. induction k as [|k IH]; simpl; [lia|].
  destruct (decide (i = Z.of_nat k)) as [->|Hne].
  - rewrite rd32_wr32_eq by (unfold is_u32; lia). apply s32_small. lia.
  - rewrite rd32_wr32_ne by lia. apply IH. lia.
Qed.

Definition with_cont (f : Z → mem) (v : view) : view :=
  {| v_cont := f; v_disk := v_disk v; v_past := v_past v; v_size := v_size v;
     v_held := v_held v; v_pin := v_pin v |}.

Lemma lrep_cont s v l f : lrep s v l → (∀ b, f b = v_cont v b) → lrep s (with_cont f v) l.
Proof.
  intros [[H1 H2 H3 H4 H5 H6 H7 H8] Hl] Hf. split; [|done]. split; try done.
  - intros i Hi. destruct (H2 i Hi) as [Hu|Hc]; [by left|right]. destruct Hc. split; try done.
    simpl. by rewrite Hf.
  - intros b Hb. simpl. rewrite Hf. by apply H5.
Qed.

(** The view after the header block [b] was set to [h] on the disk. *)
Definition headed (b : Z) (h : mem) (v : view) : view :=
  {| v_cont := <[b := h]> (v_cont v); v_disk := <[b := h]> (v_disk v); v_past := v_disk v :: v_past v;
     v_size := v_size v; v_held := ∅; v_pin := v_pin v |}.

Section head.
Context (iderw : nat → K bst unit) `{!DiskDriver iderw}.

Lemma write_head_spec s v l :
  lrep s v l → log_ok l (v_size v) → v_held v = ∅ → v_pin v ⊆ lh_set l →
  wp (write_head iderw) s (λ _ s',
    lrep s' (headed (start l) (head_mem (v_cont v (start l)) (lh_n l) (lh_block l) (lh_len l)) v) l).
Proof.
  intros Hr Hok Hh Hpin. unfold write_head. apply wp_bind. eapply wp_get_log; [done|].
  apply wp_bind. eapply wp_get_log; [done|]. rewrite (lo_dev _ _ Hok).
  assert (Hst : start l ∉ v_pin v).
  { intros (i&Hi&Heq)%Hpin%elem_of_firsts. destruct (lo_block _ _ Hok i) as [_ Hn]; [unfold lh_len in *; lia|].
    apply Hn. rewrite <- Heq. unfold in_log. pose proof (lo_n _ _ Hok). lia. }
  assert (Hsz : (base.size (v_pin v) < NBUF)%nat).
  { apply subseteq_size in Hpin. pose proof (size_firsts (lh_block l) (lh_len l)). pose proof (lo_room _ _ Hok).
    unfold lh_set, NBUF, lh_len, LOGSIZE, MAXOPBLOCKS in *. lia. }
  apply wp_bind. eapply wp_mono; [|apply (lrep_bread iderw s v l (start l) Hr)].
  2: { destruct Hok. lia. }
  2: set_solver.
  2: { rewrite Hh, union_empty_r_L. apply (size_bound _ _ 29). unfold NBUF in *. lia. }
  intros i s1 (Hr1&Hi1&_). apply wp_bind. eapply wp_get_log; [done|].
  apply wp_bind. eapply lrep_bdata; [done|exact Hi1|]. simpl.
  set (hm := head_mem (v_cont v (start l)) (lh_n l) (lh_block l)).
  set (vk := λ k, with_cont (<[start l := hm k]> (v_cont v)) (hold (start l) v)).
  apply wp_bind. eapply wp_mono; [|apply (lrep_bset _ _ _ _ _ (hm 0%nat) Hr1 Hi1)]. intros u s2 [Hr2 Hf2].
  apply wp_bind. eapply wp_mono; [|apply (wp_for_seq _ (λ k s', lrep s' (vk k) l ∧ lholds s' i (start l)))].
  2: { split; [exact Hr2|by apply Hf2]. }
  2: { intros k s3 Hk [Hr3 Hi3]. apply wp_bind. eapply wp_block_at; [done| |].
    { pose proof (lo_room _ _ Hok). lia. }
    apply wp_bind. eapply lrep_bdata; [done|exact Hi3|]. simpl. rewrite fn_lookup_insert.
    eapply wp_mono; [|apply (lrep_bset _ _ _ _ _ (hm (S k)) Hr3 Hi3)]. intros u' s4 [Hr4 Hf4].
    split; [|by apply Hf4]. apply (lrep_cont _ _ _ (<[start l := hm (S k)]> (v_cont v)) Hr4).
    intros b. simpl. unfold insert, fn_insert. by case_decide. }
  intros u' s3 [Hr3 Hi3]. fold (lh_len l) in Hr3.
  apply wp_bind. eapply wp_mono; [|apply (lrep_bwrite iderw _ _ _ _ _ Hr3 Hi3)]. intros u'' s4 [Hr4 Hf4].
  eapply wp_mono; [|apply (lrep_brelse _ _ _ i (start l) Hr4)]; [|by apply Hf4|].
  - intros u3 s5 [Hr5 _]. eapply lrep_eq; [|exact Hr5]. apply view_eq; try done; simpl.
    + by rewrite fn_lookup_insert.
    + rewrite Hh. set_solver.
    + set_solver.
  - right. simpl. by rewrite !fn_lookup_insert.
Qed.

Lemma block_set_spec s v l i b :
  lrep s v l → 0 ≤ i < LOGSIZE →
  wp (block_set i b) s (λ _ s', lrep s' v (set_lh_block i b l) ∧ cache s' = cache s).
Proof.
  intros Hr Hi. unfold block_set. rewrite (proj2 (Z.leb_le 0 i)), (proj2 (Z.ltb_lt i LOGSIZE)) by lia.
  simpl. eapply lrep_upd_log; [done|]. done.
Qed.

(** The log [l'] is [l] with the header [h] loaded. *)
Definition loaded (h : mem) (l l' : log) : Prop :=
  start l' = start l ∧ size l' = size l ∧ outstanding l' = outstanding l ∧
  committing l' = committing l ∧ ldev l' = ldev l ∧
  lh_n l' = hb_n h ∧ ∀ i, 0 ≤ i < hb_n h → lh_block l' i = hb_block h i.

Lemma read_head_spec s v l h :
  lrep s v l → ldev l = ROOTDEV → 0 ≤ start l < v_size v → v_held v = ∅ → (base.size (v_pin v) < NBUF)%nat →
  start l ∈ v_pin v ∨ v_cont v (start l) = v_disk v (start l) →
  v_cont v (start l) = h → hb_n h ≤ LOGSIZE →
  wp (read_head iderw) s (λ _ s', ∃ l', lrep s' v l' ∧ loaded h l l').
Proof.
  intros Hr Hdev Hst Hh Hsz Hcl Hhd Hn. unfold read_head. apply wp_bind. eapply wp_get_log; [done|].
  apply wp_bind. eapply wp_get_log; [done|]. rewrite Hdev.
  apply wp_bind. eapply wp_mono; [|apply (lrep_bread iderw s v l (start l) Hr Hst)]; [|set_solver|].
  2: { rewrite Hh, union_empty_r_L. apply (size_bound _ _ 29). unfold NBUF in *. lia. }
  intros i s1 (Hr1&Hi1&_). apply wp_bind. eapply lrep_bdata; [done|exact Hi1|]. simpl. rewrite Hhd.
  apply wp_bind. eapply lrep_upd_log; [done|]. intros s2 Hr2 Hc2.
  apply wp_bind. eapply wp_mono; [|apply (wp_for_seq _ (λ k s', ∃ l', lrep s' (hold (start l) v) l' ∧
    lholds s' i (start l) ∧ start l' = start l ∧ size l' = size l ∧ outstanding l' = outstanding l ∧
    committing l' = committing l ∧ ldev l' = ldev l ∧ lh_n l' = hb_n h ∧
    ∀ j, 0 ≤ j < Z.of_nat k → lh_block l' j = hb_block h j))].
  - intros u s3 (l'&Hr3&Hi3&H1&H2&H3&H4&H5&H6&H7).
    eapply wp_mono; [|apply (lrep_brelse _ _ _ i (start l) Hr3 Hi3)].
    + intros u' s4 [Hr4 _]. exists l'. split; [|split_and!; try done; intros j Hj; apply H7; lia].
      eapply lrep_eq; [|exact Hr4]. apply view_eq; try done; simpl. rewrite Hh. set_solver.
    + simpl. done.
  - exists (set_lh_n (hb_n h) l). split_and!; try done; [unfold lholds; by rewrite Hc2|]. simpl. lia.
  - intros k s3 Hk (l'&Hr3&Hi3&H1&H2&H3&H4&H5&H6&H7).
    eapply wp_mono; [|apply (block_set_spec _ _ _ _ _ Hr3); lia]. intros u s4 [Hr4 Hc4].
    exists (set_lh_block (Z.of_nat k) (hb_block h (Z.of_nat k)) l').
    split_and!; try done; [unfold lholds; by rewrite Hc4|]. simpl. intros j Hj.
    unfold insert, fn_insert. case_decide; [by subst|]. apply H7. lia.
Qed.

(** A log header that makes sense on a disk of [z] blocks. *)
Record head_ok (st sz z : Z) (h : mem) : Prop := {
  ho_n : 0 ≤ hb_n h < sz;
  ho_room : hb_n h < LOGSIZE;
  ho_block i : 0 ≤ i < hb_n h → 0 ≤ hb_block h i < z ∧ ¬ (st ≤ hb_block h i < st + sz)
}.

(** The disk after recovery, but for the header. *)
Definition recovered (st : Z) (D : Z → mem) : Z → mem :=
  replay (hb_block (D st)) (λ i, D (st + i + 1)) (Z.to_nat (hb_n (D st))) D.

Lemma replay_ext blk blk' src src' k D :
  (∀ i, 0 ≤ i < Z.of_nat k → blk' i = blk i ∧ src' i = src i) → replay blk' src' k D = replay blk src k D.
Proof.
  induction k as [|k IH]; simpl; intros H; [done|]. destruct (H (Z.of_nat k)) as [-> ->]; [lia|].
  rewrite IH; [done|]. intros. apply H. lia.
Qed.

Lemma replays_ext blk blk' src src' k D :
  (∀ i, 0 ≤ i < Z.of_nat k → blk' i = blk i ∧ src' i = src i) → replays blk' src' k D = replays blk src k D.
Proof.
  intros H. unfold replays. apply list_fmap_ext. intros j x Hx%list_elem_of_lookup_2.
  rewrite list_elem_of_In, <- in_rev, <- list_elem_of_In in Hx. apply elem_of_seq in Hx.
  apply replay_ext. intros i Hi. apply H. lia.
Qed.

Lemma recover_spec s v l :
  lrep s v l → ldev l = ROOTDEV → 0 ≤ start l → start l + size l ≤ v_size v → v_size v ≤ 2147483648 →
  v_held v = ∅ → v_pin v = ∅ → head_ok (start l) (size l) (v_size v) (v_disk v (start l)) →
  wp (recover_from_log iderw) s (λ _ s', ∃ v' l' h0, lrep s' v' l' ∧
    v_held v' = ∅ ∧ v_pin v' = ∅ ∧ v_size v' = v_size v ∧ hb_n h0 = 0 ∧
    v_disk v' = <[start l := h0]> (recovered (start l) (v_disk v)) ∧
    v_past v' = recovered (start l) (v_disk v) ::
      replays (hb_block (v_disk v (start l))) (λ i, v_disk v (start l + i + 1))
        (Z.to_nat (hb_n (v_disk v (start l)))) (v_disk v) ++ v_past v ∧
    start l' = start l ∧ size l' = size l ∧ ldev l' = ROOTDEV ∧ lh_n l' = 0 ∧
    outstanding l' = outstanding l ∧ committing l' = committing l).
Proof.
  intros Hr Hdev Hst Hend Hz Hh Hp [Hn Hroom Hblk]. set (h := v_disk v (start l)) in *.
  assert (Hcd : ∀ b, v_cont v b = v_disk v b).
  { intros b. destruct Hr as [Hr _]. apply (r_clean _ _ Hr). set_solver. }
  unfold recover_from_log. apply wp_bind.
  eapply wp_mono; [|apply (read_head_spec s v l h Hr Hdev); [lia|done| | |apply Hcd|lia]].
  2: { rewrite Hp. unfold NBUF. rewrite size_empty. lia. }
  2: by right.
  intros u s1 (l1&Hr1&E1&E2&E3&E4&E5&E6&E7).
  assert (Hok : log_ok l1 (v_size v)).
  { split; try congruence; try lia. intros i Hi. rewrite E7 by lia. unfold in_log. rewrite E1, E2.
    apply Hblk. lia. }
  apply wp_bind. eapply wp_mono; [|apply (install_trans_spec iderw s1 v l1 Hr1 Hok Hh)]; [|set_solver].
  intros u' s2 Hr2. apply wp_bind. eapply lrep_upd_log; [exact Hr2|]. intros s3 Hr3 _.
  set (v2 := copying _ _ _ _) in *.
  assert (Hsame : ∀ i, 0 ≤ i < Z.of_nat (lh_len l1) →
    lh_block l1 i = hb_block h i ∧ v_cont v (log_block l1 i) = v_disk v (start l + i + 1)).
  { unfold lh_len. rewrite E6. intros i Hi. rewrite E7 by lia. unfold log_block. by rewrite E1, Hcd. }
  assert (Hdisk : v_disk v2 = recovered (start l) (v_disk v)).
  { simpl. rewrite (replay_ext _ _ _ _ _ _ Hsame). unfold recovered, lh_len. by rewrite E6. }
  eapply wp_mono; [|apply (write_head_spec s3 v2 _ Hr3)]; [|..].
  - intros u'' s4 Hr4. eexists _, _, _. split; [exact Hr4|]. cbn [headed v_held v_pin v_size v_disk v_past].
    rewrite Hdisk. simpl start. rewrite E1. split_and!; try done; simpl; try congruence.
    + rewrite Hp. set_solver.
    + apply (head_mem_n _ 0 (λ _, 0) 0). lia.
    + rewrite (replays_ext _ _ _ _ _ _ Hsame). unfold lh_len. by rewrite E6.
  - destruct Hok. split; simpl; try done; lia.
  - done.
  - simpl. rewrite Hp. set_solver.
Qed.
End head.
