(* ===== verification/Crash.v ===== *)
(** Crash safety of the log (src/log.c): what commit() writes to the disk, in
    which order, and what recovery makes of the disk wherever the machine stops.

    [past] of the buffer cache's state lists every content the disk has had, so
    a crash is the choice of one of them; a reboot runs binit() and initlog() on
    it from scratch. *)

From Stdlib Require Import ZArith Lia.
From stdpp Require Import base tactics numbers gmap strings functions relations list.
From S2P Require Import Prelude Memory Monitor Sleeplock Buf Bio Log.

#[local] Open Scope Z_scope.

(** ** commit *)

(** A transaction that is ready to be committed. *)
Record transaction (s : lst) (v : view) (l : log) : Prop := {
  tx_rep : lrep s v l;
  tx_log : log_ok l (v_size v);
  tx_held : v_held v = ∅;
  tx_pin : v_pin v = lh_set l;
  tx_clear : hb_n (v_disk v (start l)) = 0
}.

(** The contents of the disk during the commit: the log blocks, then the
    header, then the home blocks, then the header again. *)
Definition disk_logged (v : view) (l : log) : Z → mem :=
  replay (log_block l) (λ i, v_cont v (lh_block l i)) (lh_len l) (v_disk v).
Definition disk_headed (h : mem) (v : view) (l : log) : Z → mem := <[start l := h]> (disk_logged v l).
Definition disk_installed (h : mem) (v : view) (l : log) : Z → mem :=
  replay (lh_block l) (λ i, v_cont v (lh_block l i)) (lh_len l) (disk_headed h v l).

Definition head_of (h : mem) (l : log) : Prop :=
  hb_n h = lh_n l ∧ ∀ i, 0 ≤ i < lh_n l → hb_block h i = lh_block l i.

Lemma lh_set_log l z i : log_ok l z → 0 ≤ i < lh_n l → log_block l i ∉ lh_set l.
Proof.
  intros Hok Hi (j&Hj&Heq)%elem_of_firsts. destruct (log_block_in l z i Hok Hi) as [Hin _].
  rewrite Heq in Hin. destruct (lo_block _ _ Hok j) as [_ Hn]; [unfold lh_len in *; lia|]. done.
Qed.

Lemma lh_set_empty l b : lh_n l = 0 → b ∉ lh_set l.
Proof. intros H (i&Hi&_)%elem_of_firsts. unfold lh_len in Hi. lia. Qed.

Section commit.
Context (iderw : nat → K bst unit) `{!DiskDriver iderw}.

Lemma commit_spec s v l :
  transaction s v l → 0 < lh_n l →
  wp (commit iderw) s (λ _ s', ∃ v' h h0, lrep s' v' (set_lh_n 0 l) ∧ head_of h l ∧ hb_n h0 = 0 ∧
    v_held v' = ∅ ∧ v_pin v' = ∅ ∧ v_size v' = v_size v ∧
    v_disk v' = <[start l := h0]> (disk_installed h v l) ∧
    v_past v' = disk_installed h v l ::
      replays (lh_block l) (λ i, v_cont v (lh_block l i)) (lh_len l) (disk_headed h v l) ++
      disk_logged v l ::
      replays (log_block l) (λ i, v_cont v (lh_block l i)) (lh_len l) (v_disk v) ++ v_past v).
Proof.
  intros [Hr Hok Hh Hpin _] Hn. unfold commit. apply wp_bind. eapply wp_get_log; [done|].
  rewrite (proj2 (Z.ltb_lt 0 (lh_n l)) Hn). cbn [when].
  apply wp_bind. eapply wp_mono; [|by apply (write_log_spec iderw s v l)]. intros u1 s1 Hr1.
  set (v1 := copying _ _ _ v) in Hr1. cbv beta in Hr1.
  assert (Hpin1 : v_pin v1 = lh_set l).
  { simpl. rewrite Hpin. apply set_eq. intros b. rewrite elem_of_difference. split; [by intros []|].
    intros Hb. split; [done|]. intros (i&Hi&->)%elem_of_firsts.
    apply (lh_set_log _ _ i Hok); [unfold lh_len in *; lia|done]. }
  apply wp_bind. eapply wp_mono; [|apply (write_head_spec iderw s1 v1 l Hr1 Hok eq_refl); by rewrite Hpin1].
  intros u2 s2 Hr2. set (h := head_mem _ _ _ _) in Hr2. set (v2 := headed _ h v1) in Hr2. cbv beta in Hr2.
  apply wp_bind. eapply wp_mono; [|apply (install_trans_spec iderw s2 v2 l Hr2 Hok eq_refl)].
  2: { simpl v_pin. by rewrite <- Hpin1. }
  intros u3 s3 Hr3. set (v3 := copying _ _ _ v2) in Hr3. cbv beta in Hr3.
  apply wp_bind. eapply lrep_upd_log; [exact Hr3|]. intros s4 Hr4 _.
  eapply wp_mono; [|apply (write_head_spec iderw s4 v3 _ Hr4)].
  - intros u5 s5 Hr5. cbv beta in Hr5.
    assert (Hsame : ∀ i, 0 ≤ i < Z.of_nat (lh_len l) →
      lh_block l i = lh_block l i ∧ v_cont v2 (log_block l i) = v_cont v (lh_block l i)).
    { intros i Hi. split; [done|]. unfold lh_len in Hi. pose proof (lo_n _ _ Hok). simpl.
      rewrite fn_lookup_insert_ne by (unfold log_block; lia).
      apply (replay_on (log_block l) (λ i, v_cont v (lh_block l i))); [|unfold lh_len; lia].
      unfold log_block. lia. }
    eexists _, h, (wr32 (v_cont v3 (start l)) 0 0). split; [exact Hr5|]. split.
    { pose proof (lo_n _ _ Hok). pose proof (lo_small _ _ Hok). pose proof (lo_end _ _ Hok).
      pose proof (lo_start _ _ Hok). split; [apply head_mem_n; lia|].
      intros i Hi. destruct (lo_block _ _ Hok i Hi). apply head_mem_block; unfold lh_len; lia. }
    split; [apply (head_mem_n _ 0 (λ _, 0) 0); lia|].
    split; [done|]. cbn [headed v_pin v_size v_disk v_past v3 copying].
    change (v_disk v2) with (disk_headed h v l).
    rewrite (replay_ext _ _ _ _ _ _ Hsame), (replays_ext _ _ _ _ _ _ Hsame).
    split; [|done]. change (v_pin v2) with (v_pin v1). rewrite Hpin1. unfold lh_set. set_solver.
  - destruct Hok. split; simpl; try done; lia.
  - done.
  - change (v_pin v1 ∖ lh_set l ⊆ lh_set (set_lh_n 0 l)). rewrite Hpin1. set_solver.
Qed.
End commit.

(** ** Recovery *)

Lemma replay_val blk src n D b x :
  (∀ i, 0 ≤ i < Z.of_nat n → blk i = b → src i = x) →
  (∃ i, 0 ≤ i < Z.of_nat n ∧ blk i = b) → replay blk src n D b = x.
Proof.
  induction n as [|n IH]; intros Hx (i&Hi&Hb); [lia|]. simpl. unfold insert, fn_insert. case_decide as E.
  - apply Hx; [lia|done].
  - apply IH; [intros j Hj; apply Hx; lia|]. exists i. split; [|done].
    destruct (decide (i = Z.of_nat n)); [by subst|lia].
Qed.

Lemma replay_det blk src n D D' b :
  (∃ i, 0 ≤ i < Z.of_nat n ∧ blk i = b) ∨ D b = D' b → replay blk src n D b = replay blk src n D' b.
Proof.
  induction n as [|n IH]; intros Hb; simpl; [destruct Hb as [(i&Hi&_)|]; [lia|done]|].
  unfold insert, fn_insert. case_decide as E; [done|]. apply IH. destruct Hb as [(i&Hi&Hb)|]; [|by right].
  left. exists i. split; [|done]. destruct (decide (i = Z.of_nat n)); [by subst|lia].
Qed.

Lemma replay_over blk src n k D b : (k ≤ n)%nat → replay blk src n (replay blk src k D) b = replay blk src n D b.
Proof.
  intros Hk. apply replay_det.
  destruct (decide (b ∈ firsts blk n)) as [(i&Hi&->)%elem_of_firsts|Hn]; [left; eauto|right].
  apply replay_off. intros i Hi Hb. apply Hn, elem_of_firsts. exists i. split; [lia|done].
Qed.

Lemma elem_of_replays blk src n D0 D : D ∈ replays blk src n D0 → ∃ k, (k ≤ n)%nat ∧ D = replay blk src k D0.
Proof.
  intros (k&->&Hk)%list_elem_of_fmap. rewrite list_elem_of_In, <- in_rev, <- list_elem_of_In in Hk.
  apply elem_of_seq in Hk. exists k. split; [lia|done].
Qed.

Section recovery.
(** The place of the log on a disk of [z] blocks, after the superblock. *)
Context (st sz z : Z).
Context (Hst : 1 < st) (Hsz : 0 < sz) (Hend : st + sz ≤ z) (Hz : z ≤ 2147483648).

Definition home (b : Z) : Prop := ¬ (st ≤ b < st + sz).

(** The disk [D] has a superblock and a log from which recovery restores the
    blocks [T]. *)
Record recoverable (T D : Z → mem) : Prop := {
  rc_start : sb_logstart (D 1) = st;
  rc_size : sb_nlog (D 1) = sz;
  rc_head : head_ok st sz z (D st);
  rc_super i : 0 ≤ i < hb_n (D st) → hb_block (D st) i ≠ 1;
  rc_target b : home b → recovered st D b = T b
}.

Lemma recoverable_clear T D h0 :
  sb_logstart (D 1) = st → sb_nlog (D 1) = sz → hb_n h0 = 0 → (∀ b, home b → D b = T b) →
  recoverable T (<[st := h0]> D).
Proof.
  intros H1 H2 H0 HD.
  assert (Hs : (<[st := h0]> D : Z → mem) st = h0) by apply fn_lookup_insert.
  assert (H1' : (<[st := h0]> D : Z → mem) 1 = D 1) by (apply fn_lookup_insert_ne; lia).
  split; rewrite ?H1'; try done.
  - rewrite Hs. split; rewrite H0; [lia|unfold LOGSIZE, MAXOPBLOCKS; lia|lia].
  - rewrite Hs, H0. lia.
  - intros b Hb. unfold recovered. rewrite Hs, H0. simpl.
    rewrite fn_lookup_insert_ne by (unfold home in Hb; lia). by apply HD.
Qed.

(** Recovery keeps the disk recoverable at every one of its writes. *)
Lemma recoverable_replay T D k :
  recoverable T D → (k ≤ Z.to_nat (hb_n (D st)))%nat →
  recoverable T (replay (hb_block (D st)) (λ i, D (st + i + 1)) k D).
Proof.
  intros [H1 H2 [Hn Hr Hb] Hsup Ht] Hk. set (D' := replay _ _ _ _).
  assert (Hoff : ∀ b, ¬ home b ∨ b = 1 → D' b = D b).
  { intros b Hbb. apply replay_off. intros i Hi <-. destruct (Hb i) as [_ Hn']; [lia|].
    destruct Hbb as [Hh|Hb1]; [by apply Hh|]. apply (Hsup i); [lia|done]. }
  assert (Es : D' st = D st) by (apply Hoff; left; unfold home; lia).
  assert (E1 : D' 1 = D 1) by (apply Hoff; by right).
  split; rewrite ?E1, ?Es; try done. intros b Hhome. rewrite <- Ht by done. unfold recovered. rewrite Es.
  rewrite (replay_ext (hb_block (D st)) _ (λ i, D (st + i + 1))); [by apply replay_over|].
  intros i Hi. split; [done|]. apply Hoff. left. unfold home. lia.
Qed.

Lemma recoverable_end T D h0 :
  recoverable T D → hb_n h0 = 0 → recoverable T (<[st := h0]> (recovered st D)).
Proof.
  intros Hr H0. pose proof (recoverable_replay T D _ Hr (Nat.le_refl _)) as [E1 E2 _ _ _].
  apply recoverable_clear; try done. apply Hr.
Qed.

Context (iderw : nat → K bst unit) `{!DiskDriver iderw}.

(** The machine at boot with [D] on its disk. *)
Definition boot (D : Z → mem) : lst :=
  {| cache := {| bufs := λ _, buf_zero; disk := D; past := []; disksize := z; mypid := 1 |};
     jrnl := {| start := 0; size := 0; outstanding := 0; committing := false; ldev := 0; lh_n := 0;
                lh_block := λ _, 0 |} |}.
Definition reboot : K lst unit := bio binit ≫= λ _, initlog iderw ROOTDEV.

Lemma reboot_run T D :
  recoverable T D →
  wp reboot (boot D) (λ _ s', ∃ v' l' h0, lrep s' v' l' ∧
    v_held v' = ∅ ∧ v_pin v' = ∅ ∧ v_size v' = z ∧ hb_n h0 = 0 ∧
    v_disk v' = <[st := h0]> (recovered st D) ∧
    v_past v' = recovered st D ::
      replays (hb_block (D st)) (λ i, D (st + i + 1)) (Z.to_nat (hb_n (D st))) D ++ [] ∧
    start l' = st ∧ size l' = sz ∧ ldev l' = ROOTDEV ∧ lh_n l' = 0 ∧
    outstanding l' = 0 ∧ committing l' = false).
Proof.
  intros Hrc. unfold reboot. rewrite wp_bind, wp_bio.
  eapply wp_mono; [|apply binit_spec; intros j; done]. intros u c Hrep.
  set (s1 := {| cache := c; jrnl := _ |}). assert (Hr1 : lrep s1 (view_of (cache (boot D))) (jrnl (boot D))) by done.
  unfold initlog. apply wp_bind.
  eapply wp_mono; [|apply (lrep_bread iderw _ _ _ 1 Hr1)];
    cbn [view_of v_size v_held v_pin disksize cache boot]; [|lia|set_solver|].
  2: { rewrite !union_empty_r_L, size_singleton. unfold NBUF. lia. }
  intros i s2 (Hr2&Hi2&_). apply wp_bind. eapply lrep_bdata; [done|exact Hi2|]. simpl.
  apply wp_bind. eapply wp_mono; [|apply (lrep_brelse _ _ _ _ _ Hr2 Hi2); by right].
  intros u' s3 [Hr3 _]. apply wp_bind. eapply lrep_upd_log; [exact Hr3|]. intros s4 Hr4 _.
  rewrite (rc_start _ _ Hrc), (rc_size _ _ Hrc), !s32_small in Hr4 by lia.
  apply (recover_spec iderw _ _ _ Hr4);
    [done|simpl; lia|simpl; lia|simpl; lia|cbn [unhold hold v_held view_of]; set_solver|done|apply Hrc].
Qed.

Lemma reboot_spec T D :
  recoverable T D →
  wp reboot (boot D) (λ _ s', (∀ b, home b → disk (cache s') b = T b) ∧
    ∀ D', D' ∈ disk (cache s') :: past (cache s') → recoverable T D').
Proof.
  intros Hrc. eapply wp_mono; [|exact (reboot_run T D Hrc)].
  intros u s5 (v'&l'&h0&[Hr5 _]&_&_&_&Hh0&Hd&Hp&_). rewrite (r_disk _ _ Hr5), (r_past _ _ Hr5), Hd, Hp. split.
  - intros b Hb. rewrite fn_lookup_insert_ne by (unfold home in Hb; lia). by apply Hrc.
  - intros D'. rewrite !elem_of_cons, app_nil_r. intros [->|[->|(k&Hk&->)%elem_of_replays]].
    + by apply recoverable_end.
    + by apply recoverable_replay.
    + by apply recoverable_replay.
Qed.

(** A reboot from [D] that may be interrupted by another crash leaves [D']. *)
Definition boots (D D' : Z → mem) : Prop :=
  ∃ s', reboot (boot D) = Ret tt s' ∧ D' ∈ disk (cache s') :: past (cache s').

Lemma boots_recoverable T D D' : recoverable T D → rtc boots D D' → recoverable T D'.
Proof.
  intros Hr Hb. induction Hb as [|x y w (s'&Hs&Hy) _ IH]; [done|]. apply IH.
  pose proof (proj1 (wlp_Ret _ _ _) (wp_wlp _ _ _ (reboot_spec T x Hr)) _ _ Hs) as [_ H].
  exact (H y Hy).
Qed.

Lemma reboot_chain T D D' :
  recoverable T D → rtc boots D D' →
  wp reboot (boot D') (λ _ s', ∀ b, home b → disk (cache s') b = T b).
Proof.
  intros Hr Hb. eapply wp_mono; [|apply reboot_spec, (boots_recoverable T D D' Hr Hb)].
  intros u s' [H _]. exact H.
Qed.
End recovery.

(** ** The crash points of a commit *)

Section points.
Context (s : lst) (v : view) (l : log).
Context (Htx : transaction s v l) (Hst : 1 < start l).
Context (Hsb1 : sb_logstart (v_disk v 1) = start l) (Hsb2 : sb_nlog (v_disk v 1) = size l).
Context (Hsup : ∀ i, 0 ≤ i < lh_n l → lh_block l i ≠ 1).

Abbreviation rec := (recoverable (start l) (size l) (v_size v)).
Abbreviation at_home := (home (start l) (size l)).

Lemma tx_off b : b ∉ lh_set l → v_cont v b = v_disk v b.
Proof.
  destruct Htx as [[Hr _] _ Hh Hp _]. intros Hb. apply (r_clean _ _ Hr). rewrite Hh, Hp. set_solver.
Qed.

(** Before the header is written, recovery restores the old blocks. *)
Lemma point_logged k :
  (k ≤ lh_len l)%nat →
  rec (v_disk v) (replay (log_block l) (λ i, v_cont v (lh_block l i)) k (v_disk v)).
Proof.
  intros Hk. destruct Htx as [_ Hok _ _ Hclear]. pose proof (lo_n _ _ Hok) as Hn.
  set (D := replay _ _ _ _).
  assert (Hoff : ∀ b, at_home b ∨ b = start l → D b = v_disk v b).
  { intros b Hb. apply replay_off. intros i Hi <-. unfold lh_len, home, log_block in *. lia. }
  assert (Es : D (start l) = v_disk v (start l)) by (apply Hoff; by right).
  assert (E1 : D 1 = v_disk v 1) by (apply Hoff; left; unfold home; lia).
  split; rewrite ?E1, ?Es; try done.
  - split; rewrite Hclear; [lia|unfold LOGSIZE, MAXOPBLOCKS; lia|lia].
  - rewrite Hclear. lia.
  - intros b Hb. unfold recovered. rewrite Es, Hclear. simpl. apply Hoff. by left.
Qed.

Lemma headed_home h b : at_home b → disk_headed h v l b = v_disk v b.
Proof.
  intros Hb. destruct Htx as [_ Hok _ _ _]. pose proof (lo_n _ _ Hok).
  unfold disk_headed. rewrite fn_lookup_insert_ne by (unfold home in Hb; lia).
  apply replay_off. intros i Hi <-. unfold lh_len, home, log_block in *. lia.
Qed.

(** Installing the whole transaction, on a disk that is partly installed. *)
Lemma install_home h k b :
  (k ≤ lh_len l)%nat → at_home b →
  replay (lh_block l) (λ i, v_cont v (lh_block l i)) (lh_len l)
    (replay (lh_block l) (λ i, v_cont v (lh_block l i)) k (disk_headed h v l)) b = v_cont v b.
Proof.
  intros Hk Hb. rewrite replay_over by done.
  destruct (decide (b ∈ lh_set l)) as [(i&Hi&->)%elem_of_firsts|Hnin].
  - apply replay_val; [|by eauto]. intros j Hj ->. done.
  - rewrite replay_off, headed_home, tx_off; [done..|].
    intros i Hi Heq. apply Hnin, elem_of_firsts. eauto.
Qed.

(** Once it is written, recovery restores the new ones. *)
Lemma point_installing h k :
  head_of h l → (k ≤ lh_len l)%nat →
  rec (v_cont v) (replay (lh_block l) (λ i, v_cont v (lh_block l i)) k (disk_headed h v l)).
Proof.
  intros [Hhn Hhb] Hk. destruct Htx as [_ Hok _ _ Hclear]. pose proof (lo_n _ _ Hok) as Hn.
  set (D := replay _ _ k _).
  assert (Hblk : ∀ i, 0 ≤ i < lh_n l → at_home (lh_block l i)).
  { intros i Hi. by destruct (lo_block _ _ Hok i Hi). }
  assert (Hoff : ∀ b, ¬ at_home b ∨ b = 1 → D b = disk_headed h v l b).
  { intros b Hb. apply replay_off. intros i Hi <-. unfold lh_len in *.
    destruct Hb as [Hb|Hb]; [apply Hb, Hblk; lia|]. apply (Hsup i); [lia|done]. }
  assert (Es : D (start l) = h).
  { rewrite Hoff by (left; unfold home; lia). apply fn_lookup_insert. }
  assert (Elog : ∀ i, 0 ≤ i < lh_n l → D (start l + i + 1) = v_cont v (lh_block l i)).
  { intros i Hi. rewrite Hoff by (left; unfold home; lia). unfold disk_headed.
    rewrite fn_lookup_insert_ne by lia. unfold disk_logged.
    apply (replay_on (log_block l) (λ i, v_cont v (lh_block l i))); unfold log_block, lh_len; lia. }
  assert (E1 : D 1 = v_disk v 1) by (rewrite Hoff by (by right); apply headed_home; unfold home; lia).
  split; rewrite ?E1, ?Es; try done.
  - split; rewrite Hhn; [done|apply (lo_room _ _ Hok)|]. intros i Hi. rewrite Hhb by done.
    by apply (lo_block _ _ Hok).
  - intros i Hi. rewrite Hhb by lia. apply Hsup. lia.
  - intros b Hb. unfold recovered. rewrite Es, Hhn. fold (lh_len l).
    rewrite (replay_ext (lh_block l) _ (λ i, v_cont v (lh_block l i))).
    2: { unfold lh_len. intros i Hi. split; [apply Hhb|apply Elog]; lia. }
    by apply install_home.
Qed.

(** The contents of the disk in the course of a commit with header [h], and
    [h0] at its end. *)
Lemma points_recoverable h h0 D :
  head_of h l → hb_n h0 = 0 →
  D ∈ <[start l := h0]> (disk_installed h v l) :: disk_installed h v l ::
    replays (lh_block l) (λ i, v_cont v (lh_block l i)) (lh_len l) (disk_headed h v l) ++
    disk_logged v l :: replays (log_block l) (λ i, v_cont v (lh_block l i)) (lh_len l) (v_disk v) →
  rec (v_disk v) D ∨ rec (v_cont v) D.
Proof.
  intros Hh Hh0. pose proof (point_installing h _ Hh (Nat.le_refl _)) as Hinst.
  fold (disk_installed h v l) in Hinst. destruct Htx as [_ Hok _ _ _]. pose proof (lo_n _ _ Hok) as Hn.
  rewrite !elem_of_cons, elem_of_app, elem_of_cons.
  intros [->|[->|[(k&Hk&->)%elem_of_replays|[->|(k&Hk&->)%elem_of_replays]]]].
  - right. apply recoverable_clear; try done; try lia; [apply Hinst|apply Hinst|].
    intros b Hb. rewrite <- (install_home h 0%nat b) by (done || lia). done.
  - by right.
  - right. by apply point_installing.
  - left. apply point_logged. done.
  - left. by apply point_logged.
Qed.

(** Crash safety of commit.  From a transaction in the cache, commit ends
    with the new blocks at their home locations; and whatever the disk holds
    when the machine stops, at any write of the commit or, any number of times
    again, at any write of the recovery after it, the next reboot restores
    either all blocks as before the transaction or all blocks as after it. *)
Lemma commit_crash_atomic (iderw : nat → K bst unit) `{!DiskDriver iderw} :
  wp (commit iderw) s (λ _ s',
    (∀ b, at_home b → disk (cache s') b = v_cont v b) ∧
    ∃ crashes, past (cache s') = crashes ++ past (cache s) ∧
    ∀ D D', D ∈ disk (cache s') :: crashes → rtc (boots (v_size v) iderw) D D' →
      wp (reboot iderw) (boot (v_size v) D') (λ _ s'',
        (∀ b, at_home b → disk (cache s'') b = v_disk v b) ∨
        (∀ b, at_home b → disk (cache s'') b = v_cont v b))).
Proof.
  pose proof (tx_log _ _ _ Htx) as Hok. pose proof (lo_n _ _ Hok) as Hn.
  pose proof (lo_end _ _ Hok) as Hend. pose proof (lo_small _ _ Hok) as Hz. assert (Hsz : 0 < size l) by lia.
  assert (Hreboot : ∀ D D', rec (v_disk v) D ∨ rec (v_cont v) D → rtc (boots (v_size v) iderw) D D' →
    wp (reboot iderw) (boot (v_size v) D') (λ _ s'',
      (∀ b, at_home b → disk (cache s'') b = v_disk v b) ∨
      (∀ b, at_home b → disk (cache s'') b = v_cont v b))).
  { intros D D' [Hrec|Hrec] Hb;
      (eapply wp_mono; [|exact (reboot_chain _ _ _ Hst Hsz Hend Hz iderw _ _ _ Hrec Hb)]); intros u s' H;
      [left|right]; exact H. }
  destruct (decide (lh_n l = 0)) as [H0|H0].
  - unfold commit. apply wp_bind. eapply wp_get_log; [apply Htx|]. rewrite H0. apply wp_ret.
    destruct (tx_rep _ _ _ Htx) as [Hr _]. rewrite (r_disk _ _ Hr).
    split; [intros b _; symmetry; apply tx_off, lh_set_empty, H0|].
    exists []. split; [done|]. intros D D' ->%list_elem_of_singleton. apply Hreboot. left.
    apply (point_logged 0%nat). lia.
  - eapply wp_mono; [|apply (commit_spec iderw s v l Htx); lia].
    intros u s' (v'&h&h0&[Hr' _]&Hh&Hh0&_&_&_&Hd&Hp). destruct (tx_rep _ _ _ Htx) as [Hr _].
    rewrite (r_disk _ _ Hr'), (r_past _ _ Hr'), (r_past _ _ Hr), Hd, Hp. split.
    + intros b Hb. rewrite fn_lookup_insert_ne by (unfold home in Hb; lia).
      apply (install_home h 0%nat b); [lia|exact Hb].
    + eexists (_ :: _ ++ _ :: _). split; [rewrite <- app_comm_cons, <- (assoc_L (++)); reflexivity|].
      intros D D' HD. apply Hreboot. exact (points_recoverable h h0 D Hh Hh0 HD).
Qed.
End points.
