(* ===== verification/Journal.v ===== *)
(** What the log (src/log.c) and the buffer cache (src/bio.c) promise to the
    file system: between begin_op() and end_op() it can read blocks, change
    them and hand them to log_write().  [Blocks] has the operations, [BlocksSpec]
    their laws in terms of a [jview]; the file system (Fs.v) is written and
    verified against these two classes, and the log on the buffer cache is an
    instance of them. *)

From Stdlib Require Import ZArith Lia.
From stdpp Require Import base tactics numbers gmap strings functions relations list.
From S2P Require Import Prelude Memory Monitor Sleeplock Buf Bio Log Crash.

#[local] Open Scope Z_scope.

Class Blocks (S : Type) := {
  b_read : Z → Z → K S nat;
  b_data : nat → K S mem;
  b_set : nat → mem → K S unit;
  b_log : nat → K S unit;
  b_relse : nat → K S unit
}.

(** What the file system sees during an operation: the content of the blocks,
    the ones that it holds, the ones that are in the log, and the ones that it
    has changed since the last log_write(). *)
Record jview := {
  j_cont : Z → mem;
  j_size : Z;
  j_res : Z → Prop;
  j_held : gset Z;
  j_log : gset Z;
  j_mod : gset Z
}.

Definition jhold b v := {| j_cont := j_cont v; j_size := j_size v; j_res := j_res v;
  j_held := {[b]} ∪ j_held v; j_log := j_log v; j_mod := j_mod v |}.
Definition junhold b v := {| j_cont := j_cont v; j_size := j_size v; j_res := j_res v;
  j_held := j_held v ∖ {[b]}; j_log := j_log v; j_mod := j_mod v |}.
Definition jstore b d v := {| j_cont := <[b := d]> (j_cont v); j_size := j_size v; j_res := j_res v;
  j_held := j_held v; j_log := j_log v; j_mod := {[b]} ∪ j_mod v |}.
Definition jlog b v := {| j_cont := j_cont v; j_size := j_size v; j_res := j_res v;
  j_held := j_held v; j_log := {[b]} ∪ j_log v; j_mod := j_mod v ∖ {[b]} |}.

(** The log takes 29 blocks and the cache has 30 buffers; [k] more blocks can be
    used when at most [28 - k] are in use. *)
Definition j_room (k : nat) (v : jview) : Prop := (base.size (j_held v ∪ j_log v) + k ≤ 28)%nat.

Class BlocksSpec (S : Type) `{Blocks S} := {
  b_rep : S → jview → Prop;
  b_holds : S → nat → Z → Prop;
  b_rep_cont s v f : b_rep s v → (∀ b, f b = j_cont v b) →
    b_rep s {| j_cont := f; j_size := j_size v; j_res := j_res v; j_held := j_held v;
               j_log := j_log v; j_mod := j_mod v |};
  b_read_ok s v b :
    b_rep s v → 0 ≤ b < j_size v → ¬ j_res v b → b ∉ j_held v → b ∈ j_log v ∨ j_room 1 v →
    wp (b_read ROOTDEV b) s (λ i s', b_rep s' (jhold b v) ∧ b_holds s' i b ∧
      ∀ j c, b_holds s j c → j ≠ i ∧ b_holds s' j c);
  b_data_ok s v i b :
    b_rep s v → b_holds s i b → wp (b_data i) s (λ d s', d = j_cont v b ∧ s' = s);
  b_set_ok s v i b d :
    b_rep s v → b_holds s i b →
    wp (b_set i d) s (λ _ s', b_rep s' (jstore b d v) ∧ ∀ j c, b_holds s j c → b_holds s' j c);
  b_log_ok s v i b :
    b_rep s v → b_holds s i b →
    wp (b_log i) s (λ _ s', b_rep s' (jlog b v) ∧ ∀ j c, b_holds s j c → b_holds s' j c);
  b_relse_ok s v i b :
    b_rep s v → b_holds s i b → b ∉ j_mod v →
    wp (b_relse i) s (λ _ s', b_rep s' (junhold b v) ∧ ∀ j c, j ≠ i → b_holds s j c → b_holds s' j c)
}.
Arguments b_rep {S _ _} s v.
Arguments b_holds {S _ _} s i b.

(** ** log_write *)

Lemma log_slot_spec blocks b n :
  let k := log_slot blocks b 0 n in
  (0 ≤ k < Z.of_nat n ∧ blocks k = b) ∨ (k = Z.of_nat n ∧ ∀ i, 0 ≤ i < Z.of_nat n → blocks i ≠ b).
Proof.
  cut (∀ i, let k := log_slot blocks b i n in
    (i ≤ k < i + Z.of_nat n ∧ blocks k = b) ∨
    (k = i + Z.of_nat n ∧ ∀ j, i ≤ j < i + Z.of_nat n → blocks j ≠ b)); [intros H; apply H|].
  induction n as [|n IH]; intros i; simpl; [right; split; lia|].
  destruct (Z.eqb_spec (blocks i) b) as [E|E]; [left; split; [lia|done]|].
  destruct (IH (i + 1)) as [[H1 H2]|[H1 H2]]; [left; split; [lia|done]|right]. split; [lia|].
  intros j Hj. destruct (decide (j = i)) as [->|]; [done|apply H2; lia].
Qed.

Definition lh_inj (l : log) : Prop :=
  ∀ i j, 0 ≤ i < lh_n l → 0 ≤ j < lh_n l → lh_block l i = lh_block l j → i = j.

Lemma size_lh_set l : 0 ≤ lh_n l → lh_inj l → base.size (lh_set l) = lh_len l.
Proof.
  intros Hn Hinj. unfold lh_set, firsts. rewrite size_list_to_set; [by rewrite length_fmap, length_seq|].
  apply NoDup_fmap_2_strong; [|apply NoDup_seq]. intros i j Hi%elem_of_seq Hj%elem_of_seq Heq.
  apply Hinj in Heq; unfold lh_len in *; lia.
Qed.

(** A log that is in the middle of an operation. *)
Record log_open (l : log) (z : Z) : Prop := {
  op_ok : log_ok l z;
  op_size : size l = LOGSIZE;
  op_out : 1 ≤ outstanding l;
  op_inj : lh_inj l
}.

(** The block is in the log already. *)
Lemma open_absorb l z k b :
  log_open l z → 0 ≤ k < lh_n l → lh_block l k = b →
  log_open (set_lh_block k b l) z ∧ lh_set (set_lh_block k b l) = {[b]} ∪ lh_set l.
Proof.
  intros [[? ? ? ? ? ? Hblk] Hsz Hout Hinj] Hk Hb.
  assert (Hsame : ∀ j, (<[k := b]> (lh_block l) : Z → Z) j = lh_block l j).
  { intros j. unfold insert, fn_insert. case_decide; by subst. }
  split.
  - split; try done; [|intros i j; simpl; rewrite !Hsame; apply Hinj].
    split; try done. intros i Hi. simpl. unfold in_log. simpl. rewrite Hsame. by apply Hblk.
  - apply set_eq. intros c. rewrite elem_of_union, elem_of_singleton. unfold lh_set, lh_len. simpl.
    rewrite !elem_of_firsts. setoid_rewrite Hsame. split; [by right|]. intros [->|H]; [|done].
    exists k. split; [lia|done].
Qed.

(** The block is added to the log. *)
Lemma open_append l z b :
  log_open l z → 0 ≤ b < z → ¬ in_log l b → (∀ i, 0 ≤ i < lh_n l → lh_block l i ≠ b) →
  lh_n l < LOGSIZE - 1 →
  let l' := set_lh_n (lh_n l + 1) (set_lh_block (lh_n l) b l) in
  log_open l' z ∧ lh_set l' = {[b]} ∪ lh_set l.
Proof.
  intros [[? ? ? ? ? ? Hblk] Hsz Hout Hinj] Hb Hnl Hnew Hroom l'.
  assert (Hat : ∀ j, lh_block l' j = if decide (j = lh_n l) then b else lh_block l j).
  { intros j. simpl. unfold insert, fn_insert. repeat case_decide; congruence. }
  split.
  - split; try done.
    + split; simpl; try done; try lia. intros i Hi. change (in_log l' ?x) with (in_log l x).
      change (<[lh_n l:=b]> (lh_block l) i) with (lh_block l' i). rewrite Hat. case_decide; [done|].
      apply Hblk. lia.
    + intros i j Hi Hj. simpl in Hi, Hj. rewrite !Hat. repeat case_decide; try lia; intros Heq.
      * exfalso. apply (Hnew j); [lia|done].
      * exfalso. apply (Hnew i); [lia|done].
      * apply Hinj; [lia|lia|done].
  - unfold lh_set, lh_len. simpl lh_n. rewrite Z2Nat.inj_add, Nat.add_1_r by lia. rewrite firsts_S.
    rewrite Hat, decide_True by lia. f_equal. apply set_eq. intros c. rewrite !elem_of_firsts.
    split; intros (i&Hi&->); exists i; (split; [done|]); rewrite Hat, decide_False by lia; done.
Qed.

Lemma log_write_spec s v l i b :
  lrep s v l → lholds s i b → log_open l (v_size v) → v_pin v = lh_set l → ¬ in_log l b →
  lh_n l < LOGSIZE - 1 →
  wp (log_write i) s (λ _ s', ∃ l', lrep s' (pin b v) l' ∧ log_open l' (v_size v) ∧
    lh_set l' = {[b]} ∪ lh_set l ∧ start l' = start l ∧ size l' = size l ∧
    outstanding l' = outstanding l ∧ committing l' = committing l ∧ ∀ j c, lholds s j c → lholds s' j c).
Proof.
  intros Hr Hh [Hok Hsz Hout Hinj] Hpin Hnl Hroom. pose proof Hr as [Hrep Hl].
  destruct (rep_holds _ _ _ _ Hrep Hh) as (_&_&Hb&_). pose proof Hok as [Hdev Hst Hend Hsm Hn Hrm Hblk].
  unfold log_write. apply wp_bind.
  assert (Hchk : on_log log_write_check s = Ret tt s).
  { unfold on_log, zoom, log_write_check, mbind, K_bind, gets. cbn [obj]. rewrite Hl.
    rewrite (proj2 (Z.leb_gt LOGSIZE (lh_n l))), (proj2 (Z.leb_gt (size l - 1) (lh_n l))) by lia.
    rewrite (proj2 (Z.ltb_ge (outstanding l) 1)) by lia. simpl. rewrite <- Hl. by destruct s. }
  unfold wp at 1. rewrite Hchk.
  apply wp_bind, wp_bio. unfold wp at 1, gets. destruct Hh as (Hi&Hd&Hbi&Hlk). rewrite Hbi.
  assert (Hh : lholds s i b) by done.
  replace {| cache := cache s; jrnl := jrnl s |} with s by (by destruct s).
  set (k := log_slot (lh_block l) b 0 (Z.to_nat (lh_n l))).
  assert (Hk : (0 ≤ k < lh_n l ∧ lh_block l k = b) ∨ (k = lh_n l ∧ ∀ i, 0 ≤ i < lh_n l → lh_block l i ≠ b)).
  { pose proof (log_slot_spec (lh_block l) b (Z.to_nat (lh_n l))) as H. rewrite Z2Nat.id in H by lia. exact H. }
  assert (Hfin : ∀ s2 l', lrep s2 v l' → cache s2 = cache s → log_open l' (v_size v) →
    lh_set l' = {[b]} ∪ lh_set l → start l' = start l → size l' = size l →
    outstanding l' = outstanding l → committing l' = committing l →
    wp (bio (modify (upd_buf i (λ x, set_flags (Z.lor (flags x) B_DIRTY) x)))) s2 (λ _ s',
      ∃ l', lrep s' (pin b v) l' ∧ log_open l' (v_size v) ∧
      lh_set l' = {[b]} ∪ lh_set l ∧ start l' = start l ∧ size l' = size l ∧
      outstanding l' = outstanding l ∧ committing l' = committing l ∧ ∀ j c, lholds s j c → lholds s' j c)).
  { intros s2 l' [Hr2 Hl2] Hc2. intros. apply wp_bio. unfold wp, modify. exists l'.
    destruct (pin_spec (cache s2) v i b Hr2) as [Hp1 Hp2]; [by rewrite Hc2|].
    split_and!; try done. intros j c Hj. apply Hp2. by rewrite Hc2. }
  assert (Hadd : on_log (log_write_add b) s = Ret tt {| cache := cache s; jrnl :=
    (if k =? lh_n l then set_lh_n (lh_n l + 1) else id) (set_lh_block k b l) |}).
  { unfold on_log, zoom, log_write_add, mbind, K_bind, gets. cbn [obj]. rewrite Hl, (s32_small b) by lia.
    fold k. rewrite (proj2 (Z.ltb_lt k LOGSIZE)) by lia. by destruct (k =? lh_n l). }
  apply wp_bind. unfold wp at 1. rewrite Hadd. destruct Hk as [[Hk1 Hk2]|[Hk1 Hk2]].
  - rewrite (proj2 (Z.eqb_neq k (lh_n l))) by lia.
    destruct (open_absorb l (v_size v) k b) as [Ho Hs]; [done..|]. by eapply Hfin.
  - rewrite (proj2 (Z.eqb_eq k (lh_n l))) by done. rewrite Hk1.
    destruct (open_append l (v_size v) b) as [Ho Hs]; [done..|]. by eapply Hfin.
Qed.

(** ** The log as an instance *)

Section instance.
Context (iderw : nat → K bst unit) `{!DiskDriver iderw}.
(** What the disk holds during the operation and held before, where the log is
    and how many operations are running. *)
Context (D0 : Z → mem) (P0 : list (Z → mem)) (st0 out0 : Z).

Definition log_blocks : Blocks lst := {|
  b_read d b := bio (bread iderw d b);
  b_data := bdata;
  b_set := bset;
  b_log := log_write;
  b_relse i := bio (brelse i)
|}.

Record log_rep_at (s : lst) (v : jview) (w : view) (l : log) : Prop := {
  lr_rep : lrep s w l;
  lr_open : log_open l (v_size w);
  lr_pin : v_pin w = lh_set l;
  lr_start : start l = st0;
  lr_outs : outstanding l = out0;
  lr_com : committing l = false;
  lr_disk : v_disk w = D0;
  lr_past : v_past w = P0;
  lr_cont b : v_cont w b = j_cont v b;
  lr_size : v_size w = j_size v;
  lr_res b : j_res v b ↔ in_log l b;
  lr_held : v_held w = j_held v;
  lr_log : lh_set l = j_log v;
  lr_mod : j_mod v ⊆ j_held v;
  lr_clean b : b ∈ j_held v → b ∉ j_mod v → b ∈ v_pin w ∨ v_cont w b = D0 b;
  lr_out b : b ∈ j_held v → ¬ j_res v b;
  lr_room : j_room 0 v
}.
Definition log_rep (s : lst) (v : jview) : Prop := ∃ w l, log_rep_at s v w l.

Lemma in_log_eq l l' b : start l' = start l → size l' = size l → in_log l' b ↔ in_log l b.
Proof. intros E1 E2. unfold in_log. by rewrite E1, E2. Qed.

Lemma log_read_ok s v b :
  log_rep s v → 0 ≤ b < j_size v → ¬ j_res v b → b ∉ j_held v → b ∈ j_log v ∨ j_room 1 v →
  wp (bio (bread iderw ROOTDEV b)) s (λ i s', log_rep s' (jhold b v) ∧ lholds s' i b ∧
    ∀ j c, lholds s j c → j ≠ i ∧ lholds s' j c).
Proof.
  intros (w&l&[Hr Ho Hp Hs0 Ho0 Hc Hd Hpa Hct Hsz Hres Hh Hlg Hm Hcl Hout Hrm]) Hb Hnr Hnh Hroom.
  assert (Hset : (base.size ({[b]} ∪ j_held v ∪ j_log v) ≤ 28)%nat).
  { unfold j_room in *. destruct Hroom as [Hin|Hroom].
    - replace ({[b]} ∪ j_held v ∪ j_log v) with (j_held v ∪ j_log v) by set_solver. lia.
    - rewrite <- (assoc_L (∪)). etrans; [apply (size_bound _ _ 27); lia|done]. }
  eapply wp_mono; [|apply (lrep_bread iderw s w l b Hr)].
  - intros i s' (Hr'&Hi&Hf). split; [|done]. exists (hold b w), l. split; simpl; try done.
    + by rewrite Hh.
    + set_solver.
    + intros c [->%elem_of_singleton|Hc']%elem_of_union Hnm; [|by apply Hcl].
      destruct (decide (b ∈ v_pin w)); [by left|right]. rewrite <- Hd. destruct Hr as [Hr _].
      apply (r_clean _ _ Hr). set_solver.
    + intros c [->%elem_of_singleton|Hc']%elem_of_union; [done|by apply Hout].
    + unfold j_room. simpl. rewrite Nat.add_0_r. done.
  - by rewrite Hsz.
  - by rewrite Hh.
  - rewrite Hh, Hp, Hlg. unfold NBUF. lia.
Qed.

Lemma log_set_ok s v i b d :
  log_rep s v → lholds s i b →
  wp (bset i d) s (λ _ s', log_rep s' (jstore b d v) ∧ ∀ j c, lholds s j c → lholds s' j c).
Proof.
  intros (w&l&[Hr Ho Hp Hs0 Ho0 Hc Hd Hpa Hct Hsz Hres Hh Hlg Hm Hcl Hout Hrm]) Hi.
  destruct (rep_holds _ _ _ _ (proj1 Hr) Hi) as (_&Hheld&_).
  eapply wp_mono; [|by apply (lrep_bset s w l i b d)]. intros u s' [Hr' Hf]. split; [|done].
  exists (store b d w), l. split; simpl; try done.
  - intros c. unfold insert, fn_insert. by case_decide.
  - set_solver.
  - intros c Hc1 Hc2. rewrite fn_lookup_insert_ne by set_solver. apply Hcl; set_solver.
Qed.

Lemma log_log_ok s v i b :
  log_rep s v → lholds s i b →
  wp (log_write i) s (λ _ s', log_rep s' (jlog b v) ∧ ∀ j c, lholds s j c → lholds s' j c).
Proof.
  intros (w&l&[Hr Ho Hp Hs0 Ho0 Hc Hd Hpa Hct Hsz Hres Hh Hlg Hm Hcl Hout Hrm]) Hi.
  destruct (rep_holds _ _ _ _ (proj1 Hr) Hi) as (_&Hheld&_). rewrite Hh in Hheld.
  assert (Hn : lh_n l < LOGSIZE - 1).
  { pose proof (op_ok _ _ Ho) as Hok. pose proof (lo_n _ _ Hok).
    pose proof (size_lh_set l ltac:(lia) (op_inj _ _ Ho)) as Hs. unfold j_room in Hrm.
    assert (base.size (lh_set l) ≤ base.size (j_held v ∪ j_log v))%nat by (apply subseteq_size; set_solver).
    unfold lh_len, LOGSIZE, MAXOPBLOCKS in *. lia. }
  eapply wp_mono; [|apply (log_write_spec s w l i b)]; try done; [|by rewrite <- Hres; apply Hout].
  intros u s' (l'&Hr'&Ho'&Hs'&E1&E2&E3&E4&Hf). split; [|done]. exists (pin b w), l'. split; simpl; try done.
  - by rewrite Hp, Hs'.
  - congruence.
  - congruence.
  - congruence.
  - intros c. rewrite (in_log_eq l l') by done. apply Hres.
  - by rewrite Hs', Hlg.
  - set_solver.
  - intros c Hc1 Hc2. destruct (decide (c = b)) as [->|]; [left; set_solver|].
    destruct (Hcl c Hc1) as [?|?]; [set_solver|left; set_solver|by right].
  - unfold j_room in *. simpl. etrans; [|exact Hrm]. apply Nat.add_le_mono_r, subseteq_size. set_solver.
Qed.

Lemma log_relse_ok s v i b :
  log_rep s v → lholds s i b → b ∉ j_mod v →
  wp (bio (brelse i)) s (λ _ s', log_rep s' (junhold b v) ∧ ∀ j c, j ≠ i → lholds s j c → lholds s' j c).
Proof.
  intros (w&l&[Hr Ho Hp Hs0 Ho0 Hc Hd Hpa Hct Hsz Hres Hh Hlg Hm Hcl Hout Hrm]) Hi Hnm.
  destruct (rep_holds _ _ _ _ (proj1 Hr) Hi) as (_&Hheld&_). rewrite Hh in Hheld.
  eapply wp_mono; [|apply (lrep_brelse s w l i b Hr Hi)]; [|rewrite Hd; by apply Hcl].
  intros u s' [Hr' Hf]. split; [|done]. exists (unhold b w), l. split; simpl; try done.
  - by rewrite Hh.
  - set_solver.
  - intros c Hc1 Hc2. apply Hcl; set_solver.
  - intros c Hc1. apply Hout. set_solver.
  - unfold j_room in *. simpl. etrans; [|exact Hrm]. apply Nat.add_le_mono_r, subseteq_size. set_solver.
Qed.

Definition log_blocks_spec : @BlocksSpec lst log_blocks.
Proof.
  refine (@Build_BlocksSpec lst log_blocks log_rep lholds _ log_read_ok _ log_set_ok log_log_ok log_relse_ok).
  - intros s v f (w&l&[]) Hf. exists w, l. split; try done. intros b. by rewrite Hf.
  - intros s v i b (w&l&[]) Hi. eapply lrep_bdata; [done|exact Hi|]. done.
Defined.
End instance.

(** ** A file system operation as a transaction *)

(** No operation is running, the log is empty, and the blocks outside the log
    hold [C]. *)
Record idle_at (st z : Z) (C : Z → mem) (s : lst) (v : view) (l : log) : Prop := {
  id_rep : lrep s v l;
  id_ok : log_ok l z;
  id_start : start l = st;
  id_size : size l = LOGSIZE;
  id_n : lh_n l = 0;
  id_out : outstanding l = 0;
  id_com : committing l = false;
  id_held : v_held v = ∅;
  id_pin : v_pin v = ∅;
  id_z : v_size v = z;
  id_head : hb_n (v_disk v st) = 0;
  id_cont b : home st LOGSIZE b → v_cont v b = C b
}.
Definition idle (st z : Z) (C : Z → mem) (s : lst) : Prop := ∃ v l, idle_at st z C s v l.

(** The superblock of [C] says where the log is. *)
Definition super_ok (st : Z) (C : Z → mem) : Prop :=
  1 < st ∧ sb_logstart (C 1) = st ∧ sb_nlog (C 1) = LOGSIZE.

Section transaction.
Context (iderw : nat → K bst unit) `{!DiskDriver iderw}.
Context (st z : Z).

(** [m] works on blocks: started with the content [C], it returns with all
    buffers released, the superblock as it was, and a content with [Q]. *)
Definition block_op {A} (m : K lst A) (C : Z → mem) (Q : A → (Z → mem) → Prop) : Prop :=
  ∀ D0 P0 s v, log_rep D0 P0 st 1 s v → j_size v = z → (∀ b, j_res v b ↔ ¬ home st LOGSIZE b) →
    (∀ b, home st LOGSIZE b → j_cont v b = C b) → j_held v = ∅ → j_log v = ∅ → j_mod v = ∅ →
    wp m s (λ a s', ∃ v', log_rep D0 P0 st 1 s' v' ∧ j_held v' = ∅ ∧ j_size v' = z ∧
      (∀ b, j_res v' b ↔ ¬ home st LOGSIZE b) ∧ 1 ∉ j_log v' ∧ Q a (j_cont v')).

Lemma begin_op_idle C s v l :
  idle_at st z C s v l →
  wp begin_op s (λ _ s', log_rep (v_disk v) (v_past v) st 1 s'
    {| j_cont := v_cont v; j_size := z; j_res := λ b, ¬ home st LOGSIZE b; j_held := ∅; j_log := ∅; j_mod := ∅ |}).
Proof.
  intros [[Hr Hl] Hok Hst Hsz Hn Hout Hcom Hh Hp Hz Hhd Hct].
  unfold begin_op, on_log, zoom, wp, begin_op_run, mbind, K_bind, gets. simpl. rewrite Hl, Hcom, Hn, Hout. simpl.
  assert (Hset : lh_set l = ∅).
  { unfold lh_set, lh_len. rewrite Hn. set_solver. }
  exists v, (set_outstanding 1 l). rewrite <- Hz in Hok. split; simpl; try done.
  - split; [exact Hr|]. simpl. by rewrite ?Hl, ?Hout.
  - split; simpl; try done; [by destruct Hok|]. intros i j. simpl. lia.
  - change (v_pin v = lh_set l). by rewrite Hset, Hp.
  - intros b. unfold home, in_log. simpl. rewrite Hst, Hsz. lia.
  - vm_compute. lia.
Qed.

(** The last end_op() finds a transaction to commit. *)
Lemma end_op_begin_spec D0 P0 s v :
  log_rep D0 P0 st 1 s v → j_held v = ∅ → j_size v = z → (∀ b, j_res v b ↔ ¬ home st LOGSIZE b) →
  1 < st → 1 ∉ j_log v → hb_n (D0 st) = 0 →
  wp (on_log end_op_begin) s (λ c s', c = true ∧ ∃ w l', transaction s' w l' ∧
    v_disk w = D0 ∧ v_past w = P0 ∧ v_size w = z ∧ (∀ b, v_cont w b = j_cont v b) ∧ start l' = st ∧
    size l' = LOGSIZE ∧ outstanding l' = 0 ∧ committing l' = true ∧ ∀ i, 0 ≤ i < lh_n l' → lh_block l' i ≠ 1).
Proof.
  intros (w&l&[[Hr Hl] Ho Hp Hst Hout1 Hc Hd Hpa Hct Hsz Hres Hh Hlg Hm Hcl Hout Hrm]) Hheld Hz Hres' H1 Hn1 Hhd.
  unfold on_log, zoom, wp, end_op_begin, mbind, K_bind, gets, wakeup, set_obj, modify.
  simpl. rewrite Hl. simpl. rewrite Hc, Hout1. simpl. split; [done|].
  destruct Ho as [Hok Hs Ho1 Hinj].
  exists w, (set_committing true (set_outstanding 0 l)). split_and!; try done; try congruence.
  - split; try done.
    + destruct Hok. by split.
    + congruence.
    + simpl. by rewrite Hd, Hst.
  - intros i Hi Heq. apply Hn1. rewrite <- Hlg. apply elem_of_firsts. exists i. simpl in Hi, Heq.
    unfold lh_len. split; [lia|done].
Qed.

(** Committing it leaves the log idle. *)
Lemma commit_idle s w l :
  transaction s w l → v_size w = z → start l = st → size l = LOGSIZE → outstanding l = 0 →
  wp (commit iderw) s (λ _ s', ∃ v' l', lrep s' v' l' ∧ log_ok l' z ∧ start l' = st ∧ size l' = LOGSIZE ∧
    lh_n l' = 0 ∧ outstanding l' = 0 ∧ v_held v' = ∅ ∧ v_pin v' = ∅ ∧ v_size v' = z ∧
    hb_n (v_disk v' st) = 0).
Proof.
  intros Htx Hz Hst Hsz Hout. pose proof Htx as [Hr Hok Hh Hp Hcl].
  destruct (decide (lh_n l = 0)) as [H0|H0].
  - unfold commit. apply wp_bind. eapply wp_get_log; [exact Hr|]. rewrite H0. apply wp_ret.
    exists w, l. rewrite Hz in Hok. rewrite Hst in Hcl. split_and!; try done.
    rewrite Hp. unfold lh_set, lh_len. rewrite H0. set_solver.
  - pose proof (lo_n _ _ Hok). eapply wp_mono; [|apply (commit_spec iderw s w l Htx); lia].
    intros u s' (v'&h&h0&Hr'&_&Hh0&Hh'&Hp'&Hz'&Hd&_). exists v', (set_lh_n 0 l).
    split_and!; try done; try congruence.
    + rewrite <- Hz. destruct Hok. split; simpl; try done; lia.
    + rewrite Hd, <- Hst, fn_lookup_insert. done.
Qed.

Lemma end_op_finish_run s :
  on_log end_op_finish s = Ret tt {| cache := cache s; jrnl := set_committing false (jrnl s) |}.
Proof. done. Qed.

Lemma transaction_atomic {A} (m : K lst A) (C : Z → mem) (Q : A → (Z → mem) → Prop) (s : lst) :
  idle st z C s → super_ok st C → block_op m C Q →
  wp (begin_op ≫= λ _, m ≫= λ a, end_op iderw ≫= λ _, mret a) s (λ a s',
    ∃ C', Q a C' ∧ idle st z C' s' ∧ (∀ b, home st LOGSIZE b → disk (cache s') b = C' b) ∧
    ∃ crashes, past (cache s') = crashes ++ past (cache s) ∧
    ∀ D D', D ∈ disk (cache s') :: crashes → rtc (boots z iderw) D D' →
      wp (reboot iderw) (boot z D') (λ _ s'',
        (∀ b, home st LOGSIZE b → disk (cache s'') b = C b) ∨
        (∀ b, home st LOGSIZE b → disk (cache s'') b = C' b))).
Proof.
  intros (v&l&Hid) (Hst1&Hsb1&Hsb2) Hm. pose proof (id_rep _ _ _ _ _ _ Hid) as Hrep.
  apply wp_bind. eapply wp_mono; [|apply (begin_op_idle C s v l Hid)]. intros u s1 Hr1.
  apply wp_bind. eapply wp_mono; [|apply (Hm _ _ _ _ Hr1); try done; apply Hid].
  intros a s2 (v2&Hr2&Hh2&Hz2&Hres2&Hn1&HQ). apply wp_bind.
  assert (Hhome : ∀ b, home st LOGSIZE b → C b = v_disk v b).
  { intros b Hb. rewrite <- (id_cont _ _ _ _ _ _ Hid) by done. destruct Hrep as [Hr _].
    apply (r_clean _ _ Hr). rewrite (id_held _ _ _ _ _ _ Hid), (id_pin _ _ _ _ _ _ Hid). set_solver. }
  assert (Hs1 : C 1 = v_disk v 1) by (apply Hhome; unfold home; lia).
  unfold end_op. apply wp_bind.
  eapply wp_mono; [|apply (end_op_begin_spec _ _ _ _ Hr2); try done; apply Hid].
  intros c s3 (->&w&l3&Htx&Hd&Hp&Hz&Hct&Hst3&Hsz3&Hout3&Hcom3&Hsup). cbn [when]. apply wp_bind.
  eapply wp_mono; [|apply wp_and; [apply (commit_crash_atomic s3 w l3 Htx); try done|
    by apply (commit_idle s3 w l3)]]; [|by rewrite Hst3|by rewrite Hd, <- Hs1, Hst3|by rewrite Hd, <- Hs1, Hsz3].
  rewrite Hz, Hst3, Hsz3, Hd. intros u' s4 [(Hnew&crashes&Hpast&Hcr) (v'&l'&[Hr4 Hl4]&Hok4&E1&E2&E3&E4&E5&E6&E7&E8)].
  unfold wp at 1. rewrite end_op_finish_run. apply wp_ret. cbn [cache].
  assert (Hpast3 : past (cache s3) = past (cache s)).
  { destruct (tx_rep _ _ _ Htx) as [H3 _]. destruct Hrep as [Hr _].
    by rewrite (r_past _ _ H3), Hp, (r_past _ _ Hr). }
  exists (j_cont v2). split; [exact HQ|]. split.
  - clear Hcr Hm HQ. exists v', (set_committing false l'). split; try done.
    + split; [exact Hr4|]. simpl. by rewrite Hl4.
    + destruct Hok4. by split.
    + intros b Hb. rewrite <- Hct, <- Hnew by done. rewrite (r_disk _ _ Hr4).
      apply (r_clean _ _ Hr4). rewrite E5, E6. set_solver.
  - split; [intros b Hb; rewrite Hnew by exact Hb; apply Hct|]. exists crashes. rewrite <- Hpast3. split; [exact Hpast|].
    intros D D' HD Hb. eapply wp_mono; [|exact (Hcr D D' HD Hb)].
    intros u'' s5 [H|H]; [left|right]; intros b Hbh; rewrite H by exact Hbh; [rewrite Hhome by exact Hbh; reflexivity|apply Hct].
Qed.

(** C2: a file system operation is atomic with respect to crashes.  An operation
    that reads blocks and changes them through log_write between begin_op and
    end_op, on an otherwise idle log, leaves its result at the home locations;
    and whatever the disk holds when the machine stops, at any of the writes or,
    any number of times again, at any write of the recovery, the next reboot
    restores all blocks as they were before the operation or all as they are
    after it. *)
Theorem fs_op_crash_atomic {A} (m : K lst A) (C : Z → mem) (Q : A → (Z → mem) → Prop) (s : lst) :
  idle st z C s → super_ok st C → block_op m C Q →
  wp (begin_op ≫= λ _, m ≫= λ a, end_op iderw ≫= λ _, mret a) s (λ a s',
    ∃ C', Q a C' ∧ idle st z C' s' ∧ (∀ b, home st LOGSIZE b → disk (cache s') b = C' b) ∧
    ∃ crashes, past (cache s') = crashes ++ past (cache s) ∧
    ∀ D D', D ∈ disk (cache s') :: crashes → rtc (boots z iderw) D D' →
      wp (reboot iderw) (boot z D') (λ _ s'',
        (∀ b, home st LOGSIZE b → disk (cache s'') b = C b) ∨
        (∀ b, home st LOGSIZE b → disk (cache s'') b = C' b))).
Proof. apply transaction_atomic. Qed.
End transaction.

(** After a reboot the log is idle. *)
Lemma reboot_idle (iderw : nat → K bst unit) `{!DiskDriver iderw} st z T D :
  1 < st → st + LOGSIZE ≤ z → z ≤ 2147483648 → recoverable st LOGSIZE z T D →
  wp (reboot iderw) (boot z D) (λ _ s', idle st z T s').
Proof.
  intros Hst Hend Hz Hrc. assert (0 < LOGSIZE) as HL by done.
  eapply wp_mono; [|exact (reboot_run st LOGSIZE z Hst HL Hend Hz iderw T D Hrc)].
  intros u s' (v'&l'&h0&Hr&Hh&Hp&Hsz&Hh0&Hd&_&E1&E2&E3&E4&E5&E6). exists v', l'. split; try congruence; try done.
  - split; try congruence; try lia.
  - by rewrite Hd, fn_lookup_insert.
  - intros b Hb. destruct Hr as [Hr _]. rewrite (r_clean _ _ Hr) by (rewrite Hh, Hp; set_solver).
    rewrite Hd, fn_lookup_insert_ne by (unfold home in Hb; lia). by apply Hrc.
Qed.

(** A disk of 100 blocks with the log at block 2, and an operation that sets
    byte 0 of block 50. *)
Definition disk_ex : Z → mem := <[1 := wr32 (wr32 ∅ 12 30) 16 2]> (λ _, ∅).
Definition op_ex : K lst Z :=
  bio (bread Memide.iderw ROOTDEV 50) ≫= λ i,
  bdata i ≫= λ d,
  bset i (wr8 d 0 7) ≫= λ _,
  log_write i ≫= λ _,
  bio (brelse i) ≫= λ _, mret (rd8 d 0).

Lemma disk_ex_recoverable : recoverable 2 LOGSIZE 100 disk_ex disk_ex.
Proof.
  assert (H0 : hb_n (disk_ex 2) = 0) by reflexivity. split; try done.
  split; rewrite H0; [done|done|]. intros i Hi. lia.
Qed.

Lemma op_ex_block_op : block_op 2 100 op_ex disk_ex (λ a C, a = 0 ∧ rd8 (C 50) 0 = 7).
Proof.
  intros D0 P0 s v Hr Hz Hres Hct Hh Hlg Hmd.
  pose (Bs := log_blocks Memide.iderw). pose (Bl := log_blocks_spec Memide.iderw D0 P0 2 1).
  assert (Hh50 : home 2 LOGSIZE 50) by (unfold home, LOGSIZE, MAXOPBLOCKS; lia).
  unfold op_ex. apply wp_bind. eapply wp_mono; [|apply (b_read_ok (BlocksSpec := Bl) s v 50 Hr)].
  - intros i s1 (Hr1&Hi1&_). apply wp_bind.
    eapply wp_mono; [|apply (b_data_ok (BlocksSpec := Bl) s1 _ i 50 Hr1 Hi1)]. intros d s1' [-> ->].
    apply wp_bind. eapply wp_mono; [|apply (b_set_ok (BlocksSpec := Bl) s1 _ i 50 _ Hr1 Hi1)]. intros u s2 [Hr2 Hf2].
    apply wp_bind. eapply wp_mono; [|apply (b_log_ok (BlocksSpec := Bl) s2 _ i 50 Hr2 (Hf2 _ _ Hi1))].
    intros u' s3 [Hr3 Hf3]. apply wp_bind.
    eapply wp_mono; [|apply (b_relse_ok (BlocksSpec := Bl) s3 _ i 50 Hr3 (Hf3 _ _ (Hf2 _ _ Hi1)))].
    + intros u'' s4 [Hr4 _]. apply wp_ret. eexists. split; [exact Hr4|]. simpl. rewrite Hh, Hlg.
      split; [set_solver|]. split; [done|]. split; [done|]. split; [set_solver|].
      rewrite Hct by done. split; [done|]. rewrite fn_lookup_insert. done.
    + simpl. set_solver.
  - lia.
  - intros Hx%Hres. done.
  - rewrite Hh. set_solver.
  - right. unfold j_room. rewrite Hh, Hlg. vm_compute. lia.
Qed.

Lemma fs_op_crash_atomic_witness : ∃ s, idle 2 100 disk_ex s ∧
  wp (begin_op ≫= λ _, op_ex ≫= λ a, end_op Memide.iderw ≫= λ _, mret a) s
    (λ a s', a = 0 ∧ rd8 (disk (cache s') 50) 0 = 7).
Proof.
  destruct (proj1 (wp_Ret _ _ _) (reboot_idle Memide.iderw 2 100 disk_ex disk_ex
    ltac:(lia) ltac:(unfold LOGSIZE, MAXOPBLOCKS; lia) ltac:(lia) disk_ex_recoverable)) as (u&s&_&Hid).
  exists s. split; [exact Hid|].
  eapply wp_mono; [|apply (fs_op_crash_atomic Memide.iderw 2 100 op_ex disk_ex _ s Hid
    (conj (eq_refl : 1 < 2) (conj eq_refl eq_refl)) op_ex_block_op)].
  intros a s' (C'&[-> HQ]&_&Hd&_). split; [reflexivity|].
  rewrite Hd; [exact HQ|]. unfold home, LOGSIZE, MAXOPBLOCKS. lia.
Defined.
