(* ===== verification/Logsys.v ===== *)
(** Concurrent file system operations and the log (src/log.c): the reservation
    of log space by begin_op(), and its waiting.

    The processes share the log structure; begin_op(), the two critical
    sections of end_op() and the two parts of log_write() are the runs of a
    monitor (Monitor.v).  The object is the log with some bookkeeping that the
    code does not have: which processes are inside an operation, how many new
    blocks each of them has logged, which have passed the tests of log_write(),
    and who commits.  A process logs at most MAXOPBLOCKS new blocks in an
    operation; that is what begin_op() reserves. *)

From Stdlib Require Import ZArith Lia.
From stdpp Require Import base tactics numbers gmap strings functions relations list.
From S2P Require Import Prelude Memory Monitor Sleeplock Buf Bio Log Journal.

#[local] Open Scope Z_scope.

Module Logsys.

Inductive call := Begin | Test (b : Z) | Add (b : Z) | End | Finish.

Record book := {
  lg : log;
  used : gmap nat nat;       (* processes inside an operation: new blocks logged *)
  tested : gmap nat Z;       (* between the two parts of log_write *)
  committer : option nat
}.

Definition set_lg l o := {| lg := l; used := used o; tested := tested o; committer := committer o |}.
Definition set_used u o := {| lg := lg o; used := u; tested := tested o; committer := committer o |}.
Definition set_tested t o := {| lg := lg o; used := used o; tested := t; committer := committer o |}.
Definition set_committer c o := {| lg := lg o; used := used o; tested := tested o; committer := c |}.

(** A run on the log inside the object. *)
Definition on_lg {A} (m : K (mst log call) A) : K (mst book call) A :=
  zoom (λ st, Mst (lg (obj st)) (loc st) (woke st))
    (λ st' st, Mst (set_lg (obj st') (obj st)) (loc st') (woke st')) m.

Definition op (p : nat) (_ : bool) : K (mst book call) unit :=
  gets loc ≫= λ c,
  match c with
  | Begin => on_lg begin_op_run ≫= λ _, set_obj (λ o, set_used (<[p := 0%nat]> (used o)) o)
  | Test b => on_lg log_write_check ≫= λ _, set_obj (λ o, set_tested (<[p := b]> (tested o)) o)
  | Add b =>
      gets (λ st, lh_n (lg (obj st))) ≫= λ n,
      on_lg (log_write_add b) ≫= λ _,
      gets (λ st, lh_n (lg (obj st))) ≫= λ n',
      set_obj (λ o, set_tested (delete p (tested o)) o) ≫= λ _,
      when (negb (n' =? n)) (set_obj (λ o, set_used (<[p := S (default 0%nat (used o !! p))]> (used o)) o))
  | End =>
      on_lg end_op_begin ≫= λ do_commit,
      set_obj (λ o, set_used (delete p (used o)) o) ≫= λ _,
      when do_commit (set_obj (set_committer (Some p)))
  | Finish =>
      (* commit() has emptied the log in between *)
      set_obj (λ o, set_lg (set_lh_n 0 (lg o)) o) ≫= λ _,
      on_lg end_op_finish ≫= λ _,
      set_obj (set_committer None)
  end.

(** An operation that has logged MAXOPBLOCKS new blocks logs no more. *)
Definition callable (o : book) (p : nat) (c : call) : Prop :=
  match c with
  | Begin => used o !! p = None ∧ committer o ≠ Some p
  | Test b => tested o !! p = None ∧ ∃ k, used o !! p = Some k ∧ (k < Z.to_nat MAXOPBLOCKS)%nat
  | Add b => tested o !! p = Some b
  | End => tested o !! p = None ∧ ∃ k, used o !! p = Some k
  | Finish => committer o = Some p
  end.

Abbreviation sys := (@msys book call unit).
Definition step : relation sys := mstep op callable.

Definition book_new (l : log) : book := {| lg := l; used := ∅; tested := ∅; committer := None |}.

(** What is still reserved for the operations that run. *)
Definition reserved (u : gmap nat nat) : Z :=
  map_fold (λ _ k r, MAXOPBLOCKS - Z.of_nat k + r) 0 u.

Lemma reserved_insert u p k : u !! p = None → reserved (<[p := k]> u) = MAXOPBLOCKS - Z.of_nat k + reserved u.
Proof. intros Hp. unfold reserved. rewrite map_fold_insert_L; [done| |done]. intros. lia. Qed.
Lemma reserved_delete u p k : u !! p = Some k → reserved u = MAXOPBLOCKS - Z.of_nat k + reserved (delete p u).
Proof.
  intros Hp. rewrite <- (insert_delete_id u p k Hp) at 1. apply reserved_insert, lookup_delete_eq.
Qed.

(** ** The invariant *)

Record book_ok (o : book) : Prop := {
  bk_out : outstanding (lg o) = Z.of_nat (base.size (used o));
  bk_com : committing (lg o) = bool_decide (committer o ≠ None);
  bk_alone : committer o ≠ None → used o = ∅;
  bk_n : 0 ≤ lh_n (lg o);
  bk_res : lh_n (lg o) + reserved (used o) ≤ LOGSIZE;
  bk_used p k : used o !! p = Some k → (k ≤ Z.to_nat MAXOPBLOCKS)%nat;
  bk_tested p b : tested o !! p = Some b → ∃ k, used o !! p = Some k ∧ (k < Z.to_nat MAXOPBLOCKS)%nat;
  bk_size : LOGSIZE < size (lg o)
}.

Lemma reserved_nonneg u :
  (∀ p k, u !! p = Some k → (k ≤ Z.to_nat MAXOPBLOCKS)%nat) →
  0 ≤ reserved u ≤ MAXOPBLOCKS * Z.of_nat (base.size u).
Proof.
  induction u as [|p k u Hp IH] using map_ind; intros Hu; [vm_compute; split; congruence|].
  rewrite reserved_insert, map_size_insert_None by done.
  assert (Hk : (k ≤ Z.to_nat MAXOPBLOCKS)%nat) by (apply (Hu p); apply lookup_insert_eq).
  destruct IH as [IH1 IH2].
  { intros q j Hq. apply (Hu q). rewrite lookup_insert_ne; [done|]. intros ->. congruence. }
  unfold MAXOPBLOCKS in *. lia.
Qed.

Lemma begin_ok o p : book_ok o → callable o p Begin →
  wrun (op p false) (Mst o Begin []) (λ _ st, book_ok (obj st) ∧ used (obj st) = <[p := 0%nat]> (used o) ∧
      tested (obj st) = tested o ∧ committer (obj st) = committer o ∧ woke st = [] ∧
      lh_n (lg (obj st)) = lh_n (lg o) ∧ outstanding (lg (obj st)) = outstanding (lg o) + 1 ∧
      committing (lg (obj st)) = committing (lg o))
    (λ ch st, ch = ChLog ∧ st = Mst o Begin [] ∧
      (committing (lg o) = true ∨ LOGSIZE < lh_n (lg o) + (outstanding (lg o) + 1) * MAXOPBLOCKS)).
Proof.
  intros [Hout Hcom Hal Hn Hres Hu Ht Hsz] [Hp Hc]. unfold wrun, op, on_lg, zoom, begin_op_run, mbind, K_bind, gets.
  simpl. destruct (committing (lg o)) eqn:Ec; [by destruct o; split_and!; try done; left|].
  destruct (Z.ltb_spec LOGSIZE (lh_n (lg o) + (outstanding (lg o) + 1) * MAXOPBLOCKS)).
  { destruct o; split_and!; try done. by right. }
  simpl. split_and!; try done. split; simpl; try done.
  - rewrite Hout, map_size_insert_None by done. lia.
  - congruence.
  - intros Hc'. exfalso. rewrite bool_decide_eq_true_2 in Hcom by done. done.
  - rewrite reserved_insert by done. pose proof (reserved_nonneg (used o) Hu). lia.
  - intros q k. destruct (decide (q = p)) as [->|]; [rewrite lookup_insert_eq; intros [= <-]; lia|].
    rewrite lookup_insert_ne by done. apply Hu.
  - intros q b Hq. destruct (Ht q b Hq) as (k&Hk&?). exists k. split; [|done].
    rewrite lookup_insert_ne; [done|]. intros ->. congruence.
Qed.

Lemma inside_out o p k : book_ok o → used o !! p = Some k →
  1 ≤ outstanding (lg o) ∧ committing (lg o) = false ∧ committer o = None.
Proof.
  intros [Hout Hcom Hal _ _ _ _ _] Hp. assert (Hc : committer o = None).
  { destruct (committer o) eqn:E; [|done]. rewrite Hal in Hp by done. by rewrite lookup_empty in Hp. }
  rewrite Hout, Hcom, Hc. split; [|done].
  assert (base.size (used o) ≠ 0%nat) by (apply (map_size_ne_0_lookup_2 _ p); by eexists). lia.
Qed.

Lemma test_ok o p b : book_ok o → callable o p (Test b) →
  wrun (op p false) (Mst o (Test b) []) (λ _ st, book_ok (obj st) ∧
      obj st = set_tested (<[p := b]> (tested o)) o ∧ woke st = []) (λ _ _, False).
Proof.
  intros Hok (Htp&k&Hk&Hlt). destruct (inside_out o p k Hok Hk) as (H1&_&_). destruct Hok as [Hout Hcom Hal Hn Hres Hu Ht Hsz].
  assert (lh_n (lg o) < LOGSIZE).
  { rewrite (reserved_delete _ _ _ Hk) in Hres. pose proof (reserved_nonneg (delete p (used o))) as [? _].
    { intros q j [_ Hq]%lookup_delete_Some. by apply (Hu q). }
    unfold MAXOPBLOCKS in *. lia. }
  unfold wrun, op, on_lg, zoom, log_write_check, mbind, K_bind, gets. simpl.
  rewrite (proj2 (Z.leb_gt LOGSIZE (lh_n (lg o)))), (proj2 (Z.leb_gt (size (lg o) - 1) (lh_n (lg o)))) by lia.
  rewrite (proj2 (Z.ltb_ge (outstanding (lg o)) 1)) by lia. simpl.
  split_and!; try done. split; simpl; try done. intros q c. destruct (decide (q = p)) as [->|].
  - intros _. by exists k.
  - rewrite lookup_insert_ne by done. apply Ht.
Qed.

Lemma add_ok o p b : book_ok o → callable o p (Add b) →
  wrun (op p false) (Mst o (Add b) []) (λ _ st, book_ok (obj st) ∧ woke st = [] ∧
      tested (obj st) = delete p (tested o) ∧ committer (obj st) = committer o ∧
      (∀ q, q ≠ p → used (obj st) !! q = used o !! q) ∧
      lh_n (lg o) ≤ lh_n (lg (obj st)) ∧ outstanding (lg (obj st)) = outstanding (lg o) ∧
      committing (lg (obj st)) = committing (lg o)) (λ _ _, False).
Proof.
  intros Hok Htp. pose proof Hok as [Hout Hcom Hal Hn Hres Hu Ht Hsz]. destruct (Ht p b Htp) as (k&Hk&Hlt).
  assert (Hroom : lh_n (lg o) < LOGSIZE).
  { rewrite (reserved_delete _ _ _ Hk) in Hres. pose proof (reserved_nonneg (delete p (used o))) as [? _].
    { intros q j [_ Hq]%lookup_delete_Some. by apply (Hu q). }
    unfold MAXOPBLOCKS in *. lia. }
  unfold wrun, op, on_lg, zoom, log_write_add, mbind, K_bind, gets, modify, set_obj. cbn [obj loc woke].
  pose proof (log_slot_spec (lh_block (lg o)) (s32 b) (Z.to_nat (lh_n (lg o)))) as Hslot.
  rewrite Z2Nat.id in Hslot by done. set (i := log_slot _ _ _ _) in *.
  rewrite (proj2 (Z.ltb_lt i LOGSIZE)) by (destruct Hslot as [[? _]|[? _]]; lia).
  assert (Htd : ∀ q c, delete p (tested o) !! q = Some c → q ≠ p ∧ tested o !! q = Some c).
  { intros q c [H1 H2]%lookup_delete_Some. done. }
  destruct (Z.eqb_spec i (lh_n (lg o))) as [Ei|Ei]; simpl.
  - rewrite (proj2 (Z.eqb_neq (lh_n (lg o) + 1) (lh_n (lg o)))) by lia. simpl.
    split_and!; try done; try lia.
    + split; simpl; try done; try lia.
      * by rewrite Hk, map_size_insert_Some by eauto.
      * intros Hc. rewrite (Hal Hc) in Hk. by rewrite lookup_empty in Hk.
      * rewrite (reserved_delete _ _ _ Hk) in Hres. rewrite Hk. simpl default.
        rewrite (reserved_delete (<[p := S k]> (used o)) p (S k)) by apply lookup_insert_eq.
        rewrite delete_insert_eq. lia.
      * intros q j. rewrite Hk. destruct (decide (q = p)) as [->|Hq].
        { rewrite lookup_insert_eq. simpl. intros [= <-]. lia. }
        rewrite lookup_insert_ne by done. apply Hu.
      * intros q c [Hq Hc]%Htd. rewrite lookup_insert_ne by done. by apply (Ht q c).
    + intros q Hq. by rewrite lookup_insert_ne.
  - rewrite Z.eqb_refl. simpl. split_and!; try done. split; simpl; try done.
    intros q c [Hq Hc]%Htd. by apply (Ht q c).
Qed.

Lemma end_ok o p : book_ok o → callable o p End →
  wrun (op p false) (Mst o End []) (λ _ st, book_ok (obj st) ∧ used (obj st) = delete p (used o) ∧
      tested (obj st) = tested o ∧ lh_n (lg (obj st)) = lh_n (lg o) ∧
      (committing (lg (obj st)) = true ∧ committer (obj st) = Some p ∨
       ChLog ∈ woke st ∧ committer (obj st) = None)) (λ _ _, False).
Proof.
  intros Hok (Htp&k&Hk). destruct (inside_out o p k Hok Hk) as (H1&H2&H3).
  pose proof Hok as [Hout Hcom Hal Hn Hres Hu Ht Hsz].
  assert (Hsize : base.size (used o) = S (base.size (delete p (used o)))).
  { rewrite <- (insert_delete_id (used o) p k Hk) at 1. apply map_size_insert_None, lookup_delete_eq. }
  assert (Hok' : ∀ l' c, outstanding l' = outstanding (lg o) - 1 → committing l' = bool_decide (c ≠ None) →
    (c ≠ None → outstanding l' = 0) → lh_n l' = lh_n (lg o) → size l' = size (lg o) →
    book_ok {| lg := l'; used := delete p (used o); tested := tested o; committer := c |}).
  { intros l' c E1 E2 E3 E4 E5. split; simpl; rewrite ?E4, ?E5; try done; try lia.
    - intros Hc. apply map_size_empty_iff. specialize (E3 Hc). lia.
    - rewrite (reserved_delete _ _ _ Hk) in Hres. pose proof (Hu p k Hk). unfold MAXOPBLOCKS in *. lia.
    - intros q j [_ Hq]%lookup_delete_Some. by apply (Hu q).
    - intros q b Hq. destruct (Ht q b Hq) as (j&Hj&?). exists j. split; [|done].
      rewrite lookup_delete_ne; [done|]. intros ->. congruence. }
  unfold wrun, op, on_lg, zoom, end_op_begin, mbind, K_bind, gets, set_obj, wakeup, modify. simpl.
  rewrite H2. simpl. destruct (Z.eqb_spec (outstanding (lg o) - 1) 0) as [E|E]; simpl.
  - split_and!; try done; [apply Hok'; done|]. by left.
  - split_and!; try done; [apply Hok'; simpl; rewrite ?H3; try done|]. right. split; [set_solver|done].
Qed.

Lemma finish_ok o p : book_ok o → callable o p Finish →
  wrun (op p false) (Mst o Finish []) (λ _ st, book_ok (obj st) ∧ used (obj st) = used o ∧
      tested (obj st) = tested o ∧ committer (obj st) = None ∧ ChLog ∈ woke st) (λ _ _, False).
Proof.
  intros [Hout Hcom Hal Hn Hres Hu Ht Hsz] Hc. simpl in Hc.
  unfold wrun, op, on_lg, zoom, end_op_finish, mbind, K_bind, set_obj, wakeup, modify. simpl.
  assert (Hemp : used o = ∅) by (apply Hal; congruence).
  split_and!; try done; [|set_solver]. split; simpl; try done. rewrite Hemp. vm_compute. congruence.
Qed.

(** ** The system *)

Definition waits (ch : chan) (o : book) : Prop :=
  ch = ChLog ∧
  (committing (lg o) = true ∨ LOGSIZE < lh_n (lg o) + (outstanding (lg o) + 1) * MAXOPBLOCKS).

Lemma callable_frame o o' p q c :
  book_ok o → callable o q c → q ≠ p → (∀ r, r ≠ p → used o' !! r = used o !! r) →
  (∀ r, r ≠ p → tested o' !! r = tested o !! r) →
  (committer o' = committer o ∨ committer o' = None ∧ committer o = Some p ∨
   committer o' = Some p ∧ committer o = None) → callable o' q c.
Proof.
  intros Hok Hq Hne Hu Ht Hc. destruct c; simpl in *; rewrite ?Hu, ?Ht by done; try done.
  - destruct Hq as [Hq1 Hq2]. split; [done|]. destruct Hc as [->|[[-> _]|[-> _]]]; congruence.
  - destruct Hc as [->|[[_ E]|[_ E]]]; congruence.
Qed.

Lemma op_keeps : run_keeps op (λ o _, book_ok o) callable.
Proof.
  intros p k o c log Hok Hc. change (op p k) with (op p false). destruct c as [|b|b| |].
  - eapply wrun_mono; [by apply begin_ok|..].
    + intros u st (H1&H2&H3&H4&_). split; [done|]. intros q c Hq Hne.
      eapply (callable_frame o); [done..| | |]; rewrite ?H2, ?H3, ?H4; [|done|by left].
      intros r Hr. by rewrite lookup_insert_ne.
    + intros ch st (_&->&_). done.
  - eapply wrun_mono; [by apply test_ok| |done]. intros u st (H1&H2&_). split; [done|]. intros q c Hq Hne.
    eapply (callable_frame o); [done..| | |]; rewrite H2; simpl; [done| |by left].
    intros r Hr. by rewrite lookup_insert_ne.
  - eapply wrun_mono; [by apply add_ok| |done]. intros u st (H1&_&H2&H3&H4&_). split; [done|]. intros q c Hq Hne.
    eapply (callable_frame o); [done..| | |]; rewrite ?H2, ?H3; [done| |by left].
    intros r Hr. by rewrite lookup_delete_ne.
  - pose proof Hc as [_ (j&Hj)]. destruct (inside_out o p j Hok Hj) as (_&_&Hcn).
    eapply wrun_mono; [by apply end_ok| |done]. intros u st (H1&H2&H3&_&H4). split; [done|]. intros q c Hq Hne.
    eapply (callable_frame o); [done..| | |]; rewrite ?H2, ?H3; [|done|].
    + intros r Hr. by rewrite lookup_delete_ne.
    + rewrite Hcn. destruct H4 as [[_ ->]|[_ ->]]; [right; by right|by left].
  - eapply wrun_mono; [by apply finish_ok| |done]. intros u st (H1&H2&H3&H4&_). split; [done|]. intros q c Hq Hne.
    eapply (callable_frame o); [done..| | |]; rewrite ?H2, ?H3; [done|done|]. right; left. by rewrite H4.
Qed.

Lemma op_wakes k : run_wakes op (λ o _, book_ok o) callable waits k.
Proof.
  intros p o c log Hok Hc wakes. change (op p k) with (op p false). destruct c as [|b|b| |].
  - eapply wrun_mono; [by apply begin_ok|..].
    + intros u st (_&_&_&_&_&E1&E2&E3) ch [-> Hw]. left. split; [done|]. rewrite E1, E2, E3.
      unfold MAXOPBLOCKS in *. destruct Hw; [by left|right; lia].
    + intros ch st (->&->&Hw). split; [by left|]. by split.
  - eapply wrun_mono; [by apply test_ok| |done]. intros u st (_&H2&_) ch Hw. left. by rewrite H2.
  - eapply wrun_mono; [by apply add_ok| |done]. intros u st (_&_&_&_&_&E1&E2&E3) ch [-> Hw]. left.
    split; [done|]. rewrite E2, E3. destruct Hw; [by left|right; lia].
  - eapply wrun_mono; [by apply end_ok| |done].
    intros u st (_&_&_&_&[[H _]|[H _]]) ch [-> _]; [left; split; [done|by left]|by right].
  - eapply wrun_mono; [by apply finish_ok| |done]. intros u st (_&_&_&_&H) ch [-> _]. by right.
Qed.

(** With a log that has room for LOGSIZE blocks besides its header, and
    operations that log at most MAXOPBLOCKS new blocks each, in every
    interleaving the blocks logged and those reserved fit in the log, so that
    neither log_write nor end_op panics (a ready call returns or sleeps); and a
    process sleeps in begin_op only while somebody commits or the reservation
    does not fit. *)
Lemma log_reservation (s0 s : sys) (l : log) :
  quiet s0 → m_obj s0 = book_new l → outstanding l = 0 → committing l = false → lh_n l = 0 → LOGSIZE < size l →
  rtc step s0 s →
  lh_n (lg (m_obj s)) + reserved (used (m_obj s)) ≤ LOGSIZE ∧
  (∀ p c, m_thr s p = TReady c →
     match op p (m_killed s p) (Mst (m_obj s) c []) with Ret _ _ | Sleep _ _ => True | _ => False end) ∧
  ∀ p ch c, m_thr s p = TAsleep ch c → waits ch (m_obj s).
Proof.
  intros Hq Ho H1 H2 H3 H4 Hr.
  assert (H0 : book_ok (m_obj s0)).
  { rewrite Ho. split; simpl; try done; rewrite ?H3; try done; lia. }
  pose proof (minv_reachable op callable _ callable s0 s op_keeps (λ _ _ _ H, H) Hq H0 Hr) as [Hok Ht].
  split; [apply Hok|]. split.
  - intros p c Hp. pose proof (op_keeps p (m_killed s p) _ c [] Hok (Ht p c (or_introl Hp))) as H.
    unfold wrun in H. by destruct (op _ _ _).
  - apply (asleep_waits op callable (λ o _, book_ok o) callable waits (λ _, True) s0 s
      op_keeps (λ _ _ _ H, H) (λ k _, op_wakes k) Hq H0).
    clear -Hr. induction Hr as [|x y z Hs _ IH]; [done|]. by eapply rtc_l.
Qed.

(** ** Running calls one after the other *)

#[local] Instance callable_dec o p c : Decision (callable o p c).
Proof.
  destruct c; simpl; try apply _.
  refine (cast_if_and (decide (tested o !! p = None))
    (match used o !! p as x return Decision (∃ k, x = Some k ∧ (k < Z.to_nat MAXOPBLOCKS)%nat) with
     | Some k => cast_if (decide (k < Z.to_nat MAXOPBLOCKS)%nat) | None => right _ end)); naive_solver.
Defined.

Fixpoint exec (o : book) (calls : list (nat * call)) : option book :=
  match calls with
  | [] => Some o
  | (p, c) :: calls' =>
      if decide (callable o p c) then
        match op p false (Mst o c []) with Ret _ st => exec (obj st) calls' | _ => None end
      else None
  end.

Lemma exec_steps calls (s : sys) o :
  (∀ p, m_thr s p = TIdle ∧ m_killed s p = false) → exec (m_obj s) calls = Some o →
  ∃ s', rtc step s s' ∧ m_obj s' = o ∧ ∀ p, m_thr s' p = TIdle ∧ m_killed s' p = false.
Proof.
  revert s. induction calls as [|[p c] calls IH]; simpl; intros s Hs He; [exists s; by simplify_eq|].
  destruct (decide (callable (m_obj s) p c)) as [Hc|]; [|done].
  destruct (op p false _) as [u st| | | |] eqn:E; try done.
  destruct (Hs p) as [Hsp Hsk].
  set (s1 := {| m_obj := m_obj s; m_thr := <[p := TReady c]> (m_thr s); m_killed := m_killed s; m_log := m_log s |}).
  set (s2 := {| m_obj := obj st; m_thr := <[p := TIdle]> (λ q, roused (woke st) (m_thr s1 q));
    m_killed := m_killed s; m_log := m_log s ++ [(p, loc st, u)] |} : sys).
  destruct (IH s2) as (s'&Hr&Ho&Hi).
  - intros q. simpl. unfold insert, fn_insert. destruct (Hs q) as [Hq1 Hq2]. repeat case_decide; try done. by rewrite Hq1.
  - exact He.
  - exists s'. split; [|done]. eapply rtc_l; [by eapply ms_call with (p := p) (l := c)|].
    eapply rtc_l; [|exact Hr]. eapply ms_return with (p := p) (l := c); [apply fn_lookup_insert| |done].
    simpl. by rewrite Hsk.
Qed.

Definition log_new (sz : Z) : log :=
  {| start := 2; size := sz; outstanding := 0; committing := false; ldev := 1; lh_n := 0; lh_block := λ _, 0 |}.
Definition sys_new (sz : Z) : sys :=
  {| m_obj := book_new (log_new sz); m_thr := λ _, TIdle; m_killed := λ _, false; m_log := [] |}.

(** Process [p] logs [k] blocks from [b] on. *)
Definition logs (p : nat) (b : Z) (k : nat) : list (nat * call) :=
  mjoin ((λ i, [(p, Test (b + Z.of_nat i)); (p, Add (b + Z.of_nat i))]) <$> seq 0 k).

(** Three operations, of which the last two pass the test of log_write
    together when 28 blocks are in the log. *)
Definition race : list (nat * call) :=
  [(0, Begin); (1, Begin); (2, Begin)]%nat ++ logs 0 100 10 ++ logs 1 200 9 ++ logs 2 300 9 ++
  [(1%nat, Test 209); (2%nat, Test 309); (1%nat, Add 209); (2%nat, Add 309)].

Definition overflows (o : option book) : bool :=
  match o with
  | Some o => bool_decide (lh_n (lg o) = LOGSIZE) && bool_decide (size (lg o) = LOGSIZE) &&
      bool_decide (map_Forall (λ _ k, (k ≤ Z.to_nat MAXOPBLOCKS)%nat) (used o))
  | None => false
  end.

Lemma race_overflows : ∃ o, exec (book_new (log_new LOGSIZE)) race = Some o ∧
  lh_n (lg o) = LOGSIZE ∧ (∀ p k, used o !! p = Some k → (k ≤ Z.to_nat MAXOPBLOCKS)%nat) ∧
  size (lg o) = LOGSIZE.
Proof.
  assert (H : overflows (exec (book_new (log_new LOGSIZE)) race) = true) by (vm_compute; reflexivity).
  destruct (exec _ _) as [o|]; [|done]. exists o. split; [done|]. simpl in H.
  apply andb_true_iff in H as [[H1 H2]%andb_true_iff H3].
  apply bool_decide_eq_true in H1, H2, H3. split_and!; [exact H1|exact H3|exact H2].
Qed.

(** The log that mkfs makes has LOGSIZE blocks, its header included, and
    that is one block short: three operations within their MAXOPBLOCKS, two of
    which make the test of log_write before either takes the lock, put 30 blocks
    into the log; the last one is written past the end of the log, to the first
    inode block. *)
Lemma log_overflow :
  ∃ s, rtc step (sys_new LOGSIZE) s ∧ lh_n (lg (m_obj s)) = size (lg (m_obj s)) ∧
    ¬ in_log (lg (m_obj s)) (log_block (lg (m_obj s)) (lh_n (lg (m_obj s)) - 1)) ∧
    ∀ p k, used (m_obj s) !! p = Some k → (k ≤ Z.to_nat MAXOPBLOCKS)%nat.
Proof.
  destruct race_overflows as (o&E&H1&H2&H3).
  destruct (exec_steps race (sys_new LOGSIZE) o (λ _, conj eq_refl eq_refl) E) as (s&Hr&Ho&_).
  exists s. split; [exact Hr|]. rewrite Ho. split; [lia|]. split; [|exact H2].
  unfold in_log, log_block. lia.
Qed.

Lemma two_begin : ∃ s, rtc step (sys_new 31) s ∧ m_obj s =
  {| lg := set_outstanding 2 (log_new 31); used := {[0 := 0; 1 := 0]}%nat; tested := ∅; committer := None |}.
Proof.
  destruct (exec_steps [(1, Begin); (0, Begin)]%nat (sys_new 31) _ (λ _, conj eq_refl eq_refl) eq_refl)
    as (s&Hr&Ho&_). exists s. split; [exact Hr|]. rewrite Ho. reflexivity.
Qed.

(** C27: with a log that has room for LOGSIZE blocks besides its header, and operations that
    log at most MAXOPBLOCKS new blocks each, in every interleaving the blocks logged and those
    reserved fit in the log, so that neither log_write nor end_op panics (a ready call returns
    or sleeps), and a process sleeps in begin_op only while somebody commits or the reservation
    does not fit.  But the log that mkfs makes has LOGSIZE blocks, its header included, and that
    is one block short: three operations within their MAXOPBLOCKS, two of which make the test of
    log_write before either takes the lock, put 30 blocks into the log, and the last one is
    written past the end of the log, to the first inode block. *)
Theorem log_room :
  (∀ (s0 s : sys) (l : log),
    quiet s0 → m_obj s0 = book_new l → outstanding l = 0 → committing l = false → lh_n l = 0 → LOGSIZE < size l →
    rtc step s0 s →
    lh_n (lg (m_obj s)) + reserved (used (m_obj s)) ≤ LOGSIZE ∧
    (∀ p c, m_thr s p = TReady c →
       match op p (m_killed s p) (Mst (m_obj s) c []) with Ret _ _ | Sleep _ _ => True | _ => False end) ∧
    ∀ p ch c, m_thr s p = TAsleep ch c → waits ch (m_obj s)) ∧
  (∃ s, rtc step (sys_new LOGSIZE) s ∧ lh_n (lg (m_obj s)) = size (lg (m_obj s)) ∧
      ¬ in_log (lg (m_obj s)) (log_block (lg (m_obj s)) (lh_n (lg (m_obj s)) - 1)) ∧
      ∀ p k, used (m_obj s) !! p = Some k → (k ≤ Z.to_nat MAXOPBLOCKS)%nat).
Proof. split; [exact log_reservation|exact log_overflow]. Qed.

Lemma log_room_witness :
  (∃ s, rtc step (sys_new 31) s ∧ base.size (used (m_obj s)) = 2%nat ∧
    lh_n (lg (m_obj s)) + reserved (used (m_obj s)) ≤ LOGSIZE).
Proof.
  destruct two_begin as (s&Hr&Ho). exists s. split; [exact Hr|]. split; [rewrite Ho; reflexivity|].
  apply (proj1 ((proj1 log_room) (sys_new 31) s (log_new 31) (conj (λ _, eq_refl) eq_refl) eq_refl eq_refl
    eq_refl eq_refl (eq_refl : LOGSIZE < 31) Hr)).
Defined.
End Logsys.
