(* ===== verification/Fs.v ===== *)
(** The file system (src/fs.c): block allocation, inodes, file contents,
    directories and paths, on the blocks of a transaction (Journal.v).

    The inode cache is the array of struct inode of the source.  What readi()
    stores at dst is returned as a list of bytes, and writei() is given the
    bytes at src; a path or a file name is the list of its bytes, its
    terminating NUL left out.  As in Buf.v, spin locks are left out and a sleep
    lock held by somebody makes a routine end in [Sleep]. *)

From Stdlib Require Import ZArith Lia.
From stdpp Require Import base tactics numbers gmap strings functions list.
From S2P Require Import Prelude Memory Kstring Monitor Sleeplock Buf Journal.

#[local] Open Scope Z_scope.

Definition ROOTINO : Z := 1.
Definition NINODE : nat := 50.
Definition NDIRECT : Z := 12.
Definition NINDIRECT : Z := BSIZE / 4.
Definition MAXFILE : Z := NDIRECT + NINDIRECT.
Definition DIRSIZ : nat := 14.
Definition NDEV : Z := 10.
Definition T_DIR : Z := 1.
Definition T_FILE : Z := 2.
Definition T_DEV : Z := 3.

(** ** On-disk structures *)

Record superblock := {
  sb_size : Z;
  sb_nblocks : Z;
  sb_ninodes : Z;
  sb_logblocks : Z;
  sb_log : Z;
  sb_inodestart : Z;
  sb_bmapstart : Z
}.
Definition sb_of (d : mem) : superblock :=
  {| sb_size := rd32 d 0; sb_nblocks := rd32 d 4; sb_ninodes := rd32 d 8; sb_logblocks := rd32 d 12;
     sb_log := rd32 d 16; sb_inodestart := rd32 d 20; sb_bmapstart := rd32 d 24 |}.

(** A short at an address of a block. *)
Definition rd16 (d : mem) (a : Z) : Z := rd8 d a + 256 * rd8 d (a + 1).
Definition wr16 (d : mem) (a x : Z) : mem := wr8 (wr8 d a x) (a + 1) (x / 256).

(** sizeof(struct dinode), and its fields in a block. *)
Definition DINODE : Z := 64.
Definition IPB : Z := BSIZE / DINODE.
Definition IBLOCK (i : Z) (sb : superblock) : Z := u32 (i / IPB + sb_inodestart sb).
Definition BPB : Z := BSIZE * 8.
Definition BBLOCK (b : Z) (sb : superblock) : Z := u32 (b / BPB + sb_bmapstart sb).

Definition di_type (d : mem) (o : Z) : Z := s16 (rd16 d o).
Definition di_major (d : mem) (o : Z) : Z := s16 (rd16 d (o + 2)).
Definition di_minor (d : mem) (o : Z) : Z := s16 (rd16 d (o + 4)).
Definition di_nlink (d : mem) (o : Z) : Z := s16 (rd16 d (o + 6)).
Definition di_size (d : mem) (o : Z) : Z := rd32 d (o + 8).
Definition di_addrs (d : mem) (o k : Z) : Z := rd32 d (o + 12 + 4 * k).

(** ** In-memory inodes *)

Record inode := {
  i_dev : Z;
  i_inum : Z;
  i_ref : Z;
  i_lock : sleeplock;
  i_valid : bool;
  i_type : Z;
  i_major : Z;
  i_minor : Z;
  i_nlink : Z;
  i_size : Z;
  i_addrs : Z → Z
}.

Definition set_i_ref r ip := {| i_dev := i_dev ip; i_inum := i_inum ip; i_ref := r; i_lock := i_lock ip;
  i_valid := i_valid ip; i_type := i_type ip; i_major := i_major ip; i_minor := i_minor ip;
  i_nlink := i_nlink ip; i_size := i_size ip; i_addrs := i_addrs ip |}.
Definition set_i_lock l ip := {| i_dev := i_dev ip; i_inum := i_inum ip; i_ref := i_ref ip; i_lock := l;
  i_valid := i_valid ip; i_type := i_type ip; i_major := i_major ip; i_minor := i_minor ip;
  i_nlink := i_nlink ip; i_size := i_size ip; i_addrs := i_addrs ip |}.
Definition set_i_valid x ip := {| i_dev := i_dev ip; i_inum := i_inum ip; i_ref := i_ref ip; i_lock := i_lock ip;
  i_valid := x; i_type := i_type ip; i_major := i_major ip; i_minor := i_minor ip;
  i_nlink := i_nlink ip; i_size := i_size ip; i_addrs := i_addrs ip |}.
Definition set_i_type t ip := {| i_dev := i_dev ip; i_inum := i_inum ip; i_ref := i_ref ip; i_lock := i_lock ip;
  i_valid := i_valid ip; i_type := t; i_major := i_major ip; i_minor := i_minor ip;
  i_nlink := i_nlink ip; i_size := i_size ip; i_addrs := i_addrs ip |}.
Definition set_i_nlink n ip := {| i_dev := i_dev ip; i_inum := i_inum ip; i_ref := i_ref ip; i_lock := i_lock ip;
  i_valid := i_valid ip; i_type := i_type ip; i_major := i_major ip; i_minor := i_minor ip;
  i_nlink := n; i_size := i_size ip; i_addrs := i_addrs ip |}.
Definition set_i_size z ip := {| i_dev := i_dev ip; i_inum := i_inum ip; i_ref := i_ref ip; i_lock := i_lock ip;
  i_valid := i_valid ip; i_type := i_type ip; i_major := i_major ip; i_minor := i_minor ip;
  i_nlink := i_nlink ip; i_size := z; i_addrs := i_addrs ip |}.
Definition set_i_addr k a ip := {| i_dev := i_dev ip; i_inum := i_inum ip; i_ref := i_ref ip; i_lock := i_lock ip;
  i_valid := i_valid ip; i_type := i_type ip; i_major := i_major ip; i_minor := i_minor ip;
  i_nlink := i_nlink ip; i_size := i_size ip; i_addrs := <[k := a]> (i_addrs ip) |}.
(** What ilock() copies from the disk, and iget() puts into a new entry. *)
Definition load_inode (d : mem) (o : Z) (ip : inode) : inode :=
  {| i_dev := i_dev ip; i_inum := i_inum ip; i_ref := i_ref ip; i_lock := i_lock ip; i_valid := i_valid ip;
     i_type := di_type d o; i_major := di_major d o; i_minor := di_minor d o; i_nlink := di_nlink d o;
     i_size := di_size d o; i_addrs := di_addrs d o |}.
Definition new_inode (dv n : Z) (ip : inode) : inode :=
  {| i_dev := dv; i_inum := n; i_ref := 1; i_lock := i_lock ip; i_valid := false; i_type := i_type ip;
     i_major := i_major ip; i_minor := i_minor ip; i_nlink := i_nlink ip; i_size := i_size ip;
     i_addrs := i_addrs ip |}.

Section fs.
Context {S : Type} `{!Blocks S}.

Record fsst := {
  blk : S;
  sb : superblock;
  icache : nat → inode;
  fs_pid : Z
}.

Definition on_blk {A} (m : K S A) : K fsst A :=
  zoom blk (λ b s, {| blk := b; sb := sb s; icache := icache s; fs_pid := fs_pid s |}) m.
Definition set_sb x s := {| blk := blk s; sb := x; icache := icache s; fs_pid := fs_pid s |}.
Definition upd_inode (i : nat) (f : inode → inode) (s : fsst) : fsst :=
  {| blk := blk s; sb := sb s; icache := <[i := f (icache s i)]> (icache s); fs_pid := fs_pid s |}.

Abbreviation bread d b := (on_blk (b_read d b)).
Abbreviation bdata i := (on_blk (b_data i)).
Abbreviation bset i d := (on_blk (b_set i d)).
Abbreviation log_write i := (on_blk (b_log i)).
Abbreviation brelse i := (on_blk (b_relse i)).
Abbreviation ino i := (gets (λ s, icache s i)).

(** ** Blocks *)

Definition readsb (d : Z) : K fsst unit :=
  bread d 1 ≫= λ bp,
  bdata bp ≫= λ x,
  modify (set_sb (sb_of x)) ≫= λ _,
  brelse bp.

Definition bzero (d b : Z) : K fsst unit :=
  bread d b ≫= λ bp,
  bdata bp ≫= λ x, bset bp (memset x 0 0 BSIZE) ≫= λ _,
  log_write bp ≫= λ _,
  brelse bp.

(** The search in one block of the bitmap, for blocks [b], [b + 1], ... *)
Definition balloc_scan (d b : Z) (bp : nat) (n : Z) : K fsst (option Z) :=
  for_find (seqZ 0 n) (λ bi,
    bdata bp ≫= λ x,
    let m := Z.shiftl 1 (bi mod 8) in
    if Z.land (rd8 x (bi / 8)) m =? 0 then
      bset bp (wr8 x (bi / 8) (Z.lor (rd8 x (bi / 8)) m)) ≫= λ _,
      log_write bp ≫= λ _,
      brelse bp ≫= λ _,
      bzero d (b + bi) ≫= λ _,
      mret (Some (b + bi))
    else mret None).

Definition balloc (d : Z) : K fsst Z :=
  gets (λ s, sb_size (sb s)) ≫= λ sz,
  upto (upto_fuel 0 sz BPB) 0 sz BPB (λ b,
    gets sb ≫= λ sbk,
    bread d (BBLOCK b sbk) ≫= λ bp,
    balloc_scan d b bp (Z.min BPB (sz - b)) ≫= λ o,
    match o with
    | Some a => mret (Some a)
    | None => brelse bp ≫= λ _, mret None
    end) ≫= λ o,
  match o with
  | Some a => mret a
  | None => panic "balloc: out of blocks"
  end.

Definition bfree (d b : Z) : K fsst unit :=
  readsb d ≫= λ _,
  gets sb ≫= λ sbk,
  bread d (BBLOCK b sbk) ≫= λ bp,
  let bi := b mod BPB in
  let m := Z.shiftl 1 (bi mod 8) in
  bdata bp ≫= λ x,
  if Z.land (rd8 x (bi / 8)) m =? 0 then panic "freeing free block" else
  bset bp (wr8 x (bi / 8) (Z.ldiff (rd8 x (bi / 8)) m)) ≫= λ _,
  log_write bp ≫= λ _,
  brelse bp.

(** ** Inodes *)

Definition on_ilock {A} (i : nat) (m : K (mst sleeplock unit) A) : K fsst A :=
  zoom (λ s, Mst (i_lock (icache s i)) tt []) (λ m, upd_inode i (set_i_lock (obj m))) m.

(** The line about the superblock that iinit prints is left out. *)
Definition iinit (d : Z) : K fsst unit :=
  for_each (seq 0 NINODE) (λ i, modify (upd_inode i (set_i_lock initsleeplock))) ≫= λ _,
  readsb d.

(** The first entry of the cache for the inode, and the first free one. *)
Fixpoint iget_scan (cache : nat → inode) (d n : Z) (js : list nat) (empty : option nat) : nat + option nat :=
  match js with
  | [] => inr empty
  | i :: js' =>
      let ip := cache i in
      if (0 <? i_ref ip) && (i_dev ip =? d) && (i_inum ip =? n) then inl i else
      iget_scan cache d n js'
        (match empty with Some _ => empty | None => if i_ref ip =? 0 then Some i else None end)
  end.

Definition iget (d n : Z) : K fsst nat :=
  gets icache ≫= λ cache,
  match iget_scan cache d n (seq 0 NINODE) None with
  | inl i => modify (upd_inode i (λ ip, set_i_ref (i_ref ip + 1) ip)) ≫= λ _, mret i
  | inr None => panic "iget: no inodes"
  | inr (Some i) => modify (upd_inode i (new_inode d n)) ≫= λ _, mret i
  end.

Definition idup (i : nat) : K fsst nat :=
  modify (upd_inode i (λ ip, set_i_ref (i_ref ip + 1) ip)) ≫= λ _, mret i.

Definition ialloc (d type : Z) : K fsst nat :=
  gets (λ s, sb_ninodes (sb s)) ≫= λ n,
  for_find (seqZ 1 (n - 1)) (λ inum,
    gets sb ≫= λ sbk,
    bread d (IBLOCK inum sbk) ≫= λ bp,
    bdata bp ≫= λ x,
    let o := inum mod IPB * DINODE in
    if di_type x o =? 0 then
      bset bp (wr16 (memset x o 0 DINODE) o type) ≫= λ _,
      log_write bp ≫= λ _,
      brelse bp ≫= λ _,
      iget d inum ≫= λ i, mret (Some i)
    else brelse bp ≫= λ _, mret None) ≫= λ r,
  match r with
  | Some i => mret i
  | None => panic "ialloc: no inodes"
  end.

(** The block [x] with the fields of [ip] stored at [o]. *)
Definition wr_addrs (x : mem) (o : Z) (addrs : Z → Z) (n : nat) : mem :=
  foldl (λ x k, wr32 x (o + 12 + 4 * Z.of_nat k) (addrs (Z.of_nat k))) x (seq 0 n).
Definition store_inode (ip : inode) (o : Z) (x : mem) : mem :=
  let x := wr16 x o (i_type ip) in
  let x := wr16 x (o + 2) (i_major ip) in
  let x := wr16 x (o + 4) (i_minor ip) in
  let x := wr16 x (o + 6) (i_nlink ip) in
  let x := wr32 x (o + 8) (i_size ip) in
  wr_addrs x o (i_addrs ip) (Z.to_nat (NDIRECT + 1)).

Definition iupdate (i : nat) : K fsst unit :=
  ino i ≫= λ ip, gets sb ≫= λ sbk,
  bread (i_dev ip) (IBLOCK (i_inum ip) sbk) ≫= λ bp,
  bdata bp ≫= λ x,
  bset bp (store_inode ip (i_inum ip mod IPB * DINODE) x) ≫= λ _,
  log_write bp ≫= λ _,
  brelse bp.

Definition ilock (i : nat) : K fsst unit :=
  ino i ≫= λ ip,
  if i_ref ip <? 1 then panic "ilock" else
  gets fs_pid ≫= λ p,
  on_ilock i (acquiresleep (ChSleeplock i) p) ≫= λ _,
  ino i ≫= λ ip,
  if i_valid ip then mret tt else
  gets sb ≫= λ sbk,
  bread (i_dev ip) (IBLOCK (i_inum ip) sbk) ≫= λ bp,
  bdata bp ≫= λ x,
  modify (upd_inode i (load_inode x (i_inum ip mod IPB * DINODE))) ≫= λ _,
  brelse bp ≫= λ _,
  modify (upd_inode i (set_i_valid true)) ≫= λ _,
  ino i ≫= λ ip,
  if i_type ip =? 0 then panic "ilock: no type" else mret tt.

Definition iunlock (i : nat) : K fsst unit :=
  on_ilock i holdingsleep ≫= λ h,
  ino i ≫= λ ip,
  if negb h || (i_ref ip <? 1) then panic "iunlock" else
  on_ilock i (releasesleep (ChSleeplock i)).

(** ** Inode contents *)

Definition bmap (i : nat) (bn : Z) : K fsst Z :=
  ino i ≫= λ ip,
  if bn <? NDIRECT then
    if i_addrs ip bn =? 0 then
      balloc (i_dev ip) ≫= λ a,
      modify (upd_inode i (set_i_addr bn a)) ≫= λ _, mret a
    else mret (i_addrs ip bn)
  else
  let bn := bn - NDIRECT in
  if bn <? NINDIRECT then
    (if i_addrs ip NDIRECT =? 0 then
       balloc (i_dev ip) ≫= λ a,
       modify (upd_inode i (set_i_addr NDIRECT a)) ≫= λ _, mret a
     else mret (i_addrs ip NDIRECT)) ≫= λ addr,
    bread (i_dev ip) addr ≫= λ bp,
    bdata bp ≫= λ x,
    (if rd32 x (4 * bn) =? 0 then
       balloc (i_dev ip) ≫= λ a,
       bdata bp ≫= λ x, bset bp (wr32 x (4 * bn) a) ≫= λ _,
       log_write bp ≫= λ _, mret a
     else mret (rd32 x (4 * bn))) ≫= λ addr,
    brelse bp ≫= λ _, mret addr
  else panic "bmap: out of range".

Definition itrunc (i : nat) : K fsst unit :=
  for_each (seqZ 0 NDIRECT) (λ k,
    ino i ≫= λ ip,
    when (truth (i_addrs ip k))
      (bfree (i_dev ip) (i_addrs ip k) ≫= λ _, modify (upd_inode i (set_i_addr k 0)))) ≫= λ _,
  ino i ≫= λ ip,
  when (truth (i_addrs ip NDIRECT))
    (bread (i_dev ip) (i_addrs ip NDIRECT) ≫= λ bp,
     for_each (seqZ 0 NINDIRECT) (λ j,
       bdata bp ≫= λ x,
       when (truth (rd32 x (4 * j))) (bfree (i_dev ip) (rd32 x (4 * j)))) ≫= λ _,
     brelse bp ≫= λ _,
     bfree (i_dev ip) (i_addrs ip NDIRECT) ≫= λ _,
     modify (upd_inode i (set_i_addr NDIRECT 0))) ≫= λ _,
  modify (upd_inode i (set_i_size 0)) ≫= λ _,
  iupdate i.

Definition iput (i : nat) : K fsst unit :=
  gets fs_pid ≫= λ p,
  on_ilock i (acquiresleep (ChSleeplock i) p) ≫= λ _,
  ino i ≫= λ ip,
  when (i_valid ip && (i_nlink ip =? 0))
    (ino i ≫= λ ip,
     when (i_ref ip =? 1)
       (itrunc i ≫= λ _,
        modify (upd_inode i (set_i_type 0)) ≫= λ _,
        iupdate i ≫= λ _,
        modify (upd_inode i (set_i_valid false)))) ≫= λ _,
  on_ilock i (releasesleep (ChSleeplock i)) ≫= λ _,
  modify (upd_inode i (λ ip, set_i_ref (i_ref ip - 1) ip)).

Definition iunlockput (i : nat) : K fsst unit := iunlock i ≫= λ _, iput i.

(** struct stat *)
Record stat := { st_type : Z; st_dev : Z; st_ino : Z; st_nlink : Z; st_size : Z }.
Definition stati (i : nat) : K fsst stat :=
  ino i ≫= λ ip,
  mret {| st_type := i_type ip; st_dev := i_dev ip; st_ino := i_inum ip; st_nlink := i_nlink ip;
          st_size := i_size ip |}.

(** devsw[]: the read and write functions of the devices, of the driver code. *)
Context (dev_read : Z → option (nat → Z → K fsst (Z * list Z))).
Context (dev_write : Z → option (nat → list Z → K fsst Z)).

(** The copying loops, for [n] more bytes at [off]. *)
Fixpoint readi_loop (fuel : nat) (i : nat) (off n : Z) : K fsst (list Z) :=
  if n <=? 0 then mret [] else
  match fuel with
  | O => diverge
  | Datatypes.S fuel' =>
      ino i ≫= λ ip,
      bmap i (off / BSIZE) ≫= λ b,
      bread (i_dev ip) b ≫= λ bp,
      let m := Z.min n (BSIZE - off mod BSIZE) in
      bdata bp ≫= λ x,
      brelse bp ≫= λ _,
      readi_loop fuel' i (off + m) (n - m) ≫= λ rest,
      mret (rd_bytes x (off mod BSIZE) (Z.to_nat m) ++ rest)
  end.

(** The bytes stored at dst come with the result. *)
Definition readi (i : nat) (off n : Z) : K fsst (Z * list Z) :=
  ino i ≫= λ ip,
  if i_type ip =? T_DEV then
    if (i_major ip <? 0) || (NDEV <=? i_major ip) then mret (-1, []) else
    match dev_read (i_major ip) with
    | None => mret (-1, [])
    | Some f => f i n
    end
  else
  if (i_size ip <? off) || (u32 (off + n) <? off) then mret (-1, []) else
  let n := if i_size ip <? u32 (off + n) then i_size ip - off else n in
  readi_loop (Z.to_nat n) i off n ≫= λ bytes, mret (n, bytes).

Fixpoint writei_loop (fuel : nat) (i : nat) (src : list Z) (off n : Z) : K fsst Z :=
  if n <=? 0 then mret off else
  match fuel with
  | O => diverge
  | Datatypes.S fuel' =>
      ino i ≫= λ ip,
      bmap i (off / BSIZE) ≫= λ b,
      bread (i_dev ip) b ≫= λ bp,
      let m := Z.min n (BSIZE - off mod BSIZE) in
      bdata bp ≫= λ x,
      bset bp (wr_bytes x (off mod BSIZE) (take (Z.to_nat m) src)) ≫= λ _,
      log_write bp ≫= λ _,
      brelse bp ≫= λ _,
      writei_loop fuel' i (drop (Z.to_nat m) src) (off + m) (n - m)
  end.

Definition writei (i : nat) (src : list Z) (off n : Z) : K fsst Z :=
  ino i ≫= λ ip,
  if i_type ip =? T_DEV then
    if (i_major ip <? 0) || (NDEV <=? i_major ip) then mret (-1) else
    match dev_write (i_major ip) with
    | None => mret (-1)
    | Some f => f i src
    end
  else
  if (i_size ip <? off) || (u32 (off + n) <? off) then mret (-1) else
  if MAXFILE * BSIZE <? u32 (off + n) then mret (-1) else
  writei_loop (Z.to_nat n) i src off n ≫= λ off',
  ino i ≫= λ ip,
  when ((0 <? n) && (i_size ip <? off'))
    (modify (upd_inode i (set_i_size off')) ≫= λ _, iupdate i) ≫= λ _,
  mret n.

(** ** Directories *)

(** struct dirent: an inode number and DIRSIZ bytes of name. *)
Definition DIRENT : Z := 16.
Definition de_inum (de : list Z) : Z := default 0 (de !! 0%nat) + 256 * default 0 (de !! 1%nat).
Definition de_name (de : list Z) : list Z := drop 2 de.

(** strncmp() on the bytes of two strings; after the last byte comes NUL. *)
Fixpoint strncmp_bytes (p q : list Z) (n : nat) : Z :=
  match n with
  | O => 0
  | Datatypes.S n' =>
      let a := default 0 (p !! 0%nat) in
      let b := default 0 (q !! 0%nat) in
      if negb (a =? 0) && (a =? b) then strncmp_bytes (tail p) (tail q) n' else u8 a - u8 b
  end.
Definition namecmp (s t : list Z) : Z := strncmp_bytes s t DIRSIZ.

(** strncpy() into a name: [n] bytes, padded with NULs. *)
Fixpoint strncpy_bytes (t : list Z) (n : nat) : list Z :=
  match n with
  | O => []
  | Datatypes.S n' =>
      match t with
      | c :: t' => if c =? 0 then replicate n 0 else c :: strncpy_bytes t' n'
      | [] => replicate n 0
      end
  end.

(** The inode found comes with the offset of its entry. *)
Definition dirlookup (dp : nat) (name : list Z) : K fsst (option (nat * Z)) :=
  ino dp ≫= λ ip,
  if negb (i_type ip =? T_DIR) then panic "dirlookup not DIR" else
  upto (upto_fuel 0 (i_size ip) DIRENT) 0 (i_size ip) DIRENT (λ off,
    readi dp off DIRENT ≫= λ '(r, de),
    if negb (r =? DIRENT) then panic "dirlookup read" else
    if de_inum de =? 0 then mret None else
    if namecmp name (de_name de) =? 0 then
      iget (i_dev ip) (de_inum de) ≫= λ i, mret (Some (i, off))
    else mret None).

(** The offset of the first empty entry, or the size of the directory. *)
Definition dir_slot (dp : nat) (sz : Z) : K fsst Z :=
  upto (upto_fuel 0 sz DIRENT) 0 sz DIRENT (λ off,
    readi dp off DIRENT ≫= λ '(r, de),
    if negb (r =? DIRENT) then panic "dirlink read" else
    mret (if de_inum de =? 0 then Some off else None)) ≫= λ o,
  mret (default (DIRENT * ((sz + DIRENT - 1) / DIRENT)) o).

Definition dirlink (dp : nat) (name : list Z) (inum : Z) : K fsst Z :=
  dirlookup dp name ≫= λ o,
  match o with
  | Some (i, _) => iput i ≫= λ _, mret (-1)
  | None =>
      ino dp ≫= λ ip,
      dir_slot dp (i_size ip) ≫= λ off,
      let de := u8 inum :: u8 (inum / 256) :: strncpy_bytes name DIRSIZ in
      writei dp de off DIRENT ≫= λ r,
      if negb (r =? DIRENT) then panic "dirlink" else mret 0
  end.

(** ** Paths *)

Definition slash : Z := 47.

Fixpoint skip_slashes (path : list Z) : list Z :=
  match path with c :: path' => if c =? slash then skip_slashes path' else path | [] => [] end.
(** The bytes up to the next slash, and what follows. *)
Fixpoint elem_split (path : list Z) : list Z * list Z :=
  match path with
  | c :: path' => if c =? slash then ([], path) else let '(e, r) := elem_split path' in (c :: e, r)
  | [] => ([], [])
  end.

(** The name, cut to DIRSIZ bytes, and the rest of the path. *)
Definition skipelem (path : list Z) : option (list Z * list Z) :=
  match skip_slashes path with
  | [] => None
  | s => let '(e, r) := elem_split s in Some (take DIRSIZ e, skip_slashes r)
  end.

(** [cwd] is the current directory of the process; the name of the last element
    comes with the parent. *)
Fixpoint namex_loop (fuel : nat) (ip : nat) (path : list Z) (nameiparent : bool) : K fsst (option (nat * list Z)) :=
  match skipelem path with
  | None =>
      if nameiparent then iput ip ≫= λ _, mret None else mret (Some (ip, []))
  | Some (name, path') =>
      match fuel with
      | O => diverge
      | Datatypes.S fuel' =>
          ilock ip ≫= λ _,
          ino ip ≫= λ x,
          if negb (i_type x =? T_DIR) then iunlockput ip ≫= λ _, mret None else
          if nameiparent && bool_decide (path' = []) then
            iunlock ip ≫= λ _, mret (Some (ip, name))
          else
          dirlookup ip name ≫= λ o,
          match o with
          | None => iunlockput ip ≫= λ _, mret None
          | Some (next, _) =>
              iunlockput ip ≫= λ _,
              namex_loop fuel' next path' nameiparent
          end
      end
  end.

Definition namex (cwd : nat) (path : list Z) (nameiparent : bool) : K fsst (option (nat * list Z)) :=
  (match path with
   | c :: _ => if c =? slash then iget ROOTDEV ROOTINO else idup cwd
   | [] => idup cwd
   end) ≫= λ ip,
  namex_loop (length path) ip path nameiparent.

Definition namei (cwd : nat) (path : list Z) : K fsst (option nat) :=
  namex cwd path false ≫= λ o, mret (fst <$> o).
Definition nameiparent (cwd : nat) (path : list Z) : K fsst (option (nat * list Z)) := namex cwd path true.
End fs.
