(* ===== verification/Fsblock.v ===== *)
(** Block allocation in the file system (src/fs.c): what balloc() and bfree() do
    to the blocks of a transaction. *)

From Stdlib Require Import ZArith Lia.
From stdpp Require Import base tactics numbers gmap strings functions list.
From S2P Require Import Prelude Memory Kstring Monitor Sleeplock Buf Journal Fs.

#[local] Open Scope Z_scope.

(** ** Steps on blocks *)

(** Block [b] has been set to [d], logged and released. *)
Definition jput b d v := {| j_cont := <[b := d]> (j_cont v); j_size := j_size v; j_res := j_res v;
  j_held := j_held v; j_log := {[b]} ∪ j_log v; j_mod := ∅ |}.

Lemma jview_eq v v' :
  j_cont v = j_cont v' → j_size v = j_size v' → j_res v = j_res v' → j_held v = j_held v' →
  j_log v = j_log v' → j_mod v = j_mod v' → v = v'.
Proof. destruct v, v'; simpl; congruence. Qed.

Lemma junhold_jhold b v : b ∉ j_held v → junhold b (jhold b v) = v.
Proof. intros Hb. apply jview_eq; try done; simpl. set_solver. Qed.
Lemma jput_steps b d v :
  b ∉ j_held v → j_mod v = ∅ → junhold b (jlog b (jstore b d (jhold b v))) = jput b d v.
Proof. intros Hb Hm. apply jview_eq; try done; simpl; set_solver. Qed.

Lemma room_hold k b v : j_room (S k) v → j_room k (jhold b v).
Proof.
  unfold j_room. simpl. intros H. rewrite <- (assoc_L (∪)).
  assert (size ({[b]} ∪ (j_held v ∪ j_log v)) ≤ S (size (j_held v ∪ j_log v)))%nat; [|lia].
  rewrite size_union_alt, size_singleton. apply le_n_S, subseteq_size. set_solver.
Qed.
Lemma room_put k b d v : j_room (S k) v → j_room k (jput b d v).
Proof.
  intros H%(room_hold k b). unfold j_room in *. simpl in *.
  replace (j_held v ∪ ({[b]} ∪ j_log v)) with ({[b]} ∪ j_held v ∪ j_log v) by set_solver. done.
Qed.
Lemma room_le k k' v : (k ≤ k')%nat → j_room k' v → j_room k v.
Proof. unfold j_room. lia. Qed.

Section steps.
Context {S : Type} `{!Blocks S, !BlocksSpec S}.
Abbreviation fsst := (@fsst S).

(** The states differ in their blocks only. *)
Definition same_fs (s s' : fsst) : Prop := sb s' = sb s ∧ icache s' = icache s ∧ fs_pid s' = fs_pid s.

#[export] Instance same_fs_preorder : PreOrder same_fs.
Proof. split; [done|]. intros s1 s2 s3 (?&?&?) (?&?&?). split_and!; congruence. Qed.

Lemma wp_on_blk {A} (m : K S A) (s : fsst) (Q : A → fsst → Prop) :
  wp m (blk s) (λ a b, ∀ s', blk s' = b → same_fs s s' → Q a s') → wp (on_blk m) s Q.
Proof. unfold wp, on_blk, zoom. destruct (m (blk s)); try done. intros H. by apply H. Qed.

(** [v] is what the state shows of the blocks, and nothing is half changed. *)
Definition shows (s : fsst) (v : jview) : Prop := b_rep (blk s) v ∧ j_mod v = ∅.
Definition fholds (s : fsst) (i : nat) (b : Z) : Prop := b_holds (blk s) i b.

Lemma shows_ext s v f :
  shows s v → (∀ b, f b = j_cont v b) →
  shows s {| j_cont := f; j_size := j_size v; j_res := j_res v; j_held := j_held v; j_log := j_log v; j_mod := j_mod v |}.
Proof. intros [Hr Hm] Hf. split; [by apply b_rep_cont|done]. Qed.

Lemma shows_same s s' v : shows s v → blk s' = blk s → shows s' v.
Proof. intros [Hr Hm] E. split; [by rewrite E|done]. Qed.

Lemma fs_bread (s : fsst) v b (Q : nat → fsst → Prop) :
  shows s v → 0 ≤ b < j_size v → ¬ j_res v b → b ∉ j_held v → b ∈ j_log v ∨ j_room 1 v →
  (∀ i s', shows s' (jhold b v) → fholds s' i b → same_fs s s' →
     (∀ j c, fholds s j c → j ≠ i ∧ fholds s' j c) → Q i s') →
  wp (on_blk (b_read ROOTDEV b)) s Q.
Proof.
  intros [Hr Hm] Hb Hn Hh Hroom HQ. apply wp_on_blk. eapply wp_mono; [|by apply b_read_ok].
  intros i b' (H1&H2&H3) s' <- Hs. by apply HQ.
Qed.
Lemma fs_bdata (s : fsst) v i b (Q : mem → fsst → Prop) :
  b_rep (blk s) v → fholds s i b → (∀ s', blk s' = blk s → same_fs s s' → Q (j_cont v b) s') →
  wp (on_blk (b_data i)) s Q.
Proof.
  intros Hr Hh HQ. apply wp_on_blk. eapply wp_mono; [|by apply b_data_ok].
  intros d b' [-> ->] s' E Hs. by apply HQ.
Qed.

(** Releasing a block that was only read. *)
Lemma fs_brelse (s : fsst) v i b (Q : unit → fsst → Prop) :
  shows s (jhold b v) → b ∉ j_held v → fholds s i b →
  (∀ s', shows s' v → same_fs s s' → (∀ j c, j ≠ i → fholds s j c → fholds s' j c) → Q tt s') →
  wp (on_blk (b_relse i)) s Q.
Proof.
  intros [Hr Hm] Hb Hh HQ. apply wp_on_blk. eapply wp_mono; [|apply (b_relse_ok _ _ i b Hr Hh)].
  - intros [] b' [H1 H2] s' <- Hs. rewrite junhold_jhold in H1 by done. by apply HQ.
  - rewrite Hm. set_solver.
Qed.

(** Setting a block, logging and releasing it. *)
Lemma fs_bput (s : fsst) v i b d (Q : unit → fsst → Prop) :
  shows s (jhold b v) → b ∉ j_held v → fholds s i b →
  (∀ s', shows s' (jput b d v) → same_fs s s' → (∀ j c, j ≠ i → fholds s j c → fholds s' j c) → Q tt s') →
  wp (on_blk (b_set i d) ≫= λ _, on_blk (b_log i) ≫= λ _, on_blk (b_relse i)) s Q.
Proof.
  intros [Hr Hm] Hb Hh HQ. apply wp_bind, wp_on_blk. eapply wp_mono; [|apply (b_set_ok _ _ i b d Hr Hh)].
  intros [] b1 [H1 F1] s1 <- Hs1. apply wp_bind, wp_on_blk.
  eapply wp_mono; [|apply (b_log_ok _ _ i b H1); by apply F1].
  intros [] b2 [H2 F2] s2 <- Hs2. apply wp_on_blk.
  eapply wp_mono; [|apply (b_relse_ok _ _ i b H2); [by apply F2, F1|]].
  - intros [] b3 [H3 F3] s3 <- Hs3. rewrite jput_steps in H3 by done. apply HQ; [by split|by do 2 (etrans; [done|])|].
    intros j c Hj Hjc. by apply F3, F2, F1.
  - simpl. set_solver.
Qed.

Lemma fs_bput_k {A} (k : unit → K fsst A) (s : fsst) v i b d (Q : A → fsst → Prop) :
  shows s (jhold b v) → b ∉ j_held v → fholds s i b →
  (∀ s', shows s' (jput b d v) → same_fs s s' → (∀ j c, j ≠ i → fholds s j c → fholds s' j c) →
     wp (k tt) s' Q) →
  wp (on_blk (b_set i d) ≫= λ _, on_blk (b_log i) ≫= λ _, on_blk (b_relse i) ≫= k) s Q.
Proof.
  intros H1 H2 H3 HQ.
  pose proof (fs_bput s v i b d (λ u s', wp (k u) s' Q) H1 H2 H3 HQ) as H. clear HQ.
  unfold wp, mbind, K_bind in *. destruct (on_blk (b_set i d) s) as [u s1| | | |]; try done.
  destruct (on_blk (b_log i) s1) as [u1 s2| | | |]; try done. by destruct (on_blk (b_relse i) s2).
Qed.

Lemma fs_bput_w (s : fsst) v i b d (Q : unit → fsst → Prop) :
  shows s (jhold b v) → b ∉ j_held v → fholds s i b →
  (∀ s', shows s' (jput b d v) → same_fs s s' → (∀ j c, j ≠ i → fholds s j c → fholds s' j c) → Q tt s') →
  wp (on_blk (b_set i d)) s (λ _ s1, wp (on_blk (b_log i)) s1 (λ _ s2, wp (on_blk (b_relse i)) s2 Q)).
Proof.
  intros H1 H2 H3 HQ. pose proof (fs_bput s v i b d Q H1 H2 H3 HQ) as H.
  apply wp_bind in H. eapply wp_mono; [|exact H]. intros u s1 Hu. by apply wp_bind in Hu.
Qed.

Lemma bzero_spec (s : fsst) v b (Q : unit → fsst → Prop) :
  shows s v → 0 ≤ b < j_size v → ¬ j_res v b → b ∉ j_held v → b ∈ j_log v ∨ j_room 1 v →
  (∀ s' , shows s' (jput b (memset (j_cont v b) 0 0 BSIZE) v) → same_fs s s' →
     (∀ j c, fholds s j c → fholds s' j c) → Q tt s') →
  wp (bzero ROOTDEV b) s Q.
Proof.
  intros Hr Hb Hn Hh Hroom HQ. unfold bzero. apply wp_bind. eapply fs_bread; try done.
  intros i s1 H1 Hi1 Hs1 Hf1. apply wp_bind. eapply fs_bdata; [apply H1|done|]. intros s2 E2 Hs2. simpl.
  apply (fs_bput s2 v i b); [by eapply shows_same|done|unfold fholds; by rewrite E2|].
  intros s3 H3 Hs3 Hf3. apply HQ; [done|by do 2 (etrans; [done|])|].
  intros j c Hj. destruct (Hf1 j c Hj) as [Hji Hj1]. apply Hf3; [done|]. unfold fholds. by rewrite E2.
Qed.
End steps.

(** ** The layout of the disk *)

(** The blocks before [ds] hold the metadata; [v] has the sizes of the disk and
    the blocks reserved for the log. *)
Record layout (sbk : superblock) (ds : Z) (v : jview) : Prop := {
  ly_size : sb_size sbk ≤ j_size v;
  ly_small : j_size v < 2147483648;
  ly_ds : 1 < ds ≤ sb_size sbk;
  ly_super : ¬ j_res v 1;
  ly_bmap b : 0 ≤ b < sb_size sbk →
    1 < b / BPB + sb_bmapstart sbk < ds ∧ ¬ j_res v (b / BPB + sb_bmapstart sbk);
  ly_inode i : 0 ≤ i < sb_ninodes sbk →
    1 < i / IPB + sb_inodestart sbk < ds ∧ ¬ j_res v (i / IPB + sb_inodestart sbk) ∧
    ∀ b, 0 ≤ b < sb_size sbk → i / IPB + sb_inodestart sbk ≠ b / BPB + sb_bmapstart sbk;
  ly_data b : ds ≤ b < sb_size sbk → ¬ j_res v b
}.

Lemma layout_same sbk ds v v' :
  layout sbk ds v → j_size v' = j_size v → j_res v' = j_res v → layout sbk ds v'.
Proof. intros [] E1 E2. split; rewrite ?E1, ?E2; done. Qed.

Section layout.
Context (sbk : superblock) (ds : Z).

(** The bit of block [b] in the free map: in use or not. *)
Definition bit (c : Z → mem) (b : Z) : bool :=
  Z.testbit (rd8 (c (BBLOCK b sbk)) (b mod BPB / 8)) (b mod 8).

Definition is_bmap (x : Z) : Prop := ∃ b, 0 ≤ b < sb_size sbk ∧ x = BBLOCK b sbk.

(** The content of the disk as far as allocation goes. *)
Record disk_ok (c : Z → mem) : Prop := {
  dk_super : sb_of (c 1) = sbk;
  dk_meta b : 0 ≤ b < ds → bit c b = true
}.

Lemma BBLOCK_range v b : layout sbk ds v → 0 ≤ b < sb_size sbk →
  BBLOCK b sbk = b / BPB + sb_bmapstart sbk ∧ 1 < BBLOCK b sbk < ds ∧ ¬ j_res v (BBLOCK b sbk).
Proof.
  intros Hl Hb. destruct (ly_bmap _ _ _ Hl b Hb) as [H1 H2]. destruct (ly_ds _ _ _ Hl).
  pose proof (ly_size _ _ _ Hl). pose proof (ly_small _ _ _ Hl).
  unfold BBLOCK. rewrite u32_small by (unfold is_u32; lia). done.
Qed.

Lemma bit_ext c c' b : c' (BBLOCK b sbk) = c (BBLOCK b sbk) → bit c' b = bit c b.
Proof. unfold bit. by intros ->. Qed.

Lemma testbit_u8 x k : 0 ≤ k < 8 → Z.testbit (u8 x) k = Z.testbit x k.
Proof. intros Hk. unfold u8. change 256 with (2 ^ 8). apply Z.mod_pow2_bits_low. lia. Qed.

Lemma BBLOCK_inj v b b' : layout sbk ds v → 0 ≤ b < sb_size sbk → 0 ≤ b' < sb_size sbk →
  BBLOCK b sbk = BBLOCK b' sbk → b / BPB = b' / BPB.
Proof.
  intros Hl Hb Hb'. destruct (BBLOCK_range v b Hl Hb) as [-> _], (BBLOCK_range v b' Hl Hb') as [-> _]. lia.
Qed.

(** Changing the bit of [b] to [g] in the free map. *)
Lemma bit_put v c b b' f (g : bool) :
  layout sbk ds v → 0 ≤ b < sb_size sbk → 0 ≤ b' < sb_size sbk →
  (∀ k, 0 ≤ k < 8 → Z.testbit f k = if decide (k = b mod 8) then g
     else Z.testbit (rd8 (c (BBLOCK b sbk)) (b mod BPB / 8)) k) →
  bit (<[BBLOCK b sbk := wr8 (c (BBLOCK b sbk)) (b mod BPB / 8) f]> c) b' =
  if decide (b' = b) then g else bit c b'.
Proof.
  intros Hl Hb Hb' Hf. unfold bit. destruct (decide (BBLOCK b' sbk = BBLOCK b sbk)) as [E|E].
  - rewrite E, fn_lookup_insert, rd8_wr8. pose proof (BBLOCK_inj v _ _ Hl Hb' Hb E) as Eq.
    change BPB with 4096 in *. case_decide as E2.
    + rewrite testbit_u8, Hf by zlia. destruct (decide (b' mod 8 = b mod 8)).
      * rewrite decide_True by zlia. done.
      * rewrite decide_False by (intros ->; done). by rewrite E2.
    + rewrite decide_False by (intros ->; done). done.
  - rewrite fn_lookup_insert_ne by done. rewrite decide_False by (intros ->; done). done.
Qed.

(** The bytes that balloc and bfree compute. *)
Lemma testbit_shiftl1 i k : 0 ≤ i → 0 ≤ k → Z.testbit (Z.shiftl 1 i) k = bool_decide (k = i).
Proof.
  intros Hi Hk. rewrite Z.shiftl_1_l, Z.pow2_bits_eqb by done. apply eq_bool_prop_intro.
  rewrite bool_decide_spec, Is_true_true, Z.eqb_eq. lia.
Qed.
Lemma land_bit_zero x i : 0 ≤ i → (Z.land x (Z.shiftl 1 i) =? 0) = negb (Z.testbit x i).
Proof.
  intros Hi. pose proof (truth_land_pow x i Hi) as H. unfold truth in H. rewrite Z.shiftl_1_l.
  destruct (Z.land x (2 ^ i) =? 0); simpl in H; by rewrite <- H.
Qed.
Lemma lor_bit x i k : 0 ≤ i → 0 ≤ k →
  Z.testbit (Z.lor x (Z.shiftl 1 i)) k = if decide (k = i) then true else Z.testbit x k.
Proof.
  intros Hi Hk. rewrite Z.lor_spec, testbit_shiftl1 by done. case_decide.
  - by rewrite bool_decide_eq_true_2, orb_true_r.
  - by rewrite bool_decide_eq_false_2, orb_false_r.
Qed.
Lemma ldiff_bit x i k : 0 ≤ i → 0 ≤ k →
  Z.testbit (Z.ldiff x (Z.shiftl 1 i)) k = if decide (k = i) then false else Z.testbit x k.
Proof.
  intros Hi Hk. rewrite Z.ldiff_spec, testbit_shiftl1 by done. case_decide.
  - by rewrite bool_decide_eq_true_2, andb_false_r.
  - by rewrite bool_decide_eq_false_2, andb_true_r.
Qed.
End layout.

(** ** balloc *)

(** Block [a] has been allocated: it was free, it is marked and zeroed, and no
    other block but those of the free map has changed. *)
Record allocated (sbk : superblock) (ds : Z) (v v' : jview) (a : Z) : Prop := {
  al_range : ds ≤ a < sb_size sbk;
  al_free : bit sbk (j_cont v) a = false;
  al_bit b : 0 ≤ b < sb_size sbk → bit sbk (j_cont v') b = if decide (b = a) then true else bit sbk (j_cont v) b;
  al_zero o : 0 ≤ o < BSIZE → rd8 (j_cont v' a) o = 0;
  al_other x : x ≠ a → ¬ is_bmap sbk x → j_cont v' x = j_cont v x;
  al_size : j_size v' = j_size v;
  al_res : j_res v' = j_res v;
  al_held : j_held v' = j_held v;
  al_log : j_log v' = j_log v ∪ {[a; BBLOCK a sbk]};
  al_ok : disk_ok sbk ds (j_cont v')
}.

Lemma allocated_room sbk ds v v' a k : allocated sbk ds v v' a → j_room (2 + k) v → j_room k v'.
Proof.
  intros [_ _ _ _ _ _ _ Hh Hl _] Hr.
  pose proof (room_put k a (j_cont v a) _ (room_put (S k) (BBLOCK a sbk) (j_cont v a) _ Hr)) as H. revert H.
  unfold j_room. simpl. rewrite Hh, Hl.
  replace (j_held v ∪ ({[a]} ∪ ({[BBLOCK a sbk]} ∪ j_log v)))
    with (j_held v ∪ (j_log v ∪ {[a; BBLOCK a sbk]})) by set_solver. done.
Qed.

(** Block [b] has been freed. *)
Record freed (sbk : superblock) (ds : Z) (v v' : jview) (b : Z) : Prop := {
  fr_bit c : 0 ≤ c < sb_size sbk → bit sbk (j_cont v') c = if decide (c = b) then false else bit sbk (j_cont v) c;
  fr_other x : ¬ is_bmap sbk x → j_cont v' x = j_cont v x;
  fr_size : j_size v' = j_size v;
  fr_res : j_res v' = j_res v;
  fr_held : j_held v' = j_held v;
  fr_log : j_log v' = {[BBLOCK b sbk]} ∪ j_log v;
  fr_ok : disk_ok sbk ds (j_cont v')
}.

Section balloc.
Context {S : Type} `{!Blocks S, !BlocksSpec S}.
Abbreviation fsst := (@fsst S).
Context (sbk : superblock) (ds : Z).

(** What balloc and bfree need: the blocks of the free map are not held, and
    the blocks that are held are in use. *)
Record alloc_ok (s : fsst) (v : jview) : Prop := {
  ao_shows : shows s v;
  ao_sb : sb s = sbk;
  ao_layout : layout sbk ds v;
  ao_disk : disk_ok sbk ds (j_cont v);
  ao_bmap x : is_bmap sbk x → x ∉ j_held v;
  ao_held x : x ∈ j_held v → 0 ≤ x < sb_size sbk ∧ bit sbk (j_cont v) x = true
}.

Lemma is_bmap_meta v x : layout sbk ds v → is_bmap sbk x → 1 < x < ds ∧ ¬ j_res v x.
Proof. intros Hl (b&Hb&->). destruct (BBLOCK_range sbk ds v b Hl Hb) as (_&?&?). done. Qed.

Lemma disk_ok_bmap v c b x :
  layout sbk ds v → disk_ok sbk ds c → 0 ≤ b < sb_size sbk →
  (∀ b', 0 ≤ b' < sb_size sbk → bit sbk c b' = true → b' < ds → bit sbk (<[BBLOCK b sbk := x]> c) b' = true) →
  disk_ok sbk ds (<[BBLOCK b sbk := x]> c).
Proof.
  intros Hl [Hs Hm] Hb Hk. destruct (BBLOCK_range sbk ds v b Hl Hb) as (_&Hr&_). pose proof (ly_ds _ _ _ Hl).
  split.
  - rewrite fn_lookup_insert_ne by lia. done.
  - intros b' Hb'. apply Hk; [lia|by apply Hm|lia].
Qed.

Lemma disk_ok_data v c b x :
  layout sbk ds v → disk_ok sbk ds c → ds ≤ b → disk_ok sbk ds (<[b := x]> c).
Proof.
  intros Hl [Hs Hm] Hb. pose proof (ly_ds _ _ _ Hl). split.
  - rewrite fn_lookup_insert_ne by lia. done.
  - intros b' Hb'. rewrite (bit_ext sbk c); [by apply Hm|].
    destruct (BBLOCK_range sbk ds v b' Hl) as (_&Hr&_); [lia|]. rewrite fn_lookup_insert_ne by lia. done.
Qed.

(** Marking and zeroing the free block [a]. *)
Lemma allocated_put v a f :
  layout sbk ds v → disk_ok sbk ds (j_cont v) → 0 ≤ a < sb_size sbk → bit sbk (j_cont v) a = false →
  (∀ k, 0 ≤ k < 8 → Z.testbit f k = if decide (k = a mod 8) then true
     else Z.testbit (rd8 (j_cont v (BBLOCK a sbk)) (a mod BPB / 8)) k) →
  let v1 := jput (BBLOCK a sbk) (wr8 (j_cont v (BBLOCK a sbk)) (a mod BPB / 8) f) v in
  allocated sbk ds v (jput a (memset (j_cont v1 a) 0 0 BSIZE) v1) a.
Proof.
  intros Hl Hok Ha Hfree Hf v1.
  assert (Hads : ds ≤ a).
  { destruct (Z.lt_ge_cases a ds); [|done]. pose proof (dk_meta _ _ _ Hok a). rewrite Hfree in *. naive_solver lia. }
  assert (Hbit : ∀ b, 0 ≤ b < sb_size sbk →
    bit sbk (j_cont v1) b = if decide (b = a) then true else bit sbk (j_cont v) b).
  { intros b Hb. by apply (bit_put sbk ds v). }
  assert (Hok1 : disk_ok sbk ds (j_cont v1)).
  { apply (disk_ok_bmap v); try done.
    intros b Hb Hb1 _. change (bit sbk (j_cont v1) b = true). rewrite Hbit by done. by case_decide. }
  assert (Hbm : ∀ x, is_bmap sbk x → x ≠ a) by (intros x Hx; pose proof (is_bmap_meta v x Hl Hx); lia).
  split; try done; simpl; [lia|..].
  - intros b Hb. rewrite (bit_ext sbk (j_cont v1)); [by apply Hbit|].
    rewrite fn_lookup_insert_ne; [done|]. apply not_eq_sym, Hbm. by exists b.
  - intros o Ho. rewrite fn_lookup_insert, rd8_memset by done. rewrite decide_True by lia. done.
  - intros x Hx Hnb. rewrite !fn_lookup_insert_ne; [done| |done]. intros <-. apply Hnb. by exists a.
  - set_solver.
  - apply (disk_ok_data v); done.
Qed.

(** The blocks of one block of the free map. *)
Lemma bmap_block b bi : 0 ≤ b → b mod BPB = 0 → 0 ≤ bi < BPB →
  BBLOCK (b + bi) sbk = BBLOCK b sbk ∧ (b + bi) mod BPB = bi ∧ (b + bi) mod 8 = bi mod 8.
Proof.
  intros Hb Hm Hbi. unfold BBLOCK. change BPB with 4096 in *.
  replace ((b + bi) / 4096) with (b / 4096) by zlia. split; [done|]. split; zlia.
Qed.

(** The scan stops at the first free block; [Q] gets it, or the block of the
    free map still held. *)
Lemma balloc_scan_spec (s : fsst) v b bp n (Q : option Z → fsst → Prop) :
  alloc_ok s v → 0 ≤ b → b mod BPB = 0 → 0 ≤ n ≤ BPB → b + n ≤ sb_size sbk → j_room 2 v →
  ∀ s1, shows s1 (jhold (BBLOCK b sbk) v) → fholds s1 bp (BBLOCK b sbk) → same_fs s s1 →
  (∀ j c, fholds s j c → j ≠ bp ∧ fholds s1 j c) → 0 < n →
  (∀ a v' s', b ≤ a < b + n → allocated sbk ds v v' a → shows s' v' → same_fs s s' →
     (∀ j c, fholds s j c → fholds s' j c) → Q (Some a) s') →
  (∀ s', (∀ a, b ≤ a < b + n → bit sbk (j_cont v) a = true) → shows s' (jhold (BBLOCK b sbk) v) →
     fholds s' bp (BBLOCK b sbk) → same_fs s s' →
     (∀ j c, fholds s j c → j ≠ bp ∧ fholds s' j c) → Q None s') →
  wp (balloc_scan ROOTDEV b bp n) s1 Q.
Proof.
  intros Hao Hb Hm Hn Hlim Hroom s1 Hs1 Hi1 Hsm1 Hf1 Hn0 HS HN. unfold balloc_scan.
  pose proof Hao as [Hsh Hsb Hl Hok Hbm Hhe].
  assert (HB : is_bmap sbk (BBLOCK b sbk)) by (exists b; split; [lia|done]).
  apply (wp_for_find _ (λ p s', (∀ bi, 0 ≤ bi < Z.of_nat (length p) → bit sbk (j_cont v) (b + bi) = true) ∧
    shows s' (jhold (BBLOCK b sbk) v) ∧ fholds s' bp (BBLOCK b sbk) ∧ same_fs s s' ∧
    ∀ j c, fholds s j c → j ≠ bp ∧ fholds s' j c) Q _ []).
  - split_and!; try done. simpl. lia.
  - intros p bi q s2 Heq (Hused&Hs2&Hi2&Hsm2&Hf2). simpl app in Heq.
    assert (Hbi : bi = Z.of_nat (length p) ∧ bi < n).
    { assert (Hx : seqZ 0 n !! length p = Some bi) by (rewrite Heq; by apply list_lookup_middle).
      apply lookup_seqZ in Hx as [-> ?]. lia. }
    destruct Hbi as [-> Hlt]. set (bi := Z.of_nat (length p)) in *.
    destruct (bmap_block b bi Hb Hm ltac:(lia)) as (EB&Em&E8).
    apply wp_bind. eapply fs_bdata; [apply Hs2|exact Hi2|]. intros s3 E3 Hsm3. cbn [j_cont jhold].
    rewrite land_bit_zero by zlia.
    assert (Hbit : bit sbk (j_cont v) (b + bi) = Z.testbit (rd8 (j_cont v (BBLOCK b sbk)) (bi / 8)) (bi mod 8)).
    { unfold bit. by rewrite EB, Em, E8. }
    rewrite <- Hbit. destruct (bit sbk (j_cont v) (b + bi)) eqn:Eb; simpl negb; cbv iota.
    + apply wp_ret. split_and!; try done.
      * intros bj Hbj. rewrite length_app in Hbj. simpl in Hbj.
        destruct (decide (bj = bi)) as [->|]; [done|apply Hused; lia].
      * eapply shows_same; [exact Hs2|done].
      * unfold fholds. by rewrite E3.
      * by etrans.
      * intros j c Hj. unfold fholds. rewrite E3. by apply Hf2.
    + apply (fs_bput_k _ s3 v bp (BBLOCK b sbk)); [by eapply shows_same|by apply Hbm|unfold fholds; by rewrite E3|].
      intros s4 Hs4 Hsm4 Hf4. apply wp_bind.
      assert (Hfb : ∀ k, 0 ≤ k < 8 →
        Z.testbit (Z.lor (rd8 (j_cont v (BBLOCK b sbk)) (bi / 8)) (Z.shiftl 1 (bi mod 8))) k =
        if decide (k = (b + bi) mod 8) then true
        else Z.testbit (rd8 (j_cont v (BBLOCK (b + bi) sbk)) ((b + bi) mod BPB / 8)) k).
      { intros k Hk. rewrite EB, Em, E8. apply lor_bit; zlia. }
      pose proof (allocated_put v (b + bi) _ Hl Hok ltac:(lia) Eb Hfb) as Hal.
      rewrite EB, Em in Hal.
      eapply (bzero_spec s4 _ (b + bi) _ Hs4); simpl.
      * pose proof (al_range _ _ _ _ _ Hal). pose proof (ly_size _ _ _ Hl). lia.
      * apply (ly_data _ _ _ Hl). apply (al_range _ _ _ _ _ Hal).
      * intros Hin. apply Hhe in Hin as [_ Hin]. congruence.
      * right. by apply room_put.
      * intros s5 Hs5 Hsm5 Hf5. apply wp_ret. eapply HS; [|exact Hal|exact Hs5| |].
        -- lia.
        -- do 4 (etrans; [eassumption|]). reflexivity.
        -- intros j c Hj. apply Hf5. destruct (Hf2 j c Hj) as [Hjb Hj2]. apply Hf4; [done|].
           unfold fholds. by rewrite E3.
  - intros s' (Hused&Hs'&Hi'&Hsm'&Hf'). apply HN; try done. intros a Ha.
    replace a with (b + (a - b)) by lia. apply Hused. simpl app. rewrite length_seqZ. lia.
Qed.

(** balloc returns a free block, if there is one. *)
Lemma balloc_spec (s : fsst) v :
  alloc_ok s v → j_room 2 v → (∃ b, 0 ≤ b < sb_size sbk ∧ bit sbk (j_cont v) b = false) →
  wp (balloc ROOTDEV) s (λ a s', ∃ v', allocated sbk ds v v' a ∧ shows s' v' ∧ same_fs s s' ∧
    ∀ j c, fholds s j c → fholds s' j c).
Proof.
  intros Hao Hroom (bf&Hbf&Hfree). pose proof Hao as [Hsh Hsb Hl Hok Hbm Hhe].
  pose proof (ly_ds _ _ _ Hl). pose proof (ly_size _ _ _ Hl). pose proof (ly_small _ _ _ Hl).
  unfold balloc. apply wp_bind. unfold wp at 1, gets at 1. rewrite Hsb. apply wp_bind.
  apply (wp_upto _ (λ b s', b mod BPB = 0 ∧ (∀ a, 0 ≤ a < b → a < sb_size sbk → bit sbk (j_cont v) a = true) ∧
    shows s' v ∧ same_fs s s' ∧ ∀ j c, fholds s j c → fholds s' j c)).
  - done.
  - change BPB with 4096. lia.
  - intros b s1 Hb (Hm&Hused&Hs1&Hsm1&Hf1). apply wp_bind. unfold wp at 1, gets at 1.
    destruct Hsm1 as (Esb&Eic&Epid). rewrite Esb, Hsb.
    destruct (BBLOCK_range sbk ds v b Hl) as (_&HBr&HBn); [lia|].
    assert (HB : is_bmap sbk (BBLOCK b sbk)) by (exists b; split; [lia|done]).
    assert (Hao1 : alloc_ok s1 v) by (split; try done; congruence).
    apply wp_bind. eapply (fs_bread s1 v); [done|lia|done|by apply Hbm|right; apply (room_le _ 2); [lia|done]|].
    intros bp s2 Hs2 Hi2 Hsm2 Hf2. apply wp_bind. change BPB with 4096 in *.
    apply (balloc_scan_spec s1 v b bp (Z.min 4096 (sb_size sbk - b))); try done; try (change BPB with 4096); try lia.
    + intros a v' s3 Ha Hal Hs3 Hsm3 Hf3. apply wp_ret. apply wp_ret. exists v'. split_and!; try done.
      * etrans; [by split_and!|done].
      * intros j c Hj. by apply Hf3, Hf1.
    + intros s3 Hall Hs3 Hi3 Hsm3 Hf3. apply wp_bind. eapply (fs_brelse s3 v bp); [done|by apply Hbm|done|].
      intros s4 Hs4 Hsm4 Hf4. apply wp_ret. split_and!; try done; [zlia|..].
      * intros a Ha Ha'. destruct (Z.lt_ge_cases a b); [apply Hused; lia|apply Hall; lia].
      * do 2 (etrans; [|done]). by split_and!.
      * intros j c Hj. destruct (Hf3 j c) as [Hne Hj3]; [by apply Hf1|]. by apply Hf4.
  - intros b s1 Hb (_&Hused&_). rewrite Hused in Hfree by lia. done.
  - done.
  - pose proof (upto_fuel_enough 0 (sb_size sbk) BPB ltac:(done)). lia.
  - split_and!; try done. lia.
Qed.

(** ** bfree *)

Lemma bfree_spec (s : fsst) v b :
  alloc_ok s v → ds ≤ b < sb_size sbk → bit sbk (j_cont v) b = true → 1 ∉ j_held v →
  j_room 1 v →
  wp (bfree ROOTDEV b) s (λ _ s', ∃ v', freed sbk ds v v' b ∧ shows s' v' ∧ same_fs s s' ∧
    ∀ j c, fholds s j c → fholds s' j c).
Proof.
  intros Hao Hb Hbit H1 Hroom. pose proof Hao as [Hsh Hsb Hl Hok Hbm Hhe].
  pose proof (ly_ds _ _ _ Hl). pose proof (ly_size _ _ _ Hl).
  destruct (BBLOCK_range sbk ds v b Hl) as (_&HBr&HBn); [lia|].
  assert (HB : is_bmap sbk (BBLOCK b sbk)) by (exists b; split; [lia|done]).
  unfold bfree, readsb. apply wp_bind, wp_bind.
  eapply (fs_bread s v); [done|lia|apply Hl|done|by right|]. intros i1 s1 Hs1 Hi1 Hsm1 Hf1.
  apply wp_bind. eapply fs_bdata; [apply Hs1|exact Hi1|]. intros s2 E2 Hsm2.
  apply wp_bind. unfold wp at 1, modify at 1. cbn [j_cont jhold]. rewrite (dk_super _ _ _ Hok).
  set (s3 := set_sb sbk s2).
  assert (Hsm3 : same_fs s s3).
  { destruct Hsm1 as (?&?&?), Hsm2 as (?&?&?). split_and!; simpl; congruence. }
  eapply (fs_brelse s3 v i1 1); [by eapply shows_same|done|unfold fholds; simpl; by rewrite E2|].
  intros s4 Hs4 Hsm4 Hf4. apply wp_bind. unfold wp at 1, gets at 1.
  assert (Hsm04 : same_fs s s4) by (by etrans). assert (Esb : sb s4 = sbk) by (destruct Hsm04; congruence).
  rewrite Esb. apply wp_bind. eapply (fs_bread s4 v); [done|lia|done|by apply Hbm|by right|].
  intros i5 s5 Hs5 Hi5 Hsm5 Hf5. apply wp_bind. eapply fs_bdata; [apply Hs5|exact Hi5|]. intros s6 E6 Hsm6.
  cbn [j_cont jhold]. rewrite land_bit_zero by zlia.
  replace (b mod BPB mod 8) with (b mod 8) by (change BPB with 4096; zlia).
  fold (bit sbk (j_cont v) b). rewrite Hbit. simpl negb. cbv iota.
  eapply (fs_bput s6 v i5 (BBLOCK b sbk)); [by eapply shows_same|by apply Hbm|unfold fholds; by rewrite E6|].
  intros s7 Hs7 Hsm7 Hf7. eexists. split; [|split; [exact Hs7|]].
  - assert (Hput : ∀ c, 0 ≤ c < sb_size sbk → bit sbk (<[BBLOCK b sbk := wr8 (j_cont v (BBLOCK b sbk))
      (b mod BPB / 8) (Z.ldiff (rd8 (j_cont v (BBLOCK b sbk)) (b mod BPB / 8)) (Z.shiftl 1 (b mod 8)))]> (j_cont v)) c =
      if decide (c = b) then false else bit sbk (j_cont v) c).
    { intros c Hc. apply (bit_put sbk ds v); try done; [lia|]. intros k Hk. apply ldiff_bit; zlia. }
    split; try done.
    + intros x Hx. simpl. rewrite fn_lookup_insert_ne; [done|]. by intros <-.
    + apply (disk_ok_bmap v); try done; [lia|].
      intros c Hc Hc1 Hc2. rewrite Hput by done. rewrite decide_False by lia. done.
  - split; [by do 3 (etrans; [eassumption|])|].
    intros j c Hj. destruct (Hf1 j c Hj) as [Hj1 Hj1']. assert (Hj4 : fholds s4 j c).
    { apply Hf4; [done|]. unfold fholds. simpl. by rewrite E2. }
    destruct (Hf5 j c Hj4) as [Hj5 Hj5']. apply Hf7; [done|]. unfold fholds. by rewrite E6.
Qed.
End balloc.
