(* ===== verification/Fsinode.v ===== *)
(** Inodes on the disk (src/fs.c): iupdate() and ilock(). *)

From Stdlib Require Import ZArith Lia.
From stdpp Require Import base tactics numbers gmap strings functions list.
From S2P Require Import Prelude Memory Kstring Monitor Sleeplock Buf Journal Fs Fsblock.

#[local] Open Scope Z_scope.

(** ** Storing an inode in a block *)

Definition is_s16 (x : Z) : Prop := -32768 ≤ x < 32768.

Lemma rd8_wr16_ne d a x b : ¬ a ≤ b < a + 2 → rd8 (wr16 d a x) b = rd8 d b.
Proof. intros H. unfold wr16. rewrite !rd8_wr8_ne by lia. done. Qed.
Lemma s16_rd16_wr16 d a x : is_s16 x → s16 (rd16 (wr16 d a x) a) = x.
Proof.
  intros Hx. unfold rd16, wr16. rewrite !rd8_wr8. repeat case_decide; try lia.
  unfold s16, u16, u8, is_s16 in *. case_match; zlia.
Qed.
Lemma rd16_ext d d' a : (∀ b, a ≤ b < a + 2 → rd8 d' b = rd8 d b) → rd16 d' a = rd16 d a.
Proof. intros H. unfold rd16. rewrite !H by lia. done. Qed.

Lemma wr_addrs_S x o f n : wr_addrs x o f (S n) = wr32 (wr_addrs x o f n) (o + 12 + 4 * Z.of_nat n) (f (Z.of_nat n)).
Proof. unfold wr_addrs. rewrite seq_S, foldl_app. done. Qed.
Lemma rd8_wr_addrs_ne x o f n b : ¬ o + 12 ≤ b < o + 12 + 4 * Z.of_nat n → rd8 (wr_addrs x o f n) b = rd8 x b.
Proof. induction n as [|n IH]; intros H; [done|]. rewrite wr_addrs_S, rd8_wr32_ne by lia. apply IH. lia. Qed.
Lemma di_addrs_wr x o f n k : 0 ≤ k < Z.of_nat n → is_u32 (f k) → di_addrs (wr_addrs x o f n) o k = f k.
Proof.
  unfold di_addrs. intros Hk Hu. induction n as [|n IH]; [lia|]. rewrite wr_addrs_S.
  destruct (decide (k = Z.of_nat n)) as [->|].
  - by apply rd32_wr32_eq.
  - rewrite rd32_wr32_ne by lia. apply IH. lia.
Qed.

(** The bytes outside the inode are left alone. *)
Lemma rd8_store_inode_ne ip o x b : ¬ o ≤ b < o + DINODE → rd8 (store_inode ip o x) b = rd8 x b.
Proof.
  unfold DINODE. intros H. unfold store_inode. rewrite rd8_wr_addrs_ne by (change (Z.to_nat (NDIRECT + 1)) with 13%nat; lia).
  rewrite rd8_wr32_ne, !rd8_wr16_ne by lia. done.
Qed.

(** The fields of an inode fit the types they have on the disk. *)
Record inode_fits (ip : inode) : Prop := {
  fit_type : is_s16 (i_type ip);
  fit_major : is_s16 (i_major ip);
  fit_minor : is_s16 (i_minor ip);
  fit_nlink : is_s16 (i_nlink ip);
  fit_size : is_u32 (i_size ip);
  fit_addrs k : 0 ≤ k ≤ NDIRECT → is_u32 (i_addrs ip k)
}.

(** Two inodes with the same content. *)
Definition same_inode (ip ip' : inode) : Prop :=
  i_type ip' = i_type ip ∧ i_major ip' = i_major ip ∧ i_minor ip' = i_minor ip ∧ i_nlink ip' = i_nlink ip ∧
  i_size ip' = i_size ip ∧ ∀ k, 0 ≤ k ≤ NDIRECT → i_addrs ip' k = i_addrs ip k.

Lemma load_store ip ip0 o x : inode_fits ip → same_inode ip (load_inode (store_inode ip o x) o ip0).
Proof.
  intros [H1 H2 H3 H4 H5 H6]. unfold same_inode, load_inode. cbn [i_type i_major i_minor i_nlink i_size i_addrs].
  unfold di_type, di_major, di_minor, di_nlink, di_size.
  assert (H16 : ∀ y a d z, (∀ b, a ≤ b < a + 2 → rd8 d b = rd8 (wr16 y a z) b) → is_s16 z → s16 (rd16 d a) = z).
  { intros y a d z Hd Hz. rewrite (rd16_ext _ _ _ Hd). by apply s16_rd16_wr16. }
  unfold store_inode. change (Z.to_nat (NDIRECT + 1)) with 13%nat.
  split_and!.
  1-4: eapply H16; [|done]; intros b Hb; rewrite rd8_wr_addrs_ne, rd8_wr32_ne by lia;
    rewrite ?(rd8_wr16_ne _ (o + 6)), ?(rd8_wr16_ne _ (o + 4)), ?(rd8_wr16_ne _ (o + 2)) by lia; reflexivity.
  - erewrite (rd32_ext); [by apply rd32_wr32_eq|]. intros b Hb. apply rd8_wr_addrs_ne. lia.
  - intros k Hk. apply di_addrs_wr; [unfold NDIRECT in *; lia|by apply H6].
Qed.

(** Another inode of the block is not changed. *)
Lemma load_store_ne ip ip0 o o' x :
  o' + DINODE ≤ o ∨ o + DINODE ≤ o' → same_inode (load_inode x o' ip0) (load_inode (store_inode ip o x) o' ip0).
Proof.
  intros Ho. unfold DINODE in Ho. assert (H : ∀ b, o' ≤ b < o' + 64 → rd8 (store_inode ip o x) b = rd8 x b).
  { intros b Hb. apply rd8_store_inode_ne. unfold DINODE. lia. }
  unfold same_inode, load_inode, di_type, di_major, di_minor, di_nlink, di_size, di_addrs.
  cbn [i_type i_major i_minor i_nlink i_size i_addrs].
  split_and!; try (f_equal; apply rd16_ext; intros; apply H; lia).
  - apply rd32_ext. intros; apply H; lia.
  - unfold NDIRECT. intros k Hk. apply rd32_ext. intros; apply H; lia.
Qed.

(** ** iupdate and ilock *)

Section inode.
Context {S : Type} `{!Blocks S, !BlocksSpec S}.
Abbreviation fsst := (@fsst S).
Context (sbk : superblock) (ds : Z).

Lemma IBLOCK_range v n : layout sbk ds v → 0 ≤ n < sb_ninodes sbk →
  0 ≤ IBLOCK n sbk < j_size v ∧ 1 < IBLOCK n sbk < ds ∧ ¬ j_res v (IBLOCK n sbk) ∧ ¬ is_bmap sbk (IBLOCK n sbk).
Proof.
  intros Hl Hn. destruct (ly_inode _ _ _ Hl n Hn) as (H1&H2&H3). pose proof (ly_ds _ _ _ Hl).
  pose proof (ly_size _ _ _ Hl). pose proof (ly_small _ _ _ Hl).
  assert (E : IBLOCK n sbk = n / IPB + sb_inodestart sbk) by (apply u32_small; unfold is_u32; lia).
  rewrite E. split_and!; try lia; try done. intros (b&Hb&Eb).
  destruct (BBLOCK_range sbk ds v b Hl Hb) as (EB&_). apply (H3 b Hb). lia.
Qed.

(** Changing a block of inodes does not change what is allocated. *)
Lemma bit_iput v n d b : layout sbk ds v → 0 ≤ n < sb_ninodes sbk → 0 ≤ b < sb_size sbk →
  bit sbk (<[IBLOCK n sbk := d]> (j_cont v)) b = bit sbk (j_cont v) b.
Proof.
  intros Hl Hn Hb. apply bit_ext, fn_lookup_insert_ne. intros E.
  destruct (IBLOCK_range v n Hl Hn) as (_&_&_&H). apply H. by exists b.
Qed.
Lemma disk_ok_iput v n d : layout sbk ds v → 0 ≤ n < sb_ninodes sbk →
  disk_ok sbk ds (j_cont v) → disk_ok sbk ds (<[IBLOCK n sbk := d]> (j_cont v)).
Proof.
  intros Hl Hn [D1 D3]. destruct (IBLOCK_range v n Hl Hn) as (_&?&_&_). pose proof (ly_ds _ _ _ Hl). split.
  - rewrite fn_lookup_insert_ne by lia. done.
  - intros b Hb. rewrite bit_iput by (try done; lia). by apply D3.
Qed.

Definition iput_view (ip : inode) (v : jview) : jview :=
  let b := IBLOCK (i_inum ip) sbk in
  jput b (store_inode ip (i_inum ip mod IPB * DINODE) (j_cont v b)) v.

Lemma iupdate_spec (s : fsst) v i ip :
  shows s v → sb s = sbk → layout sbk ds v → icache s i = ip → i_dev ip = ROOTDEV →
  0 ≤ i_inum ip < sb_ninodes sbk → IBLOCK (i_inum ip) sbk ∉ j_held v → j_room 1 v →
  wp (iupdate i) s (λ _ s', shows s' (iput_view ip v) ∧ same_fs s s').
Proof.
  intros Hs Hsb Hl Hip Hd Hn Hh Hr. destruct (IBLOCK_range v _ Hl Hn) as (H1&H2&H3&_).
  unfold iupdate. apply wp_bind. unfold wp at 1, gets at 1. apply wp_bind. unfold wp at 1, gets at 1.
  rewrite Hip, Hsb, Hd. apply wp_bind. eapply (fs_bread s v); [done|done|done|done|by right|].
  intros bp s1 Hs1 Hb1 Hsm1 _. apply wp_bind. eapply fs_bdata; [apply Hs1|done|]. intros s2 E2 Hsm2. cbn [j_cont jhold].
  eapply (fs_bput s2 v bp); [by eapply shows_same|done|unfold fholds; by rewrite E2|].
  intros s3 Hs3 Hsm3 _. split; [done|]. by do 2 (etrans; [eassumption|]).
Qed.

(** ilock of an inode that has not been read yet. *)
Definition locked_inode (p : Z) (d : mem) (ip : inode) : inode :=
  set_i_valid true (load_inode d (i_inum ip mod IPB * DINODE) (set_i_lock {| locked := true; pid := p |} ip)).

Lemma ilock_spec (s : fsst) v i ip :
  shows s v → sb s = sbk → layout sbk ds v → icache s i = ip → i_dev ip = ROOTDEV →
  0 ≤ i_inum ip < sb_ninodes sbk → IBLOCK (i_inum ip) sbk ∉ j_held v → j_room 1 v →
  1 ≤ i_ref ip → locked (i_lock ip) = false → i_valid ip = false →
  di_type (j_cont v (IBLOCK (i_inum ip) sbk)) (i_inum ip mod IPB * DINODE) ≠ 0 →
  wp (ilock i) s (λ _ s', shows s' v ∧ sb s' = sb s ∧ fs_pid s' = fs_pid s ∧
    icache s' i = locked_inode (fs_pid s) (j_cont v (IBLOCK (i_inum ip) sbk)) ip ∧
    ∀ j, j ≠ i → icache s' j = icache s j).
Proof.
  intros Hs Hsb Hl Hip Hd Hn Hh Hr Href Hlk Hv Hty. destruct (IBLOCK_range v _ Hl Hn) as (H1&H2&H3&_).
  unfold ilock. apply wp_bind. unfold wp at 1, gets at 1. rewrite Hip, (proj2 (Z.ltb_ge _ _) Href).
  apply wp_bind. unfold wp at 1, gets at 1. apply wp_bind. unfold on_ilock, wp at 1, zoom, acquiresleep.
  unfold mbind, K_bind, gets at 1. cbn [obj]. rewrite Hip. unfold compose. cbn [obj]. rewrite Hlk.
  unfold set_obj, modify at 1. cbn [obj loc]. set (s1 := upd_inode i _ s).
  assert (E1 : icache s1 i = set_i_lock {| locked := true; pid := fs_pid s |} ip).
  { unfold s1. simpl. rewrite fn_lookup_insert, Hip. done. }
  change (wp (gets (λ s, icache s i) ≫= λ ip, if i_valid ip then mret tt else gets sb ≫= λ sbk,
    on_blk (b_read (i_dev ip) (IBLOCK (i_inum ip) sbk)) ≫= λ bp, on_blk (b_data bp) ≫= λ x,
    modify (upd_inode i (load_inode x (i_inum ip mod IPB * DINODE))) ≫= λ _,
    on_blk (b_relse bp) ≫= λ _, modify (upd_inode i (set_i_valid true)) ≫= λ _,
    gets (λ s, icache s i) ≫= λ ip, if i_type ip =? 0 then panic "ilock: no type" else mret tt) s1
    (λ _ s', shows s' v ∧ sb s' = sb s ∧ fs_pid s' = fs_pid s ∧
    icache s' i = locked_inode (fs_pid s) (j_cont v (IBLOCK (i_inum ip) sbk)) ip ∧ ∀ j, j ≠ i → icache s' j = icache s j)).
  apply wp_bind. unfold wp at 1, gets at 1. rewrite E1. cbn [i_valid set_i_lock i_dev i_inum]. rewrite Hv, Hd.
  apply wp_bind. unfold wp at 1, gets at 1. change (sb s1) with (sb s). rewrite Hsb. apply wp_bind.
  eapply (fs_bread s1 v); [by eapply shows_same|done|done|done|by right|]. intros bp s2 Hs2 Hb2 Hsm2 _.
  apply wp_bind. eapply fs_bdata; [apply Hs2|done|]. intros s3 E3 Hsm3. cbn [j_cont jhold].
  apply wp_bind. unfold wp at 1, modify at 1. apply wp_bind.
  eapply (fs_brelse _ v bp); [by eapply shows_same; [exact Hs2|]|done|unfold fholds; simpl; by rewrite E3|].
  intros s4 Hs4 (F1&F2&F3) _. apply wp_bind. unfold wp at 1, modify at 1. apply wp_bind. unfold wp at 1, gets at 1.
  destruct Hsm2 as (G1&G2&G3), Hsm3 as (K1&K2&K3).
  cbn [icache upd_inode] in *. rewrite fn_lookup_insert, F2, fn_lookup_insert, K2, G2, E1.
  cbn [i_type set_i_valid load_inode]. rewrite (proj2 (Z.eqb_neq _ _) Hty). apply wp_ret.
  split_and!; simpl in *; try congruence; [done|..].
  - rewrite F2, K2, G2, fn_lookup_insert, fn_lookup_insert, E1. done.
  - intros j Hj. rewrite F2, K2, G2. rewrite !fn_lookup_insert_ne by done. done.
Qed.
End inode.
