(* ===== verification/Fsfile.v ===== *)
(** The contents of files (src/fs.c): bmap(), readi(), writei() and itrunc().

    [slot] is the block that holds a block of a file, [file_ok] the invariant of
    an inode in the cache: its blocks are distinct, lie in the data area, are
    marked in the free map and cover the size of the file.  [grown] says that a
    file has been given more blocks and nothing else has changed. *)

From Stdlib Require Import ZArith Lia.
From stdpp Require Import base tactics numbers gmap strings functions list.
From S2P Require Import Prelude Memory Kstring Monitor Sleeplock Buf Journal Fs Fsblock.

#[local] Open Scope Z_scope.

(** ** Files *)

Definition indirect (ip : inode) : Z := i_addrs ip NDIRECT.

(** The block that holds block [k] of the file, 0 if there is none. *)
Definition slot (c : Z → mem) (ip : inode) (k : Z) : Z :=
  if k <? NDIRECT then i_addrs ip k
  else if indirect ip =? 0 then 0 else rd32 (c (indirect ip)) (4 * (k - NDIRECT)).

Definition fblock (k : Z) : Prop := 0 ≤ k < MAXFILE.

(** The blocks of a file. *)
Definition owned (c : Z → mem) (ip : inode) (x : Z) : Prop :=
  x ≠ 0 ∧ (x = indirect ip ∨ ∃ k, fblock k ∧ x = slot c ip k).

(** Byte [o] of the file. *)
Definition fbyte (c : Z → mem) (ip : inode) (o : Z) : Z := rd8 (c (slot c ip (o / BSIZE))) (o mod BSIZE).

Section file.
Context (sbk : superblock) (ds : Z).

Record file_ok (c : Z → mem) (ip : inode) : Prop := {
  fo_used x : owned c ip x → 0 < ds ≤ x ∧ x < sb_size sbk ∧ bit sbk c x = true;
  fo_inj k k' : fblock k → fblock k' → slot c ip k ≠ 0 → slot c ip k = slot c ip k' → k = k';
  fo_ind k : fblock k → slot c ip k ≠ 0 → slot c ip k ≠ indirect ip;
  fo_full k : 0 ≤ k → k * BSIZE < i_size ip → slot c ip k ≠ 0;
  fo_size : 0 ≤ i_size ip ≤ MAXFILE * BSIZE
}.

(** The inode [ip] of [v] has become [ip'] of [v'] by the allocation of blocks,
    and by writing bytes of the file that are not [P]. *)
Record changed (P : Z → Prop) (v v' : jview) (ip ip' : inode) : Prop := {
  gr_ip : ∃ f, ip' = {| i_dev := i_dev ip; i_inum := i_inum ip; i_ref := i_ref ip; i_lock := i_lock ip;
    i_valid := i_valid ip; i_type := i_type ip; i_major := i_major ip; i_minor := i_minor ip;
    i_nlink := i_nlink ip; i_size := i_size ip; i_addrs := f |};
  gr_slot k : fblock k → slot (j_cont v) ip k ≠ 0 → slot (j_cont v') ip' k = slot (j_cont v) ip k;
  gr_data o : 0 ≤ o < MAXFILE * BSIZE → P o → slot (j_cont v) ip (o / BSIZE) ≠ 0 →
    fbyte (j_cont v') ip' o = fbyte (j_cont v) ip o;
  gr_other x : 0 ≤ x < sb_size sbk → bit sbk (j_cont v) x = true → ¬ is_bmap sbk x → ¬ owned (j_cont v) ip x →
    j_cont v' x = j_cont v x;
  gr_bit x : 0 ≤ x < sb_size sbk → bit sbk (j_cont v) x = true → bit sbk (j_cont v') x = true;
  gr_new x : owned (j_cont v') ip' x → owned (j_cont v) ip x ∨ bit sbk (j_cont v) x = false;
  gr_ind : indirect ip ≠ 0 → indirect ip' = indirect ip;
  gr_keep x : owned (j_cont v) ip x → owned (j_cont v') ip' x;
  gr_used x : 0 ≤ x < sb_size sbk → bit sbk (j_cont v') x = true → bit sbk (j_cont v) x = true ∨ owned (j_cont v') ip' x;
  gr_file : file_ok (j_cont v') ip';
  gr_disk : disk_ok sbk ds (j_cont v');
  gr_size : j_size v' = j_size v;
  gr_res : j_res v' = j_res v;
  gr_held : j_held v' = j_held v;
  gr_log : j_log v ⊆ j_log v';
  gr_super : 1 ∈ j_log v' → 1 ∈ j_log v
}.

Abbreviation grown := (changed (λ _, True)).

Lemma fblock_div o : 0 ≤ o < MAXFILE * BSIZE → fblock (o / BSIZE).
Proof. unfold fblock. change MAXFILE with 140. unfold BSIZE. intros. zlia. Qed.

Lemma fbyte_same c c' ip ip' o :
  slot c' ip' (o / BSIZE) = slot c ip (o / BSIZE) →
  c' (slot c ip (o / BSIZE)) = c (slot c ip (o / BSIZE)) → fbyte c' ip' o = fbyte c ip o.
Proof. unfold fbyte. intros -> H. by rewrite H. Qed.

Lemma grown_refl v ip : file_ok (j_cont v) ip → disk_ok sbk ds (j_cont v) → grown v v ip ip.
Proof. intros Hf Hd. split; try done; [exists (i_addrs ip); by destruct ip|by left|by left]. Qed.

Lemma changed_trans P P' v1 v2 v3 ip1 ip2 ip3 :
  file_ok (j_cont v1) ip1 → changed P v1 v2 ip1 ip2 → changed P' v2 v3 ip2 ip3 →
  changed (λ o, P o ∧ P' o) v1 v3 ip1 ip3.
Proof.
  intros Hf1 [(f2&E2) S2 D2 O2 B2 N2 J2 M2 W2 F2 K2 Z2 R2 H2 L2 U2] [(f3&E3) S3 D3 O3 B3 N3 J3 M3 W3 F3 K3 Z3 R3 H3 L3 U3].
  split; try congruence; try done.
  - exists f3. by rewrite E3, E2.
  - intros k Hk Hs. rewrite S3 by (try rewrite S2; done). by apply S2.
  - intros o Ho [HP HP'] Hs. pose proof (fblock_div o Ho). rewrite D3; [by apply D2|done|done|]. by rewrite S2.
  - intros x Hx Hb Hm Ho. rewrite O3; [by apply O2|done|by apply B2|done|].
    intros Ho2. destruct (N2 x Ho2) as [|Hb']; [done|congruence].
  - intros x Hx Hb. by apply B3, B2.
  - intros x Hx. destruct (N3 x Hx) as [Hx2|Hb]; [by apply N2|].
    right. destruct (bit sbk (j_cont v1) x) eqn:E; [|done]. exfalso.
    assert (0 ≤ x < sb_size sbk) by (destruct (fo_used _ _ F3 x Hx) as (?&?&_); lia).
    by rewrite B2 in Hb.
  - intros Hi. rewrite <- J2 by done. apply J3. by rewrite J2.
  - intros x Hx. by apply M3, M2.
  - intros x Hx [Hb|Ho]%W3; [|by right|done]. destruct (W2 x Hx Hb); [by left|right; by apply M3].
  - set_solver.
  - by intros ?%U3%U2.
Qed.

Lemma changed_weaken (P P' : Z → Prop) v v' ip ip' :
  (∀ o, P' o → P o) → changed P v v' ip ip' → changed P' v v' ip ip'.
Proof. intros HP []. split; try done. eauto. Qed.
Lemma grown_trans v1 v2 v3 ip1 ip2 ip3 :
  file_ok (j_cont v1) ip1 → grown v1 v2 ip1 ip2 → grown v2 v3 ip2 ip3 → grown v1 v3 ip1 ip3.
Proof. intros Hf H1 H2. eapply changed_weaken; [|by eapply changed_trans]. done. Qed.

(** *** Giving a block to a file *)

Section grow.
Context (v v' : jview) (ip : inode) (a : Z).
Context (Hl : layout sbk ds v) (Hf : file_ok (j_cont v) ip) (Ha : allocated sbk ds v v' a).

Lemma owned_old x : owned (j_cont v) ip x → x ≠ a ∧ j_cont v' x = j_cont v x.
Proof.
  intros Hx. destruct (fo_used _ _ Hf x Hx) as (H1&H2&H3). pose proof (al_free _ _ _ _ _ Ha).
  assert (x ≠ a) by congruence. split; [done|]. apply (al_other _ _ _ _ _ Ha); [done|].
  intros Hb. pose proof (is_bmap_meta sbk ds v x Hl Hb). lia.
Qed.
Lemma bit_old x : 0 ≤ x < sb_size sbk → bit sbk (j_cont v) x = true → bit sbk (j_cont v') x = true.
Proof. intros Hx Hb. rewrite (al_bit _ _ _ _ _ Ha) by done. by case_decide. Qed.
Lemma a_range : 0 < ds ≤ a ∧ a < sb_size sbk ∧ bit sbk (j_cont v') a = true ∧ a ≠ 0.
Proof.
  pose proof (al_range _ _ _ _ _ Ha). pose proof (ly_ds _ _ _ Hl). split_and!; try lia.
  rewrite (al_bit _ _ _ _ _ Ha) by lia. by rewrite decide_True.
Qed.
Lemma other_old x : 0 ≤ x < sb_size sbk → bit sbk (j_cont v) x = true → ¬ is_bmap sbk x → j_cont v' x = j_cont v x.
Proof.
  intros Hx Hb Hm. apply (al_other _ _ _ _ _ Ha); [|done]. intros ->.
  pose proof (al_free _ _ _ _ _ Ha). congruence.
Qed.
Lemma slot_old k : fblock k → slot (j_cont v') ip k = slot (j_cont v) ip k.
Proof.
  intros Hk. unfold slot. case (k <? NDIRECT); [done|]. destruct (Z.eqb_spec (indirect ip) 0) as [|Hi]; [done|].
  destruct (owned_old (indirect ip)) as [_ ->]; [split; [done|by left]|done].
Qed.
Lemma slot_data k : fblock k → slot (j_cont v) ip k ≠ 0 → j_cont v' (slot (j_cont v) ip k) = j_cont v (slot (j_cont v) ip k).
Proof. intros Hk Hs. apply owned_old. split; [done|right]. by exists k. Qed.
Lemma log_super : 1 ∈ j_log v' → 1 ∈ j_log v.
Proof.
  rewrite (al_log _ _ _ _ _ Ha). pose proof (al_range _ _ _ _ _ Ha). pose proof (ly_ds _ _ _ Hl).
  destruct (BBLOCK_range sbk ds v a Hl) as (_&?&_); [lia|].
  rewrite !elem_of_union, !elem_of_singleton. intros [|[|]]; [done|lia|lia].
Qed.
Lemma rd32_zero o : 0 ≤ o → o + 4 ≤ BSIZE → rd32 (j_cont v' a) o = 0.
Proof. intros H1 H2. unfold rd32. rewrite !(al_zero _ _ _ _ _ Ha) by lia. done. Qed.

Lemma used_new c' ip' x :
  (0 ≤ x < sb_size sbk → bit sbk c' x = bit sbk (j_cont v') x) → owned c' ip' a →
  0 ≤ x < sb_size sbk → bit sbk c' x = true → bit sbk (j_cont v) x = true ∨ owned c' ip' x.
Proof.
  intros Hb Ho Hx. rewrite Hb, (al_bit _ _ _ _ _ Ha) by done. case_decide; [subst; by right|by left].
Qed.

(** A file built from [ip] whose slots are those of [ip] but for slot [k], which
    is [a]. *)
Lemma file_ok_add c' ip' k :
  fblock k → slot (j_cont v) ip k = 0 → slot c' ip' k = a →
  (∀ k', fblock k' → k' ≠ k → slot c' ip' k' = slot (j_cont v) ip k') →
  indirect ip' = indirect ip → i_size ip' = i_size ip →
  (∀ x, 0 ≤ x < sb_size sbk → bit sbk (j_cont v') x = true → bit sbk c' x = true) →
  file_ok c' ip' ∧ (∀ x, owned c' ip' x → owned (j_cont v) ip x ∨ bit sbk (j_cont v) x = false) ∧
  (∀ x, owned (j_cont v) ip x → owned c' ip' x) ∧ owned c' ip' a.
Proof.
  intros Hk Hk0 Hka Hoth Hind Hsz Hbit. destruct a_range as (A1&A2&A3&A4). destruct Hf as [Hu Hi Hn Hfu Hs].
  assert (Hown : ∀ x, owned c' ip' x → x = a ∨ owned (j_cont v) ip x).
  { intros x [Hx [->|(k'&Hk'&->)]]; [right; split; [done|left; done]|].
    destruct (decide (k' = k)) as [->|Hne]; [by left|right]. rewrite Hoth in * by done.
    split; [done|right]. by exists k'. }
  assert (Hnew : ∀ k', fblock k' → k' ≠ k → slot (j_cont v) ip k' ≠ a).
  { intros k' Hk' Hne Heq. destruct (owned_old a) as [? _]; [|done]. split; [done|right]. exists k'. by split. }
  split; [split|split; [|split]].
  - intros x [->|Hx]%Hown; [split_and!; try lia; apply Hbit; [lia|done]|]. destruct (Hu x Hx) as (U1&U2&U3).
    split_and!; try lia. apply Hbit, bit_old; [lia|lia|done].
  - intros k1 k2 H1 H2. destruct (decide (k1 = k)) as [->|N1], (decide (k2 = k)) as [->|N2]; [done|..].
    + rewrite Hka, Hoth by done. intros _ Heq. by destruct (Hnew k2 H2 N2).
    + rewrite (Hoth k1), Hka by done. intros _ Heq. by destruct (Hnew k1 H1 N1).
    + rewrite !Hoth by done. by apply Hi.
  - intros k' Hk'. rewrite Hind. destruct (decide (k' = k)) as [->|N].
    + rewrite Hka. intros _ Heq. destruct (owned_old a) as [? _]; [|done]. split; [done|left; done].
    + rewrite Hoth by done. by apply Hn.
  - intros k' Hk' Hlt. rewrite Hsz in Hlt. pose proof (Hfu k' Hk' Hlt) as Hf'.
    rewrite Hoth; [done| |congruence]. unfold fblock, MAXFILE, NDIRECT, NINDIRECT, BSIZE in *. zlia.
  - by rewrite Hsz.
  - intros x [->|Hx]%Hown; [right; apply (al_free _ _ _ _ _ Ha)|by left].
  - intros x [Hx [->|(k'&Hk'&->)]]; (split; [done|]); [left; by rewrite Hind|right]. exists k'. split; [done|].
    rewrite Hoth; [done|done|congruence].
  - split; [done|right]. by exists k.
Qed.

Lemma grown_direct k :
  0 ≤ k < NDIRECT → i_addrs ip k = 0 →
  let ip' := set_i_addr k a ip in
  grown v v' ip ip' ∧ slot (j_cont v') ip' k = a ∧
  ∀ k', fblock k' → k' ≠ k → slot (j_cont v') ip' k' = slot (j_cont v) ip k'.
Proof.
  intros Hk Hk0 ip'. assert (Hfk : fblock k) by (unfold fblock, MAXFILE, NDIRECT in *; vm_compute (NINDIRECT); lia).
  assert (Hind : indirect ip' = indirect ip).
  { unfold indirect. simpl. apply fn_lookup_insert_ne. lia. }
  assert (Hka : slot (j_cont v') ip' k = a).
  { unfold slot. rewrite (proj2 (Z.ltb_lt k NDIRECT)) by lia. apply fn_lookup_insert. }
  assert (Hoth : ∀ k', fblock k' → k' ≠ k → slot (j_cont v') ip' k' = slot (j_cont v) ip k').
  { intros k' Hk' Hne. rewrite <- slot_old by done. unfold slot. rewrite Hind.
    destruct (k' <? NDIRECT); [|done]. by apply fn_lookup_insert_ne. }
  assert (Hs0 : slot (j_cont v) ip k = 0) by (unfold slot; by rewrite (proj2 (Z.ltb_lt k NDIRECT)) by lia).
  destruct (file_ok_add (j_cont v') ip' k Hfk Hs0 Hka Hoth Hind eq_refl (λ _ _ H, H)) as (Hok&Hnew&Hkeep&Hown).
  split; [|done]. split; try done; try apply Ha.
  - by exists (<[k := a]> (i_addrs ip)).
  - intros k' Hk' Hs. apply Hoth; [done|]. congruence.
  - intros o Ho _ Hso. pose proof (fblock_div o Ho).
    apply fbyte_same; [apply Hoth; [done|congruence]|by apply slot_data].
  - intros x Hx Hb Hm _. by apply other_old.
  - apply bit_old.
  - intros x. by apply used_new.
  - rewrite (al_log _ _ _ _ _ Ha). set_solver.
  - apply log_super.
Qed.

Lemma grown_indirect :
  indirect ip = 0 →
  let ip' := set_i_addr NDIRECT a ip in
  grown v v' ip ip' ∧ indirect ip' = a ∧ ∀ k, fblock k → slot (j_cont v') ip' k = slot (j_cont v) ip k.
Proof.
  intros Hi0 ip'. destruct a_range as (A1&A2&A3&A4). pose proof Hf as [Hu Hinj Hn Hfu Hs].
  assert (Hind : indirect ip' = a) by apply fn_lookup_insert.
  assert (Hsl : ∀ k, fblock k → slot (j_cont v') ip' k = slot (j_cont v) ip k).
  { intros k Hk. unfold slot. rewrite Hind, Hi0. destruct (Z.ltb_spec k NDIRECT) as [Hlt|Hge].
    - simpl. apply fn_lookup_insert_ne. lia.
    - rewrite (proj2 (Z.eqb_neq a 0)) by done. simpl. apply rd32_zero; [lia|].
      unfold fblock, MAXFILE in Hk. change NINDIRECT with 128 in Hk. unfold BSIZE. lia. }
  assert (Hown : ∀ x, owned (j_cont v') ip' x → x = a ∨ owned (j_cont v) ip x).
  { intros x [Hx [->|(k&Hk&->)]]; [left; done|right]. rewrite Hsl in * by done. split; [done|right]. by exists k. }
  split; [|done]. split; try done; try apply Ha.
  - by exists (<[NDIRECT := a]> (i_addrs ip)).
  - intros k Hk _. by apply Hsl.
  - intros o Ho _ Hso. pose proof (fblock_div o Ho). apply fbyte_same; [by apply Hsl|by apply slot_data].
  - intros x Hx Hb Hm _. by apply other_old.
  - apply bit_old.
  - intros x [->|Hx]%Hown; [right; apply (al_free _ _ _ _ _ Ha)|by left].
  - intros x [Hx [->|(k&Hk&->)]]; [done|]. split; [done|right]. exists k. split; [done|by rewrite Hsl].
  - intros x. apply used_new; [done|]. split; [done|by left].
  - split.
    + intros x [->|Hx]%Hown; [done|]. destruct (Hu x Hx) as (U1&U2&U3). split_and!; try lia. apply bit_old; [lia|done].
    + intros k k' Hk Hk'. rewrite !Hsl by done. by apply Hinj.
    + intros k Hk. rewrite Hsl, Hind by done. intros H1 H2. destruct (owned_old a) as [? _]; [|done].
      rewrite <- H2. split; [done|right]. by exists k.
    + intros k Hk Hlt. simpl in Hlt. pose proof (Hfu k Hk Hlt). rewrite Hsl; [done|].
      unfold fblock, MAXFILE, NDIRECT, NINDIRECT, BSIZE in *. zlia.
    + done.
  - rewrite (al_log _ _ _ _ _ Ha). set_solver.
  - apply log_super.
Qed.
(** The slot in the indirect block. *)
Lemma slot_indirect c k : fblock k → NDIRECT ≤ k → indirect ip ≠ 0 →
  slot c ip k = rd32 (c (indirect ip)) (4 * (k - NDIRECT)).
Proof.
  intros Hk Hge Hi. unfold slot. rewrite (proj2 (Z.ltb_ge k NDIRECT)), (proj2 (Z.eqb_neq (indirect ip) 0)) by done. done.
Qed.

Lemma grown_slot k :
  fblock k → NDIRECT ≤ k → indirect ip ≠ 0 → slot (j_cont v) ip k = 0 →
  let v2 := jput (indirect ip) (wr32 (j_cont v' (indirect ip)) (4 * (k - NDIRECT)) a) v' in
  grown v v2 ip ip ∧ slot (j_cont v2) ip k = a ∧ j_cont v2 a = j_cont v' a ∧
  ∀ k', fblock k' → k' ≠ k → slot (j_cont v2) ip k' = slot (j_cont v) ip k'.
Proof.
  intros Hk Hge Hi0 Hk0 v2. destruct a_range as (A1&A2&A3&A4). pose proof (al_ok _ _ _ _ _ Ha) as Hok.
  pose proof (ly_size _ _ _ Hl). pose proof (ly_small _ _ _ Hl).
  assert (Hoi : owned (j_cont v) ip (indirect ip)) by (split; [done|by left]).
  destruct (owned_old _ Hoi) as [Hia _]. destruct (fo_used _ _ Hf _ Hoi) as (I1&I2&I3).
  assert (Hc2 : ∀ x, x ≠ indirect ip → j_cont v2 x = j_cont v' x) by (intros x Hx; by apply fn_lookup_insert_ne).
  assert (Hbit : ∀ x, 0 ≤ x < sb_size sbk → bit sbk (j_cont v2) x = bit sbk (j_cont v') x).
  { intros x Hx. apply bit_ext, Hc2. destruct (BBLOCK_range sbk ds v x Hl Hx) as (_&?&_). lia. }
  assert (Hka : slot (j_cont v2) ip k = a).
  { rewrite slot_indirect by done. simpl. rewrite fn_lookup_insert. apply rd32_wr32_eq. unfold is_u32. lia. }
  assert (Hoth : ∀ k', fblock k' → k' ≠ k → slot (j_cont v2) ip k' = slot (j_cont v) ip k').
  { intros k' Hk' Hne. rewrite <- slot_old by done. destruct (Z.lt_ge_cases k' NDIRECT).
    - unfold slot. by rewrite (proj2 (Z.ltb_lt k' NDIRECT)) by done.
    - rewrite !slot_indirect by done. simpl. rewrite fn_lookup_insert. apply rd32_wr32_ne. lia. }
  destruct (file_ok_add (j_cont v2) ip k Hk Hk0 Hka Hoth eq_refl eq_refl) as (Hok2&Hnew&Hkeep&Hown).
  { intros x Hx Hb. by rewrite Hbit. }
  split; [|split_and!; try done; by apply Hc2]. split; try done; try apply Ha.
  - exists (i_addrs ip). by destruct ip.
  - intros k' Hk' Hs. apply Hoth; [done|]. congruence.
  - intros o Ho _ Hso. pose proof (fblock_div o Ho). apply fbyte_same; [apply Hoth; [done|congruence]|].
    rewrite Hc2 by (by apply (fo_ind _ _ Hf)). by apply slot_data.
  - intros x Hx Hb Hm Ho. rewrite Hc2 by (by intros ->). by apply other_old.
  - intros x Hx Hb. rewrite Hbit by done. by apply bit_old.
  - intros x. apply used_new; [apply Hbit|done].
  - simpl. apply (disk_ok_data sbk ds v); [done|done|lia].
  - simpl. rewrite (al_log _ _ _ _ _ Ha). set_solver.
  - simpl. pose proof (ly_ds _ _ _ Hl). intros [E%elem_of_singleton|?]%elem_of_union; [lia|by apply log_super].
Qed.
End grow.
End file.

(** ** bmap *)

Section bmap.
Context {S : Type} `{!Blocks S, !BlocksSpec S}.
Abbreviation fsst := (@fsst S).
Context (sbk : superblock) (ds : Z).

(** [n] blocks are free. *)
Definition avail (c : Z → mem) (n : nat) : Prop :=
  ∃ X : gset Z, (n ≤ base.size X)%nat ∧ ∀ x, x ∈ X → 0 ≤ x < sb_size sbk ∧ bit sbk c x = false.

Lemma avail_le c n m : (m ≤ n)%nat → avail c n → avail c m.
Proof. intros Hle (X&Hs&HX). exists X. split; [lia|done]. Qed.
Lemma avail_ext c c' n : (∀ x, 0 ≤ x < sb_size sbk → bit sbk c' x = bit sbk c x) → avail c n → avail c' n.
Proof. intros Hb (X&Hs&HX). exists X. split; [done|]. intros x Hx. destruct (HX x Hx). by rewrite Hb. Qed.
Lemma avail_some c n : avail c (Datatypes.S n) → ∃ b, 0 ≤ b < sb_size sbk ∧ bit sbk c b = false.
Proof.
  intros (X&Hs&HX). destruct (set_choose_L X) as [x Hx]; [intros ->; rewrite size_empty in Hs; lia|]. eauto.
Qed.
Lemma avail_allocated v v' a n :
  allocated sbk ds v v' a → avail (j_cont v) (Datatypes.S n) → avail (j_cont v') n.
Proof.
  intros Ha (X&Hs&HX). exists (X ∖ {[a]}). split.
  - rewrite size_difference_alt. assert (base.size (X ∩ {[a]}) ≤ base.size (C := gset Z) {[a]})%nat.
    { apply subseteq_size. set_solver. }
    rewrite size_singleton in *. lia.
  - intros x [Hx Hne]%elem_of_difference. destruct (HX x Hx). split; [done|].
    rewrite (al_bit _ _ _ _ _ Ha), decide_False by set_solver. done.
Qed.

(** Entry [i] of the cache is [ip], a well-formed file whose blocks are not held. *)
Record inode_ok (s : fsst) (v : jview) (i : nat) (ip : inode) : Prop := {
  io_alloc : alloc_ok sbk ds s v;
  io_ip : icache s i = ip;
  io_dev : i_dev ip = ROOTDEV;
  io_file : file_ok sbk ds (j_cont v) ip;
  io_held x : owned (j_cont v) ip x → x ∉ j_held v
}.

(** Entry [i] has become [ip']; the rest of the cache is as it was. *)
Definition upd_fs (s s' : fsst) (i : nat) (ip' : inode) : Prop :=
  sb s' = sb s ∧ icache s' i = ip' ∧ (∀ j, j ≠ i → icache s' j = icache s j) ∧ fs_pid s' = fs_pid s.

Lemma upd_same s s' i : same_fs s s' → upd_fs s s' i (icache s i).
Proof. intros (E1&E2&E3). rewrite <- E2. split_and!; try done. by rewrite E2. Qed.
Lemma upd_trans s1 s2 s3 i x y : upd_fs s1 s2 i x → upd_fs s2 s3 i y → upd_fs s1 s3 i y.
Proof.
  intros (E1&E2&E3&E4) (F1&F2&F3&F4). split_and!; try congruence. intros j Hj. by rewrite F3, E3.
Qed.
Lemma upd_inode_upd s i f : upd_fs s (upd_inode i f s) i (f (icache s i)).
Proof.
  split_and!; try done; simpl; [apply fn_lookup_insert|]. intros j Hj. by apply fn_lookup_insert_ne.
Qed.

Lemma alloc_ok_changed P s s' v v' ip ip' :
  alloc_ok sbk ds s v → changed sbk ds P v v' ip ip' → shows s' v' → sb s' = sb s → alloc_ok sbk ds s' v'.
Proof.
  intros [Hsh Hsb Hl Hok Hbm Hhe] Hg Hs' Es. split; try done.
  - rewrite Es. done.
  - eapply (layout_same _ _ v); [exact Hl|apply (gr_size _ _ _ _ _ _ _ Hg)|apply (gr_res _ _ _ _ _ _ _ Hg)].
  - apply Hg.
  - rewrite (gr_held _ _ _ _ _ _ _ Hg). done.
  - rewrite (gr_held _ _ _ _ _ _ _ Hg). intros x Hx. destruct (Hhe x Hx). split; [done|].
    by apply (gr_bit _ _ _ _ _ _ _ Hg).
Qed.

Lemma inode_ok_changed P s s' v v' i ip ip' :
  inode_ok s v i ip → changed sbk ds P v v' ip ip' → shows s' v' → upd_fs s s' i ip' → inode_ok s' v' i ip'.
Proof.
  intros [Hao Hip Hd Hf Hh] Hg Hs' (E1&E2&E3&E4). split.
  - by eapply alloc_ok_changed.
  - done.
  - destruct (gr_ip _ _ _ _ _ _ _ Hg) as [f ->]. done.
  - apply Hg.
  - rewrite (gr_held _ _ _ _ _ _ _ Hg). intros x [Hx|Hb]%(gr_new _ _ _ _ _ _ _ Hg); [by apply Hh|].
    intros Hx. apply (ao_held _ _ _ _ Hao) in Hx as [_ Hx]. congruence.
Qed.

(** Block [bn] of the file is [a], and the file has grown to that end. *)
Record mapped (s : fsst) (v : jview) (i : nat) (ip : inode) (bn a : Z) (s' : fsst) (v' : jview) (ip' : inode) : Prop := {
  mp_grown : changed sbk ds (λ _, True) v v' ip ip';
  mp_slot : slot (j_cont v') ip' bn = a;
  mp_nz : a ≠ 0;
  mp_hit : slot (j_cont v) ip bn ≠ 0 → v' = v ∧ ip' = ip;
  mp_rest k : fblock k → k ≠ bn → slot (j_cont v') ip' k = slot (j_cont v) ip k;
  mp_zero : slot (j_cont v) ip bn = 0 → ∀ o, 0 ≤ o < BSIZE → rd8 (j_cont v' a) o = 0;
  mp_log x : x ∈ j_log v' → x ∈ j_log v ∨ is_bmap sbk x ∨ x = a ∨ indirect ip' ≠ 0 ∧ x = indirect ip';
  mp_shows : shows s' v';
  mp_upd : upd_fs s s' i ip'
}.

Lemma mapped_refl s s' v i ip bn :
  inode_ok s v i ip → slot (j_cont v) ip bn ≠ 0 → shows s' v → same_fs s s' →
  mapped s v i ip bn (slot (j_cont v) ip bn) s' v ip.
Proof.
  intros [Hao Hip Hd Hf Hh] Hs Hsh Hsm. split; try done.
  - apply grown_refl; [done|apply Hao].
  - intros x Hx. by left.
  - rewrite <- Hip. by apply upd_same.
Qed.

Lemma allocated_log v v' a x : allocated sbk ds v v' a → 0 ≤ ds → x ∈ j_log v' → x ∈ j_log v ∨ is_bmap sbk x ∨ x = a.
Proof.
  intros Ha Hds. pose proof (al_range _ _ _ _ _ Ha). rewrite (al_log _ _ _ _ _ Ha), !elem_of_union, !elem_of_singleton.
  intros [|[->| ->]]; [by left|by right; right|right; left]. exists a. split; [lia|done].
Qed.

(** What bmap costs: the blocks of the log and the free blocks it may use. *)
Definition cost (r n : nat) (v v' : jview) : Prop :=
  (∀ k, j_room (r + k) v → j_room k v') ∧ ∀ k, avail (j_cont v) (n + k) → avail (j_cont v') k.

Lemma cost_refl r n v : cost r n v v.
Proof. split; intros k; [apply room_le; lia|apply avail_le; lia]. Qed.
Lemma cost_trans r n r' n' v1 v2 v3 : cost r n v1 v2 → cost r' n' v2 v3 → cost (r + r') (n + n') v1 v3.
Proof.
  intros [H1 H2] [H3 H4]. split; intros k Hk; [apply H3, H1|apply H4, H2];
    (eapply room_le || eapply avail_le); [|exact Hk| |exact Hk]; lia.
Qed.
Lemma cost_le r n r' n' v v' : (r ≤ r')%nat → (n ≤ n')%nat → cost r n v v' → cost r' n' v v'.
Proof.
  intros Hr Hn [H1 H2]. split; intros k Hk; [apply H1|apply H2];
    (eapply room_le || eapply avail_le); [|exact Hk| |exact Hk]; lia.
Qed.
Lemma cost_allocated v v' a : allocated sbk ds v v' a → cost 2 1 v v'.
Proof. intros Ha. split; [intros k; by eapply allocated_room|intros k; by eapply avail_allocated]. Qed.

Definition bmap_post s v i ip bn (a : Z) (s' : fsst) : Prop :=
  ∃ v' ip', mapped s v i ip bn a s' v' ip' ∧ cost 4 2 v v'.

(** Allocating a direct block. *)
Lemma bmap_direct s v i ip bn :
  inode_ok s v i ip → 0 ≤ bn < NDIRECT → (slot (j_cont v) ip bn = 0 → j_room 2 v ∧ avail (j_cont v) 1) →
  wp (bmap i bn) s (bmap_post s v i ip bn).
Proof.
  intros Hio Hbn Hroom. pose proof Hio as [Hao Hip Hd Hf Hh].
  assert (Hsl : slot (j_cont v) ip bn = i_addrs ip bn) by (unfold slot; by rewrite (proj2 (Z.ltb_lt bn NDIRECT)) by lia).
  unfold bmap. apply wp_bind. unfold wp at 1, gets at 1. rewrite Hip, (proj2 (Z.ltb_lt bn NDIRECT)) by lia.
  rewrite Hsl in Hroom. destruct (Z.eqb_spec (i_addrs ip bn) 0) as [H0|H0].
  - destruct (Hroom H0) as [Hr Hav]. rewrite Hd. apply wp_bind.
    eapply wp_mono; [|apply (balloc_spec sbk ds s v Hao Hr); by eapply avail_some].
    intros a s1 (v1&Ha&Hs1&Hsm1&_). apply wp_bind. unfold wp at 1, modify at 1. apply wp_ret.
    destruct (grown_direct sbk ds v v1 ip a (ao_layout _ _ _ _ Hao) Hf Ha bn Hbn H0) as (Hg&Hk&Hr').
    exists v1, (set_i_addr bn a ip). split; [split; try done|].
    + by destruct (a_range sbk ds v v1 a (ao_layout _ _ _ _ Hao) Ha) as (?&?&?&?).
    + congruence.
    + intros _. apply (al_zero _ _ _ _ _ Ha).
    + intros x Hx. pose proof (ly_ds _ _ _ (ao_layout _ _ _ _ Hao)). pose proof (allocated_log v v1 a x Ha ltac:(lia) Hx). tauto.
    + eapply upd_trans; [by apply upd_same|].
      replace ip with (icache s1 i) by (destruct Hsm1 as (_&->&_); done). apply upd_inode_upd.
    + eapply cost_le; [| |by eapply cost_allocated]; lia.
  - apply wp_ret. exists v, ip. rewrite <- Hsl. split; [|apply cost_refl].
    apply mapped_refl; try done; [congruence|apply Hao].
Qed.

(** Holding the indirect block while a block is allocated. *)
Lemma allocated_unhold v v1 b a :
  b ∉ j_held v → allocated sbk ds (jhold b v) v1 a → j_mod v1 = ∅ →
  ∃ v1', v1 = jhold b v1' ∧ b ∉ j_held v1' ∧ j_mod v1' = ∅ ∧ allocated sbk ds v v1' a.
Proof.
  intros Hb [A1 A2 A3 A4 A5 A6 A7 A8 A9 A10] Hm. exists {| j_cont := j_cont v1; j_size := j_size v1;
    j_res := j_res v1; j_held := j_held v; j_log := j_log v1; j_mod := ∅ |}.
  split_and!; try done. by apply jview_eq.
Qed.

Lemma owned_block s v i ip x : inode_ok s v i ip → owned (j_cont v) ip x →
  0 < ds ≤ x ∧ 0 ≤ x < j_size v ∧ x < sb_size sbk ∧ ¬ j_res v x ∧ x ∉ j_held v ∧
  bit sbk (j_cont v) x = true ∧ ¬ is_bmap sbk x.
Proof.
  intros [Hao Hip Hd Hf Hh] Hx. destruct (fo_used _ _ _ _ Hf x Hx) as (H1&H2&H3).
  pose proof (ao_layout _ _ _ _ Hao) as Hl. pose proof (ly_size _ _ _ Hl). split_and!; try done; try lia.
  - apply (ly_data _ _ _ Hl). lia.
  - by apply Hh.
  - intros Hb. pose proof (is_bmap_meta sbk ds v x Hl Hb). lia.
Qed.

Lemma alloc_ok_hold s s' v b :
  alloc_ok sbk ds s v → shows s' (jhold b v) → sb s' = sb s →
  0 ≤ b < sb_size sbk → bit sbk (j_cont v) b = true → ¬ is_bmap sbk b → alloc_ok sbk ds s' (jhold b v).
Proof.
  intros [Hsh Hsb Hl Hok Hbm Hhe] Hs' Es Hb Hbit Hnb. split; try done.
  - by rewrite Es.
  - by apply (layout_same _ _ v).
  - intros x Hx. simpl. apply not_elem_of_union. split; [set_solver|by apply Hbm].
  - intros x. simpl. intros [->%elem_of_singleton|Hx]%elem_of_union; [done|by apply Hhe].
Qed.

(** The part of bmap that reads the indirect block. *)
Abbreviation bmap_tail addr bn :=
  (on_blk (b_read ROOTDEV addr) ≫= λ bp, on_blk (b_data bp) ≫= λ x,
   (if rd32 x (4 * bn) =? 0 then
      balloc ROOTDEV ≫= λ a, on_blk (b_data bp) ≫= λ x, on_blk (b_set bp (wr32 x (4 * bn) a)) ≫= λ _,
      on_blk (b_log bp) ≫= λ _, mret a
    else mret (rd32 x (4 * bn))) ≫= λ r, on_blk (b_relse bp) ≫= λ _, mret r).

Lemma bmap_tail_spec s v i ip bn :
  inode_ok s v i ip → fblock bn → NDIRECT ≤ bn → indirect ip ≠ 0 → indirect ip ∈ j_log v ∨ j_room 1 v →
  (slot (j_cont v) ip bn = 0 → j_room 2 (jhold (indirect ip) v) ∧ avail (j_cont v) 1) →
  wp (bmap_tail (indirect ip) (bn - NDIRECT)) s (λ a s', ∃ v', mapped s v i ip bn a s' v' ip ∧
    (∀ k, j_room (2 + k) (jhold (indirect ip) v) → j_room k v') ∧
    ∀ k, avail (j_cont v) (1 + k) → avail (j_cont v') k).
Proof.
  intros Hio Hbn Hge Hi0 Hlog Hroom. pose proof Hio as [Hao Hip Hd Hf Hh].
  set (ind := indirect ip) in *.
  destruct (owned_block s v i ip ind Hio) as (I1&I2&I3&I4&I5&I6&I7); [split; [done|by left]|].
  pose proof (slot_indirect ip (j_cont v) bn Hbn Hge Hi0) as Hsl.
  apply wp_bind. eapply (fs_bread s v ind); [apply Hao|done|done|done|done|].
  intros bp s1 Hs1 Hb1 Hsm1 _. apply wp_bind. eapply fs_bdata; [apply Hs1|done|]. intros s2 E2 Hsm2. cbn [j_cont jhold].
  assert (Hs2 : shows s2 (jhold ind v)) by (by eapply shows_same).
  assert (Hb2 : fholds s2 bp ind) by (unfold fholds; by rewrite E2).
  assert (Hsm02 : same_fs s s2) by (by etrans). clear E2 Hsm1 Hsm2 Hs1 Hb1 s1.
  fold ind in Hsl. rewrite <- Hsl. apply wp_bind. destruct (Z.eqb_spec (slot (j_cont v) ip bn) 0) as [H0|H0].
  - destruct (Hroom H0) as [Hr Hav].
    assert (Hao2 : alloc_ok sbk ds s2 (jhold ind v)) by (eapply alloc_ok_hold; try done; [apply Hsm02|lia]).
    apply wp_bind. eapply wp_mono; [|apply (balloc_spec sbk ds s2 _ Hao2 Hr); by eapply avail_some].
    intros a s3 (v3&Ha&Hs3&Hsm3&Hf3).
    destruct (allocated_unhold v v3 ind a I5 Ha (proj2 Hs3)) as (v4&->&I5'&Hm4&Ha4).
    apply wp_bind. eapply fs_bdata; [apply Hs3|by apply Hf3|]. intros s4 E4 Hsm4. cbn [j_cont jhold].
    apply wp_bind. eapply wp_mono; [|eapply (fs_bput_w s4 v4 bp ind _ (λ _ s5, ∃ v', mapped s v i ip bn a s5 v' ip ∧
      (∀ k, j_room (2 + k) (jhold ind v) → j_room k v') ∧ ∀ k, avail (j_cont v) (1 + k) → avail (j_cont v') k));
      [by eapply shows_same|done|unfold fholds; rewrite E4; by apply Hf3|]].
    { intros u s5 H5. apply wp_bind. eapply wp_mono; [|exact H5]. intros u' s6 H6. apply wp_ret. apply wp_bind.
      eapply wp_mono; [|exact H6]. intros u7 s7 H7. by apply wp_ret. }
    intros s5 Hs5 Hsm5 _.
    destruct (grown_slot sbk ds v v4 ip a (ao_layout _ _ _ _ Hao) Hf Ha4 bn Hbn Hge Hi0 H0) as (Hg&Hk&Hz&Hrest).
    eexists. split_and!; [split; try done|..].
    + by destruct (a_range sbk ds v v4 a (ao_layout _ _ _ _ Hao) Ha4) as (?&?&?&?).
    + intros _ o Ho. etrans; [exact (f_equal (λ d, rd8 d o) Hz)|]. by apply (al_zero _ _ _ _ _ Ha4).
    + intros x. simpl. intros [->%elem_of_singleton|Hx]%elem_of_union; [by do 3 right|].
      pose proof (allocated_log v v4 a x Ha4 ltac:(lia) Hx). tauto.
    + rewrite <- Hip. apply upd_same. by do 3 (etrans; [eassumption|]).
    + intros k Hk'. pose proof (allocated_room _ _ _ _ _ _ Ha Hk') as Hr4. revert Hr4. unfold j_room. simpl.
      replace (j_held v4 ∪ ({[ind]} ∪ j_log v4)) with ({[ind]} ∪ j_held v4 ∪ j_log v4) by set_solver. done.
    + intros k Hk'. eapply avail_ext; [|by eapply avail_allocated]. intros x Hx. apply bit_ext. simpl.
      apply fn_lookup_insert_ne. intros E. apply I7. exists x. split; [done|exact E].
  - apply wp_ret, wp_bind. eapply (fs_brelse s2 v bp ind); [done|done|done|]. intros s3 Hs3 Hsm3 _. apply wp_ret.
    exists v. split_and!.
    + apply mapped_refl; try done. by etrans.
    + intros k. unfold j_room. simpl. intros Hk.
      assert (base.size (j_held v ∪ j_log v) ≤ base.size ({[ind]} ∪ j_held v ∪ j_log v))%nat; [|lia].
      apply subseteq_size. set_solver.
    + intros k. apply avail_le. lia.
Qed.

Lemma mapped_trans s s1 s2 v v1 v2 i ip ip1 ip2 bn a :
  inode_ok s v i ip → changed sbk ds (λ _, True) v v1 ip ip1 → upd_fs s s1 i ip1 → slot (j_cont v) ip bn = 0 →
  (∀ k, fblock k → slot (j_cont v1) ip1 k = slot (j_cont v) ip k) → fblock bn → indirect ip1 ≠ 0 →
  (∀ x, x ∈ j_log v1 → x ∈ j_log v ∨ is_bmap sbk x ∨ x = indirect ip1) →
  mapped s1 v1 i ip1 bn a s2 v2 ip2 → mapped s v i ip bn a s2 v2 ip2.
Proof.
  intros Hio Hg Hu H0 Hk Hbn Hi Hlog [M1 M2 M3 M4 M5 M6 ML M7 M8]. split; try done.
  - eapply grown_trans; [apply Hio|exact Hg|exact M1].
  - intros k Hk1 Hk2. by rewrite M5, Hk.
  - intros _. apply M6. by rewrite Hk.
  - intros x Hx. destruct (ML x Hx) as [Hx1|[|[|]]]; [|tauto..]. pose proof (gr_ind _ _ _ _ _ _ _ M1 Hi) as Ei.
    destruct (Hlog x Hx1) as [|[|]]; [tauto..|]. do 3 right. by rewrite Ei.
  - by eapply upd_trans.
Qed.

(** bmap returns the block of the file; if there is none it is allocated, and
    then the indirect block too if it must be. *)
Lemma bmap_spec s v i ip bn :
  inode_ok s v i ip → fblock bn → j_room 1 v → (slot (j_cont v) ip bn = 0 → j_room 4 v ∧ avail (j_cont v) 2) →
  wp (bmap i bn) s (bmap_post s v i ip bn).
Proof.
  intros Hio Hbn Hr1 Hmiss. pose proof Hio as [Hao Hip Hd Hf Hh]. unfold fblock, MAXFILE in Hbn.
  destruct (Z.lt_ge_cases bn NDIRECT) as [Hlt|Hge].
  { apply bmap_direct; [done|lia|]. intros H0. destruct (Hmiss H0).
    split; [by apply (room_le _ 4); [lia|]|by eapply avail_le; [|done]; lia]. }
  unfold bmap. apply wp_bind. unfold wp at 1, gets at 1.
  rewrite Hip, Hd, (proj2 (Z.ltb_ge bn NDIRECT)), (proj2 (Z.ltb_lt (bn - NDIRECT) NINDIRECT)) by lia.
  apply wp_bind. fold (indirect ip). destruct (Z.eqb_spec (indirect ip) 0) as [Hi|Hi].
  - assert (H0 : slot (j_cont v) ip bn = 0).
    { unfold slot. by rewrite (proj2 (Z.ltb_ge bn NDIRECT)), (proj2 (Z.eqb_eq _ _) Hi) by lia. }
    destruct (Hmiss H0) as [Hr Hav]. apply wp_bind.
    eapply wp_mono; [|apply (balloc_spec sbk ds s v Hao); [by apply (room_le _ 4); [lia|]|by eapply avail_some]].
    intros a s1 (v1&Ha&Hs1&Hsm1&_). apply wp_bind. unfold wp at 1, modify at 1. apply wp_ret.
    destruct (grown_indirect sbk ds v v1 ip a (ao_layout _ _ _ _ Hao) Hf Ha Hi) as (Hg&Hk&Hsl).
    set (ip1 := set_i_addr NDIRECT a ip) in *. set (s2 := upd_inode i (set_i_addr NDIRECT a) s1).
    destruct (a_range sbk ds v v1 a (ao_layout _ _ _ _ Hao) Ha) as (_&_&_&Ha0).
    destruct (cost_allocated v v1 a Ha) as [Hc1 Hc2].
    assert (Hu : upd_fs s s2 i ip1).
    { eapply upd_trans; [by apply upd_same|]. unfold ip1.
      replace ip with (icache s1 i) by (destruct Hsm1 as (_&->&_); done). apply upd_inode_upd. }
    assert (Hio2 : inode_ok s2 v1 i ip1) by (by eapply inode_ok_changed).
    assert (Hin : a ∈ j_log v1) by (rewrite (al_log _ _ _ _ _ Ha); set_solver).
    assert (Hhold : ∀ k, j_room k v1 → j_room k (jhold a v1)).
    { intros k. unfold j_room. simpl. by replace ({[a]} ∪ j_held v1 ∪ j_log v1) with (j_held v1 ∪ j_log v1) by set_solver. }
    rewrite <- Hk. rewrite <- Hk in Hin, Hhold.
    eapply wp_mono; [|apply (bmap_tail_spec s2 v1 i ip1 bn Hio2 Hbn Hge); [by rewrite Hk|by left|]].
    + intros b s3 (v3&Hm&Hr3&Ha3). exists v3, ip1. split.
      * eapply (mapped_trans s s2 s3 v v1 v3); try done. intros x Hx. rewrite Hk.
        pose proof (ly_ds _ _ _ (ao_layout _ _ _ _ Hao)). apply (allocated_log v v1 a x Ha); [lia|done].
      * split; [intros k Hk'; by apply Hr3, Hhold, Hc1|intros k Hk'; by apply Ha3, Hc2].
    + intros _. split; [by apply Hhold, Hc1|by apply Hc2].
  - apply wp_ret. eapply wp_mono; [|apply (bmap_tail_spec s v i ip bn Hio Hbn Hge Hi); [by right|]].
    + intros b s3 (v3&Hm&Hr3&Ha3). exists v3, ip. split; [done|].
      split; intros k Hk; [apply Hr3|apply Ha3; eapply avail_le; [|exact Hk]; lia].
      eapply (room_hold (2 + k)), room_le; [|exact Hk]. lia.
    + intros H0. destruct (Hmiss H0). split; [eapply (room_hold 2), room_le; [|done]; lia|by eapply avail_le; [|done]; lia].
Qed.
End bmap.
