(* ===== verification/Fsrw.v ===== *)
(** Reading and writing files (src/fs.c): readi(), writei() and iupdate(). *)

From Stdlib Require Import ZArith Lia.
From stdpp Require Import base tactics numbers gmap strings functions list.
From S2P Require Import Prelude Memory Kstring Monitor Sleeplock Buf Journal Fs Fsblock Fsinode Fsfile.

#[local] Open Scope Z_scope.

(** The [n] bytes of a file at [off]. *)
Definition fbytes (c : Z → mem) (ip : inode) (off n : Z) : list Z := fbyte c ip <$> seqZ off n.

Lemma fbytes_app c ip off m n : 0 ≤ m ≤ n → fbytes c ip off n = fbytes c ip off m ++ fbytes c ip (off + m) (n - m).
Proof. intros H. unfold fbytes. rewrite <- fmap_app. f_equal. rewrite <- seqZ_app by lia. f_equal; lia. Qed.

(** The part of a block at [off] that one round of the loops copies. *)
Definition chunk (off n : Z) : Z := Z.min n (BSIZE - off mod BSIZE).

Lemma chunk_range off n : 0 < n → 0 < chunk off n ≤ n ∧ off mod BSIZE + chunk off n ≤ BSIZE.
Proof. unfold chunk, BSIZE. zlia. Qed.
Lemma chunk_block off n o : off ≤ o < off + chunk off n → o / BSIZE = off / BSIZE ∧ o mod BSIZE = off mod BSIZE + (o - off).
Proof. unfold chunk, BSIZE. zlia. Qed.

Lemma rd_chunk c ip off n :
  0 < n → rd_bytes (c (slot c ip (off / BSIZE))) (off mod BSIZE) (Z.to_nat (chunk off n)) = fbytes c ip off (chunk off n).
Proof.
  intros Hn. pose proof (chunk_range off n Hn). unfold rd_bytes, fbytes. rewrite Z2Nat.id by lia.
  apply list_eq. intros k. rewrite !list_lookup_fmap. destruct (decide (Z.of_nat k < chunk off n)).
  - rewrite !lookup_seqZ_lt by lia. simpl. f_equal. unfold fbyte.
    destruct (chunk_block off n (off + Z.of_nat k)) as [-> ->]; [lia|]. f_equal. lia.
  - rewrite !lookup_seqZ_ge by lia. done.
Qed.

(** The number of blocks that [n] bytes at [off] touch. *)
Definition nblk (off n : Z) : nat := if n <=? 0 then 0 else Z.to_nat ((off mod BSIZE + n + BSIZE - 1) / BSIZE).

Lemma nblk_step off n : 0 < n → nblk off n = S (nblk (off + chunk off n) (n - chunk off n)).
Proof.
  intros Hn. unfold nblk, chunk, BSIZE. destruct (Z.leb_spec n 0); [lia|].
  destruct (Z.leb_spec (n - n `min` (512 - off mod 512)) 0); zlia.
Qed.


(** *** Changing a data block of a file *)

Section put.
Context (sbk : superblock) (ds : Z) (v : jview) (ip : inode) (k : Z) (d : mem).
Context (Hl : layout sbk ds v) (Hd : disk_ok sbk ds (j_cont v)) (Hf : file_ok sbk ds (j_cont v) ip).
Context (Hk : fblock k) (Hnz : slot (j_cont v) ip k ≠ 0).
Abbreviation b := (slot (j_cont v) ip k).
Abbreviation v' := (jput b d v).

Lemma put_owned : owned (j_cont v) ip b.
Proof. split; [done|right]. by exists k. Qed.
Lemma put_bit x : 0 ≤ x < sb_size sbk → bit sbk (j_cont v') x = bit sbk (j_cont v) x.
Proof.
  intros Hx. destruct (fo_used _ _ _ _ Hf _ put_owned) as (H1&_). apply bit_ext. simpl.
  apply fn_lookup_insert_ne. destruct (BBLOCK_range sbk ds v x Hl Hx) as (_&?&_). lia.
Qed.
Lemma put_slot k' : fblock k' → slot (j_cont v') ip k' = slot (j_cont v) ip k'.
Proof.
  intros Hk'. unfold slot at 1. unfold slot at 2. simpl. destruct (k' <? NDIRECT); [done|].
  destruct (indirect ip =? 0); [done|]. f_equal. apply fn_lookup_insert_ne. by apply (fo_ind _ _ _ _ Hf).
Qed.

Lemma put_changed off n :
  off / BSIZE = k → (∀ o, 0 ≤ o < BSIZE → ¬ off mod BSIZE ≤ o < off mod BSIZE + chunk off n → rd8 d o = rd8 (j_cont v b) o) →
  changed sbk ds (λ x, ¬ off ≤ x < off + chunk off n) v v' ip ip.
Proof.
  intros Ek Hd'. destruct (fo_used _ _ _ _ Hf _ put_owned) as (H1&H2&H3).
  assert (Hown : ∀ x, owned (j_cont v') ip x → owned (j_cont v) ip x).
  { intros x [Hx [->|(k'&Hk'&->)]]; (split; [done|]); [by left|right]. exists k'. split; [done|by apply put_slot]. }
  split; try done.
  - exists (i_addrs ip). by destruct ip.
  - intros k' Hk' _. by apply put_slot.
  - intros o Ho HP Hs. unfold fbyte. rewrite put_slot by (by apply fblock_div). simpl.
    destruct (decide (o / BSIZE = k)) as [Ek'|Ek'].
    + rewrite Ek', fn_lookup_insert. apply Hd'; [unfold BSIZE; zlia|]. unfold BSIZE in *. zlia.
    + rewrite fn_lookup_insert_ne; [done|]. intros E. apply Ek'. symmetry.
      by apply (fo_inj _ _ _ _ Hf k); [|apply fblock_div| |].
  - intros x Hx Hb Hm Ho. simpl. apply fn_lookup_insert_ne. intros <-. apply Ho, put_owned.
  - intros x Hx Hb. by rewrite put_bit.
  - intros x Hx. left. by apply Hown.
  - intros x [Hx [->|(k'&Hk'&->)]]; (split; [done|]); [by left|right]. exists k'. split; [done|by rewrite put_slot].
  - intros x Hx. rewrite put_bit by done. by left.
  - destruct Hf as [F1 F2 F3 F4 F5]. split; try done.
    + intros x Hx%Hown. destruct (F1 x Hx) as (?&?&?). split_and!; try lia. rewrite put_bit by lia. done.
    + intros k1 k2 K1 K2. rewrite !put_slot by done. by apply F2.
    + intros k1 K1. rewrite put_slot by done. by apply F3.
    + intros k1 K1 K2. rewrite put_slot; [by apply F4|]. unfold fblock. change MAXFILE with 140 in *. unfold BSIZE in *. lia.
  - simpl. apply (disk_ok_data sbk ds v); try done. lia.
  - simpl. set_solver.
  - simpl. pose proof (ly_ds _ _ _ Hl). intros [E%elem_of_singleton|?]%elem_of_union; [lia|done].
Qed.
End put.

Section rw.
Context {S : Type} `{!Blocks S, !BlocksSpec S}.
Abbreviation fsst := (@fsst S).
Context (sbk : superblock) (ds : Z).

(** ** readi *)

Lemma readi_loop_spec fuel s v i ip off n :
  inode_ok sbk ds s v i ip → 0 ≤ off → off + n ≤ i_size ip → j_room 1 v → (Z.to_nat n ≤ fuel)%nat →
  wp (readi_loop fuel i off n) s (λ l s', l = fbytes (j_cont v) ip off n ∧ shows s' v ∧ upd_fs s s' i ip).
Proof.
  revert s off n. induction fuel as [|fuel IH]; intros s off n Hio Hoff Hsz Hroom Hfuel; simpl.
  all: destruct (Z.leb_spec n 0).
  1, 3: apply wp_ret; rewrite <- (io_ip _ _ _ _ _ _ Hio); split_and!; [|apply Hio|by apply upd_same];
    unfold fbytes; by rewrite seqZ_nil by lia.
  { lia. }
  pose proof Hio as [Hao Hip Hd Hf Hh]. pose proof (fo_size _ _ _ _ Hf) as Hmax.
  assert (Hk : fblock (off / BSIZE)) by (apply fblock_div; lia).
  assert (Hnz : slot (j_cont v) ip (off / BSIZE) ≠ 0) by (apply (fo_full _ _ _ _ Hf); unfold BSIZE; zlia).
  pose proof (chunk_range off n ltac:(lia)). fold (chunk off n).
  apply wp_bind. unfold wp at 1, gets at 1. rewrite Hip, Hd. apply wp_bind.
  eapply wp_mono; [|apply (bmap_spec sbk ds s v i ip _ Hio Hk Hroom); done].
  intros b s1 (v1&ip1&Hm&_). destruct (mp_hit _ _ _ _ _ _ _ _ _ _ _ Hm Hnz) as [-> ->].
  pose proof (mp_slot _ _ _ _ _ _ _ _ _ _ _ Hm) as <-. pose proof (mp_upd _ _ _ _ _ _ _ _ _ _ _ Hm) as Hu1.
  assert (Hio1 : inode_ok sbk ds s1 v i ip) by (eapply inode_ok_changed; [done|apply Hm|apply Hm|done]).
  destruct (owned_block sbk ds s v i ip (slot (j_cont v) ip (off / BSIZE)) Hio) as (I1&I2&I3&I4&I5&I6&I7).
  { split; [done|right]. by exists (off / BSIZE). }
  apply wp_bind. eapply (fs_bread s1 v); [apply Hio1|done|done|done|by right|].
  intros bp s2 Hs2 Hb2 Hsm2 _. apply wp_bind. eapply fs_bdata; [apply Hs2|done|]. intros s3 E3 Hsm3. cbn [j_cont jhold].
  apply wp_bind. eapply (fs_brelse s3 v bp); [by eapply shows_same|done|unfold fholds; by rewrite E3|].
  intros s4 Hs4 Hsm4 _. apply wp_bind.
  assert (Hu4 : upd_fs s s4 i ip).
  { eapply upd_trans; [exact Hu1|]. destruct Hio1 as [_ <- _ _ _]. apply upd_same. do 2 (etrans; [eassumption|]). done. }
  assert (Hio4 : inode_ok sbk ds s4 v i ip) by (eapply (inode_ok_changed _ _ _ s); [exact Hio|apply grown_refl; [done|apply Hao]|done|done]).
  eapply wp_mono; [|apply (IH s4 (off + chunk off n) (n - chunk off n) Hio4); lia || done].
  intros l s5 (->&Hs5&Hu5). apply wp_ret. split_and!; [|done|by eapply upd_trans].
  rewrite (fbytes_app _ _ off (chunk off n) n) by lia. f_equal. apply rd_chunk. lia.
Qed.

(** ** writei *)

(** The bytes [l] are in the file at [off], and nothing else is different. *)
Record written (v v' : jview) (ip ip' : inode) (off : Z) (l : list Z) : Prop := {
  wt_changed : changed sbk ds (λ x, ¬ off ≤ x < off + Z.of_nat (length l)) v v' ip ip';
  wt_bytes : fbytes (j_cont v') ip' off (Z.of_nat (length l)) = u8 <$> l;
  wt_full x : off ≤ x < off + Z.of_nat (length l) → slot (j_cont v') ip' (x / BSIZE) ≠ 0;
  wt_hit : (∀ x, off ≤ x < off + Z.of_nat (length l) → slot (j_cont v) ip (x / BSIZE) ≠ 0) → ip' = ip
}.

Lemma fbytes_changed P v v' ip ip' off n :
  changed sbk ds P v v' ip ip' → 0 ≤ off → off + n ≤ MAXFILE * BSIZE →
  (∀ x, off ≤ x < off + n → P x ∧ slot (j_cont v) ip (x / BSIZE) ≠ 0) →
  fbytes (j_cont v') ip' off n = fbytes (j_cont v) ip off n.
Proof.
  intros Hc Hoff Hn HP. apply list_fmap_ext. intros k x [-> Hk]%lookup_seqZ.
  destruct (HP (off + Z.of_nat k)); [lia|]. apply (gr_data _ _ _ _ _ _ _ Hc); [lia|done|done].
Qed.

Lemma written_nil v ip off : file_ok sbk ds (j_cont v) ip → disk_ok sbk ds (j_cont v) → written v v ip ip off [].
Proof.
  intros Hf Hd. split; simpl.
  - eapply changed_weaken; [|by apply grown_refl]. done.
  - unfold fbytes. by rewrite seqZ_nil by lia.
  - lia.
  - done.
Qed.

Lemma written_app v1 v2 v3 ip1 ip2 ip3 off l l' :
  file_ok sbk ds (j_cont v1) ip1 → 0 ≤ off → off + Z.of_nat (length (l ++ l')) ≤ MAXFILE * BSIZE →
  written v1 v2 ip1 ip2 off l → written v2 v3 ip2 ip3 (off + Z.of_nat (length l)) l' →
  written v1 v3 ip1 ip3 off (l ++ l').
Proof.
  intros Hf Hoff Hn [C1 B1 F1 E1] [C2 B2 F2 E2]. rewrite length_app in *. split; rewrite ?length_app.
  - eapply changed_weaken; [|by eapply changed_trans]. simpl. lia.
  - rewrite (fbytes_app _ _ _ (Z.of_nat (length l))) by lia. rewrite fmap_app. f_equal.
    + rewrite <- B1. eapply fbytes_changed; [exact C2|lia|lia|]. intros x Hx. split; [lia|by apply F1].
    + rewrite <- B2. f_equal. lia.
  - intros x Hx. destruct (decide (x < off + Z.of_nat (length l))) as [Hlt|Hge]; [|apply F2; lia].
    assert (fblock (x / BSIZE)) by (apply fblock_div; lia).
    rewrite (gr_slot _ _ _ _ _ _ _ C2); [apply F1; lia|done|apply F1; lia].
  - intros Hs. rewrite E2, E1; [done|..]; intros x Hx; [apply Hs; lia|].
    rewrite (gr_slot _ _ _ _ _ _ _ C1); [apply Hs; lia|apply fblock_div; lia|apply Hs; lia].
Qed.

Lemma written_grown v1 v2 v3 ip1 ip2 ip3 off l :
  file_ok sbk ds (j_cont v1) ip1 → changed sbk ds (λ _, True) v1 v2 ip1 ip2 → 0 < Z.of_nat (length l) →
  (slot (j_cont v1) ip1 (off / BSIZE) ≠ 0 → v2 = v1 ∧ ip2 = ip1) →
  written v2 v3 ip2 ip3 off l → written v1 v3 ip1 ip3 off l.
Proof.
  intros Hf Hg Hlen Hhit [C B F E]. split; try done.
  2:{ intros Hs. destruct Hhit as [-> ->]; [apply Hs; lia|]. by apply E. } eapply changed_weaken; [|by eapply changed_trans]. simpl. done.
Qed.

(** One round of the loop. *)
Lemma put_written v ip off n l :
  layout sbk ds v → disk_ok sbk ds (j_cont v) → file_ok sbk ds (j_cont v) ip → 0 ≤ off → 0 < n →
  fblock (off / BSIZE) → slot (j_cont v) ip (off / BSIZE) ≠ 0 → Z.of_nat (length l) = chunk off n →
  let b := slot (j_cont v) ip (off / BSIZE) in
  written v (jput b (wr_bytes (j_cont v b) (off mod BSIZE) l) v) ip ip off l.
Proof.
  intros Hl Hd Hf Hoff Hn Hk Hnz Hlen. cbv zeta. pose proof (chunk_range off n Hn).
  split; rewrite Hlen.
  - apply (put_changed sbk ds v ip (off / BSIZE)); try done. intros o Ho Hn'.
    rewrite rd8_wr_bytes, decide_False by lia. done.
  - apply list_eq. intros k. unfold fbytes. rewrite !list_lookup_fmap. destruct (decide (Z.of_nat k < chunk off n)).
    + rewrite lookup_seqZ_lt by lia. destruct (lookup_lt_is_Some_2 l k) as [x Hx]; [lia|]. rewrite Hx. cbn [fmap option_fmap option_map]. f_equal.
      unfold fbyte. destruct (chunk_block off n (off + Z.of_nat k)) as [-> ->]; [lia|].
      rewrite (put_slot sbk ds) by done. simpl. rewrite fn_lookup_insert, rd8_wr_bytes, decide_True by lia.
      replace (Z.to_nat _) with k by lia. by rewrite (nth_lookup_Some _ _ _ _ Hx).
    + rewrite lookup_seqZ_ge by lia. rewrite (lookup_ge_None_2 l) by lia. done.
  - intros x Hx. destruct (chunk_block off n x Hx) as [-> _]. by rewrite (put_slot sbk ds).
  - done.
Qed.

(** The log of [v'] is that of [v] with one more block of the file [ip'], its indirect
    block and blocks of the free map. *)
Definition logged v v' ip' : Prop :=
  ∃ b, ∀ x, x ∈ j_log v' → x ∈ j_log v ∨ is_bmap sbk x ∨ x = b ∨ indirect ip' ≠ 0 ∧ x = indirect ip'.

(** One round of the loop of writei, with [l] the bytes to store. *)
Lemma writei_round {A} (k : unit → K fsst A) s v i ip off n l (Q : A → fsst → Prop) :
  inode_ok sbk ds s v i ip → 0 ≤ off → 0 < n → off + n ≤ MAXFILE * BSIZE → Z.of_nat (length l) = chunk off n →
  j_room 5 v → avail sbk (j_cont v) 2 →
  (∀ s' v' ip', inode_ok sbk ds s' v' i ip' → written v v' ip ip' off l → upd_fs s s' i ip' →
     cost sbk 5 2 v v' → logged v v' ip' → wp (k tt) s' Q) →
  wp (bmap i (off / BSIZE) ≫= λ b, on_blk (b_read ROOTDEV b) ≫= λ bp, on_blk (b_data bp) ≫= λ x,
      on_blk (b_set bp (wr_bytes x (off mod BSIZE) l)) ≫= λ _, on_blk (b_log bp) ≫= λ _,
      on_blk (b_relse bp) ≫= k) s Q.
Proof.
  intros Hio Hoff Hn Hsz Hlen Hroom Hav HQ. pose proof Hio as [Hao Hip Hd Hf Hh].
  assert (Hk : fblock (off / BSIZE)) by (apply fblock_div; lia). apply wp_bind.
  eapply wp_mono; [|apply (bmap_spec sbk ds s v i ip _ Hio Hk); [apply (room_le _ 5); [lia|done]|]].
  2:{ intros _. split; [by apply (room_le _ 5); [lia|]|done]. }
  intros b s1 (v1&ip1&Hm&Hc). pose proof Hm as [M1 M2 M3 M4 M5 M6 ML M7 M8]. subst b.
  assert (Hio1 : inode_ok sbk ds s1 v1 i ip1) by (by eapply inode_ok_changed).
  pose proof Hio1 as [Hao1 Hip1 Hd1 Hf1 Hh1]. set (b := slot (j_cont v1) ip1 (off / BSIZE)) in *.
  assert (Hob : owned (j_cont v1) ip1 b) by (split; [done|right]; by exists (off / BSIZE)).
  destruct (owned_block sbk ds s1 v1 i ip1 b Hio1 Hob) as (I1&I2&I3&I4&I5&I6&I7).
  assert (Hr1 : j_room 1 v1) by (by apply Hc).
  apply wp_bind. eapply (fs_bread s1 v1 b); [done|done|done|done|by right|].
  intros bp s2 Hs2 Hb2 Hsm2 _. apply wp_bind. eapply fs_bdata; [apply Hs2|done|]. intros s3 E3 Hsm3. cbn [j_cont jhold].
  eapply (fs_bput_k _ s3 v1 bp b); [by eapply shows_same|done|unfold fholds; by rewrite E3|].
  intros s4 Hs4 Hsm4 _.
  pose proof (put_written v1 ip1 off n l (ao_layout _ _ _ _ Hao1) (ao_disk _ _ _ _ Hao1) Hf1 Hoff Hn Hk M3 Hlen) as Hw.
  assert (Hu4 : upd_fs s1 s4 i ip1).
  { rewrite <- Hip1. apply upd_same. do 2 (etrans; [eassumption|]). done. }
  eapply HQ; [| |by eapply upd_trans| |].
  - eapply (inode_ok_changed _ _ _ s1); [done|apply Hw|done|done].
  - eapply written_grown; [done|done|pose proof (chunk_range off n Hn); lia| |exact Hw]. by apply M4.
  - apply (cost_trans sbk 4 2 1 0 v v1 _ Hc). split; intros k'; [apply room_put|].
    apply avail_ext. intros x Hx. apply bit_ext. simpl. apply fn_lookup_insert_ne. intros E. apply I7. exists x. by split.
  - exists b. intros x. simpl. intros [->%elem_of_singleton|Hx]%elem_of_union; [by right; right; left|by apply ML].
Qed.

(** What the loop may use: [Bud v ip k] says that [k] more rounds fit the log. *)
Record budget (Bud : jview → inode → nat → Prop) : Prop := {
  bu_room v ip k : Bud v ip (Datatypes.S k) → j_room 5 v;
  bu_last v ip : Bud v ip 0%nat → j_room 1 v;
  bu_step v v' ip ip' k : Bud v ip (Datatypes.S k) → cost sbk 5 2 v v' → j_held v' = j_held v →
    (indirect ip ≠ 0 → indirect ip' = indirect ip) → logged v v' ip' → Bud v' ip' k
}.

(** Five blocks for each round, and one for the inode. *)
Lemma budget_simple : budget (λ v _ k, j_room (5 * k + 1) v).
Proof.
  split.
  - intros v ip k. apply room_le. lia.
  - intros v ip. apply room_le. lia.
  - intros v v' ip ip' k Hr [Hc _] _ _ _. apply Hc. eapply room_le; [|exact Hr]. lia.
Qed.

(** The blocks of the free map. *)
Definition bmap_blocks : gset Z := list_to_set ((λ k, sb_bmapstart sbk + k) <$> seqZ 0 (sb_size sbk / BPB + 1)).
Lemma bmap_blocks_spec v x : layout sbk ds v → is_bmap sbk x → x ∈ bmap_blocks.
Proof.
  intros Hl (b&Hb&->). destruct (BBLOCK_range sbk ds v b Hl Hb) as (->&_). unfold bmap_blocks.
  rewrite elem_of_list_to_set, list_elem_of_fmap. exists (b / BPB). split; [lia|]. apply elem_of_seqZ.
  pose proof (Z.div_le_mono b (sb_size sbk) BPB ltac:(done) ltac:(lia)). pose proof (Z.div_pos b BPB). unfold BPB, BSIZE in *. lia.
Qed.

(** One block for each round besides the blocks of the free map and the indirect block;
    in a round five at most are in use that may turn out to be among these. *)
Definition ind_block (ip : inode) : gset Z := if decide (indirect ip = 0) then ∅ else {[indirect ip]}.
Definition tight v ip (k : nat) : Prop :=
  (∀ x, is_bmap sbk x → x ∈ bmap_blocks) ∧
  (base.size (j_held v ∪ j_log v ∪ bmap_blocks ∪ ind_block ip) + (if decide (indirect ip = 0%Z) then 1 else 0) + k + 5 ≤ 28)%nat.

Lemma tight_room v ip k : tight v ip k → j_room 5 v.
Proof.
  intros [_ H]. unfold j_room. assert (base.size (j_held v ∪ j_log v) ≤
    base.size (j_held v ∪ j_log v ∪ bmap_blocks ∪ ind_block ip))%nat; [|lia]. apply subseteq_size. set_solver.
Qed.
Lemma budget_tight : budget tight.
Proof.
  split.
  - intros v ip k. apply tight_room.
  - intros v ip H%tight_room. by apply (room_le _ 5); [lia|].
  - intros v v' ip ip' k [HB H] _ Hh Hi (b&Hb). split; [done|]. rewrite Hh.
    assert (Hsub : j_held v ∪ j_log v' ∪ bmap_blocks ∪ ind_block ip' ⊆
      (j_held v ∪ j_log v ∪ bmap_blocks ∪ ind_block ip) ∪ ({[b]} ∪ ind_block ip')).
    { assert (j_log v' ⊆ j_log v ∪ bmap_blocks ∪ {[b]} ∪ ind_block ip'); [|set_solver].
      intros x Hx. unfold ind_block. destruct (Hb x Hx) as [|[Hm|[->|[Hn ->]]]]; [set_solver| |set_solver|].
      - apply HB in Hm. set_solver.
      - rewrite decide_False by done. set_solver. }
    apply subseteq_size in Hsub. pose proof (size_union_alt (j_held v ∪ j_log v ∪ bmap_blocks ∪ ind_block ip) ({[b]} ∪ ind_block ip')) as E.
    assert (Hd : (base.size (({[b]} ∪ ind_block ip') ∖ (j_held v ∪ j_log v ∪ bmap_blocks ∪ ind_block ip)) +
      (if decide (indirect ip' = 0%Z) then 1 else 0) ≤ 1 + (if decide (indirect ip = 0%Z) then 1 else 0))%nat); [|lia].
    assert (base.size ({[b]} : gset Z) = 1%nat) as E1 by apply size_singleton.
    destruct (decide (indirect ip = 0)) as [E0|E0].
    + assert (base.size (({[b]} ∪ ind_block ip') ∖ (j_held v ∪ j_log v ∪ bmap_blocks ∪ ind_block ip)) ≤ base.size ({[b]} ∪ ind_block ip'))%nat.
      { apply subseteq_size. set_solver. }
      pose proof (size_union_alt {[b]} (ind_block ip')). assert (base.size (ind_block ip' ∖ {[b]}) ≤ base.size (ind_block ip'))%nat by (apply subseteq_size; set_solver).
      unfold ind_block in *. destruct (decide (indirect ip' = 0)); [rewrite size_empty in *|rewrite size_singleton in *]; lia.
    + pose proof (Hi E0) as E2. assert (ind_block ip' = ind_block ip) as -> by (unfold ind_block; by rewrite E2).
      rewrite E2. destruct (decide (indirect ip = 0)); [done|].
      assert (base.size (({[b]} ∪ ind_block ip) ∖ (j_held v ∪ j_log v ∪ bmap_blocks ∪ ind_block ip)) ≤ base.size ({[b]} : gset Z))%nat; [|lia].
      apply subseteq_size. set_solver.
Qed.

Section loop.
Context (Bud : jview → inode → nat → Prop) (HBud : budget Bud).

Definition loop_post s v i ip off l (r : Z) (s' : fsst) : Prop :=
  ∃ v' ip', written v v' ip ip' off l ∧ inode_ok sbk ds s' v' i ip' ∧ upd_fs s s' i ip' ∧ r = off + Z.of_nat (length l) ∧
    cost sbk (5 * nblk off (Z.of_nat (length l))) (2 * nblk off (Z.of_nat (length l))) v v' ∧ Bud v' ip' 0%nat.

Lemma writei_loop_spec fuel s v i ip off src n :
  inode_ok sbk ds s v i ip → 0 ≤ off → off + n ≤ MAXFILE * BSIZE → 0 ≤ n → Z.of_nat (length src) = n →
  Bud v ip (nblk off n) → avail sbk (j_cont v) (2 * nblk off n) → (Z.to_nat n ≤ fuel)%nat →
  wp (writei_loop fuel i src off n) s (loop_post s v i ip off src).
Proof.
  revert s v ip off src n. induction fuel as [|fuel IH]; intros s v ip off src n Hio Hoff Hsz Hn0 Hlen Hroom Hav Hfuel; simpl.
  all: pose proof Hio as [Hao Hip Hd Hf Hh]; destruct (Z.leb_spec n 0).
  1, 3: apply wp_ret; destruct src; [|simpl in Hlen; lia]; exists v, ip; split_and!;
    [apply written_nil; [done|apply Hao]|done|rewrite <- Hip; by apply upd_same|simpl; lia|apply cost_refl|
      unfold nblk in Hroom; rewrite (proj2 (Z.leb_le n 0)) in Hroom by lia; exact Hroom].
  { lia. }
  pose proof (chunk_range off n ltac:(lia)). fold (chunk off n).
  pose proof (nblk_step off n ltac:(lia)) as Enb. set (m := chunk off n) in *. set (nb := nblk (off + m) (n - m)) in *.
  rewrite Enb in Hroom, Hav.
  assert (Hlen1 : Z.of_nat (length (take (Z.to_nat m) src)) = m) by (rewrite length_take; lia).
  assert (Hlen2 : Z.of_nat (length (drop (Z.to_nat m) src)) = n - m) by (rewrite length_drop; lia).
  apply wp_bind. unfold wp at 1, gets at 1. rewrite Hip, Hd.
  eapply (writei_round _ s v i ip off n (take (Z.to_nat m) src)); try done;
    [by eapply (bu_room _ HBud)|by eapply avail_le; [|done]; lia|].
  intros s1 v1 ip1 Hio1 Hw1 Hu1 Hc1 Hl1. pose proof Hc1 as [_ Hc1a].
  eapply wp_mono; [|apply (IH s1 v1 ip1 (off + m) (drop (Z.to_nat m) src) (n - m)); try done; try lia].
  2:{ fold nb. eapply (bu_step _ HBud); [exact Hroom|done|apply (wt_changed _ _ _ _ _ _ Hw1)..|done]. }
  2:{ fold nb. apply Hc1a. eapply avail_le; [|exact Hav]. lia. }
  intros r s2 (v2&ip2&Hw2&Hio2&Hu2&->&Hc2&Hb2). exists v2, ip2. rewrite Hlen2 in *. fold nb in Hc2.
  split_and!; [|done|by eapply upd_trans|lia| |done].
  - rewrite <- (take_drop (Z.to_nat m) src). eapply (written_app v v1); [done|lia| |done|by rewrite Hlen1].
    rewrite take_drop. lia.
  - rewrite Hlen, Enb. eapply cost_le; [| |by eapply cost_trans]; lia.
Qed.
End loop.

(** *** The whole calls *)

(** How many bytes readi finds. *)
Definition read_len (size off n : Z) : Z := Z.min n (size - off).

Lemma readi_spec dev_read s v i ip off n :
  inode_ok sbk ds s v i ip → i_type ip ≠ T_DEV → 0 ≤ off ≤ i_size ip → 0 ≤ n → off + n < 4294967296 → j_room 1 v →
  wp (readi dev_read i off n) s (λ p s', p = (read_len (i_size ip) off n, fbytes (j_cont v) ip off (read_len (i_size ip) off n)) ∧
    shows s' v ∧ upd_fs s s' i ip).
Proof.
  intros Hio Hty Hoff Hn Hof Hroom. unfold readi. apply wp_bind. unfold wp at 1, gets at 1.
  rewrite (io_ip _ _ _ _ _ _ Hio), (proj2 (Z.eqb_neq _ _) Hty).
  rewrite u32_small by (unfold is_u32; lia). rewrite (proj2 (Z.ltb_ge (i_size ip) off)) by lia.
  rewrite (proj2 (Z.ltb_ge (off + n) off)) by lia. simpl orb. cbv iota.
  replace (if i_size ip <? off + n then i_size ip - off else n) with (read_len (i_size ip) off n).
  2:{ unfold read_len. destruct (Z.ltb_spec (i_size ip) (off + n)); lia. }
  apply wp_bind. eapply wp_mono; [|apply (readi_loop_spec _ s v i ip off _ Hio)]; [|lia|unfold read_len; lia|done|done].
  intros l s' (->&Hs&Hu). by apply wp_ret.
Qed.

(** A larger size that the blocks of the file cover. *)
Lemma file_ok_size c ip z :
  file_ok sbk ds c ip → i_size ip ≤ z ≤ MAXFILE * BSIZE →
  (∀ k, 0 ≤ k → i_size ip ≤ k * BSIZE < z → slot c ip k ≠ 0) → file_ok sbk ds c (set_i_size z ip).
Proof.
  intros [F1 F2 F3 F4 F5] Hz Hk. split; try done; simpl.
  - intros k H1 H2. destruct (Z.lt_ge_cases (k * BSIZE) (i_size ip)); [by apply F4|by apply Hk].
  - lia.
Qed.

(** Updating the inode on the disk changes neither the file nor the free map. *)
Lemma inode_ok_iput s s' v i ip n d :
  inode_ok sbk ds s v i ip → 0 ≤ n < sb_ninodes sbk → IBLOCK n sbk ∉ j_held v →
  shows s' (jput (IBLOCK n sbk) d v) → same_fs s s' →
  inode_ok sbk ds s' (jput (IBLOCK n sbk) d v) i ip ∧
  (∀ k, fblock k → slot (j_cont (jput (IBLOCK n sbk) d v)) ip k = slot (j_cont v) ip k) ∧
  ∀ o, 0 ≤ o < MAXFILE * BSIZE → slot (j_cont v) ip (o / BSIZE) ≠ 0 →
    fbyte (j_cont (jput (IBLOCK n sbk) d v)) ip o = fbyte (j_cont v) ip o.
Proof.
  intros Hio Hn Hh Hs' (E1&E2&E3). pose proof Hio as [[A1 A2 A3 A4 A5 A6] Hip Hdv [F1 F2 F3 F4 F5] Hho].
  destruct (IBLOCK_range sbk ds v n A3 Hn) as (R1&R2&R3&R4).
  assert (Hslot : ∀ k, slot (j_cont (jput (IBLOCK n sbk) d v)) ip k = slot (j_cont v) ip k).
  { intros k. unfold slot. destruct (k <? NDIRECT); [done|]. destruct (Z.eqb_spec (indirect ip) 0) as [|Hi]; [done|].
    simpl. rewrite fn_lookup_insert_ne; [done|]. destruct (F1 (indirect ip)) as (?&_); [split; [done|by left]|]. lia. }
  assert (Hown : ∀ x, owned (j_cont (jput (IBLOCK n sbk) d v)) ip x ↔ owned (j_cont v) ip x).
  { intros x. unfold owned. by setoid_rewrite Hslot. }
  split_and!; [|done|].
  - split; try done; [split; try done| |split; try done|].
    + by rewrite E1.
    + by apply (layout_same _ _ v).
    + by apply (disk_ok_iput sbk ds).
    + intros x Hx. destruct (A6 x Hx). split; [done|]. simpl. by rewrite (bit_iput sbk ds).
    + by rewrite E2.
    + intros x Hx%Hown. destruct (F1 x Hx) as (?&?&?). split_and!; try lia. simpl. rewrite (bit_iput sbk ds) by (try done; lia). done.
    + intros k k'. rewrite !Hslot. apply F2.
    + intros k. rewrite Hslot. apply F3.
    + intros k. rewrite Hslot. apply F4.
    + intros x Hx%Hown. by apply Hho.
  - intros o Ho Hnz. apply fbyte_same; [apply Hslot|]. simpl. apply fn_lookup_insert_ne.
    destruct (F1 (slot (j_cont v) ip (o / BSIZE))) as (?&_); [|lia].
    split; [done|right]. exists (o / BSIZE). split; [by apply fblock_div|done].
Qed.

(** The result of writing [l] at [off]: the file holds [l] there and is otherwise
    as before, and no block of another file has changed. *)
Record wrote (s : fsst) (v : jview) (i : nat) (ip : inode) (off : Z) (l : list Z) (s' : fsst) (v' : jview) (ip' : inode) : Prop := {
  wo_ok : inode_ok sbk ds s' v' i ip';
  wo_size : i_size ip' = Z.max (i_size ip) (off + Z.of_nat (length l));
  wo_type : i_type ip' = i_type ip ∧ i_nlink ip' = i_nlink ip ∧ i_inum ip' = i_inum ip ∧ i_ref ip' = i_ref ip ∧
    i_lock ip' = i_lock ip ∧ i_valid ip' = i_valid ip;
  wo_bytes : fbytes (j_cont v') ip' off (Z.of_nat (length l)) = u8 <$> l;
  wo_rest o : 0 ≤ o < i_size ip → ¬ off ≤ o < off + Z.of_nat (length l) →
    fbyte (j_cont v') ip' o = fbyte (j_cont v) ip o;
  wo_other x : 0 ≤ x < sb_size sbk → bit sbk (j_cont v) x = true → ¬ is_bmap sbk x →
    ¬ owned (j_cont v) ip x → x ≠ IBLOCK (i_inum ip) sbk → j_cont v' x = j_cont v x;
  wo_bit x : 0 ≤ x < sb_size sbk → bit sbk (j_cont v) x = true → bit sbk (j_cont v') x = true;
  wo_new x : owned (j_cont v') ip' x → owned (j_cont v) ip x ∨ bit sbk (j_cont v) x = false;
  wo_keep x : owned (j_cont v) ip x → owned (j_cont v') ip' x;
  wo_used x : 0 ≤ x < sb_size sbk → bit sbk (j_cont v') x = true → bit sbk (j_cont v) x = true ∨ owned (j_cont v') ip' x;
  wo_ino : let b := IBLOCK (i_inum ip) sbk in
    j_cont v' b = j_cont v b ∧ ip' = ip ∨ j_cont v' b = store_inode ip' (i_inum ip mod IPB * DINODE) (j_cont v b);
  wo_dev : i_major ip' = i_major ip ∧ i_minor ip' = i_minor ip;
  wo_held : j_held v' = j_held v;
  wo_size' : j_size v' = j_size v;
  wo_res : j_res v' = j_res v;
  wo_super : 1 ∈ j_log v' → 1 ∈ j_log v;
  wo_cache : upd_fs s s' i ip';
  wo_room k : j_room (5 * nblk off (Z.of_nat (length l)) + 1 + k) v → j_room k v'
}.

(** The block of an inode is not one that the loop changes. *)
Lemma iblock_kept P s v v' i ip ip' :
  inode_ok sbk ds s v i ip → 0 ≤ i_inum ip < sb_ninodes sbk → changed sbk ds P v v' ip ip' →
  j_cont v' (IBLOCK (i_inum ip) sbk) = j_cont v (IBLOCK (i_inum ip) sbk).
Proof.
  intros [Hao Hip Hd Hf Hh] Hin Hc. pose proof (ao_layout _ _ _ _ Hao) as Hl. pose proof (ly_ds _ _ _ Hl).
  destruct (IBLOCK_range sbk ds v _ Hl Hin) as (R1&R2&R3&R4). apply (gr_other _ _ _ _ _ _ _ Hc); [lia| |done|].
  - apply (dk_meta _ _ _ (ao_disk _ _ _ _ Hao)). lia.
  - intros Ho. destruct (fo_used _ _ _ _ Hf _ Ho) as (?&_). lia.
Qed.

Lemma written_wrote s s' v v' i ip ip' off l :
  inode_ok sbk ds s v i ip → 0 ≤ off → off + Z.of_nat (length l) ≤ i_size ip → 0 ≤ i_inum ip < sb_ninodes sbk → written v v' ip ip' off l →
  inode_ok sbk ds s' v' i ip' → upd_fs s s' i ip' →
  (∀ k, j_room (5 * nblk off (Z.of_nat (length l)) + 1 + k) v → j_room k v') →
  wrote s v i ip off l s' v' ip'.
Proof.
  intros Hio Hoff Hsz Hin [Hc Hb Hfu Hhit] Hio' Hu Hr. destruct (gr_ip _ _ _ _ _ _ _ Hc) as [f Eip]. pose proof Hio as [Hao Hip Hd Hf Hh].
  pose proof (fo_size _ _ _ _ Hf) as Hz.
  split; try done; try (by apply Hc).
  - rewrite Eip. simpl. lia.
  - by rewrite Eip.
  - intros o Ho Hn. apply (gr_data _ _ _ _ _ _ _ Hc); [lia|done|]. apply (fo_full _ _ _ _ Hf); unfold BSIZE; zlia.
  - intros x H1 H2 H3 H4 _. by apply (gr_other _ _ _ _ _ _ _ Hc).
  - left. split; [by eapply iblock_kept|]. apply Hhit. intros x Hx. apply (fo_full _ _ _ _ Hf); unfold BSIZE; zlia.
  - by rewrite Eip.
  - apply (gr_size _ _ _ _ _ _ _ Hc).
Qed.

(** ... with the new size, which iupdate has put on the disk. *)
Lemma written_iput s s2 s3 v v1 i ip ip1 off l d :
  let n := Z.of_nat (length l) in
  let ip2 := set_i_size (off + n) ip1 in
  let v2 := jput (IBLOCK (i_inum ip) sbk) d v1 in
  d = store_inode ip2 (i_inum ip mod IPB * DINODE) (j_cont v1 (IBLOCK (i_inum ip) sbk)) →
  inode_ok sbk ds s v i ip → 0 ≤ off → off + n ≤ MAXFILE * BSIZE → i_size ip < off + n →
  0 ≤ i_inum ip < sb_ninodes sbk → IBLOCK (i_inum ip) sbk ∉ j_held v1 →
  written v v1 ip ip1 off l → inode_ok sbk ds s2 v1 i ip2 → upd_fs s s2 i ip2 → shows s3 v2 → same_fs s2 s3 →
  (∀ k, j_room (5 * nblk off n + k) v → j_room k v1) →
  wrote s v i ip off l s3 v2 ip2.
Proof.
  intros n ip2 v2 Ed Hio Hoff Hmax Hsz Hin Hh [Hc Hb Hfu _] Hio2 Hu Hs3 Hsm Hr.
  destruct (inode_ok_iput s2 s3 v1 i ip2 _ d Hio2 Hin Hh Hs3 Hsm) as (Hio3&Hslot&Hbyte). fold v2 in Hio3, Hslot, Hbyte.
  destruct (gr_ip _ _ _ _ _ _ _ Hc) as [f Eip].
  assert (Hown : ∀ x, owned (j_cont v2) ip2 x → owned (j_cont v1) ip1 x).
  { intros x [Hx [->|(k&Hk&->)]]; (split; [done|]); [by left|right]. exists k. split; [done|by apply Hslot]. }
  assert (Hown2 : ∀ x, owned (j_cont v1) ip1 x → owned (j_cont v2) ip2 x).
  { intros x [Hx [->|(k&Hk&->)]]; (split; [done|]); [by left|right]. exists k. split; [done|by rewrite Hslot]. }
  split; try done; try (by apply Hc).
  - simpl. fold n. lia.
  - unfold ip2. by rewrite Eip.
  - rewrite <- Hb. apply list_fmap_ext. intros k x [-> Hk]%lookup_seqZ. apply Hbyte; [fold n in Hk; lia|]. apply Hfu. lia.
  - intros o Ho Hn. assert (Hnz : slot (j_cont v) ip (o / BSIZE) ≠ 0).
    { apply (fo_full _ _ _ _ (io_file _ _ _ _ _ _ Hio)); unfold BSIZE; zlia. }
    rewrite Hbyte; [by apply (gr_data _ _ _ _ _ _ _ Hc); [lia|done|]|lia|].
    change (slot (j_cont v1) ip1 (o / BSIZE) ≠ 0). rewrite (gr_slot _ _ _ _ _ _ _ Hc); [done|apply fblock_div; lia|done].
  - intros x H1 H2 H3 H4 H5. simpl. rewrite fn_lookup_insert_ne by done. by apply (gr_other _ _ _ _ _ _ _ Hc).
  - intros x H1 H2. simpl. rewrite (bit_iput sbk ds); [by apply Hc|apply Hio2|done|done].
  - intros x Hx%Hown. by apply (gr_new _ _ _ _ _ _ _ Hc).
  - intros x Hx%(gr_keep _ _ _ _ _ _ _ Hc). by apply Hown2.
  - intros x Hx. simpl. rewrite (bit_iput sbk ds); [|apply Hio2|done|done]. intros Hb'.
    destruct (gr_used _ _ _ _ _ _ _ Hc x Hx Hb'); [by left|right; by apply Hown2].
  - right. simpl. rewrite fn_lookup_insert, Ed. f_equal. by eapply iblock_kept.
  - unfold ip2. by rewrite Eip.
  - apply (gr_size _ _ _ _ _ _ _ Hc).
  - simpl. destruct (IBLOCK_range sbk ds v1 _ (ao_layout _ _ _ _ (io_alloc _ _ _ _ _ _ Hio2)) Hin) as (_&?&_).
    intros [E%elem_of_singleton|H1]%elem_of_union; [lia|by apply Hc].
  - destruct Hsm as (E1&E2&E3), Hu as (U1&U2&U3&U4). split_and!; try congruence. intros j Hj. rewrite E2. by apply U3.
  - intros k Hk. fold n in Hk. apply room_put, Hr. by eapply room_le; [|exact Hk]; lia.
Qed.

Lemma writei_budget Bud dev_write s v i ip off src :
  budget Bud →
  let n := Z.of_nat (length src) in
  inode_ok sbk ds s v i ip → i_type ip ≠ T_DEV → 0 ≤ off ≤ i_size ip → off + n ≤ MAXFILE * BSIZE →
  0 ≤ i_inum ip < sb_ninodes sbk → IBLOCK (i_inum ip) sbk ∉ j_held v →
  Bud v ip (nblk off n) → avail sbk (j_cont v) (2 * nblk off n) →
  wp (writei dev_write i src off n) s (λ r s', r = n ∧ ∃ v' ip', wrote s v i ip off src s' v' ip').
Proof.
  intros HBud n Hio Hty Hoff Hmax Hinum Hih Hroom Hav. unfold writei. apply wp_bind. unfold wp at 1, gets at 1.
  change (MAXFILE * BSIZE) with 71680 in *.
  rewrite (io_ip _ _ _ _ _ _ Hio), (proj2 (Z.eqb_neq _ _) Hty), u32_small by (unfold is_u32; lia).
  rewrite (proj2 (Z.ltb_ge (i_size ip) off)), (proj2 (Z.ltb_ge (off + n) off)), (proj2 (Z.ltb_ge 71680 (off + n))) by lia.
  cbn [orb]. apply wp_bind. eapply wp_mono; [|apply (writei_loop_spec Bud HBud _ s v i ip off src n Hio)]; try done; try lia.
  intros r s1 (v1&ip1&Hw&Hio1&Hu1&->&[Hc _]&Hb1). fold n in Hw, Hc |- *.
  apply wp_bind. unfold wp at 1, gets at 1. rewrite (io_ip _ _ _ _ _ _ Hio1).
  destruct (gr_ip _ _ _ _ _ _ _ (wt_changed _ _ _ _ _ _ Hw)) as [f Eip].
  assert (Esz : i_size ip1 = i_size ip) by (by rewrite Eip). rewrite Esz.
  destruct (Z.ltb_spec (i_size ip) (off + n)) as [Hlt|Hge].
  2:{ rewrite andb_false_r. apply wp_bind, wp_ret, wp_ret. split; [done|]. exists v1, ip1.
      apply written_wrote; [done|lia|done|done|done|done|done|]. intros k Hk. fold n in Hk. apply Hc. eapply room_le; [|exact Hk]. lia. }
  rewrite (proj2 (Z.ltb_lt 0 n)) by lia. cbn [andb when]. apply wp_bind, wp_bind. unfold wp at 1, modify at 1.
  assert (Hr1 : j_room 1 v1) by (by eapply (bu_last _ HBud)).
  assert (Hf2 : file_ok sbk ds (j_cont v1) (set_i_size (off + n) ip1)).
  { apply file_ok_size; [apply Hio1|change (MAXFILE * BSIZE) with 71680; lia|]. intros k Hk1 Hk2. rewrite Esz in Hk2.
    pose proof (wt_full _ _ _ _ _ _ Hw (k * BSIZE) ltac:(lia)) as H. by rewrite Z.div_mul in H. }
  set (ip2 := set_i_size (off + n) ip1) in *. set (s2 := upd_inode i (set_i_size (off + n)) s1).
  assert (Hu2 : upd_fs s1 s2 i ip2).
  { unfold ip2. rewrite <- (io_ip _ _ _ _ _ _ Hio1). apply upd_inode_upd. }
  assert (Hio2 : inode_ok sbk ds s2 v1 i ip2).
  { destruct Hio1 as [A1 A2 A3 A4 A5]. split; try done; [|apply Hu2]. destruct A1 as [B1 B2 B3 B4 B5 B6]. by split. }
  assert (Hin2 : i_inum ip2 = i_inum ip) by (unfold ip2; by rewrite Eip).
  assert (Hh2 : IBLOCK (i_inum ip) sbk ∉ j_held v1) by (by rewrite (gr_held _ _ _ _ _ _ _ (wt_changed _ _ _ _ _ _ Hw))).
  pose proof Hio2 as [Hao2 Hip2 Hd2 _ _]. eapply wp_mono; [|apply (iupdate_spec sbk ds s2 v1 i ip2);
    [apply Hao2|apply Hao2|apply Hao2|done|done|by rewrite Hin2|by rewrite Hin2|done]]. intros u s3 [Hs3 Hsm3]. apply wp_ret. split; [done|].
  unfold iput_view in Hs3. rewrite Hin2 in Hs3. eexists _, ip2. eapply written_iput; try done; [lia|by eapply upd_trans].
Qed.

Lemma writei_spec dev_write s v i ip off src :
  let n := Z.of_nat (length src) in
  inode_ok sbk ds s v i ip → i_type ip ≠ T_DEV → 0 ≤ off ≤ i_size ip → off + n ≤ MAXFILE * BSIZE →
  0 ≤ i_inum ip < sb_ninodes sbk → IBLOCK (i_inum ip) sbk ∉ j_held v →
  j_room (5 * nblk off n + 1) v → avail sbk (j_cont v) (2 * nblk off n) →
  wp (writei dev_write i src off n) s (λ r s', r = n ∧ ∃ v' ip', wrote s v i ip off src s' v' ip').
Proof. intros n. by apply (writei_budget _ dev_write s v i ip off src budget_simple). Qed.
End rw.
