(* ===== verification/Fstrunc.v ===== *)
(** Truncating a file (src/fs.c): itrunc() frees the blocks of the file, all of
    them and no other. *)

From Stdlib Require Import ZArith Lia.
From stdpp Require Import base tactics numbers gmap strings functions list.
From S2P Require Import Prelude Memory Kstring Monitor Sleeplock Buf Journal Fs Fsblock Fsinode Fsfile Fsrw.

#[local] Open Scope Z_scope.

(** The blocks of the free map. *)
Definition bmaps (sbk : superblock) : gset Z :=
  list_to_set ((λ k, BBLOCK (k * BPB) sbk) <$> seqZ 0 ((sb_size sbk + BPB - 1) / BPB)).

Lemma BBLOCK_bmaps sbk b : 0 ≤ b < sb_size sbk → BBLOCK b sbk ∈ bmaps sbk.
Proof.
  intros Hb. unfold bmaps. apply elem_of_list_to_set, list_elem_of_fmap. exists (b / BPB). split.
  - unfold BBLOCK. by rewrite Z.div_mul.
  - apply elem_of_seqZ. change BPB with 4096 in *. zlia.
Qed.

(** The blocks [F] have been freed. *)
Record released (sbk : superblock) (ds : Z) (F : Z → Prop) (v v' : jview) : Prop := {
  rl_free x : 0 ≤ x < sb_size sbk → F x → bit sbk (j_cont v') x = false;
  rl_keep x : 0 ≤ x < sb_size sbk → ¬ F x → bit sbk (j_cont v') x = bit sbk (j_cont v) x;
  rl_other x : ¬ is_bmap sbk x → j_cont v' x = j_cont v x;
  rl_size : j_size v' = j_size v;
  rl_res : j_res v' = j_res v;
  rl_held : j_held v' = j_held v;
  rl_log : j_log v' ⊆ j_log v ∪ bmaps sbk;
  rl_ok : disk_ok sbk ds (j_cont v')
}.

(** [k] more blocks can be used besides the free map. *)
Definition b_room (sbk : superblock) (k : nat) (v : jview) : Prop :=
  (base.size (j_held v ∪ j_log v ∪ bmaps sbk) + k ≤ 28)%nat.

Lemma b_room_room sbk k v : b_room sbk k v → j_room k v.
Proof.
  unfold b_room, j_room. intros H. assert (base.size (j_held v ∪ j_log v) ≤ base.size (j_held v ∪ j_log v ∪ bmaps sbk))%nat; [|lia].
  apply subseteq_size. set_solver.
Qed.
Lemma b_room_released sbk ds k F v v' : released sbk ds F v v' → b_room sbk k v → b_room sbk k v'.
Proof.
  intros Hr. unfold b_room. rewrite (rl_held _ _ _ _ _ Hr). intros H. pose proof (rl_log _ _ _ _ _ Hr) as Hl.
  assert (base.size (j_held v ∪ j_log v' ∪ bmaps sbk) ≤ base.size (j_held v ∪ j_log v ∪ bmaps sbk))%nat; [|lia].
  apply subseteq_size. set_solver.
Qed.
Lemma b_room_hold sbk k b v : b_room sbk (S k) v → b_room sbk k (jhold b v).
Proof.
  unfold b_room. simpl. intros H.
  assert (base.size ({[b]} ∪ j_held v ∪ j_log v ∪ bmaps sbk) ≤ S (base.size (j_held v ∪ j_log v ∪ bmaps sbk)))%nat; [|lia].
  rewrite <- !(assoc_L (∪)), size_union_alt, size_singleton. apply le_n_S, subseteq_size. set_solver.
Qed.

Lemma released_nil sbk ds v : disk_ok sbk ds (j_cont v) → released sbk ds (λ _, False) v v.
Proof. intros Hd. split; try done. set_solver. Qed.

Lemma released_add sbk ds F v v1 v2 b :
  released sbk ds F v v1 → freed sbk ds v1 v2 b → 0 ≤ b < sb_size sbk → released sbk ds (λ x, F x ∨ x = b) v v2.
Proof.
  intros [R1 R2 R3 R4 R5 R6 R7 R8] [F1 F2 F3 F4 F5 F6 F7] Hb. split; try congruence; try done.
  - intros x Hx HF. rewrite F1 by done. case_decide; [done|]. destruct HF; [by apply R1|done].
  - intros x Hx HF. rewrite F1 by done. case_decide; [tauto|]. apply R2; tauto.
  - intros x Hx. by rewrite F2, R3.
  - rewrite F6. pose proof (BBLOCK_bmaps sbk b Hb). set_solver.
Qed.
Lemma released_ext sbk ds (F F' : Z → Prop) v v' : (∀ x, F x ↔ F' x) → released sbk ds F v v' → released sbk ds F' v v'.
Proof. intros HF []. split; try done; intros x Hx; rewrite <- HF; eauto. Qed.

Lemma released_trans sbk ds (F G : Z → Prop) v1 v2 v3 :
  released sbk ds F v1 v2 → released sbk ds G v2 v3 →
  released sbk ds (λ x, F x ∨ G x) v1 v3.
Proof.
  intros [R1 R2 R3 R4 R5 R6 R7 R8] [T1 T2 T3 T4 T5 T6 T7 T8]. split; try congruence; try done.
  - intros x Hx [HF|HG]; [|by apply T1]. destruct (bit sbk (j_cont v3) x) eqn:E; [|done].
    rewrite <- (R1 x Hx HF), <- (T2 x Hx); [done|]. intros HG. by rewrite T1 in E.
  - intros x Hx HFG. rewrite T2, R2 by tauto. done.
  - intros x Hx. by rewrite T3, R3.
  - set_solver.
Qed.
Lemma released_unhold sbk ds F v v1 b :
  b ∉ j_held v → released sbk ds F (jhold b v) v1 → j_mod v1 = ∅ →
  ∃ v1', v1 = jhold b v1' ∧ b ∉ j_held v1' ∧ released sbk ds F v v1'.
Proof.
  intros Hb [R1 R2 R3 R4 R5 R6 R7 R8] Hm. exists {| j_cont := j_cont v1; j_size := j_size v1;
    j_res := j_res v1; j_held := j_held v; j_log := j_log v1; j_mod := ∅ |}.
  split_and!; try done. by apply jview_eq.
Qed.

Lemma truth_nz x : truth x = true → x ≠ 0.
Proof. unfold truth. by destruct (Z.eqb_spec x 0). Qed.
Lemma truth_z x : truth x = false → x = 0.
Proof. unfold truth. by destruct (Z.eqb_spec x 0). Qed.

Section trunc.
Context {S : Type} `{!Blocks S, !BlocksSpec S}.
Abbreviation fsst := (@fsst S).
Context (sbk : superblock) (ds : Z).

Lemma alloc_ok_released F s s' v v' :
  alloc_ok sbk ds s v → released sbk ds F v v' → shows s' v' → sb s' = sb s → (∀ x, x ∈ j_held v → ¬ F x) →
  alloc_ok sbk ds s' v'.
Proof.
  intros [A1 A2 A3 A4 A5 A6] Hr Hs E HF. split; try done.
  - by rewrite E.
  - eapply layout_same; [exact A3|apply (rl_size _ _ _ _ _ Hr)|apply (rl_res _ _ _ _ _ Hr)].
  - apply Hr.
  - intros x Hx. rewrite (rl_held _ _ _ _ _ Hr). by apply A5.
  - rewrite (rl_held _ _ _ _ _ Hr). intros x Hx. destruct (A6 x Hx). split; [done|].
    rewrite (rl_keep _ _ _ _ _ Hr); [done|done|by apply HF].
Qed.

(** One call of bfree after the blocks [F] have been freed. *)
Lemma bfree_next F s s1 v v1 b :
  alloc_ok sbk ds s v → released sbk ds F v v1 → shows s1 v1 → sb s1 = sb s → (∀ x, x ∈ j_held v → ¬ F x) →
  ds ≤ b < sb_size sbk → bit sbk (j_cont v) b = true → ¬ F b → 1 ∉ j_held v → b_room sbk 1 v →
  wp (bfree ROOTDEV b) s1 (λ _ s2, ∃ v2, released sbk ds (λ x, F x ∨ x = b) v v2 ∧ shows s2 v2 ∧ same_fs s1 s2 ∧
    ∀ j c, fholds s1 j c → fholds s2 j c).
Proof.
  intros Hao Hr Hs1 E HF Hb Hbit HFb H1 Hroom. pose proof (ly_ds _ _ _ (ao_layout _ _ _ _ Hao)).
  eapply wp_mono; [|apply (bfree_spec sbk ds s1 v1 b)].
  - intros u s2 (v2&Hfr&Hs2&Hsm&Hho). exists v2. split_and!; try done. eapply released_add; [done|done|lia].
  - by eapply alloc_ok_released.
  - done.
  - rewrite (rl_keep _ _ _ _ _ Hr); [done|lia|done].
  - by rewrite (rl_held _ _ _ _ _ Hr).
  - by eapply b_room_room, b_room_released.
Qed.

Definition with_addrs (f : Z → Z) (ip : inode) : inode :=
  {| i_dev := i_dev ip; i_inum := i_inum ip; i_ref := i_ref ip; i_lock := i_lock ip; i_valid := i_valid ip;
     i_type := i_type ip; i_major := i_major ip; i_minor := i_minor ip; i_nlink := i_nlink ip; i_size := i_size ip;
     i_addrs := f |}.

(** The first [k] direct blocks. *)
Definition firsts_of (ip : inode) (k : Z) (x : Z) : Prop := x ≠ 0 ∧ ∃ j, 0 ≤ j < k ∧ x = i_addrs ip j.

Lemma direct_slot c ip j : 0 ≤ j < NDIRECT → slot c ip j = i_addrs ip j.
Proof. intros Hj. unfold slot. by rewrite (proj2 (Z.ltb_lt j NDIRECT)) by lia. Qed.
Lemma direct_fblock j : 0 ≤ j < NDIRECT → fblock j.
Proof. unfold fblock. change MAXFILE with 140. unfold NDIRECT. lia. Qed.
Lemma firsts_owned c ip k x : k ≤ NDIRECT → firsts_of ip k x → owned c ip x.
Proof.
  intros Hk (Hx&j&Hj&->). split; [done|right]. exists j. split; [apply direct_fblock; lia|].
  by rewrite direct_slot by lia.
Qed.

Lemma directs_S ip k x :
  firsts_of ip (Z.of_nat (Datatypes.S k)) x ↔ firsts_of ip (Z.of_nat k) x ∨ (x ≠ 0 ∧ x = i_addrs ip (Z.of_nat k)).
Proof.
  unfold firsts_of. split.
  - intros (Hx&j&Hj&->). destruct (decide (j = Z.of_nat k)) as [->|]; [by right|left].
    split; [done|]. exists j. split; [lia|done].
  - intros [(Hx&j&Hj&->)|[Hx ->]]; (split; [done|]); eexists; (split; [|reflexivity]); lia.
Qed.

(** The loop over the direct blocks. *)
Lemma itrunc_direct s v i ip :
  inode_ok sbk ds s v i ip → 1 ∉ j_held v → b_room sbk 1 v →
  wp (for_each (seqZ 0 NDIRECT) (λ k, gets (λ s, icache s i) ≫= λ ip,
    when (truth (i_addrs ip k)) (bfree (i_dev ip) (i_addrs ip k) ≫= λ _, modify (upd_inode i (set_i_addr k 0))))) s
  (λ _ s', ∃ v' f, released sbk ds (firsts_of ip NDIRECT) v v' ∧ shows s' v' ∧ upd_fs s s' i (with_addrs f ip) ∧
    ∀ j, f j = if decide (0 ≤ j < NDIRECT) then 0 else i_addrs ip j).
Proof.
  intros Hio H1 Hroom. pose proof Hio as [Hao Hip Hd Hf Hh].
  eapply wp_mono; [|apply (wp_for_seq _ (λ k s', ∃ v' f, released sbk ds (firsts_of ip (Z.of_nat k)) v v' ∧ shows s' v' ∧
    upd_fs s s' i (with_addrs f ip) ∧ ∀ j, f j = if decide (0 ≤ j < Z.of_nat k) then 0 else i_addrs ip j))].
  - intros u s'. by change (Z.of_nat (Z.to_nat NDIRECT)) with NDIRECT.
  - exists v, (i_addrs ip). split_and!; try apply Hao.
    + eapply released_ext; [|apply released_nil, Hao]. intros x. split; [done|]. intros (_&j&?&_). lia.
    + replace (with_addrs (i_addrs ip) ip) with ip by (by destruct ip). rewrite <- Hip. by apply upd_same.
    + intros j. rewrite decide_False by lia. done.
  - intros k s1 Hk (v1&f&Hr&Hs1&Hu1&Hf1). apply wp_bind. unfold wp at 1, gets at 1.
    destruct Hu1 as (U1&U2&U3&U4) eqn:EU; clear EU. rewrite U2. cbn [i_addrs i_dev with_addrs].
    rewrite Hf1, decide_False by lia. rewrite Hd.
    destruct (truth (i_addrs ip (Z.of_nat k))) eqn:Et.
    + apply truth_nz in Et. cbn [when]. apply wp_bind. set (b := i_addrs ip (Z.of_nat k)) in *.
      assert (Hob : owned (j_cont v) ip b).
      { apply (firsts_owned _ _ (Z.of_nat k + 1)); [lia|]. split; [done|]. exists (Z.of_nat k). split; [lia|done]. }
      destruct (owned_block sbk ds s v i ip b Hio Hob) as (B1&B2&B3&B4&B5&B6&B7).
      eapply wp_mono; [|apply (bfree_next (firsts_of ip (Z.of_nat k)) s s1 v v1 b); try done; [|lia|]].
      * intros u s2 (v2&Hr2&Hs2&Hsm2&_). unfold wp, modify. exists v2, (<[Z.of_nat k := 0]> f). split_and!.
        -- eapply released_ext; [|exact Hr2]. intros x. rewrite directs_S. unfold b in *. naive_solver.
        -- done.
        -- eapply upd_trans; [by split_and!|]. eapply upd_trans; [by apply upd_same|].
           replace (with_addrs (<[Z.of_nat k := 0]> f) ip) with (set_i_addr (Z.of_nat k) 0 (icache s2 i)); [apply upd_inode_upd|].
           destruct Hsm2 as (_&->&_). by rewrite U2.
        -- intros j. unfold insert, fn_insert. rewrite Hf1. repeat case_decide; try done; lia.
      * intros x Hx HF. apply (firsts_owned (j_cont v)) in HF; [|lia]. by apply (Hh x).
      * intros (_&j&Hj&E). assert (Ej : Z.of_nat k = j); [|lia].
        apply (fo_inj _ _ _ _ Hf); [apply direct_fblock; lia|apply direct_fblock; lia|..]; by rewrite !direct_slot by lia.
    + apply truth_z in Et. cbn [when]. apply wp_ret. exists v1, f. split_and!; try done.
      * eapply released_ext; [|exact Hr]. intros x. rewrite directs_S, Et. naive_solver.
      * intros j. rewrite Hf1. repeat case_decide; try done; [lia|]. by replace j with (Z.of_nat k) by lia.
Qed.

(** The first [k] blocks in the indirect block with content [d]. *)
Definition firsts_in (d : mem) (k : Z) (x : Z) : Prop := x ≠ 0 ∧ ∃ j, 0 ≤ j < k ∧ x = rd32 d (4 * j).

Lemma firsts_in_S d k x :
  firsts_in d (Z.of_nat (Datatypes.S k)) x ↔ firsts_in d (Z.of_nat k) x ∨ (x ≠ 0 ∧ x = rd32 d (4 * Z.of_nat k)).
Proof.
  unfold firsts_in. split.
  - intros (Hx&j&Hj&->). destruct (decide (j = Z.of_nat k)) as [->|]; [by right|left].
    split; [done|]. exists j. split; [lia|done].
  - intros [(Hx&j&Hj&->)|[Hx ->]]; (split; [done|]); eexists; (split; [|reflexivity]); lia.
Qed.

(** What the loop over an indirect block needs: the blocks in it are data blocks
    in use, distinct, and not held. *)
Record ind_ok (v : jview) (ind : Z) : Prop := {
  in_range : ds ≤ ind < sb_size sbk;
  in_use : bit sbk (j_cont v) ind = true;
  in_held : ind ∉ j_held v;
  in_blocks x : firsts_in (j_cont v ind) NINDIRECT x →
    ds ≤ x < sb_size sbk ∧ bit sbk (j_cont v) x = true ∧ x ∉ j_held v ∧ x ≠ ind;
  in_inj j k : 0 ≤ j < NINDIRECT → 0 ≤ k < NINDIRECT → rd32 (j_cont v ind) (4 * j) ≠ 0 →
    rd32 (j_cont v ind) (4 * j) = rd32 (j_cont v ind) (4 * k) → j = k
}.

Lemma itrunc_indirect s s1 v bp ind :
  alloc_ok sbk ds s (jhold ind v) → ind_ok v ind → 1 ∉ j_held v → b_room sbk 1 (jhold ind v) → 1 < ds →
  shows s1 (jhold ind v) → same_fs s s1 → fholds s1 bp ind →
  wp (for_each (seqZ 0 NINDIRECT) (λ j, on_blk (b_data bp) ≫= λ x,
    when (truth (rd32 x (4 * j))) (bfree ROOTDEV (rd32 x (4 * j))))) s1
  (λ _ s', ∃ v', released sbk ds (firsts_in (j_cont v ind) NINDIRECT) (jhold ind v) v' ∧ shows s' v' ∧ same_fs s s' ∧
    fholds s' bp ind).
Proof.
  intros Hao [I1 I2 I3 I4 I5] H1 Hroom Hds Hs1 Hsm1 Hb1. set (vh := jhold ind v) in *.
  assert (Hnb : ¬ is_bmap sbk ind).
  { intros Hb. pose proof (is_bmap_meta sbk ds vh ind (ao_layout _ _ _ _ Hao) Hb). lia. }
  eapply wp_mono; [|apply (wp_for_seq _ (λ k s', ∃ v', released sbk ds (firsts_in (j_cont v ind) (Z.of_nat k)) vh v' ∧
    shows s' v' ∧ same_fs s s' ∧ fholds s' bp ind))].
  - intros u s'. by change (Z.of_nat (Z.to_nat NINDIRECT)) with NINDIRECT.
  - exists vh. split_and!; try done. eapply released_ext; [|apply released_nil, Hao].
    intros x. split; [done|]. intros (_&j&?&_). lia.
  - intros k s2 Hk (v2&Hr&Hs2&Hsm2&Hb2). apply wp_bind. eapply fs_bdata; [apply Hs2|done|]. intros s3 E3 Hsm3.
    rewrite (rl_other _ _ _ _ _ Hr) by done. change (j_cont vh ind) with (j_cont v ind).
    assert (Hs3 : shows s3 v2) by (by eapply shows_same). assert (Hb3 : fholds s3 bp ind) by (unfold fholds; by rewrite E3).
    assert (Hsm03 : same_fs s s3) by (by etrans). clear E3 Hsm3.
    set (b := rd32 (j_cont v ind) (4 * Z.of_nat k)). destruct (truth b) eqn:Et.
    + apply truth_nz in Et. cbn [when]. destruct (I4 b) as (B1&B2&B3&B4).
      { split; [done|]. exists (Z.of_nat k). split; [lia|done]. }
      eapply wp_mono; [|apply (bfree_next (firsts_in (j_cont v ind) (Z.of_nat k)) s s3 vh v2 b); try done; [apply Hsm03|..]].
      * intros u s4 (v4&Hr4&Hs4&Hsm4&Hb4). exists v4. split_and!; [|done|by etrans|by apply Hb4].
        eapply released_ext; [|exact Hr4]. intros x. rewrite firsts_in_S. fold b. naive_solver.
      * simpl. intros x Hx (Hx0&j&Hj&Ex). destruct (I4 x) as (_&_&X3&X4); [|set_solver].
        split; [done|]. exists j. split; [lia|done].
      * intros (_&j&Hj&E). assert (Z.of_nat k = j); [|lia]. by apply I5; [lia|lia| |].
      * simpl. apply not_elem_of_union. split; [|done]. apply not_elem_of_singleton. lia.
    + apply truth_z in Et. cbn [when]. apply wp_ret. exists v2. split_and!; try done.
      eapply released_ext; [|exact Hr]. intros x. rewrite firsts_in_S. fold b. naive_solver.
Qed.

(** The indirect block and the blocks in it. *)
Lemma itrunc_second {A} (k : unit → K fsst A) s v ind (Q : A → fsst → Prop) :
  alloc_ok sbk ds s v → ind_ok v ind → 1 ∉ j_held v → b_room sbk 2 v →
  (∀ s' v', released sbk ds (λ x, firsts_in (j_cont v ind) NINDIRECT x ∨ x = ind) v v' → shows s' v' →
     same_fs s s' → wp (k tt) s' Q) →
  wp (on_blk (b_read ROOTDEV ind) ≫= λ bp,
      for_each (seqZ 0 NINDIRECT) (λ j, on_blk (b_data bp) ≫= λ x,
        when (truth (rd32 x (4 * j))) (bfree ROOTDEV (rd32 x (4 * j)))) ≫= λ _,
      on_blk (b_relse bp) ≫= λ _, bfree ROOTDEV ind ≫= k) s Q.
Proof.
  intros Hao Hin H1 Hroom HQ. pose proof Hin as [I1 I2 I3 I4 I5]. pose proof (ao_layout _ _ _ _ Hao) as Hl.
  pose proof (ly_ds _ _ _ Hl). pose proof (ly_size _ _ _ Hl).
  assert (Hnb : ¬ is_bmap sbk ind) by (intros Hb; pose proof (is_bmap_meta sbk ds v ind Hl Hb); lia).
  pose proof (b_room_hold sbk 1 ind v Hroom) as Hroom1.
  apply wp_bind. eapply (fs_bread s v ind); [apply Hao|lia|by apply (ly_data _ _ _ Hl)|done| |].
  { right. apply (b_room_room sbk). unfold b_room in *. lia. }
  intros bp s1 Hs1 Hb1 Hsm1 _.
  assert (Hao1 : alloc_ok sbk ds s1 (jhold ind v)) by (eapply alloc_ok_hold; try done; [apply Hsm1|lia]).
  apply wp_bind. eapply wp_mono; [|apply (itrunc_indirect s1 s1 v bp ind); try done; lia].
  intros u s2 (v2&Hr2&Hs2&Hsm2&Hb2).
  destruct (released_unhold sbk ds _ v v2 ind I3 Hr2 (proj2 Hs2)) as (v3&->&I3'&Hr3).
  apply wp_bind. eapply (fs_brelse s2 v3 bp ind); [done|done|done|]. intros s3 Hs3 Hsm3 _.
  assert (Hsm03 : same_fs s s3) by (do 2 (etrans; [eassumption|]); done).
  apply wp_bind. eapply wp_mono; [|apply (bfree_next (firsts_in (j_cont v ind) NINDIRECT) s s3 v v3 ind); try done;
    [apply Hsm03|..]].
  - intros [] s4 (v4&Hr4&Hs4&Hsm4&_). eapply HQ; [exact Hr4|done|by etrans].
  - intros x Hx HF. by destruct (I4 x HF) as (_&_&?&_).
  - intros HF. by destruct (I4 ind HF) as (_&_&_&?).
  - unfold b_room in *. lia.
Qed.

(** The file [ip] has been emptied. *)
Record truncated (s : fsst) (v : jview) (i : nat) (ip : inode) (s' : fsst) (v' : jview) (ip' : inode) : Prop := {
  tc_ip : ∃ f, ip' = set_i_size 0 (with_addrs f ip) ∧ ∀ k, 0 ≤ k ≤ NDIRECT → f k = 0;
  tc_free x : owned (j_cont v) ip x → bit sbk (j_cont v') x = false;
  tc_keep x : 0 ≤ x < sb_size sbk → ¬ owned (j_cont v) ip x → bit sbk (j_cont v') x = bit sbk (j_cont v) x;
  tc_other x : ¬ is_bmap sbk x → x ≠ IBLOCK (i_inum ip) sbk → j_cont v' x = j_cont v x;
  tc_inode : same_inode ip' (load_inode (j_cont v' (IBLOCK (i_inum ip) sbk)) (i_inum ip mod IPB * DINODE) ip');
  tc_held : j_held v' = j_held v;
  tc_log : j_log v' ⊆ j_log v ∪ bmaps sbk ∪ {[IBLOCK (i_inum ip) sbk]};
  tc_shows : shows s' v';
  tc_cache : upd_fs s s' i ip'
}.

(** The blocks of a file, as itrunc goes through them. *)
Lemma owned_cases c ip x :
  owned c ip x ↔ firsts_of ip NDIRECT x ∨
    (indirect ip ≠ 0 ∧ (firsts_in (c (indirect ip)) NINDIRECT x ∨ x = indirect ip)).
Proof.
  assert (Hind : ∀ k, NDIRECT ≤ k → indirect ip ≠ 0 → slot c ip k = rd32 (c (indirect ip)) (4 * (k - NDIRECT))).
  { intros k Hk Hi. unfold slot. by rewrite (proj2 (Z.ltb_ge k NDIRECT)), (proj2 (Z.eqb_neq _ _) Hi). }
  split.
  - intros [Hx [->|(k&Hk&->)]]; [right; split; [done|by right]|]. unfold fblock, MAXFILE in Hk.
    destruct (Z.lt_ge_cases k NDIRECT) as [Hlt|Hge].
    + left. split; [done|]. exists k. split; [lia|]. apply direct_slot. lia.
    + right. assert (Hi : indirect ip ≠ 0).
      { intros E. apply Hx. unfold slot. by rewrite (proj2 (Z.ltb_ge k NDIRECT)), E by done. }
      split; [done|left; split; [done|]]. exists (k - NDIRECT). split; [lia|by apply Hind].
  - intros [H|[Hi [(Hx&j&Hj&->)| ->]]]; [by eapply firsts_owned| |split; [done|by left]].
    split; [done|right]. exists (j + NDIRECT). unfold fblock, MAXFILE. unfold NDIRECT at 1 in Hind.
    split; [unfold NDIRECT; lia|]. rewrite Hind by (unfold NDIRECT; lia || done). do 2 f_equal. lia.
Qed.

(** After the direct blocks have been freed the indirect block is as it was. *)
Lemma ind_ok_released s v v1 i ip :
  inode_ok sbk ds s v i ip → indirect ip ≠ 0 → released sbk ds (firsts_of ip NDIRECT) v v1 →
  ind_ok v1 (indirect ip) ∧ j_cont v1 (indirect ip) = j_cont v (indirect ip).
Proof.
  intros Hio Hi Hr. pose proof (io_file _ _ _ _ _ _ Hio) as Hf.
  assert (Ho : owned (j_cont v) ip (indirect ip)) by (apply owned_cases; right; split; [done|by right]).
  destruct (owned_block sbk ds s v i ip _ Hio Ho) as (B1&B2&B3&B4&B5&B6&B7).
  assert (Ec : j_cont v1 (indirect ip) = j_cont v (indirect ip)) by (by apply (rl_other _ _ _ _ _ Hr)).
  assert (Hsl : ∀ j, 0 ≤ j < NINDIRECT → fblock (j + NDIRECT) ∧
    slot (j_cont v) ip (j + NDIRECT) = rd32 (j_cont v (indirect ip)) (4 * j)).
  { intros j Hj. assert (Hfb : fblock (j + NDIRECT)) by (unfold fblock, MAXFILE, NDIRECT; lia). split; [done|].
    rewrite slot_indirect by (try done; unfold NDIRECT; lia). do 2 f_equal. lia. }
  assert (Hns : ∀ k, NDIRECT ≤ k → fblock k → slot (j_cont v) ip k ≠ 0 → ¬ firsts_of ip NDIRECT (slot (j_cont v) ip k)).
  { intros k Hk Hfk H0 (_&j&Hj&E). assert (k = j); [|lia].
    apply (fo_inj _ _ _ _ Hf); [done|by apply direct_fblock|done|]. by rewrite (direct_slot _ _ j). }
  split; [|done]. split; rewrite ?Ec.
  - lia.
  - rewrite (rl_keep _ _ _ _ _ Hr); [done|lia|]. intros (_&j&Hj&E).
    apply (fo_ind _ _ _ _ Hf j); [by apply direct_fblock|..]; rewrite direct_slot by done; congruence.
  - by rewrite (rl_held _ _ _ _ _ Hr).
  - intros x (Hx&j&Hj&Ex). destruct (Hsl j Hj) as [Hfb Es]. rewrite <- Es in Ex. subst x.
    assert (Hox : owned (j_cont v) ip (slot (j_cont v) ip (j + NDIRECT))) by (split; [done|right]; by exists (j + NDIRECT)).
    destruct (owned_block sbk ds s v i ip _ Hio Hox) as (X1&X2&X3&X4&X5&X6&X7). split_and!; try lia.
    + rewrite (rl_keep _ _ _ _ _ Hr); [done|lia|]. apply Hns; [unfold NDIRECT; lia|done|done].
    + by rewrite (rl_held _ _ _ _ _ Hr).
    + by apply (fo_ind _ _ _ _ Hf).
  - intros j k Hj Hk. destruct (Hsl j Hj) as [Fj <-], (Hsl k Hk) as [Fk <-]. intros H0 E.
    pose proof (fo_inj _ _ _ _ Hf _ _ Fj Fk H0 E). lia.
Qed.

(** The end of itrunc. *)
Lemma itrunc_end s s2 v v2 i ip f :
  inode_ok sbk ds s v i ip → inode_fits ip → 0 ≤ i_inum ip < sb_ninodes sbk → IBLOCK (i_inum ip) sbk ∉ j_held v →
  b_room sbk 1 v → released sbk ds (owned (j_cont v) ip) v v2 → shows s2 v2 → upd_fs s s2 i (with_addrs f ip) →
  (∀ k, 0 ≤ k ≤ NDIRECT → f k = 0) →
  wp (modify (upd_inode i (set_i_size 0)) ≫= λ _, iupdate i) s2 (λ _ s', ∃ v' ip', truncated s v i ip s' v' ip').
Proof.
  intros Hio [T1 T2 T3 T4 T5 T6] Hin Hih Hroom Hr Hs2 Hu Hf0. pose proof Hio as [Hao Hip Hd Hf Hh].
  apply wp_bind. unfold wp at 1, modify at 1. set (ip' := set_i_size 0 (with_addrs f ip)).
  assert (Hu' : upd_fs s (upd_inode i (set_i_size 0) s2) i ip').
  { eapply upd_trans; [exact Hu|]. unfold ip'. destruct Hu as (_&<-&_). apply upd_inode_upd. }
  assert (Hl2 : layout sbk ds v2).
  { eapply layout_same; [apply Hao|apply (rl_size _ _ _ _ _ Hr)|apply (rl_res _ _ _ _ _ Hr)]. }
  destruct (IBLOCK_range sbk ds v2 _ Hl2 Hin) as (_&_&_&Hnb).
  eapply wp_mono; [|apply (iupdate_spec sbk ds _ v2 i ip')]; try done.
  - intros u s3 [Hs3 Hsm3]. eexists _, ip'. unfold iput_view in Hs3. cbn [i_inum ip' set_i_size with_addrs] in Hs3. split; try exact Hs3.
    + by exists f.
    + intros x Hx. destruct (owned_block sbk ds s v i ip x Hio Hx) as (?&?&?&_). simpl.
      rewrite (bit_iput sbk ds) by (try done; lia). apply (rl_free _ _ _ _ _ Hr); [lia|done].
    + intros x Hx Hno. simpl. rewrite (bit_iput sbk ds) by done. by apply (rl_keep _ _ _ _ _ Hr).
    + intros x Hx Hne. simpl. rewrite fn_lookup_insert_ne by done. by apply (rl_other _ _ _ _ _ Hr).
    + simpl. rewrite fn_lookup_insert. apply load_store. split; try done. intros k Hk. simpl. rewrite Hf0 by done. done.
    + apply (rl_held _ _ _ _ _ Hr).
    + simpl. pose proof (rl_log _ _ _ _ _ Hr). set_solver.
    + destruct Hsm3 as (E1&E2&E3), Hu' as (U1&U2&U3&U4). split_and!; try congruence. intros j Hj. rewrite E2. by apply U3.
  - simpl. destruct Hu as (-> & _). apply Hao.
  - apply Hu'.
  - by rewrite (rl_held _ _ _ _ _ Hr).
  - by eapply b_room_room, b_room_released.
Qed.

Lemma itrunc_spec s v i ip :
  inode_ok sbk ds s v i ip → inode_fits ip → 0 ≤ i_inum ip < sb_ninodes sbk → IBLOCK (i_inum ip) sbk ∉ j_held v →
  1 ∉ j_held v → b_room sbk 2 v →
  wp (itrunc i) s (λ _ s', ∃ v' ip', truncated s v i ip s' v' ip').
Proof.
  intros Hio Hfit Hin Hih H1 Hroom. pose proof Hio as [Hao Hip Hd Hf Hh].
  assert (Hroom1 : b_room sbk 1 v) by (unfold b_room in *; lia).
  unfold itrunc. apply wp_bind. eapply wp_mono; [|by apply (itrunc_direct s v i ip)].
  intros u s1 (v1&f&Hr1&Hs1&Hu1&Hf1). apply wp_bind. unfold wp at 1, gets at 1.
  pose proof Hu1 as (U1&U2&U3&U4). rewrite U2. cbn [i_addrs i_dev with_addrs].
  rewrite Hf1, decide_False by lia. rewrite Hd. fold (indirect ip). apply wp_bind.
  destruct (truth (indirect ip)) eqn:Et; cbn [when].
  - apply truth_nz in Et. destruct (ind_ok_released s v v1 i ip Hio Et Hr1) as [Hind Ec].
    assert (Hao1 : alloc_ok sbk ds s1 v1).
    { eapply (alloc_ok_released (firsts_of ip NDIRECT) s); try done. intros x Hx HF.
      apply (Hh x); [by eapply firsts_owned|done]. }
    apply (itrunc_second _ s1 v1); try done; [by rewrite (rl_held _ _ _ _ _ Hr1)|by eapply b_room_released|].
    intros s2 v2 Hr2 Hs2 Hsm2. unfold wp at 1, modify at 1.
    apply (itrunc_end s (upd_inode i (set_i_addr NDIRECT 0) s2) v v2 i ip (<[NDIRECT := 0]> f)); try done.
    + eapply released_ext; [|by eapply released_trans]. intros x. rewrite owned_cases, Ec. tauto.
    + eapply upd_trans; [exact Hu1|]. eapply upd_trans; [by apply upd_same|].
      replace (with_addrs (<[NDIRECT := 0]> f) ip) with (set_i_addr NDIRECT 0 (icache s2 i)); [apply upd_inode_upd|].
      destruct Hsm2 as (_&->&_). by rewrite U2.
    + intros k Hk. unfold insert, fn_insert. rewrite Hf1. repeat case_decide; try done; lia.
  - apply truth_z in Et. apply wp_ret. apply (itrunc_end s s1 v v1 i ip f); try done.
    + eapply released_ext; [|exact Hr1]. intros x. rewrite owned_cases. tauto.
    + intros k Hk. rewrite Hf1. case_decide; [done|]. replace k with NDIRECT by lia. done.
Qed.
End trunc.
