(* ===== verification/Fsdir.v ===== *)
(** The inode cache, directories and paths (src/fs.c): iget(), dirlookup(),
    dirlink() and skipelem(). *)

From Stdlib Require Import ZArith Lia.
From stdpp Require Import base tactics numbers gmap strings functions list.
From S2P Require Import Prelude Memory Kstring Monitor Sleeplock Buf Journal Fs Fsblock Fsinode Fsfile Fsrw.

#[local] Open Scope Z_scope.

(** ** The inode cache *)

Definition used_for (ip : inode) (d n : Z) : Prop := 0 < i_ref ip ∧ i_dev ip = d ∧ i_inum ip = n.

#[export] Instance used_for_dec ip d n : Decision (used_for ip d n).
Proof. unfold used_for. apply _. Defined.

(** No two entries in use are for the same inode. *)
Definition icache_ok (c : nat → inode) : Prop :=
  (∀ i, (i < NINODE)%nat → 0 ≤ i_ref (c i)) ∧
  ∀ i j d n, (i < NINODE)%nat → (j < NINODE)%nat → used_for (c i) d n → used_for (c j) d n → i = j.

(** There is an entry for the inode, or a free one. *)
Definition icache_room (c : nat → inode) (d n : Z) : Prop :=
  ∃ i, (i < NINODE)%nat ∧ (used_for (c i) d n ∨ i_ref (c i) = 0).

Lemma iget_scan_spec c d n js e :
  match iget_scan c d n js e with
  | inl i => i ∈ js ∧ used_for (c i) d n
  | inr o => (∀ i, i ∈ js → ¬ used_for (c i) d n) ∧
      (e = None → match o with Some i => i ∈ js ∧ i_ref (c i) = 0 | None => ∀ i, i ∈ js → i_ref (c i) ≠ 0 end) ∧
      (e ≠ None → o = e)
  end.
Proof.
  revert e. induction js as [|j js IH]; intros e; simpl.
  - split_and!; [set_solver| |done]. intros ->. set_solver.
  - assert (Hu : (0 <? i_ref (c j)) && (i_dev (c j) =? d) && (i_inum (c j) =? n) = true ↔ used_for (c j) d n).
    { unfold used_for. rewrite !andb_true_iff, Z.ltb_lt, !Z.eqb_eq. tauto. }
    destruct (_ && _); [split; [set_solver|by apply Hu]|]. assert (Hn : ¬ used_for (c j) d n) by (rewrite <- Hu; done).
    specialize (IH (match e with Some _ => e | None => if i_ref (c j) =? 0 then Some j else None end)).
    destruct (iget_scan c d n js _) as [i|o]; [set_solver|]. destruct IH as (I1&I2&I3).
    split_and!; [set_solver| |].
    + intros ->. destruct (Z.eqb_spec (i_ref (c j)) 0); [rewrite I3 by done; set_solver|].
      specialize (I2 eq_refl). destruct o; set_solver.
    + destruct e; [|done]. intros _. by apply I3.
Qed.

Section iget.
Context {S : Type} `{!Blocks S}.
Abbreviation fsst := (@fsst S).

(** iget takes one more reference to the entry of the inode, which is the only
    one and is made if there is none. *)
Lemma iget_spec (s : fsst) d n :
  icache_ok (icache s) → icache_room (icache s) d n →
  wp (iget d n) s (λ i s', (i < NINODE)%nat ∧ icache_ok (icache s') ∧ used_for (icache s' i) d n ∧
    blk s' = blk s ∧ sb s' = sb s ∧ fs_pid s' = fs_pid s ∧ (∀ j, j ≠ i → icache s' j = icache s j) ∧
    icache s' i = (if decide (used_for (icache s i) d n) then set_i_ref (i_ref (icache s i) + 1) (icache s i)
                   else new_inode d n (icache s i)) ∧
    (used_for (icache s i) d n ∨ i_ref (icache s i) = 0)).
Proof.
  intros [Hpos Huq] (i0&Hi0&Hroom). unfold iget. apply wp_bind. unfold wp at 1, gets at 1.
  pose proof (iget_scan_spec (icache s) d n (seq 0 NINODE) None) as Hscan.
  assert (Hseq : ∀ i, i ∈ seq 0 NINODE ↔ (i < NINODE)%nat) by (intros i; rewrite elem_of_seq; lia).
  destruct (iget_scan _ d n _ None) as [i|[i|]].
  - destruct Hscan as [Hi%Hseq Hu]. apply wp_bind. unfold wp at 1, modify at 1. apply wp_ret. simpl.
    assert (Ei : <[i := set_i_ref (i_ref (icache s i) + 1) (icache s i)]> (icache s) i =
      set_i_ref (i_ref (icache s i) + 1) (icache s i)) by apply fn_lookup_insert.
    pose proof Hu as (U1&U2&U3).
    split; [done|]. split; [split|split; [|do 3 (split; [done|]); split]].
    + intros j Hj. unfold insert, fn_insert. case_decide; [simpl; lia|by apply Hpos].
    + intros j k d' n' Hj Hk. unfold insert, fn_insert.
      assert (Hs : ∀ j, used_for (if decide (i = j) then set_i_ref (i_ref (icache s i) + 1) (icache s i) else icache s j) d' n' →
        used_for (icache s j) d' n').
      { intros j'. case_decide as E; [|done]. subst j'. unfold used_for. simpl. naive_solver. }
      intros H1%Hs H2%Hs. by eapply Huq.
    + rewrite Ei. split_and!; try done. simpl. lia.
    + intros j Hj. by apply fn_lookup_insert_ne.
    + split; [by rewrite Ei, decide_True|by left].
  - destruct Hscan as (H1&H2&_). destruct (H2 eq_refl) as [Hi%Hseq Hr]. apply wp_bind. unfold wp at 1, modify at 1.
    apply wp_ret. simpl.
    assert (Ei : <[i := new_inode d n (icache s i)]> (icache s) i = new_inode d n (icache s i)) by apply fn_lookup_insert.
    split; [done|]. split; [split|split; [|do 3 (split; [done|]); split]].
    + intros j Hj. unfold insert, fn_insert. case_decide; [simpl; lia|by apply Hpos].
    + intros j k d' n' Hj Hk. unfold insert, fn_insert. repeat case_decide; subst; try done.
      * unfold used_for at 1. simpl. intros (_&<-&<-) Hu. destruct (H1 k); [by apply Hseq|done].
      * unfold used_for at 2. simpl. intros Hu (_&<-&<-). destruct (H1 j); [by apply Hseq|done].
      * by apply Huq.
    + by rewrite Ei.
    + intros j Hj. by apply fn_lookup_insert_ne.
    + split; [|by right]. rewrite Ei, decide_False; [done|]. intros (?&_). lia.
  - destruct Hscan as (H1&H2&_). specialize (H2 eq_refl). destruct Hroom as [Hu|Hr]; [by destruct (H1 i0); [apply Hseq|]|].
    destruct (H2 i0); [by apply Hseq|done].
Qed.
End iget.

(** ** Directories *)

(** Entry [k] of a directory, and whether it is for [name]. *)
Definition dent (c : Z → mem) (ip : inode) (k : Z) : list Z := fbytes c ip (DIRENT * k) DIRENT.
Definition dmatch (c : Z → mem) (ip : inode) (name : list Z) (k : Z) : bool :=
  negb (de_inum (dent c ip k) =? 0) && (namecmp name (de_name (dent c ip k)) =? 0).
Definition nents (ip : inode) : Z := i_size ip / DIRENT.

(** A name as a C string: bytes other than NUL. *)
Definition is_name (l : list Z) : Prop := Forall (λ c, 0 < c < 256) l.

Lemma length_strncpy_bytes t n : length (strncpy_bytes t n) = n.
Proof.
  revert t. induction n as [|n IH]; intros t; [by destruct t|]. destruct t as [|c t]; simpl; [by rewrite length_replicate|].
  destruct (c =? 0); simpl; [by rewrite length_replicate|by rewrite IH].
Qed.
(** A name is found under the bytes that are stored for it. *)
Lemma strncmp_strncpy t n : is_name t → strncmp_bytes t (strncpy_bytes t n) n = 0.
Proof.
  revert t. induction n as [|n IH]; intros t Ht; [by destruct t|]. destruct t as [|c t]; [done|].
  inversion Ht as [|? ? Hc Ht']; subst. cbn -[Z.eqb u8]. rewrite (proj2 (Z.eqb_neq c 0)) by lia. cbn -[Z.eqb u8].
  rewrite Z.eqb_refl. by apply IH.
Qed.
Lemma strncpy_u8 t n : is_name t → u8 <$> strncpy_bytes t n = strncpy_bytes t n.
Proof.
  assert (H0 : ∀ n, u8 <$> replicate n 0 = replicate n 0) by (intros m; by rewrite fmap_replicate).
  revert t. induction n as [|n IH]; intros t Ht; [by destruct t|]. destruct t as [|c t]; [apply (H0 (S n))|].
  inversion Ht as [|? ? Hc Ht']; subst. cbn -[Z.eqb u8]. rewrite (proj2 (Z.eqb_neq c 0)) by lia. cbn -[Z.eqb u8]. rewrite IH by done. f_equal. unfold u8. rewrite Z.mod_small by lia. done.
Qed.

(** The bytes of an entry. *)
Definition de_bytes (name : list Z) (inum : Z) : list Z := u8 inum :: u8 (inum / 256) :: strncpy_bytes name DIRSIZ.

Lemma de_bytes_spec name inum : is_name name → 0 ≤ inum < 65536 →
  length (de_bytes name inum) = 16%nat ∧ u8 <$> de_bytes name inum = de_bytes name inum ∧
  de_inum (de_bytes name inum) = inum ∧ namecmp name (de_name (de_bytes name inum)) = 0.
Proof.
  intros Hn Hi. unfold de_bytes. split_and!.
  - simpl length. by rewrite length_strncpy_bytes.
  - rewrite !fmap_cons, strncpy_u8 by done. unfold u8. f_equal; [zlia|]. f_equal. zlia.
  - unfold de_inum. simpl. unfold u8. zlia.
  - by apply strncmp_strncpy.
Qed.

(** An entry lies in one block. *)
Lemma nblk_dirent k : (nblk (DIRENT * k) 16 ≤ 1)%nat.
Proof.
  unfold nblk, DIRENT, BSIZE. change (16 <=? 0) with false. cbv iota.
  assert (0 ≤ (16 * k) mod 512 ≤ 496) by (pose proof (Z.div_mod (16 * k) 512); pose proof (Z.mod_pos_bound (16 * k) 512); lia).
  apply Nat2Z.inj_le. rewrite Z2Nat.id by (apply Z.div_pos; lia). apply Zlt_succ_le, Z.div_lt_upper_bound; lia.
Qed.

Section dir.
Context {S : Type} `{!Blocks S, !BlocksSpec S}.
Abbreviation fsst := (@fsst S).
Context (sbk : superblock) (ds : Z).

Record dir_ok (s : fsst) (v : jview) (dp : nat) (ip : inode) : Prop := {
  do_inode : inode_ok sbk ds s v dp ip;
  do_type : i_type ip = T_DIR;
  do_size : i_size ip mod DIRENT = 0
}.

Lemma dir_ok_upd s s' v dp ip : dir_ok s v dp ip → shows s' v → upd_fs s s' dp ip → dir_ok s' v dp ip.
Proof.
  intros [Hio Ht Hsz] Hs' Hu. split; try done. destruct Hio as [Hao Hip Hd Hf Hh].
  eapply (inode_ok_changed sbk ds (λ _, True) s); [by split|apply grown_refl; [done|apply Hao]|done|done].
Qed.

(** Reading an entry. *)
Lemma read_dent dev_read s v dp ip k (Q : Z * list Z → fsst → Prop) :
  dir_ok s v dp ip → 0 ≤ k < nents ip → j_room 1 v →
  (∀ s', shows s' v → upd_fs s s' dp ip → Q (DIRENT, dent (j_cont v) ip k) s') →
  wp (readi dev_read dp (DIRENT * k) DIRENT) s Q.
Proof.
  intros [Hio Ht Hsz] Hk Hroom HQ. pose proof (fo_size _ _ _ _ (io_file _ _ _ _ _ _ Hio)) as Hmax.
  change (MAXFILE * BSIZE) with 71680 in Hmax. unfold nents, DIRENT in *.
  eapply wp_mono; [|apply (readi_spec sbk ds dev_read s v dp ip (16 * k) 16 Hio)]; try zlia; try done.
  - intros p s' (->&Hs&Hu). replace (read_len (i_size ip) (16 * k) 16) with 16 by (unfold read_len; zlia). by apply HQ.
  - by rewrite Ht.
Qed.

(** dirlookup finds the first entry for the name. *)
Lemma dirlookup_spec dev_read s v dp ip name (Q : option (nat * Z) → fsst → Prop) :
  dir_ok s v dp ip → j_room 1 v →
  (∀ s', (∀ k, 0 ≤ k < nents ip → dmatch (j_cont v) ip name k = false) → shows s' v → upd_fs s s' dp ip → Q None s') →
  (∀ s' k, 0 ≤ k < nents ip → dmatch (j_cont v) ip name k = true →
     (∀ k', 0 ≤ k' < k → dmatch (j_cont v) ip name k' = false) → shows s' v → upd_fs s s' dp ip →
     wp (iget ROOTDEV (de_inum (dent (j_cont v) ip k))) s' (λ i, Q (Some (i, DIRENT * k)))) →
  wp (dirlookup dev_read dp name) s Q.
Proof.
  intros Hdo Hroom HN HS. pose proof Hdo as [Hio Ht Hsz]. pose proof (fo_size _ _ _ _ (io_file _ _ _ _ _ _ Hio)) as Hmax.
  change (MAXFILE * BSIZE) with 71680 in Hmax.
  unfold dirlookup. apply wp_bind. unfold wp at 1, gets at 1. rewrite (io_ip _ _ _ _ _ _ Hio), Ht. cbn [negb].
  change (T_DIR =? T_DIR) with true. cbn [negb]. rewrite (io_dev _ _ _ _ _ _ Hio).
  apply (wp_upto _ (λ off s', off mod DIRENT = 0 ∧
    (∀ k, 0 ≤ k < off / DIRENT → dmatch (j_cont v) ip name k = false) ∧ shows s' v ∧ upd_fs s s' dp ip)).
  - done.
  - unfold DIRENT. lia.
  - intros off s1 Hoff (Hm&Hno&Hs1&Hu1). assert (Hdo1 : dir_ok s1 v dp ip) by (by eapply dir_ok_upd).
    assert (Hk : 0 ≤ off / DIRENT < nents ip) by (unfold nents, DIRENT in *; zlia).
    replace off with (DIRENT * (off / DIRENT)) at 1 by (unfold DIRENT in *; zlia).
    apply wp_bind. apply (read_dent dev_read s1 v dp ip (off / DIRENT)); try done. intros s2 Hs2 Hu2.
    assert (Hu : upd_fs s s2 dp ip) by (by eapply upd_trans). change (DIRENT =? DIRENT) with true. cbn [negb].
    assert (Hnext : dmatch (j_cont v) ip name (off / DIRENT) = false →
      (off + DIRENT) mod DIRENT = 0 ∧ (∀ k, 0 ≤ k < (off + DIRENT) / DIRENT → dmatch (j_cont v) ip name k = false) ∧
      shows s2 v ∧ upd_fs s s2 dp ip).
    { intros Hf. split_and!; try done; [unfold DIRENT in *; zlia| |apply Hu..]. intros k Hk'.
      destruct (decide (k = off / DIRENT)) as [->|]; [done|]. apply Hno. unfold DIRENT in *. zlia. }
    unfold dmatch in Hnext. destruct (Z.eqb_spec (de_inum (dent (j_cont v) ip (off / DIRENT))) 0) as [E0|E0].
    { apply wp_ret. by apply Hnext. }
    destruct (namecmp name (de_name (dent (j_cont v) ip (off / DIRENT))) =? 0) eqn:En; [|apply wp_ret; by apply Hnext].
    apply wp_bind. eapply wp_mono; [|apply (HS s2 (off / DIRENT) Hk)]; try done.
    + intros i s3 H3. apply wp_ret. replace off with (DIRENT * (off / DIRENT)) by (unfold DIRENT in *; zlia). done.
    + unfold dmatch. rewrite (proj2 (Z.eqb_neq _ _) E0), En. done.
  - intros off s1 Hoff (Hm&Hno&Hs1&Hu1). apply HN; try done. intros k Hk. apply Hno. unfold nents, DIRENT in *. zlia.
  - done.
  - pose proof (upto_fuel_enough 0 (i_size ip) DIRENT ltac:(done)). lia.
  - split_and!; try done; [unfold DIRENT; intros; zlia|apply Hio|rewrite <- (io_ip _ _ _ _ _ _ Hio); by apply upd_same..].
Qed.

(** The entry that dirlink takes: the first empty one, or a new one at the end. *)
Definition slot_for (c : Z → mem) (ip : inode) (k : Z) : Prop :=
  (∀ k', 0 ≤ k' < k → de_inum (dent c ip k') ≠ 0) ∧
  ((0 ≤ k < nents ip ∧ de_inum (dent c ip k) = 0) ∨ k = nents ip).

Lemma dir_slot_spec dev_read s v dp ip (Q : Z → fsst → Prop) :
  dir_ok s v dp ip → j_room 1 v →
  (∀ s' k, slot_for (j_cont v) ip k → shows s' v → upd_fs s s' dp ip → Q (DIRENT * k) s') →
  wp (dir_slot dev_read dp (i_size ip)) s Q.
Proof.
  intros Hdo Hroom HQ. pose proof Hdo as [Hio Ht Hsz]. pose proof (fo_size _ _ _ _ (io_file _ _ _ _ _ _ Hio)) as Hmax.
  change (MAXFILE * BSIZE) with 71680 in Hmax. unfold dir_slot. apply wp_bind.
  apply (wp_upto _ (λ off s', off mod DIRENT = 0 ∧ (∀ k, 0 ≤ k < off / DIRENT → de_inum (dent (j_cont v) ip k) ≠ 0) ∧
    shows s' v ∧ upd_fs s s' dp ip)).
  - done.
  - unfold DIRENT. lia.
  - intros off s1 Hoff (Hm&Hno&Hs1&Hu1). assert (Hdo1 : dir_ok s1 v dp ip) by (by eapply dir_ok_upd).
    assert (Hk : 0 ≤ off / DIRENT < nents ip) by (unfold nents, DIRENT in *; zlia).
    assert (Eo : off = DIRENT * (off / DIRENT)) by (unfold DIRENT in *; zlia).
    rewrite Eo at 1. apply wp_bind. apply (read_dent dev_read s1 v dp ip (off / DIRENT)); try done. intros s2 Hs2 Hu2.
    assert (Hu : upd_fs s s2 dp ip) by (by eapply upd_trans). change (DIRENT =? DIRENT) with true. cbn [negb].
    apply wp_ret. destruct (Z.eqb_spec (de_inum (dent (j_cont v) ip (off / DIRENT))) 0) as [E0|E0].
    + apply wp_ret. simpl. rewrite Eo. apply HQ; try done. split; [done|by left].
    + split; [unfold DIRENT in *; zlia|]. split; [|done]. intros k Hk'.
      destruct (decide (k = off / DIRENT)) as [->|]; [done|]. apply Hno. unfold DIRENT in *. zlia.
  - intros off s1 Hoff (Hm&Hno&Hs1&Hu1). apply wp_ret. simpl.
    replace (DIRENT * ((i_size ip + DIRENT - 1) / DIRENT)) with (DIRENT * nents ip) by (unfold nents, DIRENT in *; zlia).
    apply HQ; try done. split; [|by right]. intros k Hk. apply Hno. unfold nents, DIRENT in *. zlia.
  - done.
  - pose proof (upto_fuel_enough 0 (i_size ip) DIRENT ltac:(done)). lia.
  - split_and!; try done; [unfold DIRENT; intros; zlia|apply Hio|rewrite <- (io_ip _ _ _ _ _ _ Hio); by apply upd_same..].
Qed.

(** dirlink of a name that is not there writes an entry for it in an empty place. *)
Lemma dirlink_spec dev_read dev_write s v dp ip name inum :
  dir_ok s v dp ip → is_name name → 0 ≤ inum < 65536 → (∀ k, 0 ≤ k < nents ip → dmatch (j_cont v) ip name k = false) →
  i_size ip + DIRENT ≤ MAXFILE * BSIZE → 0 ≤ i_inum ip < sb_ninodes sbk → IBLOCK (i_inum ip) sbk ∉ j_held v →
  j_room 6 v → avail sbk (j_cont v) 2 →
  wp (dirlink dev_read dev_write dp name inum) s (λ r s', r = 0 ∧ ∃ k v' ip', slot_for (j_cont v) ip k ∧
    wrote sbk ds s v dp ip (DIRENT * k) (de_bytes name inum) s' v' ip').
Proof.
  intros Hdo Hname Hinum Hno Hsz Hin Hih Hroom Hav. pose proof Hdo as [Hio Ht Hsz'].
  destruct (de_bytes_spec name inum Hname Hinum) as (Hlen&_). pose proof (fo_size _ _ _ _ (io_file _ _ _ _ _ _ Hio)) as Hmax.
  assert (Hr1 : j_room 1 v) by (by eapply room_le; [|done]; lia).
  unfold dirlink. apply wp_bind. apply (dirlookup_spec dev_read s v dp ip name); try done.
  2:{ intros s1 k Hk Hm. by rewrite Hno in Hm. }
  intros s1 _ Hs1 Hu1. assert (Hdo1 : dir_ok s1 v dp ip) by (by eapply dir_ok_upd).
  apply wp_bind. unfold wp at 1, gets at 1. rewrite (io_ip _ _ _ _ _ _ (do_inode _ _ _ _ Hdo1)).
  apply wp_bind. apply (dir_slot_spec dev_read s1 v dp ip); try done. intros s2 k Hsl Hs2 Hu2.
  assert (Hdo2 : dir_ok s2 v dp ip) by (by eapply dir_ok_upd).
  assert (Hk : 0 ≤ DIRENT * k ≤ i_size ip) by (destruct Hsl as [_ [[? _]| ->]]; unfold nents, DIRENT in *; zlia).
  pose proof (nblk_dirent k) as Hnb.
  change (u8 inum :: u8 (inum / 256) :: strncpy_bytes name DIRSIZ) with (de_bytes name inum).
  apply wp_bind. pose proof (writei_spec sbk ds dev_write s2 v dp ip (DIRENT * k) (de_bytes name inum)) as Hw.
  cbv zeta in Hw. rewrite Hlen in Hw. change (Z.of_nat 16) with DIRENT in Hw.
  eapply wp_mono; [|apply Hw]; clear Hw; try done.
  - intros r s3 [-> (v'&ip'&Hwr)]. change (DIRENT =? DIRENT) with true. cbn [negb]. apply wp_ret.
    split; [done|]. exists k, v', ip'. split; [done|]. destruct Hwr. split; try done. by do 2 (eapply upd_trans; [eassumption|]).
  - apply Hdo2.
  - by rewrite Ht.
  - unfold DIRENT in *. lia.
  - change DIRENT with 16 at 2. eapply room_le; [|exact Hroom]. lia.
  - change DIRENT with 16 at 2. eapply avail_le; [|exact Hav]. lia.
Qed.
End dir.
