(* ===== verification/Fsexample.v ===== *)
(** Blocks kept in memory, as a second instance of the interface of Journal.v,
    and a small file system on them: 100 blocks, with the inodes in block 32, the
    free map in block 33 and the data from block 34 on. *)

From Stdlib Require Import ZArith Lia.
From stdpp Require Import base tactics numbers gmap strings functions list.
From S2P Require Import Prelude Memory Kstring Monitor Sleeplock Buf Journal Fs Fsblock Fsinode Fsfile Fsrw.

#[local] Open Scope Z_scope.

(** ** Blocks in memory *)

Definition mem_blocks : Blocks jview := {|
  b_read d b := modify (jhold b) ≫= λ _, mret (Z.to_nat b);
  b_data i := gets (λ v, j_cont v (Z.of_nat i));
  b_set i d := modify (jstore (Z.of_nat i) d);
  b_log i := modify (jlog (Z.of_nat i));
  b_relse i := modify (junhold (Z.of_nat i))
|}.

(** The state is the view, up to the representation of the content. *)
Record mem_rep (s v : jview) : Prop := {
  mr_cont b : j_cont s b = j_cont v b;
  mr_size : j_size s = j_size v;
  mr_held : j_held s = j_held v;
  mr_log : j_log s = j_log v;
  mr_mod : j_mod s = j_mod v
}.
Definition mem_holds (s : jview) (i : nat) (b : Z) : Prop := b = Z.of_nat i ∧ b ∈ j_held s.

Definition mem_blocks_spec : @BlocksSpec jview mem_blocks.
Proof.
  refine (@Build_BlocksSpec jview mem_blocks mem_rep mem_holds _ _ _ _ _ _).
  - intros s v f [] Hf. split; try done. intros b. by rewrite Hf.
  - intros s v b [R1 R2 R3 R4 R5] Hb _ Hh _. unfold wp. simpl. split_and!.
    + split; simpl; congruence.
    + split; [lia|]. simpl. set_solver.
    + intros j c [-> Hc]. split; [|split; [done|simpl; set_solver]]. intros ->. apply Hh. rewrite <- R3. by rewrite Z2Nat.id in Hc by lia.
  - intros s v i b [R1 R2 R3 R4 R5] [-> Hb]. done.
  - intros s v i b d [R1 R2 R3 R4 R5] [-> Hb]. split; [|done]. split; simpl; try congruence.
    intros b. unfold insert, fn_insert. by case_decide.
  - intros s v i b [R1 R2 R3 R4 R5] [-> Hb]. split; [|done]. split; simpl; congruence.
  - intros s v i b [R1 R2 R3 R4 R5] [-> Hb] _. split; [split; simpl; congruence|].
    intros j c Hj [-> Hc]. split; [done|]. simpl. set_solver by lia.
Defined.

#[export] Existing Instance mem_blocks.
#[export] Existing Instance mem_blocks_spec.

(** ** A file system *)

Definition sb_ex : superblock := {| sb_size := 100; sb_nblocks := 66; sb_ninodes := 8; sb_logblocks := 30;
  sb_log := 2; sb_inodestart := 32; sb_bmapstart := 33 |}.
Definition ds_ex : Z := 34.

(** Block 34 belongs to the file; blocks 0 to 34 are in use. *)
Definition super_ex : mem := wr32 (wr32 (wr32 (wr32 (wr32 (wr32 (wr32 ∅ 0 100) 4 66) 8 8) 12 30) 16 2) 20 32) 24 33.
Definition bmap_ex : mem := wr_bytes ∅ 0 [255; 255; 255; 255; 7].

(** Inode 2, a file of two bytes. *)
Definition ino_ex (type size : Z) : inode := {| i_dev := ROOTDEV; i_inum := 2; i_ref := 1;
  i_lock := {| locked := true; pid := 3 |}; i_valid := true; i_type := type; i_major := 0; i_minor := 0; i_nlink := 1;
  i_size := size; i_addrs := λ k, if k =? 0 then 34 else 0 |}.

(** The blocks, with the inode in block 32. *)
Definition cont_ex : Z → mem :=
  <[1 := super_ex]> (<[32 := store_inode (ino_ex T_FILE 2) 128 ∅]> (<[33 := bmap_ex]> (<[34 := wr_bytes ∅ 0 [104; 105]]> (λ _, ∅)))).

Definition view_ex : jview := {| j_cont := cont_ex; j_size := 100; j_res := λ b, 2 ≤ b < 32; j_held := ∅; j_log := ∅; j_mod := ∅ |}.
Definition fs_ex (type size : Z) : fsst := {| blk := view_ex; sb := sb_ex; fs_pid := 3;
  icache := <[0%nat := ino_ex type size]> (λ _, set_i_ref 0 (ino_ex 0 0)) |}.

Lemma layout_gen_ex v : j_size v = 100 → (∀ b, j_res v b ↔ 2 ≤ b < 32) → layout sb_ex ds_ex v.
Proof.
  intros Hz Hr. split; rewrite ?Hz; try (unfold ds_ex; simpl; lia).
  - rewrite Hr. lia.
  - intros b Hb. simpl in *. rewrite Hr. change BPB with 4096. unfold ds_ex. zlia.
  - intros b Hb. simpl in *. rewrite Hr. change BPB with 4096. change IPB with 8. unfold ds_ex. split_and!; try zlia. intros. zlia.
  - intros b Hb. rewrite Hr. unfold ds_ex in *. lia.
Qed.

Lemma forall_range (P : Z → bool) lo n :
  forallb P (seqZ lo n) = true → ∀ x, lo ≤ x < lo + n → P x = true.
Proof. intros H x Hx. rewrite forallb_forall in H. apply H, list_elem_of_In, elem_of_seqZ. lia. Qed.

Lemma bits_ex x : 0 ≤ x < 100 → bit sb_ex cont_ex x = (x <? 35).
Proof.
  intros Hx. apply eqb_prop. apply (forall_range (λ x, eqb (bit sb_ex cont_ex x) ((x <? 35))) 0 100); [|lia].
  vm_compute. done.
Qed.

Lemma disk_ok_ex : disk_ok sb_ex ds_ex cont_ex.
Proof.
  split; [vm_compute; done|]. intros b Hb. unfold ds_ex in Hb. rewrite bits_ex by lia. apply Z.ltb_lt. lia.
Qed.

Lemma slot_ex c type size k : fblock k → slot c (ino_ex type size) k = if k =? 0 then 34 else 0.
Proof. intros Hk. unfold slot, fblock, NDIRECT in *. destruct (Z.ltb_spec k 12); [done|]. simpl. by rewrite (proj2 (Z.eqb_neq k 0)) by lia. Qed.

Lemma owned_ex c type size x : owned c (ino_ex type size) x → x = 34.
Proof.
  intros [Hx [E|(k&Hk&E)]]; [done|]. rewrite slot_ex in E by done. by destruct (k =? 0).
Qed.

Lemma file_ok_ex type size : 0 ≤ size ≤ BSIZE → file_ok sb_ex ds_ex cont_ex (ino_ex type size).
Proof.
  intros Hsz. split.
  - intros x ->%owned_ex. split; [done|]. split; [done|]. by rewrite bits_ex.
  - intros k k' Hk Hk'. rewrite !slot_ex by done. destruct (Z.eqb_spec k 0), (Z.eqb_spec k' 0); try done. lia.
  - intros k Hk. rewrite slot_ex by done. by destruct (k =? 0).
  - intros k Hk Hlt. simpl in Hlt. assert (k = 0) as -> by (unfold BSIZE in *; lia). done.
  - simpl. change (MAXFILE * BSIZE) with 71680. unfold BSIZE in *. lia.
Qed.

Lemma avail_ex n : (n ≤ 65)%nat → avail sb_ex cont_ex n.
Proof.
  intros Hn. exists (list_to_set (seqZ 35 65)). split.
  - rewrite size_list_to_set by apply NoDup_seqZ. rewrite length_seqZ. lia.
  - intros x Hx. apply elem_of_list_to_set, elem_of_seqZ in Hx. split; [simpl; lia|].
    rewrite bits_ex by lia. apply Z.ltb_ge. lia.
Qed.

Lemma alloc_ok_ex type size : alloc_ok sb_ex ds_ex (fs_ex type size) view_ex.
Proof.
  split; try done.
  - by apply layout_gen_ex.
  - apply disk_ok_ex.
Qed.

Lemma inode_ok_ex type size : 0 ≤ size ≤ BSIZE → inode_ok sb_ex ds_ex (fs_ex type size) view_ex 0 (ino_ex type size).
Proof. intros Hsz. split; [apply alloc_ok_ex|done|done|by apply file_ok_ex|]. intros x _. simpl. set_solver. Qed.
