(* ===== verification/Fsprops.v ===== *)
(** What the file system (src/fs.c) does: the theorems on allocation, files,
    inodes, directories and paths, and on a file write as a transaction of the
    log. *)

From Stdlib Require Import ZArith Lia.
From stdpp Require Import base tactics numbers gmap strings functions relations list.
From S2P Require Import Prelude Memory Kstring Monitor Sleeplock Buf Bio Log Crash Journal Fs Fsblock Fsinode Fsfile Fsrw Fstrunc Fsdir Fsexample.

#[local] Open Scope Z_scope.

(** ** Paths *)

(** The elements that namex() goes through. *)
Fixpoint path_elems (fuel : nat) (path : list Z) : list (list Z) :=
  match fuel with
  | O => []
  | Datatypes.S fuel' => match skipelem path with None => [] | Some (e, r) => e :: path_elems fuel' r end
  end.

(** The pieces of a path between slashes. *)
Fixpoint pieces (path : list Z) : list (list Z) :=
  match path with
  | [] => [[]]
  | c :: path' =>
      match pieces path' with
      | p :: ps => if c =? slash then [] :: p :: ps else (c :: p) :: ps
      | [] => []
      end
  end.
Definition nonempty (p : list Z) : bool := match p with [] => false | _ => true end.

Lemma pieces_cons path : ∃ p ps, pieces path = p :: ps.
Proof.
  induction path as [|c path (p&ps&IH)]; simpl; [by eexists _, _|]. rewrite IH. destruct (c =? slash); by eexists _, _.
Qed.
Lemma skip_slashes_length path : (length (skip_slashes path) ≤ length path)%nat.
Proof. induction path as [|c path IH]; simpl; [done|]. destruct (c =? slash); simpl; lia. Qed.
Lemma elem_split_spec path e r : elem_split path = (e, r) → path = e ++ r ∧ slash ∉ e ∧ (r = [] ∨ ∃ r', r = slash :: r').
Proof.
  revert e r. induction path as [|c path IH]; intros e r; simpl; [intros [= <- <-]; set_solver|].
  destruct (Z.eqb_spec c slash) as [->|Hc].
  - intros [= <- <-]. split; [done|]. split; [set_solver|right; by eexists].
  - destruct (elem_split path) as [e' r']. intros [= <- <-]. destruct (IH e' r' eq_refl) as (->&H1&H2).
    split_and!; try done. set_solver.
Qed.
Lemma skip_slashes_spec path : skip_slashes path = [] ∨ ∃ c p, skip_slashes path = c :: p ∧ c ≠ slash.
Proof.
  induction path as [|c path IH]; simpl; [by left|]. destruct (Z.eqb_spec c slash); [done|]. right. by eexists _, _.
Qed.

(** The rest of the path is shorter. *)
Lemma skipelem_length path e r : skipelem path = Some (e, r) → (length r < length path)%nat.
Proof.
  unfold skipelem. pose proof (skip_slashes_length path). destruct (skip_slashes_spec path) as [->|(c&p&E&Hc)]; [done|].
  rewrite E in *. destruct (elem_split (c :: p)) as [e' r'] eqn:Es. intros [= <- <-].
  destruct (elem_split_spec _ _ _ Es) as (E2&_&Hr). pose proof (skip_slashes_length r').
  assert (e' ≠ []) by (intros ->; simpl in *; destruct Hr as [->|[r2 ->]]; congruence).
  assert (length (c :: p) = length e' + length r')%nat by (by rewrite E2, length_app). destruct e'; [done|]. simpl in *. lia.
Qed.

Lemma filter_pieces_slash path : filter nonempty (pieces (slash :: path)) = filter nonempty (pieces path).
Proof. simpl. destruct (pieces_cons path) as (p&ps&->). done. Qed.
Lemma filter_pieces_skip path : filter nonempty (pieces (skip_slashes path)) = filter nonempty (pieces path).
Proof.
  induction path as [|c path IH]; [done|]. cbn [skip_slashes]. destruct (Z.eqb_spec c slash) as [->|]; [|done].
  by rewrite filter_pieces_slash.
Qed.
Lemma pieces_app e r : slash ∉ e → (r = [] ∨ ∃ r', r = slash :: r') →
  ∃ ps, pieces (e ++ r) = e :: ps ∧ filter nonempty (pieces r) = filter nonempty ps.
Proof.
  intros He Hr. induction e as [|c e IH]; simpl.
  - destruct Hr as [->|[r' ->]]; [by exists []|]. simpl. destruct (pieces_cons r') as (p&ps&->). by eexists.
  - destruct IH as (ps&->&E); [set_solver|]. rewrite (proj2 (Z.eqb_neq c slash)) by set_solver. by exists ps.
Qed.

Lemma path_elems_spec fuel path :
  (length path ≤ fuel)%nat → path_elems fuel path = take DIRSIZ <$> filter nonempty (pieces path).
Proof.
  revert path. induction fuel as [|fuel IH]; intros path Hf; [by destruct path; [|simpl in Hf; lia]|].
  simpl. destruct (skipelem path) as [[e r]|] eqn:Es.
  - rewrite IH by (apply skipelem_length in Es; lia). unfold skipelem in Es.
    destruct (skip_slashes_spec path) as [E|(c&p&E&Hc)]; rewrite E in Es; [done|].
    destruct (elem_split (c :: p)) as [e' r'] eqn:Esp. injection Es as <- <-.
    destruct (elem_split_spec _ _ _ Esp) as (Ep&He&Hr). destruct (pieces_app e' r' He Hr) as (ps&Eps&Efl).
    rewrite <- (filter_pieces_skip path), E, Ep, Eps, filter_pieces_skip, Efl.
    assert (e' ≠ []) by (intros ->; simpl in *; destruct Hr as [->|[r2 ->]]; congruence).
    rewrite filter_cons_True by (by destruct e'). done.
  - unfold skipelem in Es. destruct (skip_slashes_spec path) as [E|(c&p&E&Hc)]; rewrite E in Es.
    + rewrite <- filter_pieces_skip, E. done.
    + by destruct (elem_split (c :: p)).
Qed.

Section paths.
Context {S : Type} `{!Blocks S}.
Context (dev_read : Z → option (nat → Z → K (@fsst S) (Z * list Z))).

Lemma bind_ext {A B} (m : K (@fsst S) A) (f g : A → K (@fsst S) B) s :
  (∀ a s', f a s' = g a s') → (m ≫= f) s = (m ≫= g) s.
Proof. intros H. unfold mbind, K_bind. destruct (m s); by rewrite ?H. Qed.

Lemma namex_loop_fuel f1 f2 ip path np s :
  (length path ≤ f1)%nat → (length path ≤ f2)%nat →
  namex_loop dev_read f1 ip path np s = namex_loop dev_read f2 ip path np s.
Proof.
  revert f2 ip path s. induction f1 as [|f1 IH]; intros f2 ip path s H1 H2.
  { destruct path; [by destruct f2|simpl in H1; lia]. }
  destruct f2 as [|f2]; [destruct path; [done|simpl in H2; lia]|].
  cbn [namex_loop]. destruct (skipelem path) as [[e r]|] eqn:Es; [|done]. apply skipelem_length in Es.
  apply bind_ext. intros _ s1. apply bind_ext. intros x s2. destruct (negb _); [done|]. destruct (_ && _); [done|].
  apply bind_ext. intros [[next off]|] s3; [|done]. apply bind_ext. intros _ s4. apply IH; lia.
Qed.

(** Following a path (skipelem() in namex()) goes through the pieces of the
    path between slashes, empty ones left out and each cut to DIRSIZ bytes, in
    their order, and ends: every step leaves a shorter path, so the loop of
    namex() takes at most one step per byte of the path and gives the same result
    for any larger bound. *)
Lemma path_walk (cwd : nat) (path : list Z) (np : bool) (fuel : nat) (s : @fsst S) :
  (length path ≤ fuel)%nat →
  path_elems fuel path = take DIRSIZ <$> filter nonempty (pieces path) ∧
  (∀ e r, skipelem path = Some (e, r) → (length r < length path)%nat ∧ (length e ≤ DIRSIZ)%nat ∧ slash ∉ e) ∧
  namex_loop dev_read fuel cwd path np s = namex_loop dev_read (length path) cwd path np s.
Proof.
  intros Hf. split; [by apply path_elems_spec|]. split; [|by apply namex_loop_fuel].
  intros e r Es. split; [by eapply skipelem_length|]. unfold skipelem in Es.
  destruct (skip_slashes path) as [|c p]; [done|]. destruct (elem_split (c :: p)) as [e' r'] eqn:Esp.
  injection Es as <- <-. destruct (elem_split_spec _ _ _ Esp) as (_&He&_). split; [rewrite length_take; lia|].
  intros Hin. apply He. apply (subseteq_take DIRSIZ e'), Hin.
Qed.
End paths.

(** ** Blocks *)

Section props.
Context {S : Type} `{!Blocks S, !BlocksSpec S}.
Abbreviation fsst := (@fsst S).
Context (sbk : superblock) (ds : Z).

(** C32: balloc() returns a block of the data area that was free, marks it in the
    free map and fills it with zeros, and changes no other block; bfree() of the
    block then gives back the free map as it was.  A block held by the caller and
    a block in use are never returned. *)
Theorem balloc_bfree (s : fsst) v :
  alloc_ok sbk ds s v → 1 ∉ j_held v → j_room 4 v → (∃ b, 0 ≤ b < sb_size sbk ∧ bit sbk (j_cont v) b = false) →
  wp (balloc ROOTDEV ≫= λ a, bfree ROOTDEV a ≫= λ _, mret a) s (λ a s', ∃ v1 v2,
    allocated sbk ds v v1 a ∧ freed sbk ds v1 v2 a ∧ shows s' v2 ∧ a ∉ j_held v ∧
    ∀ b, 0 ≤ b < sb_size sbk → bit sbk (j_cont v2) b = bit sbk (j_cont v) b).
Proof.
  intros Hao H1 Hroom Hfree. pose proof (ly_ds _ _ _ (ao_layout _ _ _ _ Hao)).
  apply wp_bind. eapply wp_mono; [|apply (balloc_spec sbk ds s v Hao); [by eapply room_le; [|done]; lia|done]].
  intros a s1 (v1&Ha&Hs1&Hsm1&_). pose proof (al_range _ _ _ _ _ Ha).
  assert (Hao1 : alloc_ok sbk ds s1 v1).
  { destruct Hao as [A1 A2 A3 A4 A5 A6]. split; try done; try apply Ha.
    - by destruct Hsm1 as [-> _].
    - eapply layout_same; [exact A3|apply (al_size _ _ _ _ _ Ha)|apply (al_res _ _ _ _ _ Ha)].
    - rewrite (al_held _ _ _ _ _ Ha). done.
    - rewrite (al_held _ _ _ _ _ Ha). intros x Hx. destruct (A6 x Hx). split; [done|].
      rewrite (al_bit _ _ _ _ _ Ha) by done. by case_decide. }
  apply wp_bind. eapply wp_mono; [|apply (bfree_spec sbk ds s1 v1 a Hao1)].
  - intros u s2 (v2&Hf&Hs2&_&_). apply wp_ret. exists v1, v2. split_and!; try done.
    + intros Hin. destruct (ao_held _ _ _ _ Hao a Hin) as [_ Hb]. by rewrite (al_free _ _ _ _ _ Ha) in Hb.
    + intros b Hb. rewrite (fr_bit _ _ _ _ _ Hf), (al_bit _ _ _ _ _ Ha) by done. case_decide; [|done]. subst b.
      symmetry. apply (al_free _ _ _ _ _ Ha).
  - lia.
  - rewrite (al_bit _ _ _ _ _ Ha), decide_True by (done || lia). done.
  - by rewrite (al_held _ _ _ _ _ Ha).
  - apply (allocated_room _ _ _ _ _ _ Ha). by eapply room_le; [|done]; lia.
Qed.
End props.

Lemma balloc_bfree_witness :
  wp (balloc ROOTDEV ≫= λ a, bfree ROOTDEV a ≫= λ _, mret a) (fs_ex T_FILE 2) (λ a s', 34 ≤ a < 100).
Proof.
  eapply wp_mono; [|apply (balloc_bfree sb_ex ds_ex (fs_ex T_FILE 2) view_ex (alloc_ok_ex T_FILE 2))].
  - intros a s' (v1&v2&Ha&_). exact (al_range _ _ _ _ _ Ha).
  - simpl. set_solver.
  - vm_compute. lia.
  - exists 40. split; [done|]. by rewrite bits_ex.
Defined.

(** ** Files *)

Section files.
Context {S : Type} `{!Blocks S, !BlocksSpec S}.
Abbreviation fsst := (@fsst S).
Context (sbk : superblock) (ds : Z).

(** C28: What writei() stores in a file, readi() returns: after a write of n bytes
    at an offset within the file, reading n bytes there gives the bytes written,
    and the file is as long as the write made it.  The other bytes of the file,
    and every block in use that is not of this file (but for the free map and the
    block of the inode) are as before ([wrote]).  Blocks for the file are
    allocated as needed, the indirect block included. *)
Theorem file_write_read dev_read dev_write (s : fsst) v i ip off src :
  let n := Z.of_nat (length src) in
  inode_ok sbk ds s v i ip → i_type ip ≠ T_DEV → 0 ≤ off ≤ i_size ip → off + n ≤ MAXFILE * BSIZE →
  0 ≤ i_inum ip < sb_ninodes sbk → IBLOCK (i_inum ip) sbk ∉ j_held v →
  j_room (5 * nblk off n + 2) v → avail sbk (j_cont v) (2 * nblk off n) →
  wp (writei dev_write i src off n ≫= λ r, readi dev_read i off n ≫= λ p, mret (r, p)) s
    (λ x s', x = (n, (n, u8 <$> src)) ∧ ∃ s1 v' ip', wrote sbk ds s v i ip off src s1 v' ip' ∧
      shows s' v' ∧ upd_fs s1 s' i ip').
Proof.
  intros n Hio Hty Hoff Hmax Hin Hih Hroom Hav. apply wp_bind.
  eapply wp_mono; [|apply (writei_spec sbk ds dev_write s v i ip off src Hio); try done; by eapply room_le; [|done]; fold n; lia].
  intros r s1 (->&v'&ip'&Hw). fold n. destruct (wo_type _ _ _ _ _ _ _ _ _ _ _ Hw) as [Et _].
  pose proof (wo_size _ _ _ _ _ _ _ _ _ _ _ Hw) as Esz. fold n in Esz. change (MAXFILE * BSIZE) with 71680 in *.
  apply wp_bind. eapply wp_mono; [|apply (readi_spec sbk ds dev_read s1 v' i ip' off n (wo_ok _ _ _ _ _ _ _ _ _ _ _ Hw))].
  - intros p s2 (->&Hs2&Hu2). apply wp_ret. replace (read_len (i_size ip') off n) with n by (unfold read_len; lia).
    split; [|by exists s1, v', ip']. by rewrite <- (wo_bytes _ _ _ _ _ _ _ _ _ _ _ Hw).
  - by rewrite Et.
  - lia.
  - lia.
  - lia.
  - apply (wo_room _ _ _ _ _ _ _ _ _ _ _ Hw). eapply room_le; [|exact Hroom]. fold n. lia.
Qed.

(** C29: itrunc() frees the blocks of a file, all of them and nothing else: the
    direct blocks, the blocks in the indirect block and the indirect block itself
    become free and every other block keeps its mark in the free map; the inode is
    left empty, in the cache and on the disk, and no block changes but those of
    the free map and the one with the inode. *)
Theorem itrunc_frees (s : fsst) v i ip :
  inode_ok sbk ds s v i ip → inode_fits ip → 0 ≤ i_inum ip < sb_ninodes sbk → IBLOCK (i_inum ip) sbk ∉ j_held v →
  1 ∉ j_held v → b_room sbk 2 v →
  wp (itrunc i) s (λ _ s', ∃ v' ip', truncated sbk s v i ip s' v' ip' ∧ file_ok sbk ds (j_cont v') ip').
Proof.
  intros Hio Hfit Hin Hih H1 Hroom. eapply wp_mono; [|by apply (itrunc_spec sbk ds s v i ip)].
  intros u s' (v'&ip'&Ht). exists v', ip'. split; [done|]. destruct (tc_ip _ _ _ _ _ _ _ _ Ht) as (f&->&Hf).
  assert (Hs : ∀ k, fblock k → slot (j_cont v') (set_i_size 0 (with_addrs f ip)) k = 0).
  { intros k Hk. unfold slot, fblock, MAXFILE in *. cbn [i_addrs set_i_size with_addrs]. unfold indirect. cbn [i_addrs set_i_size with_addrs].
    destruct (Z.ltb_spec k NDIRECT); [apply Hf; lia|]. by rewrite (Hf NDIRECT). }
  assert (Ho : ∀ x, ¬ owned (j_cont v') (set_i_size 0 (with_addrs f ip)) x).
  { intros x [Hx [->|(k&Hk&->)]]; [|by rewrite Hs in Hx]. apply Hx. unfold indirect. simpl. by apply Hf. }
  split.
  - intros x Hx. by apply Ho in Hx.
  - intros k k' Hk Hk'. by rewrite Hs.
  - intros k Hk. by rewrite Hs.
  - simpl. unfold BSIZE. intros. lia.
  - simpl. change (MAXFILE * BSIZE) with 71680. lia.
Qed.

(** C31: An inode that iupdate() has written is what ilock() reads back, through
    any entry of the inode cache that is for the inode and has not been read: its
    type, device numbers, link count, size and block addresses.  The other inodes
    of the block are not changed. *)
Theorem iupdate_ilock (s : fsst) v i ip :
  shows s v → sb s = sbk → layout sbk ds v → icache s i = ip → i_dev ip = ROOTDEV →
  0 ≤ i_inum ip < sb_ninodes sbk → IBLOCK (i_inum ip) sbk ∉ j_held v → j_room 2 v → inode_fits ip → i_type ip ≠ 0 →
  wp (iupdate i) s (λ _ s', ∃ v', shows s' v' ∧ same_fs s s' ∧
    (∀ n, 0 ≤ n < sb_ninodes sbk → n ≠ i_inum ip → ∀ ip0,
      same_inode (load_inode (j_cont v (IBLOCK n sbk)) (n mod IPB * DINODE) ip0)
                 (load_inode (j_cont v' (IBLOCK n sbk)) (n mod IPB * DINODE) ip0)) ∧
    ∀ s2 j ip2, shows s2 v' → sb s2 = sbk → icache s2 j = ip2 → i_dev ip2 = ROOTDEV → i_inum ip2 = i_inum ip →
      1 ≤ i_ref ip2 → locked (i_lock ip2) = false → i_valid ip2 = false →
      wp (ilock j) s2 (λ _ s3, shows s3 v' ∧ same_inode ip (icache s3 j) ∧ i_valid (icache s3 j) = true ∧
        locked (i_lock (icache s3 j)) = true ∧ ∀ k, k ≠ j → icache s3 k = icache s2 k)).
Proof.
  intros Hs Hsb Hl Hip Hd Hin Hih Hroom Hfit Hty.
  eapply wp_mono; [|apply (iupdate_spec sbk ds s v i ip); try done; by eapply room_le; [|done]; lia].
  intros u s' [Hs' Hsm]. exists (iput_view sbk ip v). split; [done|]. split; [done|]. unfold iput_view. split.
  - intros n Hn Hne ip0. simpl. destruct (decide (IBLOCK n sbk = IBLOCK (i_inum ip) sbk)) as [E|E].
    + rewrite E, fn_lookup_insert. apply load_store_ne.
      destruct (ly_inode _ _ _ Hl n Hn) as (N1&_), (ly_inode _ _ _ Hl _ Hin) as (N2&_).
      pose proof (ly_ds _ _ _ Hl). pose proof (ly_size _ _ _ Hl). pose proof (ly_small _ _ _ Hl).
      unfold IBLOCK in E. rewrite !u32_small in E by (unfold is_u32; lia). unfold DINODE. change IPB with 8 in *. zlia.
    + rewrite fn_lookup_insert_ne by done. unfold same_inode. by split_and!.
  - intros s2 j ip2 Hs2 Hsb2 Hip2 Hd2 Hin2 Href Hlk Hv.
    pose proof (load_store ip (set_i_lock {| locked := true; pid := fs_pid s2 |} ip2) (i_inum ip mod IPB * DINODE)
      (j_cont v (IBLOCK (i_inum ip) sbk)) Hfit) as Hld. pose proof Hld as (Ht&_).
    eapply wp_mono; [|apply (ilock_spec sbk ds s2 _ j ip2 Hs2); try done].
    + intros u3 s3 (H1&H2&H3&H4&H5). split; [done|]. rewrite H4. unfold locked_inode. rewrite Hin2. simpl j_cont.
      rewrite fn_lookup_insert. split; [exact Hld|]. split; [done|]. split; [done|]. exact H5.
    + by apply (layout_same _ _ v).
    + by rewrite Hin2.
    + by rewrite Hin2.
    + by apply room_put.
    + rewrite Hin2. simpl j_cont. rewrite fn_lookup_insert. simpl in Ht. by rewrite Ht.
Qed.
End files.

Lemma file_write_read_witness :
  wp (writei (λ _, None) 0 [120; 121; 122] 2 3 ≫= λ r, readi (λ _, None) 0 2 3 ≫= λ p, mret (r, p)) (fs_ex T_FILE 2)
    (λ x s', x = (3, (3, [120; 121; 122]))).
Proof.
  eapply wp_mono; [|apply (file_write_read sb_ex ds_ex (λ _, None) (λ _, None) (fs_ex T_FILE 2) view_ex 0 (ino_ex T_FILE 2)
    2 [120; 121; 122])]; try done.
  - by intros x s' [-> _].
  - by apply inode_ok_ex.
  - vm_compute. lia.
  - apply avail_ex. vm_compute. lia.
Defined.

Lemma inode_fits_ex type size : is_s16 type → is_u32 size → inode_fits (ino_ex type size).
Proof. intros Ht Hs. split; try done. simpl. intros k Hk. by destruct (k =? 0). Qed.

Lemma itrunc_frees_witness :
  wp (itrunc 0) (fs_ex T_FILE 2) (λ _ s', bit sb_ex (j_cont (blk s')) 34 = false ∧ bit sb_ex (j_cont (blk s')) 33 = true).
Proof.
  eapply wp_mono; [|apply (itrunc_frees sb_ex ds_ex (fs_ex T_FILE 2) view_ex 0 (ino_ex T_FILE 2))]; try done.
  - intros u s' (v'&ip'&Ht&_). destruct (tc_shows _ _ _ _ _ _ _ _ Ht) as [Hr _].
    rewrite (bit_ext sb_ex (j_cont v') _ 34), (bit_ext sb_ex (j_cont v') _ 33) by apply (mr_cont _ _ Hr). split.
    + apply (tc_free _ _ _ _ _ _ _ _ Ht). split; [done|right]. by exists 0.
    + rewrite (tc_keep _ _ _ _ _ _ _ _ Ht); [by rewrite bits_ex|done|]. by intros ?%owned_ex.
  - by apply inode_ok_ex.
  - by apply inode_fits_ex.
  - vm_compute. lia.
Defined.

Lemma iupdate_ilock_witness :
  wp (iupdate 0) (fs_ex T_FILE 2) (λ _ s', ∃ v', shows s' v' ∧
    ∀ s2 ip2, shows s2 v' → sb s2 = sb_ex → icache s2 5 = ip2 → i_dev ip2 = ROOTDEV → i_inum ip2 = 2 →
      1 ≤ i_ref ip2 → locked (i_lock ip2) = false → i_valid ip2 = false →
      wp (ilock 5) s2 (λ _ s3, i_size (icache s3 5) = 2)).
Proof.
  eapply wp_mono; [|apply (iupdate_ilock sb_ex ds_ex (fs_ex T_FILE 2) view_ex 0 (ino_ex T_FILE 2))]; try done.
  - intros u s' (v'&Hs'&_&_&H). exists v'. split; [done|]. intros s2 ip2 H1 H2 H3 H4 H5 H6 H7 H8.
    eapply wp_mono; [|exact (H s2 5%nat ip2 H1 H2 H3 H4 H5 H6 H7 H8)]. by intros u3 s3 (_&(_&_&_&_&E&_)&_).
  - by apply layout_gen_ex.
  - vm_compute. lia.
  - by apply inode_fits_ex.
Defined.

(** ** The inode cache and directories *)

Section dirs.
Context {S : Type} `{!Blocks S, !BlocksSpec S}.
Abbreviation fsst := (@fsst S).
Context (sbk : superblock) (ds : Z).

(** C33: The inode cache has at most one entry for an inode: iget() takes one more
    reference to the entry that is there and makes one, unread, only if there is
    none; the other entries and the blocks are left alone.  A call of idup() or of
    iget() keeps the cache so. *)
Theorem iget_unique (s : fsst) d n :
  icache_ok (icache s) → icache_room (icache s) d n →
  wp (iget d n ≫= λ i, idup i ≫= λ _, iget d n ≫= λ j, mret (i, j)) s (λ '(i, j) s', i = j ∧ (i < NINODE)%nat ∧
    icache_ok (icache s') ∧ used_for (icache s' i) d n ∧ (∀ k, k ≠ i → icache s' k = icache s k) ∧ blk s' = blk s ∧
    i_ref (icache s' i) = i_ref (icache s i) + 3 ∧
    i_valid (icache s' i) = bool_decide (used_for (icache s i) d n) && i_valid (icache s i)).
Proof.
  intros Hok Hroom. pose proof Hok as [Hpos _]. apply wp_bind. eapply wp_mono; [|by apply iget_spec].
  intros i s1 (Hi&Hok1&Hu1&B1&_&_&Ho1&E1&Hor). apply wp_bind. unfold idup. apply wp_bind. unfold wp at 1, modify at 1. apply wp_ret.
  set (s2 := upd_inode i _ s1). assert (E2 : icache s2 i = set_i_ref (i_ref (icache s1 i) + 1) (icache s1 i)).
  { unfold s2. simpl. apply fn_lookup_insert. }
  assert (Ho2 : ∀ k, k ≠ i → icache s2 k = icache s1 k) by (intros k Hk; by apply fn_lookup_insert_ne).
  assert (Hus : ∀ k d' n', used_for (icache s2 k) d' n' → (k < NINODE)%nat → used_for (icache s1 k) d' n').
  { intros k d' n' Hk Hlt. destruct (decide (k = i)) as [->|]; [|by rewrite <- Ho2]. rewrite E2 in Hk.
    destruct Hk as (_&?&?). destruct Hu1 as (?&_). by split_and!. }
  assert (Hok2 : icache_ok (icache s2)).
  { destruct Hok1 as [P1 Q1]. split.
    - intros k Hk. destruct (decide (k = i)) as [->|]; [|rewrite Ho2 by done; by apply P1]. rewrite E2. simpl.
      destruct Hu1 as (?&_). lia.
    - intros j k d' n' Hj Hk H1 H2. eapply Q1; [done|done|by apply Hus|by apply Hus]. }
  assert (Hu2 : used_for (icache s2 i) d n).
  { rewrite E2. destruct Hu1 as (?&?&?). split_and!; try done. simpl. lia. }
  apply wp_bind. eapply wp_mono; [|apply iget_spec; [done|exists i; split; [done|by left]]].
  intros j s3 (Hj&Hok3&Hu3&B3&_&_&Ho3&E3&_). apply wp_ret.
  assert (i = j) as <-.
  { destruct (decide (i = j)); [done|]. destruct Hok3 as [_ Q3]. eapply Q3; [done|done| |exact Hu3]. by rewrite Ho3. }
  split; [done|]. split; [done|]. split; [done|]. split; [done|]. rewrite decide_True in E3 by done.
  split; [intros k Hk; by rewrite Ho3, Ho2, Ho1|]. split; [by rewrite B3, <- B1|].
  rewrite E3, E2, E1. specialize (Hpos i Hi). case_decide as Hd; simpl.
  - rewrite bool_decide_eq_true_2 by done. split; [lia|done].
  - rewrite bool_decide_eq_false_2 by done. destruct Hor as [|Hr]; [done|]. split; [lia|done].
Qed.

(** The entries after an entry has been written. *)
Lemma dent_wrote (s s' : fsst) v v' dp ip ip' k l :
  dir_ok sbk ds s v dp ip → slot_for (j_cont v) ip k → length l = 16%nat → u8 <$> l = l →
  wrote sbk ds s v dp ip (DIRENT * k) l s' v' ip' →
  dent (j_cont v') ip' k = l ∧ 0 ≤ k < nents ip' ∧
  ∀ k', 0 ≤ k' < nents ip' → k' ≠ k → k' < nents ip ∧ dent (j_cont v') ip' k' = dent (j_cont v) ip k'.
Proof.
  intros [Hio Ht Hsz] [_ Hk] Hlen Hu Hw. pose proof (wo_size _ _ _ _ _ _ _ _ _ _ _ Hw) as Es. rewrite Hlen in Es.
  pose proof (fo_size _ _ _ _ (io_file _ _ _ _ _ _ Hio)) as Hpos.
  assert (Hk0 : 0 ≤ k ≤ nents ip) by (destruct Hk as [[? _]| ->]; unfold nents, DIRENT in *; zlia).
  unfold nents, DIRENT in *. split_and!; try zlia.
  - unfold dent. pose proof (wo_bytes _ _ _ _ _ _ _ _ _ _ _ Hw) as Hb. rewrite Hlen, Hu in Hb. exact Hb.
  - intros k' Hk' Hne. split; [zlia|]. apply list_fmap_ext. intros j x [-> Hj]%lookup_seqZ. unfold DIRENT in Hj.
    apply (wo_rest _ _ _ _ _ _ _ _ _ _ _ Hw); unfold DIRENT; rewrite ?Hlen; zlia.
Qed.

Lemma icache_upd (s s' : fsst) i ip ip' d n :
  icache s i = ip → upd_fs s s' i ip' → i_ref ip' = i_ref ip → i_dev ip' = i_dev ip → i_inum ip' = i_inum ip →
  icache_ok (icache s) → icache_room (icache s) d n → icache_ok (icache s') ∧ icache_room (icache s') d n.
Proof.
  intros Hip (_&E1&E2&_) Hr Hd Hn [P Q] (j&Hj&Hro).
  assert (Hs : ∀ k, i_ref (icache s' k) = i_ref (icache s k) ∧ i_dev (icache s' k) = i_dev (icache s k) ∧
    i_inum (icache s' k) = i_inum (icache s k)).
  { intros k. destruct (decide (k = i)) as [->|]; [rewrite E1, Hip; by split_and!|by rewrite E2]. }
  assert (Hu : ∀ k d n, used_for (icache s' k) d n ↔ used_for (icache s k) d n).
  { intros k d' n'. unfold used_for. destruct (Hs k) as (->&->&->). done. }
  split; [split|].
  - intros k Hk. destruct (Hs k) as (->&_). by apply P.
  - intros k k' d' n' Hk Hk'. rewrite !Hu. by apply Q.
  - exists j. split; [done|]. rewrite Hu. destruct (Hs j) as (->&_). done.
Qed.

(** C30: A name that dirlink() has put into a directory is found by dirlookup():
    it returns the inode that was linked, through its entry in the inode cache.
    dirlink() takes the first empty entry or a new one at the end and leaves the
    other entries as they are. *)
Theorem dirlink_dirlookup dev_read dev_write (s : fsst) v dp ip name inum :
  dir_ok sbk ds s v dp ip → is_name name → 0 < inum < 65536 →
  (∀ k, 0 ≤ k < nents ip → dmatch (j_cont v) ip name k = false) →
  i_size ip + DIRENT ≤ MAXFILE * BSIZE → 0 ≤ i_inum ip < sb_ninodes sbk → IBLOCK (i_inum ip) sbk ∉ j_held v →
  j_room 7 v → avail sbk (j_cont v) 2 → icache_ok (icache s) → icache_room (icache s) ROOTDEV inum →
  wp (dirlink dev_read dev_write dp name inum ≫= λ r, dirlookup dev_read dp name ≫= λ o, mret (r, o)) s
    (λ '(r, o) s', r = 0 ∧ ∃ i k s1 v' ip', o = Some (i, DIRENT * k) ∧ (i < NINODE)%nat ∧
      used_for (icache s' i) ROOTDEV inum ∧ slot_for (j_cont v) ip k ∧
      wrote sbk ds s v dp ip (DIRENT * k) (de_bytes name inum) s1 v' ip').
Proof.
  intros Hdo Hname Hinum Hno Hsz Hin Hih Hroom Hav Hok Hcr. apply wp_bind.
  destruct (de_bytes_spec name inum Hname ltac:(lia)) as (Hlen&Hu8&Hnum&Hcmp).
  eapply wp_mono; [|apply (dirlink_spec sbk ds dev_read dev_write s v dp ip name inum Hdo); try done; [lia|];
    by eapply room_le; [|done]; lia].
  intros r s1 (->&k&v1&ip1&Hsl&Hw). destruct (dent_wrote s s1 v v1 dp ip ip1 k _ Hdo Hsl Hlen Hu8 Hw) as (Hdk&Hk&Hdo1).
  destruct (wo_type _ _ _ _ _ _ _ _ _ _ _ Hw) as (Et&_&En&Er&_). pose proof (wo_ok _ _ _ _ _ _ _ _ _ _ _ Hw) as Hio1.
  assert (Hdir1 : dir_ok sbk ds s1 v1 dp ip1).
  { split; [done|rewrite Et; exact (do_type _ _ _ _ _ _ Hdo)|]. rewrite (wo_size _ _ _ _ _ _ _ _ _ _ _ Hw), Hlen.
    destruct Hdo as [_ _ Hm]. unfold DIRENT in *. destruct (Z.max_spec (i_size ip) (16 * k + Z.of_nat 16)) as [[_ ->]|[_ ->]]; zlia. }
  assert (Hmk : ∀ k', 0 ≤ k' < nents ip1 → dmatch (j_cont v1) ip1 name k' = bool_decide (k' = k)).
  { intros k' Hk'. destruct (decide (k' = k)) as [->|Hne].
    - rewrite bool_decide_eq_true_2 by done. unfold dmatch. rewrite Hdk, Hnum, Hcmp, (proj2 (Z.eqb_neq inum 0)) by lia. done.
    - rewrite bool_decide_eq_false_2 by done. destruct (Hdo1 k' Hk' Hne) as [Hlt E]. unfold dmatch. rewrite E.
      apply (Hno k'). lia. }
  destruct (icache_upd s s1 dp ip ip1 ROOTDEV inum (io_ip _ _ _ _ _ _ (do_inode _ _ _ _ _ _ Hdo))
    (wo_cache _ _ _ _ _ _ _ _ _ _ _ Hw) Er) as [Hok1 Hcr1]; try done.
  { by rewrite (io_dev _ _ _ _ _ _ Hio1), (io_dev _ _ _ _ _ _ (do_inode _ _ _ _ _ _ Hdo)). }
  apply wp_bind. apply (dirlookup_spec sbk ds dev_read s1 v1 dp ip1 name _ Hdir1).
  - apply (wo_room _ _ _ _ _ _ _ _ _ _ _ Hw). eapply room_le; [|exact Hroom]. rewrite Hlen. change (Z.of_nat 16) with 16.
    pose proof (nblk_dirent k). lia.
  - intros s2 Hnone _ _. specialize (Hnone k Hk). by rewrite (Hmk k Hk), bool_decide_eq_true_2 in Hnone.
  - intros s2 k' Hk' Hm' _ Hs2 Hu2. rewrite (Hmk k' Hk') in Hm'. apply bool_decide_eq_true_1 in Hm' as ->.
    rewrite Hdk, Hnum. destruct (icache_upd s1 s2 dp ip1 ip1 ROOTDEV inum (io_ip _ _ _ _ _ _ Hio1) Hu2) as [Hok2 Hcr2]; try done.
    eapply wp_mono; [|by apply iget_spec]. intros i s3 (Hi&_&Hu3&_). apply wp_ret. split; [done|].
    by exists i, k, s1, v1, ip1.
Qed.
End dirs.

Lemma icache_ok_ex type size : icache_ok (icache (fs_ex type size)).
Proof.
  assert (Hr : ∀ i, i ≠ 0%nat → i_ref (icache (fs_ex type size) i) = 0).
  { intros i Hi. simpl. rewrite fn_lookup_insert_ne by done. done. }
  split.
  - intros i _. destruct (decide (i = 0%nat)) as [->|Hi]; [done|]. by rewrite Hr.
  - intros i j d n _ _ (H1&_) (H2&_).
    destruct (decide (i = 0%nat)) as [->|Hi], (decide (j = 0%nat)) as [->|Hj]; try done; rewrite Hr in * by done; lia.
Qed.
Lemma icache_room_ex type size d n : icache_room (icache (fs_ex type size)) d n.
Proof. exists 1%nat. split; [unfold NINODE; lia|by right]. Qed.

Lemma iget_unique_witness :
  wp (iget ROOTDEV 2 ≫= λ i, idup i ≫= λ _, iget ROOTDEV 2 ≫= λ j, mret (i, j)) (fs_ex T_FILE 2)
    (λ '(i, j) s', i = j ∧ used_for (icache s' i) ROOTDEV 2).
Proof.
  eapply wp_mono; [|apply (iget_unique (fs_ex T_FILE 2) ROOTDEV 2 (icache_ok_ex _ _) (icache_room_ex _ _ _ _))].
  intros [i j] s' (E&_&_&Hu&_). split; [exact E|exact Hu].
Defined.

Lemma dirlink_dirlookup_witness :
  wp (dirlink (λ _, None) (λ _, None) 0 [97; 98] 5 ≫= λ r, dirlookup (λ _, None) 0 [97; 98] ≫= λ o, mret (r, o))
    (fs_ex T_DIR 0) (λ '(r, o) s', r = 0 ∧ ∃ i off, o = Some (i, off) ∧ used_for (icache s' i) ROOTDEV 5).
Proof.
  eapply wp_mono; [|apply (dirlink_dirlookup sb_ex ds_ex (λ _, None) (λ _, None) (fs_ex T_DIR 0) view_ex 0 (ino_ex T_DIR 0)
    [97; 98] 5)]; try done.
  - intros [r o] s' (->&i&k&s1&v'&ip'&->&_&Hu&_). split; [reflexivity|]. exists i, (DIRENT * k). split; [reflexivity|exact Hu].
  - split; [by apply inode_ok_ex|done|done].
  - repeat constructor.
  - intros k Hk. exfalso. change (nents (ino_ex T_DIR 0)) with 0 in Hk. lia.
  - vm_compute. lia.
  - apply avail_ex. lia.
  - apply icache_ok_ex.
  - apply icache_room_ex.
Defined.

(** ** A file write as a transaction *)

(** An operation of the file system, as one on its blocks that also returns the
    inode cache. *)
Definition run_fs {S A} (sbk : superblock) (p : Z) (ic : nat → inode) (m : K (@fsst S) A) : K S (A * (nat → inode)) := λ b,
  match m {| blk := b; sb := sbk; icache := ic; fs_pid := p |} with
  | Ret a s => Ret (a, icache s) (blk s)
  | Panic msg => Panic msg
  | Fault msg => Fault msg
  | Sleep c s => Sleep c (blk s)
  | Diverge => Diverge
  end.

Lemma wp_run_fs {S A} sbk p ic (m : K (@fsst S) A) b (Q : A * (nat → inode) → S → Prop) :
  wp m {| blk := b; sb := sbk; icache := ic; fs_pid := p |} (λ a s, Q (a, icache s) (blk s)) → wp (run_fs sbk p ic m) b Q.
Proof. unfold wp, run_fs. by destruct (m _). Qed.

(** Contents that agree outside the log. *)
Section agree.
Context (sbk : superblock) (ds : Z) (v : jview) (c c' : Z → mem).
Context (Hl : layout sbk ds v) (Hc : ∀ b, ¬ j_res v b → c' b = c b).

Lemma bit_agree b : 0 ≤ b < sb_size sbk → bit sbk c' b = bit sbk c b.
Proof. intros Hb. apply bit_ext, Hc. by destruct (BBLOCK_range sbk ds v b Hl Hb) as (_&_&?). Qed.
Lemma disk_ok_agree : disk_ok sbk ds c → disk_ok sbk ds c'.
Proof.
  intros [D1 D2]. pose proof (ly_ds _ _ _ Hl). split; [rewrite Hc; [done|apply Hl]|]. intros b Hb. rewrite bit_agree by lia. by apply D2.
Qed.
Lemma avail_agree n : avail sbk c n → avail sbk c' n.
Proof. apply avail_ext. intros x Hx. by apply bit_agree. Qed.

Context (ip : inode) (Hf : file_ok sbk ds c ip).

Lemma data_agree x : owned c ip x → c' x = c x.
Proof. intros Hx. destruct (fo_used _ _ _ _ Hf x Hx) as (?&?&_). apply Hc, (ly_data _ _ _ Hl). lia. Qed.
Lemma slot_agree k : slot c' ip k = slot c ip k.
Proof.
  unfold slot. destruct (k <? NDIRECT); [done|]. destruct (Z.eqb_spec (indirect ip) 0) as [|Hi]; [done|].
  rewrite data_agree; [done|]. split; [done|by left].
Qed.
Lemma owned_agree x : owned c' ip x ↔ owned c ip x.
Proof. unfold owned. by setoid_rewrite slot_agree. Qed.
Lemma file_ok_agree : file_ok sbk ds c' ip.
Proof.
  destruct Hf as [F1 F2 F3 F4 F5]. split; try done.
  - intros x Hx%owned_agree. destruct (F1 x Hx) as (?&?&?). split_and!; try lia. rewrite bit_agree by lia. done.
  - intros k k'. rewrite !slot_agree. apply F2.
  - intros k. rewrite slot_agree. apply F3.
  - intros k. rewrite slot_agree. apply F4.
Qed.
Lemma fbyte_agree o : 0 ≤ o < i_size ip → fbyte c' ip o = fbyte c ip o.
Proof.
  intros Ho. pose proof (fo_size _ _ _ _ Hf). apply fbyte_same; [apply slot_agree|]. apply data_agree.
  split; [apply (fo_full _ _ _ _ Hf); unfold BSIZE; zlia|right]. exists (o / BSIZE). split; [apply fblock_div; lia|done].
Qed.
End agree.

(** The layout of a disk of [z] blocks with the log at [st]. *)
Definition log_view (st z : Z) : jview := {| j_cont := λ _, ∅; j_size := z; j_res := λ b, ¬ home st LOGSIZE b;
  j_held := ∅; j_log := ∅; j_mod := ∅ |}.

Lemma layout_res sbk ds v v' :
  layout sbk ds v → j_size v' = j_size v → (∀ b, j_res v' b ↔ j_res v b) → layout sbk ds v'.
Proof. intros [L1 L2 L3 L4 L5 L6 L7] Ez Er. split; rewrite ?Ez; try done; intros; rewrite ?Er; eauto. Qed.

(** The inode [ip] is what the disk has for its number. *)
Definition stored (sbk : superblock) (C : Z → mem) (ip : inode) : Prop :=
  same_inode ip (load_inode (C (IBLOCK (i_inum ip) sbk)) (i_inum ip mod IPB * DINODE) ip).

(** What a file write does to the content [C] of the blocks outside the log.  The
    inode on the disk describes the new file when it described the old one; the other
    inodes are as they were; a block is in use in the free map exactly when it was
    before or is a block of the file, and the new blocks of the file were free. *)
Definition file_written (C C' : Z → mem) (sbk : superblock) (ip ip' : inode) (off : Z) (src : list Z) : Prop :=
  i_size ip' = Z.max (i_size ip) (off + Z.of_nat (length src)) ∧
  fbytes C' ip' off (Z.of_nat (length src)) = u8 <$> src ∧
  (∀ o, 0 ≤ o < i_size ip → ¬ off ≤ o < off + Z.of_nat (length src) → fbyte C' ip' o = fbyte C ip o) ∧
  (∀ x, 0 ≤ x < sb_size sbk → bit sbk C x = true → ¬ is_bmap sbk x → ¬ owned C ip x → x ≠ IBLOCK (i_inum ip) sbk →
    home (sb_log sbk) LOGSIZE x → C' x = C x) ∧
  i_inum ip' = i_inum ip ∧ (inode_fits ip → stored sbk C ip → inode_fits ip' ∧ stored sbk C' ip') ∧
  (∀ n ip0, 0 ≤ n < sb_ninodes sbk → n ≠ i_inum ip →
     same_inode (load_inode (C (IBLOCK n sbk)) (n mod IPB * DINODE) ip0)
                (load_inode (C' (IBLOCK n sbk)) (n mod IPB * DINODE) ip0)) ∧
  (∀ x, 0 ≤ x < sb_size sbk → bit sbk C' x = true ↔ bit sbk C x = true ∨ owned C' ip' x) ∧
  ∀ x, owned C' ip' x → owned C ip x ∨ bit sbk C x = false.

(** The inode after a write, on the disk. *)
Section stored.
Context {S : Type} `{!Blocks S, !BlocksSpec S} (sbk : superblock) (ds : Z).
Context (s s' : @fsst S) (v v' : jview) (i : nat) (ip ip' : inode) (off : Z) (src : list Z).
Context (Hio : inode_ok sbk ds s v i ip) (Hin : 0 ≤ i_inum ip < sb_ninodes sbk).
Context (Hw : wrote sbk ds s v i ip off src s' v' ip').

Lemma wrote_fits : inode_fits ip → inode_fits ip'.
Proof.
  intros [H1 H2 H3 H4 H5 H6]. destruct (wo_type _ _ _ _ _ _ _ _ _ _ _ Hw) as (E1&E2&_), (wo_dev _ _ _ _ _ _ _ _ _ _ _ Hw) as [E3 E4].
  pose proof (wo_ok _ _ _ _ _ _ _ _ _ _ _ Hw) as [Hao _ _ [F1 F2 F3 F4 F5] _]. pose proof (ao_layout _ _ _ _ Hao) as Hl.
  pose proof (ly_small _ _ _ Hl). pose proof (ly_size _ _ _ Hl). change (MAXFILE * BSIZE) with 71680 in F5.
  split; rewrite ?E1, ?E2, ?E3, ?E4; try done; [unfold is_u32; lia|]. intros k Hk. unfold NDIRECT in Hk.
  destruct (decide (i_addrs ip' k = 0)) as [->|Hne]; [done|]. destruct (F1 (i_addrs ip' k)) as (A1&A2&_); [|unfold is_u32; lia].
  split; [done|]. destruct (decide (k = 12)) as [->|Hk']; [by left|right]. exists k.
  split; [unfold fblock; change MAXFILE with 140; lia|]. unfold slot, NDIRECT. by rewrite (proj2 (Z.ltb_lt k 12)) by lia.
Qed.

Lemma wrote_stored : inode_fits ip → stored sbk (j_cont v) ip → stored sbk (j_cont v') ip'.
Proof.
  intros Hfit Hst. destruct (wo_type _ _ _ _ _ _ _ _ _ _ _ Hw) as (_&_&E&_). unfold stored in *. rewrite E.
  destruct (wo_ino _ _ _ _ _ _ _ _ _ _ _ Hw) as [[-> ->]| ->]; [done|]. by apply load_store, wrote_fits.
Qed.

Lemma wrote_inodes n ip0 : 0 ≤ n < sb_ninodes sbk → n ≠ i_inum ip →
  same_inode (load_inode (j_cont v (IBLOCK n sbk)) (n mod IPB * DINODE) ip0)
             (load_inode (j_cont v' (IBLOCK n sbk)) (n mod IPB * DINODE) ip0).
Proof.
  intros Hn Hne. pose proof Hio as [Hao _ _ Hf _]. pose proof (ao_layout _ _ _ _ Hao) as Hl. pose proof (ly_ds _ _ _ Hl).
  destruct (IBLOCK_range sbk ds v n Hl Hn) as (R1&R2&R3&R4). destruct (decide (IBLOCK n sbk = IBLOCK (i_inum ip) sbk)) as [E|E].
  - rewrite E. destruct (wo_ino _ _ _ _ _ _ _ _ _ _ _ Hw) as [[-> _]| ->]; [by split_and!|]. apply load_store_ne.
    unfold IBLOCK in E. destruct (ly_inode _ _ _ Hl n Hn) as (I1&I2&_), (ly_inode _ _ _ Hl _ Hin) as (I3&I4&_).
    pose proof (ly_small _ _ _ Hl). pose proof (ly_size _ _ _ Hl). rewrite !u32_small in E by (unfold is_u32; lia).
    unfold DINODE, IPB, BSIZE in *. zlia.
  - rewrite (wo_other _ _ _ _ _ _ _ _ _ _ _ Hw); [by split_and!|lia| |done| |done].
    + apply (dk_meta _ _ _ (ao_disk _ _ _ _ Hao)). lia.
    + intros Ho. destruct (fo_used _ _ _ _ Hf _ Ho) as (?&_). lia.
Qed.

Lemma wrote_bits x : 0 ≤ x < sb_size sbk →
  bit sbk (j_cont v') x = true ↔ bit sbk (j_cont v) x = true ∨ owned (j_cont v') ip' x.
Proof.
  intros Hx. split; [by apply (wo_used _ _ _ _ _ _ _ _ _ _ _ Hw)|]. intros [Hb|Ho]; [by apply (wo_bit _ _ _ _ _ _ _ _ _ _ _ Hw)|].
  by destruct (fo_used _ _ _ _ (io_file _ _ _ _ _ _ (wo_ok _ _ _ _ _ _ _ _ _ _ _ Hw)) _ Ho) as (_&_&?).
Qed.
End stored.

Section crash.
Context (iderw : nat → K bst unit) `{!DiskDriver iderw}.
Context (sbk : superblock) (ds z : Z).
Abbreviation st := (sb_log sbk).
#[local] Instance log_inst : Blocks lst := log_blocks iderw.

Lemma writei_block_op dev_write p ic C i ip off src :
  let n := Z.of_nat (length src) in
  layout sbk ds (log_view st z) → disk_ok sbk ds C → file_ok sbk ds C ip → ic i = ip → i_dev ip = ROOTDEV →
  i_type ip ≠ T_DEV → 0 ≤ off ≤ i_size ip → off + n ≤ MAXFILE * BSIZE → 0 ≤ i_inum ip < sb_ninodes sbk →
  (nblk off n + base.size (bmap_blocks sbk) + 6 ≤ 28)%nat → avail sbk C (2 * nblk off n) →
  block_op st z (run_fs sbk p ic (writei dev_write i src off n)) C
    (λ '(r, ic') C', r = n ∧ file_written C C' sbk ip (ic' i) off src).
Proof.
  intros n Hl Hd Hf Hic Hdev Hty Hoff Hmax Hin Hroom Hav D0 P0 b v Hrep Hz Hres Hct Hh Hlg Hmd.
  pose (Bl := log_blocks_spec iderw D0 P0 st 1).
  assert (Hlv : layout sbk ds v) by (by apply (layout_res _ _ (log_view st z))).
  assert (Hc : ∀ b, ¬ j_res v b → j_cont v b = C b).
  { intros x Hx. apply Hct. rewrite Hres in Hx. unfold home in *. lia. }
  assert (Hio : inode_ok (BlocksSpec0 := Bl) sbk ds {| blk := b; sb := sbk; icache := ic; fs_pid := p |} v i ip).
  { split; try done.
    - split; try done; [by apply (disk_ok_agree sbk ds v C)|intros x _; rewrite Hh; set_solver|intros x; rewrite Hh; set_solver].
    - by apply (file_ok_agree sbk ds v C).
    - intros x _. rewrite Hh. set_solver. }
  apply wp_run_fs. eapply wp_mono; [|apply (writei_budget (BlocksSpec0 := Bl) sbk ds _ dev_write _ v i ip off src (budget_tight sbk) Hio)]; try done.
  - intros r s' (->&v'&ip'&Hw). destruct (ao_shows _ _ _ _ (io_alloc _ _ _ _ _ _ (wo_ok _ _ _ _ _ _ _ _ _ _ _ Hw))) as [Hr' _].
    destruct (wo_cache _ _ _ _ _ _ _ _ _ _ _ Hw) as (_&Eic&_). exists v'. split; [exact Hr'|].
    rewrite (wo_held _ _ _ _ _ _ _ _ _ _ _ Hw), (wo_size' _ _ _ _ _ _ _ _ _ _ _ Hw), (wo_res _ _ _ _ _ _ _ _ _ _ _ Hw).
    do 3 (split; [done|]). split; [intros H1; apply (wo_super _ _ _ _ _ _ _ _ _ _ _ Hw) in H1; rewrite Hlg in H1; set_solver|].
    split; [done|]. rewrite Eic.
    split; [apply (wo_size _ _ _ _ _ _ _ _ _ _ _ Hw)|]. split; [apply (wo_bytes _ _ _ _ _ _ _ _ _ _ _ Hw)|]. split.
    + intros o Ho Hno. rewrite (wo_rest _ _ _ _ _ _ _ _ _ _ _ Hw) by done. by apply (fbyte_agree sbk ds v C).
    + split.
      { intros x Hx Hb Hm Ho Hne Hhm. rewrite <- Hct by done. apply (wo_other _ _ _ _ _ _ _ _ _ _ _ Hw); try done.
        - rewrite (bit_agree sbk ds v C) by done. done.
        - rewrite (owned_agree sbk ds v C) by done. done. }
      split; [apply (wo_type _ _ _ _ _ _ _ _ _ _ _ Hw)|]. destruct (IBLOCK_range sbk ds v _ Hlv Hin) as (_&_&R3&_).
      split.
      { intros Hfit Hst. split; [by eapply wrote_fits|]. eapply (wrote_stored sbk ds); [done|done|]. unfold stored. by rewrite Hc. }
      split.
      { intros m ip0 Hm Hne. destruct (IBLOCK_range sbk ds v m Hlv Hm) as (_&_&Q3&_). rewrite <- (Hc _ Q3). by eapply (wrote_inodes sbk ds). }
      split; intros x Hx.
      { rewrite <- (bit_agree sbk ds v C (j_cont v)) by done. by eapply (wrote_bits sbk ds). }
      destruct (wo_new _ _ _ _ _ _ _ _ _ _ _ Hw x Hx) as [Ho|Hb]; [left; by rewrite (owned_agree sbk ds v C) in Ho|right].
      destruct (fo_used _ _ _ _ (io_file _ _ _ _ _ _ (wo_ok _ _ _ _ _ _ _ _ _ _ _ Hw)) _ Hx) as (U1&U2&_).
      rewrite <- (bit_agree sbk ds v C (j_cont v)) by (done || lia). done.
  - rewrite Hh. set_solver.
  - split; [intros x; by apply (bmap_blocks_spec sbk ds v)|]. rewrite Hh, Hlg. fold n.
    pose proof (size_union_alt (bmap_blocks sbk) (ind_block ip)) as E. rewrite !(left_id_L ∅ (∪)).
    assert (base.size (ind_block ip ∖ bmap_blocks sbk) ≤ base.size (ind_block ip))%nat by (apply subseteq_size; set_solver).
    unfold ind_block in *. destruct (decide (indirect ip = 0)); [rewrite size_empty in *|rewrite size_singleton in *]; lia.
  - by apply (avail_agree sbk ds v C).
Qed.

(** C7: A write to a file is atomic under crashes.  Run as a transaction, between
    begin_op() and end_op(), writei() returns with the bytes in the file on the
    disk and nothing else changed ([file_written]): the inode in its block describes
    the file as the cache does if it did before, the other inodes and the blocks of
    other files are as they were, and the free map has exactly the new blocks of the
    file more, which were free.  Whenever the machine stops on the way, or after it,
    reboots included, recovery brings the disk to the content before the write or to
    the one after it.  The write may touch so many blocks that with the blocks of the
    free map and six more they fit the 28 blocks of a transaction (21 blocks on a disk
    with one block of free map, more than the 14 that filewrite() lets writei() touch at a
    time), and twice as many blocks have to be free. *)
Theorem file_write_crash_atomic dev_write p ic C s i ip off src :
  let n := Z.of_nat (length src) in
  idle st z C s → super_ok st C → layout sbk ds (log_view st z) → disk_ok sbk ds C → file_ok sbk ds C ip →
  ic i = ip → i_dev ip = ROOTDEV → i_type ip ≠ T_DEV → 0 ≤ off ≤ i_size ip → off + n ≤ MAXFILE * BSIZE →
  0 ≤ i_inum ip < sb_ninodes sbk → (nblk off n + base.size (bmap_blocks sbk) + 6 ≤ 28)%nat → avail sbk C (2 * nblk off n) →
  wp (begin_op ≫= λ _, run_fs sbk p ic (writei dev_write i src off n) ≫= λ a, end_op iderw ≫= λ _, mret a) s
    (λ '(r, ic') s', r = n ∧ ∃ C', file_written C C' sbk ip (ic' i) off src ∧ idle st z C' s' ∧
      (∀ b, home st LOGSIZE b → disk (cache s') b = C' b) ∧
      ∃ crashes, past (cache s') = crashes ++ past (cache s) ∧
      ∀ D D', D ∈ disk (cache s') :: crashes → rtc (boots z iderw) D D' →
        wp (reboot iderw) (boot z D') (λ _ s'',
          (∀ b, home st LOGSIZE b → disk (cache s'') b = C b) ∨
          (∀ b, home st LOGSIZE b → disk (cache s'') b = C' b))).
Proof.
  intros n Hid Hsup Hl Hd Hf Hic Hdev Hty Hoff Hmax Hin Hroom Hav.
  eapply wp_mono; [|apply (transaction_atomic iderw st z _ C _ s Hid Hsup
    (writei_block_op dev_write p ic C i ip off src Hl Hd Hf Hic Hdev Hty Hoff Hmax Hin Hroom Hav))].
  intros [r ic'] s' (C'&[-> Hw]&H). split; [done|]. by exists C'.
Qed.
End crash.

Lemma cont_ex_recoverable : recoverable 2 LOGSIZE 100 cont_ex cont_ex.
Proof.
  assert (H0 : hb_n (cont_ex 2) = 0) by reflexivity. split; try done.
  split; rewrite H0; [done|done|]. intros i Hi. lia.
Qed.
Lemma stored_ex : stored sb_ex cont_ex (ino_ex T_FILE 2).
Proof. apply (load_store (ino_ex T_FILE 2) (ino_ex T_FILE 2) 128 ∅). by apply inode_fits_ex. Qed.
Lemma layout_log_ex : layout sb_ex ds_ex (log_view 2 100).
Proof. apply layout_gen_ex; [done|]. intros b. simpl. unfold home, LOGSIZE, MAXOPBLOCKS. lia. Qed.

Lemma file_write_crash_atomic_witness : ∃ s, idle 2 100 cont_ex s ∧
  wp (begin_op ≫= λ _, run_fs sb_ex 3 (λ _, ino_ex T_FILE 2)
        (@writei lst (log_blocks Memide.iderw) (λ _, None) 0 [120; 121; 122] 2 3) ≫= λ a,
      end_op Memide.iderw ≫= λ _, mret a) s
    (λ '(r, ic') s', r = 3 ∧ ∃ C', fbytes C' (ic' 0%nat) 2 3 = [120; 121; 122] ∧ i_size (ic' 0%nat) = 5 ∧
      stored sb_ex C' (ic' 0%nat) ∧ (∀ b, home 2 LOGSIZE b → disk (cache s') b = C' b)).
Proof.
  destruct (proj1 (wp_Ret _ _ _) (reboot_idle Memide.iderw 2 100 cont_ex cont_ex
    ltac:(lia) ltac:(unfold LOGSIZE, MAXOPBLOCKS; lia) ltac:(lia) cont_ex_recoverable)) as (u&s&_&Hid).
  exists s. split; [exact Hid|].
  eapply wp_mono; [|apply (file_write_crash_atomic Memide.iderw sb_ex ds_ex 100 (λ _, None) 3 (λ _, ino_ex T_FILE 2) cont_ex s 0
    (ino_ex T_FILE 2) 2 [120; 121; 122] Hid (conj (eq_refl : 1 < 2) (conj eq_refl eq_refl)) layout_log_ex disk_ok_ex
    (file_ok_ex T_FILE 2 ltac:(unfold BSIZE; lia)) eq_refl eq_refl ltac:(discriminate) ltac:(simpl; lia)
    ltac:(vm_compute; discriminate) ltac:(simpl; lia) ltac:(vm_compute; lia) (avail_ex 2 ltac:(lia)))].
  intros [r ic'] s' (->&C'&(Hz&Hb&_&_&_&Hst&_)&_&Hd&_). split; [reflexivity|]. exists C'. split; [exact Hb|]. split; [exact Hz|].
  split; [|exact Hd]. apply Hst; [by apply inode_fits_ex|exact stored_ex].
Defined.
