(* ===== verification/Umalloc.v ===== *)
(** The user-level memory allocator (src/umalloc.c).

    The headers of the blocks are in the memory of the process; a pointer is an
    address, a size is a number of units of 8 bytes, sizeof(Header).  The state
    is that memory, the variable freep and the break.  The address of the
    variable base and the outcome of sbrk() are parameters. *)

From Stdlib Require Import ZArith Lia Sorted.
From stdpp Require Import base tactics numbers gmap strings relations sorting list.
From S2P Require Import Prelude Memory.

#[local] Open Scope Z_scope.

(** Membership in lists made of others. *)
Ltac elem_list := repeat rewrite ?elem_of_app, ?elem_of_cons in *; tauto.

Definition HEADER : Z := 8.
Definition hptr (m : mem) (p : Z) : Z := rd32 m p.
Definition hsize (m : mem) (p : Z) : Z := rd32 m (p + 4).
Definition set_hptr (p x : Z) (m : mem) : mem := wr32 m p x.
Definition set_hsize (p n : Z) (m : mem) : mem := wr32 m (p + 4) n.

Record ust := { um : mem; freep : Z; brk : Z }.
Definition set_um (f : mem → mem) (s : ust) : ust := {| um := f (um s); freep := freep s; brk := brk s |}.
Definition set_freep (p : Z) (s : ust) : ust := {| um := um s; freep := p; brk := brk s |}.
Definition set_brk (b : Z) (s : ust) : ust := {| um := um s; freep := freep s; brk := b |}.

Section umalloc.
(** &base, and sbrk(n) with the break at [b]: the new break, or failure. *)
Context (base_addr : Z) (sbrk_ok : Z → Z → option Z).

(** The search for the place of [bp] in the free list. *)
Fixpoint free_scan (fuel : nat) (m : mem) (bp p : Z) : option Z :=
  if (p <? bp) && (bp <? hptr m p) then Some p
  else if (hptr m p <=? p) && ((p <? bp) || (bp <? hptr m p)) then Some p
  else match fuel with O => None | S fuel' => free_scan fuel' m bp (hptr m p) end.

(** More than the number of blocks below the break, twice. *)
Definition scan_fuel (s : ust) : nat := Z.to_nat (2 * brk s + 2).

Definition free (ap : Z) : K ust unit :=
  let bp := u32 (ap - HEADER) in
  get ≫= λ s,
  if freep s =? 0 then fault "free: null freep" else
  match free_scan (scan_fuel s) (um s) bp (freep s) with
  | None => diverge
  | Some p =>
      gets um ≫= λ m,
      (if u32 (bp + HEADER * hsize m bp) =? hptr m p then
         modify (set_um (λ m, set_hsize bp (u32 (hsize m bp + hsize m (hptr m p))) m)) ≫= λ _,
         modify (set_um (λ m, set_hptr bp (hptr m (hptr m p)) m))
       else modify (set_um (λ m, set_hptr bp (hptr m p) m))) ≫= λ _,
      gets um ≫= λ m,
      (if u32 (p + HEADER * hsize m p) =? bp then
         modify (set_um (λ m, set_hsize p (u32 (hsize m p + hsize m bp)) m)) ≫= λ _,
         modify (set_um (λ m, set_hptr p (hptr m bp) m))
       else modify (set_um (set_hptr p bp))) ≫= λ _,
      modify (set_freep p)
  end.

Definition sbrk (n : Z) : K ust Z :=
  gets brk ≫= λ b,
  match sbrk_ok (s32 n) b with
  | Some b' => modify (set_brk b') ≫= λ _, mret b
  | None => mret 4294967295
  end.

Definition morecore (nu : Z) : K ust Z :=
  let nu := if nu <? 4096 then 4096 else nu in
  sbrk (u32 (nu * HEADER)) ≫= λ p,
  if p =? 4294967295 then mret 0 else
  modify (set_um (set_hsize p nu)) ≫= λ _,
  free (u32 (p + HEADER)) ≫= λ _,
  gets freep.

Fixpoint malloc_loop (fuel : nat) (nunits prevp p : Z) : K ust Z :=
  gets um ≫= λ m,
  if nunits <=? hsize m p then
    (if hsize m p =? nunits then
       modify (set_um (set_hptr prevp (hptr m p))) ≫= λ _, mret p
     else
       let n' := u32 (hsize m p - nunits) in
       let p' := u32 (p + HEADER * n') in
       modify (set_um (set_hsize p n')) ≫= λ _,
       modify (set_um (set_hsize p' nunits)) ≫= λ _, mret p') ≫= λ p,
    modify (set_freep prevp) ≫= λ _,
    mret (u32 (p + HEADER))
  else
    gets freep ≫= λ fp,
    (if p =? fp then morecore nunits ≫= λ q, mret (if q =? 0 then None else Some q)
     else mret (Some p)) ≫= λ o,
    match o, fuel with
    | None, _ => mret 0
    | Some _, O => diverge
    | Some p, S fuel' => gets um ≫= λ m, malloc_loop fuel' nunits p (hptr m p)
    end.

(** Enough for the blocks below the break, before and after morecore. *)
Definition malloc_fuel (s : ust) : nat := Z.to_nat (2 * brk s + 4).

Definition malloc (nbytes : Z) : K ust Z :=
  let nunits := u32 (nbytes + HEADER - 1) / HEADER + 1 in
  gets freep ≫= λ fp,
  when (fp =? 0) (modify (set_um (set_hptr base_addr base_addr)) ≫= λ _,
                  modify (set_freep base_addr) ≫= λ _,
                  modify (set_um (set_hsize base_addr 0))) ≫= λ _,
  get ≫= λ s,
  malloc_loop (malloc_fuel s) nunits (freep s) (hptr (um s) (freep s)).

(** ** The free list *)

(** [l] is a part of the free list in [m], of blocks (address, units), and the
    block after it is [last]. *)
Definition hd_addr (l : list (Z * Z)) (last : Z) : Z := match l with [] => last | (a, _) :: _ => a end.
Fixpoint linked (m : mem) (l : list (Z * Z)) (last : Z) : Prop :=
  match l with
  | [] => True
  | (a, n) :: l' => hptr m a = hd_addr l' last ∧ hsize m a = n ∧ linked m l' last
  end.

(** [x] lies before [y], and they do not touch. *)
Definition gap (x y : Z * Z) : Prop := fst x + 8 * snd x < fst y.
Definition disj (x y : Z * Z) : Prop := fst x + 8 * snd x ≤ fst y ∨ fst y + 8 * snd y ≤ fst x.

Lemma hd_addr_app l1 l2 last : hd_addr (l1 ++ l2) last = hd_addr l1 (hd_addr l2 last).
Proof. by destruct l1. Qed.
Lemma linked_app m l1 l2 last : linked m (l1 ++ l2) last ↔ linked m l1 (hd_addr l2 last) ∧ linked m l2 last.
Proof.
  induction l1 as [|[a n] l1 IH]; simpl; [tauto|]. rewrite IH, hd_addr_app. tauto.
Qed.
(** The list depends on the headers of its blocks only. *)
Lemma linked_frame m m' l last :
  (∀ a n o, (a, n) ∈ l → a ≤ o < a + 8 → rd8 m' o = rd8 m o) → linked m l last → linked m' l last.
Proof.
  induction l as [|[a n] l IH]; simpl; [done|]. intros Hf (H1&H2&H3).
  assert (Hr : ∀ o, a ≤ o < a + 8 → rd8 m' o = rd8 m o) by (intros o; apply (Hf a n); left).
  split; [|split].
  - rewrite <- H1. apply rd32_ext. intros b Hb. apply Hr. lia.
  - rewrite <- H2. apply rd32_ext. intros b Hb. apply Hr. lia.
  - apply IH; [|done]. intros a' n' o Hin. apply (Hf a' n'). by right.
Qed.

(** The block before [bp]. *)
Fixpoint before (bp q : Z) (l : list (Z * Z)) : Z :=
  match l with
  | [] => q
  | (a, _) :: l' => if a <? bp then before bp a l' else q
  end.

Lemma gap_lt x l : Forall (λ y, 0 ≤ snd y) (x :: l) → StronglySorted gap (x :: l) → ∀ y, y ∈ l → fst x < fst y.
Proof.
  intros Hn Hs y Hy. inversion Hs as [|? ? _ Hg]; inversion Hn; subst. rewrite Forall_forall in Hg.
  specialize (Hg y Hy). unfold gap in Hg. lia.
Qed.
Lemma sorted_tail x l : StronglySorted gap (x :: l) → StronglySorted gap l.
Proof. by inversion 1. Qed.

Lemma sorted_drop l1 x y l : StronglySorted gap (l1 ++ x :: y :: l) → StronglySorted gap (l1 ++ x :: l).
Proof.
  intros (Hc&H1&H2)%StronglySorted_app. apply StronglySorted_app. split; [intros x1 x2 Hx1 Hx2; apply Hc; set_solver|].
  split; [done|]. apply StronglySorted_inv in H2 as [H2 Hf]. inversion Hf; subst. constructor; [by apply sorted_tail in H2|done].
Qed.

(** Going forward from a block before [bp]. *)
Lemma free_scan_forward m bp q n l last :
  linked m ((q, n) :: l) last → StronglySorted gap ((q, n) :: l) → Forall (λ y, 0 ≤ snd y) ((q, n) :: l) →
  (∀ y, y ∈ l → fst y ≠ bp) → last ≤ q → q < bp →
  ∀ k, free_scan (length l + k) m bp q = Some (before bp q l).
Proof.
  revert q n. induction l as [|[a na] l IH]; intros q n Hl Hs Hn Hne Hlast Hq k.
  - destruct Hl as (E&_). simpl in E. simpl. destruct k; simpl; rewrite E;
      rewrite (proj2 (Z.ltb_lt q bp)), (proj2 (Z.ltb_ge bp last)), (proj2 (Z.leb_le last q)) by lia; done.
  - destruct Hl as (E&_&Hl). simpl in E. pose proof (gap_lt _ _ Hn Hs (a, na) ltac:(left)) as Hqa. simpl in Hqa.
    cbn [length Nat.add free_scan before]. rewrite E, (proj2 (Z.ltb_lt q bp)), (proj2 (Z.leb_gt a q)) by lia. simpl.
    assert (Ha : a ≠ bp) by apply (Hne (a, na) ltac:(left)).
    destruct (Z.ltb_spec bp a), (Z.ltb_spec a bp); try lia; [done|].
    apply (IH a na); try done; [by eapply sorted_tail|by inversion Hn| |lia]. intros y Hy. apply Hne. by right.
Qed.

(** Going on from a block after [bp], round to the first. *)
Lemma free_scan_wrap m bp q n l last :
  linked m ((q, n) :: l) last → StronglySorted gap ((q, n) :: l) → Forall (λ y, 0 ≤ snd y) ((q, n) :: l) →
  last < bp → bp < q →
  ∀ k, free_scan (S (length l) + k) m bp q = free_scan k m bp last.
Proof.
  revert q n. induction l as [|[a na] l IH]; intros q n Hl Hs Hn Hlast Hq k.
  - destruct Hl as (E&_). simpl in E. cbn [length Nat.add free_scan]. rewrite E.
    rewrite (proj2 (Z.ltb_ge q bp)), (proj2 (Z.ltb_ge bp last)) by lia. simpl. by rewrite andb_false_r.
  - destruct Hl as (E&_&Hl). simpl in E. pose proof (gap_lt _ _ Hn Hs (a, na) ltac:(left)) as Hqa. simpl in Hqa.
    cbn [length]. rewrite Nat.add_succ_l. cbn [free_scan]. rewrite E.
    rewrite (proj2 (Z.ltb_ge q bp)), (proj2 (Z.leb_gt a q)) by lia. simpl.
    apply (IH a na); try done; [by eapply sorted_tail|by inversion Hn|lia].
Qed.

Lemma before_split bp q n l :
  StronglySorted gap ((q, n) :: l) → Forall (λ y, 0 ≤ snd y) ((q, n) :: l) → (∀ y, y ∈ l → fst y ≠ bp) → q < bp →
  ∃ l1 np l2, (q, n) :: l = l1 ++ (before bp q l, np) :: l2 ∧ before bp q l < bp ∧ ∀ y, y ∈ l2 → bp < fst y.
Proof.
  revert q n. induction l as [|[a na] l IH]; intros q n Hs Hn Hne Hq; simpl.
  - exists [], n, []. split; [done|]. split; [done|]. set_solver.
  - assert (Ha : a ≠ bp) by apply (Hne (a, na) ltac:(left)).
    pose proof (sorted_tail _ _ Hs) as Hs'. assert (Hn' : Forall (λ y, 0 ≤ snd y) ((a, na) :: l)) by (by inversion Hn).
    destruct (Z.ltb_spec a bp).
    + destruct (IH a na) as (l1&np&l2&E&H1&H2); try done; [intros y Hy; apply Hne; by right|].
      exists ((q, n) :: l1), np, l2. rewrite E. done.
    + exists [], n, ((a, na) :: l). split; [done|]. split; [done|].
      intros y [->|Hy]%elem_of_cons; [simpl; lia|]. pose proof (gap_lt _ _ Hn' Hs' y Hy). simpl in *. lia.
Qed.

(** The scan finds the block before [bp], wherever it starts. *)
Lemma free_scan_spec m bp fl fp fuel :
  linked m ((base_addr, 0) :: fl) base_addr → StronglySorted gap ((base_addr, 0) :: fl) → Forall (λ y, 0 ≤ snd y) fl →
  (∀ y, y ∈ fl → fst y ≠ bp) → base_addr < bp → fp ∈ ((base_addr, 0) :: fl).*1 →
  (2 * length fl + 2 ≤ fuel)%nat →
  ∃ l1 p np l2, (base_addr, 0) :: fl = l1 ++ (p, np) :: l2 ∧ free_scan fuel m bp fp = Some p ∧ p < bp ∧
    ∀ y, y ∈ l2 → bp < fst y.
Proof.
  intros Hl Hs Hn Hne Hb Hfp Hfuel. assert (Hn0 : Forall (λ y, 0 ≤ snd y) ((base_addr, 0) :: fl)) by (by constructor).
  apply list_elem_of_fmap in Hfp as ([q nq]&Eq&Hin). simpl in Eq. subst fp. apply list_elem_of_split in Hin as (pre&post&E).
  assert (Hlen : (length pre + length post = length fl)%nat).
  { apply (f_equal length) in E. rewrite length_app in E. simpl in E. lia. }
  assert (Hl' := Hl). rewrite E in Hl'. apply linked_app in Hl' as [_ Hl'].
  assert (Hs' := Hs). rewrite E in Hs'. apply StronglySorted_app_1_r in Hs'.
  assert (Hn' := Hn0). rewrite E in Hn'. apply Forall_app in Hn' as [_ Hn'].
  assert (Hbase : ∀ y, y ∈ (base_addr, 0) :: fl → base_addr ≤ fst y).
  { intros y [->|Hy]%elem_of_cons; [done|]. pose proof (gap_lt _ _ Hn0 Hs y Hy). simpl in *. lia. }
  assert (Hq : base_addr ≤ q) by (apply (Hbase (q, nq)); rewrite E; set_solver).
  assert (Hqne : q ≠ bp).
  { intros ->. destruct (decide ((bp, nq) ∈ fl)) as [Hi|Hi]; [by apply (Hne _ Hi)|].
    assert (Hin : (bp, nq) ∈ (base_addr, 0) :: fl) by (rewrite E; set_solver).
    apply elem_of_cons in Hin as [[= -> ->]|]; [lia|done]. }
  destruct (Z.lt_ge_cases q bp) as [Hlt|Hge].
  - assert (Hne' : ∀ y, y ∈ post → fst y ≠ bp).
    { intros y Hy. assert (Hiny : y ∈ (base_addr, 0) :: fl) by (rewrite E; set_solver).
      apply elem_of_cons in Hiny as [->|Hiny]; [simpl; lia|by apply Hne]. }
    destruct (before_split bp q nq post Hs' Hn' Hne' Hlt) as (l1&np&l2&E2&H1&H2).
    exists (pre ++ l1), (before bp q post), np, l2. rewrite E, E2, <- app_assoc. split; [done|]. split; [|done].
    replace fuel with (length post + (fuel - length post))%nat by lia. by eapply free_scan_forward.
  - destruct (before_split bp base_addr 0 fl Hs Hn0 Hne Hb) as (l1&np&l2&E2&H1&H2).
    exists l1, (before bp base_addr fl), np, l2. split; [done|]. split; [|done].
    replace fuel with (S (length post) + (length fl + (fuel - S (length post) - length fl)))%nat by lia.
    erewrite free_scan_wrap; [|exact Hl'|exact Hs'|exact Hn'|done|lia]. by eapply free_scan_forward.
Qed.

(** ** The heap *)

Context (lo : Z).

(** A block of the heap below the break [b]. *)
Definition block_in (b : Z) (x : Z * Z) : Prop := lo ≤ fst x ∧ 1 ≤ snd x ∧ fst x + 8 * snd x ≤ b.

(** The free blocks are [fl], in the order of their addresses, and do not touch;
    the allocated ones are [al], from the address of the header to the units. *)
Record heap_ok (s : ust) (fl : list (Z * Z)) (al : gmap Z Z) : Prop := {
  ho_lo : 0 < base_addr ∧ base_addr + 8 ≤ lo ∧ lo ≤ brk s ∧ brk s < 2147483648;
  ho_link : linked (um s) ((base_addr, 0) :: fl) base_addr;
  ho_sort : StronglySorted gap ((base_addr, 0) :: fl);
  ho_free : Forall (block_in (brk s)) fl;
  ho_freep : freep s ∈ ((base_addr, 0) :: fl).*1;
  ho_al a n : al !! a = Some n → block_in (brk s) (a, n) ∧ hsize (um s) a = n;
  ho_disj a n a' n' : al !! a = Some n → al !! a' = Some n' → a ≠ a' → disj (a, n) (a', n');
  ho_sep a n y : al !! a = Some n → y ∈ fl → disj (a, n) y
}.

(** There are no more free blocks than bytes below the break. *)
Lemma sorted_length l lo' hi :
  StronglySorted gap l → Forall (λ y, lo' ≤ fst y ∧ 0 ≤ snd y ∧ fst y < hi) l → lo' ≤ hi → Z.of_nat (length l) ≤ hi - lo'.
Proof.
  revert lo'. induction l as [|y l IH]; intros lo' Hs Hf Hle; simpl; [lia|].
  inversion Hs as [|? ? Hs' Hg]; inversion Hf as [|? ? Hy Hf']; subst. destruct Hy as (Y1&Y2&Y3).
  assert (Z.of_nat (length l) ≤ hi - (fst y + 1)); [|lia]. apply IH; [done| |lia].
  rewrite Forall_forall in *. intros z Hz. specialize (Hg z Hz). destruct (Hf' z Hz) as (?&?&?). unfold gap in Hg. lia.
Qed.
Lemma heap_length s fl al : heap_ok s fl al → Z.of_nat (length fl) ≤ brk s.
Proof.
  intros [H1 _ Hs Hf _ _ _ _]. pose proof (sorted_length fl lo (brk s)) as H.
  assert (Z.of_nat (length fl) ≤ brk s - lo); [|lia]. apply H; [by eapply sorted_tail| |lia].
  rewrite Forall_forall in *. intros y Hy. destruct (Hf y Hy) as (?&?&?). lia.
Qed.

(** ** What free does to the headers *)

Definition free_right (bp p : Z) (m : mem) : mem :=
  if u32 (bp + HEADER * hsize m bp) =? hptr m p then
    let m1 := set_hsize bp (u32 (hsize m bp + hsize m (hptr m p))) m in set_hptr bp (hptr m1 (hptr m1 p)) m1
  else set_hptr bp (hptr m p) m.
Definition free_left (bp p : Z) (m : mem) : mem :=
  if u32 (p + HEADER * hsize m p) =? bp then
    let m1 := set_hsize p (u32 (hsize m p + hsize m bp)) m in set_hptr p (hptr m1 bp) m1
  else set_hptr p bp m.

Lemma free_run s ap p :
  freep s ≠ 0 → free_scan (scan_fuel s) (um s) (u32 (ap - HEADER)) (freep s) = Some p →
  free ap s = Ret tt {| um := free_left (u32 (ap - HEADER)) p (free_right (u32 (ap - HEADER)) p (um s));
                        freep := p; brk := brk s |}.
Proof.
  intros Hfp Hsc. unfold free, get, mbind at 1, K_bind at 1. rewrite (proj2 (Z.eqb_neq _ _) Hfp), Hsc.
  unfold free_right, free_left, gets, modify, mbind, K_bind, set_um, set_freep. cbn [um freep brk].
  destruct (u32 (u32 (ap - HEADER) + _) =? _); cbn [um freep brk]; destruct (u32 (p + _) =? _); done.
Qed.

Lemma rd8_set_hptr p x m o : ¬ p ≤ o < p + 4 → rd8 (set_hptr p x m) o = rd8 m o.
Proof. apply rd8_wr32_ne. Qed.
Lemma rd8_set_hsize p x m o : ¬ p + 4 ≤ o < p + 8 → rd8 (set_hsize p x m) o = rd8 m o.
Proof. intros H. apply rd8_wr32_ne. lia. Qed.
Lemma hptr_ext m m' a : (∀ o, a ≤ o < a + 8 → rd8 m' o = rd8 m o) → hptr m' a = hptr m a ∧ hsize m' a = hsize m a.
Proof. intros H. split; apply rd32_ext; intros o Ho; apply H; lia. Qed.

(** Storing both fields of a header. *)
Definition put_hdr (a n x : Z) (m : mem) : mem := set_hptr a x (set_hsize a n m).
Lemma put_hdr_spec a n x m : is_u32 n → is_u32 x →
  hptr (put_hdr a n x m) a = x ∧ hsize (put_hdr a n x m) a = n ∧
  ∀ o, ¬ a ≤ o < a + 8 → rd8 (put_hdr a n x m) o = rd8 m o.
Proof.
  intros Hn Hx. split; [by apply rd32_wr32_eq|]. split.
  - unfold hsize, put_hdr, set_hptr. rewrite rd32_wr32_ne by lia. by apply rd32_wr32_eq.
  - intros o Ho. unfold put_hdr. rewrite rd8_set_hptr, rd8_set_hsize by lia. done.
Qed.
Lemma set_hptr_spec a x m : is_u32 x →
  hptr (set_hptr a x m) a = x ∧ hsize (set_hptr a x m) a = hsize m a ∧
  ∀ o, ¬ a ≤ o < a + 8 → rd8 (set_hptr a x m) o = rd8 m o.
Proof.
  intros Hx. split; [by apply rd32_wr32_eq|]. split; [apply rd32_wr32_ne; lia|]. intros o Ho. apply rd8_set_hptr. lia.
Qed.

(** Joining [bp] with the block after it, if they touch. *)
Lemma free_right_spec m p np bp n l2 b :
  linked m ((p, np) :: l2) base_addr → hsize m bp = n → 1 ≤ n → 0 < base_addr → base_addr < bp → p + 8 ≤ bp →
  Forall (λ y, bp + 8 * n ≤ fst y ∧ 1 ≤ snd y ∧ fst y + 8 * snd y ≤ b) l2 → bp + 8 * n ≤ b → b < 2147483648 →
  StronglySorted gap l2 →
  ∃ nb l2', linked (free_right bp p m) ((bp, nb) :: l2') base_addr ∧
    (∀ o, ¬ bp ≤ o < bp + 8 → rd8 (free_right bp p m) o = rd8 m o) ∧
    StronglySorted gap ((bp, nb) :: l2') ∧ n ≤ nb ∧
    ((nb = n ∧ l2' = l2) ∨ ∃ na, l2 = (bp + 8 * n, na) :: l2' ∧ nb = n + na).
Proof.
  intros (Ep&_&Hl) Hsz Hn Hb0 Hb Hp Hf Hbn Hlim Hs. unfold free_right, HEADER. rewrite Hsz, Ep.
  rewrite u32_small by (unfold is_u32; lia). rewrite Forall_forall in Hf.
  destruct l2 as [|[a na] l2]; simpl hd_addr in *.
  - rewrite (proj2 (Z.eqb_neq _ _)) by lia. exists n, []. rewrite <- Hsz.
    destruct (set_hptr_spec bp base_addr m) as (H1&H2&H3); [unfold is_u32; lia|].
    split; [done|]. split; [done|]. split; [repeat constructor|]. split; [lia|by left].
  - destruct (Hf (a, na) ltac:(left)) as (A1&A2&A3). simpl in A1, A2, A3.
    assert (Hfr : ∀ m', (∀ o, ¬ bp ≤ o < bp + 8 → rd8 m' o = rd8 m o) → linked m' ((a, na) :: l2) base_addr).
    { intros m' Hm'. eapply linked_frame; [|exact Hl]. intros c k o Hin Ho. apply Hm'.
      destruct (Hf (c, k) Hin) as (?&_). simpl in *. lia. }
    assert (Hgap : Forall (gap (bp, n)) ((a, na) :: l2) ∨ a = bp + 8 * n).
    { destruct (decide (a = bp + 8 * n)); [by right|left]. constructor; [unfold gap; simpl; lia|].
      inversion Hs as [|? ? _ Hg]; subst. rewrite Forall_forall in *. intros y Hy. specialize (Hg y Hy). unfold gap in *. simpl in *. lia. }
    destruct (Z.eqb_spec (bp + 8 * n) a) as [Ea|Ea].
    + destruct Hl as (Ea1&Ea2&Hl). set (m1 := set_hsize bp _ m).
      assert (Hm1 : ∀ o, ¬ bp ≤ o < bp + 8 → rd8 m1 o = rd8 m o) by (intros o Ho; apply rd8_set_hsize; lia).
      destruct (hptr_ext m m1 p) as [-> _]; [intros o Ho; apply Hm1; lia|]. rewrite Ep. simpl hd_addr.
      destruct (hptr_ext m m1 a) as [-> _]; [intros o Ho; apply Hm1; lia|]. rewrite Ea1.
      unfold m1. rewrite Ea2. fold (put_hdr bp (u32 (n + na)) (hd_addr l2 base_addr) m).
      rewrite u32_small by (unfold is_u32; lia).
      destruct (put_hdr_spec bp (n + na) (hd_addr l2 base_addr) m) as (H1&H2&H3); [unfold is_u32; lia| |].
      { unfold is_u32. destruct l2 as [|[c k] l2]; simpl; [lia|]. destruct (Hf (c, k)) as (?&?&?); [set_solver|]. simpl in *. lia. }
      exists (n + na), l2. split; [split; [done|split; [done|]]|split; [done|split; [|split]]].
      * eapply linked_frame; [|exact Hl]. intros c k o Hin Ho. apply H3. destruct (Hf (c, k)) as (?&_); [set_solver|]. simpl in *. lia.
      * inversion Hs as [|? ? Hs' Hg]; subst. constructor; [done|]. rewrite Forall_forall in *. intros y Hy.
        specialize (Hg y Hy). unfold gap in *. simpl in *. lia.
      * lia.
      * right. exists na. by rewrite Ea.
    + destruct (set_hptr_spec bp a m) as (H1&H2&H3); [unfold is_u32; lia|].
      exists n, ((a, na) :: l2). destruct Hgap as [Hgap|]; [|lia].
      split; [split; [done|split; [by rewrite H2|by apply Hfr]]|]. split; [done|]. split; [by constructor|]. split; [lia|by left].
Qed.

(** Joining the block before with [bp], if they touch. *)
Lemma free_left_spec m l1 p np bp nb l2 b :
  linked m l1 p → hsize m p = np → linked m ((bp, nb) :: l2) base_addr →
  0 < base_addr ≤ p → 0 ≤ np → 1 ≤ nb → p + 8 ≤ bp → p + 8 * np ≤ bp → (∀ y, y ∈ l1 → fst y + 8 ≤ p) →
  Forall (λ y, bp + 8 * nb ≤ fst y ∧ fst y + 8 * snd y ≤ b ∧ 1 ≤ snd y) l2 → bp + 8 * nb ≤ b → b < 2147483648 →
  ∃ l', linked (free_left bp p m) (l1 ++ l') base_addr ∧ (∀ o, ¬ p ≤ o < p + 8 → rd8 (free_left bp p m) o = rd8 m o) ∧
    ((p + 8 * np = bp ∧ l' = (p, np + nb) :: l2) ∨ (p + 8 * np < bp ∧ l' = (p, np) :: (bp, nb) :: l2)).
Proof.
  intros Hl1 Hsz Hl2 Hb Hnp Hnb Hp Hpb H1 H2 Hbb Hlim. rewrite Forall_forall in H2.
  pose proof Hl2 as (Ebp&Enb&Hl2'). unfold free_left, HEADER. rewrite Hsz, Enb.
  rewrite (u32_small (p + 8 * np)) by (unfold is_u32; lia).
  assert (Hfr1 : ∀ m', (∀ o, ¬ p ≤ o < p + 8 → rd8 m' o = rd8 m o) → linked m' l1 p).
  { intros m' Hm'. eapply linked_frame; [|exact Hl1]. intros c k o Hin Ho. apply Hm'.
    specialize (H1 (c, k) Hin). simpl in *. lia. }
  assert (Hfr2 : ∀ m', (∀ o, ¬ p ≤ o < p + 8 → rd8 m' o = rd8 m o) → linked m' ((bp, nb) :: l2) base_addr).
  { intros m' Hm'. eapply linked_frame; [|exact Hl2]. intros c k o [[= -> ->]|Hin]%elem_of_cons Ho; apply Hm'; [lia|].
    destruct (H2 (c, k) Hin) as (?&_). simpl in *. lia. }
  destruct (Z.eqb_spec (p + 8 * np) bp) as [E|E].
  - set (m1 := set_hsize p _ m). destruct (hptr_ext m m1 bp) as [-> _].
    { intros o Ho. apply rd8_set_hsize. lia. }
    rewrite Ebp. unfold m1. fold (put_hdr p (u32 (np + nb)) (hd_addr l2 base_addr) m).
    rewrite u32_small by (unfold is_u32; lia).
    destruct (put_hdr_spec p (np + nb) (hd_addr l2 base_addr) m) as (P1&P2&P3); [unfold is_u32; lia| |].
    { unfold is_u32. destruct l2 as [|[c k] l2]; simpl; [lia|]. destruct (H2 (c, k)) as (?&?&?); [set_solver|]. simpl in *. lia. }
    exists ((p, np + nb) :: l2). split; [|split; [done|by left]]. apply linked_app. split; [by apply Hfr1|].
    split; [done|]. split; [done|]. by apply Hfr2.
  - destruct (set_hptr_spec p bp m) as (P1&P2&P3); [unfold is_u32; lia|].
    exists ((p, np) :: (bp, nb) :: l2). split; [|split; [done|right; split; [lia|done]]].
    apply linked_app. split; [by apply Hfr1|]. split; [done|]. split; [by rewrite P2|]. by apply Hfr2.
Qed.

(** Putting a block into the sorted list. *)
Lemma sorted_insert l1 p np l2 bp n :
  StronglySorted gap (l1 ++ (p, np) :: l2) → 0 ≤ np → p + 8 * np ≤ bp → 1 ≤ n →
  StronglySorted gap ((bp, n) :: l2) → ∀ l',
  ((p + 8 * np = bp ∧ l' = (p, np + n) :: l2) ∨ (p + 8 * np < bp ∧ l' = (p, np) :: (bp, n) :: l2)) →
  StronglySorted gap (l1 ++ l').
Proof.
  intros Hs Hnp Hp Hn Hs2 l' Hl'. apply StronglySorted_app in Hs as (Hc&Hs1&Hsp).
  inversion Hs2 as [|? ? Hs2' Hg2]; subst. rewrite Forall_forall in Hg2.
  assert (Hpl : ∀ y, y ∈ l2 → p + 8 * (np + n) < fst y).
  { intros y Hy. specialize (Hg2 y Hy). unfold gap in Hg2. simpl in Hg2. lia. }
  assert (Hsort : StronglySorted gap l').
  { destruct Hl' as [[E ->]|[E ->]]; repeat constructor; try done; try (unfold gap; simpl; lia);
      rewrite Forall_forall; intros y Hy; try (by apply Hg2); specialize (Hpl y Hy); unfold gap; simpl; lia. }
  apply StronglySorted_app. split; [|done]. intros x y Hx Hy. specialize (Hc x (p, np) Hx ltac:(left)). unfold gap in *. simpl in Hc.
  destruct Hl' as [[E ->]|[E ->]]; apply elem_of_cons in Hy as [->|Hy]; simpl; try lia.
  - specialize (Hpl y Hy). lia.
  - apply elem_of_cons in Hy as [->|Hy]; simpl; [lia|]. specialize (Hpl y Hy). lia.
Qed.

(** The free list [fl'] has the space of [fl] and of the block [(bp, n)]. *)
Record freed_list (fl fl' : list (Z * Z)) (bp n b : Z) : Prop := {
  fl_in y : y ∈ fl' → block_in b y;
  fl_disj x : 1 ≤ snd x → (∀ y, y ∈ fl → disj x y) → disj x (bp, n) → ∀ y, y ∈ fl' → disj x y;
  fl_big : ∃ y, y ∈ fl' ∧ n ≤ snd y;
  fl_len : (length fl' ≤ S (length fl))%nat
}.

Lemma freed_list_cases l1 p np l2 bp n nb l2' l' fl fl' b :
  (base_addr, 0) :: fl = l1 ++ (p, np) :: l2 → (base_addr, 0) :: fl' = l1 ++ l' →
  Forall (block_in b) fl → block_in b (bp, n) → base_addr + 8 ≤ lo →
  ((nb = n ∧ l2' = l2) ∨ ∃ na, l2 = (bp + 8 * n, na) :: l2' ∧ nb = n + na) →
  ((p + 8 * np = bp ∧ l' = (p, np + nb) :: l2') ∨ (p + 8 * np < bp ∧ l' = (p, np) :: (bp, nb) :: l2')) →
  freed_list fl fl' bp n b.
Proof.
  intros E E' Hf (B1&B2&B3) Hlo Hr Hl. rewrite Forall_forall in Hf. simpl in B1, B2, B3.
  assert (Hlen : (length fl' ≤ S (length fl))%nat).
  { apply (f_equal length) in E, E'. rewrite length_app in E, E'. simpl in E, E'.
    assert (length l' ≤ S (S (length l2)))%nat; [|lia].
    destruct Hl as [[_ ->]|[_ ->]], Hr as [[_ ->]|(na&->&_)]; simpl; lia. }
  assert (Hl2 : ∀ y, y ∈ l2 → y ∈ fl).
  { intros y Hy. destruct l1 as [|z l1]; simpl in E; injection E as E1 E2; subst; set_solver. }
  assert (Hl2' : ∀ y, y ∈ l2' → y ∈ fl).
  { intros y Hy. apply Hl2. destruct Hr as [[_ ->]|(na&->&_)]; set_solver. }
  assert (Hna : ∀ na, l2 = (bp + 8 * n, na) :: l2' → (bp + 8 * n, na) ∈ fl) by (intros na ->; apply Hl2; left).
  destruct l1 as [|z l1]; simpl in E, E'.
  - injection E as <- <- <-. destruct Hl as [[? _]|[_ ->]]; [lia|]. injection E' as ->.
    split; [| | |done].
    + intros y [->|Hy]%elem_of_cons; [|by apply Hf, Hl2']. unfold block_in. simpl.
      destruct Hr as [[-> _]|(na&E2&->)]; [lia|]. destruct (Hf _ (Hna na E2)) as (?&?&?). simpl in *. lia.
    + intros x Hx Hd Hdb y [->|Hy]%elem_of_cons; [|by apply Hd, Hl2'].
      destruct Hr as [[-> _]|(na&E2&->)]; [done|]. pose proof (Hd _ (Hna na E2)). destruct (Hf _ (Hna na E2)) as (?&?&?).
      unfold disj in *. simpl in *. lia.
    + exists (bp, nb). split; [left|]. simpl. destruct Hr as [[-> _]|(na&E2&->)]; [lia|]. destruct (Hf _ (Hna na E2)) as (?&?&?). simpl in *. lia.
  - injection E as <- E. injection E' as E'.
    assert (Hp : (p, np) ∈ fl) by (rewrite E; set_solver). assert (Hl1 : ∀ y, y ∈ l1 → y ∈ fl) by (rewrite E; set_solver).
    destruct (Hf _ Hp) as (P1&P2&P3). simpl in P1, P2, P3.
    assert (Hnb : n ≤ nb ∧ bp + 8 * nb ≤ b).
    { destruct Hr as [[-> _]|(na&E2&->)]; [lia|]. destruct (Hf _ (Hna na E2)) as (?&?&?). simpl in *. lia. }
    assert (Hdn : ∀ x, 1 ≤ snd x → (∀ y, y ∈ fl → disj x y) → disj x (bp, n) → disj x (bp, nb)).
    { intros x Hx Hd Hdb. destruct Hr as [[-> _]|(na&E2&->)]; [done|]. pose proof (Hd _ (Hna na E2)).
      destruct (Hf _ (Hna na E2)) as (?&?&?). unfold disj in *. simpl in *. lia. }
    assert (Hin : ∀ y, y ∈ fl' → y ∈ fl ∨ (y = (p, np + nb) ∧ p + 8 * np = bp) ∨ y = (bp, nb)).
    { intros y. rewrite E'. intros [Hy|Hy]%elem_of_app; [left; by apply Hl1|].
      destruct Hl as [[Eb ->]|[Eb ->]]; apply elem_of_cons in Hy as [->|Hy]; try tauto; [left; by apply Hl2'|].
      apply elem_of_cons in Hy as [->|Hy]; [tauto|left; by apply Hl2']. }
    split; [| | |done].
    + intros y [Hy|[[-> Eb]| ->]]%Hin; [by apply Hf|..]; unfold block_in; simpl; lia.
    + intros x Hx Hd Hdb y [Hy|[[-> Eb]| ->]]%Hin; [by apply Hd| |by apply Hdn].
      pose proof (Hdn x Hx Hd Hdb). pose proof (Hd _ Hp). unfold disj in *. simpl in *. lia.
    + destruct Hl as [[Eb ->]|[Eb ->]]; [exists (p, np + nb)|exists (bp, nb)]; (split; [rewrite E'; set_solver|simpl; lia]).
Qed.

Lemma free_spec s fl al bp n :
  heap_ok s fl al → al !! bp = Some n →
  ∃ fl' s', free (bp + 8) s = Ret tt s' ∧ heap_ok s' fl' (delete bp al) ∧ freed_list fl fl' bp n (brk s) ∧ brk s' = brk s ∧
    ∀ o, (∀ y, y ∈ (base_addr, 0) :: fl → ¬ fst y ≤ o < fst y + 8) → ¬ bp ≤ o < bp + 8 → rd8 (um s') o = rd8 (um s) o.
Proof.
  intros Hok Hal. pose proof Hok as [(L1&L2&L3&L4) Hlk Hso Hfr Hfp Hall Hdj Hsp].
  destruct (Hall bp n Hal) as [(B1&B2&B3) Esz]. simpl in B1, B2, B3.
  assert (Hf0 := Hfr). rewrite Forall_forall in Hf0.
  assert (Hn0 : Forall (λ y, 0 ≤ snd y) fl) by (rewrite Forall_forall; intros y Hy; destruct (Hf0 y Hy) as (?&?&?); lia).
  assert (Hne : ∀ y, y ∈ fl → fst y ≠ bp).
  { intros y Hy. pose proof (Hsp bp n y Hal Hy) as Hd. destruct (Hf0 y Hy) as (?&?&?). unfold disj in Hd. simpl in Hd. lia. }
  pose proof (heap_length s fl al Hok) as Hlen.
  destruct (free_scan_spec (um s) bp fl (freep s) (scan_fuel s)) as (l1&p&np&l2&E&Hsc&Hpb&Hl2); try done; [lia|unfold scan_fuel; lia|].
  assert (Hp : (p = base_addr ∧ np = 0 ∧ l1 = []) ∨ (p, np) ∈ fl).
  { destruct l1 as [|z l1]; simpl in E; injection E as E1 E2; [left; naive_solver|right]. rewrite E2. set_solver. }
  assert (Hpn : 0 ≤ np ∧ base_addr ≤ p ∧ p + 8 ≤ bp ∧ p + 8 * np ≤ bp).
  { destruct Hp as [(->&->&_)|Hp]; [lia|]. destruct (Hf0 _ Hp) as (?&?&?). pose proof (Hsp bp n _ Hal Hp) as Hd.
    unfold disj in Hd. simpl in *. lia. }
  destruct Hpn as (N1&N2&N3&N4).
  assert (Hlk' := Hlk). rewrite E in Hlk'. apply linked_app in Hlk' as [Hlk1 Hlk2]. simpl hd_addr in Hlk1.
  assert (Hso' := Hso). rewrite E in Hso'. pose proof (StronglySorted_app_1_r _ _ _ Hso') as Hso2. apply sorted_tail in Hso2.
  assert (Hinl2 : ∀ y, y ∈ l2 → y ∈ fl).
  { intros y Hy. destruct l1 as [|z l1]; simpl in E; injection E as E1 E2; subst; set_solver. }
  assert (Hf2 : Forall (λ y, bp + 8 * n ≤ fst y ∧ 1 ≤ snd y ∧ fst y + 8 * snd y ≤ brk s) l2).
  { rewrite Forall_forall. intros y Hy. specialize (Hl2 y Hy). destruct (Hf0 y (Hinl2 y Hy)) as (?&?&?).
    pose proof (Hsp bp n y Hal (Hinl2 y Hy)) as Hd. unfold disj in Hd. simpl in Hd. lia. }
  destruct (free_right_spec (um s) p np bp n l2 (brk s)) as (nb&l2'&R1&R2&R3&R4&R5); try done; try lia.
  set (m1 := free_right bp p (um s)) in *.
  assert (Hl1p : ∀ y, y ∈ l1 → fst y + 8 ≤ p).
  { intros y Hy. pose proof (StronglySorted_app_1_elem_of _ _ _ y (p, np) Hso' Hy ltac:(left)) as Hg. unfold gap in Hg. simpl in Hg.
    destruct l1 as [|z l1]; [set_solver|]. simpl in E. injection E as <- E. apply elem_of_cons in Hy as [->|Hy].
    - destruct Hp as [(?&?&?)|Hp]; [done|]. destruct (Hf0 _ Hp) as (?&?&?). simpl in *. lia.
    - destruct (Hf0 y) as (?&?&?); [rewrite E; elem_list|]. lia. }
  assert (Hm1l1 : linked m1 l1 p).
  { eapply linked_frame; [|exact Hlk1]. intros c k o Hin Ho. apply R2. specialize (Hl1p _ Hin). simpl in Hl1p. lia. }
  assert (Hm1p : hsize m1 p = np).
  { destruct (hptr_ext (um s) m1 p) as [_ ->]; [intros o Ho; apply R2; lia|]. by destruct Hlk2 as (_&?&_). }
  assert (Hf3 : bp + 8 * nb ≤ brk s ∧ Forall (λ y, bp + 8 * nb ≤ fst y ∧ fst y + 8 * snd y ≤ brk s ∧ 1 ≤ snd y) l2').
  { pose proof (StronglySorted_inv R3) as [_ Hg]. rewrite Forall_forall in *. split.
    - destruct R5 as [[-> _]|(na&E2&->)]; [lia|]. destruct (Hf2 (bp + 8 * n, na)) as (?&?&?); [rewrite E2; left|]. simpl in *. lia.
    - intros y Hy. specialize (Hg y Hy). unfold gap in Hg. simpl in Hg.
      destruct (Hf2 y) as (?&?&?); [destruct R5 as [[_ ->]|(na&E2&_)]; [done|rewrite E2; by right]|]. lia. }
  destruct Hf3 as [Hnbb Hf3].
  destruct (free_left_spec m1 l1 p np bp nb l2' (brk s)) as (l'&T1&T2&T3); try done; try lia.
  assert (Hfl' : ∃ fl', (base_addr, 0) :: fl' = l1 ++ l').
  { destruct l1 as [|z l1]; simpl in *; [|injection E as <- E; by eexists].
    destruct Hp as [(->&->&_)|Hp]; [|injection E as -> -> ->; destruct (Hf0 _ Hp) as (?&?&?); simpl in *; lia].
    destruct T3 as [[? _]|[_ ->]]; [lia|]. by eexists. }
  destruct Hfl' as [fl' Efl]. rewrite <- Efl in T1.
  assert (Hfl : freed_list fl fl' bp n (brk s)) by (by eapply freed_list_cases).
  exists fl', {| um := free_left bp p m1; freep := p; brk := brk s |}.
  assert (Ebp : u32 (bp + 8 - HEADER) = bp) by (unfold HEADER; rewrite u32_small; unfold is_u32; lia).
  split; [pose proof (free_run s (bp + 8) p) as Hrun; rewrite Ebp in Hrun; apply Hrun; [|done]|].
  { assert (freep s ≠ 0); [|done]. apply list_elem_of_fmap in Hfp as ([q nq]&->&[[= -> ->]|Hq]%elem_of_cons); simpl; [lia|].
    destruct (Hf0 _ Hq) as (?&_). simpl in *. lia. }
  split; [|split; [done|split; [done|]]].
  - split; simpl; try done.
    + rewrite Efl. eapply (sorted_insert l1 p np l2' bp nb); [|lia|lia|lia|done|exact T3].
      destruct R5 as [[_ ->]|(na&E2&_)]; [done|]. rewrite E2 in Hso'. by apply sorted_drop in Hso'.
    + rewrite Forall_forall. apply (fl_in _ _ _ _ _ Hfl).
    + change (p ∈ ((base_addr, 0) :: fl').*1). rewrite Efl, fmap_app. apply elem_of_app. right. destruct T3 as [[_ ->]|[_ ->]]; left.
    + intros a k Hak. apply lookup_delete_Some in Hak as [Hne' Hak]. destruct (Hall a k Hak) as [Hin Hsz]. split; [done|].
      rewrite <- Hsz. destruct Hin as (?&?&?). pose proof (Hdj a k bp n Hak Hal ltac:(done)) as Hd. unfold disj in Hd. simpl in *.
      destruct (hptr_ext (um s) (free_left bp p m1) a) as [_ ->]; [|done]. intros o Ho. rewrite T2, R2; [done|lia|].
      destruct Hp as [(->&->&_)|Hp]; [lia|]. pose proof (Hsp a k _ Hak Hp) as Hd2. destruct (Hf0 _ Hp) as (?&?&?). unfold disj in Hd2. simpl in *. lia.
    + intros a k a' k' [_ H1]%lookup_delete_Some [_ H2]%lookup_delete_Some. by apply Hdj.
    + intros a k y [Hne' Hak]%lookup_delete_Some Hy. apply (fl_disj _ _ _ _ _ Hfl); [|..|done].
      * destruct (Hall a k Hak) as [(?&?&?) _]. done.
      * intros y' Hy'. by apply Hsp.
      * by apply Hdj.
  - intros o Ho Hob. simpl. rewrite T2, R2; [done|done|]. apply (Ho (p, np)). rewrite E. elem_list.
Qed.

(** The bytes of the allocated blocks, headers included, are as they were. *)
Definition preserves (al : gmap Z Z) (m m' : mem) : Prop :=
  ∀ a k o, al !! a = Some k → a ≤ o < a + 8 * k → rd8 m' o = rd8 m o.

Lemma outside_free s fl al a k o :
  heap_ok s fl al → al !! a = Some k → a ≤ o < a + 8 * k →
  ∀ y, y ∈ (base_addr, 0) :: fl → ¬ fst y ≤ o < fst y + 8.
Proof.
  intros [(L1&L2&L3&L4) _ _ Hfr _ Hall _ Hsp] Hal Ho y Hy. destruct (Hall a k Hal) as [(?&?&?) _]. simpl in *.
  apply elem_of_cons in Hy as [->|Hy]; [simpl; lia|]. rewrite Forall_forall in Hfr. destruct (Hfr y Hy) as (?&?&?).
  pose proof (Hsp a k y Hal Hy) as Hd. unfold disj in Hd. simpl in Hd. lia.
Qed.

(** free returns, and its block is free afterwards. *)
Lemma wp_free s fl al bp n (Q : unit → ust → Prop) :
  heap_ok s fl al → al !! bp = Some n →
  (∀ fl' s', heap_ok s' fl' (delete bp al) → freed_list fl fl' bp n (brk s) → brk s' = brk s →
     preserves (delete bp al) (um s) (um s') → Q tt s') →
  wp (free (bp + 8)) s Q.
Proof.
  intros Hok Hal HQ. destruct (free_spec s fl al bp n Hok Hal) as (fl'&s'&Hrun&Hok'&Hfl&Hb&Hm).
  unfold wp. rewrite Hrun. apply (HQ fl' s'); try done. intros a k o [Hne Hak]%lookup_delete_Some Ho. apply Hm.
  - by eapply outside_free.
  - pose proof (ho_disj _ _ _ Hok _ _ _ _ Hak Hal ltac:(done)) as Hd. unfold disj in Hd. simpl in Hd.
    destruct (ho_al _ _ _ Hok _ _ Hal) as [(?&?&?) _]. simpl in *. lia.
Qed.

(** ** morecore *)

(** sbrk() with a positive argument moves the break up by that much, or fails. *)
Context (sbrk_grows : ∀ n b b', 0 < n → sbrk_ok n b = Some b' → b' = b + n ∧ b' < 2147483648).

Lemma heap_fresh s fl al n b' :
  heap_ok s fl al → 1 ≤ n → b' = brk s + 8 * n → b' < 2147483648 →
  let s' := {| um := set_hsize (brk s) n (um s); freep := freep s; brk := b' |} in
  heap_ok s' fl (<[brk s := n]> al) ∧ al !! brk s = None.
Proof.
  intros [(L1&L2&L3&L4) Hlk Hso Hfr Hfp Hall Hdj Hsp] Hn Hb Hlim s'.
  assert (Hnone : al !! brk s = None).
  { destruct (al !! brk s) eqn:E; [|done]. destruct (Hall _ _ E) as [(?&?&?) _]. simpl in *. lia. }
  assert (Hm : ∀ o, o < brk s → rd8 (um s') o = rd8 (um s) o) by (intros o Ho; apply rd8_set_hsize; lia).
  rewrite Forall_forall in Hfr. split; [|done]. split; cbn [um freep brk s']; try done.
  - lia.
  - eapply (linked_frame (um s)); [|exact Hlk]. intros a k o [[= -> ->]|Hin]%elem_of_cons Ho; apply Hm; [lia|].
    destruct (Hfr _ Hin) as (?&?&?). simpl in *. lia.
  - rewrite Forall_forall. intros y Hy. destruct (Hfr y Hy) as (?&?&?). unfold block_in. lia.
  - intros a k [[<- <-]|[Hne Hak]]%lookup_insert_Some.
    + split; [unfold block_in; cbn [fst snd]; lia|]. unfold hsize, set_hsize. apply rd32_wr32_eq. unfold is_u32. lia.
    + destruct (Hall a k Hak) as [(?&?&?) Hsz]. simpl in *. split; [unfold block_in; simpl; lia|]. rewrite <- Hsz.
      apply (hptr_ext (um s)). intros o Ho. apply Hm. lia.
  - intros a k a' k' [[<- <-]|[_ H1]]%lookup_insert_Some [[<- <-]|[_ H2]]%lookup_insert_Some Hne; [done|..].
    + destruct (Hall _ _ H2) as [(?&?&?) _]. unfold disj. simpl in *. lia.
    + destruct (Hall _ _ H1) as [(?&?&?) _]. unfold disj. simpl in *. lia.
    + by apply Hdj.
  - intros a k y [[<- <-]|[_ Hak]]%lookup_insert_Some Hy; [|by apply Hsp].
    destruct (Hfr y Hy) as (?&?&?). unfold disj. simpl. lia.
Qed.

(** morecore fails and leaves everything as it was, or adds a free block that is
    large enough. *)
Lemma morecore_spec s fl al nu (Q : Z → ust → Prop) :
  heap_ok s fl al → 1 ≤ nu → nu * 8 < 2147483648 →
  (sbrk_ok (Z.max 4096 nu * 8) (brk s) = None → Q 0 s) →
  (∀ fl' s', heap_ok s' fl' al → (∃ y, y ∈ fl' ∧ nu ≤ snd y) → (length fl' ≤ S (length fl))%nat → brk s < brk s' →
     preserves al (um s) (um s') → freep s' ≠ 0 → Q (freep s') s') →
  wp (morecore nu) s Q.
Proof.
  intros Hok Hnu Hlim H0 HQ. unfold morecore. set (n := if nu <? 4096 then 4096 else nu).
  assert (Hn : n = Z.max 4096 nu ∧ n * 8 < 2147483648) by (unfold n; destruct (Z.ltb_spec nu 4096); lia).
  rewrite <- (proj1 Hn) in H0.
  apply wp_bind. unfold sbrk. apply wp_bind. unfold wp at 1, gets at 1. unfold HEADER.
  rewrite s32_small, u32_small; [|unfold is_u32; lia|rewrite u32_small; unfold is_u32; lia].
  destruct (sbrk_ok (n * 8) (brk s)) as [b'|] eqn:Es; [|by apply wp_ret, H0].
  destruct (sbrk_grows (n * 8) (brk s) b') as [Hb Hbl]; [lia|done|]. pose proof (ho_lo _ _ _ Hok) as (L1&L2&L3&L4).
  apply wp_bind. unfold wp at 1, modify at 1. apply wp_ret. rewrite (proj2 (Z.eqb_neq (brk s) 4294967295)) by lia.
  apply wp_bind. unfold wp at 1, modify at 1, set_um, set_brk. cbn [um freep brk]. rewrite u32_small by (unfold is_u32; lia).
  destruct (heap_fresh s fl al n b' Hok) as [Hok1 Hnone]; [lia|lia|lia|]. set (s1 := {| um := _; freep := _; brk := b' |}) in *.
  apply wp_bind. eapply (wp_free s1 fl _ (brk s) n); [done|apply lookup_insert_eq|].
  intros fl' s2 Hok2 Hfl Hb2 Hpr. rewrite delete_insert_id in Hok2, Hpr by done. unfold wp, gets.
  destruct (fl_big _ _ _ _ _ Hfl) as (y&Hy&Hyn). pose proof (fl_len _ _ _ _ _ Hfl).
  apply (HQ fl' s2); try done.
  - exists y. split; [done|lia].
  - rewrite Hb2. simpl. lia.
  - intros a k o Hak Ho. rewrite (Hpr a k o Hak Ho). apply rd8_set_hsize.
    destruct (ho_al _ _ _ Hok _ _ Hak) as [(?&?&?) _]. simpl in *. lia.
  - pose proof (ho_freep _ _ _ Hok2) as Hfp. pose proof (ho_free _ _ _ Hok2) as Hf. rewrite Forall_forall in Hf.
    apply list_elem_of_fmap in Hfp as ([q nq]&->&[[= -> ->]|Hq]%elem_of_cons); simpl; [lia|].
    destruct (Hf _ Hq) as (?&_). simpl in *. lia.
Qed.

(** ** malloc *)

Lemma nodes_sep s fl al l1 x l2 :
  heap_ok s fl al → (base_addr, 0) :: fl = l1 ++ x :: l2 →
  (∀ y, y ∈ l1 → fst y + 8 ≤ fst x) ∧ (∀ y, y ∈ l2 → fst x + 8 ≤ fst y).
Proof.
  intros [(L1&L2&L3&L4) _ Hso Hfr _ _ _ _] E. rewrite Forall_forall in Hfr. rewrite E in Hso.
  apply StronglySorted_app in Hso as (Hc&_&Hx). apply StronglySorted_inv in Hx as [_ Hx]. rewrite Forall_forall in Hx.
  destruct l1 as [|z l1]; simpl in E; injection E as <- E; split; intros y Hy.
  - set_solver.
  - subst l2. destruct (Hfr y Hy) as (?&_). simpl. lia.
  - specialize (Hc y x ltac:(done) ltac:(left)). unfold gap in Hc. apply elem_of_cons in Hy as [->|Hy]; simpl in *.
    + destruct (Hfr x) as (?&_); [rewrite E; set_solver|]. lia.
    + destruct (Hfr y) as (?&?&_); [rewrite E; set_solver|]. lia.
  - specialize (Hx y Hy). unfold gap in Hx. destruct (Hfr x) as (?&?&_); [rewrite E; set_solver|]. lia.
Qed.

(** The block with its header at [p] has been taken out of the free list. *)
Definition taken (s : ust) (al : gmap Z Z) (nunits r : Z) (s' : ust) : Prop :=
  ∃ p fl', r = p + 8 ∧ al !! p = None ∧ heap_ok s' fl' (<[p := nunits]> al) ∧ preserves al (um s) (um s').

(** Taking [(p, n)] out: what remains is below the break, sorted and linked, and
    lies in the free space without [p]. *)
Lemma heap_take s fl al fl' m' q p n :
  heap_ok s fl al → 
  linked m' ((base_addr, 0) :: fl') base_addr → StronglySorted gap ((base_addr, 0) :: fl') →
  q ∈ ((base_addr, 0) :: fl').*1 → block_in (brk s) (p, n) → hsize m' p = n →
  (∃ y, y ∈ fl ∧ fst y ≤ p ∧ p + 8 * n = fst y + 8 * snd y) →
  (∀ z, z ∈ fl' → block_in (brk s) z ∧ disj (p, n) z ∧ ∃ y, y ∈ fl ∧ fst y ≤ fst z ∧ fst z + 8 * snd z ≤ fst y + 8 * snd y) →
  (∀ o, rd8 m' o ≠ rd8 (um s) o → ∃ y, y ∈ (base_addr, 0) :: fl ∧ (fst y ≤ o < fst y + 8 ∨ fst y ≤ o < fst y + 8 * snd y)) →
  taken s al n (p + 8) {| um := m'; freep := q; brk := brk s |}.
Proof.
  intros Hok Hlk' Hso' Hq Hbl Hsz (y&Hy&Y1&Y2) Hsub Hm. pose proof Hok as [(L1&L2&L3&L4) Hlk Hso Hfr Hfp Hall Hdj Hsp].
  destruct Hbl as (P1&P2&P3). simpl in P1, P2, P3.
  assert (Hpr : preserves al (um s) m').
  { intros a k o Hak Ho. destruct (decide (rd8 m' o = rd8 (um s) o)) as [|Hne]; [done|]. destruct (Hm o Hne) as (z&Hz&Hoz).
    exfalso. destruct Hoz as [Hoz|Hoz]; [by eapply (outside_free s fl al a k o Hok Hak Ho z Hz)|].
    apply elem_of_cons in Hz as [->|Hz]; [simpl in Hoz; lia|]. pose proof (Hsp a k z Hak Hz) as Hd. unfold disj in Hd. simpl in Hd. lia. }
  assert (Hpa : ∀ a k, al !! a = Some k → disj (a, k) (p, n)).
  { intros a k Hak. pose proof (Hsp a k y Hak Hy) as Hd. unfold disj in *. simpl in *. lia. }
  assert (Hnone : al !! p = None).
  { destruct (al !! p) eqn:E; [|done]. pose proof (Hpa _ _ E) as Hd. destruct (Hall _ _ E) as [(?&?&?) _]. unfold disj in Hd. simpl in *. lia. }
  exists p, fl'. split; [done|]. split; [done|]. split; [|done]. split; cbn [um freep brk]; try done.
  - rewrite Forall_forall. intros z Hz. by apply Hsub.
  - intros a k [[<- <-]|[Hne Hak]]%lookup_insert_Some; [done|]. destruct (Hall a k Hak) as [Hin Hk]. split; [done|].
    rewrite <- Hk. apply (hptr_ext (um s)). intros o Ho. apply (Hpr a k o Hak). destruct Hin as (?&?&?). simpl in *. lia.
  - intros a k a' k' [[<- <-]|[_ H1]]%lookup_insert_Some [[<- <-]|[_ H2]]%lookup_insert_Some Hne; [done|..].
    + pose proof (Hpa _ _ H2) as Hd. unfold disj in *. simpl in *. lia.
    + by apply Hpa.
    + by apply Hdj.
  - intros a k z [[<- <-]|[_ Hak]]%lookup_insert_Some Hz; [by apply Hsub|].
    destruct (Hsub z Hz) as ((?&?&?)&_&w&Hw&W1&W2). pose proof (Hsp a k w Hak Hw) as Hd. unfold disj in *. simpl in *. lia.
Qed.

(** A block that fits exactly. *)
Lemma take_exact s fl al l1 q nq a na l2 :
  heap_ok s fl al → (base_addr, 0) :: fl = l1 ++ (q, nq) :: (a, na) :: l2 →
  taken s al na (a + 8) {| um := set_hptr q (hptr (um s) a) (um s); freep := q; brk := brk s |}.
Proof.
  intros Hok E. pose proof Hok as [(L1&L2&L3&L4) Hlk Hso Hfr Hfp Hall Hdj Hsp]. rewrite Forall_forall in Hfr.
  assert (Ha : (a, na) ∈ fl) by (destruct l1; simpl in E; injection E as E1 E2; subst; set_solver).
  destruct (Hfr _ Ha) as (A1&A2&A3). simpl in A1, A2, A3.
  assert (Hlk' := Hlk). rewrite E in Hlk'. apply linked_app in Hlk' as [Hk1 (Hk2&Hk3&Hk4&Hk5&Hk6)]. simpl in Hk2, Hk1.
  assert (Hso' := Hso). rewrite E in Hso'. destruct (nodes_sep s fl al _ _ _ Hok E) as [S1 S2]. simpl in S1, S2.
  assert (Hfl' : ∃ fl', (base_addr, 0) :: fl' = l1 ++ (q, nq) :: l2 ∧ ∀ y, y ∈ fl' → y ∈ l1 ++ (q, nq) :: l2 ∧ y ∈ fl).
  { destruct l1 as [|z l1]; simpl in *; injection E as E1 E2; subst; eexists; (split; [reflexivity|]); intros y Hy; elem_list. }
  destruct Hfl' as (fl'&Efl&Hin).
  destruct (set_hptr_spec q (hptr (um s) a) (um s)) as (P1&P2&P3).
  { rewrite Hk4. unfold is_u32. destruct l2 as [|[c k] l2]; simpl; [lia|].
    assert (Hc : (c, k) ∈ (base_addr, 0) :: fl) by (rewrite E; set_solver).
    apply elem_of_cons in Hc as [[= -> ->]|Hc]; [lia|]. destruct (Hfr _ Hc) as (?&?&?). simpl in *. lia. }
  eapply (heap_take s fl al fl' _ q a na); try done.
  - rewrite Efl. apply linked_app. split; [eapply linked_frame; [|exact Hk1]; intros c k o Hc Ho; apply P3; specialize (S1 _ Hc); simpl in *; lia|].
    split; [by rewrite P1|]. split; [by rewrite P2|].
    eapply linked_frame; [|exact Hk6]. intros c k o Hc Ho. apply P3. specialize (S2 (c, k) ltac:(by right)). simpl in *. lia.
  - rewrite Efl. by eapply sorted_drop.
  - rewrite Efl, fmap_app. apply elem_of_app. right. left.
  - rewrite <- Hk5. apply (hptr_ext (um s)). intros o Ho. apply P3. specialize (S2 (a, na) ltac:(left)). simpl in *. lia.
  - exists (a, na). simpl. split; [done|lia].
  - intros z Hz. destruct (Hin z Hz) as [Hz1 Hz2]. split; [by apply Hfr|]. split; [|exists z; split; [done|lia]].
    assert (Hg : z ∈ l1 ++ [(q, nq)] ∨ z ∈ l2) by set_solver. rewrite cons_middle, app_assoc in Hso'. unfold disj. simpl.
    destruct Hg as [Hg|Hg].
    + pose proof (StronglySorted_app_1_elem_of _ _ _ z (a, na) Hso' Hg ltac:(left)) as G. unfold gap in G. simpl in G. lia.
    + apply StronglySorted_app_1_r, StronglySorted_inv in Hso' as [_ G]. rewrite Forall_forall in G. specialize (G z Hg). unfold gap in G. simpl in G. lia.
  - intros o Hne. exists (q, nq). split; [rewrite E; set_solver|]. left. simpl. destruct (decide (q ≤ o < q + 8)); [done|].
    by rewrite P3 in Hne.
Qed.

(** The tail end of a larger block. *)
Lemma take_split s fl al l1 q nq a na l2 n :
  heap_ok s fl al → (base_addr, 0) :: fl = l1 ++ (q, nq) :: (a, na) :: l2 → 1 ≤ n < na →
  taken s al n (a + 8 * (na - n) + 8)
    {| um := set_hsize (a + 8 * (na - n)) n (set_hsize a (na - n) (um s)); freep := q; brk := brk s |}.
Proof.
  intros Hok E Hn. pose proof Hok as [(L1&L2&L3&L4) Hlk Hso Hfr Hfp Hall Hdj Hsp]. rewrite Forall_forall in Hfr.
  assert (Ha : (a, na) ∈ fl) by (destruct l1; simpl in E; injection E as E1 E2; subst; set_solver).
  destruct (Hfr _ Ha) as (A1&A2&A3). simpl in A1, A2, A3. set (p := a + 8 * (na - n)).
  rewrite cons_middle, app_assoc in E. set (l0 := l1 ++ [(q, nq)]) in *.
  assert (Hlk' := Hlk). rewrite E in Hlk'. apply linked_app in Hlk' as [Hk1 (Hk4&Hk5&Hk6)]. simpl in Hk1.
  assert (Hso' := Hso). rewrite E in Hso'. destruct (nodes_sep s fl al _ _ _ Hok E) as [S1 S2]. simpl in S1, S2.
  assert (Hl0 : l0 ≠ []) by (unfold l0; by destruct l1). assert (Hq : (q, nq) ∈ l0) by (unfold l0; set_solver).
  assert (Hfl' : ∃ fl', (base_addr, 0) :: fl' = l0 ++ (a, na - n) :: l2 ∧
    ∀ y, y ∈ fl' → y = (a, na - n) ∨ ((y ∈ l0 ∨ y ∈ l2) ∧ y ∈ fl)).
  { destruct l0 as [|z l0']; simpl in *; [done|]. injection E as <- E. eexists. split; [reflexivity|]. rewrite E. intros y Hy. elem_list. }
  destruct Hfl' as (fl'&Efl&Hin). clearbody l0. set (m' := set_hsize p n _).
  assert (Hg : ∀ z, z ∈ l0 → fst z + 8 * snd z < a).
  { intros z Hz. pose proof (StronglySorted_app_1_elem_of _ _ _ z (a, na) Hso' Hz ltac:(left)) as G. unfold gap in G. simpl in G. lia. }
  assert (Hg2 : ∀ z, z ∈ l2 → a + 8 * na < fst z).
  { intros z Hz. pose proof (StronglySorted_app_1_r _ _ _ Hso') as G. apply StronglySorted_inv in G as [_ G].
    rewrite Forall_forall in G. specialize (G z Hz). unfold gap in G. simpl in G. lia. }
  assert (Hm' : ∀ o, ¬ a + 4 ≤ o < a + 8 → ¬ p + 4 ≤ o < p + 8 → rd8 m' o = rd8 (um s) o).
  { intros o H1 H2. unfold m'. rewrite !rd8_set_hsize by done. done. }
  assert (Hma : hptr m' a = hptr (um s) a ∧ hsize m' a = na - n ∧ hsize m' p = n).
  { split; [apply rd32_ext; intros o Ho; apply Hm'; unfold p; lia|]. split.
    - unfold hsize, m', set_hsize. rewrite rd32_wr32_ne by (unfold p; lia). apply rd32_wr32_eq. unfold is_u32. lia.
    - unfold hsize, m', set_hsize. apply rd32_wr32_eq. unfold is_u32. lia. }
  destruct Hma as (M1&M2&M3).
  eapply (heap_take s fl al fl' m' q p n); try done.
  - rewrite Efl. apply linked_app. split.
    + eapply linked_frame; [|exact Hk1]. intros c k o Hc Ho. specialize (S1 _ Hc). simpl in *. apply Hm'; unfold p; lia.
    + split; [by rewrite M1|]. split; [done|]. eapply linked_frame; [|exact Hk6]. intros c k o Hc Ho.
      specialize (Hg2 _ Hc). simpl in *. apply Hm'; unfold p; lia.
  - rewrite Efl. apply StronglySorted_app in Hso' as (Hc&Hs1&Hs2). apply StronglySorted_app. split; [|split; [done|]].
    + intros x y Hx Hy. specialize (Hg x Hx). apply elem_of_cons in Hy as [->|Hy]; [unfold gap; simpl; lia|].
      apply Hc; [done|by right].
    + apply StronglySorted_inv in Hs2 as [Hs2 _]. constructor; [done|]. rewrite Forall_forall. intros z Hz. specialize (Hg2 z Hz). unfold gap. simpl. lia.
  - rewrite Efl, fmap_app. apply elem_of_app. left. apply list_elem_of_fmap. by exists (q, nq).
  - unfold block_in, p. simpl. lia.
  - exists (a, na). simpl. split; [done|]. unfold p. lia.
  - intros z Hz. unfold disj, p. simpl. destruct (Hin z Hz) as [->|[Hz1 Hz2]].
    + unfold block_in. simpl. split; [lia|]. split; [lia|]. exists (a, na). simpl. split; [done|lia].
    + split; [by apply Hfr|]. split; [|exists z; split; [done|lia]]. destruct Hz1 as [Hz1|Hz1]; [specialize (Hg z Hz1)|specialize (Hg2 z Hz1)]; lia.
  - intros o Hne. exists (a, na). split; [by right|]. right. simpl.
    destruct (decide (a ≤ o < a + 8 * na)); [done|]. rewrite Hm' in Hne by (unfold p; lia). done.
Qed.

(** The loop at a block that is large enough. *)
Lemma malloc_fits s fl al n q nq fuel (Q : Z → ust → Prop) :
  heap_ok s fl al → (q, nq) ∈ (base_addr, 0) :: fl → 1 ≤ n ≤ hsize (um s) (hptr (um s) q) →
  (∀ r s', taken s al n r s' → Q r s') → wp (malloc_loop fuel n q (hptr (um s) q)) s Q.
Proof.
  intros Hok Hq Hn HT. pose proof (ho_link _ _ _ Hok) as Hlk. pose proof (ho_free _ _ _ Hok) as Hfr.
  pose proof (ho_lo _ _ _ Hok) as (L1&L2&L3&L4). rewrite Forall_forall in Hfr.
  assert (Hb0 : hsize (um s) base_addr = 0) by apply Hlk. apply list_elem_of_split in Hq as (l1&l2&E).
  rewrite E in Hlk. apply linked_app in Hlk as [_ (Hp&_&Hl2)]. destruct l2 as [|[a na] l2]; simpl in Hp; rewrite Hp in Hn |- *.
  { lia. }
  destruct Hl2 as (_&Hsz&_). rewrite Hsz in Hn.
  assert (Ha : (a, na) ∈ fl) by (destruct l1; simpl in E; injection E as E1 E2; subst; set_solver).
  destruct (Hfr _ Ha) as (A1&A2&A3). simpl in A1, A2, A3.
  pose proof (take_exact s fl al l1 q nq a na l2 Hok E) as Hex. pose proof (take_split s fl al l1 q nq a na l2 n Hok E) as Hsp.
  destruct fuel; cbn [malloc_loop]; apply wp_bind; unfold wp at 1, gets at 1; rewrite Hsz, (proj2 (Z.leb_le n na)) by lia;
    (destruct (Z.eqb_spec na n) as [->|Hne];
     [unfold HEADER, wp, mbind, K_bind, modify, mret, K_ret; rewrite u32_small by (unfold is_u32; lia); by apply HT, Hex|]);
    unfold HEADER, wp, mbind, K_bind, modify, mret, K_ret; rewrite (u32_small (na - n)) by (unfold is_u32; lia);
    rewrite (u32_small (a + _)) by (unfold is_u32; lia); rewrite u32_small by (unfold is_u32; lia);
    apply HT, Hsp; lia.
Qed.

(** The loop from block [q] to freep, with the blocks [w] in between: it takes the
    first block that is large enough, or gets to freep, and then all blocks it has
    seen are too small. *)
Lemma malloc_walk s fl al n w q nq fuel k (Q : Z → ust → Prop) :
  heap_ok s fl al → 1 ≤ n → linked (um s) ((q, nq) :: w) (freep s) → (∀ y, y ∈ (q, nq) :: w → y ∈ (base_addr, 0) :: fl) →
  freep s ∉ w.*1 → (length w + S k ≤ fuel)%nat →
  (∀ r s', taken s al n r s' → Q r s') →
  ((∀ y, y ∈ w → snd y < n) → hsize (um s) (freep s) < n → ∀ fuel', (k ≤ fuel')%nat →
     wp (morecore n) s (λ p s', if p =? 0 then Q 0 s' else wp (malloc_loop fuel' n p (hptr (um s') p)) s' Q)) →
  wp (malloc_loop fuel n q (hptr (um s) q)) s Q.
Proof.
  intros Hok Hn. revert q nq fuel. induction w as [|[a na] w IH]; intros q nq fuel Hl Hin Hnf Hfuel HT HM;
    (destruct (Z.le_gt_cases n (hsize (um s) (hptr (um s) q))) as [Hfit|Hsm];
     [eapply malloc_fits; try done; apply (Hin (q, nq)); left|]); destruct Hl as (Hp&_&Hl); simpl in Hp; rewrite Hp in Hsm |- *;
    destruct fuel as [|fuel]; [simpl in Hfuel; lia| |simpl in Hfuel; lia|]; cbn [malloc_loop];
    apply wp_bind; unfold wp at 1, gets at 1; rewrite (proj2 (Z.leb_gt _ _) Hsm); apply wp_bind; unfold wp at 1, gets at 1.
  - rewrite Z.eqb_refl. apply wp_bind, wp_bind. eapply wp_mono; [|apply (HM ltac:(set_solver) Hsm fuel); simpl in Hfuel; lia].
    intros p s' Hp'. apply wp_ret. cbn beta in Hp'. destruct (Z.eqb_spec p 0); [exact Hp'|exact Hp'].
  - apply not_elem_of_cons in Hnf as [Hne Hnf]. simpl in Hne. rewrite (proj2 (Z.eqb_neq a (freep s))) by done.
    apply wp_bind, wp_ret, wp_bind. unfold wp at 1, gets at 1. apply (IH a na); try done.
    + intros y Hy. apply Hin. by right.
    + simpl in Hfuel. lia.
    + intros Hw Hfp fuel' Hk. apply HM; try done. intros y [->|Hy]%elem_of_cons; [|by apply Hw].
      destruct Hl as (_&<-&_). done.
Qed.

(** The free list from any of its blocks. *)
Lemma linked_rotate m l1 q nq l2 last :
  linked m (l1 ++ (q, nq) :: l2) last → last = hd_addr (l1 ++ (q, nq) :: l2) 0 → linked m ((q, nq) :: l2 ++ l1) q.
Proof.
  rewrite linked_app. intros [H1 H2] E. change ((q, nq) :: l2 ++ l1) with (((q, nq) :: l2) ++ l1). apply linked_app.
  split; [|done]. destruct l1 as [|[b nb] l1]; simpl in E; subst last; done.
Qed.

(** From freep all the way round. *)
Lemma malloc_round s fl al n fuel k (Q : Z → ust → Prop) :
  heap_ok s fl al → 1 ≤ n → (length fl + S k ≤ fuel)%nat → (∀ r s', taken s al n r s' → Q r s') →
  ((∀ y, y ∈ fl → snd y < n) → ∀ fuel', (k ≤ fuel')%nat →
     wp (morecore n) s (λ p s', if p =? 0 then Q 0 s' else wp (malloc_loop fuel' n p (hptr (um s') p)) s' Q)) →
  wp (malloc_loop fuel n (freep s) (hptr (um s) (freep s))) s Q.
Proof.
  intros Hok Hn Hfuel HT HM. pose proof (ho_freep _ _ _ Hok) as Hfp. pose proof (ho_link _ _ _ Hok) as Hlk.
  apply list_elem_of_fmap in Hfp as ([q nq]&Eq&Hq). simpl in Eq. apply list_elem_of_split in Hq as (l1&l2&E).
  destruct (nodes_sep _ _ _ _ _ _ Hok E) as [S1 S2]. simpl in S1, S2.
  assert (Hlen : length fl = length (l2 ++ l1)).
  { apply (f_equal length) in E. rewrite length_app in *. simpl in E. lia. }
  assert (Hel : ∀ y, y ∈ (q, nq) :: l2 ++ l1 ↔ y ∈ (base_addr, 0) :: fl) by (intros y; rewrite E; elem_list).
  rewrite E in Hlk. apply linked_rotate in Hlk; [|by rewrite <- E]. subst q.
  eapply (malloc_walk s fl al n (l2 ++ l1) (freep s) nq fuel k); try done.
  - intros y. apply Hel.
  - rewrite fmap_app, elem_of_app, !list_elem_of_fmap.
    intros [(y&Ey&Hy)|(y&Ey&Hy)]; [specialize (S2 y Hy)|specialize (S1 y Hy)]; lia.
  - lia.
  - intros Hw Hsz. apply HM. intros y Hy. assert (Hy' : y ∈ (freep s, nq) :: l2 ++ l1) by (apply Hel; by right).
    apply elem_of_cons in Hy' as [->|Hy']; [|by apply Hw]. destruct Hlk as (_&Hs&_). simpl. by rewrite <- Hs.
Qed.

(** The memory malloc starts from: not initialised, or a heap. *)
Definition heap (s : ust) (al : gmap Z Z) : Prop :=
  if decide (freep s = 0) then al = ∅ ∧ 0 < base_addr ∧ base_addr + 8 ≤ lo ∧ lo ≤ brk s ∧ brk s < 2147483648
  else ∃ fl, heap_ok s fl al.

Definition base_init (s : ust) : ust :=
  {| um := set_hsize base_addr 0 (set_hptr base_addr base_addr (um s)); freep := base_addr; brk := brk s |}.
Lemma heap_start s : heap s ∅ → freep s = 0 → heap_ok (base_init s) [] ∅.
Proof.
  unfold heap. intros H E. rewrite decide_True in H by done. destruct H as (_&L1&L2&L3&L4).
  split; cbn [base_init um freep brk]; try done; [| |set_solver].
  - split; [|split; [|done]]; simpl.
    + unfold hptr, set_hsize. rewrite rd32_wr32_ne by lia. apply rd32_wr32_eq. unfold is_u32. lia.
    + apply rd32_wr32_eq. unfold is_u32. lia.
  - repeat constructor.
Qed.
Lemma heap_freep s fl al : heap_ok s fl al → freep s ≠ 0.
Proof.
  intros Hok. pose proof (ho_freep _ _ _ Hok) as Hfp. pose proof (ho_free _ _ _ Hok) as Hf. rewrite Forall_forall in Hf.
  pose proof (ho_lo _ _ _ Hok) as (?&?&_).
  apply list_elem_of_fmap in Hfp as ([q nq]&->&[[= -> ->]|Hq]%elem_of_cons); simpl; [lia|].
  destruct (Hf _ Hq) as (?&_). simpl in *. lia.
Qed.
Lemma ok_heap s fl al : heap_ok s fl al → heap s al.
Proof. intros H. unfold heap. rewrite decide_False by by eapply heap_freep. by exists fl. Qed.

(** The units malloc asks for. *)
Definition units (nbytes : Z) : Z := (nbytes + 7) / 8 + 1.

(** malloc returns; it returns 0 only when sbrk() fails. *)
Lemma malloc_spec s al nbytes :
  heap s al → 0 ≤ nbytes → nbytes + 16 < 2147483648 →
  wp (malloc nbytes) s (λ r s', preserves al (um s) (um s') ∧
    ((r = 0 ∧ heap s' al ∧ sbrk_ok (Z.max 4096 (units nbytes) * 8) (brk s) = None) ∨
     (∃ p, r = p + 8 ∧ al !! p = None ∧ heap s' (<[p := units nbytes]> al)))).
Proof.
  intros Hh Hb Hlim. set (Q := λ r s', _).
  assert (Hu : 1 ≤ units nbytes ∧ units nbytes * 8 < 2147483648) by (unfold units; zlia).
  assert (Hgo : ∀ s1 fl, heap_ok s1 fl al → brk s1 = brk s → preserves al (um s) (um s1) →
    wp (malloc_loop (malloc_fuel s1) (units nbytes) (freep s1) (hptr (um s1) (freep s1))) s1 Q).
  { intros s1 fl Hok Eb Hp. pose proof (heap_length _ _ _ Hok) as Hlen.
    assert (HT : ∀ s2 r s', preserves al (um s) (um s2) → taken s2 al (units nbytes) r s' → Q r s').
    { intros s2 r s' Hp2 (p&fl'&->&Hnone&Hok'&Hp'). split.
      - intros a k o Hak Ho. rewrite (Hp' a k o Hak Ho). by apply (Hp2 a k o).
      - right. exists p. split; [done|]. split; [done|]. by eapply ok_heap. }
    apply (malloc_round s1 fl al _ _ (length fl + 2)); try done; [lia|unfold malloc_fuel; lia|intros r s' Ht; by apply (HT s1)|].
    intros _ fuel' Hf. apply (morecore_spec s1 fl al); try done; try lia.
    - intros Hno. simpl. split; [done|]. left. split; [done|]. rewrite <- Eb. split; [by eapply ok_heap|done].
    - intros fl' s2 Hok2 (y&Hy&Hyn) Hlen2 _ Hp2 Hnz. rewrite (proj2 (Z.eqb_neq _ _) Hnz).
      apply (malloc_round s2 fl' al _ _ 0); try done; [lia|lia| |].
      + intros r s' Ht. apply (HT s2); [|done]. intros a k o Hak Ho. rewrite (Hp2 a k o Hak Ho). by apply (Hp a k o).
      + intros Hall. specialize (Hall y Hy). lia. }
  unfold malloc. apply wp_bind. unfold wp at 1, gets at 1. unfold HEADER. replace (nbytes + 8 - 1) with (nbytes + 7) by lia.
  rewrite u32_small by (unfold is_u32; lia). fold (units nbytes). apply wp_bind. destruct (Z.eqb_spec (freep s) 0) as [E|E].
  - assert (al = ∅) as -> by (unfold heap in Hh; rewrite decide_True in Hh by done; tauto).
    unfold when, wp at 1, mbind, K_bind, modify, get. apply (Hgo (base_init s) []); [by apply heap_start|done|].
    intros a k o Hak. by rewrite lookup_empty in Hak.
  - unfold heap in Hh. rewrite decide_False in Hh by done. destruct Hh as [fl Hok].
    unfold when, wp at 1, mret, K_ret. apply wp_bind. unfold wp at 1, get. by eapply Hgo.
Qed.

(** The block malloc returns is in the heap, away from the others. *)
Lemma malloc_block s al p nbytes :
  heap s (<[p := units nbytes]> al) → al !! p = None → 0 ≤ nbytes →
  lo ≤ p + 8 ∧ p + 8 + nbytes ≤ brk s ∧ ∀ p' n', al !! p' = Some n' → p + 8 + nbytes ≤ p' ∨ p' + 8 * n' ≤ p + 8.
Proof.
  intros Hh Hnone Hb. unfold heap in Hh. case_decide; [destruct Hh as [Ha _]; by apply insert_non_empty in Ha|].
  destruct Hh as [fl Hok]. destruct (ho_al _ _ _ Hok p _ (lookup_insert_eq _ _ _)) as [(P1&P2&P3) _]. simpl in *.
  assert (Hu : nbytes + 8 ≤ 8 * units nbytes) by (unfold units; zlia). split; [lia|]. split; [lia|]. intros p' n' Hp'.
  assert (Hne : p ≠ p') by (intros ->; congruence).
  pose proof (ho_disj _ _ _ Hok p _ p' n' (lookup_insert_eq _ _ _) ltac:(by rewrite lookup_insert_ne) Hne) as Hd.
  unfold disj in Hd. simpl in Hd. lia.
Qed.

(** ** Any use of the allocator *)

(** What a program does: it calls malloc and free, the latter on what malloc has
    returned, and writes in its blocks. [al] are its blocks. *)
Inductive heap_step : ust * gmap Z Z → ust * gmap Z Z → Prop :=
  | step_malloc s al nbytes r s' :
      0 ≤ nbytes → nbytes + 16 < 2147483648 → malloc nbytes s = Ret r s' → r ≠ 0 →
      heap_step (s, al) (s', <[r - 8 := units nbytes]> al)
  | step_malloc_fails s al nbytes s' :
      0 ≤ nbytes → nbytes + 16 < 2147483648 → malloc nbytes s = Ret 0 s' → heap_step (s, al) (s', al)
  | step_free s al p n s' : al !! p = Some n → free (p + 8) s = Ret tt s' → heap_step (s, al) (s', delete p al)
  | step_write s al p n o b : al !! p = Some n → p + 8 ≤ o < p + 8 * n → 
      heap_step (s, al) (set_um (λ m, wr8 m o b) s, al).

Lemma write_heap s al p n o b :
  heap s al → al !! p = Some n → p + 8 ≤ o < p + 8 * n → heap (set_um (λ m, wr8 m o b) s) al.
Proof.
  intros Hh Hal Ho. unfold heap in Hh. case_decide; [destruct Hh as [-> _]; by rewrite lookup_empty in Hal|].
  destruct Hh as [fl Hok]. eapply ok_heap. pose proof Hok as [L Hlk Hso Hfr Hfp Hall Hdj Hsp].
  assert (Hm : ∀ o', o' ≠ o → rd8 (wr8 (um s) o b) o' = rd8 (um s) o').
  { intros o' Hne. by apply rd8_wr8_ne. }
  destruct (Hall p n Hal) as [(P1&P2&P3) _]. simpl in *.
  split; cbn [set_um um freep brk]; try done.
  - eapply linked_frame; [|exact Hlk]. intros a k o' Hin Ho'. apply Hm. intros ->.
    by apply (outside_free s fl al p n o Hok Hal ltac:(lia) (a, k)).
  - intros a k Hak. destruct (Hall a k Hak) as [Hbl Hsz]. split; [done|]. rewrite <- Hsz. apply rd32_ext.
    intros o' Ho'. apply Hm. intros ->. destruct (decide (a = p)) as [->|Hne]; [lia|].
    pose proof (Hdj _ _ _ _ Hak Hal Hne) as Hd. destruct Hbl as (?&?&?). unfold disj in Hd. simpl in *. lia.
Qed.

Lemma free_heap s al p n :
  heap s al → al !! p = Some n →
  ∃ s', free (p + 8) s = Ret tt s' ∧ heap s' (delete p al) ∧ preserves (delete p al) (um s) (um s').
Proof.
  intros Hh Hal. unfold heap in Hh. case_decide; [destruct Hh as [-> _]; by rewrite lookup_empty in Hal|].
  destruct Hh as [fl Hok]. pose proof (wp_free s fl al p n (λ _ s', heap s' (delete p al) ∧ preserves (delete p al) (um s) (um s')) Hok Hal) as Hw.
  unfold wp in Hw. destruct (free (p + 8) s) as [[] s'| | | |] eqn:E; try (exfalso; apply Hw; intros ? ? H1 H2 H3 H4; split; [by eapply ok_heap|done]).
  exists s'. split; [done|]. apply Hw. intros ? ? H1 H2 H3 H4; split; [by eapply ok_heap|done].
Qed.

Lemma step_heap x y : heap_step x y → heap (fst x) (snd x) → heap (fst y) (snd y).
Proof.
  destruct 1 as [s al nb r s' H1 H2 Hr Hnz|s al nb s' H1 H2 Hr|s al p n s' Hal Hr|s al p n o b Hal Ho]; cbn [fst snd]; intros Hh.
  - pose proof (malloc_spec s al nb Hh H1 H2) as Hw. unfold wp in Hw. rewrite Hr in Hw.
    destruct Hw as [_ [[? _]|(p&->&_&Hh')]]; [done|]. by replace (p + 8 - 8) with p by lia.
  - pose proof (malloc_spec s al nb Hh H1 H2) as Hw. unfold wp in Hw. rewrite Hr in Hw.
    destruct Hw as [_ [(_&Hh'&_)|(p&E&Hnone&Hh')]]; [done|]. exfalso. unfold heap in Hh'. case_decide as D.
    + destruct Hh' as [Ha _]. by apply insert_non_empty in Ha.
    + destruct Hh' as [fl Hok]. pose proof (ho_lo _ _ _ Hok) as (?&?&_).
      destruct (ho_al _ _ _ Hok p _ (lookup_insert_eq _ _ _)) as [(?&_) _]. simpl in *. lia.
  - destruct (free_heap s al p n Hh Hal) as (s''&Hr'&Hh'&_). congruence.
  - by eapply write_heap.
Qed.

End umalloc.

(** A request of 2^32 - 7 bytes or more wraps around and gets a block of no bytes. *)
Lemma malloc_wraps base_addr sbrk_ok nbytes s :
  4294967289 ≤ nbytes < 4294967296 → malloc base_addr sbrk_ok nbytes s = malloc base_addr sbrk_ok 0 s.
Proof.
  intros H. unfold malloc. replace (u32 (nbytes + HEADER - 1) / HEADER) with (u32 (0 + HEADER - 1) / HEADER); [done|].
  unfold HEADER, u32. change 8 with (2 ^ 3) at 1. replace (nbytes + 8 - 1) with (nbytes - 4294967289 + 4294967296) by lia.
  replace (u32 7) with 7 by done. unfold u32. zlia.
Qed.

(** C5: after any sequence of calls of malloc, calls of free on what malloc has
    returned, and writes to the blocks, the blocks of the program are disjoint and in
    the heap; malloc returns, a block of the size asked for away from all others or 0
    when sbrk fails; free returns; and neither changes a byte of the other blocks. *)
Theorem allocator_correct base_addr sbrk_ok lo s0 s (al : gmap Z Z) :
  (∀ n b b', 0 < n → sbrk_ok n b = Some b' → b' = b + n ∧ b' < 2147483648) →
  freep s0 = 0 → 0 < base_addr ∧ base_addr + 8 ≤ lo ≤ brk s0 ∧ brk s0 < 2147483648 →
  rtc (heap_step base_addr sbrk_ok) (s0, ∅) (s, al) →
  (∀ p n, al !! p = Some n → lo ≤ p ∧ p + 8 * n ≤ brk s) ∧
  (∀ p n p' n', al !! p = Some n → al !! p' = Some n' → p ≠ p' → disj (p, n) (p', n')) ∧
  (∀ nbytes, 0 ≤ nbytes → nbytes + 16 < 2147483648 → ∃ r s', malloc base_addr sbrk_ok nbytes s = Ret r s' ∧
     preserves al (um s) (um s') ∧
     (r = 0 ∧ sbrk_ok (Z.max 4096 (units nbytes) * 8) (brk s) = None ∨
      lo ≤ r ∧ r + nbytes ≤ brk s' ∧ ∀ p n, al !! p = Some n → r + nbytes ≤ p ∨ p + 8 * n ≤ r)) ∧
  (∀ p n, al !! p = Some n → ∃ s', free (p + 8) s = Ret tt s' ∧ preserves (delete p al) (um s) (um s')).
Proof.
  intros Hsb Hfp L Hr.
  assert (Hh : heap base_addr lo s al).
  { apply (rtc_ind_r (λ x, heap base_addr lo (fst x) (snd x)) (s0, ∅)) in Hr; [done| |].
    - unfold heap. cbn [fst snd]. rewrite decide_True by done. split; [done|lia].
    - intros x y _ Hs. by eapply step_heap. }
  assert (Hok : al = ∅ ∨ ∃ fl, heap_ok base_addr lo s fl al).
  { unfold heap in Hh. case_decide; [left; tauto|by right]. }
  split; [|split; [|split]].
  - intros p n Hp. destruct Hok as [->|[fl Hok]]; [by rewrite lookup_empty in Hp|].
    destruct (ho_al _ _ _ _ _ Hok p n Hp) as [(?&?&?) _]. simpl in *. lia.
  - intros p n p' n' Hp. destruct Hok as [->|[fl Hok]]; [by rewrite lookup_empty in Hp|]. by apply (ho_disj _ _ _ _ _ Hok).
  - intros nbytes Hb Hlim. pose proof (malloc_spec _ _ _ Hsb s al nbytes Hh Hb Hlim) as Hw. unfold wp in Hw.
    destruct (malloc _ _ _ s) as [r s'| | | |] eqn:E; try done. exists r, s'. split; [done|]. destruct Hw as [Hpr Hw].
    split; [done|]. destruct Hw as [(->&_&Hno)|(p&->&Hnone&Hh')]; [by left|right].
    eapply malloc_block; done.
  - intros p n Hp. destruct (free_heap base_addr sbrk_ok lo s al p n Hh Hp) as (s'&H1&_&H2). by exists s'.
Qed.

(** A break that moves up to 1 MB. *)
Definition sbrk_example (n b : Z) : option Z := if b + n <=? 1048576 then Some (b + n) else None.
Definition ust_start : ust := {| um := ∅; freep := 0; brk := 16 |}.
Definition ust_after (r : outcome ust Z) : ust := match r with Ret _ s => s | _ => ust_start end.
Definition ust_one : ust := ust_after (malloc 8 sbrk_example 20 ust_start).
Definition ust_two : ust := ust_after (malloc 8 sbrk_example 100 ust_one).
Definition ust_free : ust := match free 32760 ust_two with Ret _ s => s | _ => ust_start end.

Definition blocks_free : gmap Z Z := delete (32760 - 8) (<[32648 - 8 := units 100]> (<[32760 - 8 := units 20]> ∅)).

Lemma allocator_correct_witness :
  ∃ r s', malloc 8 sbrk_example 10 ust_free = Ret r s' ∧ preserves blocks_free (um ust_free) (um s').
Proof.
  destruct (allocator_correct 8 sbrk_example 16 ust_start ust_free blocks_free) as (_&_&H&_).
  - intros n b b' Hn. unfold sbrk_example. destruct (Z.leb_spec (b + n) 1048576); [|done]. intros [= <-]. lia.
  - reflexivity.
  - cbn. lia.
  - eapply rtc_l; [apply (step_malloc 8 sbrk_example ust_start ∅ 20 32760 ust_one); [lia|lia|vm_compute; reflexivity|lia]|].
    eapply rtc_l; [apply (step_malloc 8 sbrk_example ust_one _ 100 32648 ust_two); [lia|lia|vm_compute; reflexivity|lia]|].
    eapply rtc_l; [apply (step_free 8 sbrk_example ust_two _ (32760 - 8) (units 20) ust_free); vm_compute; reflexivity|].
    apply rtc_refl.
  - destruct (H 10) as (r&s'&H1&H2&_); [lia|lia|]. exists r, s'. split; [exact H1|exact H2].
Defined.
