(* ===== verification/Sh.v ===== *)
(** The parser of the shell (src/sh.c, from the constructors to nulterminate).

    The line is a buffer of bytes, and a pointer into it is an index.  The
    commands are nodes in memory that malloc hands out one after the other; a
    pointer to a node is its place, from 1, and 0 is the null pointer.  The parser
    fills in an execcmd while redircmds are put around it, so the nodes are shared
    and changed in place, as in the source. *)

From Stdlib Require Import ZArith Lia.
From stdpp Require Import base tactics numbers strings list.
From S2P Require Import Prelude.

#[local] Open Scope Z_scope.

(** * The parser *)

Definition MAXARGS : nat := 10.
Definition O_RDONLY : Z := 0.
Definition O_WRONLY : Z := 1.
Definition O_CREATE : Z := 512.

(** [execcmd], [redircmd], [pipecmd], [listcmd], [backcmd]. *)
Inductive node :=
  | EXEC (argv eargv : list (option nat))
  | REDIR (cmd : nat) (file efile : nat) (mode fd : Z)
  | PIPE (left right : nat)
  | LIST (left right : nat)
  | BACK (cmd : nat).

Record shst := { sbuf : list Z; nodes : list node }.

(** ** Characters *)

Definition whitespace : list Z := [32; 9; 13; 10; 11].
Definition symbols : list Z := [60; 124; 62; 38; 59; 40; 41].
(** [strchr(l, c)], for a string [l]. *)
Definition strchr (l : list Z) (c : Z) : bool := existsb (Z.eqb c) l.

(** [b[i]] *)
Definition ch (b : list Z) (i : nat) : Z := default 0 (b !! i).

(** [while(s < es && P( *s)) s++;] with [n] bytes to [es]. *)
Fixpoint skip (P : Z → bool) (b : list Z) (n : nat) (s : nat) : nat :=
  match n with
  | O => s
  | S n' => if P (ch b s) then skip P b n' (S s) else s
  end.
Definition skip_white (b : list Z) (es s : nat) : nat := skip (strchr whitespace) b (es - s) s.
Definition skip_word (b : list Z) (es s : nat) : nat :=
  skip (λ c, negb (strchr whitespace c) && negb (strchr symbols c)) b (es - s) s.

(** The value, *q, *eq and *ps. *)
Definition gettoken (b : list Z) (es s : nat) : Z * nat * nat * nat :=
  let q := skip_white b es s in
  let c := ch b q in
  let '(ret, eq) :=
    if c =? 0 then (c, q)
    else if (c =? 124) || (c =? 40) || (c =? 41) || (c =? 59) || (c =? 38) || (c =? 60) then (c, S q)
    else if c =? 62 then if ch b (S q) =? 62 then (43, S (S q)) else (c, S q)
    else (97, skip_word b es q) in
  (ret, q, eq, skip_white b es eq).

(** The value and *ps. *)
Definition peek (b : list Z) (es : nat) (toks : list Z) (s : nat) : bool * nat :=
  let s := skip_white b es s in
  (negb (ch b s =? 0) && strchr toks (ch b s), s).

(** [strlen(s)] *)
Fixpoint strlen (b : list Z) : nat :=
  match b with
  | [] => O
  | c :: b' => if c =? 0 then O else S (strlen b')
  end.

(** ** Nodes *)

Section parser.
(** Whether malloc has memory for one more node. *)
Context (malloc_ok : nat → bool).

Definition set_nodes (f : list node → list node) (st : shst) : shst := {| sbuf := sbuf st; nodes := f (nodes st) |}.
Definition set_sbuf (f : list Z → list Z) (st : shst) : shst := {| sbuf := f (sbuf st); nodes := nodes st |}.

(** [malloc(sizeof *cmd)], which the source does not check, and the assignments. *)
Definition new_node (nd : node) : K shst nat :=
  gets nodes ≫= λ ns,
  if malloc_ok (length ns) then modify (set_nodes (λ ns, ns ++ [nd])) ≫= λ _, mret (S (length ns))
  else fault "memset of a null pointer".

Definition execcmd : K shst nat := new_node (EXEC (replicate MAXARGS None) (replicate MAXARGS None)).
Definition redircmd (subcmd file efile : nat) (mode fd : Z) : K shst nat := new_node (REDIR subcmd file efile mode fd).
Definition pipecmd (left right : nat) : K shst nat := new_node (PIPE left right).
Definition listcmd (left right : nat) : K shst nat := new_node (LIST left right).
Definition backcmd (subcmd : nat) : K shst nat := new_node (BACK subcmd).

Definition node_at (ns : list node) (p : nat) : option node := match p with O => None | S i => ns !! i end.

(** [cmd->argv[i] = q; cmd->eargv[i] = eq;] *)
Definition set_arg (p i : nat) (q eq : option nat) : K shst unit :=
  gets nodes ≫= λ ns,
  match p, node_at ns p with
  | S k, Some (EXEC av ev) =>
      if (i <? MAXARGS)%nat then modify (set_nodes (λ ns, <[k := EXEC (<[i := q]> av) (<[i := eq]> ev)]> ns))
      else fault "argv out of range"
  | _, _ => fault "not an execcmd"
  end.

(** ** The grammar *)

Section line.
Context (b : list Z) (es : nat).

Fixpoint parseredirs (fuel : nat) (cmd s : nat) : K shst (nat * nat) :=
  let '(p, s) := peek b es [60; 62] s in
  if negb p then mret (cmd, s) else
  match fuel with
  | O => diverge
  | S fuel' =>
      let '(tok, _, _, s) := gettoken b es s in
      let '(t, q, eq, s) := gettoken b es s in
      if negb (t =? 97) then panic "missing file for redirection" else
      (if tok =? 60 then redircmd cmd q eq O_RDONLY 0
       else if tok =? 62 then redircmd cmd q eq (Z.lor O_WRONLY O_CREATE) 1
       else if tok =? 43 then redircmd cmd q eq (Z.lor O_WRONLY O_CREATE) 1
       else mret cmd) ≫= λ cmd,
      parseredirs fuel' cmd s
  end.

(** The loop of parseexec and what follows it. *)
Fixpoint parseargs (fuel : nat) (cmd argc ret s : nat) : K shst (nat * nat) :=
  let '(p, s) := peek b es [124; 41; 38; 59] s in
  if p then set_arg cmd argc None None ≫= λ _, mret (ret, s) else
  let '(tok, q, eq, s) := gettoken b es s in
  if tok =? 0 then set_arg cmd argc None None ≫= λ _, mret (ret, s) else
  if negb (tok =? 97) then panic "syntax" else
  match fuel with
  | O => diverge
  | S fuel' =>
      set_arg cmd argc (Some q) (Some eq) ≫= λ _,
      let argc := S argc in
      if (MAXARGS <=? argc)%nat then panic "too many args" else
      parseredirs (S es) ret s ≫= λ '(ret, s),
      parseargs fuel' cmd argc ret s
  end.

(** [while(peek(ps, es, "&"))] of parseline. *)
Fixpoint parsebacks (fuel : nat) (cmd s : nat) : K shst (nat * nat) :=
  let '(p, s) := peek b es [38] s in
  if negb p then mret (cmd, s) else
  match fuel with
  | O => diverge
  | S fuel' =>
      let '(_, _, _, s) := gettoken b es s in
      backcmd cmd ≫= λ cmd, parsebacks fuel' cmd s
  end.

Fixpoint parseline (fuel : nat) (s : nat) : K shst (nat * nat) :=
  match fuel with
  | O => diverge
  | S fuel' =>
      parsepipe fuel' s ≫= λ '(cmd, s),
      parsebacks (S es) cmd s ≫= λ '(cmd, s),
      let '(p, s) := peek b es [59] s in
      if p then
        let '(_, _, _, s) := gettoken b es s in
        parseline fuel' s ≫= λ '(cmd2, s),
        listcmd cmd cmd2 ≫= λ cmd, mret (cmd, s)
      else mret (cmd, s)
  end
with parsepipe (fuel : nat) (s : nat) : K shst (nat * nat) :=
  match fuel with
  | O => diverge
  | S fuel' =>
      parseexec fuel' s ≫= λ '(cmd, s),
      let '(p, s) := peek b es [124] s in
      if p then
        let '(_, _, _, s) := gettoken b es s in
        parsepipe fuel' s ≫= λ '(cmd2, s),
        pipecmd cmd cmd2 ≫= λ cmd, mret (cmd, s)
      else mret (cmd, s)
  end
with parseexec (fuel : nat) (s : nat) : K shst (nat * nat) :=
  match fuel with
  | O => diverge
  | S fuel' =>
      let '(p, s) := peek b es [40] s in
      if p then parseblock fuel' s else
      execcmd ≫= λ cmd,
      parseredirs (S es) cmd s ≫= λ '(ret, s),
      parseargs (S es) cmd O ret s
  end
with parseblock (fuel : nat) (s : nat) : K shst (nat * nat) :=
  match fuel with
  | O => diverge
  | S fuel' =>
      let '(p, s) := peek b es [40] s in
      if negb p then panic "parseblock" else
      let '(_, _, _, s) := gettoken b es s in
      parseline fuel' s ≫= λ '(cmd, s),
      let '(p, s) := peek b es [41] s in
      if negb p then panic "syntax - missing )" else
      let '(_, _, _, s) := gettoken b es s in
      parseredirs (S es) cmd s
  end.
End line.

(** [*p = 0;] in the line. *)
Definition nul (p : nat) : K shst unit :=
  gets sbuf ≫= λ b,
  if (p <? length b)%nat then modify (set_sbuf (<[p := 0]>)) else fault "write past the line".

(** [for(i = 0; ecmd->argv[i]; i++) *ecmd->eargv[i] = 0;] *)
Fixpoint nulargs (fuel : nat) (av ev : list (option nat)) (i : nat) : K shst unit :=
  match av !! i, ev !! i with
  | Some None, _ => mret tt
  | Some (Some _), Some (Some e) =>
      match fuel with O => diverge | S fuel' => nul e ≫= λ _, nulargs fuel' av ev (S i) end
  | _, _ => fault "argv out of range"
  end.

Fixpoint nulterminate (fuel : nat) (cmd : nat) : K shst unit :=
  if (cmd =? 0)%nat then mret tt else
  match fuel with
  | O => diverge
  | S fuel' =>
      gets nodes ≫= λ ns,
      match node_at ns cmd with
      | Some (EXEC av ev) => nulargs MAXARGS av ev 0
      | Some (REDIR c _ efile _ _) => nulterminate fuel' c ≫= λ _, nul efile
      | Some (PIPE l r) => nulterminate fuel' l ≫= λ _, nulterminate fuel' r
      | Some (LIST l r) => nulterminate fuel' l ≫= λ _, nulterminate fuel' r
      | Some (BACK c) => nulterminate fuel' c
      | None => fault "not a command"
      end
  end.

(** Four calls for each byte of the line are enough. *)
Definition parse_fuel (es : nat) : nat := (4 * es + 4)%nat.

Definition parsecmd : K shst nat :=
  gets sbuf ≫= λ b,
  let es := strlen b in
  parseline b es (parse_fuel es) 0 ≫= λ '(cmd, s),
  let '(_, s) := peek b es [] s in
  if negb (s =? es)%nat then panic "syntax" else
  gets nodes ≫= λ ns,
  nulterminate (S (length ns)) cmd ≫= λ _, mret cmd.
End parser.
