(* ===== verification/Shparse.v ===== *)
(** What the parser of the shell (Sh.v) does, as a function of the tokens of the
    line: the tokens, a parser that works on them and yields trees, and the proof
    that parseline and the others compute the same, node by node. *)

From Stdlib Require Import ZArith Lia.
From stdpp Require Import base tactics numbers sets strings list.
From S2P Require Import Prelude Sh.

#[local] Open Scope Z_scope.

(** * Tokens *)

(** The kind of a token, and where it is in the line. *)
Definition tok : Type := Z * nat * nat.

(** The first character of a token other than a word, by its kind. *)
Definition first (r : Z) : Z := if r =? 43 then 62 else r.
(** Whether the next token is one of the symbols of [set]. *)
Definition heads (set : list Z) (ts : list tok) : bool :=
  match ts with [] => false | (r, _, _) :: _ => strchr set (first r) end.

(** A character of a word. *)
Definition plain (c : Z) : bool := negb (strchr whitespace c) && negb (strchr symbols c).

Fixpoint tokens (b : list Z) (es : nat) (fuel s : nat) : list tok :=
  match fuel with
  | O => []
  | S fuel' => let '(r, q, eq, s') := gettoken b es s in if r =? 0 then [] else (r, q, eq) :: tokens b es fuel' s'
  end.
Definition toks (b : list Z) (es s : nat) : list tok := tokens b es (S (es - s)) s.

Lemma skip_spec P b n s :
  (s ≤ skip P b n s ≤ s + n)%nat ∧ (∀ i, (s ≤ i < skip P b n s)%nat → P (ch b i) = true) ∧
  ((skip P b n s < s + n)%nat → P (ch b (skip P b n s)) = false).
Proof.
  revert s. induction n as [|n IH]; intros s; simpl; [split; [lia|]; split; intros; lia|].
  destruct (P (ch b s)) eqn:E.
  - destruct (IH (S s)) as (H1&H2&H3). split; [lia|]. split; [|intros; apply H3; lia].
    intros i Hi. destruct (decide (i = s)) as [->|]; [done|]. apply H2. lia.
  - split; [lia|]. split; [intros; lia|done].
Qed.

Lemma strchr_subset set l c : (∀ x, x ∈ set → x ∈ l) → strchr l c = false → strchr set c = false.
Proof.
  intros Hs Hl. unfold strchr in *. destruct (existsb (Z.eqb c) set) eqn:E; [|done]. exfalso.
  apply existsb_exists in E as (x&Hx&Ex). assert (existsb (Z.eqb c) l = true); [|congruence].
  apply existsb_exists. exists x. split; [|done]. apply list_elem_of_In, Hs, list_elem_of_In, Hx.
Qed.

Section lex.
Context (b : list Z) (es : nat).
(** The line ends at [es]. *)
Hypothesis line_nul : ch b es = 0.
Hypothesis line_chars : ∀ i, (i < es)%nat → ch b i ≠ 0.

(** A word lies between [q] and [eq], and ends where no word goes on. *)
Definition word_ok (w : nat * nat) : Prop :=
  (fst w < snd w ≤ es)%nat ∧ (∀ i, (fst w ≤ i < snd w)%nat → plain (ch b i) = true) ∧
  (snd w = es ∨ plain (ch b (snd w)) = false).

Lemma skip_white_spec s : (s ≤ es)%nat → (s ≤ skip_white b es s ≤ es)%nat ∧
  (skip_white b es s = es ∨ strchr whitespace (ch b (skip_white b es s)) = false) ∧
  skip_white b es (skip_white b es s) = skip_white b es s.
Proof.
  intros Hs. unfold skip_white. destruct (skip_spec (strchr whitespace) b (es - s) s) as (H1&H2&H3).
  set (r := skip _ b (es - s) s) in *. destruct (decide (r = es)) as [->|Hne].
  - rewrite Nat.sub_diag. split; [lia|]. split; [by left|done].
  - assert (Hr : strchr whitespace (ch b r) = false) by (apply H3; lia).
    split; [lia|]. split; [by right|]. destruct (es - r)%nat; cbn [skip]; [done|]. by rewrite Hr.
Qed.

(** At the end of the line. *)
Lemma gettoken_end s : (s ≤ es)%nat → skip_white b es s = es → gettoken b es s = (0, es, es, es).
Proof.
  intros Hs E. unfold gettoken. rewrite E, line_nul. simpl. unfold skip_white. by rewrite Nat.sub_diag.
Qed.

(** The kinds of tokens, by the character they start with. *)
Definition kind (c r : Z) : Prop :=
  (r = c ∧ strchr symbols c = true) ∨ (r = 43 ∧ c = 62) ∨ (r = 97 ∧ strchr symbols c = false).

Lemma gettoken_some s : (s ≤ es)%nat → (skip_white b es s < es)%nat →
  ∃ r eq s', gettoken b es s = (r, skip_white b es s, eq, s') ∧ r ≠ 0 ∧
    (skip_white b es s < eq ≤ s')%nat ∧ (s' ≤ es)%nat ∧ kind (ch b (skip_white b es s)) r ∧
    (r = 97 → word_ok (skip_white b es s, eq)).
Proof.
  intros Hs Hq. destruct (skip_white_spec s Hs) as (H1&H2&_). destruct H2 as [?|Hw]; [lia|].
  set (q := skip_white b es s) in *. pose proof (line_chars q Hq) as Hc.
  unfold gettoken. fold q. rewrite (proj2 (Z.eqb_neq _ _) Hc).
  assert (Hgo : ∀ r eq, r ≠ 0 → (q < eq ≤ es)%nat → kind (ch b q) r → (r = 97 → word_ok (q, eq)) →
    ∃ r' eq' s', (r, q, eq, skip_white b es eq) = (r', q, eq', s') ∧ r' ≠ 0 ∧ (q < eq' ≤ s')%nat ∧ (s' ≤ es)%nat ∧
      kind (ch b q) r' ∧ (r' = 97 → word_ok (q, eq'))).
  { intros r eq Hr Heq Hk Hwd. destruct (skip_white_spec eq) as (?&_&_); [lia|]. exists r, eq, (skip_white b es eq).
    split; [done|]. split; [done|]. split; [lia|]. split; [lia|done]. }
  destruct (_ || _) eqn:Esym.
  { apply Hgo; [done|lia| |].
    - left. split; [done|]. unfold strchr, symbols. simpl. rewrite !orb_true_iff in Esym. rewrite !orb_true_iff. tauto.
    - intros E97. by rewrite E97 in Esym. }
  destruct (Z.eqb_spec (ch b q) 62) as [E62|N62].
  - destruct (Z.eqb_spec (ch b (S q)) 62) as [E2|N2].
    + assert (S q ≠ es) by (intros E; rewrite E, line_nul in E2; done). apply Hgo; [done|lia|right; by left|done].
    + apply Hgo; [by rewrite E62|lia|left; by rewrite E62|by rewrite E62].
  - assert (Hsym : strchr symbols (ch b q) = false).
    { rewrite !orb_false_iff in Esym. unfold strchr, symbols. simpl. rewrite !orb_false_iff. rewrite (proj2 (Z.eqb_neq _ _) N62). tauto. }
    unfold skip_word. destruct (skip_spec plain b (es - q) q) as (W1&W2&W3). unfold plain in W1, W2, W3.
    set (eq := skip _ b (es - q) q) in *.
    assert (q < eq)%nat.
    { destruct (decide (eq = q)) as [E|]; [|lia]. rewrite E, Hw, Hsym in W3. specialize (W3 ltac:(lia)). done. }
    apply Hgo; [done|lia|by right; right|]. intros _. split; [simpl; lia|]. split; [done|].
    simpl. destruct (decide (eq = es)); [by left|right]. apply W3. lia.
Qed.

Lemma tokens_fuel fuel s : (s ≤ es)%nat → (es - s < fuel)%nat → tokens b es fuel s = toks b es s.
Proof.
  unfold toks. intros Hs Hf. assert (Hg : (es - s < S (es - s))%nat) by lia. revert Hg Hf. generalize (S (es - s)) as g.
  revert s Hs. induction fuel as [|fuel IH]; intros s Hs g Hg Hf; [lia|]. destruct g as [|g]; [lia|]. simpl.
  destruct (skip_white_spec s Hs) as (H1&_&_).
  destruct (decide (skip_white b es s = es)) as [E|Hne]; [by rewrite gettoken_end|].
  destruct (gettoken_some s Hs) as (r&eq&s'&->&Hr&Heq&Hs'&_); [lia|]. rewrite (proj2 (Z.eqb_neq _ _) Hr).
  f_equal. apply IH; lia.
Qed.

(** The symbols that peek is asked for. *)
Definition is_set (set : list Z) : Prop := ∀ x, x ∈ set → x ∈ symbols.

Lemma peek_heads set s : (s ≤ es)%nat → is_set set →
  ∃ q, peek b es set s = (heads set (toks b es s), q) ∧ (q ≤ es)%nat ∧ toks b es q = toks b es s ∧ (toks b es s = [] → q = es).
Proof.
  intros Hs Hset. destruct (skip_white_spec s Hs) as (H1&H2&H3). exists (skip_white b es s).
  unfold peek. set (q := skip_white b es s) in *.
  assert (Hg : gettoken b es q = gettoken b es s) by (unfold gettoken; fold q; by rewrite H3).
  assert (Ht : toks b es q = toks b es s).
  { rewrite <- (tokens_fuel (S (es - s)) q) by lia. unfold toks. simpl. by rewrite Hg. }
  destruct (decide (q = es)) as [E|Hne].
  - assert (Hnil : toks b es s = []) by (unfold toks; simpl; by rewrite gettoken_end).
    rewrite Hnil in *. split; [by rewrite E, line_nul|]. split; [lia|]. by split.
  - split; [|split; [lia|split; [done|]]]; unfold toks; simpl.
    + destruct (gettoken_some s Hs) as (r&eq&s'&->&Hr&_&_&Hk&_); [lia|]. rewrite (proj2 (Z.eqb_neq r 0) Hr). fold q in Hk |- *.
      simpl. rewrite (proj2 (Z.eqb_neq (ch b q) 0)) by (apply line_chars; lia). f_equal. simpl.
      destruct Hk as [[-> Hk]|[[-> ->]|[-> Hk]]]; [|done|].
      * unfold first. destruct (Z.eqb_spec (ch b q) 43) as [E|]; [|done]. by rewrite E in Hk.
      * unfold first. simpl. rewrite !(strchr_subset set symbols); done.
    + destruct (gettoken_some s Hs) as (r&eq&s'&->&Hr&_); [lia|]. by rewrite (proj2 (Z.eqb_neq r 0) Hr).
Qed.

Lemma gettoken_toks s : (s ≤ es)%nat →
  match toks b es s with
  | [] => ∃ q eq, gettoken b es s = (0, q, eq, es)
  | (r, q, eq) :: ts => r ≠ 0 ∧ ∃ s', gettoken b es s = (r, q, eq, s') ∧ (s' ≤ es)%nat ∧ toks b es s' = ts
  end.
Proof.
  intros Hs. destruct (skip_white_spec s Hs) as (H1&_&_). unfold toks at 1. simpl.
  destruct (decide (skip_white b es s = es)) as [E|Hne]; [rewrite gettoken_end by done; simpl; eauto|].
  destruct (gettoken_some s Hs) as (r&eq&s'&->&Hr&?&?&_); [lia|]. rewrite (proj2 (Z.eqb_neq _ _) Hr). split; [done|].
  exists s'. split; [done|]. split; [done|]. rewrite tokens_fuel; [done|lia|lia].
Qed.

Lemma toks_ok s : (s ≤ es)%nat → ∀ q eq, (97, q, eq) ∈ toks b es s → word_ok (q, eq).
Proof.
  unfold toks. generalize (S (es - s)) as fuel. intros fuel. revert s. induction fuel as [|fuel IH]; intros s Hs q eq; simpl; [set_solver|].
  destruct (skip_white_spec s Hs) as (H1&_&_).
  destruct (decide (skip_white b es s = es)) as [E|Hne]; [rewrite gettoken_end by done; set_solver|].
  destruct (gettoken_some s Hs) as (r&eq'&s'&->&Hr&?&?&_&Hw); [lia|]. rewrite (proj2 (Z.eqb_neq _ _) Hr).
  intros [[= <- -> ->]|Hin]%elem_of_cons; [by apply Hw|]. by apply (IH s').
Qed.

Lemma toks_length s : (s ≤ es)%nat → (length (toks b es s) ≤ es - s)%nat.
Proof.
  intros Hs. unfold toks. assert (H : ∀ fuel s, (s ≤ es)%nat → (length (tokens b es fuel s) ≤ es - s)%nat); [|by apply H].
  clear s Hs. induction fuel as [|fuel IH]; intros s Hs; simpl; [lia|]. destruct (skip_white_spec s Hs) as (H1&_&_).
  destruct (decide (skip_white b es s = es)) as [E|Hne]; [rewrite gettoken_end by done; simpl; lia|].
  destruct (gettoken_some s Hs) as (r&eq'&s'&->&Hr&?&?&_); [lia|]. rewrite (proj2 (Z.eqb_neq _ _) Hr). simpl.
  specialize (IH s' ltac:(lia)). lia.
Qed.
Lemma toks_end : toks b es es = [].
Proof. apply nil_length_inv. pose proof (toks_length es ltac:(done)). lia. Qed.
End lex.

(** * A parser on tokens *)

(** Commands, with their words by place; a redirection is its file, mode and descriptor. *)
Definition word : Type := nat * nat.
Definition redir : Type := word * Z * Z.
Inductive tree :=
  | Exec (ws : list word)
  | Redir (c : tree) (r : redir)
  | Pipe (l r : tree)
  | List (l r : tree)
  | Back (c : tree).

Inductive presult (A : Type) := POk (a : A) | PErr | POut.
Arguments POk {A} a.
Arguments PErr {A}.
Arguments POut {A}.
Definition pbind {A B} (r : presult A) (f : A → presult B) : presult B :=
  match r with POk a => f a | PErr => PErr | POut => POut end.

Definition wrap (t : tree) (rs : list redir) : tree := foldl Redir t rs.
Definition redir_of (r : Z) (w : word) : redir :=
  if r =? 60 then (w, O_RDONLY, 0) else (w, Z.lor O_WRONLY O_CREATE, 1).

(** Redirections, as far as they go. *)
Fixpoint p_redirs (ts : list tok) : presult (list redir * list tok) :=
  match ts with
  | (r, _, _) :: ts1 =>
      if strchr [60; 62] (first r) then
        match ts1 with
        | (r', q, eq) :: ts2 =>
            if r' =? 97 then pbind (p_redirs ts2) (λ '(rs, ts'), POk (redir_of r (q, eq) :: rs, ts')) else PErr
        | [] => PErr
        end
      else POk ([], ts)
  | [] => POk ([], [])
  end.

(** The words and the redirections of a simple command that has [n] words so far. *)
Fixpoint p_items (ts : list tok) (n : nat) : presult (list word * list redir * list tok) :=
  match ts with
  | (r, q, eq) :: ts1 =>
      if strchr [60; 62] (first r) then
        match ts1 with
        | (r', q', eq') :: ts2 =>
            if r' =? 97 then pbind (p_items ts2 n) (λ '(ws, rs, ts'), POk (ws, redir_of r (q', eq') :: rs, ts')) else PErr
        | [] => PErr
        end
      else if strchr [124; 41; 38; 59] (first r) then POk ([], [], ts)
      else if r =? 97 then
        if (MAXARGS <=? S n)%nat then PErr
        else pbind (p_items ts1 (S n)) (λ '(ws, rs, ts'), POk ((q, eq) :: ws, rs, ts'))
      else PErr
  | [] => POk ([], [], [])
  end.

Fixpoint p_backs (t : tree) (ts : list tok) : tree * list tok :=
  match ts with
  | (r, _, _) :: ts1 => if strchr [38] (first r) then p_backs (Back t) ts1 else (t, ts)
  | [] => (t, [])
  end.

Fixpoint p_line (fuel : nat) (ts : list tok) : presult (tree * list tok) :=
  match fuel with
  | O => POut
  | S fuel' =>
      pbind (p_pipe fuel' ts) (λ '(t, ts),
      let '(t, ts) := p_backs t ts in
      if heads [59] ts then pbind (p_line fuel' (tail ts)) (λ '(t2, ts), POk (List t t2, ts))
      else POk (t, ts))
  end
with p_pipe (fuel : nat) (ts : list tok) : presult (tree * list tok) :=
  match fuel with
  | O => POut
  | S fuel' =>
      pbind (p_exec fuel' ts) (λ '(t, ts),
      if heads [124] ts then pbind (p_pipe fuel' (tail ts)) (λ '(t2, ts), POk (Pipe t t2, ts))
      else POk (t, ts))
  end
with p_exec (fuel : nat) (ts : list tok) : presult (tree * list tok) :=
  match fuel with
  | O => POut
  | S fuel' =>
      if heads [40] ts then p_block fuel' ts
      else pbind (p_items ts 0) (λ '(ws, rs, ts), POk (wrap (Exec ws) rs, ts))
  end
with p_block (fuel : nat) (ts : list tok) : presult (tree * list tok) :=
  match fuel with
  | O => POut
  | S fuel' =>
      if heads [40] ts then
        pbind (p_line fuel' (tail ts)) (λ '(t, ts),
        if heads [41] ts then pbind (p_redirs (tail ts)) (λ '(rs, ts), POk (wrap t rs, ts)) else PErr)
      else PErr
  end.

(** A simple command is its redirections before the first word, and the rest. *)
Lemma p_items_redirs ts n :
  p_items ts n = pbind (p_redirs ts) (λ '(rs, ts'), pbind (p_items ts' n) (λ '(ws, rs', ts''), POk (ws, rs ++ rs', ts''))) ∧
  (∀ rs ts', p_redirs ts = POk (rs, ts') → heads [60; 62] ts' = false ∧ (length ts' ≤ length ts)%nat).
Proof.
  remember (length ts) as k eqn:Hk. assert (Hle : (length ts ≤ k)%nat) by lia. clear Hk. revert ts Hle.
  induction k as [k IH] using lt_wf_ind. intros ts Hle.
  destruct ts as [|[[r q] eq] ts]; [split; [done|intros ? ? [= <- <-]; simpl; split; [done|lia]]|].
  simpl in Hle. cbn [p_redirs]. destruct (strchr [60; 62] (first r)) eqn:Er.
  - cbn [p_items]. rewrite Er. destruct ts as [|[[r' q'] eq'] ts2]; [done|]. destruct (Z.eqb_spec r' 97); [|done].
    simpl in Hle. destruct (IH (length ts2) ltac:(lia) ts2 ltac:(done)) as [IH1 IH2]. rewrite IH1.
    destruct (p_redirs ts2) as [[rs ts']| |] eqn:Ep; cbn [pbind]; try done. split.
    + destruct (p_items ts' n) as [[[ws rs'] ts'']| |]; done.
    + intros ? ? [= <- <-]. destruct (IH2 rs ts' eq_refl). split; [done|lia].
  - cbn [pbind]. split; [by destruct (p_items _ n) as [[[? ?] ?]| |]|]. intros ? ? [= <- <-]. simpl in *. split; [done|lia].
Qed.

(** * The nodes are the trees *)

(** An argument array with [l] in it. *)
Definition args (l : list nat) : list (option nat) := (Some <$> l) ++ replicate (MAXARGS - length l) None.

Fixpoint repr (ns : list node) (t : tree) (p : nat) : Prop :=
  match t with
  | Exec ws => node_at ns p = Some (EXEC (args ws.*1) (args ws.*2)) ∧ (length ws < MAXARGS)%nat
  | Redir c (w, m, f) => ∃ p', (p' < p)%nat ∧ node_at ns p = Some (REDIR p' (fst w) (snd w) m f) ∧ repr ns c p'
  | Pipe l r => ∃ p1 p2, (p1 < p)%nat ∧ (p2 < p)%nat ∧ node_at ns p = Some (PIPE p1 p2) ∧ repr ns l p1 ∧ repr ns r p2
  | List l r => ∃ p1 p2, (p1 < p)%nat ∧ (p2 < p)%nat ∧ node_at ns p = Some (LIST p1 p2) ∧ repr ns l p1 ∧ repr ns r p2
  | Back c => ∃ p', (p' < p)%nat ∧ node_at ns p = Some (BACK p') ∧ repr ns c p'
  end.

(** The redircmds [rs] around node [e]; the outermost is [p]. *)
Fixpoint chain (ns : list node) (rs : list redir) (e p : nat) : Prop :=
  match rs with
  | [] => p = e
  | (w, m, f) :: rs' => ∃ e', (e < e')%nat ∧ node_at ns e' = Some (REDIR e (fst w) (snd w) m f) ∧ chain ns rs' e' p
  end.

(** All nodes, but perhaps [e], are kept. *)
Definition keeps (ns ns' : list node) (e : nat) : Prop :=
  ∀ p nd, p ≠ e → node_at ns p = Some nd → node_at ns' p = Some nd.

Lemma keeps_nodes_refl ns e : keeps ns ns e.
Proof. by intros p nd _. Qed.
Lemma keeps_nodes_trans ns1 ns2 ns3 e : keeps ns1 ns2 e → keeps ns2 ns3 e → keeps ns1 ns3 e.
Proof. intros H1 H2 p nd Hne Hp. apply H2; [done|]. by apply H1. Qed.
(** All nodes are kept, if there was none at [e]. *)
Lemma keeps_nodes_null ns ns' e e' : keeps ns ns' e → node_at ns e = None → keeps ns ns' e'.
Proof. intros H Hn p nd Hne Hp. destruct (decide (p = e)) as [->|]; [congruence|]. by apply H. Qed.
Lemma node_at_null ns : node_at ns 0 = None.
Proof. done. Qed.

Lemma repr_node ns t p : repr ns t p → is_Some (node_at ns p).
Proof. destruct t as [ws|c [[w m] f]|l r|l r|c]; simpl; naive_solver. Qed.
Lemma repr_keeps ns ns' t p : keeps ns ns' 0 → repr ns t p → repr ns' t p.
Proof.
  intros H. assert (H' : ∀ p nd, node_at ns p = Some nd → node_at ns' p = Some nd) by (intros [|q] nd Hp; [done|by apply H]).
  revert p. induction t as [ws|c IH [[w m] f]|l IHl r IHr|l IHl r IHr|c IH]; intros p; simpl.
  - intros [? ?]; auto.
  - intros (p1&H1&H2&H3). exists p1. split; [done|]. split; [by apply H'|by apply IH].
  - intros (p1&p2&H1&H2&H3&H4&H5). exists p1, p2. split; [done|]. split; [done|]. split; [by apply H'|]. split; [by apply IHl|by apply IHr].
  - intros (p1&p2&H1&H2&H3&H4&H5). exists p1, p2. split; [done|]. split; [done|]. split; [by apply H'|]. split; [by apply IHl|by apply IHr].
  - intros (p1&H1&H2&H3). exists p1. split; [done|]. split; [by apply H'|by apply IH].
Qed.
Lemma chain_keeps ns ns' rs e p x : keeps ns ns' x → (x ≤ e)%nat → chain ns rs e p → chain ns' rs e p.
Proof.
  intros H. revert e. induction rs as [|[[w m] f] rs IH]; intros e Hx; simpl; [done|]. intros (e'&He&Hn&Hc).
  exists e'. split; [done|]. split; [apply H; [lia|done]|]. apply IH; [lia|done].
Qed.
Lemma chain_app ns rs1 rs2 e e' p : chain ns rs1 e e' → chain ns rs2 e' p → chain ns (rs1 ++ rs2) e p.
Proof.
  revert e. induction rs1 as [|[[w m] f] rs IH]; intros e; simpl; [by intros ->|]. intros (e2&He&Hn&Hc) H2.
  exists e2. eauto.
Qed.
Lemma chain_node ns rs e p nd : chain ns rs e p → node_at ns e = Some nd → is_Some (node_at ns p).
Proof.
  revert e nd. induction rs as [|[[w m] f] rs IH]; intros e nd; simpl; [by intros -> ->|]. intros (e'&_&Hn&Hc) _.
  by eapply IH.
Qed.
Lemma chain_repr ns rs t e p : repr ns t e → chain ns rs e p → repr ns (wrap t rs) p.
Proof.
  revert t e. induction rs as [|[[w m] f] rs IH]; intros t e Ht; simpl; [by intros ->|]. intros (e'&He&Hn&Hc).
  unfold wrap. simpl. apply (IH (Redir t (w, m, f)) e'); [|done]. simpl. by exists e.
Qed.

Lemma args_insert l n (q : nat) : n = length l → (n < MAXARGS)%nat → <[n := Some q]> (args l) = args (l ++ [q]).
Proof.
  intros -> H. unfold args. rewrite length_app, fmap_app, <- app_assoc. simpl.
  replace (MAXARGS - length l)%nat with (S (MAXARGS - (length l + 1))) by lia. simpl.
  rewrite <- (length_fmap Some l) at 1. by rewrite insert_app_r_alt, Nat.sub_diag by lia.
Qed.
Lemma args_end l n : n = length l → (n < MAXARGS)%nat → <[n := None]> (args l) = args l.
Proof.
  intros -> H. unfold args. rewrite <- (length_fmap Some l) at 1. rewrite insert_app_r_alt, Nat.sub_diag by lia. f_equal.
  by replace (MAXARGS - length l)%nat with (S (MAXARGS - (length l + 1))) by lia.
Qed.

(** * The parser computes it *)

(** [m] returns a value of which [R] holds with the result [r], or exits with a
    message when [r] is an error. *)
Definition sim {A X} (m : K shst X) (st : shst) (r : presult A) (R : A → X → shst → Prop) : Prop :=
  match r with
  | POk a => wp m st (R a)
  | PErr => ∃ msg, m st = Panic msg
  | POut => True
  end.

Lemma sim_bind {A B X Y} (m : K shst X) (k : X → K shst Y) st (r : presult A) (f : A → presult B) R R' :
  sim m st r R → (∀ a x st', r = POk a → R a x st' → sim (k x) st' (f a) R') → sim (m ≫= k) st (pbind r f) R'.
Proof.
  intros Hm Hk. destruct r as [a| |]; simpl in *; [|destruct Hm as [msg Hm]; exists msg; unfold mbind, K_bind; by rewrite Hm|done].
  unfold wp in Hm. destruct (m st) as [x st'| | | |] eqn:E; try done. specialize (Hk a x st' eq_refl Hm).
  unfold sim, wp, mbind, K_bind in *. rewrite E. done.
Qed.
Lemma sim_wp {B X Y} (m : K shst X) (k : X → K shst Y) st (r : presult B) R' (Q : X → shst → Prop) :
  wp m st Q → (∀ x st', Q x st' → sim (k x) st' r R') → sim (m ≫= k) st r R'.
Proof. intros Hm Hk. apply (sim_bind m k st (POk tt) (λ _, r) (λ _, Q)); [done|]. intros [] x st' _. apply Hk. Qed.
Lemma sim_mono {A X} (m : K shst X) st (r : presult A) (R R' : A → X → shst → Prop) :
  sim m st r R → (∀ a x st', R a x st' → R' a x st') → sim m st r R'.
Proof. intros Hm H. destruct r; simpl in *; [|done..]. eapply wp_mono; [|exact Hm]. intros x st'. apply H. Qed.

(** A step that adds to the result only. *)
Lemma sim_map {A B X} (m : K shst X) st (r : presult A) (f : A → presult B) (R : A → X → shst → Prop) (R' : B → X → shst → Prop) :
  sim m st r R → (∀ a x st', R a x st' → ∃ a', f a = POk a' ∧ R' a' x st') → sim m st (pbind r f) R'.
Proof.
  intros Hm H. destruct r as [a| |]; simpl in *; [|done..]. unfold wp in Hm. destruct (m st) as [x st'| | | |] eqn:E; try done.
  destruct (H a x st' Hm) as (a'&->&Ha). unfold sim, wp. by rewrite E.
Qed.

Section sim.
Context (malloc_ok : nat → bool) (has_memory : ∀ n, malloc_ok n = true).
Context (b : list Z) (es : nat) (line_nul : ch b es = 0) (line_chars : ∀ i, (i < es)%nat → ch b i ≠ 0).

Abbreviation toks := (toks b es).

(** The state of the parse between calls. *)
Definition at_toks (st st' : shst) (e s' : nat) (ts' : list tok) : Prop :=
  (s' ≤ es)%nat ∧ toks s' = ts' ∧ sbuf st' = sbuf st ∧ keeps (nodes st) (nodes st') e.

Lemma at_here st e s ts : (s ≤ es)%nat → toks s = ts → at_toks st st e s ts.
Proof. intros. split; [done|]. split; [done|]. split; [done|apply keeps_nodes_refl]. Qed.

Lemma wp_new_node nd st :
  wp (new_node malloc_ok nd) st (λ p st', sbuf st' = sbuf st ∧ (∀ e, keeps (nodes st) (nodes st') e) ∧
    node_at (nodes st) p = None ∧ node_at (nodes st') p = Some nd ∧ (∀ p', is_Some (node_at (nodes st) p') → p' < p)%nat).
Proof.
  unfold new_node, wp, mbind, K_bind, gets, modify, mret, K_ret. rewrite has_memory. simpl.
  assert (Hlt : ∀ p', is_Some (node_at (nodes st) p') → (p' < S (length (nodes st)))%nat).
  { intros [|i]; simpl; [by intros [? ?]|]. intros ?%lookup_lt_is_Some. lia. }
  split; [done|]. split.
  - intros e [|i] nd' _; simpl; [done|]. intros Hi. by apply lookup_app_l_Some.
  - split; [by apply lookup_ge_None|]. split; [|done]. by apply list_lookup_middle.
Qed.

Lemma wp_set_arg p i q eq av ev st :
  node_at (nodes st) p = Some (EXEC av ev) → (i < MAXARGS)%nat →
  wp (set_arg p i q eq) st (λ _ st', sbuf st' = sbuf st ∧ keeps (nodes st) (nodes st') p ∧
    node_at (nodes st') p = Some (EXEC (<[i := q]> av) (<[i := eq]> ev))).
Proof.
  intros Hp Hi. destruct p as [|k]; [done|]. unfold set_arg, wp, mbind, K_bind, gets. rewrite Hp.
  rewrite (proj2 (Nat.ltb_lt _ _) Hi). simpl. split; [done|]. split.
  - intros [|j] nd Hne; simpl; [done|]. rewrite list_lookup_insert_ne by lia. done.
  - apply list_lookup_insert_eq. by eapply lookup_lt_Some.
Qed.

Ltac peek_at s Hs :=
  match goal with |- context [peek b es ?set s] =>
    let q := fresh "s" in let Hq := fresh "Hs" in let Ht := fresh "Ht" in let He := fresh "He" in
    destruct (peek_heads b es line_nul line_chars set s Hs ltac:(unfold is_set, symbols; set_solver)) as (q&->&Hq&Ht&He)
  end.

Lemma sim_redirs fuel st cmd s :
  (s ≤ es)%nat → (length (toks s) ≤ fuel)%nat → is_Some (node_at (nodes st) cmd) →
  sim (parseredirs malloc_ok b es fuel cmd s) st (p_redirs (toks s)) (λ '(rs, ts') '(p, s') st',
    at_toks st st' 0 s' ts' ∧ chain (nodes st') rs cmd p).
Proof.
  revert st cmd s. induction fuel as [|fuel IH]; intros st cmd s Hs Hlen Hcmd; cbn [parseredirs]; peek_at s Hs.
  - destruct (toks s) as [|t ts] eqn:E; [|simpl in Hlen; lia]. split; [by apply at_here|done].
  - destruct (toks s) as [|[[r q] eq] ts] eqn:E; [split; [by apply at_here|done]|].
    cbn [heads p_redirs]. destruct (strchr [60; 62] (first r)) eqn:Er; [|split; [by apply at_here|done]].
    cbn [negb]. pose proof (gettoken_toks b es line_nul line_chars s0 Hs0) as Hg. rewrite Ht in Hg. destruct Hg as (_&s1&->&Hs1&Ht1).
    pose proof (gettoken_toks b es line_nul line_chars s1 Hs1) as Hg. rewrite Ht1 in Hg.
    destruct ts as [|[[r' q'] eq'] ts2]; [destruct Hg as (?&?&->); simpl; by eexists|]. destruct Hg as (_&s2&->&Hs2&Ht2).
    destruct (Z.eqb_spec r' 97) as [->|Hne]; cbn [negb]; [|simpl; by eexists].
    assert (Hr : r = 60 ∨ r = 62 ∨ r = 43).
    { unfold first in Er. destruct (Z.eqb_spec r 43); [auto|]. unfold strchr in Er. simpl in Er. rewrite !orb_true_iff, !Z.eqb_eq in Er.
      destruct Er as [|[|]]; [auto|auto|done]. }
    set (rd := redir_of r (q', eq')).
    assert (Hnew : (if r =? 60 then redircmd malloc_ok cmd q' eq' O_RDONLY 0 else if r =? 62 then redircmd malloc_ok cmd q' eq' (Z.lor O_WRONLY O_CREATE) 1
        else if r =? 43 then redircmd malloc_ok cmd q' eq' (Z.lor O_WRONLY O_CREATE) 1 else mret cmd) =
        new_node malloc_ok (REDIR cmd (fst (fst (fst rd))) (snd (fst (fst rd))) (snd (fst rd)) (snd rd))) by (by destruct Hr as [->|[->| ->]]).
    rewrite Hnew. eapply sim_wp; [apply wp_new_node|]. intros p st1 (B1&B2&B3&B4&B5). rewrite <- Ht2.
    eapply sim_map; [apply (IH st1 p s2 Hs2); [rewrite Ht2; simpl in Hlen; lia|by rewrite B4]|].
    intros [rs ts'] [p' s'] st' [(T1&T2&T3&T4) Hc]. eexists. split; [reflexivity|]. split.
    + split; [done|]. split; [done|]. split; [congruence|]. eapply keeps_nodes_trans; [apply B2|done].
    + subst rd. destruct (redir_of r (q', eq')) as [[w m] f]. simpl in *. exists p. split; [by apply B5|]. split; [|done].
      apply T4; [by intros ->|done].
Qed.

(** The arguments, after their leading redirections. *)
Lemma sim_args_step fuel st e ws rs0 ret s :
  (s ≤ es)%nat → (length (toks s) ≤ fuel)%nat → heads [60; 62] (toks s) = false →
  node_at (nodes st) e = Some (EXEC (args ws.*1) (args ws.*2)) → (length ws < MAXARGS)%nat → chain (nodes st) rs0 e ret →
  sim (parseargs malloc_ok b es fuel e (length ws) ret s) st (p_items (toks s) (length ws)) (λ '(ws', rs', ts') '(p, s') st',
    at_toks st st' e s' ts' ∧ repr (nodes st') (Exec (ws ++ ws')) e ∧ chain (nodes st') (rs0 ++ rs') e p).
Proof.
  revert st ws rs0 ret s. induction fuel as [fuel IH] using lt_wf_ind. intros st ws rs0 ret s Hs Hlen Hh He Hws Hch.
  assert (Hend : ∀ s', (s' ≤ es)%nat → toks s' = toks s →
    wp (set_arg e (length ws) None None ≫= λ _, mret (ret, s')) st (λ '(p, s') st',
      at_toks st st' e s' (toks s) ∧ repr (nodes st') (Exec (ws ++ [])) e ∧ chain (nodes st') (rs0 ++ []) e p)).
  { intros s' Hs' Ht'. apply wp_bind. eapply wp_mono; [|by apply (wp_set_arg e (length ws) None None _ _ st He)].
    intros _ st' (S1&S2&S3). apply wp_ret. rewrite !app_nil_r. split; [by split|]. split.
    - split; [|done]. rewrite S3, !args_end by (by rewrite ?length_fmap). done.
    - by eapply chain_keeps. }
  pose proof (peek_heads b es line_nul line_chars [124; 41; 38; 59] s Hs ltac:(unfold is_set, symbols; set_solver)) as (s0&Hpk&Hs0&Ht&_).
  pose proof (gettoken_toks b es line_nul line_chars s0 Hs0) as Hg. rewrite Ht in Hg.
  destruct fuel as [|fuel]; cbn [parseargs]; rewrite Hpk; destruct (toks s) as [|[[r q] eq] ts] eqn:E; cbn [heads].
  - destruct Hg as (?&?&->). apply (Hend es); [done|by apply toks_end].
  - simpl in Hlen. lia.
  - destruct Hg as (?&?&->). apply (Hend es); [done|by apply toks_end].
  - cbn [p_items heads] in *. rewrite Hh. destruct (strchr [124; 41; 38; 59] (first r)) eqn:Er; [by apply (Hend s0)|].
    destruct Hg as (Hr&s1&->&Hs1&Ht1). rewrite (proj2 (Z.eqb_neq _ _) Hr).
    destruct (Z.eqb_spec r 97) as [->|Hne]; cbn [negb]; [|simpl; by eexists].
    eapply sim_wp; [by apply (wp_set_arg e (length ws) (Some q) (Some eq) _ _ st He)|]. intros _ st1 (S1&S2&S3).
    rewrite !args_insert in S3 by (by rewrite ?length_fmap). cbv zeta.
    destruct (Nat.leb_spec MAXARGS (S (length ws))) as [Hmax|Hmax]; [simpl; by eexists|].
    destruct (p_items_redirs ts (S (length ws))) as [Hpi Hrest]. rewrite Hpi. rewrite <- Ht1 in Hrest |- *.
    pose proof (toks_length b es line_nul line_chars s1 Hs1) as Htl.
    apply (sim_map _ _ _ _ (λ '(ws', rs', ts') '(p, s') st', at_toks st1 st' e s' ts' ∧
      repr (nodes st') (Exec ((ws ++ [(q, eq)]) ++ ws')) e ∧ chain (nodes st') (rs0 ++ rs') e p)).
    + assert (Hch1 : chain (nodes st1) rs0 e ret) by (by eapply chain_keeps).
      eapply sim_bind; [apply sim_redirs; [done|lia|by eapply chain_node]|].
      intros [rs ts'] [ret' s'] st2 Hp [(T1&T2&T3&T4) Hc]. destruct (Hrest rs ts' Hp) as [Hh' Hl']. rewrite Ht1 in Hl'. simpl in Hlen.
      assert (Hch2 : chain (nodes st2) (rs0 ++ rs) e ret').
      { eapply chain_app; [|done]. eapply (chain_keeps (nodes st1)); [exact T4|lia|done]. }
      rewrite <- T2 in Hh', Hl' |- *. eapply sim_map.
      * replace (S (length ws)) with (length (ws ++ [(q, eq)])) by (rewrite length_app; simpl; lia).
        apply (IH fuel ltac:(lia) st2 (ws ++ [(q, eq)]) (rs0 ++ rs) ret' s'); try done; [lia| |rewrite length_app; simpl; lia].
        rewrite !fmap_app. apply T4; [by intros ->|done].
      * intros [[ws' rs'] ts''] [p s''] st3 [(U1&U2&U3&U4) [Hre Hc3]]. eexists. split; [reflexivity|].
        rewrite <- app_assoc in Hc3. split; [|done]. split; [done|]. split; [done|]. split; [congruence|].
        intros x nd Hx Hnd. apply U4; [done|]. apply T4; [by intros ->|done].
    + intros [[ws' rs'] ts''] [p s'] st' [(U1&U2&U3&U4) [Hre Hc3]]. eexists. split; [reflexivity|].
      rewrite <- app_assoc in Hre. split; [|done]. split; [done|]. split; [done|]. split; [congruence|].
      by eapply keeps_nodes_trans.
Qed.
(** The result of a part of the line: its tree, and the tokens after it. *)
Definition parsed (st : shst) : tree * list tok → nat * nat → shst → Prop :=
  λ '(t, ts') '(p, s') st', at_toks st st' 0 s' ts' ∧ repr (nodes st') t p.

Lemma parsed_from st st1 e s ts x y st' :
  at_toks st st1 e s ts → (∀ e', keeps (nodes st) (nodes st1) e') → parsed st1 x y st' → parsed st x y st'.
Proof.
  intros (_&_&H3&_) Hk. destruct x as [t ts'], y as [p s']. intros [(U1&U2&U3&U4) Hr]. split; [|done]. split; [done|]. split; [done|].
  split; [congruence|]. by eapply keeps_nodes_trans.
Qed.
Lemma keeps_nodes_0 ns ns' : keeps ns ns' 0 → ∀ e, keeps ns ns' e.
Proof. intros H e. by apply (keeps_nodes_null ns ns' 0). Qed.

Lemma sim_backs fuel st t cmd s :
  (s ≤ es)%nat → (length (toks s) ≤ fuel)%nat → repr (nodes st) t cmd →
  sim (parsebacks malloc_ok b es fuel cmd s) st (POk (p_backs t (toks s))) (parsed st).
Proof.
  revert st t cmd s. induction fuel as [|fuel IH]; intros st t cmd s Hs Hlen Hr; cbn [parsebacks]; peek_at s Hs;
    (destruct (toks s) as [|[[r q] eq] ts] eqn:E; [split; [by apply at_here|done]|]); [simpl in Hlen; lia|].
  cbn [heads p_backs]. destruct (strchr [38] (first r)) eqn:Er; cbn [negb]; [|split; [by apply at_here|done]].
  pose proof (gettoken_toks b es line_nul line_chars s0 Hs0) as Hg. rewrite Ht in Hg. destruct Hg as (_&s1&->&Hs1&Ht1).
  eapply sim_wp; [apply wp_new_node|]. intros p st1 (B1&B2&B3&B4&B5). rewrite <- Ht1.
  eapply sim_mono; [apply (IH st1 (Back t) p s1 Hs1)|].
  - rewrite Ht1. simpl in Hlen. lia.
  - exists cmd. split; [apply B5; by eapply repr_node|]. split; [done|]. by eapply repr_keeps.
  - intros x y st'. apply (parsed_from st st1 0 s1 ts); [|done]. split; [done|]. by split.
Qed.

(** What follows a part, when it is joined with another. *)
Lemma sim_join (mk : nat → nat → node) (jn : tree → tree → tree) st st1 t p s ts (m : K shst (nat * nat)) r :
  (∀ ns p t1 p1 t2 p2, (p1 < p)%nat → (p2 < p)%nat → node_at ns p = Some (mk p1 p2) → repr ns t1 p1 → repr ns t2 p2 → repr ns (jn t1 t2) p) →
  at_toks st st1 0 s ts → repr (nodes st1) t p → sim m st1 r (parsed st1) →
  sim (m ≫= λ '(p2, s), new_node malloc_ok (mk p p2) ≫= λ p, mret (p, s)) st1 (pbind r (λ '(t2, ts), POk (jn t t2, ts))) (parsed st).
Proof.
  intros Hjn Hat Hr Hm. eapply sim_bind; [exact Hm|]. intros [t2 ts2] [p2 s2] st2 _ [(U1&U2&U3&U4) Hr2].
  eapply sim_wp; [apply wp_new_node|]. intros p' st3 (B1&B2&B3&B4&B5). destruct Hat as (A1&A2&A3&A4). split.
  - split; [done|]. split; [done|]. split; [congruence|]. eapply keeps_nodes_trans; [exact A4|]. eapply keeps_nodes_trans; [exact U4|apply B2].
  - assert (Hr' : repr (nodes st2) t p) by (by eapply repr_keeps).
    apply (Hjn _ _ _ p _ p2); [apply B5; by eapply repr_node|apply B5; by eapply repr_node|done| |]; by eapply repr_keeps.
Qed.

Lemma gettoken_heads set s : (s ≤ es)%nat → heads set (toks s) = true →
  ∃ r q eq s', gettoken b es s = (r, q, eq, s') ∧ (s' ≤ es)%nat ∧ toks s' = tail (toks s).
Proof.
  intros Hs Hh. pose proof (gettoken_toks b es line_nul line_chars s Hs) as Hg. destruct (toks s) as [|[[r q] eq] ts]; [done|].
  destruct Hg as (_&s'&H1&H2&H3). by exists r, q, eq, s'.
Qed.

(** [f] computes [g]. *)
Definition computes (f : nat → K shst (nat * nat)) (g : list tok → presult (tree * list tok)) : Prop :=
  ∀ st s, (s ≤ es)%nat → sim (f s) st (g (toks s)) (parsed st).

Lemma sim_line fuel :
  computes (parsepipe malloc_ok b es fuel) (p_pipe fuel) → computes (parseline malloc_ok b es fuel) (p_line fuel) →
  computes (parseline malloc_ok b es (S fuel)) (p_line (S fuel)).
Proof.
  intros IHp IHl st s Hs. cbn [parseline p_line].
  eapply sim_bind; [by apply IHp|]. intros [t ts] [p s1] st1 _ [Hat Hr]. pose proof Hat as (A1&A2&A3&A4). rewrite <- A2.
  pose proof (toks_length b es line_nul line_chars s1 A1).
  pose proof (sim_backs (S es) st1 t p s1 A1 ltac:(lia) Hr) as Hb. unfold sim in Hb.
  destruct (p_backs t (toks s1)) as [t2 ts2]. eapply sim_wp; [exact Hb|]. intros [p2 s2] st2 [(U1&U2&U3&U4) Hr2].
  assert (Hat2 : ∀ s', (s' ≤ es)%nat → toks s' = ts2 → at_toks st st2 0 s' ts2).
  { intros s' H1 H2. split; [done|]. split; [done|]. split; [congruence|]. by eapply keeps_nodes_trans. }
  peek_at s2 U1. rewrite U2 in Ht |- *. destruct (heads [59] ts2) eqn:Eh; [|split; [by apply Hat2|done]].
  destruct (gettoken_heads [59] s0 Hs0) as (r&q&eq&s'&->&Hs'&Ht'); [by rewrite Ht|]. rewrite Ht in Ht'. rewrite <- Ht'.
  apply (sim_join LIST List st st2 t2 p2 s0 ts2); [|by apply Hat2|done|by apply IHl].
  intros ns p0 t1 p1 t3 p3 H1 H2 H3 H4 H5. simpl. exists p1, p3. done.
Qed.

Lemma sim_pipe fuel :
  computes (parseexec malloc_ok b es fuel) (p_exec fuel) → computes (parsepipe malloc_ok b es fuel) (p_pipe fuel) →
  computes (parsepipe malloc_ok b es (S fuel)) (p_pipe (S fuel)).
Proof.
  intros IHe IHp st s Hs. cbn [parsepipe p_pipe].
  eapply sim_bind; [by apply IHe|]. intros [t ts] [p s1] st1 _ [Hat Hr]. pose proof Hat as (A1&A2&A3&A4).
  peek_at s1 A1. rewrite A2 in Ht |- *. destruct (heads [124] ts) eqn:Eh; [|split; [by split|done]].
  destruct (gettoken_heads [124] s0 Hs0) as (r&q&eq&s'&->&Hs'&Ht'); [by rewrite Ht|]. rewrite Ht in Ht'. rewrite <- Ht'.
  apply (sim_join PIPE Pipe st st1 t p s1 ts); [|done|done|by apply IHp].
  intros ns p0 t1 p1 t3 p3 H1 H2 H3 H4 H5. simpl. exists p1, p3. done.
Qed.

Lemma sim_exec fuel :
  computes (parseblock malloc_ok b es fuel) (p_block fuel) → computes (parseexec malloc_ok b es (S fuel)) (p_exec (S fuel)).
Proof.
  intros IH st s Hs. cbn [parseexec p_exec]. peek_at s Hs. destruct (heads [40] (toks s)) eqn:Eh; [rewrite <- Ht; by apply IH|].
  eapply sim_wp; [apply wp_new_node|]. intros e st1 (B1&B2&B3&B4&B5). rewrite <- Ht.
  destruct (p_items_redirs (toks s0) 0) as [-> Hrest]. pose proof (toks_length b es line_nul line_chars s0 Hs0) as Hlen.
  assert (Hm : sim (parseredirs malloc_ok b es (S es) e s0 ≫= λ '(ret, s), parseargs malloc_ok b es (S es) e 0 ret s) st1
    (pbind (p_redirs (toks s0)) (λ '(rs, ts'), pbind (p_items ts' 0) (λ '(ws, rs', ts''), POk (ws, rs ++ rs', ts''))))
    (λ '(ws, rs, ts') '(p, s') st', at_toks st1 st' e s' ts' ∧ repr (nodes st') (Exec ws) e ∧ chain (nodes st') rs e p)).
  { eapply sim_bind; [apply sim_redirs; [done|lia|by rewrite B4]|].
    intros [rs ts'] [ret s'] st2 Hp [(T1&T2&T3&T4) Hc]. destruct (Hrest rs ts' Hp) as [Hh' Hl']. rewrite <- T2 in Hh', Hl' |- *.
    eapply sim_map; [apply (sim_args_step (S es) st2 e [] rs ret s'); try done; [lia|apply T4; [by intros ->|done]|unfold MAXARGS; simpl; lia]|].
    intros [[ws' rs'] ts''] [p s''] st3 [(U1&U2&U3&U4) Hre]. eexists. split; [reflexivity|]. split; [|done].
    split; [done|]. split; [done|]. split; [congruence|]. intros x nd Hx Hnd. apply U4; [done|]. by apply (keeps_nodes_0 _ _ T4 e). }
  eapply sim_map; [exact Hm|]. intros [[ws rs] ts'] [p s'] st' [(U1&U2&U3&U4) [Hre Hc]]. eexists. split; [reflexivity|].
  split; [|by eapply chain_repr]. split; [done|]. split; [done|]. split; [congruence|].
  apply (keeps_nodes_null _ _ e); [|done]. eapply keeps_nodes_trans; [apply B2|done].
Qed.

Lemma sim_block fuel :
  computes (parseline malloc_ok b es fuel) (p_line fuel) → computes (parseblock malloc_ok b es (S fuel)) (p_block (S fuel)).
Proof.
  intros IH st s Hs. cbn [parseblock p_block]. peek_at s Hs. destruct (heads [40] (toks s)) eqn:Eh; cbn [negb]; [|simpl; by eexists].
  destruct (gettoken_heads [40] s0 Hs0) as (r&q&eq&s'&->&Hs'&Ht'); [by rewrite Ht|]. rewrite Ht in Ht'. rewrite <- Ht'.
  eapply sim_bind; [by apply IH|]. intros [t ts] [p s1] st1 _ [Hat Hr]. pose proof Hat as (A1&A2&A3&A4).
  peek_at s1 A1. rewrite A2 in Ht0 |- *. destruct (heads [41] ts) eqn:Eh1; cbn [negb]; [|simpl; by eexists].
  destruct (gettoken_heads [41] s2 Hs1) as (r1&q1&eq1&s3&->&Hs3&Ht3); [by rewrite Ht0|]. rewrite Ht0 in Ht3. rewrite <- Ht3.
  pose proof (toks_length b es line_nul line_chars s3 Hs3) as Hlen.
  eapply sim_map; [apply sim_redirs; [done|lia|by eapply repr_node]|].
  intros [rs ts'] [p' s4] st' [(T1&T2&T3&T4) Hc]. eexists. split; [reflexivity|]. split.
  - split; [done|]. split; [done|]. split; [congruence|]. by eapply keeps_nodes_trans.
  - eapply chain_repr; [by eapply repr_keeps|done].
Qed.

Lemma sim_parse fuel :
  computes (parseline malloc_ok b es fuel) (p_line fuel) ∧ computes (parsepipe malloc_ok b es fuel) (p_pipe fuel) ∧
  computes (parseexec malloc_ok b es fuel) (p_exec fuel) ∧ computes (parseblock malloc_ok b es fuel) (p_block fuel).
Proof.
  induction fuel as [|fuel (IH1&IH2&IH3&IH4)]; [done|].
  split; [by apply sim_line|]. split; [by apply sim_pipe|]. split; [by apply sim_exec|by apply sim_block].
Qed.
End sim.
