(* ===== verification/Shgrammar.v ===== *)
(** The command language of the shell as a grammar on tokens, and the proof that
    parsecmd (Sh.v) accepts the lines of the grammar and no others, builds the
    tree of the line, and leaves each of its words as a string in the line. *)

From Stdlib Require Import ZArith Lia.
From stdpp Require Import base tactics numbers sets strings list.
From S2P Require Import Prelude Sh Shparse.

#[local] Open Scope Z_scope.

(** * The grammar *)

Definition is_tok (c : Z) (t : tok) : Prop := fst (fst t) = c.

(** Words and redirections, in any order. *)
Inductive g_items : list tok → list word → list redir → Prop :=
  | g_nil : g_items [] [] []
  | g_word q eq ts ws rs : g_items ts ws rs → g_items ((97, q, eq) :: ts) ((q, eq) :: ws) rs
  | g_redir r q eq q' eq' ts ws rs :
      r = 60 ∨ r = 62 ∨ r = 43 → g_items ts ws rs →
      g_items ((r, q, eq) :: (97, q', eq') :: ts) ws (redir_of r (q', eq') :: rs).

Fixpoint nback (n : nat) (t : tree) : tree := match n with O => t | S n' => nback n' (Back t) end.

Inductive g_line : list tok → tree → Prop :=
  | g_line_one ts t bs : g_pipe ts t → Forall (is_tok 38) bs → g_line (ts ++ bs) (nback (length bs) t)
  | g_line_seq ts t bs c ts' t' :
      g_pipe ts t → Forall (is_tok 38) bs → is_tok 59 c → g_line ts' t' →
      g_line (ts ++ bs ++ c :: ts') (List (nback (length bs) t) t')
with g_pipe : list tok → tree → Prop :=
  | g_pipe_one ts t : g_exec ts t → g_pipe ts t
  | g_pipe_more ts t c ts' t' : g_exec ts t → is_tok 124 c → g_pipe ts' t' → g_pipe (ts ++ c :: ts') (Pipe t t')
with g_exec : list tok → tree → Prop :=
  | g_exec_items ts ws rs : g_items ts ws rs → (length ws < MAXARGS)%nat → g_exec ts (wrap (Exec ws) rs)
  | g_exec_block o ts t c ts' rs :
      is_tok 40 o → g_line ts t → is_tok 41 c → g_items ts' [] rs → g_exec (o :: ts ++ c :: ts') (wrap t rs).

Scheme g_line_min := Minimality for g_line Sort Prop
  with g_pipe_min := Minimality for g_pipe Sort Prop
  with g_exec_min := Minimality for g_exec Sort Prop.
Combined Scheme grammar_ind from g_line_min, g_pipe_min, g_exec_min.

(** * The token parser accepts nothing else *)

Lemma heads_one c ts : heads [c] ts = true → c ≠ 62 → c ≠ 43 → ∃ t ts', ts = t :: ts' ∧ is_tok c t.
Proof.
  destruct ts as [|[[r q] eq] ts]; [done|]. simpl. unfold first, strchr. simpl. rewrite orb_false_r, Z.eqb_eq.
  destruct (Z.eqb_spec r 43); intros; [done|]. subst. by eexists _, ts.
Qed.
Lemma redir_kind r : strchr [60; 62] (first r) = true → r = 60 ∨ r = 62 ∨ r = 43.
Proof.
  unfold first. destruct (Z.eqb_spec r 43); [auto|]. unfold strchr. simpl. rewrite !orb_true_iff, !Z.eqb_eq.
  intros [|[|]]; [auto|auto|done].
Qed.

Lemma p_redirs_sound k ts rs ts' : (length ts ≤ k)%nat →
  p_redirs ts = POk (rs, ts') → ∃ ts1, ts = ts1 ++ ts' ∧ g_items ts1 [] rs.
Proof.
  revert ts rs. induction k as [|k IH]; intros ts rs Hk; (destruct ts as [|[[r q] eq] ts]; [intros [= <- <-]; exists []; split; [done|constructor]|]);
    simpl in Hk; [lia|]. cbn [p_redirs].
  destruct (strchr [60; 62] (first r)) eqn:Er; [|intros [= <- <-]; exists []; split; [done|constructor]].
  destruct ts as [|[[r' q'] eq'] ts]; [done|]. destruct (Z.eqb_spec r' 97) as [->|]; [|done]. simpl in Hk.
  destruct (p_redirs ts) as [[rs2 ts2]| |] eqn:E; try done. intros [= <- <-]. destruct (IH ts rs2) as (ts1&->&Hg); [lia|done|].
  exists ((r, q, eq) :: (97, q', eq') :: ts1). split; [done|]. constructor; [by apply redir_kind|done].
Qed.

Lemma p_items_sound k ts n ws rs ts' : (length ts ≤ k)%nat → (n < MAXARGS)%nat →
  p_items ts n = POk (ws, rs, ts') → ∃ ts1, ts = ts1 ++ ts' ∧ g_items ts1 ws rs ∧ (n + length ws < MAXARGS)%nat.
Proof.
  revert ts n ws rs. induction k as [|k IH]; intros ts n ws rs Hk Hn;
    (destruct ts as [|[[r q] eq] ts]; [intros [= <- <- <-]; exists []; split; [done|split; [constructor|simpl; lia]]|]); simpl in Hk; [lia|].
  cbn [p_items]. destruct (strchr [60; 62] (first r)) eqn:Er.
  - destruct ts as [|[[r' q'] eq'] ts]; [done|]. destruct (Z.eqb_spec r' 97) as [->|]; [|done]. simpl in Hk.
    destruct (p_items ts n) as [[[ws2 rs2] ts2]| |] eqn:E; try done. intros [= <- <- <-].
    destruct (IH ts n ws2 rs2) as (ts1&->&Hg&Hl); [lia|done|done|].
    exists ((r, q, eq) :: (97, q', eq') :: ts1). split; [done|]. split; [|done]. constructor; [by apply redir_kind|done].
  - destruct (strchr [124; 41; 38; 59] (first r)); [intros [= <- <- <-]; exists []; split; [done|split; [constructor|simpl; lia]]|].
    destruct (Z.eqb_spec r 97) as [->|]; [|done]. destruct (Nat.leb_spec MAXARGS (S n)); [done|].
    destruct (p_items ts (S n)) as [[[ws2 rs2] ts2]| |] eqn:E; try done. intros [= <- <- <-].
    destruct (IH ts (S n) ws2 rs2) as (ts1&->&Hg&Hl); [lia|lia|done|].
    exists ((97, q, eq) :: ts1). split; [done|]. split; [by constructor|simpl; lia].
Qed.

Lemma p_backs_sound t ts :
  ∃ bs, ts = bs ++ snd (p_backs t ts) ∧ Forall (is_tok 38) bs ∧ fst (p_backs t ts) = nback (length bs) t.
Proof.
  revert t. induction ts as [|[[r q] eq] ts IH]; intros t; [by exists []|]. cbn [p_backs].
  destruct (strchr [38] (first r)) eqn:Er; [|by exists []].
  destruct (heads_one 38 [(r, q, eq)]) as (t'&?&[= <- <-]&Ht); [done|done|done|].
  destruct (IH (Back t)) as (bs&E&Hf&->). exists ((r, q, eq) :: bs). rewrite E at 1. split; [done|]. split; [by constructor|done].
Qed.

(** A result is a part of the tokens and a tree of the grammar. *)
Definition sound (g : list tok → tree → Prop) (p : list tok → presult (tree * list tok)) : Prop :=
  ∀ ts t ts', p ts = POk (t, ts') → ∃ ts1, ts = ts1 ++ ts' ∧ g ts1 t.

Lemma parse_sound fuel : sound g_line (p_line fuel) ∧ sound g_pipe (p_pipe fuel) ∧ sound g_exec (p_exec fuel) ∧ sound g_exec (p_block fuel).
Proof.
  induction fuel as [|fuel (IH1&IH2&IH3&IH4)]; [split; [|split; [|split]]; by intros ts t ts'|].
  split; [|split; [|split]]; intros ts t ts'; cbn [p_line p_pipe p_exec p_block].
  - destruct (p_pipe fuel ts) as [[t1 ts1]| |] eqn:E1; try done. cbn [pbind]. destruct (IH2 _ _ _ E1) as (pre&->&Hg).
    destruct (p_backs_sound t1 ts1) as (bs&Hb&Hf&Ht). destruct (p_backs t1 ts1) as [t2 ts2]. simpl in Hb, Ht. subst ts1 t2.
    destruct (heads [59] ts2) eqn:Eh; [|intros [= <- <-]; exists (pre ++ bs); rewrite <- app_assoc; split; [done|by constructor]].
    destruct (heads_one 59 ts2 Eh) as (c&ts3&->&Hc); [done|done|]. simpl.
    destruct (p_line fuel ts3) as [[t4 ts4]| |] eqn:E4; try done. intros [= <- <-]. destruct (IH1 _ _ _ E4) as (pre2&->&Hg2).
    exists (pre ++ bs ++ c :: pre2). split; [by rewrite <- !app_assoc|]. by constructor.
  - destruct (p_exec fuel ts) as [[t1 ts1]| |] eqn:E1; try done. cbn [pbind]. destruct (IH3 _ _ _ E1) as (pre&->&Hg).
    destruct (heads [124] ts1) eqn:Eh; [|intros [= <- <-]; exists pre; split; [done|by constructor]].
    destruct (heads_one 124 ts1 Eh) as (c&ts3&->&Hc); [done|done|]. simpl.
    destruct (p_pipe fuel ts3) as [[t4 ts4]| |] eqn:E4; try done. intros [= <- <-]. destruct (IH2 _ _ _ E4) as (pre2&->&Hg2).
    exists (pre ++ c :: pre2). split; [by rewrite <- app_assoc|]. by constructor.
  - destruct (heads [40] ts); [by apply IH4|]. destruct (p_items ts 0) as [[[ws rs] ts2]| |] eqn:E; try done. intros [= <- <-].
    destruct (p_items_sound (length ts) ts 0 ws rs ts2) as (ts1&->&Hg&Hl); [done|unfold MAXARGS; lia|done|].
    exists ts1. split; [done|]. by constructor.
  - destruct (heads [40] ts) eqn:Eh; [|done]. destruct (heads_one 40 ts Eh) as (o&ts1&->&Ho); [done|done|]. simpl.
    destruct (p_line fuel ts1) as [[t1 ts2]| |] eqn:E1; try done. cbn [pbind]. destruct (IH1 _ _ _ E1) as (pre&->&Hg).
    destruct (heads [41] ts2) eqn:Eh2; [|done]. destruct (heads_one 41 ts2 Eh2) as (c&ts3&->&Hc); [done|done|]. simpl.
    destruct (p_redirs ts3) as [[rs ts4]| |] eqn:E3; try done. intros [= <- <-].
    destruct (p_redirs_sound (length ts3) ts3 rs ts4) as (ts5&->&Hi); [done|done|].
    exists (o :: pre ++ c :: ts5). split; [simpl; by rewrite <- app_assoc|]. by constructor.
Qed.

(** * Enough fuel *)

Lemma p_redirs_total k ts : (length ts ≤ k)%nat → p_redirs ts ≠ POut.
Proof.
  revert ts. induction k as [|k IH]; intros [|[[r q] eq] ts] Hk; simpl in Hk; try done; [lia|]. cbn [p_redirs].
  destruct (strchr _ _); [|done]. destruct ts as [|[[r' q'] eq'] ts]; [done|]. destruct (r' =? 97); [|done].
  simpl in Hk. specialize (IH ts ltac:(lia)). by destruct (p_redirs ts) as [[? ?]| |].
Qed.
Lemma p_items_total k ts n : (length ts ≤ k)%nat → p_items ts n ≠ POut.
Proof.
  revert ts n. induction k as [|k IH]; intros [|[[r q] eq] ts] n Hk; simpl in Hk; try done; [lia|]. cbn [p_items].
  destruct (strchr _ _).
  - destruct ts as [|[[r' q'] eq'] ts]; [done|]. destruct (r' =? 97); [|done].
    simpl in Hk. specialize (IH ts n ltac:(lia)). by destruct (p_items ts n) as [[[? ?] ?]| |].
  - destruct (strchr _ _); [done|]. destruct (r =? 97); [|done]. destruct (_ <=? _)%nat; [done|].
    specialize (IH ts (S n) ltac:(lia)). by destruct (p_items ts (S n)) as [[[? ?] ?]| |].
Qed.

Definition total (k : nat) (p : list tok → presult (tree * list tok)) (fuel : nat) : Prop :=
  ∀ ts, (4 * length ts + k ≤ fuel)%nat → p ts ≠ POut.

Lemma sound_length g p ts t ts' : sound g p → p ts = POk (t, ts') → (length ts' ≤ length ts)%nat.
Proof. intros Hs E. destruct (Hs _ _ _ E) as (ts1&->&_). rewrite length_app. lia. Qed.
Lemma heads_length set ts : heads set ts = true → length ts = S (length (tail ts)).
Proof. by destruct ts. Qed.

Lemma parse_total fuel : total 4 (p_line fuel) fuel ∧ total 3 (p_pipe fuel) fuel ∧ total 2 (p_exec fuel) fuel ∧ total 1 (p_block fuel) fuel.
Proof.
  induction fuel as [|fuel (IH1&IH2&IH3&IH4)]; [split; [|split; [|split]]; intros ts; lia|].
  destruct (parse_sound fuel) as (S1&S2&S3&_).
  split; [|split; [|split]]; intros ts Hf; cbn [p_line p_pipe p_exec p_block].
  - specialize (IH2 ts ltac:(lia)). destruct (p_pipe fuel ts) as [[t1 ts1]| |] eqn:E1; try done. cbn [pbind].
    pose proof (sound_length _ _ _ _ _ S2 E1). destruct (p_backs_sound t1 ts1) as (bs&Hb&_). destruct (p_backs t1 ts1) as [t2 ts2].
    apply (f_equal length) in Hb. rewrite length_app in Hb. simpl in Hb. destruct (heads [59] ts2) eqn:Eh; [|done].
    apply heads_length in Eh. specialize (IH1 (tail ts2) ltac:(lia)). by destruct (p_line fuel _) as [[? ?]| |].
  - specialize (IH3 ts ltac:(lia)). destruct (p_exec fuel ts) as [[t1 ts1]| |] eqn:E1; try done. cbn [pbind].
    pose proof (sound_length _ _ _ _ _ S3 E1). destruct (heads [124] ts1) eqn:Eh; [|done].
    apply heads_length in Eh. specialize (IH2 (tail ts1) ltac:(lia)). by destruct (p_pipe fuel _) as [[? ?]| |].
  - destruct (heads [40] ts); [apply IH4; lia|]. pose proof (p_items_total (length ts) ts 0 ltac:(done)).
    by destruct (p_items ts 0) as [[[? ?] ?]| |].
  - destruct (heads [40] ts) eqn:Eh; [|done]. apply heads_length in Eh. specialize (IH1 (tail ts) ltac:(lia)).
    destruct (p_line fuel _) as [[t1 ts1]| |]; try done. cbn [pbind]. destruct (heads [41] ts1); [|done].
    pose proof (p_redirs_total (length (tail ts1)) (tail ts1) ltac:(done)). by destruct (p_redirs _) as [[? ?]| |].
Qed.

(** * The token parser accepts the grammar *)

(** What may come after a line, a pipeline and a command. *)
Definition follow (set : list Z) (ts : list tok) : Prop := ts = [] ∨ ∃ t ts' c, ts = t :: ts' ∧ c ∈ set ∧ is_tok c t.

Lemma follow_heads set set' ts : follow set ts → (∀ c, c ∈ set → strchr set' (first c) = false) → heads set' ts = false.
Proof. intros [->|([[r q] eq]&ts'&c&->&Hc&<-)] H; [done|]. simpl. by apply H. Qed.
Lemma follow_mono set set' ts : (∀ c, c ∈ set → c ∈ set') → follow set ts → follow set' ts.
Proof. intros H [->|(t&ts'&c&->&Hc&Ht)]; [by left|]. right. exists t, ts', c. eauto. Qed.
Lemma follow_cons set c t ts : is_tok c t → c ∈ set → follow set (t :: ts).
Proof. intros. right. by exists t, ts, c. Qed.

Ltac in_cases := intros ? Hin; repeat (apply elem_of_cons in Hin as [->|Hin]; [try done|]); try done; try by apply elem_of_nil in Hin.

Lemma p_redirs_complete ts rs rest : g_items ts [] rs → follow [41; 38; 59; 124] rest → p_redirs (ts ++ rest) = POk (rs, rest).
Proof.
  intros Hg Hf. remember [] as ws eqn:Ew. induction Hg as [| |r q eq q' eq' ts ws rs Hr Hg IH]; simpl; [|done|].
  - pose proof (follow_heads _ [60; 62] _ Hf ltac:(in_cases)) as Hh. destruct rest as [|[[r q] eq] rest]; [done|].
    cbn [heads] in Hh. cbn [p_redirs]. by rewrite Hh.
  - rewrite (IH Ew). by destruct Hr as [->|[->| ->]].
Qed.

Lemma p_items_complete ts ws rs rest n :
  g_items ts ws rs → (n + length ws < MAXARGS)%nat → follow [41; 38; 59; 124] rest → p_items (ts ++ rest) n = POk (ws, rs, rest).
Proof.
  intros Hg Hn Hf. revert n Hn. induction Hg as [|q eq ts ws rs Hg IH|r q eq q' eq' ts ws rs Hr Hg IH]; intros n Hn; cbn [app p_items].
  - pose proof (follow_heads _ [60; 62] _ Hf ltac:(in_cases)) as Hh. destruct rest as [|[[r q] eq] rest]; [done|].
    cbn [heads] in Hh. cbn [p_items]. rewrite Hh. destruct Hf as [|(t&ts'&c&[= <- <-]&Hc&Ht)]; [done|]. unfold is_tok in Ht. simpl in Ht. subst c.
    assert (strchr [124; 41; 38; 59] (first r) = true) as ->; [|done]. revert Hc. generalize r. in_cases.
  - cbn [length] in Hn. rewrite (IH (S n)) by lia. destruct (Nat.leb_spec MAXARGS (S n)); [lia|done].
  - rewrite (IH n Hn). by destruct Hr as [->|[->| ->]].
Qed.

Lemma p_backs_complete bs t rest : Forall (is_tok 38) bs → heads [38] rest = false → p_backs t (bs ++ rest) = (nback (length bs) t, rest).
Proof.
  revert t. induction bs as [|[[r q] eq] bs IH]; intros t Hb Hr; simpl.
  - destruct rest as [|[[r q] eq] rest]; [done|]. simpl in *. by rewrite Hr.
  - inversion Hb as [|? ? H1 H2]. unfold is_tok in H1. simpl in H1. subst r. simpl. by apply IH.
Qed.

Definition complete (k : nat) (set : list Z) (p : nat → list tok → presult (tree * list tok)) (ts : list tok) (t : tree) : Prop :=
  ∀ rest fuel, follow set rest → (4 * length (ts ++ rest) + k ≤ fuel)%nat → p fuel (ts ++ rest) = POk (t, rest).

Lemma is_tok_heads c t ts : is_tok c t → c ≠ 43 → heads [c] (t :: ts) = true.
Proof.
  destruct t as [[r q] eq]. unfold is_tok. simpl. intros -> Hc. unfold first, strchr. rewrite (proj2 (Z.eqb_neq c 43)) by done.
  simpl. by rewrite Z.eqb_refl.
Qed.
Lemma items_head ts ws rs rest : g_items ts ws rs → follow [41; 38; 59; 124] rest → heads [40] (ts ++ rest) = false.
Proof. destruct 1 as [| |r q eq q' eq' ts ws rs [->|[->| ->]]]; try done. intros Hf. apply (follow_heads _ _ _ Hf). in_cases. Qed.

Lemma line_complete ts t bs rest fuel :
  complete 3 [41; 38; 59] p_pipe ts t → Forall (is_tok 38) bs → follow [41; 59] rest → (4 * length (ts ++ bs ++ rest) + 4 ≤ S fuel)%nat →
  p_line (S fuel) (ts ++ bs ++ rest) =
    if heads [59] rest then pbind (p_line fuel (tail rest)) (λ '(t2, ts), POk (List (nback (length bs) t) t2, ts)) else POk (nback (length bs) t, rest).
Proof.
  intros Hc Hb Hf Hfu. cbn [p_line]. rewrite Hc; [|destruct bs as [|b bs]|lia]; cbn [pbind].
  - rewrite p_backs_complete; [done|done|]. apply (follow_heads _ _ _ Hf). in_cases.
  - simpl. eapply follow_mono; [|exact Hf]. in_cases; set_solver.
  - inversion Hb; subst. eapply (follow_cons _ 38); [done|set_solver].
Qed.

Lemma parse_complete :
  (∀ ts t, g_line ts t → complete 4 [41] p_line ts t) ∧ (∀ ts t, g_pipe ts t → complete 3 [41; 38; 59] p_pipe ts t) ∧
  (∀ ts t, g_exec ts t → complete 2 [41; 38; 59; 124] p_exec ts t).
Proof.
  apply grammar_ind.
  - intros ts t bs _ IH Hb rest [|fuel] Hf Hfu; [lia|]. rewrite <- app_assoc in *.
    rewrite (line_complete ts t); [|done|done| |done]; [|eapply follow_mono; [|exact Hf]; set_solver].
    by rewrite (follow_heads _ [59] _ Hf) by in_cases.
  - intros ts t bs c ts' t' _ IH Hb Hc _ IH' rest [|fuel] Hf Hfu; [lia|]. rewrite <- !app_assoc in *. cbn [app] in *.
    rewrite (line_complete ts t); [|done|done|eapply (follow_cons _ 59); [done|set_solver]|done].
    rewrite (is_tok_heads 59) by done. cbn [tail]. rewrite IH'; [done|done|]. rewrite !length_app in *. simpl in *. rewrite length_app in *. lia.
  - intros ts t _ IH rest [|fuel] Hf Hfu; [lia|]. cbn [p_pipe]. rewrite IH; [|eapply follow_mono; [|exact Hf]; set_solver|lia]. cbn [pbind].
    by rewrite (follow_heads _ [124] _ Hf) by in_cases.
  - intros ts t c ts' t' _ IH Hc _ IH' rest [|fuel] Hf Hfu; [lia|]. rewrite <- app_assoc in *. cbn [app] in *. cbn [p_pipe].
    rewrite IH; [|eapply (follow_cons _ 124); [done|set_solver]|lia]. cbn [pbind]. rewrite (is_tok_heads 124) by done. cbn [tail].
    rewrite IH'; [done|done|]. rewrite !length_app in *. simpl in *. rewrite length_app in *. lia.
  - intros ts ws rs Hg Hw rest [|fuel] Hf Hfu; [lia|]. cbn [p_exec]. rewrite (items_head ts ws rs) by done.
    by rewrite (p_items_complete ts ws rs).
  - intros o ts t c ts' rs Ho _ IH Hc Hg rest [|[|fuel]] Hf Hfu; [simpl in Hfu; lia|simpl in Hfu; lia|]. cbn [app] in *. rewrite <- app_assoc in *. cbn [app] in *.
    cbn [p_exec p_block]. rewrite !(is_tok_heads 40) by done. cbn [tail].
    rewrite IH; [|eapply (follow_cons _ 41); [done|set_solver]|cbn [length] in Hfu; lia]. cbn [pbind]. rewrite (is_tok_heads 41) by done. cbn [tail].
    by rewrite (p_redirs_complete ts' rs).
Qed.

(** * The words become strings *)

Fixpoint words (t : tree) : list word :=
  match t with
  | Exec ws => ws
  | Redir c (w, _, _) => words c ++ [w]
  | Pipe l r => words l ++ words r
  | List l r => words l ++ words r
  | Back c => words c
  end.

Lemma words_wrap t rs : words (wrap t rs) = words t ++ (fst ∘ fst <$> rs).
Proof.
  revert t. induction rs as [|[[w m] f] rs IH]; intros t; simpl; [by rewrite app_nil_r|].
  unfold wrap in *. simpl. rewrite IH. simpl. by rewrite <- app_assoc.
Qed.
Lemma words_nback n t : words (nback n t) = words t.
Proof. revert t. induction n as [|n IH]; intros t; [done|]. simpl. by rewrite IH. Qed.

(** The tokens that are words. *)
Definition word_in (ts : list tok) (w : word) : Prop := (97, fst w, snd w) ∈ ts.

Lemma items_words ts ws rs : g_items ts ws rs → ∀ w, w ∈ ws ++ (fst ∘ fst <$> rs) → word_in ts w.
Proof.
  unfold word_in. induction 1 as [|q eq ts ws rs Hg IH|r q eq q' eq' ts ws rs Hr Hg IH]; intros w; simpl.
  - intros []%elem_of_nil.
  - intros [->|Hw]%elem_of_cons; [left|right; by apply IH].
  - assert (fst (fst (redir_of r (q', eq'))) = (q', eq')) as -> by (unfold redir_of; by destruct (r =? 60)).
    rewrite elem_of_app, elem_of_cons. intros [Hw|[->|Hw]]; [|right; left|]; right; right; apply IH; rewrite elem_of_app; tauto.
Qed.

Lemma grammar_words :
  (∀ ts t, g_line ts t → ∀ w, w ∈ words t → word_in ts w) ∧ (∀ ts t, g_pipe ts t → ∀ w, w ∈ words t → word_in ts w) ∧
  (∀ ts t, g_exec ts t → ∀ w, w ∈ words t → word_in ts w).
Proof.
  unfold word_in. apply grammar_ind.
  - intros ts t bs _ IH _ w. rewrite words_nback, elem_of_app. auto.
  - intros ts t bs c ts' t' _ IH _ _ _ IH' w. simpl. rewrite words_nback, !elem_of_app, elem_of_cons. intros [?|?]; auto.
  - auto.
  - intros ts t c ts' t' _ IH _ _ IH' w. simpl. rewrite !elem_of_app, elem_of_cons. intros [?|?]; auto.
  - intros ts ws rs Hg _ w. rewrite words_wrap. by apply items_words.
  - intros o ts t c ts' rs _ _ IH _ Hg w. rewrite words_wrap, elem_of_cons, !elem_of_app, elem_of_cons. intros [?|Hw]; [auto|].
    pose proof (items_words _ _ _ Hg w Hw) as Hi. unfold word_in in Hi. auto.
Qed.

(** The bytes at [l] have become 0. *)
Definition cut (b : list Z) (l : list nat) (b' : list Z) : Prop :=
  length b' = length b ∧ ∀ i, ch b' i = if decide (i ∈ l) then 0 else ch b i.

Lemma cut_nil b : cut b [] b.
Proof. split; [done|]. intros i. case_decide as H; [by apply elem_of_nil in H|done]. Qed.
Lemma cut_app b l1 b1 l2 b2 : cut b l1 b1 → cut b1 l2 b2 → cut b (l1 ++ l2) b2.
Proof.
  intros [L1 H1] [L2 H2]. split; [congruence|]. intros i. rewrite H2, H1.
  repeat case_decide; try done; exfalso; rewrite ?elem_of_app in *; tauto.
Qed.

Lemma wp_nul p st : (p < length (sbuf st))%nat → wp (nul p) st (λ _ st', nodes st' = nodes st ∧ cut (sbuf st) [p] (sbuf st')).
Proof.
  intros Hp. unfold wp, nul, mbind, K_bind, gets. rewrite (proj2 (Nat.ltb_lt _ _) Hp). simpl. split; [done|].
  split; [by rewrite length_insert|]. intros i. unfold ch. case_decide as Hd; rewrite elem_of_cons, elem_of_nil in Hd.
  - destruct Hd as [->|[]]. by rewrite list_lookup_insert_eq.
  - rewrite list_lookup_insert_ne by (intros ->; tauto). done.
Qed.

Lemma args_lookup l i : (length l < MAXARGS)%nat → (i ≤ length l)%nat → args l !! i = Some (l !! i).
Proof.
  intros Hl Hi. unfold args. destruct (decide (i = length l)) as [->|Hne].
  - rewrite lookup_app_r, length_fmap, Nat.sub_diag by (by rewrite length_fmap). rewrite lookup_replicate_2 by lia. by rewrite lookup_ge_None_2.
  - rewrite lookup_app_l by (rewrite length_fmap; lia). rewrite list_lookup_fmap.
    destruct (lookup_lt_is_Some_2 l i) as [x ->]; [lia|done].
Qed.

Lemma wp_nulargs fuel ws i st :
  (length ws < MAXARGS)%nat → (i ≤ length ws ≤ i + fuel)%nat → (∀ w, w ∈ ws → (snd w < length (sbuf st))%nat) →
  wp (nulargs fuel (args ws.*1) (args ws.*2) i) st (λ _ st', nodes st' = nodes st ∧ cut (sbuf st) (drop i ws).*2 (sbuf st')).
Proof.
  revert i st. induction fuel as [|fuel IH]; intros i st Hws Hi Hin; cbn [nulargs];
    rewrite !args_lookup, !list_lookup_fmap by (rewrite ?length_fmap; lia); destruct (ws !! i) as [[q eq]|] eqn:E; simpl.
  - apply lookup_lt_Some in E. lia.
  - rewrite drop_ge by lia. split; [done|apply cut_nil].
  - apply wp_bind. eapply wp_mono; [|apply (wp_nul eq); apply (Hin (q, eq)); by eapply list_elem_of_lookup_2].
    intros _ st1 [N1 C1]. pose proof (lookup_lt_Some _ _ _ E). eapply wp_mono; [|apply (IH (S i) st1); [done|lia|]].
    + intros _ st2 [N2 C2]. split; [congruence|]. rewrite (drop_S _ _ _ E). by apply (cut_app _ [eq] _ _ _ C1).
    + intros w Hw. rewrite (proj1 C1). by apply Hin.
  - rewrite drop_ge by (by apply lookup_ge_None_1). split; [done|apply cut_nil].
Qed.

Lemma wp_nulterminate fuel t p st :
  repr (nodes st) t p → (p ≤ fuel)%nat → (∀ w, w ∈ words t → (snd w < length (sbuf st))%nat) →
  wp (nulterminate fuel p) st (λ _ st', nodes st' = nodes st ∧ cut (sbuf st) (words t).*2 (sbuf st')).
Proof.
  revert t p st. induction fuel as [|fuel IH]; intros t p st Hr Hp Hin; (destruct p as [|p]; [destruct (repr_node _ _ _ Hr); done|]); [lia|].
  assert (Htwo : ∀ l r p1 p2, repr (nodes st) l p1 → repr (nodes st) r p2 → (p1 < S p)%nat → (p2 < S p)%nat →
    (∀ w, w ∈ words l ++ words r → (snd w < length (sbuf st))%nat) →
    wp (nulterminate fuel p1 ≫= λ _, nulterminate fuel p2) st (λ _ st', nodes st' = nodes st ∧ cut (sbuf st) (words l ++ words r).*2 (sbuf st'))).
  { intros l r p1 p2 H1 H2 L1 L2 Hw. apply wp_bind. eapply wp_mono; [|apply (IH l); [done|lia|intros w ?; apply Hw, elem_of_app; by left]].
    intros _ st1 [N1 C1]. eapply wp_mono; [|apply (IH r); [by rewrite N1|lia|intros w ?; rewrite (proj1 C1); apply Hw, elem_of_app; by right]].
    intros _ st2 [N2 C2]. split; [congruence|]. rewrite fmap_app. by eapply cut_app. }
  cbn [nulterminate Nat.eqb]. apply wp_bind. unfold wp at 1, gets.
  destruct t as [ws|c [[w m] f]|l r|l r|c]; cbn [repr] in Hr.
  - destruct Hr as [-> Hl]. exact (wp_nulargs MAXARGS ws 0 st Hl (conj (Nat.le_0_l _) (Nat.lt_le_incl _ _ Hl)) Hin).
  - destruct Hr as (p'&L&->&Hc). cbn [words] in *. apply wp_bind.
    eapply wp_mono; [|apply (IH c); [done|lia|intros w' ?; apply Hin, elem_of_app; by left]]. intros _ st1 [N1 C1].
    eapply wp_mono; [|apply (wp_nul (snd w)); rewrite (proj1 C1); apply Hin, elem_of_app; right; left].
    intros _ st2 [N2 C2]. split; [congruence|]. rewrite fmap_app. by eapply cut_app.
  - destruct Hr as (p1&p2&L1&L2&->&H1&H2). by apply Htwo.
  - destruct Hr as (p1&p2&L1&L2&->&H1&H2). by apply Htwo.
  - destruct Hr as (p'&L&->&Hc). apply (IH c); [done|lia|done].
Qed.

(** The string at [q]. *)
Definition cstr (b : list Z) (q : nat) : list Z := take (strlen (drop q b)) (drop q b).
(** The bytes of a word of the line. *)
Definition slice (b : list Z) (w : word) : list Z := take (snd w - fst w) (drop (fst w) b).

Lemma ch_drop b q i : ch (drop q b) i = ch b (q + i).
Proof. unfold ch. by rewrite lookup_drop. Qed.
Lemma strlen_spec b : ch b (strlen b) = 0 ∧ ∀ i, (i < strlen b)%nat → ch b i ≠ 0.
Proof.
  induction b as [|c b [IH1 IH2]]; [split; [done|]; simpl; lia|]. simpl. destruct (Z.eqb_spec c 0) as [->|Hc]; [split; [done|]; lia|].
  split; [done|]. intros [|i] Hi; [done|]. apply IH2. lia.
Qed.
Lemma strlen_unique b n : ch b n = 0 → (∀ i, (i < n)%nat → ch b i ≠ 0) → strlen b = n.
Proof.
  intros H1 H2. destruct (strlen_spec b) as [S1 S2]. destruct (Nat.lt_total (strlen b) n) as [H|[H|H]]; [|done|].
  - by destruct (H2 _ H).
  - by destruct (S2 _ H).
Qed.

(** A word is a string of the line once the bytes after all words are 0. *)
Lemma cut_word b es l b' w :
  ch b es = 0 → (∀ i, (i < es)%nat → ch b i ≠ 0) → (es < length b)%nat → cut b l b' → (∀ e, e ∈ l → e = es ∨ plain (ch b e) = false) →
  snd w ∈ l → word_ok b es w → cstr b' (fst w) = slice b w.
Proof.
  intros Hn Hc Hes [Hlen Hcut] Hl Hw (W1&W2&W3). destruct w as [q eq]. simpl in *.
  assert (Hkeep : ∀ i, (q ≤ i < eq)%nat → ch b' i = ch b i).
  { intros i Hi. rewrite Hcut. case_decide as Hd; [|done]. destruct (Hl i Hd) as [->|Hp]; [lia|]. rewrite W2 in Hp; [done|lia]. }
  unfold cstr, slice. simpl. rewrite (strlen_unique (drop q b') (eq - q)).
  - apply list_eq. intros i. destruct (decide (i < eq - q)%nat) as [Hi|Hi].
    + rewrite !lookup_take_lt, !lookup_drop by done. specialize (Hkeep (q + i)%nat ltac:(lia)). unfold ch in Hkeep.
      destruct (lookup_lt_is_Some_2 b (q + i)) as [x Hx]; [lia|]. destruct (lookup_lt_is_Some_2 b' (q + i)) as [y Hy]; [lia|].
      rewrite Hx, Hy in *. simpl in Hkeep. by subst.
    + rewrite !lookup_take_ge by lia. done.
  - rewrite ch_drop. replace (q + (eq - q))%nat with eq by lia. rewrite Hcut. by rewrite decide_True.
  - intros i Hi. rewrite ch_drop, Hkeep by lia. apply Hc. lia.
Qed.

(** * parsecmd *)

Lemma repr_bound ns t p : repr ns t p → (p ≤ length ns)%nat.
Proof. intros Hr. destruct (repr_node _ _ _ Hr) as [nd Hn]. destruct p as [|p]; [done|]. apply lookup_lt_Some in Hn. lia. Qed.

Section parsecmd.
Context (malloc_ok : nat → bool) (has_memory : ∀ n, malloc_ok n = true) (b : list Z) (ns : list node).
Context (line_ends : (strlen b < length b)%nat).

Abbreviation line := (toks b (strlen b) 0).

(** The token parser on the whole line. *)
Lemma line_result : (∃ t, g_line line t ∧ p_line (parse_fuel (strlen b)) line = POk (t, [])) ∨
  ((∀ t, ¬ g_line line t) ∧ (p_line (parse_fuel (strlen b)) line = PErr ∨
     ∃ t x ts, p_line (parse_fuel (strlen b)) line = POk (t, x :: ts))).
Proof.
  destruct (strlen_spec b) as [Hnul Hch]. pose proof (toks_length b (strlen b) Hnul Hch 0 ltac:(lia)) as Hlen.
  pose proof (proj1 (parse_total (parse_fuel (strlen b))) line ltac:(unfold parse_fuel; lia)) as Htot.
  assert (Hno : ∀ t, g_line line t → p_line (parse_fuel (strlen b)) line = POk (t, [])).
  { intros t Hg. pose proof (proj1 parse_complete line t Hg [] (parse_fuel (strlen b))) as Hc. rewrite app_nil_r in Hc.
    apply Hc; [by left|unfold parse_fuel; lia]. }
  destruct (p_line (parse_fuel (strlen b)) line) as [[t [|x ts]]| |] eqn:E; [left| | |done].
  - destruct (proj1 (parse_sound _) _ _ _ E) as (ts1&E1&Hg). rewrite app_nil_r in E1. subst ts1. by exists t.
  - right. split; [|right; by exists t, x, ts]. intros t' Hg. specialize (Hno t' Hg). congruence.
  - right. split; [|by left]. intros t' Hg. specialize (Hno t' Hg). congruence.
Qed.

Lemma line_unique t t' : g_line line t → g_line line t' → t = t'.
Proof.
  intros H1 H2. pose proof (proj1 parse_complete _ _ H1 [] (4 * length (line ++ []) + 4)%nat ltac:(by left) ltac:(done)) as E1.
  pose proof (proj1 parse_complete _ _ H2 [] (4 * length (line ++ []) + 4)%nat ltac:(by left) ltac:(done)) as E2. congruence.
Qed.

Lemma nulterminate_line t p st' :
  g_line line t → sbuf st' = b → repr (nodes st') t p →
  wp (nulterminate (S (length (nodes st'))) p) st' (λ _ st2, nodes st2 = nodes st' ∧
    ∀ w, w ∈ words t → cstr (sbuf st2) (fst w) = slice b w).
Proof.
  intros Hg Hb Hr. destruct (strlen_spec b) as [Hnul Hch].
  assert (Hw : ∀ w, w ∈ words t → word_ok b (strlen b) w).
  { intros [q eq] Hw. apply (toks_ok b (strlen b) Hnul Hch 0); [lia|]. by apply (proj1 grammar_words _ _ Hg (q, eq)). }
  eapply wp_mono; [|apply (wp_nulterminate _ t); [done|pose proof (repr_bound _ _ _ Hr); lia|]].
  - intros _ st2 [N C]. split; [done|]. intros w Hin. rewrite Hb in C.
    apply (cut_word b (strlen b) (words t).*2); try done; [| |by apply Hw].
    + intros e (w'&->&Hw')%list_elem_of_fmap. apply (Hw w' Hw').
    + apply list_elem_of_fmap. by exists w.
  - intros w Hin. destruct (Hw w Hin) as (W1&_). rewrite Hb. lia.
Qed.
End parsecmd.

(** C6: on any line, parsecmd ends: either the tokens of the line are a sentence of the
    grammar, which has one tree, and parsecmd returns the nodes of that tree with each of
    its words a string in the line, or they are not, and parsecmd exits with a message. *)
Theorem parsecmd_grammar malloc_ok b ns :
  (∀ n, malloc_ok n = true) → (strlen b < length b)%nat →
  (∃ t p st', g_line (toks b (strlen b) 0) t ∧ (∀ t', g_line (toks b (strlen b) 0) t' → t' = t) ∧
     parsecmd malloc_ok {| sbuf := b; nodes := ns |} = Ret p st' ∧ repr (nodes st') t p ∧
     ∀ w, w ∈ words t → cstr (sbuf st') (fst w) = slice b w) ∨
  ((∀ t, ¬ g_line (toks b (strlen b) 0) t) ∧ ∃ msg, parsecmd malloc_ok {| sbuf := b; nodes := ns |} = Panic msg).
Proof.
  intros Hmem Hend. destruct (strlen_spec b) as [Hnul Hch]. set (st := {| sbuf := b; nodes := ns |}).
  pose proof (proj1 (sim_parse malloc_ok Hmem b (strlen b) Hnul Hch (parse_fuel (strlen b))) st 0%nat ltac:(lia)) as Hsim.
  destruct (line_result b Hend) as [(t&Hg&E)|[Hno [E|(t&x&ts&E)]]]; rewrite E in Hsim; cbn [sim] in Hsim.
  - left. unfold wp in Hsim. destruct (parseline _ _ _ _ _ st) as [[p s'] st1| | | |] eqn:Er; try done. destruct Hsim as [(S1&S2&S3&S4) Hr].
    destruct (peek_heads b (strlen b) Hnul Hch [] s' S1) as (q&Hpk&_&_&Hq); [by intros x Hx%elem_of_nil|].
    pose proof (nulterminate_line b Hend t p st1 Hg S3 Hr) as Hn. apply wp_Ret in Hn as (u&st2&Hn&N&Hw). exists t, p, st2.
    split; [done|]. split; [intros t' Hg'; by eapply line_unique|]. split; [|by rewrite N].
    unfold parsecmd, gets, mbind, K_bind. cbn [sbuf st]. rewrite Er, Hpk, (Hq S2), Nat.eqb_refl. cbn [negb].
    by rewrite Hn.
  - right. split; [done|]. destruct Hsim as [msg Hm]. exists msg. unfold parsecmd, gets, mbind, K_bind. cbn [sbuf st]. by rewrite Hm.
  - right. split; [done|]. unfold wp in Hsim. destruct (parseline _ _ _ _ _ st) as [[p s'] st1| | | |] eqn:Er; try done.
    destruct Hsim as [(S1&S2&S3&S4) Hr].
    destruct (peek_heads b (strlen b) Hnul Hch [] s' S1) as (q&Hpk&_&Htq&_); [by intros y Hy%elem_of_nil|].
    assert (Hq : q ≠ strlen b) by (intros ->; rewrite toks_end, S2 in Htq by done; done).
    exists "syntax"%string. unfold parsecmd, gets, mbind, K_bind. cbn [sbuf st]. by rewrite Er, Hpk, (proj2 (Nat.eqb_neq _ _) Hq).
Qed.

(** The line "a>b|c&". *)
Lemma parsecmd_grammar_witness :
  ∃ t p st', parsecmd (λ _, true) {| sbuf := [97; 62; 98; 124; 99; 38; 0; 0]; nodes := [] |} = Ret p st' ∧ repr (nodes st') t p.
Proof.
  destruct (parsecmd_grammar (λ _, true) [97; 62; 98; 124; 99; 38; 0; 0] []) as [(t&p&st'&_&_&H1&H2&_)|[_ [msg H]]];
    [reflexivity|vm_compute; lia|exists t, p, st'; split; [exact H1|exact H2]|]. vm_compute in H. discriminate H.
Defined.
