(* ===== verification/Syscall.v ===== *)
(** System calls and their arguments (src/syscall.c).

    The memory of the process is the set of bytes that are mapped for it; the
    kernel faults when it touches another.  myproc() is the process structure of
    Procdef.v, and whether it is initproc, which cmpinit() tests, is a parameter.
    The routines that the table of system calls names are parameters of the
    dispatcher. *)

From Stdlib Require Import ZArith Lia.
From stdpp Require Import base tactics numbers gmap sets strings list.
From S2P Require Import Prelude Memory Mmu Procdef.

#[local] Open Scope Z_scope.

(** * Fetching arguments *)

Section args.
(** myproc(), cmpinit(myproc()), and the mapped memory. *)
Context (curproc : proc) (cmpinit : bool).
Abbreviation U := (K mem).

Definition uload8 (a : Z) : U Z :=
  get ≫= λ m, match m !! a with Some v => mret v | None => fault "page fault" end.
Definition uload32 (a : Z) : U Z :=
  uload8 a ≫= λ b0, uload8 (a + 1) ≫= λ b1, uload8 (a + 2) ≫= λ b2, uload8 (a + 3) ≫= λ b3,
  mret (b0 + 256 * b1 + 65536 * b2 + 16777216 * b3).

(** The test for the guard page and the space reserved for the stack. *)
Definition in_guard (addr : Z) : bool :=
  (p_stacklastpg curproc <=? addr) && (addr <? u32 (p_guardpg curproc + PGSIZE)).

(** The value of *ip, or [None] when it returns -1; likewise below. *)
Definition fetchint (addr : Z) : U (option Z) :=
  if (p_sz curproc <=? addr) || (p_sz curproc <? u32 (addr + 4)) || (addr =? 0) then mret None else
  if negb cmpinit && in_guard addr then mret None else
  if negb cmpinit && (p_shmbreak curproc <=? u32 (addr + 4)) && (addr <? p_shmtop curproc) then mret None else
  uload32 addr ≫= λ v, mret (Some v).

(** The scan for the NUL, [n] bytes before the end of the memory. *)
Fixpoint str_scan (n : nat) (s addr : Z) : U (option (Z * Z)) :=
  match n with
  | O => mret None
  | S n' => uload8 s ≫= λ c, if c =? 0 then mret (Some (addr, s - addr)) else str_scan n' (s + 1) addr
  end.

(** The pointer and the length of the string. *)
Definition fetchstr (addr : Z) : U (option (Z * Z)) :=
  if (p_sz curproc <=? addr) || (addr =? 0) then mret None else
  if negb cmpinit && in_guard addr then mret None else
  if negb cmpinit && (p_shmbreak curproc <=? addr) && (addr <? p_shmtop curproc) then mret None else
  str_scan (Z.to_nat (p_sz curproc - addr)) addr addr.

Definition argint (n : Z) : U (option Z) := fetchint (u32 (tf_esp (p_tf curproc) + 4 + 4 * n)).

Definition argptr (n size : Z) : U (option Z) :=
  argint n ≫= λ o,
  match o with
  | None => mret None
  | Some i =>
      if (size <? 0) || (p_sz curproc <=? i) || (p_sz curproc <? u32 (i + size)) || (i =? 0) then mret None else
      if negb cmpinit && in_guard i then mret None else
      if negb cmpinit && (p_shmbreak curproc <=? u32 (i + size)) && (i <? p_shmtop curproc) then mret None else
      mret (Some i)
  end.

Definition argstr (n : Z) : U (option (Z * Z)) :=
  argint n ≫= λ o, match o with None => mret None | Some addr => fetchstr addr end.

(** ** What they accept *)

(** The memory of a process as exec leaves it, and as sbrk and shmbrk change it. *)
Record layout : Prop := {
  ly_stack : 0 < p_stacklastpg curproc ∧ p_stacklastpg curproc ≤ p_guardpg curproc ∧ p_guardpg curproc + PGSIZE ≤ p_stacktop curproc;
  ly_shm : p_stacktop curproc ≤ p_shmbreak curproc ∧ p_shmbreak curproc ≤ p_shmtop curproc;
  ly_sz : p_shmtop curproc ≤ p_sz curproc ∧ p_sz curproc ≤ KERNBASE
}.
(** The addresses that are not to be used: the guard page with the space below it
    and the shared memory that has not been allocated. *)
Definition guarded (a : Z) : Prop := p_stacklastpg curproc ≤ a < p_guardpg curproc + PGSIZE.
Definition unshared (a : Z) : Prop := p_shmbreak curproc ≤ a < p_shmtop curproc.

Lemma in_guard_spec a : layout → in_guard a = true ↔ guarded a.
Proof.
  intros [L1 L2 L3]. unfold in_guard, guarded. rewrite andb_true_iff, Z.leb_le, Z.ltb_lt.
  rewrite u32_small; [done|]. unfold is_u32, KERNBASE, PGSIZE in *. lia.
Qed.

(** When the arguments are accepted, for a process other than initproc. *)
Definition accepts (i size : Z) : Prop :=
  0 ≤ size ∧ 0 < i ∧ i < p_sz curproc ∧ i + size ≤ p_sz curproc ∧ ¬ guarded i ∧ (i + size < p_shmbreak curproc ∨ p_shmtop curproc ≤ i).

Lemma fetchint_spec addr m :
  layout → cmpinit = false → is_u32 addr →
  (accepts addr 4 → ∀ v, uload32 addr m = Ret v m → fetchint addr m = Ret (Some v) m) ∧
  (¬ accepts addr 4 → fetchint addr m = Ret None m).
Proof.
  intros L Hi Ha. pose proof (in_guard_spec addr L) as Hg. destruct L as [L1 L2 L3]. unfold is_u32, KERNBASE in *.
  assert (Hsz : p_sz curproc ≤ addr ∨ u32 (addr + 4) = addr + 4).
  { destruct (Z.le_gt_cases (p_sz curproc) addr); [by left|right]. apply u32_small. unfold is_u32. lia. }
  unfold fetchint, accepts. rewrite Hi. cbn [negb andb].
  destruct (Z.leb_spec (p_sz curproc) addr); [split; [lia|done]|]. destruct Hsz as [|Hs]; [lia|]. rewrite Hs. cbn [orb].
  destruct (Z.ltb_spec (p_sz curproc) (addr + 4)); [split; [lia|done]|]. cbn [orb].
  destruct (Z.eqb_spec addr 0); [split; [lia|done]|].
  destruct (in_guard addr) eqn:Eg; [split; [|done]; intros (_&_&_&_&Hn&_); destruct Hn; by apply Hg|].
  assert (Hng : ¬ guarded addr) by (intros H'; apply Hg in H'; congruence).
  destruct (Z.leb_spec (p_shmbreak curproc) (addr + 4)), (Z.ltb_spec addr (p_shmtop curproc)); cbn [andb];
    (split; [first [intros (_&_&_&_&_&?); lia|intros _ v Hv; unfold mbind, K_bind; by rewrite Hv]|]);
    first [done|intros Hna; exfalso; apply Hna; do 4 (split; [lia|]); split; [done|lia]].
Qed.

Lemma argptr_spec n size i m :
  layout → cmpinit = false → is_u32 i → size < 2147483648 → argint n m = Ret (Some i) m →
  (accepts i size → argptr n size m = Ret (Some i) m) ∧ (¬ accepts i size → argptr n size m = Ret None m).
Proof.
  intros L Hi Hu Hsize Ha. pose proof (in_guard_spec i L) as Hg. destruct L as [L1 L2 L3]. unfold is_u32, KERNBASE in *.
  unfold argptr, mbind, K_bind. rewrite Ha, Hi. unfold accepts. cbn [negb andb].
  destruct (Z.ltb_spec size 0); [split; [lia|done]|]. cbn [orb].
  destruct (Z.leb_spec (p_sz curproc) i); [split; [lia|done]|]. cbn [orb]. rewrite u32_small by (unfold is_u32; lia).
  destruct (Z.ltb_spec (p_sz curproc) (i + size)); [split; [lia|done]|]. cbn [orb].
  destruct (Z.eqb_spec i 0); [split; [lia|done]|].
  destruct (in_guard i) eqn:Eg; [split; [|done]; intros (_&_&_&_&Hn&_); destruct Hn; by apply Hg|].
  assert (Hng : ¬ guarded i) by (intros H'; apply Hg in H'; congruence).
  destruct (Z.leb_spec (p_shmbreak curproc) (i + size)), (Z.ltb_spec i (p_shmtop curproc)); cbn [andb];
    (split; [first [intros (_&_&_&_&_&?); lia|done]|]);
    first [done|intros Hna; exfalso; apply Hna; do 4 (split; [lia|]); split; [done|lia]].
Qed.

(** The bytes from [i] up to [x] are mapped and not NUL. *)
Definition text (m : mem) (i x : Z) : Prop := ∀ a, i ≤ a < x → ∃ v, m !! a = Some v ∧ v ≠ 0.
(** fetchstr looks for the string at [i]. *)
Definition accepts_str (i : Z) : Prop := 0 < i < p_sz curproc ∧ ¬ guarded i ∧ ¬ unshared i.

Lemma text_step m i x v : m !! i = Some v → v ≠ 0 → text m (i + 1) x → text m i x.
Proof. intros H1 H2 H a Ha. destruct (decide (a = i)) as [->|]; [by exists v|]. apply H. lia. Qed.

(** The scan ends at a NUL, at the end of the memory or at a byte that is not mapped. *)
Lemma str_scan_cases k s addr m :
  (∃ x, s ≤ x < s + Z.of_nat k ∧ text m s x ∧ m !! x = Some 0 ∧ str_scan k s addr m = Ret (Some (addr, x - addr)) m) ∨
  (text m s (s + Z.of_nat k) ∧ str_scan k s addr m = Ret None m) ∨
  (∃ x, s ≤ x < s + Z.of_nat k ∧ text m s x ∧ m !! x = None ∧ str_scan k s addr m = Fault "page fault").
Proof.
  revert s. induction k as [|k IH]; intros s; cbn [str_scan].
  { right; left. split; [|done]. intros a Ha. lia. }
  unfold uload8, mbind, K_bind, get. destruct (m !! s) as [v|] eqn:E.
  2: { right; right. exists s. split; [lia|]. split; [intros a Ha; lia|done]. }
  unfold mret, K_ret. destruct (Z.eqb_spec v 0) as [->|Hv].
  { left. exists s. split; [lia|]. split; [intros a Ha; lia|done]. }
  destruct (IH (s + 1)) as [(x&H1&H2&H3)|[[H1 H2]|(x&H1&H2&H3)]].
  - left. exists x. split; [lia|]. split; [by eapply text_step|done].
  - right; left. replace (s + Z.of_nat (S k)) with (s + 1 + Z.of_nat k) by lia. split; [by eapply text_step|done].
  - right; right. exists x. split; [lia|]. split; [by eapply text_step|done].
Qed.

(** Where it ends is unique. *)
Lemma text_stop m i x y v : text m i y → i ≤ x → m !! x = v → (v = None ∨ v = Some 0) → y ≤ x.
Proof.
  intros H Hx Hv Hc. destruct (Z.le_gt_cases y x); [done|]. destruct (H x) as (w&Hw&Hn); [lia|].
  rewrite Hw in Hv. destruct Hc; congruence.
Qed.

Lemma fetchstr_refused i m : layout → cmpinit = false → is_u32 i → ¬ accepts_str i → fetchstr i m = Ret None m.
Proof.
  intros L Hi Hu Hn. pose proof (in_guard_spec i L) as Hg. unfold fetchstr. rewrite Hi. cbn [negb andb].
  destruct (Z.leb_spec (p_sz curproc) i); [done|]. destruct (Z.eqb_spec i 0); [done|]. cbn [orb].
  destruct (in_guard i) eqn:Eg; [done|]. destruct (Z.leb_spec (p_shmbreak curproc) i), (Z.ltb_spec i (p_shmtop curproc)); cbn [andb]; try done;
    exfalso; apply Hn; (split; [unfold is_u32 in Hu; lia|]); (split; [intros H'; apply Hg in H'; congruence|unfold unshared; lia]).
Qed.
Lemma fetchstr_scan i m : layout → cmpinit = false → accepts_str i → fetchstr i m = str_scan (Z.to_nat (p_sz curproc - i)) i i m.
Proof.
  intros L Hi (Hr&Hn&Hs). pose proof (in_guard_spec i L) as Hg. unfold fetchstr. rewrite Hi. cbn [negb andb].
  destruct (Z.leb_spec (p_sz curproc) i); [lia|]. destruct (Z.eqb_spec i 0); [lia|]. cbn [orb].
  destruct (in_guard i) eqn:Eg; [by destruct Hn; apply Hg|]. unfold unshared in Hs.
  destruct (Z.leb_spec (p_shmbreak curproc) i), (Z.ltb_spec i (p_shmtop curproc)); cbn [andb]; try done. lia.
Qed.

(** fetchstr on every branch. *)
Lemma fetchstr_spec i m :
  layout → cmpinit = false → is_u32 i →
  (∀ r l, fetchstr i m = Ret (Some (r, l)) m ↔ r = i ∧ accepts_str i ∧ 0 ≤ l ∧ i + l < p_sz curproc ∧ text m i (i + l) ∧ m !! (i + l) = Some 0) ∧
  (fetchstr i m = Ret None m ↔ ¬ accepts_str i ∨ text m i (p_sz curproc)) ∧
  (fetchstr i m = Fault "page fault" ↔ accepts_str i ∧ ∃ x, i ≤ x < p_sz curproc ∧ text m i x ∧ m !! x = None).
Proof.
  intros L Hi Hu. assert (accepts_str i ∨ ¬ accepts_str i) as [Ha|Ha] by (unfold accepts_str, guarded, unshared; lia).
  2: { rewrite (fetchstr_refused i m L Hi Hu Ha). split; [|split]; [naive_solver..]. }
  rewrite (fetchstr_scan i m L Hi Ha). pose proof (proj1 Ha) as Hr.
  pose proof (str_scan_cases (Z.to_nat (p_sz curproc - i)) i i m) as C.
  rewrite Z2Nat.id in C by lia. replace (i + (p_sz curproc - i)) with (p_sz curproc) in C by lia.
  destruct C as [(x&Hx&Ht&Hv&->)|[[Ht ->]|(x&Hx&Ht&Hv&->)]]; (split; [|split]).
  - intros r l. split.
    + intros [= <- <-]. replace (i + (x - i)) with x by lia. repeat split; try done; try apply Ha; lia.
    + intros (->&_&Hl&_&Ht'&Hv'). pose proof (text_stop m i x _ _ Ht' ltac:(lia) Hv ltac:(auto)).
      pose proof (text_stop m i (i + l) _ _ Ht ltac:(lia) Hv' ltac:(auto)). by replace l with (x - i) by lia.
  - split; [done|]. intros [?|Ht']; [done|]. pose proof (text_stop m i x _ _ Ht' ltac:(lia) Hv ltac:(auto)). lia.
  - split; [done|]. intros (_&y&Hy&Ht'&Hv'). pose proof (text_stop m i x _ _ Ht' ltac:(lia) Hv ltac:(auto)).
    pose proof (text_stop m i y _ _ Ht ltac:(lia) Hv' ltac:(auto)). replace y with x in * by lia. congruence.
  - intros r l. split; [done|]. intros (_&_&Hl&Hs&_&Hv'). pose proof (text_stop m i (i + l) _ _ Ht ltac:(lia) Hv' ltac:(auto)). lia.
  - split; [by right|done].
  - split; [done|]. intros (_&y&Hy&_&Hv'). pose proof (text_stop m i y _ _ Ht ltac:(lia) Hv' ltac:(auto)). lia.
  - intros r l. split; [done|]. intros (_&_&Hl&_&Ht'&Hv'). pose proof (text_stop m i x _ _ Ht' ltac:(lia) Hv ltac:(auto)).
    pose proof (text_stop m i (i + l) _ _ Ht ltac:(lia) Hv' ltac:(auto)). replace x with (i + l) in * by lia. congruence.
  - split; [done|]. intros [?|Ht']; [done|]. pose proof (text_stop m i x _ _ Ht' ltac:(lia) Hv ltac:(auto)). lia.
  - split; [intros _; split; [done|by exists x]|done].
Qed.
End args.

(** * Dispatch *)

Inductive sysno :=
  | SYS_fork | SYS_exit | SYS_wait | SYS_pipe | SYS_read | SYS_kill | SYS_exec | SYS_fstat | SYS_chdir
  | SYS_dup | SYS_getpid | SYS_sbrk | SYS_sleep | SYS_uptime | SYS_open | SYS_write | SYS_mknod | SYS_unlink
  | SYS_link | SYS_mkdir | SYS_close | SYS_vdso_entry | SYS_shmbrk | SYS_futex_wait | SYS_futex_wake
  | SYS_wolfie | SYS_futex_wait2.

(** The numbers of the header. *)
Definition sys_number (c : sysno) : Z :=
  match c with
  | SYS_fork => 1 | SYS_exit => 2 | SYS_wait => 3 | SYS_pipe => 4 | SYS_read => 5 | SYS_kill => 6
  | SYS_exec => 7 | SYS_fstat => 8 | SYS_chdir => 9 | SYS_dup => 10 | SYS_getpid => 11 | SYS_sbrk => 12
  | SYS_sleep => 13 | SYS_uptime => 14 | SYS_open => 15 | SYS_write => 16 | SYS_mknod => 17
  | SYS_unlink => 18 | SYS_link => 19 | SYS_mkdir => 20 | SYS_close => 21 | SYS_vdso_entry => 22
  | SYS_shmbrk => 23 | SYS_futex_wait => 24 | SYS_futex_wake => 25 | SYS_wolfie => 26 | SYS_futex_wait2 => 27
  end.

(** The entries of syscalls[] in the order of the source, put at their numbers. *)
Definition syscalls_init : list sysno :=
  [SYS_fork; SYS_exit; SYS_wait; SYS_pipe; SYS_read; SYS_kill; SYS_exec; SYS_fstat; SYS_chdir; SYS_dup;
   SYS_getpid; SYS_sbrk; SYS_sleep; SYS_uptime; SYS_open; SYS_write; SYS_mknod; SYS_unlink; SYS_link;
   SYS_mkdir; SYS_close; SYS_vdso_entry; SYS_shmbrk; SYS_futex_wait; SYS_futex_wake; SYS_wolfie; SYS_futex_wait2].
Definition syscalls : list (option sysno) :=
  foldl (λ t c, <[Z.to_nat (sys_number c) := Some c]> t) (replicate 28 None) syscalls_init.

Section dispatch.
(** The registers of the current process in the state, and the system calls. *)
Context {St : Type} (eax : St → Z) (set_eax : Z → St → St) (sys : sysno → K St Z).

Definition syscall : K St unit :=
  gets eax ≫= λ e,
  let num := s32 e in
  match (if (0 <? num) && (num <? Z.of_nat (length syscalls)) then syscalls !! Z.to_nat num else None) with
  | Some (Some c) => sys c ≫= λ r, modify (set_eax (u32 r))
  | _ => modify (set_eax (u32 (-1)))
  end.
End dispatch.

(** * Theorems *)

Lemma argument_bounds curproc n size i m :
  layout curproc → is_u32 i → size < 2147483648 → argint curproc false n m = Ret (Some i) m →
  (argptr curproc false n size m = Ret (Some i) m ↔ accepts curproc i size) ∧
  (argptr curproc false n size m = Ret None m ↔ ¬ accepts curproc i size) ∧
  (accepts curproc i size → ∀ a, i ≤ a < i + size → 0 < a < KERNBASE ∧ a < p_sz curproc ∧ ¬ unshared curproc a).
Proof.
  intros L Hi Hs Ha. destruct (argptr_spec curproc false n size i m L eq_refl Hi Hs Ha) as [H1 H2].
  assert (Hdec : accepts curproc i size ∨ ¬ accepts curproc i size).
  { unfold accepts, guarded. lia. }
  pose proof L as [L1 L2 L3]. unfold PGSIZE in L1. split; [|split].
  - split; [|done]. intros H. destruct Hdec as [|Hn]; [done|]. rewrite (H2 Hn) in H. done.
  - split; [|done]. intros H Hacc. rewrite (H1 Hacc) in H. done.
  - intros (A1&A2&A3&A4&A5&A6) a Hrange. unfold unshared, KERNBASE in *. lia.
Qed.

(** argstr is fetchstr at the argument. *)
Lemma argstr_spec curproc n i m :
  layout curproc → is_u32 i → argint curproc false n m = Ret (Some i) m →
  (∀ r l, argstr curproc false n m = Ret (Some (r, l)) m ↔
     r = i ∧ accepts_str curproc i ∧ 0 ≤ l ∧ i + l < p_sz curproc ∧ text m i (i + l) ∧ m !! (i + l) = Some 0) ∧
  (argstr curproc false n m = Ret None m ↔ ¬ accepts_str curproc i ∨ text m i (p_sz curproc)) ∧
  (argstr curproc false n m = Fault "page fault" ↔ accepts_str curproc i ∧ ∃ x, i ≤ x < p_sz curproc ∧ text m i x ∧ m !! x = None).
Proof. intros L Hi Ha. unfold argstr, mbind, K_bind. rewrite Ha. by apply fetchstr_spec. Qed.

(** The checks have gaps. A buffer that starts below the space reserved for the stack
    is accepted however far it reaches into that space and the guard page, and a buffer
    may start anywhere in the first page, which is not mapped, except at its first byte;
    while a word that ends exactly at the break of the shared memory, all of which may be
    used, is refused. *)
Lemma argument_gaps curproc n size i m :
  layout curproc → PGSIZE ≤ p_stacklastpg curproc → 0 < i < p_stacklastpg curproc → 0 ≤ size < 2147483648 → i + size < p_shmbreak curproc →
  argint curproc false n m = Ret (Some i) m →
  argptr curproc false n size m = Ret (Some i) m ∧
  (p_stacklastpg curproc < i + size → ∃ a, i ≤ a < i + size ∧ guarded curproc a) ∧
  fetchint curproc false (p_shmbreak curproc - 4) m = Ret None m.
Proof.
  intros L Hp Hi Hs Hlt Ha. pose proof L as [L1 L2 L3]. unfold PGSIZE, KERNBASE in *.
  destruct (argptr_spec curproc false n size i m L eq_refl ltac:(unfold is_u32; lia) ltac:(lia) Ha) as [H1 _]. split; [|split].
  - apply H1. unfold accepts, guarded. lia.
  - intros Hr. exists (p_stacklastpg curproc). unfold guarded, PGSIZE. lia.
  - destruct (fetchint_spec curproc false (p_shmbreak curproc - 4) m L eq_refl) as [_ H]; [unfold is_u32; lia|].
    apply H. unfold accepts. lia.
Qed.

(** A process with one page of code, and its arguments on the stack. *)
Definition proc_example : proc :=
  set_shmtop 53248 (set_shmbreak 49152 (set_stacktop 49152 (set_guardpg 40960 (set_stacklastpg 8192 (set_sz 65536
    (set_tf (set_tf_eip_esp 0 45056 tf_zero) proc_zero)))))).
Definition mem_example : mem := wr32 (wr32 ∅ 45060 4096) 45064 8.

Lemma layout_example : layout proc_example.
Proof. split; vm_compute; intuition congruence. Qed.

(** With the string of two characters at 4096. *)
Definition text_example : mem := wr8 (wr8 (wr8 mem_example 4096 104) 4097 105) 4098 0.

(** C34: for a process with the layout of exec, other than the first, the arguments of a
    system call are checked exactly so.  argint gives a word that lies under [accepts] and
    refuses the others.  argptr accepts a buffer exactly under [accepts]; then all of the
    buffer is in the memory of the process, with no wrap-around into the kernel, and none of
    it in shared memory that is not allocated.  argstr succeeds exactly when the pointer is in
    the memory, neither in the space reserved for the stack nor in shared memory that is not
    allocated, and the bytes from it on are mapped up to a NUL below the end of the memory,
    and then returns the pointer and the length of the string; it refuses exactly the pointers
    that fail these tests and the texts with no NUL; and a byte that is not mapped, before any
    NUL, is a page fault of the kernel.  The checks have gaps: a buffer that starts
    below the space reserved for the stack is accepted however far it reaches into that space
    and the guard page, and a buffer may start anywhere in the first page, which is not mapped,
    except at its first byte; while a word that ends exactly at the break of the shared memory,
    all of which may be used, is refused. *)
Theorem argument_checks :
  (∀ curproc n m, layout curproc → let addr := u32 (tf_esp (p_tf curproc) + 4 + 4 * n) in
    (accepts curproc addr 4 → ∀ v, uload32 addr m = Ret v m → argint curproc false n m = Ret (Some v) m) ∧
    (¬ accepts curproc addr 4 → argint curproc false n m = Ret None m)) ∧
  (∀ curproc n size i m,
    layout curproc → is_u32 i → size < 2147483648 → argint curproc false n m = Ret (Some i) m →
    (argptr curproc false n size m = Ret (Some i) m ↔ accepts curproc i size) ∧
    (argptr curproc false n size m = Ret None m ↔ ¬ accepts curproc i size) ∧
    (accepts curproc i size → ∀ a, i ≤ a < i + size → 0 < a < KERNBASE ∧ a < p_sz curproc ∧ ¬ unshared curproc a)) ∧
  (∀ curproc n i m,
    layout curproc → is_u32 i → argint curproc false n m = Ret (Some i) m →
    (∀ r l, argstr curproc false n m = Ret (Some (r, l)) m ↔
       r = i ∧ accepts_str curproc i ∧ 0 ≤ l ∧ i + l < p_sz curproc ∧ text m i (i + l) ∧ m !! (i + l) = Some 0) ∧
    (argstr curproc false n m = Ret None m ↔ ¬ accepts_str curproc i ∨ text m i (p_sz curproc)) ∧
    (argstr curproc false n m = Fault "page fault" ↔ accepts_str curproc i ∧ ∃ x, i ≤ x < p_sz curproc ∧ text m i x ∧ m !! x = None)) ∧
  (∀ curproc n size i m,
    layout curproc → PGSIZE ≤ p_stacklastpg curproc → 0 < i < p_stacklastpg curproc → 0 ≤ size < 2147483648 → i + size < p_shmbreak curproc →
    argint curproc false n m = Ret (Some i) m →
    argptr curproc false n size m = Ret (Some i) m ∧
    (p_stacklastpg curproc < i + size → ∃ a, i ≤ a < i + size ∧ guarded curproc a) ∧
    fetchint curproc false (p_shmbreak curproc - 4) m = Ret None m).
Proof.
  split; [|split; [exact argument_bounds|split; [exact argstr_spec|exact argument_gaps]]].
  intros curproc n m L addr. apply fetchint_spec; [done|done|apply u32_range].
Qed.

Lemma argument_checks_witness :
  (argint proc_example false 1 text_example = Ret (Some 8) text_example) ∧
  (argptr proc_example false 0 100 mem_example = Ret (Some 4096) mem_example ↔ accepts proc_example 4096 100) ∧
  (argstr proc_example false 0 text_example = Ret (Some (4096, 2)) text_example) ∧
  (argptr proc_example false 1 20000 mem_example = Ret (Some 8) mem_example).
Proof.
  destruct argument_checks as (C0&C1&C2&C3). split; [|split; [|split]].
  { destruct (C0 proc_example 1 text_example layout_example) as [H _]. apply H; [vm_compute; intuition congruence|vm_compute; reflexivity]. }
  { destruct (C1 proc_example 0 100 4096 mem_example layout_example) as [H _];
      [vm_compute; intuition congruence|lia|vm_compute; reflexivity|exact H]. }
  { destruct (C2 proc_example 0 4096 text_example layout_example) as [H _]; [vm_compute; intuition congruence|vm_compute; reflexivity|].
    apply H. split; [done|]. split; [vm_compute; intuition congruence|]. split; [lia|]. split; [vm_compute; reflexivity|]. split; [|vm_compute; reflexivity].
    intros a Ha. assert (a = 4096 ∨ a = 4097) as [-> | ->] by lia; [by exists 104|by exists 105]. }
  { destruct (C3 proc_example 1 20000 8 mem_example layout_example) as [H _];
      [vm_compute; congruence|vm_compute; intuition congruence|lia|vm_compute; congruence|vm_compute; reflexivity|exact H]. }
Defined.
