(* ===== verification/File.v ===== *)
(** Open files and file descriptors (src/file.c, and of src/sysfile.c, src/pipe.c and
    src/proc.c the routines that open, duplicate and close descriptors).

    A file is a slot of ftable.file[], a descriptor an entry of the table of a
    process.  The routines are cut into the sections that run without interruption:
    what is done under ftable.lock, and what a process does to its own table or to a
    file no one else can reach yet.  Between sections the other processes run; where a
    process is in its call is its [pc].  Of inodes and pipes the state has what the
    files own of them: the references to an inode, and the ends of a pipe that are
    open. *)

From Stdlib Require Import ZArith Lia.
From stdpp Require Import base tactics numbers functions relations sets strings list.
From S2P Require Import Prelude Procdef.

#[local] Open Scope Z_scope.

Inductive ftype := FD_NONE | FD_PIPE | FD_INODE.
#[export] Instance ftype_eq_dec : EqDecision ftype.
Proof. solve_decision. Defined.

Record file := {
  f_type : ftype; f_ref : Z; f_readable : bool; f_writable : bool; f_pipe : nat; f_ip : nat; f_off : Z
}.
Definition file_zero : file :=
  {| f_type := FD_NONE; f_ref := 0; f_readable := false; f_writable := false; f_pipe := 0; f_ip := 0; f_off := 0 |}.
Definition set_ref (r : Z) (f : file) : file :=
  {| f_type := f_type f; f_ref := r; f_readable := f_readable f; f_writable := f_writable f; f_pipe := f_pipe f; f_ip := f_ip f; f_off := f_off f |}.
Definition set_ftype (t : ftype) (f : file) : file :=
  {| f_type := t; f_ref := f_ref f; f_readable := f_readable f; f_writable := f_writable f; f_pipe := f_pipe f; f_ip := f_ip f; f_off := f_off f |}.
Definition set_inode (ip : nat) (r w : bool) (f : file) : file :=
  {| f_type := FD_INODE; f_ref := f_ref f; f_readable := r; f_writable := w; f_pipe := f_pipe f; f_ip := ip; f_off := 0 |}.
Definition set_pipe (k : nat) (w : bool) (f : file) : file :=
  {| f_type := FD_PIPE; f_ref := f_ref f; f_readable := negb w; f_writable := w; f_pipe := k; f_ip := f_ip f; f_off := f_off f |}.

(** What a call goes on with when it has closed a file. *)
Inductive cont := CIdle | CPut (ip : nat) | CClose (f : nat) | CExit (fd : nat).

(** Where a process is. *)
Inductive pc :=
  | PUnused | PEmbryo                            (* a free slot; the child of a fork in progress *)
  | PIdle                                        (* not in one of the calls *)
  | PDup (f fd : nat)                            (* sys_dup, before filedup *)
  | PClose (f : nat) (k : cont)                  (* before fileclose(f) *)
  | PRel (ff : file) (k : cont)                  (* in fileclose, after the release of the lock *)
  | POpen (ip : nat) (omode : Z)                 (* sys_open, before filealloc, *)
  | POpenFd (ip f : nat) (omode : Z)             (* before fdalloc, *)
  | POpenSet (ip f : nat) (omode : Z)            (* before the assignments to the file *)
  | PPut (ip : nat)                              (* before iput(ip) *)
  | PPipe1                                       (* pipealloc, before the first filealloc, *)
  | PPipe2 (rf : nat)                            (* the second one, *)
  | PPipe3 (rf wf : nat)                         (* and kalloc *)
  | PPipe4 (rf wf : nat)                         (* sys_pipe, before fdalloc *)
  | PFork (q fd : nat)                           (* fork to slot q, at descriptor fd *)
  | PExit (fd : nat).                            (* exit, at descriptor fd *)

Record fds := {
  ftab : nat → file;
  ofile : nat → nat → option nat;
  pcs : nat → pc;
  iref : nat → Z;
  ends : nat → bool → bool
}.
Definition upd_file (f : nat) (g : file → file) (s : fds) : fds :=
  {| ftab := <[f := g (ftab s f)]> (ftab s); ofile := ofile s; pcs := pcs s; iref := iref s; ends := ends s |}.
Definition upd_fd (p fd : nat) (o : option nat) (s : fds) : fds :=
  {| ftab := ftab s; ofile := <[p := <[fd := o]> (ofile s p)]> (ofile s); pcs := pcs s; iref := iref s; ends := ends s |}.
Definition upd_pc (p : nat) (c : pc) (s : fds) : fds :=
  {| ftab := ftab s; ofile := ofile s; pcs := <[p := c]> (pcs s); iref := iref s; ends := ends s |}.
Definition upd_iref (ip : nat) (r : Z) (s : fds) : fds :=
  {| ftab := ftab s; ofile := ofile s; pcs := pcs s; iref := <[ip := r]> (iref s); ends := ends s |}.
Definition upd_end (k : nat) (w b : bool) (s : fds) : fds :=
  {| ftab := ftab s; ofile := ofile s; pcs := pcs s; iref := iref s; ends := <[k := <[w := b]> (ends s k)]> (ends s) |}.
Definition goto (p : nat) (c : pc) : K fds unit := modify (upd_pc p c).

(** The first index below [n] from [i] with the given property. *)
Fixpoint first_at (P : nat → bool) (n i : nat) : option nat :=
  match n with
  | O => None
  | S n' => if P i then Some i else first_at P n' (S i)
  end.

(** ** src/file.c *)

Definition filealloc : K fds (option nat) :=
  get ≫= λ s,
  match first_at (λ f, f_ref (ftab s f) =? 0) NFILE 0 with
  | Some f => modify (upd_file f (set_ref 1)) ≫= λ _, mret (Some f)
  | None => mret None
  end.

Definition filedup (f : nat) : K fds unit :=
  gets (λ s, ftab s f) ≫= λ x,
  if f_ref x <? 1 then panic "filedup" else modify (upd_file f (set_ref (f_ref x + 1))).

(** The part of fileclose under the lock: the copy of the file if it was the last
    reference. *)
Definition fileclose (f : nat) : K fds (option file) :=
  gets (λ s, ftab s f) ≫= λ x,
  if f_ref x <? 1 then panic "fileclose" else
  modify (upd_file f (set_ref (f_ref x - 1))) ≫= λ _,
  if 0 <? f_ref x - 1 then mret None else
  gets (λ s, ftab s f) ≫= λ ff,
  modify (upd_file f (set_ref 0)) ≫= λ _,
  modify (upd_file f (set_ftype FD_NONE)) ≫= λ _,
  mret (Some ff).

(** pipeclose() and iput(), as far as the files are concerned: the end, or the
    reference, has to be there. *)
Definition close_pipe_end (k : nat) (writable : bool) : K fds unit :=
  gets (λ s, ends s k writable) ≫= λ o : bool,
  if o then modify (upd_end k writable false) else fault "close_pipe_end of a closed end".
Definition drop_iref (ip : nat) : K fds unit :=
  gets (λ s, iref s ip) ≫= λ r,
  if r <? 1 then fault "drop_iref without a reference" else modify (upd_iref ip (r - 1)).

(** The rest of fileclose. *)
Definition fileclose_end (ff : file) : K fds unit :=
  match f_type ff with
  | FD_PIPE => close_pipe_end (f_pipe ff) (f_writable ff)
  | FD_INODE => drop_iref (f_ip ff)
  | FD_NONE => mret tt
  end.

(** ** Descriptors *)

(** argfd, for a descriptor that argint has fetched. *)
Definition argfd (p : nat) (fd : Z) : K fds (option (nat * nat)) :=
  get ≫= λ s,
  mret (if (fd <? 0) || (Z.of_nat NOFILE <=? fd) then None
        else match ofile s p (Z.to_nat fd) with None => None | Some f => Some (Z.to_nat fd, f) end).

Definition fdalloc (p f : nat) : K fds (option nat) :=
  get ≫= λ s,
  match first_at (λ fd, bool_decide (ofile s p fd = None)) NOFILE 0 with
  | Some fd => modify (upd_fd p fd (Some f)) ≫= λ _, mret (Some fd)
  | None => mret None
  end.

Definition sys_dup (p : nat) (fd : Z) : K fds unit :=
  argfd p fd ≫= λ o,
  match o with
  | None => mret tt
  | Some (_, f) => fdalloc p f ≫= λ o, match o with None => mret tt | Some fd' => goto p (PDup f fd') end
  end.

Definition sys_close (p : nat) (fd : Z) : K fds unit :=
  argfd p fd ≫= λ o,
  match o with
  | None => mret tt
  | Some (fd, f) => modify (upd_fd p fd None) ≫= λ _, goto p (PClose f CIdle)
  end.

(** sys_open from the point where it has the inode [ip], with a reference. *)
Definition sys_open (p ip : nat) (omode : Z) : K fds unit :=
  gets (λ s, iref s ip) ≫= λ r, modify (upd_iref ip (r + 1)) ≫= λ _, goto p (POpen ip omode).

Definition O_WRONLY : Z := 1.
Definition O_RDWR : Z := 2.

(** What a call does when a file has been closed. *)
Definition resume_call (p : nat) (k : cont) : K fds unit :=
  match k with
  | CIdle => goto p PIdle
  | CPut ip => goto p (PPut ip)
  | CClose f => goto p (PClose f CIdle)
  | CExit fd => modify (upd_fd p fd None) ≫= λ _, goto p (PExit (S fd))
  end.

(** sys_open: the file, the descriptor, and the assignments. *)
Definition open_file (p ip : nat) (omode : Z) : K fds unit :=
  filealloc ≫= λ o, match o with None => goto p (PPut ip) | Some f => goto p (POpenFd ip f omode) end.
Definition open_fd (p ip f : nat) (omode : Z) : K fds unit :=
  fdalloc p f ≫= λ o, match o with None => goto p (PClose f (CPut ip)) | Some _ => goto p (POpenSet ip f omode) end.
Definition open_set (p ip f : nat) (omode : Z) : K fds unit :=
  modify (upd_file f (set_inode ip (negb (truth (Z.land omode O_WRONLY)))
                                   (truth (Z.land omode O_WRONLY) || truth (Z.land omode O_RDWR)))) ≫= λ _, goto p PIdle.

(** pipealloc: the two files, and the pipe. *)
Definition pipealloc_rf (p : nat) : K fds unit :=
  filealloc ≫= λ o, match o with None => goto p PIdle | Some rf => goto p (PPipe2 rf) end.
Definition pipealloc_wf (p rf : nat) : K fds unit :=
  filealloc ≫= λ o, match o with None => goto p (PClose rf CIdle) | Some wf => goto p (PPipe3 rf wf) end.
Definition pipealloc_page (kalloc_page : option nat) (p rf wf : nat) : K fds unit :=
  match kalloc_page with
  | None => goto p (PClose rf (CClose wf))
  | Some k =>
      modify (upd_end k false true) ≫= λ _, modify (upd_end k true true) ≫= λ _,
      modify (upd_file rf (set_pipe k false)) ≫= λ _, modify (upd_file wf (set_pipe k true)) ≫= λ _,
      goto p (PPipe4 rf wf)
  end.
(** sys_pipe after pipealloc. *)
Definition sys_pipe_fds (p rf wf : nat) : K fds unit :=
  fdalloc p rf ≫= λ o,
  match o with
  | None => goto p (PClose rf (CClose wf))
  | Some fd0 => fdalloc p wf ≫= λ o,
      match o with
      | None => modify (upd_fd p fd0 None) ≫= λ _, goto p (PClose rf (CClose wf))
      | Some _ => goto p PIdle
      end
  end.

(** One turn of the loops over the descriptors of fork and of exit. *)
Definition fork_files (p q fd : nat) : K fds unit :=
  get ≫= λ s,
  if (fd <? NOFILE)%nat then
    match ofile s p fd with
    | None => goto p (PFork q (S fd))
    | Some f => filedup f ≫= λ _, modify (upd_fd q fd (Some f)) ≫= λ _, goto p (PFork q (S fd))
    end
  else goto q PIdle ≫= λ _, goto p PIdle.
Definition exit_files (p fd : nat) : K fds unit :=
  get ≫= λ s,
  if (fd <? NOFILE)%nat then
    match ofile s p fd with None => goto p (PExit (S fd)) | Some f => goto p (PClose f (CExit fd)) end
  else goto p PUnused.

(** The next section of process [p]. [kalloc_page] is the page that kalloc returns, if any. *)
Definition advance (kalloc_page : option nat) (p : nat) : K fds unit :=
  gets (λ s, pcs s p) ≫= λ c,
  match c with
  | PUnused | PEmbryo | PIdle => mret tt
  | PDup f _ => filedup f ≫= λ _, goto p PIdle
  | PClose f k => fileclose f ≫= λ o, match o with None => resume_call p k | Some ff => goto p (PRel ff k) end
  | PRel ff k => fileclose_end ff ≫= λ _, resume_call p k
  | POpen ip omode => open_file p ip omode
  | POpenFd ip f omode => open_fd p ip f omode
  | POpenSet ip f omode => open_set p ip f omode
  | PPut ip => drop_iref ip ≫= λ _, goto p PIdle
  | PPipe1 => pipealloc_rf p
  | PPipe2 rf => pipealloc_wf p rf
  | PPipe3 rf wf => pipealloc_page kalloc_page p rf wf
  | PPipe4 rf wf => sys_pipe_fds p rf wf
  | PFork q fd => fork_files p q fd
  | PExit fd => exit_files p fd
  end.

(** The calls a process makes when it is not in one of them. *)
Inductive fcall := FDup (fd : Z) | FClose (fd : Z) | FOpen (ip : nat) (omode : Z) | FPipe | FFork (q : nat) | FExit.
Definition begin_call (p : nat) (c : fcall) : K fds unit :=
  match c with
  | FDup fd => sys_dup p fd
  | FClose fd => sys_close p fd
  | FOpen ip omode => sys_open p ip omode
  | FPipe => goto p PPipe1
  | FFork q => goto q PEmbryo ≫= λ _, goto p (PFork q 0)
  | FExit => goto p (PExit 0)
  end.

(** Any process takes a step. allocproc gives fork a free slot, and kalloc gives
    pipealloc a page that is not in use. *)
Inductive fstep : relation fds :=
  | fstep_call p c s s' :
      (p < NPROC)%nat → pcs s p = PIdle → (∀ q, c = FFork q → (q < NPROC)%nat ∧ pcs s q = PUnused) →
      begin_call p c s = Ret tt s' → fstep s s'
  | fstep_go p o s s' :
      (p < NPROC)%nat → (∀ k, o = Some k → ends s k false = false ∧ ends s k true = false) →
      advance o p s = Ret tt s' → fstep s s'.

Definition fds_init : fds :=
  {| ftab := λ _, file_zero; ofile := λ _ _, None; pcs := λ p, if decide (p = O) then PIdle else PUnused;
     iref := λ _, 0; ends := λ _ _, false |}.
