(* ===== verification/Fileinv.v ===== *)
(** The invariant of the open files (File.v): the reference count of a file is the
    number of descriptors and calls that refer to it, and each inode reference and
    each open end of a pipe has one owner. *)

From Stdlib Require Import ZArith Lia.
From stdpp Require Import base tactics numbers functions relations sets strings list.
From S2P Require Import Prelude Procdef File.

#[local] Open Scope Z_scope.

(** * Sums *)

Fixpoint sumn (n : nat) (g : nat → Z) : Z := match n with O => 0 | S k => sumn k g + g k end.
Definition ind (P : Prop) `{Decision P} : Z := if decide P then 1 else 0.

Lemma ind_range (P : Prop) `{Decision P} : 0 ≤ ind P ≤ 1.
Proof. unfold ind. case_decide; lia. Qed.
Lemma ind_true (P : Prop) `{Decision P} : P → ind P = 1.
Proof. unfold ind. by case_decide. Qed.
Lemma ind_false (P : Prop) `{Decision P} : ¬ P → ind P = 0.
Proof. unfold ind. by case_decide. Qed.

Lemma sumn_ext n g h : (∀ i, (i < n)%nat → g i = h i) → sumn n g = sumn n h.
Proof. induction n as [|n IH]; intros H; simpl; [done|]. rewrite IH, H by (intros; try apply H; lia). done. Qed.
Lemma sumn_nonneg n g : (∀ i, (i < n)%nat → 0 ≤ g i) → 0 ≤ sumn n g.
Proof. induction n as [|n IH]; intros H; simpl; [lia|]. specialize (H n ltac:(lia)) as Hn. specialize (IH ltac:(auto)). lia. Qed.
Lemma sumn_ge n g i : (∀ i, (i < n)%nat → 0 ≤ g i) → (i < n)%nat → g i ≤ sumn n g.
Proof.
  induction n as [|n IH]; intros H Hi; [lia|]. simpl. destruct (decide (i = n)) as [->|].
  - pose proof (sumn_nonneg n g ltac:(auto)). lia.
  - specialize (IH ltac:(auto) ltac:(lia)). specialize (H n ltac:(lia)). lia.
Qed.
Lemma sumn_ge2 n g i j : (∀ i, (i < n)%nat → 0 ≤ g i) → (i < n)%nat → (j < n)%nat → i ≠ j → g i + g j ≤ sumn n g.
Proof.
  induction n as [|n IH]; intros H Hi Hj Hne; [lia|]. simpl. specialize (H n ltac:(lia)) as Hn.
  destruct (decide (i = n)) as [->|]; [pose proof (sumn_ge n g j ltac:(auto) ltac:(lia)); lia|].
  destruct (decide (j = n)) as [->|]; [pose proof (sumn_ge n g i ltac:(auto) ltac:(lia)); lia|].
  specialize (IH ltac:(auto) ltac:(lia) ltac:(lia) Hne). lia.
Qed.

Lemma sumn_zero n g : (∀ i, (i < n)%nat → g i = 0) → sumn n g = 0.
Proof. intros H. induction n as [|n IH]; [done|]. cbn. rewrite IH, H by (try lia; auto). done. Qed.
Lemma sumn_one n g : (∀ i, (i < n)%nat → 0 ≤ g i) → 0 < sumn n g → ∃ i, (i < n)%nat ∧ 0 < g i.
Proof.
  intros Hg. induction n as [|n IH]; cbn; [lia|]. intros H. destruct (Z.lt_ge_cases 0 (g n)); [exists n; split; [lia|done]|].
  destruct IH as (i&Hi&?); [auto|specialize (Hg n ltac:(lia)); lia|]. exists i. split; [lia|done].
Qed.

(** The sum after changes at the places of [l]. *)
Definition delta (l : list nat) (g h : nat → Z) : Z := foldr (λ i x, h i - g i + x) 0 l.
Lemma sumn_delta n l g h :
  NoDup l → (∀ i, i ∈ l → (i < n)%nat) → (∀ i, (i < n)%nat → i ∉ l → h i = g i) → sumn n h = sumn n g + delta l g h.
Proof.
  revert g. induction l as [|a l IH]; intros g Hd Hl Hout; simpl.
  - rewrite (sumn_ext n h g); [lia|]. intros i Hi. apply Hout; [done|by intros ?%elem_of_nil].
  - apply NoDup_cons in Hd as [Ha Hd]. set (g' := <[a := h a]> g).
    rewrite (IH g'); [|done|intros i Hi; apply Hl; by right|].
    + assert (sumn n g' = sumn n g + (h a - g a)) as ->.
      { assert (Han : (a < n)%nat) by (apply Hl; left). clear -Han. unfold g'. induction n as [|n IH]; [lia|]. simpl.
        destruct (decide (a = n)) as [->|].
        - rewrite fn_lookup_insert. rewrite (sumn_ext n _ g); [lia|]. intros i Hi. rewrite fn_lookup_insert_ne by lia. done.
        - rewrite IH, fn_lookup_insert_ne by lia. lia. }
      assert (delta l g' h = delta l g h) as ->; [|lia]. clear -Ha. unfold g'. induction l as [|b l IH]; simpl; [done|].
      apply not_elem_of_cons in Ha as [Hne Ha]. rewrite IH by done. by rewrite fn_lookup_insert_ne by done.
    + intros i Hi Hni. unfold g'. destruct (decide (a = i)) as [->|Hne]; [by rewrite fn_lookup_insert|].
      rewrite fn_lookup_insert_ne by done. apply Hout; [done|]. apply not_elem_of_cons. auto.
Qed.

(** * Who refers to a file, an inode, an end of a pipe *)

(** Descriptors of the table [o] for file [f]. *)
Definition cnt (o : nat → option nat) (f : nat) : Z := sumn NOFILE (λ fd, ind (o fd = Some f)).

Definition owes_k (o : nat → option nat) (k : cont) (f : nat) : Z :=
  match k with CIdle | CPut _ => 0 | CClose f' => ind (f' = f) | CExit fd => - ind (o fd = Some f) end.
(** The references of a call beyond the descriptors of its process. *)
Definition owes (o : nat → option nat) (c : pc) (f : nat) : Z :=
  match c with
  | PDup f' _ => - ind (f' = f)
  | PClose f' k => ind (f' = f) + owes_k o k f
  | PRel _ k => owes_k o k f
  | POpenFd _ f' _ | PPipe2 f' => ind (f' = f)
  | PPipe3 rf wf | PPipe4 rf wf => ind (rf = f) + ind (wf = f)
  | _ => 0
  end.
Definition con (s : fds) (f p : nat) : Z := cnt (ofile s p) f + owes (ofile s p) (pcs s p) f.

Definition holds_k (k : cont) (ip : nat) : Z := match k with CPut ip' => ind (ip' = ip) | _ => 0 end.
Definition is_inode (ip : nat) (x : file) : Z := ind (f_type x = FD_INODE ∧ f_ip x = ip).
Definition holds (ip : nat) (c : pc) : Z :=
  match c with
  | POpen ip' _ | POpenFd ip' _ _ | POpenSet ip' _ _ | PPut ip' => ind (ip' = ip)
  | PClose _ k => holds_k k ip
  | PRel ff k => is_inode ip ff + holds_k k ip
  | _ => 0
  end.
Definition is_end (k : nat) (w : bool) (x : file) : Z := ind (f_type x = FD_PIPE ∧ f_pipe x = k ∧ f_writable x = w).
Definition closes (k : nat) (w : bool) (c : pc) : Z := match c with PRel ff _ => is_end k w ff | _ => 0 end.

(** A file that only its call knows of. *)
Definition fresh (s : fds) (f : nat) : Prop := (f < NFILE)%nat ∧ f_ref (ftab s f) = 1 ∧ f_type (ftab s f) = FD_NONE.

Definition k_ok (s : fds) (p : nat) (k : cont) : Prop :=
  match k with
  | CClose f => (f < NFILE)%nat
  | CExit fd => (fd < NOFILE)%nat ∧ ∀ j, (j < fd)%nat → ofile s p j = None
  | _ => True
  end.
Definition pc_ok (s : fds) (p : nat) : Prop :=
  match pcs s p with
  | PUnused => ∀ fd, (fd < NOFILE)%nat → ofile s p fd = None
  | PDup f _ => (f < NFILE)%nat ∧ 2 ≤ cnt (ofile s p) f
  | PClose f k => (f < NFILE)%nat ∧ k_ok s p k ∧ ∀ fd, k = CExit fd → ofile s p fd = Some f
  | PRel _ k => k_ok s p k
  | POpenFd _ f _ | PPipe2 f => fresh s f
  | POpenSet _ f _ => fresh s f ∧ 1 ≤ cnt (ofile s p) f
  | PPipe3 rf wf => fresh s rf ∧ fresh s wf ∧ rf ≠ wf
  | PPipe4 rf wf => (rf < NFILE)%nat ∧ (wf < NFILE)%nat
  | PFork q fd => q ≠ p ∧ (q < NPROC)%nat ∧ pcs s q = PEmbryo ∧ ∀ j, (fd ≤ j < NOFILE)%nat → ofile s q j = None
  | PExit fd => ∀ j, (j < fd)%nat → ofile s p j = None
  | _ => True
  end.

Record files_ok (s : fds) : Prop := {
  fo_ref f : (f < NFILE)%nat → f_ref (ftab s f) = sumn NPROC (con s f);
  fo_none f : (f < NFILE)%nat → f_ref (ftab s f) = 0 → f_type (ftab s f) = FD_NONE;
  fo_range p fd f : (p < NPROC)%nat → ofile s p fd = Some f → (f < NFILE)%nat;
  fo_pc p : (p < NPROC)%nat → pc_ok s p;
  fo_fork p p' q fd fd' : (p < NPROC)%nat → (p' < NPROC)%nat → pcs s p = PFork q fd → pcs s p' = PFork q fd' → p = p';
  fo_iref ip : iref s ip = sumn NFILE (λ f, is_inode ip (ftab s f)) + sumn NPROC (λ p, holds ip (pcs s p));
  fo_ends k w : (if ends s k w then 1 else 0) = sumn NFILE (λ f, is_end k w (ftab s f)) + sumn NPROC (λ p, closes k w (pcs s p))
}.

Lemma cnt_nonneg o f : 0 ≤ cnt o f.
Proof. apply sumn_nonneg. intros i _. apply ind_range. Qed.
Lemma cnt_ge o f fd : (fd < NOFILE)%nat → ind (o fd = Some f) ≤ cnt o f.
Proof. intros H. apply (sumn_ge NOFILE (λ i, ind (o i = Some f)) fd); [|done]. intros i _. apply ind_range. Qed.
Lemma cnt_insert o fd x f : (fd < NOFILE)%nat → cnt (<[fd := x]> o) f = cnt o f - ind (o fd = Some f) + ind (x = Some f).
Proof.
  intros H. unfold cnt. rewrite (sumn_delta NOFILE [fd] (λ fd, ind (o fd = Some f))).
  - simpl. rewrite fn_lookup_insert. lia.
  - apply NoDup_singleton.
  - by intros i ->%list_elem_of_singleton.
  - intros i _ Hi. rewrite list_elem_of_singleton in Hi. by rewrite fn_lookup_insert_ne by done.
Qed.

(** A call owes no more than its process has. *)
Lemma con_nonneg s f p : pc_ok s p → 0 ≤ con s f p.
Proof.
  intros Hpc. unfold con, pc_ok in *. pose proof (cnt_nonneg (ofile s p) f) as Hc.
  assert (Hk : ∀ k, k_ok s p k → 0 ≤ cnt (ofile s p) f + owes_k (ofile s p) k f).
  { intros [| |f'|fd] Hk; simpl in *; [lia|lia|pose proof (ind_range (f' = f)); lia|].
    pose proof (cnt_ge (ofile s p) f fd (proj1 Hk)). lia. }
  destruct (pcs s p) as [| | |f' fd'|f' k|ff k|ip om|ip f' om|ip f' om|ip| |rf|rf wf|rf wf|q fd|fd]; simpl in *; try lia.
  - destruct Hpc as [_ Hpc]. unfold ind. case_decide as E; [subst; lia|lia].
  - pose proof (ind_range (f' = f)). destruct Hpc as (_&Hpc&_). specialize (Hk k Hpc). lia.
  - specialize (Hk k Hpc). lia.
  - pose proof (ind_range (f' = f)). lia.
  - pose proof (ind_range (rf = f)). lia.
  - pose proof (ind_range (rf = f)). pose proof (ind_range (wf = f)). lia.
  - pose proof (ind_range (rf = f)). pose proof (ind_range (wf = f)). lia.
Qed.

(** A file with a descriptor, or in a call, has a reference. *)
Lemma con_ref s f p : files_ok s → (p < NPROC)%nat → (f < NFILE)%nat → con s f p ≤ f_ref (ftab s f).
Proof.
  intros Hok Hp Hf. rewrite (fo_ref s Hok f Hf). apply (sumn_ge NPROC (con s f) p); [|done].
  intros i Hi. by apply con_nonneg, fo_pc.
Qed.
(** If it has one only, no one else refers to it. *)
Lemma con_alone s f p p' :
  files_ok s → (p < NPROC)%nat → (p' < NPROC)%nat → (f < NFILE)%nat → f_ref (ftab s f) ≤ con s f p → p' ≠ p → con s f p' = 0.
Proof.
  intros Hok Hp Hp' Hf Hr Hne. assert (Hpos : ∀ i, (i < NPROC)%nat → 0 ≤ con s f i) by (intros i Hi; by apply con_nonneg, fo_pc).
  pose proof (sumn_ge2 NPROC (con s f) p p' Hpos Hp Hp' ltac:(done)). rewrite (fo_ref s Hok f Hf) in Hr. specialize (Hpos p' Hp'). lia.
Qed.

(** The call of a process that has a fresh file refers to it. *)
Definition fresh_in (c : pc) (f : nat) : Prop :=
  match c with
  | POpenFd _ f' _ | PPipe2 f' | POpenSet _ f' _ => f = f'
  | PPipe3 rf wf => f = rf ∨ f = wf
  | _ => False
  end.
Lemma fresh_con s p f : pc_ok s p → fresh_in (pcs s p) f → fresh s f ∧ 1 ≤ con s f p.
Proof.
  unfold con, pc_ok. pose proof (cnt_nonneg (ofile s p) f).
  destruct (pcs s p) as [| | |f' fd'|f' k|ff k|ip om|ip f' om|ip f' om|ip| |rf|rf wf|rf wf|q fd|fd]; simpl; try done.
  - intros Hf ->. split; [done|]. rewrite ind_true by done. lia.
  - intros [Hf ?] ->. split; [done|lia].
  - intros Hf ->. split; [done|]. rewrite ind_true by done. lia.
  - intros (H1&H2&H3) [->| ->]; (split; [done|]); unfold ind; repeat case_decide; try lia; done.
Qed.

(** * Steps keep it *)

(** A step of the processes [ps]: what it has to do to the files it refers to, and
    the counts. *)
Record good_step (s s' : fds) (ps : list nat) : Prop := {
  gs_nodup : NoDup ps;
  gs_bound p : p ∈ ps → (p < NPROC)%nat;
  gs_other p : p ∉ ps → pcs s' p = pcs s p ∧ ofile s' p = ofile s p;
  gs_files f : (f < NFILE)%nat → ftab s' f = ftab s f ∨ f_ref (ftab s f) = 0 ∨ ∃ p, p ∈ ps ∧ 1 ≤ con s f p;
  gs_ref f : (f < NFILE)%nat → f_ref (ftab s' f) = f_ref (ftab s f) + delta ps (con s f) (con s' f);
  gs_none f : (f < NFILE)%nat → f_ref (ftab s' f) = 0 → f_type (ftab s' f) = FD_NONE;
  gs_range p fd f : p ∈ ps → ofile s' p fd = Some f → (f < NFILE)%nat;
  gs_pc p : p ∈ ps → pc_ok s' p;
  gs_fork p q fd : (p < NPROC)%nat → p ∉ ps → pcs s p = PFork q fd → q ∉ ps;
  gs_fork' p p' q fd fd' : p ∈ ps → p' ∈ ps → pcs s' p = PFork q fd → pcs s' p' = PFork q fd' → p = p';
  gs_forked p q fd : p ∈ ps → pcs s' p = PFork q fd → q ∈ ps;
  gs_iref ip : iref s' ip - iref s ip = sumn NFILE (λ f, is_inode ip (ftab s' f)) - sumn NFILE (λ f, is_inode ip (ftab s f)) +
                                         delta ps (λ p, holds ip (pcs s p)) (λ p, holds ip (pcs s' p));
  gs_ends k w : (if ends s' k w then 1 else 0) - (if ends s k w then 1 else 0) =
                sumn NFILE (λ f, is_end k w (ftab s' f)) - sumn NFILE (λ f, is_end k w (ftab s f)) +
                delta ps (λ p, closes k w (pcs s p)) (λ p, closes k w (pcs s' p))
}.

(** The fresh files of the other processes are not touched. *)
Lemma fresh_kept s s' ps p f :
  files_ok s → good_step s s' ps → (p < NPROC)%nat → p ∉ ps → fresh_in (pcs s p) f → fresh s' f.
Proof.
  intros Hok G Hp Hni Hf. destruct (fresh_con s p f (fo_pc s Hok p Hp) Hf) as [(F1&F2&F3) Hc].
  destruct (gs_files _ _ _ G f F1) as [E|[E|(p'&Hp'&Hc')]]; [by split; [|rewrite E]|lia|].
  assert (p' ≠ p) by (intros ->; done).
  pose proof (con_alone s f p p' Hok Hp (gs_bound _ _ _ G p' Hp') F1 ltac:(lia) ltac:(done)). lia.
Qed.

Lemma pc_kept s s' ps p : files_ok s → good_step s s' ps → (p < NPROC)%nat → p ∉ ps → pc_ok s' p.
Proof.
  intros Hok G Hp Hni. pose proof (fo_pc s Hok p Hp) as Hpc. destruct (gs_other _ _ _ G p Hni) as [E1 E2].
  pose proof (fresh_kept s s' ps p) as Hfr. pose proof (gs_fork _ _ _ G p) as Hfk.
  assert (Hk : ∀ k, k_ok s p k → k_ok s' p k) by (intros [| | |fd]; simpl; rewrite ?E2; done).
  unfold pc_ok in *. rewrite E1, E2.
  destruct (pcs s p) as [| | |f' fd'|f' k|ff k|ip om|ip f' om|ip f' om|ip| |rf|rf wf|rf wf|q fd|fd] eqn:Ec; try done.
  - destruct Hpc as (H1&H2&H3). auto.
  - auto.
  - by apply Hfr.
  - destruct Hpc as [_ ?]. split; [by apply Hfr|done].
  - by apply Hfr.
  - destruct Hpc as (_&_&?). split; [apply Hfr; try done; by left|]. split; [apply Hfr; try done; by right|done].
  - destruct Hpc as (H1&H2&H3&H4). specialize (Hfk q fd Hp Hni eq_refl). destruct (gs_other _ _ _ G q Hfk) as [-> ->]. done.
Qed.

Lemma step_ok s s' ps : files_ok s → good_step s s' ps → files_ok s'.
Proof.
  intros Hok G. split.
  - intros f Hf. rewrite (gs_ref _ _ _ G f Hf), (fo_ref s Hok f Hf). symmetry. apply sumn_delta.
    + apply G.
    + apply (gs_bound _ _ _ G).
    + intros i _ Hi. destruct (gs_other _ _ _ G i Hi) as [E1 E2]. unfold con. by rewrite E1, E2.
  - apply (gs_none _ _ _ G).
  - intros p fd f Hp Hfd. destruct (decide (p ∈ ps)) as [Hi|Hi]; [by eapply (gs_range _ _ _ G)|].
    destruct (gs_other _ _ _ G p Hi) as [_ E]. rewrite E in Hfd. by eapply (fo_range s Hok).
  - intros p Hp. destruct (decide (p ∈ ps)) as [Hi|Hi]; [by apply (gs_pc _ _ _ G)|by eapply pc_kept].
  - intros p p' q fd fd' Hp Hp' H1 H2. destruct (decide (p ∈ ps)) as [Hi|Hi], (decide (p' ∈ ps)) as [Hi'|Hi'].
    + by eapply (gs_fork' _ _ _ G).
    + pose proof (gs_forked _ _ _ G p q fd Hi H1) as Hq. destruct (gs_other _ _ _ G p' Hi') as [E _]. rewrite E in H2.
      by destruct (gs_fork _ _ _ G p' q fd' Hp' Hi' H2).
    + pose proof (gs_forked _ _ _ G p' q fd' Hi' H2) as Hq. destruct (gs_other _ _ _ G p Hi) as [E _]. rewrite E in H1.
      by destruct (gs_fork _ _ _ G p q fd Hp Hi H1).
    + destruct (gs_other _ _ _ G p Hi) as [E _], (gs_other _ _ _ G p' Hi') as [E' _]. rewrite E in H1. rewrite E' in H2.
      by eapply (fo_fork s Hok p p' q fd fd').
  - intros ip. pose proof (gs_iref _ _ _ G ip) as H. pose proof (fo_iref s Hok ip).
    rewrite (sumn_delta NPROC ps (λ p, holds ip (pcs s p))); [lia|apply G|apply (gs_bound _ _ _ G)|].
    intros i _ Hi. by destruct (gs_other _ _ _ G i Hi) as [-> _].
  - intros k w. pose proof (gs_ends _ _ _ G k w) as H. pose proof (fo_ends s Hok k w).
    rewrite (sumn_delta NPROC ps (λ p, closes k w (pcs s p))); [lia|apply G|apply (gs_bound _ _ _ G)|].
    intros i _ Hi. by destruct (gs_other _ _ _ G i Hi) as [-> _].
Qed.

(** A step of process [p] that changes the files [fl]. *)
Lemma step_one s s' p fl :
  files_ok s → (p < NPROC)%nat → pcs s p ≠ PEmbryo → (∀ q fd, pcs s' p ≠ PFork q fd) →
  (∀ p', p' ≠ p → pcs s' p' = pcs s p' ∧ ofile s' p' = ofile s p') →
  NoDup fl → (∀ f, f ∈ fl → (f < NFILE)%nat ∧ (f_ref (ftab s f) = 0 ∨ 1 ≤ con s f p) ∧ (f_ref (ftab s' f) = 0 → f_type (ftab s' f) = FD_NONE)) →
  (∀ f, f ∉ fl → ftab s' f = ftab s f) →
  (∀ f, (f < NFILE)%nat → f_ref (ftab s' f) - con s' f p = f_ref (ftab s f) - con s f p) →
  (∀ fd f, ofile s' p fd = Some f → (f < NFILE)%nat) → pc_ok s' p →
  (∀ ip, iref s' ip - holds ip (pcs s' p) = iref s ip - holds ip (pcs s p) + delta fl (λ f, is_inode ip (ftab s f)) (λ f, is_inode ip (ftab s' f))) →
  (∀ k w, (if ends s' k w then 1 else 0) - closes k w (pcs s' p) = (if ends s k w then 1 else 0) - closes k w (pcs s p) +
            delta fl (λ f, is_end k w (ftab s f)) (λ f, is_end k w (ftab s' f))) →
  files_ok s'.
Proof.
  intros Hok Hp Hemb Hnf Hoth Hnd Hfl Hout Href Hrange Hpc Hi He. apply (step_ok s s' [p] Hok).
  split; try (intros ? ->%list_elem_of_singleton); try done.
  - apply NoDup_singleton.
  - intros p' Hni. rewrite list_elem_of_singleton in Hni. auto.
  - intros f Hf. destruct (decide (f ∈ fl)) as [Hin|Hni]; [|left; by apply Hout].
    destruct (Hfl f Hin) as (_&[?|?]&_); [by right; left|right; right]. exists p. by rewrite list_elem_of_singleton.
  - intros f Hf. specialize (Href f Hf). simpl. lia.
  - intros f Hf Hz. destruct (decide (f ∈ fl)) as [Hin|Hni]; [by apply (Hfl f Hin)|]. rewrite Hout in * by done. by apply (fo_none s Hok).
  - intros p' fd f ->%list_elem_of_singleton. apply Hrange.
  - intros p' q fd Hp' Hni Hpc' ->%list_elem_of_singleton. pose proof (fo_pc s Hok p' Hp') as H. unfold pc_ok in H. rewrite Hpc' in H. by destruct H as (_&_&?&_).
  - intros p' p'' q fd fd' ->%list_elem_of_singleton _ H. by destruct (Hnf q fd).
  - intros p' q fd ->%list_elem_of_singleton H. by destruct (Hnf q fd).
  - intros ip. rewrite (sumn_delta NFILE fl (λ f, is_inode ip (ftab s f))); [|done|by apply Hfl|intros f _ Hni; by rewrite Hout].
    specialize (Hi ip). simpl. lia.
  - intros k w. rewrite (sumn_delta NFILE fl (λ f, is_end k w (ftab s f))); [|done|by apply Hfl|intros f _ Hni; by rewrite Hout].
    specialize (He k w). simpl. lia.
Qed.

(** The other processes, and the parts of the state that belong to no process. *)
Definition moves (s s' : fds) (p : nat) (c : pc) : Prop :=
  pcs s' = <[p := c]> (pcs s) ∧ (∀ p', p' ≠ p → ofile s' p' = ofile s p').
Definition same_objects (s s' : fds) : Prop := iref s' = iref s ∧ ends s' = ends s.

(** A step that changes file [f] to [x], the table of [p] and its place in the call. *)
Lemma step_file s s' p c f x :
  files_ok s → (p < NPROC)%nat → pcs s p ≠ PEmbryo → (∀ q fd, c ≠ PFork q fd) → moves s s' p c → same_objects s s' →
  ftab s' f = x → (∀ f', f' ≠ f → ftab s' f' = ftab s f') → (f < NFILE)%nat →
  (f_ref (ftab s f) = 0 ∨ 1 ≤ con s f p) → (f_ref x = 0 → f_type x = FD_NONE) →
  (∀ f', (f' < NFILE)%nat → cnt (ofile s' p) f' + owes (ofile s' p) c f' - con s f' p = (if decide (f' = f) then f_ref x - f_ref (ftab s f) else 0)) →
  (∀ fd f', ofile s' p fd = Some f' → (f' < NFILE)%nat) → pc_ok s' p →
  (∀ ip, holds ip c - holds ip (pcs s p) = is_inode ip (ftab s f) - is_inode ip x) →
  (∀ k w, closes k w c - closes k w (pcs s p) = is_end k w (ftab s f) - is_end k w x) → files_ok s'.
Proof.
  intros Hok Hp Hemb Hnf [M1 M2] [O1 O2] Hx Hout Hf Hown Hnone Hcon Hrange Hpc Hi He.
  assert (Ec : pcs s' p = c) by (rewrite M1; apply fn_lookup_insert).
  apply (step_one s s' p [f]); try done.
  - by rewrite Ec.
  - intros p' Hne. split; [by rewrite M1, fn_lookup_insert_ne|by apply M2].
  - apply NoDup_singleton.
  - intros f' ->%list_elem_of_singleton. by rewrite Hx.
  - intros f' Hni. rewrite list_elem_of_singleton in Hni. by apply Hout.
  - intros f' Hf'. specialize (Hcon f' Hf'). unfold con at 1. rewrite Ec. case_decide as E; [subst f'; rewrite Hx; lia|].
    rewrite Hout by done. lia.
  - intros ip. specialize (Hi ip). rewrite Ec, O1. simpl. rewrite Hx. lia.
  - intros k w. specialize (He k w). rewrite Ec, O2. simpl. rewrite Hx. lia.
Qed.

(** ... its table and its place only. *)
Lemma step_table s s' p c :
  files_ok s → (p < NPROC)%nat → pcs s p ≠ PEmbryo → (∀ q fd, c ≠ PFork q fd) → moves s s' p c → same_objects s s' → ftab s' = ftab s →
  (∀ f, (f < NFILE)%nat → cnt (ofile s' p) f + owes (ofile s' p) c f = con s f p) →
  (∀ fd f, ofile s' p fd = Some f → (f < NFILE)%nat) → pc_ok s' p →
  (∀ ip, holds ip c = holds ip (pcs s p)) → (∀ k w, closes k w c = closes k w (pcs s p)) → files_ok s'.
Proof.
  intros Hok Hp Hemb Hnf [M1 M2] [O1 O2] Ht Hcon Hrange Hpc Hi He.
  assert (Ec : pcs s' p = c) by (rewrite M1; apply fn_lookup_insert).
  apply (step_one s s' p []); try done.
  - by rewrite Ec.
  - intros p' Hne. split; [by rewrite M1, fn_lookup_insert_ne|by apply M2].
  - apply NoDup_nil_2.
  - by intros f ?%elem_of_nil.
  - intros f _. by rewrite Ht.
  - intros f Hf. unfold con at 1. rewrite Ec, (Hcon f Hf), Ht. done.
  - intros ip. rewrite Ec, Hi, O1. simpl. lia.
  - intros k w. rewrite Ec, He, O2. simpl. lia.
Qed.

(** * The routines *)

Lemma first_at_spec P n i j : first_at P n i = Some j → (i ≤ j < i + n)%nat ∧ P j = true.
Proof.
  revert i. induction n as [|n IH]; intros i; simpl; [done|]. destruct (P i) eqn:E; [intros [= <-]; split; [lia|done]|].
  intros H. destruct (IH (S i) H). split; [lia|done].
Qed.

Lemma wp_filealloc s (Q : option nat → fds → Prop) :
  (∀ f, (f < NFILE)%nat → f_ref (ftab s f) = 0 → Q (Some f) (upd_file f (set_ref 1) s)) → Q None s → wp filealloc s Q.
Proof.
  intros H1 H2. unfold filealloc. apply wp_bind. unfold wp at 1, get. destruct (first_at _ NFILE 0) as [f|] eqn:E; [|done].
  apply first_at_spec in E as [Hf Hr]. apply Z.eqb_eq in Hr. apply H1; [lia|done].
Qed.
Lemma wp_fdalloc p f s (Q : option nat → fds → Prop) :
  (∀ fd, (fd < NOFILE)%nat → ofile s p fd = None → Q (Some fd) (upd_fd p fd (Some f) s)) → Q None s → wp (fdalloc p f) s Q.
Proof.
  intros H1 H2. unfold fdalloc. apply wp_bind. unfold wp at 1, get. destruct (first_at _ NOFILE 0) as [fd|] eqn:E; [|done].
  apply first_at_spec in E as [Hf Hr]. apply bool_decide_eq_true in Hr. apply H1; [lia|done].
Qed.
Lemma wp_filedup f s (Q : unit → fds → Prop) :
  1 ≤ f_ref (ftab s f) → Q tt (upd_file f (set_ref (f_ref (ftab s f) + 1)) s) → wp (filedup f) s Q.
Proof.
  intros H1 H2. unfold filedup. apply wp_bind. unfold wp at 1, gets. rewrite (proj2 (Z.ltb_ge _ _)) by done. exact H2.
Qed.

(** Only file [f] has changed. *)
Definition only_file (s s' : fds) (f : nat) (x : file) : Prop :=
  ftab s' f = x ∧ (∀ f', f' ≠ f → ftab s' f' = ftab s f') ∧ ofile s' = ofile s ∧ pcs s' = pcs s ∧ same_objects s s'.

Lemma wp_fileclose f s (Q : option file → fds → Prop) :
  1 ≤ f_ref (ftab s f) →
  (1 < f_ref (ftab s f) → ∀ s', only_file s s' f (set_ref (f_ref (ftab s f) - 1) (ftab s f)) → Q None s') →
  (f_ref (ftab s f) = 1 → ∀ s', only_file s s' f (set_ftype FD_NONE (set_ref 0 (ftab s f))) → Q (Some (set_ref 0 (ftab s f))) s') →
  wp (fileclose f) s Q.
Proof.
  intros H1 H2 H3. unfold fileclose. apply wp_bind. unfold wp at 1, gets. rewrite (proj2 (Z.ltb_ge _ _)) by done.
  apply wp_bind. unfold wp at 1, modify. destruct (Z.ltb_spec 0 (f_ref (ftab s f) - 1)).
  - apply wp_ret, H2; [lia|]. unfold only_file, upd_file. cbn [ftab ofile pcs iref ends]. rewrite fn_lookup_insert.
    split; [done|]. split; [intros; by rewrite fn_lookup_insert_ne|]. by split.
  - assert (E : f_ref (ftab s f) = 1) by lia. rewrite E. unfold wp, mbind, K_bind, gets, modify, mret, K_ret, upd_file. cbn [ftab ofile pcs iref ends].
    rewrite !fn_lookup_insert. simpl. apply H3; [done|]. unfold only_file. cbn [ftab ofile pcs iref ends]. rewrite fn_lookup_insert.
    split; [done|]. split; [intros; by rewrite !fn_lookup_insert_ne|]. by split.
Qed.

Lemma is_inode_ref ip r x : is_inode ip (set_ref r x) = is_inode ip x.
Proof. done. Qed.
Lemma is_inode_none ip x : f_type x = FD_NONE → is_inode ip x = 0.
Proof. intros H. apply ind_false. rewrite H. by intros [? _]. Qed.
Lemma is_end_none k w x : f_type x = FD_NONE → is_end k w x = 0.
Proof. intros H. apply ind_false. rewrite H. by intros [? _]. Qed.
