(* ===== verification/Fileprops.v ===== *)
(** The routines of File.v keep the invariant of Fileinv.v and never panic. *)

From Stdlib Require Import ZArith Lia.
From stdpp Require Import base tactics numbers functions relations sets strings list.
From S2P Require Import Prelude Procdef File Fileinv.

#[local] Open Scope Z_scope.
#[local] Opaque sumn NFILE NPROC NOFILE.

(** The fields of a state after assignments. *)
Ltac fields := unfold goto, upd_pc, upd_fd, upd_file, upd_iref, upd_end; cbn [ftab ofile pcs iref ends].
(** The values of the indicator sums. *)
Ltac inds := unfold ind; repeat case_decide; simplify_eq; try lia; try done.

Lemma moves_pc s p c : moves s (upd_pc p c s) p c.
Proof. by split. Qed.
Lemma moves_fd s p fd o c : moves s (upd_pc p c (upd_fd p fd o s)) p c.
Proof. split; [done|]. intros p' Hne. fields. by rewrite fn_lookup_insert_ne. Qed.
Lemma objects_same s p c fd o : same_objects s (upd_pc p c (upd_fd p fd o s)) ∧ same_objects s (upd_pc p c s).
Proof. done. Qed.

(** Going on to [c], which refers to the same files and objects. *)
Lemma ok_goto s p c :
  files_ok s → (p < NPROC)%nat → pcs s p ≠ PEmbryo → (∀ q fd, c ≠ PFork q fd) →
  (∀ f, (f < NFILE)%nat → owes (ofile s p) c f = owes (ofile s p) (pcs s p) f) → pc_ok (upd_pc p c s) p →
  (∀ ip, holds ip c = holds ip (pcs s p)) → (∀ k w, closes k w c = closes k w (pcs s p)) → files_ok (upd_pc p c s).
Proof.
  intros Hok Hp Hemb Hnf Ho Hpc Hi He. eapply (step_table s _ p c); try done.
  - intros f Hf. cbn [upd_pc ofile]. rewrite (Ho f Hf). done.
  - intros fd f. by apply (fo_range s Hok).
Qed.

(** ... and changing descriptor [fd] to [o]. *)
Lemma ok_goto_fd s p c fd o :
  files_ok s → (p < NPROC)%nat → pcs s p ≠ PEmbryo → (∀ q fd, c ≠ PFork q fd) → (fd < NOFILE)%nat →
  (∀ f, (f < NFILE)%nat → owes (<[fd := o]> (ofile s p)) c f - owes (ofile s p) (pcs s p) f = ind (ofile s p fd = Some f) - ind (o = Some f)) →
  (∀ f, o = Some f → (f < NFILE)%nat) → pc_ok (upd_pc p c (upd_fd p fd o s)) p →
  (∀ ip, holds ip c = holds ip (pcs s p)) → (∀ k w, closes k w c = closes k w (pcs s p)) → files_ok (upd_pc p c (upd_fd p fd o s)).
Proof.
  intros Hok Hp Hemb Hnf Hfd Ho Hr Hpc Hi He. eapply (step_table s _ p c); try done.
  - apply moves_fd.
  - intros f Hf. fields. rewrite fn_lookup_insert, cnt_insert by done. unfold con. specialize (Ho f Hf). lia.
  - intros fd' f. fields. rewrite fn_lookup_insert. destruct (decide (fd = fd')) as [->|Hne]; [rewrite fn_lookup_insert; apply Hr|].
    rewrite fn_lookup_insert_ne by done. by apply (fo_range s Hok).
Qed.

Section call.
Context (s : fds) (p : nat) (Hok : files_ok s) (Hp : (p < NPROC)%nat) (Hidle : pcs s p = PIdle).

Lemma argfd_run fd : ∃ o, argfd p fd s = Ret o s ∧ ∀ k f, o = Some (k, f) → (k < NOFILE)%nat ∧ ofile s p k = Some f ∧ (f < NFILE)%nat.
Proof.
  unfold argfd, mbind, K_bind, get. eexists. split; [done|]. intros k f. destruct (Z.ltb_spec fd 0); [done|].
  destruct (Z.leb_spec (Z.of_nat NOFILE) fd); [done|]. cbn [orb]. destruct (ofile s p (Z.to_nat fd)) as [f'|] eqn:E; [|done].
  intros [= <- <-]. split; [lia|]. split; [done|]. by eapply (fo_range s Hok).
Qed.

Lemma ok_dup fd : wp (sys_dup p fd) s (λ _ s', files_ok s').
Proof.
  destruct (argfd_run fd) as (o&E&Ho). unfold sys_dup. apply wp_bind. unfold wp at 1. rewrite E.
  destruct o as [[k f]|]; [|done]. destruct (Ho k f eq_refl) as (Hk&Hkf&Hf). apply wp_bind. apply wp_fdalloc; [|done].
  intros fd' Hfd Hn. unfold wp, goto, modify. apply ok_goto_fd; try done; rewrite ?Hidle; try done.
  - intros f' Hf'. simpl. rewrite Hn. inds.
  - by intros f' [= <-].
  - unfold pc_ok. fields. rewrite !fn_lookup_insert. split; [done|]. rewrite cnt_insert by done. rewrite Hn.
    assert (k ≠ fd') by congruence. pose proof (cnt_ge (ofile s p) f k Hk) as Hc. revert Hc. inds.
Qed.

Lemma ok_close fd : wp (sys_close p fd) s (λ _ s', files_ok s').
Proof.
  destruct (argfd_run fd) as (o&E&Ho). unfold sys_close. apply wp_bind. unfold wp at 1. rewrite E.
  destruct o as [[k f]|]; [|done]. destruct (Ho k f eq_refl) as (Hk&Hkf&Hf). unfold wp, goto, mbind, K_bind, modify.
  apply ok_goto_fd; try done; rewrite ?Hidle; try done.
  - intros f' Hf'. simpl. rewrite Hkf. inds.
  - unfold pc_ok. fields. rewrite !fn_lookup_insert. done.
Qed.

Lemma ok_open ip om : wp (sys_open p ip om) s (λ _ s', files_ok s').
Proof.
  unfold sys_open, wp, goto, mbind, K_bind, gets, modify. eapply (step_one s _ p []); try done; fields; rewrite ?Hidle, ?fn_lookup_insert; try done.
  - intros p' Hne. by rewrite fn_lookup_insert_ne.
  - apply NoDup_nil_2.
  - by intros f ?%elem_of_nil.
  - intros f Hf. unfold con. cbn [ofile pcs]. by rewrite fn_lookup_insert, Hidle.
  - intros fd f. by apply (fo_range s Hok).
  - unfold pc_ok. cbn [pcs]. by rewrite fn_lookup_insert.
  - intros ip'. simpl. destruct (decide (ip = ip')) as [->|Hne].
    + rewrite fn_lookup_insert. inds.
    + rewrite fn_lookup_insert_ne by done. inds.
  - intros k w. simpl. lia.
Qed.

Lemma ok_simple c : c = PPipe1 ∨ c = PExit 0 → wp (goto p c) s (λ _ s', files_ok s').
Proof.
  intros Hc. unfold wp, goto, modify. apply ok_goto; rewrite ?Hidle; try done; [by destruct Hc as [->| ->]..| |by destruct Hc as [->| ->]|by destruct Hc as [->| ->]].
  unfold pc_ok. fields. rewrite fn_lookup_insert. destruct Hc as [->| ->]; [done|]. intros j Hj. lia.
Qed.
End call.

(** ** What follows the closing of a file *)

Definition resume_pc (k : cont) : pc :=
  match k with CIdle => PIdle | CPut ip => PPut ip | CClose f => PClose f CIdle | CExit fd => PExit (S fd) end.

Lemma wp_resume s s1 p k (Q : unit → fds → Prop) :
  files_ok s → (p < NPROC)%nat → k_ok s p k → ofile s1 = ofile s → pcs s1 = pcs s →
  (∀ s', moves s s' p (resume_pc k) → ftab s' = ftab s1 → iref s' = iref s1 → ends s' = ends s1 →
     (∀ f, cnt (ofile s' p) f + owes (ofile s' p) (resume_pc k) f = cnt (ofile s p) f + owes_k (ofile s p) k f) →
     (∀ fd f, ofile s' p fd = Some f → (f < NFILE)%nat) → pc_ok s' p → Q tt s') →
  wp (resume_call p k) s1 Q.
Proof.
  intros Hok Hp Hk Eo Ep HQ. assert (Hr : ∀ fd f, ofile s p fd = Some f → (f < NFILE)%nat) by (intros fd f; by apply (fo_range s Hok)).
  destruct k as [|ip|f|fd]; unfold wp, resume_call, goto, mbind, K_bind, modify; apply HQ; fields; rewrite ?Eo, ?Ep; try done;
    unfold pc_ok, moves; cbn [ftab ofile pcs iref ends]; rewrite ?fn_lookup_insert; try done; try (intros; simpl; lia).
  - split; [done|]. intros p' Hne. by rewrite fn_lookup_insert_ne.
  - intros f. simpl. rewrite cnt_insert by apply Hk. inds.
  - intros fd' f. destruct (decide (fd = fd')) as [->|Hne]; [by rewrite fn_lookup_insert|]. rewrite fn_lookup_insert_ne by done. apply Hr.
  - intros j Hj. destruct (decide (fd = j)) as [->|Hne]; [by rewrite fn_lookup_insert|]. rewrite fn_lookup_insert_ne by done. apply Hk. lia.
Qed.

Lemma resume_holds k ip : holds ip (resume_pc k) = holds_k k ip.
Proof. by destruct k. Qed.
Lemma resume_closes k x w : closes x w (resume_pc k) = 0.
Proof. by destruct k. Qed.
Lemma resume_nofork k q fd : resume_pc k ≠ PFork q fd.
Proof. by destruct k. Qed.

Section advance.
Context (s : fds) (p : nat) (Hok : files_ok s) (Hp : (p < NPROC)%nat).
Let Hpc : pc_ok s p := fo_pc s Hok p Hp.
Abbreviation kept := (λ (_ : unit) s', files_ok s').

Lemma range_p fd f : ofile s p fd = Some f → (f < NFILE)%nat.
Proof. by apply (fo_range s Hok). Qed.

Lemma ok_PDup f fd : pcs s p = PDup f fd → wp (filedup f ≫= λ _, goto p PIdle) s kept.
Proof.
  intros Ec. pose proof Hpc as H. unfold pc_ok in H. rewrite Ec in H. destruct H as [Hf Hc].
  assert (Hcon : 1 ≤ con s f p) by (unfold con; rewrite Ec; simpl; inds).
  pose proof (con_ref s f p Hok Hp Hf). apply wp_bind. apply wp_filedup; [lia|]. unfold wp, goto, modify.
  eapply (step_file s _ p PIdle f (set_ref (f_ref (ftab s f) + 1) (ftab s f))); rewrite ?Ec; try done; fields.
  - by rewrite fn_lookup_insert.
  - intros f' Hne. by rewrite fn_lookup_insert_ne.
  - auto.
  - simpl. lia.
  - intros f' Hf'. unfold con. rewrite Ec. simpl. inds.
  - intros fd'. apply range_p.
  - unfold pc_ok. cbn [pcs]. by rewrite fn_lookup_insert.
  - intros ip. rewrite is_inode_ref. simpl. lia.
  - intros k w. simpl. unfold is_end. simpl. lia.
Qed.

Lemma ok_PClose f k : pcs s p = PClose f k →
  wp (fileclose f ≫= λ o, match o with None => resume_call p k | Some ff => goto p (PRel ff k) end) s kept.
Proof.
  intros Ec. pose proof Hpc as H. unfold pc_ok in H. rewrite Ec in H. destruct H as (Hf&Hk&Hex).
  assert (Hcon : 1 ≤ con s f p).
  { pose proof (cnt_nonneg (ofile s p) f). unfold con. rewrite Ec. destruct k as [| |f'|fd]; simpl; [inds..|].
    pose proof (cnt_ge (ofile s p) f fd (proj1 Hk)) as Hc. revert Hc. inds. }
  pose proof (con_ref s f p Hok Hp Hf). apply wp_bind. apply wp_fileclose; [lia| |].
  - intros Hr s1 (F1&F2&F3&F4&F5&F6). eapply wp_resume; try done. intros s' M Et Ei Ee Hc Hrange Hpc'.
    eapply (step_file s s' p (resume_pc k) f (ftab s1 f)); rewrite ?Ec, ?Et, ?resume_holds; try done.
    + apply resume_nofork.
    + by split; congruence.
    + auto.
    + rewrite F1. simpl. lia.
    + intros f' Hf'. rewrite Hc, F1. unfold con. rewrite Ec. simpl. inds.
    + intros ip. rewrite resume_holds, F1, is_inode_ref. simpl. lia.
    + intros x w. rewrite resume_closes, F1. simpl. unfold is_end. simpl. lia.
  - intros Hr s1 (F1&F2&F3&F4&F5&F6). unfold wp, goto, modify.
    eapply (step_file s _ p (PRel (set_ref 0 (ftab s f)) k) f (ftab s1 f)); rewrite ?Ec; try done; fields.
    + split; cbn [pcs ofile]; [by rewrite F4|by rewrite F3].
    + auto.
    + by rewrite F1.
    + intros f' Hf'. rewrite F1, F3. unfold con. rewrite Ec. simpl. inds.
    + intros fd f'. rewrite F3. apply range_p.
    + unfold pc_ok. cbn [pcs]. rewrite fn_lookup_insert. destruct k; try done. simpl. by rewrite F3.
    + intros ip. rewrite F1, (is_inode_none _ (set_ftype _ _)) by done. simpl. rewrite is_inode_ref. lia.
    + intros x w. rewrite F1, (is_end_none _ _ (set_ftype _ _)) by done. simpl. unfold is_end. simpl. lia.
Qed.

Lemma ends_one k w : 1 ≤ closes k w (pcs s p) → ends s k w = true.
Proof.
  intros H. pose proof (fo_ends s Hok k w) as E. destruct (ends s k w); [done|].
  pose proof (sumn_nonneg NFILE (λ f, is_end k w (ftab s f)) ltac:(intros; apply ind_range)).
  assert (Hnn : ∀ i, (i < NPROC)%nat → 0 ≤ closes k w (pcs s i)) by (intros i _; destruct (pcs s i); simpl; try lia; apply ind_range).
  pose proof (sumn_ge NPROC (λ i, closes k w (pcs s i)) p Hnn Hp). simpl in *. lia.
Qed.
Lemma holds_nonneg ip c : 0 ≤ holds ip c.
Proof.
  assert (Hk : ∀ k, 0 ≤ holds_k k ip) by (intros [|ip'| |]; simpl; try lia; apply ind_range).
  destruct c; simpl; try lia; try apply ind_range; [apply Hk|]. pose proof (ind_range (f_type ff = FD_INODE ∧ f_ip ff = ip)).
  specialize (Hk k). unfold is_inode. lia.
Qed.
Lemma iref_ge ip : holds ip (pcs s p) ≤ iref s ip.
Proof.
  rewrite (fo_iref s Hok ip). pose proof (sumn_nonneg NFILE (λ f, is_inode ip (ftab s f)) ltac:(intros; apply ind_range)).
  pose proof (sumn_ge NPROC (λ i, holds ip (pcs s i)) p ltac:(intros; apply holds_nonneg) Hp). simpl in *. lia.
Qed.

(** A step that changes the references to inodes and the open ends. *)
Lemma step_objects s' c :
  pcs s p ≠ PEmbryo → (∀ q fd, c ≠ PFork q fd) → moves s s' p c → ftab s' = ftab s →
  (∀ f, (f < NFILE)%nat → cnt (ofile s' p) f + owes (ofile s' p) c f = con s f p) →
  (∀ fd f, ofile s' p fd = Some f → (f < NFILE)%nat) → pc_ok s' p →
  (∀ ip, iref s' ip - holds ip c = iref s ip - holds ip (pcs s p)) →
  (∀ k w, (if ends s' k w then 1 else 0) - closes k w c = (if ends s k w then 1 else 0) - closes k w (pcs s p)) → files_ok s'.
Proof.
  intros Hemb Hnf [M1 M2] Ht Hcon Hrange Hpc' Hi He.
  assert (Ec : pcs s' p = c) by (rewrite M1; apply fn_lookup_insert).
  apply (step_one s s' p []); try done.
  - by rewrite Ec.
  - intros p' Hne. split; [by rewrite M1, fn_lookup_insert_ne|by apply M2].
  - apply NoDup_nil_2.
  - by intros f ?%elem_of_nil.
  - intros f _. by rewrite Ht.
  - intros f Hf. unfold con at 1. rewrite Ec, (Hcon f Hf), Ht. done.
  - intros ip. rewrite Ec, Hi. simpl. lia.
  - intros k w. rewrite Ec, He. simpl. lia.
Qed.

Lemma ok_iput ip : 1 ≤ holds ip (pcs s p) → drop_iref ip s = Ret tt (upd_iref ip (iref s ip - 1) s).
Proof.
  intros H. pose proof (iref_ge ip). unfold drop_iref, mbind, K_bind, gets. by rewrite (proj2 (Z.ltb_ge _ _)) by lia.
Qed.

Lemma ok_PRel ff k : pcs s p = PRel ff k → wp (fileclose_end ff ≫= λ _, resume_call p k) s kept.
Proof.
  intros Ec. pose proof Hpc as H. unfold pc_ok in H. rewrite Ec in H.
  assert (Hgo : ∀ s1, ofile s1 = ofile s → pcs s1 = pcs s → ftab s1 = ftab s →
    (∀ ip, iref s1 ip = iref s ip - is_inode ip ff) → (∀ x w, (if ends s1 x w then 1 else 0) = (if ends s x w then 1 else 0) - is_end x w ff) →
    wp (resume_call p k) s1 kept).
  { intros s1 E1 E2 E3 Hi He. eapply wp_resume; try done. intros s' M Et Ei Ee Hc Hrange Hpc'.
    apply (step_objects s' (resume_pc k)); rewrite ?Ec; try done.
    - apply resume_nofork.
    - congruence.
    - intros f Hf. rewrite Hc. unfold con. by rewrite Ec.
    - intros ip. rewrite Ei, Hi, resume_holds. simpl. lia.
    - intros x w. rewrite Ee, He, resume_closes. simpl. lia. }
  apply wp_bind. unfold fileclose_end. destruct (f_type ff) eqn:Et.
  - apply Hgo; try done; intros; rewrite ?is_inode_none, ?is_end_none by done; lia.
  - assert (Hone : 1 ≤ closes (f_pipe ff) (f_writable ff) (pcs s p)) by (rewrite Ec; simpl; unfold is_end; rewrite ind_true; done).
    unfold close_pipe_end, wp at 1, mbind, K_bind, gets. rewrite (ends_one _ _ Hone). unfold modify. apply Hgo; try done; fields.
    + intros ip. unfold is_inode. rewrite ind_false; [lia|]. rewrite Et. by intros [? _].
    + intros x w. unfold is_end. destruct (decide (f_pipe ff = x)) as [<-|Hne].
      * rewrite fn_lookup_insert. destruct (decide (f_writable ff = w)) as [<-|Hw].
        -- rewrite fn_lookup_insert, (ends_one _ _ Hone), ind_true by done. lia.
        -- rewrite fn_lookup_insert_ne by done. rewrite ind_false; [lia|]. naive_solver.
      * rewrite fn_lookup_insert_ne by done. rewrite ind_false; [lia|]. naive_solver.
  - assert (Hone : 1 ≤ holds (f_ip ff) (pcs s p)).
    { rewrite Ec. simpl. unfold is_inode. rewrite ind_true by done. destruct k; simpl; try lia. pose proof (ind_range (ip = f_ip ff)). lia. }
    unfold wp at 1. rewrite (ok_iput _ Hone). apply Hgo; try done; fields.
    + intros ip. unfold is_inode. destruct (decide (f_ip ff = ip)) as [<-|Hne]; [rewrite fn_lookup_insert, ind_true by done; done|].
      rewrite fn_lookup_insert_ne by done. rewrite ind_false; [lia|]. naive_solver.
    + intros x w. unfold is_end. rewrite ind_false; [lia|]. rewrite Et. by intros [? _].
Qed.

Lemma ok_PPut ip : pcs s p = PPut ip → wp (drop_iref ip ≫= λ _, goto p PIdle) s kept.
Proof.
  intros Ec. assert (Hone : 1 ≤ holds ip (pcs s p)) by (rewrite Ec; simpl; by rewrite ind_true).
  apply wp_bind. unfold wp at 1. rewrite (ok_iput _ Hone). unfold wp, goto, modify.
  apply (step_objects _ PIdle); rewrite ?Ec; try done; fields.
  - intros f Hf. unfold con. rewrite Ec. done.
  - apply range_p.
  - unfold pc_ok. cbn [pcs]. by rewrite fn_lookup_insert.
  - intros ip'. simpl. destruct (decide (ip = ip')) as [->|Hne]; [rewrite fn_lookup_insert, ind_true by done; lia|].
    rewrite fn_lookup_insert_ne by done. rewrite ind_false by done. lia.
Qed.

(** A file is taken from the table. *)
Lemma ok_alloc c f :
  pcs s p ≠ PEmbryo → (∀ q fd, c ≠ PFork q fd) → (f < NFILE)%nat → f_ref (ftab s f) = 0 →
  (∀ f', owes (ofile s p) c f' = owes (ofile s p) (pcs s p) f' + ind (f = f')) →
  (∀ s', fresh s' f → (∀ f', fresh_in (pcs s p) f' → fresh s' f' ∧ f' ≠ f) → pcs s' p = c → pc_ok s' p) →
  (∀ ip, holds ip c = holds ip (pcs s p)) → (∀ k w, closes k w c = closes k w (pcs s p)) →
  files_ok (upd_pc p c (upd_file f (set_ref 1) s)).
Proof.
  intros Hemb Hnf Hf Hz Ho Hpc' Hi He. pose proof (fo_none s Hok f Hf Hz) as Ht.
  eapply (step_file s _ p c f (set_ref 1 (ftab s f))); try done; fields.
  - by rewrite fn_lookup_insert.
  - intros f' Hne. by rewrite fn_lookup_insert_ne.
  - auto.
  - intros f' Hf'. rewrite Ho. unfold con. simpl. inds.
  - apply range_p.
  - apply Hpc'.
    + unfold fresh. cbn [ftab]. by rewrite fn_lookup_insert.
    + intros f' Hf'. destruct (fresh_con s p f' Hpc Hf') as [(F1&F2&F3) _]. assert (f' ≠ f) by (intros ->; lia).
      unfold fresh. cbn [ftab]. by rewrite fn_lookup_insert_ne.
    + cbn [pcs]. apply fn_lookup_insert.
  - intros ip. rewrite Hi, is_inode_ref. lia.
  - intros k w. rewrite He. unfold is_end. simpl. lia.
Qed.

Lemma ok_POpen ip om : pcs s p = POpen ip om →
  wp (filealloc ≫= λ o, match o with None => goto p (PPut ip) | Some f => goto p (POpenFd ip f om) end) s kept.
Proof.
  intros Ec. apply wp_bind. apply wp_filealloc.
  - intros f Hf Hz. unfold wp, goto, modify. apply ok_alloc; rewrite ?Ec; try done.
    intros s' Hfr _ Ep. unfold pc_ok. by rewrite Ep.
  - unfold wp, goto, modify. apply ok_goto; rewrite ?Ec; try done. unfold pc_ok. fields. by rewrite fn_lookup_insert.
Qed.

Lemma ok_PPipe1 : pcs s p = PPipe1 →
  wp (filealloc ≫= λ o, match o with None => goto p PIdle | Some rf => goto p (PPipe2 rf) end) s kept.
Proof.
  intros Ec. apply wp_bind. apply wp_filealloc.
  - intros f Hf Hz. unfold wp, goto, modify. apply ok_alloc; rewrite ?Ec; try done.
    intros s' Hfr _ Ep. unfold pc_ok. by rewrite Ep.
  - unfold wp, goto, modify. apply ok_goto; rewrite ?Ec; try done. unfold pc_ok. fields. by rewrite fn_lookup_insert.
Qed.

Lemma ok_PPipe2 rf : pcs s p = PPipe2 rf →
  wp (filealloc ≫= λ o, match o with None => goto p (PClose rf CIdle) | Some wf => goto p (PPipe3 rf wf) end) s kept.
Proof.
  intros Ec. apply wp_bind. apply wp_filealloc.
  - intros f Hf Hz. unfold wp, goto, modify. apply ok_alloc; rewrite ?Ec; try done.
    intros s' Hfr Hold Ep. unfold pc_ok. rewrite Ep. destruct (Hold rf ltac:(done)). done.
  - pose proof (fresh_con s p rf Hpc) as Hfr. rewrite Ec in Hfr. destruct (Hfr eq_refl) as [[Hf _] _].
    unfold wp, goto, modify. apply ok_goto; rewrite ?Ec; try done; [intros f _; simpl; lia|].
    unfold pc_ok. fields. rewrite fn_lookup_insert. done.
Qed.

Lemma ok_POpenFd ip f om : pcs s p = POpenFd ip f om →
  wp (fdalloc p f ≫= λ o, match o with None => goto p (PClose f (CPut ip)) | Some _ => goto p (POpenSet ip f om) end) s kept.
Proof.
  intros Ec. pose proof (fresh_con s p f Hpc) as Hfr. rewrite Ec in Hfr. destruct (Hfr eq_refl) as [Hfresh _].
  apply wp_bind. apply wp_fdalloc.
  - intros fd Hfd Hn. unfold wp, goto, modify. apply ok_goto_fd; rewrite ?Ec; try done.
    + intros f' Hf'. simpl. rewrite Hn. inds.
    + intros f' [= <-]. apply Hfresh.
    + unfold pc_ok. fields. rewrite !fn_lookup_insert. split; [done|]. rewrite cnt_insert by done.
      pose proof (cnt_nonneg (ofile s p) f). rewrite Hn. inds.
  - unfold wp, goto, modify. apply ok_goto; rewrite ?Ec; try done; [intros f' _; simpl; lia|].
    unfold pc_ok. fields. rewrite fn_lookup_insert. split; [apply Hfresh|]. done.
Qed.

Lemma ok_POpenSet ip f om r w : pcs s p = POpenSet ip f om →
  wp (modify (upd_file f (set_inode ip r w)) ≫= λ _, goto p PIdle) s kept.
Proof.
  intros Ec. pose proof (fresh_con s p f Hpc) as Hfr. rewrite Ec in Hfr. destruct (Hfr eq_refl) as [(F1&F2&F3) Hc].
  unfold wp, goto, mbind, K_bind, modify. eapply (step_file s _ p PIdle f (set_inode ip r w (ftab s f))); rewrite ?Ec; try done; fields.
  - by rewrite fn_lookup_insert.
  - intros f' Hne. by rewrite fn_lookup_insert_ne.
  - auto.
  - simpl. lia.
  - intros f' Hf'. unfold con. rewrite Ec. simpl. inds.
  - apply range_p.
  - unfold pc_ok. cbn [pcs]. by rewrite fn_lookup_insert.
  - intros ip'. rewrite (is_inode_none _ (ftab s f)) by done. simpl. unfold is_inode. simpl. inds; naive_solver.
  - intros k w'. rewrite (is_end_none _ _ (ftab s f)) by done. simpl. unfold is_end. simpl. inds. naive_solver.
Qed.

(** The state after pipealloc has made the pipe. *)
Definition piped (rf wf k : nat) : fds :=
  upd_pc p (PPipe4 rf wf) (upd_file wf (set_pipe k true) (upd_file rf (set_pipe k false) (upd_end k true true (upd_end k false true s)))).

Lemma piped_ends rf wf k x w : ends (piped rf wf k) x w = if decide (x = k) then true else ends s x w.
Proof.
  unfold piped. fields. case_decide as E.
  - subst x. rewrite !fn_lookup_insert. destruct w; [by rewrite fn_lookup_insert|]. rewrite fn_lookup_insert_ne by done. by rewrite fn_lookup_insert.
  - by rewrite !fn_lookup_insert_ne.
Qed.

Lemma ok_PPipe3 rf wf o :
  pcs s p = PPipe3 rf wf → (∀ k, o = Some k → ends s k false = false ∧ ends s k true = false) →
  wp (match o with
      | None => goto p (PClose rf (CClose wf))
      | Some k =>
          modify (upd_end k false true) ≫= λ _, modify (upd_end k true true) ≫= λ _,
          modify (upd_file rf (set_pipe k false)) ≫= λ _, modify (upd_file wf (set_pipe k true)) ≫= λ _, goto p (PPipe4 rf wf)
      end) s kept.
Proof.
  intros Ec Hk. pose proof Hpc as H. unfold pc_ok in H. rewrite Ec in H. destruct H as ((R1&R2&R3)&(W1&W2&W3)&Hne).
  destruct o as [k|].
  - destruct (Hk k eq_refl) as [K0 K1]. unfold wp, mbind, K_bind, modify, goto. change (files_ok (piped rf wf k)).
    assert (Er : ftab (piped rf wf k) rf = set_pipe k false (ftab s rf)).
    { unfold piped. fields. by rewrite fn_lookup_insert_ne, fn_lookup_insert. }
    assert (Ew : ftab (piped rf wf k) wf = set_pipe k true (ftab s wf)).
    { unfold piped. fields. by rewrite fn_lookup_insert, fn_lookup_insert_ne. }
    assert (Hc : ∀ f, f = rf ∨ f = wf → 1 ≤ con s f p).
    { intros f Hf. apply fresh_con; [apply Hpc|]. by rewrite Ec. }
    assert (Ep : pcs (piped rf wf k) p = PPipe4 rf wf) by apply fn_lookup_insert.
    eapply (step_one s _ p [rf; wf]); rewrite ?Ep, ?Ec; try done.
    + intros p' Hne'. unfold piped. fields. by rewrite fn_lookup_insert_ne.
    + apply NoDup_cons_2; [by intros ->%list_elem_of_singleton|apply NoDup_singleton].
    + intros f [->|[->|[]%elem_of_nil]%elem_of_cons]%elem_of_cons; rewrite ?Er, ?Ew; simpl; (split; [done|]); (split; [right; apply Hc; auto|lia]).
    + intros f Hni. unfold piped. fields. rewrite !not_elem_of_cons in Hni. by rewrite !fn_lookup_insert_ne by naive_solver.
    + intros f Hf. assert (con (piped rf wf k) f p = con s f p) as -> by (unfold con; by rewrite Ep, Ec).
      f_equal. destruct (decide (f = rf)) as [->|H1]; [by rewrite Er|]. destruct (decide (f = wf)) as [->|H2]; [by rewrite Ew|].
      unfold piped. fields. by rewrite !fn_lookup_insert_ne.
    + apply range_p.
    + unfold pc_ok. by rewrite Ep.
    + intros ip. cbn [delta foldr holds]. rewrite Er, Ew, !(is_inode_none _ (ftab _ _)) by done. unfold is_inode. simpl. rewrite !ind_false by naive_solver. lia.
    + intros x w. cbn [delta foldr closes]. rewrite piped_ends, Er, Ew, !(is_end_none _ _ (ftab _ _)) by done. unfold is_end. simpl.
      destruct (decide (x = k)) as [->|Hx]; [|rewrite !ind_false by naive_solver; lia].
      destruct w; [rewrite K1|rewrite K0]; inds; naive_solver.
  - unfold wp, goto, modify. apply ok_goto; rewrite ?Ec; try done. unfold pc_ok. fields. rewrite fn_lookup_insert. done.
Qed.

Lemma ok_PPipe4 rf wf : pcs s p = PPipe4 rf wf →
  wp (fdalloc p rf ≫= λ o,
      match o with
      | None => goto p (PClose rf (CClose wf))
      | Some fd0 => fdalloc p wf ≫= λ o,
          match o with
          | None => modify (upd_fd p fd0 None) ≫= λ _, goto p (PClose rf (CClose wf))
          | Some _ => goto p PIdle
          end
      end) s kept.
Proof.
  intros Ec. pose proof Hpc as H. unfold pc_ok in H. rewrite Ec in H. destruct H as [Hr Hw].
  assert (Hfail : ∀ o, (∀ fd, o fd = ofile s p fd) → ∀ s', moves s s' p (PClose rf (CClose wf)) → same_objects s s' → ftab s' = ftab s → ofile s' p = o → files_ok s').
  { intros o Ho s' M O T Eo. eapply (step_table s s' p (PClose rf (CClose wf))); rewrite ?Ec; try done; rewrite ?Eo.
    - intros f Hf. unfold con. rewrite Ec. simpl. unfold cnt. rewrite (sumn_ext NOFILE _ (λ fd, ind (ofile s p fd = Some f))); [lia|].
      intros i _. by rewrite Ho.
    - intros fd f. rewrite Ho. apply range_p.
    - unfold pc_ok. destruct M as [-> _]. by rewrite fn_lookup_insert. }
  apply wp_bind. apply wp_fdalloc; [|unfold wp, goto, modify; by apply (Hfail (ofile s p))].
  intros fd0 Hfd0 Hn0. apply wp_bind. apply wp_fdalloc.
  - intros fd1 Hfd1 Hn1. unfold wp, goto, modify. revert Hn1. fields. rewrite fn_lookup_insert. intros Hn1.
    assert (Hne : fd0 ≠ fd1) by (intros ->; by rewrite fn_lookup_insert in Hn1).
    eapply (step_table s _ p PIdle); rewrite ?Ec; try done; cbn [ofile pcs]; rewrite ?fn_lookup_insert; try done.
    + split; [done|]. intros p' Hp'. cbn [ofile]. by rewrite !fn_lookup_insert_ne.
    + intros f Hf. rewrite !cnt_insert by done. rewrite Hn1, Hn0. unfold con. rewrite Ec. simpl. inds.
    + intros fd f. destruct (decide (fd1 = fd)) as [->|H1]; [rewrite fn_lookup_insert; congruence|]. rewrite fn_lookup_insert_ne by done.
      destruct (decide (fd0 = fd)) as [->|H2]; [rewrite fn_lookup_insert; congruence|]. rewrite fn_lookup_insert_ne by done. apply range_p.
    + unfold pc_ok. cbn [pcs]. by rewrite fn_lookup_insert.
  - unfold wp, goto, mbind, K_bind, modify. apply (Hfail (<[fd0 := None]> (<[fd0 := Some rf]> (ofile s p)))); try done.
    + intros fd. destruct (decide (fd0 = fd)) as [->|Hne]; [by rewrite fn_lookup_insert|by rewrite !fn_lookup_insert_ne].
    + split; [done|]. intros p' Hp'. fields. by rewrite !fn_lookup_insert_ne.
    + fields. by rewrite !fn_lookup_insert.
Qed.

Lemma ok_PExit fd : pcs s p = PExit fd →
  wp (if (fd <? NOFILE)%nat then
        match ofile s p fd with None => goto p (PExit (S fd)) | Some f => goto p (PClose f (CExit fd)) end
      else goto p PUnused) s kept.
Proof.
  intros Ec. pose proof Hpc as H. unfold pc_ok in H. rewrite Ec in H.
  destruct (Nat.ltb_spec fd NOFILE) as [Hlt|Hge]; [destruct (ofile s p fd) as [f|] eqn:Ef|]; unfold wp, goto, modify;
    apply ok_goto; rewrite ?Ec; try done; unfold pc_ok; fields; rewrite ?fn_lookup_insert.
  - intros f' _. simpl. rewrite Ef. inds.
  - split; [by eapply range_p|]. split; [done|]. by intros fd' [= ->].
  - intros j Hj. destruct (decide (j = fd)) as [->|]; [done|]. apply H. lia.
  - intros j Hj. apply H. lia.
Qed.
End advance.

(** ** fork *)

Section fork.
Context (s : fds) (p q : nat) (Hok : files_ok s) (Hp : (p < NPROC)%nat) (Hq : (q < NPROC)%nat) (Hpq : q ≠ p).
Context (Hpp : pcs s p = PIdle ∨ ∃ fd, pcs s p = PFork q fd) (Hqq : pcs s q = PUnused ∨ ∃ fd, pcs s p = PFork q fd ∧ pcs s q = PEmbryo).

Lemma other_forks p' q' fd : (p' < NPROC)%nat → p' ∉ [p; q] → pcs s p' = PFork q' fd → q' ∉ [p; q].
Proof using All.
  intros Hp' Hni Ef. pose proof (fo_pc s Hok p' Hp') as H. unfold pc_ok in H. rewrite Ef in H. destruct H as (_&_&He&_).
  rewrite !not_elem_of_cons in Hni. destruct Hni as (N1&N2&_). intros [->|[->|[]%elem_of_nil]%elem_of_cons]%elem_of_cons.
  - destruct Hpp as [E|[? E]]; congruence.
  - destruct Hqq as [E|(fd'&E&_)]; [congruence|]. by destruct N1; apply (fo_fork s Hok p' p q fd fd').
Qed.

(** A step of fork: the table of the child, and the places of both. *)
Lemma step_fork s' :
  (∀ p', p' ∉ [p; q] → pcs s' p' = pcs s p' ∧ ofile s' p' = ofile s p') → ofile s' p = ofile s p → same_objects s s' →
  (∀ f, ftab s' f = ftab s f ∨ (1 ≤ con s f p ∧ ∃ r, 0 < r ∧ ftab s' f = set_ref r (ftab s f))) →
  (∀ f, (f < NFILE)%nat → f_ref (ftab s' f) = f_ref (ftab s f) + (cnt (ofile s' q) f - cnt (ofile s q) f)) →
  (∀ fd f, ofile s' q fd = Some f → (f < NFILE)%nat) → pc_ok s' p → pc_ok s' q →
  (pcs s' p = PIdle ∨ ∃ fd, pcs s' p = PFork q fd) → (pcs s' q = PIdle ∨ pcs s' q = PEmbryo) → files_ok s'.
Proof using All.
  intros Hoth Eo [O1 O2] Hft Href Hrange Hpc Hqc Cp Cq.
  assert (Hz : ∀ f, owes (ofile s p) (pcs s p) f = 0 ∧ owes (ofile s q) (pcs s q) f = 0 ∧ owes (ofile s' p) (pcs s' p) f = 0 ∧ owes (ofile s' q) (pcs s' q) f = 0).
  { intros f. destruct Hpp as [->|[? ->]], Hqq as [->|(?&_&->)], Cp as [->|[? ->]], Cq as [->| ->]; done. }
  assert (Hh : ∀ ip, holds ip (pcs s p) = 0 ∧ holds ip (pcs s q) = 0 ∧ holds ip (pcs s' p) = 0 ∧ holds ip (pcs s' q) = 0).
  { intros ip. destruct Hpp as [->|[? ->]], Hqq as [->|(?&_&->)], Cp as [->|[? ->]], Cq as [->| ->]; done. }
  assert (Hc : ∀ k w, closes k w (pcs s p) = 0 ∧ closes k w (pcs s q) = 0 ∧ closes k w (pcs s' p) = 0 ∧ closes k w (pcs s' q) = 0).
  { intros k w. destruct Hpp as [->|[? ->]], Hqq as [->|(?&_&->)], Cp as [->|[? ->]], Cq as [->| ->]; done. }
  assert (Hin : ∀ p', p' ∈ [p; q] ↔ p' = p ∨ p' = q) by (intros p'; rewrite !elem_of_cons, elem_of_nil; tauto).
  apply (step_ok s s' [p; q] Hok). split; try done.
  - apply NoDup_cons_2; [by intros ->%list_elem_of_singleton|apply NoDup_singleton].
  - intros p' [->| ->]%Hin; done.
  - intros f Hf. destruct (Hft f) as [E|[E _]]; [by left|right; right]. exists p. split; [by left|done].
  - intros f Hf. rewrite (Href f Hf). destruct (Hz f) as (Z1&Z2&Z3&Z4). simpl. unfold con. rewrite Z1, Z2, Z3, Z4, Eo. lia.
  - intros f Hf. destruct (Hft f) as [->|(_&r&Hr&->)]; [by apply (fo_none s Hok)|simpl; lia].
  - intros p' fd f [->| ->]%Hin; [rewrite Eo; by apply (fo_range s Hok)|apply Hrange].
  - intros p' [->| ->]%Hin; done.
  - apply other_forks.
  - intros p1 p2 q' fd fd' [->| ->]%Hin [->| ->]%Hin; try done; intros E1 E2; destruct Cq as [Cq|Cq]; congruence.
  - intros p1 q' fd [->| ->]%Hin E; [|destruct Cq; congruence]. destruct Cp as [Cp|[? Cp]]; [congruence|]. rewrite Cp in E. injection E as <- _.
    by right; left.
  - intros ip. destruct (Hh ip) as (Z1&Z2&Z3&Z4). simpl. rewrite Z1, Z2, Z3, Z4, O1.
    rewrite (sumn_ext NFILE _ (λ f, is_inode ip (ftab s f))); [lia|]. intros f _. destruct (Hft f) as [->|(_&r&_&->)]; done.
  - intros k w. destruct (Hc k w) as (Z1&Z2&Z3&Z4). simpl. rewrite Z1, Z2, Z3, Z4, O2.
    rewrite (sumn_ext NFILE _ (λ f, is_end k w (ftab s f))); [lia|]. intros f _. destruct (Hft f) as [->|(_&r&_&->)]; done.
Qed.
End fork.

Lemma ok_fork s p q : files_ok s → (p < NPROC)%nat → (q < NPROC)%nat → pcs s p = PIdle → pcs s q = PUnused →
  wp (goto q PEmbryo ≫= λ _, goto p (PFork q 0)) s (λ _ s', files_ok s').
Proof.
  intros Hok Hp Hq Ep Eq. assert (Hne : q ≠ p) by congruence. unfold wp, goto, mbind, K_bind, modify.
  pose proof (fo_pc s Hok q Hq) as H. unfold pc_ok in H. rewrite Eq in H.
  eapply (step_fork s p q Hok Hp Hq Hne); fields; try done; try (by left).
  - intros p' Hni. rewrite !not_elem_of_cons in Hni. by rewrite !fn_lookup_insert_ne by naive_solver.
  - intros f Hf. lia.
  - intros fd f. by apply (fo_range s Hok).
  - unfold pc_ok. cbn [pcs ofile]. rewrite fn_lookup_insert. split; [done|]. split; [done|].
    rewrite fn_lookup_insert_ne, fn_lookup_insert by done. split; [done|]. intros j Hj. apply H. lia.
  - unfold pc_ok. cbn [pcs]. by rewrite fn_lookup_insert_ne, fn_lookup_insert.
  - right. rewrite fn_lookup_insert. by eexists.
  - right. by rewrite fn_lookup_insert_ne, fn_lookup_insert.
Qed.

Lemma ok_PFork s p q fd : files_ok s → (p < NPROC)%nat → pcs s p = PFork q fd →
  wp (if (fd <? NOFILE)%nat then
        match ofile s p fd with
        | None => goto p (PFork q (S fd))
        | Some f => filedup f ≫= λ _, modify (upd_fd q fd (Some f)) ≫= λ _, goto p (PFork q (S fd))
        end
      else goto q PIdle ≫= λ _, goto p PIdle) s (λ _ s', files_ok s').
Proof.
  intros Hok Hp Ec. pose proof (fo_pc s Hok p Hp) as H. unfold pc_ok in H. rewrite Ec in H. destruct H as (Hne&Hq&Eq&Hnone).
  assert (H1 : pcs s p = PIdle ∨ ∃ fd, pcs s p = PFork q fd) by eauto.
  assert (H2 : pcs s q = PUnused ∨ ∃ fd, pcs s p = PFork q fd ∧ pcs s q = PEmbryo) by eauto.
  destruct (Nat.ltb_spec fd NOFILE) as [Hlt|Hge]; [destruct (ofile s p fd) as [f|] eqn:Ef|].
  - pose proof (fo_range s Hok p fd f Hp Ef) as Hf.
    assert (Hcon : 1 ≤ con s f p).
    { unfold con. rewrite Ec. simpl. pose proof (cnt_ge (ofile s p) f fd Hlt) as Hc. rewrite ind_true in Hc by done. lia. }
    pose proof (con_ref s f p Hok Hp Hf) as Hr. apply wp_bind. apply wp_filedup; [lia|]. unfold wp, goto, mbind, K_bind, modify.
    eapply (step_fork s p q Hok Hp Hq Hne H1 H2); fields; rewrite ?fn_lookup_insert; try done.
    + intros p' Hni. rewrite !not_elem_of_cons in Hni. by rewrite !fn_lookup_insert_ne by naive_solver.
    + by rewrite fn_lookup_insert_ne.
    + intros f'. destruct (decide (f = f')) as [<-|Hn]; [|left; by rewrite fn_lookup_insert_ne]. right. split; [done|].
      rewrite fn_lookup_insert. exists (f_ref (ftab s f) + 1). split; [lia|done].
    + intros f' Hf'. rewrite cnt_insert by done. rewrite Hnone by lia. destruct (decide (f = f')) as [<-|Hn].
      * rewrite fn_lookup_insert. simpl. inds.
      * rewrite fn_lookup_insert_ne by done. inds.
    + intros fd' f'. destruct (decide (fd = fd')) as [<-|Hn]; [rewrite fn_lookup_insert; congruence|]. rewrite fn_lookup_insert_ne by done.
      by apply (fo_range s Hok).
    + unfold pc_ok. cbn [pcs ofile]. rewrite !fn_lookup_insert. split; [done|]. split; [done|]. rewrite fn_lookup_insert_ne by done.
      split; [done|]. intros j Hj. rewrite fn_lookup_insert_ne by lia. apply Hnone. lia.
    + unfold pc_ok. cbn [pcs]. rewrite fn_lookup_insert_ne by done. by rewrite Eq.
    + right. by eexists.
    + right. by rewrite fn_lookup_insert_ne.
  - unfold wp, goto, modify. eapply (step_fork s p q Hok Hp Hq Hne H1 H2); fields; rewrite ?fn_lookup_insert; try done; try (by left).
    + intros p' Hni. rewrite !not_elem_of_cons in Hni. by rewrite !fn_lookup_insert_ne by naive_solver.
    + intros f Hf. lia.
    + intros fd' f. by apply (fo_range s Hok).
    + unfold pc_ok. cbn [pcs ofile]. rewrite fn_lookup_insert, fn_lookup_insert_ne by done. split; [done|]. split; [done|]. split; [done|].
      intros j Hj. apply Hnone. lia.
    + unfold pc_ok. cbn [pcs]. rewrite fn_lookup_insert_ne by done. by rewrite Eq.
    + right. by eexists.
    + right. by rewrite fn_lookup_insert_ne.
  - unfold wp, goto, mbind, K_bind, modify. eapply (step_fork s p q Hok Hp Hq Hne H1 H2); fields; rewrite ?fn_lookup_insert; try done; try (by left).
    + intros p' Hni. rewrite !not_elem_of_cons in Hni. by rewrite !fn_lookup_insert_ne by naive_solver.
    + intros f Hf. lia.
    + intros fd' f. by apply (fo_range s Hok).
    + unfold pc_ok. cbn [pcs]. by rewrite fn_lookup_insert.
    + unfold pc_ok. cbn [pcs]. by rewrite fn_lookup_insert_ne, fn_lookup_insert.
    + left. by rewrite fn_lookup_insert_ne, fn_lookup_insert.
Qed.

(** * Any interleaving *)

Lemma advance_ok s p o :
  files_ok s → (p < NPROC)%nat → (∀ k, o = Some k → ends s k false = false ∧ ends s k true = false) →
  wp (advance o p) s (λ _ s', files_ok s').
Proof.
  intros Hok Hp Ho. unfold advance. apply wp_bind. unfold wp at 1, gets. destruct (pcs s p) eqn:Ec; try done.
  - by eapply ok_PDup.
  - by apply ok_PClose.
  - by apply ok_PRel.
  - by apply ok_POpen.
  - by apply ok_POpenFd.
  - by eapply ok_POpenSet.
  - by apply ok_PPut.
  - by apply ok_PPipe1.
  - by apply ok_PPipe2.
  - by apply ok_PPipe3.
  - by apply ok_PPipe4.
  - apply wp_bind. by apply ok_PFork.
  - apply wp_bind. by apply ok_PExit.
Qed.

Lemma begin_call_ok s p c :
  files_ok s → (p < NPROC)%nat → pcs s p = PIdle → (∀ q, c = FFork q → (q < NPROC)%nat ∧ pcs s q = PUnused) →
  wp (begin_call p c) s (λ _ s', files_ok s').
Proof.
  intros Hok Hp Ep Hc. destruct c as [fd|fd|ip om| |q|]; cbn [begin_call].
  - by apply ok_dup.
  - by apply ok_close.
  - by apply ok_open.
  - apply ok_simple; auto.
  - destruct (Hc q eq_refl). by apply ok_fork.
  - apply ok_simple; auto.
Qed.

Lemma init_ok : files_ok fds_init.
Proof.
  split; try done.
  - intros p Hp. unfold pc_ok. simpl. by case_decide.
  - intros p p' q fd fd' _ _. simpl. by case_decide.
Qed.

Lemma reachable_ok s : rtc fstep fds_init s → files_ok s.
Proof.
  intros H. apply (rtc_ind_r files_ok fds_init) in H; [done|apply init_ok|]. clear s H. intros s s' _ Hs Hok.
  destruct Hs as [p c s s' Hp Ep Hc Hr|p o s s' Hp Ho Hr].
  - pose proof (begin_call_ok s p c Hok Hp Ep Hc) as H. unfold wp in H. by rewrite Hr in H.
  - pose proof (advance_ok s p o Hok Hp Ho) as H. unfold wp in H. by rewrite Hr in H.
Qed.

(** No call is in progress. *)
Definition quiet (s : fds) : Prop := ∀ p, (p < NPROC)%nat → pcs s p = PIdle ∨ pcs s p = PUnused.

(** C35: in every interleaving of dup, close, open, pipe, fork and exit of all
    processes: no step panics, closes an end of a pipe twice or drops a reference to
    an inode that is not held; a descriptor of a process refers to a live file; and
    when no call is in progress the count of each file is the number of its
    descriptors, each inode has one reference per file open on it, and an end of a pipe
    is open exactly if a file is open on it. *)
Theorem file_references s :
  rtc fstep fds_init s →
  (∀ p o, (p < NPROC)%nat → (∀ k, o = Some k → ends s k false = false ∧ ends s k true = false) → ∃ s', advance o p s = Ret tt s') ∧
  (∀ p c, (p < NPROC)%nat → pcs s p = PIdle → (∀ q, c = FFork q → (q < NPROC)%nat ∧ pcs s q = PUnused) → ∃ s', begin_call p c s = Ret tt s') ∧
  (∀ p fd f, (p < NPROC)%nat → (fd < NOFILE)%nat → pcs s p = PIdle → ofile s p fd = Some f → (f < NFILE)%nat ∧ 1 ≤ f_ref (ftab s f)) ∧
  (quiet s → (∀ f, (f < NFILE)%nat → f_ref (ftab s f) = sumn NPROC (λ p, cnt (ofile s p) f)) ∧
     (∀ ip, iref s ip = sumn NFILE (λ f, is_inode ip (ftab s f))) ∧
     (∀ k w, ends s k w = true ↔ ∃ f, (f < NFILE)%nat ∧ f_type (ftab s f) = FD_PIPE ∧ f_pipe (ftab s f) = k ∧ f_writable (ftab s f) = w)).
Proof.
  intros Hr%reachable_ok. split; [|split; [|split]].
  - intros p o Hp Ho. pose proof (advance_ok s p o Hr Hp Ho) as H. apply wp_Ret in H as ([]&s'&H&_). by exists s'.
  - intros p c Hp Ep Hc. pose proof (begin_call_ok s p c Hr Hp Ep Hc) as H. apply wp_Ret in H as ([]&s'&H&_). by exists s'.
  - intros p fd f Hp Hfd Ep Ef. pose proof (fo_range s Hr p fd f Hp Ef) as Hf. split; [done|].
    pose proof (con_ref s f p Hr Hp Hf) as H. unfold con in H. rewrite Ep in H. simpl in H.
    pose proof (cnt_ge (ofile s p) f fd Hfd) as Hc. rewrite ind_true in Hc by done. lia.
  - intros Hq. split; [|split].
    + intros f Hf. rewrite (fo_ref s Hr f Hf). apply sumn_ext. intros p Hp. unfold con. destruct (Hq p Hp) as [->| ->]; simpl; lia.
    + intros ip. rewrite (fo_iref s Hr ip), (sumn_zero NPROC); [lia|]. intros p Hp. by destruct (Hq p Hp) as [->| ->].
    + intros k w. pose proof (fo_ends s Hr k w) as E. rewrite (sumn_zero NPROC) in E by (intros p Hp; by destruct (Hq p Hp) as [->| ->]). split.
      * intros He. rewrite He in E. destruct (sumn_one NFILE (λ f, is_end k w (ftab s f))) as (f&Hf&H); [intros; apply ind_range|lia|].
        exists f. split; [done|]. unfold is_end, ind in H. case_decide; [done|lia].
      * intros (f&Hf&H). pose proof (sumn_ge NFILE (λ f, is_end k w (ftab s f)) f ltac:(intros; apply ind_range) Hf) as Hge. simpl in Hge.
        unfold is_end at 1 in Hge. rewrite ind_true in Hge by done. destruct (ends s k w); [done|lia].
Qed.

(** The first process opens inode 7 for reading and duplicates the descriptor. *)
Definition fds_run (m : K fds unit) (s : fds) : fds := match m s with Ret _ s' => s' | _ => s end.
Definition fds_1 : fds := fds_run (begin_call 0 (FOpen 7 0)) fds_init.
Definition fds_2 : fds := fds_run (advance None 0) fds_1.
Definition fds_3 : fds := fds_run (advance None 0) fds_2.
Definition fds_4 : fds := fds_run (advance None 0) fds_3.
Definition fds_5 : fds := fds_run (begin_call 0 (FDup 0)) fds_4.
Definition fds_dup : fds := fds_run (advance None 0) fds_5.

Lemma file_references_witness : f_ref (ftab fds_dup 0) = sumn NPROC (λ p, cnt (ofile fds_dup p) 0) ∧ iref fds_dup 7 = 1.
Proof.
  destruct (file_references fds_dup) as (_&_&_&H).
  - apply (rtc_l _ _ fds_1); [apply (fstep_call 0 (FOpen 7 0)); [vm_compute; lia|reflexivity|discriminate|reflexivity]|].
    apply (rtc_l _ _ fds_2); [apply (fstep_go 0 None); [vm_compute; lia|discriminate|reflexivity]|].
    apply (rtc_l _ _ fds_3); [apply (fstep_go 0 None); [vm_compute; lia|discriminate|reflexivity]|].
    apply (rtc_l _ _ fds_4); [apply (fstep_go 0 None); [vm_compute; lia|discriminate|reflexivity]|].
    apply (rtc_l _ _ fds_5); [apply (fstep_call 0 (FDup 0)); [vm_compute; lia|reflexivity|discriminate|reflexivity]|].
    apply (rtc_l _ _ fds_dup); [apply (fstep_go 0 None); [vm_compute; lia|discriminate|reflexivity]|]. apply rtc_refl.
  - destruct H as [H _]; [intros [|p] Hp; [left; reflexivity|right; reflexivity]|].
    split; [apply H; vm_compute; lia|vm_compute; reflexivity].
Defined.
