(* ===== verification/Console.v ===== *)
(** The console (src/console.c): the line discipline of consoleintr and
    consoleread, and the output of consputc to the serial port and the screen.

    The object under cons.lock is the ring buffer input with its three indices,
    the bytes sent to the serial port so far, the cells of the screen and the
    cursor.  An interrupt is given the characters that getc() returns until it has
    no more.  As in Monitor.v a run goes from acquire to release or sleep. *)

From Stdlib Require Import ZArith Lia.
From stdpp Require Import base tactics numbers functions relations sets strings list.
From S2P Require Import Prelude Monitor.

#[local] Open Scope Z_scope.

Module Console.

Definition INPUT_BUF : Z := 128.
Definition BACKSPACE : Z := 256.
(** Control characters: C('P'), C('U'), C('H'), C('D'). *)
Definition CTRL_P : Z := 16.
Definition CTRL_U : Z := 21.
Definition CTRL_H : Z := 8.
Definition CTRL_D : Z := 4.

Record con := {
  buf : Z → Z; ir : Z; iw : Z; ie : Z;
  uart : list Z; crt : Z → Z; pos : Z;
  panicked : bool
}.
Definition set_r (v : Z) (o : con) : con :=
  {| buf := buf o; ir := v; iw := iw o; ie := ie o; uart := uart o; crt := crt o; pos := pos o; panicked := panicked o |}.
Definition set_w (v : Z) (o : con) : con :=
  {| buf := buf o; ir := ir o; iw := v; ie := ie o; uart := uart o; crt := crt o; pos := pos o; panicked := panicked o |}.
Definition set_e (v : Z) (o : con) : con :=
  {| buf := buf o; ir := ir o; iw := iw o; ie := v; uart := uart o; crt := crt o; pos := pos o; panicked := panicked o |}.
Definition put_char (c : Z) (o : con) : con :=
  {| buf := <[ie o mod INPUT_BUF := u8 c]> (buf o); ir := ir o; iw := iw o; ie := u32 (ie o + 1);
     uart := uart o; crt := crt o; pos := pos o; panicked := panicked o |}.
Definition send (c : Z) (o : con) : con :=
  {| buf := buf o; ir := ir o; iw := iw o; ie := ie o; uart := uart o ++ [u8 c]; crt := crt o; pos := pos o; panicked := panicked o |}.
Definition set_screen (f : Z → Z) (p : Z) (o : con) : con :=
  {| buf := buf o; ir := ir o; iw := iw o; ie := ie o; uart := uart o; crt := f; pos := u16 p; panicked := panicked o |}.

(** A call in progress: an interrupt with the characters that are there; a read of
    [target] bytes of which [n] are left and [dst] has been stored; a write. *)
Inductive call := CIntr (cs : list Z) | CRead (target n : nat) (dst : list Z) | CWrite (bytes : list Z).
(** What it returns: whether procdump() follows; the value of consoleread and what it
    has stored; the value of consolewrite. *)
Inductive ret := RIntr (doprocdump : bool) | RRead (r : Z) (dst : list Z) | RWrite (r : Z).

Abbreviation M := (K (mst con call)).

(** ** Output *)

(** The serial port is there. *)
Definition uartputc (c : Z) : M unit := set_obj (send c).

Definition cgaputc (c : Z) : M unit :=
  gets obj ≫= λ o,
  let '(f, p) :=
    if c =? 10 then (crt o, pos o + (80 - pos o mod 80))
    else if c =? BACKSPACE then (crt o, if 0 <? pos o then pos o - 1 else pos o)
    else (<[pos o := Z.lor (Z.land c 255) 1792]> (crt o), pos o + 1) in
  if (p <? 0) || (25 * 80 <? p) then panic "pos under/overflow" else
  let '(f, p) :=
    if 24 <=? p / 80 then
      let p := p - 80 in
      (λ i, if (0 <=? i) && (i <? 23 * 80) then f (i + 80) else if (p <=? i) && (i <? 24 * 80) then 0 else f i, p)
    else (f, p) in
  set_obj (set_screen (<[p := Z.lor 32 1792]> f) p).

Definition consputc (c : Z) : M unit :=
  gets obj ≫= λ o,
  if panicked o then diverge else
  (if c =? BACKSPACE then uartputc 8 ≫= λ _, uartputc 32 ≫= λ _, uartputc 8 else uartputc c) ≫= λ _,
  cgaputc c.

Definition consolewrite (bytes : list Z) : M ret :=
  for_each bytes (λ b, consputc (Z.land b 255)) ≫= λ _, mret (RWrite (Z.of_nat (length bytes))).

(** ** Input *)

(** Kill line; the buffer has INPUT_BUF bytes. *)
Fixpoint kill_line (fuel : nat) : M unit :=
  gets obj ≫= λ o,
  if (ie o =? iw o) || (buf o (u32 (ie o - 1) mod INPUT_BUF) =? 10) then mret tt else
  match fuel with
  | O => diverge
  | S fuel' => set_obj (set_e (u32 (ie o - 1))) ≫= λ _, consputc BACKSPACE ≫= λ _, kill_line fuel'
  end.

(** The default case of the switch in consoleintr. *)
Definition consolechar (c : Z) : M bool :=
  gets obj ≫= λ o,
  when (negb (c =? 0) && (u32 (ie o - ir o) <? INPUT_BUF))
    (let c := if c =? 13 then 10 else c in
     set_obj (put_char c) ≫= λ _,
     consputc c ≫= λ _,
     gets obj ≫= λ o,
     when ((c =? 10) || (c =? CTRL_D) || (ie o =? u32 (ir o + INPUT_BUF)))
       (set_obj (set_w (ie o)) ≫= λ _, wakeup ChInput)) ≫= λ _, mret false.

Definition consolekey (c : Z) : M bool :=
  if c =? CTRL_P then mret true
  else if c =? CTRL_U then kill_line (Z.to_nat INPUT_BUF) ≫= λ _, mret false
  else if (c =? CTRL_H) || (c =? 127) then
    gets obj ≫= λ o,
    when (negb (ie o =? iw o)) (set_obj (set_e (u32 (ie o - 1))) ≫= λ _, consputc BACKSPACE) ≫= λ _, mret false
  else consolechar c.

(** The loop of consoleintr over the characters of getc(). *)
Fixpoint consoleintr (cs : list Z) (doprocdump : bool) : M ret :=
  match cs with
  | [] => mret (RIntr doprocdump)
  | c :: cs' => consolekey c ≫= λ d, consoleintr cs' (doprocdump || d)
  end.

(** [killed]: myproc()->killed. The inode is locked again before it returns. *)
Fixpoint consoleread (killed : bool) (target n : nat) (dst : list Z) : M ret :=
  match n with
  | O => mret (RRead (Z.of_nat target) dst)
  | S n' =>
      gets obj ≫= λ o,
      if ir o =? iw o then
        if killed then mret (RRead (-1) dst)
        else set_loc (λ _, CRead target n dst) ≫= λ _, sleep_on ChInput
      else
        let c := buf o (ir o mod INPUT_BUF) in
        set_obj (set_r (u32 (ir o + 1))) ≫= λ _,
        if c =? CTRL_D then
          gets obj ≫= λ o,
          when (n <? target)%nat (set_obj (set_r (u32 (ir o - 1)))) ≫= λ _,
          mret (RRead (Z.of_nat target - Z.of_nat n) dst)
        else if c =? 10 then mret (RRead (Z.of_nat target - Z.of_nat n') (dst ++ [c]))
        else consoleread killed target n' (dst ++ [c])
  end.

Definition console_op (killed : bool) : M ret :=
  gets loc ≫= λ c,
  match c with
  | CIntr cs => consoleintr cs false
  | CRead target n dst => consoleread killed target n dst
  | CWrite bytes => consolewrite bytes
  end.

(** ** The console a user knows *)

(** The bytes that can be read, the line being edited, and the output. *)
Record tty := { input : list Z; edit : list Z; output : list Z }.

(** What a character sends to the serial port. *)
Definition echo (c : Z) : list Z := if c =? BACKSPACE then [8; 32; 8] else [u8 c].

(** A character, when there is room for it: the end of a line, an end of file or a
    full buffer hands the line over to the readers. *)
Definition tty_char (c : Z) (t : tty) : tty * bool :=
  if negb (c =? 0) && (length (input t ++ edit t) <? Z.to_nat INPUT_BUF)%nat then
    let c := if c =? 13 then 10 else c in
    let l := edit t ++ [u8 c] in
    if (c =? 10) || (c =? CTRL_D) || (length (input t ++ l) =? Z.to_nat INPUT_BUF)%nat
    then ({| input := input t ++ l; edit := []; output := output t ++ echo c |}, true)
    else ({| input := input t; edit := l; output := output t ++ echo c |}, false)
  else (t, false).

(** A key: the new state, and whether the input is handed over to the readers. *)
Definition tty_key (c : Z) (t : tty) : tty * bool :=
  if c =? CTRL_P then (t, false)
  else if c =? CTRL_U then
    ({| input := input t; edit := []; output := output t ++ mjoin (replicate (length (edit t)) (echo BACKSPACE)) |}, false)
  else if (c =? CTRL_H) || (c =? 127) then
    (match edit t with
     | [] => t
     | _ => {| input := input t; edit := take (length (edit t) - 1) (edit t); output := output t ++ echo BACKSPACE |}
     end, false)
  else tty_char c t.

Fixpoint tty_keys (cs : list Z) (t : tty) : tty * bool :=
  match cs with
  | [] => (t, false)
  | c :: cs' => let '(t, b) := tty_key c t in let '(t, b') := tty_keys cs' t in (t, b || b')
  end.

(** A read of [n] more bytes from the input [q]: what it takes, what is left, and
    whether it is done: a line, [n] bytes, or an end of file, which is left for the
    next read unless it is the first thing. *)
Fixpoint tty_read (first : bool) (n : nat) (q : list Z) : list Z * list Z * bool :=
  match n, q with
  | O, _ => ([], q, true)
  | S _, [] => ([], [], false)
  | S n', c :: q' =>
      if c =? CTRL_D then ([], if first then q' else q, true)
      else if c =? 10 then ([c], q', true)
      else let '(d, q'', f) := tty_read false n' q' in (c :: d, q'', f)
  end.

(** ** The ring buffer is the input and the line *)

Definition pending (t : tty) : list Z := input t ++ edit t.
Record ring (o : con) (t : tty) : Prop := {
  cm_r : 0 ≤ ir o < 4294967296;
  cm_w : iw o = u32 (ir o + Z.of_nat (length (input t)));
  cm_e : ie o = u32 (ir o + Z.of_nat (length (pending t)));
  cm_size : Z.of_nat (length (pending t)) ≤ INPUT_BUF;
  cm_buf i b : pending t !! i = Some b → buf o (u32 (ir o + Z.of_nat i) mod INPUT_BUF) = b;
  cm_uart : uart o = output t;
  cm_pos : 0 ≤ pos o < 24 * 80;
  cm_panicked : panicked o = false
}.
(** ... and a line that is being edited has no newline. *)
Definition models (o : con) (t : tty) : Prop := ring o t ∧ Forall (λ b, b ≠ 10) (edit t).

(** The output of a character. *)
Record shown (o : con) (c : Z) (o' : con) : Prop := {
  sh_buf : buf o' = buf o; sh_r : ir o' = ir o; sh_w : iw o' = iw o; sh_e : ie o' = ie o;
  sh_uart : uart o' = uart o ++ echo c;
  sh_pos : 0 ≤ pos o' < 24 * 80;
  sh_panicked : panicked o' = false
}.

Lemma input_slot_mod x : u32 x mod INPUT_BUF = x mod INPUT_BUF.
Proof. unfold u32, INPUT_BUF. zlia. Qed.

(** The cursor stays in the first 24 lines. *)
Lemma cgaputc_run c o l wk : 0 ≤ pos o < 24 * 80 →
  ∃ f p, cgaputc c (Mst o l wk) = Ret tt (Mst (set_screen f p o) l wk) ∧ 0 ≤ p < 24 * 80.
Proof.
  intros Hp. unfold cgaputc, mbind, K_bind, gets. cbn [obj].
  assert (Hgo : ∀ f p, 0 ≤ p ≤ 24 * 80 → ∃ f' p', (if (p <? 0) || (25 * 80 <? p) then panic "pos under/overflow" else
      let '(f, p) := if 24 <=? p / 80 then let p := p - 80 in
        (λ i, if (0 <=? i) && (i <? 23 * 80) then f (i + 80) else if (p <=? i) && (i <? 24 * 80) then 0 else f i, p) else (f, p) in
      set_obj (set_screen (<[p := Z.lor 32 1792]> f) p)) (Mst o l wk) = Ret tt (Mst (set_screen f' p' o) l wk) ∧ 0 ≤ p' < 24 * 80).
  { intros f p Hr. rewrite (proj2 (Z.ltb_ge p 0)), (proj2 (Z.ltb_ge (25 * 80) p)) by lia. cbn [orb].
    destruct (Z.leb_spec 24 (p / 80)).
    - eexists _, _. split; [reflexivity|]. zlia.
    - eexists _, _. split; [reflexivity|]. zlia. }
  destruct (c =? 10); [apply Hgo; zlia|]. destruct (c =? BACKSPACE); [apply Hgo; destruct (Z.ltb_spec 0 (pos o)); lia|apply Hgo; lia].
Qed.

Lemma consputc_run c o l wk : 0 ≤ pos o < 24 * 80 → panicked o = false →
  ∃ o', consputc c (Mst o l wk) = Ret tt (Mst o' l wk) ∧ shown o c o'.
Proof.
  intros Hp Hn. unfold consputc, mbind, K_bind, gets. cbn [obj]. rewrite Hn. unfold uartputc, set_obj, modify. cbn [obj loc woke].
  assert (Hgo : ∀ o1, pos o1 = pos o → buf o1 = buf o → ir o1 = ir o → iw o1 = iw o → ie o1 = ie o → panicked o1 = false →
     uart o1 = uart o ++ echo c → ∃ o', cgaputc c (Mst o1 l wk) = Ret tt (Mst o' l wk) ∧ shown o c o').
  { intros o1 E1 E2 E3 E4 E5 E6 E7. destruct (cgaputc_run c o1 l wk) as (f&p&Hrun&Hr); [by rewrite E1|]. eexists. split; [exact Hrun|].
    split; cbn [set_screen buf ir iw ie uart pos panicked]; try done. unfold u16. zlia. }
  unfold echo in Hgo. destruct (c =? BACKSPACE).
  - destruct (Hgo (send 8 (send 32 (send 8 o)))) as (o'&Hr&Hs); try done; [|by exists o'].
    cbn [send uart]. by rewrite <- !app_assoc.
  - destruct (Hgo (send c o)) as (o'&Hr&Hs); try done. by exists o'.
Qed.

(** A character has been shown, and the line is [t']. *)
Lemma ring_shown o c o' t t' :
  ring o t → input t' = input t → edit t' = edit t → output t' = output t ++ echo c → shown o c o' → ring o' t'.
Proof.
  intros [M1 M2 M3 M4 M5 M7 M8 M9] E1 E2 E3 [S1 S2 S3 S4 S5 S6 S7]. unfold pending in *.
  split; unfold pending; rewrite ?S1, ?S2, ?S3, ?S4, ?E1, ?E2, ?E3; try done. by rewrite S5, M7.
Qed.

Lemma ring_empty_line o t : ring o t → (ie o =? iw o) = bool_decide (edit t = []).
Proof.
  intros [M1 M2 M3 M4 _ _ _ _]. rewrite M2, M3. unfold pending in *. rewrite length_app in *. unfold u32, INPUT_BUF in *.
  apply eq_bool_prop_intro. rewrite bool_decide_spec, Is_true_true, Z.eqb_eq. destruct (edit t) as [|x l]; simpl in *; [split; [done|intros _; f_equal; lia]|].
  split; [zlia|done].
Qed.
Lemma ring_no_input o t : ring o t → (ir o =? iw o) = bool_decide (input t = []).
Proof.
  intros [M1 M2 M3 M4 _ _ _ _]. rewrite M2. unfold pending in *. rewrite length_app in *. unfold u32, INPUT_BUF in *.
  apply eq_bool_prop_intro. rewrite bool_decide_spec, Is_true_true, Z.eqb_eq. destruct (input t) as [|x l]; simpl in *; [split; [done|intros _; zlia]|].
  split; [zlia|done].
Qed.

(** The last character of the line. *)
Definition drop_last (t : tty) : tty := {| input := input t; edit := take (length (edit t) - 1) (edit t); output := output t |}.
Lemma ring_drop_last o t : ring o t → edit t ≠ [] → ring (set_e (u32 (ie o - 1)) o) (drop_last t).
Proof.
  intros [M1 M2 M3 M4 M5 M7 M8 M9] Hne. unfold pending in *. rewrite length_app in *.
  assert (Hl : (1 ≤ length (edit t))%nat) by (destruct (edit t); [done|simpl; lia]).
  assert (Hp : pending (drop_last t) = take (length (input t ++ edit t) - 1) (input t ++ edit t)).
  { unfold pending, drop_last. cbn [input edit]. rewrite length_app, take_app. f_equal; [by rewrite take_ge by lia|]. f_equal. lia. }
  assert (Hlen : length (pending (drop_last t)) = (length (input t) + length (edit t) - 1)%nat).
  { rewrite Hp, length_take, length_app. lia. }
  split; cbn [set_e ir iw ie buf uart pos panicked]; try done.
  - rewrite Hlen, M3. unfold u32. zlia.
  - rewrite Hlen. lia.
  - intros i b. rewrite Hp. intros Hi. apply M5. by apply lookup_take_Some in Hi as [? _].
Qed.

(** The last character is not a newline. *)
Lemma models_last o t : models o t → edit t ≠ [] → buf o (u32 (ie o - 1) mod INPUT_BUF) ≠ 10.
Proof.
  intros [[M1 M2 M3 M4 M5 M7 M8 M9] M6] Hne. destruct (exists_last Hne) as (l&x&E). unfold pending in *. rewrite E in *.
  rewrite app_assoc in M5. assert (Hx : buf o (u32 (ir o + Z.of_nat (length (input t ++ l))) mod INPUT_BUF) = x).
  { apply M5. by rewrite lookup_app_r, Nat.sub_diag by lia. }
  rewrite M3, !length_app in *. simpl in *.
  replace (u32 (u32 (ir o + Z.of_nat (length (input t) + (length l + 1))) - 1) mod INPUT_BUF) with (u32 (ir o + Z.of_nat (length (input t) + length l)) mod INPUT_BUF).
  - rewrite Hx. apply Forall_app in M6 as [_ M6]. by inversion M6.
  - rewrite !input_slot_mod. unfold u32, INPUT_BUF in *. zlia.
Qed.

(** ** Keys *)

Lemma backspace_run o t l wk : models o t → edit t ≠ [] →
  ∃ o', (set_obj (set_e (u32 (ie o - 1))) ≫= λ _, consputc BACKSPACE) (Mst o l wk) = Ret tt (Mst o' l wk) ∧
    models o' {| input := input t; edit := take (length (edit t) - 1) (edit t); output := output t ++ echo BACKSPACE |}.
Proof.
  intros [M Hl] Hne. pose proof (ring_drop_last o t M Hne) as M1. unfold mbind, K_bind, set_obj, modify. cbn [obj loc woke].
  destruct (consputc_run BACKSPACE (set_e (u32 (ie o - 1)) o) l wk) as (o'&Hr&Hs); [apply M1|apply M1|].
  exists o'. split; [done|]. split; [by eapply (ring_shown _ _ _ (drop_last t))|]. cbn [edit]. by apply Forall_take.
Qed.

Lemma replicate_echo_S n : mjoin (replicate (S n) (echo BACKSPACE)) = echo BACKSPACE ++ mjoin (replicate n (echo BACKSPACE)).
Proof. done. Qed.

Lemma kill_line_run fuel o t l wk : models o t → (length (edit t) ≤ fuel)%nat →
  ∃ o', kill_line fuel (Mst o l wk) = Ret tt (Mst o' l wk) ∧
    models o' {| input := input t; edit := []; output := output t ++ mjoin (replicate (length (edit t)) (echo BACKSPACE)) |}.
Proof.
  revert o t. induction fuel as [|fuel IH]; intros o t M Hl; cbn [kill_line]; unfold mbind at 1, K_bind at 1, gets; cbn [obj];
    rewrite (ring_empty_line o t (proj1 M)); case_bool_decide as He; cbn [orb].
  - exists o. split; [done|]. rewrite He. simpl. rewrite app_nil_r. destruct M as [[] ?]. unfold pending in *. by rewrite He in *.
  - destruct (edit t); [done|simpl in Hl; lia].
  - exists o. split; [done|]. rewrite He. simpl. rewrite app_nil_r. destruct M as [[] ?]. unfold pending in *. by rewrite He in *.
  - rewrite (proj2 (Z.eqb_neq _ _) (models_last o t M He)).
    destruct (backspace_run o t l wk M He) as (o1&Hr&M1). unfold mbind, K_bind in *. unfold set_obj, modify in *. cbn [obj loc woke] in *.
    rewrite Hr. assert (Hlen : length (edit t) = S (length (edit t) - 1)) by (destruct (edit t); [done|simpl; lia]).
    destruct (IH o1 _ M1) as (o2&Hr2&M2); [cbn [edit]; rewrite length_take; lia|]. exists o2. split; [done|].
    cbn [input edit output] in M2. rewrite length_take in M2. rewrite Hlen, replicate_echo_S, app_assoc.
    by replace (length (edit t) - 1)%nat with ((length (edit t) - 1) `min` length (edit t))%nat by lia.
Qed.

(** A character is put at the end of the line. *)
Lemma ring_put o t c : ring o t → (length (pending t) < Z.to_nat INPUT_BUF)%nat →
  ring (put_char c o) {| input := input t; edit := edit t ++ [u8 c]; output := output t |}.
Proof.
  intros [M1 M2 M3 M4 M5 M7 M8 M9] Hlt. unfold INPUT_BUF in Hlt.
  split; unfold pending in *; cbn [put_char ir iw ie buf uart pos panicked input edit output]; rewrite ?app_assoc, ?(length_app _ [_]) in *; try done.
  - rewrite M3. simpl. unfold u32. zlia.
  - simpl. unfold INPUT_BUF. lia.
  - intros i b Hi. rewrite M3, !input_slot_mod. unfold insert, fn_insert, INPUT_BUF in *.
    apply lookup_app_Some in Hi as [Hi|[Hge Hi]].
    + pose proof (lookup_lt_Some _ _ _ Hi). rewrite decide_False by zlia. apply M5 in Hi. rewrite input_slot_mod in Hi. done.
    + destruct (i - length (input t ++ edit t))%nat eqn:E; simplify_eq/=. replace i with (length (input t ++ edit t)) by lia.
      rewrite decide_True; [done|]. done.
Qed.

(** The line is handed over. *)
Lemma ring_commit o t : ring o t → models (set_w (ie o) o) {| input := input t ++ edit t; edit := []; output := output t |}.
Proof.
  intros [M1 M2 M3 M4 M5 M7 M8 M9]. split; [|done]. unfold pending in *.
  split; unfold pending; cbn [set_w ir iw ie buf uart pos panicked input edit output]; rewrite ?app_nil_r; done.
Qed.

Lemma ring_room o t : ring o t → (u32 (ie o - ir o) <? INPUT_BUF) = (length (pending t) <? Z.to_nat INPUT_BUF)%nat.
Proof.
  intros [M1 M2 M3 M4 _ _ _ _]. unfold INPUT_BUF in *. apply eq_bool_prop_intro. rewrite !Is_true_true, Z.ltb_lt, Nat.ltb_lt, M3. unfold u32. zlia.
Qed.
Lemma ring_full o t : ring o t → (ie o =? u32 (ir o + INPUT_BUF)) = (length (pending t) =? Z.to_nat INPUT_BUF)%nat.
Proof.
  intros [M1 M2 M3 M4 _ _ _ _]. unfold INPUT_BUF in *. apply eq_bool_prop_intro. rewrite !Is_true_true, Z.eqb_eq, Nat.eqb_eq, M3. unfold u32. zlia.
Qed.

Lemma key_char c o t l wk : models o t → 0 ≤ c < 256 →
  ∃ o', consolechar c (Mst o l wk) = Ret false (Mst o' l (if (tty_char c t).2 then ChInput :: wk else wk)) ∧ models o' (tty_char c t).1.
Proof.
  intros [M Hl] Hc. unfold consolechar, tty_char. unfold mbind at 1, K_bind at 1, gets at 1. cbn [obj]. rewrite (ring_room o t M). unfold pending.
  destruct (negb (c =? 0) && _) eqn:Er; cbn [when]; [|by exists o]. apply andb_true_iff in Er as [_ Hroom%Nat.ltb_lt].
  set (c' := if c =? 13 then 10 else c). assert (Hc' : 0 ≤ c' < 256) by (unfold c'; destruct (c =? 13); lia).
  pose proof (ring_put o t c' M Hroom) as M1. set (t1 := {| input := _; edit := _; output := output t |}) in M1.
  destruct (consputc_run c' (put_char c' o) l wk) as (o2&Hr&Hs); [apply M1|apply M1|].
  assert (M2 : ring o2 {| input := input t; edit := edit t ++ [u8 c']; output := output t ++ echo c' |}) by (by eapply (ring_shown _ _ _ t1)).
  unfold mbind, K_bind, set_obj, gets, modify, wakeup. cbn [obj loc woke]. rewrite Hr. cbn [obj].
  rewrite (ring_full o2 _ M2). unfold pending. cbn [input edit].
  destruct ((c' =? 10) || (c' =? CTRL_D) || _) eqn:Ec; cbn [when].
  - exists (set_w (ie o2) o2). split; [done|]. apply (ring_commit _ _ M2).
  - exists o2. split; [done|]. split; [done|]. cbn [edit]. apply Forall_app. split; [done|]. constructor; [|done].
    rewrite !orb_false_iff, !Z.eqb_neq in Ec. rewrite u8_small by (unfold is_u8; lia). tauto.
Qed.

Lemma key_run c o t l wk : models o t → 0 ≤ c < 256 →
  ∃ o', consolekey c (Mst o l wk) = Ret (c =? CTRL_P) (Mst o' l (if (tty_key c t).2 then ChInput :: wk else wk)) ∧ models o' (tty_key c t).1.
Proof.
  intros M Hc. unfold consolekey, tty_key. destruct (c =? CTRL_P); [by exists o|]. destruct (c =? CTRL_U).
  { destruct (kill_line_run (Z.to_nat INPUT_BUF) o t l wk M) as (o'&Hr&M').
    - pose proof (cm_size _ _ (proj1 M)) as Hs. unfold pending, INPUT_BUF in *. rewrite length_app in Hs. lia.
    - exists o'. unfold mbind, K_bind. rewrite Hr. done. }
  destruct ((c =? CTRL_H) || (c =? 127)).
  { unfold mbind at 1, K_bind at 1, gets. cbn [obj]. rewrite (ring_empty_line o t (proj1 M)). case_bool_decide as He; cbn [negb when].
    - exists o. by rewrite He.
    - destruct (backspace_run o t l wk M He) as (o'&Hr&M'). exists o'. unfold mbind at 1, K_bind at 1. rewrite Hr.
      destruct (edit t) as [|x y] eqn:E; [done|]. done. }
  destruct (key_char c o t l wk M Hc) as (o'&Hr&M'). exists o'. done.
Qed.

Lemma intr_run cs d o t l wk : models o t → Forall (λ c, 0 ≤ c < 256) cs →
  ∃ o' wk', consoleintr cs d (Mst o l wk) = Ret (RIntr (d || existsb (Z.eqb CTRL_P) cs)) (Mst o' l wk') ∧ models o' (tty_keys cs t).1 ∧
    (∀ ch, ch ∈ wk' ↔ ch ∈ wk ∨ (ch = ChInput ∧ (tty_keys cs t).2 = true)).
Proof.
  revert d o t wk. induction cs as [|c cs IH]; intros d o t wk M Hf; cbn [consoleintr tty_keys existsb].
  { exists o, wk. rewrite orb_false_r. split; [done|]. split; [done|]. intros ch. simpl. naive_solver. }
  apply Forall_cons in Hf as [Hc Hf]. destruct (key_run c o t l wk M Hc) as (o1&Hr&M1). unfold mbind, K_bind. rewrite Hr.
  destruct (tty_key c t) as [t1 b1]. simpl in M1. destruct (IH (d || (c =? CTRL_P)) o1 t1 (if b1 then ChInput :: wk else wk) M1 Hf) as (o2&wk2&Hr2&M2&Hw).
  simpl. exists o2, wk2. rewrite Hr2. destruct (tty_keys cs t1) as [t2 b2]. simpl in *.
  split; [by rewrite <- orb_assoc, (Z.eqb_sym c)|]. split; [done|]. intros ch. rewrite Hw. destruct b1; rewrite ?elem_of_cons; simpl; naive_solver.
Qed.

Lemma models_take o t b q : models o t → input t = b :: q →
  buf o (ir o mod INPUT_BUF) = b ∧ models (set_r (u32 (ir o + 1)) o) {| input := q; edit := edit t; output := output t |}.
Proof.
  intros [[M1 M2 M3 M4 M5 M7 M8 M9] Hl] E. unfold pending in *. rewrite E in *. simpl length in *. split.
  - specialize (M5 0%nat b eq_refl). by rewrite input_slot_mod, Z.add_0_r in M5.
  - split; [|done]. split; unfold pending; cbn [set_r ir iw ie buf uart pos panicked input edit output]; try done.
    + unfold u32. zlia.
    + rewrite M2. unfold u32. zlia.
    + rewrite M3. unfold u32. zlia.
    + lia.
    + intros i c Hi. rewrite input_slot_mod. specialize (M5 (S i) c Hi). rewrite input_slot_mod in M5. rewrite <- M5. f_equal. unfold u32, INPUT_BUF. zlia.
Qed.

Definition with_input (q : list Z) (t : tty) : tty := {| input := q; edit := edit t; output := output t |}.

(** The end of file is left where it was. *)
Lemma models_untake o t : models o t → models (set_r (u32 (u32 (ir o + 1) - 1)) (set_r (u32 (ir o + 1)) o)) t.
Proof.
  intros [[M1 M2 M3 M4 M5 M7 M8 M9] Hl]. replace (u32 (u32 (ir o + 1) - 1)) with (ir o) by (unfold u32; zlia). by split.
Qed.

Lemma read_run killed target n dst o t l wk : models o t → (n ≤ target)%nat →
  let '(d, q, f) := tty_read (n =? target)%nat n (input t) in
  ∃ o', models o' (with_input q t) ∧
    consoleread killed target n dst (Mst o l wk) =
      if f then Ret (RRead (Z.of_nat target - Z.of_nat n + Z.of_nat (length d)) (dst ++ d)) (Mst o' l wk)
      else if killed then Ret (RRead (-1) (dst ++ d)) (Mst o' l wk)
      else Sleep ChInput (Mst o' (CRead target (n - length d) (dst ++ d)) wk).
Proof.
  intros M Hn. revert dst o t M. induction n as [|n IH]; intros dst o t M; cbn [tty_read consoleread].
  { exists o. rewrite app_nil_r. split; [by destruct t|]. simpl. f_equal. f_equal. lia. }
  unfold mbind at 1, K_bind at 1, gets at 1. cbn [obj]. rewrite (ring_no_input o t (proj1 M)).
  destruct (input t) as [|c q] eqn:Eq; [rewrite bool_decide_true by done|rewrite bool_decide_false by done].
  { exists o. split; [destruct t; simpl in *; by subst|]. rewrite app_nil_r. simpl length. rewrite Nat.sub_0_r. by destruct killed. }
  destruct (models_take o t c q M Eq) as [Hb M1]. rewrite Hb. unfold mbind at 1, K_bind at 1, set_obj at 1, modify at 1. cbn [obj loc woke].
  destruct (Z.eqb_spec c CTRL_D) as [->|HD].
  { unfold mbind, K_bind, gets, set_obj, modify, mret, K_ret. cbn [obj]. rewrite app_nil_r. simpl length.
    destruct (Nat.ltb_spec (S n) target).
    - rewrite (proj2 (Nat.eqb_neq _ _)) by lia. exists (set_r (u32 (u32 (ir o + 1) - 1)) (set_r (u32 (ir o + 1)) o)).
      split; [|cbn [length]; f_equal; f_equal; lia]. destruct t; simpl in *. rewrite <- Eq. by apply models_untake.
    - rewrite (proj2 (Nat.eqb_eq _ _)) by lia. eexists. split; [exact M1|]. cbn [length]; f_equal; f_equal; lia. }
  destruct (Z.eqb_spec c 10) as [->|HN].
  { eexists. split; [exact M1|]. unfold mret, K_ret. cbn [length]. f_equal. f_equal. lia. }
  specialize (IH ltac:(lia) (dst ++ [c]) _ _ M1). rewrite (proj2 (Nat.eqb_neq n target)) in IH by lia. cbn [input] in IH.
  destruct (tty_read false n q) as [[d q'] f]. destruct IH as (o'&M'&Hr). exists o'. split; [done|].
  rewrite Hr, <- app_assoc. cbn [length]. destruct f; [f_equal; f_equal; lia|]. done.
Qed.

Lemma write_run bs o t l wk : models o t →
  ∃ o', consolewrite bs (Mst o l wk) = Ret (RWrite (Z.of_nat (length bs))) (Mst o' l wk) ∧
    models o' {| input := input t; edit := edit t; output := output t ++ mjoin ((λ b, echo (Z.land b 255)) <$> bs) |}.
Proof.
  intros M. unfold consolewrite. generalize (Z.of_nat (length bs)) as k. intros k. revert o t M.
  induction bs as [|b bs IH]; intros o t M; simpl.
  { exists o. split; [done|]. rewrite app_nil_r. by destruct t. }
  destruct (consputc_run (Z.land b 255) o l wk) as (o1&Hr&Hs); [apply M|apply M|].
  set (t1 := {| input := input t; edit := edit t; output := output t ++ echo (Z.land b 255) |}).
  assert (M1 : models o1 t1) by (split; [by eapply ring_shown; [apply M|..]|apply M]).
  destruct (IH o1 t1 M1) as (o2&Hr2&M2). exists o2. unfold mbind, K_bind in *. rewrite Hr. split; [done|].
  cbn [t1 input edit output] in M2. by rewrite <- app_assoc in M2.
Qed.

(** ** Calls *)

(** getc() returns bytes, and a read has no more left than it was asked for. *)
Definition call_ok (c : call) : Prop :=
  match c with CIntr cs => Forall (λ c, 0 ≤ c < 256) cs | CRead target n _ => (n ≤ target)%nat | CWrite _ => True end.

(** What a run of a call does: the new console, whether it wakes the readers, and the
    result, or the call that goes on when a reader that sleeps is woken. *)
Definition tty_op (killed : bool) (c : call) (t : tty) : tty * bool * (ret + call) :=
  match c with
  | CIntr cs => let '(t', b) := tty_keys cs t in (t', b, inl (RIntr (existsb (Z.eqb CTRL_P) cs)))
  | CRead target n dst =>
      let '(d, q, f) := tty_read (n =? target)%nat n (input t) in
      (with_input q t, false,
       if f then inl (RRead (Z.of_nat target - Z.of_nat n + Z.of_nat (length d)) (dst ++ d))
       else if killed then inl (RRead (-1) (dst ++ d)) else inr (CRead target (n - length d) (dst ++ d)))
  | CWrite bs =>
      ({| input := input t; edit := edit t; output := output t ++ mjoin ((λ b, echo (Z.land b 255)) <$> bs) |}, false,
       inl (RWrite (Z.of_nat (length bs))))
  end.

(** A run has the outcome that [tty_op] says. *)
Definition run_as (killed : bool) (c : call) (o : con) (t : tty) : Prop :=
  let '(t', b, out) := tty_op killed c t in
  wrun (console_op killed) (Mst o c [])
    (λ r st, models (obj st) t' ∧ out = inl r ∧ loc st = c ∧ ∀ ch, ch ∈ woke st ↔ ch = ChInput ∧ b = true)
    (λ ch st, models (obj st) t' ∧ out = inr (loc st) ∧ ch = ChInput ∧ ∀ ch, ch ∈ woke st ↔ ch = ChInput ∧ b = true).

Lemma console_op_run killed c o t : models o t → call_ok c → run_as killed c o t.
Proof.
  intros M Hc. unfold run_as, console_op, wrun, mbind, K_bind, gets. cbn [loc]. destruct c as [cs|target n dst|bs]; cbn [tty_op].
  - destruct (intr_run cs false o t (CIntr cs) [] M Hc) as (o'&wk'&Hr&M'&Hw). destruct (tty_keys cs t) as [t' b]. rewrite Hr.
    split; [done|]. split; [done|]. split; [done|]. intros ch. rewrite Hw, elem_of_nil. naive_solver.
  - pose proof (read_run killed target n dst o t (CRead target n dst) [] M Hc) as H.
    destruct (tty_read _ n (input t)) as [[d q] f]. destruct H as (o'&M'&Hr). rewrite Hr.
    assert (Hw : ∀ ch, ch ∈ ([] : list chan) ↔ ch = ChInput ∧ false = true) by (intros ch; rewrite elem_of_nil; naive_solver).
    destruct f; [done|]. destruct killed; done.
  - destruct (write_run bs o t (CWrite bs) [] M) as (o'&Hr&M'). rewrite Hr. split; [done|]. split; [done|]. split; [done|].
    intros ch. simpl. rewrite elem_of_nil. naive_solver.
Qed.

Lemma tty_char_input c t : (tty_char c t).2 = false → input (tty_char c t).1 = input t.
Proof. unfold tty_char. destruct (negb (c =? 0) && _); [|done]. cbv zeta. destruct (_ || _); done. Qed.
Lemma tty_keys_input cs t : (tty_keys cs t).2 = false → input (tty_keys cs t).1 = input t.
Proof.
  revert t. induction cs as [|c cs IH]; intros t; cbn [tty_keys]; [done|].
  assert (Hk : (tty_key c t).2 = false → input (tty_key c t).1 = input t).
  { unfold tty_key. destruct (c =? CTRL_P); [done|]. destruct (c =? CTRL_U); [done|].
    destruct (_ || _); [intros _; by destruct (edit t)|apply tty_char_input]. }
  destruct (tty_key c t) as [t1 b1]. specialize (IH t1). destruct (tty_keys cs t1) as [t2 b2]. simpl in *.
  intros [-> ->]%orb_false_iff. rewrite IH, Hk; done.
Qed.
Lemma tty_read_left first n q : let '(d, q', f) := tty_read first n q in (q = [] → q' = []) ∧ (f = false → q' = []).
Proof.
  revert first q. induction n as [|n IH]; intros first q; cbn [tty_read]; [done|]. destruct q as [|c q]; [done|].
  destruct (c =? CTRL_D); [by destruct first|]. destruct (c =? 10); [done|]. specialize (IH false q). destruct (tty_read false n q) as [[d q'] f].
  split; [done|]. apply IH.
Qed.

(** A reader that sleeps has nothing to read. *)
Definition starved (ch : chan) (o : con) : Prop := ch = ChInput ∧ ir o = iw o.
Definition console_ok (o : con) (_ : list (nat * call * ret)) : Prop := ∃ t, models o t.

Lemma starved_input o t : models o t → ir o = iw o ↔ input t = [].
Proof. intros M. rewrite <- Z.eqb_eq, (ring_no_input o t (proj1 M)), bool_decide_eq_true. done. Qed.

Lemma tty_op_input killed c t : let '(t', b, out) := tty_op killed c t in
  (input t = [] → b = false → input t' = []) ∧ (∀ c', out = inr c' → input t' = []) ∧ (call_ok c → ∀ c', out = inr c' → call_ok c').
Proof.
  destruct c as [cs|target n dst|bs]; cbn [tty_op].
  - pose proof (tty_keys_input cs t) as H. destruct (tty_keys cs t) as [t' b]. simpl in *. split; [|done]. intros Hi Hb. by rewrite H.
  - pose proof (tty_read_left (n =? target)%nat n (input t)) as H. destruct (tty_read _ n (input t)) as [[d q] f]. destruct H as [H1 H2].
    split; [intros Hi _; by apply H1|]. split; [intros c' Hc; apply H2; by destruct f|].
    intros Hok c' Hc. destruct f; [done|]. destruct killed; [done|]. injection Hc as <-. simpl in *. lia.
  - done.
Qed.

Lemma console_keeps : run_keeps (λ _ killed, console_op killed) console_ok (λ _ _ c, call_ok c).
Proof.
  intros p k o l log [t M] Hl. pose proof (console_op_run k l o t M Hl) as H. unfold run_as in H.
  pose proof (tty_op_input k l t) as Hi. destruct (tty_op k l t) as [[t' b] out]. eapply wrun_mono; [exact H|..].
  - intros r st (M'&_). split; [by exists t'|done].
  - intros ch st (M'&->&_). split; [by exists t'|]. split; [|done]. by apply Hi.
Qed.
Lemma console_wakes k : run_wakes (λ _ killed, console_op killed) console_ok (λ _ _ c, call_ok c) starved k.
Proof.
  intros p o l log [t M] Hl wakes. pose proof (console_op_run k l o t M Hl) as H. unfold run_as in H.
  pose proof (tty_op_input k l t) as Hi. destruct (tty_op k l t) as [[t' b] out]. destruct Hi as (Hi1&Hi2&_).
  assert (Hw : ∀ st, models (obj st) t' → (∀ ch, ch ∈ woke st ↔ ch = ChInput ∧ b = true) → wakes st).
  { intros st M' Hst ch [-> He]. rewrite Hst. destruct b; [by right|left]. split; [done|]. apply (starved_input _ _ M'), Hi1; [|done].
    by apply (starved_input _ _ M). }
  eapply wrun_mono; [exact H|..].
  - intros r st (M'&_&_&Hst). by apply Hw.
  - intros ch st (M'&->&->&Hst). split; [by apply Hw|]. split; [done|]. apply (starved_input _ _ M'). by apply (Hi2 (loc st)).
Qed.

(** C36: every run of consoleintr, consoleread and consolewrite does what [tty_op] says
    of a console with editable lines: keys edit the line or hand it over, a read takes
    up to a line, an end of file or the bytes asked for, and the output is echoed; the
    ring buffer never overflows, its indices may wrap around, and the cursor stays on
    the screen.  And however calls and interrupts interleave, a process sleeps in
    consoleread only while there is no input for it. *)
Theorem console_refines_tty :
  (∀ killed c o t, models o t → call_ok c → run_as killed c o t) ∧
  (∀ s0 s : @msys con call ret, quiet s0 → console_ok (m_obj s0) [] →
     rtc (mstep (λ _ killed, console_op killed) (λ _ _ c, call_ok c)) s0 s →
     console_ok (m_obj s) [] ∧ ∀ i ch c, m_thr s i = TAsleep ch c → starved ch (m_obj s)).
Proof.
  split; [apply console_op_run|]. intros s0 s Hq H0 Hr. split.
  - apply (minv_reachable _ _ _ _ s0 s console_keeps (λ _ _ _ H, H) Hq H0 Hr).
  - intros i ch c. apply (asleep_waits (λ _ killed, console_op killed) (λ _ _ c, call_ok c) console_ok (λ _ _ c, call_ok c) starved (λ _, True) s0 s console_keeps); try done.
    + intros k _. apply console_wakes.
    + clear -Hr. induction Hr as [|s1 s2 s3 Hs _ IH]; [constructor|]. econstructor; [|exact IH]. by split.
Qed.

(** The console as it is at boot, and the empty line. *)
Definition con0 : con :=
  {| buf := λ _, 0; ir := 0; iw := 0; ie := 0; uart := []; crt := λ _, 0; pos := 0; panicked := false |}.
Definition tty0 : tty := {| input := []; edit := []; output := [] |}.
Lemma models0 : models con0 tty0.
Proof. split; [|constructor]. split; simpl; try done; unfold INPUT_BUF; lia. Qed.

(** The keys l, z, backspace, s, Enter: a read then gets the line. *)
Lemma console_refines_tty_witness :
  let t := (tty_keys [108; 122; 8; 115; 10] tty0).1 in
  run_as false (CIntr [108; 122; 8; 115; 10]) con0 tty0 ∧ input t = [108; 115; 10] ∧
  tty_op false (CRead 80 80 []) t = (with_input [] t, false, inl (RRead 3 [108; 115; 10])).
Proof.
  split; [|split; vm_compute; reflexivity]. apply (proj1 console_refines_tty); [apply models0|].
  simpl. repeat constructor; lia.
Defined.

End Console.
