(* ===== verification/Kbd.v ===== *)
(** The keyboard (src/kbd.c, with the tables of src/kbd.h): from scan codes to the
    characters that consoleintr reads.

    The state is the variable shift and the scan codes that wait in the controller. *)

From Stdlib Require Import ZArith Lia.
From stdpp Require Import base tactics numbers strings list.
From S2P Require Import Prelude Monitor Console.

#[local] Open Scope Z_scope.

Definition SHIFT : Z := 1.
Definition CTL : Z := 2.
Definition ALT : Z := 4.
Definition CAPSLOCK : Z := 8.
Definition NUMLOCK : Z := 16.
Definition SCROLLLOCK : Z := 32.
Definition E0ESC : Z := 64.

(** A table of 256 bytes: the first entries, and those with an index. *)
Definition table (l : list Z) (d : list (nat * Z)) : list Z :=
  foldl (λ t '(i, v), <[i := v]> t) (l ++ replicate (256 - length l) 0) d.

Definition shiftcode : list Z := table
  []
  [(29%nat, 2); (42%nat, 1); (54%nat, 1); (56%nat, 4); (157%nat, 2); (184%nat, 4)].
Definition togglecode : list Z := table
  []
  [(58%nat, 8); (69%nat, 16); (70%nat, 32)].
Definition normalmap : list Z := table
  [0; 27; 49; 50; 51; 52; 53; 54; 55; 56; 57; 48; 45; 61; 8; 9;
   113; 119; 101; 114; 116; 121; 117; 105; 111; 112; 91; 93; 10; 0; 97; 115;
   100; 102; 103; 104; 106; 107; 108; 59; 39; 96; 0; 92; 122; 120; 99; 118;
   98; 110; 109; 44; 46; 47; 0; 42; 0; 32; 0; 0; 0; 0; 0; 0;
   0; 0; 0; 0; 0; 0; 0; 55; 56; 57; 45; 52; 53; 54; 43; 49;
   50; 51; 48; 46; 0; 0; 0; 0]
  [(156%nat, 10); (181%nat, 47); (200%nat, 226); (208%nat, 227); (201%nat, 230); (209%nat, 231); (203%nat, 228); (205%nat, 229); (151%nat, 224); (207%nat, 225); (210%nat, 232); (211%nat, 233)].
Definition shiftmap : list Z := table
  [0; 27; 33; 64; 35; 36; 37; 94; 38; 42; 40; 41; 95; 43; 8; 9;
   81; 87; 69; 82; 84; 89; 85; 73; 79; 80; 123; 125; 10; 0; 65; 83;
   68; 70; 71; 72; 74; 75; 76; 58; 34; 126; 0; 124; 90; 88; 67; 86;
   66; 78; 77; 60; 62; 63; 0; 42; 0; 32; 0; 0; 0; 0; 0; 0;
   0; 0; 0; 0; 0; 0; 0; 55; 56; 57; 45; 52; 53; 54; 43; 49;
   50; 51; 48; 46; 0; 0; 0; 0]
  [(156%nat, 10); (181%nat, 47); (200%nat, 226); (208%nat, 227); (201%nat, 230); (209%nat, 231); (203%nat, 228); (205%nat, 229); (151%nat, 224); (207%nat, 225); (210%nat, 232); (211%nat, 233)].
Definition ctlmap : list Z := table
  [0; 0; 0; 0; 0; 0; 0; 0; 0; 0; 0; 0; 0; 0; 0; 0;
   17; 23; 5; 18; 20; 25; 21; 9; 15; 16; 0; 0; 13; 0; 1; 19;
   4; 6; 7; 8; 10; 11; 12; 0; 0; 0; 0; 28; 26; 24; 3; 22;
   2; 14; 13; 0; 0; 239; 0; 0]
  [(156%nat, 13); (181%nat, 239); (200%nat, 226); (208%nat, 227); (201%nat, 230); (209%nat, 231); (203%nat, 228); (205%nat, 229); (151%nat, 224); (207%nat, 225); (210%nat, 232); (211%nat, 233)].

Definition at_ (t : list Z) (i : Z) : Z := default 0 (t !! Z.to_nat i).

(** charcode[shift & (CTL | SHIFT)][data] *)
Definition charcode (shift data : Z) : Z :=
  at_ (match Z.land shift (Z.lor CTL SHIFT) with 0 => normalmap | 1 => shiftmap | _ => ctlmap end) data.

(** kbdgetc with a scan code: what it returns, and shift. *)
Definition kbdcode (data shift : Z) : Z * Z :=
  if data =? 224 then (0, Z.lor shift E0ESC)
  else if truth (Z.land data 128) then
    let data := if truth (Z.land shift E0ESC) then data else Z.land data 127 in
    (0, Z.land shift (Z.lnot (Z.lor (at_ shiftcode data) E0ESC)))
  else
    let '(data, shift) := if truth (Z.land shift E0ESC) then (Z.lor data 128, Z.land shift (Z.lnot E0ESC)) else (data, shift) in
    let shift := Z.lor shift (at_ shiftcode data) in
    let shift := Z.lxor shift (at_ togglecode data) in
    let c := charcode shift data in
    let c := if truth (Z.land shift CAPSLOCK) then
               if (97 <=? c) && (c <=? 122) then c + (65 - 97)
               else if (65 <=? c) && (c <=? 90) then c + (97 - 65) else c
             else c in
    (c, shift).

Record kbd := { k_shift : Z; k_port : list Z }.
Definition kbdgetc : K kbd Z :=
  gets k_port ≫= λ port,
  match port with
  | [] => mret (-1)
  | data :: port' =>
      gets k_shift ≫= λ sh,
      let '(c, sh') := kbdcode data sh in
      put {| k_shift := sh'; k_port := port' |} ≫= λ _, mret c
  end.

(** The characters that the loop of consoleintr gets. *)
Fixpoint getc_all (fuel : nat) : K kbd (list Z) :=
  kbdgetc ≫= λ c,
  if c <? 0 then mret [] else
  match fuel with
  | O => diverge
  | S fuel' => getc_all fuel' ≫= λ cs, mret (c :: cs)
  end.

(** ** All scan codes in all states *)

Definition codes : list (Z * Z) := x ← seqZ 0 256; y ← seqZ 0 128; mret (x, y).
Lemma codes_all data shift : is_u8 data → 0 ≤ shift < 128 → (data, shift) ∈ codes.
Proof.
  intros H1 H2. unfold codes. apply list_elem_of_bind. exists data. split; [|apply elem_of_seqZ; unfold is_u8 in H1; lia].
  apply list_elem_of_bind. exists shift. split; [by apply list_elem_of_singleton|apply elem_of_seqZ; lia].
Qed.
Lemma codes_check (P : Z * Z → bool) data shift :
  forallb P codes = true → is_u8 data → 0 ≤ shift < 128 → P (data, shift) = true.
Proof.
  intros Hf H1 H2. rewrite forallb_forall in Hf. apply Hf. apply list_elem_of_In. by apply codes_all.
Qed.

Definition in_range (x : Z * Z) : bool :=
  let '(c, sh) := kbdcode (fst x) (snd x) in (0 <=? c) && (c <? 256) && (0 <=? sh) && (sh <? 128).
Lemma kbdcode_range data shift : is_u8 data → 0 ≤ shift < 128 →
  0 ≤ (kbdcode data shift).1 < 256 ∧ 0 ≤ (kbdcode data shift).2 < 128.
Proof.
  intros H1 H2. assert (Hf : forallb in_range codes = true) by (vm_compute; reflexivity).
  pose proof (codes_check in_range data shift Hf H1 H2) as H. unfold in_range in H. simpl in H.
  destruct (kbdcode data shift) as [c sh]. rewrite !andb_true_iff, !Z.leb_le, !Z.ltb_lt in H. simpl. lia.
Qed.

(** The letter of a key: what the normal map has for it. *)
Definition is_letter (n : Z) : bool := (97 <=? n) && (n <=? 122).
Definition letter_code (shift n : Z) : Z :=
  if Z.testbit shift 1 then n - 96 else if xorb (Z.testbit shift 0) (Z.testbit shift 3) then n - 32 else n.
Definition letter_ok (x : Z * Z) : bool :=
  let '(data, sh) := x in
  negb ((data <? 128) && negb (Z.testbit sh 6) && is_letter (at_ normalmap data))
  || bool_decide (kbdcode data sh = (letter_code sh (at_ normalmap data), sh)).
Lemma kbdcode_letter data shift : 0 ≤ data < 128 → 0 ≤ shift < 64 → is_letter (at_ normalmap data) = true →
  kbdcode data shift = (letter_code shift (at_ normalmap data), shift).
Proof.
  intros H1 H2 Hl. assert (Hf : forallb letter_ok codes = true) by (vm_compute; reflexivity).
  assert (H := codes_check letter_ok data shift Hf ltac:(unfold is_u8; lia) ltac:(lia)). unfold letter_ok in H.
  rewrite Hl in H. replace (data <? 128) with true in H by (symmetry; apply Z.ltb_lt; lia).
  replace (Z.testbit shift 6) with false in H; [|symmetry; apply Z.bits_above_log2; [lia|]].
  - by apply bool_decide_eq_true in H.
  - destruct (decide (shift = 0)) as [->|]; [done|]. apply Z.log2_lt_pow2; lia.
Qed.

(** A key that is pressed and released: the modifiers are as before, those the key
    stands for apart; a toggle key has changed its bit. *)
Definition press_release (data shift : Z) : Z := (kbdcode (data + 128) (kbdcode data shift).2).2.
Definition press_ok (x : Z * Z) : bool :=
  let '(data, sh) := x in
  negb ((data <? 128) && negb (data =? 96) && negb (Z.testbit sh 6))
  || (press_release data sh =? Z.lxor (Z.land sh (Z.lnot (at_ shiftcode data))) (at_ togglecode data)).
Lemma press_release_spec data shift : 0 ≤ data < 128 → data ≠ 96 → 0 ≤ shift < 64 →
  press_release data shift = Z.lxor (Z.land shift (Z.lnot (at_ shiftcode data))) (at_ togglecode data).
Proof.
  intros H1 H96 H2. assert (Hf : forallb press_ok codes = true) by (vm_compute; reflexivity).
  assert (H := codes_check press_ok data shift Hf ltac:(unfold is_u8; lia) ltac:(lia)). unfold press_ok in H.
  replace (data <? 128) with true in H by (symmetry; apply Z.ltb_lt; lia).
  replace (data =? 96) with false in H by (symmetry; apply Z.eqb_neq; lia).
  replace (Z.testbit shift 6) with false in H; [|symmetry; apply Z.bits_above_log2; [lia|]].
  - by apply Z.eqb_eq in H.
  - destruct (decide (shift = 0)) as [->|]; [done|]. apply Z.log2_lt_pow2; lia.
Qed.

(** ** The loop of an interrupt *)

Lemma getc_all_run port shift : 0 ≤ shift < 128 → Forall is_u8 port →
  ∃ cs sh, getc_all (length port) {| k_shift := shift; k_port := port |} = Ret cs {| k_shift := sh; k_port := [] |} ∧
    length cs = length port ∧ 0 ≤ sh < 128 ∧ Forall (λ c, 0 ≤ c < 256) cs.
Proof.
  intros Hs Hp. revert shift Hs. induction Hp as [|d port Hd Hp IH]; intros shift Hs; simpl.
  { exists [], shift. done. }
  destruct (kbdcode_range d shift Hd Hs) as [Hc Hs']. unfold kbdgetc, gets, put, mbind, K_bind. cbn [k_shift k_port].
  destruct (kbdcode d shift) as [c sh1]. cbn [fst snd] in *. unfold mret at 1, K_ret at 1. rewrite (proj2 (Z.ltb_ge c 0)) by lia.
  destruct (IH sh1 Hs') as (cs&sh&Hr&Hl&Hsh&Hf). rewrite Hr. exists (c :: cs), sh. simpl.
  split; [done|]. split; [by rewrite Hl|]. split; [done|]. by constructor.
Qed.

(** kbdintr: consoleintr with kbdgetc, on the keyboard and the console.  kbdgetc and
    the rest of the loop share no state, so its calls can be made first. *)
Definition kbdintr (k : kbd) (o : Console.con) : option (kbd * outcome (mst Console.con Console.call) Console.ret) :=
  match getc_all (length (k_port k)) k with
  | Ret cs k' => Some (k', Console.console_op false (Mst o (Console.CIntr cs) []))
  | _ => None
  end.

Lemma kbdintr_run k o t : 0 ≤ k_shift k < 128 → Forall is_u8 (k_port k) → Console.models o t →
  ∃ cs k' r st, getc_all (length (k_port k)) k = Ret cs k' ∧ kbdintr k o = Some (k', Ret r st) ∧
    length cs = length (k_port k) ∧ Forall (λ c, 0 ≤ c < 256) cs ∧ k_port k' = [] ∧ 0 ≤ k_shift k' < 128 ∧
    Console.models (obj st) (Console.tty_keys cs t).1.
Proof.
  intros Hs Hp M. destruct k as [shift port]. simpl in *. destruct (getc_all_run port shift Hs Hp) as (cs&sh&Hr&Hl&Hsh&Hf).
  pose proof (Console.console_op_run false (Console.CIntr cs) o t M Hf) as H. unfold Console.run_as, wrun in H. simpl in H.
  unfold kbdintr. simpl. rewrite Hr. destruct (Console.tty_keys cs t) as [t' b] eqn:Ek.
  destruct (Console.console_op _ _) as [r st| | | |] eqn:E; try done.
  - exists cs, {| k_shift := sh; k_port := [] |}, r, st. destruct H as [M' _]. rewrite Ek. split_and!; try done; simpl; lia.
  - by destruct H as (_&H&_).
Qed.

(** C37: whatever scan codes wait in the controller, an interrupt reads them all and
    returns, kbdgetc gives a byte for each, shift keeps to its seven flags, and the
    console does what its line discipline says of these bytes.  A letter key gives its
    control character under Ctrl and otherwise the capital exactly when one of Shift and
    Caps Lock is on; a key pressed and released leaves the modifiers as they were, its
    own flag apart, which is clear, or changed when it is a lock.  The Home key (E0 47)
    gives nothing, although the tables have KEY_HOME. *)
Theorem keyboard_input k o t :
  0 ≤ k_shift k < 128 → Forall is_u8 (k_port k) → Console.models o t →
  (∃ cs k' r st, getc_all (length (k_port k)) k = Ret cs k' ∧ kbdintr k o = Some (k', Ret r st) ∧
     length cs = length (k_port k) ∧ Forall (λ c, 0 ≤ c < 256) cs ∧ k_port k' = [] ∧ 0 ≤ k_shift k' < 128 ∧
     Console.models (obj st) (Console.tty_keys cs t).1) ∧
  (∀ data shift, 0 ≤ data < 128 → 0 ≤ shift < 64 →
     (is_letter (at_ normalmap data) = true → kbdcode data shift = (letter_code shift (at_ normalmap data), shift)) ∧
     (data ≠ 96 → press_release data shift = Z.lxor (Z.land shift (Z.lnot (at_ shiftcode data))) (at_ togglecode data))) ∧
  (∀ shift, 0 ≤ shift < 64 → (kbdcode 71 (kbdcode 224 shift).2).1 = 0).
Proof.
  intros Hs Hp M. split; [by apply kbdintr_run|]. split.
  - intros data shift H1 H2. split; [by apply kbdcode_letter|]. intros H96. by apply press_release_spec.
  - intros shift H. assert (Hf : forallb (λ sh, (kbdcode 71 (kbdcode 224 sh).2).1 =? 0) (seqZ 0 64) = true) by (vm_compute; reflexivity).
    rewrite forallb_forall in Hf. apply Z.eqb_eq, Hf, list_elem_of_In, elem_of_seqZ. lia.
Qed.

(** Shift held, h, Shift released, i, Enter: the line is Hi. *)
Lemma keyboard_input_witness :
  let k := {| k_shift := 0; k_port := [42; 35; 170; 23; 28] |} in
  getc_all 5 k = Ret [0; 72; 0; 105; 10] {| k_shift := 0; k_port := [] |} ∧
  (Console.tty_keys [0; 72; 0; 105; 10] Console.tty0).1.(Console.input) = [72; 105; 10] ∧
  ∃ cs k' r st, getc_all 5 k = Ret cs k' ∧ kbdintr k Console.con0 = Some (k', Ret r st) ∧
    length cs = 5%nat ∧ Forall (λ c, 0 ≤ c < 256) cs ∧ k_port k' = [] ∧ 0 ≤ k_shift k' < 128 ∧
    Console.models (obj st) (Console.tty_keys cs Console.tty0).1.
Proof.
  split; [vm_compute; reflexivity|]. split; [vm_compute; reflexivity|].
  apply (keyboard_input {| k_shift := 0; k_port := [42; 35; 170; 23; 28] |} Console.con0 Console.tty0).
  - simpl. lia.
  - repeat constructor; unfold is_u8; simpl; lia.
  - apply Console.models0.
Defined.
