(* ===== verification/Printf.v ===== *)
(** Formatted output: printf and putc of src/printf.c, cprintf of src/console.c, their
    two copies of printint, and atoi of src/ulib.c.

    Formats, arguments and strings are read from memory, where the C code finds them:
    the arguments are the words above the format on the stack. The output of printf is
    the list of bytes it passes to write, one at a time. *)

From Stdlib Require Import ZArith Lia.
From stdpp Require Import base tactics numbers gmap strings list.
From S2P Require Import Prelude Memory Monitor Console.

#[local] Open Scope Z_scope.

(** ** Numbers *)

Definition upper_digits : list Z := [48; 49; 50; 51; 52; 53; 54; 55; 56; 57; 65; 66; 67; 68; 69; 70].
Definition lower_digits : list Z := [48; 49; 50; 51; 52; 53; 54; 55; 56; 57; 97; 98; 99; 100; 101; 102].
Definition null_text : list Z := [40; 110; 117; 108; 108; 41].

(** char buf[16]; [None] when the index leaves it. *)
Definition buf_put (c : Z) (buf : list Z) : option (list Z) :=
  if (length buf <? 16)%nat then Some (buf ++ [c]) else None.

(** do { buf[i++] = digits[x % base]; } while((x /= base) != 0); *)
Fixpoint int_loop (fuel : nat) (digits : list Z) (base x : Z) (buf : list Z) : option (list Z) :=
  buf_put (default 0 (digits !! Z.to_nat (x mod base))) buf ≫= λ buf,
  if x / base =? 0 then Some buf else
  match fuel with O => None | S fuel' => int_loop fuel' digits base (x / base) buf end.

(** printint: the characters in the order in which they are put out. The buffer has 16
    bytes, so that 16 is enough fuel. *)
Definition printint (digits : list Z) (xx base : Z) (sign : bool) : option (list Z) :=
  let neg := sign && (xx <? 0) in
  let x := if neg then u32 (- xx) else u32 xx in
  int_loop 16 digits base x [] ≫= λ buf,
  (if neg then buf_put 45 buf else Some buf) ≫= λ buf,
  Some (reverse buf).

Fixpoint atoi_loop (fuel : nat) (m : mem) (s n : Z) : option Z :=
  let c := s8 (rd8 m s) in
  if (48 <=? c) && (c <=? 57) then
    match fuel with O => None | S fuel' => atoi_loop fuel' m (s + 1) (s32 (n * 10 + c - 48)) end
  else Some n.
Definition atoi (fuel : nat) (m : mem) (s : Z) : option Z := atoi_loop fuel m s 0.

(** ** printf *)

(** while( *s != 0) { putc(fd, *s); s++; } *)
Fixpoint str_out (fuel : nat) (m : mem) (s : Z) : option (list Z) :=
  if rd8 m s =? 0 then Some [] else
  match fuel with O => None | S fuel' => str_out fuel' m (s + 1) ≫= λ l, Some (rd8 m s :: l) end.

(** A character after %: what is put out and the next argument. *)
Definition printf_conv (fuel : nat) (m : mem) (c ap : Z) : option (list Z * Z) :=
  if c =? 100 then printint upper_digits (s32 (rd32 m ap)) 10 true ≫= λ l, Some (l, ap + 4)
  else if (c =? 120) || (c =? 112) then printint upper_digits (s32 (rd32 m ap)) 16 false ≫= λ l, Some (l, ap + 4)
  else if c =? 115 then
    (if rd32 m ap =? 0 then Some null_text else str_out fuel m (rd32 m ap)) ≫= λ l, Some (l, ap + 4)
  else if c =? 99 then Some ([u8 (rd32 m ap)], ap + 4)
  else if c =? 37 then Some ([c], ap)
  else Some ([37; c], ap).

Fixpoint printf_loop (fuel : nat) (m : mem) (fmt ap state : Z) : option (list Z) :=
  let c := rd8 m fmt in
  if c =? 0 then Some [] else
  match fuel with
  | O => None
  | S fuel' =>
      if state =? 0 then
        if c =? 37 then printf_loop fuel' m (fmt + 1) ap 37
        else printf_loop fuel' m (fmt + 1) ap state ≫= λ l, Some (c :: l)
      else
        printf_conv fuel m c ap ≫= λ '(l, ap),
        printf_loop fuel' m (fmt + 1) ap 0 ≫= λ l', Some (l ++ l')
  end.
(** [ap] is the address of the word above the parameter fmt. *)
Definition printf (fuel : nat) (m : mem) (fmt ap : Z) : option (list Z) := printf_loop fuel m fmt ap 0.

(** ** cprintf *)

Definition cprintint (xx base : Z) (sign : bool) : Console.M unit :=
  match printint lower_digits xx base sign with
  | Some l => for_each l Console.consputc
  | None => fault "printint: buf"
  end.

Fixpoint cstr_out (fuel : nat) (m : mem) (s : Z) : Console.M unit :=
  if rd8 m s =? 0 then mret tt else
  match fuel with O => diverge | S fuel' => Console.consputc (s8 (rd8 m s)) ≫= λ _, cstr_out fuel' m (s + 1) end.

(** The switch of cprintf: the next argument. *)
Definition cprintf_conv (fuel : nat) (m : mem) (c argp : Z) : Console.M Z :=
  if c =? 100 then cprintint (s32 (rd32 m argp)) 10 true ≫= λ _, mret (argp + 4)
  else if (c =? 120) || (c =? 112) then cprintint (s32 (rd32 m argp)) 16 false ≫= λ _, mret (argp + 4)
  else if c =? 115 then
    (if rd32 m argp =? 0 then for_each null_text Console.consputc else cstr_out fuel m (rd32 m argp)) ≫= λ _, mret (argp + 4)
  else if c =? 37 then Console.consputc 37 ≫= λ _, mret argp
  else Console.consputc 37 ≫= λ _, Console.consputc c ≫= λ _, mret argp.

Fixpoint cprintf_loop (fuel : nat) (m : mem) (fmt argp : Z) : Console.M unit :=
  let c := rd8 m fmt in
  if c =? 0 then mret tt else
  match fuel with
  | O => diverge
  | S fuel' =>
      if negb (c =? 37) then Console.consputc c ≫= λ _, cprintf_loop fuel' m (fmt + 1) argp
      else
        let c := rd8 m (fmt + 1) in
        if c =? 0 then mret tt else
        cprintf_conv fuel m c argp ≫= λ argp, cprintf_loop fuel' m (fmt + 2) argp
  end.
Definition cprintf (fuel : nat) (m : mem) (fmt argp : Z) : Console.M unit :=
  if fmt =? 0 then panic "null fmt" else cprintf_loop fuel m fmt argp.

(** ** What a format means *)

(** The numeral of [n], most significant digit first. *)
Fixpoint numeral_fuel (fuel : nat) (digits : list Z) (base n : Z) : list Z :=
  (if n / base =? 0 then []
   else match fuel with O => [] | S fuel' => numeral_fuel fuel' digits base (n / base) end) ++
  [default 0 (digits !! Z.to_nat (n mod base))].
Definition numeral := numeral_fuel 32.
Definition decimal (digits : list Z) (x : Z) : list Z :=
  if x <? 0 then 45 :: numeral digits 10 (- x) else numeral digits 10 x.

Inductive dir := DLit (c : Z) | DInt | DHex | DStr | DChr | DUnknown (c : Z).

(** The directives of a format; [chr]: whether %c is one. A % at the end is dropped. *)
Definition directive (chr : bool) (c : Z) : dir :=
  if c =? 100 then DInt else if (c =? 120) || (c =? 112) then DHex else if c =? 115 then DStr
  else if chr && (c =? 99) then DChr else if c =? 37 then DLit 37 else DUnknown c.
Fixpoint directives (chr : bool) (f : list Z) : list dir :=
  match f with
  | [] => []
  | c :: f' =>
      if negb (c =? 37) then DLit c :: directives chr f'
      else match f' with [] => [] | d :: f'' => directive chr d :: directives chr f'' end
  end.

(** Strings and arguments in memory. *)
Inductive str_at (m : mem) : Z → list Z → Prop :=
  | str_nil a : rd8 m a = 0 → str_at m a []
  | str_cons a c l : rd8 m a = c → c ≠ 0 → is_u8 c → str_at m (a + 1) l → str_at m a (c :: l).
Inductive args_at (m : mem) : Z → list Z → Prop :=
  | args_nil a : args_at m a []
  | args_cons a w l : rd32 m a = w → is_u32 w → args_at m (a + 4) l → args_at m a (w :: l).

(** The directives put out [out] for the arguments. *)
Inductive prints (digits : list Z) (m : mem) : list dir → list Z → list Z → Prop :=
  | prints_nil args : prints digits m [] args []
  | prints_lit c ds args out : prints digits m ds args out → prints digits m (DLit c :: ds) args (c :: out)
  | prints_unknown c ds args out : prints digits m ds args out → prints digits m (DUnknown c :: ds) args (37 :: c :: out)
  | prints_int w ds args out : prints digits m ds args out →
      prints digits m (DInt :: ds) (w :: args) (decimal digits (s32 w) ++ out)
  | prints_hex w ds args out : prints digits m ds args out →
      prints digits m (DHex :: ds) (w :: args) (numeral digits 16 w ++ out)
  | prints_null ds args out : prints digits m ds args out → prints digits m (DStr :: ds) (0 :: args) (null_text ++ out)
  | prints_str w l ds args out : w ≠ 0 → str_at m w l → prints digits m ds args out →
      prints digits m (DStr :: ds) (w :: args) (l ++ out)
  | prints_chr w ds args out : prints digits m ds args out → prints digits m (DChr :: ds) (w :: args) (u8 w :: out).

(** ** Numbers *)

Lemma numeral_more f g digits base n : 2 ≤ base → 0 ≤ n < 2 ^ Z.of_nat (S f) → (f ≤ g)%nat →
  numeral_fuel g digits base n = numeral_fuel f digits base n.
Proof.
  intros Hb. revert g n. induction f as [|f IH]; intros [|g] n Hn Hg; try done; try lia; cbn [numeral_fuel]; f_equal.
  - rewrite (proj2 (Z.eqb_eq _ _)); [done|]. apply Z.div_small. change (2 ^ Z.of_nat 1) with 2 in Hn. lia.
  - destruct (n / base =? 0); [done|]. apply IH; [|lia]. split; [apply Z.div_pos; lia|]. apply Z.div_lt_upper_bound; [lia|].
    replace (2 ^ Z.of_nat (S (S f))) with (2 * 2 ^ Z.of_nat (S f)) in Hn by (rewrite (Nat2Z.inj_succ (S f)), Z.pow_succ_r by lia; done).
    nia.
Qed.
Lemma numeral_step digits base n : 2 ≤ base → is_u32 n →
  numeral digits base n = (if n / base =? 0 then [] else numeral digits base (n / base)) ++ [default 0 (digits !! Z.to_nat (n mod base))].
Proof.
  intros Hb Hn. change (numeral digits base n) with ((if n / base =? 0 then [] else numeral_fuel 31 digits base (n / base)) ++
    [default 0 (digits !! Z.to_nat (n mod base))]). destruct (n / base =? 0); [reflexivity|].
  apply (f_equal (λ l, l ++ _)). symmetry. apply numeral_more; [done| |lia]. assert (n / base ≤ n) by (apply Z.div_le_upper_bound; [lia|]; unfold is_u32 in *; nia).
  unfold is_u32 in *. split; [apply Z.div_pos; lia|]. change (2 ^ Z.of_nat 32) with 4294967296. lia.
Qed.

#[local] Opaque numeral.

(** The loop leaves the digits in reverse order; ten places are enough. *)
Lemma int_loop_run fuel digits base x buf : 10 ≤ base → 0 ≤ x < 10 ^ Z.of_nat (S fuel) → is_u32 x → (length buf + fuel < 16)%nat →
  int_loop fuel digits base x buf = Some (buf ++ reverse (numeral digits base x)) ∧ (length (numeral digits base x) ≤ S fuel)%nat.
Proof.
  intros Hb. revert x buf. induction fuel as [|fuel IH]; intros x buf Hx Hu Hl; cbn [int_loop];
    rewrite numeral_step, reverse_app, length_app by (done || lia); simpl reverse at 1; unfold buf_put;
    rewrite (proj2 (Nat.ltb_lt _ _)) by lia; cbn [mbind option_bind]; destruct (Z.eqb_spec (x / base) 0) as [E|E].
  - simpl. split; [done|lia].
  - exfalso. apply E. apply Z.div_small. change (10 ^ Z.of_nat 1) with 10 in Hx. lia.
  - simpl. split; [done|lia].
  - assert (x / base ≤ x) by (apply Z.div_le_upper_bound; [lia|]; nia).
    assert (0 ≤ x / base) by (apply Z.div_pos; lia). unfold is_u32 in *.
    destruct (IH (x / base) (buf ++ [default 0 (digits !! Z.to_nat (x mod base))])) as [-> Hlen]; [|lia|rewrite length_app; simpl; lia|].
    + split; [lia|]. apply Z.div_lt_upper_bound; [lia|].
      replace (10 ^ Z.of_nat (S (S fuel))) with (10 * 10 ^ Z.of_nat (S fuel)) in Hx by (rewrite (Nat2Z.inj_succ (S fuel)), Z.pow_succ_r by lia; done).
      nia.
    + rewrite <- app_assoc. split; [done|]. simpl. lia.
Qed.
Lemma int_loop_more fuel g digits base x buf l :
  int_loop fuel digits base x buf = Some l → (fuel ≤ g)%nat → int_loop g digits base x buf = Some l.
Proof.
  revert g x buf. induction fuel as [|fuel IH]; intros g x buf; destruct g as [|g]; try done; try lia; cbn [int_loop];
    unfold buf_put; destruct (_ <? _)%nat; try done; cbn [mbind option_bind]; destruct (_ =? 0); try done.
  intros H Hg. apply IH; [done|lia].
Qed.

Lemma printint_signed digits x : -2147483648 ≤ x < 2147483648 → printint digits x 10 true = Some (decimal digits x).
Proof.
  intros Hx. unfold printint, decimal. cbn [andb].
  assert (Hu : ∀ y, is_u32 y → int_loop 16 digits 10 y [] = Some (reverse (numeral digits 10 y)) ∧ (length (numeral digits 10 y) ≤ 10)%nat).
  { intros y Hy. destruct (int_loop_run 9 digits 10 y []) as [H Hl]; [lia| |done|simpl; lia|].
    - unfold is_u32 in Hy. change (10 ^ Z.of_nat 10) with 10000000000. lia.
    - split; [|done]. apply (int_loop_more 9); [done|lia]. }
  destruct (Z.ltb_spec x 0); rewrite u32_small by (unfold is_u32; lia).
  - destruct (Hu (- x)) as [-> Hl]; [unfold is_u32; lia|]. cbn [mbind option_bind]. unfold buf_put.
    rewrite length_reverse, (proj2 (Nat.ltb_lt _ _)) by lia. cbn [mbind option_bind]. by rewrite reverse_app, reverse_involutive.
  - destruct (Hu x) as [-> Hl]; [unfold is_u32; lia|]. cbn [mbind option_bind]. by rewrite reverse_involutive.
Qed.
Lemma printint_hex digits w : is_u32 w → printint digits (s32 w) 16 false = Some (numeral digits 16 w).
Proof.
  intros Hw. unfold printint. cbn [andb]. replace (u32 (s32 w)) with w by (unfold s32, u32, is_u32 in *; case_match; zlia).
  destruct (int_loop_run 9 digits 16 w []) as [H Hl]; [lia| |done|simpl; lia|].
  - unfold is_u32 in Hw. change (10 ^ Z.of_nat 10) with 10000000000. lia.
  - rewrite (int_loop_more 9 16 _ _ _ _ _ H) by lia. cbn [mbind option_bind]. by rewrite app_nil_l, reverse_involutive.
Qed.

(** What a numeral is: digits below the base, without leading zeros, with the value. *)
Definition digits_of (base n : Z) (ds : list Z) : Prop :=
  foldl (λ a d, base * a + d) 0 ds = n ∧ Forall (λ d, 0 ≤ d < base) ds ∧ (head ds = Some 0 → n = 0) ∧ ds ≠ [].
Lemma numeral_digits digits base n : 2 ≤ base → is_u32 n →
  ∃ ds, numeral digits base n = (λ d, default 0 (digits !! Z.to_nat d)) <$> ds ∧ digits_of base n ds.
Proof.
  intros Hb Hn. assert (H0 : 0 ≤ n) by (unfold is_u32 in Hn; lia). revert n H0 Hn. refine (Z_lt_induction _ _). intros n IH Hn.
  rewrite numeral_step by done. pose proof (Z.mod_pos_bound n base ltac:(lia)) as Hm. pose proof (Z.div_mod n base ltac:(lia)) as Hd.
  destruct (Z.eqb_spec (n / base) 0) as [E|E].
  - exists [n mod base]. split; [done|]. split; [simpl; lia|]. split; [by apply Forall_singleton|]. split; [simpl; intros [= H]; lia|done].
  - assert (0 ≤ n / base) by (apply Z.div_pos; unfold is_u32 in *; lia). assert (n / base < n) by (apply Z.div_lt; unfold is_u32 in *; lia).
    destruct (IH (n / base)) as (ds&->&Hv&Hf&Hh&Hne); [lia|unfold is_u32 in *; lia|].
    exists (ds ++ [n mod base]). split; [by rewrite fmap_app|]. split; [rewrite foldl_app; simpl; rewrite Hv; lia|].
    split; [apply Forall_app; split; [done|by apply Forall_singleton]|]. split; [|by destruct ds].
    destruct ds as [|d ds]; [done|]. intros Hz. exfalso. apply E, Hh. done.
Qed.

(** ** atoi *)

Definition digit_char (c : Z) : Prop := 48 ≤ c ≤ 57.
Lemma atoi_loop_run fuel m a l rest n : str_at m a (l ++ rest) → Forall digit_char l →
  (∀ c, head rest = Some c → ¬ digit_char c) → (length l ≤ fuel)%nat →
  atoi_loop fuel m a (s32 n) = Some (s32 (foldl (λ a d, 10 * a + (d - 48)) n l)).
Proof.
  revert fuel a n. induction l as [|c l IH]; intros fuel a n Hs Hd Hr Hf; cbn [app foldl] in *.
  - assert (Hn : (48 <=? s8 (rd8 m a)) && (s8 (rd8 m a) <=? 57) = false).
    { apply andb_false_iff. rewrite !Z.leb_gt. inversion Hs as [? H0|? c l' H0 Hn Hu]; subst; [rewrite H0; change (s8 0) with 0; lia|].
      specialize (Hr _ eq_refl). unfold digit_char, s8, u8, is_u8 in *. case_match; zlia. }
    destruct fuel; cbn [atoi_loop]; by rewrite Hn.
  - inversion Hs as [|? ? ? H0 Hn Hu Hs']; subst. inversion Hd as [|? ? Hc Hd']; subst. destruct fuel as [|fuel]; [simpl in Hf; lia|].
    cbn [atoi_loop]. unfold digit_char in Hc. replace (s8 (rd8 m a)) with (rd8 m a) by (unfold s8, u8; case_match; zlia).
    rewrite !(proj2 (Z.leb_le _ _)) by lia. cbn [andb].
    replace (s32 (s32 n * 10 + rd8 m a - 48)) with (s32 (10 * n + (rd8 m a - 48))).
    + apply IH; [done|done|done|simpl in Hf; lia].
    + unfold s32, u32. repeat case_match; zlia.
Qed.

(** atoi reads what printint has printed. *)
Lemma atoi_decimal fuel m a x rest : 0 ≤ x < 2147483648 → str_at m a (decimal upper_digits x ++ rest) →
  (∀ c, head rest = Some c → ¬ digit_char c) → (10 ≤ fuel)%nat → atoi fuel m a = Some x.
Proof.
  intros Hx Hs Hr Hf. unfold decimal in Hs. rewrite (proj2 (Z.ltb_ge x 0)) in Hs by lia.
  destruct (numeral_digits upper_digits 10 x) as (ds&E&Hv&Hd&_); [lia|unfold is_u32; lia|].
  destruct (int_loop_run 9 upper_digits 10 x []) as [_ Hlen]; [lia|change (10 ^ Z.of_nat 10) with 10000000000; lia|unfold is_u32; lia|simpl; lia|].
  assert (Hchar : ∀ d, 0 ≤ d < 10 → default 0 (upper_digits !! Z.to_nat d) = d + 48).
  { intros d Hdr. assert (d = 0 ∨ d = 1 ∨ d = 2 ∨ d = 3 ∨ d = 4 ∨ d = 5 ∨ d = 6 ∨ d = 7 ∨ d = 8 ∨ d = 9) as Hc by lia.
    by repeat destruct Hc as [->|Hc]; try subst d. }
  assert (E' : numeral upper_digits 10 x = (λ d, d + 48) <$> ds).
  { rewrite E. apply list_fmap_ext. intros i d Hi. apply Hchar. by eapply Forall_lookup_1 in Hd. }
  unfold atoi. change 0 with (s32 0). rewrite (atoi_loop_run fuel m a (numeral upper_digits 10 x) rest); [|done| |done|lia].
  - rewrite E', <- (s32_small x) by lia. f_equal. f_equal. rewrite <- Hv. clear. generalize 0 as b.
    induction ds as [|d ds IH]; intros b; simpl; [done|]. rewrite <- IH. do 2 f_equal. lia.
  - rewrite E'. apply Forall_fmap. eapply Forall_impl; [exact Hd|]. intros d Hdr. cbv beta in *. unfold compose, digit_char. lia.
Qed.
(** The sign stops it. *)
Lemma atoi_negative fuel m a x rest : x < 0 → str_at m a (decimal upper_digits x ++ rest) → atoi fuel m a = Some 0.
Proof.
  intros Hx Hs. unfold decimal in Hs. rewrite (proj2 (Z.ltb_lt x 0)) in Hs by done. inversion Hs as [|? ? ? H]; subst.
  unfold atoi. destruct fuel; simpl; by rewrite H.
Qed.

(** ** printf *)

Lemma str_out_run fuel m a l : str_at m a l → (length l ≤ fuel)%nat → str_out fuel m a = Some l.
Proof.
  intros Hs. revert fuel. induction Hs as [a H0|a c l H0 Hn Hu Hs IH]; intros fuel Hl.
  - destruct fuel; simpl; by rewrite H0.
  - destruct fuel as [|fuel]; simpl in *; [lia|]. rewrite H0, (proj2 (Z.eqb_neq _ _)) by done. by rewrite IH by lia.
Qed.

(** One directive: the arguments that are left, and what it puts out. *)
Inductive prints1 (digits : list Z) (m : mem) : dir → list Z → list Z → list Z → Prop :=
  | p1_lit c args : prints1 digits m (DLit c) args args [c]
  | p1_unknown c args : prints1 digits m (DUnknown c) args args [37; c]
  | p1_int w args : prints1 digits m DInt (w :: args) args (decimal digits (s32 w))
  | p1_hex w args : prints1 digits m DHex (w :: args) args (numeral digits 16 w)
  | p1_null args : prints1 digits m DStr (0 :: args) args null_text
  | p1_str w l args : w ≠ 0 → str_at m w l → prints1 digits m DStr (w :: args) args l
  | p1_chr w args : prints1 digits m DChr (w :: args) args [u8 w].
Lemma prints_inv digits m d ds args out : prints digits m (d :: ds) args out →
  ∃ l args' out', out = l ++ out' ∧ prints1 digits m d args args' l ∧ prints digits m ds args' out'.
Proof. intros H. inversion H; subst; eexists _, _, _; (split; [|split; [by econstructor|done]]); done. Qed.

(** A character of a conversion: which directive it is. *)
Ltac conv_case c :=
  unfold directive; destruct (Z.eqb_spec c 100) as [->|]; [|destruct ((c =? 120) || (c =? 112)) eqn:?;
    [|destruct (Z.eqb_spec c 115) as [->|]; [|destruct (Z.eqb_spec c 99) as [->|]; [|destruct (Z.eqb_spec c 37) as [->|]]]]].

Lemma printf_conv_run fuel m c ap args args' l : args_at m ap args → prints1 upper_digits m (directive true c) args args' l →
  (length l ≤ fuel)%nat → ∃ ap', printf_conv fuel m c ap = Some (l, ap') ∧ args_at m ap' args'.
Proof.
  intros Ha Hp Hl. unfold printf_conv. revert Hp. conv_case c; cbn [andb]; intros Hp; inversion Hp; subst; try (by eexists);
    inversion Ha as [|? ? ? E Hu Ha']; subst; exists (ap + 4); (split; [|done]).
  - by rewrite printint_signed by apply s32_range.
  - by rewrite printint_hex.
  - by rewrite E.
  - rewrite (proj2 (Z.eqb_neq _ _)) by done. by rewrite (str_out_run _ _ _ l).
  - done.
Qed.

(** In state 0, and in state % with the directives after it. *)
Lemma printf_loop_run fuel m fmt f ap args out : str_at m fmt f → args_at m ap args → (length f + length out ≤ fuel)%nat →
  (prints upper_digits m (directives true f) args out → printf_loop fuel m fmt ap 0 = Some out) ∧
  (prints upper_digits m (directives true (37 :: f)) args out → printf_loop fuel m fmt ap 37 = Some out).
Proof.
  revert fmt f ap args out. induction fuel as [|fuel IH]; intros fmt f ap args out Hs Ha Hl; destruct Hs as [fmt H0|fmt c f H0 Hn Hu Hs].
  1, 3: split; intros Hp; inversion Hp; subst; cbn [printf_loop]; by rewrite H0.
  { simpl in Hl. lia. }
  cbn [length] in Hl. cbn [printf_loop]. rewrite H0, (proj2 (Z.eqb_neq c 0)) by done. split; intros Hp.
  - cbn [directives Z.eqb] in *. destruct (Z.eqb_spec c 37) as [->|H37]; cbn [negb] in Hp.
    + apply (IH (fmt + 1) f ap args out); [done|done|lia|done].
    + inversion Hp as [|? ? ? out' Hp'| | | | | |]; subst. simpl in Hl. by rewrite (proj1 (IH (fmt + 1) f ap args out' Hs Ha ltac:(lia)) Hp').
  - change (directives true (37 :: c :: f)) with (directive true c :: directives true f) in Hp.
    apply prints_inv in Hp as (l&args'&out'&->&H1&Hp'). rewrite length_app in Hl. change (37 =? 0) with false. cbn iota.
    destruct (printf_conv_run (S fuel) m c ap args args' l Ha H1) as (ap'&->&Ha'); [lia|]. cbn [mbind option_bind].
    by rewrite (proj1 (IH (fmt + 1) f ap' args' out' Hs Ha' ltac:(lia)) Hp').
Qed.

(** ** cprintf *)

(** What [m] does to a console: it puts out [out]. *)
Definition puts {A} (m : Console.M A) (out : list Z) (Q : A → Prop) : Prop :=
  ∀ o t l wk, Console.models o t →
    ∃ a o', m (Mst o l wk) = Ret a (Mst o' l wk) ∧ Q a ∧
      Console.models o' {| Console.input := Console.input t; Console.edit := Console.edit t; Console.output := Console.output t ++ out |}.

Lemma puts_ret {A} (a : A) (Q : A → Prop) : Q a → puts (mret a) [] Q.
Proof. intros H o t l wk M. exists a, o. rewrite app_nil_r. by destruct t. Qed.
Lemma puts_bind {A B} (m : Console.M A) (k : A → Console.M B) out1 out2 (Q1 : A → Prop) (Q : B → Prop) :
  puts m out1 Q1 → (∀ a, Q1 a → puts (k a) out2 Q) → puts (m ≫= k) (out1 ++ out2) Q.
Proof.
  intros H1 H2 o t l wk M. destruct (H1 o t l wk M) as (a&o1&Hr1&Ha&M1). destruct (H2 a Ha o1 _ l wk M1) as (b&o2&Hr2&Hb&M2).
  exists b, o2. unfold mbind, K_bind. rewrite Hr1. split; [done|]. split; [done|]. simpl in M2. by rewrite app_assoc.
Qed.
Lemma puts_consputc c : -256 < c < 256 → puts (Console.consputc c) [u8 c] (λ _, True).
Proof.
  intros Hc o t l wk M. destruct (Console.consputc_run c o l wk) as (o'&Hr&Hs); [apply M|apply M|]. exists tt, o'.
  split; [done|]. split; [done|]. split; [|apply M]. eapply (Console.ring_shown o c); [apply M|done|done| |done].
  unfold Console.echo. by rewrite (proj2 (Z.eqb_neq _ _)) by (unfold Console.BACKSPACE; lia).
Qed.
Lemma puts_byte c : is_u8 c → puts (Console.consputc c) [c] (λ _, True).
Proof. intros Hc. rewrite <- (u8_small c) at 2 by done. apply puts_consputc. unfold is_u8 in Hc. lia. Qed.
Lemma puts_all l : Forall is_u8 l → puts (for_each l Console.consputc) l (λ _, True).
Proof.
  induction 1 as [|c l Hc Hl IH]; [by apply puts_ret|]. cbn [for_each]. by apply (puts_bind _ _ [c] l (λ _, True)); [apply puts_byte|].
Qed.
Lemma puts_str fuel m a l : str_at m a l → (length l ≤ fuel)%nat → puts (cstr_out fuel m a) l (λ _, True).
Proof.
  intros Hs. revert fuel. induction Hs as [a H0|a c l H0 Hn Hu Hs IH]; intros fuel Hl.
  - destruct fuel; cbn [cstr_out]; rewrite H0; by apply puts_ret.
  - destruct fuel as [|fuel]; cbn [cstr_out length] in *; [lia|]. rewrite H0, (proj2 (Z.eqb_neq _ _)) by done.
    apply (puts_bind _ _ [c] l (λ _, True)); [|intros; apply IH; lia].
    assert (E : u8 (s8 c) = c) by (unfold s8, u8, is_u8 in *; case_match; zlia). rewrite <- E at 2. apply puts_consputc.
    unfold s8, u8, is_u8 in *; case_match; zlia.
Qed.

Lemma numeral_bytes digits base n : Forall is_u8 digits → 2 ≤ base → is_u32 n → Forall is_u8 (numeral digits base n).
Proof.
  intros Hd Hb Hn. destruct (numeral_digits digits base n Hb Hn) as (ds&->&_). apply Forall_fmap, Forall_true. intros d. unfold compose.
  destruct (digits !! Z.to_nat d) as [c|] eqn:E; simpl; [by eapply Forall_lookup_1 in E|unfold is_u8; lia].
Qed.
Lemma lower_bytes : Forall is_u8 lower_digits.
Proof. repeat (constructor; [unfold is_u8; lia|]). constructor. Qed.
Lemma decimal_bytes x : -2147483648 ≤ x < 2147483648 → Forall is_u8 (decimal lower_digits x).
Proof.
  intros Hx. unfold decimal. destruct (Z.ltb_spec x 0); [constructor; [unfold is_u8; lia|]|];
    apply numeral_bytes; unfold is_u32; first [apply lower_bytes|lia].
Qed.

Lemma cprintf_conv_run fuel m c ap args args' l : is_u8 c → args_at m ap args →
  prints1 lower_digits m (directive false c) args args' l → (length l ≤ fuel)%nat →
  puts (cprintf_conv fuel m c ap) l (λ ap', args_at m ap' args').
Proof.
  intros Hc Ha Hp Hl. unfold cprintf_conv.
  assert (Hw : ∀ (k : Console.M unit) w, args = w :: args' → puts k l (λ _, True) → puts (k ≫= λ _, mret (ap + 4)) l (λ ap', args_at m ap' args')).
  { intros k w -> Hk. rewrite <- (app_nil_r l). apply (puts_bind _ _ l [] (λ _, True)); [done|]. intros _ _. apply puts_ret. by inversion Ha. }
  revert Hp. conv_case c; cbn [andb]; change (99 =? 37) with false; cbn iota; intros Hp; inversion Hp; subst;
    try (inversion Ha as [|? ? ? E Hu Ha']; subst; eapply Hw; [done|]).
  - unfold cprintint. rewrite printint_signed by apply s32_range. apply puts_all, decimal_bytes, s32_range.
  - unfold cprintint. rewrite printint_hex by done. apply puts_all, numeral_bytes; [apply lower_bytes|lia|done].
  - rewrite E. apply puts_all. repeat (constructor; [unfold is_u8; lia|]). constructor.
  - rewrite (proj2 (Z.eqb_neq _ _)) by done. by apply puts_str.
  - apply (puts_bind _ _ [37] [99] (λ _, True)); [apply puts_byte; unfold is_u8; lia|]. intros _ _.
    apply (puts_bind _ _ [99] [] (λ _, True)); [by apply puts_byte|]. intros _ _. by apply puts_ret.
  - apply (puts_bind _ _ [37] [] (λ _, True)); [by apply puts_byte|]. intros _ _. by apply puts_ret.
  - apply (puts_bind _ _ [37] [c] (λ _, True)); [apply puts_byte; unfold is_u8; lia|]. intros _ _.
    apply (puts_bind _ _ [c] [] (λ _, True)); [by apply puts_byte|]. intros _ _. by apply puts_ret.
Qed.

Lemma cprintf_loop_run fuel m fmt f ap args out : str_at m fmt f → args_at m ap args →
  prints lower_digits m (directives false f) args out → (length f + length out ≤ fuel)%nat →
  puts (cprintf_loop fuel m fmt ap) out (λ _, True).
Proof.
  revert fmt f ap args out. induction fuel as [|fuel IH]; intros fmt f ap args out Hs Ha Hp Hl; destruct Hs as [fmt H0|fmt c f H0 Hn Hu Hs].
  1, 3: inversion Hp; subst; cbn [cprintf_loop]; rewrite H0; by apply puts_ret.
  { simpl in Hl. lia. }
  cbn [length] in Hl. cbn [cprintf_loop]. rewrite H0, (proj2 (Z.eqb_neq c 0)) by done. cbn [directives] in Hp.
  destruct (Z.eqb_spec c 37) as [->|H37]; cbn [negb] in Hp |- *.
  - inversion Hs as [? H1|? d f' H1 Hn' Hu' Hs']; subst.
    + inversion Hp; subst. rewrite H1. by apply puts_ret.
    + rewrite (proj2 (Z.eqb_neq _ 0)) by done. apply prints_inv in Hp as (l&args'&out'&->&Hd&Hp'). rewrite length_app in Hl. cbn [length] in Hl.
      apply (puts_bind _ _ l out' (λ ap', args_at m ap' args')); [by apply (cprintf_conv_run _ _ _ _ args); [..|lia]|].
      intros ap' Ha'. apply (IH (fmt + 2) f' ap' args'); [|done|done|lia]. by replace (fmt + 2) with (fmt + 1 + 1) by lia.
  - inversion Hp as [|? ? ? out' Hp'| | | | | |]; subst. simpl in Hl. apply (puts_bind _ _ [_] out' (λ _, True)); [by apply puts_byte|].
    intros _ _. apply (IH (fmt + 1) f ap args); [done|done|done|lia].
Qed.

(** C38: printf and cprintf put out exactly what the format says: the text with each
    directive replaced by its argument, decimal with a sign, hexadecimal, a string or a
    character, whatever the arguments are (the least integer, a null pointer and bytes
    above 127 included); the 16 bytes of printint are enough. What cprintf puts out goes
    to the serial port and leaves the input and the line alone. Numerals have the value
    of the number and no leading zeros.  atoi reads back what %d has printed for a number
    that is not negative, up to the first character that is no digit; for a negative one it
    stops at the sign and returns 0. *)
Theorem formatted_output m :
  (∀ fuel fmt f ap args out, str_at m fmt f → args_at m ap args → prints upper_digits m (directives true f) args out →
     (length f + length out ≤ fuel)%nat → printf fuel m fmt ap = Some out) ∧
  (∀ fuel fmt f argp args out o t l wk, fmt ≠ 0 → str_at m fmt f → args_at m argp args → prints lower_digits m (directives false f) args out →
     (length f + length out ≤ fuel)%nat → Console.models o t →
     ∃ o', cprintf fuel m fmt argp (Mst o l wk) = Ret tt (Mst o' l wk) ∧
       Console.models o' {| Console.input := Console.input t; Console.edit := Console.edit t; Console.output := Console.output t ++ out |}) ∧
  (∀ digits base n, 2 ≤ base → is_u32 n →
     ∃ ds, numeral digits base n = (λ d, default 0 (digits !! Z.to_nat d)) <$> ds ∧ digits_of base n ds) ∧
  (∀ fuel a x rest, 0 ≤ x < 2147483648 → str_at m a (decimal upper_digits x ++ rest) → (∀ c, head rest = Some c → ¬ digit_char c) →
     (10 ≤ fuel)%nat → atoi fuel m a = Some x) ∧
  (∀ fuel a x rest, x < 0 → str_at m a (decimal upper_digits x ++ rest) → atoi fuel m a = Some 0).
Proof.
  split; [|split; [|split; [|split]]].
  - intros fuel fmt f ap args out Hs Ha Hp Hl. by apply (printf_loop_run fuel m fmt f ap args out).
  - intros fuel fmt f argp args out o t l wk H0 Hs Ha Hp Hl M. unfold cprintf. rewrite (proj2 (Z.eqb_neq _ _)) by done.
    destruct (cprintf_loop_run fuel m fmt f argp args out Hs Ha Hp Hl o t l wk M) as ([]&o'&Hr&_&M'). by exists o'.
  - apply numeral_digits.
  - intros fuel a x rest. apply atoi_decimal.
  - intros fuel a x rest. apply atoi_negative.
Qed.

(** The format "%d %s-%x", a newline and "%%", with -2147483648, "ok" and 255: the
    format is at 100, the arguments at 200, the string at 300. *)
Definition example_mem : mem :=
  wr32 (wr32 (wr32 (list_to_map (zip (seqZ 100 11) [37; 100; 32; 37; 115; 45; 37; 120; 10; 37; 37] ++ zip (seqZ 300 2) [111; 107])) 200 2147483648) 204 300) 208 255.
Lemma example_prints :
  prints upper_digits example_mem (directives true [37; 100; 32; 37; 115; 45; 37; 120; 10; 37; 37]) [2147483648; 300; 255]
    [45; 50; 49; 52; 55; 52; 56; 51; 54; 52; 56; 32; 111; 107; 45; 70; 70; 10; 37].
Proof.
  replace [45; 50; 49; 52; 55; 52; 56; 51; 54; 52; 56; 32; 111; 107; 45; 70; 70; 10; 37]
    with (decimal upper_digits (s32 2147483648) ++ 32 :: [111; 107] ++ 45 :: numeral upper_digits 16 255 ++ [10; 37]) by (vm_compute; reflexivity).
  apply prints_int, prints_lit, prints_str; [lia|..].
  - repeat (apply str_cons; [vm_compute; reflexivity|lia|unfold is_u8; lia|]). by apply str_nil.
  - apply prints_lit, prints_hex, prints_lit, prints_lit, prints_nil.
Qed.
Lemma formatted_output_witness :
  printf 64 example_mem 100 200 = Some [45; 50; 49; 52; 55; 52; 56; 51; 54; 52; 56; 32; 111; 107; 45; 70; 70; 10; 37].
Proof.
  apply (proj1 (formatted_output example_mem) 64%nat 100 [37; 100; 32; 37; 115; 45; 37; 120; 10; 37; 37] 200 [2147483648; 300; 255]).
  - repeat (apply str_cons; [vm_compute; reflexivity|lia|unfold is_u8; lia|]). by apply str_nil.
  - repeat (apply args_cons; [vm_compute; reflexivity|unfold is_u32; lia|]). apply args_nil.
  - exact example_prints.
  - simpl. lia.
Defined.
