(* ===== verification/Sync.v ===== *)
(** Mutexes and condition variables in shared memory (mutex_lock, mutex_trylock,
    mutex_unlock, cv_wait and cv_bcast of src/ulib.c), on the futex system calls of
    src/sysproc.c and wakeupfutex of src/proc.c.

    Any number of processes share the words. A process makes one access to a shared
    word at a time, and the body of a futex call, which runs with ptable.lock held, is
    one step; [place] says where a process is in the library. Which mutexes a process has
    is kept beside it. *)

From Stdlib Require Import ZArith Lia.
From stdpp Require Import base tactics numbers functions relations list.
From S2P Require Import Prelude.

#[local] Open Scope Z_scope.

Module Sync.

(** The mutexes of the program, and cvslock of a condition variable. *)
Inductive mutex := User (n : nat) | Slock (c : nat).
#[export] Instance mutex_eq_dec : EqDecision mutex.
Proof. solve_decision. Defined.

(** What follows a mutex_lock or mutex_unlock: the return to the program, the rest of
    cv_wait (lines 156 and 157), or the rest of cv_bcast (line 167). *)
Inductive kont := KRet | KWait1 (c n : nat) | KWait2 (c n : nat) | KBcast (c : nat).

Inductive place :=
  | Run
  (** mutex_lock: at the exchange, at futex_wait, asleep in it. *)
  | Lock (a : mutex) (k : kont) | LockWait (a : mutex) (k : kont) | LockSleep (a : mutex) (k : kont)
  | Trylock (a : mutex)
  (** mutex_unlock: at the store, at futex_wake. *)
  | Unlock (a : mutex) (k : kont) | UnlockWake (a : mutex) (k : kont)
  (** cv_wait: the load and the store of cvnum, its load for futex_wait2, the call, asleep in it. *)
  | WaitInc (c n : nat) | WaitInc2 (c n : nat) (v : Z) | WaitCall (c n : nat) | WaitCall2 (c n : nat) (v : Z) | WaitSleep (c n : nat)
  (** cv_bcast: at futex_wake, at the test, at the load and the store of cvnum. *)
  | BWake (c : nat) (numwake : Z) | BTest (c : nat) (numwake : Z) | BSub (c : nat) (numwake : Z) | BSub2 (c : nat) (numwake v : Z)
  (** Killed. *)
  | Dead.

Record thread := Thread { at_place : place; held : mutex → bool }.
Record sync := Sys { lock : mutex → Z; cvnum : nat → Z; thr : list thread }.

(** ** The futex calls *)

(** p->chan of a process that sleeps: the address of a lock, or of cvnum. *)
Inductive addr := ALock (a : mutex) | ANum (c : nat).
#[export] Instance addr_eq_dec : EqDecision addr.
Proof. solve_decision. Defined.
Definition waits_on (p : place) : option addr :=
  match p with LockSleep a _ => Some (ALock a) | WaitSleep c _ => Some (ANum c) | _ => None end.

(** Where a process goes on when its futex_wait or futex_wait2 has returned. *)
Definition resume_place (p : place) : place :=
  match p with LockSleep a k => Lock a k | WaitSleep _ n => Lock (User n) KRet | p => p end.

(** wakeupfutex1: the number of processes woken, and the processes. *)
Fixpoint wakeupfutex1 (ch : addr) (ts : list thread) : Z * list thread :=
  match ts with
  | [] => (0, [])
  | t :: ts' =>
      let '(i, ts'') := wakeupfutex1 ch ts' in
      if decide (waits_on (at_place t) = Some ch) then (i + 1, Thread (resume_place (at_place t)) (held t) :: ts'')
      else (i, t :: ts'')
  end.
Definition wake_all (ch : addr) (ts : list thread) : list thread := (wakeupfutex1 ch ts).2.

(** sys_futex_wait(loc, val) with [*loc = v]: sleep, or return -1. *)
Definition futex_wait (v val : Z) (asleep failed : place) : place := if v =? val then asleep else failed.

(** ** The library *)

Definition go_on (k : kont) : place :=
  match k with
  | KRet => Run
  | KWait1 c n => Unlock (User n) (KWait2 c n)
  | KWait2 c n => WaitInc c n
  | KBcast c => BWake c 0
  end.

Definition take_lock (a : mutex) (h : mutex → bool) : mutex → bool := <[a := true]> h.
Definition drop_lock (a : mutex) (h : mutex → bool) : mutex → bool := <[a := false]> h.

(** One step of a process that is in the library; [None] when it sleeps. *)
Definition lib_step (i : nat) (s : sync) : option sync :=
  t ← thr s !! i;
  let h := held t in
  let goto p ts := <[i := Thread p h]> ts in
  match at_place t with
  | Lock a k =>
      Some (Sys (<[a := 1]> (lock s)) (cvnum s)
        (if truth (lock s a) then goto (LockWait a k) (thr s) else <[i := Thread (go_on k) (take_lock a h)]> (thr s)))
  | LockWait a k => Some (Sys (lock s) (cvnum s) (goto (futex_wait (lock s a) 1 (LockSleep a k) (Lock a k)) (thr s)))
  | Trylock a =>
      Some (Sys (<[a := 1]> (lock s)) (cvnum s)
        (<[i := Thread Run (if truth (lock s a) then h else take_lock a h)]> (thr s)))
  | Unlock a k => Some (Sys (<[a := 0]> (lock s)) (cvnum s) (<[i := Thread (UnlockWake a k) (drop_lock a h)]> (thr s)))
  | UnlockWake a k => Some (Sys (lock s) (cvnum s) (goto (go_on k) (wake_all (ALock a) (thr s))))
  | WaitInc c n => Some (Sys (lock s) (cvnum s) (goto (WaitInc2 c n (cvnum s c)) (thr s)))
  | WaitInc2 c n v => Some (Sys (lock s) (<[c := s32 (v + 1)]> (cvnum s)) (goto (WaitCall c n) (thr s)))
  | WaitCall c n => Some (Sys (lock s) (cvnum s) (goto (WaitCall2 c n (cvnum s c)) (thr s)))
  | WaitCall2 c n v =>
      Some (Sys (<[Slock c := 0]> (lock s)) (cvnum s)
        (<[i := Thread (futex_wait (cvnum s c) v (WaitSleep c n) (Lock (User n) KRet)) (drop_lock (Slock c) h)]>
           (wake_all (ALock (Slock c)) (thr s))))
  | BWake c n =>
      let '(k, ts) := wakeupfutex1 (ANum c) (thr s) in
      Some (Sys (lock s) (cvnum s) (goto (BTest c (s32 (n + k))) ts))
  | BTest c n => Some (Sys (lock s) (cvnum s) (goto (if negb (cvnum s c =? n) then BWake c n else BSub c n) (thr s)))
  | BSub c n => Some (Sys (lock s) (cvnum s) (goto (BSub2 c n (cvnum s c)) (thr s)))
  | BSub2 c n v => Some (Sys (lock s) (<[c := s32 (v - n)]> (cvnum s)) (goto (Unlock (Slock c) KRet) (thr s)))
  | Run | LockSleep _ _ | WaitSleep _ _ | Dead => None
  end.

(** The calls of a program: it unlocks a mutex it has, and waits with one it has. *)
Inductive ucall := ULock (n : nat) | UTrylock (n : nat) | UUnlock (n : nat) | UWait (c n : nat) | UBcast (c : nat).
Definition start (u : ucall) : place :=
  match u with
  | ULock n => Lock (User n) KRet
  | UTrylock n => Trylock (User n)
  | UUnlock n => Unlock (User n) KRet
  | UWait c n => Lock (Slock c) (KWait1 c n)
  | UBcast c => Lock (Slock c) (KBcast c)
  end.
Definition may (u : ucall) (h : mutex → bool) : bool :=
  match u with UUnlock n | UWait _ n => h (User n) | _ => true end.

Inductive step (s : sync) : sync → Prop :=
  | st_call i t u : thr s !! i = Some t → at_place t = Run → may u (held t) = true →
      step s (Sys (lock s) (cvnum s) (<[i := Thread (start u) (held t)]> (thr s)))
  | st_lib i s' : lib_step i s = Some s' → step s s'.

(** A process that is killed exits before it is back in the program. *)
Inductive kstep (s : sync) : sync → Prop :=
  | ks_step s' : step s s' → kstep s s'
  | ks_kill i t : thr s !! i = Some t → kstep s (Sys (lock s) (cvnum s) (<[i := Thread Dead (held t)]> (thr s))).

(** mutex_init and cv_init have zeroed the words; [n] processes. *)
Definition init (n : nat) : sync := Sys (λ _, 0) (λ _, 0) (replicate n (Thread Run (λ _, false))).

(** ** The invariant *)

(** The condition variable whose cvslock a process has. *)
Definition crit (p : place) : option nat :=
  match p with
  | Unlock (User _) (KWait2 c _) | UnlockWake (User _) (KWait2 c _) | Unlock (Slock c) _
  | WaitInc c _ | WaitInc2 c _ _ | WaitCall c _ | WaitCall2 c _ _
  | BWake c _ | BTest c _ | BSub c _ | BSub2 c _ _ => Some c
  | _ => None
  end.
(** Lock and unlock calls are those of the library. *)
Definition wf_lock (a : mutex) (k : kont) : bool :=
  match a, k with
  | User _, KRet => true
  | Slock c, KWait1 c' _ | Slock c, KBcast c' => bool_decide (c = c')
  | _, _ => false
  end.
Definition wf_unlock (a : mutex) (k : kont) : bool :=
  match a, k with
  | User n, KWait2 _ n' => bool_decide (n = n')
  | _, KRet => true
  | _, _ => false
  end.
Definition wf_pc (p : place) : bool :=
  match p with
  | Lock a k | LockWait a k | LockSleep a k => wf_lock a k
  | Unlock a k | UnlockWake a k => wf_unlock a k
  | Trylock (Slock _) | Dead => false
  | _ => true
  end.
(** A mutex of the program that the process has. *)
Definition needs (p : place) : option nat :=
  match p with
  | Unlock (User n) _ | Lock _ (KWait1 _ n) | LockWait _ (KWait1 _ n) | LockSleep _ (KWait1 _ n) => Some n
  | _ => None
  end.
(** What a process has read of cvnum; the loop of cv_bcast is run once. *)
Definition local_ok (cv : nat → Z) (p : place) : Prop :=
  match p with
  | WaitInc2 c _ v | WaitCall2 c _ v => v = cv c
  | BWake c n => n = 0
  | BTest c n | BSub c n => n = s32 n
  | BSub2 c n v => v = cv c ∧ n = s32 n
  | _ => True
  end.
Record thread_ok (cv : nat → Z) (t : thread) : Prop := {
  th_wf : wf_pc (at_place t) = true;
  th_crit c : held t (Slock c) = bool_decide (crit (at_place t) = Some c);
  th_needs n : needs (at_place t) = Some n → held t (User n) = true;
  th_local : local_ok cv (at_place t)
}.

(** What a process has added to cvnum of [c] or will subtract. *)
Definition weight (c : nat) (p : place) : Z :=
  match p with
  | WaitSleep c' _ | WaitCall c' _ | WaitCall2 c' _ _ => if decide (c' = c) then 1 else 0
  | BTest c' n | BSub c' n | BSub2 c' n _ => if decide (c' = c) then n else 0
  | _ => 0
  end.
Fixpoint wsum (c : nat) (ts : list thread) : Z :=
  match ts with [] => 0 | t :: ts' => weight c (at_place t) + wsum c ts' end.
(** In cv_bcast, after futex_wake. *)
Definition woken (c : nat) (p : place) : bool :=
  match p with BTest c' _ | BSub c' _ | BSub2 c' _ _ => bool_decide (c' = c) | _ => false end.
Definition nobody_on (ch : addr) (ts : list thread) : Prop :=
  ∀ j u, ts !! j = Some u → waits_on (at_place u) ≠ Some ch.

(** [d]: what is missing from cvnum. *)
Record inv_off (d : nat → Z) (s : sync) : Prop := {
  i_thr i t : thr s !! i = Some t → thread_ok (cvnum s) t;
  i_one i j t u a : thr s !! i = Some t → thr s !! j = Some u → held t a = true → held u a = true → i = j;
  i_free a : lock s a = 0 ∧ (∀ i t, thr s !! i = Some t → held t a = false) ∨
             lock s a = 1 ∧ (∃ i t, thr s !! i = Some t ∧ held t a = true);
  i_num c : cvnum s c = s32 (wsum c (thr s) + d c);
  i_woken i t c : thr s !! i = Some t → woken c (at_place t) = true → nobody_on (ANum c) (thr s);
  i_wake a : nobody_on (ALock a) (thr s) ∨ lock s a = 1 ∨ ∃ j u k, thr s !! j = Some u ∧ at_place u = UnlockWake a k
}.
Abbreviation inv := (inv_off (λ _, 0)).

(** ** Waking *)

Definition wk (ch : addr) (t : thread) : thread :=
  if decide (waits_on (at_place t) = Some ch) then Thread (resume_place (at_place t)) (held t) else t.
Fixpoint sleepers (ch : addr) (ts : list thread) : Z :=
  match ts with [] => 0 | t :: ts' => (if decide (waits_on (at_place t) = Some ch) then 1 else 0) + sleepers ch ts' end.
Lemma wakeupfutex1_fmap ch ts : wakeupfutex1 ch ts = (sleepers ch ts, wk ch <$> ts).
Proof.
  induction ts as [|t ts IH]; [done|]. cbn [wakeupfutex1]. rewrite IH. rewrite fmap_cons. cbn [sleepers].
  unfold wk at 3. case_decide; f_equal. lia.
Qed.
Lemma wake_fmap ch ts : wake_all ch ts = wk ch <$> ts.
Proof. unfold wake_all. by rewrite wakeupfutex1_fmap. Qed.

Lemma wk_held ch t : held (wk ch t) = held t.
Proof. unfold wk. by case_decide. Qed.
Lemma wk_awake ch t : waits_on (at_place t) = None → wk ch t = t.
Proof. intros H. unfold wk. rewrite H. by case_decide. Qed.
Lemma wk_sleeps ch ch' t : waits_on (at_place (wk ch t)) = Some ch' → waits_on (at_place t) = Some ch' ∧ ch' ≠ ch.
Proof. unfold wk. case_decide as E; [by destruct t as [[] ?]|]. intros H. split; [done|]. by intros ->. Qed.
Lemma wk_thread_ok cv ch t : thread_ok cv t → thread_ok cv (wk ch t).
Proof.
  intros [H1 H2 H3 H4]. unfold wk. case_decide; [|done]. destruct t as [p h]. simpl in *.
  destruct p; simplify_eq/=; split; simpl in *; try done; by intros.
Qed.
Lemma wk_unlock_wake ch t a k : at_place (wk ch t) = UnlockWake a k ↔ at_place t = UnlockWake a k.
Proof. unfold wk. case_decide; [|done]. destruct t as [[] ?]; simplify_eq/=; done. Qed.
Lemma wk_woken ch t c : woken c (at_place (wk ch t)) = woken c (at_place t).
Proof. unfold wk. case_decide; [|done]. by destruct t as [[] ?]; simplify_eq/=. Qed.
Lemma wk_weight ch t c :
  weight c (at_place (wk ch t)) = weight c (at_place t) - (if decide (ch = ANum c) then if decide (waits_on (at_place t) = Some ch) then 1 else 0 else 0).
Proof.
  unfold wk. destruct (decide (waits_on (at_place t) = Some ch)) as [E|E]; [|case_decide; lia].
  destruct t as [[] ?]; simplify_eq/=; repeat case_decide; simplify_eq; lia.
Qed.
Lemma wsum_wake ch ts c : wsum c (wk ch <$> ts) = wsum c ts - (if decide (ch = ANum c) then sleepers ch ts else 0).
Proof.
  induction ts as [|t ts IH]; cbn [fmap list_fmap wsum sleepers]; [case_decide; lia|].
  change (list_fmap _ _ (wk ch) ts) with (wk ch <$> ts). rewrite IH, wk_weight. repeat case_decide; lia.
Qed.
Lemma nobody_wake ch ch' ts : nobody_on ch' ts → nobody_on ch' (wk ch <$> ts).
Proof.
  intros H j u Hu. apply list_lookup_fmap_Some in Hu as (t&->&Ht). intros E. apply wk_sleeps in E as [E _]. by apply (H j t).
Qed.
Lemma nobody_woken ch ts : nobody_on ch (wk ch <$> ts).
Proof. intros j u Hu. apply list_lookup_fmap_Some in Hu as (t&->&Ht). intros E. by apply wk_sleeps in E as [_ E]. Qed.

Lemma wake_inv ch s : inv s →
  inv_off (λ c, if decide (ch = ANum c) then sleepers ch (thr s) else 0) (Sys (lock s) (cvnum s) (wk ch <$> thr s)).
Proof.
  intros [H1 H2 H3 H4 H5 H6]. split; cbn [lock cvnum thr].
  - intros i t Ht. apply list_lookup_fmap_Some in Ht as (t'&->&Ht). by eapply wk_thread_ok, H1.
  - intros i j t u a Ht Hu. apply list_lookup_fmap_Some in Ht as (t'&->&Ht). apply list_lookup_fmap_Some in Hu as (u'&->&Hu).
    rewrite !wk_held. by apply H2.
  - intros a. destruct (H3 a) as [[Ha Hf]|(Ha&i&t&Ht&Hh)]; [left|right]; (split; [done|]).
    + intros i t Ht. apply list_lookup_fmap_Some in Ht as (t'&->&Ht). rewrite wk_held. by eapply Hf.
    + exists i, (wk ch t). by rewrite list_lookup_fmap, Ht, wk_held.
  - intros c. rewrite H4, wsum_wake. f_equal. case_decide; lia.
  - intros i t c Ht. apply list_lookup_fmap_Some in Ht as (t'&->&Ht). rewrite wk_woken. intros Hw. by eapply nobody_wake, H5.
  - intros a. destruct (H6 a) as [Ha|[Ha|(j&u&k&Hu&Hk)]]; [left; by apply nobody_wake|by right; left|]. right; right.
    exists j, (wk ch u), k. by rewrite list_lookup_fmap, Hu, wk_unlock_wake.
Qed.

(** ** A step of one process *)

Lemma wsum_insert c ts i t t' : ts !! i = Some t → wsum c (<[i := t']> ts) = wsum c ts + weight c (at_place t') - weight c (at_place t).
Proof.
  revert i. induction ts as [|x ts IH]; intros [|i] Hi; simplify_eq/=; [lia|]. rewrite (IH i) by done. lia.
Qed.
Lemma nobody_insert ch ts i t' : nobody_on ch ts → waits_on (at_place t') ≠ Some ch → nobody_on ch (<[i := t']> ts).
Proof.
  intros H Hn j u Hu. destruct (decide (i = j)) as [<-|Hij].
  - destruct (decide (i < length ts)%nat); [rewrite list_lookup_insert_eq in Hu by done; by simplify_eq|].
    rewrite list_insert_ge in Hu by lia. by apply (H i u).
  - rewrite list_lookup_insert_ne in Hu by done. by apply (H j u).
Qed.

(** What a step of process [i] from [t] to [t'] has to do. *)
Record changes (s : sync) (i : nat) (t t' : thread) (lock' : mutex → Z) (cv' : nat → Z) : Prop := {
  ch_ok : thread_ok cv' t';
  ch_take a : held t' a = true → held t a = false → lock s a = 0;
  ch_lock a : lock' a = if held t' a then 1 else if held t a then 0 else lock s a;
  ch_cv c : cv' c ≠ cvnum s c → held t (Slock c) = true;
  ch_num c : cv' c = s32 (wsum c (thr s) + weight c (at_place t') - weight c (at_place t));
  ch_sleep c n : at_place t' = WaitSleep c n → held t (Slock c) = true;
  ch_woken c : woken c (at_place t') = true → nobody_on (ANum c) (thr s);
  ch_lsleep a : waits_on (at_place t') = Some (ALock a) → lock' a = 1;
  ch_wake a k : at_place t = UnlockWake a k → nobody_on (ALock a) (thr s);
  ch_release a : held t a = true → held t' a = false → nobody_on (ALock a) (thr s) ∨ ∃ k, at_place t' = UnlockWake a k
}.

Lemma local_other cv cv' p : (∀ c, crit p = Some c → cv' c = cv c) → local_ok cv p → local_ok cv' p.
Proof. intros H. destruct p; simpl in *; try done; rewrite ?(H _ eq_refl); done. Qed.
Lemma woken_crit c p : woken c p = true → crit p = Some c.
Proof. destruct p; simpl; try done; intros H; apply bool_decide_eq_true in H; by subst. Qed.

Section update.
Context (d : nat → Z) (s : sync) (i : nat) (t t' : thread) (lock' : mutex → Z) (cv' : nat → Z).
Context (HI : inv_off d s) (Ht : thr s !! i = Some t) (HC : changes s i t t' lock' cv').
#[local] Abbreviation ts' := (<[i := t']> (thr s)).

#[local] Lemma upd_eq : ts' !! i = Some t'.
Proof. apply list_lookup_insert_eq. by eapply lookup_lt_Some. Qed.
#[local] Lemma upd_cases j u : ts' !! j = Some u → (j = i ∧ u = t') ∨ (j ≠ i ∧ thr s !! j = Some u).
Proof.
  destruct (decide (i = j)) as [<-|Hij]; [rewrite upd_eq; intros; left; by simplify_eq|].
  rewrite list_lookup_insert_ne by done. by right.
Qed.
#[local] Lemma held_lock j u a : thr s !! j = Some u → held u a = true → lock s a = 1.
Proof. intros Hu Hh. destruct (i_free _ _ HI a) as [[_ Hf]|[? _]]; [|done]. by rewrite (Hf j u Hu) in Hh. Qed.
#[local] Lemma other_free j u a : thr s !! j = Some u → j ≠ i → held t a = true → held u a = false.
Proof. intros Hu Hj Hh. destruct (held u a) eqn:E; [|done]. destruct Hj. by apply (i_one _ _ HI j i u t a). Qed.
#[local] Lemma other_crit j u c : thr s !! j = Some u → j ≠ i → held t (Slock c) = true → crit (at_place u) ≠ Some c.
Proof.
  intros Hu Hj Hh E. pose proof (other_free j u _ Hu Hj Hh) as Hf. rewrite (th_crit _ _ (i_thr _ _ HI _ _ Hu)) in Hf.
  by apply bool_decide_eq_false in Hf.
Qed.

#[local] Lemma upd_one j k u v a : ts' !! j = Some u → ts' !! k = Some v → held u a = true → held v a = true → j = k.
Proof.
  assert (Hx : ∀ k v, k ≠ i → thr s !! k = Some v → held t' a = true → held v a = true → False).
  { intros k' v' Hk Hv H1 H2. destruct (held t a) eqn:E; [by rewrite (other_free k' v') in H2|].
    pose proof (ch_take _ _ _ _ _ _ HC a H1 E). rewrite (held_lock k' v') in *; done. }
  intros Hu Hv H1 H2. apply upd_cases in Hu as [[-> ->]|[Hj Hu]]; apply upd_cases in Hv as [[-> ->]|[Hk Hv]]; [done|exfalso; eauto..|].
  by apply (i_one _ _ HI j k u v a).
Qed.
#[local] Lemma upd_free a : lock' a = 0 ∧ (∀ j u, ts' !! j = Some u → held u a = false) ∨ lock' a = 1 ∧ (∃ j u, ts' !! j = Some u ∧ held u a = true).
Proof.
  rewrite (ch_lock _ _ _ _ _ _ HC a). destruct (held t' a) eqn:E; [right; split; [done|]; by exists i, t'; rewrite upd_eq|].
  destruct (held t a) eqn:E1.
  - left. split; [done|]. intros j u Hu. apply upd_cases in Hu as [[-> ->]|[Hj Hu]]; [done|]. by apply (other_free j u).
  - destruct (i_free _ _ HI a) as [[-> Hf]|(->&j&u&Hu&Hh)]; [left|right]; (split; [done|]).
    + intros j u Hu. apply upd_cases in Hu as [[-> ->]|[Hj Hu]]; [done|]. by eapply Hf.
    + exists j, u. split; [|done]. rewrite list_lookup_insert_ne; [done|]. intros <-. simplify_eq. congruence.
Qed.
#[local] Lemma upd_woken j u c : ts' !! j = Some u → woken c (at_place u) = true → nobody_on (ANum c) ts'.
Proof.
  intros Hu Hw. apply nobody_insert.
  - apply upd_cases in Hu as [[-> ->]|[Hj Hu]]; [by apply (ch_woken _ _ _ _ _ _ HC)|by apply (i_woken _ _ HI j u)].
  - intros E. destruct (at_place t') as [| | | | | | | | | | |c' n| | | | |] eqn:Ep; simplify_eq/=.
    pose proof (ch_sleep _ _ _ _ _ _ HC c n Ep) as Hh. apply upd_cases in Hu as [[-> ->]|[Hj Hu]]; [by rewrite Ep in Hw|].
    by apply (other_crit j u c Hu Hj Hh), woken_crit.
Qed.
#[local] Lemma upd_wake a : nobody_on (ALock a) ts' ∨ lock' a = 1 ∨ ∃ j u k, ts' !! j = Some u ∧ at_place u = UnlockWake a k.
Proof.
  destruct (decide (waits_on (at_place t') = Some (ALock a))) as [E|E]; [right; left; by apply (ch_lsleep _ _ _ _ _ _ HC)|].
  destruct (i_wake _ _ HI a) as [Hn|[Hl|(j&u&k&Hu&Hk)]]; [left; by apply nobody_insert|..].
  - rewrite (ch_lock _ _ _ _ _ _ HC a). destruct (held t' a) eqn:E1; [by right; left|]. destruct (held t a) eqn:E2; [|by right; left].
    destruct (ch_release _ _ _ _ _ _ HC a E2 E1) as [Hn|[k Hk]]; [left; by apply nobody_insert|]. right; right. by exists i, t', k; rewrite upd_eq.
  - destruct (decide (j = i)) as [->|Hj].
    + simplify_eq. left. apply nobody_insert; [by eapply (ch_wake _ _ _ _ _ _ HC)|done].
    + right; right. exists j, u, k. by rewrite list_lookup_insert_ne.
Qed.

Lemma update_inv : inv (Sys lock' cv' ts').
Proof.
  split; cbn [lock cvnum thr].
  - intros j u Hu. apply upd_cases in Hu as [[-> ->]|[Hj Hu]]; [apply HC|]. destruct (i_thr _ _ HI j u Hu) as [H1 H2 H3 H4].
    split; [done..|]. eapply local_other; [|done]. intros c Hc. destruct (decide (cv' c = cvnum s c)) as [|Hn]; [done|].
    by destruct (other_crit j u c Hu Hj (ch_cv _ _ _ _ _ _ HC c Hn)).
  - apply upd_one.
  - apply upd_free.
  - intros c. rewrite (ch_num _ _ _ _ _ _ HC c), (wsum_insert c _ i t) by done. f_equal. lia.
  - apply upd_woken.
  - apply upd_wake.
Qed.
End update.

(** ** The steps *)

Lemma wake_lock_inv a s : inv s → inv (Sys (lock s) (cvnum s) (wk (ALock a) <$> thr s)).
Proof.
  intros HI. destruct (wake_inv (ALock a) s HI) as [H1 H2 H3 H4 H5 H6]. by split.
Qed.

Section moves.
Context (s : sync) (i : nat) (t : thread) (HI : inv s) (Ht : thr s !! i = Some t).

Lemma lock_same b : lock s b = if held t b then 1 else if held t b then 0 else lock s b.
Proof. destruct (held t b) eqn:E; [|done]. by apply (held_lock _ s HI i t). Qed.

(** Only the place of the process changes. *)
Lemma move_inv p lock' : (∀ b, lock' b = lock s b) → thread_ok (cvnum s) (Thread p (held t)) →
  (∀ c, weight c p = weight c (at_place t)) → (∀ c n, p ≠ WaitSleep c n) →
  (∀ c, woken c p = true → woken c (at_place t) = true) → (∀ a, waits_on p = Some (ALock a) → lock s a = 1) →
  (∀ a k, at_place t = UnlockWake a k → nobody_on (ALock a) (thr s)) →
  inv (Sys lock' (cvnum s) (<[i := Thread p (held t)]> (thr s))).
Proof.
  intros Hl Hok Hw Hs Hk Hsl Hu. apply (update_inv (λ _, 0) s i t); [done|done|]. split; cbn [at_place held]; try done.
  - intros a H1 H2. congruence.
  - intros a. rewrite Hl. apply lock_same.
  - intros c. rewrite (i_num _ _ HI c), Hw. f_equal. lia.
  - intros c n E. by destruct (Hs c n).
  - intros c E. by apply (i_woken _ _ HI i t), Hk.
  - intros a E. by rewrite Hl, Hsl.
  - intros a H1 H2. congruence.
Qed.

(** The lock is free and is taken. *)
Lemma take_inv a p : lock s a = 0 → thread_ok (cvnum s) (Thread p (take_lock a (held t))) →
  (∀ c, weight c p = weight c (at_place t)) → waits_on p = None → (∀ c, woken c p = false) → (∀ b k, at_place t ≠ UnlockWake b k) →
  inv (Sys (<[a := 1]> (lock s)) (cvnum s) (<[i := Thread p (take_lock a (held t))]> (thr s))).
Proof.
  intros Ha Hok Hw Hs Hk Hu. apply (update_inv (λ _, 0) s i t); [done|done|]. unfold take_lock in *. split; cbn [at_place held]; try done.
  - intros b. destruct (decide (a = b)) as [<-|Hb]; [done|]. rewrite fn_lookup_insert_ne by done. congruence.
  - intros b. destruct (decide (a = b)) as [<-|Hb]; [by rewrite !fn_lookup_insert|]. rewrite !fn_lookup_insert_ne by done. apply lock_same.
  - intros c. rewrite (i_num _ _ HI c), Hw. f_equal. lia.
  - intros c n ->. done.
  - intros c E. by rewrite Hk in E.
  - intros b E. by rewrite Hs in E.
  - intros b k E. by destruct (Hu b k).
  - intros b H1. destruct (decide (a = b)) as [<-|Hb]; [by rewrite fn_lookup_insert|]. rewrite fn_lookup_insert_ne by done. congruence.
Qed.

(** The lock is released, and the others will be woken or need not. *)
Lemma drop_inv a p : held t a = true → thread_ok (cvnum s) (Thread p (drop_lock a (held t))) →
  (∀ c, weight c p = weight c (at_place t)) → (∀ c n, p = WaitSleep c n → a = Slock c) → (∀ c, woken c p = false) →
  (∀ b, waits_on p ≠ Some (ALock b)) → (∀ b k, at_place t ≠ UnlockWake b k) →
  nobody_on (ALock a) (thr s) ∨ (∃ k, p = UnlockWake a k) →
  inv (Sys (<[a := 0]> (lock s)) (cvnum s) (<[i := Thread p (drop_lock a (held t))]> (thr s))).
Proof.
  intros Ha Hok Hw Hs Hk Hls Hu Hn. apply (update_inv (λ _, 0) s i t); [done|done|]. unfold drop_lock in *. split; cbn [at_place held]; try done.
  - intros b. destruct (decide (a = b)) as [<-|Hb]; [by rewrite fn_lookup_insert|]. rewrite fn_lookup_insert_ne by done. congruence.
  - intros b. destruct (decide (a = b)) as [<-|Hb]; [by rewrite !fn_lookup_insert, Ha|]. rewrite !fn_lookup_insert_ne by done. apply lock_same.
  - intros c. rewrite (i_num _ _ HI c), Hw. f_equal. lia.
  - intros c n E. by rewrite <- (Hs c n E).
  - intros c E. by rewrite Hk in E.
  - intros b E. by destruct (Hls b).
  - intros b k E. by destruct (Hu b k).
  - intros b H1. destruct (decide (a = b)) as [<-|Hb]; [by intros _|]. rewrite fn_lookup_insert_ne by done. congruence.
Qed.

(** cvnum is written by the process that has cvslock. *)
Lemma store_inv c v p : held t (Slock c) = true → thread_ok (<[c := v]> (cvnum s)) (Thread p (held t)) →
  v = s32 (cvnum s c + weight c p - weight c (at_place t)) → (∀ c', c' ≠ c → weight c' p = weight c' (at_place t)) →
  waits_on p = None → (∀ c', woken c' p = false) → (∀ b k, at_place t ≠ UnlockWake b k) →
  inv (Sys (lock s) (<[c := v]> (cvnum s)) (<[i := Thread p (held t)]> (thr s))).
Proof.
  intros Hh Hok Hv Hw Hs Hk Hu. apply (update_inv (λ _, 0) s i t); [done|done|]. split; cbn [at_place held]; try done.
  - intros a H1 H2. congruence.
  - intros a. apply lock_same.
  - intros c'. destruct (decide (c = c')) as [<-|Hc]; [done|]. by rewrite fn_lookup_insert_ne.
  - intros c'. destruct (decide (c = c')) as [<-|Hc].
    + rewrite fn_lookup_insert, Hv, (i_num _ _ HI c). unfold s32, u32. repeat case_match; zlia.
    + rewrite fn_lookup_insert_ne by done. rewrite (i_num _ _ HI c'), Hw by done. f_equal. lia.
  - intros c' n ->. done.
  - intros c' E. by rewrite Hk in E.
  - intros b E. by rewrite Hs in E.
  - intros b k E. by destruct (Hu b k).
  - intros a H1 H2. congruence.
Qed.
End moves.

(** A thread with another pc, when the critical section is the same. *)
Lemma thread_ok_pc cv t p : thread_ok cv t → wf_pc p = true → crit p = crit (at_place t) →
  (∀ n, needs p = Some n → held t (User n) = true) → local_ok cv p → thread_ok cv (Thread p (held t)).
Proof. intros [H1 H2 H3 H4] Hw Hc Hn Hl. split; cbn [at_place held]; try done. intros c. by rewrite Hc. Qed.
(** ... when a lock is taken or released. *)
Lemma thread_ok_set cv t p a (b : bool) : thread_ok cv t → wf_pc p = true →
  (match a with
   | User n => crit p = crit (at_place t) ∧ (∀ m, needs p = Some m → held t (User m) = true ∧ (m = n → b = true))
   | Slock c => crit p = (if b then Some c else None) ∧ crit (at_place t) = (if b then None else Some c) ∧
                (∀ m, needs p = Some m → held t (User m) = true)
   end) → local_ok cv p → thread_ok cv (Thread p (<[a := b]> (held t))).
Proof.
  intros [H1 H2 H3 H4] Hw Hc Hl. split; cbn [at_place held]; try done; destruct a as [n|c].
  - intros c. rewrite fn_lookup_insert_ne, H2 by done. by rewrite (proj1 Hc).
  - destruct Hc as (E1&E2&_). intros c'. rewrite E1. destruct (decide (c = c')) as [<-|Hn].
    + rewrite fn_lookup_insert. destruct b; symmetry; [by apply bool_decide_eq_true|by apply bool_decide_eq_false].
    + rewrite fn_lookup_insert_ne, H2, E2 by (intros [=]; done). apply bool_decide_ext. destruct b; naive_solver.
  - destruct Hc as (_&Hc). intros m Hm. destruct (Hc m Hm) as [Hh Hb]. destruct (decide (n = m)) as [<-|Hn].
    + rewrite fn_lookup_insert. by apply Hb.
    + by rewrite fn_lookup_insert_ne by (intros [=]; done).
  - destruct Hc as (_&_&Hc). intros m Hm. rewrite fn_lookup_insert_ne by done. by apply Hc.
Qed.

Lemma call_inv s i t u : inv s → thr s !! i = Some t → at_place t = Run → may u (held t) = true →
  inv (Sys (lock s) (cvnum s) (<[i := Thread (start u) (held t)]> (thr s))).
Proof.
  intros HI Ht Hp Hm. pose proof (i_thr _ _ HI i t Ht) as TH. apply move_inv; try done; try (by destruct u); rewrite ?Hp; try (by destruct u).
  apply thread_ok_pc; rewrite ?Hp; try done; destruct u; simpl in *; try done; try (by apply bool_decide_eq_true); intros; by simplify_eq.
Qed.

Lemma mlock_inv s i t a k : inv s → thr s !! i = Some t → at_place t = Lock a k →
  inv (Sys (<[a := 1]> (lock s)) (cvnum s)
    (if truth (lock s a) then <[i := Thread (LockWait a k) (held t)]> (thr s) else <[i := Thread (go_on k) (take_lock a (held t))]> (thr s))).
Proof.
  intros HI Ht Hp. pose proof (i_thr _ _ HI i t Ht) as TH. pose proof (th_wf _ _ TH) as Hwf. pose proof (th_needs _ _ TH) as Hn.
  rewrite Hp in Hwf, Hn. simpl in Hwf, Hn. destruct (i_free _ _ HI a) as [[E _]|[E _]]; rewrite E; cbn [truth Z.eqb negb].
  - apply take_inv; try done; rewrite ?Hp; try done; [|destruct k; done..].
    apply thread_ok_set; [done|destruct a, k; simpl in *; try done; by apply bool_decide_eq_true| |by destruct k].
    destruct a, k; simpl in *; rewrite ?Hp; try done; apply bool_decide_eq_true in Hwf; subst; simpl; split_and!; try done; intros m [= <-]; by apply Hn.
  - apply move_inv; try done; rewrite ?Hp; try done.
    + intros b. destruct (decide (a = b)) as [<-|]; [by rewrite fn_lookup_insert|by rewrite fn_lookup_insert_ne].
    + by apply thread_ok_pc; rewrite ?Hp.
Qed.

Lemma trylock_inv s i t a : inv s → thr s !! i = Some t → at_place t = Trylock a →
  inv (Sys (<[a := 1]> (lock s)) (cvnum s) (<[i := Thread Run (if truth (lock s a) then held t else take_lock a (held t))]> (thr s))).
Proof.
  intros HI Ht Hp. pose proof (i_thr _ _ HI i t Ht) as TH. pose proof (th_wf _ _ TH) as Hwf. rewrite Hp in Hwf.
  destruct (i_free _ _ HI a) as [[E _]|[E _]]; rewrite E; cbn [truth Z.eqb negb].
  - apply take_inv; try done; rewrite ?Hp; try done. apply thread_ok_set; [done|done| |done]. destruct a; [|done]. by rewrite Hp.
  - apply move_inv; try done; rewrite ?Hp; try done; [|by apply thread_ok_pc; rewrite ?Hp].
    intros b. destruct (decide (a = b)) as [<-|]; [by rewrite fn_lookup_insert|by rewrite fn_lookup_insert_ne].
Qed.

Lemma munlock_inv s i t a k : inv s → thr s !! i = Some t → at_place t = Unlock a k →
  inv (Sys (<[a := 0]> (lock s)) (cvnum s) (<[i := Thread (UnlockWake a k) (drop_lock a (held t))]> (thr s))).
Proof.
  intros HI Ht Hp. pose proof (i_thr _ _ HI i t Ht) as TH. destruct TH as [Hwf Hc Hn Hl]. rewrite Hp in *. simpl in *.
  apply drop_inv; try done; rewrite ?Hp; try done; [|apply thread_ok_set; [by apply (i_thr _ _ HI i)|done| |done]|by right; exists k].
  - destruct a as [n|c]; [by apply Hn|]. rewrite Hc. by apply bool_decide_eq_true.
  - rewrite Hp. destruct a as [n|c], k; simpl in *; done.
Qed.

(** The process that steps is not asleep, so waking the others does not change it. *)
Lemma wake_self ch s i t : thr s !! i = Some t → waits_on (at_place t) = None → (wk ch <$> thr s) !! i = Some t.
Proof. intros Ht Hs. rewrite list_lookup_fmap, Ht. simpl. by rewrite wk_awake. Qed.

Lemma unlock_wake_inv s i t a k : inv s → thr s !! i = Some t → at_place t = UnlockWake a k →
  inv (Sys (lock s) (cvnum s) (<[i := Thread (go_on k) (held t)]> (wake_all (ALock a) (thr s)))).
Proof.
  intros HI Ht Hp. rewrite wake_fmap. pose proof (wake_lock_inv a s HI) as HI1.
  pose proof (wake_self (ALock a) s i t Ht ltac:(by rewrite Hp)) as Ht1. pose proof (i_thr _ _ HI i t Ht) as TH.
  pose proof (th_wf _ _ TH) as Hwf. rewrite Hp in Hwf.
  apply (move_inv _ i t HI1 Ht1); try done; rewrite ?Hp; try (by destruct k).
  - apply thread_ok_pc; rewrite ?Hp; try done; by destruct a, k.
  - intros b k' [= <- <-]. apply nobody_woken.
Qed.

Lemma futex_wait2_inv s i t c n v : inv s → thr s !! i = Some t → at_place t = WaitCall2 c n v →
  inv (Sys (<[Slock c := 0]> (lock s)) (cvnum s)
    (<[i := Thread (futex_wait (cvnum s c) v (WaitSleep c n) (Lock (User n) KRet)) (drop_lock (Slock c) (held t))]> (wake_all (ALock (Slock c)) (thr s)))).
Proof.
  intros HI Ht Hp. rewrite wake_fmap. pose proof (wake_lock_inv (Slock c) s HI) as HI1.
  pose proof (wake_self (ALock (Slock c)) s i t Ht ltac:(by rewrite Hp)) as Ht1. pose proof (i_thr _ _ HI i t Ht) as TH.
  pose proof (th_local _ _ TH) as Hv. rewrite Hp in Hv. simpl in Hv. unfold futex_wait. rewrite Hv, Z.eqb_refl.
  apply (drop_inv _ i t HI1 Ht1); try done; rewrite ?Hp; try done; [|apply thread_ok_set; [done|done| |done]|intros c' n' [= -> ->]; done|left; apply nobody_woken].
  - rewrite (th_crit _ _ TH), Hp. by apply bool_decide_eq_true.
  - by rewrite Hp.
Qed.

Lemma futex_wake_inv s i t c n : inv s → thr s !! i = Some t → at_place t = BWake c n →
  inv (Sys (lock s) (cvnum s) (<[i := Thread (BTest c (s32 (n + sleepers (ANum c) (thr s)))) (held t)]> (wk (ANum c) <$> thr s))).
Proof.
  intros HI Ht Hp. pose proof (wake_inv (ANum c) s HI) as HI1. pose proof (wake_self (ANum c) s i t Ht ltac:(by rewrite Hp)) as Ht1.
  pose proof (i_thr _ _ HI i t Ht) as TH. pose proof (th_local _ _ TH) as Hv. rewrite Hp in Hv. simpl in Hv. subst n.
  apply (update_inv _ _ i t _ _ _ HI1 Ht1). split; cbn [at_place held lock cvnum thr]; try done; rewrite ?Hp; try done.
  - apply thread_ok_pc; rewrite ?Hp; try done. simpl. unfold s32, u32. repeat case_match; zlia.
  - intros a H1 H2. congruence.
  - intros a. by apply (lock_same s i t).
  - intros c'. rewrite (i_num _ _ HI c'), wsum_wake. simpl. destruct (decide (ANum c = ANum c')) as [[= <-]|Hc].
    + rewrite decide_True by done. unfold s32, u32. repeat case_match; zlia.
    + rewrite decide_False by congruence. f_equal. lia.
  - intros c' Hw. apply bool_decide_eq_true in Hw as <-. apply nobody_woken.
  - intros a H1 H2. congruence.
Qed.

Lemma wsum_zero c ts : (∀ j u, ts !! j = Some u → weight c (at_place u) = 0) → wsum c ts = 0.
Proof.
  induction ts as [|x ts IH]; intros H; simpl; [done|]. rewrite (H 0%nat x eq_refl), IH; [done|]. intros j u Hu. by apply (H (S j)).
Qed.
Lemma wsum_one c ts i t : ts !! i = Some t → (∀ j u, ts !! j = Some u → j ≠ i → weight c (at_place u) = 0) → wsum c ts = weight c (at_place t).
Proof.
  revert i. induction ts as [|x ts IH]; intros [|i] Hi H; simplify_eq/=.
  - rewrite wsum_zero; [lia|]. intros j u Hu. by apply (H (S j)).
  - rewrite (H 0%nat x), (IH i); try done. intros j u Hu Hj. apply (H (S j)); [done|congruence].
Qed.
Lemma weight_zero c p : crit p ≠ Some c → waits_on p ≠ Some (ANum c) → weight c p = 0.
Proof. intros H1 H2. destruct p; simpl in *; try done; case_decide; by subst. Qed.

(** The loop of cv_bcast has woken as many processes as wait. *)
Lemma bcast_num s i t c n : inv s → thr s !! i = Some t → at_place t = BTest c n → cvnum s c = n.
Proof.
  intros HI Ht Hp. pose proof (i_thr _ _ HI i t Ht) as TH. pose proof (th_local _ _ TH) as Hn. rewrite Hp in Hn. simpl in Hn.
  rewrite (i_num _ _ HI c), (wsum_one c _ i t Ht).
  - rewrite Hp. simpl. rewrite decide_True by done. rewrite Z.add_0_r. done.
  - intros j u Hu Hj. apply weight_zero.
    + apply (other_crit _ s i t HI Ht j u c Hu Hj). rewrite (th_crit _ _ TH), Hp. by apply bool_decide_eq_true.
    + apply (i_woken _ _ HI i t c Ht) with j; [|done]. rewrite Hp. by apply bool_decide_eq_true.
Qed.

Lemma lib_step_inv s i s' : inv s → lib_step i s = Some s' → inv s'.
Proof.
  intros HI. unfold lib_step. destruct (thr s !! i) as [t|] eqn:Ht; [|done]. cbn [mbind option_bind].
  pose proof (i_thr _ _ HI i t Ht) as TH. destruct (at_place t) as [|a k|a k|a k|a|a k|a k|c n|c n v|c n|c n v|c n|c n|c n|c n|c n v|] eqn:Hp; try done;
    rewrite ?wakeupfutex1_fmap; intros [= <-].
  - by apply mlock_inv.
  - pose proof (th_wf _ _ TH) as Hwf. pose proof (th_needs _ _ TH) as Hn. rewrite Hp in Hwf, Hn. unfold futex_wait.
    destruct (Z.eqb_spec (lock s a) 1); apply move_inv; try done; rewrite ?Hp; try done; try (by apply thread_ok_pc; rewrite ?Hp).
    by intros b [= <-].
  - by apply trylock_inv.
  - by apply munlock_inv.
  - by apply unlock_wake_inv.
  - apply move_inv; try done; rewrite ?Hp; try done. by apply thread_ok_pc; rewrite ?Hp.
  - pose proof (th_local _ _ TH) as Hv. rewrite Hp in Hv. simpl in Hv. apply store_inv; try done; rewrite ?Hp; try done.
    + rewrite (th_crit _ _ TH), Hp. by apply bool_decide_eq_true.
    + destruct TH as [H1 H2 H3 H4]. split; cbn [at_place held]; try done. intros c'. rewrite H2, Hp. done.
    + simpl. rewrite decide_True by done. rewrite Hv. f_equal. lia.
    + intros c' Hc. simpl. by rewrite decide_False.
  - apply move_inv; try done; rewrite ?Hp; try done. by apply thread_ok_pc; rewrite ?Hp.
  - by apply (futex_wait2_inv s i t).
  - by apply futex_wake_inv.
  - rewrite (bcast_num s i t c n) by done. rewrite Z.eqb_refl. cbn [negb]. pose proof (th_local _ _ TH) as Hv. rewrite Hp in Hv.
    apply move_inv; try done; rewrite ?Hp; try done. by apply thread_ok_pc; rewrite ?Hp.
  - pose proof (th_local _ _ TH) as Hv. rewrite Hp in Hv. apply move_inv; try done; rewrite ?Hp; try done. by apply thread_ok_pc; rewrite ?Hp.
  - pose proof (th_local _ _ TH) as Hv. rewrite Hp in Hv. destruct Hv as [Hv Hn]. apply store_inv; try done; rewrite ?Hp; try done.
    + rewrite (th_crit _ _ TH), Hp. by apply bool_decide_eq_true.
    + destruct TH as [H1 H2 H3 H4]. split; cbn [at_place held]; try done. intros c'. rewrite H2, Hp. done.
    + simpl. rewrite decide_True by done. rewrite Hv. f_equal. lia.
    + intros c' Hc. simpl. by rewrite decide_False.
Qed.

Lemma init_inv n : inv (init n).
Proof.
  assert (Hr : ∀ i t, thr (init n) !! i = Some t → t = Thread Run (λ _, false)) by (intros i t [-> _]%lookup_replicate; done).
  split.
  - intros i t ->%Hr. by split.
  - by intros i j t u a ->%Hr.
  - intros a. left. split; [done|]. by intros i t ->%Hr.
  - intros c. simpl. rewrite wsum_zero; [done|]. by intros j u ->%Hr.
  - by intros i t c ->%Hr.
  - intros a. left. by intros j u ->%Hr.
Qed.
Lemma reachable_inv n s : rtc step (init n) s → inv s.
Proof.
  intros H. pose proof (init_inv n) as HI. induction H as [|s s1 s2 Hs _ IH]; [done|]. apply IH. destruct Hs; [by apply call_inv|by eapply lib_step_inv].
Qed.

(** ** What the library does *)

Lemma step_length s s' : step s s' → length (thr s') = length (thr s).
Proof.
  destruct 1 as [i t u Ht _ _|i s' H]; [cbn [thr]; by rewrite length_insert|]. unfold lib_step in H.
  destruct (thr s !! i) as [t|]; [|done]. cbn [mbind option_bind] in H.
  destruct (at_place t); try done; rewrite ?wakeupfutex1_fmap, ?wake_fmap in H; injection H as <-; cbn [thr];
    try case_match; by rewrite ?length_insert, ?length_fmap.
Qed.
Lemma reachable_length n s : rtc step (init n) s → length (thr s) = n.
Proof.
  intros H. cut (length (thr s) = length (thr (init n))); [intros ->; apply length_replicate|].
  induction H as [|s1 s2 s3 Hs _ IH]; [done|]. by rewrite IH, (step_length s1 s2).
Qed.
Lemma sleepers_range ch ts : 0 ≤ sleepers ch ts ≤ Z.of_nat (length ts).
Proof. induction ts as [|t ts IH]; simpl; [lia|]. case_decide; lia. Qed.
Lemma wsum_sleepers c ts : (∀ j u, ts !! j = Some u → crit (at_place u) ≠ Some c) → wsum c ts = sleepers (ANum c) ts.
Proof.
  induction ts as [|t ts IH]; intros H; simpl; [done|]. rewrite IH by (intros j u Hu; by apply (H (S j))). f_equal.
  pose proof (H 0%nat t eq_refl) as H0. case_decide as E; [|by apply weight_zero]. destruct t as [[] ?]; simplify_eq/=. by rewrite decide_True.
Qed.

(** Runs as lists of events. *)
Inductive event := ECall (i : nat) (u : ucall) | ELib (i : nat) | EKill (i : nat).
Definition exec1 (e : event) (s : sync) : option sync :=
  match e with
  | ECall i u =>
      t ← thr s !! i;
      match at_place t with
      | Run => if may u (held t) then Some (Sys (lock s) (cvnum s) (<[i := Thread (start u) (held t)]> (thr s))) else None
      | _ => None
      end
  | ELib i => lib_step i s
  | EKill i => t ← thr s !! i; Some (Sys (lock s) (cvnum s) (<[i := Thread Dead (held t)]> (thr s)))
  end.
Fixpoint exec (es : list event) (s : sync) : option sync :=
  match es with [] => Some s | e :: es' => exec1 e s ≫= exec es' end.
Definition no_kill (e : event) : bool := match e with EKill _ => false | _ => true end.

Lemma exec1_step e s s' : exec1 e s = Some s' → kstep s s' ∧ (no_kill e = true → step s s').
Proof.
  destruct e as [i u|i|i]; simpl; [|intros H; split; [apply ks_step|intros _]; by apply (st_lib _ i)|]; destruct (thr s !! i) as [t|] eqn:Ht; try done; simpl.
  - destruct (at_place t) eqn:Hp; try done. destruct (may u (held t)) eqn:Hm; [|done]. intros [= <-].
    split; [apply ks_step|intros _]; by apply st_call.
  - intros [= <-]. split; [by apply ks_kill|done].
Qed.
Lemma events_ksteps es s s' : exec es s = Some s' → rtc kstep s s'.
Proof.
  revert s. induction es as [|e es IH]; intros s; simpl; [intros [= <-]; constructor|]. destruct (exec1 e s) as [s1|] eqn:E; [|done].
  intros H. eapply rtc_l; [by apply (exec1_step e)|by apply IH].
Qed.
Lemma events_steps es s s' : forallb no_kill es = true → exec es s = Some s' → rtc step s s'.
Proof.
  revert s. induction es as [|e es IH]; intros s; simpl; [intros _ [= <-]; constructor|]. intros [He Hes]%andb_true_iff.
  destruct (exec1 e s) as [s1|] eqn:E; [|done]. intros H. eapply rtc_l; [by apply (exec1_step e)|by apply IH].
Qed.

(** Process 0 waits on condition variable 0. *)
Definition wait_run : list event := [ECall 0 (ULock 0); ELib 0; ECall 0 (UWait 0 0)] ++ replicate 7 (ELib 0).
(** It is killed, and process 1 is in cv_bcast. *)
Definition hang_run : list event := wait_run ++ [EKill 0; ECall 1 (UBcast 0); ELib 1].
Definition hung (s : sync) : Prop :=
  cvnum s 0%nat = 1 ∧ ∃ p, at_place <$> thr s = [Dead; p] ∧ (p = BWake 0 0 ∨ p = BTest 0 0 ∨ p = Dead).
Lemma hung_kstep s s' : hung s → kstep s s' → hung s'.
Proof.
  intros (Hc&p&Ht&Hp). destruct (thr s) as [|[q0 h0] [|[q1 h1] [|]]] eqn:E; simplify_eq/=.
  intros [s1 [i t u Hi Hr _|i s2 Hs]|i t Hi].
  - rewrite E in Hi. exfalso. destruct i as [|[|]]; simplify_eq/=. naive_solver.
  - unfold lib_step in Hs. rewrite E in Hs. destruct i as [|[|]]; simplify_eq/=. destruct Hp as [->|[->| ->]]; simplify_eq/=.
    + split; [done|]. exists (BTest 0 0). naive_solver.
    + rewrite Hc in *. split; [done|]. exists (BWake 0 0). naive_solver.
  - split; [done|]. rewrite E in *. cbn [thr]. destruct i as [|[|]]; simplify_eq/=; [|exists Dead; auto]. by exists p.
Qed.
Lemma hung_ksteps s s' : hung s → rtc kstep s s' → hung s'.
Proof. intros H. induction 1 as [|s1 s2 s3 Hs _ IH]; [done|]. by apply IH, (hung_kstep s1). Qed.
Lemma hang_run_hung : ∃ s, exec hang_run (init 2) = Some s ∧ hung s ∧ at_place <$> thr s = [Dead; BWake 0 0].
Proof.
  destruct (exec hang_run (init 2)) as [s|] eqn:E; [|by vm_compute in E]. exists s. split; [done|].
  assert (Hs : (at_place <$> thr s, cvnum s 0%nat) = ([Dead; BWake 0 0], 1)).
  { transitivity (from_option (λ s, (at_place <$> thr s, cvnum s 0%nat)) ([], 0) (exec hang_run (init 2))); [by rewrite E|]. vm_compute. reflexivity. }
  injection Hs as H1 H2. split; [|done]. split; [done|]. exists (BWake 0 0). auto.
Qed.

(** C8: in every interleaving of mutex_lock, mutex_trylock, mutex_unlock, cv_wait and
    cv_bcast of any processes, none of which is killed: two processes never have the same
    mutex; a process sleeps in mutex_lock only while another has the mutex or is about to
    wake it; the test of futex_wait2 never fails, so that cv_wait goes to sleep; when
    nobody has cvslock, cvnum is the number of processes asleep in cv_wait; and when
    futex_wake has returned in cv_bcast all of them are awake and the loop ends. But if a
    process is killed while it waits, a later cv_bcast never ends. *)
Theorem mutex_and_cv :
  (∀ n s, Z.of_nat n < 2147483648 → rtc step (init n) s →
    (∀ i j t u a, thr s !! i = Some t → thr s !! j = Some u → held t a = true → held u a = true → i = j) ∧
    (∀ i t a k, thr s !! i = Some t → at_place t = LockSleep a k →
       (∃ j u, thr s !! j = Some u ∧ held u a = true) ∨ (∃ j u k', thr s !! j = Some u ∧ at_place u = UnlockWake a k')) ∧
    (∀ i t c m v, thr s !! i = Some t → at_place t = WaitCall2 c m v → cvnum s c = v) ∧
    (∀ c, lock s (Slock c) = 0 → cvnum s c = sleepers (ANum c) (thr s)) ∧
    (∀ i t c k, thr s !! i = Some t → at_place t = BTest c k → cvnum s c = k ∧ nobody_on (ANum c) (thr s))) ∧
  (∃ s, rtc kstep (init 2) s ∧ at_place <$> thr s = [Dead; BWake 0 0] ∧
    ∀ s', rtc kstep s s' → ∃ p, at_place <$> thr s' = [Dead; p] ∧ (p = BWake 0 0 ∨ p = BTest 0 0 ∨ p = Dead)).
Proof.
  split.
  - intros n s Hn Hr. pose proof (reachable_inv n s Hr) as HI. split; [apply (i_one _ _ HI)|]. split; [|split; [|split]].
    + intros i t a k Ht Hp. destruct (i_wake _ _ HI a) as [H|[H|H]]; [by destruct (H i t Ht); rewrite Hp|left|by right].
      destruct (i_free _ _ HI a) as [[? _]|[_ Hh]]; [congruence|done].
    + intros i t c m v Ht Hp. pose proof (th_local _ _ (i_thr _ _ HI i t Ht)) as Hl. by rewrite Hp in Hl.
    + intros c Hl. rewrite (i_num _ _ HI c), wsum_sleepers, Z.add_0_r.
      * pose proof (sleepers_range (ANum c) (thr s)) as Hs. rewrite (reachable_length n s Hr) in Hs. apply s32_small. lia.
      * intros j u Hu Hc. destruct (i_free _ _ HI (Slock c)) as [[_ Hf]|[? _]]; [|congruence].
        pose proof (Hf j u Hu) as H. rewrite (th_crit _ _ (i_thr _ _ HI j u Hu)) in H. by apply bool_decide_eq_false in H.
    + intros i t c k Ht Hp. split; [by apply (bcast_num s i t)|]. apply (i_woken _ _ HI i t c Ht). rewrite Hp. by apply bool_decide_eq_true.
  - destruct hang_run_hung as (s&Hr&Hh&Hp). exists s. split; [by eapply events_ksteps|]. split; [done|].
    intros s' Hs. by destruct (hung_ksteps s s' Hh Hs) as [_ H].
Qed.

(** Two processes wait, and a third has woken them. *)
Definition bcast_run : list event :=
  wait_run ++ [ECall 1 (ULock 1); ELib 1; ECall 1 (UWait 0 1)] ++ replicate 7 (ELib 1) ++ [ECall 2 (UBcast 0); ELib 2; ELib 2].
Lemma mutex_and_cv_witness :
  ∃ s t, rtc step (init 3) s ∧ thr s !! 2%nat = Some t ∧ at_place t = BTest 0 2 ∧ cvnum s 0%nat = 2 ∧ nobody_on (ANum 0) (thr s).
Proof.
  destruct (exec bcast_run (init 3)) as [s|] eqn:E; [|by vm_compute in E]. exists s.
  assert (Hs : at_place <$> thr s = [Lock (User 0) KRet; Lock (User 1) KRet; BTest 0 2]).
  { transitivity (from_option (λ s, at_place <$> thr s) [] (exec bcast_run (init 3))); [by rewrite E|]. vm_compute. reflexivity. }
  assert (Hr : rtc step (init 3) s) by (apply (events_steps bcast_run); [reflexivity|done]).
  destruct (thr s) as [|t0 [|t1 [|t2 [|]]]] eqn:Et; try discriminate Hs. injection Hs as H0 H1 H2.
  exists t2. split; [exact Hr|]. split; [reflexivity|]. split; [exact H2|]. rewrite <- Et.
  apply (proj2 (proj2 (proj2 (proj2 (proj1 mutex_and_cv 3%nat s eq_refl Hr)))) 2%nat t2); [by rewrite Et|exact H2].
Defined.
End Sync.
