(* ===== verification/Sysproc.v ===== *)
(** The system calls that change the memory of a process: growproc (src/proc.c),
    sys_sbrk and sys_shmbrk (src/sysproc.c), on the virtual memory of Vm.v.

    The state is the page allocator with the memory, and the process that makes the call.
    switchuvm(), which loads the registers of the MMU again, has no effect on it. *)

From Stdlib Require Import ZArith Lia.
From stdpp Require Import base tactics numbers gmap strings fin_maps list.
From S2P Require Import Prelude Memory Kstring Spinlock Mmu Kalloc Procdef Vm Vminv Vmspec Vmalloc Cow Vmexample Fault Vmprops.

#[local] Open Scope Z_scope.

Section ops.
Context (kend : Z).
Abbreviation M := (K (kmem * proc)).

Definition growproc (n : Z) : M Z :=
  myproc ≫= λ p,
  let sz := p_sz p in
  if 0 <? n then
    on_mem (allocuvm kend (p_pgdir p) sz (u32 (sz + n)) (Some p)) ≫= λ r,
    if r =? 0 then mret (-1) else set_myproc (set_sz r) ≫= λ _, mret 0
  else if n <? 0 then
    on_mem (deallocuvm kend (p_pgdir p) sz (u32 (sz + n)) (Some p)) ≫= λ r,
    if r =? 0 then mret (-1) else set_myproc (set_sz r) ≫= λ _, mret 0
  else set_myproc (set_sz sz) ≫= λ _, mret 0.

Definition sys_sbrk (n : Z) : M Z :=
  myproc ≫= λ p,
  growproc n ≫= λ r,
  mret (if r <? 0 then -1 else p_sz p).

(** newbk and newnextpg are ints, which are compared as unsigned. *)
Definition sys_shmbrk (n : Z) : M Z :=
  myproc ≫= λ p,
  let oldshmbreak := p_shmbreak p in
  if n =? 0 then mret (p_shmbreak p)
  else if n <? 0 then
    on_mem (deallocuvm kend (p_pgdir p) (p_shmtop p) (p_stacktop p) (Some p)) ≫= λ _,
    set_myproc (λ p, set_shmnextpg (p_stacktop p) (set_shmbreak (p_stacktop p) p)) ≫= λ _,
    mret oldshmbreak
  else if p_shmtop p <=? u32 (p_shmbreak p + n) then mret (-1)
  else
    let newbk := u32 (p_shmbreak p + n) in
    let newnextpg := PGROUNDUP newbk in
    if p_shmnextpg p <? newnextpg then
      on_mem (allocuvm kend (p_pgdir p) (p_shmnextpg p) newnextpg None) ≫= λ r,
      if r =? 0 then panic "panic sys_shmbrk allocuvm failed" else
      set_myproc (λ p, set_shmbreak newbk (set_shmnextpg newnextpg p)) ≫= λ _,
      mret oldshmbreak
    else if newnextpg =? p_shmnextpg p then
      set_myproc (set_shmbreak newbk) ≫= λ _, mret oldshmbreak
    else panic "sys_shmbrk".
End ops.

(** ** Heap *)

Lemma set_sz_same pr : set_sz (p_sz pr) pr = pr.
Proof. by destruct pr. Qed.

Lemma wp_myproc {A} (f : proc → K (kmem * proc) A) k pr Q :
  wp (myproc ≫= f) (k, pr) Q ↔ wp (f pr) (k, pr) Q.
Proof. done. Qed.

Lemma wp_set_myproc {A} f (m : unit → K (kmem * proc) A) k pr Q :
  wp (set_myproc f ≫= m) (k, pr) Q ↔ wp (m tt) (k, f pr) Q.
Proof. done. Qed.

(** What a change of the addresses from [lo] up to [hi] leaves alone. *)
Definition outside_kept (G : ghost) (k k' : kmem) (d lo hi : Z) : Prop :=
  ∀ d' va, is_dir G d' → user_va va → d' ≠ d ∨ ¬ (lo ≤ va < hi) →
    user_read k' d' va = user_read k d' va.

Section sbrk.
Context (kend : Z) (Hkend : KERNBASE < kend).

(** deallocuvm as the system calls use it. *)
Lemma deallocuvm_view k p G d oldsz newsz cp :
  vm_inv kend k p G → is_dir G d → 0 ≤ newsz < oldsz → oldsz < KERNBASE →
  (∀ u, (newsz + 4095) / 4096 ≤ u < (oldsz + 4095) / 4096 →
     is_guard cp (u * 4096) = true → pte_at G d u ≠ 0) →
  wp (deallocuvm kend d oldsz newsz cp) k (λ r k', r = newsz ∧ ∃ p' G', vm_inv kend k' p' G' ∧
    (∀ d', is_dir G d' → is_dir G' d') ∧
    outside_kept G k k' d (PGROUNDUP newsz) (PGROUNDUP oldsz) ∧
    (∀ va, PGROUNDUP newsz ≤ va < PGROUNDUP oldsz → user_read k' d va = None) ∧
    sweeps G G' d ((newsz + 4095) / 4096) ((oldsz + 4095) / 4096) cp).
Proof.
  intros HV Hd Hsz Hold Hg. pose proof HV as [HI HB]. unfold KERNBASE in Hold.
  rewrite !PGROUNDUP_small by lia.
  eapply wp_mono; [|apply (deallocuvm_spec kend Hkend k p G d oldsz newsz cp); try done; unfold KERNBASE; lia].
  intros r k' (->&p'&G'&HI'&HB'&Hs&_&Hsw). split; [done|]. exists p', G'.
  pose proof (dealloc_view kend k p G d _ _ cp k' p' G' HV HI' HB' Hs Hsw) as Hv.
  split_and!; try done.
  - intros d' Hd'. by apply (shrink_is_dir _ _ _ _ _ _ _ Hs).
  - intros d' va Hd' Hva Hout. by apply (Hv d' va).
  - intros va Hva. apply (Hv d va); try done. unfold user_va, KERNBASE. zlia.
Qed.

(** The guard page is mapped wherever sbrk would pass over it. *)
Definition guard_mapped (G : ghost) (pr : proc) (lo hi : Z) : Prop :=
  ∀ u, (lo + 4095) / 4096 ≤ u < (hi + 4095) / 4096 → u * 4096 = p_guardpg pr →
    pte_at G (p_pgdir pr) u ≠ 0.

(** What a call of sbrk(n) answers and leaves behind. *)
Definition sbrk_post (k : kmem) (p : Pool.pool) (G : ghost) (pr : proc) (n r : Z) (s' : kmem * proc) : Prop :=
  let sz := p_sz pr in let d := p_pgdir pr in let '(k', pr') := s' in
  ∃ p' G', vm_inv kend k' p' G' ∧ (∀ d', is_dir G d' → is_dir G' d') ∧
   ((r = sz ∧ pr' = set_sz (sz + n) pr ∧ 0 < sz + n < KERNBASE ∧
       outside_kept G k k' d (PGROUNDUP (Z.min sz (sz + n))) (PGROUNDUP (Z.max sz (sz + n))) ∧
       (∀ va, PGROUNDUP sz ≤ va < PGROUNDUP (sz + n) → user_read k' d va = Some 0) ∧
       (∀ va, PGROUNDUP (sz + n) ≤ va < PGROUNDUP sz → user_read k' d va = None)) ∨
    (r = -1 ∧ pr' = pr ∧ 0 < n ∧ outside_kept G k k' d 0 0 ∧
       (KERNBASE ≤ sz + n ∨
        Z.of_nat (length (Pool.free p)) < 2 * ((sz + n + 4095) / 4096 - (sz + 4095) / 4096))) ∨
    (r = -1 ∧ pr' = pr ∧ sz + n = 0 ∧ outside_kept G k k' d 0 (PGROUNDUP sz) ∧
       ∀ va, 0 ≤ va < PGROUNDUP sz → user_read k' d va = None) ∨
    (r = sz ∧ pr' = pr ∧ sz + n < 0 ∧ k' = k)).

Lemma sbrk_grow k p G pr n :
  vm_inv kend k p G → is_dir G (p_pgdir pr) → 0 < p_sz pr < KERNBASE → 0 < n < 2147483648 →
  (p_sz pr + n < KERNBASE → alloc_range G (p_pgdir pr) (p_sz pr) (p_sz pr + n) (Some pr)) →
  wp (sys_sbrk kend n) (k, pr) (sbrk_post k p G pr n).
Proof.
  intros HV Hd Hsz Hn Hr. unfold sys_sbrk, growproc. unfold KERNBASE in Hsz.
  rewrite (proj2 (Z.ltb_lt 0 n)) by lia.
  rewrite wp_myproc, wp_bind, wp_myproc, wp_bind, wp_on_mem. rewrite u32_small by (unfold is_u32; lia). destruct (Z.leb_spec KERNBASE (p_sz pr + n)) as [Hk|Hk].
  - unfold allocuvm. rewrite (proj2 (Z.leb_le _ _)) by done. cbn. exists p, G. split_and!; [done..|].
    right; left. split_and!; try done; [lia|by left].
  - eapply wp_mono; [|apply (allocuvm_view kend k p G); try done; [lia|by apply Hr]].
    intros r k' (p'&G'&HV'&Hd'&_&Hout&[[-> Hnew]|(->&_&Hall&Hlen)]); cbn.
    + rewrite (proj2 (Z.eqb_neq _ _)) by lia. cbn. exists p', G'. split_and!; [done..|].
      left. rewrite Z.min_l, Z.max_r by lia. split_and!; try done; [lia|..].
      * intros va Hva. by apply Hnew.
      * unfold KERNBASE in Hk. rewrite !PGROUNDUP_small by lia. intros. zlia.
    + exists p', G'. split_and!; [done..|]. right; left. split_and!; try done; [lia| |by right].
      intros d' va Hd1 Hva _. by apply Hall.
Qed.

Lemma sbrk_shrink k p G pr n :
  vm_inv kend k p G → is_dir G (p_pgdir pr) → 0 < p_sz pr < KERNBASE → -2147483648 ≤ n < 0 →
  guard_mapped G pr (p_sz pr + n) (p_sz pr) →
  wp (sys_sbrk kend n) (k, pr) (sbrk_post k p G pr n).
Proof.
  intros HV Hd Hsz Hn Hg. unfold sys_sbrk, growproc. pose proof Hsz as Hsz'. unfold KERNBASE in Hsz'.
  rewrite (proj2 (Z.ltb_ge 0 n)), (proj2 (Z.ltb_lt n 0)) by lia.
  rewrite wp_myproc, wp_bind, wp_myproc, wp_bind, wp_on_mem.
  destruct (decide (p_sz pr + n < 0)) as [Hneg|Hpos].
  - replace (u32 (p_sz pr + n)) with (p_sz pr + n + 4294967296)
      by (unfold u32; apply (Zmod_unique _ _ (-1)); lia).
    unfold deallocuvm. rewrite (proj2 (Z.leb_le _ _)) by lia. apply wp_ret.
    rewrite (proj2 (Z.eqb_neq _ _)), wp_set_myproc, set_sz_same by lia. exists p, G. split_and!; [done..|]. do 3 right. by split_and!.
  - rewrite u32_small by (unfold is_u32; lia).
    eapply wp_mono; [|apply (deallocuvm_view k p G); try done; [lia|lia|]].
    2: { intros u Hu Hgd. cbn in Hgd. apply Z.eqb_eq in Hgd. by apply Hg. }
    intros r k' (->&p'&G'&HV'&Hd'&Hout&Hgone&_). cbn.
    destruct (Z.eqb_spec (p_sz pr + n) 0) as [E|E]; cbn; exists p', G'; (split_and!; [done..|]).
    + rewrite E in *. do 2 right; left. by split_and!.
    + left. rewrite Z.min_r, Z.max_l by lia. split_and!; try done; [lia|lia|].
      rewrite !PGROUNDUP_small by lia. intros. zlia.
Qed.

(** sbrk(n) with n > 0 maps zeroed pages above the old size, makes the process n bytes
    larger and returns the old size, or returns -1 and changes nothing a process can see,
    which happens only above KERNBASE or with fewer than two free frames for each new page.
    With n < 0 it takes the pages above the new size away.  When nothing would be left
    (n = -sz) all pages are gone but the answer is -1 and the size is still the old one;
    below that (n < -sz) the call answers as if it had worked and does nothing.  No other
    address space notices any of this, and the kernel does not panic. *)
Lemma sbrk_correct k p G pr n :
  vm_inv kend k p G → is_dir G (p_pgdir pr) → 0 < p_sz pr < KERNBASE → -2147483648 ≤ n < 2147483648 →
  (0 < n → p_sz pr + n < KERNBASE → alloc_range G (p_pgdir pr) (p_sz pr) (p_sz pr + n) (Some pr)) →
  (n < 0 → guard_mapped G pr (p_sz pr + n) (p_sz pr)) →
  wp (sys_sbrk kend n) (k, pr) (sbrk_post k p G pr n).
Proof.
  intros HV Hd Hsz Hn Hup Hdown. destruct (Z.lt_trichotomy n 0) as [Hlt|[->|Hgt]].
  - apply sbrk_shrink; auto with lia.
  - unfold sys_sbrk, growproc. change (0 <? 0) with false. cbv iota.
    rewrite wp_myproc, wp_bind, wp_myproc, wp_set_myproc, set_sz_same. exists p, G. split_and!; [done..|]. left.
    rewrite Z.add_0_r, Z.min_id, Z.max_id, set_sz_same. split_and!; done || lia.
  - apply sbrk_grow; auto with lia.
Qed.
End sbrk.
(** ** The shared memory of a process *)

(** The break lies between the top of the stack and the end of the reserved addresses;
    the pages below it are mapped and those above it are not. *)
Record shm_ok (G : ghost) (pr : proc) : Prop := {
  so_guard : p_guardpg pr < p_stacktop pr;
  so_low : 0 ≤ p_stacktop pr ≤ p_shmbreak pr;
  so_high : p_shmbreak pr ≤ p_shmtop pr;
  so_top : p_stacktop pr < p_shmtop pr < KERNBASE;
  so_align : p_stacktop pr mod 4096 = 0 ∧ p_shmtop pr mod 4096 = 0;
  so_next : p_shmnextpg pr = PGROUNDUP (p_shmbreak pr);
  so_in u : p_stacktop pr / 4096 ≤ u < p_shmnextpg pr / 4096 →
    ∃ e, ptes G !! (p_pgdir pr, u) = Some e ∧ has e PTE_P = true;
  so_out u : p_shmnextpg pr / 4096 ≤ u < p_shmtop pr / 4096 → ptes G !! (p_pgdir pr, u) = None
}.

Section shmbrk.
Context (kend : Z) (Hkend : KERNBASE < kend).

(** The break after a call of shmbrk(n). *)
Definition next_break (pr : proc) (n : Z) : Z :=
  if n <? 0 then p_stacktop pr
  else if p_shmtop pr <=? p_shmbreak pr + n then p_shmbreak pr else p_shmbreak pr + n.

Definition shmbrk_post (k : kmem) (G : ghost) (pr : proc) (n r : Z) (s' : kmem * proc) : Prop :=
  let d := p_pgdir pr in let b := next_break pr n in let '(k', pr') := s' in
  ∃ p' G', vm_inv kend k' p' G' ∧ (∀ d', is_dir G d' → is_dir G' d') ∧ shm_ok G' pr' ∧
    pr' = set_shmbreak b (set_shmnextpg (PGROUNDUP b) pr) ∧
    r = (if (0 <? n) && (p_shmtop pr <=? p_shmbreak pr + n) then -1 else p_shmbreak pr) ∧
    outside_kept G k k' d (if n <? 0 then p_stacktop pr else p_shmnextpg pr) (p_shmtop pr) ∧
    (∀ va, p_shmnextpg pr ≤ va < PGROUNDUP b → user_read k' d va = Some 0) ∧
    (n < 0 → ∀ va, p_stacktop pr ≤ va < p_shmtop pr → user_read k' d va = None).

Lemma shm_round x : x mod 4096 = 0 → 0 ≤ x < KERNBASE → (x + 4095) / 4096 = x / 4096 ∧ PGROUNDUP x = x.
Proof. unfold KERNBASE. intros. rewrite PGROUNDUP_small by lia. split; zlia. Qed.

Lemma so_round G pr : shm_ok G pr →
  (p_stacktop pr + 4095) / 4096 = p_stacktop pr / 4096 ∧ PGROUNDUP (p_stacktop pr) = p_stacktop pr ∧
  (p_shmtop pr + 4095) / 4096 = p_shmtop pr / 4096 ∧ PGROUNDUP (p_shmtop pr) = p_shmtop pr.
Proof.
  intros [Hgd Hlow Hhigh Htop [Ha Hb] Hnext Hin Hout].
  destruct (shm_round (p_stacktop pr) Ha) as [-> ->]; [lia|].
  by destruct (shm_round (p_shmtop pr) Hb) as [-> ->]; [lia|].
Qed.

Lemma so_bounds G pr : shm_ok G pr →
  p_shmnextpg pr = (p_shmbreak pr + 4095) / 4096 * 4096 ∧ p_shmnextpg pr ≤ p_shmtop pr.
Proof.
  intros [Hgd Hlow Hhigh Htop [Ha Hb] Hnext Hin Hout]. unfold KERNBASE in Htop.
  rewrite PGROUNDUP_small in Hnext by lia. split; [done|zlia].
Qed.

Lemma set_shm_same G pr : shm_ok G pr →
  set_shmbreak (p_shmbreak pr) (set_shmnextpg (PGROUNDUP (p_shmbreak pr)) pr) = pr.
Proof. intros H. rewrite <- (so_next _ _ H). by destruct pr. Qed.

(** n < 0: the whole area is given back. *)
Lemma shmbrk_free k p G pr n :
  vm_inv kend k p G → is_dir G (p_pgdir pr) → shm_ok G pr → n < 0 →
  wp (sys_shmbrk kend n) (k, pr) (shmbrk_post k G pr n).
Proof.
  intros HV Hd Hs Hn. unfold sys_shmbrk. rewrite (proj2 (Z.eqb_neq _ _)), (proj2 (Z.ltb_lt n 0)) by lia.
  rewrite wp_myproc, wp_bind, wp_on_mem. pose proof (so_round _ _ Hs) as (E1&E2&E3&E4).
  pose proof (so_bounds _ _ Hs) as [Hnx Hnt]. destruct Hs as [Hgd Hlow Hhigh Htop [Ha Hb] Hnext Hin Hout].
  eapply wp_mono; [|apply (deallocuvm_view kend Hkend k p G); try done; [lia|lia|]].
  2: { intros u Hu Hg. cbn in Hg. apply Z.eqb_eq in Hg. zlia. }
  intros r k' (->&p'&G'&HV'&Hd'&Hkept&Hgone&Hsw). rewrite wp_set_myproc. apply wp_ret.
  rewrite E1, E3 in Hsw. rewrite E2, E4 in Hkept, Hgone.
  assert (Hnb : next_break pr n = p_stacktop pr) by (unfold next_break; by rewrite (proj2 (Z.ltb_lt n 0))).
  exists p', G'. rewrite Hnb, E2, (proj2 (Z.ltb_lt n 0)), (proj2 (Z.ltb_ge 0 n)) by lia. split_and!; try done.
  - split; cbn; try done; [lia|lia|..].
    + intros u Hu. lia.
    + intros u Hu. rewrite Hsw, decide_True by (split; [done|zlia]). unfold swept.
      destruct (decide (u < p_shmnextpg pr / 4096)) as [Hlt|Hge].
      * destruct (Hin u) as (e&->&->); [lia|]. done.
      * by rewrite Hout by lia.
  - intros va Hva. zlia.
Qed.

(** n > 0: the pages up to the new break are allocated, all or none. *)
Lemma shm_alloc k p G pr new :
  vm_inv kend k p G → is_dir G (p_pgdir pr) → shm_ok G pr →
  new mod 4096 = 0 → p_shmnextpg pr < new ≤ p_shmtop pr →
  wp (allocuvm kend (p_pgdir pr) (p_shmnextpg pr) new None) k (λ r k',
    r = new ∧ alloc_post kend k p G (p_pgdir pr) (p_shmnextpg pr / 4096) (new / 4096) k' ∨
    r = 0 ∧ Z.of_nat (length (Pool.free p)) < 2 * (new / 4096 - p_shmnextpg pr / 4096)).
Proof.
  intros [HI HB] Hd Hs Hm Hnew. pose proof (so_bounds _ _ Hs) as [Hnx Hnt]. pose proof (so_low _ _ Hs).
  pose proof (so_top _ _ Hs) as Htop. unfold KERNBASE in Htop.
  replace (p_shmnextpg pr / 4096) with ((p_shmnextpg pr + 4095) / 4096) by zlia.
  replace (new / 4096) with ((new + 4095) / 4096) by zlia.
  eapply wp_mono; [|apply (allocuvm_spec kend Hkend k p G); try done; [zlia|unfold KERNBASE; lia|]].
  - intros r k' [[-> ?]|(->&_&?)]; [by left|by right].
  - intros u Hu. split; [|done]. apply (so_out _ _ Hs). zlia.
Qed.

Lemma shmbrk_grow k p G pr n :
  vm_inv kend k p G → is_dir G (p_pgdir pr) → shm_ok G pr → 0 < n < 2147483648 →
  p_shmbreak pr + n < p_shmtop pr →
  2 * ((PGROUNDUP (p_shmbreak pr + n) - p_shmnextpg pr) / 4096) ≤ Z.of_nat (length (Pool.free p)) →
  wp (sys_shmbrk kend n) (k, pr) (shmbrk_post k G pr n).
Proof.
  intros HV Hd Hs Hn Hbk Hfree. pose proof HV as [HI HB]. unfold sys_shmbrk.
  pose proof (so_round _ _ Hs) as (E1&E2&E3&E4). pose proof (so_bounds _ _ Hs) as [Hnx Hnt].
  pose proof Hs as [Hgd Hlow Hhigh Htop [Ha Hb] Hnext Hin Hout]. pose proof Htop as Htop'. unfold KERNBASE in Htop'.
  rewrite wp_myproc. rewrite (u32_small (p_shmbreak pr + n)) by (unfold is_u32; lia).
  rewrite (proj2 (Z.eqb_neq _ _)), (proj2 (Z.ltb_ge n 0)), (proj2 (Z.leb_gt _ _)) by lia.
  assert (Hnb : next_break pr n = p_shmbreak pr + n)
    by (unfold next_break; rewrite (proj2 (Z.ltb_ge _ _)), (proj2 (Z.leb_gt _ _)) by lia; done).
  assert (Eb : PGROUNDUP (p_shmbreak pr + n) = (p_shmbreak pr + n + 4095) / 4096 * 4096) by (apply PGROUNDUP_small; lia).
  case_match eqn:E; [apply Z.ltb_lt in E|apply Z.ltb_ge in E; case_match eqn:E'; [apply Z.eqb_eq in E'|apply Z.eqb_neq in E'; zlia]].
  - assert (Hm : PGROUNDUP (p_shmbreak pr + n) mod 4096 = 0) by (rewrite Eb; zlia).
    rewrite wp_bind, wp_on_mem. eapply wp_mono; [|apply (shm_alloc k p G); try done; zlia].
    intros r k' [(->&p'&G'&Hat)|(->&Hlen)]; [|zlia].
    destruct (alloc_at_view kend k p G _ _ _ k' p' G' HV Hd Hat) as (HV'&Hd'&Hold&Hnew).
    rewrite (proj2 (Z.eqb_neq _ _)), wp_set_myproc by zlia. apply wp_ret. exists p', G'.
    rewrite Hnb, (proj2 (Z.ltb_ge n 0)), (proj2 (Z.leb_gt (p_shmtop pr) _)), andb_false_r by lia. split_and!; try done.
    + split; cbn; try done; [lia|lia|..].
      * intros u Hu. destruct (decide (p_shmnextpg pr / 4096 ≤ u)) as [Hge|Hlt].
        -- destruct (a_new _ _ _ _ _ _ _ _ _ _ Hat u) as (f&Hl&_); [lia|]. exists (f * 4096 + 7). split; [done|].
           destruct (enc_dom _ _ _ (i_enc _ _ _ _ (a_inv _ _ _ _ _ _ _ _ _ _ Hat)) _ _ _ Hl) as (Hfu&_).
           assert (user_ok (f * 4096 + 7) true = true) as [[? _]%andb_prop _]%andb_prop
             by (apply entry7_ok; unfold is_u32 in Hfu; lia). done.
        -- rewrite (a_old _ _ _ _ _ _ _ _ _ _ Hat) by (right; lia). apply Hin. lia.
      * intros u Hu. rewrite (a_old _ _ _ _ _ _ _ _ _ _ Hat) by (right; zlia). apply Hout. zlia.
    + intros d' va Hd1 Hva Hno. apply Hold; [done..|]. destruct Hno as [?|Hno]; [by left|right]. zlia.
    + intros va Hva. apply Hnew; [unfold user_va, KERNBASE|]; zlia.
    + lia.
  - rewrite wp_set_myproc. apply wp_ret. exists p, G. rewrite Hnb, (proj2 (Z.ltb_ge n 0)), (proj2 (Z.leb_gt (p_shmtop pr) _)), andb_false_r by lia.
    split_and!; try done.
    + split; cbn; try done; lia.
    + rewrite E'. by destruct pr.
    + intros va Hva. lia.
    + lia.
Qed.

(** shmbrk(0) returns the break of the shared memory, and so does shmbrk(n) after it
    moved the break: up by n > 0, with zeroed pages for the new addresses, and down to the
    top of the stack, with no page left in the area, for n < 0.  A break that would reach
    the end of the area is refused with -1.  In each case the pages below the break are
    mapped and those above it are not, as before, and no other page of this or of any other
    address space is touched.  The panic that the code has for a break above its next page
    is never reached.  But a process can bring the kernel down: with no free frame left,
    asking for a new page panics instead of returning -1. *)
Lemma shmbrk_correct k p G pr n :
  vm_inv kend k p G → is_dir G (p_pgdir pr) → shm_ok G pr → -2147483648 ≤ n < 2147483648 →
  (n ≤ 0 ∨ p_shmtop pr ≤ p_shmbreak pr + n ∨
     2 * ((PGROUNDUP (p_shmbreak pr + n) - p_shmnextpg pr) / 4096) ≤ Z.of_nat (length (Pool.free p)) →
   wp (sys_shmbrk kend n) (k, pr) (shmbrk_post k G pr n)) ∧
  (p_shmnextpg pr < p_shmbreak pr + n < p_shmtop pr → Pool.free p = [] →
   sys_shmbrk kend n (k, pr) = Panic "panic sys_shmbrk allocuvm failed").
Proof.
  intros HV Hd Hs Hn. pose proof (so_bounds _ _ Hs) as [Hnx Hnt]. pose proof (so_low _ _ Hs) as Hlow.
  pose proof (so_top _ _ Hs) as Htop. unfold KERNBASE in Htop. pose proof (so_high _ _ Hs) as Hhigh. split.
  - destruct (Z.lt_trichotomy n 0) as [Hlt|[->|Hgt]]; [by intros _; eapply shmbrk_free| |].
    + intros _. 
      assert (Hnb : next_break pr 0 = p_shmbreak pr).
      { unfold next_break. change (0 <? 0) with false. cbv iota. rewrite Z.add_0_r. by case_match. }
      exists p, G. rewrite Hnb, (set_shm_same G) by done. rewrite <- (so_next _ _ Hs). split_and!; try done. lia.
    + destruct (Z.leb_spec (p_shmtop pr) (p_shmbreak pr + n)) as [Hover|Hfit].
      * intros _. unfold sys_shmbrk. rewrite wp_myproc, (u32_small (p_shmbreak pr + n)) by (unfold is_u32; lia).
        rewrite (proj2 (Z.eqb_neq n 0)), (proj2 (Z.ltb_ge n 0)), (proj2 (Z.leb_le _ _)) by lia.
        assert (Hnb : next_break pr n = p_shmbreak pr)
          by (unfold next_break; by rewrite (proj2 (Z.ltb_ge _ _)), (proj2 (Z.leb_le _ _)) by lia).
        apply wp_ret. exists p, G. rewrite Hnb, (set_shm_same G) by done. rewrite <- (so_next _ _ Hs).
        rewrite (proj2 (Z.ltb_ge n 0)), (proj2 (Z.ltb_lt 0 n)), (proj2 (Z.leb_le _ _)) by lia. split_and!; try done; lia.
      * intros [?|[?|Hf]]; [lia..|]. eapply (shmbrk_grow k p G); done || lia.
  - intros Hb Hfree. unfold sys_shmbrk. assert (Hbk : is_u32 (p_shmbreak pr + n)) by (unfold is_u32; zlia).
    assert (Eb : PGROUNDUP (p_shmbreak pr + n) = (p_shmbreak pr + n + 4095) / 4096 * 4096) by (apply PGROUNDUP_small; zlia).
    destruct (so_align _ _ Hs) as [_ Ha].
    assert (Hal := shm_alloc k p G pr (PGROUNDUP (p_shmbreak pr + n)) HV Hd Hs).
    apply wp_Ret in Hal as (r&k'&E&[(->&p'&G'&Hat)|[-> _]]); [| |rewrite Eb; zlia..].
    + destruct (a_new _ _ _ _ _ _ _ _ _ _ Hat (p_shmnextpg pr / 4096)) as (f&_&Hf&_); [rewrite Eb; zlia|].
      rewrite Hfree in Hf. by apply elem_of_nil in Hf.
    + unfold mbind, K_bind, myproc, gets. cbn. rewrite (u32_small _ Hbk).
      rewrite (proj2 (Z.eqb_neq n 0)), (proj2 (Z.ltb_ge n 0)), (proj2 (Z.leb_gt _ _)), (proj2 (Z.ltb_lt (p_shmnextpg pr) _)) by zlia.
      unfold on_mem, zoom. cbn. by rewrite E.
Qed.
End shmbrk.

(** ** Example: a process with its stack below address 12288, and sixteen pages for shm. *)
Definition ex_proc_m : proc :=
  set_shmtop 77824 (set_shmnextpg 12288 (set_shmbreak 12288 (set_stacktop 12288 (set_guardpg 4096
    (set_sz 77824 ex_proc))))).

Lemma ex_proc_m_ok : shm_ok ex_G ex_proc_m.
Proof.
  split; try done; [intros u [Hl Hh]|intros u Hu; cbn in Hu].
  - cbn in *. change (12288 / 4096) with 3 in *. lia.
  - change (12288 / 4096) with 3 in Hu. change (77824 / 4096) with 19 in Hu. cbn.
    rewrite lookup_insert_ne by (intros [=]; lia). rewrite lookup_singleton_ne by (intros [=]; lia). done.
Qed.

(** The same memory with no frame left. *)
Definition ex_k0 : kmem := mk_kmem [] ex_count ex_mem.
Definition ex_p0 : Pool.pool := mk_pool [] ex_count.

Lemma ex_inv0 : vm_inv ex_kend ex_k0 ex_p0 ex_G.
Proof.
  destruct ex_inv as [[HR He Hp Ht] HB]. split; [split; [|apply ex_enc|exact Hp|exact Ht]|exact HB].
  apply mk_kmem_R; [constructor|by intros i ?%elem_of_nil| |apply ex_mem_wf].
  intros i c. unfold ex_count. rewrite !lookup_insert_Some, lookup_singleton_Some. unfold is_u32. lia.
Qed.

(** C39: sbrk(n) with n > 0 maps zeroed pages above the old size, makes the process n bytes
    larger and returns the old size, or returns -1 and changes nothing a process can see,
    which happens only above KERNBASE or with fewer than two free frames for each new page;
    with n < 0 it takes the pages above the new size away.  But at n = -sz all pages are gone
    while the answer is -1 and the size is the old one, and below that the call answers as if
    it had worked and does nothing.  shmbrk(n) returns the old break and moves it: up by
    n > 0, with zeroed pages for the new addresses, and down to the top of the stack for
    n < 0; a break that would reach the end of the area is refused.  The pages of the area
    below the break are mapped and those above it are not.  Neither call is noticed in
    another address space, and neither panics, except that shmbrk does when it needs a page
    and there is no free frame, where -1 was meant. *)
Theorem memory_calls kend k p G pr n :
  KERNBASE < kend → vm_inv kend k p G → is_dir G (p_pgdir pr) → -2147483648 ≤ n < 2147483648 →
  (0 < p_sz pr < KERNBASE →
   (0 < n → p_sz pr + n < KERNBASE → alloc_range G (p_pgdir pr) (p_sz pr) (p_sz pr + n) (Some pr)) →
   (n < 0 → guard_mapped G pr (p_sz pr + n) (p_sz pr)) →
   wp (sys_sbrk kend n) (k, pr) (sbrk_post kend k p G pr n)) ∧
  (shm_ok G pr →
   (n ≤ 0 ∨ p_shmtop pr ≤ p_shmbreak pr + n ∨
      2 * ((PGROUNDUP (p_shmbreak pr + n) - p_shmnextpg pr) / 4096) ≤ Z.of_nat (length (Pool.free p)) →
    wp (sys_shmbrk kend n) (k, pr) (shmbrk_post kend k G pr n)) ∧
   (p_shmnextpg pr < p_shmbreak pr + n < p_shmtop pr → Pool.free p = [] →
    sys_shmbrk kend n (k, pr) = Panic "panic sys_shmbrk allocuvm failed")).
Proof.
  intros Hkend HV Hd Hn. split; [intros; by apply sbrk_correct|]. intros Hs. exact (shmbrk_correct kend Hkend k p G pr n HV Hd Hs Hn).
Qed.

Lemma memory_calls_witness :
  wp (sys_sbrk ex_kend 4096) (ex_k, ex_proc_m) (sbrk_post ex_kend ex_k ex_p ex_G ex_proc_m 4096) ∧
  wp (sys_shmbrk ex_kend 5000) (ex_k, ex_proc_m) (λ r s', r = 12288 ∧ p_shmbreak s'.2 = 17288 ∧
    user_read s'.1 (kva 2000) 17287 = Some 0) ∧
  sys_shmbrk ex_kend 5000 (ex_k0, ex_proc_m) = Panic "panic sys_shmbrk allocuvm failed".
Proof.
  split; [|split].
  - destruct (memory_calls ex_kend ex_k ex_p ex_G ex_proc_m 4096 eq_refl) as [H _]; [apply ex_inv|by exists 2000|done|].
    refine (H _ _ _); clear H; [done| |done]. intros _ _ u Hu. change ((p_sz ex_proc_m + 4095) / 4096) with 19 in Hu.
    change ((p_sz ex_proc_m + 4096 + 4095) / 4096) with 20 in Hu. replace u with 19 by lia. done.
  - destruct (memory_calls ex_kend ex_k ex_p ex_G ex_proc_m 5000 eq_refl) as [_ H]; [apply ex_inv|by exists 2000|done|].
    destruct (H ex_proc_m_ok) as [H1 _]. eapply wp_mono; [|apply H1; right; right; by vm_compute].
    intros r [k' pr'] (p'&G'&_&_&_&->&->&_&Hz&_). split; [done|]. split; [done|]. cbn [fst].
    change (p_pgdir ex_proc_m) with (kva 2000) in Hz. apply Hz. clear. by vm_compute.
  - destruct (memory_calls ex_kend ex_k0 ex_p0 ex_G ex_proc_m 5000 eq_refl) as [_ H]; [apply ex_inv0|by exists 2000|done|].
    destruct (H ex_proc_m_ok) as [_ H1]. apply H1; clear; by vm_compute.
Defined.
