(* ===== verification/Grep.v ===== *)
(** grep (src/grep.c): the matcher for regular expressions with ^ . * $, and the loop
    that goes through the lines of a file.

    Pattern and text are the bytes of the strings without the NUL; a pointer into one of
    them is the rest of the list.  What read() returns is a list of chunks. *)

From Stdlib Require Import ZArith Lia.
From stdpp Require Import base tactics numbers list.
From S2P Require Import Prelude.

#[local] Open Scope Z_scope.

Module Grep.

Definition CARET : Z := 94.
Definition DOLLAR : Z := 36.
Definition DOT : Z := 46.
Definition STAR : Z := 42.
Definition NEWLINE : Z := 10.

(** ** The matcher *)

(** matchstar(c, re, text); [here] is matchhere(re, _). *)
Fixpoint matchstar (c : Z) (here : list Z → bool) (text : list Z) : bool :=
  here text ||
  match text with
  | [] => false
  | x :: text' => ((x =? c) || (c =? DOT)) && matchstar c here text'
  end.

Fixpoint matchhere (re : list Z) (text : list Z) {struct re} : bool :=
  match re with
  | [] => true
  | c :: re' =>
      match re' with
      | d :: re'' => if d =? STAR then matchstar c (matchhere re'') text else
          match text with
          | x :: text' => ((c =? DOT) || (c =? x)) && matchhere re' text'
          | [] => false
          end
      | [] =>
          if c =? DOLLAR then match text with [] => true | _ => false end else
          match text with
          | x :: text' => ((c =? DOT) || (c =? x)) && matchhere re' text'
          | [] => false
          end
      end
  end.

(** The loop of match: at every place of the text, its end included. *)
Fixpoint match_any (re text : list Z) : bool :=
  matchhere re text || match text with [] => false | _ :: text' => match_any re text' end.
Definition match_ (re text : list Z) : bool :=
  match re with
  | c :: re' => if c =? CARET then matchhere re' text else match_any re text
  | [] => match_any re text
  end.

(** ** The lines *)

(** strchr(p, '\n'): the bytes before the newline, and those after it. *)
Fixpoint strchr_nl (p : list Z) : option (list Z * list Z) :=
  match p with
  | [] => None
  | c :: p' =>
      if c =? NEWLINE then Some ([], p') else
      match strchr_nl p' with Some (l, q) => Some (c :: l, q) | None => None end
  end.

(** The inner loop on the bytes from [p] on: what is written, and where p is at the end. *)
Fixpoint grep_lines (fuel : nat) (pattern p : list Z) : option (list Z * list Z) :=
  match strchr_nl p with
  | None => Some ([], p)
  | Some (line, q) =>
      match fuel with
      | O => None
      | S fuel' =>
          match grep_lines fuel' pattern q with
          | Some (out, rest) => Some ((if match_ pattern line then line ++ [NEWLINE] else []) ++ out, rest)
          | None => None
          end
      end
  end.

(** The loop of grep: [kept] is buf[0..m), [chunks] what the calls of read return, of at
    most the 1023 - m bytes asked for. If no newline was found m is 0. *)
Fixpoint grep (pattern kept : list Z) (chunks : list (list Z)) : option (list Z) :=
  match chunks with
  | [] => Some []
  | c :: chunks' =>
      if (length c =? 0)%nat then Some [] else
      let buf := kept ++ c in
      match grep_lines (length buf) pattern buf with
      | None => None
      | Some (out, rest) =>
          let kept' := if (length rest =? length buf)%nat then [] else rest in
          match grep pattern kept' chunks' with Some out' => Some (out ++ out') | None => None end
      end
  end.

(** ** What a pattern means *)

(** A character of a pattern stands for itself or, a dot, for any character. *)
Definition stands_for (c x : Z) : Prop := c = DOT ∨ c = x.
(** The elements of a pattern: one character, a starred one, the end of the text. *)
Inductive elem := One (c : Z) | Many (c : Z) | End.
Fixpoint elems (re : list Z) : list elem :=
  match re with
  | [] => []
  | c :: re' =>
      match re' with
      | d :: re'' => if d =? STAR then Many c :: elems re'' else One c :: elems re'
      | [] => if c =? DOLLAR then [End] else [One c]
      end
  end.
(** [denotes es t r]: the text [t] starts with what the elements stand for, and [r] is left. *)
Inductive denotes : list elem → list Z → list Z → Prop :=
  | den_nil t : denotes [] t t
  | den_one c es x t r : stands_for c x → denotes es t r → denotes (One c :: es) (x :: t) r
  | den_many c es us t r : Forall (stands_for c) us → denotes es t r → denotes (Many c :: es) (us ++ t) r
  | den_end : denotes [End] [] [].
Definition matches (re text : list Z) : Prop :=
  match re with
  | c :: re' => if c =? CARET then ∃ r, denotes (elems re') text r else ∃ pre post r, text = pre ++ post ∧ denotes (elems re) post r
  | [] => True
  end.

Lemma stands_for_spec c x : (c =? DOT) || (c =? x) = true ↔ stands_for c x.
Proof. unfold stands_for. rewrite orb_true_iff, !Z.eqb_eq. done. Qed.

Lemma matchstar_spec c here text :
  matchstar c here text = true ↔ ∃ us t, text = us ++ t ∧ Forall (stands_for c) us ∧ here t = true.
Proof.
  induction text as [|x text IH]; simpl; rewrite orb_true_iff.
  - split; [intros [H|H]; [by exists [], []|done]|]. intros (us&t&E&_&H). left. destruct us; by simplify_eq/=.
  - rewrite andb_true_iff, IH. split.
    + intros [H|(Hx&us&t&->&Hf&H)]; [by exists [], (x :: text)|]. exists (x :: us), t. split; [done|]. split; [|done]. constructor; [|done].
      apply stands_for_spec. rewrite orb_true_iff, !Z.eqb_eq in *. naive_solver.
    + intros ([|y us]&t&E&Hf&H); simplify_eq/=; [by left|]. right. inversion Hf as [|? ? Hy Hf']; subst. split; [|by exists us, t].
      apply stands_for_spec in Hy. rewrite orb_true_iff, !Z.eqb_eq in *. naive_solver.
Qed.

Lemma one_spec c re text : (match text with x :: text' => ((c =? DOT) || (c =? x)) && matchhere re text' | [] => false end) = true ↔
  ∃ x t, text = x :: t ∧ stands_for c x ∧ matchhere re t = true.
Proof.
  destruct text as [|x t]; [split; [done|naive_solver]|]. rewrite andb_true_iff, stands_for_spec. naive_solver.
Qed.

Definition here_ok (re : list Z) : Prop := ∀ text, matchhere re text = true ↔ ∃ r, denotes (elems re) text r.
Lemma here_one c re : here_ok re → ∀ text,
  (match text with x :: text' => ((c =? DOT) || (c =? x)) && matchhere re text' | [] => false end) = true ↔ ∃ r, denotes (One c :: elems re) text r.
Proof.
  intros IH text. rewrite one_spec. split.
  - intros (x&t&->&Hx&H). apply IH in H as [r H]. exists r. by constructor.
  - intros [r H]. inversion H as [|? ? x t ? Hx Ht| |]; subst. exists x, t. split_and!; [done..|]. apply IH. by exists r.
Qed.
Lemma here_many c re : here_ok re → ∀ text, matchstar c (matchhere re) text = true ↔ ∃ r, denotes (Many c :: elems re) text r.
Proof.
  intros IH text. rewrite matchstar_spec. split.
  - intros (us&t&->&Hf&H). apply IH in H as [r H]. exists r. by constructor.
  - intros [r H]. inversion H as [| |? ? us t ? Hf Ht|]; subst. exists us, t. split_and!; [done..|]. apply IH. by exists r.
Qed.
(** Both a pattern and the pattern with one more character, as matchhere looks ahead. *)
Lemma matchhere_spec re : here_ok re ∧ ∀ c, here_ok (c :: re).
Proof.
  assert (Hnil : here_ok []) by (intros text; simpl; split; [intros _; eexists; constructor|done]).
  induction re as [|d re [IH1 IH2]]; (split; [done|]); intros c text.
  - cbn [matchhere elems]. destruct (c =? DOLLAR); [|by apply (here_one c [])]. destruct text; split; try done.
    + intros _. exists []. constructor.
    + intros [r H]. inversion H.
  - change (matchhere (c :: d :: re) text) with (if d =? STAR then matchstar c (matchhere re) text else
      match text with x :: text' => ((c =? DOT) || (c =? x)) && matchhere (d :: re) text' | [] => false end).
    change (elems (c :: d :: re)) with (if d =? STAR then Many c :: elems re else One c :: elems (d :: re)).
    destruct (d =? STAR); [by apply here_many|by apply here_one].
Qed.

Lemma match_any_spec re text : match_any re text = true ↔ ∃ pre post r, text = pre ++ post ∧ denotes (elems re) post r.
Proof.
  pose proof (proj1 (matchhere_spec re)) as H. unfold here_ok in H. induction text as [|x text IH]; simpl; rewrite orb_true_iff, H.
  - split; [intros [[r Hr]|?]; [by exists [], [], r|done]|]. intros (pre&post&r&E&Hr). destruct pre; simplify_eq/=. left. by exists r.
  - rewrite IH. split.
    + intros [[r Hr]|(pre&post&r&->&Hr)]; [by exists [], (x :: text), r|by exists (x :: pre), post, r].
    + intros ([|y pre]&post&r&E&Hr); simplify_eq/=; [left; by exists r|right; by exists pre, post, r].
Qed.
Lemma match_spec re text : match_ re text = true ↔ matches re text.
Proof.
  destruct re as [|c re]; [by destruct text|]. unfold match_, matches. destruct (c =? CARET); [apply matchhere_spec|apply match_any_spec].
Qed.

(** ** Lines *)

(** The complete lines of an input, and what follows the last newline. *)
Fixpoint split_lines (l : list Z) : list (list Z) * list Z :=
  match l with
  | [] => ([], [])
  | c :: l' =>
      let '(ls, r) := split_lines l' in
      if c =? NEWLINE then ([] :: ls, r) else match ls with [] => ([], c :: r) | x :: ls' => ((c :: x) :: ls', r) end
  end.
(** The lines that match, each with its newline. *)
Definition matching (pattern : list Z) (ls : list (list Z)) : list Z :=
  mjoin ((λ l, l ++ [NEWLINE]) <$> filter (λ l, match_ pattern l = true) ls).

Lemma strchr_split p : match strchr_nl p with
  | None => split_lines p = ([], p)
  | Some (l, q) => split_lines p = (l :: (split_lines q).1, (split_lines q).2) ∧ (length q < length p)%nat
  end.
Proof.
  induction p as [|c p IH]; simpl; [done|]. destruct (c =? NEWLINE); [split; [by destruct (split_lines p)|lia]|].
  destruct (strchr_nl p) as [[l q]|]; [destruct IH as [-> ?]; split; [done|lia]|by rewrite IH].
Qed.
Lemma matching_cons pattern l ls : matching pattern (l :: ls) = (if match_ pattern l then l ++ [NEWLINE] else []) ++ matching pattern ls.
Proof. unfold matching. rewrite filter_cons. destruct (match_ pattern l); simpl; done. Qed.
Lemma grep_lines_spec fuel pattern p : (length p ≤ fuel)%nat →
  grep_lines fuel pattern p = Some (matching pattern (split_lines p).1, (split_lines p).2).
Proof.
  revert p. induction fuel as [|fuel IH]; intros p Hl; cbn [grep_lines]; pose proof (strchr_split p) as H; destruct (strchr_nl p) as [[l q]|].
  - lia.
  - by rewrite H.
  - destruct H as [-> Hq]. rewrite IH by lia. simpl. by rewrite matching_cons.
  - by rewrite H.
Qed.
Lemma split_lines_app a b : split_lines (a ++ b) =
  ((split_lines a).1 ++ (split_lines ((split_lines a).2 ++ b)).1, (split_lines ((split_lines a).2 ++ b)).2).
Proof.
  induction a as [|c a IH]; [simpl; by destruct (split_lines b)|]. simpl. rewrite IH. destruct (split_lines a) as [ls r]. simpl.
  destruct (c =? NEWLINE) eqn:E; [done|]. destruct ls as [|x ls]; simpl; [|done]. rewrite E. by destruct (split_lines (r ++ b)) as [[|] ?].
Qed.

(** Every read brings a newline. *)
Fixpoint each_newline (kept : list Z) (chunks : list (list Z)) : Prop :=
  match chunks with
  | [] => True
  | c :: chunks' => c ≠ [] ∧ (split_lines (kept ++ c)).1 ≠ [] ∧ each_newline (split_lines (kept ++ c)).2 chunks'
  end.
Lemma split_lines_length l : (length (split_lines l).2 + length (split_lines l).1 ≤ length l)%nat.
Proof.
  induction l as [|c l IH]; simpl; [lia|]. destruct (split_lines l) as [ls r]. simpl in *. destruct (c =? NEWLINE); simpl; [lia|].
  destruct ls; simpl in *; lia.
Qed.
Lemma split_lines_some l : (split_lines l).1 ≠ [] → (length (split_lines l).2 < length l)%nat.
Proof. pose proof (split_lines_length l). destruct (split_lines l).1; [done|]. simpl in *. lia. Qed.
Lemma split_rest l : split_lines (split_lines l).2 = ([], (split_lines l).2).
Proof.
  induction l as [|c l IH]; simpl; [done|]. destruct (split_lines l) as [ls r]. simpl in *. destruct (c =? NEWLINE) eqn:E; simpl; [done|].
  destruct ls; simpl; [by rewrite E, IH|done].
Qed.
Lemma grep_step pattern kept c chunks : c ≠ [] →
  grep pattern kept (c :: chunks) =
    let '(ls, r) := split_lines (kept ++ c) in
    match grep pattern (if (length r =? length (kept ++ c))%nat then [] else r) chunks with
    | Some out' => Some (matching pattern ls ++ out') | None => None end.
Proof.
  intros Hc. cbn [grep]. replace (length c =? 0)%nat with false by (destruct c; done). rewrite grep_lines_spec by done.
  by destruct (split_lines (kept ++ c)).
Qed.
Lemma matching_app pattern ls ls' : matching pattern (ls ++ ls') = matching pattern ls ++ matching pattern ls'.
Proof. unfold matching. by rewrite filter_app, fmap_app, join_app. Qed.
Lemma grep_spec pattern kept chunks : (split_lines kept).1 = [] → each_newline kept chunks →
  grep pattern kept chunks = Some (matching pattern (split_lines (kept ++ mjoin chunks)).1).
Proof.
  revert kept. induction chunks as [|c chunks IH]; intros kept Hk; cbn [each_newline].
  - intros _. simpl. by rewrite app_nil_r, Hk.
  - intros (Hc&Hn&Hr). rewrite grep_step by done. pose proof (split_lines_some _ Hn) as Hl. pose proof (split_rest (kept ++ c)) as Hs.
    cbn [mjoin list_join]. change (list_join _ chunks) with (mjoin chunks). rewrite app_assoc, (split_lines_app (kept ++ c)).
    destruct (split_lines (kept ++ c)) as [ls r]. cbn [fst snd] in *. rewrite (proj2 (Nat.eqb_neq _ _)) by lia.
    rewrite IH by (done || by rewrite Hs). by rewrite matching_app.
Qed.

(** C40: match finds exactly the texts that the pattern describes: with ^ those that start
    with what its elements stand for, without it those that have such a piece at any
    place; it always ends. grep writes the lines that match, in order, whatever way the
    input (without NUL bytes) is cut into reads, as long as each brings a newline; but the bytes of a
    read that brings none are lost. *)
Theorem grep_correct :
  (∀ re text, match_ re text = true ↔ matches re text) ∧
  (∀ pattern chunks, each_newline [] chunks → grep pattern [] chunks = Some (matching pattern (split_lines (mjoin chunks)).1)) ∧
  (∀ pattern c chunks, c ≠ [] → NEWLINE ∉ c → grep pattern [] (c :: chunks) = grep pattern [] chunks).
Proof.
  split; [apply match_spec|]. split; [intros pattern chunks H; by apply (grep_spec pattern [])|].
  intros pattern c chunks Hc Hn. rewrite grep_step by done. cbn [app]. assert (E : split_lines c = ([], c)).
  { clear Hc. induction c as [|x c IH]; [done|]. simpl. apply not_elem_of_cons in Hn as [Hx Hn]. rewrite IH by done.
    by rewrite (proj2 (Z.eqb_neq x NEWLINE)) by congruence. }
  rewrite E, Nat.eqb_refl. by destruct (grep pattern [] chunks).
Qed.

(** The pattern ^a.*b$ on three lines that come in two reads. *)
Lemma grep_correct_witness :
  let pattern := [CARET; 97; DOT; STAR; 98; DOLLAR] in
  match_ pattern [97; 120; 98] = true ∧ match_ pattern [97; 98; 120] = false ∧
  grep pattern [] [[97; 98; 10; 97]; [120; 98; 10; 99; 10]] = Some [97; 98; 10; 97; 120; 98; 10] ∧
  grep pattern [] [[97]; [98; 10]] = Some [].
Proof.
  split; [vm_compute; reflexivity|]. split; [vm_compute; reflexivity|]. split; [|vm_compute; reflexivity].
  rewrite (proj1 (proj2 grep_correct)); [vm_compute; reflexivity|]. simpl. split_and!; done.
Defined.
End Grep.
