(* ===== verification/Inoderef.v ===== *)
(** References to inodes and their locks: what each routine of the file system (Fs.v)
    does to the reference counts and to the sleep locks of the inode cache when it
    returns.

    [same] relates states with the same counts and locks; [bal r k] says that the counts
    are [r] and the locks that are held are [k]. *)

From Stdlib Require Import ZArith Lia.
From stdpp Require Import base tactics numbers gmap strings functions list.
From S2P Require Import Prelude Memory Kstring Monitor Sleeplock Buf Journal Fs.

#[local] Open Scope Z_scope.

Lemma wlp_upto {S B} (body : Z → K S (option B)) (I : S → Prop) (Q : option B → S → Prop) fuel a lim step s :
  I s → (∀ x s, I s → wlp (body x) s (λ o s', match o with Some b => Q (Some b) s' | None => I s' end)) →
  (∀ s, I s → Q None s) → wlp (upto fuel a lim step body) s Q.
Proof.
  intros HI Hb Hq. revert a s HI. induction fuel as [|fuel IH]; intros a s HI; simpl; destruct (a <? lim); try done; try (by apply Hq).
  apply wlp_bind. eapply wlp_mono; [|by apply Hb]. intros [b|] s' H; [done|by apply IH].
Qed.
Lemma wlp_find {S A B} (body : A → K S (option B)) (I : S → Prop) (Q : option B → S → Prop) l s :
  I s → (∀ x s, I s → wlp (body x) s (λ o s', match o with Some b => Q (Some b) s' | None => I s' end)) →
  (∀ s, I s → Q None s) → wlp (for_find l body) s Q.
Proof. intros H1 H2 H3. apply (wlp_for_find body I); auto. Qed.

Create HintDb keep.

Section refs.
Context {S : Type} `{!Blocks S}.

Definition held_lock (ip : inode) : bool := locked (i_lock ip).
Definition same (s s' : @fsst S) : Prop :=
  ∀ i, i_ref (icache s' i) = i_ref (icache s i) ∧ held_lock (icache s' i) = held_lock (icache s i).
Lemma same_refl s : same s s.
Proof. done. Qed.
Lemma same_trans s1 s2 s3 : same s1 s2 → same s2 s3 → same s1 s3.
Proof. intros H1 H2 i. destruct (H1 i), (H2 i). split; congruence. Qed.

(** ** Routines that only use an inode *)

Definition keeps {A} (m : K (@fsst S) A) : Prop := ∀ s, wlp m s (λ _ s', same s s').

Lemma keeps_ret {A} (a : A) : keeps (mret a).
Proof. intros s. apply same_refl. Qed.
Lemma keeps_gets {A} (f : fsst → A) : keeps (gets f).
Proof. intros s. apply same_refl. Qed.
Lemma keeps_panic {A} msg : keeps (panic (A := A) msg).
Proof. intros s. exact I. Qed.
Lemma keeps_diverge {A} : keeps (diverge (A := A)).
Proof. intros s. exact I. Qed.
Lemma keeps_bind {A B} (m : K fsst A) (k : A → K fsst B) : keeps m → (∀ a, keeps (k a)) → keeps (m ≫= k).
Proof.
  intros Hm Hk s. apply wlp_bind. eapply wlp_mono; [|apply Hm]. intros a s1 H1. eapply wlp_mono; [|apply Hk].
  intros b s2 H2. by apply (same_trans s s1).
Qed.
Lemma keeps_blk {A} (m : K S A) : keeps (on_blk m).
Proof. intros s. unfold wlp, on_blk, zoom. destruct (m (blk s)); try exact I. intros i. done. Qed.
Lemma keeps_inode i f : (∀ ip, i_ref (f ip) = i_ref ip ∧ held_lock (f ip) = held_lock ip) → keeps (modify (upd_inode i f)).
Proof.
  intros Hf s j. simpl. destruct (decide (i = j)) as [<-|Hj]; [by rewrite fn_lookup_insert|by rewrite fn_lookup_insert_ne].
Qed.
Lemma keeps_sb x : keeps (modify (set_sb x)).
Proof. intros s. done. Qed.
Lemma keeps_when c m : keeps m → keeps (when c m).
Proof. destruct c; [done|]. intros _. apply keeps_ret. Qed.
Lemma keeps_for_each {A} (l : list A) body : (∀ x, keeps (body x)) → keeps (for_each l body).
Proof. intros H. induction l as [|x l IH]; [apply keeps_ret|]. by apply keeps_bind. Qed.
Lemma keeps_find {A B} (l : list A) (body : A → K fsst (option B)) : (∀ x, keeps (body x)) → keeps (for_find l body).
Proof.
  intros H s. apply (wlp_find _ (same s)); [apply same_refl| |done]. intros x s1 H1. eapply wlp_mono; [|apply H].
  intros [b|] s2 H2; by apply (same_trans s s1).
Qed.
Lemma keeps_upto {B} fuel a lim step (body : Z → K fsst (option B)) : (∀ x, keeps (body x)) → keeps (upto fuel a lim step body).
Proof.
  intros H s. apply (wlp_upto _ (same s)); [apply same_refl| |done]. intros x s1 H1. eapply wlp_mono; [|apply H].
  intros [b|] s2 H2; by apply (same_trans s s1).
Qed.
End refs.
#[export] Hint Resolve keeps_ret keeps_gets keeps_panic keeps_diverge keeps_blk keeps_sb : keep.

(** Follow the routine; [keep] has the lemmas on those it calls. *)
Ltac keeping :=
  repeat first
    [ solve [eauto with keep nocore]
    | apply keeps_bind; [|intros]
    | apply keeps_when | apply keeps_for_each; intros | apply keeps_find; intros | apply keeps_upto; intros
    | apply keeps_inode; intros; done
    | case_match ].

Section ops.
Context {S : Type} `{!Blocks S}.
Abbreviation st := (@fsst S).

Lemma keeps_readsb d : keeps (S := S) (readsb d).
Proof. unfold readsb. keeping. Qed.
Lemma keeps_bzero d b : keeps (S := S) (bzero d b).
Proof. unfold bzero. keeping. Qed.
#[local] Hint Resolve keeps_readsb keeps_bzero : keep.
Lemma keeps_balloc d : keeps (S := S) (balloc d).
Proof. unfold balloc, balloc_scan. keeping. Qed.
Lemma keeps_bfree d b : keeps (S := S) (bfree d b).
Proof. unfold bfree. keeping. Qed.
Lemma keeps_iupdate i : keeps (S := S) (iupdate i).
Proof. unfold iupdate. keeping. Qed.
#[local] Hint Resolve keeps_balloc keeps_bfree keeps_iupdate : keep.
Lemma keeps_bmap i bn : keeps (S := S) (bmap i bn).
Proof. unfold bmap. keeping. Qed.
Lemma keeps_itrunc i : keeps (S := S) (itrunc i).
Proof. unfold itrunc. keeping. Qed.
#[local] Hint Resolve keeps_bmap : keep.
Lemma keeps_readi_loop fuel i off n : keeps (S := S) (readi_loop fuel i off n).
Proof. revert off n. induction fuel as [|fuel IH]; intros off n; simpl; keeping. Qed.
Lemma keeps_writei_loop fuel i src off n : keeps (S := S) (writei_loop fuel i src off n).
Proof. revert src off n. induction fuel as [|fuel IH]; intros src off n; simpl; keeping. Qed.

(** The functions of the devices leave the counts and the locks as they are when they
    return; the console releases the lock of the inode and takes it again. *)
Context (dev_read : Z → option (nat → Z → K st (Z * list Z))).
Context (dev_write : Z → option (nat → list Z → K st Z)).
Context (read_keeps : ∀ m f i n, dev_read m = Some f → keeps (f i n)).
Context (write_keeps : ∀ m f i l, dev_write m = Some f → keeps (f i l)).
#[local] Hint Resolve keeps_readi_loop keeps_writei_loop keeps_itrunc : keep.

Lemma keeps_readi i off n : keeps (readi dev_read i off n).
Proof. unfold readi. keeping. Qed.
Lemma keeps_writei i src off n : keeps (writei dev_write i src off n).
Proof. unfold writei. keeping. Qed.
#[local] Hint Resolve keeps_readi keeps_writei : keep.

(** ** Counts and locks *)

Definition bal (r : nat → Z) (k : nat → bool) (s : st) : Prop :=
  ∀ i, i_ref (icache s i) = r i ∧ held_lock (icache s i) = k i.
Definition inc (i : nat) (r : nat → Z) : nat → Z := λ j, if decide (j = i) then r j + 1 else r j.
Definition dec (i : nat) (r : nat → Z) : nat → Z := λ j, if decide (j = i) then r j - 1 else r j.
Definition lk (i : nat) (k : nat → bool) : nat → bool := λ j, if decide (j = i) then true else k j.
Definition unlk (i : nat) (k : nat → bool) : nat → bool := λ j, if decide (j = i) then false else k j.

Lemma bal_same r k s s' : bal r k s → same s s' → bal r k s'.
Proof. intros H1 H2 i. destruct (H1 i), (H2 i). split; congruence. Qed.
Lemma bal_ext r k r' k' s : (∀ i, r i = r' i) → (∀ i, k i = k' i) → bal r k s → bal r' k' s.
Proof. intros Hr Hk H i. by rewrite <- Hr, <- Hk. Qed.
Lemma keeps_bal {A} (m : K st A) r k s (Q : A → st → Prop) : keeps m → bal r k s → (∀ a s', bal r k s' → Q a s') → wlp m s Q.
Proof. intros Hm Hb HQ. eapply wlp_mono; [|apply Hm]. intros a s' Hs. apply HQ. by eapply bal_same. Qed.
Lemma bal_upd r k s i f r' k' : bal r k s → (∀ j, j ≠ i → r' j = r j ∧ k' j = k j) →
  i_ref (f (icache s i)) = r' i → held_lock (f (icache s i)) = k' i → bal r' k' (upd_inode i f s).
Proof.
  intros H Ho H1 H2 j. simpl. destruct (decide (i = j)) as [<-|Hj]; [by rewrite fn_lookup_insert|].
  rewrite fn_lookup_insert_ne by done. destruct (Ho j) as [-> ->]; [done|apply H].
Qed.

Lemma iget_scan_free c d n js e i : iget_scan c d n js e = inr (Some i) → e = Some i ∨ i_ref (c i) = 0.
Proof.
  revert e. induction js as [|x js IH]; intros e; simpl; [intros [= ->]; by left|]. destruct (_ && _); [done|]. intros Hs.
  destruct (IH _ Hs) as [E|E]; [|by right]. destruct e as [e|]; [by left|]. destruct (Z.eqb_spec (i_ref (c x)) 0); simplify_eq. by right.
Qed.
Lemma iget_bal d n r k s : bal r k s → wlp (iget d n) s (λ i s', bal (inc i r) k s').
Proof.
  intros H. unfold iget. unfold wlp, gets, mbind, K_bind. destruct (iget_scan _ d n _ None) as [i|[i|]] eqn:E; [..|done]; simpl.
  - apply (bal_upd r k); [done|intros j Hj; unfold inc; by rewrite decide_False| |apply H]. unfold inc. rewrite decide_True by done. simpl. by rewrite (proj1 (H i)).
  - apply iget_scan_free in E as [?|E]; [done|]. rewrite (proj1 (H i)) in E.
    apply (bal_upd r k); [done|intros j Hj; unfold inc; by rewrite decide_False| |apply (H i)]. unfold inc. rewrite decide_True by done. simpl. lia.
Qed.
Lemma idup_bal i r k s : bal r k s → wlp (idup i) s (λ j s', j = i ∧ bal (inc i r) k s').
Proof.
  intros H. unfold wlp, idup, modify, mbind, K_bind. simpl. split; [done|].
  apply (bal_upd r k); [done|intros j Hj; unfold inc; by rewrite decide_False| |apply H]. unfold inc. rewrite decide_True by done. simpl. by rewrite (proj1 (H i)).
Qed.
Lemma ialloc_bal d type r k s : bal r k s → wlp (ialloc d type) s (λ i s', bal (inc i r) k s').
Proof.
  intros H. unfold ialloc. apply wlp_bind, wlp_ret, wlp_bind.
  eapply wlp_mono; [|apply (wlp_find _ (bal r k) (λ o s', match o with Some i => bal (inc i r) k s' | None => bal r k s' end)); [done| |done]].
  - intros [i|] s1 H1; done.
  - intros n s1 H1. do 3 (apply wlp_bind; eapply keeps_bal; [keeping|done|]; clear s1 H1; intros ? s1 H1). case_match.
    + do 3 (apply wlp_bind; eapply keeps_bal; [keeping|done|]; clear s1 H1; intros ? s1 H1). apply wlp_bind.
      eapply wlp_mono; [|by apply iget_bal]. intros i s2 H2. done.
    + apply wlp_bind. eapply keeps_bal; [keeping|done|]. intros ? s2 H2. done.
Qed.

Lemma acquire_bal i ch p r k s : bal r k s → wlp (on_ilock i (acquiresleep ch p)) s (λ _ s', k i = false ∧ bal r (lk i k) s').
Proof.
  intros H. unfold wlp, on_ilock, zoom, acquiresleep, mbind, K_bind, gets. simpl. pose proof (H i) as [_ Hk]. unfold held_lock in Hk.
  destruct (locked (i_lock (icache s i))) eqn:E; [done|]. split; [done|]. simpl.
  apply (bal_upd r k); [done|intros j Hj; unfold lk; by rewrite decide_False|apply H|]. unfold lk. by rewrite decide_True.
Qed.
Lemma release_bal i ch r k s : bal r k s → wlp (on_ilock i (releasesleep ch)) s (λ _ s', bal r (unlk i k) s').
Proof.
  intros H. unfold wlp, on_ilock, zoom, releasesleep, mbind, K_bind. simpl.
  apply (bal_upd r k); [done|intros j Hj; unfold unlk; by rewrite decide_False|apply H|]. unfold unlk. by rewrite decide_True.
Qed.

(** Next statement of a routine: one that keeps counts and locks. *)
Ltac bal_keep := apply wlp_bind; eapply keeps_bal; [keeping|eassumption|]; intros ? ?u ?Hu.

Lemma ilock_bal i r k s : bal r k s → wlp (ilock i) s (λ _ s', k i = false ∧ bal r (lk i k) s').
Proof.
  intros H. unfold ilock. bal_keep. case_match; [done|]. bal_keep. apply wlp_bind. eapply wlp_mono; [|by apply acquire_bal].
  intros ? s1 [Hk B1]. eapply keeps_bal; [|exact B1|by intros]. keeping.
Qed.
Lemma iunlock_bal i r k s : bal r k s → wlp (iunlock i) s (λ _ s', k i = true ∧ bal r (unlk i k) s').
Proof.
  intros H. unfold iunlock. apply wlp_bind. unfold wlp at 1. unfold on_ilock at 1, zoom, holdingsleep, gets at 1. simpl.
  apply wlp_bind, wlp_ret. pose proof (H i) as [_ Hk]. unfold held_lock in Hk.
  assert (H' : bal r k (upd_inode i (set_i_lock (i_lock (icache s i))) s)).
  { apply (bal_upd r k); [done|done|apply H|apply H]. }
  destruct (locked (i_lock (icache s i))); simpl; [|done]. case_match; [done|].
  eapply wlp_mono; [|by apply release_bal]. intros ? s1 B1. done.
Qed.
Lemma iput_bal i r k s : bal r k s → wlp (iput i) s (λ _ s', k i = false ∧ bal (dec i r) k s').
Proof.
  intros H. unfold iput. bal_keep. apply wlp_bind. eapply wlp_mono; [|by apply acquire_bal]. intros ? s1 [Hk B1].
  bal_keep. bal_keep. apply wlp_bind. eapply wlp_mono; [|by apply release_bal]. intros ? s2 B2. split; [done|].
  unfold modify. simpl. apply (bal_ext (dec i r) (unlk i (lk i k))); [done|intros j; unfold unlk, lk; by case_decide; subst|].
  apply (bal_upd r (unlk i (lk i k))); [done|intros j Hj; unfold dec; by rewrite decide_False| |apply B2].
  unfold dec. rewrite decide_True by done. simpl. by rewrite (proj1 (B2 i)).
Qed.
Lemma iunlockput_bal i r k s : bal r k s → wlp (iunlockput i) s (λ _ s', k i = true ∧ bal (dec i r) (unlk i k) s').
Proof.
  intros H. unfold iunlockput. apply wlp_bind. eapply wlp_mono; [|by apply iunlock_bal]. intros ? s1 [Hk B1].
  eapply wlp_mono; [|by apply iput_bal]. intros ? s2 [_ B2]. done.
Qed.

(** ** Directories and paths *)

Definition found (r : nat → Z) (k : nat → bool) (o : option nat) (s : st) : Prop :=
  match o with Some i => bal (inc i r) k s | None => bal r k s end.
Lemma dirlookup_bal dp name r k s : bal r k s → wlp (dirlookup dev_read dp name) s (λ o s', found r k (fst <$> o) s').
Proof.
  intros H. unfold dirlookup. bal_keep. case_match; [done|].
  apply (wlp_upto _ (bal r k)); [done| |done]. intros off s1 B1. apply wlp_bind. eapply keeps_bal; [keeping|eassumption|].
  intros [n de] s2 B2. case_match; [done|]. case_match; [done|]. case_match; [|done]. apply wlp_bind.
  eapply wlp_mono; [|by apply iget_bal]. intros i s3 B3. done.
Qed.
Lemma dirlink_bal dp name inum r k s : bal r k s → wlp (dirlink dev_read dev_write dp name inum) s (λ _ s', bal r k s').
Proof.
  intros H. unfold dirlink. apply wlp_bind. eapply wlp_mono; [|by apply dirlookup_bal]. intros [[i off]|] s1 B1; simpl in B1.
  - apply wlp_bind. eapply wlp_mono; [|by apply iput_bal]. intros ? s2 [_ B2]. apply wlp_ret.
    eapply bal_ext; [..|exact B2]; [|done]. intros j. unfold dec, inc. case_decide; lia.
  - eapply keeps_bal; [|done|done]. keeping.
Qed.

Definition found_at (r : nat → Z) (k : nat → bool) (o : option (nat * list Z)) (s : st) : Prop := found r k (fst <$> o) s.
Lemma bal_put i r k s : k i = false → bal (dec i (inc i r)) (unlk i (lk i k)) s → bal r k s.
Proof.
  intros Hk. apply bal_ext; intros j; [unfold dec, inc; case_decide; lia|]. unfold unlk, lk. by case_decide; subst.
Qed.
Lemma namex_loop_bal fuel i path np r k s :
  bal (inc i r) k s → wlp (namex_loop dev_read fuel i path np) s (λ o s', found_at r k o s').
Proof.
  revert i path s. induction fuel as [|fuel IH]; intros i path s H; cbn [namex_loop]; destruct (skipelem path) as [[name path']|]; try done.
  1, 3: destruct np; [|done]; apply wlp_bind; (eapply wlp_mono; [|by apply iput_bal]); intros ? s1 [_ B1]; apply wlp_ret;
    eapply bal_ext; [..|exact B1]; [|done]; intros j; unfold dec, inc; case_decide; lia.
  apply wlp_bind. eapply wlp_mono; [|by apply ilock_bal]. intros ? s1 [Hk B1]. bal_keep.
  assert (Hput : ∀ s, bal (inc i r) (lk i k) s → wlp (iunlockput i ≫= λ _, mret None) s (λ o s', found_at r k o s')).
  { intros s3 B3. apply wlp_bind. eapply wlp_mono; [|by apply iunlockput_bal]. intros ? s4 [_ B4]. by apply (bal_put i). }
  case_match; [by apply Hput|]. case_match.
  - apply wlp_bind. eapply wlp_mono; [|by apply iunlock_bal]. intros ? s3 [_ B3]. apply wlp_ret. unfold found_at. simpl.
    eapply bal_ext; [..|exact B3]; [done|]. intros j. unfold unlk, lk. by case_decide; subst.
  - apply wlp_bind. eapply wlp_mono; [|by apply dirlookup_bal]. intros [[nx off]|] s3 B3; simpl in B3; [|by apply Hput].
    apply wlp_bind. eapply wlp_mono; [|by apply iunlockput_bal]. intros ? s4 [_ B4]. apply IH.
    eapply bal_ext; [..|exact B4]; intros j; [unfold dec, inc; repeat case_decide; lia|]. unfold unlk, lk. by case_decide; subst.
Qed.
Lemma namex_bal c path np r k s : bal r k s → wlp (namex dev_read c path np) s (λ o s', found_at r k o s').
Proof.
  intros H. unfold namex. apply wlp_bind.
  assert (Hd : wlp (idup c) s (λ i s', wlp (namex_loop dev_read (length path) i path np) s' (found_at r k))).
  { eapply wlp_mono; [|by apply idup_bal]. intros i s1 [-> B1]. by apply namex_loop_bal. }
  destruct path as [|x path]; [done|]. case_match; [|done]. eapply wlp_mono; [|by apply iget_bal]. intros i s1 B1. by apply namex_loop_bal.
Qed.
End ops.
