(* ===== verification/Namei.v ===== *)
(** Path names: namei() and nameiparent() find what the directories on the disk say.

    [walk] goes through the tree on the disk, a content of blocks; the routines do the same
    through the inode cache, with its locks and references. *)

From Stdlib Require Import ZArith Lia.
From stdpp Require Import base tactics numbers gmap strings functions list.
From S2P Require Import Prelude Memory Kstring Monitor Sleeplock Buf Journal Fs Fsblock Fsinode Fsfile Fsrw Fsdir Fsexample Fsprops Inoderef.

#[local] Open Scope Z_scope.

Lemma filter_no {A} (P : A → bool) l : (∀ x, x ∈ l → P x = false) → filter (λ x, P x = true) l = [].
Proof.
  induction l as [|x l IH]; intros H; [done|]. rewrite filter_cons_False; [|rewrite H; [done|left]]. apply IH. intros y Hy. apply H. by right.
Qed.

(** ** Inodes that agree *)

Lemma slot_inode c ip ip' k : same_inode ip ip' → fblock k → slot c ip' k = slot c ip k.
Proof.
  intros (_&_&_&_&_&Ha) Hk. unfold slot, indirect, fblock, NDIRECT in *. rewrite (Ha 12) by (unfold NDIRECT; lia).
  destruct (Z.ltb_spec k 12); [apply Ha; unfold NDIRECT; lia|done].
Qed.
Lemma owned_inode c ip ip' x : same_inode ip ip' → owned c ip' x → owned c ip x.
Proof.
  intros H [Hx Ho]. split; [done|]. destruct Ho as [->|(k&Hk&->)].
  - left. destruct H as (_&_&_&_&_&Ha). apply Ha. done.
  - right. exists k. by rewrite (slot_inode c ip ip').
Qed.
Lemma fbyte_inode c ip ip' o : same_inode ip ip' → 0 ≤ o < MAXFILE * BSIZE → fbyte c ip' o = fbyte c ip o.
Proof. intros H Ho. unfold fbyte. by rewrite (slot_inode c ip ip') by (done || by apply fblock_div). Qed.
Lemma fbytes_inode c ip ip' off n : same_inode ip ip' → 0 ≤ off → off + n ≤ MAXFILE * BSIZE → fbytes c ip' off n = fbytes c ip off n.
Proof. intros H H1 H2. apply list_fmap_ext. intros i x Hx%list_elem_of_lookup_2%elem_of_seqZ. apply fbyte_inode; [done|lia]. Qed.

Section tree.
Context (sbk : superblock) (ds : Z).

Lemma file_ok_inode c ip ip' : same_inode ip ip' → file_ok sbk ds c ip → file_ok sbk ds c ip'.
Proof.
  intros H [H1 H2 H3 H4 H5]. pose proof H as (_&_&_&_&Hs&Ha). split.
  - intros x Hx. by apply H1, (owned_inode c ip ip').
  - intros k k' Hk Hk'. rewrite !(slot_inode c ip ip') by done. by apply H2.
  - intros k Hk. rewrite !(slot_inode c ip ip') by done. unfold indirect. rewrite Ha by done. by apply H3.
  - intros k Hk Hlt. rewrite Hs in Hlt. rewrite (slot_inode c ip ip'); [by apply H4|done|].
    unfold fblock. unfold BSIZE in *. lia.
  - by rewrite Hs.
Qed.

(** ** The tree on the disk *)

(** Inode [n]. *)
Definition dino (c : Z → mem) (n : Z) : inode :=
  load_inode (c (IBLOCK n sbk)) (n mod IPB * DINODE) {| i_dev := ROOTDEV; i_inum := n; i_ref := 0;
    i_lock := initsleeplock; i_valid := true; i_type := 0; i_major := 0; i_minor := 0; i_nlink := 0; i_size := 0; i_addrs := λ _, 0 |}.
Definition in_use (c : Z → mem) (n : Z) : Prop := 0 ≤ n < sb_ninodes sbk ∧ i_type (dino c n) ≠ 0.
Definition dir_ino (c : Z → mem) (n : Z) : bool := i_type (dino c n) =? T_DIR.
Definition content (c : Z → mem) (n : Z) : list Z := fbytes c (dino c n) 0 (i_size (dino c n)).

(** The inode of the first entry with this name. *)
Definition dlookup (c : Z → mem) (n : Z) (name : list Z) : option Z :=
  (λ k, de_inum (dent c (dino c n) k)) <$> hd_error (filter (λ k, dmatch c (dino c n) name k = true) (seqZ 0 (nents (dino c n)))).
Fixpoint walk (c : Z → mem) (n : Z) (names : list (list Z)) : option Z :=
  match names with
  | [] => Some n
  | e :: es => if dir_ino c n then match dlookup c n e with Some m => walk c m es | None => None end else None
  end.
(** The directory that holds the last name. *)
Fixpoint walk_parent (c : Z → mem) (n : Z) (names : list (list Z)) : option (Z * list Z) :=
  match names with
  | [] => None
  | e :: es =>
      if negb (dir_ino c n) then None else
      match es with [] => Some (n, e) | _ => match dlookup c n e with Some m => walk_parent c m es | None => None end end
  end.

(** The inodes in use are files with a name, and directories name inodes in use. *)
Record tree_ok (c : Z → mem) : Prop := {
  tr_root : in_use c ROOTINO;
  tr_file n : in_use c n → file_ok sbk ds c (dino c n);
  tr_link n : in_use c n → i_nlink (dino c n) ≠ 0;
  tr_dir n : in_use c n → dir_ino c n = true → i_size (dino c n) mod DIRENT = 0;
  tr_ent n k : in_use c n → dir_ino c n = true → 0 ≤ k < nents (dino c n) → de_inum (dent c (dino c n) k) ≠ 0 → in_use c (de_inum (dent c (dino c n) k))
}.

Lemma dlookup_first c n name k : 0 ≤ k < nents (dino c n) → dmatch c (dino c n) name k = true →
  (∀ k', 0 ≤ k' < k → dmatch c (dino c n) name k' = false) → dlookup c n name = Some (de_inum (dent c (dino c n) k)).
Proof.
  intros Hk Hm Hno. unfold dlookup. replace (nents (dino c n)) with (k + (1 + (nents (dino c n) - k - 1))) by lia.
  rewrite !seqZ_app, !filter_app by lia. rewrite (filter_no _ (seqZ 0 k)).
  - rewrite Z.add_0_l. change (seqZ k 1) with [Z.of_nat 0 + k]. replace (Z.of_nat 0 + k) with k by lia.
    rewrite filter_cons_True by done. done.
  - intros j Hj%elem_of_seqZ. apply Hno. lia.
Qed.
Lemma dlookup_none c n name : (∀ k, 0 ≤ k < nents (dino c n) → dmatch c (dino c n) name k = false) → dlookup c n name = None.
Proof.
  intros H. unfold dlookup. rewrite filter_no; [done|]. intros j Hj%elem_of_seqZ. apply H. lia.
Qed.
Lemma dlookup_in_use c n name m : tree_ok c → in_use c n → dir_ino c n = true → dlookup c n name = Some m → in_use c m.
Proof.
  intros HT Hn Hd. unfold dlookup. destruct (filter _ _) as [|k l] eqn:E; [done|]. cbn. intros [= <-].
  assert (Hk : k ∈ filter (λ k, dmatch c (dino c n) name k = true) (seqZ 0 (nents (dino c n)))) by (rewrite E; left).
  apply list_elem_of_filter in Hk as [Hm Hk%elem_of_seqZ]. apply andb_prop in Hm as [Hnz%negb_true_iff%Z.eqb_neq _].
  apply (tr_ent _ HT); [done|done|lia|done].
Qed.
Lemma walk_in_use c es n m : tree_ok c → in_use c n → walk c n es = Some m → in_use c m.
Proof.
  intros HT. revert n. induction es as [|e es IH]; intros n Hn; cbn; [by intros [= <-]|].
  destruct (dir_ino c n) eqn:Hd; [|done]. destruct (dlookup c n e) as [m'|] eqn:E; [|done]. by apply IH, (dlookup_in_use c n e).
Qed.
End tree.

(** ** The file system between two routines *)

Section namei.
Context {S : Type} `{!Blocks S, !BlocksSpec S}.
Abbreviation fsst := (@fsst S).
Context (sbk : superblock) (ds : Z).

(** The disk has the content of [v] and the tree is in order; entries of the cache that are
    referred to are inodes in use, and those that have been read agree with the disk.
    References are counted by [r], and [k] says which entries are locked. *)
Record fs_at (v : jview) (r : nat → Z) (k : nat → bool) (s : fsst) : Prop := {
  fa_alloc : alloc_ok sbk ds s v;
  fa_held : j_held v = ∅;
  fa_room : j_room 1 v;
  fa_tree : tree_ok sbk ds (j_cont v);
  fa_cache : icache_ok (icache s);
  fa_entry i : 0 < i_ref (icache s i) → (i < NINODE)%nat ∧ i_dev (icache s i) = ROOTDEV ∧ in_use sbk (j_cont v) (i_inum (icache s i)) ∧
    (i_valid (icache s i) = true → same_inode (dino sbk (j_cont v) (i_inum (icache s i))) (icache s i));
  fa_bal : bal r k s
}.
Definition inums (s s' : fsst) : Prop := ∀ i, i_inum (icache s' i) = i_inum (icache s i).
Lemma inums_trans s1 s2 s3 : inums s1 s2 → inums s2 s3 → inums s1 s3.
Proof. intros H1 H2 i. by rewrite H2. Qed.

Lemma fs_at_upd v r k s s' i ip' r' k' : fs_at v r k s → shows s' v → upd_fs s s' i ip' →
  (∀ j, j ≠ i → r' j = r j ∧ k' j = k j) → i_ref ip' = r' i → held_lock ip' = k' i → 0 ≤ i_ref ip' → (0 < i_ref ip' → 0 < r i) →
  i_dev ip' = i_dev (icache s i) → i_inum ip' = i_inum (icache s i) →
  (0 < i_ref ip' → i_valid ip' = true → same_inode (dino sbk (j_cont v) (i_inum ip')) ip') →
  fs_at v r' k' s' ∧ inums s s'.
Proof.
  intros [HA Hh Hr HT [HC1 HC2] HE HB] Hs (E1&E2&E3&E4) Hrk Hri Hki H0 Hpos Hdev Hin Hval. destruct (HB i) as [Bi _]. split; [split|].
  - destruct HA. split; try done. by rewrite E1.
  - done.
  - done.
  - done.
  - assert (Hu : ∀ j d n, used_for (icache s' j) d n → used_for (icache s j) d n).
    { intros j d n. destruct (decide (j = i)) as [->|Hj]; [|by rewrite E3]. rewrite E2. intros (U1&U2&U3).
      split; [rewrite Bi; by apply Hpos|split; congruence]. }
    split; [intros j Hj; destruct (decide (j = i)) as [->|Hji]; [by rewrite E2|rewrite E3 by done; by apply HC1]|].
    intros j j' d n Hj Hj' U U'. by apply (HC2 j j' d n); [..|apply Hu|apply Hu].
  - intros j Hj. destruct (decide (j = i)) as [->|Hji]; [|rewrite E3 in * by done; by apply HE].
    rewrite E2 in *. destruct (HE i) as (N1&N2&N3&_); [rewrite Bi; by apply Hpos|]. rewrite Hdev, Hin in *. split_and!; auto.
  - intros j. destruct (decide (j = i)) as [->|Hji]; [by rewrite E2|rewrite E3 by done; destruct (Hrk j Hji) as [-> ->]; apply HB].
  - intros j. destruct (decide (j = i)) as [->|Hji]; [by rewrite E2|by rewrite E3].
Qed.

(** A change of counts and locks only. *)
Lemma fs_at_set v r k s i f r' k' : fs_at v r k s → 0 < r i → (∀ ip, same_inode ip (f ip) ∧ i_dev (f ip) = i_dev ip ∧ i_inum (f ip) = i_inum ip ∧ i_valid (f ip) = i_valid ip) →
  (∀ j, j ≠ i → r' j = r j ∧ k' j = k j) → i_ref (f (icache s i)) = r' i → held_lock (f (icache s i)) = k' i → 0 ≤ r' i →
  fs_at v r' k' (upd_inode i f s) ∧ inums s (upd_inode i f s).
Proof.
  intros HF Hi Hf Hrk Hr Hk H0. destruct (Hf (icache s i)) as (F1&F2&F3&F4). pose proof (fa_bal _ _ _ _ HF i) as [Bi _].
  apply (fs_at_upd v r k s _ i (f (icache s i))); try done; [eapply shows_same; [apply HF|done]|apply upd_inode_upd|lia|].
  rewrite F3, F4. intros _ Hv. destruct (fa_entry _ _ _ _ HF i) as (_&_&_&Hs); [lia|]. destruct (Hs Hv) as (A1&A2&A3&A4&A5&A6), F1 as (C1&C2&C3&C4&C5&C6).
  unfold same_inode. split_and!; try congruence. intros x Hx. by rewrite C6, A6.
Qed.

Lemma lock_at v r k s i p : fs_at v r k s → 0 < r i → k i = false →
  wp (on_ilock i (acquiresleep (ChSleeplock i) p)) s (λ _ s', s' = upd_inode i (set_i_lock {| locked := true; pid := p |}) s ∧ fs_at v r (lk i k) s' ∧ inums s s').
Proof.
  intros HF Hr Hk. pose proof (fa_bal _ _ _ _ HF i) as [Bi Bk]. unfold held_lock in Bk.
  unfold on_ilock, wp, zoom, acquiresleep, mbind, K_bind, gets, compose. cbn [obj]. rewrite Bk, Hk. cbn. split; [done|].
  apply (fs_at_set v r k); try done; [|by unfold lk; rewrite decide_True|lia]. intros j Hj. unfold lk. by rewrite decide_False.
Qed.
Lemma unlock_at v r k s i : fs_at v r k s → 0 < r i → wp (on_ilock i (releasesleep (ChSleeplock i))) s (λ _ s', fs_at v r (unlk i k) s' ∧ inums s s').
Proof.
  intros HF Hr. pose proof (fa_bal _ _ _ _ HF i) as [Bi Bk].
  apply (fs_at_set v r k); try done; [|by unfold unlk; rewrite decide_True|lia]. intros j Hj. unfold unlk. by rewrite decide_False.
Qed.

(** ilock reads the inode unless it is there. *)
Lemma ilock_at v r k s i : fs_at v r k s → 0 < r i → k i = false →
  wp (ilock i) s (λ _ s', i_valid (icache s' i) = true ∧ fs_at v r (lk i k) s' ∧ inums s s').
Proof.
  intros HF Hr Hk. pose proof HF as [HA Hh Hrm HT HC HE HB]. destruct (HB i) as [Bi Bk]. unfold held_lock in Bk.
  destruct (HE i ltac:(lia)) as (_&Hd&[Hn Hty]&Hval).
  destruct (i_valid (icache s i)) eqn:Ev.
  - unfold ilock. apply wp_bind. unfold wp at 1, gets at 1. rewrite (proj2 (Z.ltb_ge _ _)) by lia. apply wp_bind. unfold wp at 1, gets at 1.
    apply wp_bind. eapply wp_mono; [|by apply (lock_at v r k)]. intros [] s' (->&HF'&Hin). apply wp_bind. unfold wp at 1, gets at 1.
    cbn [icache upd_inode]. rewrite fn_lookup_insert. cbn [i_valid set_i_lock]. rewrite Ev. apply wp_ret. split; [|done].
    cbn. by rewrite fn_lookup_insert.
  - eapply wp_mono; [|apply (ilock_spec sbk ds s v i (icache s i)); [apply HA|apply HA|apply HA|done|done|done|rewrite Hh; set_solver|done|lia|congruence|done|done]].
    intros _ s' (Hs&E1&E2&E3&E4). split; [by rewrite E3|].
    apply (fs_at_upd v r k s s' i (icache s' i)); try done; rewrite ?E3; cbn; try lia; try done.
    + intros j Hj; unfold lk; by rewrite decide_False.
    + by unfold lk; rewrite decide_True.
Qed.
Lemma iunlock_at v r k s i : fs_at v r k s → 0 < r i → k i = true → wp (iunlock i) s (λ _ s', fs_at v r (unlk i k) s' ∧ inums s s').
Proof.
  intros HF Hr Hk. pose proof (fa_bal _ _ _ _ HF i) as [Bi Bk]. unfold held_lock in Bk.
  destruct (fs_at_set v r k s i (set_i_lock (i_lock (icache s i))) r k) as [HF' Hin]; try done; [lia|].
  unfold iunlock. apply wp_bind. unfold on_ilock at 1, wp at 1, zoom, holdingsleep, gets, compose. cbn [obj].
  apply wp_bind. unfold wp at 1. rewrite Bk, Hk. cbn [icache upd_inode]. rewrite fn_lookup_insert. cbn [i_ref set_i_lock].
  rewrite (proj2 (Z.ltb_ge _ _)) by lia. cbn [negb orb]. eapply wp_mono; [|by apply (unlock_at v r k)]. intros [] s' [H1 H2]. split; [done|].
  by eapply inums_trans.
Qed.
Lemma iput_at v r k s i : fs_at v r k s → 0 < r i → k i = false → wp (iput i) s (λ _ s', fs_at v (dec i r) k s' ∧ inums s s').
Proof.
  intros HF Hr Hk. pose proof HF as [HA Hh Hrm HT HC HE HB]. destruct (HB i) as [Bi Bk].
  destruct (HE i ltac:(lia)) as (_&Hd&Hn&Hval). pose proof (tr_link _ _ _ HT _ Hn) as Hl.
  unfold iput. apply wp_bind. unfold wp at 1, gets at 1. apply wp_bind. eapply wp_mono; [|by apply (lock_at v r k)].
  intros [] s1 (E&HF1&Hin). apply wp_bind. unfold wp at 1, gets at 1. assert (E1 : i_valid (icache s1 i) && (i_nlink (icache s1 i) =? 0) = false).
  { rewrite E. cbn. rewrite fn_lookup_insert. cbn. destruct (i_valid (icache s i)); [|done]. apply Z.eqb_neq.
    destruct (Hval eq_refl) as (_&_&_&->&_). done. }
  rewrite E1. apply wp_bind, wp_ret. apply wp_bind. eapply wp_mono; [|by apply (unlock_at v r (lk i k))].
  intros [] s2 (HF2&Hin2). destruct (fa_bal _ _ _ _ HF2 i) as [B2 B2k].
  destruct (fs_at_set v r (unlk i (lk i k)) s2 i (λ ip, set_i_ref (i_ref ip - 1) ip) (dec i r) k) as [HF3 Hin3]; try done.
  - intros j Hj. unfold dec, unlk, lk. by rewrite !decide_False.
  - cbn. unfold dec. rewrite decide_True by done. lia.
  - cbn. rewrite Hk. unfold unlk in B2k. by rewrite decide_True in B2k.
  - unfold dec. rewrite decide_True by done. lia.
  - split; [done|]. by do 2 (eapply inums_trans; [eassumption|]).
Qed.
Lemma iunlockput_at v r k s i : fs_at v r k s → 0 < r i → k i = true → wp (iunlockput i) s (λ _ s', fs_at v (dec i r) (unlk i k) s' ∧ inums s s').
Proof.
  intros HF Hr Hk. unfold iunlockput. apply wp_bind. eapply wp_mono; [|by apply (iunlock_at v r k)]. intros [] s1 [H1 I1].
  eapply wp_mono; [|apply (iput_at v r (unlk i k)); [done|done|unfold unlk; by rewrite decide_True]]. intros [] s2 [H2 I2].
  split; [done|]. by eapply inums_trans.
Qed.

(** The entries with references stay where they are. *)
Definition kept (r : nat → Z) (s s' : fsst) : Prop := ∀ i, 0 < r i → i_inum (icache s' i) = i_inum (icache s i).
Lemma kept_inums r s s' : inums s s' → kept r s s'.
Proof. by intros H i _. Qed.
Lemma kept_trans r s1 s2 s3 : kept r s1 s2 → kept r s2 s3 → kept r s1 s3.
Proof. intros H1 H2 i Hi. by rewrite H2, H1. Qed.
Lemma kept_le r r' s s' : (∀ i, r i ≤ r' i) → kept r' s s' → kept r s s'.
Proof. intros Hr H i Hi. apply H. specialize (Hr i). lia. Qed.
Lemma fs_at_ext v r k r' k' s : (∀ i, r i = r' i) → (∀ i, k i = k' i) → fs_at v r k s → fs_at v r' k' s.
Proof. intros Hr Hk []. split; try done. by eapply bal_ext. Qed.

Definition one_free (r : nat → Z) : Prop := ∃ i, (i < NINODE)%nat ∧ r i = 0.
Definition two_free (r : nat → Z) : Prop := ∃ i j, i ≠ j ∧ (i < NINODE)%nat ∧ (j < NINODE)%nat ∧ r i = 0 ∧ r j = 0.
Lemma two_one r i : two_free r → one_free (inc i r).
Proof.
  intros (a&b&Hne&Ha&Hb&H1&H2). destruct (decide (a = i)) as [->|]; [exists b|exists a]; (split; [done|]); unfold inc; by rewrite decide_False.
Qed.

Lemma iget_at v r k s n : fs_at v r k s → in_use sbk (j_cont v) n → one_free r →
  wp (iget ROOTDEV n) s (λ i s', fs_at v (inc i r) k s' ∧ i_inum (icache s' i) = n ∧ kept r s s').
Proof.
  intros [HA Hh Hrm HT HC HE HB] Hn (f&Hf&Hrf).
  eapply wp_mono; [|apply iget_spec; [done|exists f; split; [done|right; by rewrite (proj1 (HB f))]]].
  intros i s' (Hi&HC'&(U1&U2&U3)&Eb&Es&Ep&Eo&Ei&Hor). destruct (HB i) as [Bi Bk].
  assert (Hnew : ∀ ip, decide (used_for (icache s i) ROOTDEV n) = ip → i_ref (icache s' i) = r i + 1 ∧ held_lock (icache s' i) = k i).
  { intros _ _. rewrite Ei, <- Bi, <- Bk. destruct (decide _); [done|]. destruct Hor as [?|Hz]; [done|]. by rewrite Hz. }
  destruct (Hnew _ eq_refl) as [Hr' Hk']. clear Hnew. split; [split; try done|split; [done|]].
  - destruct HA. split; try done; [by eapply shows_same|by rewrite Es].
  - intros j Hj. destruct (decide (j = i)) as [->|Hji]; [|rewrite Eo in * by done; by apply HE].
    rewrite U2, U3. do 3 (split; [done|]). rewrite Ei. destruct (decide _) as [Hu|Hu]; [|done]. intros Hv.
    destruct (HE i) as (_&_&_&HV); [apply Hu|]. destruct Hu as (_&_&<-). apply HV in Hv as (?&?&?&?&?&?). done.
  - intros j. unfold inc. destruct (decide (j = i)) as [->|Hji]; [done|rewrite Eo by done; apply HB].
  - intros j Hj. destruct (decide (j = i)) as [->|Hji]; [|by rewrite Eo]. rewrite U3. destruct Hor as [(_&_&->)|?]; [done|lia].
Qed.
Lemma idup_at v r k s i : fs_at v r k s → 0 < r i → wp (idup i) s (λ j s', j = i ∧ fs_at v (inc i r) k s' ∧ inums s s').
Proof.
  intros HF Hr. pose proof (fa_bal _ _ _ _ HF i) as [Bi Bk]. split; [done|].
  apply (fs_at_set v r k); try done; unfold inc; [intros j Hj; by rewrite decide_False|cbn; rewrite decide_True by done; lia|rewrite decide_True by done; lia].
Qed.
(** ** Reading *)

Context (dev_read : Z → option (nat → Z → K fsst (Z * list Z))).

Lemma inode_ok_at v r k s i : fs_at v r k s → 0 < r i → i_valid (icache s i) = true → inode_ok sbk ds s v i (icache s i).
Proof.
  intros HF Hr Hv. destruct (fa_entry _ _ _ _ HF i) as (_&Hd&Hu&Hs); [by rewrite (proj1 (fa_bal _ _ _ _ HF i))|].
  split; [apply HF|done|done| |rewrite (fa_held _ _ _ _ HF); set_solver].
  eapply file_ok_inode; [by apply Hs|]. by apply (fa_tree _ _ _ _ HF).
Qed.
Lemma same_at v r k s i : fs_at v r k s → 0 < r i → i_valid (icache s i) = true → same_inode (dino sbk (j_cont v) (i_inum (icache s i))) (icache s i).
Proof. intros HF Hr Hv. apply (fa_entry _ _ _ _ HF i); [by rewrite (proj1 (fa_bal _ _ _ _ HF i))|done]. Qed.
(** A routine that only reads. *)
Lemma read_at v r k s s' i : fs_at v r k s → 0 < r i → shows s' v → upd_fs s s' i (icache s i) → fs_at v r k s' ∧ inums s s'.
Proof.
  intros HF Hr Hs Hu. destruct (fa_bal _ _ _ _ HF i) as [Bi Bk].
  apply (fs_at_upd v r k s s' i (icache s i)); try done; [lia|]. intros _. by apply (same_at v r k).
Qed.

Lemma dent_at c ip ip' j : same_inode ip ip' → file_ok sbk ds c ip → 0 ≤ j < nents ip → dent c ip' j = dent c ip j.
Proof.
  intros H [_ _ _ _ Hs] Hj. unfold nents, DIRENT in *. apply fbytes_inode; [done|unfold DIRENT; lia|]. unfold DIRENT. zlia.
Qed.

Lemma dirlookup_at v r k s dp name : fs_at v r k s → 0 < r dp → i_valid (icache s dp) = true → one_free r →
  let n := i_inum (icache s dp) in dir_ino sbk (j_cont v) n = true →
  wp (dirlookup dev_read dp name) s (λ o s', match dlookup sbk (j_cont v) n name with
    | Some m => ∃ i off, o = Some (i, off) ∧ fs_at v (inc i r) k s' ∧ i_inum (icache s' i) = m ∧ in_use sbk (j_cont v) m
    | None => o = None ∧ fs_at v r k s'
    end ∧ kept r s s').
Proof.
  intros HF Hr Hv Hfree n Hdir. pose proof (inode_ok_at v r k s dp HF Hr Hv) as HI. pose proof (same_at v r k s dp HF Hr Hv) as HS.
  destruct (fa_entry _ _ _ _ HF dp) as (_&_&Hu&_); [by rewrite (proj1 (fa_bal _ _ _ _ HF dp))|].
  pose proof (fa_tree _ _ _ _ HF) as HT. pose proof (tr_file _ _ _ HT _ Hu) as Hfo. fold n in HS, Hu, Hfo.
  assert (En : nents (icache s dp) = nents (dino sbk (j_cont v) n)) by (unfold nents; by destruct HS as (_&_&_&_&->&_)).
  assert (Em : ∀ j, 0 ≤ j < nents (icache s dp) → dmatch (j_cont v) (icache s dp) name j = dmatch (j_cont v) (dino sbk (j_cont v) n) name j)
    by (intros j Hj; unfold dmatch; rewrite (dent_at _ _ _ _ HS Hfo) by lia; done).
  assert (HD : dir_ok sbk ds s v dp (icache s dp)).
  { destruct HS as (S1&_&_&_&S5&_). split; [done|rewrite S1; by apply Z.eqb_eq|rewrite S5; by apply (tr_dir _ _ _ HT)]. }
  apply (dirlookup_spec sbk ds dev_read s v dp (icache s dp) name _ HD (fa_room _ _ _ _ HF)).
  - intros s' Hno Hs Hup. destruct (read_at v r k s s' dp HF Hr Hs Hup) as [HF' Hin].
    rewrite dlookup_none; [split; [done|by apply kept_inums]|]. intros j Hj. rewrite <- Em by lia. apply Hno. lia.
  - intros s' j Hj Hm Hno Hs Hup. destruct (read_at v r k s s' dp HF Hr Hs Hup) as [HF' Hin].
    rewrite (dent_at _ _ _ _ HS Hfo) by lia. rewrite (dlookup_first sbk _ n name j); [|lia|by rewrite <- Em|intros j' Hj'; rewrite <- Em by lia; by apply Hno].
    rewrite Em in Hm by done. apply andb_prop in Hm as [Hnz%negb_true_iff%Z.eqb_neq _].
    assert (Hu' := tr_ent _ _ _ HT n j Hu Hdir ltac:(lia) Hnz).
    eapply wp_mono; [|by apply (iget_at v r k)]. intros i s2 (H1&H2&H3). split; [by exists i, (DIRENT * j)|].
    eapply kept_trans; [by apply kept_inums|done].
Qed.
(** ** Paths *)

Definition nolock : nat → bool := λ _, false.
Lemma rest_elems fuel path e path' : skipelem path = Some (e, path') → (length path' ≤ fuel)%nat → path_elems fuel path' = [] → path' = [].
Proof.
  unfold skipelem. destruct (skip_slashes path); [done|]. destruct (elem_split _) as [e' q]. intros [= _ <-] Hl Hel.
  destruct (skip_slashes_spec q) as [|(c&t&E&Hc)]; [done|]. rewrite E in *. destruct fuel as [|fuel]; cbn in Hl; [lia|].
  cbn [path_elems] in Hel. unfold skipelem in Hel. cbn [skip_slashes] in Hel. rewrite (proj2 (Z.eqb_neq _ _) Hc) in Hel.
  by destruct (elem_split _).
Qed.

(** What namex is to find from inode [n] on. *)
Definition target (c : Z → mem) (n : Z) (names : list (list Z)) (np : bool) : option (Z * list Z) :=
  if np then walk_parent sbk c n names else (λ m, (m, [])) <$> walk sbk c n names.
Definition found_path (v : jview) (r : nat → Z) (t : option (Z * list Z)) (o : option (nat * list Z)) (s' : fsst) : Prop :=
  match t with
  | Some (m, e) => ∃ j, o = Some (j, e) ∧ fs_at v (inc j r) nolock s' ∧ i_inum (icache s' j) = m
  | None => o = None ∧ fs_at v r nolock s'
  end.

Lemma target_step c n e es np : target c n (e :: es) np =
  if negb (dir_ino sbk c n) then None else
  if np && bool_decide (es = []) then Some (n, e) else
  match dlookup sbk c n e with Some m => target c m es np | None => None end.
Proof. unfold target. destruct np; cbn; destruct (dir_ino sbk c n); cbn; try done; [|by destruct (dlookup _ _ _ _)]. by destruct es. Qed.

Lemma put_locked v r s i : fs_at v (inc i r) (lk i nolock) s → 0 ≤ r i → wp (iunlockput i) s (λ _ s', fs_at v r nolock s' ∧ inums s s').
Proof.
  intros HF Hi. eapply wp_mono; [|apply (iunlockput_at v (inc i r) (lk i nolock)); [done|unfold inc; rewrite decide_True by done; lia|unfold lk; by rewrite decide_True]].
  intros [] s' [H1 H2]. split; [|done]. eapply fs_at_ext; [..|exact H1]; intros j; unfold dec, inc, unlk, lk, nolock; repeat case_decide; lia || done.
Qed.

Lemma namex_end v r (np : bool) s i : fs_at v (inc i r) nolock s → 0 ≤ r i →
  wp (A := option (nat * list Z)) (if np then iput i ≫= λ _, mret None else mret (Some (i, []))) s (λ o s',
    found_path v r (target (j_cont v) (i_inum (icache s i)) [] np) o s' ∧ kept r s s').
Proof.
  intros HF Hi. destruct np.
  - apply wp_bind. eapply wp_mono; [|apply (iput_at v (inc i r) nolock); [done|unfold inc; rewrite decide_True by done; lia|done]].
    intros [] s' [H1 H2]. apply wp_ret. split; [split; [done|]|by apply kept_inums].
    eapply fs_at_ext; [..|exact H1]; intros j; unfold dec, inc; repeat case_decide; lia || done.
  - apply wp_ret. split; [by exists i|]. by intros j _.
Qed.

Lemma namex_loop_at v r np : two_free r → (∀ i, 0 ≤ r i) → ∀ fuel s i path, fs_at v (inc i r) nolock s → (length path ≤ fuel)%nat →
  wp (namex_loop dev_read fuel i path np) s (λ o s',
    found_path v r (target (j_cont v) (i_inum (icache s i)) (path_elems fuel path) np) o s' ∧ kept r s s').
Proof.
  intros H2 H0. induction fuel as [|fuel IH]; intros s i path HF Hlen.
  { destruct path; [|cbn in Hlen; lia]. by apply namex_end. }
  cbn [namex_loop path_elems]. destruct (skipelem path) as [[e path']|] eqn:Esk; [|by apply namex_end].
  pose proof (skipelem_length _ _ _ Esk) as Hl'. rewrite target_step. set (n := i_inum (icache s i)). set (es := path_elems fuel path').
  assert (Hri : 0 < inc i r i) by (unfold inc; rewrite decide_True by done; specialize (H0 i); lia).
  apply wp_bind. eapply wp_mono; [|by apply (ilock_at v (inc i r) nolock)]. intros [] s1 (Hv&HF1&Hin1).
  pose proof (same_at _ _ _ _ _ HF1 Hri Hv) as HS. rewrite (Hin1 i) in HS. fold n in HS.
  apply wp_bind. unfold wp at 1, gets at 1. replace (i_type (icache s1 i) =? T_DIR) with (dir_ino sbk (j_cont v) n)
    by (unfold dir_ino; by destruct HS as (->&_)).
  destruct (dir_ino sbk (j_cont v) n) eqn:Edir; cbn [negb].
  2: { apply wp_bind. eapply wp_mono; [|by apply (put_locked v r)]. intros [] s2 [HF2 Hin2]. apply wp_ret.
       split; [done|]. by apply kept_inums; eapply inums_trans. }
  assert (Enil : bool_decide (path' = []) = bool_decide (es = [])).
  { apply bool_decide_ext. split; [intros ->; unfold es; by destruct fuel|]. apply (rest_elems fuel path e); [done|lia]. }
  rewrite Enil. destruct (np && bool_decide (es = [])).
  { apply wp_bind. eapply wp_mono; [|apply (iunlock_at v (inc i r) (lk i nolock)); [done|done|unfold lk; by rewrite decide_True]].
    intros [] s2 [HF2 Hin2]. apply wp_ret. split; [|by apply kept_inums; eapply inums_trans]. exists i. split; [done|].
    split; [|by rewrite Hin2, Hin1]. eapply fs_at_ext; [..|exact HF2]; intros j; unfold unlk, lk, nolock; repeat case_decide; done. }
  apply wp_bind. eapply wp_mono; [|apply (dirlookup_at v (inc i r) (lk i nolock) s1 i e HF1 Hri Hv); [by apply two_one|by rewrite Hin1]].
  intros o s2 [Ho Hk2]. rewrite Hin1 in Ho. fold n in Ho.
  assert (K2 : kept r s s2) by (eapply kept_trans; [by apply kept_inums|]; eapply kept_le; [|exact Hk2]; intros j; unfold inc; case_decide; lia).
  destruct (dlookup sbk (j_cont v) n e) as [m|].
  - destruct Ho as (j&off&->&HF2&Hm&_). apply wp_bind.
    eapply wp_mono; [|apply (put_locked v (inc j r)); [eapply fs_at_ext; [..|exact HF2]; intros x; unfold inc; repeat case_decide; lia || done|]].
    + intros [] s3 [HF3 Hin3]. eapply wp_mono; [|apply IH; [exact HF3|lia]]. intros o s4 [Ho Hk4]. rewrite Hin3, Hm in Ho.
      split; [done|]. eapply kept_trans; [exact K2|]. eapply kept_trans; [by apply kept_inums|done].
    + unfold inc. specialize (H0 i). case_decide; lia.
  - destruct Ho as [-> HF2]. apply wp_bind. eapply wp_mono; [|by apply (put_locked v r)]. intros [] s3 [HF3 Hin3]. apply wp_ret.
    split; [done|]. eapply kept_trans; [exact K2|by apply kept_inums].
Qed.

(** The inode that a path starts from, and what it leads to. *)
Definition path_start (c : nat) (path : list Z) (s : fsst) : Z :=
  match path with x :: _ => if x =? slash then ROOTINO else i_inum (icache s c) | [] => i_inum (icache s c) end.
Definition names (path : list Z) : list (list Z) := take DIRSIZ <$> filter nonempty (pieces path).

Lemma namex_at v r s c path np : two_free r → (∀ i, 0 ≤ r i) → fs_at v r nolock s → 0 < r c →
  wp (namex dev_read c path np) s (λ o s', found_path v r (target (j_cont v) (path_start c path s) (names path) np) o s' ∧ kept r s s').
Proof.
  intros H2 H0 HF Hc. unfold names. rewrite <- (path_elems_spec (length path)) by done. unfold namex. apply wp_bind.
  assert (Hgo : ∀ i s1, fs_at v (inc i r) nolock s1 → i_inum (icache s1 i) = path_start c path s → kept r s s1 →
    wp (namex_loop dev_read (length path) i path np) s1 (λ o s', found_path v r (target (j_cont v) (path_start c path s) (path_elems (length path) path) np) o s' ∧ kept r s s')).
  { intros i s1 HF1 E1 K1. rewrite <- E1. eapply wp_mono; [|by apply namex_loop_at]. intros o s2 [Ho K2]. split; [done|by eapply kept_trans]. }
  assert (Hdup : path_start c path s = i_inum (icache s c) → wp (idup c) s (λ i s1,
    wp (namex_loop dev_read (length path) i path np) s1 (λ o s', found_path v r (target (j_cont v) (path_start c path s) (path_elems (length path) path) np) o s' ∧ kept r s s'))).
  { intros E. eapply wp_mono; [|by apply (idup_at v r nolock)]. intros i s1 (->&HF1&Hin). apply Hgo; [done|by rewrite Hin|by apply kept_inums]. }
  destruct path as [|x path]; [by apply Hdup|]. destruct (x =? slash) eqn:Ex; [|apply Hdup; cbn; by rewrite Ex].
  eapply wp_mono; [|apply (iget_at v r nolock s ROOTINO HF); [apply (fa_tree _ _ _ _ HF)|]].
  - intros i s1 (HF1&E1&K1). apply Hgo; [done| |done]. cbn. by rewrite Ex.
  - destruct H2 as (a&b&_&Ha&_&Hra&_). by exists a.
Qed.
End namei.

(** C13: Path names on a tree of directories that is in order, with two free entries in the
    inode cache.  namei follows the names of the path, the non-empty pieces between slashes
    cut to DIRSIZ bytes, from the root or from the current directory, through the first
    entry with each name, and returns the inode that they lead to, with one reference more,
    or none if a name is missing or what should be a directory is not.  nameiparent does so
    for all names but the last, which it returns, and fails on a path without names.  Both
    return on every path; afterwards no inode is locked, every other reference is as before,
    and nothing on the disk has changed. *)
Theorem namei_correct {S : Type} `{!Blocks S, !BlocksSpec S} sbk ds dev_read v r (s : @fsst S) c path :
  two_free r → (∀ i, 0 ≤ r i) → fs_at sbk ds v r nolock s → 0 < r c →
  wp (namei dev_read c path) s (λ o s', kept r s s' ∧ match walk sbk (j_cont v) (path_start c path s) (names path) with
    | Some n => ∃ i, o = Some i ∧ fs_at sbk ds v (inc i r) nolock s' ∧ i_inum (icache s' i) = n
    | None => o = None ∧ fs_at sbk ds v r nolock s'
    end) ∧
  wp (nameiparent dev_read c path) s (λ o s', kept r s s' ∧ match walk_parent sbk (j_cont v) (path_start c path s) (names path) with
    | Some (n, e) => ∃ i, o = Some (i, e) ∧ fs_at sbk ds v (inc i r) nolock s' ∧ i_inum (icache s' i) = n
    | None => o = None ∧ fs_at sbk ds v r nolock s'
    end).
Proof.
  intros H2 H0 HF Hc. split.
  - unfold namei. apply wp_bind. eapply wp_mono; [|by apply (namex_at sbk ds dev_read v r s c path false)].
    intros o s' [Ho Hk]. apply wp_ret. split; [done|]. unfold target in Ho. destruct (walk _ _ _ _); cbn in Ho.
    + destruct Ho as (j&->&Ho). by exists j.
    + by destruct Ho as [-> Ho].
  - eapply wp_mono; [|by apply (namex_at sbk ds dev_read v r s c path true)]. intros o s' [Ho Hk]. by split.
Qed.

(** ** Example: a root directory with a file a, of 88 bytes. *)
Definition prog_ex : list Z :=
  [127; 69; 76; 70] ++ replicate 20 0 ++ [0; 16; 0; 0; 52; 0; 0; 0] ++ replicate 12 0 ++ [1; 0] ++ replicate 6 0 ++
  [1; 0; 0; 0; 84; 0; 0; 0; 0; 16; 0; 0; 0; 0; 0; 0; 4; 0; 0; 0; 8; 0; 0; 0] ++ replicate 8 0 ++ [235; 254; 1; 2].
Definition node_ex (n type size a : Z) : inode := {| i_dev := ROOTDEV; i_inum := n; i_ref := 1; i_lock := initsleeplock; i_valid := false;
  i_type := type; i_major := 0; i_minor := 0; i_nlink := 1; i_size := size; i_addrs := λ k, if k =? 0 then a else 0 |}.
Definition cont_t : Z → mem :=
  <[32 := store_inode (node_ex 1 T_DIR 32 35) 64 (store_inode (node_ex 2 T_FILE 88 34) 128 ∅)]>
  (<[33 := wr_bytes ∅ 0 [255; 255; 255; 255; 15]]> (<[35 := wr_bytes ∅ 0 (de_bytes [46] 1 ++ de_bytes [97] 2)]>
  (<[34 := wr_bytes ∅ 0 prog_ex]> (<[1 := super_ex]> (λ _, ∅))))).
Definition view_t : jview := {| j_cont := cont_t; j_size := 100; j_res := λ b, 2 ≤ b < 32; j_held := ∅; j_log := ∅; j_mod := ∅ |}.
(** The current directory is the root. *)
Definition fs_t : fsst := {| blk := view_t; sb := sb_ex; fs_pid := 3;
  icache := <[0%nat := node_ex 1 0 0 0]> (λ _, set_i_ref 0 (node_ex 0 0 0 0)) |}.
Definition refs_t (i : nat) : Z := if decide (i = 0%nat) then 1 else 0.

Lemma bits_t x : 0 ≤ x < 100 → bit sb_ex cont_t x = (x <? 36).
Proof.
  intros Hx. apply eqb_prop. apply (forall_range (λ x, eqb (bit sb_ex cont_t x) (x <? 36)) 0 100); [|lia]. by vm_compute.
Qed.
(** A file of at most one block. *)
Lemma file_one c ip a : i_addrs ip 0 = a → (∀ k, 1 ≤ k < 1 + 12 → i_addrs ip k =? 0 = true) → 34 ≤ a < 100 → bit sb_ex c a = true →
  0 ≤ i_size ip ≤ BSIZE → file_ok sb_ex ds_ex c ip.
Proof.
  intros Ha H0 Hr Hb Hsz. assert (Hi : indirect ip = 0) by (apply Z.eqb_eq, H0; unfold NDIRECT; lia).
  assert (Hs : ∀ k, fblock k → slot c ip k = if k =? 0 then a else 0).
  { intros k Hk. unfold slot, fblock, NDIRECT in *. rewrite Hi. destruct (Z.eqb_spec k 0) as [->|]; [done|].
    destruct (Z.ltb_spec k 12); [apply Z.eqb_eq, H0; lia|done]. }
  split.
  - intros x [Hx [E|(k&Hk&E)]]; [congruence|]. rewrite Hs in E by done. destruct (k =? 0); [|done]. subst x. unfold ds_ex. cbn. split; [lia|done || (split; [lia|done])].
  - intros k k' Hk Hk'. rewrite !Hs by done. destruct (Z.eqb_spec k 0), (Z.eqb_spec k' 0); try done; lia.
  - intros k Hk. rewrite Hs, Hi by done. done.
  - intros k Hk Hlt. assert (k = 0) as -> by (unfold BSIZE in *; lia). rewrite Hs by done. cbn. lia.
  - change (MAXFILE * BSIZE) with 71680. unfold BSIZE in *. lia.
Qed.
Lemma in_use_t n : in_use sb_ex cont_t n → n = 1 ∨ n = 2.
Proof.
  intros [Hn Ht]. cbn in Hn.
  assert (H : (i_type (dino sb_ex cont_t n) =? 0) || (n =? 1) || (n =? 2) = true)
    by (apply (forall_range (λ n, (i_type (dino sb_ex cont_t n) =? 0) || (n =? 1) || (n =? 2)) 0 8); [by vm_compute|lia]).
  apply Z.eqb_neq in Ht. rewrite Ht in H. cbn in H. apply orb_prop in H as [H%Z.eqb_eq|H%Z.eqb_eq]; auto.
Qed.
Lemma tree_ok_t : tree_ok sb_ex ds_ex cont_t.
Proof.
  split.
  - by vm_compute.
  - intros n [-> | ->]%in_use_t.
    + apply (file_one _ _ 35); [by vm_compute|apply forall_range; by vm_compute|lia|by vm_compute|by vm_compute].
    + apply (file_one _ _ 34); [by vm_compute|apply forall_range; by vm_compute|lia|by vm_compute|by vm_compute].
  - intros n [-> | ->]%in_use_t; by vm_compute.
  - intros n [-> | ->]%in_use_t; by vm_compute.
  - intros n j [-> | ->]%in_use_t; [|intros Hd; exfalso; by vm_compute in Hd]. intros _ Hj. change (nents (dino sb_ex cont_t 1)) with 2 in Hj.
    assert (j = 0 ∨ j = 1) as [->| ->] by lia; by vm_compute.
Qed.
Lemma icache_ok_t : icache_ok (icache fs_t).
Proof.
  assert (H : ∀ i, icache fs_t i = if decide (i = 0%nat) then node_ex 1 0 0 0 else set_i_ref 0 (node_ex 0 0 0 0))
    by (intros i; cbn; unfold insert, fn_insert; by repeat case_decide; congruence).
  split; [intros i _; rewrite H; by case_decide|]. intros i j d n _ _. rewrite !H. repeat case_decide; unfold used_for; cbn; lia || congruence.
Qed.
Lemma fs_at_t : fs_at sb_ex ds_ex view_t refs_t nolock fs_t.
Proof.
  split; [split| | | | | |]; try done.
  - by apply layout_gen_ex.
  - split; [by vm_compute|]. intros b Hb. unfold ds_ex in Hb. cbn [j_cont view_t]. rewrite bits_t by lia. apply Z.ltb_lt. lia.
  - unfold j_room. cbn. rewrite union_empty_l_L, size_empty. lia.
  - apply tree_ok_t.
  - apply icache_ok_t.
  - intros i Hi. destruct i as [|i]; [|done]. split; [unfold NINODE; lia|]. split; [done|]. split; [by vm_compute|done].
  - intros i. by destruct i.
Qed.
Lemma two_free_t : two_free refs_t.
Proof. exists 1%nat, 2%nat. unfold NINODE. split_and!; lia || done. Qed.

Lemma namei_correct_witness :
  wp (namei (λ _, None) 0 [slash; 46; slash; slash; 97]) fs_t (λ o s', ∃ i, o = Some i ∧ i_inum (icache s' i) = 2) ∧
  wp (nameiparent (λ _, None) 0 [97; slash; 98]) fs_t (λ o _, o = None).
Proof.
  split.
  - destruct (namei_correct sb_ex ds_ex (λ _, None) view_t refs_t fs_t 0 [slash; 46; slash; slash; 97] two_free_t) as [H _];
      [intros i; unfold refs_t; by case_decide|apply fs_at_t|done|].
    eapply wp_mono; [|exact H]. intros o s' [_ Ho].
    assert (E : walk sb_ex (j_cont view_t) (path_start 0 [slash; 46; slash; slash; 97] fs_t) (names [slash; 46; slash; slash; 97]) = Some 2) by (clear; by vm_compute).
    rewrite E in Ho. destruct Ho as (i&->&_&Hi). exists i. split; [reflexivity|exact Hi].
  - destruct (namei_correct sb_ex ds_ex (λ _, None) view_t refs_t fs_t 0 [97; slash; 98] two_free_t) as [_ H];
      [intros i; unfold refs_t; by case_decide|apply fs_at_t|done|].
    eapply wp_mono; [|exact H]. intros o s' [_ Ho].
    assert (E : walk_parent sb_ex (j_cont view_t) (path_start 0 [97; slash; 98] fs_t) (names [97; slash; 98]) = None) by (clear; by vm_compute).
    rewrite E in Ho. destruct Ho as [-> _]. reflexivity.
Defined.
