(* ===== verification/Sysfile.v ===== *)
(** System calls on paths and files (src/sysfile.c) and the input and output of open
    files (fileread, filewrite and filestat of src/file.c), on the file system of Fs.v.

    A call is given the strings and numbers that argstr and argint have fetched ([None]
    when argstr refuses them), and works for one process: the state has its current
    directory and the number of operations it has open between begin_op() and
    end_op().  What the log does in these is a parameter. *)

From Stdlib Require Import ZArith Lia.
From stdpp Require Import base tactics numbers gmap strings functions list.
From S2P Require Import Prelude Memory Kstring Monitor Sleeplock Buf Log Journal Fs File.

#[local] Open Scope Z_scope.

Definition O_RDONLY : Z := 0.
Definition O_CREATE : Z := 512.
Definition dot : list Z := [46].
Definition dotdot : list Z := [46; 46].

Definition set_i_major m ip := {| i_dev := i_dev ip; i_inum := i_inum ip; i_ref := i_ref ip; i_lock := i_lock ip;
  i_valid := i_valid ip; i_type := i_type ip; i_major := m; i_minor := i_minor ip;
  i_nlink := i_nlink ip; i_size := i_size ip; i_addrs := i_addrs ip |}.
Definition set_i_minor m ip := {| i_dev := i_dev ip; i_inum := i_inum ip; i_ref := i_ref ip; i_lock := i_lock ip;
  i_valid := i_valid ip; i_type := i_type ip; i_major := i_major ip; i_minor := m;
  i_nlink := i_nlink ip; i_size := i_size ip; i_addrs := i_addrs ip |}.

Section sysfile.
Context {S : Type} `{!Blocks S}.
Context (dev_read : Z → option (nat → Z → K (@fsst S) (Z * list Z))).
Context (dev_write : Z → option (nat → list Z → K (@fsst S) Z)).
Context (log_begin log_end : K S unit).

Record sysst := { sf : @fsst S; nop : Z; cwd : nat }.
Definition on_fs {A} (m : K fsst A) : K sysst A := zoom sf (λ f s, {| sf := f; nop := nop s; cwd := cwd s |}) m.
Definition set_nop (n : Z) (s : sysst) : sysst := {| sf := sf s; nop := n; cwd := cwd s |}.
Definition set_cwd (i : nat) (s : sysst) : sysst := {| sf := sf s; nop := nop s; cwd := i |}.

Definition begin_op : K sysst unit := on_fs (on_blk log_begin) ≫= λ _, modify (λ s, set_nop (nop s + 1) s).
Definition end_op : K sysst unit := modify (λ s, set_nop (nop s - 1) s) ≫= λ _, on_fs (on_blk log_end).
(** end_op(); return x; *)
Definition end_with {A} (x : A) : K sysst A := end_op ≫= λ _, mret x.

Abbreviation ino i := (gets (λ s, icache s i)).
Abbreviation lookup_path path := (gets cwd ≫= λ c, on_fs (namei dev_read c path)).
Abbreviation lookup_parent path := (gets cwd ≫= λ c, on_fs (nameiparent dev_read c path)).

(** ** link and unlink *)

Definition add_nlink (i : nat) (d : Z) : K (@fsst S) unit :=
  modify (upd_inode i (λ ip, set_i_nlink (s16 (i_nlink ip + d)) ip)) ≫= λ _, iupdate i.

Definition sys_link (old new : option (list Z)) : K sysst Z :=
  match old, new with
  | Some old, Some new =>
      begin_op ≫= λ _,
      lookup_path old ≫= λ o,
      match o with
      | None => end_with (-1)
      | Some ip =>
          on_fs (ilock ip) ≫= λ _,
          on_fs (ino ip) ≫= λ x,
          if i_type x =? T_DIR then on_fs (iunlockput ip) ≫= λ _, end_with (-1) else
          on_fs (add_nlink ip 1) ≫= λ _,
          on_fs (iunlock ip) ≫= λ _,
          let bad :=
            on_fs (ilock ip) ≫= λ _,
            on_fs (add_nlink ip (-1)) ≫= λ _,
            on_fs (iunlockput ip) ≫= λ _,
            end_with (-1) in
          lookup_parent new ≫= λ o,
          match o with
          | None => bad
          | Some (dp, name) =>
              on_fs (ilock dp) ≫= λ _,
              on_fs (ino dp) ≫= λ y,
              on_fs (ino ip) ≫= λ x,
              (if negb (i_dev y =? i_dev x) then mret (-1) else on_fs (dirlink dev_read dev_write dp name (i_inum x))) ≫= λ r,
              if r <? 0 then on_fs (iunlockput dp) ≫= λ _, bad else
              on_fs (iunlockput dp) ≫= λ _,
              on_fs (iput ip) ≫= λ _,
              end_with 0
          end
      end
  | _, _ => mret (-1)
  end.

(** The entries after the first two. *)
Definition isdirempty (dp : nat) : K (@fsst S) bool :=
  ino dp ≫= λ ip,
  upto (upto_fuel (2 * DIRENT) (i_size ip) DIRENT) (2 * DIRENT) (i_size ip) DIRENT (λ off,
    readi dev_read dp off DIRENT ≫= λ '(r, de),
    if negb (r =? DIRENT) then panic "isdirempty: readi" else
    mret (if truth (de_inum de) then Some tt else None)) ≫= λ o,
  mret (match o with Some _ => false | None => true end).

Definition sys_unlink (path : option (list Z)) : K sysst Z :=
  match path with
  | None => mret (-1)
  | Some path =>
      begin_op ≫= λ _,
      lookup_parent path ≫= λ o,
      match o with
      | None => end_with (-1)
      | Some (dp, name) =>
          on_fs (ilock dp) ≫= λ _,
          let bad := on_fs (iunlockput dp) ≫= λ _, end_with (-1) in
          if (namecmp name dot =? 0) || (namecmp name dotdot =? 0) then bad else
          on_fs (dirlookup dev_read dp name) ≫= λ o,
          match o with
          | None => bad
          | Some (ip, off) =>
              on_fs (ilock ip) ≫= λ _,
              on_fs (ino ip) ≫= λ x,
              if i_nlink x <? 1 then panic "unlink: nlink < 1" else
              (if i_type x =? T_DIR then on_fs (isdirempty ip) ≫= λ e, mret (negb e) else mret false) ≫= λ full,
              if full : bool then on_fs (iunlockput ip) ≫= λ _, bad else
              on_fs (writei dev_write dp (replicate (Z.to_nat DIRENT) 0) off DIRENT) ≫= λ r,
              if negb (r =? DIRENT) then panic "unlink: writei" else
              when (i_type x =? T_DIR) (on_fs (add_nlink dp (-1))) ≫= λ _,
              on_fs (iunlockput dp) ≫= λ _,
              on_fs (add_nlink ip (-1)) ≫= λ _,
              on_fs (iunlockput ip) ≫= λ _,
              end_with 0
          end
      end
  end.

(** ** create and the calls that use it *)

Definition create (path : list Z) (type major minor : Z) : K sysst (option nat) :=
  lookup_parent path ≫= λ o,
  match o with
  | None => mret None
  | Some (dp, name) =>
      on_fs (ilock dp) ≫= λ _,
      on_fs (dirlookup dev_read dp name) ≫= λ o,
      match o with
      | Some (ip, _) =>
          on_fs (iunlockput dp) ≫= λ _,
          on_fs (ilock ip) ≫= λ _,
          on_fs (ino ip) ≫= λ x,
          if (type =? T_FILE) && (i_type x =? T_FILE) then mret (Some ip) else
          on_fs (iunlockput ip) ≫= λ _, mret None
      | None =>
          on_fs (ino dp) ≫= λ y,
          on_fs (ialloc (i_dev y) type) ≫= λ ip,
          on_fs (ilock ip) ≫= λ _,
          on_fs (modify (upd_inode ip (λ x, set_i_nlink 1 (set_i_minor minor (set_i_major major x))))) ≫= λ _,
          on_fs (iupdate ip) ≫= λ _,
          when (type =? T_DIR)
            (on_fs (add_nlink dp 1) ≫= λ _,
             on_fs (ino ip) ≫= λ x,
             on_fs (dirlink dev_read dev_write ip dot (i_inum x)) ≫= λ r,
             if r <? 0 then panic "create dots" else
             on_fs (ino dp) ≫= λ y,
             on_fs (dirlink dev_read dev_write ip dotdot (i_inum y)) ≫= λ r,
             if r <? 0 then panic "create dots" else mret tt) ≫= λ _,
          on_fs (ino ip) ≫= λ x,
          on_fs (dirlink dev_read dev_write dp name (i_inum x)) ≫= λ r,
          if r <? 0 then panic "create: dirlink" else
          on_fs (iunlockput dp) ≫= λ _,
          mret (Some ip)
      end
  end.

(** The part of sys_open before filealloc: the inode, locked, in an operation. *)
Definition open_inode (path : list Z) (omode : Z) : K sysst (option nat) :=
  begin_op ≫= λ _,
  if truth (Z.land omode O_CREATE) then
    create path T_FILE 0 0 ≫= λ o,
    match o with None => end_with None | Some ip => mret (Some ip) end
  else
    lookup_path path ≫= λ o,
    match o with
    | None => end_with None
    | Some ip =>
        on_fs (ilock ip) ≫= λ _,
        on_fs (ino ip) ≫= λ x,
        if (i_type x =? T_DIR) && negb (omode =? O_RDONLY) then on_fs (iunlockput ip) ≫= λ _, end_with None
        else mret (Some ip)
    end.
(** [fd]: what filealloc and fdalloc (File.v) give; the inode goes into the file. *)
Definition sys_open (path : option (list Z)) (omode : Z) (fd : option nat) : K sysst (option (nat * nat)) :=
  match path with
  | None => mret None
  | Some path =>
      open_inode path omode ≫= λ o,
      match o with
      | None => mret None
      | Some ip =>
          match fd with
          | None => on_fs (iunlockput ip) ≫= λ _, end_with None
          | Some fd => on_fs (iunlock ip) ≫= λ _, end_with (Some (fd, ip))
          end
      end
  end.

(** sys_mkdir and sys_mknod: create, and let go of the inode. *)
Definition sys_make (path : option (list Z)) (type major minor : Z) : K sysst Z :=
  begin_op ≫= λ _,
  match path with
  | None => end_with (-1)
  | Some path =>
      create path type major minor ≫= λ o,
      match o with
      | None => end_with (-1)
      | Some ip => on_fs (iunlockput ip) ≫= λ _, end_with 0
      end
  end.
Definition sys_mkdir (path : option (list Z)) : K sysst Z := sys_make path T_DIR 0 0.
Definition sys_mknod (path : option (list Z)) (major minor : Z) : K sysst Z := sys_make path T_DEV (s16 major) (s16 minor).

Definition sys_chdir (path : option (list Z)) : K sysst Z :=
  begin_op ≫= λ _,
  match path with
  | None => end_with (-1)
  | Some path =>
      lookup_path path ≫= λ o,
      match o with
      | None => end_with (-1)
      | Some ip =>
          on_fs (ilock ip) ≫= λ _,
          on_fs (ino ip) ≫= λ x,
          if negb (i_type x =? T_DIR) then on_fs (iunlockput ip) ≫= λ _, end_with (-1) else
          on_fs (iunlock ip) ≫= λ _,
          gets cwd ≫= λ c,
          on_fs (iput c) ≫= λ _,
          end_op ≫= λ _,
          modify (set_cwd ip) ≫= λ _,
          mret 0
      end
  end.

(** ** Reading and writing open files *)

Definition set_off (o : Z) (f : file) : file :=
  {| f_type := f_type f; f_ref := f_ref f; f_readable := f_readable f; f_writable := f_writable f; f_pipe := f_pipe f; f_ip := f_ip f; f_off := o |}.
(** f->off += r, when r > 0. *)
Definition move_off (r : Z) (f : file) : file := if 0 <? r then set_off (u32 (f_off f + r)) f else f.

(** What piperead and pipewrite (Pipe.v) do for the pipe of a file. *)
Context (piperead : nat → Z → K sysst (Z * list Z)) (pipewrite : nat → list Z → K sysst Z).

Definition filestat (f : file) : K sysst (option stat) :=
  match f_type f with
  | FD_INODE =>
      on_fs (ilock (f_ip f)) ≫= λ _,
      on_fs (stati (f_ip f)) ≫= λ st,
      on_fs (iunlock (f_ip f)) ≫= λ _, mret (Some st)
  | _ => mret None
  end.

(** The result comes with the bytes read and the file as it is then. *)
Definition fileread (f : file) (n : Z) : K sysst (Z * list Z * file) :=
  if negb (f_readable f) then mret (-1, [], f) else
  match f_type f with
  | FD_PIPE => piperead (f_pipe f) n ≫= λ '(r, l), mret (r, l, f)
  | FD_INODE =>
      on_fs (ilock (f_ip f)) ≫= λ _,
      on_fs (readi dev_read (f_ip f) (f_off f) n) ≫= λ '(r, l),
      on_fs (iunlock (f_ip f)) ≫= λ _,
      mret (r, l, move_off r f)
  | FD_NONE => panic "fileread"
  end.

Definition write_max : Z := (LOGSIZE - 1 - 1 - 2) / 2 * 512.

(** The loop of filewrite for the rest [src] of the bytes. *)
Fixpoint filewrite_loop (fuel : nat) (f : file) (src : list Z) (i n : Z) : K sysst (Z * file) :=
  if i <? n then
    match fuel with
    | O => diverge
    | Datatypes.S fuel' =>
        let n1 := if write_max <? n - i then write_max else n - i in
        begin_op ≫= λ _,
        on_fs (ilock (f_ip f)) ≫= λ _,
        on_fs (writei dev_write (f_ip f) (take (Z.to_nat n1) src) (f_off f) n1) ≫= λ r,
        let f := move_off r f in
        on_fs (iunlock (f_ip f)) ≫= λ _,
        end_op ≫= λ _,
        if r <? 0 then mret (i, f) else
        if negb (r =? n1) then panic "short filewrite" else
        filewrite_loop fuel' f (drop (Z.to_nat n1) src) (i + r) n
    end
  else mret (i, f).

Definition filewrite (f : file) (src : list Z) (n : Z) : K sysst (Z * file) :=
  if negb (f_writable f) then mret (-1, f) else
  match f_type f with
  | FD_PIPE => pipewrite (f_pipe f) src ≫= λ r, mret (r, f)
  | FD_INODE => filewrite_loop (Z.to_nat n) f src 0 n ≫= λ '(i, f), mret (if i =? n then n else -1, f)
  | FD_NONE => panic "filewrite"
  end.
End sysfile.
