(* ===== verification/Sysprops.v ===== *)
(** What the system calls of Sysfile.v do to references, locks and operations: on every
    path they give back what they have taken. *)

From Stdlib Require Import ZArith Lia.
From stdpp Require Import base tactics numbers gmap strings functions list.
From S2P Require Import Prelude Memory Kstring Monitor Sleeplock Buf Log Journal Fs Fsdir Fsexample File Inoderef Sysfile.

#[local] Open Scope Z_scope.

Section props.
Context {S : Type} `{!Blocks S}.
Context (dev_read : Z → option (nat → Z → K (@fsst S) (Z * list Z))).
Context (dev_write : Z → option (nat → list Z → K (@fsst S) Z)).
Context (log_begin log_end : K S unit).
Context (read_keeps : ∀ m f i n, dev_read m = Some f → keeps (f i n)).
Context (write_keeps : ∀ m f i l, dev_write m = Some f → keeps (f i l)).

(** Counts [r], locks [k], [n] operations open, current directory [c]. *)
Definition sbal (r : nat → Z) (k : nat → bool) (n : Z) (c : nat) (s : @sysst S) : Prop :=
  bal r k (sf s) ∧ nop s = n ∧ cwd s = c.

Lemma wlp_on_fs {A} (m : K fsst A) r k n c s (Q : A → fsst → Prop) (R : A → sysst → Prop) :
  sbal r k n c s → wlp m (sf s) Q → (∀ a f, Q a f → R a {| sf := f; nop := n; cwd := c |}) → wlp (on_fs m) s R.
Proof.
  intros (_&<-&<-) Hm HR. unfold wlp, on_fs, zoom in *. destruct (m (sf s)); try done. by apply HR.
Qed.

(** A routine that leaves counts and locks alone. *)
Lemma fs_keeps {A} (m : K fsst A) r k n c s (R : A → sysst → Prop) :
  keeps m → sbal r k n c s → (∀ a s', sbal r k n c s' → R a s') → wlp (on_fs m) s R.
Proof.
  intros Hm Hs HR. eapply (wlp_on_fs m r k n c s (λ _ f, bal r k f)); [done| |].
  - eapply keeps_bal; [done|apply Hs|done].
  - intros a f Hf. by apply HR.
Qed.
Lemma fs_ilock i r k n c s (R : unit → sysst → Prop) :
  sbal r k n c s → (∀ a s', k i = false → sbal r (lk i k) n c s' → R a s') → wlp (on_fs (ilock i)) s R.
Proof. intros Hs HR. eapply wlp_on_fs; [done|apply ilock_bal, Hs|]. intros a f [Hk Hf]. by apply HR. Qed.
Lemma fs_iunlock i r k n c s (R : unit → sysst → Prop) :
  sbal r k n c s → (∀ a s', sbal r (unlk i k) n c s' → R a s') → wlp (on_fs (iunlock i)) s R.
Proof. intros Hs HR. eapply wlp_on_fs; [done|apply iunlock_bal, Hs|]. intros a f [Hk Hf]. by apply HR. Qed.
Lemma fs_iput i r k n c s (R : unit → sysst → Prop) :
  sbal r k n c s → (∀ a s', sbal (dec i r) k n c s' → R a s') → wlp (on_fs (iput i)) s R.
Proof. intros Hs HR. eapply wlp_on_fs; [done|apply iput_bal, Hs|]. intros a f [Hk Hf]. by apply HR. Qed.
Lemma fs_iunlockput i r k n c s (R : unit → sysst → Prop) :
  sbal r k n c s → (∀ a s', sbal (dec i r) (unlk i k) n c s' → R a s') → wlp (on_fs (iunlockput i)) s R.
Proof. intros Hs HR. eapply wlp_on_fs; [done|apply iunlockput_bal, Hs|]. intros a f [Hk Hf]. by apply HR. Qed.
Lemma fs_ialloc d t r k n c s (R : nat → sysst → Prop) :
  sbal r k n c s → (∀ i s', sbal (inc i r) k n c s' → R i s') → wlp (on_fs (ialloc d t)) s R.
Proof. intros Hs HR. eapply wlp_on_fs; [done|apply ialloc_bal, Hs|]. intros i f Hf. by apply HR. Qed.
Lemma fs_dirlink dp name inum r k n c s (R : Z → sysst → Prop) :
  sbal r k n c s → (∀ a s', sbal r k n c s' → R a s') → wlp (on_fs (dirlink dev_read dev_write dp name inum)) s R.
Proof. intros Hs HR. eapply wlp_on_fs; [done|apply dirlink_bal; [done|done|apply Hs]|]. intros a f Hf. by apply HR. Qed.
Lemma fs_dirlookup dp name r k n c s (R : option (nat * Z) → sysst → Prop) :
  sbal r k n c s → (∀ i off s', sbal (inc i r) k n c s' → R (Some (i, off)) s') → (∀ s', sbal r k n c s' → R None s') →
  wlp (on_fs (dirlookup dev_read dp name)) s R.
Proof.
  intros Hs H1 H2. eapply wlp_on_fs; [done|apply dirlookup_bal; [done|apply Hs]|]. intros [[i off]|] f Hf; [by apply H1|by apply H2].
Qed.
Lemma fs_parent path r k n c s (R : option (nat * list Z) → sysst → Prop) :
  sbal r k n c s → (∀ i name s', sbal (inc i r) k n c s' → R (Some (i, name)) s') → (∀ s', sbal r k n c s' → R None s') →
  wlp (gets cwd ≫= λ c, on_fs (nameiparent dev_read c path)) s R.
Proof.
  intros Hs H1 H2. apply wlp_bind, wlp_ret. eapply wlp_on_fs; [done|apply namex_bal; [done|apply Hs]|].
  intros [[i name]|] f Hf; [by apply H1|by apply H2].
Qed.
Lemma fs_path path r k n c s (R : option nat → sysst → Prop) :
  sbal r k n c s → (∀ i s', sbal (inc i r) k n c s' → R (Some i) s') → (∀ s', sbal r k n c s' → R None s') →
  wlp (gets cwd ≫= λ c, on_fs (namei dev_read c path)) s R.
Proof.
  intros Hs H1 H2. apply wlp_bind, wlp_ret. eapply (wlp_on_fs _ _ _ _ _ _ (found r k)); [done| |].
  - unfold namei. apply wlp_bind. eapply wlp_mono; [|apply namex_bal; [done|apply Hs]]. intros o f Hf. done.
  - intros [i|] f Hf; [by apply H1|by apply H2].
Qed.
Lemma begin_bal r k n c s (R : unit → sysst → Prop) :
  sbal r k n c s → (∀ a s', sbal r k (n + 1) c s' → R a s') → wlp (begin_op log_begin) s R.
Proof.
  intros Hs HR. unfold begin_op. apply wlp_bind. eapply fs_keeps; [apply keeps_blk|done|]. intros a s' (H1&H2&H3).
  unfold modify. apply HR. split; [done|]. simpl. split; [by rewrite H2|done].
Qed.
Lemma end_bal r k n c s (R : unit → sysst → Prop) :
  sbal r k n c s → (∀ a s', sbal r k (n - 1) c s' → R a s') → wlp (end_op log_end) s R.
Proof.
  intros (H1&H2&H3) HR. unfold end_op. apply wlp_bind. unfold modify.
  eapply (fs_keeps _ r k (n - 1) c); [apply keeps_blk|split; [done|]; simpl; split; [by rewrite H2|done]|done].
Qed.
Lemma sbal_ext r k n c r' k' n' s : (∀ i, r i = r' i) → (∀ i, k i = k' i) → n = n' → sbal r k n c s → sbal r' k' n' c s.
Proof. intros Hr Hk <- (H1&H2&H3). split; [by eapply bal_ext|done]. Qed.
Lemma end_with_bal {A} (x : A) r k n c s (R : A → sysst → Prop) :
  sbal r k n c s → (∀ s', sbal r k (n - 1) c s' → R x s') → wlp (end_with log_end x) s R.
Proof. intros Hs HR. unfold end_with. apply wlp_bind. eapply end_bal; [done|]. intros ? s' H. by apply HR. Qed.

(** The counts and locks that are left are those of the beginning. *)
Ltac balanced :=
  cbv beta in *;
  match goal with
  | B : sbal _ _ _ _ ?s |- sbal _ _ _ _ ?s =>
      eapply sbal_ext; [..|exact B];
      [ intros ?; unfold inc, dec; repeat case_decide; lia
      | intros ?; unfold lk, unlk in *; repeat case_decide; subst; congruence
      | lia ]
  end.
(** One statement of a call. *)
Ltac call1 :=
  first
    [ eapply begin_bal; [eassumption|]; intros ? ?s ?B
    | eapply fs_ilock; [eassumption|]; intros ? ?s ?L ?B
    | eapply fs_iunlock; [eassumption|]; intros ? ?s ?B
    | eapply fs_iunlockput; [eassumption|]; intros ? ?s ?B
    | eapply fs_iput; [eassumption|]; intros ? ?s ?B
    | eapply fs_ialloc; [eassumption|]; intros ?i ?s ?B
    | eapply fs_dirlink; [eassumption|]; intros ?r ?s ?B
    | eapply fs_dirlookup; [eassumption|intros ?i ?off ?s ?B|intros ?s ?B]
    | eapply fs_keeps; [first [by eauto with keep nocore|by apply keeps_inode]|eassumption|]; intros ?a ?s ?B ].
Ltac call := apply wlp_bind; call1.
Ltac finish := eapply end_with_bal; [eassumption|]; intros ?s ?B; balanced.

Lemma keeps_add_nlink i d : keeps (S := S) (add_nlink i d).
Proof. unfold add_nlink. apply keeps_bind; [apply keeps_inode; done|]. intros. apply keeps_iupdate. Qed.
Lemma keeps_isdirempty dp : keeps (isdirempty dev_read dp).
Proof. pose proof (keeps_readi dev_read read_keeps). unfold isdirempty. keeping. Qed.
Lemma keeps_write dp l off n : keeps (writei dev_write dp l off n).
Proof. by apply keeps_writei. Qed.
Lemma keeps_update i : keeps (S := S) (iupdate i).
Proof. apply keeps_iupdate. Qed.
#[local] Hint Resolve keeps_add_nlink keeps_isdirempty keeps_write keeps_update : keep.

Lemma link_bal old new r k n c s : sbal r k n c s → wlp (sys_link dev_read dev_write log_begin log_end old new) s (λ _ s', sbal r k n c s').
Proof.
  intros B. unfold sys_link. destruct old as [old|]; [|done]. destruct new as [new|]; [|done]. call. apply wlp_bind.
  eapply fs_path; [eassumption|intros i u1 U1|intros u1 U1; finish]. call. call. case_match; [call; finish|]. call. call.
  assert (Hbad : ∀ s, sbal (inc i r) k (n + 1) c s →
    wlp (on_fs (ilock i) ≫= λ _, on_fs (add_nlink i (-1)) ≫= λ _, on_fs (iunlockput i) ≫= λ _, end_with log_end (-1)) s (λ _ s', sbal r k n c s')).
  { intros s' B'. call. call. call. finish. }
  apply wlp_bind. eapply fs_parent; [eassumption|intros dp name u2 U2|intros u2 U2; apply Hbad; balanced]. call. call. call.
  apply wlp_bind. eapply (wlp_mono _ _ (λ _ s', sbal (inc dp (inc i r)) (lk dp k) (n + 1) c s')).
  - intros x s' B'. case_match; [call; apply Hbad; balanced|call; call; finish].
  - case_match; [apply wlp_ret; balanced|call1; balanced].
Qed.

Lemma unlink_bal path r k n c s : sbal r k n c s → wlp (sys_unlink dev_read dev_write log_begin log_end path) s (λ _ s', sbal r k n c s').
Proof.
  intros B. unfold sys_unlink. destruct path as [path|]; [|done]. call. apply wlp_bind.
  eapply fs_parent; [eassumption|intros dp name u1 U1|intros u1 U1; finish]. call. case_match; [call; finish|].
  call; [|call; finish]. call. call. case_match; [done|].
  apply wlp_bind. eapply (wlp_mono _ _ (λ _ s', sbal (inc i (inc dp r)) (lk i (lk dp k)) (n + 1) c s')).
  - intros full s' B'. destruct full; [call; call; finish|]. call. case_match; [done|].
    apply wlp_bind. eapply (wlp_mono _ _ (λ _ s', sbal (inc i (inc dp r)) (lk i (lk dp k)) (n + 1) c s')).
    + intros ? s'' B''. call. call. call. finish.
    + destruct (_ =? T_DIR); cbn [when]; [call1; balanced|apply wlp_ret; balanced].
  - case_match; [call; apply wlp_ret; balanced|apply wlp_ret; balanced].
Qed.

(** create returns an inode that it has locked. *)
Definition created (r : nat → Z) (k : nat → bool) (n : Z) (c : nat) (o : option nat) (s : @sysst S) : Prop :=
  match o with Some i => k i = false ∧ sbal (inc i r) (lk i k) n c s | None => sbal r k n c s end.
Lemma create_bal path type major minor r k n c s :
  sbal r k n c s → wlp (create dev_read dev_write path type major minor) s (created r k n c).
Proof.
  intros B. unfold create. apply wlp_bind. eapply fs_parent; [eassumption|intros dp name u1 U1|done]. call. call.
  - call. call. call. case_match; [|call; apply wlp_ret; cbn [created]; balanced]. apply wlp_ret. split; [unfold lk, unlk in *; repeat case_decide; subst; congruence|balanced].
  - call. call. call. call. call. apply wlp_bind.
    eapply (wlp_mono _ _ (λ _ s', sbal (inc i (inc dp r)) (lk i (lk dp k)) n c s')).
    + intros ? s' B'. call. call. case_match; [done|]. call. apply wlp_ret. split; [unfold lk, unlk in *; repeat case_decide; subst; congruence|balanced].
    + destruct (_ =? T_DIR); cbn [when]; [|apply wlp_ret; balanced]. call. call. call. case_match; [done|]. call. call. case_match; [done|]. apply wlp_ret. balanced.
Qed.

Lemma open_inode_bal path omode r k n c s : sbal r k n c s →
  wlp (open_inode dev_read dev_write log_begin log_end path omode) s
    (λ o s', match o with Some i => k i = false ∧ sbal (inc i r) (lk i k) (n + 1) c s' | None => sbal r k n c s' end).
Proof.
  intros B. unfold open_inode. call. case_match.
  - apply wlp_bind. eapply wlp_mono; [|by apply create_bal]. intros [i|] s1 B1; [done|]. cbn [created] in B1. finish.
  - apply wlp_bind. eapply fs_path; [eassumption|intros i u1 U1|intros u1 U1; finish]. call. call. case_match; [call; finish|].
    apply wlp_ret. split; [done|balanced].
Qed.
Lemma open_bal path omode fd r k n c s : sbal r k n c s →
  wlp (sys_open dev_read dev_write log_begin log_end path omode fd) s
    (λ o s', match o with Some (fd', i) => fd = Some fd' ∧ sbal (inc i r) k n c s' | None => sbal r k n c s' end).
Proof.
  intros B. unfold sys_open. destruct path as [path|]; [|done]. apply wlp_bind. eapply wlp_mono; [|by apply open_inode_bal].
  intros [i|] s1 B1; [|done]. destruct B1 as [L1 B1]. destruct fd as [fd|]; call; eapply end_with_bal; try eassumption; intros s2 B2; [split; [done|]|]; balanced.
Qed.
Lemma make_bal path type major minor r k n c s : sbal r k n c s →
  wlp (sys_make dev_read dev_write log_begin log_end path type major minor) s (λ _ s', sbal r k n c s').
Proof.
  intros B. unfold sys_make. call. destruct path as [path|]; [|finish]. apply wlp_bind. eapply wlp_mono; [|by apply create_bal].
  intros [i|] s1 B1; cbn [created] in B1; [|finish]. destruct B1 as [L1 B1]. call. finish.
Qed.
Lemma chdir_bal path r k n c s : sbal r k n c s →
  wlp (sys_chdir dev_read log_begin log_end path) s
    (λ x s', (x = 0 ∧ ∃ c', sbal (dec c (inc c' r)) k n c' s') ∨ (x = -1 ∧ sbal r k n c s')).
Proof.
  intros B. unfold sys_chdir. call. destruct path as [path|]; [|eapply end_with_bal; [eassumption|]; intros s1 B1; right; split; [done|balanced]].
  apply wlp_bind. eapply fs_path; [eassumption|intros i u1 U1|intros u1 U1; eapply end_with_bal; [eassumption|]; intros s1 B1; right; split; [done|balanced]].
  call. call. case_match; [call; eapply end_with_bal; [eassumption|]; intros u2 U2; right; split; [done|balanced]|]. call.
  apply wlp_bind, wlp_ret. match goal with B : sbal _ _ _ _ ?s |- wlp _ ?s _ => rewrite (proj2 (proj2 B)) end. call. apply wlp_bind.
  eapply end_bal; [eassumption|]. intros ? u2 U2. left. split; [done|]. exists i. destruct U2 as (U2&U3&U4). split; [|split; [simpl; lia|done]].
  eapply bal_ext; [..|exact U2]; [done|]. intros j. unfold unlk, lk in *. repeat case_decide; subst; congruence.
Qed.

(** ** Open files *)

Context (piperead : nat → Z → K (@sysst S) (Z * list Z)) (pipewrite : nat → list Z → K (@sysst S) Z).
Context (piperead_keeps : ∀ p m r k n c s, sbal r k n c s → wlp (piperead p m) s (λ _ s', sbal r k n c s')).
Context (pipewrite_keeps : ∀ p l r k n c s, sbal r k n c s → wlp (pipewrite p l) s (λ _ s', sbal r k n c s')).

Lemma filestat_bal f r k n c s : sbal r k n c s → wlp (filestat (S := S) f) s (λ _ s', sbal r k n c s').
Proof. intros B. unfold filestat. destruct (f_type f); try done. call. apply wlp_bind. eapply fs_keeps; [keeping|eassumption|]. intros. call. apply wlp_ret. balanced. Qed.
Lemma move_off_off x f : f_off (move_off x f) = if 0 <? x then u32 (f_off f + x) else f_off f.
Proof. unfold move_off. by case_match. Qed.
Lemma move_off_ip x f : f_ip (move_off x f) = f_ip f.
Proof. unfold move_off. by case_match. Qed.
Lemma fileread_bal f m r k n c s : sbal r k n c s →
  wlp (fileread dev_read piperead f m) s (λ '(x, _, f') s', sbal r k n c s' ∧ (f_off f' = f_off f ∨ f_off f' = u32 (f_off f + x))).
Proof.
  intros B. unfold fileread. case_match; [split; [done|by left]|]. destruct (f_type f); [done|..].
  - apply wlp_bind. eapply wlp_mono; [|by apply piperead_keeps]. intros [x l] s1 B1. split; [done|by left].
  - call. apply wlp_bind. eapply fs_keeps; [by apply keeps_readi|eassumption|]. intros [x l] u1 U1. call. apply wlp_ret.
    split; [balanced|]. rewrite move_off_off. case_match; [by right|by left].
Qed.

(** A write that has been done in full leaves the offset behind the last byte. *)
Lemma filewrite_loop_bal fuel f src i m r k n c s : sbal r k n c s →
  wlp (filewrite_loop dev_write log_begin log_end fuel f src i m) s (λ '(i', f') s', sbal r k n c s' ∧
    (i ≤ i' ∧ f_off f' = (if i <? i' then u32 (f_off f + (i' - i)) else f_off f) ∧ (i ≤ m → i' ≤ m))).
Proof.
  revert f src i s. induction fuel as [|fuel IH]; intros f src i s B; cbn [filewrite_loop]; destruct (Z.ltb_spec i m) as [Hi|Hi]; try done.
  1, 3: split; [done|]; rewrite Z.ltb_irrefl; split_and!; lia || done.
  call. call. call. call. apply wlp_bind. eapply end_bal; [eassumption|]. intros ? u1 U1.
  set (n1 := if write_max <? m - i then write_max else m - i) in *.
  assert (Hn : 0 < n1 ≤ m - i) by (unfold n1; change write_max with 6656; case_match; lia).
  rewrite move_off_ip in *. assert (U2 : sbal r k n c u1) by balanced. case_match.
  - apply wlp_ret. split; [done|]. rewrite Z.ltb_irrefl, move_off_off. rewrite (proj2 (Z.ltb_ge 0 _)) by lia. split_and!; lia || done.
  - case_match; [done|]. assert (a1 = n1) as -> by lia. eapply wlp_mono; [|by apply IH]. intros [i' f'] s' (B'&Hi'&Ho&Hm).
    split; [done|]. rewrite Ho, move_off_off, (proj2 (Z.ltb_lt 0 n1)), (proj2 (Z.ltb_lt i i')) by lia. split; [lia|]. split; [|lia].
    destruct (Z.ltb_spec (i + n1) i'); [unfold u32; zlia|]. replace (i' - i) with n1 by lia. done.
Qed.
Lemma filewrite_bal f src m r k n c s : sbal r k n c s →
  wlp (filewrite dev_write log_begin log_end pipewrite f src m) s
    (λ '(x, f') s', sbal r k n c s' ∧ (f_type f = FD_INODE → (x = -1 ∨ x = m) ∧ (0 < m → x = m → f_off f' = u32 (f_off f + m)))).
Proof.
  intros B. unfold filewrite. case_match; [split; [done|]; intros _; split; [by left|lia]|]. destruct (f_type f); [done|..].
  - apply wlp_bind. eapply wlp_mono; [|by apply pipewrite_keeps]. intros x s1 B1. split; [done|]. done.
  - apply wlp_bind. eapply wlp_mono; [|by apply filewrite_loop_bal]. intros [i f'] s1 (B1&Hi&Ho&_). apply wlp_ret. split; [done|]. intros _.
    destruct (Z.eqb_spec i m) as [->|]; [|split; [by left|lia]]. split; [by right|]. intros Hm _. rewrite Ho, (proj2 (Z.ltb_lt 0 m)) by lia. f_equal. lia.
Qed.
End props.

(** ** A file system with a root directory *)

Definition root_ex : inode := {| i_dev := ROOTDEV; i_inum := 1; i_ref := 0; i_lock := initsleeplock; i_valid := true; i_type := T_DIR;
  i_major := 0; i_minor := 0; i_nlink := 1; i_size := 32; i_addrs := λ k, if k =? 0 then 34 else 0 |}.
Definition free_ex : inode := {| i_dev := 0; i_inum := 0; i_ref := 0; i_lock := initsleeplock; i_valid := false; i_type := 0;
  i_major := 0; i_minor := 0; i_nlink := 0; i_size := 0; i_addrs := λ _, 0 |}.
Definition root_cont : Z → mem :=
  <[1 := super_ex]> (<[32 := store_inode root_ex 64 ∅]> (<[33 := bmap_ex]> (<[34 := wr_bytes ∅ 0 (de_bytes dot 1 ++ de_bytes dotdot 1)]> (λ _, ∅)))).
Definition root_fs : @sysst jview :=
  {| sf := {| blk := {| j_cont := root_cont; j_size := 100; j_res := λ b, 2 ≤ b < 32; j_held := ∅; j_log := ∅; j_mod := ∅ |};
              sb := sb_ex; icache := λ _, free_ex; fs_pid := 3 |}; nop := 0; cwd := 0 |}.
Definition no_read (m : Z) : option (nat → Z → K (@fsst jview) (Z * list Z)) := None.
Definition no_write (m : Z) : option (nat → list Z → K (@fsst jview) Z) := None.
Abbreviation link_ex old new := (sys_link no_read no_write (mret tt) (mret tt) (Some old) (Some new)).
Abbreviation unlink_ex path := (sys_unlink no_read no_write (mret tt) (mret tt) (Some path)).
Abbreviation open_ex path mode := (sys_open no_read no_write (mret tt) (mret tt) (Some path) mode (Some 3%nat)).
Abbreviation mkdir_ex path := (sys_mkdir no_read no_write (mret tt) (mret tt) (Some path)).

(** Create /a, link it to /b, make /d, unlink /a and /d, and open /a and /b. *)
Definition session : K (@sysst jview) (list Z * list bool) :=
  open_ex [47; 97] O_CREATE ≫= λ o1,
  link_ex [47; 97] [47; 98] ≫= λ r2,
  mkdir_ex [47; 100] ≫= λ r3,
  unlink_ex [47; 97] ≫= λ r4,
  unlink_ex [47; 100] ≫= λ r5,
  open_ex [47; 97] O_RDONLY ≫= λ o6,
  open_ex [47; 98] O_RDONLY ≫= λ o7,
  mret ([r2; r3; r4; r5], [bool_decide (is_Some o1); bool_decide (is_Some o6); bool_decide (is_Some o7)]).

Lemma root_bal : sbal (λ _, 0) (λ _, false) 0 0 root_fs.
Proof. split; [|done]. intros i. done. Qed.

(** C11: the system calls on paths and files, on every path through them, errors included,
    give back what they have taken: when one returns, every operation it has begun is
    ended, no inode is locked that was not, and the reference counts are as before, but
    for the inode that open puts into a file and the current directory that chdir
    replaces.  A write returns the number of bytes or -1, and in the first case has moved
    the offset by as much.  One call does not return: dirlink of a name that is there and
    means the directory itself sleeps for the lock of the directory, which its caller
    holds, so link(old, new) with a last element "." in new waits for itself, with the
    directory locked and its operation open. *)
Theorem file_system_calls :
  (∀ (S : Type) (HB : Blocks S) dev_read dev_write (log_begin log_end : K S unit) piperead pipewrite r k n c s,
     (∀ m f i n, dev_read m = Some f → keeps (f i n)) → (∀ m f i l, dev_write m = Some f → keeps (f i l)) →
     (∀ p m r k n c s, sbal r k n c s → wlp (piperead p m) s (λ _ s', sbal r k n c s')) →
     (∀ p l r k n c s, sbal r k n c s → wlp (pipewrite p l) s (λ _ s', sbal r k n c s')) →
     sbal r k n c s →
     (∀ old new, wlp (sys_link dev_read dev_write log_begin log_end old new) s (λ _ s', sbal r k n c s')) ∧
     (∀ path, wlp (sys_unlink dev_read dev_write log_begin log_end path) s (λ _ s', sbal r k n c s')) ∧
     (∀ path omode fd, wlp (sys_open dev_read dev_write log_begin log_end path omode fd) s
        (λ o s', match o with Some (fd', i) => fd = Some fd' ∧ sbal (inc i r) k n c s' | None => sbal r k n c s' end)) ∧
     (∀ path, wlp (sys_mkdir dev_read dev_write log_begin log_end path) s (λ _ s', sbal r k n c s')) ∧
     (∀ path major minor, wlp (sys_mknod dev_read dev_write log_begin log_end path major minor) s (λ _ s', sbal r k n c s')) ∧
     (∀ path, wlp (sys_chdir dev_read log_begin log_end path) s
        (λ x s', (x = 0 ∧ ∃ c', sbal (dec c (inc c' r)) k n c' s') ∨ (x = -1 ∧ sbal r k n c s'))) ∧
     (∀ f, wlp (filestat f) s (λ _ s', sbal r k n c s')) ∧
     (∀ f m, wlp (fileread dev_read piperead f m) s
        (λ '(x, _, f') s', sbal r k n c s' ∧ (f_off f' = f_off f ∨ f_off f' = u32 (f_off f + x)))) ∧
     (∀ f src m, wlp (filewrite dev_write log_begin log_end pipewrite f src m) s
        (λ '(x, f') s', sbal r k n c s' ∧
           (f_type f = FD_INODE → (x = -1 ∨ x = m) ∧ (0 < m → x = m → f_off f' = u32 (f_off f + m)))))) ∧
  (∀ (S : Type) (H : Blocks S) dev_read dev_write dp off name inum (s s1 : @fsst S),
     dirlookup dev_read dp name s = Ret (Some (dp, off)) s1 → held_lock (icache s1 dp) = true →
     ∃ s2, dirlink dev_read dev_write dp name inum s = Sleep (ChSleeplock dp) s2 ∧ same s1 s2) ∧
  (∃ s ip i s', open_ex [47; 97] O_CREATE root_fs = Ret (Some (3%nat, ip)) s ∧
     link_ex [47; 97] [47; 46] s = Sleep (ChSleeplock i) s' ∧
     i_lock (icache (sf s') i) = {| locked := true; pid := fs_pid (sf s') |} ∧ nop s' = 1).
Proof.
  split_and!.
  - intros S HB dev_read dev_write log_begin log_end piperead pipewrite r k n c s H1 H2 H3 H4 B.
    split_and!; intros; first
      [by apply link_bal|by apply unlink_bal|by apply open_bal|by apply make_bal|by apply chdir_bal
      |by apply filestat_bal|by apply fileread_bal|by apply filewrite_bal].
  - intros S H dev_read dev_write dp off name inum s s1 Hl Hk. unfold dirlink, mbind, K_bind. rewrite Hl.
    unfold iput, mbind, K_bind, gets, on_ilock, zoom, acquiresleep, mbind, K_bind, gets, held_lock in *. simpl. rewrite Hk. eexists. split; [done|].
    intros j. simpl. destruct (decide (dp = j)) as [<-|Hj]; [by rewrite fn_lookup_insert|by rewrite fn_lookup_insert_ne].
  - assert (E : match open_ex [47; 97] O_CREATE root_fs with
        | Ret (Some (fd, ip)) s => fd = 3%nat ∧
            match link_ex [47; 97] [47; 46] s with
            | Sleep (ChSleeplock i) s' => i_lock (icache (sf s') i) = {| locked := true; pid := fs_pid (sf s') |} ∧ nop s' = 1
            | _ => False
            end
        | _ => False
        end) by (vm_compute; done).
    destruct (open_ex [47; 97] O_CREATE root_fs) as [[[fd ip]|] s| | | |]; try done. destruct E as [-> E].
    destruct (link_ex [47; 97] [47; 46] s) as [| | |ch s'|] eqn:El; try done. destruct ch as [| | | | |i| | |]; try done.
    exists s, ip, i, s'. done.
Qed.

(** mkdir of /d returns and is balanced; so does the session. *)
Lemma file_system_calls_witness :
  (∃ s', mkdir_ex [47; 100] root_fs = Ret 0 s' ∧ sbal (λ _, 0) (λ _, false) 0 0 s') ∧
  match session root_fs with Ret a _ => a = ([0; 0; 0; 0], [true; false; true]) | _ => False end.
Proof.
  split; [|vm_compute; reflexivity].
  assert (H := proj1 file_system_calls _ _ no_read no_write (mret tt) (mret tt) (λ _ _, mret (0, [])) (λ _ _, mret 0) (λ _, 0) (λ _, false) 0 0%nat root_fs
    ltac:(done) ltac:(done) ltac:(by intros) ltac:(by intros) root_bal).
  destruct H as (_&_&_&H&_). specialize (H (Some [47; 100])). unfold wlp in H.
  assert (E : match mkdir_ex [47; 100] root_fs with Ret a _ => a | _ => -2 end = 0) by (vm_compute; reflexivity).
  destruct (mkdir_ex [47; 100] root_fs) as [a s'| | | |]; try discriminate E. exists s'. rewrite E. done.
Defined.
