(* ===== verification/Ide.v ===== *)
(** The driver of the IDE disk (src/ide.c).

    The disk is not part of the kernel: its ports are the operations of the class
    [Hardware], and what the driver relies on, the PIO protocol of an ATA disk, are the
    laws of the class [Ata].  The driver is the object of a monitor (Monitor.v) whose lock
    is idelock.  Its threads are the processes that call iderw(), the interrupt handler,
    and the disk itself, which finishes the command it is busy with at some point and then
    raises its interrupt.

    The queue of requests is linked through qnext, as in the source; [qrep] relates it to a
    list.  [ide_ok] is the invariant: the disk works for the first request of the queue, or
    has finished it and its interrupt is on its way. *)

From Stdlib Require Import ZArith Lia List.
From stdpp Require Import base tactics numbers gmap strings functions relations list.
From S2P Require Import Prelude Memory Monitor Sleeplock Buf.

#[local] Open Scope Z_scope.

Module Ide.

(** ** The operations *)

(** The ports of the machine; [insl] and [outsl] move a number of 32-bit words. *)
Class Hardware := {
  hw : Type;
  inb : Z → hw → Z * hw;
  outb : Z → Z → hw → hw;
  insl : Z → Z → hw → mem * hw;
  outsl : Z → mem → Z → hw → hw
}.

Definition SECTOR_SIZE : Z := 512.
Definition FSSIZE : Z := 1000.
Definition IDE_BSY : Z := 0x80.
Definition IDE_DRDY : Z := 0x40.
Definition IDE_DF : Z := 0x20.
Definition IDE_ERR : Z := 0x01.
Definition IDE_CMD_READ : Z := 0x20.
Definition IDE_CMD_WRITE : Z := 0x30.
Definition IDE_CMD_RDMUL : Z := 0xc4.
Definition IDE_CMD_WRMUL : Z := 0xc5.

Section ops.
Context `{Hardware}.

(** The driver's variables, the buffers with their field qnext, the machine, and whether
    the interrupt of the disk is pending. *)
Record ide := {
  idequeue : option nat;
  qnext : nat → option nat;
  ibufs : nat → buf;
  havedisk1 : bool;
  dev_hw : hw;
  irq : bool
}.

Definition set_idequeue q o := {| idequeue := q; qnext := qnext o; ibufs := ibufs o;
  havedisk1 := havedisk1 o; dev_hw := dev_hw o; irq := irq o |}.
Definition set_qnext b q o := {| idequeue := idequeue o; qnext := <[b := q]> (qnext o); ibufs := ibufs o;
  havedisk1 := havedisk1 o; dev_hw := dev_hw o; irq := irq o |}.
Definition set_ibuf b x o := {| idequeue := idequeue o; qnext := qnext o; ibufs := <[b := x]> (ibufs o);
  havedisk1 := havedisk1 o; dev_hw := dev_hw o; irq := irq o |}.
Definition set_havedisk1 h o := {| idequeue := idequeue o; qnext := qnext o; ibufs := ibufs o;
  havedisk1 := h; dev_hw := dev_hw o; irq := irq o |}.
Definition set_hw h o := {| idequeue := idequeue o; qnext := qnext o; ibufs := ibufs o;
  havedisk1 := havedisk1 o; dev_hw := h; irq := irq o |}.
Definition set_irq i o := {| idequeue := idequeue o; qnext := qnext o; ibufs := ibufs o;
  havedisk1 := havedisk1 o; dev_hw := dev_hw o; irq := i |}.

(** The calls of the threads: a process enters iderw for a buffer, waits in it, uses a
    buffer otherwise; the interrupt handler runs; the disk finishes its command.  A call that
    waits remembers, for the statements only, the buffer as it was handed over. *)
Inductive call := CRw (b : nat) | CWait (b : nat) (x0 : buf) | CUse (b : nat) (x : buf) | CIntr | CFinish.

Context {L : Type}.
Abbreviation M := (K (mst ide L)).

Definition in_port (p : Z) : M Z :=
  gets (λ s, inb p (dev_hw (obj s))) ≫= λ r, set_obj (set_hw r.2) ≫= λ _, mret r.1.
Definition out_port (p v : Z) : M unit := set_obj (λ o, set_hw (outb p v (dev_hw o)) o).

(** The number of polls after which a model of the loop in idewait gives up. *)
Context (patience : nat).

Fixpoint idewait_loop (fuel : nat) : M Z :=
  match fuel with
  | O => diverge
  | S fuel' =>
      in_port 0x1f7 ≫= λ r,
      if Z.land r (Z.lor IDE_BSY IDE_DRDY) =? IDE_DRDY then mret r else idewait_loop fuel'
  end.

Definition idewait (checkerr : bool) : M Z :=
  idewait_loop patience ≫= λ r,
  mret (if checkerr && truth (Z.land r (Z.lor IDE_DF IDE_ERR)) then -1 else 0).

(** ideinit, without the set-up of the lock and of the interrupt controller. *)
Fixpoint probe (n : nat) : M unit :=
  match n with
  | O => mret tt
  | S n' =>
      in_port 0x1f7 ≫= λ r,
      if truth r then set_obj (set_havedisk1 true) else probe n'
  end.

Definition ideinit : M unit :=
  idewait false ≫= λ _,
  out_port 0x1f6 (Z.lor 0xe0 (Z.shiftl 1 4)) ≫= λ _,
  probe 1000 ≫= λ _,
  out_port 0x1f6 (Z.lor 0xe0 (Z.shiftl 0 4)).

Definition idestart (q : option nat) : M unit :=
  match q with
  | None => panic "idestart"
  | Some i =>
      gets (λ s, ibufs (obj s) i) ≫= λ b,
      if FSSIZE <=? blockno b then panic "incorrect blockno" else
      let sector_per_block := BSIZE / SECTOR_SIZE in
      let sector := s32 (blockno b * sector_per_block) in
      let read_cmd := if sector_per_block =? 1 then IDE_CMD_READ else IDE_CMD_RDMUL in
      let write_cmd := if sector_per_block =? 1 then IDE_CMD_WRITE else IDE_CMD_WRMUL in
      if 7 <? sector_per_block then panic "idestart" else
      idewait false ≫= λ _,
      out_port 0x3f6 0 ≫= λ _,
      out_port 0x1f2 sector_per_block ≫= λ _,
      out_port 0x1f3 (Z.land sector 0xff) ≫= λ _,
      out_port 0x1f4 (Z.land (Z.shiftr sector 8) 0xff) ≫= λ _,
      out_port 0x1f5 (Z.land (Z.shiftr sector 16) 0xff) ≫= λ _,
      out_port 0x1f6 (Z.lor (Z.lor 0xe0 (Z.shiftl (Z.land (dev b) 1) 4))
                        (Z.land (Z.shiftr sector 24) 0x0f)) ≫= λ _,
      if dirty b then
        out_port 0x1f7 write_cmd ≫= λ _,
        set_obj (λ o, set_hw (outsl 0x1f0 (data b) (BSIZE / 4) (dev_hw o)) o)
      else out_port 0x1f7 read_cmd
  end.

(** Read data if needed. *)
Definition transfer (b : nat) : M unit :=
  gets (λ s, ibufs (obj s) b) ≫= λ x,
  when (negb (dirty x))
    (idewait true ≫= λ r,
     when (0 <=? r)
       (gets (λ s, insl 0x1f0 (BSIZE / 4) (dev_hw (obj s))) ≫= λ d,
        set_obj (λ o, set_hw d.2 (set_ibuf b (set_data d.1 (ibufs o b)) o)))).

Definition ideintr : M unit :=
  gets (λ s, idequeue (obj s)) ≫= λ q,
  match q with
  | None => mret tt
  | Some b =>
      set_obj (λ o, set_idequeue (qnext o b) o) ≫= λ _,
      transfer b ≫= λ _,
      set_obj (λ o, set_ibuf b (set_flags (Z.lor (flags (ibufs o b)) B_VALID) (ibufs o b)) o) ≫= λ _,
      set_obj (λ o, set_ibuf b (set_flags (Z.ldiff (flags (ibufs o b)) B_DIRTY) (ibufs o b)) o) ≫= λ _,
      wakeup (ChBuf b) ≫= λ _,
      gets (λ s, idequeue (obj s)) ≫= λ q,
      match q with None => mret tt | Some _ => idestart q end
  end.

(** The loop that looks for the end of the queue; [pp] is the buffer whose qnext is
    pointed to, or none for idequeue. *)
Definition deref (o : ide) (pp : option nat) : option nat :=
  match pp with None => idequeue o | Some b => qnext o b end.
Fixpoint find_end (fuel : nat) (pp : option nat) : M (option nat) :=
  gets (λ s, deref (obj s) pp) ≫= λ q,
  match q with
  | None => mret pp
  | Some b => match fuel with O => diverge | S fuel' => find_end fuel' (Some b) end
  end.
Definition put_end (pp : option nat) (b : nat) : M unit :=
  set_obj (match pp with None => set_idequeue (Some b) | Some c => set_qnext c (Some b) end).
End ops.

Section iderw.
Context `{Hardware} (patience : nat).
Abbreviation M := (K (mst ide call)).

(** The loop at the end of iderw. *)
Definition iderw_wait (b : nat) : M unit :=
  gets (λ s, ibufs (obj s) b) ≫= λ x,
  if Z.land (flags x) (Z.lor B_VALID B_DIRTY) =? B_VALID then mret tt
  else sleep_on (ChBuf b).

Definition iderw (b : nat) : M unit :=
  gets (λ s, ibufs (obj s) b) ≫= λ x,
  if negb (locked (lock x)) then panic "iderw: buf not locked" else
  if Z.land (flags x) (Z.lor B_VALID B_DIRTY) =? B_VALID then panic "iderw: nothing to do" else
  gets (λ s, havedisk1 (obj s)) ≫= λ h,
  if truth (dev x) && negb h then panic "iderw: ide disk 1 not present" else
  set_loc (λ _, CWait b x) ≫= λ _,
  set_obj (set_qnext b None) ≫= λ _,
  find_end NBUF None ≫= λ pp,
  put_end pp b ≫= λ _,
  gets (λ s, idequeue (obj s)) ≫= λ q,
  when (bool_decide (q = Some b)) (idestart patience q) ≫= λ _,
  iderw_wait b.
End iderw.

(** ** What the disk promises *)

Inductive command := CmdRead (d s : Z) | CmdWrite (d s : Z) (m : mem).
(** A disk that is idle, waits for the data of a write, is at work, has the data of a read,
    or gave up a command. *)
Inductive ata_phase := PIdle | PAccept (d s : Z) | PBusy (c : command) | PData (m : mem) | PFailed.

#[export] Instance command_eq_dec : EqDecision command.
Proof. solve_decision. Defined.
#[export] Instance ata_phase_eq_dec : EqDecision ata_phase.
Proof. solve_decision. Defined.

Definition polls `{Hardware} (n : nat) (h : hw) : hw := Nat.iter n (λ h, (inb 0x1f7 h).2) h.
Definition is_ready (st : Z) : Prop := Z.land st (Z.lor IDE_BSY IDE_DRDY) = IDE_DRDY.

(** [reg]: the registers behind the ports; [disks]: the sectors of the two disks; [finish ok]:
    the command is carried out, or fails. *)
Class Ata `{Hardware} (patience : nat) := {
  reg : hw → Z → Z;
  disks : hw → Z → Z → mem;
  phase : hw → ata_phase;
  finish : bool → hw → hw;
  drive h := Z.land (Z.shiftr (reg h 0x1f6) 4) 1;
  lba h := reg h 0x1f3 + 256 * reg h 0x1f4 + 65536 * reg h 0x1f5 + 16777216 * Z.land (reg h 0x1f6) 0xf;
  (** It takes a command with one sector, in LBA mode and with interrupts enabled. *)
  takes h := (phase h = PIdle ∨ phase h = PFailed) ∧ reg h 0x1f2 = 1 ∧ reg h 0x3f6 = 0 ∧
    Z.land (reg h 0x1f6) 0xe0 = 0xe0;
  inb_keeps p h : reg (inb p h).2 = reg h ∧ disks (inb p h).2 = disks h ∧ phase (inb p h).2 = phase h;
  status_ready h : (∀ c, phase h ≠ PBusy c) →
    ∃ k, (k < patience)%nat ∧ is_ready (inb 0x1f7 (polls k h)).1;
  status_error h : is_ready (inb 0x1f7 h).1 →
    truth (Z.land (inb 0x1f7 h).1 (Z.lor IDE_DF IDE_ERR)) = true ↔ phase h = PFailed;
  outb_reg p v h : p ∈ [0x3f6; 0x1f2; 0x1f3; 0x1f4; 0x1f5; 0x1f6] →
    (∀ r, reg (outb p v h) r = if decide (r = p) then v else reg h r) ∧
    disks (outb p v h) = disks h ∧ phase (outb p v h) = phase h;
  outb_read h : takes h →
    phase (outb 0x1f7 0x20 h) = PBusy (CmdRead (drive h) (lba h)) ∧ disks (outb 0x1f7 0x20 h) = disks h;
  outb_write h : takes h →
    phase (outb 0x1f7 0x30 h) = PAccept (drive h) (lba h) ∧ disks (outb 0x1f7 0x30 h) = disks h;
  outsl_data h d s m : phase h = PAccept d s →
    phase (outsl 0x1f0 m 128 h) = PBusy (CmdWrite d s m) ∧ disks (outsl 0x1f0 m 128 h) = disks h;
  insl_data h m : phase h = PData m →
    (insl 0x1f0 128 h).1 = m ∧ phase (insl 0x1f0 128 h).2 = PIdle ∧ disks (insl 0x1f0 128 h).2 = disks h;
  finish_read h d s : phase h = PBusy (CmdRead d s) →
    phase (finish true h) = PData (disks h d s) ∧ disks (finish true h) = disks h;
  finish_write h d s m : phase h = PBusy (CmdWrite d s m) →
    phase (finish true h) = PIdle ∧
    ∀ d' s', disks (finish true h) d' s' = if decide (d' = d ∧ s' = s) then m else disks h d' s';
  finish_fail h c : phase h = PBusy c → phase (finish false h) = PFailed ∧ disks (finish false h) = disks h
}.

(** ** Runs of the driver *)

(** The queue behind a pointer. *)
Fixpoint qrep (hd : option nat) (nx : nat → option nat) (q : list nat) : Prop :=
  match q with
  | [] => hd = None
  | b :: q' => hd = Some b ∧ qrep (nx b) nx q'
  end.

Lemma qrep_other hd nx q b x : b ∉ q → qrep hd nx q → qrep hd (<[b := x]> nx) q.
Proof.
  revert hd. induction q as [|c q IH]; intros hd Hb; simpl; [done|]. rewrite not_elem_of_cons in Hb.
  destruct Hb as [Hne Hb]. intros [-> Hq]. split; [done|]. rewrite fn_lookup_insert_ne by done. by apply IH.
Qed.

Lemma qrep_snoc hd nx q c b : c ∉ q → b ≠ c → b ∉ q → qrep hd nx (q ++ [c]) → nx b = None →
  qrep hd (<[c := Some b]> nx) (q ++ [c; b]).
Proof.
  revert hd. induction q as [|x q IH]; intros hd Hc Hb Hbq; simpl.
  - intros [-> Hq] Hn. by rewrite fn_lookup_insert, fn_lookup_insert_ne.
  - rewrite not_elem_of_cons in Hc, Hbq. intros [-> Hq] Hn. split; [done|].
    rewrite fn_lookup_insert_ne by naive_solver. apply IH; naive_solver.
Qed.

Section runs.
Context `{A : Ata} {L : Type}.
Abbreviation st := (mst ide L).

Definition on_hw (f : hw → hw) (s : st) : st := Mst (set_hw (f (dev_hw (obj s))) (obj s)) (loc s) (woke s).

Definition same_dev (h h' : hw) : Prop := reg h' = reg h ∧ disks h' = disks h ∧ phase h' = phase h.
Lemma polls_same n h : same_dev h (polls n h).
Proof.
  induction n as [|n (H1&H2&H3)]; [done|]. destruct (inb_keeps 0x1f7 (polls n h)) as (E1&E2&E3).
  unfold same_dev. change (polls (S n) h) with (inb 0x1f7 (polls n h)).2. by rewrite E1, E2, E3.
Qed.

Lemma in_port_run p (s : st) Q :
  wp (in_port p) s Q ↔ Q (inb p (dev_hw (obj s))).1 (on_hw (λ h, (inb p h).2) s).
Proof. done. Qed.
Lemma out_port_run p v (s : st) Q : wp (out_port p v) s Q ↔ Q tt (on_hw (outb p v) s).
Proof. done. Qed.

(** The loop of idewait stops at the first ready status. *)
Lemma idewait_loop_run fuel k (s : st) :
  (k < fuel)%nat → is_ready (inb 0x1f7 (polls k (dev_hw (obj s)))).1 →
  wp (idewait_loop fuel) s (λ r s', ∃ j, let h := polls j (dev_hw (obj s)) in
    is_ready (inb 0x1f7 h).1 ∧ r = (inb 0x1f7 h).1 ∧ s' = on_hw (λ _, (inb 0x1f7 h).2) s).
Proof.
  revert k s. induction fuel as [|fuel IH]; intros k s Hk Hr; [lia|]. cbn [idewait_loop].
  rewrite wp_bind, in_port_run. case_match eqn:E.
  - apply Z.eqb_eq in E. apply wp_ret. by exists O.
  - destruct k as [|k]; [apply Z.eqb_neq in E; done|]. unfold polls in Hr. rewrite Nat.iter_succ_r in Hr.
    eapply wp_mono; [|apply (IH k); [lia|exact Hr]]. intros r s' (j&H1&H2&H3). exists (S j).
    unfold polls. rewrite Nat.iter_succ_r. by split_and!.
Qed.

Lemma idewait_run chk (s : st) : (∀ c, phase (dev_hw (obj s)) ≠ PBusy c) →
  wp (idewait patience chk) s (λ r s', ∃ h', same_dev (dev_hw (obj s)) h' ∧ s' = on_hw (λ _, h') s ∧
    (r < 0 ↔ chk = true ∧ phase (dev_hw (obj s)) = PFailed)).
Proof.
  intros Hb. destruct (status_ready _ Hb) as (k&Hk&Hr). unfold idewait. rewrite wp_bind.
  eapply wp_mono; [|by apply (idewait_loop_run _ k)]. intros r s' (j&Hj&->&->). apply wp_ret.
  pose proof (status_error _ Hj) as He. destruct (polls_same (S j) (dev_hw (obj s))) as (E1&E2&E3).
  destruct (polls_same j (dev_hw (obj s))) as (_&_&E3'). rewrite E3' in He. eexists. split; [by split_and!|].
  split; [done|]. destruct chk; cbn [andb]; [|naive_solver lia].
  destruct (truth _); naive_solver lia.
Qed.


(** Writing the command registers, one after the other. *)
Fixpoint out_all (l : list (Z * Z)) (h : hw) : hw :=
  match l with [] => h | (p, v) :: l' => out_all l' (outb p v h) end.
Lemma out_all_spec l h :
  (∀ x, x ∈ l → x.1 ∈ [0x3f6; 0x1f2; 0x1f3; 0x1f4; 0x1f5; 0x1f6]) → NoDup l.*1 →
  disks (out_all l h) = disks h ∧ phase (out_all l h) = phase h ∧
  ∀ r, (∀ v, (r, v) ∈ l → reg (out_all l h) r = v) ∧ (r ∉ l.*1 → reg (out_all l h) r = reg h r).
Proof.
  revert h. induction l as [|[p v] l IH]; intros h Hp Hn; cbn [out_all].
  { split_and!; try done. intros r. split; [by intros v ?%elem_of_nil|done]. }
  cbn in Hn. apply NoDup_cons in Hn as [Hpn Hn].
  destruct (outb_reg p v h (Hp (p, v) ltac:(left))) as (R&Ed&Eph).
  destruct (IH (outb p v h)) as (H1&H2&H3); [intros; apply Hp; by right|done|].
  rewrite H1, H2. split_and!; try done. intros r. destruct (H3 r) as [Hin Hout]. split.
  - intros w [[= <- <-]|Hw]%elem_of_cons; [|by apply Hin]. rewrite Hout, R by done. by rewrite decide_True.
  - cbn. rewrite not_elem_of_cons. intros [Hne Hr]. rewrite Hout, R by done. by rewrite decide_False.
Qed.

Definition cmd_of (x : buf) : command :=
  if dirty x then CmdWrite (dev x) (blockno x) (data x) else CmdRead (dev x) (blockno x).
Definition calm (h : hw) : Prop := phase h = PIdle ∨ phase h = PFailed.

(** The registers idestart sets for sector [s] of disk [d] name that sector. *)
Definition start_regs (d s : Z) : list (Z * Z) :=
  [(0x3f6, 0); (0x1f2, 1); (0x1f3, Z.land s 0xff); (0x1f4, Z.land (Z.shiftr s 8) 0xff);
   (0x1f5, Z.land (Z.shiftr s 16) 0xff);
   (0x1f6, Z.lor (Z.lor 0xe0 (Z.shiftl (Z.land d 1) 4)) (Z.land (Z.shiftr s 24) 0x0f))].
Lemma start_regs_spec d s h : (d = 0 ∨ d = 1) → 0 ≤ s < FSSIZE → calm h →
  let h' := out_all (start_regs d s) h in
  disks h' = disks h ∧ takes h' ∧ drive h' = d ∧ lba h' = s.
Proof.
  intros Hd Hs Hc h'. unfold FSSIZE in Hs.
  destruct (out_all_spec (start_regs d s) h) as (Ed&Ep&Er).
  { intros x Hx. cbn in Hx. set_solver. }
  { cbn. repeat constructor; set_solver. }
  fold h' in Ed, Ep, Er.
  assert (E : ∀ r v, (r, v) ∈ start_regs d s → reg h' r = v) by (intros r v; apply Er).
  assert (E6 : reg h' 0x1f6 = 0xe0 + 16 * d).
  { rewrite (E 0x1f6 (Z.lor (Z.lor 0xe0 (Z.shiftl (Z.land d 1) 4)) (Z.land (Z.shiftr s 24) 0x0f))) by set_solver.
    rewrite Z.shiftr_div_pow2, Z.div_small by lia. by destruct Hd as [-> | ->]. }
  split; [done|]. unfold takes, drive, lba. rewrite E6, Ep, (E 0x1f2 1), (E 0x3f6 0) by set_solver.
  rewrite (E 0x1f3 (Z.land s 0xff)), (E 0x1f4 (Z.land (Z.shiftr s 8) 0xff)),
    (E 0x1f5 (Z.land (Z.shiftr s 16) 0xff)) by set_solver.
  split; [by destruct Hd as [-> | ->]|]. split; [by destruct Hd as [-> | ->]|].
  change 0xff with (Z.ones 8). rewrite !Z.land_ones, !Z.shiftr_div_pow2 by lia.
  assert (Z.land (0xe0 + 16 * d) 0xf = 0) as -> by (by destruct Hd as [-> | ->]).
  change (2 ^ 8) with 256. change (2 ^ 16) with 65536. zlia.
Qed.

(** What the driver asks of a request. *)
Record request (h1 : bool) (x : buf) : Prop := {
  rq_locked : locked (lock x) = true;
  rq_todo : valid x && negb (dirty x) = false;
  rq_block : 0 ≤ blockno x < FSSIZE;
  rq_dev : dev x = 0 ∨ dev x = 1 ∧ h1 = true
}.

Lemma calm_not_busy h : calm h → ∀ c, phase h ≠ PBusy c.
Proof. by intros [E|E] c; rewrite E. Qed.

(** idestart hands the request to the disk. *)
Lemma idestart_run b (s : st) :
  request (havedisk1 (obj s)) (ibufs (obj s) b) → calm (dev_hw (obj s)) →
  wp (idestart patience (Some b)) s (λ _ s', ∃ h', s' = on_hw (λ _, h') s ∧
    disks h' = disks (dev_hw (obj s)) ∧ phase h' = PBusy (cmd_of (ibufs (obj s) b))).
Proof.
  intros [_ _ Hbn Hdev] Hc. set (x := ibufs (obj s) b) in *. cbn [idestart]. rewrite wp_bind.
  unfold gets, wp at 1. fold x. rewrite (proj2 (Z.leb_gt _ _)) by lia.
  change (BSIZE / SECTOR_SIZE) with 1. change (1 =? 1) with true. change (7 <? 1) with false. cbv iota zeta.
  rewrite Z.mul_1_r, s32_small by (unfold FSSIZE in Hbn; lia).
  rewrite wp_bind. eapply wp_mono; [|apply idewait_run; by apply calm_not_busy].
  intros r s1 (h1&(E1&E2&E3)&->&_).
  assert (Hc1 : calm h1) by (unfold calm; by rewrite E3).
  destruct (start_regs_spec (dev x) (blockno x) h1) as (Ed&Ht&Edr&El); [naive_solver|done..|].
  do 6 rewrite wp_bind, out_port_run.
  change (on_hw (outb 0x1f6 _) _) with (on_hw (λ _, out_all (start_regs (dev x) (blockno x)) h1) s).
  set (h2 := out_all _ _) in *. unfold cmd_of. destruct (dirty x).
  - rewrite wp_bind, out_port_run. destruct (outb_write h2 Ht) as [Ep Ed'].
    rewrite Edr, El in Ep. destruct (outsl_data _ _ _ (data x) Ep) as [Ep' Ed''].
    exists (outsl 0x1f0 (data x) 128 (outb 0x1f7 0x30 h2)). split_and!; try done. congruence.
  - apply out_port_run. destruct (outb_read h2 Ht) as [Ep Ed']. exists (outb 0x1f7 0x20 h2).
    split; [done|]. split; [congruence|]. by rewrite Ep, Edr, El.
Qed.

(** The walk to the end of the queue. *)
Lemma find_end_run fuel q pp (s : st) : (length q ≤ fuel)%nat →
  qrep (deref (obj s) pp) (qnext (obj s)) q →
  wp (find_end fuel pp) s (λ r s', s' = s ∧ r = match last q with Some c => Some c | None => pp end).
Proof.
  revert pp q. induction fuel as [|fuel IH]; intros pp [|b q] Hl Hq; cbn in Hl; try lia; cbn [find_end];
    rewrite wp_bind; unfold gets, wp at 1; cbn in Hq.
  - by rewrite Hq.
  - by rewrite Hq.
  - destruct Hq as [-> Hq]. eapply wp_mono; [|apply (IH (Some b) q); [lia|done]].
    intros r s' [-> ->]. split; [done|]. rewrite last_cons. by destruct (last q).
Qed.
End runs.

(** ** The invariant of the driver *)

Section driver.
Context `{A : Ata}.
Implicit Types (o : ide) (q : list nat) (h : hw).

(** The disk has done what the request [x] asks for. *)
Definition served h (x : buf) : Prop :=
  if dirty x then phase h = PIdle ∧ disks h (dev x) (blockno x) = data x
  else phase h = PData (disks h (dev x) (blockno x)).

Record ide_ok o q : Prop := {
  io_queue : qrep (idequeue o) (qnext o) q;
  io_nodup : NoDup q;
  io_range b : b ∈ q → (b < NBUF)%nat;
  io_req b : b ∈ q → request (havedisk1 o) (ibufs o b);
  io_hw : match q with
          | [] => irq o = false ∧ calm (dev_hw o)
          | b :: _ => irq o = false ∧ phase (dev_hw o) = PBusy (cmd_of (ibufs o b)) ∨
                      irq o = true ∧ served (dev_hw o) (ibufs o b)
          end
}.

Lemma wp_wrun {O L B} (m : K (mst O L) B) s Q R : wp m s Q → wrun m s Q R.
Proof. unfold wp, wrun. by destruct (m s). Qed.

Lemma queue_length q : NoDup q → (∀ b, b ∈ q → (b < NBUF)%nat) → (length q ≤ NBUF)%nat.
Proof.
  intros Hn Hr. transitivity (length (seq 0 NBUF)); [|by rewrite length_seq].
  apply submseteq_length, NoDup_submseteq; [done|]. intros b Hb. apply elem_of_seq. apply Hr in Hb. lia.
Qed.

(** Buffer [b] is put behind the others. *)
Definition enqueued o b pp : ide := 
  match pp with None => set_idequeue (Some b) | Some c => set_qnext c (Some b) end (set_qnext b None o).
Lemma enqueued_queue o q b : NoDup q → b ∉ q → qrep (idequeue o) (qnext o) q →
  qrep (idequeue (enqueued o b (last q))) (qnext (enqueued o b (last q))) (q ++ [b]).
Proof.
  intros Hn Hb Hq. destruct q as [|c q _] using rev_ind.
  - cbn. split; [done|]. apply fn_lookup_insert.
  - rewrite last_snoc. cbn. apply NoDup_app in Hn as (_&Hc&_). rewrite <- (assoc_L (++)).
    rewrite not_elem_of_app, not_elem_of_cons in Hb. destruct Hb as (Hb&Hbc&_).
    apply qrep_snoc; try done; [|apply qrep_other; [set_solver|done]|apply fn_lookup_insert].
    intros Hcq. apply (Hc c Hcq). by left.
Qed.

(** A run of iderw from its beginning puts the request into the queue, starts it if it is
    the only one, and goes to sleep. *)
Lemma iderw_run o q b l w :
  ide_ok o q → b ∉ q → (b < NBUF)%nat → request (havedisk1 o) (ibufs o b) →
  wrun (iderw patience b) (Mst o l w) (λ _ _, False) (λ ch s', ∃ h',
    ch = ChBuf b ∧ s' = Mst (set_hw h' (enqueued o b (last q))) (CWait b (ibufs o b)) w ∧
    disks h' = disks (dev_hw o) ∧ (q ≠ [] → h' = dev_hw o) ∧
    (q = [] → phase h' = PBusy (cmd_of (ibufs o b)))).
Proof.
  intros Hok Hb Hr Hrq. pose proof Hrq as [Hlk Htodo Hbn Hdev]. unfold iderw.
  rewrite wrun_bind. unfold gets at 1, wrun at 1. cbn [obj]. rewrite Hlk. cbn [negb].
  rewrite flags_nothing_to_do, Htodo. rewrite wrun_bind. unfold gets at 1, wrun at 1. cbn [obj].
  assert (truth (dev (ibufs o b)) && negb (havedisk1 o) = false) as ->.
  { destruct Hdev as [->|[-> ->]]; done. }
  rewrite wrun_bind. unfold set_loc, modify at 1, wrun at 1. cbn [obj loc woke].
  rewrite wrun_bind. unfold set_obj, modify at 1, wrun at 1. cbn [obj loc woke].
  rewrite wrun_bind. eapply wp_wrun.
  eapply wp_mono; [|apply (find_end_run NBUF q None); [by eapply queue_length; apply Hok|]].
  2: { cbn. apply qrep_other; [done|apply Hok]. }
  intros pp s1 [-> ->]. replace (match last q with Some c => Some c | None => None end) with (last q) by (by destruct (last q)).
  rewrite wrun_bind. unfold put_end, set_obj, modify at 1, wrun at 1. cbn [obj loc woke].
  fold (enqueued o b (last q)). rewrite wrun_bind. unfold gets at 1, wrun at 1. cbn [obj loc woke].
  assert (Hx : ibufs (enqueued o b (last q)) = ibufs o ∧ havedisk1 (enqueued o b (last q)) = havedisk1 o ∧
    dev_hw (enqueued o b (last q)) = dev_hw o) by (by destruct (last q)). destruct Hx as (Ex&Eh&Ew).
  assert (Hsl : ∀ h', wrun (iderw_wait b) (Mst (set_hw h' (enqueued o b (last q))) (CWait b (ibufs o b)) w) (λ _ _, False)
    (λ ch s', ch = ChBuf b ∧ s' = Mst (set_hw h' (enqueued o b (last q))) (CWait b (ibufs o b)) w)).
  { intros h'. unfold iderw_wait. rewrite wrun_bind. unfold gets at 1, wrun at 1. cbn [obj loc woke set_hw ibufs].
    by rewrite Ex, flags_nothing_to_do, Htodo. }
  rewrite wrun_bind. destruct q as [|c q].
  - cbn [last enqueued set_idequeue set_qnext idequeue] in *. rewrite bool_decide_true by done.
    apply wp_wrun. unfold when. eapply wp_mono; [|apply (idestart_run b); cbn; [done|apply (io_hw _ _ Hok)]].
    intros ? s2 (h'&->&Ed&Ep). cbn in Ed, Ep. eapply wrun_mono; [apply (Hsl h')|done|].
    intros ch s' [-> ->]. exists h'. by split_and!.
  - assert (Hne : idequeue (enqueued o b (last (c :: q))) ≠ Some b).
    { destruct (io_queue _ _ Hok) as [Hc _]. rewrite last_cons.
      assert (b ≠ c) by set_solver. destruct (last q); cbn; congruence. }
    rewrite bool_decide_false by done. apply wp_wrun. cbn [when]. apply wp_ret.
    specialize (Hsl (dev_hw o)).
    replace (set_hw (dev_hw o) (enqueued o b (last (c :: q)))) with (enqueued o b (last (c :: q))) in Hsl
      by (rewrite last_cons; by destruct (last q)).
    eapply wrun_mono; [exact Hsl|done|]. intros ch s' [-> ->]. exists (dev_hw o). split_and!; try done.
    rewrite last_cons. by destruct (last q).
Qed.

Lemma iderw_ok o q b h' :
  ide_ok o q → b ∉ q → (b < NBUF)%nat → request (havedisk1 o) (ibufs o b) →
  (q ≠ [] → h' = dev_hw o) → (q = [] → phase h' = PBusy (cmd_of (ibufs o b))) →
  ide_ok (set_hw h' (enqueued o b (last q))) (q ++ [b]).
Proof.
  intros [Hq Hn Hr Hrq Hh] Hb Hrb Hrqb H1 H2.
  assert (Hx : ibufs (enqueued o b (last q)) = ibufs o ∧ havedisk1 (enqueued o b (last q)) = havedisk1 o ∧
    irq (enqueued o b (last q)) = irq o) by (by destruct (last q)). destruct Hx as (Ex&Eh&Ei).
  split; cbn; rewrite ?Ex, ?Eh, ?Ei.
  - by apply enqueued_queue.
  - apply NoDup_app. split_and!; [done| |apply NoDup_singleton]. intros c Hc ->%list_elem_of_singleton. done.
  - intros c [?| ->%list_elem_of_singleton]%elem_of_app; auto.
  - intros c [?| ->%list_elem_of_singleton]%elem_of_app; auto.
  - destruct q as [|c q]; cbn; [|by rewrite H1]. left. split; [by apply Hh|by apply H2].
Qed.

(** ** The interrupt handler *)

Lemma set_data_same x : set_data (data x) x = x.
Proof. by destruct x. Qed.

(** The data of a read is taken from the disk, unless it gave up. *)
Lemma transfer_run {L} b (s : mst ide L) :
  let x := ibufs (obj s) b in let h := dev_hw (obj s) in
  (if dirty x then calm h else phase h = PFailed ∨ ∃ m, phase h = PData m) →
  wp (transfer patience b) s (λ _ s', ∃ m h' bs, calm h' ∧ disks h' = disks h ∧
    s' = Mst {| idequeue := idequeue (obj s); qnext := qnext (obj s); ibufs := bs;
                havedisk1 := havedisk1 (obj s); dev_hw := h'; irq := irq (obj s) |} (loc s) (woke s) ∧
    (∀ c, bs c = if decide (c = b) then set_data m x else ibufs (obj s) c) ∧
    (if dirty x then m = data x else if decide (phase h = PFailed) then m = data x else phase h = PData m)).
Proof.
  intros x h Hp. unfold transfer. rewrite wp_bind. unfold gets at 1, wp at 1. fold x.
  assert (Hsame : ∀ c, ibufs (obj s) c = if decide (c = b) then set_data (data x) x else ibufs (obj s) c)
    by (intros c; case_decide; [subst c; symmetry; apply set_data_same|done]).
  destruct (dirty x) eqn:Ed; cbn [negb when].
  { apply wp_ret. exists (data x), h, (ibufs (obj s)). split_and!; try done. by destruct s as [[]]. }
  rewrite wp_bind. eapply wp_mono; [|apply idewait_run; fold h; by intros c; destruct Hp as [->|[m ->]]].
  intros r s1 (h1&(_&E2&E3)&->&Hr). fold h in E2, E3, Hr. destruct (decide (phase h = PFailed)) as [Ef|Ef].
  - rewrite (proj2 (Z.leb_gt 0 r)) by (by apply Hr). cbn [when]. apply wp_ret.
    exists (data x), h1, (ibufs (obj s)). split_and!; try done. right. congruence.
  - rewrite (proj2 (Z.leb_le 0 r)) by (destruct (Z.lt_ge_cases r 0); naive_solver). cbn [when].
    rewrite wp_bind. unfold gets at 1, wp at 1. change (BSIZE / 4) with 128. cbn [on_hw obj dev_hw set_hw].
    destruct Hp as [?|[m Em]]; [done|]. destruct (insl_data h1 m) as (E4&E5&E6); [congruence|].
    eexists m, _, _. split; [left; exact E5|]. split; [congruence|]. split; [done|]. split; [|done].
    intros c. cbn. rewrite E4. unfold insert, fn_insert. do 2 case_decide; done || congruence.
Qed.

(** The state after the handler took [b] off the queue, with data [m] and flags [f]. *)
Record taken o b m f o' : Prop := {
  tk_queue : idequeue o' = qnext o b;
  tk_next : qnext o' = qnext o;
  tk_disk1 : havedisk1 o' = havedisk1 o;
  tk_irq : irq o' = irq o;
  tk_disks : disks (dev_hw o') = disks (dev_hw o);
  tk_bufs c : ibufs o' c = if decide (c = b) then set_flags f (set_data m (ibufs o b)) else ibufs o c;
  tk_valid : Z.testbit f 1 = true ∧ Z.testbit f 2 = false;
  tk_hw : match idequeue o' with
          | None => calm (dev_hw o')
          | Some c => phase (dev_hw o') = PBusy (cmd_of (ibufs o' c))
          end
}.

Lemma ideintr_run {L} o b q (l : L) w :
  let x := ibufs o b in let h := dev_hw o in
  qrep (idequeue o) (qnext o) (b :: q) → NoDup (b :: q) →
  (∀ c, c ∈ q → request (havedisk1 o) (ibufs o c)) →
  (if dirty x then calm h else phase h = PFailed ∨ ∃ m, phase h = PData m) →
  wp (ideintr patience) (Mst o l w) (λ _ s', loc s' = l ∧ woke s' = ChBuf b :: w ∧ ∃ m f, taken o b m f (obj s') ∧
    (if dirty x then m = data x else if decide (phase h = PFailed) then m = data x else phase h = PData m)).
Proof.
  intros x h [Hq Hq'] [Hbn Hn]%NoDup_cons Hrq Hp. unfold ideintr. rewrite wp_bind. unfold gets at 1, wp at 1.
  cbn [obj]. rewrite Hq. rewrite wp_bind. unfold set_obj at 1, modify at 1, wp at 1. cbn [obj loc woke].
  rewrite wp_bind. eapply wp_mono; [|by apply transfer_run]. cbn [obj loc woke set_idequeue ibufs dev_hw].
  intros ? s1 (m&h'&bs&Hc&Hd&->&Hbs&Hm). fold x in Hbs, Hm.
  rewrite wp_bind. unfold set_obj at 1, modify at 1, wp at 1.
  rewrite wp_bind. unfold set_obj at 1, modify at 1, wp at 1.
  rewrite wp_bind. unfold wakeup, modify at 1, wp at 1. cbn [obj loc woke set_ibuf idequeue].
  rewrite wp_bind. unfold gets at 1, wp at 1. cbn [obj idequeue].
  set (o1 := {| idequeue := _ |}). set (o2 := set_ibuf b _ (set_ibuf b _ _)).
  set (f := Z.ldiff (Z.lor (flags x) B_VALID) B_DIRTY).
  assert (Hf : Z.testbit f 1 = true ∧ Z.testbit f 2 = false).
  { unfold f. rewrite !Z.ldiff_spec, !Z.lor_spec. by rewrite orb_true_r, andb_false_r. }
  assert (Hbs2 : ∀ c, ibufs o2 c = if decide (c = b) then set_flags f (set_data m x) else ibufs o c).
  { intros c. unfold o2. cbn. rewrite fn_lookup_insert, Hbs, decide_True by done. unfold insert, fn_insert.
    destruct (decide (c = b)) as [->|Hcb].
    - by rewrite decide_True.
    - rewrite !decide_False, Hbs, decide_False by congruence. done. }
  assert (Hmk : ∀ h2, disks h2 = disks h → match qnext o b with None => calm h2 | Some c => phase h2 = PBusy (cmd_of (ibufs o2 c)) end →
    taken o b m f (set_hw h2 o2)) by (intros h2 ? ?; by split).
  change (idequeue o2) with (qnext o b). destruct q as [|c q]; cbn in Hq'.
  - rewrite Hq'. apply wp_ret. split_and!; [done..|]. exists m, f. split; [|done].
    apply (Hmk h'); [done|]. by rewrite Hq'.
  - destruct Hq' as [Hc' _]. rewrite Hc'. assert (Hcb : c ≠ b) by set_solver.
    eapply wp_mono; [|apply (idestart_run c); [|done]].
    2: { cbn [obj]. rewrite Hbs2, decide_False by done. apply Hrq. by left. }
    intros ? s' (h2&->&E1&E2). split_and!; [done..|]. exists m, f. split; [|done].
    apply (Hmk h2); [by rewrite E1|]. by rewrite Hc'.
Qed.

(** ** Processes, interrupts and the disk *)

(** Process [p] (2 and above; 0 is the interrupt handler and 1 the disk) holds the sleep
    lock of a buffer. *)
Definition owns (p : nat) (x : buf) : bool := locked (lock x) && (pid (lock x) =? Z.of_nat p).
Definition clash (x y : buf) : bool := (dev x =? dev y) && (blockno x =? blockno y).

(** What the rest of the kernel may do to a buffer: take a free one or use one's own, and
    not hold two buffers for the same block. *)
Definition may_use o (p b : nat) (x : buf) : bool :=
  (negb (locked (lock (ibufs o b))) || owns p (ibufs o b)) &&
  (negb (locked (lock x)) || owns p x && forallb (λ c,
     (c =? b)%nat || negb (locked (lock (ibufs o c))) || negb (clash x (ibufs o c))) (seq 0 NBUF)).

Definition ide_op (p : nat) (killed : bool) : K (mst ide call) unit :=
  gets loc ≫= λ l,
  match l with
  | CRw b => iderw patience b
  | CWait b _ => iderw_wait b
  | CUse b x => gets obj ≫= λ o, when (may_use o p b x) (set_obj (set_ibuf b x))
  | CIntr => set_obj (set_irq false) ≫= λ _, ideintr patience
  | CFinish => set_obj (λ o, set_irq true (set_hw (finish true (dev_hw o)) o))
  end.

Definition callable o (p : nat) (l : call) : Prop :=
  match l with
  | CRw b => (2 ≤ p)%nat ∧ (b < NBUF)%nat ∧ owns p (ibufs o b) = true ∧ request (havedisk1 o) (ibufs o b)
  | CUse b x => (2 ≤ p)%nat ∧ (b < NBUF)%nat
  | CIntr => p = 0%nat ∧ irq o = true
  | CFinish => p = 1%nat ∧ ∃ c, phase (dev_hw o) = PBusy c
  | CWait _ _ => False
  end.

(** The request [x0] for buffer [b] has been served. *)
Definition synced o (x0 : buf) (b : nat) : Prop :=
  let x := ibufs o b in
  valid x = true ∧ dirty x = false ∧ disks (dev_hw o) (dev x) (blockno x) = data x ∧
  dev x = dev x0 ∧ blockno x = blockno x0 ∧ (dirty x0 = true → data x = data x0).

Definition call_ok o q (p : nat) (l : call) : Prop :=
  match l with
  | CRw b => callable o p l ∧ b ∉ q
  | CUse _ _ => callable o p l ∧ ∀ c, c ∈ q → owns p (ibufs o c) = false
  | CWait b x0 => (2 ≤ p)%nat ∧ (b < NBUF)%nat ∧ owns p (ibufs o b) = true ∧
      (b ∈ q ∧ ibufs o b = x0 ∨ b ∉ q ∧ synced o x0 b)
  | _ => callable o p l
  end.

Definition one_buf o : Prop := ∀ b c, (b < NBUF)%nat → (c < NBUF)%nat →
  locked (lock (ibufs o b)) = true → locked (lock (ibufs o c)) = true →
  clash (ibufs o b) (ibufs o c) = true → b = c.

(** A run of [p] from [o] to [o'] is no harm to the calls of the others. *)
Definition rest_ok o q o' q' (p : nat) : Prop :=
  ∀ p' l', p' ≠ p → call_ok o q p' l' → call_ok o' q' p' l'.

Lemma owns_one p p' x : owns p x = true → owns p' x = true → p = p'.
Proof. unfold owns. rewrite !andb_true_iff, !Z.eqb_eq. lia. Qed.
Lemma not_busy_queue o q c : ide_ok o q → phase (dev_hw o) = PBusy c →
  irq o = false ∧ ∃ b q', q = b :: q' ∧ phase (dev_hw o) = PBusy (cmd_of (ibufs o b)).
Proof.
  intros Hok Hc. pose proof (io_hw _ _ Hok) as Hh. destruct q as [|b q].
  - destruct Hh as [_ [E|E]]; congruence.
  - destruct Hh as [[Hi E]|[_ Hs]]; [eauto|]. unfold served in Hs. destruct (dirty _); [destruct Hs|]; congruence.
Qed.

Lemma rest_iderw o q b p h' :
  ide_ok o q → owns p (ibufs o b) = true → disks h' = disks (dev_hw o) → (q ≠ [] → h' = dev_hw o) →
  rest_ok o q (set_hw h' (enqueued o b (last q))) (q ++ [b]) p.
Proof.
  intros Hok Hp Hd Hh p' l' Hne Hl.
  assert (Hx : ibufs (enqueued o b (last q)) = ibufs o ∧ havedisk1 (enqueued o b (last q)) = havedisk1 o ∧
    irq (enqueued o b (last q)) = irq o) by (by destruct (last q)). destruct Hx as (Ex&Eh&Ei).
  assert (Hother : ∀ c, owns p' (ibufs o c) = true → c ≠ b) by (intros c Hc ->; by pose proof (owns_one _ _ _ Hp Hc)).
  destruct l' as [c|c x0|c x| |]; cbn in *; rewrite ?Ex, ?Eh, ?Ei.
  - destruct Hl as [(?&?&Hc&?) ?]. specialize (Hother c Hc). split; [done|]. set_solver.
  - destruct Hl as (?&?&Hc&Hl). specialize (Hother c Hc). split_and!; try done.
    destruct Hl as [[? ?]|[? ?]]; [left; set_solver|right]. split; [set_solver|].
    unfold synced in *. cbn. by rewrite Ex, Hd.
  - destruct Hl as [? Hl]. split; [done|]. intros y [Hy| ->%list_elem_of_singleton]%elem_of_app; [by apply Hl|].
    destruct (owns p' (ibufs o b)) eqn:E; [by destruct (Hother b E)|done].
  - done.
  - destruct Hl as [-> [cm Hcm]]. destruct (not_busy_queue _ _ _ Hok Hcm) as (_&c&q'&->&_).
    split; [done|]. exists cm. by rewrite Hh.
Qed.

Lemma owns_set p f m x : owns p (set_flags f (set_data m x)) = owns p x.
Proof. done. Qed.

(** The handler has served the first request. *)
Lemma intr_ok o b q m f o' : ide_ok o (b :: q) → irq o = true → taken (set_irq false o) b m f o' → ide_ok o' q.
Proof.
  intros [Hq Hn Hr Hrq Hh] Hi [T1 T2 T3 T4 T5 T6 T7 T8]. cbn in T1, T2, T3, T4, T5, T6, T7, T8.
  destruct Hq as [_ Hq]. apply NoDup_cons in Hn as [Hb Hn]. split; rewrite ?T1, ?T2, ?T3, ?T4; try done.
  - intros c Hc. apply Hr. by right.
  - intros c Hc. rewrite T6, decide_False by (by intros ->). apply Hrq. by right.
  - rewrite T1 in T8. destruct q as [|c q]; cbn in Hq.
    + rewrite Hq in T8. done.
    + destruct Hq as [Hc _]. rewrite Hc in T8. by left.
Qed.

Lemma rest_intr o b q m f o' p :
  ide_ok o (b :: q) → irq o = true → p = 0%nat → taken (set_irq false o) b m f o' →
  (if dirty (ibufs o b) then m = data (ibufs o b)
   else if decide (phase (dev_hw o) = PFailed) then m = data (ibufs o b) else phase (dev_hw o) = PData m) →
  rest_ok o (b :: q) o' q p.
Proof.
  intros Hok Hi -> [T1 T2 T3 T4 T5 T6 T7 T8] Hm p' l' Hne Hl. cbn in T1, T2, T3, T4, T5, T6, T7, T8.
  pose proof Hok as [_ Hn _ _ Hh]. apply NoDup_cons in Hn as [Hb Hn].
  destruct Hh as [[? _]|[_ Hs]]; [congruence|]. unfold served in Hs.
  assert (Hown : ∀ c r, owns r (ibufs o' c) = owns r (ibufs o c)) by (intros c r; rewrite T6; destruct (decide (c = b)) as [->|]; done).
  destruct l' as [c|c x0|c x| |]; cbn [call_ok callable] in *; rewrite ?Hown, ?T3.
  - destruct Hl as [(?&?&?&?) Hc]. rewrite T6, decide_False by set_solver. split; [done|set_solver].
  - destruct Hl as (?&?&?&Hl). split_and!; try done. unfold synced. rewrite T6, T5. destruct (decide (c = b)) as [Hcb|Hcb].
    + subst c. right. split; [done|]. destruct Hl as [[_ <-]|[? _]]; [|set_solver].
      split_and!; [by rewrite valid_bit; apply T7|by rewrite dirty_bit; apply T7| |done..|]; cbn.
      * destruct (dirty (ibufs o b)); [destruct Hs; congruence|]. rewrite decide_False in Hm by congruence. congruence.
      * intros Hd. rewrite Hd in Hm. done.
    + destruct Hl as [[Hc Hx0]|[Hc Hsy]]; [left|right]; (split; [set_solver|done]).
  - destruct Hl as [? Hl]. split; [done|]. intros y Hy. rewrite Hown. apply Hl. by right.
  - destruct Hl. done.
  - destruct Hl as [-> [cm Hcm]]. destruct (not_busy_queue _ _ _ Hok Hcm). congruence.
Qed.

(** The disk has finished a command. *)
Lemma ide_finish_ok o q c : ide_ok o q → phase (dev_hw o) = PBusy c →
  ide_ok (set_irq true (set_hw (finish true (dev_hw o)) o)) q.
Proof.
  intros Hok Hc. destruct (not_busy_queue _ _ _ Hok Hc) as (Hi&b&q'&->&Hb).
  destruct Hok as [Hq Hn Hr Hrq _]. split; try done. right. split; [done|]. unfold served, cmd_of in *. cbn.
  destruct (dirty (ibufs o b)).
  - destruct (finish_write _ _ _ _ Hb) as [-> Hd]. split; [done|]. by rewrite Hd, decide_True.
  - destruct (finish_read _ _ _ Hb) as [-> ->]. done.
Qed.

Lemma rest_finish o q c p : ide_ok o q → one_buf o → phase (dev_hw o) = PBusy c → p = 1%nat →
  rest_ok o q (set_irq true (set_hw (finish true (dev_hw o)) o)) q p.
Proof.
  intros Hok H1 Hc -> p' l' Hne Hl. destruct (not_busy_queue _ _ _ Hok Hc) as (Hi&b&q'&->&Hb).
  destruct l' as [d|d x0|d x| |]; cbn [call_ok callable set_irq set_hw ibufs havedisk1 irq dev_hw] in *; try done.
  - destruct Hl as (?&?&Hd&Hl). split_and!; try done. destruct Hl as [Hl|[Hn Hs]]; [by left|right]. split; [done|].
    unfold synced in *. cbn. destruct Hs as (S1&S2&S3&S4). split_and!; try done; try apply S4.
    rewrite <- S3. unfold cmd_of in Hb. destruct (dirty (ibufs o b)); [|by rewrite (proj2 (finish_read _ _ _ Hb))].
    rewrite (proj2 (finish_write _ _ _ _ Hb)), decide_False; [done|]. intros [E1 E2].
    pose proof (io_req _ _ Hok b ltac:(left)) as [Hlk _ _ _]. apply Hn.
    rewrite (H1 d b); [left|done|by apply (io_range _ _ Hok); left| |done|].
    + by apply andb_prop in Hd as [? _].
    + unfold clash. by rewrite E1, E2, !Z.eqb_refl.
  - by destruct Hl.
  - by destruct Hl.
Qed.

(** A process uses a buffer outside of the driver. *)
Lemma use_queue o q p b x : ide_ok o q → call_ok o q p (CUse b x) → may_use o p b x = true → b ∉ q.
Proof.
  intros Hok [_ Hl] [[Hu|Hu]%orb_prop _]%andb_prop Hb.
  - pose proof (rq_locked _ _ (io_req _ _ Hok b Hb)) as E. by rewrite E in Hu.
  - by rewrite Hl in Hu.
Qed.

Lemma use_ok o q p b x : ide_ok o q → one_buf o → call_ok o q p (CUse b x) → may_use o p b x = true →
  ide_ok (set_ibuf b x o) q ∧ one_buf (set_ibuf b x o) ∧ rest_ok o q (set_ibuf b x o) q p.
Proof.
  intros Hok H1 Hl Hu. pose proof (use_queue _ _ _ _ _ Hok Hl Hu) as Hbq.
  assert (Hsame : ∀ c, c ≠ b → ibufs (set_ibuf b x o) c = ibufs o c) by (intros; by apply fn_lookup_insert_ne).
  assert (Hx : ibufs (set_ibuf b x o) b = x) by apply fn_lookup_insert.
  apply andb_prop in Hu as [Hold Hnew]. split_and!.
  - destruct Hok as [Hq Hn Hr Hrq Hh]. split; try done.
    + intros c Hc. rewrite Hsame by set_solver. by apply Hrq.
    + destruct q as [|c q]; [done|]. rewrite Hsame by set_solver. done.
  - assert (Hnc : ∀ c, (c < NBUF)%nat → c ≠ b → locked (lock x) = true → locked (lock (ibufs o c)) = true →
      clash x (ibufs o c) = false).
    { intros c Hc Hne Hlx Hlc. rewrite Hlx in Hnew. apply andb_prop in Hnew as [_ Hf].
      rewrite forallb_forall in Hf. specialize (Hf c ltac:(apply in_seq; lia)).
      rewrite Hlc, (proj2 (Nat.eqb_neq c b)) in Hf by done. by destruct (clash x (ibufs o c)). }
    intros c d Hc Hd. destruct (decide (c = b)) as [->|Hcb], (decide (d = b)) as [->|Hdb];
      rewrite ?Hx, ?Hsame by done; try done.
    + intros. by rewrite (Hnc d) in *.
    + intros ? ? Hcl. assert (clash x (ibufs o c) = true) by (unfold clash in *; by rewrite (Z.eqb_sym (dev x)), (Z.eqb_sym (blockno x))).
      by rewrite (Hnc c) in *.
    + by apply H1.
  - intros p' l' Hne Hl'. assert (Hother : ∀ c, owns p' (ibufs o c) = true → c ≠ b).
    { intros c Hc ->. apply orb_prop in Hold as [Hold|Hold]; [|by pose proof (owns_one _ _ _ Hold Hc)].
      apply andb_prop in Hc as [Hc _]. by rewrite Hc in Hold. }
    destruct l' as [c|c x0|c y| |]; cbn [call_ok callable] in *; try done.
    + destruct Hl' as [(?&?&Hc&?) ?]. by rewrite Hsame by auto.
    + destruct Hl' as (?&?&Hc&Hl'). unfold synced. by rewrite Hsame by auto.
    + destruct Hl' as [? Hl']. split; [done|]. intros d Hd. rewrite Hsame by set_solver. by apply Hl'.
Qed.

(** What a run of a thread with local state [l] does to the queue [q]. *)
Definition run_returns o q p l (s' : mst ide call) q' : Prop :=
  ide_ok (obj s') q' ∧ one_buf (obj s') ∧ rest_ok o q (obj s') q' p ∧
  (q' = q ∧ woke s' = [] ∨ ∃ b, q = b :: q' ∧ woke s' = [ChBuf b]) ∧
  (∀ b x0, l = CWait b x0 → b ∉ q ∧ q' = q ∧ synced (obj s') x0 b).
Definition run_sleeps o q p l (ch : chan) (s' : mst ide call) q' : Prop :=
  ide_ok (obj s') q' ∧ one_buf (obj s') ∧ rest_ok o q (obj s') q' p ∧ woke s' = [] ∧
  ∃ b x0, loc s' = CWait b x0 ∧ ch = ChBuf b ∧ b ∈ q' ∧ call_ok (obj s') q' p (loc s') ∧
    (q' = q ∧ l = loc s' ∨ q' = q ++ [b] ∧ l = CRw b).

Lemma wait_run o q p b x0 : ide_ok o q → one_buf o → call_ok o q p (CWait b x0) →
  wrun (iderw_wait b) (Mst o (CWait b x0) []) (λ _ s', run_returns o q p (CWait b x0) s' q)
    (λ ch s', run_sleeps o q p (CWait b x0) ch s' q).
Proof.
  intros Hok H1 Hl. pose proof Hl as (Hp&Hr&Hown&Hc). unfold iderw_wait. rewrite wrun_bind. unfold gets at 1, wrun at 1.
  cbn [obj]. rewrite flags_nothing_to_do. destruct Hc as [[Hb <-]|[Hb Hs]].
  - rewrite (rq_todo _ _ (io_req _ _ Hok b Hb)). split; [done|].
    split_and!; [done|by intros ???|done|]. exists b, (ibufs o b). split_and!; try done. by left.
  - destruct Hs as (S1&S2&Hs). rewrite S1, S2. split; [done|]. split_and!; [done|by intros ???|by left|].
    intros b' x' [= <- <-]. by split_and!.
Qed.

Lemma op_run o q p k l : ide_ok o q → one_buf o → call_ok o q p l →
  wrun (ide_op p k) (Mst o l []) (λ _ s', ∃ q', run_returns o q p l s' q')
    (λ ch s', ∃ q', run_sleeps o q p l ch s' q').
Proof.
  intros Hok H1 Hl. unfold ide_op. rewrite wrun_bind. unfold gets at 1, wrun at 1. cbn [loc]. destruct l as [b|b x0|b x| |].
  - destruct Hl as [(Hp&Hr&Hown&Hrq) Hb]. eapply wrun_mono; [by apply (iderw_run o q b)|done|].
    intros ch s' (h'&->&->&Hd&Hh1&Hh2). exists (q ++ [b]). split; [|split_and!; try done].
    + by apply iderw_ok.
    + by destruct (last q).
    + by apply rest_iderw.
    + assert (Hx : ibufs (enqueued o b (last q)) = ibufs o) by (by destruct (last q)).
      exists b, (ibufs o b). split_and!; try done; [set_solver| |by right].
      cbn. rewrite Hx. split_and!; try done. left. set_solver.
  - eapply wrun_mono; [by apply wait_run|naive_solver..].
  - rewrite wrun_bind. unfold gets at 1, wrun at 1. cbn [obj]. destruct (may_use o p b x) eqn:Hu; cbn [when].
    + destruct (use_ok o q p b x Hok H1 Hl Hu) as (?&?&?). exists q. split; [done|]. split_and!; try done. by left.
    + exists q. split; [done|]. split_and!; [done|by intros ???|by left|done].
  - destruct Hl as [Hp Hi]. pose proof (io_hw _ _ Hok) as Hh. destruct q as [|b q]; [destruct Hh; congruence|].
    destruct Hh as [[? _]|[_ Hs]]; [congruence|]. rewrite wrun_bind. unfold set_obj at 1, modify at 1, wrun at 1. cbn [obj loc woke].
    apply wp_wrun. eapply wp_mono; [|apply (ideintr_run (set_irq false o) b q)].
    + intros ? s' (_&Hw&m&f&Ht&Hm). exists q. split; [|split_and!; try done].
      * by eapply intr_ok.
      * intros c d Hc Hd. rewrite !(tk_bufs _ _ _ _ _ Ht). cbn. specialize (H1 c d Hc Hd).
        destruct (decide (c = b)) as [->|], (decide (d = b)) as [->|]; done.
      * by eapply rest_intr.
      * right. eauto.
    + apply Hok.
    + apply Hok.
    + intros c Hc. apply (io_req _ _ Hok). by right.
    + cbn. unfold served in Hs. destruct (dirty (ibufs o b)); [left; apply Hs|right; eauto].
  - destruct Hl as [Hp [c Hc]]. exists q. split; [by eapply ide_finish_ok|].
    split_and!; try done; [by eapply rest_finish|by left].
Qed.

Abbreviation ide_sys := (@msys ide call unit).
Definition in_call (s : ide_sys) (p : nat) (l : call) : Prop :=
  m_thr s p = TReady l ∨ ∃ ch, m_thr s p = TAsleep ch l.

Record sys_ok (s : ide_sys) q : Prop := {
  sk_ide : ide_ok (m_obj s) q;
  sk_one : one_buf (m_obj s);
  sk_call p l : in_call s p l → call_ok (m_obj s) q p l;
  sk_owner b : b ∈ q → ∃ p x0, in_call s p (CWait b x0);
  sk_asleep p ch l : m_thr s p = TAsleep ch l → ∃ b x0, ch = ChBuf b ∧ l = CWait b x0 ∧ b ∈ q
}.

(** The threads after a run of [p]. *)
Lemma in_call_run (s : ide_sys) p t ws p' l o k lg :
  in_call {| m_obj := o; m_thr := <[p := t]> (λ r, roused ws (m_thr s r)); m_killed := k; m_log := lg |} p' l ↔
  if decide (p' = p) then t = TReady l ∨ ∃ ch, t = TAsleep ch l else in_call s p' l.
Proof.
  unfold in_call. cbn. unfold insert, fn_insert. destruct (decide (p' = p)) as [->|Hne].
  - by rewrite decide_True.
  - rewrite decide_False by done. split; [apply roused_inv|].
    intros [-> |[ch ->]]; [by left|]. cbn. case_decide; eauto.
Qed.

Lemma idle_owner (s : ide_sys) q p c : sys_ok s q → m_thr s p = TIdle → c ∈ q → owns p (ibufs (m_obj s) c) = false.
Proof.
  intros Hs Hp Hc. destruct (sk_owner _ _ Hs c Hc) as (p2&x0&Hin). destruct (sk_call _ _ Hs _ _ Hin) as (_&_&Ho&_).
  destruct (owns p _) eqn:E; [|done]. pose proof (owns_one _ _ _ E Ho) as <-. destruct Hin as [Hin|[? Hin]]; congruence.
Qed.

Lemma call_starts (s : ide_sys) q p l : sys_ok s q → m_thr s p = TIdle → callable (m_obj s) p l →
  call_ok (m_obj s) q p l.
Proof.
  intros Hs Hp Hc. destruct l as [b|b x0|b x| |]; cbn in *; try done.
  - split; [done|]. intros Hb. destruct Hc as (_&_&Ho&_). by rewrite (idle_owner _ _ _ _ Hs Hp Hb) in Ho.
  - split; [done|]. intros c Hb. by eapply idle_owner.
Qed.

Lemma step_return (s : ide_sys) q p l a st : sys_ok s q → m_thr s p = TReady l →
  ide_op p (m_killed s p) (Mst (m_obj s) l []) = Ret a st → ∃ q', run_returns (m_obj s) q p l st q' ∧
  sys_ok {| m_obj := obj st; m_thr := <[p := TIdle]> (λ r, roused (woke st) (m_thr s r));
            m_killed := m_killed s; m_log := m_log s ++ [(p, loc st, a)] |} q'.
Proof.
  intros [Hok H1 Hcall Hown Hsl] Hp Hb. pose proof (op_run _ q p (m_killed s p) l Hok H1 (Hcall p l (or_introl Hp))) as Hr.
  unfold wrun in Hr. rewrite Hb in Hr. destruct Hr as [q' Hr]. exists q'. split; [done|].
  destruct Hr as (Hok'&H1'&Hrest&Hq&Hw). split; cbn [m_obj]; [done..| | |].
  - intros p' l'. rewrite in_call_run. case_decide; [naive_solver|]. intros Hl. by apply Hrest; [|apply Hcall].
  - intros b Hbq. assert (Hbq' : b ∈ q) by (destruct Hq as [[<- _]|[c [-> _]]]; [done|by right]).
    destruct (Hown b Hbq') as (p2&x0&Hin). exists p2, x0. rewrite in_call_run. case_decide; [|done]. subst p2.
    destruct Hin as [Hin|[ch Hin]]; rewrite Hp in Hin; simplify_eq. by destruct (Hw b x0 eq_refl).
  - intros p' ch l'. cbn. unfold insert, fn_insert. case_decide; [done|]. intros [Ha Hn]%roused_asleep.
    destruct (Hsl p' ch l' Ha) as (b&x0&->&->&Hbq). exists b, x0. split_and!; try done.
    destruct Hq as [[-> _]|[c [-> Hwk]]]; [done|]. rewrite Hwk in Hn. set_solver.
Qed.

Lemma step_sleep (s : ide_sys) q p l ch st : sys_ok s q → m_thr s p = TReady l →
  ide_op p (m_killed s p) (Mst (m_obj s) l []) = Sleep ch st → ∃ q', run_sleeps (m_obj s) q p l ch st q' ∧
  sys_ok {| m_obj := obj st; m_thr := <[p := TAsleep ch (loc st)]> (λ r, roused (woke st) (m_thr s r));
            m_killed := m_killed s; m_log := m_log s |} q'.
Proof.
  intros [Hok H1 Hcall Hown Hsl] Hp Hb. pose proof (op_run _ q p (m_killed s p) l Hok H1 (Hcall p l (or_introl Hp))) as Hr.
  unfold wrun in Hr. rewrite Hb in Hr. destruct Hr as [q' Hr]. exists q'. split; [done|].
  destruct Hr as (Hok'&H1'&Hrest&Hw&b&x0&Hl&->&Hbq&Hcl&Hq).
  assert (Hsub : ∀ c, c ∈ q → c ∈ q') by (intros c; destruct Hq as [[-> _]|[-> _]]; set_solver).
  split; cbn [m_obj]; [done..| | |].
  - intros p' l'. rewrite in_call_run. case_decide; [by intros [?|[? [= _ <-]]]; [|subst]|].
    intros Hl'. by apply Hrest; [|apply Hcall].
  - intros c Hc. destruct (decide (c = b)) as [->|Hne].
    { exists p, x0. rewrite in_call_run, decide_True by done. right. rewrite Hl. eauto. }
    assert (Hcq : c ∈ q) by (destruct Hq as [[<- _]|[-> _]]; set_solver).
    destruct (Hown c Hcq) as (p2&x1&Hin). exists p2, x1. rewrite in_call_run. case_decide; [|done]. subst p2.
    destruct Hin as [Hin|[? Hin]]; rewrite Hp in Hin; simplify_eq. destruct Hq as [[_ Hq]|[_ Hq]]; congruence.
  - intros p' ch l'. cbn. unfold insert, fn_insert. case_decide; [intros [= <- <-]; eauto|].
    rewrite Hw. intros [Ha _]%roused_asleep. destruct (Hsl p' ch l' Ha) as (c&x1&->&->&Hc). eauto 10.
Qed.

(** A request joins the end of the queue, or leaves it at the front. *)
Definition fifo q q' : Prop := q' = q ∨ (∃ b, q' = q ++ [b]) ∨ ∃ b, q = b :: q'.

Lemma ide_step_ok (s s' : ide_sys) q : sys_ok s q → mstep ide_op callable s s' → ∃ q', sys_ok s' q' ∧ fifo q q'.
Proof.
  intros Hs. destruct 1 as [p l Hp Hc ->|p l a st Hp Hb ->|p l ch st Hp Hb ->|p ->].
  - exists q. split; [|by left]. pose proof (call_starts _ _ _ _ Hs Hp Hc) as Hl. destruct Hs as [Hok H1 Hcall Hown Hsl].
    split; cbn [m_obj]; [done..| | |].
    + intros p' l'. unfold in_call. cbn. unfold insert, fn_insert. case_decide; [|by apply Hcall]. subst. by intros [[= <-]|[]].
    + intros b Hbq. destruct (Hown b Hbq) as (p2&x0&Hin). exists p2, x0. unfold in_call in *. cbn. unfold insert, fn_insert.
      case_decide; [|done]. subst. rewrite Hp in Hin. naive_solver.
    + intros p' ch l'. cbn. unfold insert, fn_insert. case_decide; [done|]. apply Hsl.
  - destruct (step_return _ _ _ _ _ _ Hs Hp Hb) as (q'&(_&_&_&Hq&_)&Hs'). exists q'. split; [done|].
    destruct Hq as [[-> _]|[b [-> _]]]; [by left|right; right; eauto].
  - destruct (step_sleep _ _ _ _ _ _ Hs Hp Hb) as (q'&(_&_&_&_&b&x0&_&_&_&_&Hq)&Hs'). exists q'. split; [done|].
    destruct Hq as [[-> _]|[-> _]]; [by left|right; left; eauto].
  - exists q. split; [|by left]. destruct Hs as [Hok H1 Hcall Hown Hsl].
    assert (Hin : ∀ p' l', in_call {| m_obj := m_obj s;
      m_thr := <[p := match m_thr s p with TAsleep _ l => TReady l | t => t end]> (m_thr s);
      m_killed := <[p := true]> (m_killed s); m_log := m_log s |} p' l' ↔ in_call s p' l').
    { intros p' l'. unfold in_call. cbn. unfold insert, fn_insert. case_decide; [subst p'|done].
      destruct (m_thr s p); naive_solver. }
    split; cbn [m_obj]; [done..| | |].
    + intros p' l'. rewrite Hin. apply Hcall.
    + intros b Hbq. destruct (Hown b Hbq) as (p2&x0&?). exists p2, x0. by rewrite Hin.
    + intros p' ch l'. cbn. unfold insert, fn_insert. case_decide; [|apply Hsl]. by destruct (m_thr s p).
Qed.

(** Before the first request. *)
Definition ide_start o : Prop :=
  idequeue o = None ∧ irq o = false ∧ calm (dev_hw o) ∧ one_buf o.

Lemma ide_reachable_ok (s0 s : ide_sys) : quiet s0 → ide_start (m_obj s0) →
  rtc (mstep ide_op callable) s0 s → ∃ q, sys_ok s q.
Proof.
  intros [Hq _] (Hi&Hirq&Hc&H1) Hr.
  assert (Hs : ∃ q, sys_ok s0 q).
  { exists []. split; [|done|..].
    - split; [done|constructor|by intros b ?%elem_of_nil..|done].
    - intros p l [E|[ch E]]; by rewrite Hq in E.
    - by intros b ?%elem_of_nil.
    - intros p ch l E. by rewrite Hq in E. }
  clear Hq Hi Hirq Hc H1. induction Hr as [|s1 s2 s3 Hst _ IH]; [done|]. apply IH.
  destruct Hs as [q Hs]. destruct (ide_step_ok _ _ _ Hs Hst) as (q'&?&_). eauto.
Qed.

(** A run in a reachable state: it neither panics nor hangs; if it returns from a wait in
    iderw then the request has been served. *)
Definition run_fine o q p k l : Prop :=
  wrun (ide_op p k) (Mst o l [])
    (λ _ st, ∀ b x0, l = CWait b x0 → b ∉ q ∧ synced (obj st) x0 b)
    (λ ch st, ∃ b x0, loc st = CWait b x0 ∧ ch = ChBuf b).

(** C9: any number of processes read and write blocks through iderw on a disk that does not
    fail, in any interleaving with the disk and its interrupts.  The requests form a queue
    that is served in order.  While it is not empty the disk is working on the first request
    or its interrupt is pending, so that no request is left behind.  A process sleeps in
    iderw only while its request is in the queue: no wakeup is lost.  When iderw returns the
    buffer is valid and clean and agrees with the disk, and a buffer that was to be written
    has not changed.  No run of the driver panics or waits for the disk forever.  On a disk
    that fails, however, the handler reports success: the buffer is marked valid and clean
    with its old data, whether the read or the write failed. *)
Theorem disk_driver :
  (∀ s0 s : ide_sys, quiet s0 → ide_start (m_obj s0) → rtc (mstep ide_op callable) s0 s →
   ∃ q, qrep (idequeue (m_obj s)) (qnext (m_obj s)) q ∧ NoDup q ∧
    (∀ s', mstep ide_op callable s s' →
       ∃ q', qrep (idequeue (m_obj s')) (qnext (m_obj s')) q' ∧ fifo q q') ∧
    (q ≠ [] → callable (m_obj s) 0 CIntr ∨ callable (m_obj s) 1 CFinish) ∧
    (∀ p ch l, m_thr s p = TAsleep ch l → ∃ b x0, ch = ChBuf b ∧ l = CWait b x0 ∧ b ∈ q) ∧
    (∀ p l, m_thr s p = TReady l → run_fine (m_obj s) q p (m_killed s p) l)) ∧
  (∀ o b c, ide_ok o [b] → phase (dev_hw o) = PBusy c →
   wp (ide_op 0 false) (Mst (set_irq true (set_hw (finish false (dev_hw o)) o)) CIntr []) (λ _ st,
     let x := ibufs (obj st) b in
     valid x = true ∧ dirty x = false ∧ data x = data (ibufs o b) ∧
     disks (dev_hw (obj st)) = disks (dev_hw o) ∧ woke st = [ChBuf b])).
Proof.
  split.
  - intros s0 s Hq H0 Hr. destruct (ide_reachable_ok s0 s Hq H0 Hr) as [q Hs]. exists q.
    pose proof (sk_ide _ _ Hs) as Hok. split_and!; [apply Hok|apply Hok|..].
    + intros s' Hst. destruct (ide_step_ok _ _ _ Hs Hst) as (q'&Hs'&Hf). exists q'. split; [|done]. apply Hs'.
    + pose proof (io_hw _ _ Hok) as Hh. destruct q as [|b q]; [done|]. intros _.
      destruct Hh as [[Hi E]|[Hi _]]; [right|by left]. split; [done|eauto].
    + apply Hs.
    + intros p l Hp. eapply wrun_mono; [apply (op_run _ q); [done|apply Hs|apply Hs; by left]|..].
      * intros ? st (q'&_&_&_&_&Hw) b x0 Hl. destruct (Hw b x0 Hl) as (?&_&?). done.
      * intros ch st (q'&_&_&_&_&b&x0&?&?&_). eauto.
  - intros o b c Hok Hc. destruct (finish_fail _ _ Hc) as [Ep Ed]. unfold ide_op.
    rewrite wp_bind. unfold gets at 1, wp at 1. cbn [loc]. rewrite wp_bind. unfold set_obj at 1, modify at 1, wp at 1. cbn [obj loc woke].
    eapply wp_mono; [|apply (ideintr_run _ b []); [apply Hok|apply Hok|by intros ? ?%elem_of_nil|]].
    2: { cbn. rewrite Ep. destruct (dirty _); [by right|by left]. }
    cbn [dev_hw set_irq set_hw ibufs]. intros ? st (_&->&m&f&[T1 T2 T3 T4 T5 T6 T7 T8]&Hm). cbn in T5, T6.
    rewrite T6, decide_True, T5, Ed by done. rewrite decide_True in Hm by done.
    split_and!; try done; [by rewrite valid_bit; apply T7|by rewrite dirty_bit; apply T7|cbn].
    by destruct (dirty (ibufs o b)).
Qed.
End driver.

(** ** A disk *)

Record sim := { s_reg : Z → Z; s_disks : Z → Z → mem; s_phase : ata_phase }.
Definition sim_set (p : ata_phase) (h : sim) : sim := {| s_reg := s_reg h; s_disks := s_disks h; s_phase := p |}.
Definition sim_drive (h : sim) : Z := Z.land (Z.shiftr (s_reg h 0x1f6) 4) 1.
Definition sim_lba (h : sim) : Z :=
  s_reg h 0x1f3 + 256 * s_reg h 0x1f4 + 65536 * s_reg h 0x1f5 + 16777216 * Z.land (s_reg h 0x1f6) 0xf.
Definition sim_out (p v : Z) (h : sim) : sim :=
  if p =? 0x1f7 then
    sim_set (if v =? 0x20 then PBusy (CmdRead (sim_drive h) (sim_lba h)) else PAccept (sim_drive h) (sim_lba h)) h
  else {| s_reg := <[p := v]> (s_reg h); s_disks := s_disks h; s_phase := s_phase h |}.
Definition sim_status (h : sim) : Z :=
  match s_phase h with PBusy _ => 0x80 | PFailed => 0x41 | _ => 0x40 end.
Definition sim_finish (ok : bool) (h : sim) : sim :=
  match s_phase h with
  | PBusy c =>
      if ok then match c with
        | CmdRead d s => sim_set (PData (s_disks h d s)) h
        | CmdWrite d s m => {| s_reg := s_reg h; s_phase := PIdle;
            s_disks := λ d' s', if decide (d' = d ∧ s' = s) then m else s_disks h d' s' |}
        end
      else sim_set PFailed h
  | _ => h
  end.

#[export] Instance sim_hw : Hardware := {|
  hw := sim;
  inb := λ p h, (if p =? 0x1f7 then sim_status h else 0, h);
  outb := sim_out;
  insl := λ _ _ h, match s_phase h with PData m => (m, sim_set PIdle h) | _ => (∅, h) end;
  outsl := λ _ m _ h, match s_phase h with PAccept d s => sim_set (PBusy (CmdWrite d s m)) h | _ => h end
|}.
#[export] Program Instance sim_ata : Ata 1 := {|
  reg := s_reg; disks := s_disks; phase := s_phase; finish := sim_finish |}.
Next Obligation. done. Qed.
Next Obligation.
  intros h Hb. exists O. split; [lia|]. cbn. unfold sim_status, is_ready. destruct (s_phase h); try done. by destruct (Hb c).
Qed.
Next Obligation. intros h Hr. cbn in *. unfold sim_status in *. by destruct (s_phase h). Qed.
Next Obligation.
  intros p v h Hp. cbn. unfold sim_out. rewrite (proj2 (Z.eqb_neq _ _)) by set_solver. split_and!; try done.
  intros r. cbn. unfold insert, fn_insert. destruct (decide (p = r)), (decide (r = p)); congruence.
Qed.
Next Obligation. done. Qed.
Next Obligation. done. Qed.
Next Obligation. intros h d s m E. cbn in *. by rewrite E. Qed.
Next Obligation. intros h m E. cbn in *. by rewrite E. Qed.
Next Obligation. intros h d s E. unfold sim_finish. by rewrite E. Qed.
Next Obligation. intros h d s m E. unfold sim_finish. by rewrite E. Qed.
Next Obligation. intros h c E. unfold sim_finish. by rewrite E. Qed.

(** Process 2 writes block 5 of disk 1 from buffer 0. *)
Definition ex_buf : buf :=
  {| flags := B_DIRTY; dev := 1; blockno := 5; lock := {| locked := true; pid := 2 |}; refcnt := 1;
     prev := 0; next := 0; data := wr8 ∅ 3 65 |}.
Definition ex_free : buf :=
  {| flags := 0; dev := 0; blockno := 0; lock := initsleeplock; refcnt := 0; prev := 0; next := 0; data := ∅ |}.
Definition ex_ide : ide := {|
  idequeue := None; qnext := λ _, None; ibufs := <[0%nat := ex_buf]> (λ _, ex_free); havedisk1 := true;
  dev_hw := {| s_reg := λ _, 0; s_disks := λ _ _, ∅; s_phase := PIdle |}; irq := false |}.
Definition ex_sys (o : ide) (t : thread call) : @msys ide call unit := {|
  m_obj := o; m_thr := <[2%nat := t]> (λ _, TIdle); m_killed := λ _, false; m_log := [] |}.

Lemma ex_ide_start : ide_start ex_ide.
Proof.
  split_and!; try done; [by left|]. intros b c _ _. cbn. unfold insert, fn_insert. by do 2 case_decide; subst.
Qed.
Lemma ex_request : request true ex_buf.
Proof. split; try done. by right. Qed.

(** After its run the process sleeps and the disk writes. *)
Definition ex_asleep : mst ide call :=
  match ide_op (A := sim_ata) 2 false (Mst ex_ide (CRw 0) []) with Sleep _ st => st | _ => Mst ex_ide (CRw 0) [] end.

Lemma ex_run : ide_op (A := sim_ata) 2 false (Mst ex_ide (CRw 0) []) = Sleep (ChBuf 0) ex_asleep.
Proof. vm_compute. reflexivity. Qed.
Lemma ex_asleep_loc : loc ex_asleep = CWait 0 ex_buf.
Proof. vm_compute. reflexivity. Qed.

Lemma ex_steps : ∃ s, rtc (mstep ide_op callable) (ex_sys ex_ide TIdle) s ∧ m_obj s = obj ex_asleep ∧
  m_thr s 2%nat = TAsleep (ChBuf 0) (CWait 0 ex_buf).
Proof.
  eexists. split; [|split]; [eapply rtc_l; [|eapply rtc_l; [|apply rtc_refl]]|..].
  - eapply (ms_call _ _ _ _ 2%nat (CRw 0)); [done| |done]. cbn. split_and!; try done; [unfold NBUF; lia..|apply ex_request].
  - eapply (ms_sleep _ _ _ _ 2%nat (CRw 0) (ChBuf 0) ex_asleep); [done|exact ex_run|done].
  - done.
  - cbn [m_thr]. rewrite ex_asleep_loc. done.
Qed.

Lemma disk_driver_witness :
  (∃ s, m_thr s 2%nat = TAsleep (ChBuf 0) (CWait 0 ex_buf) ∧ rtc (mstep ide_op callable) (ex_sys ex_ide TIdle) s ∧
    (callable (m_obj s) 0 CIntr ∨ callable (m_obj s) 1 CFinish)) ∧
  wp (ide_op 0 false) (Mst (set_irq true (set_hw (finish false (dev_hw (obj ex_asleep))) (obj ex_asleep))) CIntr [])
    (λ _ st, valid (ibufs (obj st) 0%nat) = true ∧ disks (dev_hw (obj st)) 1 5 = ∅).
Proof.
  split.
  - destruct ex_steps as (s&Hr&_&Ht). exists s. split; [done|]. split; [done|].
    destruct (proj1 disk_driver (ex_sys ex_ide TIdle) s) as (q&_&_&_&Hp&Hs&_); [|apply ex_ide_start|done|].
    + split; [|done]. intros p. cbn. unfold insert, fn_insert. by case_decide.
    + apply Hp. destruct (Hs _ _ _ Ht) as (b&x0&_&_&Hb). by intros ->; apply elem_of_nil in Hb.
  - eapply wp_mono; [|apply (proj2 disk_driver (obj ex_asleep) 0%nat (CmdWrite 1 5 (data ex_buf)))].
    + cbn. intros ? st (?&_&_&Hd&_). split; [done|]. by rewrite Hd.
    + split; [done|apply NoDup_singleton|..].
      * intros b ->%list_elem_of_singleton. unfold NBUF. lia.
      * intros b ->%list_elem_of_singleton. apply ex_request.
      * left. done.
    + done.
Defined.
End Ide.
