(* ===== verification/Mkfs.v ===== *)
(** The program that builds the file system image (src/mkfs.c).

    The image is an array of sectors that grows when a sector after its end is written; a
    read after its end fails, and mkfs then exits, as it does when an assertion fails (both
    are [panic] here).  Files of the host are lists of the pieces that read() returns.
    Memory is little-endian (Memory.v), and structures are kept in it as the compiler of the
    kernel lays them out (Fs.v).

    [image_ok] is the invariant while files are added, [mkfs_image] the result: the image
    satisfies what the theorems on the kernel's file system (Fs*.v) ask of a disk, with the
    files in its root directory. *)

From Stdlib Require Import ZArith Lia.
From stdpp Require Import base tactics numbers gmap strings functions list.
From S2P Require Import Prelude Memory Kstring Monitor Sleeplock Buf Log Journal Fs Fsblock Fsinode Fsfile Fsrw Fsdir.

#[local] Open Scope Z_scope.

Module Mkfs.

Definition NINODES : Z := 200.
Definition FSSIZE : Z := 1000.

Definition nbitmap : Z := FSSIZE / (BSIZE * 8) + 1.
Definition ninodeblocks : Z := NINODES / IPB + 1.
Definition nlog : Z := LOGSIZE.
Definition nmeta : Z := 2 + nlog + ninodeblocks + nbitmap.
Definition nblocks : Z := FSSIZE - nmeta.

(** The bytes a[0], a[1], ... of the result. *)
Definition xshort (x : Z) : Z := u8 x + 256 * u8 (Z.shiftr x 8).
Definition xint (x : Z) : Z :=
  u8 x + 256 * u8 (Z.shiftr x 8) + 65536 * u8 (Z.shiftr x 16) + 16777216 * u8 (Z.shiftr x 24).

(** The variable sb, and its bytes. *)
Definition mk_sb : superblock := {|
  sb_size := xint FSSIZE; sb_nblocks := xint nblocks; sb_ninodes := xint NINODES; sb_logblocks := xint nlog;
  sb_log := xint 2; sb_inodestart := xint (2 + nlog); sb_bmapstart := xint (2 + nlog + ninodeblocks) |}.
Definition sb_bytes (s : superblock) : mem :=
  wr32 (wr32 (wr32 (wr32 (wr32 (wr32 (wr32 ∅ 0 (sb_size s)) 4 (sb_nblocks s)) 8 (sb_ninodes s))
    12 (sb_logblocks s)) 16 (sb_log s)) 20 (sb_inodestart s)) 24 (sb_bmapstart s).

Record mkst := { img : Z → mem; isize : Z; freeinode : Z; freeblock : Z }.
Abbreviation M := (K mkst).

Definition set_img c n s := {| img := c; isize := n; freeinode := freeinode s; freeblock := freeblock s |}.
Definition set_freeinode i s := {| img := img s; isize := isize s; freeinode := i; freeblock := freeblock s |}.
Definition set_freeblock b s := {| img := img s; isize := isize s; freeinode := freeinode s; freeblock := b |}.
Definition assert_ (b : bool) : M unit := if b then mret tt else panic "assert".

Definition wsect (sec : Z) (buf : mem) : M unit :=
  modify (λ s, set_img (<[sec := buf]> (img s)) (Z.max (isize s) (sec + 1)) s).
Definition rsect (sec : Z) : M mem :=
  gets isize ≫= λ n, if n <=? sec then panic "read" else gets (λ s, img s sec).

Definition dinode0 : inode := {|
  i_dev := 0; i_inum := 0; i_ref := 0; i_lock := initsleeplock; i_valid := false; i_type := 0; i_major := 0;
  i_minor := 0; i_nlink := 0; i_size := 0; i_addrs := λ _, 0 |}.

Definition winode (inum : Z) (ip : inode) : M unit :=
  let bn := IBLOCK inum mk_sb in
  rsect bn ≫= λ buf,
  wsect bn (store_inode ip (inum mod IPB * DINODE) buf).
Definition rinode (inum : Z) : M inode :=
  rsect (IBLOCK inum mk_sb) ≫= λ buf, mret (load_inode buf (inum mod IPB * DINODE) dinode0).

Definition ialloc (type : Z) : M Z :=
  gets freeinode ≫= λ inum,
  modify (set_freeinode (u32 (inum + 1))) ≫= λ _,
  winode inum (set_i_size (xint 0) (set_i_nlink (xshort 1) (set_i_type (xshort type) dinode0))) ≫= λ _,
  mret inum.

(** The bits of the blocks below [used]. *)
Fixpoint set_bits (n : nat) : mem :=
  match n with
  | O => ∅
  | S n' => let i := Z.of_nat n' in
      let buf := set_bits n' in wr8 buf (i / 8) (Z.lor (rd8 buf (i / 8)) (Z.shiftl 1 (i mod 8)))
  end.
Definition balloc (used : Z) : M unit :=
  assert_ (used <? BSIZE * 8) ≫= λ _, wsect (sb_bmapstart mk_sb) (set_bits (Z.to_nat used)).

Definition new_block : M Z :=
  gets freeblock ≫= λ b, modify (set_freeblock (u32 (b + 1))) ≫= λ _, mret (xint b).

(** The block for block [fbn] of the file; din may get new addresses. *)
Definition iappend_block (din : inode) (fbn : Z) : M (inode * Z) :=
  if fbn <? NDIRECT then
    (if xint (i_addrs din fbn) =? 0 then new_block ≫= λ b, mret (set_i_addr fbn b din) else mret din) ≫= λ din,
    mret (din, xint (i_addrs din fbn))
  else
    (if xint (i_addrs din NDIRECT) =? 0 then new_block ≫= λ b, mret (set_i_addr NDIRECT b din) else mret din) ≫= λ din,
    rsect (xint (i_addrs din NDIRECT)) ≫= λ ind,
    (if rd32 ind (4 * (fbn - NDIRECT)) =? 0 then
       new_block ≫= λ b,
       let ind := wr32 ind (4 * (fbn - NDIRECT)) b in
       wsect (xint (i_addrs din NDIRECT)) ind ≫= λ _, mret ind
     else mret ind) ≫= λ ind,
    mret (din, xint (rd32 ind (4 * (fbn - NDIRECT)))).

Fixpoint iappend_loop (fuel : nat) (din : inode) (off : Z) (p : list Z) : M (inode * Z) :=
  match p, fuel with
  | [], _ => mret (din, off)
  | _, O => diverge
  | _, S fuel' =>
      let fbn := off / BSIZE in
      assert_ (fbn <? MAXFILE) ≫= λ _,
      iappend_block din fbn ≫= λ '(din, x),
      let n1 := Z.min (Z.of_nat (length p)) ((fbn + 1) * BSIZE - off) in
      rsect x ≫= λ buf,
      wsect x (wr_bytes buf (off - fbn * BSIZE) (take (Z.to_nat n1) p)) ≫= λ _,
      iappend_loop fuel' din (off + n1) (drop (Z.to_nat n1) p)
  end.
Definition iappend (inum : Z) (p : list Z) : M unit :=
  rinode inum ≫= λ din,
  iappend_loop (length p) din (xint (i_size din)) p ≫= λ '(din, off),
  winode inum (set_i_size (xint off) din).

(** A file of the host: its name, and what the calls of read() return. *)
Definition hostfile : Type := list Z * list (list Z).
Definition underscore : Z := 95.
Definition skip_underscore (name : list Z) : list Z :=
  match name with c :: name' => if c =? underscore then name' else name | [] => name end.

Definition add_file (rootino : Z) (f : hostfile) : M unit :=
  assert_ (forallb (λ c, negb (c =? slash)) f.1) ≫= λ _,
  ialloc T_FILE ≫= λ inum,
  iappend rootino (de_bytes (skip_underscore f.1) (xshort inum)) ≫= λ _,
  for_each f.2 (iappend inum).

Definition main (files : list hostfile) : M unit :=
  modify (set_freeblock nmeta) ≫= λ _,
  for_each (seqZ 0 FSSIZE) (λ i, wsect i ∅) ≫= λ _,
  wsect 1 (sb_bytes mk_sb) ≫= λ _,
  ialloc T_DIR ≫= λ rootino,
  assert_ (rootino =? ROOTINO) ≫= λ _,
  iappend rootino (de_bytes [46] (xshort rootino)) ≫= λ _,
  iappend rootino (de_bytes [46; 46] (xshort rootino)) ≫= λ _,
  for_each files (add_file rootino) ≫= λ _,
  rinode rootino ≫= λ din,
  let off := (xint (i_size din) / BSIZE + 1) * BSIZE in
  winode rootino (set_i_size (xint off) din) ≫= λ _,
  gets freeblock ≫= balloc.

(** When the program starts, with the image truncated. *)
Definition mk_start : mkst := {| img := λ _, ∅; isize := 0; freeinode := 1; freeblock := 0 |}.

(** ** The blocks of a file that grows *)

(** The first [nb] blocks of the file are there, below [fb], and it has an indirect block
    if [hi]. *)
Record tree (c : Z → mem) (fb : Z) (ip : inode) (nb : Z) (hi : bool) : Prop := {
  tr_nb : 0 ≤ nb ≤ MAXFILE;
  tr_slot k : fblock k → (slot c ip k ≠ 0 ↔ k < nb);
  tr_ind : indirect ip ≠ 0 ↔ hi = true;
  tr_hi : NDIRECT < nb → hi = true;
  tr_range x : owned c ip x → nmeta ≤ x < fb;
  tr_inj k k' : fblock k → fblock k' → slot c ip k ≠ 0 → slot c ip k = slot c ip k' → k = k';
  tr_sep k : fblock k → slot c ip k ≠ 0 → slot c ip k ≠ indirect ip
}.

Definition zeros (c : Z → mem) (fb : Z) : Prop := ∀ x o, fb ≤ x → rd8 (c x) o = 0.
Definition same_addrs (ip ip' : inode) : Prop := ∀ k, 0 ≤ k ≤ NDIRECT → i_addrs ip' k = i_addrs ip k.

Lemma slot_ext c c' ip ip' k : same_addrs ip ip' → (indirect ip ≠ 0 → c' (indirect ip) = c (indirect ip)) →
  fblock k → slot c' ip' k = slot c ip k.
Proof.
  intros Ha Hc Hk. unfold slot. destruct (Z.ltb_spec k NDIRECT); [apply Ha; unfold fblock, NDIRECT in *; lia|].
  assert (E : indirect ip' = indirect ip) by (apply Ha; unfold NDIRECT; lia). rewrite E.
  destruct (Z.eqb_spec (indirect ip) 0); [done|]. by rewrite Hc.
Qed.

Lemma owned_slots c c' ip ip' : indirect ip' = indirect ip → (∀ k, fblock k → slot c' ip' k = slot c ip k) →
  ∀ x, owned c' ip' x ↔ owned c ip x.
Proof.
  intros E Hs x. unfold owned. rewrite E.
  assert (H : (∃ k, fblock k ∧ x = slot c' ip' k) ↔ ∃ k, fblock k ∧ x = slot c ip k).
  { split; intros (k&Hk&Ek); exists k; (split; [done|]); specialize (Hs k Hk); congruence. }
  by rewrite H.
Qed.

Lemma tree_ext c c' fb fb' ip ip' nb hi : tree c fb ip nb hi → fb ≤ fb' → same_addrs ip ip' →
  (indirect ip ≠ 0 → c' (indirect ip) = c (indirect ip)) →
  tree c' fb' ip' nb hi ∧ (∀ k, fblock k → slot c' ip' k = slot c ip k) ∧ ∀ x, owned c' ip' x ↔ owned c ip x.
Proof.
  intros [T1 T2 T3 T4 T5 T6 T7] Hfb Ha Hc.
  assert (E : indirect ip' = indirect ip) by (apply Ha; unfold NDIRECT; lia).
  assert (Hs : ∀ k, fblock k → slot c' ip' k = slot c ip k).
  { intros k Hk. by apply slot_ext. }
  pose proof (owned_slots c c' ip ip' E Hs) as Ho. split; [|done]. split; try done.
  - intros k Hk. rewrite Hs by done. by apply T2.
  - by rewrite E.
  - intros x Hx. apply Ho, T5 in Hx. lia.
  - intros k k' Hk Hk'. rewrite !Hs by done. by apply T6.
  - intros k Hk. rewrite Hs, E by done. by apply T7.
Qed.

(** A file with one slot more, block [fb]. *)
Lemma tree_add c c' fb ip ip' nb hi : tree c fb ip nb hi → nmeta ≤ fb → nb < MAXFILE →
  (NDIRECT ≤ nb → hi = true) → indirect ip' = indirect ip →
  (∀ k, fblock k → slot c' ip' k = if decide (k = nb) then fb else slot c ip k) →
  tree c' (fb + 1) ip' (nb + 1) hi ∧ ∀ x, owned c' ip' x ↔ owned c ip x ∨ x = fb.
Proof.
  intros [T1 T2 T3 T4 T5 T6 T7] Hfb Hnb Hhi E Hs.
  change nmeta with 59 in *. change MAXFILE with 140 in *.
  assert (Hnew : ¬ owned c ip fb) by (intros ?%T5; lia).
  assert (Hold : ∀ k, fblock k → slot c ip k ≠ 0 → slot c ip k ≠ fb).
  { intros k Hk H0 Ek. apply Hnew. rewrite <- Ek. split; [done|right]. by exists k. }
  assert (Hind : indirect ip ≠ fb) by (intros Ek; apply Hnew; rewrite <- Ek; split; [lia|by left]).
  assert (Hz : fblock nb) by (unfold fblock; change MAXFILE with 140; lia).
  assert (Ho : ∀ x, owned c' ip' x ↔ owned c ip x ∨ x = fb).
  { intros x. unfold owned. rewrite E. split.
    - intros [Hx [?|(k&Hk&Ek)]]; [by left; split; [|left]|]. rewrite Hs in Ek by done. case_decide; [by right|].
      left. split; [done|right]. by exists k.
    - intros [[Hx [?|(k&Hk&Ek)]]| ->]; [by split; [|left]| |].
      + split; [done|right]. exists k. split; [done|]. rewrite Hs by done. rewrite decide_False; [done|]. intros ->.
        apply Hx. rewrite Ek. destruct (decide (slot c ip nb = 0)); [done|]. apply T2 in n; [lia|done].
      + split; [lia|right]. exists nb. split; [done|]. by rewrite Hs, decide_True. }
  split; [|done]. split; try done.
  - change MAXFILE with 140. lia.
  - intros k Hk. rewrite Hs by done. case_decide; [split; intros; lia|]. rewrite T2 by done. lia.
  - by rewrite E.
  - intros Hn. apply Hhi. lia.
  - change nmeta with 59. intros x [Hx| ->]%Ho; [apply T5 in Hx; lia|lia].
  - intros k k' Hk Hk'. rewrite !Hs by done. do 2 case_decide; subst; try done.
    + intros _ Ek. destruct (decide (slot c ip k' = 0)); [lia|]. by destruct (Hold k' Hk').
    + intros H0 Ek. by destruct (Hold k Hk H0).
    + by apply T6.
  - intros k Hk. rewrite Hs, E by done. case_decide; [done|]. by apply T7.
Qed.

(** The three ways in which iappend takes a block. *)
Lemma tree_direct c fb ip nb hi : tree c fb ip nb hi → nmeta ≤ fb → nb < NDIRECT →
  tree c (fb + 1) (set_i_addr nb fb ip) (nb + 1) hi ∧ slot c (set_i_addr nb fb ip) nb = fb ∧
  ∀ x, owned c (set_i_addr nb fb ip) x ↔ owned c ip x ∨ x = fb.
Proof.
  intros HT Hfb Hnb. pose proof (tr_nb _ _ _ _ _ HT). unfold NDIRECT in Hnb.
  assert (Hs : ∀ k, fblock k → slot c (set_i_addr nb fb ip) k = if decide (k = nb) then fb else slot c ip k).
  { intros k Hk. unfold slot, indirect, NDIRECT. cbn [set_i_addr i_addrs]. rewrite (fn_lookup_insert_ne _ nb 12) by lia.
    unfold insert, fn_insert. destruct (Z.ltb_spec k 12); repeat case_decide; subst; done || lia. }
  destruct (tree_add c c fb ip (set_i_addr nb fb ip) nb hi HT Hfb) as [HT' Ho]; try done.
  - change MAXFILE with 140. lia.
  - unfold NDIRECT. lia.
  - unfold indirect, NDIRECT. cbn. rewrite fn_lookup_insert_ne by lia. done.
  - split; [done|]. split; [|done]. rewrite Hs by (unfold fblock; change MAXFILE with 140; lia). by rewrite decide_True.
Qed.

Lemma tree_entry c fb ip nb : tree c fb ip nb true → nmeta ≤ fb → is_u32 fb → NDIRECT ≤ nb < MAXFILE →
  let c' := <[indirect ip := wr32 (c (indirect ip)) (4 * (nb - NDIRECT)) fb]> c in
  tree c' (fb + 1) ip (nb + 1) true ∧ slot c' ip nb = fb ∧ ∀ x, owned c' ip x ↔ owned c ip x ∨ x = fb.
Proof.
  intros HT Hfb Hu Hnb c'. assert (Hi : indirect ip ≠ 0) by (by apply (tr_ind _ _ _ _ _ HT)). unfold NDIRECT in *.
  assert (Hs : ∀ k, fblock k → slot c' ip k = if decide (k = nb) then fb else slot c ip k).
  { intros k Hk. unfold slot, NDIRECT. rewrite (proj2 (Z.eqb_neq _ _)) by done. unfold c'. rewrite fn_lookup_insert.
    destruct (Z.ltb_spec k 12); case_decide; try done; try lia; subst; [by rewrite rd32_wr32_eq|rewrite rd32_wr32_ne by lia; done]. }
  destruct (tree_add c c' fb ip ip nb true HT Hfb) as [HT' Ho]; try done; [lia|].
  split; [done|]. split; [|done]. rewrite Hs by (unfold fblock; lia). by rewrite decide_True.
Qed.

Lemma tree_indirect c fb ip : tree c fb ip NDIRECT false → nmeta ≤ fb → zeros c fb →
  tree c (fb + 1) (set_i_addr NDIRECT fb ip) NDIRECT true ∧
  ∀ x, owned c (set_i_addr NDIRECT fb ip) x ↔ owned c ip x ∨ x = fb.
Proof.
  intros [T1 T2 T3 T4 T5 T6 T7] Hfb Hz. change nmeta with 59 in *.
  assert (Hi : indirect ip = 0) by (destruct (decide (indirect ip = 0)); naive_solver).
  assert (Hi' : indirect (set_i_addr NDIRECT fb ip) = fb) by (unfold indirect; cbn; apply fn_lookup_insert).
  assert (Hs : ∀ k, fblock k → slot c (set_i_addr NDIRECT fb ip) k = slot c ip k).
  { intros k Hk. unfold slot. rewrite Hi, Hi'. destruct (Z.ltb_spec k NDIRECT).
    - cbn. apply fn_lookup_insert_ne. lia.
    - rewrite (proj2 (Z.eqb_neq fb 0)) by lia. unfold rd32. by rewrite !Hz by lia. }
  assert (Hnew : ¬ owned c ip fb) by (intros ?%T5; lia).
  assert (Ho : ∀ x, owned c (set_i_addr NDIRECT fb ip) x ↔ owned c ip x ∨ x = fb).
  { intros x. unfold owned. rewrite Hi, Hi'. split.
    - intros [Hx [?|(k&Hk&Ek)]]; [by right|left]. split; [done|right]. exists k. by rewrite <- Hs.
    - intros [[Hx [?|(k&Hk&Ek)]]| ->]; [done| |split; [lia|by left]]. split; [done|right]. exists k. by rewrite Hs. }
  split; [|done]. split; try done.
  - intros k Hk. rewrite Hs by done. by apply T2.
  - rewrite Hi'. split; [done|lia].
  - change nmeta with 59. intros x [Hx| ->]%Ho; [apply T5 in Hx; lia|lia].
  - intros k k' Hk Hk'. rewrite !Hs by done. by apply T6.
  - intros k Hk. rewrite Hs, Hi' by done. intros H0 Ek. apply Hnew. rewrite <- Ek. split; [done|right]. by exists k.
Qed.

Lemma xint_id x : is_u32 x → xint x = x.
Proof.
  unfold is_u32, xint, u8. intros Hx. rewrite !Z.shiftr_div_pow2 by lia.
  change (2 ^ 8) with 256. change (2 ^ 16) with 65536. change (2 ^ 24) with 16777216. zlia.
Qed.
Lemma xshort_id x : 0 ≤ x < 65536 → xshort x = x.
Proof. unfold xshort, u8. intros Hx. rewrite Z.shiftr_div_pow2 by lia. change (2 ^ 8) with 256. zlia. Qed.

(** The blocks that a file of [nb] data blocks takes. *)
Definition count (nb : Z) : Z := nb + if NDIRECT <? nb then 1 else 0.

Definition with_addrs (ip ip' : inode) : Prop := ∃ f, ip' = {| i_dev := i_dev ip; i_inum := i_inum ip; i_ref := i_ref ip;
  i_lock := i_lock ip; i_valid := i_valid ip; i_type := i_type ip; i_major := i_major ip; i_minor := i_minor ip;
  i_nlink := i_nlink ip; i_size := i_size ip; i_addrs := f |}.
Lemma with_addrs_refl ip : with_addrs ip ip.
Proof. exists (i_addrs ip). by destruct ip. Qed.
Lemma with_addrs_set ip k a : with_addrs ip (set_i_addr k a ip).
Proof. by eexists. Qed.
Lemma with_addrs_trans ip1 ip2 ip3 : with_addrs ip1 ip2 → with_addrs ip2 ip3 → with_addrs ip1 ip3.
Proof. intros [f ->] [g ->]. by exists g. Qed.

(** From [(c, fb, ip)] with [nb] blocks to [(c', fb', ip')] with [nb'], without harm to the
    blocks of others and to the data. *)
Record extended (c : Z → mem) (fb : Z) (ip : inode) (nb : Z) (c' : Z → mem) (fb' : Z) (ip' : inode) (nb' : Z) : Prop := {
  ex_fb : fb ≤ fb';
  ex_nb : nb ≤ nb';
  ex_zeros : zeros c' fb';
  ex_ip : with_addrs ip ip';
  ex_other y : y < fb → ¬ owned c ip y → c' y = c y;
  ex_owned y : owned c' ip' y → owned c ip y ∨ fb ≤ y;
  ex_slot k : 0 ≤ k < nb → slot c' ip' k = slot c ip k ∧ c' (slot c ip k) = c (slot c ip k);
  ex_fresh k o : nb ≤ k < nb' → rd8 (c' (slot c' ip' k)) o = 0
}.

Lemma extended_refl c fb ip nb : zeros c fb → extended c fb ip nb c fb ip nb.
Proof. intros. split; try done; [apply with_addrs_refl|by left|lia]. Qed.
Lemma extended_trans c1 fb1 ip1 nb1 c2 fb2 ip2 nb2 c3 fb3 ip3 nb3 :
  0 ≤ nb1 → extended c1 fb1 ip1 nb1 c2 fb2 ip2 nb2 → extended c2 fb2 ip2 nb2 c3 fb3 ip3 nb3 →
  extended c1 fb1 ip1 nb1 c3 fb3 ip3 nb3.
Proof.
  intros Hnb [F1 N1 Z1 I1 O1 W1 S1 R1] [F2 N2 Z2 I2 O2 W2 S2 R2]. split; try lia; try done.
  - by eapply with_addrs_trans.
  - intros y Hy Ho. rewrite O2, O1; [done..|lia|]. intros [?|?]%W1; [done|lia].
  - intros y [[?|?]%W1|?]%W2; [by left|by right|right; lia].
  - intros k Hk. destruct (S1 k Hk) as [E1 E2], (S2 k ltac:(lia)) as [E3 E4]. rewrite E3, E1. split; [done|].
    rewrite <- E1, E4, E1. done.
  - intros k o Hk. destruct (decide (k < nb2)); [|apply R2; lia]. destruct (S2 k ltac:(lia)) as [-> ->]. apply R1. lia.
Qed.

Lemma addr_u32 c fb ip nb hi k : tree c fb ip nb hi → fb ≤ FSSIZE → 0 ≤ k ≤ NDIRECT → is_u32 (i_addrs ip k).
Proof.
  intros HT Hfb Hk. unfold NDIRECT, FSSIZE, is_u32 in *. destruct (decide (i_addrs ip k = 0)) as [->|H0]; [lia|].
  assert (Ho : owned c ip (i_addrs ip k)).
  { split; [done|]. destruct (decide (k = 12)) as [->|]; [by left|right]. exists k. split; [unfold fblock; change MAXFILE with 140; lia|].
    unfold slot, NDIRECT. by rewrite (proj2 (Z.ltb_lt k 12)) by lia. }
  apply (tr_range _ _ _ _ _ HT) in Ho. change nmeta with 59 in Ho. lia.
Qed.


(** The states of mkfs after the sectors have been written. *)
Definition mk (c : Z → mem) (fi fb : Z) : mkst := {| img := c; isize := FSSIZE; freeinode := fi; freeblock := fb |}.

Lemma new_block_run c fi fb Q : 0 ≤ fb < FSSIZE → Q fb (mk c fi (fb + 1)) → wp new_block (mk c fi fb) Q.
Proof.
  unfold FSSIZE. intros Hfb HQ. change (Q (xint fb) (mk c fi (u32 (fb + 1)))).
  by rewrite xint_id, u32_small by (unfold is_u32; lia).
Qed.
Lemma rsect_run c fi fb x Q : x < FSSIZE → Q (c x) (mk c fi fb) → wp (rsect x) (mk c fi fb) Q.
Proof.
  intros Hx HQ. change (wp (if FSSIZE <=? x then panic "read" else gets (λ s, img s x)) (mk c fi fb) Q).
  by rewrite (proj2 (Z.leb_gt FSSIZE x)).
Qed.
Lemma wsect_run c fi fb x m Q : x < FSSIZE → Q tt (mk (<[x := m]> c) fi fb) → wp (wsect x m) (mk c fi fb) Q.
Proof.
  intros Hx HQ. assert (E : mk (<[x := m]> c) fi fb = set_img (<[x := m]> c) (Z.max FSSIZE (x + 1)) (mk c fi fb))
    by (unfold set_img; by rewrite Z.max_l by lia).
  rewrite E in HQ. exact HQ.
Qed.

(** A block of the file behind the indirect block. *)
Lemma entry_run c fi fb ip nb fbn (Q : inode * Z → mkst → Prop) :
  tree c fb ip nb true → zeros c fb → nmeta ≤ fb → NDIRECT ≤ fbn < MAXFILE → fbn ≤ nb →
  fb + (if fbn =? nb then 1 else 0) ≤ FSSIZE →
  (∀ c', let fb' := fb + (if fbn =? nb then 1 else 0) in let nb' := Z.max nb (fbn + 1) in
    tree c' fb' ip nb' true → extended c fb ip nb c' fb' ip nb' → Q (ip, slot c' ip fbn) (mk c' fi fb')) →
  wp (rsect (xint (i_addrs ip NDIRECT)) ≫= λ ind,
      (if rd32 ind (4 * (fbn - NDIRECT)) =? 0 then
         new_block ≫= λ b,
         let ind := wr32 ind (4 * (fbn - NDIRECT)) b in
         wsect (xint (i_addrs ip NDIRECT)) ind ≫= λ _, mret ind
       else mret ind) ≫= λ ind,
      mret (ip, xint (rd32 ind (4 * (fbn - NDIRECT))))) (mk c fi fb) Q.
Proof.
  intros HT Hz Hfb Hf Hnb Hroom HQ. pose proof HT as [T1 T2 T3 T4 T5 T6 T7].
  assert (Hi : indirect ip ≠ 0) by (by apply T3). change nmeta with 59 in *. change MAXFILE with 140 in *.
  assert (Hir : 59 ≤ indirect ip < fb) by (apply T5; split; [done|by left]).
  assert (Hfs : fb ≤ FSSIZE) by (destruct (fbn =? nb); lia).
  fold (indirect ip). rewrite xint_id by (unfold is_u32, FSSIZE in *; lia).
  assert (Hfk : fblock fbn) by (unfold fblock; change MAXFILE with 140; unfold NDIRECT in *; lia).
  assert (Hslot : ∀ c, slot c ip fbn = rd32 (c (indirect ip)) (4 * (fbn - NDIRECT))).
  { intros c0. unfold slot. by rewrite (proj2 (Z.ltb_ge fbn NDIRECT)), (proj2 (Z.eqb_neq _ 0)) by (done || lia). }
  rewrite wp_bind. apply rsect_run; [lia|]. rewrite wp_bind. rewrite <- Hslot.
  destruct (Z.eqb_spec fbn nb) as [->|Hlt].
  - assert (slot c ip nb = 0) as ->.
    { destruct (decide (slot c ip nb = 0)) as [|H0]; [done|]. apply T2 in H0; [lia|done]. }
    change (0 =? 0) with true. cbv iota.
    rewrite wp_bind. apply new_block_run; [lia|]. rewrite wp_bind. apply wsect_run; [lia|]. rewrite !wp_ret.
    destruct (tree_entry c fb ip nb HT) as (HT'&Hs&Ho); [done|unfold is_u32, FSSIZE in *; lia|done|].
    set (c' := <[indirect ip := _]> c) in *.
    assert (E : rd32 (wr32 (c (indirect ip)) (4 * (nb - NDIRECT)) fb) (4 * (nb - NDIRECT)) = slot c' ip nb).
    { rewrite Hslot. unfold c'. by rewrite fn_lookup_insert. }
    rewrite E, xint_id by (rewrite Hs; unfold is_u32, FSSIZE in *; lia). rewrite Z.max_r in HQ by lia.
    apply HQ; [done|]. split; try lia.
    + intros x o Hx. unfold c'. rewrite fn_lookup_insert_ne by lia. apply Hz. lia.
    + apply with_addrs_refl.
    + intros y Hy Hno. unfold c'. apply fn_lookup_insert_ne. intros <-. apply Hno. split; [done|by left].
    + intros y [?| ->]%Ho; [by left|right; lia].
    + intros k Hk. assert (Hfk' : fblock k) by (unfold fblock; change MAXFILE with 140; lia).
      split.
      * unfold slot, c'. rewrite fn_lookup_insert. destruct (k <? NDIRECT) eqn:Ek; [done|]. apply Z.ltb_ge in Ek.
        rewrite (proj2 (Z.eqb_neq _ 0)) by done. apply rd32_wr32_ne. lia.
      * unfold c'. apply fn_lookup_insert_ne. intros Es. symmetry in Es. revert Es. apply T7; [done|]. apply T2; [done|lia].
    + intros k o Hk. assert (k = nb) as -> by lia. rewrite Hs. unfold c'. rewrite fn_lookup_insert_ne by lia. apply Hz. lia.
  - assert (H0 : slot c ip fbn ≠ 0) by (apply T2; [done|lia]).
    rewrite (proj2 (Z.eqb_neq _ 0)) by done. rewrite !wp_ret, <- Hslot.
    assert (Hr : 59 ≤ slot c ip fbn < fb) by (apply T5; split; [done|right; by exists fbn]).
    rewrite xint_id by (unfold is_u32, FSSIZE in *; lia). rewrite Z.add_0_r, Z.max_l in HQ by lia.
    apply HQ; [done|]. by apply extended_refl.
Qed.

Lemma direct_run c fi fb ip nb fbn (Q : inode * Z → mkst → Prop) :
  tree c fb ip nb (NDIRECT <? nb) → zeros c fb → nmeta ≤ fb → 0 ≤ fbn < NDIRECT → fbn ≤ nb →
  fb + (if fbn =? nb then 1 else 0) ≤ FSSIZE →
  (∀ ip', let fb' := fb + (if fbn =? nb then 1 else 0) in let nb' := Z.max nb (fbn + 1) in
    tree c fb' ip' nb' (NDIRECT <? nb') → extended c fb ip nb c fb' ip' nb' → Q (ip', slot c ip' fbn) (mk c fi fb')) →
  wp ((if xint (i_addrs ip fbn) =? 0 then new_block ≫= λ b, mret (set_i_addr fbn b ip) else mret ip) ≫= λ ip,
      mret (ip, xint (i_addrs ip fbn))) (mk c fi fb) Q.
Proof.
  intros HT Hz Hfb Hf Hnb Hroom HQ. pose proof HT as [T1 T2 T3 T4 T5 T6 T7]. change nmeta with 59 in *.
  unfold NDIRECT in Hf. assert (Hfk : fblock fbn) by (unfold fblock; change MAXFILE with 140; lia).
  assert (Hslot : ∀ ip, slot c ip fbn = i_addrs ip fbn) by (intros ip0; unfold slot, NDIRECT; by rewrite (proj2 (Z.ltb_lt fbn 12)) by lia).
  assert (Hu : is_u32 (i_addrs ip fbn)).
  { apply (addr_u32 c fb ip nb (NDIRECT <? nb)); [done|destruct (fbn =? nb); lia|unfold NDIRECT; lia]. }
  rewrite wp_bind. rewrite (xint_id (i_addrs ip fbn)), <- (Hslot ip) by done. destruct (Z.eqb_spec fbn nb) as [->|Hlt].
  - assert (slot c ip nb = 0) as ->.
    { destruct (decide (slot c ip nb = 0)) as [|H0]; [done|]. apply T2 in H0; [lia|done]. }
    change (0 =? 0) with true. cbv iota. rewrite wp_bind. apply new_block_run; [lia|]. rewrite !wp_ret.
    destruct (tree_direct c fb ip nb _ HT) as (HT'&Hs&Ho); [done|unfold NDIRECT; lia|].
    rewrite <- Hslot, xint_id by (rewrite Hs; unfold is_u32, FSSIZE in *; lia). rewrite Z.max_r in HQ by lia.
    apply HQ.
    + replace (NDIRECT <? nb + 1) with (NDIRECT <? nb) by (unfold NDIRECT; destruct (Z.ltb_spec 12 nb), (Z.ltb_spec 12 (nb + 1)); lia). done.
    + split; try lia; try done.
      * intros x o Hx. apply Hz. lia.
      * apply with_addrs_set.
      * intros y [?| ->]%Ho; [by left|right; lia].
      * intros k Hk. split; [|done]. unfold slot, indirect, NDIRECT. cbn [set_i_addr i_addrs].
        rewrite (proj2 (Z.ltb_lt k 12)), fn_lookup_insert_ne by lia. done.
      * intros k o Hk. assert (k = nb) as -> by lia. rewrite Hs. apply Hz. lia.
  - assert (H0 : slot c ip fbn ≠ 0) by (apply T2; [done|lia]). rewrite (proj2 (Z.eqb_neq _ 0)) by done.
    rewrite !wp_ret, xint_id, <- Hslot by done. rewrite Z.add_0_r, Z.max_l in HQ by lia.
    apply HQ; [done|]. by apply extended_refl.
Qed.

Lemma block_run c fi fb ip nb fbn (Q : inode * Z → mkst → Prop) :
  let nb' := Z.max nb (fbn + 1) in let fb' := fb + count nb' - count nb in
  tree c fb ip nb (NDIRECT <? nb) → zeros c fb → nmeta ≤ fb → 0 ≤ fbn < MAXFILE → fbn ≤ nb → fb' ≤ FSSIZE →
  (∀ c' ip', tree c' fb' ip' nb' (NDIRECT <? nb') → extended c fb ip nb c' fb' ip' nb' →
     Q (ip', slot c' ip' fbn) (mk c' fi fb')) →
  wp (iappend_block ip fbn) (mk c fi fb) Q.
Proof.
  intros nb' fb' HT Hz Hfb Hf Hnb Hroom HQ. unfold iappend_block. change nmeta with 59 in *. change MAXFILE with 140 in *.
  assert (Hu : is_u32 (i_addrs ip NDIRECT)).
  { apply (addr_u32 c fb ip nb (NDIRECT <? nb)); [done| |unfold NDIRECT; lia].
    unfold fb', nb', count in Hroom. destruct (Z.ltb_spec NDIRECT (Z.max nb (fbn + 1))), (Z.ltb_spec NDIRECT nb); lia. }
  destruct (Z.ltb_spec fbn NDIRECT) as [Hd|Hd].
  - assert (Efb : fb' = fb + (if fbn =? nb then 1 else 0)).
    { unfold fb', nb', count, NDIRECT in *. destruct (Z.eqb_spec fbn nb), (Z.ltb_spec 12 nb), (Z.ltb_spec 12 (Z.max nb (fbn + 1))); lia. }
    apply (direct_run c fi fb ip nb fbn); try done; [lia..|]. intros ip'. cbv zeta. rewrite <- Efb. apply HQ.
  - assert (Hind : indirect ip ≠ 0 ↔ NDIRECT < nb) by (rewrite (tr_ind _ _ _ _ _ HT); apply Z.ltb_lt).
    rewrite wp_bind, (xint_id (i_addrs ip NDIRECT)) by done. fold (indirect ip).
    destruct (Z.eqb_spec (indirect ip) 0) as [E|E].
    + assert (nb = NDIRECT ∧ fbn = NDIRECT) as [-> ->] by (unfold NDIRECT in *; lia).
      change (NDIRECT <? NDIRECT) with false in HT. assert (Efb : fb' = fb + 2) by (unfold fb', nb', count; change (NDIRECT <? Z.max NDIRECT (NDIRECT + 1)) with true;
        change (NDIRECT <? NDIRECT) with false; cbv iota; lia).
      rewrite Efb in *. change nb' with (NDIRECT + 1) in *.
      rewrite wp_bind. apply new_block_run; [lia|]. apply wp_ret.
      destruct (tree_indirect c fb ip HT) as [HT1 Ho1]; [done..|].
      assert (Hz1 : zeros c (fb + 1)) by (intros x o Hx; apply Hz; lia).
      eapply (entry_run c fi (fb + 1) (set_i_addr NDIRECT fb ip) NDIRECT); try done; [change nmeta with 59; lia|rewrite Z.eqb_refl; cbv iota; lia|].
      rewrite Z.eqb_refl, Z.max_r by lia. replace (fb + 1 + 1) with (fb + 2) by lia. cbv zeta. intros c' HT2 Hext.
      apply HQ; [done|]. eapply extended_trans; [|  |exact Hext]; [unfold NDIRECT; lia|]. split; try lia; try done.
      * apply with_addrs_set.
      * intros y [?| ->]%Ho1; [by left|right; lia].
      * intros k Hk. split; [|done]. unfold slot. cbn [set_i_addr i_addrs]. rewrite (proj2 (Z.ltb_lt k NDIRECT)) by lia.
        apply fn_lookup_insert_ne. lia.
    + apply Hind in E. rewrite (proj2 (Z.ltb_lt NDIRECT nb)) in HT by done. apply wp_ret.
      assert (Efb : fb' = fb + (if fbn =? nb then 1 else 0)).
      { unfold fb', nb', count in *. destruct (Z.eqb_spec fbn nb), (Z.ltb_spec NDIRECT nb), (Z.ltb_spec NDIRECT (Z.max nb (fbn + 1))); lia. }
      apply (entry_run c fi fb ip nb fbn); try done; [change MAXFILE with 140; lia|by rewrite <- Efb|]. cbv zeta. rewrite <- Efb. intros c' HT' Hext.
      apply HQ; [|done]. rewrite (proj2 (Z.ltb_lt NDIRECT nb')) by lia. done.
Qed.

(** ** Appending to a file *)

Definition blocks (z : Z) : Z := (z + 511) / 512.

(** The file [ip] holds the bytes [l], and zeros up to the end of its last block. *)
Record holds_file (c : Z → mem) (fb : Z) (ip : inode) (l : list Z) : Prop := {
  hf_tree : tree c fb ip (blocks (Z.of_nat (length l))) (NDIRECT <? blocks (Z.of_nat (length l)));
  hf_data o : 0 ≤ o < blocks (Z.of_nat (length l)) * BSIZE → fbyte c ip o = nth (Z.to_nat o) l 0
}.

(** What the others see of a file that grows. *)
Record grew (c : Z → mem) (fb : Z) (ip : inode) (c' : Z → mem) (fb' : Z) (ip' : inode) : Prop := {
  g_fb : fb ≤ fb';
  g_zeros : zeros c' fb';
  g_ip : with_addrs ip ip';
  g_other y : y < fb → ¬ owned c ip y → c' y = c y;
  g_owned y : owned c' ip' y → owned c ip y ∨ fb ≤ y
}.
Lemma grew_refl c fb ip : zeros c fb → grew c fb ip c fb ip.
Proof. intros. split; try done; [apply with_addrs_refl|by left]. Qed.
Lemma grew_trans c1 fb1 ip1 c2 fb2 ip2 c3 fb3 ip3 :
  grew c1 fb1 ip1 c2 fb2 ip2 → grew c2 fb2 ip2 c3 fb3 ip3 → grew c1 fb1 ip1 c3 fb3 ip3.
Proof.
  intros [F1 Z1 I1 O1 W1] [F2 Z2 I2 O2 W2]. split; try lia; try done.
  - by eapply with_addrs_trans.
  - intros y Hy Ho. rewrite O2, O1; [done..|lia|]. intros [?|?]%W1; [done|lia].
  - intros y [[?|?]%W1|?]%W2; [by left|by right|right; lia].
Qed.

(** Writing the data of block [x = slot c ip k]. *)
Lemma put_data c fb ip nb hi k m : tree c fb ip nb hi → zeros c fb → fblock k → k < nb →
  let c' := <[slot c ip k := m]> c in
  tree c' fb ip nb hi ∧ (∀ j, fblock j → slot c' ip j = slot c ip j) ∧ grew c fb ip c' fb ip.
Proof.
  intros HT Hz Hk Hlt c'. pose proof HT as [T1 T2 T3 T4 T5 T6 T7].
  assert (H0 : slot c ip k ≠ 0) by (by apply T2).
  assert (Ho : owned c ip (slot c ip k)) by (split; [done|right; by exists k]).
  destruct (tree_ext c c' fb fb ip ip nb hi HT) as (HT'&Hs&Hown); [lia|done| |].
  { intros _. unfold c'. apply fn_lookup_insert_ne. by apply T7. }
  split; [done|]. split; [done|]. split; [lia| |apply with_addrs_refl| |].
  - intros x o Hx. unfold c'. apply T5 in Ho. rewrite fn_lookup_insert_ne by lia. by apply Hz.
  - intros y Hy Hn. unfold c'. apply fn_lookup_insert_ne. by intros <-.
  - intros y ?%Hown. by left.
Qed.

(** One round of the loop. *)
Lemma round_data c fb ip l c1 fb1 ip1 p n1 :
  let off := Z.of_nat (length l) in let fbn := off / BSIZE in
  let nb1 := Z.max (blocks off) (fbn + 1) in let x := slot c1 ip1 fbn in
  let c2 := <[x := wr_bytes (c1 x) (off - fbn * BSIZE) (take (Z.to_nat n1) p)]> c1 in
  holds_file c fb ip l → tree c1 fb1 ip1 nb1 (NDIRECT <? nb1) → extended c fb ip (blocks off) c1 fb1 ip1 nb1 →
  0 < n1 ≤ Z.of_nat (length p) → n1 ≤ (fbn + 1) * BSIZE - off → fbn < MAXFILE → Forall is_u8 p →
  holds_file c2 fb1 ip1 (l ++ take (Z.to_nat n1) p) ∧ grew c fb ip c2 fb1 ip1.
Proof.
  intros off fbn nb1 x c2 [HT Hd] HT1 [F1 N1 Z1 I1 O1 W1 S1 R1] Hn1 Hn1' Hmax Hp.
  change MAXFILE with 140 in *. unfold BSIZE in *. fold off in Hd.
  assert (Hoff : 0 ≤ off) by lia. assert (Hfbn : 0 ≤ fbn) by (unfold fbn; zlia).
  assert (Hfk : fblock fbn) by (unfold fblock; change MAXFILE with 140; lia).
  destruct (put_data c1 fb1 ip1 nb1 _ fbn (wr_bytes (c1 x) (off - fbn * 512) (take (Z.to_nat n1) p)) HT1 Z1 Hfk) as (HT2&Hs2&Hg2); [lia|].
  fold x c2 in HT2, Hs2, Hg2.
  assert (Hlen : Z.of_nat (length (l ++ take (Z.to_nat n1) p)) = off + n1).
  { rewrite length_app, length_take. fold off. unfold off. lia. }
  assert (Hnb : blocks (off + n1) = nb1) by (unfold nb1, blocks, fbn in *; zlia).
  split; [split|].
  - by rewrite Hlen, Hnb.
  - intros o Ho. rewrite Hlen, Hnb in Ho. unfold fbyte, BSIZE in *. set (k := o / 512).
    assert (Hk : fblock k) by (unfold fblock; change MAXFILE with 140; unfold k, nb1, blocks, fbn in *; zlia).
    rewrite Hs2 by done. unfold c2. destruct (decide (k = fbn)) as [Ek|Hne].
    + rewrite Ek. fold x. rewrite fn_lookup_insert, rd8_wr_bytes, length_take.
      assert (Eo : o = fbn * 512 + o mod 512) by (rewrite <- Ek; unfold k; zlia). case_decide as Hin.
      * rewrite !nth_lookup, lookup_app_r by (unfold off in *; zlia).
        replace (Z.to_nat (o mod 512 - (off - fbn * 512))) with (Z.to_nat o - length l)%nat by (unfold off in *; zlia).
        rewrite lookup_take_lt by (unfold off in *; zlia).
        destruct (p !! (Z.to_nat o - length l)%nat) as [v|] eqn:Ev; [|done]. cbn. apply u8_small. by eapply Forall_lookup_1.
      * assert (Eq : nth (Z.to_nat o) (l ++ take (Z.to_nat n1) p) 0 = nth (Z.to_nat o) l 0).
        { rewrite !nth_lookup. destruct (decide (o < off)); [by rewrite lookup_app_l by (unfold off in *; lia)|].
          rewrite !lookup_ge_None_2; [done|..]; rewrite ?length_app, ?length_take; unfold off in *; zlia. }
        rewrite Eq. destruct (decide (fbn < blocks off)) as [Hp1|Hf1].
        -- destruct (S1 fbn) as [E1 E2]; [lia|]. unfold x. rewrite E1, E2. rewrite <- Hd by zlia. fold k. by rewrite Ek.
        -- unfold x. rewrite R1 by (unfold nb1; lia). rewrite nth_lookup, lookup_ge_None_2; [done|].
           unfold blocks, fbn, off in *. zlia.
    + assert (Hkl : k < fbn) by (unfold k, nb1, blocks, fbn in *; zlia).
      destruct (S1 k) as [E1 E2]; [unfold k, blocks, fbn in *; zlia|]. rewrite E1.
      assert (Hko : o < off) by (unfold k, fbn in *; zlia).
      rewrite fn_lookup_insert_ne.
      * rewrite E2, nth_lookup, lookup_app_l, <- nth_lookup by (unfold off in *; lia). rewrite <- Hd by (unfold blocks; zlia). done.
      * intros Ex. apply Hne. symmetry. apply (tr_inj _ _ _ _ _ HT1); [done..| |by rewrite E1].
        apply (tr_slot _ _ _ _ _ HT1); [done|]. unfold nb1. lia.
  - apply (grew_trans c fb ip c1 fb1 ip1); [|done]. by split.
Qed.

Lemma count_mono a b : 0 ≤ a ≤ b → count a ≤ count b.
Proof. unfold count. intros. destruct (Z.ltb_spec NDIRECT a), (Z.ltb_spec NDIRECT b); lia. Qed.
Lemma blocks_mono a b : a ≤ b → blocks a ≤ blocks b.
Proof. unfold blocks. intros. zlia. Qed.

Lemma iappend_loop_S fuel din off p : p ≠ [] → iappend_loop (S fuel) din off p =
  let fbn := off / BSIZE in
  assert_ (fbn <? MAXFILE) ≫= λ _,
  iappend_block din fbn ≫= λ '(din, x),
  let n1 := Z.min (Z.of_nat (length p)) ((fbn + 1) * BSIZE - off) in
  rsect x ≫= λ buf,
  wsect x (wr_bytes buf (off - fbn * BSIZE) (take (Z.to_nat n1) p)) ≫= λ _,
  iappend_loop fuel din (off + n1) (drop (Z.to_nat n1) p).
Proof. by destruct p. Qed.

Lemma loop_run fuel c fi fb ip l p (Q : inode * Z → mkst → Prop) :
  let off := Z.of_nat (length l) in let off' := off + Z.of_nat (length p) in
  let fb' := fb + count (blocks off') - count (blocks off) in
  holds_file c fb ip l → zeros c fb → nmeta ≤ fb → Forall is_u8 p → (length p ≤ fuel)%nat →
  off' ≤ MAXFILE * BSIZE → fb' ≤ FSSIZE →
  (∀ c' ip', holds_file c' fb' ip' (l ++ p) → grew c fb ip c' fb' ip' → Q (ip', off') (mk c' fi fb')) →
  wp (iappend_loop fuel ip off p) (mk c fi fb) Q.
Proof.
  revert c fb ip l p. induction fuel as [|fuel IH]; intros c fb ip l p off off' fb' Hf Hz Hfb Hp Hfuel Hmax Hroom HQ;
    (destruct (decide (p = [])) as [->|Hne];
     [assert (E1 : off' = off) by (unfold off'; cbn [length]; lia);
      assert (E2 : fb' = fb) by (unfold fb'; rewrite E1; lia);
      specialize (HQ c ip); rewrite app_nil_r, E1, E2 in HQ; apply HQ; [done|by apply grew_refl]|]);
    (assert (Hlen : (0 < length p)%nat) by (destruct p; [done|cbn; lia])); [lia|].
  rewrite iappend_loop_S by done. cbv zeta. change nmeta with 59 in *.
  assert (Hoff : 0 ≤ off < off') by (unfold off'; lia).
  set (fbn := off / BSIZE) in *. set (n1 := Z.min (Z.of_nat (length p)) ((fbn + 1) * BSIZE - off)).
  set (nb1 := Z.max (blocks off) (fbn + 1)) in *. set (fb1 := fb + count nb1 - count (blocks off)).
  assert (Hn1 : 0 < n1 ≤ Z.of_nat (length p)) by (unfold n1, fbn, BSIZE; zlia).
  assert (Hnb1 : nb1 = blocks (off + n1)) by (unfold nb1, blocks, n1, fbn, BSIZE in *; zlia).
  assert (Hfb1 : fb1 ≤ fb').
  { unfold fb1, fb'. pose proof (count_mono nb1 (blocks off')). pose proof (blocks_mono (off + n1) off').
    assert (0 ≤ blocks (off + n1)) by (unfold blocks; zlia). lia. }
  assert (Hfbn : 0 ≤ fbn < MAXFILE) by (change (MAXFILE * BSIZE) with 71680 in Hmax; change MAXFILE with 140; unfold fbn, BSIZE; zlia).
  rewrite (proj2 (Z.ltb_lt fbn MAXFILE)) by lia. rewrite wp_bind. apply wp_ret. rewrite wp_bind.
  eapply (block_run c fi fb ip (blocks off) fbn); fold nb1 fb1; [apply Hf|done|change nmeta with 59; lia|done| |lia|].
  { unfold fbn, blocks, BSIZE. zlia. }
  intros c1 ip1 HT1 Hext. rewrite wp_bind.
  assert (Hx : slot c1 ip1 fbn < FSSIZE).
  { assert (slot c1 ip1 fbn < fb1); [|lia]. apply (tr_range _ _ _ _ _ HT1). split; [|right; by exists fbn].
    apply (tr_slot _ _ _ _ _ HT1); [done|]. unfold nb1. lia. }
  apply rsect_run; [done|]. rewrite wp_bind. apply wsect_run; [done|].
  destruct (round_data c fb ip l c1 fb1 ip1 p n1 Hf HT1 Hext Hn1) as [Hf2 Hg2]; [apply Z.le_min_r|apply Hfbn|done|].
  fold off fbn in Hf2, Hg2. set (c2 := <[slot c1 ip1 fbn := _]> c1) in *.
  assert (Hl2 : Z.of_nat (length (l ++ take (Z.to_nat n1) p)) = off + n1) by (rewrite length_app, length_take; unfold off; lia).
  assert (Hl3 : off + n1 + Z.of_nat (length (drop (Z.to_nat n1) p)) = off') by (rewrite length_drop; unfold off'; lia).
  assert (Hfb2 : fb1 + count (blocks off') - count (blocks (off + n1)) = fb') by (unfold fb1, fb'; rewrite Hnb1; lia).
  specialize (IH c2 fb1 ip1 (l ++ take (Z.to_nat n1) p) (drop (Z.to_nat n1) p)). cbv zeta in IH.
  rewrite Hl2, Hl3, Hfb2 in IH. apply IH; try done.
  - apply Hg2.
  - pose proof (g_fb _ _ _ _ _ _ Hg2). lia.
  - by apply Forall_drop.
  - rewrite length_drop. lia.
  - intros c' ip' Hf3 Hg3. apply HQ.
    + by rewrite <- (assoc_L (++)), take_drop in Hf3.
    + by eapply grew_trans.
Qed.

(** ** The image *)

Definition dino (c : Z → mem) (n : Z) : inode := load_inode (c (IBLOCK n mk_sb)) (n mod IPB * DINODE) dinode0.

(** The type and the bytes of each inode, from inode 1 on. *)
Abbreviation files := (list (Z * list Z)).
Definition size_of (f : Z * list Z) : Z := count (blocks (Z.of_nat (length f.2))).
Definition total (F : files) : Z := foldr (λ f a, size_of f + a) 0 F.

Record image_ok (c : Z → mem) (fi fb : Z) (F : files) : Prop := {
  im_fi : fi = Z.of_nat (length F) + 1;
  im_fb : fb = nmeta + total F;
  im_room : fb ≤ FSSIZE ∧ fi ≤ NINODES;
  im_zeros : zeros c fb;
  im_super : c 1 = sb_bytes mk_sb;
  im_log b : 2 ≤ b < 2 + nlog → c b = ∅;
  im_file i t l : F !! i = Some (t, l) → let ip := dino c (Z.of_nat i + 1) in
    i_type ip = t ∧ i_nlink ip = 1 ∧ i_size ip = Z.of_nat (length l) ∧ holds_file c fb ip l;
  im_free n : fi ≤ n < NINODES → i_type (dino c n) = 0;
  im_disj i j x : (i < length F)%nat → (j < length F)%nat →
    owned c (dino c (Z.of_nat i + 1)) x → owned c (dino c (Z.of_nat j + 1)) x → i = j
}.

Lemma IBLOCK_mk n : 0 ≤ n < NINODES → IBLOCK n mk_sb = n / 8 + 32 ∧ 32 ≤ IBLOCK n mk_sb < 57.
Proof.
  unfold NINODES. intros Hn. assert (E : IBLOCK n mk_sb = n / 8 + 32).
  { unfold IBLOCK. change IPB with 8. change (sb_inodestart mk_sb) with 32. apply u32_small. unfold is_u32. zlia. }
  rewrite E. split; [done|zlia].
Qed.

Lemma holds_ext c c' fb fb' ip ip' l : holds_file c fb ip l → fb ≤ fb' → same_addrs ip ip' →
  (∀ x, owned c ip x → c' x = c x) → holds_file c' fb' ip' l ∧ ∀ x, owned c' ip' x ↔ owned c ip x.
Proof.
  intros [HT Hd] Hfb Ha Hc. destruct (tree_ext c c' fb fb' ip ip' _ _ HT) as (HT'&Hs&Ho); try done.
  { intros Hi. apply Hc. split; [done|by left]. }
  split; [|done]. split; [done|]. intros o Hlen. pose proof (tr_nb _ _ _ _ _ HT) as Hnb. change MAXFILE with 140 in Hnb. unfold blocks, BSIZE in *.
  assert (Hk : fblock (o / 512)) by (unfold fblock; change MAXFILE with 140; zlia).
  unfold fbyte, BSIZE. rewrite Hs by done. rewrite Hc; [by apply Hd|]. split; [|right; by exists (o / 512)].
  apply (tr_slot _ _ _ _ _ HT); [done|]. zlia.
Qed.

Lemma same_inode_addrs ip ip' : same_inode ip ip' → same_addrs ip ip'.
Proof. intros (_&_&_&_&_&H). exact H. Qed.

(** winode stores one inode and leaves the others alone. *)
Lemma winode_run c fi fb n ip Q : 0 ≤ n < NINODES → inode_fits ip →
  (∀ c', same_inode ip (dino c' n) → (∀ m, 0 ≤ m < NINODES → m ≠ n → same_inode (dino c m) (dino c' m)) →
     (∀ y, ¬ (32 ≤ y < 57) → c' y = c y) → Q tt (mk c' fi fb)) →
  wp (winode n ip) (mk c fi fb) Q.
Proof.
  intros Hn Hfit HQ. destruct (IBLOCK_mk n Hn) as [E Hr]. unfold winode. rewrite wp_bind.
  apply rsect_run; [unfold FSSIZE; lia|]. apply wsect_run; [unfold FSSIZE; lia|]. apply HQ.
  - unfold dino. rewrite fn_lookup_insert. by apply load_store.
  - intros m Hm Hne. destruct (IBLOCK_mk m Hm) as [Em _]. unfold dino. change IPB with 8. unfold insert, fn_insert.
    case_decide as Hb; [|split_and!; done]. rewrite <- Hb. apply load_store_ne. unfold DINODE. rewrite E, Em in Hb. zlia.
  - intros y Hy. apply fn_lookup_insert_ne. lia.
Qed.

Lemma rinode_run c fi fb n Q : 0 ≤ n < NINODES → Q (dino c n) (mk c fi fb) → wp (rinode n) (mk c fi fb) Q.
Proof.
  intros Hn HQ. destruct (IBLOCK_mk n Hn) as [E Hr]. unfold rinode. rewrite wp_bind.
  apply rsect_run; [unfold FSSIZE; lia|]. exact HQ.
Qed.

Lemma s16_range x : is_s16 (s16 x).
Proof. unfold is_s16, s16, u16. case_match; zlia. Qed.

Lemma size_of_nonneg f : 0 ≤ size_of f.
Proof. unfold size_of, count, blocks. destruct (_ <? _); zlia. Qed.
Lemma total_nonneg F : 0 ≤ total F.
Proof. unfold total. induction F as [|f F IH]; cbn [foldr]; [lia|]. pose proof (size_of_nonneg f). lia. Qed.
Lemma total_app F F' : total (F ++ F') = total F + total F'.
Proof. unfold total. induction F as [|f F IH]; cbn [foldr app]; lia. Qed.
Lemma total_insert F i f g : F !! i = Some f → total (<[i := g]> F) = total F - size_of f + size_of g.
Proof.
  unfold total. revert i. induction F as [|f0 F IH]; intros [|i] Hi; cbn in Hi; simplify_eq; [cbn; lia|].
  specialize (IH _ Hi). change (<[S i := g]> (f0 :: F)) with (f0 :: <[i := g]> F). cbn [foldr]. lia.
Qed.

(** The inodes and the metadata are below the blocks of files. *)
Lemma image_dino c fi fb F i : image_ok c fi fb F → (i < length F)%nat →
  ∃ t l, F !! i = Some (t, l) ∧ 0 ≤ Z.of_nat i + 1 < NINODES ∧ i_type (dino c (Z.of_nat i + 1)) = t ∧
    i_nlink (dino c (Z.of_nat i + 1)) = 1 ∧
    i_size (dino c (Z.of_nat i + 1)) = Z.of_nat (length l) ∧ holds_file c fb (dino c (Z.of_nat i + 1)) l.
Proof.
  intros HI Hi. destruct (lookup_lt_is_Some_2 _ _ Hi) as [[t l] E]. exists t, l.
  pose proof (im_fi _ _ _ _ HI). pose proof (im_room _ _ _ _ HI). split; [done|]. split; [lia|]. by apply (im_file _ _ _ _ HI).
Qed.

(** While a file grows the inodes, and the other files, stay as they are. *)
Lemma image_grew c fi fb F i c' fb' ip' : image_ok c fi fb F → (i < length F)%nat →
  grew c fb (dino c (Z.of_nat i + 1)) c' fb' ip' →
  (∀ y, y < nmeta → c' y = c y) ∧
  (∀ j x, (j < length F)%nat → j ≠ i → owned c (dino c (Z.of_nat j + 1)) x → c' x = c x).
Proof.
  intros HI Hi [G1 G2 G3 G4 G5]. destruct (image_dino _ _ _ _ _ HI Hi) as (t&l&_&_&_&_&_&Hf).
  pose proof (im_fb _ _ _ _ HI). pose proof (total_nonneg F). split.
  - intros y Hy. apply G4; [lia|]. intros Ho. apply (tr_range _ _ _ _ _ (hf_tree _ _ _ _ Hf)) in Ho. lia.
  - intros j x Hj Hne Ho. destruct (image_dino _ _ _ _ _ HI Hj) as (t'&l'&_&_&_&_&_&Hf').
    apply G4.
    + apply (tr_range _ _ _ _ _ (hf_tree _ _ _ _ Hf')) in Ho. lia.
    + intros Ho'. apply Hne. by eapply (im_disj _ _ _ _ HI).
Qed.

Lemma dino_same c c' n : 0 ≤ n < NINODES → (∀ y, y < nmeta → c' y = c y) → dino c' n = dino c n.
Proof. intros Hn Hy. destruct (IBLOCK_mk n Hn) as [_ Hr]. unfold dino. rewrite Hy; [done|]. change nmeta with 59. lia. Qed.

(** An inode is stored for file [i], whose blocks have changed within what [grew] allows. *)
Lemma image_store c fi fb F i t l c1 fb1 ip1 c2 l' :
  let n := Z.of_nat i + 1 in
  image_ok c fi fb F → F !! i = Some (t, l) → grew c fb (dino c n) c1 fb1 ip1 → holds_file c1 fb1 ip1 l' →
  i_type (dino c2 n) = t → i_nlink (dino c2 n) = 1 → i_size (dino c2 n) = Z.of_nat (length l') → same_addrs ip1 (dino c2 n) →
  (∀ m, 0 ≤ m < NINODES → m ≠ n → same_inode (dino c1 m) (dino c2 m)) → (∀ y, ¬ (32 ≤ y < 57) → c2 y = c1 y) →
  fb1 = fb - size_of (t, l) + size_of (t, l') → fb1 ≤ FSSIZE →
  image_ok c2 fi fb1 (<[i := (t, l')]> F).
Proof.
  intros n HI Ei Hg Hf Ht Hl Hs Ha Hm Hy Hfb Hroom. assert (Hi : (i < length F)%nat) by (by eapply lookup_lt_Some).
  destruct (image_grew _ _ _ _ _ _ _ _ HI Hi Hg) as [Hmeta Hothers].
  pose proof HI as [J1 J2 J3 J4 J5 J6 J7 J8 J9]. pose proof (total_nonneg F). change nmeta with 59 in *.
  assert (Hown : ∀ j x, (j < length F)%nat → j ≠ i → owned c (dino c (Z.of_nat j + 1)) x → c2 x = c x ∧ 59 ≤ x < fb).
  { intros j x Hj Hne Ho. destruct (image_dino _ _ _ _ _ HI Hj) as (t'&l1&_&_&_&_&_&Hf').
    pose proof (tr_range _ _ _ _ _ (hf_tree _ _ _ _ Hf') x Ho) as Hr. change nmeta with 59 in Hr.
    rewrite Hy by lia. split; [by eapply Hothers|done]. }
  assert (Hold : ∀ m, 0 ≤ m < NINODES → m ≠ n → same_inode (dino c m) (dino c2 m)).
  { intros m Hr Hne. rewrite <- (dino_same c c1 m) by done. by apply Hm. }
  assert (Hself : holds_file c2 fb1 (dino c2 n) l' ∧ ∀ x, owned c2 (dino c2 n) x ↔ owned c1 ip1 x).
  { eapply holds_ext; [done|lia|done|]. intros x Ho. apply Hy.
    apply (tr_range _ _ _ _ _ (hf_tree _ _ _ _ Hf)) in Ho. change nmeta with 59 in Ho. lia. }
  assert (Hother : ∀ j t1 l1, F !! j = Some (t1, l1) → j ≠ i → holds_file c2 fb1 (dino c2 (Z.of_nat j + 1)) l1 ∧
    ∀ x, owned c2 (dino c2 (Z.of_nat j + 1)) x ↔ owned c (dino c (Z.of_nat j + 1)) x).
  { intros j t1 l1 Ej Hne. destruct (J7 j t1 l1 Ej) as (_&_&_&Hf'). pose proof (lookup_lt_Some _ _ _ Ej).
    eapply holds_ext; [done|apply Hg|apply same_inode_addrs, Hold; lia|]. intros x Ho. by eapply Hown. }
  split.
  - by rewrite length_insert.
  - rewrite (total_insert _ _ _ _ Ei). change nmeta with 59. lia.
  - by destruct J3.
  - intros x o Hx. pose proof (g_fb _ _ _ _ _ _ Hg). rewrite Hy by lia. by apply (g_zeros _ _ _ _ _ _ Hg).
  - rewrite Hy, Hmeta by lia. done.
  - change nlog with 30 in *. intros b Hb. rewrite Hy, Hmeta by lia. by apply J6.
  - intros j t1 l1. destruct (decide (j = i)) as [->|Hne].
    + rewrite list_lookup_insert_eq by done. intros [= <- <-]. by split_and!; [..|apply Hself].
    + rewrite list_lookup_insert_ne by done. intros Ej. destruct (J7 j t1 l1 Ej) as (H1&H2&H3&_). pose proof (lookup_lt_Some _ _ _ Ej).
      destruct (Hold (Z.of_nat j + 1)) as (E1&_&_&E2&E3&_); [lia..|]. split_and!; [congruence..|]. by apply (Hother j t1).
  - intros m Hmr. destruct (Hold m) as (E1&_); [lia..|]. rewrite E1. by apply J8.
  - rewrite length_insert. intros j k x Hj Hk.
    assert (Hown2 : ∀ j, (j < length F)%nat → owned c2 (dino c2 (Z.of_nat j + 1)) x →
      owned c (dino c (Z.of_nat j + 1)) x ∨ j = i ∧ fb ≤ x).
    { intros j' Hj' Ho. destruct (decide (j' = i)) as [->|Hne].
      - apply Hself, (g_owned _ _ _ _ _ _ Hg) in Ho as [?|?]; [by left|by right].
      - destruct (lookup_lt_is_Some_2 _ _ Hj') as [[t1 l1] Ej]. left. by apply (Hother j' t1 l1 Ej Hne). }
    intros [Ho1|[-> Hx]]%Hown2 [Ho2|[-> Hx']]%Hown2; try done; [by eapply J9| |];
      (destruct (decide (j = i)); [done|]) || (destruct (decide (k = i)); [done|]).
    + destruct (Hown j x Hj); [done..|]. lia.
    + destruct (Hown k x Hk); [done..|]. lia.
Qed.

Lemma iappend_run c fi fb F i t l p Q :
  let fb' := fb - size_of (t, l) + size_of (t, l ++ p) in
  image_ok c fi fb F → F !! i = Some (t, l) → Forall is_u8 p → Z.of_nat (length (l ++ p)) ≤ MAXFILE * BSIZE → fb' ≤ FSSIZE →
  (∀ c', image_ok c' fi fb' (<[i := (t, l ++ p)]> F) → Q tt (mk c' fi fb')) →
  wp (iappend (Z.of_nat i + 1) p) (mk c fi fb) Q.
Proof.
  intros fb' HI Ei Hp Hmax Hroom HQ. assert (Hi : (i < length F)%nat) by (by eapply lookup_lt_Some).
  destruct (image_dino _ _ _ _ _ HI Hi) as (t1&l1&Ei'&Hn&Ht&Hl&Hs&Hf). assert (t1 = t ∧ l1 = l) as [-> ->] by (split; congruence).
  clear Ei'. set (n := Z.of_nat i + 1) in *. pose proof (im_fb _ _ _ _ HI) as Hfb. pose proof (total_nonneg F).
  rewrite length_app, Nat2Z.inj_add in Hmax. change (MAXFILE * BSIZE) with 71680 in Hmax.
  unfold iappend. rewrite wp_bind. apply rinode_run; [done|]. rewrite wp_bind, Hs, xint_id by (unfold is_u32; lia).
  assert (Efb : fb + count (blocks (Z.of_nat (length l) + Z.of_nat (length p))) - count (blocks (Z.of_nat (length l))) = fb').
  { unfold fb', size_of. cbn [snd]. rewrite length_app, Nat2Z.inj_add. lia. }
  eapply (loop_run (length p) c fi fb (dino c n) l p); rewrite ?Efb; try done; [apply HI|change nmeta with 59 in *; lia|].
  intros c1 ip1 Hf1 Hg. pose proof (g_ip _ _ _ _ _ _ Hg) as [f Ef].
  assert (Hfit : inode_fits (set_i_size (xint (Z.of_nat (length l) + Z.of_nat (length p))) ip1)).
  { rewrite xint_id by (unfold is_u32; lia). split; cbn [set_i_size i_type i_major i_minor i_nlink i_size i_addrs];
      try (rewrite Ef; apply s16_range); [unfold is_u32; lia|]. intros k Hk. by eapply addr_u32; [apply Hf1|..]. }
  apply winode_run; [done..|]. intros c2 Hsame Hother Hy. apply HQ.
  destruct Hsame as (S1&_&_&S4&S5&S6). cbn [set_i_size i_type i_nlink i_size i_addrs] in S1, S4, S5, S6.
  eapply (image_store c fi fb F i t l c1 fb' ip1 c2); try done; fold n.
  - by rewrite S1, Ef.
  - by rewrite S4, Ef.
  - by rewrite S5, xint_id, length_app, Nat2Z.inj_add by (unfold is_u32; lia).
Qed.

Lemma mkfs_holds_empty c fb ip : (∀ k, 0 ≤ k ≤ NDIRECT → i_addrs ip k = 0) → holds_file c fb ip [] ∧ ∀ x, ¬ owned c ip x.
Proof.
  intros Ha. assert (Hind : indirect ip = 0) by (apply Ha; unfold NDIRECT; lia).
  assert (Hs : ∀ k, fblock k → slot c ip k = 0).
  { intros k Hk. unfold slot. rewrite Hind. destruct (Z.ltb_spec k NDIRECT); [apply Ha; unfold fblock in Hk; lia|done]. }
  assert (Ho : ∀ x, ¬ owned c ip x).
  { intros x [Hx [?|(k&Hk&Ek)]]; [congruence|]. rewrite Hs in Ek by done. done. }
  split; [|done]. split; [|change (blocks (Z.of_nat (length []))) with 0; lia].
  change (blocks (Z.of_nat (length []))) with 0. split.
  - by vm_compute.
  - intros k Hk. rewrite Hs by done. unfold fblock in Hk. split; [done|lia].
  - rewrite Hind. done.
  - unfold NDIRECT. lia.
  - intros x Hx. by destruct (Ho x).
  - intros k k' Hk Hk' H0. by rewrite Hs in H0.
  - intros k Hk H0. by rewrite Hs in H0.
Qed.

Lemma ialloc_run c fi fb F t Q :
  image_ok c fi fb F → fi < NINODES → 0 ≤ t < 32768 →
  (∀ c', image_ok c' (fi + 1) fb (F ++ [(t, [])]) → Q fi (mk c' (fi + 1) fb)) →
  wp (ialloc t) (mk c fi fb) Q.
Proof.
  intros HI Hfi Ht HQ. pose proof HI as [J1 J2 J3 J4 J5 J6 J7 J8 J9]. pose proof (total_nonneg F).
  assert (Hn : 0 ≤ fi < NINODES) by lia. unfold ialloc. rewrite wp_bind. unfold gets, wp at 1. cbn [freeinode mk].
  rewrite wp_bind. unfold modify, wp at 1. unfold set_freeinode. cbn [img isize freeinode freeblock mk].
  rewrite u32_small by (unfold is_u32, NINODES in *; lia). fold (mk c (fi + 1) fb). rewrite wp_bind.
  rewrite xint_id, !xshort_id by (unfold is_u32; lia). apply winode_run; [done| |].
  { split; cbn; unfold is_s16, is_u32; lia. }
  intros c' (S1&_&_&S4&S5&S6) Hother Hy. apply wp_ret. apply HQ. cbn in S1, S4, S5, S6. change nmeta with 59 in *.
  destruct (mkfs_holds_empty c' fb (dino c' fi)) as [Hf0 Ho0]; [done|].
  assert (Hold : ∀ j t1 l1, F !! j = Some (t1, l1) → holds_file c' fb (dino c' (Z.of_nat j + 1)) l1 ∧
    ∀ x, owned c' (dino c' (Z.of_nat j + 1)) x ↔ owned c (dino c (Z.of_nat j + 1)) x).
  { intros j t1 l1 Ej. destruct (J7 j t1 l1 Ej) as (_&_&_&Hf'). pose proof (lookup_lt_Some _ _ _ Ej).
    eapply holds_ext; [done|lia|apply same_inode_addrs, Hother; lia|]. intros x Ho.
    apply (tr_range _ _ _ _ _ (hf_tree _ _ _ _ Hf')) in Ho. change nmeta with 59 in Ho. apply Hy. lia. }
  split.
  - rewrite length_app. cbn. lia.
  - rewrite total_app. change (total [(t, [])]) with 0. change nmeta with 59. lia.
  - lia.
  - intros x o Hx. rewrite Hy by lia. by apply J4.
  - by rewrite Hy by lia.
  - change nlog with 30 in *. intros b Hb. rewrite Hy by lia. by apply J6.
  - intros j t1 l1 [Ej|[Hge Ej]]%lookup_app_Some.
    + destruct (J7 j t1 l1 Ej) as (H1&H2&H3&_). pose proof (lookup_lt_Some _ _ _ Ej).
      destruct (Hother (Z.of_nat j + 1)) as (E1&_&_&E2&E3&_); [lia..|]. split_and!; [congruence..|]. by apply (Hold j t1).
    + destruct (j - length F)%nat eqn:Ej'; [|done]. injection Ej as <- <-. assert (j = length F) as -> by lia.
      rewrite <- J1. by split_and!.
  - intros m Hm. destruct (Hother m) as (E1&_); [lia..|]. rewrite E1. apply J8. lia.
  - rewrite length_app. cbn [length]. intros j k x Hj Hk.
    assert (Hlt : ∀ j, (j < length F + 1)%nat → owned c' (dino c' (Z.of_nat j + 1)) x →
      (j < length F)%nat ∧ owned c (dino c (Z.of_nat j + 1)) x).
    { intros j' Hj' Ho. destruct (decide (j' = length F)) as [->|Hne]; [rewrite <- J1 in Ho; by destruct (Ho0 x)|].
      split; [lia|]. destruct (lookup_lt_is_Some_2 F j') as [[t1 l1] Ej]; [lia|]. by apply (Hold j' t1 l1 Ej). }
    intros [? ?]%Hlt [? ?]%Hlt; try done. by eapply J9.
Qed.

(** ** The files that are put into the image *)

(** The directory: an entry for each file, whose inodes are numbered from 2 on. *)
Definition root_bytes (fs : list hostfile) : list Z :=
  de_bytes [46] 1 ++ de_bytes [46; 46] 1 ++
  concat (imap (λ k f, de_bytes (skip_underscore f.1) (Z.of_nat k + 2)) fs).
Definition image_files (fs : list hostfile) : files :=
  (T_DIR, root_bytes fs) :: ((λ f : hostfile, (T_FILE, concat f.2)) <$> fs).

Record host_ok (f : hostfile) : Prop := {
  ho_name : is_name f.1;
  ho_slash : forallb (λ c, negb (c =? slash)) f.1 = true;
  ho_bytes : Forall (Forall is_u8) f.2;
  ho_size : Z.of_nat (length (concat f.2)) ≤ MAXFILE * BSIZE
}.

Lemma length_de_bytes name n : length (de_bytes name n) = 16%nat.
Proof. cbn. by rewrite length_strncpy_bytes. Qed.
Lemma root_bytes_snoc fs f :
  root_bytes (fs ++ [f]) = root_bytes fs ++ de_bytes (skip_underscore f.1) (Z.of_nat (length fs) + 2).
Proof.
  unfold root_bytes. rewrite imap_app, concat_app. cbn [imap concat]. rewrite app_nil_r, Nat.add_0_r.
  by rewrite <- !(assoc_L (++)).
Qed.
Lemma length_root fs : length (root_bytes fs) = (16 * (2 + length fs))%nat.
Proof.
  induction fs as [|f fs IH] using rev_ind; [done|].
  rewrite root_bytes_snoc, !length_app, IH, length_de_bytes. cbn [length]. lia.
Qed.

Lemma strncpy_is_u8 t n : is_name t → Forall is_u8 (strncpy_bytes t n).
Proof.
  revert t. induction n as [|n IH]; intros [|c t] Ht; cbn [strncpy_bytes]; [done..| |].
  - apply Forall_replicate. unfold is_u8. lia.
  - apply Forall_cons in Ht as [Hc Ht]. destruct (Z.eqb_spec c 0); [lia|]. constructor; [unfold is_u8; lia|by apply IH].
Qed.
Lemma de_bytes_u8 name n : is_name name → Forall is_u8 (de_bytes name n).
Proof. intros Hn. unfold de_bytes. constructor; [apply u8_range|]. constructor; [apply u8_range|]. by apply strncpy_is_u8. Qed.
Lemma skip_is_name t : is_name t → is_name (skip_underscore t).
Proof. destruct t as [|c t]; [done|]. cbn. intros Ht. case_match; [|done]. by apply Forall_cons in Ht as [_ ?]. Qed.

Lemma size_of_mono t l t' l' : (length l ≤ length l')%nat → size_of (t, l) ≤ size_of (t', l').
Proof.
  intros Hl. unfold size_of. cbn [snd]. apply count_mono. split; [unfold blocks; zlia|]. apply blocks_mono. lia.
Qed.

(** The pieces of a file, appended to the last inode. *)
Lemma pieces_run c fi fb F chunks :
  image_ok c fi fb (F ++ [(T_FILE, [])]) → Forall (Forall is_u8) chunks →
  Z.of_nat (length (concat chunks)) ≤ MAXFILE * BSIZE → nmeta + total (F ++ [(T_FILE, concat chunks)]) ≤ FSSIZE →
  wp (for_each chunks (iappend (Z.of_nat (length F) + 1))) (mk c fi fb) (λ _ s', ∃ c' fb',
    s' = mk c' fi fb' ∧ image_ok c' fi fb' (F ++ [(T_FILE, concat chunks)])).
Proof.
  intros HI Hb Hmax Hroom.
  apply (wp_for_each _ (λ pre s', ∃ c' fb', s' = mk c' fi fb' ∧ image_ok c' fi fb' (F ++ [(T_FILE, concat pre)])) chunks []).
  { eauto. }
  intros pre x q s' Heq (c1&fb1&->&HI1). cbn in Heq.
  assert (Hlen : (length (concat (pre ++ [x])) ≤ length (concat chunks))%nat).
  { rewrite Heq, !concat_app, !length_app. cbn. rewrite !length_app. cbn. lia. }
  assert (Hfb : fb1 - size_of (T_FILE, concat pre) + size_of (T_FILE, concat pre ++ x) ≤ FSSIZE).
  { pose proof (im_fb _ _ _ _ HI1) as E. rewrite total_app in E, Hroom. cbn [total foldr] in E, Hroom.
    pose proof (size_of_mono T_FILE (concat pre ++ x) T_FILE (concat chunks)) as Hm.
    rewrite concat_app in Hlen. cbn in Hlen. rewrite app_nil_r in Hlen. specialize (Hm Hlen). lia. }
  rewrite concat_app in *. cbn [concat] in *. rewrite app_nil_r in *.
  eapply (iappend_run c1 fi fb1 (F ++ [(T_FILE, concat pre)]) (length F) T_FILE (concat pre) x); try done.
  - by rewrite lookup_app_r, Nat.sub_diag.
  - rewrite Heq in Hb. apply Forall_app in Hb as [_ Hb]. by apply Forall_cons in Hb as [? _].
  - lia.
  - intros c2 HI2. eexists _, _. split; [done|].
    rewrite insert_app_r_alt, Nat.sub_diag in HI2 by done. exact HI2.
Qed.

Lemma image_files_snoc fs f : image_files (fs ++ [f]) =
  (T_DIR, root_bytes (fs ++ [f])) :: ((λ f : hostfile, (T_FILE, concat f.2)) <$> fs) ++ [(T_FILE, concat f.2)].
Proof. unfold image_files. by rewrite fmap_app. Qed.

Lemma add_file_run c fi fb fs f :
  image_ok c fi fb (image_files fs) → host_ok f → Z.of_nat (length fs) + 3 ≤ NINODES →
  nmeta + total (image_files (fs ++ [f])) ≤ FSSIZE →
  wp (add_file ROOTINO f) (mk c fi fb) (λ _ s', ∃ c' fb',
    s' = mk c' (fi + 1) fb' ∧ image_ok c' (fi + 1) fb' (image_files (fs ++ [f]))).
Proof.
  intros HI [Hn Hsl Hb Hsz] Hcnt Hroom. pose proof (im_fi _ _ _ _ HI) as Hfi. cbn [image_files length] in Hfi.
  rewrite length_fmap in Hfi. unfold add_file. rewrite Hsl, wp_bind. apply wp_ret. rewrite wp_bind.
  eapply (ialloc_run c fi fb (image_files fs)); [done|lia|done|]. intros c1 HI1. rewrite wp_bind.
  assert (Efi : fi = Z.of_nat (length fs) + 2) by lia. rewrite xshort_id by (unfold NINODES in Hcnt; lia).
  set (G := (λ f : hostfile, (T_FILE, concat f.2)) <$> fs) in *.
  assert (Hfb : fb - size_of (T_DIR, root_bytes fs) + size_of (T_DIR, root_bytes (fs ++ [f])) ≤ FSSIZE).
  { pose proof (im_fb _ _ _ _ HI) as E. rewrite image_files_snoc in Hroom. fold G in Hroom. unfold image_files in E. fold G in E.
    cbn [total foldr] in E, Hroom. fold (total G) in E. fold (total (G ++ [(T_FILE, concat f.2)])) in Hroom.
    rewrite total_app in Hroom. pose proof (total_nonneg [(T_FILE, concat f.2)]). lia. }
  rewrite root_bytes_snoc, <- Efi in Hfb.
  eapply (iappend_run c1 (fi + 1) fb (image_files fs ++ [(T_FILE, [])]) 0 T_DIR (root_bytes fs)); try done.
  { by apply de_bytes_u8, skip_is_name. }
  { rewrite length_app, length_root, length_de_bytes. change (MAXFILE * BSIZE) with 71680. unfold NINODES in Hcnt. lia. }
  intros c2 HI2. rewrite Efi in HI2 at 3. rewrite <- root_bytes_snoc in HI2.
  set (fb2 := fb - _ + _) in *.
  change (<[0%nat := _]> (image_files fs ++ [(T_FILE, [])])) with (((T_DIR, root_bytes (fs ++ [f])) :: G) ++ [(T_FILE, [])]) in HI2.
  replace (iappend fi) with (iappend (Z.of_nat (length ((T_DIR, root_bytes (fs ++ [f])) :: G)) + 1))
    by (f_equal; cbn [length]; unfold G; rewrite length_fmap; lia).
  eapply wp_mono; [|apply (pieces_run c2 (fi + 1) fb2); done || by rewrite image_files_snoc in Hroom].
  intros ? s' (c'&fb'&->&HI'). exists c', fb'. split; [done|]. by rewrite image_files_snoc.
Qed.

Lemma total_prefix fs fs' : total (image_files fs) ≤ total (image_files (fs ++ fs')).
Proof.
  unfold image_files. cbn [total foldr]. rewrite fmap_app. fold (total ((λ f : hostfile, (T_FILE, concat f.2)) <$> fs)).
  fold (total (((λ f : hostfile, (T_FILE, concat f.2)) <$> fs) ++ ((λ f : hostfile, (T_FILE, concat f.2)) <$> fs'))).
  rewrite total_app. pose proof (total_nonneg ((λ f : hostfile, (T_FILE, concat f.2)) <$> fs')).
  pose proof (size_of_mono T_DIR (root_bytes fs) T_DIR (root_bytes (fs ++ fs'))) as Hm.
  rewrite !length_root, length_app in Hm. specialize (Hm ltac:(lia)). lia.
Qed.

Lemma add_files_run c fb fs :
  image_ok c 2 fb (image_files []) → Forall host_ok fs → Z.of_nat (length fs) + 2 ≤ NINODES →
  nmeta + total (image_files fs) ≤ FSSIZE →
  wp (for_each fs (add_file ROOTINO)) (mk c 2 fb) (λ _ s', ∃ c' fi' fb',
    s' = mk c' fi' fb' ∧ image_ok c' fi' fb' (image_files fs)).
Proof.
  intros HI Hh Hcnt Hroom.
  apply (wp_for_each _ (λ pre s', ∃ c' fi' fb', s' = mk c' fi' fb' ∧ image_ok c' fi' fb' (image_files pre)) fs []); [eauto 10|].
  intros pre f q s' Heq (c1&fi1&fb1&->&HI1). cbn in Heq. subst fs. rewrite length_app in Hcnt. cbn [length] in Hcnt.
  apply Forall_app in Hh as [_ Hh]. apply Forall_cons in Hh as [Hf _].
  eapply wp_mono; [|apply (add_file_run c1 fi1 fb1 pre f); try done; [lia|]].
  - intros ? s' (c'&fb'&->&HI'). eauto 10.
  - pose proof (total_prefix (pre ++ [f]) q) as Hm. rewrite <- (assoc_L (++)) in Hm. cbn [app] in Hm. lia.
Qed.

(** ** The program *)

Lemma set_bits_spec n b : 0 ≤ b → Z.testbit (rd8 (set_bits n) (b / 8)) (b mod 8) = (b <? Z.of_nat n).
Proof.
  intros Hb. induction n as [|n IH]; cbn [set_bits].
  - unfold rd8. rewrite lookup_empty. cbn [default]. rewrite Z.testbit_0_l. symmetry. apply Z.ltb_ge. lia.
  - set (i := Z.of_nat n) in *. rewrite rd8_wr8. destruct (Z.ltb_spec b i) as [Hlt|Hge].
    + rewrite (proj2 (Z.ltb_lt b (Z.of_nat (S n)))) by lia. case_decide as E; [|done]. rewrite testbit_u8 by zlia.
      rewrite Z.lor_spec, E, IH. done.
    + case_decide as E.
      * rewrite testbit_u8, Z.lor_spec, E, IH by zlia. rewrite Z.shiftl_1_l. cbn [orb].
        destruct (decide (b = i)) as [->|Hne].
        -- rewrite Z.pow2_bits_true by zlia. symmetry. apply Z.ltb_lt. lia.
        -- rewrite Z.pow2_bits_false by zlia. symmetry. apply Z.ltb_ge. lia.
      * rewrite IH. symmetry. apply Z.ltb_ge. assert (b ≠ i) by congruence. lia.
Qed.

Lemma fbytes_holds c fb ip l : holds_file c fb ip l → fbytes c ip 0 (Z.of_nat (length l)) = l.
Proof.
  intros [_ Hd]. apply list_eq. intros k. unfold fbytes. rewrite list_lookup_fmap.
  destruct (decide (k < length l)%nat) as [Hk|Hk].
  - rewrite lookup_seqZ_lt, Z.add_0_l by lia. cbn [fmap option_fmap option_map].
    rewrite Hd by (unfold blocks, BSIZE; zlia). rewrite nth_lookup, Nat2Z.id. destruct (lookup_lt_is_Some_2 l k Hk) as [v ->]. done.
  - rewrite lookup_seqZ_ge by lia. cbn. symmetry. apply lookup_ge_None. lia.
Qed.

Lemma tree_file_ok c fb ip nb hi : tree c fb ip nb hi → fb ≤ FSSIZE → (∀ x, 0 ≤ x < fb → bit mk_sb c x = true) →
  0 ≤ i_size ip ≤ MAXFILE * BSIZE → (file_ok mk_sb nmeta c ip ↔ i_size ip ≤ nb * BSIZE).
Proof.
  intros [T1 T2 T3 T4 T5 T6 T7] Hfb Hbit Hsz. change (MAXFILE * BSIZE) with 71680 in *. change MAXFILE with 140 in *. unfold BSIZE in *. split.
  - intros [_ _ _ H4 _]. destruct (decide (i_size ip ≤ nb * 512)) as [|Hn]; [done|]. exfalso.
    assert (Hs : slot c ip nb ≠ 0) by (apply H4; unfold BSIZE; lia). apply T2 in Hs; [lia|]. unfold fblock. change MAXFILE with 140. lia.
  - intros Hle. split; try done.
    + intros x Hx. apply T5 in Hx. change nmeta with 59 in *. change (sb_size mk_sb) with 1000. unfold FSSIZE in Hfb.
      split; [lia|]. split; [lia|]. apply Hbit. lia.
    + unfold BSIZE. intros k Hk Hlt. apply T2; [unfold fblock; change MAXFILE with 140; lia|]. lia.
Qed.

(** The image when only the super block has been written. *)
Lemma image_start c0 : (∀ x, c0 x = ∅) → image_ok (<[1 := sb_bytes mk_sb]> c0) 1 nmeta [].
Proof.
  intros H0. assert (Hz : ∀ y, y ≠ 1 → (<[1 := sb_bytes mk_sb]> c0) y = ∅).
  { intros y Hy. rewrite fn_lookup_insert_ne by done. apply H0. }
  split; try done.
  - intros x o Hx. change nmeta with 59 in Hx. by rewrite Hz by lia.
  - intros b Hb. rewrite Hz by lia. done.
  - intros n Hn. destruct (IBLOCK_mk n) as [_ Hr]; [lia|]. unfold dino. rewrite Hz by lia. done.
  - intros i j x Hi. cbn in Hi. lia.
Qed.

(** The state when all files have been added. *)
Lemma main_files fs (Q : unit → mkst → Prop) :
  Forall host_ok fs → Z.of_nat (length fs) + 2 ≤ NINODES → nmeta + total (image_files fs) ≤ FSSIZE →
  (∀ c fi fb, image_ok c fi fb (image_files fs) →
     wp (rinode ROOTINO ≫= λ din,
         let off := (xint (i_size din) / BSIZE + 1) * BSIZE in
         winode ROOTINO (set_i_size (xint off) din) ≫= λ _,
         gets freeblock ≫= balloc) (mk c fi fb) Q) →
  wp (main fs) mk_start Q.
Proof.
  intros Hh Hcnt Hroom HQ. unfold main. rewrite wp_bind. unfold modify at 1, wp at 1.
  rewrite wp_bind. eapply wp_mono.
  2: { apply (wp_for_each _ (λ pre s', (∀ x, img s' x = ∅) ∧ isize s' = Z.of_nat (length pre) ∧ freeinode s' = 1 ∧ freeblock s' = nmeta)
         (seqZ 0 FSSIZE) []); [done|].
       intros pre x q s' Heq (H1&H2&H3&H4). cbn in Heq.
       assert (x = Z.of_nat (length pre)) as ->.
       { assert (Hx : seqZ 0 FSSIZE !! length pre = Some x) by (rewrite Heq; by rewrite lookup_app_r, Nat.sub_diag).
         apply lookup_seqZ in Hx as [-> _]. lia. }
       unfold wsect, modify, wp, set_img. cbn. split; [|split; [|done]].
       - intros y. unfold insert, fn_insert. by case_decide.
       - rewrite H2, length_app. cbn. lia. }
  intros [] [c0 n0 fi0 fb0] (H1&H2&H3&H4). cbn in H1, H2, H3, H4. rewrite ?H2, H3, H4. change (length (seqZ 0 FSSIZE)) with 1000%nat.
  change (Z.of_nat 1000) with FSSIZE. fold (mk c0 1 nmeta).
  rewrite wp_bind. apply wsect_run; [done|]. rewrite wp_bind.
  apply (ialloc_run _ 1 nmeta []); [by apply image_start|done|done|]. intros c2 HI2. rewrite wp_bind. apply wp_ret.
  change (xshort 1) with 1. change (1 + 1) with 2 in *. rewrite wp_bind.
  eapply (iappend_run c2 2 nmeta [(T_DIR, [])] 0 T_DIR [] (de_bytes [46] 1)); try done.
  { by apply de_bytes_u8; repeat constructor. }
  change (nmeta - size_of (T_DIR, []) + size_of (T_DIR, [] ++ de_bytes [46] 1)) with (nmeta + 1).
  intros c3 HI3. rewrite wp_bind.
  eapply (iappend_run c3 2 (nmeta + 1) [(T_DIR, de_bytes [46] 1)] 0 T_DIR (de_bytes [46] 1) (de_bytes [46; 46] 1)); try done.
  { by apply de_bytes_u8; repeat constructor. }
  intros c4 HI4. change (<[0%nat := (T_DIR, de_bytes [46] 1 ++ de_bytes [46; 46] 1)]> [(T_DIR, de_bytes [46] 1)]) with (image_files []) in HI4.
  rewrite wp_bind. eapply wp_mono; [|by apply add_files_run].
  intros ? s5 (c5&fi5&fb5&->&HI5). by apply HQ.
Qed.

(** The entries of the root directory. *)
Definition entries (fs : list hostfile) : Z := Z.of_nat (length fs) + 2.

(** The image [c] is a file system with the files [fs]. *)
Record made (c : Z → mem) (fs : list hostfile) : Prop := {
  md_layout v : j_size v = FSSIZE → (∀ b, j_res v b ↔ 2 ≤ b < 2 + nlog) → layout mk_sb nmeta v;
  md_disk : disk_ok mk_sb nmeta c;
  md_bits b : 0 ≤ b < FSSIZE → bit mk_sb c b = (b <? nmeta + total (image_files fs));
  md_log b : 2 ≤ b < 2 + nlog → c b = ∅;
  md_file i f : fs !! i = Some f → let ip := dino c (Z.of_nat i + 2) in
    i_type ip = T_FILE ∧ i_nlink ip = 1 ∧ i_size ip = Z.of_nat (length (concat f.2)) ∧
    file_ok mk_sb nmeta c ip ∧ fbytes c ip 0 (i_size ip) = concat f.2;
  md_root : let ip := dino c ROOTINO in
    i_type ip = T_DIR ∧ i_nlink ip = 1 ∧ i_size ip = (DIRENT * entries fs / BSIZE + 1) * BSIZE ∧
    fbytes c ip 0 (DIRENT * entries fs) = root_bytes fs ∧
    (file_ok mk_sb nmeta c ip ↔ entries fs mod 32 ≠ 0) ∧
    (entries fs mod 32 ≠ 0 → ∀ o, DIRENT * entries fs ≤ o < i_size ip → fbyte c ip o = 0);
  md_free n : entries fs ≤ n < NINODES → i_type (dino c n) = 0;
  md_disj n m x : 0 < n < entries fs → 0 < m < entries fs → owned c (dino c n) x → owned c (dino c m) x → n = m
}.

Lemma mk_layout v : j_size v = FSSIZE → (∀ b, j_res v b ↔ 2 ≤ b < 2 + nlog) → layout mk_sb nmeta v.
Proof.
  intros Hz Hr. change nlog with 30 in Hr. change nmeta with 59. split; rewrite ?Hz; unfold FSSIZE; change (sb_size mk_sb) with 1000;
    change (sb_bmapstart mk_sb) with 58; change (sb_inodestart mk_sb) with 32; change (sb_ninodes mk_sb) with 200; try lia.
  - rewrite Hr. lia.
  - intros b Hb. rewrite Hr. change BPB with 4096. zlia.
  - intros b Hb. rewrite Hr. change BPB with 4096. change IPB with 8. split_and!; try zlia. intros. zlia.
  - intros b Hb. rewrite Hr. lia.
Qed.

(** From the image with the files to the final one: the size of the root and the free map. *)
Lemma finish_made c fi fb fs c1 c2 :
  image_ok c fi fb (image_files fs) → 
  let off := (DIRENT * entries fs / BSIZE + 1) * BSIZE in
  same_inode (set_i_size off (dino c ROOTINO)) (dino c1 ROOTINO) →
  (∀ m, 0 ≤ m < NINODES → m ≠ ROOTINO → same_inode (dino c m) (dino c1 m)) →
  (∀ y, ¬ (32 ≤ y < 57) → c1 y = c y) →
  (∀ y, y ≠ 58 → c2 y = c1 y) → c2 58 = set_bits (Z.to_nat fb) → made c2 fs.
Proof.
  intros HI off Hroot Hother Hy H2 Hb. pose proof HI as [J1 J2 J3 J4 J5 J6 J7 J8 J9].
  pose proof (total_nonneg (image_files fs)). change nmeta with 59 in *. unfold FSSIZE, NINODES in J3.
  assert (Hlen : length (image_files fs) = S (length fs)) by (unfold image_files; cbn; by rewrite length_fmap).
  rewrite Hlen in J1, J9.
  assert (Hd : ∀ n, 0 ≤ n < NINODES → dino c2 n = dino c1 n).
  { intros n Hn. destruct (IBLOCK_mk n Hn) as [_ Hr]. unfold dino. rewrite H2 by lia. done. }
  assert (Hx : ∀ x, 59 ≤ x → c2 x = c x) by (intros x Hx; rewrite H2, Hy by lia; done).
  assert (Hbits : ∀ b, 0 ≤ b < FSSIZE → bit mk_sb c2 b = (b <? 59 + total (image_files fs))).
  { unfold FSSIZE. intros b Hbr. unfold bit, BBLOCK. change (sb_bmapstart mk_sb) with 58. change BPB with 4096.
    rewrite Z.div_small, Z.mod_small by lia. change (u32 (0 + 58)) with 58. rewrite Hb, set_bits_spec by lia. f_equal. lia. }
  assert (Hused : ∀ x, 0 ≤ x < fb → bit mk_sb c2 x = true) by (intros x Hxr; rewrite Hbits by (unfold FSSIZE; lia); apply Z.ltb_lt; lia).
  assert (Hall : ∀ i t l, image_files fs !! i = Some (t, l) →
    i_type (dino c2 (Z.of_nat i + 1)) = t ∧ i_nlink (dino c2 (Z.of_nat i + 1)) = 1 ∧
    i_size (dino c2 (Z.of_nat i + 1)) = (if decide (i = 0%nat) then off else Z.of_nat (length l)) ∧
    holds_file c2 fb (dino c2 (Z.of_nat i + 1)) l ∧
    ∀ x, owned c2 (dino c2 (Z.of_nat i + 1)) x ↔ owned c (dino c (Z.of_nat i + 1)) x).
  { intros i t l Ei. pose proof (lookup_lt_Some _ _ _ Ei) as Hi. destruct (J7 i t l Ei) as (K1&K2&K3&K4).
    assert (Hn : 0 ≤ Z.of_nat i + 1 < NINODES) by (unfold NINODES; lia). rewrite Hd by done.
    assert (Hk : ∀ ip', same_addrs (dino c (Z.of_nat i + 1)) ip' → holds_file c2 fb ip' l ∧ ∀ x, owned c2 ip' x ↔ owned c (dino c (Z.of_nat i + 1)) x).
    { intros ip' Ha. eapply holds_ext; [done|lia|done|]. intros x Ho.
      apply (tr_range _ _ _ _ _ (hf_tree _ _ _ _ K4)) in Ho. change nmeta with 59 in Ho. apply Hx. lia. }
    destruct (decide (i = 0%nat)) as [->|Hne].
    - change (Z.of_nat 0 + 1) with ROOTINO in *. destruct Hroot as (R1&_&_&R4&R5&R6).
      cbn [set_i_size i_type i_nlink i_size i_addrs] in R1, R4, R5, R6. split_and!; [congruence..|apply Hk; exact R6|apply Hk; exact R6].
    - destruct (Hother (Z.of_nat i + 1)) as (R1&_&_&R4&R5&R6); [done|unfold ROOTINO; lia|].
      split_and!; [congruence..|apply Hk; exact R6|apply Hk; exact R6]. }
  assert (Hent : Z.of_nat (length (root_bytes fs)) = DIRENT * entries fs) by (rewrite length_root; unfold DIRENT, entries; lia).
  assert (Hn200 : 2 ≤ entries fs ≤ 200) by (unfold entries; lia).
  split.
  - apply mk_layout.
  - split; [|intros b Hbr; change nmeta with 59 in Hbr; rewrite Hbits by (unfold FSSIZE; lia); apply Z.ltb_lt; lia].
    rewrite H2, Hy, J5 by lia. by vm_compute.
  - apply Hbits.
  - change nlog with 30 in *. intros b Hbr. rewrite H2, Hy by lia. by apply J6.
  - intros i f Ef. destruct (Hall (S i) T_FILE (concat f.2)) as (K1&K2&K3&K4&_).
    { pose proof (f_equal (fmap (λ f : hostfile, (T_FILE, concat f.2))) Ef) as E. rewrite <- list_lookup_fmap in E. exact E. }
    replace (Z.of_nat (S i) + 1) with (Z.of_nat i + 2) in * by lia. cbn [decide] in K3. rewrite decide_False in K3 by done.
    split_and!; try done; [|rewrite K3; by eapply fbytes_holds].
    pose proof (tr_nb _ _ _ _ _ (hf_tree _ _ _ _ K4)) as Hnb. change MAXFILE with 140 in Hnb. unfold blocks in Hnb.
    apply (tree_file_ok _ _ _ _ _ (hf_tree _ _ _ _ K4)); [unfold FSSIZE; lia|done|rewrite K3; change (MAXFILE * BSIZE) with 71680; zlia|].
    rewrite K3. unfold blocks, BSIZE. zlia.
  - destruct (Hall 0%nat T_DIR (root_bytes fs) eq_refl) as (K1&K2&K3&K4&_). change (Z.of_nat 0 + 1) with ROOTINO in *.
    rewrite decide_True in K3 by done. split_and!; try done.
    + rewrite <- Hent. by eapply fbytes_holds.
    + rewrite (tree_file_ok _ _ _ _ _ (hf_tree _ _ _ _ K4)), K3, Hent; [|unfold FSSIZE; lia|done|].
      * unfold off, blocks, DIRENT, BSIZE. zlia.
      * rewrite K3. change (MAXFILE * BSIZE) with 71680. unfold off, DIRENT, BSIZE. zlia.
    + intros Hm o Ho. rewrite (hf_data _ _ _ _ K4); [rewrite nth_lookup, lookup_ge_None_2; [done|lia]|].
      rewrite K3 in Ho. rewrite Hent. unfold off, blocks, DIRENT, BSIZE in *. zlia.
  - intros n Hn. rewrite Hd by (unfold NINODES in *; lia).
    destruct (Hother n) as (R1&_); [unfold NINODES in *; lia|unfold ROOTINO; lia|]. rewrite R1. apply J8. unfold entries in Hn. lia.
  - intros n m x Hn Hm. assert (Hown : ∀ n, 0 < n < entries fs → owned c2 (dino c2 n) x → ∃ i, (i < S (length fs))%nat ∧ n = Z.of_nat i + 1 ∧ owned c (dino c n) x).
    { intros n' Hn' Ho. exists (Z.to_nat (n' - 1)). assert (E : n' = Z.of_nat (Z.to_nat (n' - 1)) + 1) by lia. unfold entries in Hn'.
      split; [lia|]. split; [done|]. destruct (lookup_lt_is_Some_2 (image_files fs) (Z.to_nat (n' - 1))) as [[t l] Ei]; [lia|].
      rewrite E in Ho |- *. by apply (Hall _ _ _ Ei). }
    intros (i&Hi&->&Ho1)%Hown (j&Hj&->&Ho2)%Hown; [|done..]. by rewrite (J9 i j x Hi Hj Ho1 Ho2).
Qed.

(** C10: for at most 198 files that fit on the disk, each no longer than a file can be, mkfs
    runs to its end, and the image is a file system as the kernel expects it: the super
    block and the layout are right, the log is empty, the free map has exactly the blocks in
    use, every file has an inode of its own, from 2 on, with its blocks to itself and the
    bytes of the host's file, and the root directory has an entry for each, under its name
    without a leading underscore.  But mkfs rounds the size of the root directory up even
    when it ends at a block boundary: with 32, 64, ... entries the directory claims a block
    that it does not have, and its inode is not a file that the kernel could have made. *)
Theorem mkfs_image (fs : list hostfile) :
  Forall host_ok fs → entries fs ≤ NINODES → nmeta + total (image_files fs) ≤ FSSIZE →
  wp (main fs) mk_start (λ _ s', isize s' = FSSIZE ∧ made (img s') fs).
Proof.
  intros Hh Hcnt Hroom. apply main_files; [done..|]. intros c fi fb HI.
  destruct (image_dino _ _ _ _ 0%nat HI) as (t&l&E&_&_&_&Hs&_); [cbn; lia|]. change (Z.of_nat 0 + 1) with ROOTINO in Hs.
  injection E as <- <-. pose proof (im_fb _ _ _ _ HI) as Hfb. pose proof (total_nonneg (image_files fs)).
  assert (Hent : i_size (dino c ROOTINO) = DIRENT * entries fs) by (rewrite Hs, length_root; unfold DIRENT, entries; lia).
  set (off := (DIRENT * entries fs / BSIZE + 1) * BSIZE).
  assert (Hn : 2 ≤ entries fs ≤ 200) by (unfold entries, NINODES in *; lia).
  assert (Hoff : is_u32 off) by (unfold is_u32, off, DIRENT, BSIZE; zlia).
  rewrite wp_bind. apply rinode_run; [done|]. cbv zeta. rewrite Hent, (xint_id (DIRENT * entries fs)) by (unfold is_u32, DIRENT; lia).
  fold off. rewrite (xint_id off) by done. rewrite wp_bind. apply winode_run; [done| |].
  { destruct (image_dino _ _ _ _ 0%nat HI) as (t1&l1&_&_&_&_&_&Hf); [cbn; lia|]. change (Z.of_nat 0 + 1) with ROOTINO in Hf.
    split; cbn [set_i_size i_type i_major i_minor i_nlink i_size i_addrs]; try apply s16_range; [done|].
    intros k Hk. eapply addr_u32; [apply Hf|apply HI|done]. }
  intros c1 Hroot Hother Hy. rewrite wp_bind. unfold gets, wp at 1. cbn [freeblock mk]. unfold balloc.
  assert (Hlt : (fb <? BSIZE * 8) = true) by (apply Z.ltb_lt; pose proof (im_room _ _ _ _ HI); unfold BSIZE, FSSIZE in *; lia).
  rewrite Hlt, wp_bind. apply wp_ret. apply wsect_run; [done|]. split; [done|].
  eapply (finish_made c fi fb fs c1); try done.
  intros y Hyne. apply fn_lookup_insert_ne. change (sb_bmapstart mk_sb) with 58. lia.
Qed.

(** The file _a with the bytes "hi", read in two pieces. *)
Definition ex_host : list hostfile := [([95; 97], [[104]; [105]])].
Lemma mkfs_image_witness :
  wp (main ex_host) mk_start (λ _ s', fbytes (img s') (dino (img s') 2) 0 2 = [104; 105] ∧
    file_ok mk_sb nmeta (img s') (dino (img s') ROOTINO)).
Proof.
  eapply wp_mono; [|apply (mkfs_image ex_host)].
  - intros _ s' [_ Hm]. destruct (md_file _ _ Hm 0%nat _ eq_refl) as (_&_&Hsz&_&Hb). split.
    + rewrite Hsz in Hb. exact Hb.
    + destruct (md_root _ _ Hm) as (_&_&_&_&Hf&_). apply Hf. by vm_compute.
  - repeat constructor; cbn; unfold is_u8; try lia; by vm_compute.
  - by vm_compute.
  - by vm_compute.
Defined.
End Mkfs.
