(* ===== verification/Exec.v ===== *)
(** exec (src/exec.c, src/elf.h, and loaduvm of src/vm.c): a new address space from an
    ELF file, with its stack, and the change of the process to it.

    The state has the virtual memory with the VDSO pages (Vm.v), the process that makes the
    call, and the file system behind the class [Files], which has the operations that exec
    uses.  The strings of argv[] are lists of bytes: they are in the memory of the old
    address space, and ustack[] is on the stack of the kernel, neither of which exec changes
    before it has copied them.  What goto bad returns to is a result [None]. *)

From Stdlib Require Import ZArith Lia.
From stdpp Require Import base tactics numbers gmap strings list.
From S2P Require Import Prelude Memory Kstring Spinlock Mmu Kalloc Procdef Vm.

#[local] Open Scope Z_scope.

Class Files (F : Type) := {
  handle : Type;
  f_begin_op : K F unit;
  f_end_op : K F unit;
  f_namei : list Z → K F (option handle);
  f_ilock : handle → K F unit;
  f_readi : handle → Z → Z → K F (Z * list Z);
  f_iunlockput : handle → K F unit
}.

(** ** ELF *)

Definition ELF_MAGIC : Z := 0x464C457F.
Definition ELF_PROG_LOAD : Z := 1.
Definition ELFHDR : Z := 52.
Definition PROGHDR : Z := 32.

(** The fields of a structure that was read. *)
Definition le16 (l : list Z) (o : nat) : Z := nth o l 0 + 256 * nth (S o) l 0.
Definition le32 (l : list Z) (o : nat) : Z := le16 l o + 65536 * le16 l (S (S o)).

Record elfhdr := { e_magic : Z; e_entry : Z; e_phoff : Z; e_phnum : Z }.
Definition elf_of (l : list Z) : elfhdr :=
  {| e_magic := le32 l 0; e_entry := le32 l 24; e_phoff := le32 l 28; e_phnum := le16 l 44 |}.

Record proghdr := { ph_type : Z; ph_off : Z; ph_vaddr : Z; ph_filesz : Z; ph_memsz : Z }.
Definition ph_of (l : list Z) : proghdr :=
  {| ph_type := le32 l 0; ph_off := le32 l 4; ph_vaddr := le32 l 8; ph_filesz := le32 l 16; ph_memsz := le32 l 20 |}.

Section exec.
Context {F : Type} `{!Files F}.
(** The linker symbols end[] and data[], and those of the VDSO binary. *)
Context (kend kdata vdso_impl_start vdso_impl_size : Z).

Record est := { ev : vmstate; ep : proc; ef : F }.
Definition on_vm {A} (m : K vmstate A) : K est A := zoom ev (λ v s, {| ev := v; ep := ep s; ef := ef s |}) m.
Definition on_k {A} (m : K kmem A) : K est A := on_vm (on_km m).
Definition on_f {A} (m : K F A) : K est A := zoom ef (λ f s, {| ev := ev s; ep := ep s; ef := f |}) m.
Definition set_proc (g : proc → proc) : K est unit := modify (λ s, {| ev := ev s; ep := g (ep s); ef := ef s |}).

(** The bytes that are copied to a kernel address. *)
Definition put_bytes (a : Z) (l : list Z) : K kmem unit :=
  if a =? 0 then fault "NULL" else modify (λ k, set_pmem (wr_bytes (pmem k) a l) k).

(** ** Loading *)

(** One iteration of loaduvm; [Some (-1)] is an early return. *)
Definition load_page (pgdir addr : Z) (ip : handle) (offset sz i : Z) : K est (option Z) :=
  on_k (walkpgdir pgdir (u32 (addr + i)) false) ≫= λ pte,
  if pte =? 0 then panic "loaduvm: address should exist" else
  on_k (load32 pte) ≫= λ e,
  let pa := PTE_ADDR e in
  let n := if sz - i <? PGSIZE then sz - i else PGSIZE in
  on_f (f_readi ip (u32 (offset + i)) n) ≫= λ '(r, l),
  on_k (put_bytes (P2V pa) l) ≫= λ _,
  mret (if r =? n then None else Some (-1)).
Definition loaduvm (pgdir addr : Z) (ip : handle) (offset sz : Z) : K est Z :=
  if negb (addr mod PGSIZE =? 0) then panic "loaduvm: addr must be page aligned" else
  upto (upto_fuel 0 sz PGSIZE) 0 sz PGSIZE (load_page pgdir addr ip offset sz) ≫= λ o,
  mret (default 0 o).

(** The body of the loop over the program headers: the new size. *)
Definition load_segment (ip : handle) (pgdir off sz : Z) : K est (option Z) :=
  on_f (f_readi ip off PROGHDR) ≫= λ '(r, l),
  if negb (r =? PROGHDR) then mret None else
  let ph := ph_of l in
  if negb (ph_type ph =? ELF_PROG_LOAD) then mret (Some sz) else
  if ph_memsz ph <? ph_filesz ph then mret None else
  if u32 (ph_vaddr ph + ph_memsz ph) <? ph_vaddr ph then mret None else
  on_k (allocuvm kend pgdir sz (u32 (ph_vaddr ph + ph_memsz ph)) None) ≫= λ sz,
  if sz =? 0 then mret None else
  if negb (ph_vaddr ph mod PGSIZE =? 0) then mret None else
  loaduvm pgdir (ph_vaddr ph) ip (ph_off ph) (ph_filesz ph) ≫= λ r,
  if r <? 0 then mret None else mret (Some sz).
Fixpoint load_segments (n : nat) (ip : handle) (pgdir off sz : Z) : K est (option Z) :=
  match n with
  | O => mret (Some sz)
  | S n' =>
      load_segment ip pgdir off sz ≫= λ o,
      match o with None => mret None | Some sz => load_segments n' ip pgdir (u32 (off + PROGHDR)) sz end
  end.

(** From the ELF header on: the page directory, which may be 0, and the entry point and
    the size if all went well. *)
Definition load_program (ip : handle) : K est (Z * option (Z * Z)) :=
  on_f (f_readi ip 0 ELFHDR) ≫= λ '(r, l),
  if negb (r =? ELFHDR) then mret (0, None) else
  let elf := elf_of l in
  if negb (e_magic elf =? ELF_MAGIC) then mret (0, None) else
  on_k (setupkvm kend kdata) ≫= λ pgdir,
  if pgdir =? 0 then mret (0, None) else
  on_k (allocuvm kend pgdir 0 PGSIZE None) ≫= λ sz,
  if sz =? 0 then mret (pgdir, None) else
  on_k (clearptep pgdir 0) ≫= λ _,
  load_segments (Z.to_nat (e_phnum elf)) ip pgdir (e_phoff elf) sz ≫= λ o,
  mret (pgdir, match o with Some sz => Some (e_entry elf, sz) | None => None end).

(** ** The stack *)

(** copyout (vm.c) from bytes that are not in the memory of the model. *)
Fixpoint copyout_bytes (fuel : nat) (pgdir va : Z) (buf : list Z) : K kmem Z :=
  match buf with
  | [] => mret 0
  | _ =>
      match fuel with
      | O => diverge
      | S fuel' =>
          let va0 := PGROUNDDOWN va in
          uva2ka pgdir va0 ≫= λ pa0,
          if pa0 =? 0 then mret (-1) else
          let n := Z.to_nat (Z.min (PGSIZE - (va - va0)) (Z.of_nat (length buf))) in
          put_bytes (pa0 + (va - va0)) (take n buf) ≫= λ _,
          copyout_bytes fuel' pgdir (u32 (va0 + PGSIZE)) (drop n buf)
      end
  end.
Definition copy_out (pgdir va : Z) (buf : list Z) : K est Z := on_k (copyout_bytes (length buf) pgdir va buf).

(** The loop that pushes the strings: sp after it, and ustack[3..3+argc). *)
Fixpoint push_args (argc : nat) (argv : list (list Z)) (pgdir sp : Z) : K est (option (Z * list Z)) :=
  match argv with
  | [] => mret (Some (sp, []))
  | s :: argv' =>
      if (MAXARG <=? argc)%nat then mret None else
      let sp := Z.land (u32 (sp - (Z.of_nat (length s) + 1))) (Z.lnot 3) in
      copy_out pgdir sp (s ++ [0]) ≫= λ r,
      if r <? 0 then mret None else
      push_args (S argc) argv' pgdir sp ≫= λ o,
      mret (match o with Some (sp', us) => Some (sp', sp :: us) | None => None end)
  end.

Definition le_bytes (x : Z) : list Z := [u8 x; u8 (Z.shiftr x 8); u8 (Z.shiftr x 16); u8 (Z.shiftr x 24)].

(** The arguments and ustack[]: the stack pointer. *)
Definition push_stack (argv : list (list Z)) (pgdir sp : Z) : K est (option Z) :=
  push_args 0 argv pgdir sp ≫= λ o,
  match o with
  | None => mret None
  | Some (sp, us) =>
      let argc := Z.of_nat (length us) in
      let ustack := [0xffffffff; argc; u32 (sp - (argc + 1) * 4)] ++ us ++ [0] in
      let sp := u32 (sp - (3 + argc + 1) * 4) in
      copy_out pgdir sp (ustack ≫= le_bytes) ≫= λ r,
      mret (if r <? 0 then None else Some sp)
  end.

(** The last element of the path, and what safestrcpy leaves in p->name. *)
Fixpoint last_elem (last s : list Z) : list Z :=
  match s with
  | [] => last
  | c :: s' => last_elem (if c =? 47 then s' else last) s'
  end.
Definition copy_name (name s : list Z) : list Z :=
  let l := take 15 s in l ++ [0] ++ drop (S (length l)) name.

(** ** exec *)

Definition bad (pgdir : Z) (ip : option handle) : K est Z :=
  when (negb (pgdir =? 0)) (on_k (freevm kend pgdir None)) ≫= λ _,
  match ip with
  | Some ip => on_f (f_iunlockput ip) ≫= λ _, on_f f_end_op ≫= λ _, mret (-1)
  | None => mret (-1)
  end.

(** The part that commits to the new image. *)
Definition commit_image (path : list Z) (pgdir entry sp sz guardpg stacklastpg stacktop : Z) : K est Z :=
  set_proc (λ p, set_name (copy_name (p_name p) (last_elem path path)) p) ≫= λ _,
  let sz := PGROUNDUP (u32 (sz + MAX_SHM)) in
  gets (λ s, p_pgdir (ep s)) ≫= λ oldpgdir,
  gets (λ s, p_guardpg (ep s)) ≫= λ oldguard,
  set_proc (λ p, set_shmtop sz (set_shmnextpg stacktop (set_shmbreak stacktop (set_stacktop stacktop
    (set_stacklastpg stacklastpg (set_guardpg guardpg (set_tf (set_tf_eip_esp entry sp (p_tf p))
      (set_sz sz (set_pgdir pgdir p))))))))) ≫= λ _,
  gets ep ≫= λ p,
  on_vm (switchuvm p) ≫= λ _,
  on_k (freevm kend oldpgdir (Some (set_guardpg oldguard proc_zero))) ≫= λ _,
  mret 0.

Definition exec (path : list Z) (argv : list (list Z)) : K est Z :=
  on_f f_begin_op ≫= λ _,
  on_f (f_namei path) ≫= λ o,
  match o with
  | None => on_f f_end_op ≫= λ _, mret (-1)
  | Some ip =>
      on_f (f_ilock ip) ≫= λ _,
      load_program ip ≫= λ '(pgdir, o),
      match o with
      | None => bad pgdir (Some ip)
      | Some (entry, sz) =>
          on_f (f_iunlockput ip) ≫= λ _,
          on_f f_end_op ≫= λ _,
          let stacklastpg := PGROUNDUP sz in
          let guardpg := u32 (stacklastpg + MAX_STACK + PGSIZE) in
          let stacktop := u32 (guardpg + 2 * PGSIZE) in
          on_k (allocuvm kend pgdir guardpg stacktop None) ≫= λ sz,
          if sz =? 0 then panic "panic stackptr failed" else
          on_k (clearpteu pgdir guardpg) ≫= λ _,
          on_k (clearptep pgdir guardpg) ≫= λ _,
          push_stack argv pgdir sz ≫= λ o,
          match o with
          | None => bad pgdir None
          | Some sp =>
              gets ep ≫= λ p,
              on_vm (allocvdso vdso_impl_start vdso_impl_size pgdir p) ≫= λ _,
              commit_image path pgdir entry sp sz guardpg stacklastpg stacktop
          end
      end
  end.
End exec.
