(* ===== verification/Execmem.v ===== *)
(** An address space under construction, as exec builds it: which pages are mapped, which
    of them are hidden, and the bytes they hold; and what the other processes see, which is
    what they saw before. *)

From Stdlib Require Import ZArith Lia.
From stdpp Require Import base tactics numbers gmap strings functions fin_maps list.
From S2P Require Import Prelude Memory Kstring Spinlock Mmu Kalloc Procdef Vm Vminv Vmspec Vmalloc Cow Vmexample Fault Stack Vmprops Exec.

#[local] Open Scope Z_scope.

Section shared.
Context (kend : Z).
Implicit Types (k : kmem) (p : Pool.pool) (G : ghost).

(** A frame that the kernel keeps a reference to; it may be shared [m] more times. *)
Definition shared p G (m f : Z) : Prop :=
  good_page kend f ∧ roles G !! f = None ∧ 1 ≤ extra p G f ∧ Pool.count p f + m < 4294967296.

Lemma shared_count p G m f : shared p G m f → 1 ≤ Pool.count p f.
Proof. intros (_&Hr&Hx&_). unfold extra, tabs in Hx. rewrite Hr in Hx. pose proof (maps_nonneg G f). lia. Qed.
Lemma keep_role k p G k' p' G' f : R kend k p → keep k p G k' p' G' → good_page kend f → 1 ≤ Pool.count p f →
  roles G !! f = None → roles G' !! f = None.
Proof.
  intros HR HK Hg Hc Hr. destruct (k_data _ _ _ _ _ _ HK (kva f + 0)) as [[_ H] _].
  - split; rewrite (frame_at_kva kend) by (done || lia); [|done]. intros Hin. apply (R_free _ _ _ HR) in Hin. lia.
  - by rewrite (frame_at_kva kend) in H by (done || lia).
Qed.
Lemma shared_keep k p G k' p' G' m m' f : R kend k p → keep k p G k' p' G' → shared p G m f →
  1 ≤ extra p' G' f → Pool.count p' f + m' ≤ Pool.count p f + m → shared p' G' m' f.
Proof.
  intros HR HK Hs Hx Hc. pose proof (shared_count _ _ _ _ Hs). destruct Hs as (Hg&Hr&_&Hm). split_and!; [apply Hg..| |done|lia].
  by eapply keep_role.
Qed.
Lemma shared_grow k p G k' p' G' m f : R kend k p → grow k p G k' p' G' → extra p' G' f = extra p G f → shared p G m f → shared p' G' m f.
Proof.
  intros HR Hg Hx Hs. pose proof (shared_count _ _ _ _ Hs). eapply (shared_keep k p G k' p' G'); [done|by apply grow_keep|done|..].
  - rewrite Hx. apply Hs.
  - rewrite (g_count _ _ _ _ _ _ Hg) by lia. lia.
Qed.
Lemma shared_mixed k p G k' p' G' m f : R kend k p → R kend k' p' → mixed k p G k' p' G' → extra p' G' f = extra p G f → ptes G' = ptes G →
  shared p G m f → shared p' G' m f.
Proof.
  intros HR HR' Hm Hx Hp Hs. pose proof (shared_count _ _ _ _ Hs) as Hc. destruct Hs as (Hg&Hr&Hx1&Hlt).
  assert (Hc' : 1 ≤ Pool.count p' f).
  { pose proof (maps_nonneg G' f). unfold extra, tabs in Hx, Hx1. rewrite Hr in *. case_match; lia. }
  assert (Hr' : roles G' !! f = None).
  { destruct (m_data _ _ _ _ _ _ Hm (kva f + 0)) as [[_ H] _]; rewrite ?(frame_at_kva kend) by (done || lia).
    - split; rewrite (frame_at_kva kend) by (done || lia); [|done]. intros Hin. apply (R_free _ _ _ HR) in Hin. lia.
    - intros Hin. apply (R_free _ _ _ HR') in Hin. lia.
    - by rewrite (frame_at_kva kend) in H by (done || lia). }
  split_and!; [apply Hg..|done|lia|]. unfold extra, tabs, maps in Hx. rewrite Hr, Hr', Hp in Hx. lia.
Qed.
End shared.

Section build.
Context (kend : Z) (W : Z → Z → Prop) (Hkend : KERNBASE < kend).
Implicit Types (k : kmem) (p : Pool.pool) (G : ghost).

(** [d] is a page directory that was not there in the state [(k0, G0)], whose page
    directories are as they were; the frames in [W] are still shared. *)
Record apart k0 G0 d k p G : Prop := {
  ap_inv : vm_inv kend k p G;
  ap_dir : is_dir G d;
  ap_new : ¬ is_dir G0 d;
  ap_dirs d' : is_dir G0 d' → is_dir G d';
  ap_ptes d' u : d' ≠ d → ptes G !! (d', u) = ptes G0 !! (d', u);
  ap_view d' va : is_dir G0 d' → user_va va → user_read k d' va = user_read k0 d' va;
  ap_shared g m : W g m → shared kend p G m g
}.

(** The page [u] of [d]: not there, or a frame of its own with the bytes [I]. *)
Definition page_is d (vis : option bool) (I : Z → Z) k p G (u : Z) : Prop :=
  match vis with
  | None => ptes G !! (d, u) = None
  | Some v => ∃ e, ptes G !! (d, u) = Some e ∧ Pool.count p (e / 4096) = 1 ∧
      (if v : bool then e = e / 4096 * 4096 + 7 else has e PTE_P = false) ∧
      ∀ o, 0 ≤ o < 4096 → rd8 (pmem k) (kva (e / 4096) + o) = I (u * 4096 + o)
  end.
Definition pages d (V : Z → option bool) (I : Z → Z) k p G : Prop :=
  ∀ u, 0 ≤ u < UPAGES → page_is d (V u) I k p G u.

Lemma apart_ne k0 G0 d k p G d' : apart k0 G0 d k p G → is_dir G0 d' → d' ≠ d.
Proof. intros HA Hd ->. by apply (ap_new _ _ _ _ _ _ HA). Qed.

(** Routines that change no frame but those they take or give back. *)
Lemma apart_step k0 G0 d k p G k' p' G' : apart k0 G0 d k p G → vm_inv kend k' p' G' →
  (∀ a, stable p G a → frame_at a ∉ Pool.free p' → rd8 (pmem k') a = rd8 (pmem k) a) →
  (∀ d', is_dir G d' → is_dir G' d') → (∀ d' u, d' ≠ d → ptes G' !! (d', u) = ptes G !! (d', u)) →
  (∀ g m, W g m → shared kend p G m g → shared kend p' G' m g) → apart k0 G0 d k' p' G'.
Proof.
  intros HA HV Hdata Hdirs Hp Hsh. pose proof HA as [A1 A2 A3 A4 A5 A6 A7]. split; auto.
  - intros d' u Hne. rewrite Hp by done. auto.
  - intros d' va Hd' Hva. rewrite <- A6 by done. pose proof (apart_ne _ _ _ _ _ _ _ HA Hd').
    eapply (view_mixed kend k p G k' p' G'); auto.
Qed.
Lemma apart_grow k0 G0 d k p G k' p' G' : apart k0 G0 d k p G → vm_inv kend k' p' G' → grow k p G k' p' G' →
  (∀ d' u, d' ≠ d → ptes G' !! (d', u) = ptes G !! (d', u)) → (∀ g m, W g m → extra p' G' g = extra p G g) → apart k0 G0 d k' p' G'.
Proof.
  intros HA HV Hg Hp Hx. eapply (apart_step k0 G0 d k p G); try done.
  - intros a Ha _. by apply (g_data _ _ _ _ _ _ Hg).
  - intros d'. by apply (grow_is_dir k p G k' p' G').
  - intros g m Hw. eapply (shared_grow kend k p G); [apply HA|done|by eapply Hx].
Qed.

(** Pages stay as they are when frames are taken for something else. *)
Lemma page_grow d vis I k p G k' p' G' u : vm_inv kend k p G → grow k p G k' p' G' → u < UPAGES →
  ptes G' !! (d, u) = ptes G !! (d, u) → page_is d vis I k p G u → page_is d vis I k' p' G' u.
Proof.
  intros [HI HB] Hg Hu Hp. unfold page_is. destruct vis as [v|]; [|by rewrite Hp].
  intros (e&He&Hc&Hv&Hb). exists e. rewrite Hp. split_and!; [done| |done|].
  - by rewrite (g_count _ _ _ _ _ _ Hg) by lia.
  - intros o Ho. rewrite <- Hb by done. apply (g_data _ _ _ _ _ _ Hg).
    by destruct (entry_stable kend k p G d u e o HI HB He Hu Ho).
Qed.

(** ** Mapping new pages *)

Definition add_pages (V : Z → option bool) (lo hi : Z) (u : Z) : option bool :=
  if decide (lo ≤ u < hi) then Some true else V u.

Lemma alloc_built k0 G0 d V I k p G oldsz newsz :
  let lo := (oldsz + 4095) / 4096 in let hi := (newsz + 4095) / 4096 in
  apart k0 G0 d k p G → pages d V I k p G → 0 ≤ oldsz ≤ newsz → newsz < KERNBASE →
  (∀ u, lo ≤ u < hi → V u = None) → (∀ va, lo * 4096 ≤ va → I va = 0) →
  wp (allocuvm kend d oldsz newsz None) k (λ r k', ∃ p' G', apart k0 G0 d k' p' G' ∧
    (r = newsz ∧ pages d (add_pages V lo hi) I k' p' G' ∧
       Z.of_nat (length (Pool.free p)) ≤ Z.of_nat (length (Pool.free p')) + 2 * (hi - lo) ∨
     r = 0 ∧ Z.of_nat (length (Pool.free p)) < 2 * (hi - lo))).
Proof.
  intros lo hi HA HP Hsz Hns HV HZ. pose proof (ap_inv _ _ _ _ _ _ HA) as [HI HB].
  assert (HU : UPAGES = 524288) by done. assert (Hhi : hi ≤ UPAGES) by (unfold hi, KERNBASE in *; zlia).
  assert (Hlo : 0 ≤ lo) by (unfold lo; zlia).
  eapply wp_mono; [|apply (allocuvm_spec kend Hkend k p G d oldsz newsz None HI HB (ap_dir _ _ _ _ _ _ HA) Hsz Hns)].
  2: { intros u Hu. split; [|done]. pose proof (HP u) as H. rewrite HV in H by done. apply H. fold lo hi in Hu. lia. }
  fold lo hi. intros r k' [(->&p'&G'&HB')|(->&(p'&G'&HI'&HB'&Hm&Hx&Hpt)&Hlen)]; exists p', G'.
  - destruct HB' as [HI' HB' Hg Hx Hold Hnew Hcost]. split.
    { eapply apart_grow; try done. intros. apply Hold. by left. }
    left. split_and!; [done| |done]. intros u Hu. unfold add_pages. case_decide as Hr.
    + destruct (Hnew u Hr) as (f&Hl&_&Hc&Hb). exists (f * 4096 + 7).
      destruct (enc_dom _ _ _ (i_enc _ _ _ _ HI') _ _ _ Hl) as (Hfu&_). unfold is_u32 in Hfu. assert (0 ≤ f) by lia.
      rewrite entry7_frame by done. split_and!; try done. intros o Ho. rewrite Hb by done. symmetry. apply HZ. zlia.
    + apply (page_grow d (V u) I k p G); [done|done|lia| |by apply HP]. apply Hold. by right.
  - split; [|by right]. eapply (apart_step k0 G0 d k p G); try done.
    + intros a Ha Hf. by apply (m_data _ _ _ _ _ _ Hm).
    + intros d' (f&->&Hf). exists f. split; [done|]. by apply (m_roles _ _ _ _ _ _ Hm).
    + intros. by rewrite Hpt.
    + intros g m _. by apply (shared_mixed kend k p G k' p' G' m g); [apply HI|apply HI'|..].
Qed.

(** ** Hiding a page *)

Lemma hide_built k0 G0 d V I k p G k' u e e' : apart k0 G0 d k p G → pages d V I k p G → 0 ≤ u < UPAGES →
  V u = Some true → ptes G !! (d, u) = Some e → Inv0 kend k' p (set_pte G d u e') →
  (∀ g, extra p (set_pte G d u e') g = extra p G g) → grow k p G k' p (set_pte G d u e') →
  e' ≠ 0 → e' / 4096 = e / 4096 → has e' PTE_P = false →
  apart k0 G0 d k' p (set_pte G d u e') ∧ pages d (<[u := Some false]> V) I k' p (set_pte G d u e').
Proof.
  intros HA HP Hu HV He HI' Hx Hg Hnz Hf HnP. pose proof (ap_inv _ _ _ _ _ _ HA) as HVM. pose proof HVM as [HI HB]. split.
  - eapply (apart_grow k0 G0 d k p G); try done; [split; [done|]; intros g; by rewrite Hx|].
    intros d' w Hne. rewrite set_pte_lookup, decide_False by (done || by intros [? _]). done.
  - intros w Hw. destruct (decide (w = u)) as [->|Hne].
    + rewrite fn_lookup_insert. pose proof (HP u Hu) as H. rewrite HV in H. destruct H as (e0&He0&Hc&_&Hb).
      assert (e0 = e) as -> by congruence. exists e'. rewrite set_pte_lookup, decide_True, Hf by done. split_and!; try done.
      intros o Ho. rewrite <- Hb by done. apply (g_data _ _ _ _ _ _ Hg).
      by destruct (entry_stable kend k p G d u e o HI HB He ltac:(lia) Ho).
    + rewrite fn_lookup_insert_ne by done. apply (page_grow d (V w) I k p G); [done|done|lia| |by apply HP].
      by rewrite set_pte_lookup, decide_False by (done || by intros [_ ?]).
Qed.

Lemma clearptep_built k0 G0 d V I k p G u : apart k0 G0 d k p G → pages d V I k p G → 0 ≤ u < UPAGES → V u = Some true →
  wp (clearptep d (u * 4096)) k (λ _ k', ∃ G', apart k0 G0 d k' p G' ∧ pages d (<[u := Some false]> V) I k' p G').
Proof.
  intros HA HP Hu HV. pose proof (ap_inv _ _ _ _ _ _ HA) as [HI HB]. assert (HU : UPAGES = 524288) by done.
  pose proof (HP u Hu) as H. rewrite HV in H. destruct H as (e&He&_).
  destruct (entry_frame kend _ _ _ _ _ _ HI HB He ltac:(lia)) as (Hue&_).
  pose proof (entry_big kend Hkend _ _ _ _ _ _ HI HB He ltac:(lia)) as Hbig.
  assert (Hdiv : u * 4096 / 4096 = u) by (by rewrite Z.div_mul).
  pose proof (clear_nonzero e PTE_P ltac:(done) Hbig) as Hnz.
  eapply wp_mono; [|eapply (update_pte_spec kend k p G d (u * 4096) e "clearptep" (λ e, Z.land e (Z.lnot PTE_P)) HI (ap_dir _ _ _ _ _ _ HA));
    [unfold is_u32; lia|by rewrite Hdiv|by apply clear_u32|done|by apply frame_clear|intros HW _; left; by flags]].
  rewrite Hdiv. intros [] k' (HI'&Hx&Hg). eexists. eapply (hide_built k0 G0 d V I k p G); try done; [by apply frame_clear|by flags].
Qed.

Lemma guard_built k0 G0 d V I k p G u : apart k0 G0 d k p G → pages d V I k p G → 0 ≤ u < UPAGES → V u = Some true →
  wp (clearpteu d (u * 4096)) k (λ _ k1, wp (clearptep d (u * 4096)) k1 (λ _ k',
    ∃ G', apart k0 G0 d k' p G' ∧ pages d (<[u := Some false]> V) I k' p G')).
Proof.
  intros HA HP Hu HV. pose proof (ap_inv _ _ _ _ _ _ HA) as [HI HB]. assert (HU : UPAGES = 524288) by done.
  pose proof (HP u Hu) as H. rewrite HV in H. destruct H as (e&He&_).
  assert (Hdiv : u * 4096 / 4096 = u) by (by rewrite Z.div_mul).
  pose proof (hide_child kend Hkend k p G d (u * 4096) e HI HB (ap_dir _ _ _ _ _ _ HA)) as Hh.
  cbv zeta in Hh. rewrite Hdiv in Hh. ospecialize (Hh _ _ _); [unfold is_u32; lia|lia|done|]. apply wp_bind in Hh.
  eapply wp_mono; [|exact Hh]. intros [] k1 Hk1. eapply wp_mono; [|exact Hk1]. intros [] k' (HI'&Hnz&Hx&Hg).
  eexists. eapply (hide_built k0 G0 d V I k p G); try done; [by rewrite !frame_clear|by flags].
Qed.

(** ** Writing to a page *)

Lemma alone k0 G0 d V I k p G u v e d' u' e' : apart k0 G0 d k p G → pages d V I k p G → 0 ≤ u < UPAGES → V u = Some v →
  ptes G !! (d, u) = Some e → ptes G !! (d', u') = Some e' → u' < UPAGES → e' / 4096 = e / 4096 → d' = d ∧ u' = u.
Proof.
  intros HA HP Hu HV He He' Hu' Hf. destruct (decide ((d', u') = (d, u))) as [[= -> ->]|Hne]; [done|].
  pose proof (ap_inv _ _ _ _ _ _ HA) as [HI HB]. pose proof (HP u Hu) as H. rewrite HV in H. destruct H as (e0&He0&Hc&_).
  assert (e0 = e) as -> by congruence.
  assert (2 ≤ maps G (e / 4096)) by (by eapply (maps_two G d u e d' u' e'); [..|lia|done|]; done || congruence).
  destruct (entry_frame kend _ _ _ _ _ _ HI HB He ltac:(lia)) as (_&_&_&Hr&_).
  specialize (HB (e / 4096)). unfold extra, tabs in HB. rewrite Hr in HB. lia.
Qed.

Lemma byte_built k0 G0 d V I k p G u v e o b : apart k0 G0 d k p G → pages d V I k p G → 0 ≤ u < UPAGES → V u = Some v →
  ptes G !! (d, u) = Some e → 0 ≤ o < 4096 →
  let k' := set_pmem (wr8 (pmem k) (kva (e / 4096) + o) b) k in
  apart k0 G0 d k' p G ∧ pages d V (<[u * 4096 + o := u8 b]> I) k' p G.
Proof.
  intros HA HP Hu HV He Ho k'. pose proof (ap_inv _ _ _ _ _ _ HA) as [HI HB]. assert (HU : UPAGES = 524288) by done.
  destruct (entry_stable kend _ _ _ _ _ _ o HI HB He ltac:(lia) Ho) as [[_ Hr] Hfr].
  assert (HI' : Inv0 kend k' p G) by (by apply Inv0_wr8). pose proof HA as [A1 A2 A3 A4 A5 A6 A7].
  destruct (entry_frame kend _ _ _ _ _ _ HI HB He ltac:(lia)) as (_&_&Hg&_).
  assert (Hrd : ∀ e' o', good_page kend (e' / 4096) → 0 ≤ o' < 4096 → e' / 4096 ≠ e / 4096 ∨ o' ≠ o →
    rd8 (pmem k') (kva (e' / 4096) + o') = rd8 (pmem k) (kva (e' / 4096) + o')).
  { intros e' o' Hg' Ho' Hne. simpl. rewrite rd8_wr8, (kva_good kend _ Hg), (kva_good kend _ Hg'). case_decide; [|done]. exfalso. zlia. }
  split; [split; try done|].
  - intros d' va Hd' Hva. rewrite <- A6 by done. destruct (user_va_facts va Hva) as [Hva' Hvp].
    eapply (user_read_same kend k p G k' p G); try done; auto. intros e' He'. unfold pte_at. rewrite He'. split; [done|].
    destruct (entry_frame kend _ _ _ _ _ _ HI HB He' Hvp) as (_&_&Hg'&_). apply Hrd; [done|zlia|]. left. intros Hf.
    destruct (alone k0 G0 d V I k p G u v e d' (va / 4096) e' HA HP Hu HV He He' Hvp Hf) as [-> _]. done.
  - intros w Hw. specialize (HP w Hw) as Hpw. unfold page_is in *. destruct (V w) as [v'|] eqn:EV; [|done].
    destruct Hpw as (e'&He'&Hc&Hv&Hb). exists e'. split_and!; try done. intros o' Ho'.
    destruct (entry_frame kend _ _ _ _ _ _ HI HB He' ltac:(lia)) as (_&_&Hg'&_).
    destruct (decide (w = u ∧ o' = o)) as [[-> ->]|Hne].
    + rewrite fn_lookup_insert. assert (e' = e) as -> by congruence. simpl. rewrite rd8_wr8, decide_True by done. done.
    + rewrite fn_lookup_insert_ne by zlia. rewrite <- Hb by done. apply Hrd; [done|done|].
      destruct (decide (o' = o)) as [->|]; [left|by right]. intros Hf.
      destruct (alone k0 G0 d V I k p G u v e d w e' HA HP Hu HV He He' ltac:(lia) Hf) as [_ ->]. by apply Hne.
Qed.

(** [I] with the bytes [l] from [a] on. *)
Definition over (I : Z → Z) (a : Z) (l : list Z) (x : Z) : Z :=
  if decide (a ≤ x < a + Z.of_nat (length l)) then u8 (nth (Z.to_nat (x - a)) l 0) else I x.
Lemma over_cons I a b l x : over I a (b :: l) x = over (<[a := u8 b]> I) (a + 1) l x.
Proof.
  unfold over. cbn [length]. destruct (decide (x = a)) as [->|Hne].
  - rewrite decide_True, decide_False by lia. by rewrite fn_lookup_insert, Z.sub_diag.
  - rewrite fn_lookup_insert_ne by done. repeat case_decide; try lia; try done.
    by replace (Z.to_nat (x - a)) with (Datatypes.S (Z.to_nat (x - (a + 1)))) by lia.
Qed.

Lemma pages_ext d V I V' I' k p G : pages d V I k p G → (∀ u, V u = V' u) → (∀ x, I x = I' x) → pages d V' I' k p G.
Proof.
  intros HP EV EI u Hu. specialize (HP u Hu). unfold page_is in *. rewrite <- EV. destruct (V u); [|done].
  destruct HP as (e&He&Hc&Hv&Hb). exists e. split_and!; try done. intros o Ho. rewrite <- EI. auto.
Qed.

Lemma put_built k0 G0 d V I k p G u v e o l : apart k0 G0 d k p G → pages d V I k p G → 0 ≤ u < UPAGES → V u = Some v →
  ptes G !! (d, u) = Some e → 0 ≤ o → o + Z.of_nat (length l) ≤ 4096 →
  wp (put_bytes (kva (e / 4096) + o) l) k (λ _ k', apart k0 G0 d k' p G ∧ pages d V (over I (u * 4096 + o) l) k' p G).
Proof.
  intros HA HP Hu HV He Ho Hl. pose proof (ap_inv _ _ _ _ _ _ HA) as [HI HB].
  destruct (entry_frame kend _ _ _ _ _ _ HI HB He ltac:(lia)) as (_&_&Hg&_).
  unfold put_bytes. rewrite (proj2 (Z.eqb_neq _ 0)) by (by apply (kva_off_nonzero kend)). unfold wp, modify.
  revert I k o HA HP Ho Hl HI. induction l as [|b l IH]; intros I k o HA HP Ho Hl HI; cbn [wr_bytes length] in *.
  - assert (set_pmem (pmem k) k = k) as -> by (by destruct k). split; [done|]. eapply pages_ext; [done..|].
    intros x. unfold over. cbn [length]. by rewrite decide_False by lia.
  - destruct (byte_built k0 G0 d V I k p G u v e o b HA HP Hu HV He ltac:(lia)) as [HA1 HP1].
    specialize (IH _ _ (o + 1) HA1 HP1 ltac:(lia) ltac:(lia) (proj1 (ap_inv _ _ _ _ _ _ HA1))).
    replace (kva (e / 4096) + o + 1) with (kva (e / 4096) + (o + 1)) by lia. simpl in IH. destruct IH as [HA2 HP2].
    split; [done|]. eapply pages_ext; [exact HP2|done|]. intros x. rewrite over_cons. by replace (u * 4096 + (o + 1)) with (u * 4096 + o + 1) by lia.
Qed.

(** The entry of a mapped page, as the code finds it. *)
Lemma entry_walk k p G d va e : Inv0 kend k p G → is_u32 va → ptes G !! (d, va / 4096) = Some e →
  ∃ a, a ≠ 0 ∧ walkpgdir d va false k = Ret a k ∧ load32 a k = Ret e k.
Proof.
  intros HI Hva He. destruct (enc_dom _ _ _ (i_enc _ _ _ _ HI) _ _ _ He) as (_&_&_&f&Hf).
  rewrite <- PDX_vp in Hf by done. pose proof (enc_good _ _ _ (i_enc _ _ _ _ HI) _ _ Hf) as Hg.
  exists (kva f + 4 * PTX va). split; [apply Z.eqb_neq; by apply (slot_pte_nonzero kend)|].
  split; [by apply (walk_slot kend k p G)|]. rewrite (load_slot kend k p G d) by done. unfold pte_at. by rewrite He.
Qed.

Lemma uva2ka_page k p G d V I k0 G0 u e : apart k0 G0 d k p G → pages d V I k p G → 0 ≤ u < UPAGES → V u = Some true →
  ptes G !! (d, u) = Some e → uva2ka d (u * 4096) k = Ret (kva (e / 4096)) k.
Proof.
  intros HA HP Hu HV He. pose proof (ap_inv _ _ _ _ _ _ HA) as [HI HB]. assert (HU : UPAGES = 524288) by done.
  pose proof (HP u Hu) as H. rewrite HV in H. destruct H as (e0&He0&_&E7&_). assert (e0 = e) as -> by congruence.
  destruct (entry_walk k p G d (u * 4096) e HI) as (a&_&Hw&Hl); [unfold is_u32; lia|by rewrite Z.div_mul|].
  destruct (entry_frame kend _ _ _ _ _ _ HI HB He ltac:(lia)) as (Hue&_).
  unfold is_u32 in Hue. assert (HF : has e PTE_P = true ∧ has e PTE_U = true).
  { rewrite E7, <- lor_pte by (done || zlia). split; by flags. }
  unfold uva2ka, mbind, K_bind. rewrite Hw, Hl. destruct HF as [-> ->]. cbn. by rewrite frame_P2V.
Qed.

(** ** Beginning and end *)

(** What is left when an attempt has failed: nothing that anybody could see. *)
Definition unchanged k0 G0 k : Prop := ∃ p G, vm_inv kend k p G ∧ ∀ d', is_dir G0 d' → is_dir G d' ∧
  (∀ u, ptes G !! (d', u) = ptes G0 !! (d', u)) ∧ ∀ va, user_va va → user_read k d' va = user_read k0 d' va.

Lemma unchanged_refl k p G : vm_inv kend k p G → unchanged k G k.
Proof. intros HV. exists p, G. done. Qed.

Lemma setup_built kdata k p G : kdata mod 4096 = 0 ∧ KERNLINK < kdata < KERNBASE + PHYSTOP → vm_inv kend k p G → (∀ g m, W g m → shared kend p G m g) →
  wp (setupkvm kend kdata) k (λ d k', d = 0 ∧ unchanged k G k' ∧ (length (Pool.free p) ≤ 122)%nat ∨
    d ≠ 0 ∧ ∃ p' G', apart k G d k' p' G' ∧ pages d (λ _, None) (λ _, 0) k' p' G' ∧
      Z.of_nat (length (Pool.free p)) ≤ Z.of_nat (length (Pool.free p')) + 122).
Proof.
  intros Hkd HV HW. pose proof HV as [HI HB]. eapply wp_mono; [|by apply (setupkvm_spec kend Hkend kdata Hkd k p G)].
  intros d k' [(->&(p'&G'&HI'&HB'&Hm&Hx&Hpt)&Hlen)|(Hd0&p'&G'&[HI' HB' Hg Hx [Hd Hnd] Ho Hmap Hcost])]; [left|right].
  - split_and!; [done| |done]. exists p', G'. split; [done|]. intros d' Hd'. assert (Hd1 : is_dir G' d').
    { destruct Hd' as (f&->&Hf). exists f. split; [done|]. by apply (m_roles _ _ _ _ _ _ Hm). }
    split_and!; [done|intros; by rewrite Hpt|]. intros va Hva. eapply (view_mixed kend k p G k' p' G'); try done; [|by rewrite Hpt].
    intros a Ha Hf. by apply (m_data _ _ _ _ _ _ Hm).
  - split; [done|]. exists p', G'. split_and!; [|intros u Hu|done].
    + assert (H0 : ∀ d', is_dir G d' → d' ≠ d) by (by intros d' Hd' ->).
      split; try done; [intros d'; by apply (grow_is_dir k p G k' p' G')| |intros g m Hw; eapply (shared_grow kend k p G); [apply HI|done|done|by apply HW]].
      intros d' va Hd' Hva. eapply (view_mixed kend k p G k' p' G'); try done; [by apply (grow_is_dir k p G k' p' G')| |by apply Ho, H0].
      intros a Ha _. by apply (g_data _ _ _ _ _ _ Hg).
    + cbn. rewrite Hmap. unfold kernel_pte. assert (HU : UPAGES = 524288) by done. by rewrite !decide_False by lia.
Qed.

Lemma free_dirs G G' d d' : roles G' = filter (λ x, ¬ of_dir d x.1 x.2) (roles G) → is_dir G d' → d' ≠ d → is_dir G' d'.
Proof. intros Hr (f&->&Hf) Hne. exists f. split; [done|]. rewrite Hr. by apply map_lookup_filter_Some. Qed.

(** freevm of a directory [d1], seen by the others. *)
Lemma freevm_others k p G d1 cp : vm_inv kend k p G → is_dir G d1 →
  (∀ u, 0 ≤ u < UPAGES → is_guard cp (u * 4096) = true → pte_at G d1 u ≠ 0) →
  wp (freevm kend d1 cp) k (λ _ k', ∃ p' G', vm_inv kend k' p' G' ∧ (∀ d', is_dir G' d' → is_dir G d' ∧ d' ≠ d1) ∧
    ∀ d', is_dir G d' → d' ≠ d1 → is_dir G' d' ∧
      (∀ u, ptes G' !! (d', u) = ptes G !! (d', u)) ∧ ∀ va, user_va va → user_read k' d' va = user_read k d' va).
Proof.
  intros HV Hd Hgd. pose proof HV as [HI HB]. eapply wp_mono; [|by apply (freevm_spec kend Hkend k p G d1 cp)].
  intros [] k' (p'&G1&G'&HI'&HB'&Hsw&Hr&Ho&Hn&Hx&Hdata&_). exists p', G'. split_and!; [done| |].
  - intros d' (f&->&Hf). rewrite Hr in Hf. apply map_lookup_filter_Some in Hf as [Hf Hnf]. split; [by exists f|]. done.
  - intros d' Hd' Hne. assert (is_dir G' d') by (by eapply free_dirs). split_and!; [done|intros; by apply Ho|].
    intros va Hva. eapply (view_mixed kend k p G k' p' G'); try done; [|by apply Ho]. intros a Ha Hf. by apply Hdata.
Qed.

Lemma free_built k0 G0 d k p G : apart k0 G0 d k p G → wp (freevm kend d None) k (λ _ k', unchanged k0 G0 k').
Proof.
  intros HA. pose proof HA as [A1 A2 A3 A4 A5 A6 A7]. eapply wp_mono; [|by apply (freevm_others k p G d None)].
  intros [] k' (p'&G'&HV&_&Ho). exists p', G'. split; [done|]. intros d' Hd'. pose proof (apart_ne _ _ _ _ _ _ _ HA Hd').
  destruct (Ho d') as (?&Hp&Hr); [by apply A4|done|]. split_and!; [done| |].
  - intros u. rewrite Hp. by apply A5.
  - intros va Hva. rewrite Hr by done. by apply A6.
Qed.
End build.
