(* ===== verification/Execvdso.v ===== *)
(** The VDSO pages of an address space under construction (allocvdso): the text and the
    ticks page, which all processes share, and a page of its own with the process id. *)

From Stdlib Require Import ZArith Lia.
From stdpp Require Import base tactics numbers gmap strings functions fin_maps list.
From S2P Require Import Prelude Memory Kstring Spinlock Mmu Kalloc Procdef Vm Vminv Vmspec Vmalloc Cow Vmexample Fault Stack Vmprops Exec Execmem.

#[local] Open Scope Z_scope.

Definition VPAGE : Z := VDSOTEXT / PGSIZE.

(** No frame needs to stay as it is. *)
Definition nobody (f m : Z) : Prop := False.

Section vdso.
Context (kend : Z) (Hkend : KERNBASE < kend).
Implicit Types (k : kmem) (p : Pool.pool) (G : ghost).

(** The pages below the VDSO are those of [V] and [I], the entries above are those of [E]. *)
Record staged k0 G0 d V I (E : Z → option Z) k p G : Prop := {
  st_apart : apart kend nobody k0 G0 d k p G;
  st_pages u : 0 ≤ u < VPAGE → page_is d (V u) I k p G u;
  st_vdso u : VPAGE ≤ u < UPAGES → ptes G !! (d, u) = E u
}.

Lemma staged_start k0 G0 d V I k p G : apart kend nobody k0 G0 d k p G → pages d V I k p G →
  (∀ u, VPAGE ≤ u < UPAGES → V u = None) → staged k0 G0 d V I (λ _, None) k p G.
Proof.
  assert (HV : VPAGE = 524285) by done. assert (HU : UPAGES = 524288) by done. intros HA HP HN. split; [done|..].
  - intros u Hu. apply HP. lia.
  - intros u Hu. pose proof (HP u ltac:(lia)) as H. by rewrite HN in H.
Qed.

Lemma entry5 f : 0 ≤ f → Z.lor (Z.lor (f * 4096) PTE_U) PTE_P = f * 4096 + 5.
Proof. intros. rewrite <- Z.lor_assoc. apply lor_pte; [zlia|done]. Qed.
Lemma entry5_facts f : 0 ≤ f → (f * 4096 + 5) / 4096 = f ∧ user_ok (f * 4096 + 5) false = true ∧ has (f * 4096 + 5) PTE_W = false.
Proof.
  intros Hf. split; [zlia|]. unfold user_ok. rewrite <- lor_pte by (done || zlia).
  assert (H : ∀ n, 0 ≤ n < 12 → Z.testbit (f * 4096) n = false) by (intros n Hn; change 4096 with (2 ^ 12); apply Z.mul_pow2_bits_low; lia).
  split; flags; [done|]. by rewrite H.
Qed.

(** Mapping a frame read-only, which uses up one of the kernel's references. *)
Lemma map_built k0 G0 d V I E k p G u f : staged k0 G0 d V I E k p G → VPAGE ≤ u < UPAGES → E u = None →
  shared kend p G 0 f → Pool.free p ≠ [] →
  wp (mappages d (u * 4096) PGSIZE (V2P (kva f)) PTE_U) k (λ r k', r = 0 ∧ ∃ p' G',
    staged k0 G0 d V I (<[u := Some (f * 4096 + 5)]> E) k' p' G' ∧ grow k p G k' p' G' ∧
    (∀ g, extra p' G' g = extra p G g - if decide (f = g) then 1 else 0) ∧
    (length (Pool.free p) ≤ Datatypes.S (length (Pool.free p')))%nat).
Proof.
  intros [HA HP HE] Hu HEu Hs Hfree. pose proof (ap_inv _ _ _ _ _ _ _ _ HA) as [HI HB].
  assert (HV : VPAGE = 524285) by done. assert (HU : UPAGES = 524288) by done.
  pose proof (shared_count _ _ _ _ _ Hs) as Hc. destruct Hs as (Hg&Hr&Hx&_). pose proof (good_bounds _ _ Hg) as Hfb.
  assert (Hnone : ptes G !! (d, u) = None) by (by rewrite HE).
  destruct (entry5_facts f ltac:(lia)) as (Hf5&_&HW5).
  rewrite mappages_one by (unfold is_u32; zlia). rewrite (V2P_kva kend), entry5 by (done || lia).
  assert (Hdiv : u * 4096 / 4096 = u) by (by rewrite Z.div_mul).
  eapply (map_step kend k p G d (u * 4096)); rewrite ?Hdiv; try done; [apply HA|unfold is_u32; lia|..].
  - unfold pte_at. by rewrite Hnone.
  - unfold is_u32. lia.
  - intros _ _. rewrite Hf5, HW5. done.
  - intros _. rewrite Hf5. lia.
  - intros k1 p1 G1 HI1 Hg1 [Hcost _] _ Hpt1 Hx1. apply wp_ret. split; [done|].
    assert (Hx1' : ∀ g, extra p1 G1 g = extra p G g - if decide (f = g) then 1 else 0).
    { intros g. rewrite Hx1. unfold pte_at. rewrite Hnone. cbn [default]. rewrite contrib_0. unfold contrib. rewrite Hf5.
      destruct (decide (f = g)) as [->|]; [rewrite decide_True by lia|rewrite decide_False by naive_solver]; lia. }
    assert (HB1 : Bal p1 G1) by (intros g; rewrite Hx1'; specialize (HB g); case_decide; [subst|]; lia).
    assert (Hlk : ∀ d' w, ptes G1 !! (d', w) = if decide (d' = d ∧ w = u) then Some (f * 4096 + 5) else ptes G !! (d', w)).
    { intros d' w. rewrite Hpt1. apply set_pte_lookup. lia. }
    exists p1, G1. split_and!; [|done|done|done]. split.
    + eapply (apart_grow kend nobody k0 G0 d k p G); try done. intros d' w Hne. rewrite Hlk, decide_False; [done|]. by intros [? _].
    + intros w Hw. apply (page_grow kend d (V w) I k p G); [done|done|lia| |by apply HP]. rewrite Hlk, decide_False; [done|]. lia.
    + intros w Hw. rewrite Hlk. destruct (decide (w = u)) as [->|Hne]; [by rewrite decide_True, fn_lookup_insert|].
      rewrite decide_False, fn_lookup_insert_ne by naive_solver. by apply HE.
Qed.

(** The counts of frames that are not pages of [d] may change. *)
Lemma staged_count k0 G0 d V I E k p G k' p' : staged k0 G0 d V I E k p G → vm_inv kend k' p' G → pmem k' = pmem k →
  (∀ u e, 0 ≤ u < VPAGE → ptes G !! (d, u) = Some e → Pool.count p (e / 4096) = 1 → Pool.count p' (e / 4096) = 1) →
  staged k0 G0 d V I E k' p' G.
Proof.
  intros HS HV Hm Hc. pose proof HS as [HA HP HE]. pose proof HA as [A1 A2 A3 A4 A5 A6 A7]. split; [split; try done|..|done].
  - intros d' va Hd' Hva. rewrite <- A6 by done. unfold user_read. by rewrite Hm.
  - intros u Hu. pose proof (HP u Hu) as H. unfold page_is in *. destruct (V u) as [v|] eqn:EV; [|done].
    destruct H as (e&He&Hc1&Hv&Hb). exists e. rewrite Hm. split_and!; try done. by eapply Hc.
Qed.

(** One more reference to a frame that is mapped read-only. *)
Lemma incl_built k0 G0 d V I E k p G u f : staged k0 G0 d V I E k p G → VPAGE ≤ u < UPAGES → E u = Some (f * 4096 + 5) →
  0 ≤ f → Pool.count p f + 1 < 4294967296 →
  wp (inclRefCount (kva f)) k (λ _ k', ∃ p', staged k0 G0 d V I E k' p' G ∧ pmem k' = pmem k ∧ Pool.free p' = Pool.free p ∧
    (∀ g, extra p' G g = extra p G g + if decide (f = g) then 1 else 0) ∧
    (∀ g, Pool.count p' g = Pool.count p g + if decide (f = g) then 1 else 0)).
Proof.
  intros HS Hu HE Hf0 Hmax. pose proof (ap_inv _ _ _ _ _ _ _ _ (st_apart _ _ _ _ _ _ _ _ _ HS)) as [HI HB].
  assert (HV : VPAGE = 524285) by done. assert (HU : UPAGES = 524288) by done.
  rewrite <- (st_vdso _ _ _ _ _ _ _ _ _ HS) in HE by done. destruct (entry5_facts f Hf0) as (Hf5&_&HW5).
  destruct (entry_frame kend _ _ _ _ _ _ HI HB HE ltac:(lia)) as (_&_&Hg&Hr&Hc). rewrite Hf5 in Hg, Hr, Hc.
  eapply wp_mono; [|apply (incl_spec kend k p G f); try done].
  - intros [] k' (p'&HI'&Hm&Hf&Hcnt). exists p'.
    assert (Hx : ∀ g, extra p' G g = extra p G g + if decide (f = g) then 1 else 0) by (intros g; unfold extra; rewrite Hcnt; lia).
    split_and!; try done. eapply staged_count; try done.
    + split; [done|]. intros g. rewrite Hx. specialize (HB g). case_decide; lia.
    + intros w e Hw He Hc1. rewrite Hcnt. case_decide as Hfe; [|lia]. exfalso.
      assert (2 ≤ maps G (e / 4096)) by (eapply (maps_two G d w e d u); try done; [by intros [= ->]; lia|lia|lia|by rewrite Hf5]).
      destruct (entry_frame kend _ _ _ _ _ _ HI HB He ltac:(lia)) as (_&_&_&Hre&_).
      specialize (HB (e / 4096)). unfold extra, tabs in HB. rewrite Hre in HB. lia.
  - intros d' vp e He Hvp Hfe HWe. rewrite <- Hfe. eapply (two_entries_shm kend k p G d u _ d' vp e); try done; [|lia|by rewrite Hf5].
    intros [= <- <-]. assert (e = f * 4096 + 5) as -> by congruence. by rewrite HW5 in HWe.
Qed.

(** A new frame; what it held does not matter. *)
Lemma kalloc_built k0 G0 d V I E k p G : staged k0 G0 d V I E k p G → Pool.free p ≠ [] →
  wp kalloc k (λ v k', ∃ f p', v = kva f ∧ staged k0 G0 d V I E k' p' G ∧ good_page kend f ∧ roles G !! f = None ∧ maps G f = 0 ∧
    keep k p G k' p' G ∧ Pool.count p f = 0 ∧ (∀ g, Pool.count p' g = if decide (f = g) then 1 else Pool.count p g) ∧
    length (Pool.free p) = Datatypes.S (length (Pool.free p')) ∧ f ∈ Pool.free p ∧ f ∉ Pool.free p').
Proof.
  intros HS Hfree. pose proof (ap_inv _ _ _ _ _ _ _ _ (st_apart _ _ _ _ _ _ _ _ _ HS)) as [HI HB].
  eapply wp_mono; [|by apply (kalloc_vm kend k p G)].
  intros v k' (Hm&[(_&?&_)|(f&l&->&Hl&Hg&Hc&Hr&Hmp&Hnl&HI')]); [done|].
  exists f, {| Pool.free := l; Pool.count := Pool.upd (Pool.count p) f 1 |}.
  assert (HV : VPAGE = 524285) by done. assert (HU : UPAGES = 524288) by done. split_and!; try done.
  - eapply staged_count; try done.
    + split; [done|]. intros g. rewrite extra_alloc by done. specialize (HB g). case_decide; lia.
    + intros u e Hu He Hc1. cbn. unfold Pool.upd. case_decide; [done|]. done.
  - split; [|done]. intros a [Ha Hra]. rewrite Hl in Ha. apply not_elem_of_cons in Ha as [_ Ha]. by rewrite Hm.
  - by rewrite Hl.
  - rewrite Hl. by left.
Qed.

(** Writing to a frame that nobody maps. *)
Lemma transit_built k0 G0 d V I E k p G f m : staged k0 G0 d V I E k p G → good_page kend f → roles G !! f = None → maps G f = 0 →
  mem_wf m → (∀ a, frame_at a ≠ f → rd8 m a = rd8 (pmem k) a) → staged k0 G0 d V I E (set_pmem m k) p G.
Proof.
  intros HS Hg Hr Hmp Hwf Hm. pose proof HS as [HA HP HE]. pose proof HA as [A1 A2 A3 A4 A5 A6 A7]. pose proof A1 as [HI HB].
  assert (HV : VPAGE = 524285) by done. assert (HU : UPAGES = 524288) by done.
  assert (HI' : Inv0 kend (set_pmem m k) p G).
  { destruct HI as [HR He Hp Ht]. split; [by apply R_set_pmem| |done|done]. eapply enc_data; [|done].
    intros g r Hrg o Ho. apply Hm. rewrite (frame_at_kva kend) by (done || by eapply enc_good). congruence. }
  assert (Hother : ∀ d' w e o, ptes G !! (d', w) = Some e → w < UPAGES → 0 ≤ o < 4096 →
    rd8 m (kva (e / 4096) + o) = rd8 (pmem k) (kva (e / 4096) + o)).
  { intros d' w e o He Hw Ho. apply Hm. destruct (entry_frame kend _ _ _ _ _ _ HI HB He Hw) as (_&_&Hge&_).
    rewrite (frame_at_kva kend) by done. intros <-. pose proof (maps_pos G d' w e He Hw). lia. }
  split; [split; try done|..|done].
  - intros d' va Hd' Hva. rewrite <- A6 by done. destruct (user_va_facts va Hva) as [Hva' Hvp].
    eapply (user_read_same kend k p G (set_pmem m k) p G); try done; auto. intros e' He'. unfold pte_at. rewrite He'. split; [done|].
    eapply Hother; try done. zlia.
  - intros u Hu. pose proof (HP u Hu) as H. unfold page_is in *. destruct (V u) as [v|] eqn:EV; [|done].
    destruct H as (e&He&Hc1&Hv&Hb). exists e. split_and!; try done. intros o Ho. rewrite <- Hb by done. eapply Hother; try done. lia.
Qed.

(** ** The steps of allocvdso *)

(** Mapping a shared frame and counting the reference. *)
Lemma share_built k0 G0 d V I E k p G u f : staged k0 G0 d V I E k p G → VPAGE ≤ u < UPAGES → E u = None →
  shared kend p G 1 f → Pool.free p ≠ [] →
  wp (mappages d (u * 4096) PGSIZE (V2P (kva f)) PTE_U) k (λ r k1, r = 0 ∧ wp (inclRefCount (kva f)) k1 (λ _ k', ∃ p' G',
    staged k0 G0 d V I (<[u := Some (f * 4096 + 5)]> E) k' p' G' ∧ keep k p G k' p' G' ∧
    (∀ g m, shared kend p G (m + 1) g → shared kend p' G' m g) ∧ (length (Pool.free p) ≤ Datatypes.S (length (Pool.free p')))%nat)).
Proof.
  intros HS Hu HE Hs Hfree. pose proof (ap_inv _ _ _ _ _ _ _ _ (st_apart _ _ _ _ _ _ _ _ _ HS)) as [HI HB].
  pose proof Hs as (Hg&Hr&Hx&Hmax). pose proof (good_bounds _ _ Hg) as Hfb. pose proof (shared_count _ _ _ _ _ Hs) as Hc.
  eapply wp_mono; [|apply (map_built k0 G0 d V I E k p G u f); try done; split_and!; try done; [apply Hg..|lia]].
  intros r k1 (->&p1&G1&HS1&Hg1&Hx1&Hl1). split; [done|].
  assert (Hcf : Pool.count p1 f = Pool.count p f) by (apply (g_count _ _ _ _ _ _ Hg1); lia).
  eapply wp_mono; [|apply (incl_built k0 G0 d V I _ k1 p1 G1 u f HS1 Hu); [by rewrite fn_lookup_insert|lia|lia]].
  intros [] k2 (p2&HS2&Hm2&Hf2&Hx2&Hc2). exists p2, G1.
  assert (HK : keep k p G k2 p2 G1).
  { eapply keep_trans; [by apply grow_keep|]. split; [|done]. intros a [Ha Hra]. rewrite Hm2. split; [|done]. split; [by rewrite Hf2|done]. }
  split_and!; [done|done| |by rewrite Hf2].
  intros g m Hsg. pose proof (shared_count _ _ _ _ _ Hsg) as Hcg. eapply (shared_keep kend k p G k2 p2 G1); [apply HI|done|done|..].
  - rewrite Hx2, Hx1. destruct Hsg as (_&_&?&_). case_decide; lia.
  - rewrite Hc2, (g_count _ _ _ _ _ _ Hg1) by lia. case_decide; lia.
Qed.

Definition set_km k (s : vmstate) : vmstate := {| km := k; vdso_text_page := vdso_text_page s;
  vdso_ticks_page := vdso_ticks_page s; kpgdir := kpgdir s; cr3 := cr3 s |}.
Lemma wp_on_km {A} (m : K kmem A) s (Q : A → vmstate → Prop) : wp (on_km m) s Q ↔ wp m (km s) (λ a k', Q a (set_km k' s)).
Proof. unfold wp, on_km, zoom. by destruct (m (km s)). Qed.

(** The address of a page that is shared between processes, or 0 if there is none yet. *)
Definition vdso_page p G m (v : Z) : Prop := v = 0 ∨ ∃ f, v = kva f ∧ shared kend p G m f.

(** A routine that writes to one frame. *)
Definition fills (init : Z → K kmem unit) : Prop := ∀ f k, good_page kend f → mem_wf (pmem k) →
  ∃ m, init (kva f) k = Ret tt (set_pmem m k) ∧ mem_wf m ∧ ∀ a, frame_at a ≠ f → rd8 m a = rd8 (pmem k) a.

Lemma fresh_shared k0 G0 d V I E k p G k' p' f m : staged k0 G0 d V I E k p G → good_page kend f → roles G !! f = None → maps G f = 0 →
  Pool.count p f = 0 → (∀ g, Pool.count p' g = if decide (f = g) then 1 else Pool.count p g) → keep k p G k' p' G →
  1 + m < 4294967296 → shared kend p' G m f ∧ ∀ g n, shared kend p G n g → shared kend p' G n g.
Proof.
  intros HS Hg Hr Hmp Hc0 Hc HK Hm. pose proof (ap_inv _ _ _ _ _ _ _ _ (st_apart _ _ _ _ _ _ _ _ _ HS)) as [HI HB]. split.
  - split_and!; [apply Hg..|done| |]; unfold extra, tabs; rewrite Hc, decide_True, ?Hr by done; lia.
  - intros g n Hs. pose proof (shared_count _ _ _ _ _ Hs). assert (f ≠ g) by (intros ->; lia).
    eapply (shared_keep kend k p G k' p' G); [apply HI|done|done|..].
    + unfold extra. rewrite Hc, decide_False by done. apply Hs.
    + rewrite Hc, decide_False by done. lia.
Qed.

Lemma shared_page_built k0 G0 d V I E s p G m get set upd init :
  staged k0 G0 d V I E (km s) p G → vdso_page p G m (get s) → Pool.free p ≠ [] → 1 + m < 4294967296 → fills init →
  (∀ v s, set v s = Ret tt (upd v s)) → (∀ v s, km (upd v s) = km s) → (∀ k v s, upd v (set_km k s) = set_km k (upd v s)) → upd (get s) s = s →
  wp (shared_page get set init) s (λ r s', r = true ∧ ∃ f k' p', s' = set_km k' (upd (kva f) s) ∧
    staged k0 G0 d V I E k' p' G ∧ shared kend p' G m f ∧ (∀ g n, shared kend p G n g → shared kend p' G n g) ∧ keep (km s) p G k' p' G ∧
    (length (Pool.free p) ≤ Datatypes.S (length (Pool.free p')))%nat).
Proof.
  intros HS Hv Hfree Hm Hin Hset Hkm Hcomm Hget. unfold shared_page. apply wp_bind. unfold gets, wp at 1.
  destruct Hv as [->|(f&E1&Hs)].
  - rewrite Z.eqb_refl. apply wp_bind, wp_on_km. eapply wp_mono; [|by apply (kalloc_built k0 G0 d V I E (km s) p G)].
    intros v k1 (f&p1&->&HS1&Hg&Hr&Hmp&HK&Hc0&Hc&Hl&Hin0&Hnf). apply wp_bind. unfold wp at 1. rewrite Hset.
    rewrite (kva_nonzero kend) by done. apply wp_bind, wp_on_km. rewrite Hkm. cbn [km set_km].
    pose proof (ap_inv _ _ _ _ _ _ _ _ (st_apart _ _ _ _ _ _ _ _ _ HS1)) as [HI1 _].
    destruct (Hin f k1 Hg) as (mm&Ei&Hwf&Ho); [apply (i_R _ _ _ _ HI1)|]. unfold wp at 1. rewrite Ei. apply wp_ret. split; [done|].
    destruct (fresh_shared k0 G0 d V I E (km s) p G k1 p1 f m HS Hg Hr Hmp Hc0 Hc HK Hm) as [Hsf Hso].
    exists f, (set_pmem mm k1), p1. split_and!; [|by eapply transit_built|done|done| |lia].
    + rewrite Hcomm. by destruct (upd (kva f) s).
    + split; [|done]. intros a Ha. destruct (k_data _ _ _ _ _ _ HK a Ha) as [Ha1 <-]. split; [done|]. apply Ho. intros Hf.
      apply (proj1 Ha). by rewrite Hf.
  - rewrite E1, (kva_nonzero kend) by apply Hs. apply wp_ret. split; [done|]. exists f, (km s), p.
    split_and!; [|done|done|done|apply keep_refl|lia]. rewrite <- E1, Hget. by destruct s.
Qed.

Lemma fills_memset : fills (λ pg, memset_at pg 0 PGSIZE).
Proof.
  intros f k Hg Hwf. unfold memset_at. rewrite (kva_nonzero kend) by done. eexists. split; [done|].
  split; [by apply mem_wf_memset|]. intros a Ha. by apply (rd8_memset_frame kend).
Qed.
Lemma fills_memmove src n : 0 ≤ n ≤ PGSIZE → fills (λ pg, memmove_at pg src n).
Proof.
  intros Hn f k Hg Hwf. unfold memmove_at. rewrite (kva_nonzero kend) by done. eexists. split; [done|].
  split; [by apply mem_wf_memmove|]. intros a Ha. rewrite <- (Z.add_0_r (kva f)). unfold PGSIZE in Hn. apply (rd8_memmove_frame kend); done || lia.
Qed.

Lemma some_free p : (1 ≤ length (Pool.free p))%nat → Pool.free p ≠ [].
Proof. intros H E. rewrite E in H. cbn in H. lia. Qed.

Lemma rd8_wr32_byte m a v o : 0 ≤ o < 4 → rd8 (wr32 m a v) (a + o) = nth (Z.to_nat o) (le_bytes v) 0.
Proof.
  intros Ho. unfold wr32, le_bytes. rewrite !rd8_wr8. assert (o = 0 ∨ o = 1 ∨ o = 2 ∨ o = 3) as [->|[->|[->| ->]]] by lia;
    repeat case_decide; try lia; cbn [Z.to_nat nth Pos.to_nat Pos.iter_op Nat.add]; rewrite ?Z.shiftr_div_pow2 by lia; done.
Qed.

(** The page with the process id, and the rest of the routine. *)
Lemma pid_built k0 G0 d V I E s p G u va pid (rest : K vmstate Z) Q : staged k0 G0 d V I E (km s) p G →
  VPAGE ≤ u < UPAGES → va = u * 4096 → E u = None → (2 ≤ length (Pool.free p))%nat →
  (∀ f k' p' G', staged k0 G0 d V I (<[u := Some (f * 4096 + 5)]> E) k' p' G' → keep (km s) p G k' p' G' → 0 ≤ f →
     (∀ g n, shared kend p G n g → shared kend p' G' n g) → (length (Pool.free p) ≤ 2 + length (Pool.free p'))%nat →
     (∀ o, 0 ≤ o < 4 → rd8 (pmem k') (kva f + o) = nth (Z.to_nat o) (le_bytes pid) 0) → wp rest (set_km k' s) Q) →
  wp (on_km kalloc ≫= λ pg, if pg =? 0 then mret (-1) else
      on_km (memset_at pg 0 PGSIZE) ≫= λ _, on_km (store32 pg pid) ≫= λ _,
      on_km (mappages d va PGSIZE (V2P pg) PTE_U) ≫= λ r, if r <? 0 then mret (-1) else rest) s Q.
Proof.
  intros HS Hu -> HE Hfree Hrest. apply wp_bind, wp_on_km.
  eapply wp_mono; [|apply (kalloc_built k0 G0 d V I E (km s) p G HS); apply some_free; lia].
  intros v k1 (f&p1&->&HS1&Hg&Hr&Hmp&HK&Hc0&Hc&Hl&Hin0&Hnf). rewrite (kva_nonzero kend) by done.
  pose proof (ap_inv _ _ _ _ _ _ _ _ (st_apart _ _ _ _ _ _ _ _ _ HS1)) as [HI1 _]. pose proof (good_bounds _ _ Hg) as Hfb.
  destruct (fills_memset f k1 Hg) as (m1&E1&Hw1&Ho1); [apply (i_R _ _ _ _ HI1)|].
  apply wp_bind, wp_on_km. cbn [km set_km]. unfold wp at 1. rewrite E1.
  apply wp_bind, wp_on_km. cbn [km set_km]. unfold wp at 1, store32. rewrite (kva_nonzero kend) by done. unfold modify. cbn [pmem set_pmem].
  set (m2 := wr32 m1 (kva f) pid).
  assert (HS2 : staged k0 G0 d V I E (set_pmem m2 k1) p1 G).
  { eapply transit_built; try done; [by apply mem_wf_wr32|]. intros a Ha. rewrite <- Ho1 by done.
    unfold m2. rewrite <- (Z.add_0_r (kva f)). change 0 with (4 * 0). by apply (rd8_wr32_frame kend). }
  destruct (fresh_shared k0 G0 d V I E (km s) p G k1 p1 f 0 HS Hg Hr Hmp Hc0 Hc HK ltac:(done)) as [Hsf Hso].
  apply wp_bind, wp_on_km. cbn [km set_km].
  eapply wp_mono; [|apply (map_built k0 G0 d V I E (set_pmem m2 k1) p1 G u f HS2 Hu HE Hsf)]; [|apply some_free; lia].
  intros r k3 (->&p3&G3&HS3&Hg3&Hx3&Hl3). cbn [Z.ltb]. apply (Hrest f k3 p3 G3); [done| |lia| |lia|].
  - eapply keep_trans; [|by apply grow_keep]. split; [|done]. intros a Ha. destruct (k_data _ _ _ _ _ _ HK a Ha) as [Ha1 Hd1]. split; [done|].
    assert (frame_at a ≠ f) by (intros Hf; apply (proj1 Ha); by rewrite Hf). rewrite <- Hd1. cbn [pmem set_pmem]. rewrite <- Ho1 by done.
    unfold m2. rewrite <- (Z.add_0_r (kva f)). change 0 with (4 * 0). by apply (rd8_wr32_frame kend).
  - intros g n Hs. pose proof (shared_count _ _ _ _ _ Hs). assert (f ≠ g) by (intros ->; lia).
    pose proof (Hso g n Hs) as Hs1. pose proof (shared_count _ _ _ _ _ Hs1).
    eapply (shared_keep kend (set_pmem m2 k1) p1 G k3 p3 G3); [|by apply grow_keep|done|..].
    + apply (ap_inv _ _ _ _ _ _ _ _ (st_apart _ _ _ _ _ _ _ _ _ HS2)).
    + rewrite Hx3, decide_False by done. rewrite Z.sub_0_r. apply Hs1.
    + rewrite (g_count _ _ _ _ _ _ Hg3) by lia. lia.
  - intros o Ho. destruct (g_data _ _ _ _ _ _ Hg3 (kva f + o)) as [_ ->].
    + split; rewrite (frame_at_kva kend) by (done || lia); done.
    + cbn [pmem set_pmem]. by apply rd8_wr32_byte.
Qed.

(** ** allocvdso *)

(** The entries of the three pages, for the frames of text, ticks and process id. *)
Definition vdso_entries (t c q : Z) : Z → option Z :=
  <[VPAGE + VDSO_GETTICKS := Some (c * 4096 + 5)]> (<[VPAGE + VDSO_GETPID := Some (q * 4096 + 5)]>
    (<[VPAGE := Some (t * 4096 + 5)]> (λ _, None))).

Record vdso_built k0 G0 d V I pid s s' p' G' : Prop := {
  vb_regs : kpgdir s' = kpgdir s ∧ cr3 s' = cr3 s;
  vb_built : ∃ t c q, vdso_text_page s' = kva t ∧ vdso_ticks_page s' = kva c ∧ 0 ≤ t ∧ 0 ≤ c ∧ 0 ≤ q ∧
    staged k0 G0 d V I (vdso_entries t c q) (km s') p' G' ∧ shared kend p' G' 0 t ∧ shared kend p' G' 0 c ∧
    ∀ o, 0 ≤ o < 4 → rd8 (pmem (km s')) (kva q + o) = nth (Z.to_nat o) (le_bytes pid) 0
}.

Lemma allocvdso_built k0 G0 d V I s p G pr start size :
  staged k0 G0 d V I (λ _, None) (km s) p G → vdso_page p G 2 (vdso_text_page s) → vdso_page p G 2 (vdso_ticks_page s) →
  0 ≤ size ≤ PGSIZE → (6 ≤ length (Pool.free p))%nat →
  wp (allocvdso start size d pr) s (λ r s', r = 0 ∧ ∃ p' G', vdso_built k0 G0 d V I (u32 (p_pid pr)) s s' p' G').
Proof.
  intros HS Ht Hc Hsz Hfree. assert (HV : VPAGE = 524285) by done. assert (HU : UPAGES = 524288) by done.
  assert (HGP : VDSO_GETPID = 2) by done. assert (HGT : VDSO_GETTICKS = 1) by done. unfold allocvdso. apply wp_bind.
  eapply wp_mono; [|apply (shared_page_built k0 G0 d V I _ s p G 2 vdso_text_page set_text_page
    (λ v s, {| km := km s; vdso_text_page := v; vdso_ticks_page := vdso_ticks_page s; kpgdir := kpgdir s; cr3 := cr3 s |}) _ HS Ht)];
    [|apply some_free; lia|done|by apply fills_memmove|done|done|done|by destruct s].
  intros r s1 (->&t&k1&p1&->&HS1&Hst&Hso1&HK1&Hl1). cbn [negb]. rewrite (proj2 (Z.ltb_ge PGSIZE size)) by lia.
  apply wp_bind. unfold gets, wp at 1. cbn [vdso_text_page set_km]. apply wp_bind, wp_on_km. cbn [km set_km].
  replace VDSOTEXT with (VPAGE * 4096) at 1 by done.
  assert (Hst1 : shared kend p1 G 1 t) by (destruct Hst as (?&?&?&?); split_and!; done || lia).
  eapply wp_mono; [|apply (share_built k0 G0 d V I _ k1 p1 G VPAGE t HS1 ltac:(lia) ltac:(done) Hst1); apply some_free; lia].
  intros r k2' (->&Hk2). cbn [Z.ltb]. apply wp_bind, wp_on_km. cbn [km set_km]. eapply wp_mono; [|exact Hk2]. clear Hk2.
  intros [] k2 (p2&G2&HS2&HK2&Hso2&Hl2).
  match goal with |- wp _ ?s2 _ => set (s2' := s2) end. assert (Hc2 : vdso_page p2 G2 1 (vdso_ticks_page s)).
  { destruct Hc as [?|(c&?&Hc)]; [by left|right]. exists c. split; [done|]. apply Hso2, Hso1. done. }
  assert (Hst2 : shared kend p2 G2 1 t) by exact (Hso2 t 1 Hst).
  eapply (pid_built k0 G0 d V I _ s2' p2 G2 (VPAGE + VDSO_GETPID) _ (u32 (p_pid pr))); [done|lia|done| |lia|].
  { by rewrite fn_lookup_insert_ne by lia. }
  intros q k3 p3 G3 HS3 HK3 Hq Hso3 Hl3 Hpid. apply wp_bind.
  assert (Hc3 : vdso_page p3 G3 1 (vdso_ticks_page (set_km k3 s2'))).
  { destruct Hc2 as [?|(c&?&Hc2)]; [by left|right]. exists c. split; [done|]. by apply Hso3. }
  eapply wp_mono; [|apply (shared_page_built k0 G0 d V I _ (set_km k3 s2') p3 G3 1 vdso_ticks_page set_ticks_page
    (λ v s, {| km := km s; vdso_text_page := vdso_text_page s; vdso_ticks_page := v; kpgdir := kpgdir s; cr3 := cr3 s |}) _ HS3 Hc3)];
    [|apply some_free; lia|done|by apply fills_memset|done|done|done|done].
  intros r s4 (->&c&k4&p4&->&HS4&Hsc&Hso4&HK4&Hl4). cbn [negb]. apply wp_bind. unfold gets, wp at 1. cbn [vdso_ticks_page set_km].
  apply wp_bind, wp_on_km. cbn [km set_km]. replace (VDSOTEXT + VDSO_GETTICKS * PGSIZE) with ((VPAGE + VDSO_GETTICKS) * 4096) by done.
  eapply wp_mono; [|apply (share_built k0 G0 d V I _ k4 p4 G3 (VPAGE + VDSO_GETTICKS) c HS4)];
    [|lia|by rewrite !fn_lookup_insert_ne by lia|done|apply some_free; lia].
  intros r k5' (->&Hk5). cbn [Z.ltb]. apply wp_bind, wp_on_km. cbn [km set_km]. eapply wp_mono; [|exact Hk5]. clear Hk5.
  intros [] k5 (p5&G5&HS5&HK5&Hso5&Hl5). apply wp_ret. split; [done|]. exists p5, G5. split; [done|].
  pose proof (good_bounds _ _ (proj1 Hst)) as Htb. pose proof (good_bounds _ _ (proj1 Hsc)) as Hcb.
  exists t, c, q. split_and!; [done|done|lia|lia|done|exact HS5| |exact (Hso5 c 0 Hsc)|].
  - exact (Hso5 t 0 (Hso4 t 1 (Hso3 t 1 Hst2))).
  - intros o Ho. rewrite <- Hpid by done. pose proof (ap_inv _ _ _ _ _ _ _ _ (st_apart _ _ _ _ _ _ _ _ _ HS3)) as [HI3 HB3].
    assert (He : ptes G3 !! (d, VPAGE + VDSO_GETPID) = Some (q * 4096 + 5)) by (rewrite (st_vdso _ _ _ _ _ _ _ _ _ HS3), fn_lookup_insert by lia; done).
    destruct (entry_stable kend k3 p3 G3 d _ _ o HI3 HB3 He ltac:(lia) ltac:(lia)) as [Hstb _].
    rewrite (proj1 (entry5_facts q Hq)) in Hstb. cbn [km set_km].
    destruct (k_data _ _ _ _ _ _ HK4 _ Hstb) as [Hst4 E4]. destruct (k_data _ _ _ _ _ _ HK5 _ Hst4) as [_ E5]. by rewrite E5, E4.
Qed.
End vdso.
