(* ===== verification/Execload.v ===== *)
(** Loading a program (loaduvm and the loop over the program headers of exec): the pages
    hold what the file says. *)

From Stdlib Require Import ZArith Lia.
From stdpp Require Import base tactics numbers gmap strings functions fin_maps list.
From S2P Require Import Prelude Memory Kstring Spinlock Mmu Kalloc Procdef Vm Vminv Vmspec Vmalloc Cow Vmexample Fault Stack Vmprops Exec Execmem Execvdso.

#[local] Open Scope Z_scope.

(** ** Files *)

(** What readi returns for a file with the bytes [c]. *)
Definition file_read (c : list Z) (off n : Z) : Z * list Z :=
  let size := Z.of_nat (length c) in
  if (size <? off) || (u32 (off + n) <? off) then (-1, []) else
  let m := Z.min n (size - off) in (m, take (Z.to_nat m) (drop (Z.to_nat off) c)).

(** What exec relies on: the routines return, [path] leads to a file with the bytes [c], or
    to none, and readi reads them.  [P0] holds outside of an operation of the log, [P1] in
    one, [P2] and [P3] with a reference to the inode, unlocked and locked. *)
Record serves {F} `{!Files F} (path : list Z) (c : option (list Z)) (P0 P1 : F → Prop) (P2 P3 : handle → F → Prop) : Prop := {
  sv_begin s : P0 s → wp f_begin_op s (λ _ s', P1 s');
  sv_end s : P1 s → wp f_end_op s (λ _ s', P0 s');
  sv_namei s : P1 s → wp (f_namei path) s (λ o s', match o, c with
    | None, None => P1 s' | Some ip, Some _ => P2 ip s' | _, _ => False end);
  sv_ilock ip s : P2 ip s → wp (f_ilock ip) s (λ _ s', P3 ip s');
  sv_readi ip s off n : P3 ip s → is_u32 off → 0 ≤ n ≤ PGSIZE →
    wp (f_readi ip off n) s (λ r s', P3 ip s' ∧ r = file_read (default [] c) off n);
  sv_put ip s : P3 ip s → wp (f_iunlockput ip) s (λ _ s', P1 s')
}.

(** Reading [n] bytes that are all there, and not. *)
Lemma file_read_full c off n : is_u32 off → 0 < n ≤ PGSIZE → Z.of_nat (length c) < 2147483648 →
  ((file_read c off n).1 = n ↔ off + n ≤ Z.of_nat (length c)) ∧
  (off + n ≤ Z.of_nat (length c) → file_read c off n = (n, take (Z.to_nat n) (drop (Z.to_nat off) c))) ∧
  (length (file_read c off n).2 ≤ Z.to_nat n)%nat.
Proof.
  intros Hoff Hn Hc. unfold is_u32, PGSIZE in *. unfold file_read. destruct (Z.ltb_spec (Z.of_nat (length c)) off); cbn [orb fst snd length].
  { split_and!; lia. }
  assert (E : u32 (off + n) = off + n) by (apply u32_small; unfold is_u32; lia). rewrite E, (proj2 (Z.ltb_ge _ _)) by lia. cbn [fst snd].
  split_and!; [lia| |rewrite length_take; lia]. intros. by rewrite Z.min_l by lia.
Qed.

(** ** The image of a program *)

(** One program header: the size of the image and its bytes. *)
Definition image_seg (c : list Z) (off sz : Z) (I : Z → Z) : option (Z * (Z → Z)) :=
  let '(r, l) := file_read c off PROGHDR in
  if negb (r =? PROGHDR) then None else
  let ph := ph_of l in
  if negb (ph_type ph =? ELF_PROG_LOAD) then Some (sz, I) else
  let last := ph_vaddr ph + ph_memsz ph in
  if (ph_filesz ph <=? ph_memsz ph) && (last <? KERNBASE) && (ph_vaddr ph mod PGSIZE =? 0) &&
     ((ph_filesz ph =? 0) || (ph_off ph + ph_filesz ph <=? Z.of_nat (length c)))
  then Some (Z.max sz last, over I (ph_vaddr ph) (take (Z.to_nat (ph_filesz ph)) (drop (Z.to_nat (ph_off ph)) c)))
  else None.
Fixpoint image (c : list Z) (n : nat) (off sz : Z) (I : Z → Z) : option (Z * (Z → Z)) :=
  match n with
  | O => Some (sz, I)
  | S n' => match image_seg c off sz I with Some (sz', J) => image c n' (u32 (off + PROGHDR)) sz' J | None => None end
  end.
(** A program: entry point, size and bytes; page 0 is left out. *)
Definition program (c : list Z) : option (Z * Z * (Z → Z)) :=
  let '(r, l) := file_read c 0 ELFHDR in
  if negb (r =? ELFHDR) then None else
  let elf := elf_of l in
  if negb (e_magic elf =? ELF_MAGIC) then None else
  match image c (Z.to_nat (e_phnum elf)) (e_phoff elf) PGSIZE (λ _, 0) with
  | Some (sz, J) => Some (e_entry elf, sz, J)
  | None => None
  end.

Section load.
Context {F : Type} `{!Files F} (kend : Z) (W : Z → Z → Prop) (Hkend : KERNBASE < kend).
Implicit Types (k : kmem) (p : Pool.pool) (G : ghost) (s : @est F).

Definition with_k k s : est := {| ev := set_km k (ev s); ep := ep s; ef := ef s |}.
Definition with_f (f : F) s : est := {| ev := ev s; ep := ep s; ef := f |}.
Lemma wp_on_k {A} (m : K kmem A) s (Q : A → est → Prop) : wp (on_k m) s Q ↔ wp m (km (ev s)) (λ a k', Q a (with_k k' s)).
Proof. unfold wp, on_k, on_vm, on_km, zoom. by destruct (m (km (ev s))). Qed.
Lemma wp_on_f {A} (m : K F A) s (Q : A → est → Prop) : wp (on_f m) s Q ↔ wp m (ef s) (λ a f', Q a (with_f f' s)).
Proof. unfold wp, on_f, zoom. by destruct (m (ef s)). Qed.

Context (path c : list Z) (P0 P1 : F → Prop) (P2 P3 : handle → F → Prop).
Hypothesis (HF : serves path (Some c) P0 P1 P2 P3) (Hlen : Z.of_nat (length c) < 2147483648) (Hbytes : Forall is_u8 c).

(** The state while the program is loaded: the process and the VDSO pages are as before. *)
Record loading (s0 : @est F) G0 d V I (ip : handle) s p G : Prop := {
  ld_apart : apart kend W (km (ev s0)) G0 d (km (ev s)) p G;
  ld_pages : pages d V I (km (ev s)) p G;
  ld_same : ev s = set_km (km (ev s)) (ev s0) ∧ ep s = ep s0;
  ld_file : P3 ip (ef s)
}.

(** ... and when it could not be. *)
Definition stopped (s0 : @est F) G0 d (ip : handle) s : Prop := ∃ p G,
  apart kend W (km (ev s0)) G0 d (km (ev s)) p G ∧ (ev s = set_km (km (ev s)) (ev s0) ∧ ep s = ep s0) ∧ P3 ip (ef s).
Lemma loading_stopped s0 G0 d V I ip s p G : loading s0 G0 d V I ip s p G → stopped s0 G0 d ip s.
Proof. intros [HA HP Hs Hf]. by exists p, G. Qed.

Lemma loading_put s0 G0 d V I ip s p G u v e o l f :
  loading s0 G0 d V I ip s p G → 0 ≤ u < UPAGES → V u = Some v → ptes G !! (d, u) = Some e → 0 ≤ o → o + Z.of_nat (length l) ≤ 4096 → P3 ip f →
  wp (on_k (put_bytes (kva (e / 4096) + o) l)) (with_f f s) (λ _ s', loading s0 G0 d V (over I (u * 4096 + o) l) ip s' p G).
Proof.
  intros [HA HP [Hs1 Hs2] Hf] Hu HV He Ho Hl Hf'. apply wp_on_k. eapply wp_mono; [|by eapply (put_built kend W)].
  intros [] k' [HA' HP']. split; try done. cbn. rewrite Hs1. done.
Qed.

(** Bytes of the file that come in two pieces. *)
Lemma over_app I a l1 l2 x : over (over I a l1) (a + Z.of_nat (length l1)) l2 x = over I a (l1 ++ l2) x.
Proof.
  unfold over. rewrite length_app. repeat case_decide; try lia; try done.
  - rewrite app_nth2 by lia. do 2 f_equal. lia.
  - by rewrite app_nth1 by lia.
Qed.

Definition seg_bytes (off n : Z) : list Z := take (Z.to_nat n) (drop (Z.to_nat off) c).
Definition seg_there (off n : Z) : Prop := n = 0 ∨ off + n ≤ Z.of_nat (length c).
Lemma length_seg off n : 0 ≤ off → 0 ≤ n → seg_there off n → Z.of_nat (length (seg_bytes off n)) = n.
Proof. intros Ho Hn Hs. unfold seg_bytes. rewrite length_take, length_drop. destruct Hs; lia. Qed.

Lemma loading_ext s0 G0 d V I J ip s p G : loading s0 G0 d V I ip s p G → (∀ x, I x = J x) → loading s0 G0 d V J ip s p G.
Proof. intros [HA HP Hs Hf] E. split; try done. by eapply pages_ext. Qed.

Lemma load_page_spec s0 G0 d V I ip s p G va off fsz a : loading s0 G0 d V (over I va (seg_bytes off a)) ip s p G →
  va mod 4096 = 0 → 0 ≤ va → va + fsz < KERNBASE → (∀ u, va / 4096 ≤ u < (va + fsz + 4095) / 4096 → V u ≠ None) → is_u32 off →
  0 ≤ a < fsz → a mod 4096 = 0 → seg_there off a →
  wp (load_page d va ip off fsz a) s (λ o s', let m := Z.min (a + 4096) fsz in match o with
    | Some r => r = -1 ∧ stopped s0 G0 d ip s' ∧ Z.of_nat (length c) < off + fsz
    | None => loading s0 G0 d V (over I va (seg_bytes off m)) ip s' p G ∧ off + m ≤ Z.of_nat (length c)
    end).
Proof.
  intros HL Hal Hva Hend HV Hoff Ha Ham Hth. pose proof HL as [HA HP [Hs1 Hs2] Hf]. pose proof (ap_inv _ _ _ _ _ _ _ _ HA) as [HI HB].
  assert (HU : UPAGES = 524288) by done. unfold KERNBASE in Hend. unfold is_u32 in Hoff. set (u := (va + a) / 4096).
  assert (Hu : 0 ≤ u < UPAGES) by (unfold u; zlia). assert (Hua : u * 4096 = va + a) by (unfold u; zlia).
  destruct (V u) as [v|] eqn:EV; [|by destruct (HV u); [unfold u; zlia|]].
  pose proof (HP u Hu) as H. rewrite EV in H. destruct H as (e&He&_).
  destruct (entry_frame kend _ _ _ _ _ _ HI HB He ltac:(lia)) as (Hue&_&Hg&_).
  destruct (entry_walk kend (km (ev s)) p G d (va + a) e HI) as (pa&Hpa&Hw&Hl); [unfold is_u32; lia|done|].
  unfold load_page. rewrite (u32_small (va + a)) by (unfold is_u32; lia).
  apply wp_bind, wp_on_k. unfold wp at 1. rewrite Hw. rewrite (proj2 (Z.eqb_neq _ _) Hpa).
  apply wp_bind, wp_on_k. unfold wp at 1. cbn [km ev with_k set_km]. rewrite Hl.
  assert (Hoa : is_u32 (off + a)) by (unfold is_u32; destruct Hth; lia). rewrite (u32_small (off + a)) by done.
  set (n := if fsz - a <? PGSIZE then fsz - a else PGSIZE).
  assert (Hn : n = Z.min (fsz - a) 4096) by (unfold n, PGSIZE; case_match; lia).
  apply wp_bind, wp_on_f. eapply wp_mono; [|apply (sv_readi _ _ _ _ _ _ HF ip (ef s) (off + a) n); [done|done|unfold PGSIZE; lia]].
  change (default [] (Some c)) with c. intros r f' [Hf' ->]. destruct (file_read_full c (off + a) n Hoa ltac:(unfold PGSIZE; lia) Hlen) as (Hfull&Hbytes'&Hle).
  destruct (file_read c (off + a) n) as [r l]. cbn [fst snd] in *.
  assert (E1 : with_f f' (with_k (km (ev s)) (with_k (km (ev s)) s)) = with_f f' s) by (unfold with_f, with_k; destruct s as [[] ? ?]; done).
  rewrite E1, frame_P2V, <- (Z.add_0_r (kva _)) by done.
  apply wp_bind. eapply wp_mono; [|eapply (loading_put s0 G0 d V _ ip s p G u v e 0 l f' HL Hu EV He); [lia|lia|done]].
  intros [] s' HL'. apply wp_ret. rewrite Z.add_0_r, Hua in HL'. destruct (Z.eqb_spec r n) as [Hr|Hr].
  - specialize (Hbytes' (proj1 Hfull Hr)). injection Hbytes' as _ ->. split; [|lia].
    eapply loading_ext; [exact HL'|]. intros x.
    replace (va + a) with (va + Z.of_nat (length (seg_bytes off a))) by (rewrite length_seg by (done || lia); done). rewrite over_app.
    f_equal. unfold seg_bytes. replace (Z.to_nat (off + a)) with (Z.to_nat off + Z.to_nat a)%nat by lia. rewrite <- drop_drop, take_take_drop.
    f_equal. lia.
  - split_and!; [done|by eapply loading_stopped|]. destruct (Z.ltb_spec (Z.of_nat (length c)) (off + fsz)); [done|]. exfalso. apply Hr, Hfull. lia.
Qed.

Lemma loaduvm_spec s0 G0 d V I ip s p G va off fsz : loading s0 G0 d V I ip s p G →
  va mod 4096 = 0 → 0 ≤ va → 0 ≤ fsz → va + fsz < KERNBASE → (∀ u, va / 4096 ≤ u < (va + fsz + 4095) / 4096 → V u ≠ None) → is_u32 off →
  wp (loaduvm d va ip off fsz) s (λ r s',
    r = 0 ∧ loading s0 G0 d V (over I va (seg_bytes off fsz)) ip s' p G ∧ seg_there off fsz ∨
    r = -1 ∧ stopped s0 G0 d ip s' ∧ ¬ seg_there off fsz).
Proof.
  intros HL Hal Hva Hfsz Hend HV Hoff. unfold loaduvm. change PGSIZE with 4096. rewrite Hal. cbn [Z.eqb negb]. apply wp_bind.
  eapply (wp_upto _ (λ a s', a mod 4096 = 0 ∧ 0 ≤ a ∧ let m := Z.min a fsz in
    loading s0 G0 d V (over I va (seg_bytes off m)) ip s' p G ∧ seg_there off m)); [done|unfold KERNBASE in Hend; lia|..].
  - intros a s1 Ha (Ham&_&HL1&Hth). rewrite Z.min_l in HL1, Hth by lia.
    eapply wp_mono; [|by apply (load_page_spec s0 G0 d V I ip s1 p G va off fsz a)].
    intros [r|] s2; cbv zeta.
    + intros (->&HJ&Hlt). apply wp_ret. right. split_and!; [done|done|]. unfold seg_there. lia.
    + intros [HL2 Hle]. split; [zlia|]. split; [lia|]. split; [done|]. by right.
  - intros a s1 Ha (_&Ha0&HL1&Hth). apply wp_ret. left. rewrite Z.min_r in HL1, Hth by lia. done.
  - lia.
  - apply upto_fuel_enough. done.
  - split; [done|]. split; [done|]. rewrite Z.min_l by lia. split; [|by left]. eapply loading_ext; [done|].
    intros x. unfold over, seg_bytes. change (Z.to_nat 0) with 0%nat. rewrite take_0. cbn [length]. by rewrite decide_False by lia.
Qed.

(** ** The program headers *)

(** The pages of a program of size [sz]; the first one is hidden. *)
Definition prog_pages (sz u : Z) : option bool :=
  if decide (u = 0) then Some false else if decide (0 < u < (sz + 4095) / 4096) then Some true else None.
Definition blank (sz : Z) (I : Z → Z) : Prop := ∀ x, sz ≤ x → I x = 0.

Lemma le32_range l o : Forall is_u8 l → is_u32 (le32 l o).
Proof.
  intros Hl. assert (H : ∀ i, is_u8 (nth i l 0)).
  { intros i. destruct (nth_in_or_default i l 0) as [Hin| ->]; [|done]. rewrite Forall_forall in Hl. apply Hl. by apply list_elem_of_In. }
  unfold le32, le16, is_u32. pose proof (H o). pose proof (H (S o)). pose proof (H (S (S o))). pose proof (H (S (S (S o)))). unfold is_u8 in *. lia.
Qed.
Lemma file_read_bytes off n : Forall is_u8 (file_read c off n).2.
Proof. unfold file_read. case_match; [done|]. cbn [snd]. by apply Forall_take, Forall_drop. Qed.

Lemma over_blank I a l sz sz' : blank sz I → sz ≤ sz' → a + Z.of_nat (length l) ≤ sz' → blank sz' (over I a l).
Proof. intros Hb Hs Hl x Hx. unfold over. rewrite decide_False by lia. apply Hb. lia. Qed.

(** allocuvm for a segment that ends at [last]. *)
Lemma grow_program s0 G0 d I ip s p G sz last : loading s0 G0 d (prog_pages sz) I ip s p G → 4096 ≤ sz < KERNBASE → 0 ≤ last < KERNBASE → blank sz I →
  wp (on_k (allocuvm kend d sz last None)) s (λ r s', ∃ p' G',
    r = Z.max sz last ∧ loading s0 G0 d (prog_pages r) I ip s' p' G' ∧
      Z.of_nat (length (Pool.free p)) ≤ Z.of_nat (length (Pool.free p')) + 2 * ((r + 4095) / 4096 - (sz + 4095) / 4096) ∨
    r = 0 ∧ stopped s0 G0 d ip s' ∧ Z.of_nat (length (Pool.free p)) < 2 * ((Z.max sz last + 4095) / 4096 - (sz + 4095) / 4096)).
Proof.
  intros HL Hsz Hlast Hb. pose proof HL as [HA HP [Hs1 Hs2] Hf]. apply wp_on_k. destruct (Z.ltb_spec last sz) as [Hlt|Hge].
  - unfold allocuvm. rewrite (proj2 (Z.leb_gt KERNBASE last)), (proj2 (Z.ltb_lt _ _) Hlt) by lia. apply wp_ret. exists p, G. left.
    rewrite Z.max_l by lia. split_and!; [done| |lia]. assert (with_k (km (ev s)) s = s) as -> by (destruct s as [[] ? ?]; done). done.
  - eapply wp_mono; [|apply (alloc_built kend W Hkend (km (ev s0)) G0 d (prog_pages sz) I (km (ev s)) p G sz last HA HP); [lia|lia|..]].
    + rewrite Z.max_r by lia. intros r k' (p'&G'&HA'&[(->&HP'&Hc)|(->&Hc)]); exists p', G'; [left|right].
      * split_and!; [done| |done]. split; try done; [|by cbn; rewrite Hs1].
        eapply pages_ext; [exact HP'| |done]. intros u. unfold add_pages, prog_pages. cbn. repeat case_decide; done || (exfalso; zlia).
      * split_and!; [done| |done]. exists p', G'. split_and!; try done. cbn. by rewrite Hs1.
    + intros u Hu. unfold prog_pages. rewrite !decide_False by zlia. done.
    + intros x Hx. apply Hb. zlia.
Qed.

Definition pages_of (sz : Z) : Z := (sz + 4095) / 4096.

Lemma load_segment_spec s0 G0 d I ip s p G off sz : loading s0 G0 d (prog_pages sz) I ip s p G → 4096 ≤ sz < KERNBASE → blank sz I → is_u32 off →
  wp (load_segment kend ip d off sz) s (λ o s', match o with
    | Some sz' => ∃ J p' G', image_seg c off sz I = Some (sz', J) ∧ loading s0 G0 d (prog_pages sz') J ip s' p' G' ∧
        sz ≤ sz' < KERNBASE ∧ blank sz' J ∧
        Z.of_nat (length (Pool.free p)) ≤ Z.of_nat (length (Pool.free p')) + 2 * (pages_of sz' - pages_of sz)
    | None => stopped s0 G0 d ip s' ∧ ∀ sz' J, image_seg c off sz I = Some (sz', J) →
        Z.of_nat (length (Pool.free p)) < 2 * (pages_of sz' - pages_of sz)
    end).
Proof.
  intros HL Hsz Hb Hoff. pose proof HL as [HA HP [Hs1 Hs2] Hf]. unfold load_segment. apply wp_bind, wp_on_f.
  eapply wp_mono; [|apply (sv_readi _ _ _ _ _ _ HF ip (ef s) off PROGHDR); done]. change (default [] (Some c)) with c.
  intros r f' [Hf' ->]. unfold image_seg. pose proof (file_read_bytes off PROGHDR) as Hu8. destruct (file_read c off PROGHDR) as [r l]. cbn [snd] in Hu8.
  assert (HL1 : loading s0 G0 d (prog_pages sz) I ip (with_f f' s) p G) by done. clear HL HA HP Hs1 Hs2 Hf Hf'.
  destruct (r =? PROGHDR); cbn [negb]; [|apply wp_ret; split; [by eapply loading_stopped|done]].
  pose proof (le32_range l 4 Hu8) as Ho. pose proof (le32_range l 8 Hu8) as Hv. pose proof (le32_range l 16 Hu8) as Hfs. pose proof (le32_range l 20 Hu8) as Hms.
  unfold ph_of. cbn [ph_type ph_off ph_vaddr ph_filesz ph_memsz]. unfold is_u32 in Ho, Hv, Hfs, Hms.
  set (va := le32 l 8) in *. set (fo := le32 l 4) in *. set (fsz := le32 l 16) in *. set (msz := le32 l 20) in *.
  destruct (le32 l 0 =? ELF_PROG_LOAD); cbn [negb].
  2: { apply wp_ret. exists I, p, G. split_and!; try done; lia. }
  destruct (Z.ltb_spec msz fsz) as [|Hmf]; [apply wp_ret; split; [by eapply loading_stopped|]; by rewrite (proj2 (Z.leb_gt _ _))|].
  rewrite (proj2 (Z.leb_le _ _) Hmf). cbn [andb].
  destruct (Z.ltb_spec (u32 (va + msz)) va) as [Hwrap|Hnw].
  { apply wp_ret. split; [by eapply loading_stopped|]. destruct (Z.ltb_spec (va + msz) KERNBASE) as [Hk|]; [|done].
    rewrite u32_small in Hwrap by (unfold is_u32, KERNBASE in *; lia). lia. }
  destruct (Z.ltb_spec (va + msz) KERNBASE) as [Hk|Hk].
  2: { assert (Hbig : KERNBASE ≤ u32 (va + msz)) by (unfold u32, KERNBASE in *; zlia).
    apply wp_bind, wp_on_k. unfold allocuvm. rewrite (proj2 (Z.leb_le _ _) Hbig). apply wp_ret. rewrite Z.eqb_refl. apply wp_ret.
    split; [|done]. assert (with_k (km (ev (with_f f' s))) (with_f f' s) = with_f f' s) as -> by (destruct s as [[] ? ?]; done). by eapply loading_stopped. }
  rewrite u32_small by (unfold is_u32, KERNBASE in *; lia). apply wp_bind.
  eapply wp_mono; [|apply (grow_program s0 G0 d I ip _ p G sz (va + msz) HL1 Hsz); [lia|done]].
  cbn [andb]. intros r2 s2 (p2&G2&[(->&HL2&Hc2)|(->&Hst&Hc2)]).
  2: { rewrite Z.eqb_refl. apply wp_ret. split; [done|]. intros sz' J. case_match; [|done]. intros [= <- <-]. done. }
  rewrite (proj2 (Z.eqb_neq _ 0)) by lia. change PGSIZE with 4096. destruct (Z.eqb_spec (va mod 4096) 0) as [Hal|]; cbn [negb andb].
  2: { apply wp_ret. split; [by eapply loading_stopped|done]. }
  apply wp_bind. eapply wp_mono; [|apply (loaduvm_spec s0 G0 d _ I ip s2 p2 G2 va fo fsz HL2 Hal); [lia|lia|lia| |unfold is_u32; lia]].
  2: { intros u Hu. unfold prog_pages. case_decide; [done|]. rewrite decide_True by zlia. done. }
  intros r3 s3 [(->&HL3&Hth)|(->&Hst&Hth)].
  - apply wp_ret. rewrite (proj2 (orb_true_iff _ _)) by (destruct Hth as [->|Hth]; [by left|right; by apply Z.leb_le]).
    eexists _, p2, G2. split; [done|]. split_and!; [done|lia|lia| |unfold pages_of; lia].
    eapply (over_blank I); [done|lia|]. rewrite length_take. lia.
  - apply wp_ret. split; [done|]. case_match eqn:E; [|done]. apply orb_true_iff in E as [E|E]; [apply Z.eqb_eq in E|apply Z.leb_le in E];
      destruct Hth; [by left|by right].
Qed.

Lemma image_seg_mono off sz I sz' J : image_seg c off sz I = Some (sz', J) → sz ≤ sz'.
Proof. unfold image_seg. destruct (file_read c off PROGHDR). intros H. repeat case_match; simplify_eq; lia. Qed.
Lemma image_mono n off sz I sz' J : image c n off sz I = Some (sz', J) → sz ≤ sz'.
Proof.
  revert off sz I. induction n as [|n IH]; intros off sz I; cbn [image]; [by intros [= -> _]|].
  destruct (image_seg c off sz I) as [[sz1 J1]|] eqn:E; [|done]. intros H%IH. pose proof (image_seg_mono _ _ _ _ _ E). lia.
Qed.

Lemma load_segments_spec n s0 G0 d I ip s p G off sz : loading s0 G0 d (prog_pages sz) I ip s p G → 4096 ≤ sz < KERNBASE → blank sz I → is_u32 off →
  wp (load_segments kend n ip d off sz) s (λ o s', match o with
    | Some sz' => ∃ J p' G', image c n off sz I = Some (sz', J) ∧ loading s0 G0 d (prog_pages sz') J ip s' p' G' ∧
        sz ≤ sz' < KERNBASE ∧ blank sz' J ∧
        Z.of_nat (length (Pool.free p)) ≤ Z.of_nat (length (Pool.free p')) + 2 * (pages_of sz' - pages_of sz)
    | None => stopped s0 G0 d ip s' ∧ ∀ sz' J, image c n off sz I = Some (sz', J) → sz ≤ sz' ∧
        Z.of_nat (length (Pool.free p)) < 2 * (pages_of sz' - pages_of sz)
    end).
Proof.
  revert I s p G off sz. induction n as [|n IH]; intros I s p G off sz HL Hsz Hb Hoff; cbn [load_segments image].
  { apply wp_ret. exists I, p, G. split_and!; try done; lia. }
  apply wp_bind. eapply wp_mono; [|by apply (load_segment_spec s0 G0 d I ip s p G off sz)].
  intros [sz1|] s1.
  - intros (J&p1&G1&E1&HL1&Hsz1&Hb1&Hc1). rewrite E1. eapply wp_mono; [|apply (IH J s1 p1 G1 _ sz1 HL1); [lia|done|apply u32_range]].
    intros [sz2|] s2.
    + intros (J2&p2&G2&E2&HL2&Hsz2&Hb2&Hc2). exists J2, p2, G2. split_and!; try done; lia.
    + intros [Hst Hno]. split; [done|]. intros sz' J' E'. destruct (Hno _ _ E'). lia.
  - intros [Hst Hno]. apply wp_ret. split; [done|]. intros sz' J'. destruct (image_seg c off sz I) as [[sz1 J1]|] eqn:E1; [|done]. intros E2.
    pose proof (Hno _ _ eq_refl). pose proof (image_seg_mono _ _ _ _ _ E1). pose proof (image_mono _ _ _ _ _ _ E2). unfold pages_of in *. zlia.
Qed.

(** ** The whole program *)

Context (kdata : Z) (Hkdata : kdata mod 4096 = 0 ∧ KERNLINK < kdata < KERNBASE + PHYSTOP).

(** The frames that a program of size [sz] needs at most. *)
Definition load_cost (sz : Z) : Z := 122 + 2 * pages_of sz.

Lemma load_program_spec s p G ip : vm_inv kend (km (ev s)) p G → (∀ g m, W g m → shared kend p G m g) → P3 ip (ef s) →
  wp (load_program kend kdata ip) s (λ '(d, o) s', match o with
    | Some (entry, sz) => d ≠ 0 ∧ ∃ J p' G', program c = Some (entry, sz, J) ∧ loading s G d (prog_pages sz) J ip s' p' G' ∧
        4096 ≤ sz < KERNBASE ∧ blank sz J ∧ Z.of_nat (length (Pool.free p)) ≤ Z.of_nat (length (Pool.free p')) + load_cost sz
    | None => (if decide (d = 0) then unchanged kend (km (ev s)) G (km (ev s')) ∧ (ev s' = set_km (km (ev s')) (ev s) ∧ ep s' = ep s) ∧ P3 ip (ef s')
               else stopped s G d ip s') ∧
        ∀ entry sz J, program c = Some (entry, sz, J) → Z.of_nat (length (Pool.free p)) < load_cost sz
    end).
Proof.
  intros HV HW Hf. unfold load_program. apply wp_bind, wp_on_f.
  eapply wp_mono; [|apply (sv_readi _ _ _ _ _ _ HF ip (ef s) 0 ELFHDR); done]. change (default [] (Some c)) with c.
  intros r f' [Hf' ->]. unfold program. pose proof (file_read_bytes 0 ELFHDR) as Hu8. destruct (file_read c 0 ELFHDR) as [r l]. cbn [snd] in Hu8.
  assert (Hsame : ∀ k, ev (with_k k (with_f f' s)) = set_km k (ev s) ∧ ep (with_k k (with_f f' s)) = ep s) by done.
  assert (Hstop : unchanged kend (km (ev s)) G (km (ev (with_f f' s))) ∧ (ev (with_f f' s) = set_km (km (ev (with_f f' s))) (ev s) ∧ ep (with_f f' s) = ep s) ∧ P3 ip (ef (with_f f' s))).
  { split_and!; [by eapply unchanged_refl|by destruct s as [[] ? ?]|done|done]. }
  destruct (r =? ELFHDR); cbn [negb]; [|apply wp_ret; by rewrite decide_True].
  destruct (e_magic (elf_of l) =? ELF_MAGIC); cbn [negb]; [|apply wp_ret; by rewrite decide_True]. clear Hstop.
  apply wp_bind, wp_on_k. eapply wp_mono; [|by apply (setup_built kend W Hkend kdata (km (ev s)) p G)].
  intros d k1 [(->&Hun&Hlow)|(Hd&p1&G1&HA1&HP1&Hc1)].
  { rewrite Z.eqb_refl. apply wp_ret. rewrite decide_True by done. split; [by split_and!|]. intros entry sz J. case_match; [|done]. case_match.
    intros [= <- <- <-]. unfold load_cost, pages_of. pose proof (image_mono _ _ _ _ _ _ H) as Hm. change PGSIZE with 4096 in Hm. zlia. }
  rewrite (proj2 (Z.eqb_neq _ _) Hd). apply wp_bind, wp_on_k. cbn [km ev with_k set_km with_f].
  eapply wp_mono; [|apply (alloc_built kend W Hkend (km (ev s)) G d (λ _, None) (λ _, 0) k1 p1 G1 0 PGSIZE HA1 HP1); done].
  change ((0 + 4095) / 4096) with 0. change ((PGSIZE + 4095) / 4096) with 1.
  intros r2 k2 (p2&G2&HA2&[(->&HP2&Hc2)|(->&Hc2)]).
  2: { rewrite Z.eqb_refl. apply wp_ret. rewrite decide_False by done. split; [by exists p2, G2|]. intros entry sz J. case_match; [|done]. case_match.
    intros [= <- <- <-]. unfold load_cost, pages_of. pose proof (image_mono _ _ _ _ _ _ H) as Hm. change PGSIZE with 4096 in Hm. zlia. }
  cbn [Z.eqb PGSIZE]. apply wp_bind, wp_on_k. cbn [km ev with_k set_km with_f]. change 0 with (0 * 4096) at 1.
  eapply wp_mono; [|apply (clearptep_built kend W Hkend (km (ev s)) G d _ _ k2 p2 G2 0 HA2 HP2); done].
  intros [] k3 (G3&HA3&HP3). apply wp_bind.
  assert (HL3 : loading s G d (prog_pages PGSIZE) (λ _, 0) ip (with_k k3 (with_k k2 (with_k k1 (with_f f' s)))) p2 G3).
  { split; try done. eapply pages_ext; [exact HP3| |done]. intros u. unfold prog_pages, add_pages. destruct (decide (u = 0)) as [->|Hu]; [by rewrite fn_lookup_insert|].
    rewrite fn_lookup_insert_ne by done. change ((PGSIZE + 4095) / 4096) with 1. rewrite !decide_False by lia. done. }
  eapply wp_mono; [|apply (load_segments_spec (Z.to_nat (e_phnum (elf_of l))) s G d (λ _, 0) ip _ p2 G3 (e_phoff (elf_of l)) PGSIZE HL3); [done|done|by apply le32_range]].
  change (pages_of PGSIZE) with 1. intros [sz|] s4.
  - intros (J&p4&G4&E4&HL4&Hsz4&Hb4&Hc4). apply wp_ret. split; [done|]. exists J, p4, G4. rewrite E4. change PGSIZE with 4096 in Hsz4.
    split; [done|]. split; [done|]. split; [lia|]. split; [done|]. unfold load_cost. lia.
  - intros [Hst Hno]. apply wp_ret. rewrite decide_False by done. split; [done|]. intros entry sz J. case_match eqn:E; [|done]. case_match.
    intros [= <- <- <-]. destruct (Hno _ _ eq_refl). unfold load_cost. lia.
Qed.
End load.
