(* ===== verification/Execprops.v ===== *)
(** exec replaces the address space of a process by the program in a file. *)

From Stdlib Require Import ZArith Lia.
From stdpp Require Import base tactics numbers gmap strings functions fin_maps list.
From S2P Require Import Prelude Memory Kstring Spinlock Mmu Kalloc Procdef Vm Vminv Vmspec Vmalloc Cow Vmexample Fault Stack Vmprops Exec Execmem Execvdso Execload.

#[local] Open Scope Z_scope.

(** The bytes [l] are there from the address [a] on. *)
Definition holds_at (I : Z → Z) (a : Z) (l : list Z) : Prop := ∀ j b, l !! j = Some b → I (a + Z.of_nat j) = u8 b.
(** The frame of the stack: return address, argc, argv, the pointers to the strings and a
    null pointer. *)
Definition stack_words (sp : Z) (us : list Z) : list Z :=
  [0xffffffff; Z.of_nat (length us); sp + 12] ++ us ++ [0].

Lemma over_holds I a l : holds_at (over I a l) a l.
Proof.
  intros j b Hj. pose proof (lookup_lt_Some _ _ _ Hj). unfold over. rewrite decide_True by lia. f_equal.
  replace (Z.to_nat (a + Z.of_nat j - a)) with j by lia. by apply nth_lookup_Some.
Qed.
Lemma over_out I a l x : x < a ∨ a + Z.of_nat (length l) ≤ x → over I a l x = I x.
Proof. intros Hx. unfold over. by rewrite decide_False by lia. Qed.

Lemma align4 x : 0 ≤ x → x - 3 ≤ Z.land x (Z.lnot 3) ≤ x ∧ 0 ≤ Z.land x (Z.lnot 3).
Proof.
  intros Hx. assert (Z.land x (Z.lnot 3) = x / 4 * 4) as ->; [|zlia].
  rewrite <- Z.ldiff_land. change 3 with (Z.ones 2). rewrite Z.ldiff_ones_r, Z.shiftl_mul_pow2, Z.shiftr_div_pow2 by lia. done.
Qed.

Section stack.
Context {F : Type} `{!Files F} (kend : Z) (W : Z → Z → Prop) (Hkend : KERNBASE < kend) (Pf : F → Prop).
Implicit Types (k : kmem) (p : Pool.pool) (G : ghost) (s : @est F).

(** The state after the program was loaded. *)
Record ready (s0 : @est F) G0 d V I s p G : Prop := {
  rd_apart : apart kend W (km (ev s0)) G0 d (km (ev s)) p G;
  rd_pages : pages d V I (km (ev s)) p G;
  rd_same : ev s = set_km (km (ev s)) (ev s0) ∧ ep s = ep s0;
  rd_file : Pf (ef s)
}.

(** copyout within one page. *)
Lemma copy_out_spec s0 G0 d V I s p G u va buf : ready s0 G0 d V I s p G → 0 ≤ u < UPAGES → V u = Some true →
  u * 4096 ≤ va → va + Z.of_nat (length buf) ≤ (u + 1) * 4096 →
  wp (copy_out d va buf) s (λ r s', r = 0 ∧ ready s0 G0 d V (over I va buf) s' p G).
Proof.
  intros [HA HP [Hs1 Hs2] Hf] Hu HV Hlo Hhi. assert (HU : UPAGES = 524288) by done. unfold copy_out. apply wp_on_k.
  assert (Hend : ∀ fuel v k', copyout_bytes fuel d v [] k' = Ret 0 k') by (by intros []).
  destruct buf as [|b buf].
  { unfold wp. rewrite Hend. split; [done|]. split; [done| |by cbn; rewrite Hs1|done].
    eapply pages_ext; [done..|]. intros x. unfold over. cbn [length]. by rewrite decide_False by lia. }
  set (l := b :: buf) in *. change (length l) with (S (length buf)) at 1. cbn [copyout_bytes]. fold l.
  assert (Hl : (1 ≤ length l)%nat) by (unfold l; cbn; lia).
  assert (Hva : PGROUNDDOWN va = u * 4096) by (rewrite PGROUNDDOWN_eq; zlia). rewrite Hva.
  pose proof (HP u Hu) as H. rewrite HV in H. destruct H as (e&He&_).
  apply wp_bind. unfold wp at 1. rewrite (uva2ka_page kend W (km (ev s)) p G d V I _ _ u e HA HP Hu HV He).
  pose proof (ap_inv _ _ _ _ _ _ _ _ HA) as [HI HB]. destruct (entry_frame kend _ _ _ _ _ _ HI HB He ltac:(lia)) as (_&_&Hg&_).
  rewrite (kva_nonzero kend) by done.
  replace (Z.to_nat (Z.min (PGSIZE - (va - u * 4096)) (Z.of_nat (length l)))) with (length l) by (unfold PGSIZE; lia).
  rewrite take_ge, drop_ge by lia. apply wp_bind.
  eapply wp_mono; [|eapply (put_built kend W (km (ev s0)) G0 d V I (km (ev s)) p G u true e (va - u * 4096) l); try done; lia].
  intros [] k' [HA' HP']. unfold wp. rewrite Hend. replace (u * 4096 + (va - u * 4096)) with va in HP' by lia.
  split; [done|]. split; try done. cbn. by rewrite Hs1.
Qed.

(** The room that the strings need at most. *)
Definition args_room (argv : list (list Z)) : Z := foldr (λ t a, Z.of_nat (length t) + 4 + a) 0 argv.
Lemma args_room_nonneg argv : 0 ≤ args_room argv.
Proof. unfold args_room. induction argv; cbn; lia. Qed.

(** The strings [argv] are at the addresses [us], below [hi] and from [lo] on. *)
Definition strings_at (I : Z → Z) (lo hi : Z) (argv : list (list Z)) (us : list Z) : Prop :=
  Forall2 (λ t a, lo ≤ a ∧ a + Z.of_nat (length t) + 1 ≤ hi ∧ holds_at I a (t ++ [0])) argv us.

Lemma holds_same I J a l : holds_at I a l → (∀ x, a ≤ x < a + Z.of_nat (length l) → J x = I x) → holds_at J a l.
Proof. intros H E j b Hj. rewrite E; [by apply H|]. pose proof (lookup_lt_Some _ _ _ Hj). lia. Qed.

Lemma push_args_spec s0 G0 d V u argv : 0 ≤ u < UPAGES → V u = Some true → ∀ argc I s p G sp, ready s0 G0 d V I s p G →
  (argc + length argv ≤ MAXARG)%nat → u * 4096 + args_room argv ≤ sp ≤ (u + 1) * 4096 →
  wp (push_args argc argv d sp) s (λ o s', ∃ sp' us J, o = Some (sp', us) ∧ ready s0 G0 d V J s' p G ∧
    sp - args_room argv ≤ sp' ≤ sp ∧ strings_at J sp' sp argv us ∧ ∀ x, x < sp' ∨ sp ≤ x → J x = I x).
Proof.
  intros Hu HV. assert (HU : UPAGES = 524288) by done.
  induction argv as [|a argv IH]; intros argc I s p G sp HR Hn Hsp; cbn [push_args args_room foldr length] in *.
  { apply wp_ret. exists sp, [], I. split_and!; try done; [lia|constructor]. }
  fold (args_room argv) in *. pose proof (args_room_nonneg argv). rewrite (proj2 (Nat.leb_gt _ _)) by lia.
  rewrite u32_small by (unfold is_u32; lia). destruct (align4 (sp - (Z.of_nat (length a) + 1)) ltac:(lia)) as [Hal _].
  set (sp1 := Z.land _ _) in *. assert (Hl1 : Z.of_nat (length (a ++ [0])) = Z.of_nat (length a) + 1) by (rewrite length_app; cbn; lia).
  apply wp_bind. eapply wp_mono; [|apply (copy_out_spec s0 G0 d V I s p G u sp1 (a ++ [0]) HR Hu HV); lia].
  intros r s1 [-> HR1]. cbn [Z.ltb]. apply wp_bind.
  eapply wp_mono; [|apply (IH (S argc) _ s1 p G sp1 HR1); lia]. intros o s2 (sp2&us&J&->&HR2&Hsp2&Hst&Hout). apply wp_ret.
  exists sp2, (sp1 :: us), J. split_and!; try done; [lia|lia| |].
  - constructor.
    + split; [lia|]. split; [lia|]. eapply holds_same; [apply over_holds|]. intros x Hx. apply Hout. lia.
    + eapply Forall2_impl; [exact Hst|]. intros b a' (?&?&?). split_and!; [done|lia|done].
  - intros x Hx. rewrite Hout by lia. apply over_out. lia.
Qed.

Lemma length_words us : length (us ≫= le_bytes) = (4 * length us)%nat.
Proof. induction us as [|w us IH]; cbn; [done|]. rewrite IH. lia. Qed.

(** The whole stack. *)
Lemma push_stack_spec s0 G0 d V u argv I s p G : 0 ≤ u < UPAGES → V u = Some true → ready s0 G0 d V I s p G →
  (length argv ≤ MAXARG)%nat → args_room argv + 4 * (Z.of_nat (length argv) + 4) ≤ 4096 →
  wp (push_stack argv d ((u + 1) * 4096)) s (λ o s', ∃ sp us J, o = Some sp ∧ ready s0 G0 d V J s' p G ∧
    u * 4096 ≤ sp ∧ sp + Z.of_nat (length (stack_words sp us ≫= le_bytes)) ≤ (u + 1) * 4096 ∧ strings_at J sp ((u + 1) * 4096) argv us ∧ holds_at J sp (stack_words sp us ≫= le_bytes) ∧
    ∀ x, x < sp ∨ (u + 1) * 4096 ≤ x → J x = I x).
Proof.
  intros Hu HV HR Hn Hroom. assert (HU : UPAGES = 524288) by done. unfold push_stack. apply wp_bind.
  eapply wp_mono; [|apply (push_args_spec s0 G0 d V u argv Hu HV 0 I s p G ((u + 1) * 4096) HR); lia].
  intros o s1 (sp1&us&J&->&HR1&Hsp1&Hst&Hout). pose proof (Forall2_length _ _ _ Hst) as Hlen.
  set (n := Z.of_nat (length us)) in *. assert (Hn4 : n = Z.of_nat (length argv)) by (unfold n; lia).
  set (sp := sp1 - (n + 4) * 4). assert (Hsp : u * 4096 ≤ sp) by (unfold sp; lia).
  rewrite !u32_small by (unfold is_u32; lia). replace (sp1 - (3 + n + 1) * 4) with sp by (unfold sp; lia).
  replace (sp1 - (n + 1) * 4) with (sp + 12) by (unfold sp; lia).
  change ([4294967295; n; sp + 12] ++ us ++ [0]) with (stack_words sp us).
  assert (Hlw : Z.of_nat (length (stack_words sp us ≫= le_bytes)) = sp1 - sp).
  { rewrite length_words. unfold stack_words. rewrite !length_app. cbn [length]. unfold sp, n. lia. }
  apply wp_bind. eapply wp_mono; [|apply (copy_out_spec s0 G0 d V J s1 p G u sp _ HR1 Hu HV); lia].
  intros r s2 [-> HR2]. apply wp_ret. eexists sp, us, _. split; [done|]. split; [exact HR2|]. split; [done|]. split; [lia|].
  split_and!; [|apply over_holds|].
  - eapply Forall2_impl; [exact Hst|]. intros b a (?&?&Hh). split_and!; [lia|done|]. eapply holds_same; [exact Hh|].
    intros x Hx. apply over_out. lia.
  - intros x Hx. rewrite over_out by lia. apply Hout. lia.
Qed.
End stack.

Section views.
Context (kend : Z) (Hkend : KERNBASE < kend).
Implicit Types (k : kmem) (p : Pool.pool) (G : ghost).

Lemma staged_read k0 G0 d V I E k p G va : staged kend k0 G0 d V I E k p G → 0 ≤ va < VDSOTEXT →
  user_read k d va = match V (va / 4096) with Some true => Some (I va) | _ => None end.
Proof.
  intros [HA HP HE] Hva. pose proof (ap_inv _ _ _ _ _ _ _ _ HA) as [HI HB]. change VDSOTEXT with 2147471360 in Hva.
  assert (HV : VPAGE = 524285) by done. assert (HU : UPAGES = 524288) by done.
  assert (Hu : 0 ≤ va / 4096 < VPAGE) by zlia. assert (H32 : is_u32 va) by (unfold is_u32; lia).
  specialize (HP _ Hu). unfold page_is in HP. destruct (V (va / 4096)) as [v|].
  - destruct HP as (e&He&_&Hv&Hb). rewrite (read_entry kend k p G d va e HI (ap_dir _ _ _ _ _ _ _ _ HA) H32 He). destruct v.
    + destruct (entry_frame kend _ _ _ _ _ _ HI HB He ltac:(lia)) as (Hue&_). unfold is_u32 in Hue.
      assert (user_ok e false = true) as -> by (rewrite Hv; apply entry7_ok; zlia).
      rewrite Hb by zlia. f_equal. f_equal. zlia.
    + unfold user_ok. by rewrite Hv.
  - unfold user_read. rewrite (mmu_spec kend k p G) by (done || apply HA). unfold pte_at. by rewrite HP.
Qed.

Lemma staged_vdso_read k0 G0 d V I E k p G va f : staged kend k0 G0 d V I E k p G → VDSOTEXT ≤ va < KERNBASE → 0 ≤ f →
  E (va / 4096) = Some (f * 4096 + 5) → user_read k d va = Some (rd8 (pmem k) (kva f + va mod 4096)).
Proof.
  intros [HA HP HE] Hva Hf He. pose proof (ap_inv _ _ _ _ _ _ _ _ HA) as [HI HB]. change VDSOTEXT with 2147471360 in Hva. unfold KERNBASE in Hva.
  assert (HV : VPAGE = 524285) by done. assert (HU : UPAGES = 524288) by done. rewrite <- HE in He by zlia.
  rewrite (read_entry kend k p G d va _ HI (ap_dir _ _ _ _ _ _ _ _ HA) ltac:(unfold is_u32; lia) He).
  destruct (entry5_facts f Hf) as (->&->&_). done.
Qed.
End views.

(** ** exec *)

Definition guard_of (sz : Z) : Z := pages_of sz * 4096 + MAX_STACK + PGSIZE.
Definition top_of (sz : Z) : Z := guard_of sz + 2 * PGSIZE.

(** The process afterwards. *)
Definition exec_proc (path : list Z) (d entry sp sz : Z) (p : proc) : proc :=
  let p := set_name (copy_name (p_name p) (last_elem path path)) p in
  set_shmtop (top_of sz + MAX_SHM) (set_shmnextpg (top_of sz) (set_shmbreak (top_of sz) (set_stacktop (top_of sz)
    (set_stacklastpg (pages_of sz * 4096) (set_guardpg (guard_of sz) (set_tf (set_tf_eip_esp entry sp (p_tf p))
      (set_sz (top_of sz + MAX_SHM) (set_pgdir d p)))))))).

(** The bytes [l] can be read from the address [a] on. *)
Definition reads (k : kmem) (d a : Z) (l : list Z) : Prop := ∀ j b, l !! j = Some b → user_read k d (a + Z.of_nat j) = Some (u8 b).

(** The new address space [d], with the stack pointer [sp] and the strings at [us]. *)
Record executed {F} (kend : Z) (path : list Z) (argv : list (list Z)) (entry sz : Z) (I : Z → Z) (G : ghost) (s s' : @est F) (d sp : Z) (us : list Z) : Prop := {
  xe_proc : ep s' = exec_proc path d entry sp sz (ep s);
  xe_cr3 : cr3 (ev s') = V2P d;
  xe_mem : ∃ p' G', vm_inv kend (km (ev s')) p' G' ∧ is_dir G' d ∧ ¬ is_dir G d ∧ ¬ is_dir G' (p_pgdir (ep s)) ∧
    ∀ d', is_dir G d' → d' ≠ p_pgdir (ep s) → is_dir G' d' ∧ ∀ va, user_va va → user_read (km (ev s')) d' va = user_read (km (ev s)) d' va;
  xe_image va : 4096 ≤ va < pages_of sz * 4096 → user_read (km (ev s')) d va = Some (I va);
  xe_words : guard_of sz + PGSIZE ≤ sp ∧ reads (km (ev s')) d sp (stack_words sp us ≫= le_bytes);
  xe_strings : Forall2 (λ t a, sp ≤ a ∧ a + Z.of_nat (length t) + 1 ≤ top_of sz ∧ reads (km (ev s')) d a (t ++ [0])) argv us;
  xe_other va : 0 ≤ va < VDSOTEXT → ¬ (4096 ≤ va < pages_of sz * 4096) → ¬ (guard_of sz + PGSIZE ≤ va < top_of sz) →
    user_read (km (ev s')) d va = None;
  xe_text o : 0 ≤ o < 4096 → user_read (km (ev s')) d (VDSOTEXT + o) = Some (rd8 (pmem (km (ev s'))) (vdso_text_page (ev s') + o));
  xe_ticks o : 0 ≤ o < 4096 → user_read (km (ev s')) d (VDSOTEXT + VDSO_GETTICKS * PGSIZE + o) = Some (rd8 (pmem (km (ev s'))) (vdso_ticks_page (ev s') + o));
  xe_pid o : 0 ≤ o < 4 → user_read (km (ev s')) d (VDSOTEXT + VDSO_GETPID * PGSIZE + o) = Some (nth (Z.to_nat o) (le_bytes (u32 (p_pid (ep s)))) 0)
}.

(** The pages of the new address space. *)
Definition exec_pages (sz u : Z) : option bool :=
  if decide (u = guard_of sz / 4096) then Some false else
  if decide (u = guard_of sz / 4096 + 1) then Some true else prog_pages sz u.

Section exec.
Context {F : Type} `{!Files F} (kend kdata start size : Z) (Hkend : KERNBASE < kend).
Context (Hkdata : kdata mod 4096 = 0 ∧ KERNLINK < kdata < KERNBASE + PHYSTOP) (Hsize : 0 ≤ size ≤ PGSIZE).
Implicit Types (k : kmem) (p : Pool.pool) (G : ghost) (s : @est F).

Lemma wp_on_vm {A} (m : K vmstate A) s (Q : A → est → Prop) :
  wp (on_vm m) s Q ↔ wp m (ev s) (λ a v', Q a {| ev := v'; ep := ep s; ef := ef s |}).
Proof. unfold wp, on_vm, zoom. by destruct (m (ev s)). Qed.

(** What exec needs: the old address space and its guard page, a kernel stack, and the
    shared pages of the VDSO. *)
Record callable s p G : Prop := {
  ca_inv : vm_inv kend (km (ev s)) p G;
  ca_dir : is_dir G (p_pgdir (ep s));
  ca_guard u : 0 ≤ u < UPAGES → u * 4096 = p_guardpg (ep s) → pte_at G (p_pgdir (ep s)) u ≠ 0;
  ca_kstack : p_kstack (ep s) ≠ 0;
  ca_text : vdso_page kend p G 2 (vdso_text_page (ev s));
  ca_ticks : vdso_page kend p G 2 (vdso_ticks_page (ev s))
}.

(** The program fits below the VDSO. *)
Definition fits (sz : Z) : Prop := 4096 ≤ sz ∧ top_of sz + MAX_SHM ≤ VDSOTEXT.
Lemma fits_bounds sz : fits sz → guard_of sz / 4096 = pages_of sz + 257 ∧ guard_of sz = (pages_of sz + 257) * 4096 ∧
  top_of sz = (pages_of sz + 259) * 4096 ∧ 1 ≤ pages_of sz ∧ pages_of sz + 259 + 4096 ≤ 524285.
Proof.
  unfold fits, top_of, guard_of, MAX_STACK, MAX_SHM, PGSIZE. change VDSOTEXT with 2147471360. intros [H1 H2].
  assert (1 ≤ pages_of sz) by (unfold pages_of; zlia). split_and!; zlia.
Qed.

(** The views of [d] are those of an executed program. *)
Lemma built_executed path argv entry sz I G0 s0 s' J d sp us v3 v4 p4 G4 : fits sz →
  vdso_built kend (km (ev s0)) G0 d (exec_pages sz) J (u32 (p_pid (ep s0))) v3 v4 p4 G4 →
  (∀ x, x < guard_of sz + PGSIZE → J x = I x) → guard_of sz + PGSIZE ≤ sp → strings_at J sp (top_of sz) argv us → holds_at J sp (stack_words sp us ≫= le_bytes) →
  sp + Z.of_nat (length (stack_words sp us ≫= le_bytes)) ≤ top_of sz →
  ep s' = exec_proc path d entry sp sz (ep s0) → cr3 (ev s') = V2P d →
  vdso_text_page (ev s') = vdso_text_page v4 → vdso_ticks_page (ev s') = vdso_ticks_page v4 →
  (∃ p' G', vm_inv kend (km (ev s')) p' G' ∧ is_dir G' d ∧ ¬ is_dir G0 d ∧ ¬ is_dir G' (p_pgdir (ep s0)) ∧
    (∀ u, ptes G' !! (d, u) = ptes G4 !! (d, u)) ∧ (∀ va, user_va va → user_read (km (ev s')) d va = user_read (km v4) d va) ∧
    ∀ d', is_dir G0 d' → d' ≠ p_pgdir (ep s0) → is_dir G' d' ∧ ∀ va, user_va va → user_read (km (ev s')) d' va = user_read (km (ev s0)) d' va) →
  executed kend path argv entry sz I G0 s0 s' d sp us.
Proof.
  intros Hfit [_ (t&c&q&Ht&Hc&Ht0&Hc0&Hq0&HS&_&_&Hpid)] HI Hsp Hst Hw Hwl Hep Hcr E1 E2 (p'&G'&HV'&Hd'&Hnd&Hold&Hp&Hr&Ho).
  destruct (fits_bounds sz Hfit) as (Hg&Hg'&Htop&Hp1&Hp2). assert (HVT : VDSOTEXT = 2147471360) by done.
  assert (Hview : ∀ va, 0 ≤ va < VDSOTEXT → user_read (km (ev s')) d va = match exec_pages sz (va / 4096) with Some true => Some (J va) | _ => None end).
  { intros va Hva. rewrite Hr by (unfold user_va, KERNBASE; lia). by apply (staged_read kend _ _ _ _ _ _ _ _ _ _ HS). }
  assert (Hstack : ∀ a l, holds_at J a l → guard_of sz + PGSIZE ≤ a → a + Z.of_nat (length l) ≤ top_of sz → reads (km (ev s')) d a l).
  { intros a l Hh Ha Hl j b Hj. pose proof (lookup_lt_Some _ _ _ Hj). unfold PGSIZE in *. rewrite Hview by lia. rewrite <- (Hh j b Hj).
    unfold exec_pages. rewrite Hg, decide_False, decide_True by zlia. done. }
  assert (Hvd : ∀ i o f, 0 ≤ i < 3 → 0 ≤ o < 4096 → 0 ≤ f → vdso_entries t c q (VPAGE + i) = Some (f * 4096 + 5) →
    ptes G' !! (d, VPAGE + i) = Some (f * 4096 + 5) ∧ user_read (km v4) d (VDSOTEXT + i * PGSIZE + o) = Some (rd8 (pmem (km v4)) (kva f + o))).
  { intros i o f Hi Ho' Hf He. assert (HVP : VPAGE = 524285) by done. assert (HU : UPAGES = 524288) by done. split.
    - rewrite Hp, (st_vdso _ _ _ _ _ _ _ _ _ _ HS) by lia. done.
    - unfold PGSIZE. assert ((VDSOTEXT + i * 4096 + o) / 4096 = VPAGE + i) as Ev by zlia.
      rewrite (staged_vdso_read kend _ _ _ _ _ _ _ _ _ _ f HS) by (unfold KERNBASE; rewrite ?Ev; done || lia). do 3 f_equal. zlia. }
  assert (Hvd' : ∀ i o f, 0 ≤ i < 3 → 0 ≤ o < 4096 → 0 ≤ f → vdso_entries t c q (VPAGE + i) = Some (f * 4096 + 5) →
    user_read (km (ev s')) d (VDSOTEXT + i * PGSIZE + o) = Some (rd8 (pmem (km (ev s'))) (kva f + o))).
  { intros i o f Hi Ho' Hf He. destruct (Hvd i o f Hi Ho' Hf He) as [He' _]. unfold PGSIZE.
    assert ((VDSOTEXT + i * 4096 + o) / 4096 = VPAGE + i) as Ev by (change VPAGE with 524285; zlia). rewrite <- Ev in He'.
    rewrite (read_entry kend (km (ev s')) p' G' d (VDSOTEXT + i * 4096 + o) (f * 4096 + 5)); [|apply HV'|done|unfold is_u32; lia|done].
    destruct (entry5_facts f Hf) as (->&->&_). do 3 f_equal. zlia. }
  split; try done.
  - exists p', G'. done.
  - intros va Hva. rewrite Hview by lia. rewrite <- HI by (unfold PGSIZE; lia). unfold exec_pages, prog_pages. rewrite Hg.
    rewrite (decide_False (P := va / 4096 = pages_of sz + 257)), (decide_False (P := va / 4096 = pages_of sz + 257 + 1)), decide_False, decide_True by (unfold pages_of in *; zlia). done.
  - split; [done|]. by apply Hstack.
  - eapply Forall2_impl; [exact Hst|]. intros b a (?&?&?). split_and!; [done..|]. apply Hstack; [done|lia|]. rewrite length_app. cbn. lia.
  - intros va Hva H1 H2. rewrite Hview by done. unfold exec_pages, prog_pages, PGSIZE in *. rewrite Hg.
    repeat case_decide; try done; exfalso; unfold pages_of in *; zlia.
  - intros o Ho'. rewrite E1, Ht. replace (VDSOTEXT + o) with (VDSOTEXT + 0 * PGSIZE + o) by lia. apply Hvd'; done || lia.
  - intros o Ho'. rewrite E2, Hc. apply Hvd'; done || lia.
  - intros o Ho'. rewrite Hr by (unfold user_va, KERNBASE, PGSIZE; change VDSO_GETPID with 2; lia). rewrite <- Hpid by done. apply (Hvd VDSO_GETPID); done || lia.
Qed.

(** The last part: the process changes over, and the old address space goes. *)
Lemma commit_image_spec (Pf : F → Prop) path argv entry sz I p0 G0 s0 s4 J d sp us v3 p4 G4 : callable s0 p0 G0 → fits sz → d ≠ 0 →
  vdso_built kend (km (ev s0)) G0 d (exec_pages sz) J (u32 (p_pid (ep s0))) v3 (ev s4) p4 G4 → ep s4 = ep s0 → Pf (ef s4) →
  (∀ x, x < guard_of sz + PGSIZE → J x = I x) → guard_of sz + PGSIZE ≤ sp → strings_at J sp (top_of sz) argv us → holds_at J sp (stack_words sp us ≫= le_bytes) →
  sp + Z.of_nat (length (stack_words sp us ≫= le_bytes)) ≤ top_of sz →
  wp (commit_image kend path d entry sp (top_of sz) (guard_of sz) (pages_of sz * 4096) (top_of sz)) s4
    (λ r s', r = 0 ∧ Pf (ef s') ∧ executed kend path argv entry sz I G0 s0 s' d sp us).
Proof.
  intros [C1 C2 C3 C4 C5 C6] Hfit Hd HB4 Hep Hf HI Hsp Hst Hw Hwl. destruct (fits_bounds sz Hfit) as (_&_&Htop&Hp1&Hp2).
  unfold commit_image. rewrite (u32_small (top_of sz + MAX_SHM)), PGROUNDUP_small by (unfold is_u32, MAX_SHM; lia).
  assert ((top_of sz + MAX_SHM + 4095) / 4096 * 4096 = top_of sz + MAX_SHM) as -> by (unfold MAX_SHM; zlia).
  apply wp_bind. unfold set_proc at 1, modify, wp at 1. apply wp_bind. unfold gets at 1, wp at 1. apply wp_bind. unfold gets at 1, wp at 1.
  apply wp_bind. unfold set_proc, modify, wp at 1. apply wp_bind. unfold gets, wp at 1. cbn [ep ev ef]. rewrite Hep. cbn [p_pgdir p_guardpg set_name].
  fold (exec_proc path d entry sp sz (ep s0)). apply wp_bind, wp_on_vm. unfold switchuvm.
  change (p_kstack (exec_proc path d entry sp sz (ep s0))) with (p_kstack (ep s0)).
  change (p_pgdir (exec_proc path d entry sp sz (ep s0))) with d. rewrite (proj2 (Z.eqb_neq _ _) C4), (proj2 (Z.eqb_neq _ _) Hd).
  unfold lcr3, modify, wp at 1. apply wp_bind, wp_on_k. cbn [ev ep ef km].
  pose proof HB4 as [_ (t&c&q&_&_&_&_&_&HS&_)]. pose proof (st_apart _ _ _ _ _ _ _ _ _ _ HS) as HA. pose proof HA as [A1 A2 A3 A4 A5 A6 _].
  pose proof (apart_ne _ _ _ _ _ _ _ _ _ HA C2) as Hne.
  eapply wp_mono; [|apply (freevm_others kend Hkend (km (ev s4)) p4 G4 (p_pgdir (ep s0)) _ A1 (A4 _ C2))].
  - intros [] k' (p'&G'&HV'&Hgone&Ho). apply wp_ret. split; [done|]. split; [done|].
    destruct (Ho d A2 (not_eq_sym Hne)) as (Hd'&Hpt&Hr).
    eapply (built_executed path argv entry sz I G0 s0 _ J d sp us v3 (ev s4) p4 G4); try done.
    exists p', G'. split_and!; try done.
    + intros H. by destruct (Hgone _ H).
    + intros d' Hd0 Hne'. destruct (Ho d' (A4 _ Hd0) Hne') as (?&_&Hr'). split; [done|]. intros va Hva. rewrite <- A6 by done. by apply Hr'.
  - intros u Hu Hgd. unfold is_guard in Hgd. cbn in Hgd. apply Z.eqb_eq in Hgd. unfold pte_at. rewrite A5 by done.
    apply C3; [done|]. exact Hgd.
Qed.

(** What a call that failed leaves. *)
Definition refused G s s' : Prop :=
  ep s' = ep s ∧ ev s' = set_km (km (ev s')) (ev s) ∧ unchanged kend (km (ev s)) G (km (ev s')).

Context (path : list Z) (c : list Z) (P0 P1 : F → Prop) (P2 P3 : handle → F → Prop).
Hypothesis (HF : serves path (Some c) P0 P1 P2 P3) (Hlen : Z.of_nat (length c) < 2147483648) (Hbytes : Forall is_u8 c).

Lemma put_end ip s (Q : Z → est → Prop) r : P3 ip (ef s) → (∀ f, P0 f → Q r (with_f f s)) →
  wp (on_f (f_iunlockput ip) ≫= λ _, on_f f_end_op ≫= λ _, mret r) s Q.
Proof.
  intros Hf HQ. apply wp_bind, wp_on_f. eapply wp_mono; [|by apply (sv_put _ _ _ _ _ _ HF)]. intros [] f1 H1.
  apply wp_bind, wp_on_f. eapply wp_mono; [|by apply (sv_end _ _ _ _ _ _ HF)]. intros [] f2 H2. apply wp_ret. by apply HQ.
Qed.

Lemma bad_spec W s0 G0 d ip s :
  (if decide (d = 0) then unchanged kend (km (ev s0)) G0 (km (ev s)) ∧ (ev s = set_km (km (ev s)) (ev s0) ∧ ep s = ep s0) ∧ P3 ip (ef s)
   else stopped kend W P3 s0 G0 d ip s) →
  wp (bad kend d (Some ip)) s (λ r s', r = -1 ∧ P0 (ef s') ∧ refused G0 s0 s').
Proof.
  intros H. unfold bad. apply wp_bind. destruct (decide (d = 0)) as [->|Hd].
  - destruct H as (Hu&[He1 He2]&Hf). cbn [Z.eqb negb when]. apply wp_ret. eapply put_end; [done|]. intros f H0. split_and!; try done.
  - destruct H as (p&G&HA&[He1 He2]&Hf). rewrite (proj2 (Z.eqb_neq _ _) Hd). cbn [negb when]. apply wp_on_k.
    eapply wp_mono; [|by apply (free_built kend W Hkend (km (ev s0)) G0 d (km (ev s)) p G)]. intros [] k' Hu.
    eapply put_end; [done|]. intros f H0. split_and!; try done. split_and!; [done| |done]. cbn. by rewrite He1.
Qed.

Abbreviation Wof p0 G0 := (λ g m, shared kend p0 G0 m g).

(** The two pages of the stack, the lower one hidden. *)
Lemma stack_pages_spec {A} s0 p0 G0 d I s p G sz (rest : Z → K est A) Q : fits sz → 4096 ≤ sz < KERNBASE → blank sz I →
  ready kend (Wof p0 G0) P0 s0 G0 d (prog_pages sz) I s p G → 4 ≤ Z.of_nat (length (Pool.free p)) →
  (∀ s' p' G', ready kend (Wof p0 G0) P0 s0 G0 d (exec_pages sz) I s' p' G' → Z.of_nat (length (Pool.free p)) ≤ Z.of_nat (length (Pool.free p')) + 4 → wp (rest (top_of sz)) s' Q) →
  wp (on_k (allocuvm kend d (guard_of sz) (top_of sz) None) ≫= λ r,
      if r =? 0 then panic "panic stackptr failed" else
      on_k (clearpteu d (guard_of sz)) ≫= λ _, on_k (clearptep d (guard_of sz)) ≫= λ _, rest r) s Q.
Proof.
  intros Hfit Hsz Hb [HA HP [He1 He2] Hf] Hfree Hrest. destruct (fits_bounds sz Hfit) as (Hg&Hg'&Htop&Hp1&Hp2). assert (HU : UPAGES = 524288) by done.
  set (gp := pages_of sz + 257) in *. assert (Hlo : (guard_of sz + 4095) / 4096 = gp) by zlia. assert (Hhi : (top_of sz + 4095) / 4096 = gp + 2) by zlia.
  apply wp_bind, wp_on_k.
  eapply wp_mono; [|apply (alloc_built kend (Wof p0 G0) Hkend (km (ev s0)) G0 d (prog_pages sz) I (km (ev s)) p G (guard_of sz) (top_of sz) HA HP)].
  2: lia. 2: { unfold KERNBASE. lia. }
  2: { intros u. rewrite Hlo, Hhi. intros Hu. unfold prog_pages. fold (pages_of sz). by rewrite !decide_False by lia. }
  2: { intros x. rewrite Hlo. intros Hx. apply Hb. unfold pages_of in *. unfold gp in Hx. zlia. }
  rewrite Hlo, Hhi. intros r k1 (p1&G1&HA1&[(->&HP1&Hc1)|(->&Hc1)]); [|lia]. rewrite (proj2 (Z.eqb_neq _ 0)) by lia.
  apply wp_bind, wp_on_k. cbn [km ev with_k set_km]. rewrite Hg'. unfold gp in *.
  eapply wp_mono; [|eapply (guard_built kend (Wof p0 G0) Hkend (km (ev s0)) G0 d _ I k1 p1 G1 (pages_of sz + 257) HA1 HP1); [lia|]].
  2: { unfold add_pages. rewrite decide_True by lia. done. }
  intros [] k2 Hk2. apply wp_bind, wp_on_k. cbn [km ev with_k set_km]. eapply wp_mono; [|exact Hk2]. clear Hk2. intros [] k3 (G3&HA3&HP3).
  apply (Hrest _ p1 G3); [|lia]. split; [done| |by cbn; rewrite He1|done]. eapply pages_ext; [exact HP3| |done].
  intros u. unfold exec_pages, add_pages. rewrite Hg. destruct (decide (u = pages_of sz + 257)) as [->|Hne]; [by rewrite fn_lookup_insert|].
  rewrite fn_lookup_insert_ne by done. repeat case_decide; done || (exfalso; lia).
Qed.

Lemma run_spec s0 p0 G0 d entry I s p G sz argv : callable s0 p0 G0 → fits sz → 4096 ≤ sz < KERNBASE → blank sz I → d ≠ 0 →
  ready kend (Wof p0 G0) P0 s0 G0 d (prog_pages sz) I s p G → 10 ≤ Z.of_nat (length (Pool.free p)) →
  (length argv ≤ MAXARG)%nat → args_room argv + 4 * (Z.of_nat (length argv) + 4) ≤ 4096 →
  wp (on_k (allocuvm kend d (guard_of sz) (top_of sz) None) ≫= λ r,
      if r =? 0 then panic "panic stackptr failed" else
      on_k (clearpteu d (guard_of sz)) ≫= λ _, on_k (clearptep d (guard_of sz)) ≫= λ _,
      push_stack argv d r ≫= λ o,
      match o with
      | None => bad kend d None
      | Some sp => gets ep ≫= λ pr, on_vm (allocvdso start size d pr) ≫= λ _,
          commit_image kend path d entry sp r (guard_of sz) (pages_of sz * 4096) (top_of sz)
      end) s (λ r s', r = 0 ∧ P0 (ef s') ∧ ∃ sp us, executed kend path argv entry sz I G0 s0 s' d sp us).
Proof.
  intros HC Hfit Hsz Hb Hd HR Hfree Hn Hroom. destruct (fits_bounds sz Hfit) as (Hg&Hg'&Htop&Hp1&Hp2). assert (HU : UPAGES = 524288) by done.
  eapply (stack_pages_spec s0 p0 G0 d I s p G sz); try done; [lia|]. intros s1 p1 G1 HR1 Hc1. apply wp_bind.
  replace (top_of sz) with ((pages_of sz + 258 + 1) * 4096) at 1 by lia.
  eapply wp_mono; [|apply (push_stack_spec kend (Wof p0 G0) P0 s0 G0 d (exec_pages sz) (pages_of sz + 258) argv I s1 p1 G1); try done; [lia|]].
  2: { unfold exec_pages. rewrite Hg, decide_False, decide_True by lia. done. }
  intros o s2 (sp&us&J&->&HR2&Hsp&Hwl&Hst&Hw&Hout). replace ((pages_of sz + 258 + 1) * 4096) with (top_of sz) in * by lia.
  apply wp_bind. unfold gets, wp at 1. apply wp_bind, wp_on_vm. pose proof HR2 as [HA2 HP2 [He1 He2] Hf2].
  assert (HS2 : staged kend (km (ev s0)) G0 d (exec_pages sz) J (λ _, None) (km (ev s2)) p1 G1).
  { apply (staged_start kend); [|done|]; [destruct HA2; by split|]. assert (HVP : VPAGE = 524285) by done. intros u Hu. unfold exec_pages, prog_pages.
    fold (pages_of sz). rewrite Hg. by rewrite !decide_False by lia. }
  assert (Hvd : ∀ v, vdso_page kend p0 G0 2 v → vdso_page kend p1 G1 2 v).
  { intros v [->|(f&->&Hs)]; [by left|right]. exists f. split; [done|]. by apply (ap_shared _ _ _ _ _ _ _ _ HA2). }
  eapply wp_mono; [|apply (allocvdso_built kend (km (ev s0)) G0 d (exec_pages sz) J (ev s2) p1 G1 (ep s2) start size HS2); [..|done|lia]].
  2: { rewrite He1. apply Hvd, HC. } 2: { rewrite He1. apply Hvd, HC. }
  intros r v4 (->&p4&G4&HB4). rewrite He2 in HB4.
  eapply wp_mono; [|eapply (commit_image_spec P0 path argv entry sz I p0 G0 s0 {| ev := v4; ep := ep s2; ef := ef s2 |} J d sp us (ev s2) p4 G4 HC Hfit Hd HB4 He2 Hf2); try done].
  - intros r s' (->&H0&Hex). split; [done|]. split; [done|]. by exists sp, us.
  - intros x Hx. apply Hout. unfold PGSIZE in Hx. lia.
  - unfold PGSIZE. lia.
Qed.

Lemma executed_with f argv entry sz I G s s' d sp us : executed kend path argv entry sz I G (with_f f s) s' d sp us →
  executed kend path argv entry sz I G s s' d sp us.
Proof. intros []. by split. Qed.

Lemma exec_file s p G argv : P0 (ef s) → callable s p G → (length argv ≤ MAXARG)%nat → args_room argv + 4 * (Z.of_nat (length argv) + 4) ≤ 4096 →
  (∀ entry sz I, program c = Some (entry, sz, I) → fits sz ∧ load_cost sz + 10 ≤ Z.of_nat (length (Pool.free p))) →
  wp (exec kend kdata start size path argv) s (λ r s', P0 (ef s') ∧ match program c with
    | Some (entry, sz, J) => r = 0 ∧ ∃ d sp us, executed kend path argv entry sz J G s s' d sp us
    | None => r = -1 ∧ refused G s s'
    end).
Proof.
  intros H0 HC Hn Hroom Hmem. unfold exec. apply wp_bind, wp_on_f. eapply wp_mono; [|by apply (sv_begin _ _ _ _ _ _ HF)]. intros [] f1 H1.
  apply wp_bind, wp_on_f. eapply wp_mono; [|by apply (sv_namei _ _ _ _ _ _ HF)]. intros [ip|] f2 H2; [|done].
  apply wp_bind, wp_on_f. eapply wp_mono; [|by apply (sv_ilock _ _ _ _ _ _ HF)]. intros [] f3 H3.
  change (with_f f3 (with_f f2 (with_f f1 s))) with (with_f f3 s). assert (HC3 : callable (with_f f3 s) p G) by (destruct HC; by split).
  apply wp_bind. eapply wp_mono; [|apply (load_program_spec kend (Wof p G) Hkend path c P0 P1 P2 P3 HF Hlen Hbytes kdata Hkdata (with_f f3 s) p G ip); [apply HC|done|done]].
  intros [d [[entry sz]|]] s4.
  - intros (Hd&J&p4&G4&E4&HL4&Hsz&Hb&Hc4). rewrite E4. destruct (Hmem _ _ _ E4) as [Hfit Hfree].
    destruct (fits_bounds sz Hfit) as (Hg&Hg'&Htop&Hp1&Hp2). pose proof HL4 as [HA4 HP4 Hs4 Hf4].
    apply wp_bind, wp_on_f. eapply wp_mono; [|by apply (sv_put _ _ _ _ _ _ HF)]. intros [] f5 H5.
    apply wp_bind, wp_on_f. eapply wp_mono; [|by apply (sv_end _ _ _ _ _ _ HF)]. intros [] f6 H6. unfold KERNBASE in Hsz.
    rewrite PGROUNDUP_small by lia. fold (pages_of sz). unfold guard_of, top_of in *. unfold MAX_STACK, PGSIZE in *.
    rewrite !u32_small by (unfold is_u32; lia).
    eapply wp_mono; [|apply (run_spec (with_f f3 s) p G d entry J _ p4 G4 sz argv HC3 Hfit Hsz Hb Hd); [by split|lia|done|done]].
    intros r s' (->&H0'&sp&us&Hex). split; [done|]. split; [done|]. exists d, sp, us. by eapply executed_with.
  - intros [Hst Hno]. assert (program c = None) as ->.
    { destruct (program c) as [[[entry sz] J]|]; [|done]. destruct (Hmem _ _ _ eq_refl) as [_ Hm]. specialize (Hno _ _ _ eq_refl). lia. }
    eapply wp_mono; [|by apply (bad_spec (Wof p G))]. intros r s' (->&H0'&Hr). split; [done|]. split; [done|]. exact Hr.
Qed.
End exec.

(** exec against the laws of the class [Files]. *)
Lemma exec_spec {F : Type} `{!Files F} (kend kdata start size : Z) (path : list Z) (oc : option (list Z)) P0 P1 P2 P3
    (argv : list (list Z)) (s : @est F) (p : Pool.pool) (G : ghost) :
  KERNBASE < kend → kdata mod 4096 = 0 ∧ KERNLINK < kdata < KERNBASE + PHYSTOP → 0 ≤ size ≤ PGSIZE →
  serves path oc P0 P1 P2 P3 → (∀ c, oc = Some c → Z.of_nat (length c) < 2147483648 ∧ Forall is_u8 c) →
  P0 (ef s) → callable kend s p G →
  (length argv ≤ MAXARG)%nat → args_room argv + 4 * (Z.of_nat (length argv) + 4) ≤ PGSIZE →
  (∀ entry sz I, oc ≫= program = Some (entry, sz, I) → fits sz ∧ load_cost sz + 10 ≤ Z.of_nat (length (Pool.free p))) →
  wp (exec kend kdata start size path argv) s (λ r s', P0 (ef s') ∧ match oc ≫= program with
    | Some (entry, sz, J) => r = 0 ∧ ∃ d sp us, executed kend path argv entry sz J G s s' d sp us
    | None => r = -1 ∧ refused kend G s s'
    end).
Proof.
  intros Hkend Hkd Hsz HF Hc H0 HC Hn Hroom Hmem. destruct oc as [c|].
  - destruct (Hc c eq_refl) as [Hlen Hb]. by apply (exec_file kend kdata start size Hkend Hkd Hsz path c P0 P1 P2 P3 HF Hlen Hb s p G argv).
  - unfold exec. apply wp_bind, wp_on_f. eapply wp_mono; [|by apply (sv_begin _ _ _ _ _ _ HF)]. intros [] f1 H1.
    apply wp_bind, wp_on_f. eapply wp_mono; [|by apply (sv_namei _ _ _ _ _ _ HF)]. intros [ip|] f2 H2; [done|].
    apply wp_bind, wp_on_f. eapply wp_mono; [|by apply (sv_end _ _ _ _ _ _ HF)]. intros [] f3 H3. apply wp_ret. split; [done|].
    split; [done|]. split; [done|]. split; [by destruct s as [[] ? ?]|]. eapply unchanged_refl, HC.
Qed.
