(* ===== verification/Execfs.v ===== *)
(** exec on the file system of Fs.v and Sysfile.v: its routines have what Execload.v asks
    of the class [Files], and begin_op() and end_op() of the log have what is asked here. *)

From Stdlib Require Import ZArith Lia.
From stdpp Require Import base tactics numbers gmap strings functions list.
From S2P Require Import Prelude Memory Kstring Monitor Sleeplock Buf Bio Log Crash Journal Fs Fsblock Fsinode Fsfile Fsrw Fsdir Fsexample Inoderef Namei Sysfile Mmu Kalloc Procdef Vm Vminv Vmspec Vmexample Fault Exec Execload Execprops.

#[local] Open Scope Z_scope.

(** ** What begin_op and end_op do around an operation that changes nothing *)

Record log_calls {S : Type} `{!Blocks S, !BlocksSpec S} (v : jview) (idle : S → Prop) (log_begin log_end : K S unit) : Prop := {
  lc_begin b : idle b → wp log_begin b (λ _ b', b_rep b' v);
  lc_end b : b_rep b v → wp log_end b (λ _ b', idle b')
}.

Section files.
Context {S : Type} `{!Blocks S, !BlocksSpec S}.
Context (dev_read : Z → option (nat → Z → K (@fsst S) (Z * list Z))) (log_begin log_end : K S unit).
Abbreviation sysst := (@sysst S).

(** The routines that exec calls. *)
Definition fs_files : Files sysst := {|
  handle := nat;
  f_begin_op := Sysfile.begin_op log_begin;
  f_end_op := Sysfile.end_op log_end;
  f_namei path := gets cwd ≫= λ c, on_fs (namei dev_read c path);
  f_ilock i := on_fs (ilock i);
  f_readi i off n := on_fs (readi dev_read i off n);
  f_iunlockput i := on_fs (iunlockput i)
|}.

Context (sbk : superblock) (ds : Z) (v : jview) (idle : S → Prop) (HL : log_calls v idle log_begin log_end).
Context (r : nat → Z) (q : nat → Z) (nops : Z) (c : nat).
Context (H2 : two_free r) (H0 : ∀ i, 0 ≤ r i) (Hc : 0 < r c).
Context (path : list Z).

(** References of others stay, and so does the current directory, which is inode [q c]. *)
Definition based (n : Z) (s : sysst) : Prop := nop s = n ∧ cwd s = c ∧ ∀ j, 0 < r j → i_inum (icache (sf s) j) = q j.
Definition with_blk (b : S) (f : @fsst S) : @fsst S := {| blk := b; sb := sb f; icache := icache f; fs_pid := fs_pid f |}.
Definition outside (s : sysst) : Prop :=
  idle (blk (sf s)) ∧ (∀ b, b_rep b v → fs_at sbk ds v r nolock (with_blk b (sf s))) ∧ based nops s.
Definition inside (s : sysst) : Prop := fs_at sbk ds v r nolock (sf s) ∧ based (nops + 1) s.

(** The inode that the path leads to. *)
Definition path_inode : option Z :=
  walk sbk (j_cont v) (match path with x :: _ => if x =? slash then ROOTINO else q c | [] => q c end) (names path).
Definition referred (i : nat) (s : sysst) : Prop :=
  fs_at sbk ds v (inc i r) nolock (sf s) ∧ based (nops + 1) s ∧ path_inode = Some (i_inum (icache (sf s) i)).
Definition locked_by (i : nat) (s : sysst) : Prop :=
  fs_at sbk ds v (inc i r) (lk i nolock) (sf s) ∧ based (nops + 1) s ∧ path_inode = Some (i_inum (icache (sf s) i)) ∧ i_valid (icache (sf s) i) = true.

Lemma wp_on_fs {A} (m : K fsst A) s (Q : A → sysst → Prop) :
  wp (on_fs m) s Q ↔ wp m (sf s) (λ a f, Q a {| sf := f; nop := nop s; cwd := cwd s |}).
Proof. unfold wp, on_fs, zoom. by destruct (m (sf s)). Qed.
Lemma based_kept n s f : based n s → kept r (sf s) f → based n {| sf := f; nop := nop s; cwd := cwd s |}.
Proof. intros (B1&B2&B3) Hk. split; [done|]. split; [done|]. intros j Hj. cbn. by rewrite Hk, B3. Qed.
Lemma fs_at_blk f k r' b : fs_at sbk ds v r' k f → b_rep b v → fs_at sbk ds v r' k (with_blk b f).
Proof. intros [[[? ?] ? ? ? ? ?] ? ? ? ? ? ?] Hb. by split. Qed.
Lemma inc_pos i : 0 < inc i r i.
Proof. unfold inc. rewrite decide_True by done. specialize (H0 i). lia. Qed.

Lemma fs_begin_ok s : outside s → wp (Sysfile.begin_op log_begin) s (λ _ s', inside s').
Proof.
  intros (Hi&HF&B1&B2&B3). unfold Sysfile.begin_op. apply wp_bind, wp_on_fs, wp_on_blk.
  eapply wp_mono; [|by apply (lc_begin _ _ _ _ HL)]. intros [] b Hb f <- (E1&E2&E3). unfold wp, modify, set_nop. cbn. split.
  - specialize (HF _ Hb). destruct f. cbn in *. subst. done.
  - split; [cbn; lia|]. split; [done|]. cbn. by rewrite E2.
Qed.
Lemma fs_end_ok s : inside s → wp (Sysfile.end_op log_end) s (λ _ s', outside s').
Proof.
  intros (HF&B1&B2&B3). unfold Sysfile.end_op. apply wp_bind. unfold wp at 1, modify. apply wp_on_fs, wp_on_blk. cbn [sf set_nop].
  eapply wp_mono; [|by apply (lc_end _ _ _ _ HL), HF]. intros [] b Hb f <- (E1&E2&E3). split; [done|]. split.
  - intros b' Hb'. apply (fs_at_blk _ _ _ b') in HF; [|done]. destruct f. cbn in *. subst. done.
  - split; [cbn; lia|]. split; [done|]. cbn. by rewrite E2.
Qed.
Lemma namei_ok s : inside s → wp (gets cwd ≫= λ c, on_fs (namei dev_read c path)) s (λ o s', match o, path_inode with
    | None, None => inside s' | Some ip, Some _ => referred ip s' | _, _ => False end).
Proof.
  intros (HF&HB). pose proof HB as (B1&B2&B3). apply wp_bind. unfold wp at 1, gets. rewrite B2. apply wp_on_fs.
  unfold namei. apply wp_bind. eapply wp_mono; [|by apply (namex_at sbk ds dev_read v r (sf s) c path false)].
  intros o f [Ho Hk]. apply wp_ret. pose proof (based_kept _ _ _ HB Hk) as HB'. unfold target, path_start in Ho. rewrite (B3 c Hc) in Ho.
  fold path_inode in Ho. destruct path_inode as [m|] eqn:E; cbn in Ho.
  - destruct Ho as (j&->&HF'&Hm). split; [done|]. split; [done|]. cbn. rewrite E. by rewrite Hm.
  - destruct Ho as [-> HF']. by split.
Qed.
Lemma ilock_ok i s : referred i s → wp (on_fs (ilock i)) s (λ _ s', locked_by i s').
Proof.
  intros (HF&HB&E). apply wp_on_fs. eapply wp_mono; [|apply (ilock_at sbk ds v (inc i r) nolock (sf s) i HF); [apply inc_pos|done]].
  intros [] f (Hv&HF'&Hin). split; [done|]. split; [by apply based_kept, kept_inums|]. split; [|done]. cbn. by rewrite Hin.
Qed.
Lemma put_ok i s : locked_by i s → wp (on_fs (iunlockput i)) s (λ _ s', inside s').
Proof.
  intros (HF&HB&_). apply wp_on_fs. eapply wp_mono; [|by apply (put_locked sbk ds v r)]. intros [] f [HF' Hin].
  split; [done|]. by apply based_kept, kept_inums.
Qed.

Lemma fbytes_part cc ip z off n : 0 ≤ off → 0 ≤ n → off + n ≤ z →
  take (Z.to_nat n) (drop (Z.to_nat off) (fbytes cc ip 0 z)) = fbytes cc ip off n.
Proof.
  intros Ho Hn Hz. rewrite (fbytes_app cc ip 0 off z) by lia. rewrite drop_app_length' by (unfold fbytes; by rewrite length_fmap, length_seqZ).
  rewrite Z.add_0_l, (fbytes_app cc ip off n (z - off)) by lia. by rewrite take_app_length' by (unfold fbytes; by rewrite length_fmap, length_seqZ).
Qed.
Lemma length_content m : 0 ≤ i_size (dino sbk (j_cont v) m) → Z.of_nat (length (content sbk (j_cont v) m)) = i_size (dino sbk (j_cont v) m).
Proof. intros H. unfold content, fbytes. rewrite length_fmap, length_seqZ. lia. Qed.

(** readi returns the bytes of the file. *)
Lemma readi_ok i s off n m : locked_by i s → path_inode = Some m → i_type (dino sbk (j_cont v) m) ≠ T_DEV → is_u32 off → 0 ≤ n ≤ PGSIZE →
  wp (on_fs (readi dev_read i off n)) s (λ x s', locked_by i s' ∧ x = file_read (content sbk (j_cont v) m) off n).
Proof.
  intros (HF&HB&Em&Hv) E Hty Hoff Hn. rewrite E in Em. injection Em as Em. apply wp_on_fs.
  pose proof (inode_ok_at sbk ds _ _ _ _ i HF (inc_pos i) Hv) as HI. pose proof (same_at sbk ds _ _ _ _ i HF (inc_pos i) Hv) as HS.
  rewrite <- Em in HS. pose proof HS as (S1&_&_&_&S5&_). pose proof (fo_size _ _ _ _ (io_file _ _ _ _ _ _ HI)) as Hsz.
  change (MAXFILE * BSIZE) with 71680 in Hsz. rewrite S5 in Hsz. unfold is_u32, PGSIZE in *.
  unfold file_read. rewrite length_content by lia. set (z := i_size (dino sbk (j_cont v) m)) in *.
  destruct (Z.ltb_spec z off) as [Hgt|Hle].
  - unfold readi. apply wp_bind. unfold wp at 1, gets at 1. rewrite S1, (proj2 (Z.eqb_neq _ _) Hty), S5, (proj2 (Z.ltb_lt z off)) by done.
    cbn [orb]. apply wp_ret. split; [|done]. destruct s. split; [done|]. split; [done|]. split; [|done]. cbn in *. by rewrite E, Em.
  - rewrite (u32_small (off + n)), (proj2 (Z.ltb_ge (off + n) off)) by (unfold is_u32; lia). cbn [orb].
    eapply wp_mono; [|apply (readi_spec sbk ds dev_read (sf s) v i _ off n HI); [by rewrite S1|lia|lia|lia|apply HF]].
    intros x f (->&Hs&Hu). destruct (read_at sbk ds v _ _ _ f i HF (inc_pos i) Hs Hu) as [HF' Hin]. split.
    + split; [done|]. split; [by apply based_kept, kept_inums|]. cbn. destruct Hu as (_&->&_). by rewrite E, Em.
    + rewrite S5. unfold read_len, content. fold z. rewrite fbytes_part by lia. f_equal. apply fbytes_inode; [done|lia|]. change (MAXFILE * BSIZE) with 71680. lia.
Qed.

Lemma fs_serves : (∀ m, path_inode = Some m → i_type (dino sbk (j_cont v) m) ≠ T_DEV) →
  @serves sysst fs_files path (content sbk (j_cont v) <$> path_inode) outside inside referred locked_by.
Proof.
  intros Hty. split.
  - apply fs_begin_ok.
  - apply fs_end_ok.
  - intros s Hs. eapply wp_mono; [|by apply namei_ok]. intros [i|] s'; by destruct path_inode.
  - apply ilock_ok.
  - intros i s off n Hs Hoff Hn. pose proof Hs as (_&_&E&_). rewrite E. cbn. apply readi_ok; auto.
  - apply put_ok.
Qed.

(** A file fits into the disk, and holds bytes. *)
Lemma content_bytes m : (∀ b, mem_wf (j_cont v b)) → file_ok sbk ds (j_cont v) (dino sbk (j_cont v) m) →
  Z.of_nat (length (content sbk (j_cont v) m)) < 2147483648 ∧ Forall is_u8 (content sbk (j_cont v) m).
Proof.
  intros Hw [_ _ _ _ Hsz]. change (MAXFILE * BSIZE) with 71680 in Hsz. split; [rewrite length_content; lia|].
  apply Forall_fmap, Forall_true. intros o. unfold compose, fbyte. by apply rd8_range.
Qed.
Lemma outside_file s m : outside s → path_inode = Some m → file_ok sbk ds (j_cont v) (dino sbk (j_cont v) m).
Proof.
  intros (Hi&HF&_&_&B3) Hm. pose proof (lc_begin _ _ _ _ HL _ Hi) as Hb. unfold wp in Hb. destruct (log_begin _) as [[] b| | | |]; try done.
  specialize (HF b Hb). pose proof (fa_tree _ _ _ _ _ _ HF) as HT. apply (tr_file _ _ _ HT). apply (walk_in_use sbk ds) in Hm; [done|done|].
  destruct (fa_entry _ _ _ _ _ _ HF c) as (_&_&Hu&_); [by rewrite (proj1 (fa_bal _ _ _ _ _ _ HF c))|]. cbn in Hu. rewrite (B3 c Hc) in Hu.
  destruct path as [|x ?]; [done|]. destruct (x =? slash); [apply HT|done].
Qed.
End files.

(** C12: exec on a path, with the file system outside of an operation and its tree in order,
    arguments that fit into a page, and enough free frames.  If the path leads to a file
    that is a program (an ELF header and program headers that make sense and segments that
    are there), the call returns 0 and the process has a new address space: the bytes of
    the segments with zeros around them, nothing at address 0, below the stack or on the
    guard page, a stack with the strings, the pointers to them, argc and argv, and the VDSO
    pages with its process id; the size, registers and stack limits of the process go with
    it, and the old address space is gone.  In every other case the call returns -1, and
    the process and all that it sees are as before.  No other address space changes.  The
    log operation that exec has begun is ended, and the inode cache has no lock and no
    reference more than before. *)
Theorem exec_correct {S : Type} `{!Blocks S, !BlocksSpec S} dev_read (log_begin log_end : K S unit) sbk ds v idle r q nops c
    (kend kdata start size : Z) (path : list Z) (argv : list (list Z)) (s : @est sysst) (p : Pool.pool) (G : ghost) :
  KERNBASE < kend → kdata mod 4096 = 0 ∧ KERNLINK < kdata < KERNBASE + PHYSTOP → 0 ≤ size ≤ PGSIZE →
  log_calls v idle log_begin log_end → two_free r → (∀ i, 0 ≤ r i) → 0 < r c → (∀ b, mem_wf (j_cont v b)) →
  outside sbk ds v idle r q nops c (ef s) → callable kend s p G →
  (length argv ≤ MAXARG)%nat → args_room argv + 4 * (Z.of_nat (length argv) + 4) ≤ PGSIZE →
  let file := path_inode sbk v q c path in
  (∀ m, file = Some m → i_type (dino sbk (j_cont v) m) ≠ T_DEV) →
  (∀ entry sz I, (content sbk (j_cont v) <$> file) ≫= program = Some (entry, sz, I) → fits sz ∧ load_cost sz + 10 ≤ Z.of_nat (length (Pool.free p))) →
  wp (@exec sysst (fs_files dev_read log_begin log_end) kend kdata start size path argv) s (λ x s',
    outside sbk ds v idle r q nops c (ef s') ∧ match (content sbk (j_cont v) <$> file) ≫= program with
    | Some (entry, sz, J) => x = 0 ∧ ∃ d sp us, executed kend path argv entry sz J G s s' d sp us
    | None => x = -1 ∧ refused kend G s s'
    end).
Proof.
  intros Hkend Hkd Hsz HL H2 H0 Hc Hw Ho HC Hn Hroom file Hty Hmem.
  eapply (@exec_spec sysst (fs_files dev_read log_begin log_end)); try done; [by apply fs_serves|].
  intros l Hl. destruct file as [m|] eqn:E; [|done]. injection Hl as <-. apply (content_bytes sbk ds v m Hw).
  by apply (outside_file log_begin log_end sbk ds v idle HL r q nops c Hc path (ef s)).
Qed.

(** ** The log *)

Section log.
Context (iderw : nat → K bst unit) `{!DiskDriver iderw}.
(** Where the log is, the size of the disk, what it holds and held, and the blocks. *)
Context (st z : Z) (D0 : Z → mem) (P0 : list (Z → mem)) (C : Z → mem) (Hhead : hb_n (D0 st) = 0).
#[local] Instance log_inst : Blocks lst := log_blocks iderw.
#[local] Instance log_spec : BlocksSpec lst := log_blocks_spec iderw D0 P0 st 1.

Definition log_view_of : jview :=
  {| j_cont := C; j_size := z; j_res := λ b, ¬ home st LOGSIZE b; j_held := ∅; j_log := ∅; j_mod := ∅ |}.
Definition log_idle (s : lst) : Prop := ∃ w l, idle_at st z C s w l ∧ v_disk w = D0 ∧ v_past w = P0 ∧ ∀ b, v_cont w b = C b.

(** Outside of an operation nothing is pending, and an operation that logs nothing leaves
    it so. *)
Lemma log_log_calls : log_calls log_view_of log_idle Log.begin_op (Log.end_op iderw).
Proof.
  split.
  - intros s (w&l&Hid&Hd&Hp&Hc). eapply wp_mono; [|by apply (begin_op_idle st z C s w l)]. intros [] s' Hr.
    rewrite Hd, Hp in Hr. refine (@b_rep_cont lst log_inst log_spec s' _ C Hr (λ b, eq_sym (Hc b))).
  - intros s (w&l&[[Hr Hl] [Hok Hsz _ _] Hp Hst Hout1 Hc Hd Hpa Hct Hz Hres Hh Hlg _ _ _ _]). cbn in *.
    assert (Hn : lh_n l = 0).
    { pose proof (lo_n _ _ Hok). destruct (decide (lh_n l = 0)) as [|Hne]; [done|]. exfalso.
      assert (Hin : lh_block l 0 ∈ lh_set l) by (apply elem_of_firsts; exists 0; unfold lh_len; split; [lia|done]). rewrite Hlg in Hin. set_solver. }
    set (l1 := set_committing true (set_outstanding 0 l)).
    assert (Hbeg : on_log end_op_begin s = Ret true {| cache := cache s; jrnl := l1 |}).
    { unfold on_log, zoom, end_op_begin, mbind, K_bind, gets, wakeup, set_obj, modify. simpl. rewrite Hl. simpl. by rewrite Hc, Hout1. }
    assert (Hcom : commit iderw {| cache := cache s; jrnl := l1 |} = Ret tt {| cache := cache s; jrnl := l1 |}).
    { unfold commit, mbind, K_bind, gets. cbn. by rewrite Hn. }
    unfold Log.end_op. apply wp_bind. unfold wp at 1. rewrite Hbeg. cbn [when]. apply wp_bind. unfold wp at 1. rewrite Hcom.
    unfold wp. rewrite end_op_finish_run. cbn [cache jrnl].
    exists w, (set_committing false l1). split; [|done]. rewrite Hz in Hok.
    split; try done; cbn; try congruence; try (by destruct Hok).
Qed.
End log.

(** ** Example: the program in the file a, run by a process in the root directory. *)
Definition ex_proc_x : proc := set_pid 7 (set_kstack 4096 (set_guardpg 4096 ex_proc)).
Definition ex_x : @est (@sysst jview) :=
  {| ev := {| km := ex_k; vdso_text_page := 0; vdso_ticks_page := 0; kpgdir := 0; cr3 := 0 |}; ep := ex_proc_x;
     ef := {| sf := fs_t; nop := 0; cwd := 0 |} |}.
Definition mem_idle (b : jview) : Prop := b_rep b view_t.
Definition root_only (i : nat) : Z := 1.

Lemma ex_program : ∃ I, (content sb_ex cont_t <$> path_inode sb_ex view_t root_only 0 [97]) ≫= program = Some (4096, 4104, I) ∧ I 4096 = 235.
Proof.
  set (o := (_ <$> _) ≫= program).
  assert (H : (match o with Some (entry, sz, J) => (entry =? 4096) && (sz =? 4104) && (J 4096 =? 235) | None => false end) = true) by (clear; by vm_compute).
  clearbody o. destruct o as [[[entry sz] I]|]; [|done]. apply andb_prop in H as [[->%Z.eqb_eq ->%Z.eqb_eq]%andb_prop H%Z.eqb_eq]. by exists I.
Qed.
Lemma ex_callable : callable ex_kend ex_x ex_p ex_G.
Proof.
  split; [apply ex_inv|by exists 2000| |done|by left|by left].
  intros u _ Hu. change (p_guardpg (ep ex_x)) with 4096 in Hu. replace u with 1 by lia. done.
Qed.
Lemma mem_log_calls : log_calls view_t mem_idle (mret tt) (mret tt).
Proof. by split. Qed.
Lemma ex_outside : outside sb_ex ds_ex view_t mem_idle refs_t root_only 0 0 (ef ex_x).
Proof.
  split; [apply fs_at_t|]. split; [intros b Hb; apply fs_at_blk; [apply fs_at_t|done]|]. split; [done|]. split; [done|].
  intros [|j] Hj; done.
Qed.
Lemma mem_wf_dec (m : mem) : bool_decide (map_Forall (λ _ x, 0 ≤ x < 256) m) = true → mem_wf m.
Proof. by intros H%bool_decide_eq_true. Qed.
Lemma mem_wf_t b : mem_wf (j_cont view_t b).
Proof.
  cbn. unfold cont_t. destruct (decide (b = 32)) as [->|]; [apply mem_wf_dec; by vm_compute|]. rewrite fn_lookup_insert_ne by done.
  destruct (decide (b = 33)) as [->|]; [apply mem_wf_dec; by vm_compute|]. rewrite fn_lookup_insert_ne by done.
  destruct (decide (b = 35)) as [->|]; [apply mem_wf_dec; by vm_compute|]. rewrite fn_lookup_insert_ne by done.
  destruct (decide (b = 34)) as [->|]; [apply mem_wf_dec; by vm_compute|]. rewrite fn_lookup_insert_ne by done.
  destruct (decide (b = 1)) as [->|]; [apply mem_wf_dec; by vm_compute|]. rewrite fn_lookup_insert_ne by done. apply mem_wf_empty.
Qed.

Lemma exec_correct_witness :
  wp (@exec _ (fs_files (λ _, None) (mret tt) (mret tt)) ex_kend 2149580800 0 4096 [97] [[97]; [98; 99]]) ex_x (λ x s', x = 0 ∧
    p_name (ep s') = [97] ++ [0] ++ replicate 14 0 ∧ tf_eip (p_tf (ep s')) = 4096 ∧ user_read (km (ev s')) (p_pgdir (ep s')) 4096 = Some 235).
Proof.
  destruct ex_program as (I&E&E1).
  eapply wp_mono; [|apply (exec_correct (λ _, None) (mret tt) (mret tt) sb_ex ds_ex view_t mem_idle refs_t root_only 0 0
    ex_kend 2149580800 0 4096 [97] [[97]; [98; 99]] ex_x ex_p ex_G)].
  - intros x s' [_ H]. change (j_cont view_t) with cont_t in H. rewrite E in H.
    destruct H as (->&d&sp&us&[Hp _ _ Hi _ _ _ _ _ _]). rewrite Hp. split; [reflexivity|]. split; [reflexivity|]. split; [reflexivity|].
    rewrite <- E1. apply Hi. clear. by vm_compute.
  - clear; done.
  - clear; done.
  - clear; done.
  - apply mem_log_calls.
  - apply two_free_t.
  - clear. intros i. unfold refs_t. by case_decide.
  - clear; done.
  - apply mem_wf_t.
  - apply ex_outside.
  - apply ex_callable.
  - clear. cbn. unfold MAXARG. lia.
  - clear. by vm_compute.
  - clear. intros m Hm. assert (Hp : path_inode sb_ex view_t root_only 0 [97] = Some 2) by (clear; by vm_compute).
    rewrite Hp in Hm. injection Hm as <-. clear. by vm_compute.
  - intros entry sz J H. change (j_cont view_t) with cont_t in H. rewrite E in H. injection H as <- <- <-. clear. by split; vm_compute.
Defined.
